(* ===== verification/_CoqProject ===== *)
-Q . S2P
Prelude.v
Bytes.v
CStr.v
PeStructs.v
TestImages.v
PePriv.v
PeHeaders.v
PeImports.v
Relocations.v
ModuleList.v
PebLdr.v
ExportTable.v
PeSymbols.v
HandleTable.v
HandleConc.v
Ntdll.v
NtSync.v
NtFiles.v
CritSec.v
KernelSync.v
Thunks.v
ImageMapper.v
OrdinalTable.v
InsertionSort.v
ImportTable.v
DllPath.v
RipScan.v
ImportResolve.v
DllLoader.v
Kernel32Module.v
MessageQueue.v
BackendState.v
KeyTables.v
BackendEvents.v
Kernel32Path.v
Kernel32String.v
FindFiles.v
KernelFile.v
VirtualMem.v
Audio.v
DSound.v
WndClass.v
Resource.v
Dialog.v
Windows.v
DialogRun.v
WindowsSafe.v
DialogProps.v
RbSurface.v
RbWindow.v
Registry.v
DDrawDesc.v
DDraw.v
DDrawSafe.v
DDrawRun.v
DDrawSdl.v
WineHeap.v
MmapHeap.v
MidiStream.v
MidiParse.v
MidiConc.v
MidiSafe.v
MidiRun.v
Joystick.v
