(* ===== verification/Prelude.v ===== *)
(** * my_wine: a verified model of a user-space PE loader

    my_wine loads Windows executables (PE32 and PE32+) into a Linux process and
    runs them against its own implementation of the Windows system calls.  This
    library models the parts that decide what is loaded and where, and the
    kernel objects behind the system calls, with the theorems that make them
    correct.

    ** The program and its model

    The loader reads a file (src/pe_*.c, src/pe_priv.h), maps it
    (src/loader/image_mapper.c, relocations.c), registers it
    (src/loader/module_list.c, peb_ldr.c), and resolves its imports by looking
    names up in a table of stubs and in the exports of the loaded modules
    (src/loader/import_table.c, import_lookup.c, export_table.c,
    ordinal_table.c, dll_path.c, import_resolve.c).  The guest then calls the
    NT handlers of src/msvcrt/ntdll_*.c, whose objects live in the handle table
    of src/msvcrt/handle_manager.c, and the kernel32, user32 and dsound functions
    of src/msvcrt, which reach the host through the backend of src/backend/sdl2.

    - Prelude, Bytes, CStr: machine integers at their width, the two builds
      (class [Arch]: size_t of 64 bits, or 32 bits with MY_WINE32), results of C
      functions ([Ret], [Fail] for an error return, [Fault] for an access
      outside of every object), byte buffers with checked loads and stores, and
      the string functions of include/syscall_safe_utils.h and src/common.c.
    - PeStructs, PePriv: the on-disk structures of include/pe.h with their byte
      codec, and the accessors of src/pe_priv.h.  TestImages holds small
      concrete files for the witnesses.
    - PeHeaders, PeImports, PeSymbols: the parsers of src/pe_headers.c,
      src/pe_imports.c and src/pe_symbols.c, on the bytes of a file.
    - Relocations, ImageMapper: src/loader/relocations.c and image_mapper.c; the
      mapped image is a byte buffer, mmap and mprotect are parameters.
    - ModuleList, PebLdr, ExportTable: the module registry, the three intrusive
      lists of the PEB on a shared store of links, and export lookup.
    - OrdinalTable, InsertionSort, ImportTable, DllPath: the ordinal table, the
      in-place sort, the stub table with its two lookups, and the DLL search.
    - RipScan, ImportResolve: the scan of the code for indirect jumps
      (src/pe_rip_scan.c), and the two passes over the import descriptors and
      thunks of a mapped image (import_resolve.c, import_flat.c).
    - DllLoader: load_dll of dll_loader.c, which composes the mapper, the
      registry, the PEB lists and import resolution, and
      resolve_module_imports, which loads the DLLs a module needs.
    - HandleTable, HandleConc: the handle table and its operations, and threads
      that interleave them under the spinlock, as a step relation.
    - Ntdll, NtSync, NtFiles: the NT handlers as state-passing programs over the
      guest's memory, the handle table, the kernel-object arrays and a log of
      system calls; then the theorems on events and waits, and on files, views
      and time.
    - CritSec, KernelSync: the synchronization functions of kernel32_sync.c over these
      handlers: critical sections as threads that interleave their accesses, over
      any events of class [Events], and events, waits and mutexes in sequence.
    - Thunks: the machine code that thunk_gen.c writes for each system call, with a
      model of the processor for the instructions that occur in it; the dispatcher's
      reads of arguments (dispatcher.c) and the place of its stack
      (dispatcher_entry.c).
    - Kernel32Module, Kernel32Path, Kernel32String: LoadLibraryA and its siblings
      over the loader (kernel32_module.c), the current directory and DOS paths
      over stat and readdir (kernel32_path.c), strings (kernel32_string.c).
    - FindFiles, KernelFile: FindFirstFileA and its siblings with the pattern matching
      (launcher_kernel32_stubs.c, kernel32_file.c), over stat and readdir; files over
      the host's descriptors (kernel32_file.c, kernel32_console.c), through the handle
      table in the 64-bit build and a table of their own in the 32-bit build, for any
      host of class [Host].
    - VirtualMem: VirtualAlloc, VirtualFree and VirtualProtect over the NT handlers, with
      the table of allocations (kernel32_memory.c).
    - BackendState, KeyTables, BackendEvents: the window routes, focus and shutdown
      of the SDL backend, the key tables, and the translation of SDL events into
      Windows messages with the event watch (rb_event*.c, rb_input.c).
    - MessageQueue: GetMessageA and PeekMessageA over the two ring buffers
      (user32_message*.c), for any backend that delivers events; the guest's hook
      procedure is a program of the same calls, which may be hooked again.
    - Resource: the search through the resource directory of an image
      (resource_win32.c, kernel32_resource.c) on its bytes, and LoadStringA
      (user32_dialog_resources.c); trees as the specification of a directory.
    - Dialog: the tables of dialog controls and modal dialogs, every control message
      and the functions on items (user32_dialog_controls.c, user32_dialog_state.c,
      user32_dialog_items.c, user32_dialog_modal.c), with controls as lists of
      strings as the specification.
    - WndClass, Windows, DialogRun, WindowsSafe: window classes
      (user32_class_registry.c); windows, focus and message dispatch (user32_window*.c,
      user32_focus.c, user32_message_dispatch.c) as programs over the handle table, a
      heap of window entries and any backend of class [Backend]; dialogs over windows,
      controls and resources (the other user32_dialog_*.c and launcher_ui_stubs.c);
      guests are programs whose window and dialog procedures call back into user32,
      nested to any depth.  DialogProps: numbers in dialog items and runs of dialogs.
    - RbSurface, RbWindow: the surfaces, flip chains and palettes, and the windows
      and cursors of the SDL backend (rb_surface*.c, rb_palette.c, rb_window*.c),
      which is the [Backend] that user32 runs on.
    - Registry: keys and values of advapi32_registry.c over the handle table.
    - WineHeap, MmapHeap: the heap functions of src/heap/wine_heap.c over any
      backend that keeps the laws of heap_backend.h (class [HeapBackendLaws]), and
      the backend of the 32-bit program (pe32_mmap_heap_backend.c) as an instance.
    - MidiStream, MidiParse, MidiConc, MidiSafe, MidiRun: MIDI streams
      (winmm_doom95*.c).  The guest's functions are programs over single accesses to
      the shared state, the worker thread is a state machine with one state per
      access, and both interleave; MidiSafe gives the protocol of ownership that the
      programs follow and the invariant, MidiRun its preservation and consequences.
      FluidSynth is a parameter.  Joystick holds the joystick functions.
    - Audio, DSound: the sound buffers, the mixer and SDL's callback
      (rb_audio*.c), and the DirectSound COM objects over them (dsound_*.c).
    - DDrawDesc, DDraw, DDrawSafe, DDrawRun, DDrawSdl: the bytes of DirectDraw's
      surface descriptors, the four COM objects with their methods (ddraw_*.c) as
      programs over heaps of objects and any backend of class [DdBackend], the
      specification of their lifetime, guest programs that use them, and the SDL
      backend as an instance of the class.

    ** What the theorems show

    - Parsing: the accepted headers are exactly the valid ones, no parser reads
      outside of the file, and what is accepted has its raw data, descriptors
      and names inside the file ([parse_nt_headers_correct],
      [parse_headers_no_fault], [parse_imports_correct], ...).
    - Loading: the image of a sound file holds exactly the headers and sections,
      relocated when it is moved, with the right protections
      ([map_image_correct], [apply_relocations_correct]).
    - Linking: modules and exports are found exactly when they are there, the
      PEB lists follow the load order under every sequence of loads and unloads,
      imports resolve to the first match of each tier, the address tables of an
      image are bound to exactly these addresses, DLLs are found in the search
      order ([ldr_run_refines], [lookup_export_correct],
      [resolve_loader_import_correct], [resolve_imports_correct],
      [find_dll_path_correct], ...).  Loading a library, nested loads and
      failures included, changes only the slots it takes, apart from what the
      DllMain of the modules in them does, and restores the main program's globals,
      and its recursion is bounded
      ([load_library_keeps_loaded], [load_library_nesting_bounded]).
    - Kernel objects: the handle table refines a finite map, sequentially and
      under every interleaving; the event handlers refine a map of events, with what they
      store for the guest; waits
      return or expire ([handle_table_refines],
      [handle_operations_linearizable], [event_handlers_refine], ...); critical
      sections exclude under every interleaving, and the events of kernel32 behave
      like a map of events ([critical_sections_exclude], [kernel_events_refine]).
    - System calls: the generated code of a thunk enters the dispatcher with its
      number and the guest's arguments and returns to the guest
      ([thunks_call_dispatcher], [unix_stack_disjoint]).
    - Libraries: LoadLibraryA and FreeLibraryA count references and unload
      exactly at the last one, after DllMain was told to detach ([FreeLibraryA_unloads],
      [library_calls_only_count]).
    - Messages: a message loop over the ring buffers behaves like one over two
      lists, posted messages keep their order, a shutdown closes every window
      once, key events arrive once, unless there is no memory for their message, and
      waiting keeps the backend's queues sound
      ([message_loop_refines], [shutdown_closes_every_window],
      [key_events_delivered_once], [rb_event_wait_safe]).
    - Windows: user32, dialogs included, and the SDL backend keep every handle on a
      structure of its own under every guest that does not free a window in use, and
      every structure under a handle unless the handle table fills up; and guests
      with passive procedures always run to the end ([sdl_windows_survive_reentrancy],
      [passive_guest_runs]); classes, window properties, text and palette colours
      are read back, a flip shows and exchanges the buffers, and a new surface is
      locked inside of its buffer ([registered_class_is_found],
      [window_long_roundtrip], [window_text_roundtrip], [flip_exchanges_buffers],
      [created_surface_lockable]).
    - Dialogs and resources: every sequence of control calls behaves like one on lists
      of strings, a selection stays with its item, numbers stored in items are read
      back, and resources are found exactly when the directory has them, strings with
      their characters ([dialog_controls_refine], [selection_follows_item],
      [dialog_int_roundtrip], [resource_found], [LoadStringA_correct]).
    - Paths and strings: a DOS path resolves to the host path with the same
      components and files are found in any case; the exact condition under which
      the resolver overruns its buffer ([wine_resolve_path_correct],
      [file_found_in_any_case], [wine_resolve_path_overflows]).
    - Files: every sequence of file calls behaves like a map from handles to
      descriptors, a search lists the files that its pattern accepts, as long as
      the pattern is unambiguous on the names, and memory is released with the size
      given or recorded ([kernel_files_refine], [list_files_correct],
      [virtual_memory_refines], [VirtualProtect_pages]).
    - Registry: every program of registry calls behaves like two finite maps, memory
      running out included
      ([registry_refines]).
    - Sound: the fixed-point mixer is a reference mixer over a circular buffer, no
      sequence of calls and callbacks leaves the buffers, and COM objects live
      exactly as long as they are referenced, linked from their device ([looping_buffer_wraps],
      [audio_operations_safe], [objects_live_as_long_as_referenced]).
    - Heap: the heap functions of the 32-bit program refine a store of disjoint
      blocks, up to the errors of mmap that the code does not notice ([heap_functions_refine]).
    - MIDI: under every interleaving of the guest and the worker no freed event or
      deleted synthesizer is used and nothing leaks; events are played in the order
      of the queue, none twice and none left out; a stopped worker ends in every fair
      schedule; a buffer is
      parsed into the events that it encodes, each at its tick ([midi_threads_safe],
      [midi_events_in_order], [midi_stop_joins], [midi_buffer_parsed]).
    - DirectDraw: no program that keeps to its references makes a method touch a
      freed object, whatever surfaces, palettes and clippers it shares and releases,
      over any backend, until a flip chain runs out of memory for its back
      buffer; palette entries and descriptors are read back as they were
      written, and a descriptor is written inside its block for exactly the sizes
      that the theorem lists ([ddraw_references_sound], [palette_entries_roundtrip],
      [surface_desc_roundtrip], [surface_desc_fits_block]).
    - Where the code does not do what it means to, a theorem shows the
      behaviour on a concrete or general input (for example
      [wait_fractional_timeout_never_returns], [debug_line_overflows]).

    ** Fuel and bounds

    A loop over a list or counted by an index is structural.  Where the C loop
    has no such bound the model takes fuel: the import descriptors, the
    thunks and the relocation blocks advance by at least 20, 4 and 8 bytes, so
    the file, image and directory sizes bound them; the binary searches halve an interval bounded by
    the table length; the walk over the PEB lists visits at most the 16 slots of
    the registry.  The theorems are proved with the fuel the definitions fix, so
    running out of it is excluded.  The waits of NtWaitForSingleObject are
    unbounded in the code: their fuel is an argument, and the theorems give the
    number of iterations that is enough, or that none is.  Likewise GetMessageA and
    rb_event_wait: the fuel counts the events waited for, and in a guest's run how
    deeply window or hook procedures nest.  The mixer's inner loop
    subtracts the buffer's length from the cursor; its fuel is their quotient.  The walk over the buffers of a DirectSound device has one step more than there
    are buffers; the theorem excludes that it runs out.  The
    release of a DirectDraw surface recurses along attached surfaces; its fuel is
    their number, and running out of it is a fault that the theorem excludes.  The
    event loop of midi_stream_append_buffer consumes at least 12 bytes per event; the
    attempts at opening an audio driver are unbounded in the code, and their fuel is
    an argument.

    ** Not modelled

    The assembly entry of the dispatcher, the switch that the build generates, the TEB
    and segment registers, the 64-bit allocator (vendored musl code), painting, the
    bytes of pixels, the C runtime stubs, and diagnostic output other
    than [debug_resolved_import].  System calls, SDL, realloc and floating-point
    gains are parameters of the definitions that use them. *)
From stdpp Require Export base list numbers strings gmap.
From Stdlib Require Export ZArith Lia.

#[export] Set Default Goal Selector "!".
Open Scope Z_scope.

(** ** Machine integers

    A w-bit unsigned value is a [Z] in [0, 2^w); [wrap w] is C's conversion to
    an unsigned type and [swrap w] its conversion to a signed one. *)
Definition wrap (w z : Z) : Z := z mod 2 ^ w.
Definition swrap (w z : Z) : Z := (z + 2 ^ (w - 1)) mod 2 ^ w - 2 ^ (w - 1).

Abbreviation u8 := (wrap 8).
Abbreviation u16 := (wrap 16).
Abbreviation u32 := (wrap 32).
Abbreviation u64 := (wrap 64).
Abbreviation i16 := (swrap 16).
Abbreviation i32 := (swrap 32).
Abbreviation i64 := (swrap 64).

Definition UINT32_MAX : Z := 4294967295.

Definition in_u (w z : Z) : Prop := 0 <= z < 2 ^ w.

(** The two builds: [my_wine64] (size_t and pointers of 64 bits) and
    [my_wine32] (32 bits, the sources compiled with MY_WINE32). *)
Class Arch := { is_my_wine32 : bool }.
Definition arch64 : Arch := {| is_my_wine32 := false |}.
Definition arch32 : Arch := {| is_my_wine32 := true |}.

Definition ptr_bits {A : Arch} : Z := if is_my_wine32 then 32 else 64.
(** Conversion to size_t / uintptr_t. *)
Definition usize {A : Arch} (z : Z) : Z := wrap ptr_bits z.

(** ** Results of C functions

    [Ret a]: the function succeeds with [a].  [Fail]: it reports failure
    through its return value (-1, NULL, false).  [Fault]: it touches memory
    outside of every object it may touch (undefined behaviour). *)
Inductive outcome (A : Type) : Type :=
| Ret (a : A)
| Fail
| Fault.
Arguments Ret {_} _.
Arguments Fail {_}.
Arguments Fault {_}.

#[export] Instance outcome_ret : MRet outcome := fun _ a => Ret a.
#[export] Instance outcome_bind : MBind outcome := fun _ _ f m =>
  match m with Ret a => f a | Fail => Fail | Fault => Fault end.
#[export] Instance outcome_fmap : FMap outcome := fun _ _ f m =>
  match m with Ret a => Ret (f a) | Fail => Fail | Fault => Fault end.

#[export] Instance outcome_eq_dec {A} `{EqDecision A} : EqDecision (outcome A).
Proof. solve_decision. Defined.

(** A C guard: [if (!b) return -1;] *)
Definition check (b : bool) : outcome unit := if b then Ret tt else Fail.
(** An access that is undefined unless [b]. *)
Definition access (b : bool) : outcome unit := if b then Ret tt else Fault.

Definition of_option {A} (o : option A) : outcome A :=
  match o with Some a => Ret a | None => Fail end.
(** Dereference: [None] stands for an object that does not exist. *)
Definition deref {A} (o : option A) : outcome A :=
  match o with Some a => Ret a | None => Fault end.

Definition no_fault {A} (m : outcome A) : Prop := m <> Fault.

(** ** Tactics *)

(** Linear arithmetic in the presence of [wrap] and [swrap]. *)
Ltac width_lia :=
  unfold in_u, usize, ptr_bits, wrap, swrap, UINT32_MAX in *;
  repeat match goal with |- context [@is_my_wine32 ?A] => destruct (@is_my_wine32 A)
    | H : context [@is_my_wine32 ?A] |- _ => destruct (@is_my_wine32 A) end;
  Z.to_euclidean_division_equations; lia.

(** Case analysis on the condition of a [match] or [if] of the goal. *)
Ltac case_goal :=
  match goal with
  | |- context [if ?b then _ else _] => let E := fresh "E" in destruct b eqn:E
  | |- context [match ?x with _ => _ end] => let E := fresh "E" in destruct x eqn:E
  end.

(** The same for a hypothesis. *)
Ltac case_hyp H :=
  match type of H with
  | context [if ?b then _ else _] => let E := fresh "E" in destruct b eqn:E
  | context [match ?x with _ => _ end] => let E := fresh "E" in destruct x eqn:E
  end.

(** ** Lemmas on [outcome] *)

Lemma bind_Ret {A B} (m : outcome A) (f : A -> outcome B) b :
  m ≫= f = Ret b <-> exists a, m = Ret a /\ f a = Ret b.
Proof. destruct m; simpl; naive_solver. Qed.

Lemma bind_Fail {A B} (m : outcome A) (f : A -> outcome B) :
  m ≫= f = Fail <-> m = Fail \/ exists a, m = Ret a /\ f a = Fail.
Proof. destruct m; simpl; naive_solver. Qed.

Lemma bind_no_fault {A B} (m : outcome A) (f : A -> outcome B) :
  no_fault m -> (forall a, m = Ret a -> no_fault (f a)) -> no_fault (m ≫= f).
Proof. unfold no_fault. destruct m; simpl; naive_solver. Qed.

Lemma check_Ret b x : check b = Ret x <-> b = true.
Proof. destruct b, x; simpl; naive_solver. Qed.

Lemma check_no_fault b : no_fault (check b).
Proof. by destruct b. Qed.

Lemma Ret_no_fault {A} (a : A) : no_fault (Ret a).
Proof. done. Qed.

Lemma Fail_no_fault {A} : no_fault (@Fail A).
Proof. done. Qed.

Lemma of_option_no_fault {A} (o : option A) : no_fault (of_option o).
Proof. by destruct o. Qed.

Lemma access_true b : b = true -> access b = Ret tt.
Proof. by intros ->. Qed.

Create HintDb wine.
#[export] Hint Resolve check_no_fault Ret_no_fault Fail_no_fault of_option_no_fault : wine.
#[export] Hint Extern 1 (_ <= _) => lia : wine.
#[export] Hint Extern 1 (_ < _) => lia : wine.

(** Decompose an equation [m = Ret b] between monadic programs. *)
Ltac inv_ret :=
  repeat match goal with
  | H : (_ ≫= _) = Ret _ |- _ => apply bind_Ret in H as (? & ? & H)
  | H : check _ = Ret _ |- _ => apply check_Ret in H
  | H : Ret _ = Ret _ |- _ => injection H as H; subst
  | H : Fail = Ret _ |- _ => discriminate H
  | H : Fault = Ret _ |- _ => discriminate H
  | u : unit |- _ => destruct u
  end.

(** ** Lemmas on machine integers *)

Lemma wrap_range w z : 0 <= w -> 0 <= wrap w z < 2 ^ w.
Proof. intros. unfold wrap. apply Z.mod_pos_bound. lia. Qed.

Lemma wrap_small w z : 0 <= z < 2 ^ w -> wrap w z = z.
Proof. apply Z.mod_small. Qed.

Lemma wrap_wrap w z : wrap w (wrap w z) = wrap w z.
Proof. apply Zmod_mod. Qed.

Lemma wrap_add_l w a b : wrap w (wrap w a + b) = wrap w (a + b).
Proof. apply Zplus_mod_idemp_l. Qed.

Lemma wrap_add_r w a b : wrap w (a + wrap w b) = wrap w (a + b).
Proof. apply Zplus_mod_idemp_r. Qed.

Lemma swrap_range w z : 1 <= w -> - 2 ^ (w - 1) <= swrap w z < 2 ^ (w - 1).
Proof.
  intros Hw. unfold swrap. pose proof (Z.pow_pos_nonneg 2 (w - 1) ltac:(lia) ltac:(lia)).
  assert (E : 2 ^ w = 2 * 2 ^ (w - 1)) by (rewrite <- Z.pow_succ_r by lia; f_equal; lia).
  pose proof (Z.mod_pos_bound (z + 2 ^ (w - 1)) (2 ^ w) ltac:(lia)). lia.
Qed.
Lemma swrap_small w z : 1 <= w -> - 2 ^ (w - 1) <= z < 2 ^ (w - 1) -> swrap w z = z.
Proof.
  intros Hw Hz. unfold swrap.
  assert (2 ^ w = 2 * 2 ^ (w - 1)) by (rewrite <- Z.pow_succ_r by lia; f_equal; lia).
  rewrite Z.mod_small; lia.
Qed.

Lemma ptr_bits_cases {A : Arch} : ptr_bits = 32 \/ ptr_bits = 64.
Proof. unfold ptr_bits. destruct is_my_wine32; auto. Qed.

Lemma usize_u32 {A : Arch} z : 0 <= z < 2 ^ 32 -> usize z = z.
Proof. intros. width_lia. Qed.

(** ** Lemmas on lists *)

Lemma take_drop_insert_ne {A} (l : list A) (i j : nat) n x :
  (i < j \/ j + n <= i)%nat -> take n (drop j (<[i:=x]> l)) = take n (drop j l).
Proof.
  intros H. apply list_eq. intros k.
  destruct (decide (k < n)%nat).
  - rewrite !lookup_take_lt, !lookup_drop by lia.
    apply list_lookup_insert_ne. lia.
  - rewrite !lookup_take_ge by lia. done.
Qed.
