(* ===== verification/Bytes.v ===== *)
(** * Byte buffers

    Memory regions of the loader (the file mapping, the mapped image) as lists
    of byte values, with C's little-endian loads and stores.  A load or store
    that is not entirely inside the region is a [Fault]. *)
From S2P Require Import Prelude.

Abbreviation bytes := (list Z).

Definition wf_bytes (b : bytes) : Prop := Forall (in_u 8) b.

Definition blen (b : bytes) : Z := Z.of_nat (length b).

(** ** The mmap system call

    [ret] is what the kernel returns: an address, or minus an error number.  The 64-bit
    build turns every error into MAP_FAILED (syscalls_inline.h); the 32-bit build
    returns the value as it is (mmap2_asm.S), so that only the error 1 is MAP_FAILED. *)
Definition MAP_FAILED {A : Arch} : Z := usize (-1).
Definition is_errno {A : Arch} (ret : Z) : bool := usize (-4095) <=? ret.
Definition INLINE_SYSCALL_MMAP {A : Arch} (ret : Z) : Z :=
  if is_my_wine32 then ret else if 2 ^ 63 <=? ret then MAP_FAILED else ret.

(** A mapping ([None]: the kernel has refused it, with an error other than 1) that a
    caller compares with MAP_FAILED and then accesses: in the 32-bit build the error
    goes unnoticed and the access is at the address of an error number. *)
Definition checked_mapping {A : Arch} (m : option Z) (failed : outcome Z) : outcome Z :=
  match m with Some base => Ret base | None => if is_my_wine32 then Fault else failed end.

(** Rounding down to a page. *)
Lemma land_pages w y : 12 <= w -> 0 <= y < 2 ^ w -> Z.land y (wrap w (- 4096)) = y / 4096 * 4096.
Proof.
  intros Hw Hy. assert (E : wrap w (- 4096) = Z.ldiff (Z.ones w) (Z.ones 12)).
  { rewrite Z.ldiff_ones_r, Z.shiftl_mul_pow2, Z.shiftr_div_pow2, Z.ones_div_pow2, Z.ones_equiv by lia. unfold wrap.
    assert (E : 2 ^ w = 2 ^ (w - 12) * 2 ^ 12) by (rewrite <- Z.pow_add_r by lia; f_equal; lia).
    pose proof (Z.pow_pos_nonneg 2 (w - 12) ltac:(lia) ltac:(lia)). change (2 ^ 12) with 4096 in *.
    symmetry. apply (Z.mod_unique_pos _ _ (-1)); lia. }
  rewrite E. assert (E' : Z.land y (Z.ldiff (Z.ones w) (Z.ones 12)) = Z.ldiff (Z.land y (Z.ones w)) (Z.ones 12)).
  { apply Z.bits_inj'. intros k Hk. by rewrite Z.land_spec, !Z.ldiff_spec, Z.land_spec, andb_assoc. }
  by rewrite E', Z.land_ones, (Z.mod_small y), Z.ldiff_ones_r, Z.shiftl_mul_pow2, Z.shiftr_div_pow2 by lia.
Qed.

(** ** Reading and writing *)

(** The value of a little-endian byte sequence, and its inverse. *)
Fixpoint le_combine (b : bytes) : Z :=
  match b with [] => 0 | h :: t => h + 256 * le_combine t end.

Fixpoint le_split (n : nat) (z : Z) : bytes :=
  match n with O => [] | S n => z mod 256 :: le_split n (z / 256) end.

Definition in_range (off len size : Z) : bool :=
  (0 <=? off) && (0 <=? len) && (off + len <=? size).

Definition slice (off len : Z) (b : bytes) : bytes :=
  take (Z.to_nat len) (drop (Z.to_nat off) b).

(** Replace the bytes of [b] from [off] by [src] (which fits). *)
Definition splice (off : Z) (src b : bytes) : bytes :=
  take (Z.to_nat off) b ++ src ++ drop (Z.to_nat off + length src) b.

Definition load_bytes (off len : Z) (b : bytes) : outcome bytes :=
  access (in_range off len (blen b)) ≫= fun _ => Ret (slice off len b).

Definition store_bytes (off : Z) (src b : bytes) : outcome bytes :=
  access (in_range off (blen src) (blen b)) ≫= fun _ => Ret (splice off src b).

(** [*(uintN_t * )(p + off)] with N = 8 * n. *)
Definition load (n : nat) (off : Z) (b : bytes) : outcome Z :=
  s ← load_bytes off (Z.of_nat n) b; Ret (le_combine s).

Definition store (n : nat) (off v : Z) (b : bytes) : outcome bytes :=
  store_bytes off (le_split n v) b.

(** ** The codec *)

Lemma length_le_split n z : length (le_split n z) = n.
Proof. revert z. induction n; intros; simpl; auto. Qed.

Lemma wf_le_split n z : wf_bytes (le_split n z).
Proof.
  revert z. induction n; intros; simpl; constructor; [width_lia | apply IHn].
Qed.

Lemma pow256_succ n : 2 ^ (8 * Z.of_nat (S n)) = 256 * 2 ^ (8 * Z.of_nat n).
Proof.
  replace (8 * Z.of_nat (S n)) with (8 + 8 * Z.of_nat n) by lia.
  rewrite Z.pow_add_r by lia. done.
Qed.

Lemma le_combine_split n z : le_combine (le_split n z) = wrap (8 * Z.of_nat n) z.
Proof.
  revert z. induction n as [|n IH]; intros z.
  - simpl. unfold wrap. change (2 ^ (8 * Z.of_nat 0)) with 1. by rewrite Z.mod_1_r.
  - simpl le_split. simpl le_combine. rewrite IH. unfold wrap.
    rewrite pow256_succ, Z.rem_mul_r by lia. done.
Qed.

Lemma le_combine_range b :
  wf_bytes b -> 0 <= le_combine b < 2 ^ (8 * blen b).
Proof.
  unfold blen. induction 1 as [|x b Hx Hb IH]; simpl le_combine; [done|].
  simpl length. rewrite pow256_succ. unfold in_u in Hx. lia.
Qed.

Lemma le_split_combine b : wf_bytes b -> le_split (length b) (le_combine b) = b.
Proof.
  induction 1 as [|x b Hx Hb IH]; simpl; [done|].
  unfold in_u in Hx. f_equal; [width_lia|].
  replace ((x + 256 * le_combine b) / 256) with (le_combine b) by width_lia. done.
Qed.

(** ** Slices and splices *)

Lemma in_range_spec off len size :
  in_range off len size = true <-> 0 <= off /\ 0 <= len /\ off + len <= size.
Proof. unfold in_range. lia. Qed.

Lemma length_slice off len b :
  in_range off len (blen b) = true -> length (slice off len b) = Z.to_nat len.
Proof.
  rewrite in_range_spec. unfold blen, slice. intros.
  rewrite length_take, length_drop. lia.
Qed.

Lemma length_splice off src b :
  in_range off (blen src) (blen b) = true -> length (splice off src b) = length b.
Proof.
  rewrite in_range_spec. unfold blen, splice. intros.
  rewrite !length_app, length_take, length_drop. lia.
Qed.

Lemma lookup_splice_in off src b (i : nat) :
  in_range off (blen src) (blen b) = true -> (i < length src)%nat ->
  splice off src b !! (Z.to_nat off + i)%nat = src !! i.
Proof.
  rewrite in_range_spec. unfold blen, splice. intros.
  assert (length (take (Z.to_nat off) b) = Z.to_nat off) by (rewrite length_take; lia).
  rewrite lookup_app_r by lia.
  replace (Z.to_nat off + i - _)%nat with i by lia.
  rewrite lookup_app_l by lia. done.
Qed.

Lemma lookup_splice_out off src b (i : nat) :
  in_range off (blen src) (blen b) = true ->
  (i < Z.to_nat off \/ Z.to_nat off + length src <= i)%nat ->
  splice off src b !! i = b !! i.
Proof.
  rewrite in_range_spec. unfold blen, splice. intros ? Hi.
  assert (length (take (Z.to_nat off) b) = Z.to_nat off) by (rewrite length_take; lia).
  destruct Hi.
  - rewrite lookup_app_l by lia. by rewrite lookup_take_lt by lia.
  - rewrite !lookup_app_r by lia. rewrite lookup_drop. f_equal. lia.
Qed.

Lemma slice_splice_same off src b :
  in_range off (blen src) (blen b) = true ->
  slice off (blen src) (splice off src b) = src.
Proof.
  intros Hr. apply list_eq. intros i. unfold slice, blen. rewrite Nat2Z.id.
  destruct (decide (i < length src)%nat).
  - rewrite lookup_take_lt, lookup_drop by lia. by apply lookup_splice_in.
  - rewrite lookup_take_ge, lookup_ge_None_2 by lia. done.
Qed.

Lemma slice_splice_disjoint off src b o len :
  in_range off (blen src) (blen b) = true -> 0 <= o ->
  o + len <= off \/ off + blen src <= o ->
  slice o len (splice off src b) = slice o len b.
Proof.
  intros Hr Ho Hd. apply list_eq. intros i. unfold slice.
  destruct (decide (i < Z.to_nat len)%nat).
  - rewrite !lookup_take_lt, !lookup_drop by lia.
    apply lookup_splice_out; [done|]. apply in_range_spec in Hr. unfold blen in *. lia.
  - by rewrite !lookup_take_ge by lia.
Qed.

Lemma wf_slice off len b : wf_bytes b -> wf_bytes (slice off len b).
Proof. intros. unfold slice, wf_bytes. by apply Forall_take, Forall_drop. Qed.

(** Two adjacent writes are one. *)
Lemma splice_app off a c b :
  0 <= off -> off + blen a + blen c <= blen b ->
  splice (off + blen a) c (splice off a b) = splice off (a ++ c) b.
Proof.
  unfold blen. intros Ho Hl. unfold splice.
  replace (Z.to_nat (off + Z.of_nat (length a))) with (Z.to_nat off + length a)%nat by lia.
  set (p := take (Z.to_nat off) b). set (q := drop (Z.to_nat off + length a) b).
  assert (Lp : length p = Z.to_nat off) by (unfold p; rewrite length_take; lia).
  rewrite !(assoc_L (++) p a q).
  rewrite take_app_length' by (rewrite length_app; lia).
  rewrite drop_app_ge by (rewrite length_app; lia).
  unfold q. rewrite drop_drop, !length_app, <- !(assoc_L (++)). do 4 f_equal. lia.
Qed.

Lemma wf_splice off src b : wf_bytes b -> wf_bytes src -> wf_bytes (splice off src b).
Proof.
  intros. unfold splice, wf_bytes.
  apply Forall_app; split; [by apply Forall_take|].
  apply Forall_app; split; [done|]. by apply Forall_drop.
Qed.

Lemma splice_splice_comm o1 s1 o2 s2 b :
  in_range o1 (blen s1) (blen b) = true -> in_range o2 (blen s2) (blen b) = true ->
  o1 + blen s1 <= o2 \/ o2 + blen s2 <= o1 ->
  splice o1 s1 (splice o2 s2 b) = splice o2 s2 (splice o1 s1 b).
Proof.
  intros H1 H2 Hd.
  assert (R1 : in_range o1 (blen s1) (blen (splice o2 s2 b)) = true)
    by (unfold blen in *; rewrite length_splice; done).
  assert (R2 : in_range o2 (blen s2) (blen (splice o1 s1 b)) = true)
    by (unfold blen in *; rewrite length_splice; done).
  pose proof H1 as H1'. pose proof H2 as H2'.
  apply in_range_spec in H1', H2'. unfold blen in *.
  apply list_eq. intros i.
  destruct (decide (Z.to_nat o1 <= i < Z.to_nat o1 + length s1)%nat);
    [|destruct (decide (Z.to_nat o2 <= i < Z.to_nat o2 + length s2)%nat)].
  - replace i with (Z.to_nat o1 + (i - Z.to_nat o1))%nat by lia.
    rewrite lookup_splice_in by (done || lia).
    rewrite lookup_splice_out by (done || lia).
    by rewrite lookup_splice_in by (done || lia).
  - rewrite lookup_splice_out by (done || lia).
    replace i with (Z.to_nat o2 + (i - Z.to_nat o2))%nat by lia.
    by rewrite !lookup_splice_in by (done || lia).
  - by rewrite !lookup_splice_out by (done || lia).
Qed.

(** ** Loads and stores *)

Lemma load_bytes_ok off len b :
  in_range off len (blen b) = true -> load_bytes off len b = Ret (slice off len b).
Proof. unfold load_bytes. by intros ->. Qed.

Lemma load_bytes_inv off len b s :
  load_bytes off len b = Ret s -> in_range off len (blen b) = true /\ s = slice off len b.
Proof. unfold load_bytes. destruct (in_range _ _ _); simpl; naive_solver. Qed.

Lemma load_ok n off b :
  in_range off (Z.of_nat n) (blen b) = true ->
  load n off b = Ret (le_combine (slice off (Z.of_nat n) b)).
Proof. intros. unfold load. by rewrite load_bytes_ok. Qed.

Lemma load_no_fault n off b :
  in_range off (Z.of_nat n) (blen b) = true -> no_fault (load n off b).
Proof. intros. by rewrite load_ok. Qed.

Lemma load_range n off b v :
  wf_bytes b -> load n off b = Ret v -> 0 <= v < 2 ^ (8 * Z.of_nat n).
Proof.
  unfold load, load_bytes. intros Hwf H.
  destruct (in_range off (Z.of_nat n) (blen b)) eqn:E; simpl in H; [|done].
  injection H as <-.
  pose proof (le_combine_range _ (wf_slice off (Z.of_nat n) b Hwf)) as R.
  unfold blen in R. rewrite length_slice in R by done.
  by rewrite Z2Nat.id in R by lia.
Qed.

Lemma load_eq n off b v :
  load n off b = Ret v -> v = le_combine (slice off (Z.of_nat n) b).
Proof.
  unfold load, load_bytes. destruct (in_range _ _ _); simpl; congruence.
Qed.

Lemma store_ok n off v b :
  in_range off (Z.of_nat n) (blen b) = true ->
  store n off v b = Ret (splice off (le_split n v) b).
Proof.
  intros. unfold store, store_bytes, blen at 1. by rewrite length_le_split, H.
Qed.

Lemma blen_le_split n v : blen (le_split n v) = Z.of_nat n.
Proof. unfold blen. by rewrite length_le_split. Qed.

Lemma store_inv n off v b b' :
  store n off v b = Ret b' ->
  in_range off (Z.of_nat n) (blen b) = true /\ b' = splice off (le_split n v) b.
Proof.
  unfold store, store_bytes. rewrite blen_le_split.
  destruct (in_range _ _ _); simpl; naive_solver.
Qed.

Lemma store_length n off v b b' : store n off v b = Ret b' -> length b' = length b.
Proof.
  intros [Hr ->]%store_inv. apply length_splice. by rewrite blen_le_split.
Qed.

Lemma load_store_same n off v b b' :
  store n off v b = Ret b' -> load n off b' = Ret (wrap (8 * Z.of_nat n) v).
Proof.
  intros H. pose proof (store_length _ _ _ _ _ H) as L.
  apply store_inv in H as [Hr ->].
  rewrite load_ok by (unfold blen in *; by rewrite L).
  rewrite <- (blen_le_split n v) at 1.
  rewrite slice_splice_same by (by rewrite blen_le_split).
  by rewrite le_combine_split.
Qed.

Lemma load_store_disjoint n m off v o b b' :
  store n off v b = Ret b' -> 0 <= o ->
  o + Z.of_nat m <= off \/ off + Z.of_nat n <= o ->
  load m o b' = load m o b.
Proof.
  intros H Ho Hd. pose proof (store_length _ _ _ _ _ H) as L.
  apply store_inv in H as [Hr ->].
  unfold load, load_bytes, blen at 1. rewrite L. fold (blen b).
  rewrite slice_splice_disjoint by (rewrite ?blen_le_split; done). done.
Qed.

Lemma wf_store n off v b b' : wf_bytes b -> store n off v b = Ret b' -> wf_bytes b'.
Proof.
  intros Hwf [_ ->]%store_inv. apply wf_splice; [done|]. apply wf_le_split.
Qed.

#[export] Hint Resolve wf_slice wf_splice wf_le_split load_no_fault : wine.
