(* ===== verification/CStr.v ===== *)
(** * C strings and the loader's libc-free helpers

    include/syscall_safe_utils.h, the string helpers of src/common.c and
    [_m_strncasecmp].  A [const char *] argument is modelled by the bytes of
    the string before its terminator ([cstr]); the end of the list is where the
    C code reads the NUL byte.  Destination buffers are byte buffers. *)
From Stdlib Require String Ascii.
From S2P Require Import Prelude Bytes.

Abbreviation cstr := (list Z).

(** The bytes of a string: nonzero unsigned chars. *)
Definition wf_cstr (s : cstr) : Prop := Forall (fun c => 1 <= c < 256) s.

(** Its decision, for concrete strings. *)
Definition wf_cstrb (s : cstr) : bool := forallb (fun c => (1 <=? c) && (c <? 256)) s.
Lemma wf_cstrb_spec s : wf_cstrb s = true -> wf_cstr s.
Proof.
  unfold wf_cstrb. rewrite forallb_forall. intros H. apply Forall_forall.
  intros x Hx%list_elem_of_In. specialize (H x Hx). lia.
Qed.


(** [*s] *)
Definition chr (s : cstr) : Z := match s with [] => 0 | c :: _ => c end.

(** The string that starts at the first byte of a buffer; [None] when no NUL
    byte follows. *)
Fixpoint cstr_from (b : bytes) : option cstr :=
  match b with
  | [] => None
  | c :: b' => if c =? 0 then Some [] else cons c <$> cstr_from b'
  end.

(** The string at offset [off] of a buffer. *)
Definition cstr_at (off : Z) (b : bytes) : option cstr := cstr_from (drop (Z.to_nat off) b).

(** A string literal. *)
Definition lit (s : string) : cstr :=
  map (fun c => Z.of_N (Ascii.N_of_ascii c)) (String.list_ascii_of_string s).

Definition syscall_safe_ascii_lower (c : Z) : Z :=
  if (65 <=? c) && (c <=? 90) then u8 (c + 32) else c.

Definition syscall_safe_strlen (s : cstr) : Z := Z.of_nat (length s).

Fixpoint syscall_safe_strcmp (a b : cstr) : Z :=
  match a, b with
  | x :: a', y :: b' => if negb (x =? y) then x - y else syscall_safe_strcmp a' b'
  | _, _ => chr a - chr b
  end.

Fixpoint syscall_safe_strcasecmp (a b : cstr) : Z :=
  match a, b with
  | x :: a', y :: b' =>
      let ca := syscall_safe_ascii_lower x in
      let cb := syscall_safe_ascii_lower y in
      if negb (ca =? cb) then ca - cb else syscall_safe_strcasecmp a' b'
  | _, _ => syscall_safe_ascii_lower (chr a) - syscall_safe_ascii_lower (chr b)
  end.

Fixpoint syscall_safe_strncmp (a b : cstr) (n : nat) : Z :=
  match n with
  | O => 0
  | S n' =>
      match a with
      | x :: a' => if x =? chr b then syscall_safe_strncmp a' (tail b) n' else x - chr b
      | [] => 0 - chr b
      end
  end.

(** [_m_tolower_c] and [_m_strncasecmp] of crt_32_stub.c; libc's [strncasecmp]
    in the C locale computes the same. *)
Definition _m_tolower_c (c : Z) : Z := if (65 <=? c) && (c <=? 90) then c + 32 else c.

Fixpoint _m_strncasecmp (a b : cstr) (n : nat) : Z :=
  match n with
  | O => 0
  | S n' =>
      match a, b with
      | x :: a', y :: b' =>
          let ca := _m_tolower_c x in
          let cb := _m_tolower_c y in
          if negb (ca =? cb) then ca - cb else _m_strncasecmp a' b' n'
      | _, _ => _m_tolower_c (chr a) - _m_tolower_c (chr b)
      end
  end.

(** Offsets of the first and last occurrence; the terminator is searched too. *)
Fixpoint strchr_from (i : Z) (s : cstr) (c : Z) : option Z :=
  match s with
  | [] => if 0 =? c then Some i else None
  | x :: s' => if x =? c then Some i else strchr_from (i + 1) s' c
  end.
Definition syscall_safe_strchr (s : cstr) (c : Z) : option Z := strchr_from 0 s (u8 c).

Fixpoint strrchr_from (i : Z) (acc : option Z) (s : cstr) (c : Z) : option Z :=
  match s with
  | [] => if 0 =? c then Some i else acc
  | x :: s' => strrchr_from (i + 1) (if x =? c then Some i else acc) s' c
  end.
Definition syscall_safe_strrchr (s : cstr) (c : Z) : option Z := strrchr_from 0 None s (u8 c).

(** memcpy and memset on the destination buffer, one byte per iteration. *)
Definition syscall_safe_memcpy (doff : Z) (src : bytes) (dst : bytes) : outcome bytes :=
  store_bytes doff src dst.

Definition syscall_safe_memset (off c n : Z) (b : bytes) : outcome bytes :=
  store_bytes off (replicate (Z.to_nat n) (u8 c)) b.

(** Copies at most [max_len - 1] bytes of [src], then the terminator. *)
Definition syscall_safe_copy_str (dst : bytes) (src : cstr) (max_len : Z) : outcome bytes :=
  if max_len =? 0 then Ret dst
  else store_bytes 0 (take (Z.to_nat (max_len - 1)) src ++ [0]) dst.

Section width.
Context {A : Arch}.

Definition syscall_safe_build_path (dst : bytes) (dst_size : Z) (dir name : cstr)
  : outcome bytes :=
  let dir_len := syscall_safe_strlen dir in
  let name_len := syscall_safe_strlen name in
  if dst_size <? usize (dir_len + 1 + name_len + 1) then Fail
  else
    dst ← syscall_safe_memcpy 0 dir dst;
    dst ← store 1 dir_len 47 dst;
    dst ← syscall_safe_memcpy (dir_len + 1) name dst;
    store 1 (dir_len + 1 + name_len) 0 dst.

(** [None]: the function reports overflow (returns 1). *)
Definition syscall_safe_add_overflow_size (a b : Z) : option Z :=
  if usize (usize (-1) - b) <? a then None else Some (usize (a + b)).

Definition syscall_safe_range_valid_size (off len limit : Z) : bool :=
  (off <=? limit) && (len <=? usize (limit - off)).

Definition syscall_safe_guest_ptr_is_valid (ptr : Z) : bool :=
  if ptr =? 0 then false
  else if is_my_wine32 then
    negb ((4294934528 <? ptr) || negb (Z.land ptr 3 =? 0))
  else negb ((18446744073709420544 <? ptr) || negb (Z.land ptr 7 =? 0)).
End width.

(** "0123456789abcdef" *)
Definition hex_digit (v : Z) : Z := if v <? 10 then 48 + v else 87 + v.

(** The [nibbles] characters written by the loop, most significant first. *)
Definition syscall_safe_format_hex (val : Z) (nibbles : nat) : cstr :=
  map (fun i => hex_digit (Z.land (Z.shiftr val (4 * Z.of_nat (nibbles - 1 - i))) 15))
      (seq 0 nibbles).

(** common.c: format_hex fills buf[15] down to buf[0]; one iteration per
    nibble, [acc] being the characters already written. *)
Fixpoint format_hex_loop (k : nat) (val : Z) (acc : cstr) : cstr :=
  match k with
  | O => acc
  | S k' => format_hex_loop k' (Z.shiftr val 4) (hex_digit (Z.land val 15) :: acc)
  end.
Definition format_hex (buf : bytes) (buf_size val : Z) : outcome bytes :=
  if buf_size <? 17 then Ret buf
  else store_bytes 0 (format_hex_loop 16 val [] ++ [0]) buf.

Definition format_ptr (buf : bytes) (buf_size p : Z) : outcome bytes :=
  if p =? 0 then
    if 6 <=? buf_size then store_bytes 0 (lit "(nil)" ++ [0]) buf else Ret buf
  else format_hex buf buf_size p.

Fixpoint parse_debug_level_loop (level : Z) (value : cstr) : Z :=
  match value with
  | c :: value' =>
      if (48 <=? c) && (c <=? 57) then
        let level := level * 10 + (c - 48) in
        if 9 <? level then 9 else parse_debug_level_loop level value'
      else level
  | [] => level
  end.
Definition parse_debug_level (value : option cstr) : Z :=
  match value with None => 0 | Some v => parse_debug_level_loop 0 v end.

(** ** String comparison is a lexicographic order *)

Lemma strcmp_refl s : syscall_safe_strcmp s s = 0.
Proof. induction s as [|c s IH]; simpl; [done|]. by rewrite Z.eqb_refl. Qed.

Lemma strcmp_eq a b :
  wf_cstr a -> wf_cstr b -> syscall_safe_strcmp a b = 0 -> a = b.
Proof.
  intros Ha. revert b. induction Ha as [|x a Hx Ha IH]; intros b Hb H.
  - destruct Hb as [|y b Hy Hb]; simpl in *; [done|lia].
  - destruct Hb as [|y b Hy Hb]; simpl in *; [lia|].
    destruct (x =? y) eqn:E; simpl in H; [|lia].
    f_equal; [lia|]. by apply IH.
Qed.

Lemma strcmp_antisym a b : syscall_safe_strcmp a b = - syscall_safe_strcmp b a.
Proof.
  revert b. induction a as [|x a IH]; intros [|y b]; simpl; try lia.
  rewrite (Z.eqb_sym y x). destruct (x =? y); simpl; [apply IH | lia].
Qed.

Lemma strcmp_trans a b c :
  wf_cstr a -> wf_cstr b -> wf_cstr c ->
  syscall_safe_strcmp a b < 0 -> syscall_safe_strcmp b c < 0 ->
  syscall_safe_strcmp a c < 0.
Proof.
  intros Ha. revert b c. induction Ha as [|x a Hx Ha IH]; intros b c Hb Hc.
  - destruct Hb as [|y b Hy Hb], Hc as [|z c Hz Hc]; simpl; lia.
  - destruct Hb as [|y b Hy Hb], Hc as [|z c Hz Hc]; simpl; try lia.
    destruct (x =? y) eqn:E1, (y =? z) eqn:E2, (x =? z) eqn:E3; simpl; try lia.
    by apply IH.
Qed.

Lemma ascii_lower_tolower c : 0 <= c < 256 -> syscall_safe_ascii_lower c = _m_tolower_c c.
Proof.
  intros. unfold syscall_safe_ascii_lower, _m_tolower_c.
  destruct (_ && _) eqn:E; [|done]. rewrite wrap_small; lia.
Qed.

Lemma ascii_lower_pos c : 1 <= c < 256 -> 1 <= syscall_safe_ascii_lower c < 256.
Proof.
  intros. rewrite ascii_lower_tolower by lia. unfold _m_tolower_c.
  destruct (_ && _) eqn:E; lia.
Qed.

Lemma strcasecmp_lower a b :
  syscall_safe_strcasecmp a b =
  syscall_safe_strcmp (map syscall_safe_ascii_lower a) (map syscall_safe_ascii_lower b).
Proof.
  revert b. induction a as [|x a IH]; intros [|y b]; try done.
  simpl. by rewrite IH.
Qed.

Lemma wf_lower s : wf_cstr s -> wf_cstr (map syscall_safe_ascii_lower s).
Proof. intros. apply Forall_map. eapply Forall_impl; [done|]. apply ascii_lower_pos. Qed.

Lemma strcasecmp_spec a b :
  wf_cstr a -> wf_cstr b ->
  syscall_safe_strcasecmp a b = 0 <->
  map syscall_safe_ascii_lower a = map syscall_safe_ascii_lower b.
Proof.
  intros Ha Hb. rewrite strcasecmp_lower. split.
  - apply strcmp_eq; by apply wf_lower.
  - intros ->. apply strcmp_refl.
Qed.

(** ** Strings in buffers *)

Lemma cstr_from_app s b : wf_cstr s -> cstr_from (s ++ 0 :: b) = Some s.
Proof.
  induction 1 as [|c s Hc Hs IH]; simpl; [done|].
  destruct (Z.eqb_spec c 0); [lia|]. by rewrite IH.
Qed.

Lemma cstr_from_Some b s :
  wf_bytes b -> cstr_from b = Some s -> wf_cstr s /\ exists t, b = s ++ 0 :: t.
Proof.
  intros Hb. revert s. induction Hb as [|c b Hc Hb IH]; intros s H; simpl in H; [done|].
  destruct (Z.eqb_spec c 0).
  - injection H as <-. split; [constructor|]. by exists b; subst.
  - apply fmap_Some in H as (s' & H & ->). destruct (IH _ H) as (W & t & ->).
    split; [|by exists t]. constructor; [|done]. unfold in_u in Hc. lia.
Qed.

(** A NUL byte at or after [off] is exactly what makes a string readable. *)
Lemma cstr_from_None b : cstr_from b = None <-> Forall (fun c => c <> 0) b.
Proof.
  induction b as [|c b IH]; simpl; [split; constructor|].
  destruct (Z.eqb_spec c 0) as [->|Hc].
  - split; [done|]. intros H. apply Forall_cons in H as [H _]. done.
  - rewrite fmap_None, IH, Forall_cons. naive_solver.
Qed.

Lemma splice_0 src b : splice 0 src b = src ++ drop (length src) b.
Proof. done. Qed.

Lemma blen_app a b : blen (a ++ b) = blen a + blen b.
Proof. unfold blen. rewrite length_app. lia. Qed.

Lemma store_bytes_ok off src b :
  in_range off (blen src) (blen b) = true -> store_bytes off src b = Ret (splice off src b).
Proof. unfold store_bytes. by intros ->. Qed.

Lemma wf_cstr_take n s : wf_cstr s -> wf_cstr (take n s).
Proof. apply Forall_take. Qed.

(** copy_str leaves a terminated prefix of the source and stays inside
    [max_len] bytes. *)
Lemma copy_str_spec dst src max_len :
  wf_cstr src -> 0 < max_len <= blen dst ->
  exists dst', syscall_safe_copy_str dst src max_len = Ret dst' /\
    length dst' = length dst /\
    cstr_from dst' = Some (take (Z.to_nat (max_len - 1)) src) /\
    drop (Z.to_nat max_len) dst' = drop (Z.to_nat max_len) dst.
Proof.
  intros Hs Hm. unfold syscall_safe_copy_str.
  replace (max_len =? 0) with false by lia.
  set (p := take _ src ++ [0]).
  assert (Hp : Z.of_nat (length p) <= max_len).
  { unfold p. rewrite length_app, length_take. simpl. lia. }
  assert (Hr : in_range 0 (blen p) (blen dst) = true)
    by (apply in_range_spec; unfold blen in *; lia).
  exists (splice 0 p dst). split; [by apply store_bytes_ok|].
  split; [by apply length_splice|]. rewrite splice_0. split.
  - unfold p. rewrite <- app_assoc. by apply cstr_from_app, wf_cstr_take.
  - rewrite drop_app_ge, drop_drop by lia. f_equal. lia.
Qed.

Lemma splice_append p src b :
  blen p + blen src <= blen b ->
  splice (blen p) src (p ++ drop (length p) b) = (p ++ src) ++ drop (length (p ++ src)) b.
Proof.
  unfold blen. intros. unfold splice. rewrite Nat2Z.id, take_app_length.
  rewrite drop_app_ge, drop_drop, length_app, <- app_assoc by lia.
  do 2 f_equal. f_equal. lia.
Qed.

(** A chain of adjacent writes from the start of a buffer. *)
Lemma store_append p src b :
  blen p + blen src <= blen b ->
  store_bytes (blen p) src (p ++ drop (length p) b)
  = Ret ((p ++ src) ++ drop (length (p ++ src)) b).
Proof.
  intros H. unfold blen in H. rewrite store_bytes_ok.
  - rewrite splice_append by (unfold blen; lia). done.
  - apply in_range_spec. unfold blen. rewrite length_app, length_drop. lia.
Qed.

Section width.
Context {A : Arch}.

(** build_path: "dir/name" when it fits (terminator included), failure with the
    buffer untouched otherwise. *)
Lemma build_path_spec dst dst_size dir name :
  wf_cstr dir -> wf_cstr name -> dst_size <= blen dst ->
  blen dir + blen name + 2 < 2 ^ 32 ->
  if blen dir + blen name + 2 <=? dst_size
  then exists dst', syscall_safe_build_path dst dst_size dir name = Ret dst' /\
         length dst' = length dst /\ cstr_from dst' = Some (dir ++ 47 :: name)
  else syscall_safe_build_path dst dst_size dir name = Fail.
Proof.
  intros Hd Hn Hsz Hlen. unfold syscall_safe_build_path, syscall_safe_strlen.
  fold (blen dir) (blen name). unfold blen in Hlen, Hsz.
  rewrite usize_u32 by (unfold blen; lia).
  destruct (_ <=? _) eqn:E; unfold blen in E.
  2:{ replace (_ <? _) with true by (unfold blen; lia). done. }
  replace (_ <? _) with false by (unfold blen; lia).
  unfold syscall_safe_memcpy. rewrite store_bytes_ok by (apply in_range_spec; unfold blen; lia).
  rewrite splice_0. cbn [mbind outcome_bind]. unfold store.
  rewrite (store_append dir [47]) by (unfold blen; simpl; lia). cbn [mbind outcome_bind].
  replace (blen dir + 1) with (blen (dir ++ [47])) by (by rewrite blen_app).
  rewrite store_append by (unfold blen in *; rewrite length_app; simpl; lia).
  cbn [mbind outcome_bind]. rewrite <- blen_app.
  rewrite (store_append ((dir ++ [47]) ++ name) [0])
    by (unfold blen in *; rewrite !length_app; simpl; lia).
  eexists. split; [done|]. split.
  - rewrite length_app, length_drop, !length_app. simpl. unfold blen in *. lia.
  - rewrite <- (app_assoc _ [0]). simpl. rewrite cstr_from_app; [by rewrite <- app_assoc|].
    repeat (apply Forall_app; split); [done| |done]. repeat constructor; lia.
Qed.

(** Both overflow helpers compute what their names say on size_t values. *)
Lemma add_overflow_size_spec a b :
  0 <= a < 2 ^ ptr_bits -> 0 <= b < 2 ^ ptr_bits ->
  syscall_safe_add_overflow_size a b = if a + b <? 2 ^ ptr_bits then Some (a + b) else None.
Proof.
  intros Ha Hb. unfold syscall_safe_add_overflow_size, usize, wrap in *.
  assert (P : 0 < 2 ^ ptr_bits) by (destruct ptr_bits_cases as [-> | ->]; lia).
  set (M := 2 ^ ptr_bits) in *.
  replace ((-1) mod M) with (M - 1) by (rewrite (Z.mod_unique (-1) M (-1) (M - 1)); lia).
  rewrite (Z.mod_small (M - 1 - b)) by lia.
  destruct (Z.ltb_spec (M - 1 - b) a), (Z.ltb_spec (a + b) M); try lia; [done|].
  rewrite Z.mod_small by lia. done.
Qed.

Lemma range_valid_size_spec off len limit :
  0 <= off < 2 ^ ptr_bits -> 0 <= len < 2 ^ ptr_bits -> 0 <= limit < 2 ^ ptr_bits ->
  syscall_safe_range_valid_size off len limit = (off + len <=? limit).
Proof.
  intros. unfold syscall_safe_range_valid_size.
  destruct (Z.leb_spec off limit); simpl; [|symmetry; lia].
  unfold usize. rewrite wrap_small by lia. lia.
Qed.
End width.

(** ** Number formatting *)

Definition hex_value (c : Z) : Z := if c <? 58 then c - 48 else c - 87.
(** The number a hexadecimal string denotes. *)
Definition hex_number (s : cstr) : Z := fold_left (fun n c => n * 16 + hex_value c) s 0.

Lemma hex_value_digit v : 0 <= v < 16 -> hex_value (hex_digit v) = v.
Proof. intros. unfold hex_digit, hex_value. destruct (v <? 10) eqn:E; case_goal; lia. Qed.

Lemma land15 v : Z.land v 15 = v mod 16.
Proof. change 15 with (Z.ones 4). by rewrite Z.land_ones. Qed.

Lemma format_hex_snoc val n :
  syscall_safe_format_hex val (S n)
  = syscall_safe_format_hex (Z.shiftr val 4) n ++ [hex_digit (Z.land val 15)].
Proof.
  unfold syscall_safe_format_hex. rewrite seq_S, map_app. f_equal.
  - apply map_ext_in. intros i Hi%in_seq. do 2 f_equal.
    rewrite Z.shiftr_shiftr by lia. f_equal. lia.
  - simpl. do 3 f_equal. rewrite <- (Z.shiftr_0_r val) at 2. f_equal. lia.
Qed.

(** common.c's loop writes the same digits as the indexed version. *)
Lemma format_hex_loop_eq n val acc :
  format_hex_loop n val acc = syscall_safe_format_hex val n ++ acc.
Proof.
  revert val acc. induction n as [|n IH]; intros; [done|].
  rewrite format_hex_snoc, <- app_assoc. simpl. by rewrite IH.
Qed.

Lemma hex_number_snoc s c : hex_number (s ++ [c]) = hex_number s * 16 + hex_value c.
Proof. unfold hex_number. by rewrite fold_left_app. Qed.

Lemma format_hex_number val n :
  hex_number (syscall_safe_format_hex val n) = wrap (4 * Z.of_nat n) val.
Proof.
  revert val. induction n as [|n IH]; intros val.
  - unfold wrap. change (2 ^ (4 * Z.of_nat 0)) with 1. by rewrite Z.mod_1_r.
  - rewrite format_hex_snoc, hex_number_snoc, IH, land15.
    rewrite hex_value_digit by (apply Z.mod_pos_bound; lia).
    rewrite Z.shiftr_div_pow2 by lia. unfold wrap.
    replace (2 ^ (4 * Z.of_nat (S n))) with (16 * 2 ^ (4 * Z.of_nat n))
      by (replace (4 * Z.of_nat (S n)) with (4 + 4 * Z.of_nat n) by lia;
          rewrite Z.pow_add_r by lia; done).
    rewrite Z.rem_mul_r by lia. change (2 ^ 4) with 16. lia.
Qed.

(** The decimal digits at the start of a string, and their value. *)
Fixpoint digit_prefix (s : cstr) : cstr :=
  match s with
  | c :: s' => if (48 <=? c) && (c <=? 57) then c :: digit_prefix s' else []
  | [] => []
  end.
Definition dec_from (n : Z) (s : cstr) : Z := fold_left (fun n c => n * 10 + (c - 48)) s n.

Lemma dec_from_le n s : 0 <= n -> n <= dec_from n (digit_prefix s).
Proof.
  revert n. induction s as [|c s IH]; intros n Hn; simpl; [lia|].
  destruct (_ && _) eqn:E; simpl; [|lia].
  specialize (IH (n * 10 + (c - 48))). unfold dec_from in *. lia.
Qed.

Lemma parse_debug_level_loop_spec n s :
  0 <= n <= 9 -> parse_debug_level_loop n s = Z.min 9 (dec_from n (digit_prefix s)).
Proof.
  revert n. induction s as [|c s IH]; intros n Hn; simpl; [lia|].
  destruct (_ && _) eqn:E; [|simpl; lia]. simpl.
  pose proof (dec_from_le (n * 10 + (c - 48)) s) as L. unfold dec_from in *.
  destruct (9 <? _) eqn:E2; [lia|]. rewrite IH by lia. done.
Qed.

#[export] Hint Resolve wf_cstr_take wf_lower : wine.
