(* ===== verification/PeStructs.v ===== *)
(** * PE structures (include/pe.h)

    Every structure is declared under [#pragma pack(push, 1)], so a field sits
    at the sum of the sizes of the fields before it.  [decode_S b] is the view
    of a [sizeof(S)]-byte buffer as a [S *]; [encode_S] lays the fields out in
    order; [wf_S] says that every field has its declared width. *)
From S2P Require Import Prelude Bytes.

(** A little-endian field of [n] bytes at offset [off], and an array of
    [count] such fields. *)
Definition fld (off n : Z) (b : bytes) : Z := le_combine (slice off n b).
Definition flds (off n : Z) (count : nat) (b : bytes) : list Z :=
  map (fun i => fld (off + n * Z.of_nat i) n b) (seq 0 count).

Definition IMAGE_DOS_SIGNATURE : Z := 0x5A4D.
Definition IMAGE_NT_SIGNATURE : Z := 0x4550.
Definition IMAGE_FILE_MACHINE_AMD64 : Z := 0x8664.
Definition IMAGE_FILE_MACHINE_I386 : Z := 0x14c.
Definition IMAGE_NT_OPTIONAL_HDR32_MAGIC : Z := 0x10B.
Definition IMAGE_NT_OPTIONAL_HDR64_MAGIC : Z := 0x20B.
Definition IMAGE_DIRECTORY_ENTRY_EXPORT : nat := 0.
Definition IMAGE_DIRECTORY_ENTRY_IMPORT : nat := 1.
Definition IMAGE_DIRECTORY_ENTRY_BASERELOC : nat := 5.
Definition IMAGE_FILE_RELOCS_STRIPPED : Z := 0x0001.
Definition IMAGE_SCN_CNT_CODE : Z := 0x00000020.
Definition IMAGE_SCN_CNT_UNINITIALIZED_DATA : Z := 0x00000080.
Definition IMAGE_SCN_MEM_READ : Z := 0x40000000.
Definition IMAGE_SCN_MEM_WRITE : Z := 0x80000000.
Definition IMAGE_SCN_MEM_EXECUTE : Z := 0x20000000.

Record IMAGE_DOS_HEADER := mk_IMAGE_DOS_HEADER {
  e_magic : Z;
  e_cblp : Z;
  e_cp : Z;
  e_crlc : Z;
  e_cparhdr : Z;
  e_minalloc : Z;
  e_maxalloc : Z;
  e_ss : Z;
  e_sp : Z;
  e_csum : Z;
  e_ip : Z;
  e_cs : Z;
  e_lfarlc : Z;
  e_ovno : Z;
  e_res : list Z;
  e_oemid : Z;
  e_oeminfo : Z;
  e_res2 : list Z;
  e_lfanew : Z
}.
Definition sizeof_IMAGE_DOS_HEADER : Z := 64.
Definition decode_IMAGE_DOS_HEADER (b : bytes) : IMAGE_DOS_HEADER := {|
  e_magic := fld 0 2 b;
  e_cblp := fld 2 2 b;
  e_cp := fld 4 2 b;
  e_crlc := fld 6 2 b;
  e_cparhdr := fld 8 2 b;
  e_minalloc := fld 10 2 b;
  e_maxalloc := fld 12 2 b;
  e_ss := fld 14 2 b;
  e_sp := fld 16 2 b;
  e_csum := fld 18 2 b;
  e_ip := fld 20 2 b;
  e_cs := fld 22 2 b;
  e_lfarlc := fld 24 2 b;
  e_ovno := fld 26 2 b;
  e_res := flds 28 2 4 b;
  e_oemid := fld 36 2 b;
  e_oeminfo := fld 38 2 b;
  e_res2 := flds 40 2 10 b;
  e_lfanew := fld 60 4 b
|}.
Definition encode_IMAGE_DOS_HEADER (h : IMAGE_DOS_HEADER) : bytes :=
  le_split 2 (e_magic h) ++
  le_split 2 (e_cblp h) ++
  le_split 2 (e_cp h) ++
  le_split 2 (e_crlc h) ++
  le_split 2 (e_cparhdr h) ++
  le_split 2 (e_minalloc h) ++
  le_split 2 (e_maxalloc h) ++
  le_split 2 (e_ss h) ++
  le_split 2 (e_sp h) ++
  le_split 2 (e_csum h) ++
  le_split 2 (e_ip h) ++
  le_split 2 (e_cs h) ++
  le_split 2 (e_lfarlc h) ++
  le_split 2 (e_ovno h) ++
  concat (map (le_split 2) (e_res h)) ++
  le_split 2 (e_oemid h) ++
  le_split 2 (e_oeminfo h) ++
  concat (map (le_split 2) (e_res2 h)) ++
  le_split 4 (e_lfanew h).
Definition wf_IMAGE_DOS_HEADER (h : IMAGE_DOS_HEADER) : Prop :=
  in_u 16 (e_magic h) /\
  in_u 16 (e_cblp h) /\
  in_u 16 (e_cp h) /\
  in_u 16 (e_crlc h) /\
  in_u 16 (e_cparhdr h) /\
  in_u 16 (e_minalloc h) /\
  in_u 16 (e_maxalloc h) /\
  in_u 16 (e_ss h) /\
  in_u 16 (e_sp h) /\
  in_u 16 (e_csum h) /\
  in_u 16 (e_ip h) /\
  in_u 16 (e_cs h) /\
  in_u 16 (e_lfarlc h) /\
  in_u 16 (e_ovno h) /\
  length (e_res h) = 4%nat /\ Forall (in_u 16) (e_res h) /\
  in_u 16 (e_oemid h) /\
  in_u 16 (e_oeminfo h) /\
  length (e_res2 h) = 10%nat /\ Forall (in_u 16) (e_res2 h) /\
  in_u 32 (e_lfanew h).

Record IMAGE_FILE_HEADER := mk_IMAGE_FILE_HEADER {
  Machine : Z;
  NumberOfSections : Z;
  TimeDateStamp : Z;
  PointerToSymbolTable : Z;
  NumberOfSymbols : Z;
  SizeOfOptionalHeader : Z;
  Characteristics : Z
}.
Definition sizeof_IMAGE_FILE_HEADER : Z := 20.
Definition decode_IMAGE_FILE_HEADER (b : bytes) : IMAGE_FILE_HEADER := {|
  Machine := fld 0 2 b;
  NumberOfSections := fld 2 2 b;
  TimeDateStamp := fld 4 4 b;
  PointerToSymbolTable := fld 8 4 b;
  NumberOfSymbols := fld 12 4 b;
  SizeOfOptionalHeader := fld 16 2 b;
  Characteristics := fld 18 2 b
|}.
Definition encode_IMAGE_FILE_HEADER (h : IMAGE_FILE_HEADER) : bytes :=
  le_split 2 (Machine h) ++
  le_split 2 (NumberOfSections h) ++
  le_split 4 (TimeDateStamp h) ++
  le_split 4 (PointerToSymbolTable h) ++
  le_split 4 (NumberOfSymbols h) ++
  le_split 2 (SizeOfOptionalHeader h) ++
  le_split 2 (Characteristics h).
Definition wf_IMAGE_FILE_HEADER (h : IMAGE_FILE_HEADER) : Prop :=
  in_u 16 (Machine h) /\
  in_u 16 (NumberOfSections h) /\
  in_u 32 (TimeDateStamp h) /\
  in_u 32 (PointerToSymbolTable h) /\
  in_u 32 (NumberOfSymbols h) /\
  in_u 16 (SizeOfOptionalHeader h) /\
  in_u 16 (Characteristics h).

Record IMAGE_DATA_DIRECTORY := mk_IMAGE_DATA_DIRECTORY {
  dd_VirtualAddress : Z;
  dd_Size : Z
}.
Definition sizeof_IMAGE_DATA_DIRECTORY : Z := 8.
Definition decode_IMAGE_DATA_DIRECTORY (b : bytes) : IMAGE_DATA_DIRECTORY := {|
  dd_VirtualAddress := fld 0 4 b;
  dd_Size := fld 4 4 b
|}.
Definition encode_IMAGE_DATA_DIRECTORY (h : IMAGE_DATA_DIRECTORY) : bytes :=
  le_split 4 (dd_VirtualAddress h) ++
  le_split 4 (dd_Size h).
Definition wf_IMAGE_DATA_DIRECTORY (h : IMAGE_DATA_DIRECTORY) : Prop :=
  in_u 32 (dd_VirtualAddress h) /\
  in_u 32 (dd_Size h).

Record IMAGE_OPTIONAL_HEADER32 := mk_IMAGE_OPTIONAL_HEADER32 {
  oh32_Magic : Z;
  oh32_MajorLinkerVersion : Z;
  oh32_MinorLinkerVersion : Z;
  oh32_SizeOfCode : Z;
  oh32_SizeOfInitializedData : Z;
  oh32_SizeOfUninitializedData : Z;
  oh32_AddressOfEntryPoint : Z;
  oh32_BaseOfCode : Z;
  oh32_BaseOfData : Z;
  oh32_ImageBase : Z;
  oh32_SectionAlignment : Z;
  oh32_FileAlignment : Z;
  oh32_MajorOperatingSystemVersion : Z;
  oh32_MinorOperatingSystemVersion : Z;
  oh32_MajorImageVersion : Z;
  oh32_MinorImageVersion : Z;
  oh32_MajorSubsystemVersion : Z;
  oh32_MinorSubsystemVersion : Z;
  oh32_Win32VersionValue : Z;
  oh32_SizeOfImage : Z;
  oh32_SizeOfHeaders : Z;
  oh32_CheckSum : Z;
  oh32_Subsystem : Z;
  oh32_DllCharacteristics : Z;
  oh32_SizeOfStackReserve : Z;
  oh32_SizeOfStackCommit : Z;
  oh32_SizeOfHeapReserve : Z;
  oh32_SizeOfHeapCommit : Z;
  oh32_LoaderFlags : Z;
  oh32_NumberOfRvaAndSizes : Z;
  oh32_DataDirectory : list IMAGE_DATA_DIRECTORY
}.
Definition sizeof_IMAGE_OPTIONAL_HEADER32 : Z := 224.
Definition decode_IMAGE_OPTIONAL_HEADER32 (b : bytes) : IMAGE_OPTIONAL_HEADER32 := {|
  oh32_Magic := fld 0 2 b;
  oh32_MajorLinkerVersion := fld 2 1 b;
  oh32_MinorLinkerVersion := fld 3 1 b;
  oh32_SizeOfCode := fld 4 4 b;
  oh32_SizeOfInitializedData := fld 8 4 b;
  oh32_SizeOfUninitializedData := fld 12 4 b;
  oh32_AddressOfEntryPoint := fld 16 4 b;
  oh32_BaseOfCode := fld 20 4 b;
  oh32_BaseOfData := fld 24 4 b;
  oh32_ImageBase := fld 28 4 b;
  oh32_SectionAlignment := fld 32 4 b;
  oh32_FileAlignment := fld 36 4 b;
  oh32_MajorOperatingSystemVersion := fld 40 2 b;
  oh32_MinorOperatingSystemVersion := fld 42 2 b;
  oh32_MajorImageVersion := fld 44 2 b;
  oh32_MinorImageVersion := fld 46 2 b;
  oh32_MajorSubsystemVersion := fld 48 2 b;
  oh32_MinorSubsystemVersion := fld 50 2 b;
  oh32_Win32VersionValue := fld 52 4 b;
  oh32_SizeOfImage := fld 56 4 b;
  oh32_SizeOfHeaders := fld 60 4 b;
  oh32_CheckSum := fld 64 4 b;
  oh32_Subsystem := fld 68 2 b;
  oh32_DllCharacteristics := fld 70 2 b;
  oh32_SizeOfStackReserve := fld 72 4 b;
  oh32_SizeOfStackCommit := fld 76 4 b;
  oh32_SizeOfHeapReserve := fld 80 4 b;
  oh32_SizeOfHeapCommit := fld 84 4 b;
  oh32_LoaderFlags := fld 88 4 b;
  oh32_NumberOfRvaAndSizes := fld 92 4 b;
  oh32_DataDirectory := map (fun i => decode_IMAGE_DATA_DIRECTORY (slice (96 + 8 * Z.of_nat i) 8 b)) (seq 0 16)
|}.
Definition encode_IMAGE_OPTIONAL_HEADER32 (h : IMAGE_OPTIONAL_HEADER32) : bytes :=
  le_split 2 (oh32_Magic h) ++
  le_split 1 (oh32_MajorLinkerVersion h) ++
  le_split 1 (oh32_MinorLinkerVersion h) ++
  le_split 4 (oh32_SizeOfCode h) ++
  le_split 4 (oh32_SizeOfInitializedData h) ++
  le_split 4 (oh32_SizeOfUninitializedData h) ++
  le_split 4 (oh32_AddressOfEntryPoint h) ++
  le_split 4 (oh32_BaseOfCode h) ++
  le_split 4 (oh32_BaseOfData h) ++
  le_split 4 (oh32_ImageBase h) ++
  le_split 4 (oh32_SectionAlignment h) ++
  le_split 4 (oh32_FileAlignment h) ++
  le_split 2 (oh32_MajorOperatingSystemVersion h) ++
  le_split 2 (oh32_MinorOperatingSystemVersion h) ++
  le_split 2 (oh32_MajorImageVersion h) ++
  le_split 2 (oh32_MinorImageVersion h) ++
  le_split 2 (oh32_MajorSubsystemVersion h) ++
  le_split 2 (oh32_MinorSubsystemVersion h) ++
  le_split 4 (oh32_Win32VersionValue h) ++
  le_split 4 (oh32_SizeOfImage h) ++
  le_split 4 (oh32_SizeOfHeaders h) ++
  le_split 4 (oh32_CheckSum h) ++
  le_split 2 (oh32_Subsystem h) ++
  le_split 2 (oh32_DllCharacteristics h) ++
  le_split 4 (oh32_SizeOfStackReserve h) ++
  le_split 4 (oh32_SizeOfStackCommit h) ++
  le_split 4 (oh32_SizeOfHeapReserve h) ++
  le_split 4 (oh32_SizeOfHeapCommit h) ++
  le_split 4 (oh32_LoaderFlags h) ++
  le_split 4 (oh32_NumberOfRvaAndSizes h) ++
  concat (map encode_IMAGE_DATA_DIRECTORY (oh32_DataDirectory h)).
Definition wf_IMAGE_OPTIONAL_HEADER32 (h : IMAGE_OPTIONAL_HEADER32) : Prop :=
  in_u 16 (oh32_Magic h) /\
  in_u 8 (oh32_MajorLinkerVersion h) /\
  in_u 8 (oh32_MinorLinkerVersion h) /\
  in_u 32 (oh32_SizeOfCode h) /\
  in_u 32 (oh32_SizeOfInitializedData h) /\
  in_u 32 (oh32_SizeOfUninitializedData h) /\
  in_u 32 (oh32_AddressOfEntryPoint h) /\
  in_u 32 (oh32_BaseOfCode h) /\
  in_u 32 (oh32_BaseOfData h) /\
  in_u 32 (oh32_ImageBase h) /\
  in_u 32 (oh32_SectionAlignment h) /\
  in_u 32 (oh32_FileAlignment h) /\
  in_u 16 (oh32_MajorOperatingSystemVersion h) /\
  in_u 16 (oh32_MinorOperatingSystemVersion h) /\
  in_u 16 (oh32_MajorImageVersion h) /\
  in_u 16 (oh32_MinorImageVersion h) /\
  in_u 16 (oh32_MajorSubsystemVersion h) /\
  in_u 16 (oh32_MinorSubsystemVersion h) /\
  in_u 32 (oh32_Win32VersionValue h) /\
  in_u 32 (oh32_SizeOfImage h) /\
  in_u 32 (oh32_SizeOfHeaders h) /\
  in_u 32 (oh32_CheckSum h) /\
  in_u 16 (oh32_Subsystem h) /\
  in_u 16 (oh32_DllCharacteristics h) /\
  in_u 32 (oh32_SizeOfStackReserve h) /\
  in_u 32 (oh32_SizeOfStackCommit h) /\
  in_u 32 (oh32_SizeOfHeapReserve h) /\
  in_u 32 (oh32_SizeOfHeapCommit h) /\
  in_u 32 (oh32_LoaderFlags h) /\
  in_u 32 (oh32_NumberOfRvaAndSizes h) /\
  length (oh32_DataDirectory h) = 16%nat /\ Forall wf_IMAGE_DATA_DIRECTORY (oh32_DataDirectory h).

Record IMAGE_OPTIONAL_HEADER64 := mk_IMAGE_OPTIONAL_HEADER64 {
  oh64_Magic : Z;
  oh64_MajorLinkerVersion : Z;
  oh64_MinorLinkerVersion : Z;
  oh64_SizeOfCode : Z;
  oh64_SizeOfInitializedData : Z;
  oh64_SizeOfUninitializedData : Z;
  oh64_AddressOfEntryPoint : Z;
  oh64_BaseOfCode : Z;
  oh64_ImageBase : Z;
  oh64_SectionAlignment : Z;
  oh64_FileAlignment : Z;
  oh64_MajorOperatingSystemVersion : Z;
  oh64_MinorOperatingSystemVersion : Z;
  oh64_MajorImageVersion : Z;
  oh64_MinorImageVersion : Z;
  oh64_MajorSubsystemVersion : Z;
  oh64_MinorSubsystemVersion : Z;
  oh64_Win32VersionValue : Z;
  oh64_SizeOfImage : Z;
  oh64_SizeOfHeaders : Z;
  oh64_CheckSum : Z;
  oh64_Subsystem : Z;
  oh64_DllCharacteristics : Z;
  oh64_SizeOfStackReserve : Z;
  oh64_SizeOfStackCommit : Z;
  oh64_SizeOfHeapReserve : Z;
  oh64_SizeOfHeapCommit : Z;
  oh64_LoaderFlags : Z;
  oh64_NumberOfRvaAndSizes : Z;
  oh64_DataDirectory : list IMAGE_DATA_DIRECTORY
}.
Definition sizeof_IMAGE_OPTIONAL_HEADER64 : Z := 240.
Definition decode_IMAGE_OPTIONAL_HEADER64 (b : bytes) : IMAGE_OPTIONAL_HEADER64 := {|
  oh64_Magic := fld 0 2 b;
  oh64_MajorLinkerVersion := fld 2 1 b;
  oh64_MinorLinkerVersion := fld 3 1 b;
  oh64_SizeOfCode := fld 4 4 b;
  oh64_SizeOfInitializedData := fld 8 4 b;
  oh64_SizeOfUninitializedData := fld 12 4 b;
  oh64_AddressOfEntryPoint := fld 16 4 b;
  oh64_BaseOfCode := fld 20 4 b;
  oh64_ImageBase := fld 24 8 b;
  oh64_SectionAlignment := fld 32 4 b;
  oh64_FileAlignment := fld 36 4 b;
  oh64_MajorOperatingSystemVersion := fld 40 2 b;
  oh64_MinorOperatingSystemVersion := fld 42 2 b;
  oh64_MajorImageVersion := fld 44 2 b;
  oh64_MinorImageVersion := fld 46 2 b;
  oh64_MajorSubsystemVersion := fld 48 2 b;
  oh64_MinorSubsystemVersion := fld 50 2 b;
  oh64_Win32VersionValue := fld 52 4 b;
  oh64_SizeOfImage := fld 56 4 b;
  oh64_SizeOfHeaders := fld 60 4 b;
  oh64_CheckSum := fld 64 4 b;
  oh64_Subsystem := fld 68 2 b;
  oh64_DllCharacteristics := fld 70 2 b;
  oh64_SizeOfStackReserve := fld 72 8 b;
  oh64_SizeOfStackCommit := fld 80 8 b;
  oh64_SizeOfHeapReserve := fld 88 8 b;
  oh64_SizeOfHeapCommit := fld 96 8 b;
  oh64_LoaderFlags := fld 104 4 b;
  oh64_NumberOfRvaAndSizes := fld 108 4 b;
  oh64_DataDirectory := map (fun i => decode_IMAGE_DATA_DIRECTORY (slice (112 + 8 * Z.of_nat i) 8 b)) (seq 0 16)
|}.
Definition encode_IMAGE_OPTIONAL_HEADER64 (h : IMAGE_OPTIONAL_HEADER64) : bytes :=
  le_split 2 (oh64_Magic h) ++
  le_split 1 (oh64_MajorLinkerVersion h) ++
  le_split 1 (oh64_MinorLinkerVersion h) ++
  le_split 4 (oh64_SizeOfCode h) ++
  le_split 4 (oh64_SizeOfInitializedData h) ++
  le_split 4 (oh64_SizeOfUninitializedData h) ++
  le_split 4 (oh64_AddressOfEntryPoint h) ++
  le_split 4 (oh64_BaseOfCode h) ++
  le_split 8 (oh64_ImageBase h) ++
  le_split 4 (oh64_SectionAlignment h) ++
  le_split 4 (oh64_FileAlignment h) ++
  le_split 2 (oh64_MajorOperatingSystemVersion h) ++
  le_split 2 (oh64_MinorOperatingSystemVersion h) ++
  le_split 2 (oh64_MajorImageVersion h) ++
  le_split 2 (oh64_MinorImageVersion h) ++
  le_split 2 (oh64_MajorSubsystemVersion h) ++
  le_split 2 (oh64_MinorSubsystemVersion h) ++
  le_split 4 (oh64_Win32VersionValue h) ++
  le_split 4 (oh64_SizeOfImage h) ++
  le_split 4 (oh64_SizeOfHeaders h) ++
  le_split 4 (oh64_CheckSum h) ++
  le_split 2 (oh64_Subsystem h) ++
  le_split 2 (oh64_DllCharacteristics h) ++
  le_split 8 (oh64_SizeOfStackReserve h) ++
  le_split 8 (oh64_SizeOfStackCommit h) ++
  le_split 8 (oh64_SizeOfHeapReserve h) ++
  le_split 8 (oh64_SizeOfHeapCommit h) ++
  le_split 4 (oh64_LoaderFlags h) ++
  le_split 4 (oh64_NumberOfRvaAndSizes h) ++
  concat (map encode_IMAGE_DATA_DIRECTORY (oh64_DataDirectory h)).
Definition wf_IMAGE_OPTIONAL_HEADER64 (h : IMAGE_OPTIONAL_HEADER64) : Prop :=
  in_u 16 (oh64_Magic h) /\
  in_u 8 (oh64_MajorLinkerVersion h) /\
  in_u 8 (oh64_MinorLinkerVersion h) /\
  in_u 32 (oh64_SizeOfCode h) /\
  in_u 32 (oh64_SizeOfInitializedData h) /\
  in_u 32 (oh64_SizeOfUninitializedData h) /\
  in_u 32 (oh64_AddressOfEntryPoint h) /\
  in_u 32 (oh64_BaseOfCode h) /\
  in_u 64 (oh64_ImageBase h) /\
  in_u 32 (oh64_SectionAlignment h) /\
  in_u 32 (oh64_FileAlignment h) /\
  in_u 16 (oh64_MajorOperatingSystemVersion h) /\
  in_u 16 (oh64_MinorOperatingSystemVersion h) /\
  in_u 16 (oh64_MajorImageVersion h) /\
  in_u 16 (oh64_MinorImageVersion h) /\
  in_u 16 (oh64_MajorSubsystemVersion h) /\
  in_u 16 (oh64_MinorSubsystemVersion h) /\
  in_u 32 (oh64_Win32VersionValue h) /\
  in_u 32 (oh64_SizeOfImage h) /\
  in_u 32 (oh64_SizeOfHeaders h) /\
  in_u 32 (oh64_CheckSum h) /\
  in_u 16 (oh64_Subsystem h) /\
  in_u 16 (oh64_DllCharacteristics h) /\
  in_u 64 (oh64_SizeOfStackReserve h) /\
  in_u 64 (oh64_SizeOfStackCommit h) /\
  in_u 64 (oh64_SizeOfHeapReserve h) /\
  in_u 64 (oh64_SizeOfHeapCommit h) /\
  in_u 32 (oh64_LoaderFlags h) /\
  in_u 32 (oh64_NumberOfRvaAndSizes h) /\
  length (oh64_DataDirectory h) = 16%nat /\ Forall wf_IMAGE_DATA_DIRECTORY (oh64_DataDirectory h).

Record IMAGE_SECTION_HEADER := mk_IMAGE_SECTION_HEADER {
  sec_Name : list Z;
  sec_VirtualSize : Z;
  sec_VirtualAddress : Z;
  sec_SizeOfRawData : Z;
  sec_PointerToRawData : Z;
  sec_PointerToRelocations : Z;
  sec_PointerToLinenumbers : Z;
  sec_NumberOfRelocations : Z;
  sec_NumberOfLinenumbers : Z;
  sec_Characteristics : Z
}.
Definition sizeof_IMAGE_SECTION_HEADER : Z := 40.
Definition decode_IMAGE_SECTION_HEADER (b : bytes) : IMAGE_SECTION_HEADER := {|
  sec_Name := flds 0 1 8 b;
  sec_VirtualSize := fld 8 4 b;
  sec_VirtualAddress := fld 12 4 b;
  sec_SizeOfRawData := fld 16 4 b;
  sec_PointerToRawData := fld 20 4 b;
  sec_PointerToRelocations := fld 24 4 b;
  sec_PointerToLinenumbers := fld 28 4 b;
  sec_NumberOfRelocations := fld 32 2 b;
  sec_NumberOfLinenumbers := fld 34 2 b;
  sec_Characteristics := fld 36 4 b
|}.
Definition encode_IMAGE_SECTION_HEADER (h : IMAGE_SECTION_HEADER) : bytes :=
  concat (map (le_split 1) (sec_Name h)) ++
  le_split 4 (sec_VirtualSize h) ++
  le_split 4 (sec_VirtualAddress h) ++
  le_split 4 (sec_SizeOfRawData h) ++
  le_split 4 (sec_PointerToRawData h) ++
  le_split 4 (sec_PointerToRelocations h) ++
  le_split 4 (sec_PointerToLinenumbers h) ++
  le_split 2 (sec_NumberOfRelocations h) ++
  le_split 2 (sec_NumberOfLinenumbers h) ++
  le_split 4 (sec_Characteristics h).
Definition wf_IMAGE_SECTION_HEADER (h : IMAGE_SECTION_HEADER) : Prop :=
  length (sec_Name h) = 8%nat /\ Forall (in_u 8) (sec_Name h) /\
  in_u 32 (sec_VirtualSize h) /\
  in_u 32 (sec_VirtualAddress h) /\
  in_u 32 (sec_SizeOfRawData h) /\
  in_u 32 (sec_PointerToRawData h) /\
  in_u 32 (sec_PointerToRelocations h) /\
  in_u 32 (sec_PointerToLinenumbers h) /\
  in_u 16 (sec_NumberOfRelocations h) /\
  in_u 16 (sec_NumberOfLinenumbers h) /\
  in_u 32 (sec_Characteristics h).

Record IMAGE_IMPORT_DESCRIPTOR := mk_IMAGE_IMPORT_DESCRIPTOR {
  imp_OriginalFirstThunk : Z;
  imp_TimeDateStamp : Z;
  imp_ForwarderChain : Z;
  imp_Name : Z;
  imp_FirstThunk : Z
}.
Definition sizeof_IMAGE_IMPORT_DESCRIPTOR : Z := 20.
Definition decode_IMAGE_IMPORT_DESCRIPTOR (b : bytes) : IMAGE_IMPORT_DESCRIPTOR := {|
  imp_OriginalFirstThunk := fld 0 4 b;
  imp_TimeDateStamp := fld 4 4 b;
  imp_ForwarderChain := fld 8 4 b;
  imp_Name := fld 12 4 b;
  imp_FirstThunk := fld 16 4 b
|}.
Definition encode_IMAGE_IMPORT_DESCRIPTOR (h : IMAGE_IMPORT_DESCRIPTOR) : bytes :=
  le_split 4 (imp_OriginalFirstThunk h) ++
  le_split 4 (imp_TimeDateStamp h) ++
  le_split 4 (imp_ForwarderChain h) ++
  le_split 4 (imp_Name h) ++
  le_split 4 (imp_FirstThunk h).
Definition wf_IMAGE_IMPORT_DESCRIPTOR (h : IMAGE_IMPORT_DESCRIPTOR) : Prop :=
  in_u 32 (imp_OriginalFirstThunk h) /\
  in_u 32 (imp_TimeDateStamp h) /\
  in_u 32 (imp_ForwarderChain h) /\
  in_u 32 (imp_Name h) /\
  in_u 32 (imp_FirstThunk h).

Record IMAGE_EXPORT_DIRECTORY := mk_IMAGE_EXPORT_DIRECTORY {
  exp_Characteristics : Z;
  exp_TimeDateStamp : Z;
  exp_MajorVersion : Z;
  exp_MinorVersion : Z;
  exp_Name : Z;
  exp_Base : Z;
  exp_NumberOfFunctions : Z;
  exp_NumberOfNames : Z;
  exp_AddressOfFunctions : Z;
  exp_AddressOfNames : Z;
  exp_AddressOfNameOrdinals : Z
}.
Definition sizeof_IMAGE_EXPORT_DIRECTORY : Z := 40.
Definition decode_IMAGE_EXPORT_DIRECTORY (b : bytes) : IMAGE_EXPORT_DIRECTORY := {|
  exp_Characteristics := fld 0 4 b;
  exp_TimeDateStamp := fld 4 4 b;
  exp_MajorVersion := fld 8 2 b;
  exp_MinorVersion := fld 10 2 b;
  exp_Name := fld 12 4 b;
  exp_Base := fld 16 4 b;
  exp_NumberOfFunctions := fld 20 4 b;
  exp_NumberOfNames := fld 24 4 b;
  exp_AddressOfFunctions := fld 28 4 b;
  exp_AddressOfNames := fld 32 4 b;
  exp_AddressOfNameOrdinals := fld 36 4 b
|}.
Definition encode_IMAGE_EXPORT_DIRECTORY (h : IMAGE_EXPORT_DIRECTORY) : bytes :=
  le_split 4 (exp_Characteristics h) ++
  le_split 4 (exp_TimeDateStamp h) ++
  le_split 2 (exp_MajorVersion h) ++
  le_split 2 (exp_MinorVersion h) ++
  le_split 4 (exp_Name h) ++
  le_split 4 (exp_Base h) ++
  le_split 4 (exp_NumberOfFunctions h) ++
  le_split 4 (exp_NumberOfNames h) ++
  le_split 4 (exp_AddressOfFunctions h) ++
  le_split 4 (exp_AddressOfNames h) ++
  le_split 4 (exp_AddressOfNameOrdinals h).
Definition wf_IMAGE_EXPORT_DIRECTORY (h : IMAGE_EXPORT_DIRECTORY) : Prop :=
  in_u 32 (exp_Characteristics h) /\
  in_u 32 (exp_TimeDateStamp h) /\
  in_u 16 (exp_MajorVersion h) /\
  in_u 16 (exp_MinorVersion h) /\
  in_u 32 (exp_Name h) /\
  in_u 32 (exp_Base h) /\
  in_u 32 (exp_NumberOfFunctions h) /\
  in_u 32 (exp_NumberOfNames h) /\
  in_u 32 (exp_AddressOfFunctions h) /\
  in_u 32 (exp_AddressOfNames h) /\
  in_u 32 (exp_AddressOfNameOrdinals h).

Record IMAGE_SYMBOL := mk_IMAGE_SYMBOL {
  sym_ShortName : list Z;
  sym_Value : Z;
  sym_SectionNumber : Z;
  sym_Type : Z;
  sym_StorageClass : Z;
  sym_NumberOfAuxSymbols : Z
}.
Definition sizeof_IMAGE_SYMBOL : Z := 18.
Definition decode_IMAGE_SYMBOL (b : bytes) : IMAGE_SYMBOL := {|
  sym_ShortName := flds 0 1 8 b;
  sym_Value := fld 8 4 b;
  sym_SectionNumber := i16 (fld 12 2 b);
  sym_Type := fld 14 2 b;
  sym_StorageClass := fld 16 1 b;
  sym_NumberOfAuxSymbols := fld 17 1 b
|}.

(** The tagged union IMAGE_NT_HEADERS. *)
Record IMAGE_NT_HEADERS32 := mk_IMAGE_NT_HEADERS32 {
  nt32_Signature : Z;
  nt32_FileHeader : IMAGE_FILE_HEADER;
  nt32_OptionalHeader : IMAGE_OPTIONAL_HEADER32
}.
Definition sizeof_IMAGE_NT_HEADERS32 : Z := 248.
Definition decode_IMAGE_NT_HEADERS32 (b : bytes) : IMAGE_NT_HEADERS32 := {|
  nt32_Signature := fld 0 4 b;
  nt32_FileHeader := decode_IMAGE_FILE_HEADER (slice 4 20 b);
  nt32_OptionalHeader := decode_IMAGE_OPTIONAL_HEADER32 (slice 24 224 b)
|}.

Record IMAGE_NT_HEADERS64 := mk_IMAGE_NT_HEADERS64 {
  nt64_Signature : Z;
  nt64_FileHeader : IMAGE_FILE_HEADER;
  nt64_OptionalHeader : IMAGE_OPTIONAL_HEADER64
}.
Definition sizeof_IMAGE_NT_HEADERS64 : Z := 264.
Definition decode_IMAGE_NT_HEADERS64 (b : bytes) : IMAGE_NT_HEADERS64 := {|
  nt64_Signature := fld 0 4 b;
  nt64_FileHeader := decode_IMAGE_FILE_HEADER (slice 4 20 b);
  nt64_OptionalHeader := decode_IMAGE_OPTIONAL_HEADER64 (slice 24 240 b)
|}.

Inductive IMAGE_NT_HEADERS :=
| PE_TYPE_32 (nt32 : IMAGE_NT_HEADERS32)
| PE_TYPE_64 (nt64 : IMAGE_NT_HEADERS64).

Definition encode_IMAGE_NT_HEADERS (nt : IMAGE_NT_HEADERS) : bytes :=
  match nt with
  | PE_TYPE_32 h =>
      le_split 4 (nt32_Signature h) ++ encode_IMAGE_FILE_HEADER (nt32_FileHeader h) ++
      encode_IMAGE_OPTIONAL_HEADER32 (nt32_OptionalHeader h)
  | PE_TYPE_64 h =>
      le_split 4 (nt64_Signature h) ++ encode_IMAGE_FILE_HEADER (nt64_FileHeader h) ++
      encode_IMAGE_OPTIONAL_HEADER64 (nt64_OptionalHeader h)
  end.

Definition wf_IMAGE_NT_HEADERS (nt : IMAGE_NT_HEADERS) : Prop :=
  match nt with
  | PE_TYPE_32 h =>
      in_u 32 (nt32_Signature h) /\ wf_IMAGE_FILE_HEADER (nt32_FileHeader h) /\
      wf_IMAGE_OPTIONAL_HEADER32 (nt32_OptionalHeader h)
  | PE_TYPE_64 h =>
      in_u 32 (nt64_Signature h) /\ wf_IMAGE_FILE_HEADER (nt64_FileHeader h) /\
      wf_IMAGE_OPTIONAL_HEADER64 (nt64_OptionalHeader h)
  end.

(** ** Field ranges: a decoded structure is well formed *)

Lemma fld_range off n b : wf_bytes b -> 0 <= n -> in_u (8 * n) (fld off n b).
Proof.
  intros Hb Hn. unfold fld, in_u.
  pose proof (le_combine_range _ (wf_slice off n b Hb)) as [L U]. split; [done|].
  eapply Z.lt_le_trans; [exact U|]. apply Z.pow_le_mono_r; [lia|].
  unfold blen, slice. rewrite length_take. lia.
Qed.

Lemma fld1 off b : wf_bytes b -> in_u 8 (fld off 1 b).
Proof. intros. by apply (fld_range off 1). Qed.
Lemma fld2 off b : wf_bytes b -> in_u 16 (fld off 2 b).
Proof. intros. by apply (fld_range off 2). Qed.
Lemma fld4 off b : wf_bytes b -> in_u 32 (fld off 4 b).
Proof. intros. by apply (fld_range off 4). Qed.
Lemma fld8 off b : wf_bytes b -> in_u 64 (fld off 8 b).
Proof. intros. by apply (fld_range off 8). Qed.

Lemma flds_wf off n c b :
  wf_bytes b -> 0 <= n ->
  length (flds off n c b) = c /\ Forall (in_u (8 * n)) (flds off n c b).
Proof.
  intros. unfold flds. rewrite length_map, length_seq. split; [done|].
  apply Forall_map, Forall_true. intros. by apply fld_range.
Qed.

#[export] Hint Resolve fld1 fld2 fld4 fld8 : wine.

Lemma wf_decode_IMAGE_DATA_DIRECTORY b :
  wf_bytes b -> wf_IMAGE_DATA_DIRECTORY (decode_IMAGE_DATA_DIRECTORY b).
Proof. intros. split; simpl; auto with wine. Qed.

(** The sixteen directories at the end of an optional header. *)
Lemma wf_decode_directories off b :
  wf_bytes b ->
  let l := map (fun i => decode_IMAGE_DATA_DIRECTORY (slice (off + 8 * Z.of_nat i) 8 b)) (seq 0 16) in
  length l = 16%nat /\ Forall wf_IMAGE_DATA_DIRECTORY l.
Proof.
  intros Hb l. split; [done|]. apply Forall_map, Forall_true. intros.
  apply wf_decode_IMAGE_DATA_DIRECTORY. auto with wine.
Qed.

Lemma wf_decode_IMAGE_FILE_HEADER b :
  wf_bytes b -> wf_IMAGE_FILE_HEADER (decode_IMAGE_FILE_HEADER b).
Proof. intros. repeat split; simpl; by apply fld2 || apply fld4. Qed.

Lemma wf_decode_IMAGE_OPTIONAL_HEADER32 b :
  wf_bytes b -> wf_IMAGE_OPTIONAL_HEADER32 (decode_IMAGE_OPTIONAL_HEADER32 b).
Proof.
  intros Hb. unfold wf_IMAGE_OPTIONAL_HEADER32, decode_IMAGE_OPTIONAL_HEADER32.
  cbn -[in_u fld slice seq]. repeat (split; [auto with wine|]).
  by apply wf_decode_directories.
Qed.

Lemma wf_decode_IMAGE_OPTIONAL_HEADER64 b :
  wf_bytes b -> wf_IMAGE_OPTIONAL_HEADER64 (decode_IMAGE_OPTIONAL_HEADER64 b).
Proof.
  intros Hb. unfold wf_IMAGE_OPTIONAL_HEADER64, decode_IMAGE_OPTIONAL_HEADER64.
  cbn -[in_u fld slice seq]. repeat (split; [auto with wine|]).
  by apply wf_decode_directories.
Qed.

Lemma wf_decode_IMAGE_SECTION_HEADER b :
  wf_bytes b -> wf_IMAGE_SECTION_HEADER (decode_IMAGE_SECTION_HEADER b).
Proof.
  intros Hb. unfold wf_IMAGE_SECTION_HEADER, decode_IMAGE_SECTION_HEADER.
  cbn -[in_u fld flds]. destruct (flds_wf 0 1 8 b Hb) as [L F]; [lia|].
  split; [done|]. split; [exact F|]. auto 12 with wine.
Qed.

Lemma wf_decode_IMAGE_IMPORT_DESCRIPTOR b :
  wf_bytes b -> wf_IMAGE_IMPORT_DESCRIPTOR (decode_IMAGE_IMPORT_DESCRIPTOR b).
Proof. intros. repeat split; simpl; by apply fld4. Qed.

Lemma wf_decode_IMAGE_EXPORT_DIRECTORY b :
  wf_bytes b -> wf_IMAGE_EXPORT_DIRECTORY (decode_IMAGE_EXPORT_DIRECTORY b).
Proof. intros. repeat split; simpl; by apply fld2 || apply fld4. Qed.

(** ** Layout round trip: decoding the packed fields gives them back *)

Lemma slice_skip off len a rest :
  blen a <= off -> slice off len (a ++ rest) = slice (off - blen a) len rest.
Proof.
  unfold slice, blen. intros. rewrite drop_app_ge by lia. do 2 f_equal. lia.
Qed.

Lemma slice_here len a rest : blen a = len -> slice 0 len (a ++ rest) = a.
Proof.
  unfold slice, blen. intros <-. rewrite Nat2Z.id. apply take_app_length.
Qed.

Lemma slice_all len a : blen a = len -> slice 0 len a = a.
Proof. unfold slice, blen. intros <-. rewrite Nat2Z.id. by apply take_ge. Qed.

Lemma fld_skip off n m v rest :
  Z.of_nat m <= off -> fld off n (le_split m v ++ rest) = fld (off - Z.of_nat m) n rest.
Proof. intros. unfold fld. rewrite slice_skip; rewrite blen_le_split; done. Qed.

Lemma fld_here n m v rest :
  n = Z.of_nat m -> in_u (8 * n) v -> fld 0 n (le_split m v ++ rest) = v.
Proof.
  intros -> ?. unfold fld. rewrite slice_here by apply blen_le_split.
  rewrite le_combine_split. by apply wrap_small.
Qed.

Lemma fld_last n m v :
  n = Z.of_nat m -> in_u (8 * n) v -> fld 0 n (le_split m v) = v.
Proof. intros. rewrite <- (app_nil_r (le_split m v)). by apply fld_here. Qed.

(** Peel the fields in front of the one that is read. *)
Ltac fld_peel :=
  repeat match goal with
  | |- context [fld 0 ?n (le_split ?m ?v ++ ?r)] =>
      rewrite (fld_here n m v r) by (reflexivity || assumption)
  | |- context [fld 0 ?n (le_split ?m ?v)] =>
      rewrite (fld_last n m v) by (reflexivity || assumption)
  | |- context [fld ?o ?n (le_split ?m ?v ++ ?r)] =>
      rewrite (fld_skip o n m v r) by lia;
      let d := eval vm_compute in (o - Z.of_nat m) in
      change (o - Z.of_nat m) with d
  end.

Lemma decode_encode_IMAGE_FILE_HEADER h :
  wf_IMAGE_FILE_HEADER h -> decode_IMAGE_FILE_HEADER (encode_IMAGE_FILE_HEADER h) = h.
Proof.
  destruct h. unfold wf_IMAGE_FILE_HEADER, decode_IMAGE_FILE_HEADER, encode_IMAGE_FILE_HEADER.
  cbn -[in_u fld le_split]. intros; destruct_and!. f_equal; by fld_peel.
Qed.

Lemma decode_encode_IMAGE_DATA_DIRECTORY h :
  wf_IMAGE_DATA_DIRECTORY h ->
  decode_IMAGE_DATA_DIRECTORY (encode_IMAGE_DATA_DIRECTORY h) = h.
Proof.
  destruct h. unfold wf_IMAGE_DATA_DIRECTORY, decode_IMAGE_DATA_DIRECTORY, encode_IMAGE_DATA_DIRECTORY.
  cbn -[in_u fld le_split]. intros; destruct_and!. f_equal; by fld_peel.
Qed.

Lemma blen_encode_IMAGE_DATA_DIRECTORY d : blen (encode_IMAGE_DATA_DIRECTORY d) = 8.
Proof. done. Qed.

(** The directory array at the end of an optional header. *)
Lemma decode_encode_directories l :
  Forall wf_IMAGE_DATA_DIRECTORY l ->
  forall pre off, off = blen pre ->
  map (fun i => decode_IMAGE_DATA_DIRECTORY
                  (slice (off + 8 * Z.of_nat i) 8
                     (pre ++ concat (map encode_IMAGE_DATA_DIRECTORY l))))
      (seq 0 (length l)) = l.
Proof.
  induction 1 as [|d l Hd Hl IH]; intros pre off ->; [done|].
  cbn [length seq map concat]. f_equal.
  - rewrite slice_skip by lia. replace (_ - _) with 0 by lia.
    rewrite slice_here by done. by apply decode_encode_IMAGE_DATA_DIRECTORY.
  - rewrite <- seq_shift, map_map, app_assoc. rewrite <- IH at 2; [|done].
    apply map_ext. intros i. do 2 f_equal.
    unfold blen. rewrite length_app. simpl. lia.
Qed.

Lemma decode_encode_IMAGE_OPTIONAL_HEADER64 h :
  wf_IMAGE_OPTIONAL_HEADER64 h ->
  decode_IMAGE_OPTIONAL_HEADER64 (encode_IMAGE_OPTIONAL_HEADER64 h) = h.
Proof.
  destruct h. unfold wf_IMAGE_OPTIONAL_HEADER64, decode_IMAGE_OPTIONAL_HEADER64,
    encode_IMAGE_OPTIONAL_HEADER64.
  cbn -[in_u fld le_split slice seq map concat]. intros; destruct_and!.
  f_equal; fld_peel; try done.
  rewrite !app_assoc. replace 16%nat with (length oh64_DataDirectory0).
  by apply decode_encode_directories.
Qed.

Lemma decode_encode_IMAGE_OPTIONAL_HEADER32 h :
  wf_IMAGE_OPTIONAL_HEADER32 h ->
  decode_IMAGE_OPTIONAL_HEADER32 (encode_IMAGE_OPTIONAL_HEADER32 h) = h.
Proof.
  destruct h. unfold wf_IMAGE_OPTIONAL_HEADER32, decode_IMAGE_OPTIONAL_HEADER32,
    encode_IMAGE_OPTIONAL_HEADER32.
  cbn -[in_u fld le_split slice seq map concat]. intros; destruct_and!.
  f_equal; fld_peel; try done.
  rewrite !app_assoc. replace 16%nat with (length oh32_DataDirectory0).
  by apply decode_encode_directories.
Qed.
