(* ===== verification/TestImages.v ===== *)
(** * Concrete PE images

    Small well-formed inputs on which the definitions are evaluated: headers
    with chosen fields, laid out with the encoders of [PeStructs]. *)
From S2P Require Import Prelude Bytes CStr PeStructs.

Definition no_dirs : list IMAGE_DATA_DIRECTORY :=
  replicate 16 (mk_IMAGE_DATA_DIRECTORY 0 0).
Definition set_dir (i : nat) (va sz : Z) (l : list IMAGE_DATA_DIRECTORY) :=
  <[i := mk_IMAGE_DATA_DIRECTORY va sz]> l.

Definition sample_file_header (machine nsec optsize chars : Z) : IMAGE_FILE_HEADER :=
  mk_IMAGE_FILE_HEADER machine nsec 0x5F000000 0 0 optsize chars.

Definition sample_oh64 (base image_size headers_size : Z)
    (dirs : list IMAGE_DATA_DIRECTORY) : IMAGE_OPTIONAL_HEADER64 :=
  mk_IMAGE_OPTIONAL_HEADER64 0x20B 2 40 0x200 0x200 0 0x1000 0x1000 base 0x1000 0x200
    4 0 0 0 5 2 0 image_size headers_size 0 3 0 0x200000 0x1000 0x100000 0x1000 0 16 dirs.

Definition sample_oh32 (base image_size headers_size : Z)
    (dirs : list IMAGE_DATA_DIRECTORY) : IMAGE_OPTIONAL_HEADER32 :=
  mk_IMAGE_OPTIONAL_HEADER32 0x10B 2 40 0x200 0x200 0 0x1000 0x1000 0x2000 base 0x1000 0x200
    4 0 0 0 5 2 0 image_size headers_size 0 3 0 0x200000 0x1000 0x100000 0x1000 0 16 dirs.

Definition sample_nt64 base image_size headers_size nsec chars dirs : IMAGE_NT_HEADERS :=
  PE_TYPE_64 (mk_IMAGE_NT_HEADERS64 0x4550 (sample_file_header 0x8664 nsec 240 chars)
                (sample_oh64 base image_size headers_size dirs)).
Definition sample_nt32 base image_size headers_size nsec chars dirs : IMAGE_NT_HEADERS :=
  PE_TYPE_32 (mk_IMAGE_NT_HEADERS32 0x4550 (sample_file_header 0x14c nsec 224 chars)
                (sample_oh32 base image_size headers_size dirs)).

Definition sample_dos (lfanew : Z) : IMAGE_DOS_HEADER :=
  mk_IMAGE_DOS_HEADER 0x5A4D 0 0 0 0 0 0 0 0 0 0 0 0 0 (replicate 4 0) 0 0 (replicate 10 0) lfanew.

Definition sample_section (name : string) (vsize va rawsize rawptr chars : Z)
  : IMAGE_SECTION_HEADER :=
  let n := lit name in
  mk_IMAGE_SECTION_HEADER (take 8 (n ++ replicate 8 0)) vsize va rawsize rawptr 0 0 0 0 chars.

(** DOS header, NT headers right after it, section table, then [body]. *)
Definition sample_file (nt : IMAGE_NT_HEADERS) (secs : list IMAGE_SECTION_HEADER)
    (body : bytes) : bytes :=
  encode_IMAGE_DOS_HEADER (sample_dos 64) ++ encode_IMAGE_NT_HEADERS nt ++
  concat (map encode_IMAGE_SECTION_HEADER secs) ++ body.

(** A file whose bytes are all in range (decidable). *)
Definition wf_bytesb (b : bytes) : bool := forallb (fun c => (0 <=? c) && (c <? 256)) b.
Lemma wf_bytesb_spec b : wf_bytesb b = true -> wf_bytes b.
Proof.
  unfold wf_bytesb. rewrite forallb_forall. intros H. apply Forall_forall.
  intros x Hx%list_elem_of_In. specialize (H x Hx). unfold in_u. lia.
Qed.

(** A two-section PE32+ file: 392 bytes of headers padded to 512, then 512 bytes
    of code. *)
Definition hello64_nt : IMAGE_NT_HEADERS :=
  sample_nt64 0x140000000 0x3000 0x200 2 0x22 no_dirs.
Definition hello64_secs : list IMAGE_SECTION_HEADER :=
  [sample_section ".text" 0x100 0x1000 0x200 0x200 0x60000020;
   sample_section ".bss" 0x80 0x2000 0 0 0xC0000080]%string.
Definition hello64 : bytes :=
  let h := sample_file hello64_nt hello64_secs [] in
  h ++ replicate (512 - length h) 0 ++ replicate 512 0x90.

Definition in_ub (w z : Z) : bool := (0 <=? z) && (z <? 2 ^ w).
Lemma in_ub_spec w z : in_ub w z = true -> in_u w z.
Proof. unfold in_ub, in_u. lia. Qed.

(** Discharge well-formedness of concrete headers. *)
Ltac solve_wf :=
  repeat match goal with
  | |- _ /\ _ => split
  | |- in_u _ _ => apply in_ub_spec; vm_compute; reflexivity
  | |- Forall _ _ => constructor
  | |- length _ = _ => reflexivity
  | |- wf_IMAGE_DATA_DIRECTORY _ => split
  end.

Lemma hello64_nt_wf : wf_IMAGE_NT_HEADERS hello64_nt.
Proof.
  unfold hello64_nt, sample_nt64, wf_IMAGE_NT_HEADERS, wf_IMAGE_FILE_HEADER,
    wf_IMAGE_OPTIONAL_HEADER64.
  cbn [nt64_Signature nt64_FileHeader nt64_OptionalHeader sample_oh64 oh64_DataDirectory
       no_dirs replicate].
  solve_wf.
Qed.

Lemma hello64_wf : wf_bytes hello64.
Proof. apply wf_bytesb_spec. vm_compute. reflexivity. Qed.

Ltac solve_nt_wf :=
  cbn [nt64_Signature nt64_FileHeader nt64_OptionalHeader nt32_Signature nt32_FileHeader
       nt32_OptionalHeader sample_oh64 sample_oh32 oh64_DataDirectory oh32_DataDirectory
       no_dirs set_dir replicate insert list_insert];
  solve_wf.

(** A PE32+ file with one import descriptor for "a.dll" and its terminator in a
    section at RVA 0x1000, file offset 512: descriptors at 0x1000, DLL name at
    0x1028, lookup table at 0x1030, address table at 0x1040, and the hint/name
    entry "f" at 0x1050. *)
Definition import64_nt : IMAGE_NT_HEADERS :=
  sample_nt64 0x140000000 0x1060 0x200 1 0x22 (set_dir 1 0x1000 40 no_dirs).
Definition import64_secs : list IMAGE_SECTION_HEADER :=
  [sample_section ".idata" 0x60 0x1000 0x60 0x200 0xC0000040]%string.
Definition import64_idata : bytes :=
  encode_IMAGE_IMPORT_DESCRIPTOR (mk_IMAGE_IMPORT_DESCRIPTOR 0x1030 0 0 0x1028 0x1040) ++
  replicate 20 0 ++ lit "a.dll"%string ++ [0; 0; 0] ++
  le_split 8 0x1050 ++ le_split 8 0 ++ le_split 8 0x1050 ++ le_split 8 0 ++
  [0; 0] ++ lit "f"%string ++ replicate 13 0.
Definition import64 : bytes :=
  let h := sample_file import64_nt import64_secs [] in
  h ++ replicate (512 - length h) 0 ++ import64_idata.

Lemma import64_nt_wf : wf_IMAGE_NT_HEADERS import64_nt.
Proof.
  unfold import64_nt, sample_nt64, wf_IMAGE_NT_HEADERS, wf_IMAGE_FILE_HEADER,
    wf_IMAGE_OPTIONAL_HEADER64. solve_nt_wf.
Qed.
Lemma import64_wf : wf_bytes import64.
Proof. apply wf_bytesb_spec. vm_compute. reflexivity. Qed.
