(* ===== verification/PePriv.v ===== *)
(** * PE helper functions (src/pe_priv.h)

    Bounds checks, field accessors of the tagged NT headers and the conversion
    of RVAs to file offsets.  A pointer into the file mapping or into the mapped
    image is represented by its offset from the start of that region. *)
From S2P Require Import Prelude Bytes PeStructs.

(** The offset of the object, or [None] for NULL. *)
Definition safe_ptr_at (offset len file_size : Z) : option Z :=
  if (file_size <? len) || (file_size - len <? offset) then None else Some offset.

Definition pe_rva_range_is_valid (rva len image_size : Z) : bool :=
  if (image_size <? len) || (image_size - len <? rva) then false else true.

Definition pe_is_pe32 (nt : IMAGE_NT_HEADERS) : bool :=
  match nt with PE_TYPE_32 _ => true | PE_TYPE_64 _ => false end.
Definition pe_is_pe64 (nt : IMAGE_NT_HEADERS) : bool :=
  match nt with PE_TYPE_32 _ => false | PE_TYPE_64 _ => true end.

Definition pe_image_base (nt : IMAGE_NT_HEADERS) : Z :=
  match nt with
  | PE_TYPE_32 h => oh32_ImageBase (nt32_OptionalHeader h)
  | PE_TYPE_64 h => oh64_ImageBase (nt64_OptionalHeader h)
  end.
Definition pe_entry_rva (nt : IMAGE_NT_HEADERS) : Z :=
  match nt with
  | PE_TYPE_32 h => oh32_AddressOfEntryPoint (nt32_OptionalHeader h)
  | PE_TYPE_64 h => oh64_AddressOfEntryPoint (nt64_OptionalHeader h)
  end.
Definition pe_stack_reserve (nt : IMAGE_NT_HEADERS) : Z :=
  match nt with
  | PE_TYPE_32 h => oh32_SizeOfStackReserve (nt32_OptionalHeader h)
  | PE_TYPE_64 h => oh64_SizeOfStackReserve (nt64_OptionalHeader h)
  end.
Definition pe_section_count (nt : IMAGE_NT_HEADERS) : Z :=
  match nt with
  | PE_TYPE_32 h => NumberOfSections (nt32_FileHeader h)
  | PE_TYPE_64 h => NumberOfSections (nt64_FileHeader h)
  end.
Definition pe_size_of_image (nt : IMAGE_NT_HEADERS) : Z :=
  match nt with
  | PE_TYPE_32 h => oh32_SizeOfImage (nt32_OptionalHeader h)
  | PE_TYPE_64 h => oh64_SizeOfImage (nt64_OptionalHeader h)
  end.
Definition pe_size_of_headers (nt : IMAGE_NT_HEADERS) : Z :=
  match nt with
  | PE_TYPE_32 h => oh32_SizeOfHeaders (nt32_OptionalHeader h)
  | PE_TYPE_64 h => oh64_SizeOfHeaders (nt64_OptionalHeader h)
  end.
Definition pe_section_alignment (nt : IMAGE_NT_HEADERS) : Z :=
  match nt with
  | PE_TYPE_32 h => oh32_SectionAlignment (nt32_OptionalHeader h)
  | PE_TYPE_64 h => oh64_SectionAlignment (nt64_OptionalHeader h)
  end.
Definition pe_optional_header_size (nt : IMAGE_NT_HEADERS) : Z :=
  match nt with
  | PE_TYPE_32 h => SizeOfOptionalHeader (nt32_FileHeader h)
  | PE_TYPE_64 h => SizeOfOptionalHeader (nt64_FileHeader h)
  end.
Definition pe_machine (nt : IMAGE_NT_HEADERS) : Z :=
  match nt with
  | PE_TYPE_32 h => Machine (nt32_FileHeader h)
  | PE_TYPE_64 h => Machine (nt64_FileHeader h)
  end.
Definition pe_pointer_to_symbol_table (nt : IMAGE_NT_HEADERS) : Z :=
  match nt with
  | PE_TYPE_32 h => PointerToSymbolTable (nt32_FileHeader h)
  | PE_TYPE_64 h => PointerToSymbolTable (nt64_FileHeader h)
  end.
Definition pe_number_of_symbols (nt : IMAGE_NT_HEADERS) : Z :=
  match nt with
  | PE_TYPE_32 h => NumberOfSymbols (nt32_FileHeader h)
  | PE_TYPE_64 h => NumberOfSymbols (nt64_FileHeader h)
  end.
Definition pe_characteristics (nt : IMAGE_NT_HEADERS) : Z :=
  match nt with
  | PE_TYPE_32 h => Characteristics (nt32_FileHeader h)
  | PE_TYPE_64 h => Characteristics (nt64_FileHeader h)
  end.
Definition pe_time_date_stamp (nt : IMAGE_NT_HEADERS) : Z :=
  match nt with
  | PE_TYPE_32 h => TimeDateStamp (nt32_FileHeader h)
  | PE_TYPE_64 h => TimeDateStamp (nt64_FileHeader h)
  end.

(** An offset into the image mapped at [base]; [None] is NULL.  The NT headers
    pointer of every caller is the address of a header structure. *)
Definition pe_rva_to_ptr (base : Z) (nt : IMAGE_NT_HEADERS) (rva len : Z) : option Z :=
  if base =? 0 then None
  else if pe_rva_range_is_valid rva len (pe_size_of_image nt) then Some rva else None.
Definition pe_rva_to_const_ptr (base : Z) (nt : IMAGE_NT_HEADERS) (rva len : Z) : option Z :=
  if base =? 0 then None
  else if pe_rva_range_is_valid rva len (pe_size_of_image nt) then Some rva else None.

(** [Fail]: the index is not below NumberOfRvaAndSizes.  The array has sixteen
    entries; a larger index that passes the test is out of its bounds. *)
Definition pe_get_data_dir (nt : IMAGE_NT_HEADERS) (index : nat) : outcome IMAGE_DATA_DIRECTORY :=
  match nt with
  | PE_TYPE_32 h =>
      if oh32_NumberOfRvaAndSizes (nt32_OptionalHeader h) <=? Z.of_nat index then Fail
      else deref (oh32_DataDirectory (nt32_OptionalHeader h) !! index)
  | PE_TYPE_64 h =>
      if oh64_NumberOfRvaAndSizes (nt64_OptionalHeader h) <=? Z.of_nat index then Fail
      else deref (oh64_DataDirectory (nt64_OptionalHeader h) !! index)
  end.
Definition pe_get_import_dir (nt : IMAGE_NT_HEADERS) : outcome IMAGE_DATA_DIRECTORY :=
  pe_get_data_dir nt IMAGE_DIRECTORY_ENTRY_IMPORT.
Definition pe_get_basereloc_dir (nt : IMAGE_NT_HEADERS) : outcome IMAGE_DATA_DIRECTORY :=
  pe_get_data_dir nt IMAGE_DIRECTORY_ENTRY_BASERELOC.

(** The extent of a section in memory, as rva_to_offset computes it. *)
Definition section_extent (sec : IMAGE_SECTION_HEADER) : Z :=
  let sec_size := sec_VirtualSize sec in
  if (sec_size =? 0) || (sec_size <? sec_SizeOfRawData sec)
  then sec_SizeOfRawData sec else sec_size.

Section width.
Context {A : Arch}.

(** The loop over sections i, i+1, ..., num-1. *)
Fixpoint rva_to_offset_loop (nt : IMAGE_NT_HEADERS) (sections : list IMAGE_SECTION_HEADER)
    (rva file_size : Z) (todo i : nat) : outcome Z :=
  match todo with
  | O => if rva <? pe_size_of_headers nt then Ret (i32 rva) else Ret (-1)
  | S todo =>
      sec ← deref (sections !! i);
      let sec_start := sec_VirtualAddress sec in
      let sec_size := section_extent sec in
      if UINT32_MAX - sec_start <? sec_size then Ret (-1)
      else
        let sec_end := u32 (sec_start + sec_size) in
        if (sec_start <=? rva) && (rva <? sec_end) then
          let off := usize (sec_PointerToRawData sec + (rva - sec_start)) in
          if off <=? file_size then Ret (i32 off) else Ret (-1)
        else rva_to_offset_loop nt sections rva file_size todo (S i)
  end.
Definition rva_to_offset (nt : IMAGE_NT_HEADERS) (sections : list IMAGE_SECTION_HEADER)
    (rva file_size : Z) : outcome Z :=
  rva_to_offset_loop nt sections rva file_size (Z.to_nat (pe_section_count nt)) 0.

Definition rva_range_to_offset (nt : IMAGE_NT_HEADERS) (sections : list IMAGE_SECTION_HEADER)
    (rva len file_size : Z) : outcome Z :=
  off ← rva_to_offset nt sections rva file_size;
  if off <? 0 then Ret (-1)
  else if (file_size <? len) || (file_size - len <? off) then Ret (-1)
  else Ret off.

Definition compute_section_table_offset (e_lfanew : Z) (nt : IMAGE_NT_HEADERS) : Z :=
  i32 (usize (e_lfanew + 4 + sizeof_IMAGE_FILE_HEADER + pe_optional_header_size nt)).

(** Offset, in the mapped image, of the section header array. *)
Definition get_image_sections (e_lfanew : Z) (nt : IMAGE_NT_HEADERS) : Z :=
  u32 (e_lfanew + 4 + sizeof_IMAGE_FILE_HEADER + pe_optional_header_size nt).
End width.

(** ** Bounds *)

Lemma safe_ptr_at_Some off len size o :
  safe_ptr_at off len size = Some o <-> o = off /\ len <= size /\ off + len <= size.
Proof. unfold safe_ptr_at. destruct (_ || _) eqn:E; naive_solver lia. Qed.

Lemma rva_range_valid_spec rva len size :
  0 <= rva -> 0 <= len ->
  pe_rva_range_is_valid rva len size = true <-> rva + len <= size.
Proof. intros. unfold pe_rva_range_is_valid. destruct (_ || _) eqn:E; lia. Qed.

Lemma rva_range_valid_in_range rva len size :
  0 <= rva -> 0 <= len ->
  pe_rva_range_is_valid rva len size = in_range rva len size.
Proof.
  intros. unfold pe_rva_range_is_valid, in_range. destruct (_ || _) eqn:E; lia.
Qed.

Lemma pe_rva_to_ptr_Some base nt rva len o :
  0 <= rva -> 0 <= len ->
  pe_rva_to_ptr base nt rva len = Some o <->
  base <> 0 /\ o = rva /\ rva + len <= pe_size_of_image nt.
Proof.
  intros. unfold pe_rva_to_ptr.
  destruct (Z.eqb_spec base 0); [naive_solver|].
  destruct (pe_rva_range_is_valid _ _ _) eqn:E.
  - apply rva_range_valid_spec in E; naive_solver lia.
  - split; [done|]. intros (_ & _ & H1). apply rva_range_valid_spec in H1; [congruence|lia..].
Qed.

(** ** Well-formed headers *)

Lemma wf_section_count nt : wf_IMAGE_NT_HEADERS nt -> in_u 16 (pe_section_count nt).
Proof. destruct nt; simpl; unfold wf_IMAGE_FILE_HEADER; naive_solver. Qed.

Lemma wf_size_of_image nt : wf_IMAGE_NT_HEADERS nt -> in_u 32 (pe_size_of_image nt).
Proof.
  destruct nt; simpl; unfold wf_IMAGE_OPTIONAL_HEADER32, wf_IMAGE_OPTIONAL_HEADER64;
    intros (_ & _ & H); decompose [and] H; done.
Qed.

Lemma wf_size_of_headers nt : wf_IMAGE_NT_HEADERS nt -> in_u 32 (pe_size_of_headers nt).
Proof.
  destruct nt; simpl; unfold wf_IMAGE_OPTIONAL_HEADER32, wf_IMAGE_OPTIONAL_HEADER64;
    intros (_ & _ & H); decompose [and] H; done.
Qed.

Lemma wf_image_base nt : wf_IMAGE_NT_HEADERS nt -> in_u 64 (pe_image_base nt).
Proof.
  destruct nt; simpl; unfold wf_IMAGE_OPTIONAL_HEADER32, wf_IMAGE_OPTIONAL_HEADER64;
    intros (_ & _ & H); decompose [and] H; unfold in_u in *; lia.
Qed.

Lemma wf_optional_header_size nt :
  wf_IMAGE_NT_HEADERS nt -> in_u 16 (pe_optional_header_size nt).
Proof. destruct nt; simpl; unfold wf_IMAGE_FILE_HEADER; naive_solver. Qed.

(** The sixteen directories of the headers. *)
Definition pe_directories (nt : IMAGE_NT_HEADERS) : list IMAGE_DATA_DIRECTORY :=
  match nt with
  | PE_TYPE_32 h => oh32_DataDirectory (nt32_OptionalHeader h)
  | PE_TYPE_64 h => oh64_DataDirectory (nt64_OptionalHeader h)
  end.

Lemma wf_directories nt :
  wf_IMAGE_NT_HEADERS nt ->
  length (pe_directories nt) = 16%nat /\ Forall wf_IMAGE_DATA_DIRECTORY (pe_directories nt).
Proof.
  destruct nt; simpl; unfold wf_IMAGE_OPTIONAL_HEADER32, wf_IMAGE_OPTIONAL_HEADER64;
    intros (_ & _ & H); decompose [and] H; done.
Qed.

(** The indices the loader uses are below sixteen: no access leaves the
    directory array, and what is read is a pair of 32-bit values. *)
Lemma pe_get_data_dir_cases nt i :
  wf_IMAGE_NT_HEADERS nt -> (i < 16)%nat ->
  pe_get_data_dir nt i = Fail \/
  exists d, pe_get_data_dir nt i = Ret d /\ pe_directories nt !! i = Some d /\
            wf_IMAGE_DATA_DIRECTORY d.
Proof.
  intros Hwf Hi. destruct (wf_directories nt Hwf) as [L F].
  destruct (lookup_lt_is_Some_2 (pe_directories nt) i) as [d Hd]; [lia|].
  assert (wf_IMAGE_DATA_DIRECTORY d) by by eapply Forall_lookup_1 in F.
  unfold pe_get_data_dir. destruct nt; simpl in Hd; destruct (_ <=? _); auto; right;
    exists d; by rewrite Hd.
Qed.

Lemma pe_get_data_dir_no_fault nt i :
  wf_IMAGE_NT_HEADERS nt -> (i < 16)%nat -> no_fault (pe_get_data_dir nt i).
Proof. intros H1 H2. destruct (pe_get_data_dir_cases nt i H1 H2) as [-> | (d & -> & _)]; done. Qed.

#[export] Hint Resolve wf_section_count wf_size_of_image wf_size_of_headers wf_image_base
  wf_optional_header_size : wine.
