(* ===== verification/PeHeaders.v ===== *)
(** * Header parsing (src/pe_headers.c)

    parse_dos_header, parse_nt_headers, parse_sections, find_section_by_name and
    find_code_section.  The file mapping is a byte buffer whose length is the
    file size; the base pointer is its offset 0. *)
From S2P Require Import Prelude Bytes CStr PeStructs TestImages PePriv.

Section headers.
Context {A : Arch}.

Definition parse_dos_header (file : bytes) : outcome IMAGE_DOS_HEADER :=
  let file_size := blen file in
  if file_size <? sizeof_IMAGE_DOS_HEADER then Fail
  else
    hdr ← of_option (safe_ptr_at 0 sizeof_IMAGE_DOS_HEADER file_size);
    e_magic ← load 2 hdr file;
    if negb (e_magic =? IMAGE_DOS_SIGNATURE) then Fail
    else
      b ← load_bytes hdr sizeof_IMAGE_DOS_HEADER file;
      Ret (decode_IMAGE_DOS_HEADER b).

Definition parse_nt_headers (file : bytes) (dos_header : IMAGE_DOS_HEADER)
  : outcome IMAGE_NT_HEADERS :=
  let file_size := blen file in
  let pe_offset := e_lfanew dos_header in
  if file_size <? usize (pe_offset + 4) then Fail
  else
    sig_ptr ← of_option (safe_ptr_at pe_offset 4 file_size);
    sig ← load 4 sig_ptr file;
    if negb (sig =? IMAGE_NT_SIGNATURE) then Fail
    else
      let file_header_off := u32 (pe_offset + 4) in
      if file_size <? usize (file_header_off + sizeof_IMAGE_FILE_HEADER) then Fail
      else
        fh ← of_option (safe_ptr_at file_header_off sizeof_IMAGE_FILE_HEADER file_size);
        fh_bytes ← load_bytes fh sizeof_IMAGE_FILE_HEADER file;
        let file_hdr := decode_IMAGE_FILE_HEADER fh_bytes in
        if negb (Machine file_hdr =? IMAGE_FILE_MACHINE_AMD64) &&
           negb (Machine file_hdr =? IMAGE_FILE_MACHINE_I386) then Fail
        else
          let opt_header_off := u32 (file_header_off + sizeof_IMAGE_FILE_HEADER) in
          if file_size <? usize (opt_header_off + 2) then Fail
          else
            magic_ptr ← of_option (safe_ptr_at opt_header_off 2 file_size);
            magic ← load 2 magic_ptr file;
            if magic =? IMAGE_NT_OPTIONAL_HDR32_MAGIC then
              if SizeOfOptionalHeader file_hdr <? sizeof_IMAGE_OPTIONAL_HEADER32 then Fail
              else if (UINT32_MAX - sizeof_IMAGE_NT_HEADERS32 <? pe_offset) ||
                      (file_size <? usize (pe_offset + sizeof_IMAGE_NT_HEADERS32)) then Fail
              else
                nt ← of_option (safe_ptr_at pe_offset sizeof_IMAGE_NT_HEADERS32 file_size);
                b ← load_bytes nt sizeof_IMAGE_NT_HEADERS32 file;
                Ret (PE_TYPE_32 (decode_IMAGE_NT_HEADERS32 b))
            else if magic =? IMAGE_NT_OPTIONAL_HDR64_MAGIC then
              if SizeOfOptionalHeader file_hdr <? sizeof_IMAGE_OPTIONAL_HEADER64 then Fail
              else if (UINT32_MAX - sizeof_IMAGE_NT_HEADERS64 <? pe_offset) ||
                      (file_size <? usize (pe_offset + sizeof_IMAGE_NT_HEADERS64)) then Fail
              else
                nt ← of_option (safe_ptr_at pe_offset sizeof_IMAGE_NT_HEADERS64 file_size);
                b ← load_bytes nt sizeof_IMAGE_NT_HEADERS64 file;
                Ret (PE_TYPE_64 (decode_IMAGE_NT_HEADERS64 b))
            else Fail.

(** sec[i] of a section table at offset [off] of a buffer. *)
Definition section_at (off : Z) (i : nat) (b : bytes) : outcome IMAGE_SECTION_HEADER :=
  s ← load_bytes (off + sizeof_IMAGE_SECTION_HEADER * Z.of_nat i) sizeof_IMAGE_SECTION_HEADER b;
  Ret (decode_IMAGE_SECTION_HEADER s).

(** The validation loop of parse_sections, collecting the headers it visits. *)
Fixpoint parse_sections_loop (file : bytes) (sec : Z) (todo i : nat)
  : outcome (list IMAGE_SECTION_HEADER) :=
  match todo with
  | O => Ret []
  | S todo =>
      s ← section_at sec i file;
      if negb (sec_PointerToRawData s =? 0) &&
         (blen file <? usize (sec_PointerToRawData s + sec_SizeOfRawData s)) then Fail
      else
        rest ← parse_sections_loop file sec todo (S i);
        Ret (s :: rest)
  end.

(** [*out_sections] (an offset into the file) and the headers it points to; the
    return value is their number. *)
Definition parse_sections (file : bytes) (nt : IMAGE_NT_HEADERS)
  : outcome (Z * list IMAGE_SECTION_HEADER) :=
  let file_size := blen file in
  let num := pe_section_count nt in
  let section_table_size := usize (num * sizeof_IMAGE_SECTION_HEADER) in
  if negb (num =? 0) && negb (section_table_size / sizeof_IMAGE_SECTION_HEADER =? num) then Fail
  else
    dos ← of_option (safe_ptr_at 0 sizeof_IMAGE_DOS_HEADER file_size);
    dos_bytes ← load_bytes dos sizeof_IMAGE_DOS_HEADER file;
    let hdr := decode_IMAGE_DOS_HEADER dos_bytes in
    if negb (e_magic hdr =? IMAGE_DOS_SIGNATURE) then Fail
    else
      let sec_table_off := compute_section_table_offset (e_lfanew hdr) nt in
      if (sec_table_off <? 0) || (file_size <? usize (sec_table_off + section_table_size)) then Fail
      else
        sec ← of_option (safe_ptr_at sec_table_off section_table_size file_size);
        l ← parse_sections_loop file sec (Z.to_nat num) 0;
        Ret (sec, l).

(** Step 3 of map_image_at: the three parsers in sequence. *)
Definition parse_headers (file : bytes)
  : outcome (IMAGE_DOS_HEADER * IMAGE_NT_HEADERS * list IMAGE_SECTION_HEADER) :=
  dos ← parse_dos_header file;
  nt ← parse_nt_headers file dos;
  '(_, sections) ← parse_sections file nt;
  Ret (dos, nt, sections).
End headers.

(** ** Section lookup *)

(** The bytes a string function sees in the 8-byte Name field. *)
Fixpoint name_chars (n : list Z) : cstr :=
  match n with
  | c :: n' => if c =? 0 then [] else c :: name_chars n'
  | [] => []
  end.

(** [sections[i].Name[k]]: the byte after the 8-byte array is the first byte of
    the field that follows it, Misc.VirtualSize. *)
Definition section_name_byte (s : IMAGE_SECTION_HEADER) (k : nat) : Z :=
  default (sec_VirtualSize s mod 256) (sec_Name s !! k).

(** The test shared by both lookups: strncasecmp on name_len characters, then a
    NUL in the position after them. *)
Definition section_name_matches (name : cstr) (s : IMAGE_SECTION_HEADER) : bool :=
  (_m_strncasecmp (name_chars (sec_Name s)) name (length name) =? 0) &&
  (section_name_byte s (length name) =? 0).

(** First index i < num with [p sections[i]]. *)
Fixpoint find_section_loop (p : IMAGE_SECTION_HEADER -> bool)
    (sections : list IMAGE_SECTION_HEADER) (todo i : nat) : outcome (option nat) :=
  match todo with
  | O => Ret None
  | S todo =>
      s ← deref (sections !! i);
      if p s then Ret (Some i) else find_section_loop p sections todo (S i)
  end.

(** The index of the section, or None for NULL. *)
Definition find_section_by_name (nt : IMAGE_NT_HEADERS)
    (sections : list IMAGE_SECTION_HEADER) (name : cstr) : outcome (option nat) :=
  if 8 <? syscall_safe_strlen name then Ret None
  else find_section_loop (section_name_matches name) sections
         (Z.to_nat (pe_section_count nt)) 0.

Definition code_names : list cstr :=
  [lit ".text"; lit "BEGTEXT"; lit "TEXT"; lit "CODE"]%string.

Definition is_code_section (s : IMAGE_SECTION_HEADER) : bool :=
  negb (Z.land (sec_Characteristics s) IMAGE_SCN_CNT_CODE =? 0) &&
  negb (Z.land (sec_Characteristics s) IMAGE_SCN_MEM_EXECUTE =? 0).

Fixpoint find_code_by_names (names : list cstr) (sections : list IMAGE_SECTION_HEADER)
    (num : nat) : outcome (option nat) :=
  match names with
  | [] => Ret None
  | n :: names =>
      r ← find_section_loop (section_name_matches n) sections num 0;
      match r with
      | Some i => Ret (Some i)
      | None => find_code_by_names names sections num
      end
  end.

Definition find_code_section (nt : IMAGE_NT_HEADERS)
    (sections : list IMAGE_SECTION_HEADER) : outcome (option nat) :=
  let num := Z.to_nat (pe_section_count nt) in
  if pe_section_count nt =? 0 then Ret None
  else
    r ← find_code_by_names code_names sections num;
    match r with
    | Some i => Ret (Some i)
    | None => find_section_loop is_code_section sections num 0
    end.

(** ** parse_nt_headers: what a successful parse means *)

Section proofs.
Context {A : Arch}.

(** The file holds PE headers at [o]: signature, machine, magic and an optional
    header large enough for the structure that is copied. *)
Definition nt_headers_at (file : bytes) (o : Z) (nt : IMAGE_NT_HEADERS) : Prop :=
  let fh := decode_IMAGE_FILE_HEADER (slice (o + 4) 20 file) in
  fld o 4 file = IMAGE_NT_SIGNATURE /\
  (Machine fh = IMAGE_FILE_MACHINE_AMD64 \/ Machine fh = IMAGE_FILE_MACHINE_I386) /\
  ((fld (o + 24) 2 file = IMAGE_NT_OPTIONAL_HDR32_MAGIC /\
    sizeof_IMAGE_OPTIONAL_HEADER32 <= SizeOfOptionalHeader fh /\
    o + sizeof_IMAGE_NT_HEADERS32 <= Z.min (blen file) UINT32_MAX /\
    nt = PE_TYPE_32 (decode_IMAGE_NT_HEADERS32 (slice o sizeof_IMAGE_NT_HEADERS32 file))) \/
   (fld (o + 24) 2 file = IMAGE_NT_OPTIONAL_HDR64_MAGIC /\
    sizeof_IMAGE_OPTIONAL_HEADER64 <= SizeOfOptionalHeader fh /\
    o + sizeof_IMAGE_NT_HEADERS64 <= Z.min (blen file) UINT32_MAX /\
    nt = PE_TYPE_64 (decode_IMAGE_NT_HEADERS64 (slice o sizeof_IMAGE_NT_HEADERS64 file)))).

(** A checked pointer followed by a read of the checked length. *)
Lemma checked_load_bytes {B} off len (file : bytes) (k : bytes -> outcome B) :
  0 <= off -> 0 <= len ->
  (p ← of_option (safe_ptr_at off len (blen file)); b ← load_bytes p len file; k b)
  = if off + len <=? blen file then k (slice off len file) else Fail.
Proof.
  intros. destruct (safe_ptr_at _ _ _) as [p|] eqn:E.
  - apply safe_ptr_at_Some in E as (-> & H1 & H2). simpl.
    rewrite load_bytes_ok by (by apply in_range_spec). simpl.
    by rewrite (proj2 (Z.leb_le _ _) H2).
  - simpl. unfold safe_ptr_at in E. destruct (_ || _) eqn:E2; [|done].
    by replace (_ <=? _) with false by lia.
Qed.

Lemma checked_load {B} n len off (file : bytes) (k : Z -> outcome B) :
  0 <= off -> len = Z.of_nat n ->
  (p ← of_option (safe_ptr_at off len (blen file)); b ← load n p file; k b)
  = if off + len <=? blen file then k (fld off len file) else Fail.
Proof.
  intros ? ->. destruct (safe_ptr_at _ _ _) as [p|] eqn:E.
  - apply safe_ptr_at_Some in E as (-> & H1 & H2). simpl.
    rewrite load_ok by (apply in_range_spec; lia). simpl.
    by rewrite (proj2 (Z.leb_le _ _) H2).
  - simpl. unfold safe_ptr_at in E. destruct (_ || _) eqn:E2; [|done].
    by replace (_ <=? _) with false by lia.
Qed.

Lemma usize_range z : 0 <= usize z < 2 ^ ptr_bits.
Proof. apply wrap_range. destruct ptr_bits_cases as [-> | ->]; lia. Qed.

(** [x + n > file_size] as the code writes it on size_t, next to the bound that
    safe_ptr_at checks, is the bound itself. *)
Lemma usize_le z bound : 0 <= z -> z <= bound -> usize z <= bound.
Proof.
  intros. unfold usize, wrap. etrans; [|done]. apply Z.mod_le; [done|].
  destruct ptr_bits_cases as [-> | ->]; lia.
Qed.

Lemma guarded_bound {B} off len file_size (k : outcome B) :
  0 <= off -> 0 <= len ->
  (if file_size <? usize (off + len) then Fail
   else if off + len <=? file_size then k else Fail)
  = if off + len <=? file_size then k else Fail.
Proof.
  intros. destruct (Z.leb_spec (off + len) file_size).
  - pose proof (usize_le (off + len) file_size). by replace (_ <? _) with false by lia.
  - by destruct (_ <? _).
Qed.

Lemma parse_nt_headers_eq file dos :
  in_u 32 (e_lfanew dos) ->
  parse_nt_headers file dos =
  let o := e_lfanew dos in
  let f := u32 (o + 4) in
  let h := u32 (f + 20) in
  let fh := decode_IMAGE_FILE_HEADER (slice f 20 file) in
  if negb (o + 4 <=? blen file) || negb (fld o 4 file =? IMAGE_NT_SIGNATURE) ||
     negb (f + 20 <=? blen file) ||
     (negb (Machine fh =? IMAGE_FILE_MACHINE_AMD64) &&
      negb (Machine fh =? IMAGE_FILE_MACHINE_I386)) ||
     negb (h + 2 <=? blen file)
  then Fail
  else if fld h 2 file =? IMAGE_NT_OPTIONAL_HDR32_MAGIC then
    if (SizeOfOptionalHeader fh <? 224) || negb (o + 248 <=? Z.min (blen file) UINT32_MAX) then Fail
    else Ret (PE_TYPE_32 (decode_IMAGE_NT_HEADERS32 (slice o 248 file)))
  else if fld h 2 file =? IMAGE_NT_OPTIONAL_HDR64_MAGIC then
    if (SizeOfOptionalHeader fh <? 240) || negb (o + 264 <=? Z.min (blen file) UINT32_MAX) then Fail
    else Ret (PE_TYPE_64 (decode_IMAGE_NT_HEADERS64 (slice o 264 file)))
  else Fail.
Proof.
  unfold in_u. intros Ho. unfold parse_nt_headers.
  pose proof (wrap_range 32 (e_lfanew dos + 4)) as Hf.
  set (f := u32 (e_lfanew dos + 4)) in *.
  pose proof (wrap_range 32 (f + 20)) as Hh.
  change (u32 (f + sizeof_IMAGE_FILE_HEADER)) with (u32 (f + 20)).
  set (h := u32 (f + 20)) in *. cbv zeta.
  rewrite (checked_load 4) by lia. rewrite guarded_bound by lia.
  destruct (e_lfanew dos + 4 <=? blen file); simpl; [|done].
  destruct (_ =? IMAGE_NT_SIGNATURE); simpl; [|done].
  change sizeof_IMAGE_FILE_HEADER with 20.
  rewrite checked_load_bytes by lia. rewrite guarded_bound by lia.
  destruct (f + 20 <=? blen file); simpl; [|done].
  destruct (negb _ && negb _); simpl; [done|].
  rewrite (checked_load 2) by lia. rewrite guarded_bound by lia.
  destruct (h + 2 <=? blen file); simpl; [|done].
  change sizeof_IMAGE_OPTIONAL_HEADER32 with 224. change sizeof_IMAGE_OPTIONAL_HEADER64 with 240.
  change sizeof_IMAGE_NT_HEADERS32 with 248. change sizeof_IMAGE_NT_HEADERS64 with 264.
  destruct (_ =? IMAGE_NT_OPTIONAL_HDR32_MAGIC); [|destruct (_ =? IMAGE_NT_OPTIONAL_HDR64_MAGIC)];
    try done; destruct (_ <? _) eqn:Es; simpl; try done;
    rewrite checked_load_bytes by lia; unfold UINT32_MAX in *.
  all: destruct (_ <=? Z.min _ _) eqn:E; simpl.
  1,3: pose proof (usize_le (e_lfanew dos + 248) (blen file));
       pose proof (usize_le (e_lfanew dos + 264) (blen file));
       replace (_ || _) with false by lia; by replace (_ <=? _) with true by lia.
  all: destruct (_ || _) eqn:E3; [done|]; by replace (_ <=? _) with false by lia.
Qed.
End proofs.

(** ** Well-formed results and memory safety *)

Section safety.
Context {A : Arch}.

Lemma parse_dos_header_eq file :
  parse_dos_header file =
  if (64 <=? blen file) && (fld 0 2 file =? IMAGE_DOS_SIGNATURE)
  then Ret (decode_IMAGE_DOS_HEADER (slice 0 64 file)) else Fail.
Proof.
  unfold parse_dos_header. change sizeof_IMAGE_DOS_HEADER with 64. cbv zeta.
  destruct (Z.ltb_spec (blen file) 64).
  { by replace (64 <=? blen file) with false by lia. }
  replace (64 <=? blen file) with true by lia.
  rewrite (proj2 (safe_ptr_at_Some 0 64 (blen file) 0)) by lia. simpl.
  rewrite load_ok by (apply in_range_spec; lia). simpl.
  change (le_combine (slice 0 (Z.of_nat 2) file)) with (fld 0 2 file).
  destruct (_ =? _); simpl; [|done].
  by rewrite load_bytes_ok by (apply in_range_spec; lia).
Qed.

Lemma e_lfanew_range file : wf_bytes file -> in_u 32 (e_lfanew (decode_IMAGE_DOS_HEADER (slice 0 64 file))).
Proof. intros. simpl. auto with wine. Qed.

Lemma parse_dos_header_wf file dos :
  wf_bytes file -> parse_dos_header file = Ret dos -> in_u 32 (e_lfanew dos).
Proof.
  intros Hw H. rewrite parse_dos_header_eq in H. case_hyp H; inv_ret.
  by apply e_lfanew_range.
Qed.

Lemma parse_nt_headers_wf file dos nt :
  wf_bytes file -> in_u 32 (e_lfanew dos) ->
  parse_nt_headers file dos = Ret nt -> wf_IMAGE_NT_HEADERS nt.
Proof.
  intros Hw Ho H. rewrite parse_nt_headers_eq in H by done. cbv zeta in H.
  repeat case_hyp H; try discriminate H; inv_ret; simpl;
    auto 6 using wf_decode_IMAGE_FILE_HEADER, wf_decode_IMAGE_OPTIONAL_HEADER32,
      wf_decode_IMAGE_OPTIONAL_HEADER64 with wine.
Qed.

Lemma section_at_ok off i b :
  in_range off (40 * Z.of_nat (S i)) (blen b) = true ->
  section_at off i b =
  Ret (decode_IMAGE_SECTION_HEADER (slice (off + 40 * Z.of_nat i) 40 b)).
Proof.
  rewrite in_range_spec. intros. unfold section_at. change sizeof_IMAGE_SECTION_HEADER with 40.
  by rewrite load_bytes_ok by (apply in_range_spec; lia).
Qed.

Lemma section_at_wf off i b s :
  wf_bytes b -> section_at off i b = Ret s -> wf_IMAGE_SECTION_HEADER s.
Proof.
  unfold section_at. intros Hb H. inv_ret. apply load_bytes_inv in H0 as [_ ->].
  apply wf_decode_IMAGE_SECTION_HEADER. auto with wine.
Qed.

Lemma parse_sections_loop_no_fault file sec todo i :
  in_range sec (40 * Z.of_nat (i + todo)) (blen file) = true ->
  no_fault (parse_sections_loop file sec todo i).
Proof.
  revert i. induction todo as [|todo IH]; intros i Hr; simpl; [done|].
  rewrite section_at_ok by (apply in_range_spec in Hr; apply in_range_spec; lia). simpl.
  case_goal; [done|]. apply bind_no_fault; [|done].
  apply IH. replace (S i + todo)%nat with (i + S todo)%nat by lia. done.
Qed.

Lemma usize_table_size nt :
  wf_IMAGE_NT_HEADERS nt -> usize (pe_section_count nt * 40) = pe_section_count nt * 40.
Proof. intros H%wf_section_count. unfold in_u in H. apply usize_u32. lia. Qed.

Lemma i32_range z : - 2 ^ 31 <= i32 z < 2 ^ 31.
Proof. unfold swrap. pose proof (Z.mod_pos_bound (z + 2 ^ (32 - 1)) (2 ^ 32)). lia. Qed.

(** parse_sections after its header checks: a table inside the file. *)
Lemma parse_sections_eq file nt :
  wf_IMAGE_NT_HEADERS nt ->
  parse_sections file nt =
  let hdr := decode_IMAGE_DOS_HEADER (slice 0 64 file) in
  let off := compute_section_table_offset (e_lfanew hdr) nt in
  if (64 <=? blen file) && (e_magic hdr =? IMAGE_DOS_SIGNATURE) &&
     in_range off (pe_section_count nt * 40) (blen file)
  then l ← parse_sections_loop file off (Z.to_nat (pe_section_count nt)) 0; Ret (off, l)
  else Fail.
Proof.
  intros Hn. pose proof (wf_section_count nt Hn) as Hc. unfold in_u in Hc.
  unfold parse_sections. change sizeof_IMAGE_SECTION_HEADER with 40.
  change sizeof_IMAGE_DOS_HEADER with 64.
  rewrite usize_table_size by done. cbv zeta.
  rewrite Z.div_mul, Z.eqb_refl, andb_false_r by lia.
  rewrite checked_load_bytes by lia. rewrite Z.add_0_l.
  destruct (64 <=? blen file); simpl; [|done].
  destruct (_ =? _); cbn [negb andb]; [|done].
  set (o := compute_section_table_offset _ _).
  pose proof (i32_range (usize (fld 60 4 (slice 0 64 file) + 4 + sizeof_IMAGE_FILE_HEADER + pe_optional_header_size nt))) as Ro.
  change (i32 _) with o in Ro.
  destruct (Z.ltb_spec o 0); cbn [orb].
  { by replace (in_range _ _ _) with false by (unfold in_range; lia). }
  rewrite usize_u32 by lia. unfold in_range, safe_ptr_at.
  repeat case_goal; try done; lia.
Qed.

(** C8: The parsers only read inside the file, whatever its bytes. *)
Theorem parse_headers_no_fault file : wf_bytes file -> no_fault (parse_headers file).
Proof.
  intros Hw. unfold parse_headers.
  apply bind_no_fault; [rewrite parse_dos_header_eq; by case_goal|]. intros dos Hd.
  pose proof (parse_dos_header_wf file dos Hw Hd) as Ho.
  apply bind_no_fault.
  { rewrite parse_nt_headers_eq by done. cbv zeta. by repeat case_goal. }
  intros nt Hnt. pose proof (parse_nt_headers_wf file dos nt Hw Ho Hnt) as Hn.
  apply bind_no_fault; [|by intros []].
  rewrite parse_sections_eq by done. cbv zeta.
  destruct (_ && _) eqn:E; [|done]. apply andb_prop in E as [_ E].
  apply bind_no_fault; [|done]. apply parse_sections_loop_no_fault.
  pose proof (wf_section_count nt Hn). unfold in_u in *.
  simpl. rewrite Z2Nat.id, Z.mul_comm by lia. done.
Qed.

Lemma parse_sections_loop_spec file sec todo i l :
  parse_sections_loop file sec todo i = Ret l ->
  length l = todo /\
  forall k s, l !! k = Some s ->
    section_at sec (i + k)%nat file = Ret s /\
    (sec_PointerToRawData s <> 0 ->
     usize (sec_PointerToRawData s + sec_SizeOfRawData s) <= blen file).
Proof.
  revert i l. induction todo as [|todo IH]; intros i l H; simpl in H; [by inv_ret|].
  inv_ret. rename x into s0.
  destruct (negb _ && _) eqn:E; [discriminate|]. inv_ret.
  apply IH in H1 as [<- IHk]. split; [done|]. intros [|k] s Hk; simpl in Hk.
  - injection Hk as <-. rewrite Nat.add_0_r. split; [done|]. lia.
  - apply IHk in Hk. by replace (i + S k)%nat with (S i + k)%nat by lia.
Qed.
End safety.

(** ** Theorems *)

Section theorems.
Context {A : Arch}.

(** C7: Success of parse_nt_headers means exactly that PE headers of a supported
    machine and magic, entirely inside the file, are at e_lfanew; the result is
    the copy of those bytes. *)
Theorem parse_nt_headers_correct file dos nt :
  in_u 32 (e_lfanew dos) ->
  parse_nt_headers file dos = Ret nt <-> nt_headers_at file (e_lfanew dos) nt.
Proof.
  intros Ho. rewrite parse_nt_headers_eq by done. unfold in_u in Ho. cbv zeta.
  unfold nt_headers_at, UINT32_MAX, IMAGE_NT_OPTIONAL_HDR32_MAGIC, IMAGE_NT_OPTIONAL_HDR64_MAGIC.
  change sizeof_IMAGE_OPTIONAL_HEADER32 with 224. change sizeof_IMAGE_OPTIONAL_HEADER64 with 240.
  change sizeof_IMAGE_NT_HEADERS32 with 248. change sizeof_IMAGE_NT_HEADERS64 with 264.
  destruct (Z.leb_spec (e_lfanew dos + 248) 4294967295).
  - rewrite !(wrap_small 32) by lia. rewrite <- Z.add_assoc. change (4 + 20) with 24.
    repeat case_goal; split; intros Hx; try discriminate Hx.
    all: try (injection Hx as <-; split; [lia|]; split; [lia|]; auto with lia; fail).
    all: try (destruct Hx as (? & ? & [(? & ? & ? & ?) | (? & ? & ? & ?)]); subst; lia || done).
  - split.
    + repeat case_goal; try done; lia.
    + intros (_ & _ & [(_ & _ & ? & _) | (_ & _ & ? & _)]); lia.
Qed.
End theorems.

Lemma parse_nt_headers_correct_witness :
  exists nt, @parse_nt_headers arch32 hello64 (sample_dos 64) = Ret nt /\ nt_headers_at hello64 64 nt.
Proof.
  destruct (@parse_nt_headers arch32 hello64 (sample_dos 64)) as [nt| |] eqn:E;
    [|vm_compute in E; discriminate E..].
  exists nt. split; [done|].
  apply (proj1 (@parse_nt_headers_correct arch32 hello64 (sample_dos 64) nt
                  (in_ub_spec 32 64 eq_refl)) E).
Defined.

Lemma parse_headers_no_fault_witness : no_fault (@parse_headers arch32 hello64).
Proof. apply (@parse_headers_no_fault arch32 hello64). exact hello64_wf. Defined.

(** In the 64-bit build an accepted section table is complete and every section
    with a raw-data pointer has its raw data inside the file. *)
Theorem parse_sections_raw_data_in_file file nt off l :
  @parse_sections arch64 file nt = Ret (off, l) ->
  wf_bytes file -> wf_IMAGE_NT_HEADERS nt ->
  Z.of_nat (length l) = pe_section_count nt /\
  forall i s, l !! i = Some s ->
    section_at off i file = Ret s /\
    (sec_PointerToRawData s <> 0 ->
     sec_PointerToRawData s + sec_SizeOfRawData s <= blen file).
Proof.
  intros H Hw Hn. pose proof (wf_section_count nt Hn) as Hc. unfold in_u in Hc.
  rewrite parse_sections_eq in H by done. cbv zeta in H. case_hyp H; [|done]. inv_ret.
  apply parse_sections_loop_spec in H0 as [L Hs]. split; [lia|]. intros i s Hi.
  apply Hs in Hi as [Ha Hp]. split; [done|]. intros Hnz.
  assert (wf_IMAGE_SECTION_HEADER s) as Hwf.
  { by eapply section_at_wf. }
  destruct Hwf as (_ & _ & _ & _ & Hsz & Hpt & _). unfold in_u in *.
  specialize (Hp Hnz). unfold usize, ptr_bits in Hp. simpl in Hp.
  rewrite wrap_small in Hp by lia. done.
Qed.

Lemma parse_sections_raw_data_in_file_witness :
  exists off l, @parse_sections arch64 hello64 hello64_nt = Ret (off, l) /\
    Z.of_nat (length l) = 2.
Proof.
  destruct (@parse_sections arch64 hello64 hello64_nt) as [[off l]| |] eqn:E;
    [|vm_compute in E; discriminate E..].
  exists off, l. split; [done|].
  exact (proj1 (parse_sections_raw_data_in_file hello64 hello64_nt off l E
                  hello64_wf hello64_nt_wf)).
Defined.

(** ** Section lookup theorems *)

Lemma find_section_loop_eq p (l : list IMAGE_SECTION_HEADER) todo i :
  (i + todo <= length l)%nat ->
  find_section_loop p l todo i
  = Ret ((fun x => (i + x.1)%nat) <$> list_find (fun s => p s = true) (take todo (drop i l))).
Proof.
  revert i. induction todo as [|todo IH]; intros i H; [done|]. simpl.
  destruct (lookup_lt_is_Some_2 l i) as [s Hs]; [lia|].
  rewrite Hs. simpl. rewrite (drop_S l s i Hs). simpl.
  destruct (p s) eqn:Ep; simpl.
  - by rewrite Nat.add_0_r.
  - rewrite IH by lia. destruct (list_find _ _) as [[k x]|]; simpl; [|done].
    do 2 f_equal. lia.
Qed.

Lemma tolower_pos c : 1 <= c < 256 -> 1 <= _m_tolower_c c.
Proof. unfold _m_tolower_c. intros. case_goal; lia. Qed.

Lemma strncasecmp_zero a b :
  wf_cstr a -> wf_cstr b ->
  _m_strncasecmp a b (length b) = 0 <->
  map _m_tolower_c (take (length b) a) = map _m_tolower_c b.
Proof.
  intros Ha Hb. revert a Ha. induction Hb as [|y b Hy Hb IH]; intros a Ha; [by destruct a|].
  destruct Ha as [|x a Hx Ha]; simpl.
  - pose proof (tolower_pos y Hy). split; [unfold _m_tolower_c at 1; simpl; lia|by intros [=]].
  - destruct (Z.eqb_spec (_m_tolower_c x) (_m_tolower_c y)) as [E|E]; simpl.
    + rewrite IH by done. split; intros H; [by rewrite E, H|by injection H].
    + split; [lia|]. intros H. by injection H.
Qed.

Lemma name_chars_length n k :
  n !! k = Some 0 -> (length (name_chars n) <= k)%nat.
Proof.
  revert k. induction n as [|c n IH]; intros [|k] H; simpl in *; try lia.
  - by injection H as ->.
  - destruct (c =? 0); simpl; [lia|]. apply IH in H. lia.
Qed.

Lemma name_chars_end n :
  (length (name_chars n) < length n)%nat -> n !! length (name_chars n) = Some 0.
Proof.
  induction n as [|c n IH]; simpl; [lia|].
  destruct (Z.eqb_spec c 0) as [->|]; simpl; [done|]. intros. apply IH. lia.
Qed.

Lemma wf_name_chars n : Forall (in_u 8) n -> wf_cstr (name_chars n).
Proof.
  induction 1 as [|c n Hc Hn IH]; simpl; [constructor|].
  destruct (Z.eqb_spec c 0); constructor; [unfold in_u in Hc; lia|done].
Qed.

(** Equality of section names up to ASCII case. *)
Definition same_section_name (name : cstr) (s : IMAGE_SECTION_HEADER) : Prop :=
  map _m_tolower_c (name_chars (sec_Name s)) = map _m_tolower_c name.
#[export] Instance same_section_name_dec name s : Decision (same_section_name name s).
Proof. unfold same_section_name. apply _. Defined.

Lemma section_name_matches_spec name s :
  wf_cstr name -> (length name < 8)%nat ->
  length (sec_Name s) = 8%nat -> Forall (in_u 8) (sec_Name s) ->
  section_name_matches name s = true <-> same_section_name name s.
Proof.
  intros Hn Hl L F. pose proof (wf_name_chars _ F) as W.
  unfold section_name_matches, section_name_byte, same_section_name.
  destruct (lookup_lt_is_Some_2 (sec_Name s) (length name)) as [c Hc]; [lia|].
  rewrite Hc. simpl. rewrite andb_true_iff, !Z.eqb_eq, strncasecmp_zero by done. split.
  - intros [H ->]. apply name_chars_length in Hc. by rewrite take_ge in H by lia.
  - intros H. assert (E : length (name_chars (sec_Name s)) = length name).
    { by rewrite <- (length_map _m_tolower_c name), <- H, length_map. }
    split; [by rewrite take_ge by lia|].
    pose proof (name_chars_end (sec_Name s)). rewrite E in *.
    rewrite H0 in Hc by lia. by injection Hc.
Qed.

(** A list search whose tests agree on the elements gives the same result. *)
Lemma list_find_ext_in {B} (P Q : B -> Prop) `{forall x, Decision (P x)} `{forall x, Decision (Q x)} l :
  Forall (fun x => P x <-> Q x) l -> list_find P l = list_find Q l.
Proof.
  induction 1 as [|x l Hx Hl IH]; simpl; [done|].
  rewrite IH. destruct (decide (P x)), (decide (Q x)); tauto.
Qed.

(** find_section_by_name: the first of the NumberOfSections headers whose name
    equals [name] up to case, for the names of at most seven characters that
    the loader uses. *)
Theorem find_section_by_name_correct nt sections name :
  (Z.to_nat (pe_section_count nt) <= length sections)%nat ->
  Forall wf_IMAGE_SECTION_HEADER sections ->
  wf_cstr name -> (length name < 8)%nat ->
  find_section_by_name nt sections name =
  Ret (fst <$> list_find (same_section_name name)
                 (take (Z.to_nat (pe_section_count nt)) sections)).
Proof.
  intros Hc Hw Hn Hl. unfold find_section_by_name, syscall_safe_strlen.
  replace (8 <? _) with false by lia. rewrite find_section_loop_eq by done.
  change (drop 0 sections) with sections. f_equal.
  rewrite (list_find_ext_in _ (same_section_name name)).
  - destruct (list_find _ _) as [[]|]; done.
  - apply Forall_take. eapply Forall_impl; [exact Hw|]. intros s (L & F & _).
    by apply section_name_matches_spec.
Qed.

Lemma find_section_by_name_correct_witness :
  find_section_by_name hello64_nt hello64_secs (lit ".BSS"%string) = Ret (Some 1%nat).
Proof.
  rewrite find_section_by_name_correct.
  - vm_compute. reflexivity.
  - vm_compute. repeat constructor.
  - unfold hello64_secs, sample_section, wf_IMAGE_SECTION_HEADER. solve_wf.
  - by apply wf_cstrb_spec.
  - vm_compute. repeat constructor.
Defined.

(** An eight-character name needs a NUL in the byte after the Name array, which
    is the low byte of VirtualSize: the section is found or not depending on
    its size. *)
Theorem find_section_eight_chars_depends_on_size :
  let secs v := [sample_section ".textbss" v 0x1000 0 0 0]%string in
  let nt := sample_nt64 0 0x3000 0x200 1 0 no_dirs in
  find_section_by_name nt (secs 0x1000) (lit ".textbss"%string) = Ret (Some 0%nat) /\
  find_section_by_name nt (secs 0x1001) (lit ".textbss"%string) = Ret None.
Proof. split; vm_compute; reflexivity. Qed.

(** The 32-bit build adds PointerToRawData and SizeOfRawData in a 32-bit size_t:
    a section whose raw data lies far outside of the file is accepted. *)
Theorem raw_data_check_wraps_32 :
  let secs := [sample_section ".text" 0x1000 0x1000 0x10 0xFFFFFFF8 0x60000020]%string in
  let nt := sample_nt32 0x400000 0x2000 0x200 1 0x102 no_dirs in
  let file := sample_file nt secs [] in
  (exists off l, @parse_sections arch32 file nt = Ret (off, l)) /\
  @parse_sections arch64 file nt = Fail.
Proof. split; [eexists _, _|]; vm_compute; reflexivity. Qed.
