(* ===== verification/PeImports.v ===== *)
(** * RVA translation and import descriptors of the file (src/pe_imports.c)

    The descriptor walk of parse_imports with its validation of every RVA, and
    the theorems on rva_to_offset (src/pe_priv.h) it relies on. *)
From S2P Require Import Prelude Bytes CStr PeStructs TestImages PePriv PeHeaders.

Section imports.
Context {A : Arch}.

(** The [num] headers of the table at [off] of the read-only file mapping. *)
Fixpoint sections_at (off : Z) (file : bytes) (num i : nat) : outcome (list IMAGE_SECTION_HEADER) :=
  match num with
  | O => Ret []
  | S num => s ← section_at off i file; rest ← sections_at off file num (S i); Ret (s :: rest)
  end.

(** The scan for a NUL byte, from [i] to the end of the file. *)
Definition has_bounded_cstr (file : bytes) (offset : Z) : bool :=
  match safe_ptr_at offset 1 (blen file) with
  | None => false
  | Some off => existsb (fun c => c =? 0) (drop (Z.to_nat off) file)
  end.

(** A thunk array RVA: mappable, and one entry readable. *)
Definition thunk_rva_ok (file : bytes) (nt : IMAGE_NT_HEADERS)
    (sections : list IMAGE_SECTION_HEADER) (rva thunk_size : Z) : outcome unit :=
  if rva =? 0 then Ret tt
  else
    off ← rva_to_offset nt sections rva (blen file);
    if off <? 0 then Fail
    else if blen file <? usize (off + thunk_size) then Fail
    else Ret tt.

(** The [while (1)] loop; every iteration advances [current] by 20 bytes and
    the bound check ends it, so [import_end - current] bounds the fuel. *)
Fixpoint parse_imports_loop (file : bytes) (nt : IMAGE_NT_HEADERS)
    (sections : list IMAGE_SECTION_HEADER) (thunk_size import_end : Z)
    (fuel : nat) (current count : Z) : outcome Z :=
  match fuel with
  | O => Fault
  | S fuel =>
      if (import_end <? current) || (import_end - current <? sizeof_IMAGE_IMPORT_DESCRIPTOR)
      then Fail
      else
        p ← of_option (safe_ptr_at current sizeof_IMAGE_IMPORT_DESCRIPTOR (blen file));
        b ← load_bytes p sizeof_IMAGE_IMPORT_DESCRIPTOR file;
        let desc := decode_IMAGE_IMPORT_DESCRIPTOR b in
        if imp_Name desc =? 0 then Ret count
        else
          name_off ← rva_to_offset nt sections (imp_Name desc) (blen file);
          if name_off <? 0 then Fail
          else if negb (has_bounded_cstr file name_off) then Fail
          else
            _ ← thunk_rva_ok file nt sections (imp_OriginalFirstThunk desc) thunk_size;
            _ ← thunk_rva_ok file nt sections (imp_FirstThunk desc) thunk_size;
            parse_imports_loop file nt sections thunk_size import_end fuel
              (usize (current + sizeof_IMAGE_IMPORT_DESCRIPTOR)) (count + 1)
  end.

(** The number of descriptors and, when there is one, the file offset of the
    first. *)
Definition parse_imports (file : bytes) (nt : IMAGE_NT_HEADERS) : outcome (Z * option Z) :=
  match pe_get_import_dir nt with
  | Fail => Ret (0, None)
  | Fault => Fault
  | Ret imp_dir =>
      if (dd_VirtualAddress imp_dir =? 0) || (dd_Size imp_dir =? 0) then Ret (0, None)
      else
        dos ← of_option (safe_ptr_at 0 sizeof_IMAGE_DOS_HEADER (blen file));
        dos_bytes ← load_bytes dos sizeof_IMAGE_DOS_HEADER file;
        let sec_table_off :=
          compute_section_table_offset (e_lfanew (decode_IMAGE_DOS_HEADER dos_bytes)) nt in
        let num_sections := pe_section_count nt in
        let sec_table_size := usize (num_sections * sizeof_IMAGE_SECTION_HEADER) in
        if (sec_table_off <? 0) || (blen file <? usize (sec_table_off + sec_table_size)) then Fail
        else
          sec ← of_option (safe_ptr_at sec_table_off sec_table_size (blen file));
          sections ← sections_at sec file (Z.to_nat num_sections) 0;
          imp_offset ← rva_range_to_offset nt sections (dd_VirtualAddress imp_dir)
                         (dd_Size imp_dir) (blen file);
          if imp_offset <? 0 then Fail
          else
            let thunk_size := if pe_is_pe32 nt then 4 else 8 in
            let import_end := usize (imp_offset + dd_Size imp_dir) in
            count ← parse_imports_loop file nt sections thunk_size import_end
                      (S (Z.to_nat (dd_Size imp_dir / 20))) imp_offset 0;
            if count =? 0 then Ret (0, None) else Ret (count, Some imp_offset)
  end.

(** ** RVA translation *)

Lemma rva_to_offset_loop_no_fault nt sections rva size todo i :
  (i + todo <= length sections)%nat ->
  no_fault (rva_to_offset_loop nt sections rva size todo i).
Proof.
  revert i. induction todo as [|todo IH]; intros i H; simpl; [by case_goal|].
  destruct (lookup_lt_is_Some_2 sections i) as [s Hs]; [lia|].
  rewrite Hs. simpl. repeat case_goal; try done. apply IH. lia.
Qed.

Lemma rva_to_offset_no_fault nt sections rva size :
  (Z.to_nat (pe_section_count nt) <= length sections)%nat ->
  no_fault (rva_to_offset nt sections rva size).
Proof. intros. by apply rva_to_offset_loop_no_fault. Qed.

(** An accepted range lies inside the file. *)
Lemma rva_range_to_offset_in_file nt sections rva len size off :
  rva_range_to_offset nt sections rva len size = Ret off -> 0 <= off -> 0 <= len ->
  in_range off len size = true.
Proof.
  unfold rva_range_to_offset. intros H H0 H1. inv_ret.
  repeat case_hyp H; inv_ret; apply in_range_spec; lia.
Qed.
End imports.

(** The RVA is in the memory extent of the section. *)
Definition section_contains (rva : Z) (s : IMAGE_SECTION_HEADER) : Prop :=
  sec_VirtualAddress s <= rva < sec_VirtualAddress s + section_extent s.

Lemma section_extent_range s : wf_IMAGE_SECTION_HEADER s -> in_u 32 (section_extent s).
Proof.
  intros (_ & _ & V & _ & R & _). unfold section_extent. by case_goal.
Qed.

Lemma rva_to_offset_loop_sound nt sections rva size todo i off :
  Forall wf_IMAGE_SECTION_HEADER sections -> in_u 32 rva -> 0 <= size < 2 ^ 31 ->
  wf_IMAGE_NT_HEADERS nt ->
  @rva_to_offset_loop arch64 nt sections rva size todo i = Ret off -> 0 <= off ->
  (exists k s, (i <= k < i + todo)%nat /\ sections !! k = Some s /\ section_contains rva s /\
     (forall j t, (i <= j < k)%nat -> sections !! j = Some t -> ~ section_contains rva t) /\
     off = sec_PointerToRawData s + (rva - sec_VirtualAddress s) /\ off <= size) \/
  ((forall j t, (i <= j < i + todo)%nat -> sections !! j = Some t -> ~ section_contains rva t) /\
   off = i32 rva /\ rva < pe_size_of_headers nt).
Proof.
  intros Hw Hr Hs Hn. revert i. induction todo as [|todo IH]; intros i H H0; simpl in H.
  - right. split; [intros; lia|]. repeat case_hyp H; inv_ret; split; lia || done.
  - inv_ret. rename x into s. destruct (sections !! i) as [s'|] eqn:Ei; [|done].
    simpl in H1. inv_ret. pose proof (Forall_lookup_1 _ _ _ _ Hw Ei) as Hwf.
    pose proof (section_extent_range s Hwf) as He.
    destruct Hwf as (_ & _ & _ & Hva & _ & Hp & _). unfold in_u, UINT32_MAX in *.
    case_hyp H; inv_ret; [lia|]. rewrite wrap_small in H by lia.
    case_hyp H.
    + unfold usize, ptr_bits in H. simpl in H. rewrite wrap_small in H by lia.
      case_hyp H; inv_ret; [|lia]. rewrite swrap_small in * by lia.
      left. exists i, s. split; [lia|]. split; [done|].
      split; [unfold section_contains; lia|]. split; [intros; lia|]. lia.
    + assert (Hnc : ~ section_contains rva s) by (unfold section_contains; lia).
      assert (Hhere : forall j t, (i <= j)%nat -> ~ (S i <= j)%nat ->
                sections !! j = Some t -> ~ section_contains rva t).
      { intros j t ? ? Hj. replace j with i in Hj by lia. congruence. }
      destruct (IH _ H H0) as [(k & t & Hk & ? & ? & Hb & ?)|[Hb ?]].
      * left. exists k, t. split; [lia|]. split; [done|]. split; [done|]. split; [|done].
        intros j u ? Hj. destruct (decide (S i <= j)%nat); [eapply Hb; [|done]; lia|].
        apply (Hhere j u); [lia|lia|done].
      * right. split; [|done].
        intros j u ? Hj. destruct (decide (S i <= j)%nat); [eapply Hb; [|done]; lia|].
        apply (Hhere j u); [lia|lia|done].
Qed.

(** rva_to_offset (64-bit build, files below 2 GiB): a nonnegative result is the
    file position of the RVA in the first section that contains it or, when no
    section does, the RVA itself if it lies in the headers. *)
Theorem rva_to_offset_sound nt sections rva size off :
  @rva_to_offset arch64 nt sections rva size = Ret off -> 0 <= off ->
  Forall wf_IMAGE_SECTION_HEADER sections -> in_u 32 rva -> 0 <= size < 2 ^ 31 ->
  wf_IMAGE_NT_HEADERS nt ->
  let tbl := take (Z.to_nat (pe_section_count nt)) sections in
  (exists k s, tbl !! k = Some s /\ section_contains rva s /\
     Forall (fun t => ~ section_contains rva t) (take k tbl) /\
     off = sec_PointerToRawData s + (rva - sec_VirtualAddress s) /\ off <= size) \/
  (off = i32 rva /\ rva < pe_size_of_headers nt /\
   Forall (fun t => ~ section_contains rva t) tbl).
Proof.
  intros H H0 Hw Hr Hs Hn tbl. unfold rva_to_offset in H.
  destruct (rva_to_offset_loop_sound _ _ _ _ _ _ _ Hw Hr Hs Hn H H0)
    as [(k & s & Hk & Hl & Hc & Hb & Ho)|[Hb Ho]].
  - left. exists k, s. unfold tbl. rewrite lookup_take_lt by lia.
    split; [done|]. split; [done|]. split; [|done].
    apply Forall_lookup. intros j t Hj. rewrite take_take in Hj.
    assert (j < k)%nat by (apply lookup_lt_Some in Hj; rewrite length_take in Hj; lia).
    rewrite lookup_take_lt in Hj by lia. eapply Hb; [|done]. lia.
  - right. destruct Ho as [-> Ho]. split; [done|]. split; [done|].
    apply Forall_lookup. intros j t Hj.
    pose proof (lookup_lt_Some _ _ _ Hj) as Lj. unfold tbl in Lj. rewrite length_take in Lj.
    unfold tbl in Hj. rewrite lookup_take_lt in Hj by lia. eapply Hb; [|done]. lia.
Qed.

Lemma hello64_secs_wf : Forall wf_IMAGE_SECTION_HEADER hello64_secs.
Proof. unfold hello64_secs, sample_section, wf_IMAGE_SECTION_HEADER. solve_wf. Qed.

Lemma rva_to_offset_sound_witness :
  exists k s, take 2 hello64_secs !! k = Some s /\ section_contains 0x1010 s /\
    0x210 = sec_PointerToRawData s + (0x1010 - sec_VirtualAddress s).
Proof.
  destruct (rva_to_offset_sound hello64_nt hello64_secs 0x1010 1024 0x210)
    as [(k & s & H1 & H2 & _ & H3 & _) | (H & _)].
  - vm_compute. reflexivity.
  - lia.
  - apply hello64_secs_wf.
  - unfold in_u. lia.
  - lia.
  - apply hello64_nt_wf.
  - exists k, s. auto.
  - exfalso. vm_compute in H. discriminate H.
Defined.

(** ** parse_imports *)

Section import_proofs.
Context {A : Arch}.

Lemma sections_at_Ret off file num i :
  in_range off (40 * Z.of_nat (i + num)) (blen file) = true ->
  exists l, sections_at off file num i = Ret l /\ length l = num.
Proof.
  revert i. induction num as [|num IH]; intros i Hr; simpl; [by exists []|].
  rewrite section_at_ok by (apply in_range_spec in Hr; apply in_range_spec; lia). simpl.
  destruct (IH (S i)) as (l & -> & <-); [by replace (S i + num)%nat with (i + S num)%nat by lia|].
  simpl. by eexists.
Qed.

Lemma thunk_rva_ok_no_fault file nt sections rva ts :
  (Z.to_nat (pe_section_count nt) <= length sections)%nat ->
  no_fault (thunk_rva_ok file nt sections rva ts).
Proof.
  intros. unfold thunk_rva_ok. case_goal; [done|].
  apply bind_no_fault; [by apply rva_to_offset_no_fault|]. intros. by repeat case_goal.
Qed.

(** Advancing by one descriptor inside the directory does not wrap. *)
Lemma usize_next current import_end :
  0 <= current -> 0 <= import_end < 2 ^ ptr_bits -> current + 20 <= import_end ->
  usize (current + 20) = current + 20.
Proof. intros. unfold usize. apply wrap_small. lia. Qed.

(** Enough fuel: the loop neither runs out of it nor reads outside the file. *)
Lemma parse_imports_loop_no_fault file nt sections ts import_end fuel current count :
  (Z.to_nat (pe_section_count nt) <= length sections)%nat ->
  0 <= current -> import_end - current < 20 * Z.of_nat fuel -> 0 <= import_end < 2 ^ ptr_bits ->
  (0 < fuel)%nat ->
  no_fault (parse_imports_loop file nt sections ts import_end fuel current count).
Proof.
  intros Hsec. revert current count. induction fuel as [|fuel IH]; intros current count Hc Hf He Hp; [lia|].
  simpl. change sizeof_IMAGE_IMPORT_DESCRIPTOR with 20.
  destruct (_ || _) eqn:Eb; [done|].
  rewrite checked_load_bytes by lia. case_goal; [|done]. case_goal; [done|].
  apply bind_no_fault; [by apply rva_to_offset_no_fault|]. intros name_off _.
  case_goal; [done|]. case_goal; [done|].
  apply bind_no_fault; [by apply thunk_rva_ok_no_fault|]. intros _ _.
  apply bind_no_fault; [by apply thunk_rva_ok_no_fault|]. intros _ _.
  destruct fuel as [|fuel]; [lia|].
  rewrite (usize_next current import_end) by lia. apply IH; lia.
Qed.

Definition desc_at (file : bytes) (o : Z) : IMAGE_IMPORT_DESCRIPTOR :=
  decode_IMAGE_IMPORT_DESCRIPTOR (slice o 20 file).

(** The DLL name of a descriptor is a terminated string of the file. *)
Definition name_readable (file : bytes) (nt : IMAGE_NT_HEADERS)
    (sections : list IMAGE_SECTION_HEADER) (d : IMAGE_IMPORT_DESCRIPTOR) : Prop :=
  exists off s, rva_to_offset nt sections (imp_Name d) (blen file) = Ret off /\
    0 <= off < blen file /\ cstr_at off file = Some s.

Lemma has_bounded_cstr_spec file off :
  0 <= off -> has_bounded_cstr file off = true ->
  off < blen file /\ exists s, cstr_at off file = Some s.
Proof.
  intros H0. unfold has_bounded_cstr. destruct (safe_ptr_at _ _ _) as [o|] eqn:E; [|done].
  apply safe_ptr_at_Some in E as (-> & _ & E). intros H. split; [lia|].
  unfold cstr_at. destruct (cstr_from _) as [s|] eqn:Es; [by eexists|].
  apply cstr_from_None in Es. rewrite existsb_exists in H. destruct H as (c & Hc & Hz).
  rewrite Forall_forall in Es. apply list_elem_of_In in Hc. specialize (Es c Hc). lia.
Qed.

Lemma parse_imports_loop_spec file nt sections ts import_end fuel current count n :
  0 <= current -> 0 <= import_end < 2 ^ ptr_bits ->
  parse_imports_loop file nt sections ts import_end fuel current count = Ret n ->
  count <= n /\ current + 20 * (n - count + 1) <= import_end /\
  imp_Name (desc_at file (current + 20 * (n - count))) = 0 /\
  forall i, 0 <= i < n - count ->
    imp_Name (desc_at file (current + 20 * i)) <> 0 /\
    name_readable file nt sections (desc_at file (current + 20 * i)).
Proof.
  intros Hc He. revert current count Hc. induction fuel as [|fuel IH]; intros current count Hc H; [done|].
  cbn [parse_imports_loop] in H. change sizeof_IMAGE_IMPORT_DESCRIPTOR with 20 in H.
  destruct (_ || _) eqn:Eb; [done|].
  rewrite checked_load_bytes in H by lia. cbv beta zeta in H. fold (desc_at file current) in H.
  case_hyp H; [|done]. destruct (imp_Name (desc_at file current) =? 0) eqn:En.
  { inv_ret. split; [lia|]. split; [lia|]. split; [|intros; lia].
    rewrite Z.sub_diag, Z.mul_0_r, Z.add_0_r. lia. }
  inv_ret. rename x into name_off.
  destruct (name_off <? 0) eqn:E0; [done|].
  destruct (has_bounded_cstr file name_off) eqn:E1; [|done]. simpl in H. inv_ret.
  rewrite (usize_next current import_end) in H by lia.
  apply IH in H as (L1 & L2 & L3 & L4); [|lia].
  replace (current + 20 + 20 * (n - (count + 1) + 1)) with (current + 20 * (n - count + 1)) in L2 by lia.
  replace (current + 20 + 20 * (n - (count + 1))) with (current + 20 * (n - count)) in L3 by lia.
  split; [lia|]. split; [done|]. split; [done|]. intros i Hi.
  destruct (decide (i = 0)) as [->|].
  - rewrite Z.mul_0_r, Z.add_0_r. split; [lia|].
    apply has_bounded_cstr_spec in E1 as (Lo & s & Hs); [|lia].
    exists name_off, s. split_and!; done || lia.
  - replace (current + 20 * i) with (current + 20 + 20 * (i - 1)) by lia. apply L4. lia.
Qed.

(** parse_imports reads only inside the file and returns, whatever the bytes of
    the file and of the headers. *)
Theorem parse_imports_no_fault file nt :
  wf_bytes file -> wf_IMAGE_NT_HEADERS nt -> blen file < 2 ^ ptr_bits ->
  no_fault (parse_imports file nt).
Proof.
  intros Hw Hn Hb. unfold parse_imports, pe_get_import_dir.
  destruct (pe_get_data_dir_cases nt IMAGE_DIRECTORY_ENTRY_IMPORT Hn) as [-> | (d & -> & _ & Hd)];
    [unfold IMAGE_DIRECTORY_ENTRY_IMPORT; lia|done|].
  destruct Hd as [Hdv Hds]. unfold in_u in *. case_goal; [done|].
  change sizeof_IMAGE_DOS_HEADER with 64. rewrite checked_load_bytes by lia.
  case_goal; [|done]. change sizeof_IMAGE_SECTION_HEADER with 40.
  rewrite usize_table_size by done. cbv zeta. set (o := compute_section_table_offset _ _).
  case_goal; [done|].
  destruct (safe_ptr_at _ _ _) as [sec|] eqn:Es; [|by cbn].
  apply safe_ptr_at_Some in Es as (-> & _ & Es). cbn [of_option mbind outcome_bind].
  pose proof (wf_section_count nt Hn) as Hc. unfold in_u in Hc.
  destruct (sections_at_Ret o file (Z.to_nat (pe_section_count nt)) 0) as (l & -> & Hl);
    [apply in_range_spec; simpl; lia|].
  cbn [mbind outcome_bind].
  destruct (rva_range_to_offset _ _ _ _ _) as [off| |] eqn:Er; [|by cbn|].
  2:{ exfalso. unfold rva_range_to_offset in Er.
      pose proof (rva_to_offset_no_fault nt l (dd_VirtualAddress d) (blen file)) as F.
      destruct (rva_to_offset _ _ _ _); cbn in Er; [repeat case_hyp Er; done|done|].
      apply F; [lia|done]. }
  cbn [mbind outcome_bind]. destruct (Z.ltb_spec off 0); [done|].
  apply rva_range_to_offset_in_file in Er; [|lia..]. apply in_range_spec in Er.
  assert (Hu : usize (off + dd_Size d) = off + dd_Size d) by (unfold usize; apply wrap_small; lia).
  rewrite Hu. apply bind_no_fault; [|intros; by case_goal].
  apply parse_imports_loop_no_fault; [lia|lia| |lia|lia].
  rewrite Nat2Z.inj_succ, Z2Nat.id by (apply Z.div_pos; lia).
  Z.to_euclidean_division_equations; lia.
Qed.
End import_proofs.

Lemma parse_imports_Ret_inv {A : Arch} file nt n p :
  parse_imports file nt = Ret (n, p) -> n <> 0 ->
  exists d sections fuel off, pe_get_import_dir nt = Ret d /\ p = Some off /\
    rva_range_to_offset nt sections (dd_VirtualAddress d) (dd_Size d) (blen file) = Ret off /\
    0 <= off /\
    parse_imports_loop file nt sections (if pe_is_pe32 nt then 4 else 8)
      (usize (off + dd_Size d)) fuel off 0 = Ret n.
Proof.
  unfold parse_imports. destruct (pe_get_import_dir nt) as [d| |] eqn:Ed; [|naive_solver..].
  intros H Hn. case_hyp H; [naive_solver|]. inv_ret. case_hyp H; [done|]. inv_ret.
  case_hyp H; [done|]. inv_ret. case_hyp H; inv_ret; [done|].
  do 4 eexists. split_and!; [done|done|done|lia|done].
Qed.

(** C9: When parse_imports finds imports, the descriptors it counts are consecutive,
    inside the import directory, each with a DLL name that is a terminated
    string of the file, and the next descriptor is the terminator. *)
Theorem parse_imports_correct {A : Arch} file nt n p :
  parse_imports file nt = Ret (n, p) -> n <> 0 ->
  wf_IMAGE_NT_HEADERS nt -> blen file < 2 ^ ptr_bits ->
  exists d off sections, pe_get_import_dir nt = Ret d /\ p = Some off /\
    0 < n /\ off + 20 * (n + 1) <= off + dd_Size d <= blen file /\
    imp_Name (desc_at file (off + 20 * n)) = 0 /\
    forall i, 0 <= i < n ->
      imp_Name (desc_at file (off + 20 * i)) <> 0 /\
      name_readable file nt sections (desc_at file (off + 20 * i)).
Proof.
  intros H Hn0 Hn Hb. apply parse_imports_Ret_inv in H
    as (d & secs & fuel & off & Hd & -> & Hr & Ho & Hl); [|done].
  assert (Hwd : wf_IMAGE_DATA_DIRECTORY d).
  { unfold pe_get_import_dir in Hd. destruct (pe_get_data_dir_cases nt IMAGE_DIRECTORY_ENTRY_IMPORT Hn)
      as [E | (d' & E & _ & ?)]; [unfold IMAGE_DIRECTORY_ENTRY_IMPORT; lia|congruence..]. }
  destruct Hwd as [_ Hs]. unfold in_u in Hs.
  apply rva_range_to_offset_in_file in Hr; [|lia..]. apply in_range_spec in Hr.
  assert (Hu : usize (off + dd_Size d) = off + dd_Size d) by (unfold usize; apply wrap_small; lia).
  rewrite Hu in Hl. apply parse_imports_loop_spec in Hl as (L1 & L2 & L3 & L4); [|lia..].
  rewrite Z.sub_0_r in *. exists d, off, secs. split_and!; try done; try lia.
Qed.

Lemma parse_imports_correct_witness :
  @parse_imports arch64 import64 import64_nt = Ret (1, Some 512) /\
  exists d off sections, @pe_get_import_dir import64_nt = Ret d /\ Some 512 = Some off /\
    imp_Name (desc_at import64 (off + 20 * 1)) = 0 /\
    @name_readable arch64 import64 import64_nt sections (desc_at import64 (off + 20 * 0)).
Proof.
  assert (H : @parse_imports arch64 import64 import64_nt = Ret (1, Some 512))
    by (vm_compute; reflexivity).
  split; [exact H|].
  destruct (@parse_imports_correct arch64 import64 import64_nt 1 (Some 512) H)
    as (d & off & secs & Hd & Hp & _ & _ & Ht & Hi).
  - discriminate.
  - apply import64_nt_wf.
  - vm_compute. reflexivity.
  - exists d, off, secs. split; [exact Hd|]. split; [exact Hp|]. split; [exact Ht|].
    apply (Hi 0). lia.
Defined.

Lemma parse_imports_no_fault_witness : no_fault (@parse_imports arch32 import64 import64_nt).
Proof.
  apply (@parse_imports_no_fault arch32).
  - apply import64_wf.
  - apply import64_nt_wf.
  - vm_compute. reflexivity.
Defined.
