(* ===== verification/Relocations.v ===== *)
(** * Base relocations (src/loader/relocations.c)

    apply_relocations walks the blocks of the BASERELOC directory and adds the
    load delta to every target.  The relocation table lies in the image that is
    being patched: entries are read from the current image, so a target that
    overlaps the table changes what is read later, as in the code. *)
From S2P Require Import Prelude Bytes PeStructs TestImages PePriv.

Definition IMAGE_REL_BASED_ABSOLUTE : Z := 0.
Definition IMAGE_REL_BASED_HIGH : Z := 1.
Definition IMAGE_REL_BASED_LOW : Z := 2.
Definition IMAGE_REL_BASED_HIGHLOW : Z := 3.
Definition IMAGE_REL_BASED_DIR32 : Z := 4.
Definition IMAGE_REL_BASED_HIGHADJ : Z := 5.
Definition IMAGE_REL_BASED_DIR64 : Z := 10.
Definition sizeof_IMAGE_BASE_RELOCATION : Z := 8.

Definition IMAGE_REL_ENTRY_OFFSET (entry : Z) : Z := Z.land entry 0x0FFF.
Definition IMAGE_REL_ENTRY_TYPE (entry : Z) : Z := Z.land (Z.shiftr entry 12) 0xF.

Section reloc.
Context {A : Arch}.
Context (base : Z) (nt : IMAGE_NT_HEADERS).

(** [*target += addend] on an n-byte target at [rva]; the return code of the
    function when the target is out of bounds, 0 otherwise. *)
Definition patch (n : nat) (rva addend : Z) (img : bytes) : outcome (Z * bytes) :=
  match pe_rva_to_ptr base nt rva (Z.of_nat n) with
  | None => Ret (-1, img)
  | Some target =>
      v ← load n target img;
      img' ← store n target (v + addend) img;
      Ret (0, img')
  end.

(** One relocation entry of a block with page RVA [va]. *)
Definition apply_entry (delta va entry : Z) (img : bytes) : outcome (Z * bytes) :=
  let type := IMAGE_REL_ENTRY_TYPE entry in
  let offset := IMAGE_REL_ENTRY_OFFSET entry in
  if type =? IMAGE_REL_BASED_ABSOLUTE then Ret (0, img)
  else if pe_is_pe32 nt then
    if UINT32_MAX - offset <? va then Ret (-1, img)
    else if (type =? IMAGE_REL_BASED_DIR32) || (type =? IMAGE_REL_BASED_HIGHLOW) then
      patch 4 (u32 (va + offset)) (u32 delta) img
    else if type =? IMAGE_REL_BASED_HIGH then
      patch 2 (u32 (va + offset)) (u16 (Z.shiftr delta 16)) img
    else if type =? IMAGE_REL_BASED_LOW then
      patch 2 (u32 (va + offset)) (u16 (Z.land delta 0xFFFF)) img
    else if type =? IMAGE_REL_BASED_HIGHADJ then
      patch 2 (u32 (va + offset)) (u16 (Z.shiftr delta 16)) img
    else Ret (0, img)
  else if type =? IMAGE_REL_BASED_DIR64 then
    if UINT32_MAX - offset <? va then Ret (-1, img)
    else patch 8 (u32 (va + offset)) delta img
  else Ret (0, img).

(** The inner loop: [todo] entries from the one at offset [p]. *)
Fixpoint apply_entries (delta va : Z) (todo : nat) (p : Z) (img : bytes) : outcome (Z * bytes) :=
  match todo with
  | O => Ret (0, img)
  | S todo =>
      entry ← load 2 p img;
      '(c, img) ← apply_entry delta va entry img;
      if c =? 0 then apply_entries delta va todo (p + 2) img else Ret (c, img)
  end.

(** The outer loop; a block has at least 8 bytes, which bounds the fuel. *)
Fixpoint apply_blocks (delta block_end : Z) (fuel : nat) (block_ptr : Z) (img : bytes)
  : outcome (Z * bytes) :=
  if block_ptr <? block_end then
    match fuel with
    | O => Fault
    | S fuel =>
        size ← load 4 (block_ptr + 4) img;
        if (size =? 0) || (size <? sizeof_IMAGE_BASE_RELOCATION) then Ret (0, img)
        else
          va ← load 4 block_ptr img;
          if block_end - block_ptr <? size then Ret (-1, img)
          else
            let num_entries := (size - sizeof_IMAGE_BASE_RELOCATION) / 2 in
            '(c, img) ← apply_entries delta va (Z.to_nat num_entries)
                          (block_ptr + sizeof_IMAGE_BASE_RELOCATION) img;
            if c =? 0 then apply_blocks delta block_end fuel (block_ptr + size) img
            else Ret (c, img)
    end
  else Ret (0, img).

(** The return value and the image afterwards. *)
Definition apply_relocations (img : bytes) : outcome (Z * bytes) :=
  let delta := usize (base - pe_image_base nt) in
  if delta =? 0 then Ret (0, img)
  else if negb (Z.land (pe_characteristics nt) IMAGE_FILE_RELOCS_STRIPPED =? 0) then Ret (-1, img)
  else
    match pe_get_basereloc_dir nt with
    | Fail => Ret (0, img)
    | Fault => Fault
    | Ret dir =>
        if (dd_VirtualAddress dir =? 0) || (dd_Size dir =? 0) then Ret (0, img)
        else
          match pe_rva_to_const_ptr base nt (dd_VirtualAddress dir) (dd_Size dir) with
          | None => Ret (-1, img)
          | Some block_ptr =>
              apply_blocks delta (block_ptr + dd_Size dir)
                (S (Z.to_nat (dd_Size dir / 8))) block_ptr img
          end
    end.

(** ** Memory safety and termination *)

Context (Hnt : wf_IMAGE_NT_HEADERS nt).

(** A step that stays inside the image: it returns 0 or -1 and an image of the
    same length, of bytes. *)
Definition stays_inside (img : bytes) (r : outcome (Z * bytes)) : Prop :=
  exists c img', r = Ret (c, img') /\ length img' = length img /\ wf_bytes img' /\
    (c = 0 \/ c = -1).

Lemma stays_inside_0 img : wf_bytes img -> stays_inside img (Ret (0, img)).
Proof. intros. exists 0, img. auto. Qed.
Lemma stays_inside_err img : wf_bytes img -> stays_inside img (Ret (-1, img)).
Proof. intros. exists (-1), img. auto. Qed.

(** Sequencing: the rest runs on the new image when the code is 0. *)
Lemma stays_inside_seq img r (k : bytes -> outcome (Z * bytes)) :
  stays_inside img r ->
  (forall img', length img' = length img -> wf_bytes img' -> stays_inside img' (k img')) ->
  stays_inside img ('(c, img') ← r; if c =? 0 then k img' else Ret (c, img')).
Proof.
  intros (c & img1 & -> & L & W & C) Hk. cbn [mbind outcome_bind].
  destruct C as [-> | ->]; simpl.
  - destruct (Hk img1 L W) as (c & img2 & -> & L2 & R). exists c, img2.
    split; [done|]. split; [congruence|done].
  - exists (-1), img1. auto.
Qed.

Lemma patch_inside n rva addend img :
  0 <= rva -> pe_size_of_image nt <= blen img -> wf_bytes img ->
  stays_inside img (patch n rva addend img).
Proof.
  intros Hr Hs Hw. unfold patch. destruct (pe_rva_to_ptr _ _ _ _) as [t|] eqn:E.
  - apply pe_rva_to_ptr_Some in E as (_ & -> & E); [|lia..].
    assert (in_range rva (Z.of_nat n) (blen img) = true) as R by (apply in_range_spec; lia).
    rewrite load_ok by done. cbn [mbind outcome_bind].
    destruct (store n rva _ img) as [img'| |] eqn:Es; [|by rewrite store_ok in Es..].
    exists 0, img'. split; [done|]. split; [by eapply store_length|].
    split; [by eapply wf_store|]. by left.
  - by apply stays_inside_err.
Qed.

Lemma apply_entry_inside delta va entry img :
  pe_size_of_image nt <= blen img -> wf_bytes img ->
  stays_inside img (apply_entry delta va entry img).
Proof.
  intros Hs Hw. pose proof (wrap_range 32 (va + IMAGE_REL_ENTRY_OFFSET entry)).
  unfold apply_entry. repeat case_goal;
    (apply stays_inside_0; done) || (apply stays_inside_err; done) ||
    (apply patch_inside; [lia|done|done]).
Qed.

Lemma apply_entries_inside delta va todo p img :
  pe_size_of_image nt <= blen img -> wf_bytes img ->
  in_range p (2 * Z.of_nat todo) (blen img) = true ->
  stays_inside img (apply_entries delta va todo p img).
Proof.
  revert p img. induction todo as [|todo IH]; intros p img Hs Hw Hr.
  { by apply stays_inside_0. }
  apply in_range_spec in Hr. cbn [apply_entries].
  rewrite load_ok by (apply in_range_spec; lia). cbn [mbind outcome_bind].
  apply stays_inside_seq; [by apply apply_entry_inside|].
  intros img' L W. unfold blen in *. apply IH; [unfold blen; lia|done|].
  apply in_range_spec. unfold blen. lia.
Qed.

(** Seven bytes of slack after the directory are enough for the last block
    header read; the fuel is enough for the number of blocks. *)
Lemma apply_blocks_inside delta block_end fuel block_ptr img :
  wf_bytes img -> 0 <= block_ptr ->
  block_end + 7 <= blen img -> pe_size_of_image nt <= blen img ->
  block_end - block_ptr <= 8 * Z.of_nat fuel ->
  stays_inside img (apply_blocks delta block_end fuel block_ptr img).
Proof.
  revert block_ptr img. induction fuel as [|fuel IH]; intros block_ptr img Hw H0 He Hs Hf;
    simpl; destruct (Z.ltb_spec block_ptr block_end); try (by apply stays_inside_0).
  { lia. }
  destruct (load 4 (block_ptr + 4) img) as [size| |] eqn:Es;
    try (rewrite load_ok in Es by (apply in_range_spec; lia); done).
  cbn [mbind outcome_bind]. apply load_range in Es; [|done].
  change sizeof_IMAGE_BASE_RELOCATION with 8.
  destruct (_ || _) eqn:Ez; [by apply stays_inside_0|].
  rewrite load_ok by (apply in_range_spec; lia). cbn [mbind outcome_bind].
  destruct (Z.ltb_spec (block_end - block_ptr) size); [by apply stays_inside_err|].
  apply stays_inside_seq.
  - apply apply_entries_inside; [done|done|]. apply in_range_spec.
    rewrite Z2Nat.id by (apply Z.div_pos; lia). Z.to_euclidean_division_equations; lia.
  - intros img' L W. unfold blen in *. apply IH; unfold blen; done || lia.
Qed.

Lemma basereloc_dir_wf dir :
  pe_get_basereloc_dir nt = Ret dir -> wf_IMAGE_DATA_DIRECTORY dir.
Proof.
  unfold pe_get_basereloc_dir. intros H.
  destruct (pe_get_data_dir_cases nt IMAGE_DIRECTORY_ENTRY_BASERELOC Hnt)
    as [E | (d' & E & _ & ?)]; [unfold IMAGE_DIRECTORY_ENTRY_BASERELOC; lia|congruence..].
Qed.

Lemma apply_relocations_inside img :
  wf_bytes img -> pe_size_of_image nt + 7 <= blen img ->
  stays_inside img (apply_relocations img).
Proof.
  intros Hw Hs. unfold apply_relocations. cbv zeta.
  case_goal; [by apply stays_inside_0|]. case_goal; [by apply stays_inside_err|].
  destruct (pe_get_basereloc_dir nt) as [dir| |] eqn:Ed.
  - apply basereloc_dir_wf in Ed as [Hv Hz]. unfold in_u in *.
    case_goal; [by apply stays_inside_0|].
    destruct (pe_rva_to_const_ptr _ _ _ _) as [p|] eqn:Ep; [|by apply stays_inside_err].
    apply pe_rva_to_ptr_Some in Ep as (_ & -> & Ep); [|lia..].
    apply apply_blocks_inside; try lia; [done|].
    rewrite Nat2Z.inj_succ, Z2Nat.id by (apply Z.div_pos; lia).
    Z.to_euclidean_division_equations; lia.
  - by apply stays_inside_0.
  - exfalso. eapply (pe_get_data_dir_no_fault nt IMAGE_DIRECTORY_ENTRY_BASERELOC Hnt); [|done].
    unfold IMAGE_DIRECTORY_ENTRY_BASERELOC. lia.
Qed.

(** ** What the relocations do to the image *)

(** The entries of the table that starts at [block_ptr], in order, as (page RVA,
    entry) pairs read from [img], and the code the walk ends with. *)
Fixpoint block_entries (va : Z) (todo : nat) (p : Z) (img : bytes) : list (Z * Z) :=
  match todo with
  | O => []
  | S todo => (va, fld p 2 img) :: block_entries va todo (p + 2) img
  end.
Fixpoint reloc_table (fuel : nat) (block_end block_ptr : Z) (img : bytes) : list (Z * Z) * Z :=
  match fuel with
  | O => ([], 0)
  | S fuel =>
      if block_ptr <? block_end then
        let size := fld (block_ptr + 4) 4 img in
        if size <? 8 then ([], 0)
        else if block_end - block_ptr <? size then ([], -1)
        else
          let es := block_entries (fld block_ptr 4 img) (Z.to_nat ((size - 8) / 2))
                      (block_ptr + 8) img in
          let '(rest, c) := reloc_table fuel block_end (block_ptr + size) img in
          (es ++ rest, c)
      else ([], 0)
  end.

(** The effect of an entry: width and RVA of the target, and what is added. *)
Definition reloc_action (delta : Z) (e : Z * Z) : option (nat * Z * Z) :=
  let '(va, entry) := e in
  let rva := va + IMAGE_REL_ENTRY_OFFSET entry in
  let type := IMAGE_REL_ENTRY_TYPE entry in
  if type =? IMAGE_REL_BASED_ABSOLUTE then None
  else if pe_is_pe32 nt then
    if (type =? IMAGE_REL_BASED_DIR32) || (type =? IMAGE_REL_BASED_HIGHLOW)
    then Some (4%nat, rva, u32 delta)
    else if type =? IMAGE_REL_BASED_HIGH then Some (2%nat, rva, u16 (Z.shiftr delta 16))
    else if type =? IMAGE_REL_BASED_LOW then Some (2%nat, rva, u16 (Z.land delta 0xFFFF))
    else if type =? IMAGE_REL_BASED_HIGHADJ then Some (2%nat, rva, u16 (Z.shiftr delta 16))
    else None
  else if type =? IMAGE_REL_BASED_DIR64 then Some (8%nat, rva, delta)
  else None.

(** The entry names a target inside the image. *)
Definition entry_in_image (delta : Z) (e : Z * Z) : Prop :=
  0 <= e.1 /\ e.1 + IMAGE_REL_ENTRY_OFFSET e.2 <= UINT32_MAX /\
  match reloc_action delta e with
  | Some (n, rva, _) => rva + Z.of_nat n <= pe_size_of_image nt
  | None => True
  end.

(** Image after the effect of an entry, as a pure function. *)
Definition reloc_act (delta : Z) (img : bytes) (e : Z * Z) : bytes :=
  match reloc_action delta e with
  | Some (n, rva, add) => splice rva (le_split n (fld rva (Z.of_nat n) img + add)) img
  | None => img
  end.

Lemma entry_offset_nonneg e : 0 <= IMAGE_REL_ENTRY_OFFSET e.
Proof.
  unfold IMAGE_REL_ENTRY_OFFSET. change 0x0FFF with (Z.ones 12). rewrite Z.land_ones by lia.
  apply Z.mod_pos_bound. lia.
Qed.

Lemma patch_ok n rva addend img :
  base <> 0 -> 0 <= rva -> rva + Z.of_nat n <= pe_size_of_image nt ->
  pe_size_of_image nt <= blen img ->
  patch n rva addend img =
  Ret (0, splice rva (le_split n (fld rva (Z.of_nat n) img + addend)) img).
Proof.
  intros Hb H0 Hi Hs. unfold patch.
  rewrite (proj2 (pe_rva_to_ptr_Some base nt rva (Z.of_nat n) rva ltac:(lia) ltac:(lia))) by done.
  rewrite load_ok by (apply in_range_spec; lia). cbn [mbind outcome_bind].
  rewrite store_ok by (apply in_range_spec; lia). done.
Qed.

Lemma apply_entry_act delta e img :
  base <> 0 -> entry_in_image delta e -> pe_size_of_image nt <= blen img ->
  apply_entry delta e.1 e.2 img = Ret (0, reloc_act delta img e).
Proof.
  destruct e as [va en]. unfold entry_in_image. simpl. intros Hb (H0 & Hm & Hr) Hs.
  pose proof (entry_offset_nonneg en). unfold UINT32_MAX in Hm.
  unfold apply_entry, reloc_act, reloc_action, UINT32_MAX in *.
  rewrite (wrap_small 32 (va + _)) by lia.
  replace (4294967295 - IMAGE_REL_ENTRY_OFFSET en <? va) with false by lia.
  repeat case_goal; try done; apply patch_ok; done || lia.
Qed.

Lemma length_act delta img e :
  entry_in_image delta e -> pe_size_of_image nt <= blen img ->
  length (reloc_act delta img e) = length img.
Proof.
  intros (H0 & Hm & Hr) Hs. unfold reloc_act.
  destruct (reloc_action delta e) as [[[n rva] add]|] eqn:E; [|done].
  apply length_splice. rewrite blen_le_split. apply in_range_spec.
  assert (0 <= rva); [|lia]. destruct e as [va en]. simpl in *.
  pose proof (entry_offset_nonneg en). unfold reloc_action in E. repeat case_hyp E; inversion E; lia.
Qed.
End reloc.

(** ** Frame and values of a sequence of relocations *)

Section effects.
Context {A : Arch}.
Context (base : Z) (nt : IMAGE_NT_HEADERS) (delta : Z).
Local Abbreviation act := (reloc_act nt delta).
Local Abbreviation in_image := (entry_in_image nt delta).

(** The bytes an entry changes: start and length. *)
Definition target (e : Z * Z) : option (Z * Z) :=
  match reloc_action nt delta e with
  | Some (n, rva, _) => Some (rva, Z.of_nat n)
  | None => None
  end.

Definition apart (t u : Z * Z) : Prop := t.1 + t.2 <= u.1 \/ u.1 + u.2 <= t.1.

(** No two entries share a byte of their targets. *)
Fixpoint separate (l : list (Z * Z)) : Prop :=
  match l with
  | [] => True
  | e :: l => (forall t e' u, target e = Some t -> e' ∈ l -> target e' = Some u -> apart t u) /\
              separate l
  end.

(** Every target avoids the bytes [lo, hi). *)
Definition avoids (lo hi : Z) (l : list (Z * Z)) : Prop :=
  forall e t, e ∈ l -> target e = Some t -> apart t (lo, hi - lo).

Definition agree_on (lo hi : Z) (b1 b2 : bytes) : Prop :=
  length b1 = length b2 /\ forall i : nat, lo <= Z.of_nat i < hi -> b1 !! i = b2 !! i.

Lemma slice_agree lo hi off n b1 b2 :
  agree_on lo hi b1 b2 -> 0 <= off -> lo <= off -> off + n <= hi ->
  slice off n b1 = slice off n b2.
Proof.
  intros [_ H] H0 Hl Hh. apply list_eq. intros i. unfold slice.
  destruct (decide (i < Z.to_nat n)%nat).
  - rewrite !lookup_take_lt, !lookup_drop by lia. apply H. lia.
  - by rewrite !lookup_take_ge by lia.
Qed.

Lemma fld_agree lo hi off n b1 b2 :
  agree_on lo hi b1 b2 -> 0 <= off -> lo <= off -> off + n <= hi ->
  fld off n b1 = fld off n b2.
Proof. intros. unfold fld. by erewrite slice_agree. Qed.

Lemma target_nonneg e t : in_image e -> target e = Some t -> 0 <= t.1 /\ t.1 + t.2 <= pe_size_of_image nt.
Proof.
  destruct e as [va en]. intros (H0 & _ & Hr) Ht. simpl in H0.
  pose proof (entry_offset_nonneg en). unfold target in Ht.
  destruct (reloc_action _ _ _) as [[[n rva] add]|] eqn:E; [|done]. injection Ht as <-. simpl.
  split; [|done]. unfold reloc_action in E. repeat case_hyp E; inversion E; lia.
Qed.

(** One entry changes only its target. *)
Lemma act_frame e img (i : nat) :
  in_image e -> pe_size_of_image nt <= blen img ->
  (forall t, target e = Some t -> ~ (t.1 <= Z.of_nat i < t.1 + t.2)) ->
  act img e !! i = img !! i.
Proof.
  intros Hi Hs Ho. pose proof (target_nonneg e) as Hn. unfold target in *. unfold reloc_act.
  destruct (reloc_action _ _ _) as [[[n rva] add]|]; [|done].
  specialize (Hn _ Hi eq_refl). specialize (Ho _ eq_refl). simpl in *.
  apply lookup_splice_out; [rewrite blen_le_split; apply in_range_spec; lia|].
  rewrite length_le_split. lia.
Qed.

Lemma act_value e img n rva add :
  in_image e -> pe_size_of_image nt <= blen img ->
  reloc_action nt delta e = Some (n, rva, add) ->
  fld rva (Z.of_nat n) (act img e) = wrap (8 * Z.of_nat n) (fld rva (Z.of_nat n) img + add).
Proof.
  intros Hi Hs He. pose proof (target_nonneg e (rva, Z.of_nat n) Hi) as Hn.
  unfold target in Hn. rewrite He in Hn. specialize (Hn eq_refl). simpl in Hn.
  unfold reloc_act. rewrite He. unfold fld at 1.
  rewrite <- (blen_le_split n (fld rva (Z.of_nat n) img + add)) at 1.
  rewrite slice_splice_same by (rewrite blen_le_split; apply in_range_spec; lia).
  apply le_combine_split.
Qed.

Lemma acts_length l img :
  Forall in_image l -> pe_size_of_image nt <= blen img ->
  length (fold_left act l img) = length img.
Proof.
  intros Hl. revert img. induction Hl as [|e l He Hl IH]; intros img Hs; [done|].
  simpl. rewrite IH; [|unfold blen; rewrite length_act by done; done]. by apply length_act.
Qed.

Lemma acts_frame l img (i : nat) :
  Forall in_image l -> pe_size_of_image nt <= blen img ->
  (forall e t, e ∈ l -> target e = Some t -> ~ (t.1 <= Z.of_nat i < t.1 + t.2)) ->
  fold_left act l img !! i = img !! i.
Proof.
  intros Hl. revert img. induction Hl as [|e l He Hl IH]; intros img Hs Ho; [done|].
  simpl. rewrite IH.
  - apply act_frame; [done|done|]. intros t Ht. eapply Ho; [|done]. by left.
  - unfold blen. by rewrite length_act.
  - intros e' t He'. apply Ho. by right.
Qed.

Lemma acts_agree lo hi l img :
  Forall in_image l -> pe_size_of_image nt <= blen img -> avoids lo hi l ->
  agree_on lo hi (fold_left act l img) img.
Proof.
  intros Hl Hs Ha. split; [by apply acts_length|]. intros i Hi. apply acts_frame; [done..|].
  intros e t He Ht. destruct (Ha e t He Ht) as [H | H]; simpl in H; lia.
Qed.

(** With separate targets, every target ends up with its addend added once,
    modulo its width. *)
Lemma acts_value l img e n rva add :
  Forall in_image l -> pe_size_of_image nt <= blen img -> separate l -> e ∈ l ->
  reloc_action nt delta e = Some (n, rva, add) ->
  fld rva (Z.of_nat n) (fold_left act l img)
  = wrap (8 * Z.of_nat n) (fld rva (Z.of_nat n) img + add).
Proof.
  intros Hl. revert img. induction Hl as [|e0 l He0 Hl IH]; intros img Hs HS Hin Ha.
  { by apply not_elem_of_nil in Hin. }
  destruct HS as [Hsep Hsl].
  assert (Ht : target e = Some (rva, Z.of_nat n)) by (unfold target; by rewrite Ha).
  assert (Hs1 : pe_size_of_image nt <= blen (act img e0)) by (unfold blen; by rewrite length_act).
  simpl. apply elem_of_cons in Hin as [<- | Hin].
  - pose proof (target_nonneg _ _ He0 Ht) as [T0 _]. simpl in T0.
    rewrite <- (act_value e img n rva add) by done.
    eapply (fld_agree rva (rva + Z.of_nat n)); [|lia..].
    apply acts_agree; [done|done|]. intros e' t He' Ht'.
    replace (rva + Z.of_nat n - rva) with (Z.of_nat n) by lia.
    destruct (Hsep _ e' t Ht He' Ht') as [H | H]; simpl in H; [by right|by left].
  - rewrite (IH (act img e0)) by done. f_equal. f_equal.
    assert (He : in_image e) by (rewrite Forall_forall in Hl; by apply Hl).
    pose proof (target_nonneg _ _ He Ht) as [T0 _]. simpl in T0.
    eapply (fld_agree rva (rva + Z.of_nat n)); [|lia..].
    change (act img e0) with (fold_left act [e0] img).
    apply acts_agree; [by apply Forall_singleton|done|].
    intros e' t He' Ht'. apply list_elem_of_singleton in He' as ->.
    replace (rva + Z.of_nat n - rva) with (Z.of_nat n) by lia.
    by apply (Hsep t e).
Qed.

(** ** The walk over the table performs these effects *)

Context (Hb : base <> 0).
Context (img0 : bytes) (lo hi : Z) (H0 : 0 <= lo).
Context (Hsz : pe_size_of_image nt <= blen img0) (Hhi : hi <= blen img0).

Lemma agree_trans (b1 b2 b3 : bytes) : agree_on lo hi b1 b2 -> agree_on lo hi b2 b3 -> agree_on lo hi b1 b3.
Proof. intros [L1 H1] [L2 H2]. split; [congruence|]. intros i Hi. by rewrite H1, H2. Qed.

Lemma load_agree n p img :
  agree_on lo hi img img0 -> lo <= p -> p + Z.of_nat n <= hi ->
  load n p img = Ret (fld p (Z.of_nat n) img0).
Proof.
  intros Ha Hl Hh. rewrite load_ok; [by erewrite slice_agree by (done || lia)|].
  destruct Ha as [L _]. apply in_range_spec. unfold blen in *. lia.
Qed.

Lemma apply_entries_eq va todo p img :
  agree_on lo hi img img0 -> lo <= p -> p + 2 * Z.of_nat todo <= hi ->
  Forall in_image (block_entries va todo p img0) ->
  avoids lo hi (block_entries va todo p img0) ->
  apply_entries base nt delta va todo p img
  = Ret (0, fold_left act (block_entries va todo p img0) img).
Proof.
  revert p img. induction todo as [|todo IH]; intros p img Ha Hl Hh Hi Hav; [done|].
  cbn [block_entries] in *. apply Forall_cons in Hi as [Hi1 Hi2].
  cbn [apply_entries]. rewrite load_agree by (done || lia). cbn [mbind outcome_bind].
  assert (Hs : pe_size_of_image nt <= blen img)
    by (destruct Ha as [L _]; unfold blen in *; lia).
  change (fld p (Z.of_nat 2) img0) with (fld p 2 img0).
  pose proof (apply_entry_act base nt delta (va, fld p 2 img0) img Hb Hi1 Hs) as Hae.
  simpl in Hae. rewrite Hae. clear Hae.
  cbn [mbind outcome_bind Z.eqb fold_left]. apply IH; [|lia|lia|done|].
  - eapply agree_trans; [|done].
    change (act img ?e) with (fold_left act [e] img). apply acts_agree; [by apply Forall_singleton|done|].
    intros e t He. apply Hav. apply list_elem_of_singleton in He as ->. by left.
  - intros e t He. apply Hav. by right.
Qed.

Lemma apply_blocks_eq fuel block_end block_ptr img l c :
  reloc_table fuel block_end block_ptr img0 = (l, c) -> wf_bytes img0 ->
  agree_on lo hi img img0 -> lo <= block_ptr -> block_end + 7 <= hi ->
  block_end - block_ptr <= 8 * Z.of_nat fuel ->
  Forall in_image l -> avoids lo hi l ->
  apply_blocks base nt delta block_end fuel block_ptr img = Ret (c, fold_left act l img).
Proof.
  intros HT Hw. revert block_ptr img l HT. induction fuel as [|fuel IH];
    intros block_ptr img l HT Ha Hl Hh Hf Hi Hav; simpl in HT.
  { injection HT as <- <-. simpl. by replace (_ <? _) with false by lia. }
  cbn [apply_blocks]. destruct (Z.ltb_spec block_ptr block_end); [|by injection HT as <- <-].
  rewrite (load_agree 4 (block_ptr + 4)) by (done || lia). cbn [mbind outcome_bind].
  change (Z.of_nat 4) with 4. pose proof (fld4 (block_ptr + 4) img0 Hw) as Hz. unfold in_u in Hz.
  set (size := fld (block_ptr + 4) 4 img0) in *. change sizeof_IMAGE_BASE_RELOCATION with 8.
  destruct (Z.ltb_spec size 8).
  { rewrite orb_true_r. by injection HT as <- <-. }
  rewrite orb_false_r. replace (size =? 0) with false by lia.
  rewrite (load_agree 4 block_ptr) by (done || lia). cbn [mbind outcome_bind]. change (Z.of_nat 4) with 4.
  destruct (Z.ltb_spec (block_end - block_ptr) size); [by injection HT as <- <-|].
  destruct (reloc_table fuel block_end (block_ptr + size) img0) as [rest c'] eqn:ET.
  injection HT as <- <-. apply Forall_app in Hi as [Hi1 Hi2].
  assert (Hav1 : avoids lo hi (block_entries (fld block_ptr 4 img0) (Z.to_nat ((size - 8) / 2)) (block_ptr + 8) img0))
    by (intros e t He; apply Hav; apply elem_of_app; by left).
  assert (Hs : pe_size_of_image nt <= blen img)
    by (destruct Ha as [L _]; unfold blen in *; lia).
  rewrite apply_entries_eq; [|done|lia| |done|done].
  2:{ rewrite Z2Nat.id by (apply Z.div_pos; lia). Z.to_euclidean_division_equations; lia. }
  cbn [mbind outcome_bind Z.eqb]. rewrite fold_left_app. apply IH; [done| |lia|done|lia|done|].
  - eapply agree_trans; [|done]. by apply acts_agree.
  - intros e t He. apply Hav. apply elem_of_app. by right.
Qed.
End effects.

(** ** Theorems *)

(** An image with a relocation table [l] that the loader can process: the
    directory lies in the image and seven bytes follow it, the table ends properly, and its targets are in
    the image, apart from each other and from the table. *)
Record relocatable {A : Arch} (base : Z) (nt : IMAGE_NT_HEADERS) (img : bytes)
    (l : list (Z * Z)) : Prop := {
  rl_base : base <> 0;
  rl_nt : wf_IMAGE_NT_HEADERS nt;
  rl_img : wf_bytes img;
  rl_size : pe_size_of_image nt <= blen img;
  rl_moved : usize (base - pe_image_base nt) <> 0;
  rl_kept : Z.land (pe_characteristics nt) IMAGE_FILE_RELOCS_STRIPPED = 0;
  rl_dir : exists dir, pe_get_basereloc_dir nt = Ret dir /\
    dd_VirtualAddress dir <> 0 /\ dd_Size dir <> 0 /\
    dd_VirtualAddress dir + dd_Size dir <= pe_size_of_image nt /\
    dd_VirtualAddress dir + dd_Size dir + 7 <= blen img /\
    reloc_table (S (Z.to_nat (dd_Size dir / 8))) (dd_VirtualAddress dir + dd_Size dir)
      (dd_VirtualAddress dir) img = (l, 0) /\
    avoids nt (usize (base - pe_image_base nt)) (dd_VirtualAddress dir)
      (dd_VirtualAddress dir + dd_Size dir + 7) l;
  rl_in : Forall (entry_in_image nt (usize (base - pe_image_base nt))) l;
  rl_separate : separate nt (usize (base - pe_image_base nt)) l
}.

(** [img'] is [img] with the load delta added once to every target of [l], modulo
    the width of the relocation type, and no other byte changed. *)
Definition relocated {A : Arch} (base : Z) (nt : IMAGE_NT_HEADERS) (l : list (Z * Z)) (img img' : bytes) : Prop :=
  let delta := usize (base - pe_image_base nt) in
  length img' = length img /\
  (forall e n rva add, e ∈ l -> reloc_action nt delta e = Some (n, rva, add) ->
     fld rva (Z.of_nat n) img' = wrap (8 * Z.of_nat n) (fld rva (Z.of_nat n) img + add)) /\
  (forall i : nat, (forall e t, e ∈ l -> target nt delta e = Some t ->
     ~ (t.1 <= Z.of_nat i < t.1 + t.2)) -> img' !! i = img !! i).

Lemma apply_relocations_effect {A : Arch} base nt img l :
  relocatable base nt img l ->
  exists img', apply_relocations base nt img = Ret (0, img') /\ relocated base nt l img img'.
Proof.
  intros [Hb Hn Hw Hs Hm Hk (dir & Hd & Hv & Hz & Hi & H7 & Ht & Ha) Hin Hsep].
  set (delta := usize (base - pe_image_base nt)) in *.
  pose proof (basereloc_dir_wf nt Hn dir Hd) as [Wv Wz]. unfold in_u in *.
  exists (fold_left (reloc_act nt delta) l img). split.
  - unfold apply_relocations. fold delta. replace (delta =? 0) with false by lia.
    rewrite Hk, Hd. cbn [Z.eqb negb]. replace (_ || _) with false by lia.
    change (pe_rva_to_const_ptr base nt) with (pe_rva_to_ptr base nt).
    rewrite (proj2 (pe_rva_to_ptr_Some base nt (dd_VirtualAddress dir) (dd_Size dir)
                      (dd_VirtualAddress dir) ltac:(lia) ltac:(lia))) by done.
    eapply (apply_blocks_eq base nt delta Hb img (dd_VirtualAddress dir)
              (dd_VirtualAddress dir + dd_Size dir + 7)); eauto; try lia.
    + done.
    + rewrite Nat2Z.inj_succ, Z2Nat.id by (apply Z.div_pos; lia).
      Z.to_euclidean_division_equations; lia.
  - unfold relocated. fold delta. cbv zeta. split; [apply acts_length; [done|lia]|]. split.
    + intros e n rva add He Hact. by apply (acts_value nt delta l img e n rva add); [|lia|..].
    + intros i Ho. apply acts_frame; [done|lia|done].
Qed.

(** C2: apply_relocations adds the load delta exactly once to every target of the
    table (modulo the width of the relocation type) and changes no other byte. *)
Theorem apply_relocations_correct {A : Arch} base nt img l :
  relocatable base nt img l ->
  exists img', apply_relocations base nt img = Ret (0, img') /\ relocated base nt l img img'.
Proof. apply apply_relocations_effect. Qed.

(** Whatever the bytes of the image and of its headers, relocation returns 0 or
    -1, touches only the mapped image and keeps its length, provided seven
    mapped bytes follow SizeOfImage. *)
Theorem apply_relocations_safe {A : Arch} base nt img :
  wf_IMAGE_NT_HEADERS nt -> wf_bytes img -> pe_size_of_image nt + 7 <= blen img ->
  exists c img', apply_relocations base nt img = Ret (c, img') /\ length img' = length img /\
    (c = 0 \/ c = -1).
Proof.
  intros Hn Hw Hs. destruct (apply_relocations_inside base nt Hn img Hw Hs)
    as (c & img' & E & L & _ & C). eauto.
Qed.

(** A PE32+ image of 512 bytes with one relocation block at 0x100: a DIR64 entry
    for RVA 0x40 and a padding entry. *)
Definition reloc64_nt : IMAGE_NT_HEADERS :=
  sample_nt64 0x140000000 0x200 0x100 0 0x22 (set_dir 5 0x100 12 no_dirs).
Definition reloc64_img : bytes :=
  replicate 0x40 0 ++ le_split 8 0x140001234 ++ replicate 0xB8 0 ++
  le_split 4 0 ++ le_split 4 12 ++ le_split 2 0xA040 ++ le_split 2 0 ++ replicate 0x100 0.

Lemma reloc64_nt_wf : wf_IMAGE_NT_HEADERS reloc64_nt.
Proof.
  unfold reloc64_nt, sample_nt64, wf_IMAGE_NT_HEADERS, wf_IMAGE_FILE_HEADER,
    wf_IMAGE_OPTIONAL_HEADER64. solve_nt_wf.
Qed.
Lemma reloc64_img_wf : wf_bytes reloc64_img.
Proof. apply wf_bytesb_spec. vm_compute. reflexivity. Qed.

Lemma reloc64_relocatable :
  @relocatable arch64 0x150000000 reloc64_nt reloc64_img [(0, 0xA040); (0, 0)].
Proof.
  split.
  - discriminate.
  - apply reloc64_nt_wf.
  - apply reloc64_img_wf.
  - vm_compute. discriminate.
  - vm_compute. discriminate.
  - vm_compute. reflexivity.
  - eexists. split; [vm_compute; reflexivity|]. split; [vm_compute; discriminate|].
    split; [vm_compute; discriminate|]. split; [vm_compute; discriminate|].
    split; [vm_compute; discriminate|]. split; [vm_compute; reflexivity|]. intros e t He Ht.
    apply elem_of_cons in He as [-> | He%list_elem_of_singleton]; [|subst e; vm_compute in Ht; done].
    vm_compute in Ht. injection Ht as <-. left. vm_compute. discriminate.
  - apply Forall_cons. split; [|apply Forall_singleton];
      (split; [simpl; lia|]; split; [vm_compute; discriminate|]; vm_compute; done).
  - split; [|split; [|exact I]].
    + intros t e' u _ He%list_elem_of_singleton Hu. subst e'. vm_compute in Hu. discriminate Hu.
    + intros t e' u _ He. by apply not_elem_of_nil in He.
Qed.

Lemma apply_relocations_correct_witness :
  exists img', @apply_relocations arch64 0x150000000 reloc64_nt reloc64_img = Ret (0, img') /\
    fld 0x40 8 img' = 0x150001234.
Proof.
  destruct (@apply_relocations_correct arch64 _ _ _ _ reloc64_relocatable)
    as (img' & H & _ & Hv & _).
  exists img'. split; [exact H|].
  transitivity (wrap 64 (fld 0x40 8 reloc64_img + 0x10000000)).
  - apply (Hv (0, 0xA040) 8%nat 0x40 0x10000000); [by left|vm_compute; reflexivity].
  - vm_compute. reflexivity.
Defined.

Lemma apply_relocations_safe_witness :
  exists c img', @apply_relocations arch32 0x10000 reloc64_nt reloc64_img = Ret (c, img') /\
    length img' = length reloc64_img.
Proof.
  destruct (@apply_relocations_safe arch32 0x10000 reloc64_nt reloc64_img) as (c & img' & H & L & _).
  - apply reloc64_nt_wf.
  - apply reloc64_img_wf.
  - vm_compute. discriminate.
  - eauto.
Defined.

(** A relocation directory that ends with the image and is shorter than a block
    header makes the loop read past the end of the image: the header of a block
    is read as soon as one byte of the directory is left. *)
Theorem relocation_header_read_past_directory :
  let nt := sample_nt64 0x140000000 0x200 0x100 0 0x22 (set_dir 5 0x1FC 4 no_dirs) in
  @apply_relocations arch64 0x150000000 nt (replicate 0x200 0) = Fault.
Proof. vm_compute. reflexivity. Qed.
