(* ===== verification/ModuleList.v ===== *)
(** * Module registry (src/loader/module_list.c, loader_state.h)

    The array g_loader.modules with its count.  A [loaded_module_t *] is the
    index of its slot.  The intrusive LIST_ENTRY links of the embedded LDR
    entries live in a separate map from link nodes to (Flink, Blink), since
    peb_ldr.c links the nodes of different modules together. *)
From S2P Require Import Prelude Bytes CStr PeStructs TestImages PePriv.

Definition MAX_MODULES : nat := 16.
Definition MAX_EXPORT_NAMES : Z := 2048.
Definition MAX_EXPORT_FUNCTIONS : Z := 8192.
Definition MAX_LDR_NAME_WCHAR : nat := 260.

(** Link nodes: the three list heads of PEB_LDR_DATA, the three DoubleList
    entries of the LDR entry of a module slot and its HashTableEntry. *)
Inductive lnode :=
| LHead (k : nat)
| LEntry (slot k : nat)
| LHash (slot : nat).
#[export] Instance lnode_eq_dec : EqDecision lnode.
Proof. solve_decision. Defined.
#[export] Instance lnode_countable : Countable lnode.
Proof.
  refine (inj_countable'
    (fun n => match n with LHead k => inl (inl k) | LEntry s k => inl (inr (s, k)) | LHash s => inr s end)
    (fun x => match x with inl (inl k) => LHead k | inl (inr (s, k)) => LEntry s k | inr s => LHash s end) _).
  by intros [].
Defined.

(** struct LIST_ENTRY; [None] is a NULL pointer. *)
Record LIST_ENTRY := mkLink { Flink : option lnode; Blink : option lnode }.
Abbreviation links := (gmap lnode LIST_ENTRY).

Record LDR_UNICODE_STRING := mkUS {
  us_Length : Z; us_MaximumLength : Z; us_Buffer : list Z }.
Definition zero_US : LDR_UNICODE_STRING := mkUS 0 0 (replicate (S MAX_LDR_NAME_WCHAR) 0).

(** The scalar fields of LDR_DATA_TABLE_ENTRY. *)
Record LDR_DATA_TABLE_ENTRY := mkLdr {
  ldr_DllBase : Z; ldr_EntryPoint : Z; ldr_SizeOfImage : Z;
  ldr_FullDllName : LDR_UNICODE_STRING; ldr_BaseDllName : LDR_UNICODE_STRING;
  ldr_Flags : Z; ldr_LoadCount : Z; ldr_TlsIndex : Z; ldr_TimeDateStamp : Z }.
Definition zero_ldr : LDR_DATA_TABLE_ENTRY := mkLdr 0 0 0 zero_US zero_US 0 0 0 0.

(** The three tables hold the entries that were copied; the arrays are zero
    beyond them. *)
Record EXPORT_CACHE := mkCache {
  ec_base : Z; export_dir_rva : Z; export_dir_size : Z;
  address_of_functions : Z; address_of_names : Z; address_of_name_ordinals : Z;
  number_of_functions : Z; number_of_names : Z; base_ordinal : Z;
  name_table : list Z; ordinal_table : list Z; func_table : list Z }.
Definition zero_cache : EXPORT_CACHE := mkCache 0 0 0 0 0 0 0 0 0 [] [] [].

Record loaded_module_t := mkModule {
  m_base : Z; m_name : cstr; m_nt : option IMAGE_NT_HEADERS;
  m_export_cache : EXPORT_CACHE; m_ldr_entry : LDR_DATA_TABLE_ENTRY;
  m_load_count : Z; m_ldr_linked : bool; m_dllmain_called : bool }.
Definition zero_module : loaded_module_t :=
  mkModule 0 [] None zero_cache zero_ldr 0 false false.

(** The registry part of wine_loader_state_t. *)
Record registry := mkRegistry {
  modules : list loaded_module_t; module_count : Z; reg_links : links }.

Section width.
Context {A : Arch}.

(** ASCII to UTF-16 in the embedded buffer of 261 units. *)
Definition module_make_unicode_string (src : cstr) : LDR_UNICODE_STRING :=
  let len := Z.of_nat (length src) in
  let chars := take MAX_LDR_NAME_WCHAR src in
  mkUS (u16 (len * 2)) (u16 ((len + 1) * 2))
       (chars ++ replicate (S MAX_LDR_NAME_WCHAR - length chars) 0).

(** module_list_entry_init: a node that points to itself. *)
Definition module_list_entry_init (n : lnode) (l : links) : links :=
  <[n := mkLink (Some n) (Some n)]> l.

Definition module_init_ldr_entry (base : Z) (name : cstr) (nt : IMAGE_NT_HEADERS)
  : LDR_DATA_TABLE_ENTRY :=
  mkLdr base (usize (base + pe_entry_rva nt)) (pe_size_of_image nt)
    (module_make_unicode_string name) (module_make_unicode_string name)
    0 1 0 (pe_time_date_stamp nt).
Definition module_init_ldr_links (slot : nat) (l : links) : links :=
  module_list_entry_init (LHash slot)
    (module_list_entry_init (LEntry slot 2)
      (module_list_entry_init (LEntry slot 1)
        (module_list_entry_init (LEntry slot 0) l))).

(** The effect of zeroing the LDR entry of a slot on its links. *)
Definition zero_links (slot : nat) (l : links) : links :=
  <[LHash slot := mkLink None None]>
    (<[LEntry slot 2 := mkLink None None]>
      (<[LEntry slot 1 := mkLink None None]>
        (<[LEntry slot 0 := mkLink None None]> l))).

Definition init_module_list (r : registry) : registry :=
  mkRegistry (replicate MAX_MODULES zero_module) 0
    (fold_left (fun l s => zero_links s l) (seq 0 MAX_MODULES) (reg_links r)).

(** First slot i with base == NULL. *)
Fixpoint free_slot (ms : list loaded_module_t) (i : nat) : option nat :=
  match ms with
  | [] => None
  | m :: ms => if m_base m =? 0 then Some i else free_slot ms (S i)
  end.

(** The new registry and the slot; [None] when every slot is taken. *)
Definition add_module (base : Z) (name : cstr) (nt : IMAGE_NT_HEADERS) (r : registry)
  : option (registry * nat) :=
  match free_slot (modules r) 0 with
  | None => None
  | Some i =>
      let stored := take 259 name in
      let m := mkModule base stored (Some nt) zero_cache
                 (module_init_ldr_entry base stored nt) 1 false false in
      Some (mkRegistry (<[i := m]> (modules r)) (module_count r + 1)
              (module_init_ldr_links i (zero_links i (reg_links r))), i)
  end.

(** The search loops run over i < module_count; an index that is not a slot of
    the array is an access out of its bounds. *)
Fixpoint find_module_loop (p : loaded_module_t -> bool) (ms : list loaded_module_t)
    (todo i : nat) : outcome (option nat) :=
  match todo with
  | O => Ret None
  | S todo =>
      m ← deref (ms !! i);
      if p m then Ret (Some i) else find_module_loop p ms todo (S i)
  end.

Definition find_module_by_name (name : cstr) (r : registry) : outcome (option nat) :=
  find_module_loop
    (fun m => negb (m_base m =? 0) && (syscall_safe_strcasecmp (m_name m) name =? 0))
    (modules r) (Z.to_nat (module_count r)) 0.

(** The hand-rolled comparison of find_module_by_name_safe: it stops at the end
    of one string or at a difference, and matches when both are at their end. *)
Fixpoint safe_name_eq (a b : cstr) : bool :=
  match a, b with
  | x :: a', y :: b' =>
      let low c := if (65 <=? c) && (c <=? 90) then u8 (c + 32) else c in
      if negb (low x =? low y) then false else safe_name_eq a' b'
  | [], [] => true
  | _, _ => false
  end.
Definition find_module_by_name_safe (name : cstr) (r : registry) : outcome (option nat) :=
  find_module_loop (fun m => safe_name_eq (m_name m) name)
    (modules r) (Z.to_nat (module_count r)) 0.

Definition module_covers (addr : Z) (m : loaded_module_t) : bool :=
  match m_nt m with
  | None => false
  | Some nt =>
      negb (m_base m =? 0) && (m_base m <=? addr) &&
      (addr <? usize (m_base m + pe_size_of_image nt))
  end.
Definition find_module_by_addr (addr : Z) (r : registry) : outcome (option nat) :=
  find_module_loop (module_covers addr) (modules r) (Z.to_nat (module_count r)) 0.

(** Only slots below module_count are compared with the pointer. *)
Definition remove_module (slot : nat) (r : registry) : registry :=
  if Z.of_nat slot <? module_count r then
    mkRegistry (<[slot := zero_module]> (modules r)) (module_count r - 1)
      (zero_links slot (reg_links r))
  else r.
End width.

(** ** The registry invariant *)

Definition live (m : loaded_module_t) : Prop := m_base m <> 0.
#[export] Instance live_dec m : Decision (live m).
Proof. unfold live. apply _. Defined.

Definition live_count (ms : list loaded_module_t) : nat := length (filter live ms).

(** Sixteen slots, and the count counts the slots in use. *)
Definition registry_ok (r : registry) : Prop :=
  length (modules r) = MAX_MODULES /\ module_count r = Z.of_nat (live_count (modules r)).

(** The slots in use are the first ones: no hole below the count. *)
Definition compact (r : registry) : Prop :=
  forall i m, modules r !! i = Some m -> live m <-> Z.of_nat i < module_count r.

Lemma live_count_app a b : live_count (a ++ b) = (live_count a + live_count b)%nat.
Proof. unfold live_count. by rewrite filter_app, length_app. Qed.

Lemma live_count_cons m ms :
  live_count (m :: ms) = ((if decide (live m) then 1 else 0) + live_count ms)%nat.
Proof. unfold live_count. rewrite filter_cons. by case_decide. Qed.

Lemma live_count_insert ms i m m' :
  ms !! i = Some m ->
  (live_count (<[i := m']> ms) + (if decide (live m) then 1 else 0)
   = live_count ms + (if decide (live m') then 1 else 0))%nat.
Proof.
  intros Hi. pose proof (take_drop_middle _ _ _ Hi) as E.
  rewrite <- E at 2. rewrite insert_take_drop by by eapply lookup_lt_Some.
  rewrite !live_count_app, !live_count_cons. lia.
Qed.

Lemma live_count_le ms : (live_count ms <= length ms)%nat.
Proof. unfold live_count. apply length_filter. Qed.

Lemma free_slot_Some ms k i :
  free_slot ms k = Some i ->
  exists m, ms !! (i - k)%nat = Some m /\ m_base m = 0 /\ (k <= i)%nat /\
    forall j n, (j < i - k)%nat -> ms !! j = Some n -> live n.
Proof.
  revert k. induction ms as [|m ms IH]; intros k H; simpl in H; [done|].
  destruct (Z.eqb_spec (m_base m) 0).
  - injection H as <-. exists m. rewrite Nat.sub_diag. split_and!; try done. intros; lia.
  - apply IH in H as (m' & Hm & Hb & Hk & Hall). exists m'.
    replace (i - k)%nat with (S (i - S k)) by lia. split_and!; try done; [lia|].
    intros [|j] n' Hj Hl; simpl in Hl; [by injection Hl as <-|]. eapply Hall; [|done]. lia.
Qed.

Lemma free_slot_None ms k : free_slot ms k = None <-> Forall live ms.
Proof.
  revert k. induction ms as [|m ms IH]; intros k; simpl; [by split|].
  rewrite Forall_cons. destruct (Z.eqb_spec (m_base m) 0).
  - split; [done|]. by intros [? _].
  - rewrite IH. naive_solver.
Qed.

(** Initially the registry is empty, well counted and compact. *)
Lemma init_module_list_ok r : registry_ok (init_module_list r) /\ compact (init_module_list r).
Proof.
  split; [split; vm_compute; reflexivity|].
  intros i m H. apply list_elem_of_lookup_2 in H.
  change (modules (init_module_list r)) with (replicate MAX_MODULES zero_module) in H.
  apply elem_of_replicate in H as [-> _]. unfold live. simpl. lia.
Qed.

Section ops.
Context {A : Arch}.

Lemma add_module_ok base name nt r r' i :
  base <> 0 -> registry_ok r -> add_module base name nt r = Some (r', i) -> registry_ok r'.
Proof.
  intros Hb [L C] H. unfold add_module in H.
  destruct (free_slot (modules r) 0) as [k|] eqn:E; [|done]. injection H as <- <-.
  apply free_slot_Some in E as (m & Hm & Hz & _). rewrite Nat.sub_0_r in Hm.
  split; simpl; [by rewrite length_insert|].
  match goal with |- context [<[k := ?m']> _] =>
    pose proof (live_count_insert _ _ _ m' Hm) as I end.
  rewrite decide_False in I by (unfold live; lia).
  rewrite decide_True in I by done. lia.
Qed.

(** On a compact registry a new module goes to slot module_count: it stays
    compact, and the registry is full exactly when sixteen modules are in it. *)
Lemma add_module_compact base name nt r r' i :
  base <> 0 -> registry_ok r -> compact r -> add_module base name nt r = Some (r', i) ->
  Z.of_nat i = module_count r /\ compact r'.
Proof.
  intros Hb [L C] Hc H. unfold add_module in H.
  destruct (free_slot (modules r) 0) as [k|] eqn:E; [|done]. injection H as <- <-.
  apply free_slot_Some in E as (m & Hm & Hz & _ & Hall). rewrite Nat.sub_0_r in *.
  assert (Hk : Z.of_nat k = module_count r).
  { pose proof (Hc k m Hm) as Hck. assert (~ live m) by (unfold live; lia).
    assert (~ Z.of_nat k < module_count r) by tauto.
    destruct (decide (Z.of_nat k = module_count r)); [done|].
    destruct (lookup_lt_is_Some_2 (modules r) (Z.to_nat (module_count r))) as [m' Hm'].
    { apply lookup_lt_Some in Hm. lia. }
    assert (live m') as Hl' by (eapply (Hall (Z.to_nat (module_count r))); [lia|done]).
    apply Hc in Hm'. apply Hm' in Hl'. lia. }
  split; [done|]. intros j n Hj. simpl in *.
  destruct (decide (j = k)) as [->|Hne].
  - rewrite list_lookup_insert_eq in Hj by by eapply lookup_lt_Some.
    injection Hj as <-. unfold live. simpl. split; [lia|done].
  - rewrite list_lookup_insert_ne in Hj by done. rewrite (Hc j n Hj). lia.
Qed.

Lemma remove_module_ok slot r m :
  registry_ok r -> modules r !! slot = Some m -> live m -> registry_ok (remove_module slot r).
Proof.
  intros [L C] Hm Hl. unfold remove_module. case_goal; [|done].
  split; simpl; [by rewrite length_insert|].
  pose proof (live_count_insert _ _ _ zero_module Hm) as I.
  rewrite decide_True in I by done. rewrite decide_False in I by (unfold live; simpl; lia). lia.
Qed.

(** Removing the most recent module keeps the registry compact. *)
Lemma remove_last_compact slot r :
  registry_ok r -> compact r -> Z.of_nat slot = module_count r - 1 ->
  compact (remove_module slot r).
Proof.
  intros [L C] Hc Hs. unfold remove_module. replace (_ <? _) with true by lia.
  intros j n Hj. simpl in *. destruct (decide (j = slot)) as [->|Hne].
  - rewrite list_lookup_insert_eq in Hj by (rewrite L; pose proof (live_count_le (modules r)); lia).
    injection Hj as <-. unfold live. simpl. lia.
  - rewrite list_lookup_insert_ne in Hj by done. rewrite (Hc j n Hj). lia.
Qed.

Lemma find_module_loop_eq p (l : list loaded_module_t) todo i :
  (i + todo <= length l)%nat ->
  find_module_loop p l todo i
  = Ret ((fun x => (i + x.1)%nat) <$> list_find (fun s => p s = true) (take todo (drop i l))).
Proof.
  revert i. induction todo as [|todo IH]; intros i H; [done|]. simpl.
  destruct (lookup_lt_is_Some_2 l i) as [s Hs]; [lia|].
  rewrite Hs. simpl. rewrite (drop_S l s i Hs). simpl.
  destruct (p s) eqn:Ep; simpl.
  - by rewrite Nat.add_0_r.
  - rewrite IH by lia. destruct (list_find _ _) as [[k x]|]; simpl; [|done].
    do 2 f_equal. lia.
Qed.

(** The lookups never leave the array and return the first match below the
    count. *)
Lemma find_module_loop_ok p r :
  registry_ok r ->
  find_module_loop p (modules r) (Z.to_nat (module_count r)) 0
  = Ret (fst <$> list_find (fun m => p m = true) (take (Z.to_nat (module_count r)) (modules r))).
Proof.
  intros [L C]. pose proof (live_count_le (modules r)).
  rewrite find_module_loop_eq by lia. change (drop 0 (modules r)) with (modules r).
  by destruct (list_find _ _) as [[]|].
Qed.

(** On a compact registry every live module satisfying the test is seen. *)
Lemma find_module_loop_complete p r i m :
  registry_ok r -> compact r -> modules r !! i = Some m -> live m -> p m = true ->
  exists j n, find_module_loop p (modules r) (Z.to_nat (module_count r)) 0 = Ret (Some j) /\
    modules r !! j = Some n /\ p n = true /\ (j <= i)%nat.
Proof.
  intros Ho Hc Hm Hl Hp. rewrite find_module_loop_ok by done.
  apply (Hc i m Hm) in Hl.
  destruct (list_find _ _) as [[j n]|] eqn:E; simpl.
  - apply list_find_Some in E as (Hj & Hpn & Hfirst).
    exists j, n. split; [done|].
    pose proof (lookup_lt_Some _ _ _ Hj) as Lj. rewrite length_take in Lj.
    rewrite lookup_take_lt in Hj by lia. split_and!; try done.
    destruct (decide (j <= i)%nat); [done|]. exfalso.
    apply (Hfirst i m); [|lia|done]. rewrite lookup_take_lt by lia. done.
  - exfalso. apply list_find_None in E. rewrite Forall_lookup in E.
    apply (E i m); [|done]. rewrite lookup_take_lt by lia. done.
Qed.
End ops.

(** ** Theorems *)

Section theorems.
Context {A : Arch}.

(** Registries reached from init_module_list by loading modules and unloading
    the most recent one. *)
Inductive stack_reachable : registry -> Prop :=
| reach_init r : stack_reachable (init_module_list r)
| reach_load r base name nt r' i :
    stack_reachable r -> base <> 0 -> wf_cstr name ->
    add_module base name nt r = Some (r', i) -> stack_reachable r'
| reach_unload r slot :
    stack_reachable r -> Z.of_nat slot = module_count r - 1 -> 0 < module_count r ->
    stack_reachable (remove_module slot r).

Definition names_wf (r : registry) : Prop := Forall (fun m => wf_cstr (m_name m)) (modules r).

Lemma stack_reachable_inv r :
  stack_reachable r -> registry_ok r /\ compact r /\ names_wf r.
Proof.
  induction 1 as [r | r base name nt r' i Hr (Ho & Hc & Hw) Hb Hn H | r slot Hr (Ho & Hc & Hw) Hs Hp].
  - destruct (init_module_list_ok r). split_and!; [done..|].
    apply (Forall_replicate (fun m => wf_cstr (m_name m)) MAX_MODULES). constructor.
  - pose proof (add_module_ok _ _ _ _ _ _ Hb Ho H).
    destruct (add_module_compact _ _ _ _ _ _ Hb Ho Hc H). split_and!; [done..|].
    unfold add_module in H. case_hyp H; [|done]. injection H as <- <-.
    apply Forall_insert; [done|]. by apply wf_cstr_take.
  - destruct (lookup_lt_is_Some_2 (modules r) slot) as [m Hm].
    { destruct Ho as [L C]. pose proof (live_count_le (modules r)). lia. }
    assert (live m) by (apply (Hc slot m Hm); lia).
    split_and!; [by eapply remove_module_ok|by apply remove_last_compact|].
    unfold remove_module. case_goal; [|done]. apply Forall_insert; [done|constructor].
Qed.

(** As long as modules are unloaded in reverse order of loading, every module
    in the registry is found by its name: the lookup returns a slot that holds a
    module of that name (up to case), at or before it. *)
Theorem loaded_module_is_found r i m :
  stack_reachable r -> modules r !! i = Some m -> live m ->
  exists j n, find_module_by_name (m_name m) r = Ret (Some j) /\
    modules r !! j = Some n /\ live n /\ (j <= i)%nat /\
    map syscall_safe_ascii_lower (m_name n) = map syscall_safe_ascii_lower (m_name m).
Proof.
  intros Hr Hm Hl. destruct (stack_reachable_inv r Hr) as (Ho & Hc & Hw).
  unfold names_wf in Hw. rewrite Forall_lookup in Hw.
  destruct (find_module_loop_complete
    (fun x => negb (m_base x =? 0) && (syscall_safe_strcasecmp (m_name x) (m_name m) =? 0))
    r i m Ho Hc Hm Hl) as (j & n & H & Hn & Hp & Hj).
  { unfold live in Hl. rewrite (proj2 (strcasecmp_spec _ _ (Hw i m Hm) (Hw i m Hm)) eq_refl). lia. }
  exists j, n. apply andb_prop in Hp as [Hp1 Hp2]. split_and!; try done.
  - unfold live. lia.
  - apply strcasecmp_spec; [by eapply Hw..|]. lia.
Qed.

Lemma safe_name_eq_spec a b :
  safe_name_eq a b = true <-> map syscall_safe_ascii_lower a = map syscall_safe_ascii_lower b.
Proof.
  revert b. induction a as [|x a IH]; intros [|y b]; simpl; try done.
  fold (syscall_safe_ascii_lower x) (syscall_safe_ascii_lower y).
  destruct (Z.eqb_spec (syscall_safe_ascii_lower x) (syscall_safe_ascii_lower y)) as [E|E]; simpl.
  - rewrite IH, E. split; [by intros ->|by intros [= ->]].
  - split; [done|]. by intros [= ? _].
Qed.

(** The libc-free lookup agrees with the regular one on these registries. *)
Theorem find_module_by_name_safe_equiv r name :
  stack_reachable r -> wf_cstr name ->
  find_module_by_name_safe name r = find_module_by_name name r.
Proof.
  intros Hr Hn. destruct (stack_reachable_inv r Hr) as (Ho & Hc & Hw).
  unfold find_module_by_name_safe, find_module_by_name. rewrite !find_module_loop_ok by done.
  do 2 f_equal.
  assert (Hext : Forall (fun m => safe_name_eq (m_name m) name = true <->
    negb (m_base m =? 0) && (syscall_safe_strcasecmp (m_name m) name =? 0) = true)
    (take (Z.to_nat (module_count r)) (modules r))).
  { apply Forall_lookup. intros i m Hi.
    pose proof (lookup_lt_Some _ _ _ Hi) as L. rewrite length_take in L.
    rewrite lookup_take_lt in Hi by lia.
    unfold names_wf in Hw. rewrite Forall_lookup in Hw.
    assert (live m) as Hl by (apply (Hc i m Hi); lia). unfold live in Hl.
    rewrite safe_name_eq_spec, andb_true_iff, Z.eqb_eq, strcasecmp_spec by (done || by eapply Hw).
    split; [|tauto]. intros ->. split; [lia|done]. }
  revert Hext. generalize (take (Z.to_nat (module_count r)) (modules r)). intros l Hl.
  induction Hl as [|m l Hm Hl IH]; simpl; [done|]. rewrite IH.
  do 2 destruct (decide _); tauto.
Qed.
End theorems.

Definition reg0 : registry := init_module_list (mkRegistry [] 0 ∅).
Definition load_sample (base : Z) (name : string) (r : registry) : registry :=
  match @add_module arch64 base (lit name) hello64_nt r with Some (r', _) => r' | None => r end.
Definition reg_ab : registry :=
  load_sample 0x60010000 "B.dll"%string (load_sample 0x60000000 "a.dll"%string reg0).

Lemma reg_ab_reachable : @stack_reachable arch64 reg_ab.
Proof.
  eapply (reach_load (load_sample 0x60000000 "a.dll"%string reg0) 0x60010000
            (lit "B.dll"%string) hello64_nt reg_ab 1);
    [|discriminate|by apply wf_cstrb_spec|reflexivity].
  eapply (reach_load reg0 0x60000000 (lit "a.dll"%string) hello64_nt _ 0);
    [apply reach_init|discriminate|by apply wf_cstrb_spec|reflexivity].
Qed.

Lemma loaded_module_is_found_witness :
  exists m, modules reg_ab !! 1%nat = Some m /\
    exists j n, find_module_by_name (m_name m) reg_ab = Ret (Some j) /\
      modules reg_ab !! j = Some n /\ live n.
Proof.
  eexists. split; [reflexivity|].
  destruct (@loaded_module_is_found arch64 reg_ab 1 _ reg_ab_reachable eq_refl)
    as (j & n & H1 & H2 & H3 & _); [discriminate|]. eauto.
Defined.

Lemma find_module_by_name_safe_equiv_witness :
  find_module_by_name_safe (lit "b.DLL"%string) reg_ab
  = find_module_by_name (lit "b.DLL"%string) reg_ab /\
  find_module_by_name (lit "b.DLL"%string) reg_ab = Ret (Some 1%nat).
Proof.
  split; [apply (@find_module_by_name_safe_equiv arch64 _ _ reg_ab_reachable); by apply wf_cstrb_spec|].
  vm_compute. reflexivity.
Defined.

(** Unloading a module that is not the most recent one leaves a hole below the
    decremented count: a module that is still in the registry is no longer found
    by name or address, and its own removal is then ignored. *)
Theorem unload_out_of_order_loses_modules :
  let r' := remove_module 0 reg_ab in
  exists m, modules r' !! 1%nat = Some m /\ live m /\
    find_module_by_name (m_name m) r' = Ret None /\
    @find_module_by_addr arch64 (m_base m) r' = Ret None /\
    remove_module 1 r' = r'.
Proof.
  eexists. split; [reflexivity|].
  split; [discriminate|]. split; [vm_compute; reflexivity|].
  split; [vm_compute; reflexivity|]. reflexivity.
Qed.
