(* ===== verification/PebLdr.v ===== *)
(** * PEB loader lists (src/loader/peb_ldr.c)

    The three circular doubly linked lists of PEB_LDR_DATA, threaded through
    the LDR entries embedded in the module slots.  The abstract state is the
    order of the linked modules; adding and removing a module refine appending
    to and deleting from that order. *)
From S2P Require Import Prelude Bytes CStr PeStructs TestImages PePriv ModuleList.

(** ** List helpers *)

Definition set_flink (n : lnode) (v : option lnode) (l : links) : outcome links :=
  e ← deref (l !! n); Ret (<[n := mkLink v (Blink e)]> l).
Definition set_blink (n : lnode) (v : option lnode) (l : links) : outcome links :=
  e ← deref (l !! n); Ret (<[n := mkLink (Flink e) v]> l).

Definition list_init (entry : lnode) (l : links) : links :=
  <[entry := mkLink (Some entry) (Some entry)]> l.

Definition list_insert_tail (head entry : lnode) (l : links) : outcome links :=
  h ← deref (l !! head);
  let prev := Blink h in
  l ← set_flink entry (Some head) l;
  l ← set_blink entry prev l;
  p ← deref prev;
  l ← set_flink p (Some entry) l;
  set_blink head (Some entry) l.

Definition list_remove (entry : lnode) (l : links) : outcome links :=
  e ← deref (l !! entry);
  b ← deref (Blink e);
  l ← set_flink b (Flink e) l;
  e ← deref (l !! entry);
  f ← deref (Flink e);
  l ← set_blink f (Blink e) l;
  l ← set_flink entry (Some entry) l;
  set_blink entry (Some entry) l.

(** ** The loader operations *)

(** The registry and whether g_loader.peb_ldr is set. *)
Record ldr_state := mkLdrState { ls_reg : registry; ls_peb_ldr : bool }.

Definition set_links (l : links) (r : registry) : registry :=
  mkRegistry (modules r) (module_count r) l.
Definition set_module (i : nat) (m : loaded_module_t) (r : registry) : registry :=
  mkRegistry (<[i := m]> (modules r)) (module_count r) (reg_links r).

Definition with_ldr (e : LDR_DATA_TABLE_ENTRY) (linked : bool) (m : loaded_module_t) : loaded_module_t :=
  mkModule (m_base m) (m_name m) (m_nt m) (m_export_cache m) e (m_load_count m) linked
    (m_dllmain_called m).
Definition with_load_count (c : Z) (e : LDR_DATA_TABLE_ENTRY) : LDR_DATA_TABLE_ENTRY :=
  mkLdr (ldr_DllBase e) (ldr_EntryPoint e) (ldr_SizeOfImage e) (ldr_FullDllName e)
    (ldr_BaseDllName e) (ldr_Flags e) c (ldr_TlsIndex e) (ldr_TimeDateStamp e).

(** The memory of PEB_LDR_DATA comes from mmap when g_loader.is_32bit is set and from
    malloc otherwise.  [mmap_result] is what the system call returns, minus an error
    number when it fails: the macro of the 64-bit build turns that into MAP_FAILED, the
    one of the 32-bit build does not, and an error other than 1 is used as an address.
    [Fail] is the return value NULL. *)
Definition init_peb_ldr {A : Arch} (is_32bit : bool) (mmap_result : Z) (malloc_ok : bool) (s : ldr_state) : outcome ldr_state :=
  _ ← (if is_32bit then
         if (mmap_result =? 0) || (if is_my_wine32 then mmap_result =? -1 else mmap_result <? 0) then Fail
         else if mmap_result <? 0 then Fault else Ret tt
       else if malloc_ok then Ret tt else Fail);
  Ret (mkLdrState
    (set_links (list_init (LHead 2) (list_init (LHead 1) (list_init (LHead 0)
       (reg_links (ls_reg s))))) (ls_reg s)) true).

(** [Fail] is the return value -1. *)
Definition ldr_add_module (slot : nat) (s : ldr_state) : outcome ldr_state :=
  let r := ls_reg s in
  m ← deref (modules r !! slot);
  if (m_base m =? 0) || negb (bool_decide (is_Some (m_nt m))) || negb (ls_peb_ldr s) then Fail
  else if m_ldr_linked m then Ret s
  else
    let e := with_load_count (i16 (m_load_count m)) (m_ldr_entry m) in
    l ← list_insert_tail (LHead 0) (LEntry slot 0) (reg_links r);
    l ← list_insert_tail (LHead 1) (LEntry slot 1) l;
    l ← list_insert_tail (LHead 2) (LEntry slot 2) l;
    Ret (mkLdrState (set_links l (set_module slot (with_ldr e true m) r)) (ls_peb_ldr s)).

Definition ldr_remove_module (slot : nat) (s : ldr_state) : outcome ldr_state :=
  let r := ls_reg s in
  m ← deref (modules r !! slot);
  if negb (m_ldr_linked m) then Ret s
  else
    l ← list_remove (LEntry slot 0) (reg_links r);
    l ← list_remove (LEntry slot 1) l;
    l ← list_remove (LEntry slot 2) l;
    Ret (mkLdrState (set_links (zero_links slot l) (set_module slot (with_ldr zero_ldr false m) r))
           (ls_peb_ldr s)).

Section width.
Context {A : Arch}.

Definition entry_covers (addr : Z) (e : LDR_DATA_TABLE_ENTRY) : bool :=
  (ldr_DllBase e <=? addr) && (addr <? usize (ldr_DllBase e + ldr_SizeOfImage e)).

(** The cursor walks InMemoryOrderModuleList; a cursor other than the head is
    the DoubleList[1] node of a module slot. *)
Fixpoint ldr_find_loop (addr : Z) (r : registry) (fuel : nat) (cursor : option lnode)
  : outcome (option nat) :=
  match fuel with
  | O => Fault
  | S fuel =>
      match cursor with
      | Some (LHead 1) => Ret None
      | Some (LEntry slot 1) =>
          m ← deref (modules r !! slot);
          if entry_covers addr (m_ldr_entry m) then Ret (Some slot)
          else
            e ← deref (reg_links r !! LEntry slot 1);
            ldr_find_loop addr r fuel (Flink e)
      | _ => Fault
      end
  end.

(** The slot of the module whose entry covers [addr]; the lists hold at most
    sixteen entries, so seventeen steps reach the head. *)
Definition ldr_find_by_addr (addr : Z) (s : ldr_state) : outcome (option nat) :=
  if negb (ls_peb_ldr s) || (addr =? 0) then Ret None
  else
    h ← deref (reg_links (ls_reg s) !! LHead 1);
    ldr_find_loop addr (ls_reg s) 17 (Flink h).
End width.

(** ** Circular lists *)

Definition flink (l : links) (n : lnode) : option lnode := l !! n ≫= Flink.
Definition blink (l : links) (n : lnode) : option lnode := l !! n ≫= Blink.

Definition linked (l : links) (a b : lnode) : Prop := flink l a = Some b /\ blink l b = Some a.

(** From [a] through [xs] to [b], in both directions. *)
Fixpoint seg (l : links) (a : lnode) (xs : list lnode) (b : lnode) : Prop :=
  match xs with
  | [] => linked l a b
  | x :: xs => linked l a x /\ seg l x xs b
  end.

(** The circular list with head [h] and entries [xs]. *)
Definition ring (l : links) (h : lnode) (xs : list lnode) : Prop := NoDup (h :: xs) /\ seg l h xs h.

Lemma flink_Some l n b : flink l n = Some b -> exists e, l !! n = Some e /\ Flink e = Some b.
Proof. unfold flink. intros (e & ? & ?)%bind_Some. eauto. Qed.
Lemma blink_Some l n b : blink l n = Some b -> exists e, l !! n = Some e /\ Blink e = Some b.
Proof. unfold blink. intros (e & ? & ?)%bind_Some. eauto. Qed.

Lemma seg_snoc l a xs x b : seg l a (xs ++ [x]) b <-> seg l a xs x /\ linked l x b.
Proof.
  revert a. induction xs as [|y xs IH]; intros a; simpl; [done|]. rewrite IH. tauto.
Qed.

Lemma seg_app l a xs x ys b : seg l a (xs ++ x :: ys) b <-> seg l a xs x /\ seg l x ys b.
Proof.
  revert a. induction xs as [|y xs IH]; intros a; simpl; [done|]. rewrite IH. tauto.
Qed.

Lemma seg_ext l l' a xs b :
  (forall n, n ∈ a :: xs -> flink l' n = flink l n) ->
  (forall n, n ∈ xs ++ [b] -> blink l' n = blink l n) ->
  seg l a xs b -> seg l' a xs b.
Proof.
  revert a. induction xs as [|x xs IH]; intros a Hf Hb; simpl; unfold linked.
  - rewrite (Hf a) by by left. rewrite (Hb b) by by left. done.
  - rewrite (Hf a) by by left. rewrite (Hb x) by by left. intros [? H]. split; [done|].
    apply IH; [| |done].
    + intros n Hn. apply Hf. by right.
    + intros n Hn. apply Hb. by right.
Qed.

(** The node before [b] on the way from [a]. *)
Lemma seg_blink l a xs b : seg l a xs b -> exists p, linked l p b /\ p ∈ a :: xs.
Proof.
  revert a. induction xs as [|x xs IH]; intros a; simpl.
  - exists a. split; [done|by left].
  - intros [_ H]. destruct (IH x H) as (p & ? & ?). exists p. split; [done|by right].
Qed.

(** Updates of one link, as pure functions. *)
Definition fset (n : lnode) (v : option lnode) (l : links) : links :=
  alter (fun e => mkLink v (Blink e)) n l.
Definition bset (n : lnode) (v : option lnode) (l : links) : links :=
  alter (fun e => mkLink (Flink e) v) n l.

Lemma set_flink_eq n v l : is_Some (l !! n) -> set_flink n v l = Ret (fset n v l).
Proof.
  intros [e He]. unfold set_flink, fset. rewrite He. simpl. f_equal.
  apply map_eq. intros m. rewrite lookup_insert, lookup_alter.
  case_decide; subst; [by rewrite He|done].
Qed.
Lemma set_blink_eq n v l : is_Some (l !! n) -> set_blink n v l = Ret (bset n v l).
Proof.
  intros [e He]. unfold set_blink, bset. rewrite He. simpl. f_equal.
  apply map_eq. intros m. rewrite lookup_insert, lookup_alter.
  case_decide; subst; [by rewrite He|done].
Qed.

Lemma fset_is_Some n v l m : is_Some (fset n v l !! m) <-> is_Some (l !! m).
Proof. unfold fset. rewrite lookup_alter. case_decide; subst; [by rewrite fmap_is_Some|done]. Qed.
Lemma bset_is_Some n v l m : is_Some (bset n v l !! m) <-> is_Some (l !! m).
Proof. unfold bset. rewrite lookup_alter. case_decide; subst; [by rewrite fmap_is_Some|done]. Qed.

Lemma flink_fset n v l m :
  is_Some (l !! n) -> flink (fset n v l) m = if decide (n = m) then v else flink l m.
Proof.
  intros [e He]. unfold flink, fset. rewrite lookup_alter.
  case_decide; subst; [by rewrite He|done].
Qed.
Lemma blink_fset n v l m : blink (fset n v l) m = blink l m.
Proof.
  unfold blink, fset. rewrite lookup_alter. case_decide; subst; [|done].
  by destruct (l !! m).
Qed.
Lemma blink_bset n v l m :
  is_Some (l !! n) -> blink (bset n v l) m = if decide (n = m) then v else blink l m.
Proof.
  intros [e He]. unfold blink, bset. rewrite lookup_alter.
  case_decide; subst; [by rewrite He|done].
Qed.
Lemma flink_bset n v l m : flink (bset n v l) m = flink l m.
Proof.
  unfold flink, bset. rewrite lookup_alter. case_decide; subst; [|done].
  by destruct (l !! m).
Qed.

Lemma fset_ne n v l m : n <> m -> fset n v l !! m = l !! m.
Proof. intros. unfold fset. rewrite lookup_alter. by case_decide. Qed.
Lemma bset_ne n v l m : n <> m -> bset n v l !! m = l !! m.
Proof. intros. unfold bset. rewrite lookup_alter. by case_decide. Qed.

Lemma linked_is_Some l a b : linked l a b -> is_Some (l !! a) /\ is_Some (l !! b).
Proof.
  intros [(e & He & _)%flink_Some (f & Hf & _)%blink_Some]. rewrite He, Hf. eauto.
Qed.

Ltac solve_dom := repeat first [rewrite fset_is_Some | rewrite bset_is_Some]; done.
Ltac link_simpl :=
  repeat first
    [ rewrite flink_bset | rewrite blink_fset
    | rewrite flink_fset by solve_dom
    | rewrite blink_bset by solve_dom ].

(** list_insert_tail appends to the list and touches only the new entry, the
    head and the entries of the list. *)
Lemma list_insert_tail_spec l h e xs :
  ring l h xs -> e ∉ h :: xs -> is_Some (l !! e) ->
  exists l', list_insert_tail h e l = Ret l' /\ ring l' h (xs ++ [e]) /\
    (forall n, n ∉ e :: h :: xs -> l' !! n = l !! n) /\
    (forall n, is_Some (l' !! n) <-> is_Some (l !! n)).
Proof.
  intros [ND Hseg] He Hse. destruct (seg_blink _ _ _ _ Hseg) as (p & Hp & Hpin).
  destruct (linked_is_Some _ _ _ Hp) as [Hsp Hsh].
  assert (p <> e) by (intros ->; done).
  assert (h <> e) by (intros ->; apply He; by left).
  exists (bset h (Some e) (fset p (Some e) (bset e (Some p) (fset e (Some h) l)))).
  split.
  { unfold list_insert_tail. destruct Hp as [_ (eh & Hh & Hb)%blink_Some].
    rewrite Hh. simpl. rewrite set_flink_eq by done. simpl. rewrite Hb.
    rewrite set_blink_eq by (by rewrite fset_is_Some). simpl.
    rewrite set_flink_eq by (by rewrite bset_is_Some, fset_is_Some). simpl.
    by rewrite set_blink_eq by (by rewrite fset_is_Some, bset_is_Some, fset_is_Some). }
  split; [split|split].
  - rewrite app_comm_cons. apply NoDup_app. split; [done|]. split; [|apply NoDup_singleton].
    intros n Hn Hn'. apply list_elem_of_singleton in Hn' as ->. done.
  - apply seg_snoc. split.
    + (* up to the new entry *)
      destruct xs as [|x xs _] using rev_ind.
      * simpl in Hseg |- *. apply list_elem_of_singleton in Hpin as ->. unfold linked. link_simpl.
        split; repeat case_decide; done.
      * apply seg_snoc in Hseg as [Hs1 Hs2]. apply seg_snoc.
        assert (p = x) as -> by (destruct Hp as [_ Hb1], Hs2 as [_ Hb2]; congruence).
        rewrite app_comm_cons in ND. apply NoDup_app in ND as (ND1 & Hdis & _).
        assert (Hxn : x ∉ h :: xs) by (intros Hx; apply (Hdis x Hx); by left).
        split; [|unfold linked; link_simpl; split; repeat case_decide; done].
        eapply seg_ext; [| |exact Hs1]; intros n Hn; link_simpl; repeat case_decide; subst; try done.
        -- exfalso. apply He. rewrite app_comm_cons. apply elem_of_app. by left.
        -- exfalso. apply NoDup_cons in ND1 as [ND1 _]. apply elem_of_app in Hn as [Hn|Hn%list_elem_of_singleton]; [done|].
           subst. apply Hxn. by left.
        -- exfalso. apply He. right. done.
    + unfold linked. link_simpl. split; repeat case_decide; done.
  - intros n Hn. rewrite !not_elem_of_cons in Hn. destruct Hn as (N1 & N2 & N3).
    assert (p <> n) by (intros ->; apply elem_of_cons in Hpin as [|]; done).
    rewrite bset_ne, fset_ne, bset_ne, fset_ne; done.
  - intros n. by rewrite bset_is_Some, fset_is_Some, bset_is_Some, fset_is_Some.
Qed.

(** First successor and rest of a segment. *)
Lemma seg_first l a ys b : seg l a ys b -> linked l a (hd b ys).
Proof. destruct ys; simpl; tauto. Qed.

(** A list without its middle entry: the neighbours are linked and the rest is
    as before. *)
Lemma seg_bypass l l' h xs e ys z b f :
  seg l h xs e -> seg l e ys z -> blink l e = Some b -> flink l e = Some f ->
  linked l' b f ->
  (forall n, n ∈ h :: xs -> n <> b -> flink l' n = flink l n) ->
  (forall n, n ∈ ys -> flink l' n = flink l n) ->
  (forall n, n ∈ xs -> blink l' n = blink l n) ->
  (forall n, n ∈ ys ++ [z] -> n <> f -> blink l' n = blink l n) ->
  NoDup (h :: xs) -> NoDup (ys ++ [z]) ->
  seg l' h (xs ++ ys) z.
Proof.
  intros Hx Hy Hb Hf Hbf F1 F2 B1 B2 N1 N2.
  pose proof (seg_first _ _ _ _ Hy) as [Hf' _]. rewrite Hf in Hf'. injection Hf' as Ef.
  assert (Hpart : forall a, flink l' a = Some f -> blink l' f = Some a -> seg l' a ys z).
  { intros a Ha1 Ha2. destruct ys as [|y ys]; simpl in Ef; subst f; [done|].
    split; [done|]. destruct Hy as [_ Hy]. simpl in N2. apply NoDup_cons in N2 as [N2 _].
    eapply seg_ext; [| |exact Hy].
    - intros n Hn. by apply F2.
    - intros n Hn. apply B2; [by right|]. intros ->. done. }
  destruct xs as [|x xs _] using rev_ind.
  - simpl in Hx |- *. destruct Hx as [_ Hx]. rewrite Hb in Hx. injection Hx as ->.
    apply Hpart; apply Hbf.
  - apply seg_snoc in Hx as [Hx1 Hx2]. destruct Hx2 as [_ Hx2]. rewrite Hb in Hx2.
    injection Hx2 as ->. rewrite <- app_assoc. apply seg_app. split; [|apply Hpart; apply Hbf].
    rewrite app_comm_cons in N1. apply NoDup_app in N1 as (_ & Hd & _).
    eapply seg_ext; [| |exact Hx1].
    + intros n Hn. apply F1; [rewrite app_comm_cons; apply elem_of_app; by left|].
      intros ->. apply (Hd x Hn). by left.
    + intros n Hn. by apply B1.
Qed.

(** list_remove unlinks an entry, leaves it pointing to itself, and touches only
    the nodes of its list. *)
Lemma list_remove_spec l h xs e ys :
  ring l h (xs ++ e :: ys) ->
  exists l', list_remove e l = Ret l' /\ ring l' h (xs ++ ys) /\
    (forall n, n ∉ h :: xs ++ e :: ys -> l' !! n = l !! n) /\
    (forall n, is_Some (l' !! n) <-> is_Some (l !! n)).
Proof.
  intros [ND Hseg]. apply seg_app in Hseg as [Hx Hy].
  destruct (seg_blink _ _ _ _ Hx) as (b & Hbe & Hbin).
  pose proof (seg_first _ _ _ _ Hy) as Hef. set (f := hd h ys) in *.
  assert (Hfin : f ∈ ys ++ [h]) by (unfold f; destruct ys; by left).
  destruct (linked_is_Some _ _ _ Hbe) as [Hsb Hse]. destruct (linked_is_Some _ _ _ Hef) as [_ Hsf].
  assert (NDh := ND). rewrite app_comm_cons in NDh. apply NoDup_app in NDh as (ND1 & Hd & ND2).
  apply NoDup_cons in ND2 as [Hey ND2].
  assert (Hex : e ∉ h :: xs) by (intros He; apply (Hd e He); by left).
  assert (Hbe' : b <> e) by (intros ->; done).
  assert (Hfe' : f <> e).
  { intros ->. apply elem_of_app in Hfin as [?|Hf%list_elem_of_singleton]; [done|].
    apply Hex. rewrite <- Hf. by left. }
  exists (bset e (Some e) (fset e (Some e) (bset f (Some b) (fset b (Some f) l)))).
  destruct Hbe as [Hbf1 Hbb], Hef as [Hff Hfb]. split.
  { unfold list_remove. destruct (blink_Some _ _ _ Hbb) as (ee & He & Hb1).
    destruct (flink_Some _ _ _ Hff) as (ee' & He' & Hf1). rewrite He in He'. injection He' as <-.
    rewrite He. simpl. rewrite Hb1. simpl. rewrite Hf1, set_flink_eq by done. simpl.
    rewrite fset_ne by done. rewrite He. simpl. rewrite Hf1, Hb1. simpl.
    rewrite set_blink_eq by solve_dom. simpl. rewrite set_flink_eq by solve_dom. simpl.
    by rewrite set_blink_eq by solve_dom. }
  assert (NDr : NoDup (ys ++ [h])).
  { apply NoDup_app. split; [done|]. split; [|apply NoDup_singleton].
    intros n Hn Hh%list_elem_of_singleton. subst n. apply NoDup_cons in ND as [ND _].
    apply ND. apply elem_of_app. right. by right. }
  split; [split|split].
  - apply NoDup_cons in ND as [Nh ND]. apply NoDup_cons. split.
    + intros Hn. apply Nh. rewrite elem_of_app in *. rewrite elem_of_cons. tauto.
    + apply NoDup_app in ND as (? & Hd' & ?). apply NoDup_app. split; [done|]. split; [|done].
      intros n Hn Hn'. apply (Hd' n Hn). by right.
  - eapply (seg_bypass l _ h xs e ys h b f); try done.
    + unfold linked. link_simpl. split; repeat case_decide; congruence.
    + intros n Hn Hnb. link_simpl. repeat case_decide; subst; done.
    + intros n Hn. link_simpl. repeat case_decide; subst; try done.
      exfalso. apply elem_of_cons in Hbin as [-> | Hbin].
      * apply NoDup_cons in ND as [ND _]. apply ND. apply elem_of_app. right. by right.
      * apply (Hd n); by right.
    + intros n Hn. link_simpl. repeat case_decide; subst; try done.
      * exfalso. apply Hex. by right.
      * exfalso. apply elem_of_app in Hfin as [Hf|Hf%list_elem_of_singleton].
        -- apply (Hd f); by right.
        -- apply NoDup_cons in ND1 as [ND1 _]. by rewrite Hf in Hn.
    + intros n Hn Hnf. link_simpl. repeat case_decide; subst; try done.
      exfalso. apply elem_of_app in Hn as [Hn|Hn%list_elem_of_singleton]; [done|].
      apply Hex. subst. by left.
  - intros n Hn. rewrite not_elem_of_cons, not_elem_of_app, not_elem_of_cons in Hn.
    destruct Hn as (N1 & N2 & N3 & N4).
    assert (b <> n) by (intros ->; apply elem_of_cons in Hbin as [|]; done).
    assert (f <> n).
    { intros ->. apply elem_of_app in Hfin as [|?%list_elem_of_singleton]; congruence. }
    rewrite bset_ne, fset_ne, bset_ne, fset_ne; done.
  - intros n. by rewrite bset_is_Some, fset_is_Some, bset_is_Some, fset_is_Some.
Qed.

(** ** Three lists over the module slots *)

Definition nodes (k : nat) (order : list nat) : list lnode := (fun s => LEntry s k) <$> order.

(** List [k] links the slots [ord k], in that order. *)
Definition rings (l : links) (ord : nat -> list nat) : Prop :=
  forall k, (k < 3)%nat -> ring l (LHead k) (nodes k (ord k)).

Lemma elem_of_nodes n k order : n ∈ nodes k order <-> exists s, n = LEntry s k /\ s ∈ order.
Proof. unfold nodes. by rewrite list_elem_of_fmap. Qed.

Lemma ring_frame l l' h xs :
  (forall n, n ∈ h :: xs -> l' !! n = l !! n) -> ring l h xs -> ring l' h xs.
Proof.
  intros Hf [ND Hs]. split; [done|]. eapply seg_ext; [| |exact Hs].
  - intros n Hn. unfold flink. by rewrite Hf.
  - intros n Hn. unfold blink. rewrite Hf; [done|].
    apply elem_of_app in Hn as [Hn|Hn%list_elem_of_singleton]; [by right|subst; by left].
Qed.

Definition upd (k : nat) (v : list nat) (ord : nat -> list nat) (j : nat) : list nat :=
  if decide (j = k) then v else ord j.

(** A change confined to the nodes of list [k] keeps the other lists. *)
Lemma rings_upd l l' ord k v slot :
  (k < 3)%nat -> rings l ord -> ring l' (LHead k) (nodes k v) ->
  (forall n, n ∉ LEntry slot k :: LHead k :: nodes k (ord k) -> l' !! n = l !! n) ->
  rings l' (upd k v ord).
Proof.
  intros Hk Hr Hk' Hf j Hj. unfold upd. case_decide; [by subst|].
  eapply ring_frame; [|by apply Hr]. intros n Hn. apply Hf.
  rewrite !not_elem_of_cons, elem_of_nodes. apply elem_of_cons in Hn as [-> | (s & -> & _)%elem_of_nodes];
    repeat split; naive_solver.
Qed.

Lemma rings_insert l ord k slot :
  (k < 3)%nat -> rings l ord -> slot ∉ ord k -> is_Some (l !! LEntry slot k) ->
  exists l', list_insert_tail (LHead k) (LEntry slot k) l = Ret l' /\
    rings l' (upd k (ord k ++ [slot]) ord) /\
    (forall n, is_Some (l' !! n) <-> is_Some (l !! n)).
Proof.
  intros Hk Hr Hs He.
  destruct (list_insert_tail_spec l (LHead k) (LEntry slot k) (nodes k (ord k)))
    as (l' & E & Hr' & Hf & Hd); [by apply Hr| |done|].
  { rewrite not_elem_of_cons, elem_of_nodes. split; [done|]. naive_solver. }
  exists l'. split; [done|]. split; [|done].
  eapply rings_upd; [done|done| |exact Hf]. unfold nodes. by rewrite fmap_app.
Qed.

Lemma rings_remove l ord k a slot b :
  (k < 3)%nat -> rings l ord -> ord k = a ++ slot :: b ->
  exists l', list_remove (LEntry slot k) l = Ret l' /\ rings l' (upd k (a ++ b) ord) /\
    (forall n, is_Some (l' !! n) <-> is_Some (l !! n)).
Proof.
  intros Hk Hr Ho. pose proof (Hr k Hk) as Hrk. rewrite Ho in Hrk. unfold nodes in Hrk.
  rewrite fmap_app, fmap_cons in Hrk.
  destruct (list_remove_spec _ _ _ _ _ Hrk) as (l' & E & Hr' & Hf & Hd).
  exists l'. split; [done|]. split; [|done].
  eapply (rings_upd l l' ord k (a ++ b) slot); [done|done| |].
  - unfold nodes. by rewrite fmap_app.
  - intros n Hn. apply Hf. intros Hin. apply Hn. right.
    rewrite Ho. unfold nodes. by rewrite fmap_app, fmap_cons.
Qed.

(** ** The refinement *)

(** The concrete state represents the load order [order]: every list links the
    slots of [order], and a module is marked as linked exactly when it is in it. *)
Record ldr_rep (s : ldr_state) (order : list nat) : Prop := {
  rep_ldr : ls_peb_ldr s = true;
  rep_rings : rings (reg_links (ls_reg s)) (fun _ => order);
  rep_linked : forall slot m, modules (ls_reg s) !! slot = Some m ->
    m_ldr_linked m = true <-> slot ∈ order;
  rep_slots : forall slot, slot ∈ order -> is_Some (modules (ls_reg s) !! slot);
  rep_nodes : forall slot k, is_Some (modules (ls_reg s) !! slot) -> (k < 3)%nat ->
    is_Some (reg_links (ls_reg s) !! LEntry slot k)
}.

Lemma is_Some_insert (ms : list loaded_module_t) i m j :
  is_Some (<[i := m]> ms !! j) <-> is_Some (ms !! j).
Proof. by rewrite !lookup_lt_is_Some, length_insert. Qed.

(** Marking or unmarking one module changes the linked slots by that module. *)
Lemma linked_insert (ms : list loaded_module_t) (slot : nat) m' (order order' : list nat) :
  (forall i m, ms !! i = Some m -> m_ldr_linked m = true <-> i ∈ order) ->
  m_ldr_linked m' = true <-> slot ∈ order' ->
  (forall i, i <> slot -> i ∈ order' <-> i ∈ order) ->
  forall i m, <[slot := m']> ms !! i = Some m -> m_ldr_linked m = true <-> i ∈ order'.
Proof.
  intros Hl Hs Ho i m Hi. destruct (decide (i = slot)) as [->|Hne].
  - apply list_lookup_insert_Some in Hi as [(_ & -> & _)|[? _]]; [done|done].
  - rewrite list_lookup_insert_ne in Hi by done. rewrite (Hl i m Hi). symmetry. by apply Ho.
Qed.

(** init_peb_ldr starts with empty lists. *)
Lemma init_peb_ldr_rep {A : Arch} is_32bit mmap_result malloc_ok s :
  (if is_32bit : bool then 0 < mmap_result else malloc_ok = true) ->
  (forall slot m, modules (ls_reg s) !! slot = Some m -> m_ldr_linked m = false) ->
  (forall slot k, is_Some (modules (ls_reg s) !! slot) -> (k < 3)%nat ->
     is_Some (reg_links (ls_reg s) !! LEntry slot k)) ->
  exists s', init_peb_ldr is_32bit mmap_result malloc_ok s = Ret s' /\ ldr_rep s' [].
Proof.
  intros Ha Hm Hn. unfold init_peb_ldr.
  replace (if is_32bit then _ else _) with (Ret tt : outcome unit).
  2: { destruct is_32bit; [|by rewrite Ha]. replace (mmap_result =? 0) with false by lia. cbn [orb].
       replace (mmap_result <? 0) with false by lia. replace (mmap_result =? -1) with false by lia. by destruct is_my_wine32. }
  eexists. split; [reflexivity|]. split; simpl.
  - done.
  - intros k Hk. unfold nodes, ring. simpl. split; [apply NoDup_singleton|].
    unfold linked, flink, blink, list_init.
    destruct k as [|[|[|k]]]; [..|lia]; simplify_map_eq; done.
  - intros slot m H. rewrite (Hm slot m H). split; [done|]. by intros ?%not_elem_of_nil.
  - by intros slot ?%not_elem_of_nil.
  - intros slot k Hs Hk. unfold list_init. rewrite !lookup_insert_ne by done. by apply Hn.
Qed.

(** ldr_add_module on a registered, unlinked module appends it to the three
    lists. *)
Lemma ldr_add_module_rep s order slot m :
  ldr_rep s order -> modules (ls_reg s) !! slot = Some m ->
  m_base m <> 0 -> is_Some (m_nt m) -> m_ldr_linked m = false ->
  exists s', ldr_add_module slot s = Ret s' /\ ldr_rep s' (order ++ [slot]) /\
    exists n, modules (ls_reg s') = <[slot := n]> (modules (ls_reg s)) /\
      m_base n = m_base m /\ m_nt n = m_nt m.
Proof.
  intros [Hl Hr Hm Hs Hn] Hmod Hb Hnt Hun.
  assert (Hnot : slot ∉ order) by (intros ?%(Hm slot m Hmod); congruence).
  assert (Hsm : is_Some (modules (ls_reg s) !! slot)) by (rewrite Hmod; eauto).
  destruct (rings_insert (reg_links (ls_reg s)) (fun _ => order) 0 slot) as (l0 & E0 & R0 & D0);
    [lia|done|done|apply Hn; [done|lia]|].
  destruct (rings_insert l0 _ 1 slot ltac:(lia) R0) as (l1 & E1 & R1 & D1);
    [by unfold upd; case_decide|rewrite D0; apply Hn; [done|lia]|].
  destruct (rings_insert l1 _ 2 slot ltac:(lia) R1) as (l2 & E2 & R2 & D2);
    [by unfold upd; repeat case_decide|rewrite D1, D0; apply Hn; [done|lia]|].
  eexists. split.
  - unfold ldr_add_module. rewrite Hmod. simpl.
    rewrite (bool_decide_eq_true_2 _ Hnt), Hl, Hun. replace (m_base m =? 0) with false by lia.
    simpl. rewrite E0. simpl. rewrite E1. simpl. rewrite E2. reflexivity.
  - split; [|eexists; split_and!; reflexivity].
    split; simpl; [done| | |..].
    + intros k Hk. specialize (R2 k Hk). unfold upd in R2.
      destruct k as [|[|[|k]]]; [exact R2..|lia].
    + eapply linked_insert; [exact Hm| |].
      * simpl. split; [|done]. intros _. apply elem_of_app. right. by left.
      * intros i Hi. rewrite elem_of_app, list_elem_of_singleton. tauto.
    + intros i Hi. rewrite is_Some_insert. apply elem_of_app in Hi as [Hi|Hi%list_elem_of_singleton];
        [by apply Hs|by subst].
    + intros i k Hi Hk. rewrite is_Some_insert in Hi. rewrite D2, D1, D0. by apply Hn.
Qed.

(** ldr_remove_module deletes it from the three lists. *)
Lemma ldr_remove_module_rep s a slot b :
  ldr_rep s (a ++ slot :: b) ->
  exists s', ldr_remove_module slot s = Ret s' /\ ldr_rep s' (a ++ b) /\
    exists m n, modules (ls_reg s) !! slot = Some m /\
      modules (ls_reg s') = <[slot := n]> (modules (ls_reg s)) /\
      m_base n = m_base m /\ m_nt n = m_nt m.
Proof.
  intros [Hl Hr Hm Hs Hn].
  assert (Hin : slot ∈ a ++ slot :: b) by (apply elem_of_app; right; by left).
  destruct (Hs slot Hin) as [m Hmod].
  pose proof (proj2 (Hm slot m Hmod) Hin) as Hlk.
  destruct (rings_remove (reg_links (ls_reg s)) (fun _ => a ++ slot :: b) 0 a slot b)
    as (l0 & E0 & R0 & D0); [lia|done|done|].
  destruct (rings_remove l0 _ 1 a slot b ltac:(lia) R0) as (l1 & E1 & R1 & D1); [done|].
  destruct (rings_remove l1 _ 2 a slot b ltac:(lia) R1) as (l2 & E2 & R2 & D2); [done|].
  assert (Hnd : slot ∉ a ++ b).
  { pose proof (Hr 0%nat ltac:(lia)) as [ND _]. apply NoDup_cons in ND as [_ ND].
    unfold nodes in ND. apply NoDup_fmap_1 in ND. apply NoDup_app in ND as (_ & Hd & ND).
    apply NoDup_cons in ND as [ND _]. rewrite elem_of_app. intros [Ha|Hb]; [|done].
    apply (Hd slot Ha). by left. }
  eexists. split.
  - unfold ldr_remove_module. rewrite Hmod. simpl. rewrite Hlk. simpl.
    rewrite E0. simpl. rewrite E1. simpl. rewrite E2. reflexivity.
  - split; [|exists m; eexists; split_and!; [done|reflexivity..]].
    split; simpl; [done| | |..].
    + intros k Hk. specialize (R2 k Hk).
      eapply (ring_frame l2); [|destruct k as [|[|[|k]]]; [exact R2..|lia]].
      intros n Hnn. unfold zero_links.
      apply elem_of_cons in Hnn as [-> | (t & -> & Ht)%elem_of_nodes];
        [by rewrite !lookup_insert_ne|].
      assert (t <> slot) by (intros ->; done).
      rewrite !lookup_insert_ne by congruence. done.
    + eapply linked_insert; [exact Hm| |].
      * simpl. split; [done|]. by intros ?%Hnd.
      * intros i Hi. rewrite !elem_of_app, elem_of_cons. tauto.
    + intros i Hi. rewrite is_Some_insert. apply Hs. rewrite elem_of_app in *. rewrite elem_of_cons. tauto.
    + intros i k Hi Hk. rewrite is_Some_insert in Hi. unfold zero_links.
      rewrite !lookup_insert. repeat case_decide; eauto. rewrite D2, D1, D0. by apply Hn.
Qed.


(** Sequences of loads and unloads, and what they do to the load order. *)
Inductive ldr_op := LdrAdd (slot : nat) | LdrRemove (slot : nat).

Definition ldr_step (s : ldr_state) (o : ldr_op) : outcome ldr_state :=
  match o with
  | LdrAdd slot => ldr_add_module slot s
  | LdrRemove slot => ldr_remove_module slot s
  end.

Fixpoint ldr_run (ops : list ldr_op) (s : ldr_state) : outcome ldr_state :=
  match ops with
  | [] => Ret s
  | o :: ops => s ← ldr_step s o; ldr_run ops s
  end.

Definition order_step (order : list nat) (o : ldr_op) : list nat :=
  match o with
  | LdrAdd slot => if decide (slot ∈ order) then order else order ++ [slot]
  | LdrRemove slot => filter (fun i => i <> slot) order
  end.

(** The operation names a slot of the table; an added one holds a module. *)
Definition op_ok (s : ldr_state) (o : ldr_op) : Prop :=
  match o with
  | LdrAdd slot => exists m, modules (ls_reg s) !! slot = Some m /\ m_base m <> 0 /\ is_Some (m_nt m)
  | LdrRemove slot => is_Some (modules (ls_reg s) !! slot)
  end.

Lemma op_ok_insert s s' slot m n o :
  modules (ls_reg s) !! slot = Some m ->
  modules (ls_reg s') = <[slot := n]> (modules (ls_reg s)) ->
  m_base n = m_base m -> m_nt n = m_nt m -> op_ok s o -> op_ok s' o.
Proof.
  intros Hm Hn Hb Ht. destruct o as [i|i]; simpl; rewrite Hn; [|by rewrite is_Some_insert].
  intros (x & Hx & ? & ?). destruct (decide (slot = i)) as [->|Hne].
  - exists n. rewrite list_lookup_insert_eq by (by eapply lookup_lt_Some).
    rewrite Hx in Hm. injection Hm as ->. by rewrite Hb, Ht.
  - exists x. by rewrite list_lookup_insert_ne.
Qed.

Lemma filter_notin (x : nat) (l : list nat) : x ∉ l -> filter (fun i => i <> x) l = l.
Proof.
  induction l as [|y l IH]; intros Hl; [done|]. rewrite not_elem_of_cons in Hl.
  rewrite filter_cons_True by naive_solver. by rewrite IH by tauto.
Qed.

Lemma filter_out (x : nat) (a b : list nat) :
  NoDup (a ++ x :: b) -> filter (fun i => i <> x) (a ++ x :: b) = a ++ b.
Proof.
  intros (_ & Hd & [Hb _]%NoDup_cons)%NoDup_app.
  rewrite filter_app, filter_cons_False by tauto. rewrite !filter_notin; [done..|].
  intros Ha. apply (Hd x Ha). by left.
Qed.

Lemma ldr_rep_NoDup s order : ldr_rep s order -> NoDup order.
Proof.
  intros [_ Hr _ _ _]. destruct (Hr 0%nat ltac:(lia)) as [[_ ND]%NoDup_cons _].
  by apply NoDup_fmap_1 in ND.
Qed.

Lemma ldr_step_rep s order o :
  ldr_rep s order -> op_ok s o ->
  exists s', ldr_step s o = Ret s' /\ ldr_rep s' (order_step order o) /\
    (forall o', op_ok s o' -> op_ok s' o').
Proof.
  intros R Ho. destruct o as [slot|slot]; simpl in Ho |- *.
  - destruct Ho as (m & Hm & Hb & Ht). case_decide as Hin.
    + exists s. split; [|done]. unfold ldr_add_module. rewrite Hm. simpl.
      rewrite (bool_decide_eq_true_2 _ Ht), (rep_ldr _ _ R).
      replace (m_base m =? 0) with false by lia. simpl.
      by rewrite (proj2 (rep_linked _ _ R _ _ Hm) Hin).
    + destruct (ldr_add_module_rep s order slot m) as (s' & E & R' & n & En & ? & ?); try done.
      { destruct (m_ldr_linked m) eqn:E; [|done]. by apply (rep_linked _ _ R _ _ Hm) in E. }
      exists s'. split_and!; [done..|]. intros o'. by eapply op_ok_insert.
  - destruct (decide (slot ∈ order)) as [Hin|Hin].
    + apply list_elem_of_split in Hin as (a & b & ->).
      rewrite filter_out by (by eapply ldr_rep_NoDup).
      destruct (ldr_remove_module_rep s a slot b R) as (s' & E & R' & m & n & Hm & En & ? & ?).
      exists s'. split_and!; [done..|]. intros o'. by eapply op_ok_insert.
    + destruct Ho as [m Hm]. exists s. rewrite (filter_notin slot order Hin).
      split_and!; [|done|done].
      unfold ldr_remove_module. rewrite Hm. simpl.
      destruct (m_ldr_linked m) eqn:E; [|done]. by apply (rep_linked _ _ R _ _ Hm) in E.
Qed.

(** C10: Every sequence of loads and unloads runs without a fault and leaves the
    three lists linking exactly the load order. *)
Theorem ldr_run_refines ops s order :
  ldr_rep s order -> Forall (op_ok s) ops ->
  exists s', ldr_run ops s = Ret s' /\ ldr_rep s' (fold_left order_step ops order).
Proof.
  revert s order. induction ops as [|o ops IH]; intros s order R H; simpl; [by eauto|].
  apply Forall_cons in H as [Ho H].
  destruct (ldr_step_rep s order o R Ho) as (s1 & E & R1 & Hok). rewrite E. simpl.
  apply IH; [done|]. eapply Forall_impl; [exact H|]. apply Hok.
Qed.

Section lookup.
Context {A : Arch}.

Definition covers_slot (r : registry) (addr : Z) (slot : nat) : bool :=
  match modules r !! slot with
  | Some m => entry_covers addr (m_ldr_entry m)
  | None => false
  end.

Lemma ldr_find_loop_spec r addr : forall xs cur fuel,
  seg (reg_links r) cur (nodes 1 xs) (LHead 1) ->
  (forall s, s ∈ xs -> is_Some (modules r !! s)) -> (length xs < fuel)%nat ->
  ldr_find_loop addr r fuel (flink (reg_links r) cur)
  = Ret (snd <$> list_find (fun s => covers_slot r addr s = true) xs).
Proof.
  induction xs as [|s xs IH]; intros cur [|fuel] Hseg Hs Hf; simpl in Hf; try lia.
  - destruct Hseg as [-> _]. done.
  - simpl in Hseg. destruct Hseg as [[Hfl _] Hseg]. rewrite Hfl. simpl.
    destruct (Hs s) as [m Hm]; [by left|]. rewrite Hm. simpl.
    assert (Hc : covers_slot r addr s = entry_covers addr (m_ldr_entry m))
      by (unfold covers_slot; by rewrite Hm).
    rewrite Hc. destruct (entry_covers addr (m_ldr_entry m)).
    + rewrite decide_True by done. done.
    + rewrite decide_False by done.
      pose proof (seg_first _ _ _ _ Hseg) as [(e & He & Hfe)%flink_Some _].
      rewrite He. simpl.
      replace (Flink e) with (flink (reg_links r) (LEntry s 1)) by (unfold flink; by rewrite He).
      rewrite (IH (LEntry s 1) fuel Hseg); [|intros; apply Hs; by right|lia].
      by destruct (list_find _ xs) as [[? ?]|].
Qed.

(** Looking an address up walks the list in load order: the first linked module
    whose LDR entry covers it. *)
Theorem ldr_find_by_addr_spec s order addr :
  ldr_rep s order -> (length order <= 16)%nat -> addr <> 0 ->
  ldr_find_by_addr addr s
  = Ret (snd <$> list_find (fun slot => covers_slot (ls_reg s) addr slot = true) order).
Proof.
  intros [Hl Hr Hm Hs Hn] Hlen Ha. unfold ldr_find_by_addr. rewrite Hl.
  replace (addr =? 0) with false by lia. simpl.
  destruct (Hr 1%nat) as [_ Hseg]; [lia|].
  pose proof (seg_first _ _ _ _ Hseg) as [(e & He & Hfe)%flink_Some _]. rewrite He. simpl.
  replace (Flink e) with (flink (reg_links (ls_reg s)) (LHead 1)) by (unfold flink; by rewrite He).
  apply (ldr_find_loop_spec (ls_reg s) addr order (LHead 1) 17 Hseg); [done|lia].
Qed.
End lookup.

(** ** Witnesses *)

Definition state_or {S : Type} (o : outcome S) (d : S) : S := match o with Ret s => s | _ => d end.

Definition ldr_empty : ldr_state := mkLdrState reg_ab false.
Definition ldr_inited : ldr_state := state_or (init_peb_ldr (A := arch64) false 0 true ldr_empty) ldr_empty.
Lemma reg_ab_unlinked slot m : modules reg_ab !! slot = Some m -> m_ldr_linked m = false.
Proof.
  intros H. apply (list_elem_of_lookup_2 _ _ _) in H.
  assert (F : forallb (fun m => negb (m_ldr_linked m)) (modules reg_ab) = true) by reflexivity.
  rewrite forallb_forall in F. apply list_elem_of_In in H. specialize (F m H).
  by destruct (m_ldr_linked m).
Qed.

Lemma reg_ab_nodes slot k :
  is_Some (modules reg_ab !! slot) -> (k < 3)%nat -> is_Some (reg_links reg_ab !! LEntry slot k).
Proof.
  intros H%lookup_lt_is_Some Hk. replace (length (modules reg_ab)) with 16%nat in H by reflexivity.
  assert (F : forallb (fun s => forallb (fun k => bool_decide (is_Some (reg_links reg_ab !! LEntry s k)))
    (seq 0 3)) (seq 0 16) = true) by (vm_compute; reflexivity).
  rewrite forallb_forall in F. specialize (F slot). rewrite in_seq in F. specialize (F ltac:(lia)).
  rewrite forallb_forall in F. specialize (F k). rewrite in_seq in F.
  eapply bool_decide_eq_true_1. apply F. lia.
Qed.

Lemma ldr_inited_rep : ldr_rep ldr_inited [].
Proof.
  destruct (init_peb_ldr_rep (A := arch64) false 0 true ldr_empty eq_refl reg_ab_unlinked reg_ab_nodes) as (s' & E & H).
  unfold ldr_inited. rewrite E. exact H.
Qed.

Definition sample_ops : list ldr_op := [LdrAdd 0; LdrAdd 1; LdrRemove 0; LdrAdd 0].

Lemma sample_ops_ok : Forall (op_ok ldr_inited) sample_ops.
Proof.
  repeat apply Forall_cons_2; simpl;
    try (eexists; split; [reflexivity|split; [discriminate|eexists; reflexivity]]).
  - eexists; reflexivity.
  - apply Forall_nil_2.
Qed.

Lemma ldr_run_refines_witness :
  exists s', ldr_run sample_ops ldr_inited = Ret s' /\ ldr_rep s' [1%nat; 0%nat].
Proof. exact (ldr_run_refines sample_ops ldr_inited [] ldr_inited_rep sample_ops_ok). Defined.

Lemma ldr_find_by_addr_spec_witness :
  exists s', ldr_step ldr_inited (LdrAdd 1) = Ret s' /\
    @ldr_find_by_addr arch64 0x60010010 s' = Ret (Some 1%nat).
Proof.
  destruct (ldr_step_rep ldr_inited [] (LdrAdd 1) ldr_inited_rep) as (s' & E & R & _).
  { eexists; split; [reflexivity|split; [discriminate|eexists; reflexivity]]. }
  exists s'. split; [done|].
  rewrite (@ldr_find_by_addr_spec arch64 s' [1%nat] 0x60010010 R); [|simpl; lia|discriminate].
  replace s' with (state_or (ldr_step ldr_inited (LdrAdd 1)) ldr_inited) by (by rewrite E).
  vm_compute. reflexivity.
Defined.
