(* ===== verification/ExportTable.v ===== *)
(** * Export tables (src/loader/export_table.c)

    The cache of a module's export directory, the binary search by name and
    the lookup by ordinal.  Pointers into the mapped image are offsets from its
    base; the image has the size its headers declare. *)
From S2P Require Import Prelude Bytes CStr PeStructs TestImages PePriv ModuleList.


(** The loop over off = rva, ..., image_size - 1. *)
Fixpoint image_cstr_loop (img : bytes) (todo : nat) (off : Z) : outcome bool :=
  match todo with
  | O => Ret false
  | S todo =>
      c ← load 1 off img;
      if c =? 0 then Ret true else image_cstr_loop img todo (off + 1)
  end.

Definition image_cstr_valid (mod_ : loaded_module_t) (img : bytes) (rva : Z) : outcome bool :=
  match m_nt mod_ with
  | None => Ret false
  | Some nt =>
      let image_size := pe_size_of_image nt in
      if negb (pe_rva_range_is_valid rva 1 image_size) then Ret false
      else image_cstr_loop img (Z.to_nat (image_size - rva)) rva
  end.

(** One of the three array copies: [None] when the source range is not in the
    image. *)
Definition copy_table (mod_ : loaded_module_t) (nt : IMAGE_NT_HEADERS) (img : bytes)
    (rva : Z) (width count : Z) : outcome (option (list Z)) :=
  if (0 <? count) && negb (rva =? 0) then
    match pe_rva_to_ptr (m_base mod_) nt rva (count * width) with
    | None => Ret None
    | Some src =>
        b ← load_bytes src (count * width) img;
        Ret (Some (flds 0 width (Z.to_nat count) b))
    end
  else Ret (Some []).

(** The return value and the new contents of the module's cache. *)
Definition parse_export_table (mod_ : loaded_module_t) (img : bytes) : outcome (Z * EXPORT_CACHE) :=
  let keep := m_export_cache mod_ in
  match m_nt mod_ with
  | None => Ret (-1, keep)
  | Some nt =>
      if m_base mod_ =? 0 then Ret (-1, keep)
      else
        match pe_get_data_dir nt IMAGE_DIRECTORY_ENTRY_EXPORT with
        | Fault => Fault
        | Fail => Ret (-1, keep)
        | Ret dir =>
            if dd_VirtualAddress dir =? 0 then Ret (-1, keep)
            else if dd_Size dir <? sizeof_IMAGE_EXPORT_DIRECTORY then Ret (-1, keep)
            else
              match pe_rva_to_ptr (m_base mod_) nt (dd_VirtualAddress dir)
                      sizeof_IMAGE_EXPORT_DIRECTORY with
              | None => Ret (-1, keep)
              | Some p =>
                  b ← load_bytes p sizeof_IMAGE_EXPORT_DIRECTORY img;
                  let exp := decode_IMAGE_EXPORT_DIRECTORY b in
                  let number_of_names := Z.min (exp_NumberOfNames exp) MAX_EXPORT_NAMES in
                  let number_of_functions :=
                    Z.min (exp_NumberOfFunctions exp) MAX_EXPORT_FUNCTIONS in
                  if ((0 <? number_of_names) &&
                      ((exp_AddressOfNames exp =? 0) || (exp_AddressOfNameOrdinals exp =? 0))) ||
                     ((0 <? number_of_functions) && (exp_AddressOfFunctions exp =? 0))
                  then Ret (-1, zero_cache)
                  else
                    names ← copy_table mod_ nt img (exp_AddressOfNames exp) 4 number_of_names;
                    match names with
                    | None => Ret (-1, zero_cache)
                    | Some names =>
                        ords ← copy_table mod_ nt img (exp_AddressOfNameOrdinals exp) 2
                                 number_of_names;
                        match ords with
                        | None => Ret (-1, zero_cache)
                        | Some ords =>
                            funcs ← copy_table mod_ nt img (exp_AddressOfFunctions exp) 4
                                      number_of_functions;
                            match funcs with
                            | None => Ret (-1, zero_cache)
                            | Some funcs =>
                                Ret (0, mkCache (m_base mod_) (dd_VirtualAddress dir) (dd_Size dir)
                                          (exp_AddressOfFunctions exp) (exp_AddressOfNames exp)
                                          (exp_AddressOfNameOrdinals exp) number_of_functions
                                          number_of_names (exp_Base exp) names ords funcs)
                            end
                        end
                    end
              end
        end
  end.

Definition check_forwarder (cache : EXPORT_CACHE) (func_rva : Z) : bool :=
  if u32 (UINT32_MAX - export_dir_rva cache) <? export_dir_size cache then false
  else
    let export_end := u32 (export_dir_rva cache + export_dir_size cache) in
    (export_dir_rva cache <=? func_rva) && (func_rva <? export_end).

(** pe_rva_to_ptr on the possibly absent headers of a module. *)
Definition module_rva_to_ptr (mod_ : loaded_module_t) (rva len : Z) : option Z :=
  match m_nt mod_ with
  | None => None
  | Some nt => pe_rva_to_ptr (m_base mod_) nt rva len
  end.

(** The match at index [mid]: through the ordinal table to the function table. *)
Definition resolve_named (mod_ : loaded_module_t) (mid : Z) : outcome (option Z) :=
  let cache := m_export_cache mod_ in
  ordinal ← deref (ordinal_table cache !! Z.to_nat mid);
  if (number_of_functions cache =? 0) || (number_of_functions cache <=? ordinal) then Ret None
  else
    func_rva ← deref (func_table cache !! Z.to_nat ordinal);
    if check_forwarder cache func_rva then Ret None
    else Ret (module_rva_to_ptr mod_ func_rva 1).

Fixpoint lookup_export_loop (mod_ : loaded_module_t) (img : bytes) (func_name : cstr)
    (fuel : nat) (lo hi : Z) : outcome (option Z) :=
  match fuel with
  | O => Fault
  | S fuel =>
      if lo <? hi then
        let mid := u32 (lo + (hi - lo) / 2) in
        name_rva ← deref (name_table (m_export_cache mod_) !! Z.to_nat mid);
        valid ← image_cstr_valid mod_ img name_rva;
        if negb valid then Ret None
        else
          p ← deref (module_rva_to_ptr mod_ name_rva 1);
          name ← deref (cstr_at p img);
          let cmp := syscall_safe_strcmp func_name name in
          if cmp <? 0 then lookup_export_loop mod_ img func_name fuel lo mid
          else if 0 <? cmp then lookup_export_loop mod_ img func_name fuel (u32 (mid + 1)) hi
          else resolve_named mod_ mid
      else Ret None
  end.

(** The search interval shrinks in every iteration. *)
Definition lookup_export (mod_ : loaded_module_t) (img : bytes) (func_name : cstr)
  : outcome (option Z) :=
  let n := number_of_names (m_export_cache mod_) in
  if n =? 0 then Ret None
  else lookup_export_loop mod_ img func_name (S (Z.to_nat n)) 0 n.

Definition lookup_export_by_ordinal (mod_ : loaded_module_t) (ordinal : Z) : outcome (option Z) :=
  let cache := m_export_cache mod_ in
  if number_of_functions cache =? 0 then Ret None
  else
    let idx := u32 (ordinal - base_ordinal cache) in
    if number_of_functions cache <=? idx then Ret None
    else
      func_rva ← deref (func_table cache !! Z.to_nat idx);
      if check_forwarder cache func_rva then Ret None
      else Ret (module_rva_to_ptr mod_ func_rva 1).

Definition with_cache (c : EXPORT_CACHE) (m : loaded_module_t) : loaded_module_t :=
  mkModule (m_base m) (m_name m) (m_nt m) c (m_ldr_entry m) (m_load_count m) (m_ldr_linked m)
    (m_dllmain_called m).
Definition reset_export_cache (m : loaded_module_t) : loaded_module_t := with_cache zero_cache m.

(** ** Names in the image *)

(** The module's image: its bytes, as long as SizeOfImage. *)
Record image_of (m : loaded_module_t) (img : bytes) : Prop := {
  io_base : m_base m <> 0;
  io_bytes : wf_bytes img;
  io_nt : exists nt, m_nt m = Some nt /\ wf_IMAGE_NT_HEADERS nt /\ blen img = pe_size_of_image nt
}.

Lemma load1_cons off img c rest :
  0 <= off -> drop (Z.to_nat off) img = c :: rest -> load 1 off img = Ret c.
Proof.
  intros Ho Hd. assert (L : (length (drop (Z.to_nat off) img) = S (length rest))%nat) by by rewrite Hd.
  rewrite length_drop in L. rewrite load_ok by (apply in_range_spec; unfold blen; lia).
  unfold slice. rewrite Hd. simpl. f_equal. lia.
Qed.

Lemma image_cstr_loop_spec img todo off :
  0 <= off -> off + Z.of_nat todo = blen img ->
  image_cstr_loop img todo off = Ret (bool_decide (is_Some (cstr_at off img))).
Proof.
  unfold cstr_at. revert off. induction todo as [|todo IH]; intros off H0 H; simpl.
  - rewrite drop_ge by (unfold blen in H; lia). done.
  - destruct (drop (Z.to_nat off) img) as [|c rest] eqn:E.
    { apply (f_equal length) in E. rewrite length_drop in E. simpl in E. unfold blen in H. lia. }
    rewrite (load1_cons off img c rest H0 E). simpl. destruct (c =? 0) eqn:Ec; [done|].
    rewrite IH by lia. replace (Z.to_nat (off + 1)) with (S (Z.to_nat off)) by lia.
    rewrite <- (Nat.add_1_r (Z.to_nat off)), <- drop_drop, E. simpl. rewrite drop_0.
    f_equal. apply bool_decide_ext. by rewrite fmap_is_Some.
Qed.

(** The string at an RVA of the image. *)
Lemma image_cstr_valid_spec m img rva :
  image_of m img -> 0 <= rva ->
  image_cstr_valid m img rva = Ret (bool_decide (is_Some (cstr_at rva img))) /\
  (is_Some (cstr_at rva img) -> module_rva_to_ptr m rva 1 = Some rva).
Proof.
  intros [Hb Hw (nt & Hn & Hwn & Hs)] Hr. unfold image_cstr_valid, module_rva_to_ptr. rewrite Hn.
  destruct (pe_rva_range_is_valid rva 1 (pe_size_of_image nt)) eqn:E; simpl.
  - apply rva_range_valid_spec in E; [|lia..]. rewrite image_cstr_loop_spec by lia.
    split; [done|]. intros _. apply pe_rva_to_ptr_Some; lia.
  - assert (Hnone : cstr_at rva img = None).
    { unfold cstr_at. rewrite drop_ge; [done|].
      destruct (decide (rva + 1 <= pe_size_of_image nt)) as [Hle|Hle].
      - apply rva_range_valid_spec in Hle; [congruence|lia..].
      - unfold blen in Hs. lia. }
    rewrite Hnone. split; [by rewrite bool_decide_eq_false_2 by by intros []|by intros []].
Qed.

(** ** The cache *)

Record cache_wf (c : EXPORT_CACHE) : Prop := {
  cw_names : 0 <= number_of_names c <= MAX_EXPORT_NAMES;
  cw_funcs : 0 <= number_of_functions c <= MAX_EXPORT_FUNCTIONS;
  cw_base : in_u 32 (base_ordinal c);
  cw_dir : in_u 32 (export_dir_rva c) /\ in_u 32 (export_dir_size c);
  cw_name_table : length (name_table c) = Z.to_nat (number_of_names c) /\
                  Forall (in_u 32) (name_table c);
  cw_ordinal_table : length (ordinal_table c) = Z.to_nat (number_of_names c) /\
                     Forall (in_u 16) (ordinal_table c);
  cw_func_table : length (func_table c) = Z.to_nat (number_of_functions c) /\
                  Forall (in_u 32) (func_table c)
}.

Lemma zero_cache_wf : cache_wf zero_cache.
Proof. split; simpl; repeat split; try constructor; unfold in_u, MAX_EXPORT_NAMES, MAX_EXPORT_FUNCTIONS; lia. Qed.

(** A table copied from the image: [count] entries, read at [rva]. *)
Lemma copy_table_spec m nt img rva width count r :
  wf_bytes img -> blen img = pe_size_of_image nt -> 0 <= rva -> 0 <= count -> 0 <= width ->
  (0 < count -> rva <> 0) ->
  copy_table m nt img rva width count = Ret (Some r) ->
  length r = Z.to_nat count /\ Forall (in_u (8 * width)) r /\
  r = flds rva width (Z.to_nat count) img.
Proof.
  intros Hw Hs Hr Hc Hwd Hz H. unfold copy_table in H.
  destruct (0 <? count) eqn:E; simpl in H.
  - rewrite (proj2 (Z.eqb_neq rva 0)) in H by lia. simpl in H.
    destruct (pe_rva_to_ptr _ _ _ _) as [src|] eqn:Ep; [|done].
    apply pe_rva_to_ptr_Some in Ep as (_ & -> & Hle); [|lia..].
    rewrite load_bytes_ok in H by (apply in_range_spec; lia). simpl in H. injection H as <-.
    pose proof (flds_wf 0 width (Z.to_nat count) (slice rva (count * width) img)
      (wf_slice _ _ _ Hw) Hwd) as [L F]. split; [done|]. split; [done|].
    unfold flds. apply map_ext_in. intros i Hi%in_seq. unfold fld. f_equal. unfold slice.
    apply list_eq. intros k. destruct (decide (k < Z.to_nat width)%nat).
    + rewrite !lookup_take_lt, !lookup_drop by done. rewrite lookup_take_lt by nia.
      rewrite lookup_drop. f_equal. nia.
    + by rewrite !lookup_take_ge by lia.
  - injection H as <-. replace (Z.to_nat count) with 0%nat by lia. split_and!; constructor || done.
Qed.

Lemma copy_table_total m nt img rva width count :
  blen img = pe_size_of_image nt -> 0 <= rva -> 0 <= width ->
  exists r, copy_table m nt img rva width count = Ret r.
Proof.
  intros Hs Hr Hw. unfold copy_table. destruct (_ && _) eqn:E; [|by eauto].
  destruct (pe_rva_to_ptr _ _ _ _) as [src|] eqn:Ep; [|by eauto].
  apply pe_rva_to_ptr_Some in Ep as (_ & -> & Hle); [|nia..].
  rewrite load_bytes_ok by (apply in_range_spec; nia). simpl. eauto.
Qed.

(** What a successful parse stores: the directory's fields and the three tables,
    cut at the capacity of the cache. *)
Definition export_cache_of (base : Z) (dir : IMAGE_DATA_DIRECTORY) (img : bytes) : EXPORT_CACHE :=
  let exp := decode_IMAGE_EXPORT_DIRECTORY (slice (dd_VirtualAddress dir) 40 img) in
  let nn := Z.min (exp_NumberOfNames exp) MAX_EXPORT_NAMES in
  let nf := Z.min (exp_NumberOfFunctions exp) MAX_EXPORT_FUNCTIONS in
  mkCache base (dd_VirtualAddress dir) (dd_Size dir)
    (exp_AddressOfFunctions exp) (exp_AddressOfNames exp) (exp_AddressOfNameOrdinals exp)
    nf nn (exp_Base exp)
    (flds (exp_AddressOfNames exp) 4 (Z.to_nat nn) img)
    (flds (exp_AddressOfNameOrdinals exp) 2 (Z.to_nat nn) img)
    (flds (exp_AddressOfFunctions exp) 4 (Z.to_nat nf) img).

Lemma parse_export_table_content m img c :
  image_of m img -> parse_export_table m img = Ret (0, c) ->
  exists nt dir, m_nt m = Some nt /\ pe_get_data_dir nt IMAGE_DIRECTORY_ENTRY_EXPORT = Ret dir /\
    c = export_cache_of (m_base m) dir img /\ cache_wf c.
Proof.
  intros [Hb Hw (nt & Hn & Hwn & Hs)] H. unfold parse_export_table in H. rewrite Hn in H.
  destruct (m_base m =? 0); [done|].
  destruct (pe_get_data_dir_cases nt IMAGE_DIRECTORY_ENTRY_EXPORT Hwn) as [Hd|(dir & Hd & _ & Hwd)];
    [unfold IMAGE_DIRECTORY_ENTRY_EXPORT; lia|by rewrite Hd in H|].
  rewrite Hd in H. exists nt, dir. do 2 (split; [done|]). destruct Hwd as [Hva Hsz].
  do 2 (case_hyp H; [done|]).
  destruct (pe_rva_to_ptr _ _ _ _) as [p|] eqn:Ep; [|done].
  apply pe_rva_to_ptr_Some in Ep as (_ & -> & Hle); [|unfold in_u in Hva; lia|done].
  rewrite load_bytes_ok in H
    by (apply in_range_spec; unfold in_u, sizeof_IMAGE_EXPORT_DIRECTORY in *; lia).
  cbn [mbind outcome_bind] in H. unfold sizeof_IMAGE_EXPORT_DIRECTORY in H.
  unfold export_cache_of. set (exp := decode_IMAGE_EXPORT_DIRECTORY _) in *.
  destruct (wf_decode_IMAGE_EXPORT_DIRECTORY (slice (dd_VirtualAddress dir) 40 img)
    (wf_slice _ _ _ Hw)) as (_ & _ & _ & _ & _ & HB & HF & HN & HaF & HaN & HaO). fold exp in HB, HF, HN, HaF, HaN, HaO.
  set (nn := Z.min (exp_NumberOfNames exp) _) in *.
  set (nf := Z.min (exp_NumberOfFunctions exp) _) in *.
  assert (0 <= nn <= MAX_EXPORT_NAMES) by (unfold nn, in_u, MAX_EXPORT_NAMES in *; lia).
  assert (0 <= nf <= MAX_EXPORT_FUNCTIONS) by (unfold nf, in_u, MAX_EXPORT_FUNCTIONS in *; lia).
  case_hyp H; [done|]. apply bind_Ret in H as (names & T1 & H). destruct names as [names|]; [|done].
  apply bind_Ret in H as (ords & T2 & H). destruct ords as [ords|]; [|done].
  apply bind_Ret in H as (funcs & T3 & H). destruct funcs as [funcs|]; [|done].
  unfold in_u in *.
  apply copy_table_spec in T1 as (L1 & F1 & ->); [|done || lia..].
  apply copy_table_spec in T2 as (L2 & F2 & ->); [|done || lia..].
  apply copy_table_spec in T3 as (L3 & F3 & ->); [|done || lia..].
  injection H as <-. split; [done|].
  split; cbn [number_of_names number_of_functions base_ordinal export_dir_rva export_dir_size
    name_table ordinal_table func_table]; unfold in_u; split_and?; first [done|lia|apply HB].
Qed.

Lemma parse_export_table_total m img :
  image_of m img -> exists rc c, parse_export_table m img = Ret (rc, c).
Proof.
  intros [Hb Hw (nt & Hn & Hwn & Hs)]. unfold parse_export_table. rewrite Hn.
  destruct (m_base m =? 0); [by eauto|].
  destruct (pe_get_data_dir_cases nt IMAGE_DIRECTORY_ENTRY_EXPORT Hwn) as [Hd|(dir & Hd & _ & Hva & _)];
    [unfold IMAGE_DIRECTORY_ENTRY_EXPORT; lia|rewrite Hd; by eauto|].
  rewrite Hd. do 2 (case_goal; [by eauto|]).
  destruct (pe_rva_to_ptr _ _ _ _) as [p|] eqn:Ep; [|by eauto].
  apply pe_rva_to_ptr_Some in Ep as (_ & -> & Hle); [|unfold in_u in Hva; lia|done].
  rewrite load_bytes_ok
    by (apply in_range_spec; unfold in_u, sizeof_IMAGE_EXPORT_DIRECTORY in *; lia).
  cbn [mbind outcome_bind].
  destruct (wf_decode_IMAGE_EXPORT_DIRECTORY (slice (dd_VirtualAddress dir) sizeof_IMAGE_EXPORT_DIRECTORY img)
    (wf_slice _ _ _ Hw)) as (_ & _ & _ & _ & _ & _ & _ & _ & HaF & HaN & HaO). unfold in_u in *.
  set (exp := decode_IMAGE_EXPORT_DIRECTORY _) in *.
  case_goal; [by eauto|].
  destruct (copy_table_total m nt img _ 4
    (Z.min (exp_NumberOfNames exp) MAX_EXPORT_NAMES) Hs (proj1 HaN) ltac:(lia)) as [[n|] ->];
    cbn [mbind outcome_bind]; [|by eauto].
  destruct (copy_table_total m nt img _ 2
    (Z.min (exp_NumberOfNames exp) MAX_EXPORT_NAMES) Hs (proj1 HaO) ltac:(lia)) as [[o|] ->];
    cbn [mbind outcome_bind]; [|by eauto].
  destruct (copy_table_total m nt img _ 4
    (Z.min (exp_NumberOfFunctions exp) MAX_EXPORT_FUNCTIONS) Hs (proj1 HaF) ltac:(lia)) as [[f|] ->];
    cbn [mbind outcome_bind]; by eauto.
Qed.

(** ** Lookup *)

(** The strings of the name table. *)
Definition names_of (img : bytes) (c : EXPORT_CACHE) (names : list cstr) : Prop :=
  Forall2 (fun rva name => cstr_at rva img = Some name) (name_table c) names.

Definition sorted_names (names : list cstr) : Prop :=
  forall i j a b, (i < j)%nat -> names !! i = Some a -> names !! j = Some b ->
    syscall_safe_strcmp a b < 0.

(** The function a name at index [i] stands for: its RVA, unless the ordinal is
    out of range, the function is forwarded or its RVA is outside the image. *)
Definition export_target (m : loaded_module_t) (i : nat) : option Z :=
  let c := m_export_cache m in
  ord ← ordinal_table c !! i;
  rva ← func_table c !! Z.to_nat ord;
  if check_forwarder c rva then None else module_rva_to_ptr m rva 1.

Lemma resolve_named_target m mid :
  cache_wf (m_export_cache m) -> 0 <= mid < number_of_names (m_export_cache m) ->
  resolve_named m mid = Ret (export_target m (Z.to_nat mid)).
Proof.
  intros [_ Hf _ _ _ [LO FO] [LF FF]] Hm. unfold resolve_named, export_target.
  destruct (lookup_lt_is_Some_2 (ordinal_table (m_export_cache m)) (Z.to_nat mid)) as [ord Ho]; [lia|].
  rewrite Ho. simpl. pose proof (Forall_lookup_1 _ _ _ _ FO Ho) as Hr. unfold in_u in Hr.
  destruct (_ || _) eqn:E.
  - rewrite lookup_ge_None_2 by lia. done.
  - destruct (lookup_lt_is_Some_2 (func_table (m_export_cache m)) (Z.to_nat ord)) as [rva Hrva]; [lia|].
    rewrite Hrva. simpl. by destruct (check_forwarder _ _).
Qed.

(** One probe reads the name at [mid]. *)
Lemma names_of_lookup m img names mid :
  image_of m img -> cache_wf (m_export_cache m) -> names_of img (m_export_cache m) names ->
  0 <= mid < number_of_names (m_export_cache m) ->
  exists rva name, name_table (m_export_cache m) !! Z.to_nat mid = Some rva /\
    names !! Z.to_nat mid = Some name /\ cstr_at rva img = Some name /\
    image_cstr_valid m img rva = Ret true /\ module_rva_to_ptr m rva 1 = Some rva /\ wf_cstr name.
Proof.
  intros Hi [_ _ _ _ [LN FN] _ _] Hn Hm.
  destruct (lookup_lt_is_Some_2 (name_table (m_export_cache m)) (Z.to_nat mid)) as [rva Hr]; [lia|].
  destruct (Forall2_lookup_l _ _ _ _ _ Hn Hr) as (name & Hl & Hc).
  pose proof (Forall_lookup_1 _ _ _ _ FN Hr) as Hu. unfold in_u in Hu.
  destruct (image_cstr_valid_spec m img rva Hi) as [Hv Hp]; [lia|].
  exists rva, name. rewrite Hc in *. split_and!; [done..|apply Hp; eauto|].
  unfold cstr_at in Hc. apply cstr_from_Some in Hc as [? _]; [done|].
  apply Forall_drop, Hi.
Qed.

(** The binary search: names below [lo] are smaller and names from [hi] on are
    larger than the one looked for. *)
Lemma lookup_export_loop_correct m img names func :
  image_of m img -> cache_wf (m_export_cache m) -> names_of img (m_export_cache m) names ->
  sorted_names names -> wf_cstr func ->
  forall fuel lo hi, 0 <= lo <= hi -> hi <= number_of_names (m_export_cache m) -> hi - lo < Z.of_nat fuel ->
  (forall i a, names !! i = Some a -> Z.of_nat i < lo -> a <> func) ->
  (forall i a, names !! i = Some a -> hi <= Z.of_nat i -> a <> func) ->
  (exists i, names !! i = Some func /\
     lookup_export_loop m img func fuel lo hi = Ret (export_target m i)) \/
  ((func ∉ names) /\ lookup_export_loop m img func fuel lo hi = Ret None).
Proof.
  intros Hi Hw Hn Hs Hf. pose proof (cw_names _ Hw) as Hmax. unfold MAX_EXPORT_NAMES in Hmax.
  induction fuel as [|fuel IH]; intros lo hi H0 H1 Hfu Hlo Hhi; [lia|cbn [lookup_export_loop]].
  destruct (lo <? hi) eqn:Elh.
  2: { right. split; [|done]. intros [i Hx]%list_elem_of_lookup.
       destruct (decide (Z.of_nat i < lo)); [by eapply Hlo|]. eapply Hhi; [done| |done]. lia. }
  assert (Hmid : lo <= lo + (hi - lo) / 2 < hi) by width_lia.
  rewrite (wrap_small 32 (lo + (hi - lo) / 2)) by lia.
  set (mid := lo + (hi - lo) / 2) in *. cbn zeta.
  destruct (names_of_lookup m img names mid Hi Hw Hn ltac:(lia))
    as (rva & name & Hr & Hl & Hc & Hv & Hp & Hwn).
  rewrite Hr. cbn [deref mbind outcome_bind]. rewrite Hv. cbn [mbind outcome_bind negb].
  rewrite Hp. cbn [deref mbind outcome_bind]. rewrite Hc. cbn [deref mbind outcome_bind].
  destruct (syscall_safe_strcmp func name <? 0) eqn:E1;
    [|destruct (0 <? syscall_safe_strcmp func name) eqn:E2].
  - apply IH; [lia..|done|]. intros i a Ha Hge ->.
    destruct (decide (i = Z.to_nat mid)) as [->|].
    + rewrite Hl in Ha. injection Ha as ->. rewrite strcmp_refl in E1. lia.
    + pose proof (Hs (Z.to_nat mid) i name func ltac:(lia) Hl Ha). rewrite strcmp_antisym in E1. lia.
  - rewrite wrap_small by lia. apply IH; [lia..| |done]. intros i a Ha Hlt ->.
    destruct (decide (i = Z.to_nat mid)) as [->|].
    + rewrite Hl in Ha. injection Ha as ->. rewrite strcmp_refl in E2. lia.
    + pose proof (Hs i (Z.to_nat mid) func name ltac:(lia) Ha Hl). lia.
  - left. exists (Z.to_nat mid). rewrite (strcmp_eq func name Hf Hwn) by lia.
    split; [done|]. apply resolve_named_target; [done|]. lia.
Qed.

(** On a sorted name table the binary search finds exactly the exported names. *)
Lemma lookup_export_spec m img c names func :
  image_of m img -> parse_export_table m img = Ret (0, c) ->
  names_of img c names -> sorted_names names -> wf_cstr func ->
  let m' := with_cache c m in
  (func ∉ names -> lookup_export m' img func = Ret None) /\
  (forall i, names !! i = Some func -> lookup_export m' img func = Ret (export_target m' i)).
Proof.
  intros Hi Hp Hn Hs Hf m'.
  destruct (parse_export_table_content m img c Hi Hp) as (nt & dir & Hnt & _ & _ & Hw).
  assert (Hi' : image_of m' img) by (destruct Hi; by split).
  assert (Hinj : forall i j a, names !! i = Some a -> names !! j = Some a -> i = j).
  { intros i j a H1 H2. destruct (decide (i < j)%nat).
    - pose proof (Hs i j a a ltac:(lia) H1 H2). rewrite strcmp_refl in *. lia.
    - destruct (decide (j < i)%nat); [|lia].
      pose proof (Hs j i a a ltac:(lia) H2 H1). rewrite strcmp_refl in *. lia. }
  pose proof (cw_names _ Hw) as Hmax. pose proof (cw_name_table _ Hw) as [LN _].
  pose proof (Forall2_length _ _ _ Hn) as LN'.
  unfold lookup_export. simpl. destruct (Z.eqb_spec (number_of_names c) 0) as [E0|E0].
  { replace names with (@nil cstr) in * by (destruct names; [done|simpl in LN'; lia]). done. }
  destruct (lookup_export_loop_correct m' img names func Hi' Hw Hn Hs Hf
    (S (Z.to_nat (number_of_names c))) 0 (number_of_names c)) as [(i & Hx & E)|(Hx & E)];
    simpl in *; try lia.
  - intros i a Ha Hge ->. apply lookup_lt_Some in Ha. lia.
  - rewrite E. split; [intros []; by apply list_elem_of_lookup; eauto|].
    intros j Hj. by rewrite (Hinj i j func Hx Hj).
  - rewrite E. split; [done|]. intros i Hx'. destruct Hx. by eapply list_elem_of_lookup_2.
Qed.

(** C5: Lookup by name on a sorted name table finds exactly the exported names. *)
Theorem lookup_export_correct m img c names func :
  image_of m img -> parse_export_table m img = Ret (0, c) ->
  names_of img c names -> sorted_names names -> wf_cstr func ->
  let m' := with_cache c m in
  (func ∉ names -> lookup_export m' img func = Ret None) /\
  (forall i, names !! i = Some func -> lookup_export m' img func = Ret (export_target m' i)).
Proof. apply lookup_export_spec. Qed.

(** Lookup by ordinal reads the function table at the ordinal minus the base. *)
Lemma lookup_export_by_ordinal_target m ordinal :
  cache_wf (m_export_cache m) -> in_u 16 ordinal ->
  base_ordinal (m_export_cache m) < 2 ^ 16 ->
  let c := m_export_cache m in
  lookup_export_by_ordinal m ordinal = Ret (
    rva ← (if base_ordinal c <=? ordinal
           then func_table c !! Z.to_nat (ordinal - base_ordinal c) else None);
    if check_forwarder c rva then None else module_rva_to_ptr m rva 1).
Proof.
  intros [_ Hf Hb _ _ _ [LF FF]] Ho Hb'. unfold lookup_export_by_ordinal. cbn zeta.
  set (c := m_export_cache m) in *.
  unfold in_u, MAX_EXPORT_FUNCTIONS in *.
  destruct (Z.eqb_spec (number_of_functions c) 0) as [E0|E0].
  { destruct (_ <=? _); [|done]. rewrite lookup_ge_None_2 by lia. done. }
  destruct (base_ordinal c <=? ordinal) eqn:E.
  - rewrite wrap_small by lia. destruct (number_of_functions c <=? _) eqn:El.
    + rewrite lookup_ge_None_2 by lia. done.
    + destruct (lookup_lt_is_Some_2 (func_table c) (Z.to_nat (ordinal - base_ordinal c)))
        as [rva Hr]; [lia|]. rewrite Hr. simpl. by destruct (check_forwarder _ _).
  - rewrite (proj2 (Z.leb_le _ _)); [done|]. width_lia.
Qed.

(** ** Safety on arbitrary images *)

Lemma resolve_named_in_image m mid :
  cache_wf (m_export_cache m) -> 0 <= mid < number_of_names (m_export_cache m) ->
  exists r, resolve_named m mid = Ret r /\
    forall p, r = Some p -> exists nt, m_nt m = Some nt /\ 0 <= p < pe_size_of_image nt.
Proof.
  intros Hw Hm. rewrite (resolve_named_target m mid Hw Hm). eexists. split; [done|].
  intros p Hp. unfold export_target in Hp.
  apply bind_Some in Hp as (ord & Ho & Hp). apply bind_Some in Hp as (rva & Hr & Hp).
  pose proof (Forall_lookup_1 _ _ _ _ (proj2 (cw_func_table _ Hw)) Hr) as Hu. unfold in_u in Hu.
  destruct (check_forwarder _ _); [done|]. unfold module_rva_to_ptr in Hp.
  destruct (m_nt m) as [nt|]; [|done]. exists nt. split; [done|].
  apply pe_rva_to_ptr_Some in Hp; lia.
Qed.

Lemma lookup_export_loop_safe m img func :
  image_of m img -> cache_wf (m_export_cache m) ->
  forall fuel lo hi, 0 <= lo <= hi -> hi <= number_of_names (m_export_cache m) ->
  hi - lo < Z.of_nat fuel ->
  exists r, lookup_export_loop m img func fuel lo hi = Ret r /\
    forall p, r = Some p -> exists nt, m_nt m = Some nt /\ 0 <= p < pe_size_of_image nt.
Proof.
  intros Hi Hw. pose proof (cw_names _ Hw) as Hmax. unfold MAX_EXPORT_NAMES in Hmax.
  pose proof (cw_name_table _ Hw) as [LN FN].
  induction fuel as [|fuel IH]; intros lo hi H0 H1 Hfu; [lia|cbn [lookup_export_loop]].
  destruct (lo <? hi) eqn:Elh; [|by exists None].
  assert (Hmid : lo <= lo + (hi - lo) / 2 < hi) by width_lia.
  rewrite (wrap_small 32 (lo + (hi - lo) / 2)) by lia.
  set (mid := lo + (hi - lo) / 2) in *. cbn zeta.
  destruct (lookup_lt_is_Some_2 (name_table (m_export_cache m)) (Z.to_nat mid)) as [rva Hr]; [lia|].
  rewrite Hr. cbn [deref mbind outcome_bind].
  pose proof (Forall_lookup_1 _ _ _ _ FN Hr) as Hu. unfold in_u in Hu.
  destruct (image_cstr_valid_spec m img rva Hi) as [Hv Hp]; [lia|]. rewrite Hv.
  cbn [deref mbind outcome_bind].
  destruct (cstr_at rva img) as [name|] eqn:Hc; [|by exists None].
  rewrite bool_decide_eq_true_2, Hp by eauto. cbn [negb deref mbind outcome_bind].
  rewrite Hc. cbn [deref mbind outcome_bind].
  destruct (syscall_safe_strcmp func name <? 0); [apply IH; lia|].
  destruct (0 <? syscall_safe_strcmp func name); [rewrite wrap_small by lia; apply IH; lia|].
  apply resolve_named_in_image; [done|]. lia.
Qed.

(** Parsing and searching the exports of any image, whatever its bytes, reads
    only the image and the tables, terminates, and returns NULL or an address
    inside the image. *)
Theorem export_lookup_safe m img func :
  image_of m img ->
  exists rc c, parse_export_table m img = Ret (rc, c) /\
    (rc = 0 -> exists r, lookup_export (with_cache c m) img func = Ret r /\
       forall p, r = Some p -> exists nt, m_nt m = Some nt /\ 0 <= p < pe_size_of_image nt).
Proof.
  intros Hi. destruct (parse_export_table_total m img Hi) as (rc & c & Hp).
  exists rc, c. split; [done|]. intros ->.
  destruct (parse_export_table_content m img c Hi Hp) as (nt & dir & Hnt & _ & _ & Hw).
  unfold lookup_export. cbn [with_cache m_export_cache].
  destruct (Z.eqb_spec (number_of_names c) 0); [by exists None|]. pose proof (cw_names _ Hw).
  apply (lookup_export_loop_safe (with_cache c m) img func); cbn [with_cache m_export_cache];
    [destruct Hi; by split|done|lia..].
Qed.

(** An image of 96 bytes that exports "a" (RVA 4) and "b" (a forwarder). *)
Definition export_img : bytes :=
  replicate 16 0 ++
  encode_IMAGE_EXPORT_DIRECTORY (mk_IMAGE_EXPORT_DIRECTORY 0 0 0 0 0 1 2 2 56 64 72) ++
  le_split 4 4 ++ le_split 4 20 ++ le_split 4 76 ++ le_split 4 78 ++
  le_split 2 0 ++ le_split 2 1 ++ [97; 0; 98; 0] ++ replicate 16 0.
Definition export_nt : IMAGE_NT_HEADERS :=
  sample_nt64 0x60000000 96 16 0 0x2022 (set_dir 0 16 40 no_dirs).
Definition export_mod : loaded_module_t :=
  mkModule 0x60000000 (lit "x.dll"%string) (Some export_nt) zero_cache zero_ldr 1 false false.
Definition export_names : list cstr := [[97]; [98]].

Lemma export_nt_wf : wf_IMAGE_NT_HEADERS export_nt.
Proof.
  unfold export_nt, sample_nt64, wf_IMAGE_NT_HEADERS, wf_IMAGE_FILE_HEADER,
    wf_IMAGE_OPTIONAL_HEADER64. solve_nt_wf.
Qed.
Lemma export_image : image_of export_mod export_img.
Proof.
  split; [discriminate|apply wf_bytesb_spec; vm_compute; reflexivity|].
  exists export_nt. split; [done|]. split; [apply export_nt_wf|vm_compute; reflexivity].
Qed.

Definition export_cache_sample : EXPORT_CACHE :=
  match parse_export_table export_mod export_img with Ret (_, c) => c | _ => zero_cache end.
Lemma export_sample_parse : parse_export_table export_mod export_img = Ret (0, export_cache_sample).
Proof. vm_compute. reflexivity. Qed.
Lemma export_sample_names : names_of export_img export_cache_sample export_names.
Proof. repeat constructor; vm_compute; reflexivity. Qed.
Lemma export_sample_sorted : sorted_names export_names.
Proof. intros [|[|i]] [|[|j]] a b Hij Ha Hb; simplify_eq/=; lia || done. Qed.

Lemma lookup_export_correct_witness :
  lookup_export (with_cache export_cache_sample export_mod) export_img [97] = Ret (Some 4) /\
  lookup_export (with_cache export_cache_sample export_mod) export_img [99] = Ret None.
Proof.
  destruct (lookup_export_correct export_mod export_img export_cache_sample export_names [97]
    export_image export_sample_parse export_sample_names export_sample_sorted) as [_ H1];
    [by apply wf_cstrb_spec|].
  destruct (lookup_export_correct export_mod export_img export_cache_sample export_names [99]
    export_image export_sample_parse export_sample_names export_sample_sorted) as [H2 _];
    [by apply wf_cstrb_spec|].
  split.
  - rewrite (H1 0%nat eq_refl). vm_compute. reflexivity.
  - apply H2. unfold export_names. rewrite !not_elem_of_cons. split_and!; [done..|apply not_elem_of_nil].
Defined.

Lemma export_lookup_safe_witness :
  exists rc c, parse_export_table export_mod export_img = Ret (rc, c) /\
    (rc = 0 -> exists r, lookup_export (with_cache c export_mod) export_img [98] = Ret r /\
       forall p, r = Some p -> exists nt, m_nt export_mod = Some nt /\ 0 <= p < pe_size_of_image nt).
Proof. exact (export_lookup_safe export_mod export_img [98] export_image). Defined.
