(* ===== verification/PeSymbols.v ===== *)
(** * COFF symbol tables (src/pe_symbols.c)

    parse_symbol_table_from_file copies the symbols and the string table of a
    file into one buffer; the lookups walk the primary symbols of that buffer.
    A [const char *] into the buffer is represented by the bytes from there to
    the end of the buffer, so that reading past the end is a [Fault]. *)
From S2P Require Import Prelude Bytes CStr PeStructs TestImages PePriv.

Section width.
Context {A : Arch}.

(** The file after open, fstat and mmap ([None] when one of them fails) and
    whether malloc succeeds.  Result: the count, the buffer and the offset of
    the string table in it. *)
Record symtab := mkSymtab { st_count : Z; st_buf : bytes; st_strings : option Z }.

Definition parse_symbol_table_from_file (file : option bytes) (malloc_ok : bool)
    (nt : IMAGE_NT_HEADERS) : outcome symtab :=
  let ptr := pe_pointer_to_symbol_table nt in
  let count := pe_number_of_symbols nt in
  if (ptr =? 0) || (count =? 0) then Fail
  else
    let sym_table_size := usize (count * sizeof_IMAGE_SYMBOL) in
    match file with
    | None => Fail
    | Some map =>
        let st_size := blen map in
        if st_size <? usize (ptr + sym_table_size) then Fail
        else
          let str_off := usize (ptr + sym_table_size) in
          str_data_size ←
            (if usize (str_off + 4) <=? st_size then
               v ← load 4 str_off map;
               let max_available := usize (st_size - str_off - 4) in
               Ret (if max_available <? v then u32 max_available else v)
             else Ret 0);
          let total_alloc := usize (sym_table_size + 4 + str_data_size) in
          if negb malloc_ok then Fail
          else
            let buf := replicate (Z.to_nat total_alloc) 0 in
            syms ← load_bytes ptr sym_table_size map;
            buf ← store_bytes 0 syms buf;
            buf ← (if 0 <? str_data_size then
                     strs ← load_bytes str_off (usize (4 + str_data_size)) map;
                     store_bytes sym_table_size strs buf
                   else store 4 sym_table_size 0 buf);
            Ret (mkSymtab (i32 count) buf
                   (if 0 <? str_data_size then Some (sym_table_size + 4) else None))
    end.

Definition symbol_at (buf : bytes) (i : Z) : outcome IMAGE_SYMBOL :=
  b ← load_bytes (i * sizeof_IMAGE_SYMBOL) sizeof_IMAGE_SYMBOL buf;
  Ret (decode_IMAGE_SYMBOL b).

(** N.Name.Long: the second half of the name field. *)
Definition sym_Long (s : IMAGE_SYMBOL) : Z := le_combine (drop 4 (sym_ShortName s)).

Definition get_symbol_name (buf : bytes) (strings : option Z) (i : Z) : outcome (option bytes) :=
  s ← symbol_at buf i;
  if negb (chr (sym_ShortName s) =? 0) then
    if existsb (fun c => c =? 0) (sym_ShortName s)
    then Ret (Some (drop (Z.to_nat (i * sizeof_IMAGE_SYMBOL)) buf))
    else Ret (Some (sym_ShortName s ++ [0]))
  else
    match strings with
    | Some off => Ret (Some (drop (Z.to_nat (off + sym_Long s)) buf))
    | None => Ret None
    end.

(** strncmp(s, name, name_len) == 0 && s[name_len] == 0, byte by byte. *)
Fixpoint name_matches (s : bytes) (name : cstr) : outcome bool :=
  c ← deref (head s);
  match name with
  | [] => Ret (c =? 0)
  | x :: name => if c =? x then name_matches (tail s) name else Ret false
  end.

Definition symbol_matches (buf : bytes) (strings : option Z) (name : cstr) (i : Z) : outcome bool :=
  p ← get_symbol_name buf strings i;
  match p with None => Ret false | Some p => name_matches p name end.

(** The loop from [i]; [i] grows in every iteration. *)
Fixpoint lookup_symbol_value_loop (buf : bytes) (count : Z) (strings : option Z) (name : cstr)
    (fuel : nat) (i : Z) : outcome Z :=
  match fuel with
  | O => Fault
  | S fuel =>
      if negb (i <? count) then Ret 0
      else
        hit ← symbol_matches buf strings name i;
        s ← symbol_at buf i;
        if (hit : bool) then Ret (sym_Value s)
        else if 0 <? sym_NumberOfAuxSymbols s then
          let i := i + sym_NumberOfAuxSymbols s in
          if count <=? i then Ret 0
          else lookup_symbol_value_loop buf count strings name fuel (i + 1)
        else lookup_symbol_value_loop buf count strings name fuel (i + 1)
  end.
Definition lookup_symbol_value (t : symtab) (name : cstr) : outcome Z :=
  if blen name =? 0 then Ret 0
  else lookup_symbol_value_loop (st_buf t) (st_count t) (st_strings t) name
         (S (Z.to_nat (st_count t))) 0.

(** What lookup_symbol_rva returns for a matching symbol; [None]: it goes on. *)
Definition symbol_rva (sections : list IMAGE_SECTION_HEADER) (num_sections : Z) (s : IMAGE_SYMBOL)
  : outcome (option Z) :=
  let sec_num := sym_SectionNumber s in
  if (0 <? sec_num) && (u16 sec_num <=? u16 num_sections) then
    sec ← deref (sections !! Z.to_nat (sec_num - 1));
    Ret (Some (u32 (sec_VirtualAddress sec + sym_Value s)))
  else if sec_num =? 0 then Ret (Some (sym_Value s))
  else Ret None.

Fixpoint lookup_symbol_rva_loop (buf : bytes) (count : Z) (strings : option Z)
    (sections : list IMAGE_SECTION_HEADER) (num_sections : Z) (name : cstr)
    (fuel : nat) (i : Z) : outcome Z :=
  match fuel with
  | O => Fault
  | S fuel =>
      if negb (i <? count) then Ret 0
      else
        hit ← symbol_matches buf strings name i;
        s ← symbol_at buf i;
        found ← (if (hit : bool) then symbol_rva sections num_sections s else Ret None);
        match (found : option Z) with
        | Some rva => Ret rva
        | None =>
            if 0 <? sym_NumberOfAuxSymbols s then
              let i := i + sym_NumberOfAuxSymbols s in
              if count <=? i then Ret 0
              else lookup_symbol_rva_loop buf count strings sections num_sections name fuel (i + 1)
            else lookup_symbol_rva_loop buf count strings sections num_sections name fuel (i + 1)
        end
  end.
Definition lookup_symbol_rva (t : symtab) (sections : list IMAGE_SECTION_HEADER)
    (num_sections : Z) (name : cstr) : outcome Z :=
  if blen name =? 0 then Ret 0
  else lookup_symbol_rva_loop (st_buf t) (st_count t) (st_strings t) sections num_sections name
         (S (Z.to_nat (st_count t))) 0.
End width.

(** ** Names *)

(** On a terminated string, the comparison decides equality. *)
Lemma name_matches_spec b s name :
  cstr_from b = Some s -> wf_cstr name -> name_matches b name = Ret (bool_decide (s = name)).
Proof.
  revert s name. induction b as [|c b IH]; intros s name H Hn; simpl in H; [done|].
  destruct (Z.eqb_spec c 0) as [->|Hc].
  - injection H as <-. destruct Hn as [|x name Hx Hn]; simpl; [done|].
    destruct x; [lia|done|done].
  - apply fmap_Some in H as (s' & Hs & ->). destruct Hn as [|x name Hx Hn]; simpl.
    + by rewrite (proj2 (Z.eqb_neq c 0) Hc).
    + destruct (Z.eqb_spec c x) as [->|Hcx].
      * rewrite (IH s' name Hs Hn). f_equal. apply bool_decide_ext. naive_solver.
      * by rewrite bool_decide_eq_false_2 by naive_solver.
Qed.

(** The short name of a symbol: its eight bytes up to the first NUL. *)
Definition short_name (s : IMAGE_SYMBOL) : cstr :=
  default (sym_ShortName s) (cstr_from (sym_ShortName s)).

Lemma existsb_cstr_from b : existsb (fun c => c =? 0) b = bool_decide (is_Some (cstr_from b)).
Proof.
  induction b as [|c b IH]; simpl; [done|]. destruct (c =? 0); simpl; [done|].
  rewrite IH. apply bool_decide_ext. by rewrite fmap_is_Some.
Qed.

Lemma cstr_from_prefix a b s : cstr_from a = Some s -> cstr_from (a ++ b) = Some s.
Proof.
  revert s. induction a as [|c a IH]; intros s; simpl; [done|].
  destruct (c =? 0); [done|]. intros (s' & Hs & ->)%fmap_Some. by rewrite (IH s' Hs).
Qed.

Lemma flds_bytes (b : bytes) (n : nat) : n = length b -> flds 0 1 n b = b.
Proof.
  intros ->. unfold flds. apply list_eq. intros i. rewrite list_lookup_fmap.
  destruct (decide (i < length b)%nat) as [Hi|Hi].
  - rewrite lookup_seq_lt by done. simpl. unfold fld, slice.
    destruct (lookup_lt_is_Some_2 b i Hi) as [x Hx]. rewrite Hx. f_equal.
    replace (Z.to_nat (0 + 1 * Z.of_nat i)) with i by lia.
    rewrite (drop_S _ x i Hx). simpl. lia.
  - rewrite !lookup_ge_None_2; [done|lia|rewrite length_seq; lia].
Qed.

Lemma symbol_at_name buf i s :
  symbol_at buf i = Ret s -> 0 <= i ->
  sym_ShortName s = take 8 (drop (Z.to_nat (i * 18)) buf) /\ length (sym_ShortName s) = 8%nat /\
  in_range (i * 18) 18 (blen buf) = true.
Proof.
  unfold symbol_at, sizeof_IMAGE_SYMBOL. intros H Hi. inv_ret.
  apply load_bytes_inv in H0 as [Hr ->]. pose proof (length_slice _ _ _ Hr) as L.
  simpl sym_ShortName.
  assert (E : flds 0 1 8 (slice (i * 18) 18 buf) = take 8 (slice (i * 18) 18 buf)).
  { rewrite <- (flds_bytes (take 8 (slice (i * 18) 18 buf)) 8) by (rewrite length_take; lia).
    unfold flds. apply map_ext_in. intros k Hk%in_seq. unfold fld, slice at 1 3. f_equal.
    rewrite !take_drop_commute, take_take. do 2 f_equal. lia. }
  rewrite E. unfold slice. rewrite take_take. split; [done|]. split; [|done].
  rewrite length_take, length_drop. apply in_range_spec in Hr. unfold blen in Hr. lia.
Qed.

(** ** Lookup over the primary symbols *)

Definition sym_at (buf : bytes) (i : Z) : IMAGE_SYMBOL := decode_IMAGE_SYMBOL (slice (i * 18) 18 buf).

(** Indices of the symbols that are not auxiliary records, from [i]. *)
Fixpoint primary (buf : bytes) (count : Z) (fuel : nat) (i : Z) : list Z :=
  match fuel with
  | O => []
  | S fuel =>
      if i <? count
      then i :: primary buf count fuel (i + sym_NumberOfAuxSymbols (sym_at buf i) + 1) else []
  end.
Definition primaries (t : symtab) : list Z :=
  primary (st_buf t) (st_count t) (S (Z.to_nat (st_count t))) 0.

(** The name of symbol [i]; a long name is at its offset in the string table. *)
Definition sym_name_of (t : symtab) (i : Z) : option cstr :=
  let s := sym_at (st_buf t) i in
  if negb (chr (sym_ShortName s) =? 0) then Some (short_name s)
  else match st_strings t with Some off => cstr_at (off + sym_Long s) (st_buf t) | None => None end.

(** The symbols are in the buffer and the long names are terminated in it. *)
Record symtab_ok (t : symtab) : Prop := {
  so_bytes : wf_bytes (st_buf t);
  so_count : 18 * st_count t <= blen (st_buf t);
  so_names : forall i off, i ∈ primaries t -> st_strings t = Some off ->
    chr (sym_ShortName (sym_at (st_buf t) i)) = 0 ->
    is_Some (cstr_at (off + sym_Long (sym_at (st_buf t) i)) (st_buf t))
}.

Lemma symbol_at_ok buf count i :
  18 * count <= blen buf -> 0 <= i < count -> symbol_at buf i = Ret (sym_at buf i).
Proof.
  intros. unfold symbol_at, sizeof_IMAGE_SYMBOL. rewrite load_bytes_ok; [done|].
  apply in_range_spec. lia.
Qed.

Lemma aux_range buf i : wf_bytes buf -> 0 <= sym_NumberOfAuxSymbols (sym_at buf i).
Proof. intros H. simpl. pose proof (fld1 17 _ (wf_slice (i * 18) 18 _ H)) as [? _]. done. Qed.

(** Comparing one symbol's name decides whether it is the one looked for. *)
Lemma symbol_matches_ok t name i :
  symtab_ok t -> wf_cstr name -> 0 <= i < st_count t -> i ∈ primaries t ->
  symbol_matches (st_buf t) (st_strings t) name i
  = Ret (bool_decide (sym_name_of t i = Some name)).
Proof.
  intros [Hw Hc Hs] Hn Hi Hp. pose proof (symbol_at_ok _ _ _ Hc Hi) as E.
  destruct (symbol_at_name _ _ _ E) as (N1 & N2 & _); [lia|].
  unfold symbol_matches, get_symbol_name, sym_name_of. rewrite E. cbn [mbind outcome_bind].
  destruct (chr (sym_ShortName (sym_at (st_buf t) i)) =? 0) eqn:E0; cbn [negb].
  - destruct (st_strings t) as [off|] eqn:Es; [|done]. cbn [mbind outcome_bind].
    destruct (Hs i off Hp eq_refl) as [s Hstr]; [lia|]. rewrite Hstr.
    rewrite (name_matches_spec _ s name Hstr Hn). f_equal. apply bool_decide_ext. naive_solver.
  - rewrite existsb_cstr_from. unfold short_name.
    destruct (cstr_from (sym_ShortName (sym_at (st_buf t) i))) as [s|] eqn:Ec.
    + rewrite bool_decide_eq_true_2 by eauto. cbn [mbind outcome_bind default from_option id].
      rewrite (name_matches_spec _ s name); [f_equal; apply bool_decide_ext; naive_solver| |done].
      rewrite <- (take_drop 8 (drop _ (st_buf t))). apply cstr_from_prefix.
      unfold sizeof_IMAGE_SYMBOL. by rewrite <- N1.
    + rewrite bool_decide_eq_false_2 by (by intros []). cbn [mbind outcome_bind default from_option id].
      rewrite (name_matches_spec _ (sym_ShortName (sym_at (st_buf t) i)) name);
        [f_equal; apply bool_decide_ext; naive_solver| |done].
      apply cstr_from_app. apply cstr_from_None in Ec. rewrite N1 in *.
      apply Forall_lookup. intros k x Hx. pose proof (Forall_lookup_1 _ _ _ _ Ec Hx) as Hx0.
      assert (Hw' : Forall (in_u 8) (take 8 (drop (Z.to_nat (i * 18)) (st_buf t))))
        by (by apply Forall_take, Forall_drop).
      pose proof (Forall_lookup_1 _ _ _ _ Hw' Hx) as Hx1. unfold in_u in Hx1. simpl in Hx0. lia.
Qed.

(** One iteration moves past the auxiliary records. *)
Lemma primary_step buf count fuel i :
  wf_bytes buf -> 0 <= i < count ->
  primary buf count (S fuel) i
  = i :: primary buf count fuel (i + sym_NumberOfAuxSymbols (sym_at buf i) + 1).
Proof. intros _ H. cbn [primary]. by rewrite (proj2 (Z.ltb_lt i count)) by lia. Qed.

Lemma primary_end buf count fuel i : count <= i -> primary buf count fuel i = [].
Proof. intros H. destruct fuel; [done|]. cbn [primary]. by rewrite (proj2 (Z.ltb_ge i count)). Qed.

Lemma lookup_value_loop_spec t name :
  symtab_ok t -> wf_cstr name -> forall fuel i,
  0 <= i -> 1 <= Z.of_nat fuel -> st_count t - i < Z.of_nat fuel ->
  (forall j, j ∈ primary (st_buf t) (st_count t) fuel i -> j ∈ primaries t) ->
  lookup_symbol_value_loop (st_buf t) (st_count t) (st_strings t) name fuel i
  = Ret (match list_find (fun j => sym_name_of t j = Some name)
           (primary (st_buf t) (st_count t) fuel i) with
         | Some (_, j) => sym_Value (sym_at (st_buf t) j)
         | None => 0
         end).
Proof.
  intros Hok Hn. pose proof (so_bytes _ Hok) as Hw. pose proof (so_count _ Hok) as Hc.
  induction fuel as [|fuel IH]; intros i Hi Hf1 Hf Hp; [lia|].
  destruct (decide (i < st_count t)) as [Hlt|Hge].
  2: { rewrite primary_end by lia. cbn [lookup_symbol_value_loop].
       by rewrite (proj2 (Z.ltb_ge i (st_count t))) by lia. }
  rewrite primary_step in * by (done || lia). cbn [lookup_symbol_value_loop].
  rewrite (proj2 (Z.ltb_lt i (st_count t))) by lia. cbn [negb].
  rewrite (symbol_matches_ok t name i Hok Hn) by (lia || (apply Hp; by left)).
  cbn [mbind outcome_bind]. rewrite (symbol_at_ok _ _ _ Hc) by lia. cbn [mbind outcome_bind].
  cbn [list_find]. pose proof (aux_range (st_buf t) i Hw) as Ha.
  destruct (decide (sym_name_of t i = Some name)) as [E|E].
  { by rewrite bool_decide_eq_true_2. }
  rewrite bool_decide_eq_false_2 by done.
  set (aux := sym_NumberOfAuxSymbols (sym_at (st_buf t) i)) in *.
  assert (Hnext : lookup_symbol_value_loop (st_buf t) (st_count t) (st_strings t) name fuel (i + aux + 1)
    = Ret (match prod_map S id <$> list_find (fun j => sym_name_of t j = Some name)
             (primary (st_buf t) (st_count t) fuel (i + aux + 1)) with
           | Some (_, j) => sym_Value (sym_at (st_buf t) j) | None => 0 end)).
  { rewrite IH; [by destruct (list_find _ _) as [[? ?]|]|lia..|].
    intros j Hj. apply Hp. by right. }
  destruct (0 <? aux) eqn:E1.
  - destruct (st_count t <=? i + aux) eqn:E2; [|exact Hnext].
    by rewrite primary_end by lia.
  - assert (Eq : i + aux + 1 = i + 1) by lia. rewrite Eq in Hnext |- *. exact Hnext.
Qed.

(** lookup_symbol_value returns the value of the first primary symbol with the
    given name, and 0 when there is none. *)
Theorem lookup_symbol_value_correct t name :
  symtab_ok t -> wf_cstr name -> name <> [] ->
  lookup_symbol_value t name
  = Ret (match list_find (fun j => sym_name_of t j = Some name) (primaries t) with
         | Some (_, j) => sym_Value (sym_at (st_buf t) j)
         | None => 0
         end).
Proof.
  intros Hok Hn Hne. unfold lookup_symbol_value.
  destruct (Z.eqb_spec (blen name) 0) as [E|E].
  { destruct name; [done|]. unfold blen in E. simpl in E. lia. }
  apply (lookup_value_loop_spec t name Hok Hn); [lia..|done].
Qed.

(** ** A sample table *)

Definition encode_IMAGE_SYMBOL (name : bytes) (value secnum type class aux : Z) : bytes :=
  name ++ le_split 4 value ++ le_split 2 secnum ++ le_split 2 type ++ [class; aux].

Definition sym_nt (ptr count : Z) : IMAGE_NT_HEADERS :=
  PE_TYPE_64 (mk_IMAGE_NT_HEADERS64 0x4550 (mk_IMAGE_FILE_HEADER 0x8664 0 0 ptr count 240 0x22)
                (sample_oh64 0x140000000 0x3000 0x200 no_dirs)).

(** "main" with an auxiliary record, then the symbol "D_DoomMain", whose name is
    the first string of the string table: offset 4, after the length field, as
    the COFF format counts it. *)
Definition sym_file : bytes :=
  [0; 0; 0; 0] ++
  encode_IMAGE_SYMBOL (lit "main"%string ++ [0; 0; 0; 0]) 0x40 1 0x20 2 1 ++
  replicate 18 7 ++
  encode_IMAGE_SYMBOL (le_split 4 0 ++ le_split 4 4) 0x80 1 0x20 2 0 ++
  le_split 4 15 ++ lit "D_DoomMain"%string ++ [0].
Definition sym_table : symtab :=
  match @parse_symbol_table_from_file arch64 (Some sym_file) true (sym_nt 4 3) with
  | Ret t => t | _ => mkSymtab 0 [] None
  end.

Lemma sym_table_ok : symtab_ok sym_table.
Proof.
  split.
  - apply wf_bytesb_spec. vm_compute. reflexivity.
  - vm_compute. discriminate.
  - intros i off Hi. replace (primaries sym_table) with [0; 2] in Hi by (vm_compute; reflexivity).
    replace (st_strings sym_table) with (Some 58) by (vm_compute; reflexivity). intros [= <-] _.
    rewrite !elem_of_cons, elem_of_nil in Hi. destruct Hi as [->|[->|[]]];
      eexists; vm_compute; reflexivity.
Qed.

Lemma lookup_symbol_value_correct_witness :
  lookup_symbol_value sym_table (lit "main"%string) = Ret 0x40.
Proof.
  rewrite (lookup_symbol_value_correct sym_table (lit "main"%string) sym_table_ok);
    [vm_compute; reflexivity|by apply wf_cstrb_spec|discriminate].
Defined.

(** Offsets of long names are applied after the length field has been skipped:
    the table's "D_DoomMain" is not found, and a lookup of the name without its
    first four characters finds it. *)
Theorem long_symbol_names_are_shifted :
  @parse_symbol_table_from_file arch64 (Some sym_file) true (sym_nt 4 3) = Ret sym_table /\
  cstr_at (58 + 4) sym_file = Some (lit "D_DoomMain"%string) /\
  lookup_symbol_value sym_table (lit "D_DoomMain"%string) = Ret 0 /\
  lookup_symbol_value sym_table (lit "omMain"%string) = Ret 0x80.
Proof. split_and!; vm_compute; reflexivity. Qed.

(** ** Bounds of the copy *)

Lemma wf_symbol_fields nt : wf_IMAGE_NT_HEADERS nt ->
  in_u 32 (pe_pointer_to_symbol_table nt) /\ in_u 32 (pe_number_of_symbols nt).
Proof. destruct nt; simpl; unfold wf_IMAGE_FILE_HEADER; naive_solver. Qed.

(** The copies into the allocated buffer, for a string table of [sz] bytes. *)
Lemma copy_tables_ok map ptr n sz :
  0 <= ptr -> 0 <= n -> ptr + n <= blen map -> 0 <= sz < 2 ^ 32 -> n + 4 + sz < 2 ^ 64 ->
  (0 < sz -> ptr + n + 4 + sz <= blen map) ->
  exists syms b1 buf, load_bytes ptr n map = Ret syms /\
    store_bytes 0 syms (replicate (Z.to_nat (u64 (n + 4 + sz))) 0) = Ret b1 /\
    (if 0 <? sz then
       strs ← load_bytes (ptr + n) (u64 (4 + sz)) map; store_bytes n strs b1
     else store 4 n 0 b1) = Ret buf /\ blen buf = n + 4 + sz.
Proof.
  intros Hp Hn Hle Hsz Htot Hstr. rewrite (wrap_small 64 (n + 4 + sz)) by lia.
  assert (R1 : in_range ptr n (blen map) = true) by (apply in_range_spec; lia).
  assert (L1 : blen (slice ptr n map) = n) by (unfold blen; rewrite length_slice by done; lia).
  set (b0 := replicate (Z.to_nat (n + 4 + sz)) 0).
  assert (L0 : blen b0 = n + 4 + sz) by (unfold b0, blen; rewrite length_replicate; lia).
  assert (R0 : in_range 0 (blen (slice ptr n map)) (blen b0) = true) by (apply in_range_spec; lia).
  set (b1 := splice 0 (slice ptr n map) b0).
  assert (L1b : blen b1 = n + 4 + sz) by (unfold b1, blen; rewrite length_splice by done; exact L0).
  exists (slice ptr n map), b1.
  assert (H : exists buf, (if 0 <? sz then
       strs ← load_bytes (ptr + n) (u64 (4 + sz)) map; store_bytes n strs b1
     else store 4 n 0 b1) = Ret buf /\ blen buf = n + 4 + sz).
  { destruct (0 <? sz) eqn:E.
    - rewrite (wrap_small 64 (4 + sz)) by lia.
      assert (R2 : in_range (ptr + n) (4 + sz) (blen map) = true) by (apply in_range_spec; lia).
      rewrite load_bytes_ok by done. cbn [mbind outcome_bind].
      assert (L2 : blen (slice (ptr + n) (4 + sz) map) = 4 + sz)
        by (unfold blen; rewrite length_slice by done; lia).
      assert (R3 : in_range n (blen (slice (ptr + n) (4 + sz) map)) (blen b1) = true)
        by (apply in_range_spec; lia).
      rewrite store_bytes_ok by done. eexists. split; [done|].
      unfold blen at 1. by rewrite length_splice.
    - assert (R3 : in_range n 4 (blen b1) = true) by (apply in_range_spec; lia).
      rewrite store_ok by done. eexists. split; [done|].
      unfold blen at 1. by rewrite length_splice. }
  destruct H as (buf & E & L). exists buf.
  rewrite load_bytes_ok, store_bytes_ok by done. done.
Qed.

(** On the 64-bit build the copy stays inside the file and the buffer, and the
    buffer holds every symbol that is counted. *)
Theorem parse_symbol_table_safe file malloc_ok nt :
  wf_IMAGE_NT_HEADERS nt -> (forall f, file = Some f -> wf_bytes f /\ blen f < 2 ^ 62) ->
  match @parse_symbol_table_from_file arch64 file malloc_ok nt with
  | Fault => False
  | Fail => True
  | Ret t => 18 * st_count t <= blen (st_buf t) /\
             forall off, st_strings t = Some off -> 0 <= off <= blen (st_buf t)
  end.
Proof.
  intros Hwf Hfile. destruct (wf_symbol_fields nt Hwf) as [Hp Hc]. unfold in_u in Hp, Hc.
  unfold parse_symbol_table_from_file, usize, ptr_bits, sizeof_IMAGE_SYMBOL, arch64. simpl is_my_wine32.
  cbv iota zeta. set (ptr := pe_pointer_to_symbol_table nt) in *.
  set (count := pe_number_of_symbols nt) in *.
  destruct ((ptr =? 0) || (count =? 0)) eqn:E0; [done|].
  destruct file as [map|]; [|done]. destruct (Hfile map eq_refl) as [Hw Hs].
  assert (0 <= blen map) by (unfold blen; lia).
  rewrite (wrap_small 64 (count * 18)) by lia.
  rewrite !(wrap_small 64 (ptr + count * 18)) by lia.
  destruct (blen map <? ptr + count * 18) eqn:E1; [done|].
  rewrite (wrap_small 64 (ptr + count * 18 + 4)) by lia.
  destruct (ptr + count * 18 + 4 <=? blen map) eqn:E2.
  - rewrite load_ok by (apply in_range_spec; lia). cbn [mbind outcome_bind].
    rewrite (wrap_small 64 (blen map - (ptr + count * 18) - 4)) by lia.
    set (v := le_combine _).
    assert (Hv : 0 <= v < 2 ^ 32).
    { unfold v. pose proof (le_combine_range _ (wf_slice (ptr + count * 18) (Z.of_nat 4) map Hw)) as R.
      unfold blen in R. rewrite length_slice in R by (apply in_range_spec; lia). exact R. }
    set (sz := if _ <? v then _ else v).
    assert (Hsz : 0 <= sz < 2 ^ 32 /\ ptr + count * 18 + 4 + sz <= blen map).
    { unfold sz. case_goal; [|lia]. rewrite wrap_small by lia. lia. }
    clearbody sz. destruct malloc_ok; [|done]. cbn [negb].
    destruct (copy_tables_ok map ptr (count * 18) sz) as (syms & b1 & buf & E3 & E4 & E5 & Lb); [lia..|].
    rewrite E3. cbn [mbind outcome_bind]. rewrite E4. cbn [mbind outcome_bind]. rewrite E5.
    cbn [mbind outcome_bind st_count st_buf st_strings]. rewrite Lb.
    split; [width_lia|]. case_goal; naive_solver lia.
  - destruct malloc_ok; [|done]. cbn [mbind outcome_bind negb].
    destruct (copy_tables_ok map ptr (count * 18) 0) as (syms & b1 & buf & E3 & E4 & E5 & Lb); [lia..|].
    rewrite E3. cbn [mbind outcome_bind]. rewrite E4. cbn [mbind outcome_bind].
    cbn [Z.ltb Z.compare] in E5 |- *. rewrite E5.
    cbn [mbind outcome_bind st_count st_buf st_strings]. rewrite Lb.
    split; [width_lia|done].
Qed.

Lemma parse_symbol_table_safe_witness :
  18 * st_count sym_table <= blen (st_buf sym_table).
Proof.
  assert (E : @parse_symbol_table_from_file arch64 (Some sym_file) true (sym_nt 4 3) = Ret sym_table)
    by (vm_compute; reflexivity).
  pose proof (parse_symbol_table_safe (Some sym_file) true (sym_nt 4 3)) as H. rewrite E in H.
  refine (proj1 (H _ _)).
  - unfold sym_nt, wf_IMAGE_NT_HEADERS, wf_IMAGE_FILE_HEADER, wf_IMAGE_OPTIONAL_HEADER64.
    solve_nt_wf.
  - intros f [= <-]. split; [apply wf_bytesb_spec|]; vm_compute; reflexivity.
Defined.

(** In the 32-bit build the size of the symbol table wraps: a file that claims
    238609295 symbols passes the check with room for none of them. *)
Theorem symbol_table_size_wraps_32 :
  exists t, @parse_symbol_table_from_file arch32 (Some sym_file) true (sym_nt 4 238609295) = Ret t /\
    st_count t = 238609295 /\ blen (st_buf t) < 100.
Proof. eexists. split; [vm_compute; reflexivity|]. split; reflexivity. Qed.
