(* ===== verification/HandleTable.v ===== *)
(** * The handle manager (src/msvcrt/handle_manager.c, handle_manager_runtime.c)

    The table of 512 reference-counted slots behind every NT handle.  Each
    operation runs under the table's spinlock and is modelled as one atomic step
    on the table.  The abstract state is a finite map from live handles to type,
    object and reference count; every operation refines its effect on that map. *)
From S2P Require Import Prelude.

Definition HANDLE_TABLE_SIZE : Z := 512.

Definition HANDLE_TYPE_FILE : Z := 0x01.
Definition HANDLE_TYPE_EVENT : Z := 0x02.
Definition HANDLE_TYPE_MUTEX : Z := 0x03.
Definition HANDLE_TYPE_THREAD : Z := 0x04.
Definition HANDLE_TYPE_SEMAPHORE : Z := 0x05.
Definition HANDLE_TYPE_SECTION : Z := 0x06.
Definition HANDLE_TYPE_HCURSOR : Z := 0x33.
Definition HANDLE_TYPE_HWIN : Z := 0x60.
Definition HANDLE_TYPE_RB_WINDOW : Z := 0x63.
Definition HANDLE_TYPE_RB_SURFACE : Z := 0x64.
Definition HANDLE_TYPE_RB_PALETTE : Z := 0x65.
Definition HANDLE_TYPE_RB_CURSOR : Z := 0x66.
Definition HANDLE_TYPE_HMIDI_STREAM : Z := 0x70.
Definition HANDLE_TYPE_HRSRC : Z := 0x72.
Definition HANDLE_TYPE_HGLOBAL : Z := 0x73.
Definition HANDLE_TYPE_HKEY : Z := 0x80.
Definition STDIN_HANDLE : Z := 0x7FFFFFFF.
Definition STDOUT_HANDLE : Z := 0x7FFFFFFE.
Definition STDERR_HANDLE : Z := 0x7FFFFFFD.

(** The [void *object] of a slot: NULL, a file descriptor cast to a pointer, or
    the address of an entry of one of the kernel object tables, of a window entry,
    of a backend window, surface, palette or cursor, of a registry key, of a found
    resource or of a search for files, or a backend handle cast to a pointer. *)
Inductive object :=
| ONull
| OFd (fd : Z)
| OEvent (i : nat)
| OMutex (i : nat)
| OSemaphore (i : nat)
| OThread (i : nat)
| OSection (i : nat)
| OWindow (i : nat)
| ORbWindow (i : nat)
| ORbSurface (i : nat)
| ORbPalette (i : nat)
| ORbCursor (i : nat)
| OKey (i : nat)
| OResource (i : nat)
| OFind (i : nat)
| OHandle (h : Z).
#[export] Instance object_eq_dec : EqDecision object.
Proof. solve_decision. Defined.

(** [(void * )(uintptr_t)fd]: descriptor 0 is the null pointer. *)
Definition fd_object (fd : Z) : object := if fd =? 0 then ONull else OFd fd.

Record wine_handle_t := mkHandle { h_id : Z; h_type : Z; h_ref_count : Z; h_object : object }.
Definition zero_handle : wine_handle_t := mkHandle 0 0 0 ONull.
#[export] Instance wine_handle_eq_dec : EqDecision wine_handle_t.
Proof. solve_decision. Defined.

Abbreviation table := (list wine_handle_t).

Definition wine_handle_manager_runtime_init : table :=
  let t := replicate (Z.to_nat HANDLE_TABLE_SIZE) zero_handle in
  let t := <[0%nat := mkHandle 0 HANDLE_TYPE_FILE 1 (fd_object 0)]> t in
  let t := <[1%nat := mkHandle 1 HANDLE_TYPE_FILE 1 (fd_object 1)]> t in
  <[2%nat := mkHandle 2 HANDLE_TYPE_FILE 1 (fd_object 2)]> t.

Definition wine_handle_slot (t : table) (handle : Z) : option nat :=
  if HANDLE_TABLE_SIZE <=? handle then None else Some (Z.to_nat handle).

(** The loop over i = 3 .. 511. *)
Fixpoint wine_handle_alloc_loop (type : Z) (obj : object) (t : table) (todo i : nat)
  : outcome (table * Z) :=
  match todo with
  | O => Ret (t, 0)
  | S todo =>
      slot ← deref (t !! i);
      if h_ref_count slot =? 0
      then Ret (<[i := mkHandle (Z.of_nat i) type 1 obj]> t, Z.of_nat i)
      else wine_handle_alloc_loop type obj t todo (S i)
  end.
Definition wine_handle_alloc (type : Z) (obj : object) (t : table) : outcome (table * Z) :=
  wine_handle_alloc_loop type obj t (Z.to_nat HANDLE_TABLE_SIZE - 3) 3.

Definition wine_handle_get (handle : Z) (t : table) : outcome object :=
  match wine_handle_slot t handle with
  | None => Ret ONull
  | Some i =>
      slot ← deref (t !! i);
      Ret (if h_ref_count slot =? 0 then ONull else h_object slot)
  end.

Definition wine_handle_get_type (handle : Z) (t : table) : outcome Z :=
  match wine_handle_slot t handle with
  | None => Ret 0
  | Some i =>
      slot ← deref (t !! i);
      Ret (if h_ref_count slot =? 0 then 0 else h_type slot)
  end.

Definition wine_handle_add_ref (handle : Z) (t : table) : outcome table :=
  match wine_handle_slot t handle with
  | None => Ret t
  | Some i =>
      slot ← deref (t !! i);
      if negb (h_ref_count slot =? 0) && (h_ref_count slot <? 255)
      then Ret (<[i := mkHandle (h_id slot) (h_type slot) (u8 (h_ref_count slot + 1))
                         (h_object slot)]> t)
      else Ret t
  end.

Definition wine_handle_free (handle : Z) (t : table) : outcome table :=
  if handle <=? 2 then Ret t
  else
    match wine_handle_slot t handle with
    | None => Ret t
    | Some i =>
        slot ← deref (t !! i);
        if negb (h_ref_count slot =? 0) then
          let r := u8 (h_ref_count slot - 1) in
          if r =? 0 then Ret (<[i := zero_handle]> t)
          else Ret (<[i := mkHandle (h_id slot) (h_type slot) r (h_object slot)]> t)
        else Ret t
    end.

(** ** Operations and their results *)

Inductive hop :=
| HAlloc (type : Z) (obj : object)
| HGet (handle : Z)
| HGetType (handle : Z)
| HAddRef (handle : Z)
| HFree (handle : Z).

Inductive hres := RHandle (h : Z) | RObject (o : object) | RType (t : Z) | RVoid.

Definition handle_step (o : hop) (t : table) : outcome (table * hres) :=
  match o with
  | HAlloc type obj => '(t, h) ← wine_handle_alloc type obj t; Ret (t, RHandle h)
  | HGet h => x ← wine_handle_get h t; Ret (t, RObject x)
  | HGetType h => x ← wine_handle_get_type h t; Ret (t, RType x)
  | HAddRef h => t ← wine_handle_add_ref h t; Ret (t, RVoid)
  | HFree h => t ← wine_handle_free h t; Ret (t, RVoid)
  end.

Fixpoint handle_run (ops : list hop) (t : table) : outcome (table * list hres) :=
  match ops with
  | [] => Ret (t, [])
  | o :: ops =>
      '(t, r) ← handle_step o t;
      '(t, rs) ← handle_run ops t;
      Ret (t, r :: rs)
  end.

(** ** Abstract handle store *)

(** Live handles with type, object and reference count. *)
Record entry := mkEntry { e_type : Z; e_object : object; e_refs : Z }.
Abbreviation store := (gmap nat entry).

(** The handles the allocator gives out, in the order it tries them. *)
Definition allocatable : list nat := seq 3 509.
#[global] Arguments allocatable : simpl never.

Definition store_init : store :=
  <[0%nat := mkEntry HANDLE_TYPE_FILE (fd_object 0) 1]>
    (<[1%nat := mkEntry HANDLE_TYPE_FILE (fd_object 1) 1]>
       {[2%nat := mkEntry HANDLE_TYPE_FILE (fd_object 2) 1]}).

Definition store_step (o : hop) (s : store) : store * hres :=
  match o with
  | HAlloc type obj =>
      match list_find (fun i => s !! i = None) allocatable with
      | Some (_, i) => (<[i := mkEntry type obj 1]> s, RHandle (Z.of_nat i))
      | None => (s, RHandle 0)
      end
  | HGet h => (s, RObject (from_option e_object ONull (s !! Z.to_nat h)))
  | HGetType h => (s, RType (from_option e_type 0 (s !! Z.to_nat h)))
  | HAddRef h =>
      (alter (fun e => mkEntry (e_type e) (e_object e) (Z.min 255 (e_refs e + 1))) (Z.to_nat h) s, RVoid)
  | HFree h =>
      if h <=? 2 then (s, RVoid)
      else
        match s !! Z.to_nat h with
        | None => (s, RVoid)
        | Some e =>
            if e_refs e =? 1 then (delete (Z.to_nat h) s, RVoid)
            else (<[Z.to_nat h := mkEntry (e_type e) (e_object e) (e_refs e - 1)]> s, RVoid)
        end
  end.

Fixpoint store_run (ops : list hop) (s : store) : store * list hres :=
  match ops with
  | [] => (s, [])
  | o :: ops =>
      let '(s, r) := store_step o s in
      let '(s, rs) := store_run ops s in (s, r :: rs)
  end.

(** ** Refinement *)

Definition entry_of (x : wine_handle_t) : option entry :=
  if h_ref_count x =? 0 then None else Some (mkEntry (h_type x) (h_object x) (h_ref_count x)).

Definition represents (t : table) (s : store) : Prop :=
  length t = 512%nat /\ Forall (fun x => in_u 8 (h_ref_count x)) t /\
  forall i, s !! i = t !! i ≫= entry_of.

Definition hop_wf (o : hop) : Prop :=
  match o with
  | HAlloc _ _ => True
  | HGet h | HGetType h | HAddRef h | HFree h => in_u 32 h
  end.

Lemma entry_of_None x : in_u 8 (h_ref_count x) -> entry_of x = None <-> h_ref_count x = 0.
Proof. unfold entry_of. intros _. destruct (Z.eqb_spec (h_ref_count x) 0); naive_solver. Qed.

Lemma represents_insert t s i x :
  represents t s -> (i < 512)%nat -> in_u 8 (h_ref_count x) ->
  represents (<[i := x]> t) (match entry_of x with Some e => <[i := e]> s | None => delete i s end).
Proof.
  intros (L & F & E) Hi Hx. split; [by rewrite length_insert|]. split; [by apply Forall_insert|].
  intros j. destruct (decide (i = j)) as [->|Hne].
  - rewrite list_lookup_insert_eq by lia. simpl. destruct (entry_of x); by simplify_map_eq.
  - rewrite list_lookup_insert_ne by done. destruct (entry_of x); by simplify_map_eq.
Qed.

(** Access to the slot of a handle. *)
Lemma represents_slot t s h :
  represents t s -> in_u 32 h ->
  (wine_handle_slot t h = None /\ s !! Z.to_nat h = None) \/
  (exists x, wine_handle_slot t h = Some (Z.to_nat h) /\ t !! Z.to_nat h = Some x /\
     in_u 8 (h_ref_count x) /\ s !! Z.to_nat h = entry_of x /\ (Z.to_nat h < 512)%nat).
Proof.
  intros (L & F & E) Hh. unfold wine_handle_slot, HANDLE_TABLE_SIZE, in_u in *.
  destruct (512 <=? h) eqn:El.
  - left. split; [done|]. rewrite E, lookup_ge_None_2 by lia. done.
  - right. destruct (lookup_lt_is_Some_2 t (Z.to_nat h)) as [x Hx]; [lia|].
    exists x. rewrite E, Hx. pose proof (Forall_lookup_1 _ _ _ _ F Hx) as Hb.
    simpl in Hb. split_and!; done || lia.
Qed.

Lemma alter_insert_lookup (f : entry -> entry) (s : store) i e :
  s !! i = Some e -> alter f i s = <[i := f e]> s.
Proof.
  intros H. apply map_eq. intros j. rewrite lookup_alter, lookup_insert.
  case_decide; subst; [by rewrite H|done].
Qed.

Lemma alloc_loop_spec ty ob t s : represents t s -> forall todo i, (i + todo = 512)%nat ->
  match list_find (fun i => s !! i = None) (seq i todo) with
  | Some (_, k) => (i <= k < 512)%nat /\ s !! k = None /\
      wine_handle_alloc_loop ty ob t todo i
      = Ret (<[k := mkHandle (Z.of_nat k) ty 1 ob]> t, Z.of_nat k)
  | None => wine_handle_alloc_loop ty ob t todo i = Ret (t, 0)
  end.
Proof.
  intros (L & F & E). induction todo as [|todo IH]; intros i Hi; [done|].
  cbn [seq list_find wine_handle_alloc_loop].
  destruct (lookup_lt_is_Some_2 t i) as [x Hx]; [lia|]. rewrite Hx. cbn [deref mbind outcome_bind].
  pose proof (Forall_lookup_1 _ _ _ _ F Hx) as Hr. simpl in Hr.
  assert (Es : s !! i = entry_of x) by (by rewrite E, Hx).
  destruct (decide (s !! i = None)) as [Hn|Hn].
  - rewrite (proj2 (Z.eqb_eq _ _)) by (apply entry_of_None; congruence). split_and!; done || lia.
  - specialize (IH (S i) ltac:(lia)).
    rewrite (proj2 (Z.eqb_neq _ _)) by (rewrite <- (entry_of_None x Hr); congruence).
    destruct (list_find _ (seq (S i) todo)) as [[? k]|]; simpl; [|done].
    destruct IH as (? & ? & ?). split_and!; [lia..|done|done].
Qed.

(** The two outcomes of an allocation. *)
Lemma alloc_cases ty ob t s :
  represents t s ->
  wine_handle_alloc ty ob t = Ret (t, 0) \/
  exists k t', (3 <= k < 512)%nat /\ s !! k = None /\
    wine_handle_alloc ty ob t = Ret (t', Z.of_nat k) /\ represents t' (<[k := mkEntry ty ob 1]> s).
Proof.
  intros R. pose proof (alloc_loop_spec ty ob t s R 509 3 eq_refl) as H.
  unfold wine_handle_alloc. change (Z.to_nat HANDLE_TABLE_SIZE - 3)%nat with 509%nat.
  destruct (list_find _ _) as [[? k]|]; [right|by left].
  destruct H as (Hk & Hn & E). exists k. eexists. split_and!; [lia|lia|done|exact E|].
  apply (represents_insert t s k (mkHandle (Z.of_nat k) ty 1 ob)); [done|lia|simpl; unfold in_u; lia].
Qed.

Lemma handle_step_refines o t s :
  represents t s -> hop_wf o ->
  exists t', handle_step o t = Ret (t', snd (store_step o s)) /\ represents t' (fst (store_step o s)).
Proof.
  intros R Ho. destruct o as [ty ob|h|h|h|h]; simpl in Ho; cbn [handle_step store_step].
  - pose proof (alloc_loop_spec ty ob t s R 509 3 eq_refl) as H.
    unfold wine_handle_alloc, allocatable. change (Z.to_nat HANDLE_TABLE_SIZE - 3)%nat with 509%nat.
    destruct (list_find _ _) as [[? k]|].
    + destruct H as (Hk & _ & ->). eexists. split; [reflexivity|].
      apply (represents_insert t s k (mkHandle (Z.of_nat k) ty 1 ob)); [done|lia|simpl; unfold in_u; lia].
    + rewrite H. by exists t.
  - unfold wine_handle_get. exists t. split; [|done].
    destruct (represents_slot t s h R Ho) as [(-> & ->)|(x & -> & -> & Hr & -> & _)]; [done|].
    simpl. unfold entry_of. by destruct (_ =? 0).
  - unfold wine_handle_get_type. exists t. split; [|done].
    destruct (represents_slot t s h R Ho) as [(-> & ->)|(x & -> & -> & Hr & -> & _)]; [done|].
    simpl. unfold entry_of. by destruct (_ =? 0).
  - unfold wine_handle_add_ref.
    destruct (represents_slot t s h R Ho) as [(-> & Hs)|(x & -> & Hx & Hr & Hs & Hi)].
    + exists t. simpl. split; [done|]. by rewrite alter_id by naive_solver.
    + rewrite Hx. cbn [deref mbind outcome_bind]. unfold entry_of, in_u in *.
      destruct (Z.eqb_spec (h_ref_count x) 0) as [E0|E0]; cbn [negb andb].
      { exists t. split; [done|]. cbn [fst]. by rewrite alter_id by naive_solver. }
      destruct (Z.ltb_spec (h_ref_count x) 255) as [El|El].
      * eexists. split; [reflexivity|]. cbn [fst].
        rewrite (alter_insert_lookup _ _ _ _ Hs). cbn [e_type e_object e_refs].
        rewrite wrap_small, Z.min_r by lia.
        pose proof (represents_insert t s (Z.to_nat h)
          (mkHandle (h_id x) (h_type x) (h_ref_count x + 1) (h_object x)) R Hi) as H.
        unfold entry_of in H. simpl in H. rewrite (proj2 (Z.eqb_neq _ 0)) in H by lia.
        apply H. unfold in_u. lia.
      * exists t. split; [done|]. cbn [fst]. rewrite alter_id; [done|].
        intros e He. rewrite Hs in He. injection He as <-. simpl. f_equal. lia.
  - unfold wine_handle_free. destruct (h <=? 2); [by exists t|].
    destruct (represents_slot t s h R Ho) as [(-> & Hs)|(x & -> & Hx & Hr & Hs & Hi)]; rewrite Hs.
    { by exists t. }
    rewrite Hx. cbn [deref mbind outcome_bind]. unfold entry_of, in_u in *.
    destruct (Z.eqb_spec (h_ref_count x) 0) as [E0|E0]; cbn [negb]; [by exists t|].
    cbn [e_refs]. rewrite wrap_small by lia. cbn zeta.
    destruct (Z.eqb_spec (h_ref_count x) 1) as [E1|E1].
    + rewrite (proj2 (Z.eqb_eq _ 0)) by lia. eexists. split; [reflexivity|].
      apply (represents_insert t s (Z.to_nat h) zero_handle R Hi). unfold in_u; simpl; lia.
    + rewrite (proj2 (Z.eqb_neq _ 0)) by lia. eexists. split; [reflexivity|]. cbn [fst].
      pose proof (represents_insert t s (Z.to_nat h)
        (mkHandle (h_id x) (h_type x) (h_ref_count x - 1) (h_object x)) R Hi) as H.
      unfold entry_of in H. simpl in H. rewrite (proj2 (Z.eqb_neq _ 0)) in H by lia.
      apply H. unfold in_u. lia.
Qed.

(** A handle is found when one is free. *)
Lemma alloc_succeeds ty ob t (st : store) k :
  represents t st -> (3 <= k < 512)%nat -> st !! k = None ->
  exists k' t', (3 <= k' < 512)%nat /\ st !! k' = None /\ wine_handle_alloc ty ob t = Ret (t', Z.of_nat k')
    /\ represents t' (<[k' := mkEntry ty ob 1]> st).
Proof.
  intros R Hk Hn. destruct (alloc_cases ty ob t st R) as [E | (k' & t' & ? & ? & ? & ?)]; [|by exists k', t'].
  exfalso. pose proof (alloc_loop_spec ty ob t st R 509 3 eq_refl) as H. unfold wine_handle_alloc in E.
  change (Z.to_nat HANDLE_TABLE_SIZE - 3)%nat with 509%nat in E.
  destruct (list_find _ (seq 3 509)) as [[j x]|] eqn:F.
  - destruct H as (? & _ & E'). rewrite E in E'. injection E' as _ E'. lia.
  - apply list_find_None in F. rewrite Forall_forall in F. apply (F k); [|done]. apply elem_of_seq. lia.
Qed.

(** Reading back an entry of the table. *)
Lemma get_entry t (st : store) k ty ob n :
  represents t st -> st !! k = Some (mkEntry ty ob n) -> (k < 512)%nat ->
  wine_handle_get_type (Z.of_nat k) t = Ret ty /\ wine_handle_get (Z.of_nat k) t = Ret ob.
Proof.
  intros R E Hk.
  destruct (represents_slot t st (Z.of_nat k) R) as [(_ & E') | (x & Es & Ex & Hr & E' & _)]; [unfold in_u; lia | |].
  - rewrite Nat2Z.id in E'. congruence.
  - rewrite Nat2Z.id in *. unfold wine_handle_get_type, wine_handle_get. rewrite Es, Ex. cbn [deref mbind outcome_bind].
    rewrite E in E'. unfold entry_of in E'. destruct (h_ref_count x =? 0); [done|]. by injection E' as -> -> _.
Qed.

(** Freeing the last reference of an entry. *)
Lemma free_entry t (st : store) k ty ob : represents t st -> st !! k = Some (mkEntry ty ob 1) -> (3 <= k < 512)%nat ->
  exists t', wine_handle_free (Z.of_nat k) t = Ret t' /\ represents t' (delete k st).
Proof.
  intros R E Hk. destruct (handle_step_refines (HFree (Z.of_nat k)) t st R) as (t' & Ht & R').
  { simpl. unfold in_u. lia. }
  cbn [handle_step store_step] in *. rewrite (proj2 (Z.leb_gt _ _)) in R' by lia. rewrite Nat2Z.id, E in R'.
  apply bind_Ret in Ht as (x & Hx & [= ->]). by exists t'.
Qed.

Lemma handle_init_represents : represents wine_handle_manager_runtime_init store_init.
Proof.
  split; [reflexivity|]. split.
  { unfold wine_handle_manager_runtime_init. repeat apply Forall_insert; try (simpl; unfold in_u; lia).
    apply Forall_replicate. simpl. unfold in_u. lia. }
  intros i. unfold wine_handle_manager_runtime_init, store_init.
  destruct (decide (i = 0%nat)) as [->|]; [done|]. destruct (decide (i = 1%nat)) as [->|]; [done|].
  destruct (decide (i = 2%nat)) as [->|]; [done|].
  rewrite !list_lookup_insert_ne by done. rewrite !lookup_insert_ne, lookup_singleton_ne by done.
  destruct (decide (i < 512)%nat).
  - rewrite lookup_replicate_2 by done. done.
  - rewrite lookup_ge_None_2 by (rewrite length_replicate; unfold HANDLE_TABLE_SIZE; lia). done.
Qed.

Lemma handle_run_represents ops t s :
  represents t s -> Forall hop_wf ops ->
  exists t', handle_run ops t = Ret (t', snd (store_run ops s)) /\
    represents t' (fst (store_run ops s)).
Proof.
  revert t s. induction ops as [|o ops IH]; intros t s R H; [by exists t|].
  apply Forall_cons in H as [Ho H].
  destruct (handle_step_refines o t s R Ho) as (t1 & E1 & R1).
  simpl. rewrite E1. simpl. destruct (store_step o s) as [s1 r1]. simpl in *.
  destruct (IH t1 s1 R1 H) as (t2 & E2 & R2). rewrite E2.
  destruct (store_run ops s1) as [s2 rs]. simpl. by exists t2.
Qed.

(** C4: Every sequence of operations on the initial table runs without touching
    anything outside the table, and returns what the abstract store returns. *)
Theorem handle_table_refines ops :
  Forall hop_wf ops ->
  exists t, handle_run ops wine_handle_manager_runtime_init = Ret (t, snd (store_run ops store_init)) /\
    represents t (fst (store_run ops store_init)).
Proof. apply handle_run_represents, handle_init_represents. Qed.

(** ** Consequences *)

Lemma store_step_keeps o s h e :
  (3 <= h)%nat -> hop_wf o -> o <> HFree (Z.of_nat h) -> s !! h = Some e ->
  (exists e', fst (store_step o s) !! h = Some e' /\ e_type e' = e_type e /\ e_object e' = e_object e) /\
  snd (store_step o s) <> RHandle (Z.of_nat h).
Proof.
  intros H3 Hw Hne Hs. destruct o as [ty ob|i|i|i|i]; cbn [store_step hop_wf] in *;
    try (cbn [fst snd]; split; [by eauto|done]).
  - destruct (list_find (fun i => s !! i = None) allocatable) as [[? k]|] eqn:E;
      cbn [fst snd]; [|split; [by eauto|]; intros [= ?]; lia].
    apply list_find_Some in E as (_ & Hk & _).
    assert (k <> h) by congruence. rewrite lookup_insert_ne by done. split; [by eauto|].
    intros [= ?]. lia.
  - cbn [fst snd]. split; [|done]. rewrite lookup_alter. case_decide; subst; rewrite Hs; simpl; eauto.
  - unfold in_u in Hw. assert (Z.to_nat i <> h) by (intros <-; apply Hne; f_equal; lia).
    repeat case_goal; simpl; (split; [|done]); simplify_map_eq; eauto.
Qed.

Lemma store_run_keeps ops s h e :
  (3 <= h)%nat -> Forall (fun o => hop_wf o /\ o <> HFree (Z.of_nat h)) ops -> s !! h = Some e ->
  (exists e', fst (store_run ops s) !! h = Some e' /\ e_type e' = e_type e /\ e_object e' = e_object e) /\
  RHandle (Z.of_nat h) ∉ snd (store_run ops s).
Proof.
  intros H3. revert s e. induction ops as [|o ops IH]; intros s e F Hs; simpl.
  { split; [by eauto|apply not_elem_of_nil]. }
  apply Forall_cons in F as [[Hw Hne] F].
  destruct (store_step_keeps o s h e H3 Hw Hne Hs) as [(e1 & He1 & T1 & O1) Hr].
  destruct (store_step o s) as [s1 r1]. simpl in *.
  destruct (IH s1 e1 F He1) as [(e2 & He2 & T2 & O2) Hrs].
  destruct (store_run ops s1) as [s2 rs]. simpl in *. split.
  - exists e2. split_and!; congruence.
  - rewrite not_elem_of_cons. split; congruence.
Qed.

(** A handle that was allocated keeps its type and object, and is not given out
    again, whatever other operations follow, until it is freed. *)
Theorem allocated_handle_stable pre ty ob ops t0 rs0 t1 h :
  Forall hop_wf pre -> handle_run pre wine_handle_manager_runtime_init = Ret (t0, rs0) ->
  wine_handle_alloc ty ob t0 = Ret (t1, h) -> h <> 0 ->
  Forall (fun o => hop_wf o /\ o <> HFree h) ops ->
  exists t2 rs, handle_run ops t1 = Ret (t2, rs) /\
    wine_handle_get h t2 = Ret ob /\ wine_handle_get_type h t2 = Ret ty /\ RHandle h ∉ rs.
Proof.
  intros Fp Ep Ea Hh Fo.
  destruct (handle_run_represents pre _ _ handle_init_represents Fp) as (t0' & E0 & R0).
  rewrite Ep in E0. injection E0 as <- _. set (s0 := fst (store_run pre store_init)) in *.
  destruct (handle_step_refines (HAlloc ty ob) t0 s0 R0 I) as (t1' & E1 & R1).
  cbn [handle_step] in E1. rewrite Ea in E1. cbn [mbind outcome_bind] in E1.
  cbn [store_step] in E1, R1.
  destruct (list_find (fun i => s0 !! i = None) allocatable) as [[? k]|] eqn:Ef;
    cbn [fst snd] in *; injection E1 as -> Eh; [|by rewrite Eh in Hh].
  apply list_find_Some in Ef as (Hk & _). apply lookup_seq in Hk as [Hk ?].
  assert (Eh' : h = Z.of_nat k) by congruence. rewrite Eh' in *.
  destruct (handle_run_represents ops t1' _ R1) as (t2 & E2 & R2).
  { eapply Forall_impl; [exact Fo|]. by intros ? []. }
  destruct (store_run_keeps ops (<[k := mkEntry ty ob 1]> s0) k (mkEntry ty ob 1))
    as [(e & He & Ht & Ho) Hr]; [lia|done|by simplify_map_eq|].
  exists t2. eexists. split; [exact E2|].
  destruct (handle_step_refines (HGet (Z.of_nat k)) t2 _ R2) as (? & G1 & _); [simpl; unfold in_u; lia|].
  destruct (handle_step_refines (HGetType (Z.of_nat k)) t2 _ R2) as (? & G2 & _); [simpl; unfold in_u; lia|].
  simpl in G1, G2. rewrite Nat2Z.id, He in G1, G2. simpl in *.
  apply bind_Ret in G1 as (x1 & G1 & [= _ X1]). apply bind_Ret in G2 as (x2 & G2 & [= _ X2]).
  rewrite G1, G2, X1, X2, Ho, Ht. done.
Qed.

Definition sample_hops : list hop :=
  [HAlloc HANDLE_TYPE_EVENT (OEvent 0); HGet 3; HAddRef 3; HFree 3; HGetType 3; HFree 3; HGet 3; HGet 600].
Lemma sample_hops_wf : Forall hop_wf sample_hops.
Proof. repeat constructor; unfold hop_wf, in_u; lia. Qed.

Lemma handle_table_refines_witness :
  exists t, handle_run sample_hops wine_handle_manager_runtime_init
    = Ret (t, [RHandle 3; RObject (OEvent 0); RVoid; RVoid; RType 2; RVoid; RObject ONull; RObject ONull]).
Proof.
  destruct (handle_table_refines sample_hops sample_hops_wf) as (t & E & _). exists t.
  rewrite E. vm_compute. reflexivity.
Defined.

Lemma allocated_handle_stable_witness :
  exists t2 rs, handle_run [HAlloc 3 (OMutex 0); HFree 4; HAlloc 3 (OMutex 1)]
      (<[3%nat := mkHandle 3 2 1 (OEvent 0)]> wine_handle_manager_runtime_init) = Ret (t2, rs) /\
    wine_handle_get 3 t2 = Ret (OEvent 0) /\ wine_handle_get_type 3 t2 = Ret 2 /\ RHandle 3 ∉ rs.
Proof.
  apply (allocated_handle_stable [] 2 (OEvent 0) _ wine_handle_manager_runtime_init [] _ 3);
    [constructor|reflexivity|reflexivity|discriminate|].
  repeat constructor; simpl; try discriminate; unfold in_u; lia.
Defined.
