(* ===== verification/HandleConc.v ===== *)
(** * Concurrent use of the handle table

    Threads that run the operations of handle_manager.c under its spinlock
    (wine_spinlock_lock and wine_spinlock_unlock of include/handle_manager.h), as
    a step relation in which the allocator's loop takes one step per slot.  Every
    reachable state is explained by a sequential history: the operations are
    linearizable. *)
From S2P Require Import Prelude HandleTable.

(** Where a thread is in its operation. *)
Inductive pc :=
| Start (o : hop)                                  (* before the lock is taken *)
| Scan (type : Z) (obj : object) (i : nat)         (* allocator loop, lock held *)
| Body (o : hop)                                   (* other operations, lock held *)
| Unlock (o : hop) (r : hres)                      (* before the lock is released *)
| Finished (r : hres).

(** [hist] records each operation with its result at the release of the lock, or
    when it returns without the lock; it is not read by any thread. *)
Record config := mkConfig {
  c_lock : bool; c_table : table; c_threads : list pc; c_hist : list (hop * hres) }.

(** Handles without a slot, and the standard handles in wine_handle_free, are
    answered before the lock is taken. *)
Definition returns_early (o : hop) : option hres :=
  let no_slot h := HANDLE_TABLE_SIZE <=? h in
  match o with
  | HAlloc _ _ => None
  | HGet h => if no_slot h then Some (RObject ONull) else None
  | HGetType h => if no_slot h then Some (RType 0) else None
  | HAddRef h => if no_slot h then Some RVoid else None
  | HFree h => if (h <=? 2) || no_slot h then Some RVoid else None
  end.

(** wine_spinlock_lock: the atomic test-and-set that succeeds; a failed one
    leaves the state as it is. *)
Definition entered (o : hop) : pc :=
  match o with HAlloc ty ob => Scan ty ob 3 | _ => Body o end.

Inductive step : config -> config -> Prop :=
| step_return l t th h k o r :
    th !! k = Some (Start o) -> returns_early o = Some r ->
    step (mkConfig l t th h) (mkConfig l t (<[k := Finished r]> th) (h ++ [(o, r)]))
| step_lock t th h k o :
    th !! k = Some (Start o) -> returns_early o = None ->
    step (mkConfig false t th h) (mkConfig true t (<[k := entered o]> th) h)
| step_spin t th h k o :
    th !! k = Some (Start o) -> returns_early o = None ->
    step (mkConfig true t th h) (mkConfig true t th h)
| step_scan_next l t th h k ty ob i x :
    th !! k = Some (Scan ty ob i) -> (i < 512)%nat -> t !! i = Some x -> h_ref_count x <> 0 ->
    step (mkConfig l t th h) (mkConfig l t (<[k := Scan ty ob (S i)]> th) h)
| step_scan_take l t th h k ty ob i x :
    th !! k = Some (Scan ty ob i) -> (i < 512)%nat -> t !! i = Some x -> h_ref_count x = 0 ->
    step (mkConfig l t th h)
      (mkConfig l (<[i := mkHandle (Z.of_nat i) ty 1 ob]> t)
         (<[k := Unlock (HAlloc ty ob) (RHandle (Z.of_nat i))]> th) h)
| step_scan_full l t th h k ty ob :
    th !! k = Some (Scan ty ob 512) ->
    step (mkConfig l t th h) (mkConfig l t (<[k := Unlock (HAlloc ty ob) (RHandle 0)]> th) h)
| step_body l t th h k o t' r :
    th !! k = Some (Body o) -> handle_step o t = Ret (t', r) ->
    step (mkConfig l t th h) (mkConfig l t' (<[k := Unlock o r]> th) h)
| step_unlock l t th h k o r :
    th !! k = Some (Unlock o r) ->
    step (mkConfig l t th h) (mkConfig false t (<[k := Finished r]> th) (h ++ [(o, r)])).

(** Threads with one operation each, on the initial table. *)
Definition start (ops : list hop) : config :=
  mkConfig false wine_handle_manager_runtime_init (Start <$> ops) [].

Inductive reachable (ops : list hop) : config -> Prop :=
| reach_start : reachable ops (start ops)
| reach_step c c' : reachable ops c -> step c c' -> reachable ops c'.

Definition holds_lock (p : pc) : bool :=
  match p with Scan _ _ _ | Body _ | Unlock _ _ => true | _ => false end.

Definition pc_wf (p : pc) : Prop :=
  match p with
  | Start o | Unlock o _ => hop_wf o
  | Body o => hop_wf o /\ forall ty ob, o <> HAlloc ty ob
  | Scan _ _ i => (3 <= i <= 512)%nat
  | Finished _ => True
  end.

(** The abstract store after the history. *)
Definition store_after (h : list (hop * hres)) : store := fst (store_run (fst <$> h) store_init).

(** The table relative to the store, seen from the thread that holds the lock. *)
Definition cs_inv (t : table) (s : store) (p : pc) : Prop :=
  match p with
  | Scan _ _ i => represents t s /\ forall j, (3 <= j < i)%nat -> is_Some (s !! j)
  | Body _ => represents t s
  | Unlock o r => represents t (fst (store_step o s)) /\ r = snd (store_step o s)
  | _ => True
  end.

Record inv (c : config) : Prop := {
  inv_mutex : forall k p, c_threads c !! k = Some p -> holds_lock p = true ->
    c_lock c = true /\ forall k' p', c_threads c !! k' = Some p' -> holds_lock p' = true -> k' = k;
  inv_pcs : Forall pc_wf (c_threads c);
  inv_hist : snd <$> c_hist c = snd (store_run (fst <$> c_hist c) store_init);
  inv_free : (forall k p, c_threads c !! k = Some p -> holds_lock p = false) ->
    represents (c_table c) (store_after (c_hist c)) /\ c_lock c = false;
  inv_held : forall k p, c_threads c !! k = Some p -> holds_lock p = true ->
    cs_inv (c_table c) (store_after (c_hist c)) p
}.

Lemma store_run_app a b s :
  store_run (a ++ b) s
  = let '(s1, r1) := store_run a s in let '(s2, r2) := store_run b s1 in (s2, r1 ++ r2).
Proof.
  revert s. induction a as [|o a IH]; intros s; simpl; [by destruct (store_run b s)|].
  destruct (store_step o s) as [s1 r1]. rewrite IH.
  destruct (store_run a s1) as [s2 r2], (store_run b s2) as [s3 r3]. done.
Qed.

Lemma store_after_snoc h o r : store_after (h ++ [(o, r)]) = fst (store_step o (store_after h)).
Proof.
  unfold store_after. rewrite fmap_app, store_run_app.
  destruct (store_run (fst <$> h) store_init) as [s1 r1]. simpl. by destruct (store_step o s1).
Qed.

Lemma hist_snoc h o r :
  snd <$> h = snd (store_run (fst <$> h) store_init) -> r = snd (store_step o (store_after h)) ->
  snd <$> (h ++ [(o, r)]) = snd (store_run (fst <$> (h ++ [(o, r)])) store_init).
Proof.
  unfold store_after. rewrite !fmap_app, store_run_app.
  destruct (store_run (fst <$> h) store_init) as [s1 r1]. simpl. intros -> ->.
  by destruct (store_step o s1).
Qed.

(** Invariant after the lock holder [k] moves from [p] to another state in which
    it still holds the lock. *)
Lemma inv_move c k p p' t' :
  inv c -> c_threads c !! k = Some p -> holds_lock p = true -> holds_lock p' = true ->
  pc_wf p' -> cs_inv t' (store_after (c_hist c)) p' ->
  inv (mkConfig (c_lock c) t' (<[k := p']> (c_threads c)) (c_hist c)).
Proof.
  intros [M P H F D] Hk Hp Hp' Hw Hc. destruct (M k p Hk Hp) as [Hl Hu].
  assert (Hklt : (k < length (c_threads c))%nat) by by eapply lookup_lt_Some.
  assert (Honly : forall k' q, <[k := p']> (c_threads c) !! k' = Some q -> holds_lock q = true ->
    k' = k /\ q = p').
  { intros k' q Hq Hh. destruct (decide (k' = k)) as [->|Hne].
    - rewrite list_lookup_insert_eq in Hq by done. by injection Hq.
    - rewrite list_lookup_insert_ne in Hq by done. by destruct Hne; eapply Hu. }
  split; simpl; [|by apply Forall_insert|done| |].
  - intros k1 q Hq Hh. split; [done|]. intros k2 q2 Hq2 Hh2.
    destruct (Honly _ _ Hq Hh), (Honly _ _ Hq2 Hh2). congruence.
  - intros Hall. specialize (Hall k p'). rewrite list_lookup_insert_eq in Hall by done.
    rewrite Hall in Hp' by done. done.
  - intros k1 q Hq Hh. destruct (Honly _ _ Hq Hh) as [_ ->]. done.
Qed.

(** The scan agrees with the abstract choice of the first free slot. *)
Lemma scan_found ty ob (s : store) i :
  (3 <= i < 512)%nat -> (forall j, (3 <= j < i)%nat -> is_Some (s !! j)) -> s !! i = None ->
  store_step (HAlloc ty ob) s = (<[i := mkEntry ty ob 1]> s, RHandle (Z.of_nat i)).
Proof.
  intros Hi Hb Hn. cbn [store_step].
  assert (E : list_find (fun i => s !! i = None) allocatable = Some ((i - 3)%nat, i)).
  { apply list_find_Some. unfold allocatable. split_and!; [|done|].
    - apply lookup_seq. lia.
    - intros j y Hj Hlt Hy. apply lookup_seq in Hj as [-> _].
      destruct (Hb (3 + j)%nat) as [e He]; [lia|]. congruence. }
  by rewrite E.
Qed.

Lemma scan_full ty ob (s : store) :
  (forall j, (3 <= j < 512)%nat -> is_Some (s !! j)) ->
  store_step (HAlloc ty ob) s = (s, RHandle 0).
Proof.
  intros Hb. cbn [store_step].
  assert (E : list_find (fun i => s !! i = None) allocatable = None).
  { apply list_find_None, Forall_forall. unfold allocatable. intros j Hj Hn.
    apply list_elem_of_In, in_seq in Hj. destruct (Hb j) as [e He]; [lia|]. congruence. }
  by rewrite E.
Qed.

Lemma no_holder c : inv c -> c_lock c = false ->
  forall k p, c_threads c !! k = Some p -> holds_lock p = false.
Proof.
  intros I Hl k p Hk. destruct (holds_lock p) eqn:E; [|done].
  destruct (inv_mutex c I k p Hk E). congruence.
Qed.

Lemma entered_holds o : holds_lock (entered o) = true.
Proof. by destruct o. Qed.

(** Taking the free lock. *)
Lemma inv_lock t th h k o :
  inv (mkConfig false t th h) -> th !! k = Some (Start o) ->
  inv (mkConfig true t (<[k := entered o]> th) h).
Proof.
  intros I Hk. pose proof (no_holder _ I eq_refl) as Hno. simpl in Hno.
  destruct (inv_free _ I Hno) as [R _]. simpl in R.
  pose proof (Forall_lookup_1 _ _ _ _ (inv_pcs _ I) Hk) as Hw. simpl in Hw.
  assert (Hklt : (k < length th)%nat) by by eapply lookup_lt_Some.
  assert (Honly : forall k' q, <[k := entered o]> th !! k' = Some q -> holds_lock q = true ->
    k' = k /\ q = entered o).
  { intros k' q Hq Hh. destruct (decide (k' = k)) as [->|Hne].
    - rewrite list_lookup_insert_eq in Hq by done. by injection Hq.
    - rewrite list_lookup_insert_ne in Hq by done. by rewrite (Hno _ _ Hq) in Hh. }
  split; simpl; [| |apply I| |].
  - intros k1 q Hq Hh. split; [done|]. intros k2 q2 Hq2 Hh2.
    destruct (Honly _ _ Hq Hh), (Honly _ _ Hq2 Hh2). congruence.
  - apply Forall_insert; [apply I|]. destruct o; simpl; done || lia.
  - intros Hall. specialize (Hall k (entered o)). rewrite list_lookup_insert_eq in Hall by done.
    by rewrite entered_holds in Hall; specialize (Hall eq_refl).
  - intros k1 q Hq Hh. destruct (Honly _ _ Hq Hh) as [_ ->].
    destruct o; simpl; done || (split; [done|lia]).
Qed.

(** Releasing the lock. *)
Lemma inv_unlock l t th h k o r :
  inv (mkConfig l t th h) -> th !! k = Some (Unlock o r) ->
  inv (mkConfig false t (<[k := Finished r]> th) (h ++ [(o, r)])).
Proof.
  intros I Hk. destruct (inv_mutex _ I k _ Hk eq_refl) as [Hl Hu]. simpl in *.
  destruct (inv_held _ I k _ Hk eq_refl) as [R Er]. simpl in R, Er.
  assert (Hklt : (k < length th)%nat) by by eapply lookup_lt_Some.
  assert (Hno : forall k' q, <[k := Finished r]> th !! k' = Some q -> holds_lock q = false).
  { intros k' q Hq. destruct (decide (k' = k)) as [->|Hne].
    - rewrite list_lookup_insert_eq in Hq by done. by injection Hq as <-.
    - rewrite list_lookup_insert_ne in Hq by done. destruct (holds_lock q) eqn:E; [|done].
      by destruct Hne; eapply Hu. }
  split; simpl.
  - intros k1 q Hq Hh. by rewrite (Hno _ _ Hq) in Hh.
  - by apply Forall_insert; [apply I|].
  - apply hist_snoc; [apply I|done].
  - intros _. by rewrite store_after_snoc.
  - intros k1 q Hq Hh. by rewrite (Hno _ _ Hq) in Hh.
Qed.

(** A handle without a slot has no entry in the store. *)
Lemma store_step_dom o (s : store) :
  (forall k, (512 <= k)%nat -> s !! k = None) -> forall k, (512 <= k)%nat -> fst (store_step o s) !! k = None.
Proof.
  intros Hs k Hk. destruct o as [ty ob|h|h|h|h]; cbn [store_step]; try by apply Hs.
  - destruct (list_find _ allocatable) as [[i j]|] eqn:E; [|by apply Hs]. apply list_find_Some in E as (Hi & _ & _).
    apply lookup_seq in Hi. simpl. rewrite lookup_insert_ne by lia. by apply Hs.
  - simpl. destruct (decide (k = Z.to_nat h)) as [->|]; [by rewrite lookup_alter_eq, Hs|]. rewrite lookup_alter_ne by done. by apply Hs.
  - destruct (h <=? 2); [by apply Hs|]. destruct (s !! Z.to_nat h) as [e|] eqn:E; [|by apply Hs].
    assert (k <> Z.to_nat h) by (intros ->; by rewrite Hs in E).
    destruct (e_refs e =? 1); simpl; [rewrite lookup_delete_ne by done|rewrite lookup_insert_ne by done]; by apply Hs.
Qed.
Lemma store_after_dom h k : (512 <= k)%nat -> store_after h !! k = None.
Proof.
  unfold store_after. assert (H : forall ops (s : store), (forall k, (512 <= k)%nat -> s !! k = None) ->
    forall k, (512 <= k)%nat -> fst (store_run ops s) !! k = None).
  { induction ops as [|o ops IH]; intros s Hs; [done|]. simpl. pose proof (store_step_dom o s Hs) as H1.
    destruct (store_step o s) as [s1 r1]. specialize (IH s1 H1). by destruct (store_run ops s1). }
  apply H. intros j Hj. unfold store_init. rewrite !lookup_insert_ne, lookup_singleton_ne by lia. done.
Qed.
Lemma returns_early_store o r h :
  hop_wf o -> returns_early o = Some r -> store_step o (store_after h) = (store_after h, r).
Proof.
  intros Hw E. assert (Hd : forall x, HANDLE_TABLE_SIZE <= x -> store_after h !! Z.to_nat x = None).
  { intros x Hx. apply store_after_dom. unfold HANDLE_TABLE_SIZE in Hx. lia. }
  destruct o as [ty ob|x|x|x|x]; simpl in *; try done; destruct (Z.leb_spec HANDLE_TABLE_SIZE x) as [Hx|Hx].
  all: rewrite ?orb_true_r, ?orb_false_r in E; try done.
  - injection E as <-. by rewrite Hd.
  - injection E as <-. by rewrite Hd.
  - injection E as <-. f_equal. apply map_eq. intros k. destruct (decide (k = Z.to_nat x)) as [->|];
      [by rewrite lookup_alter_eq, Hd|by rewrite lookup_alter_ne].
  - injection E as <-. rewrite Hd by done. by destruct (x <=? 2).
  - destruct (x <=? 2); [by injection E as <-|done].
Qed.

(** Returning without the lock, also while another thread holds it. *)
Lemma inv_return l t th h k o r :
  inv (mkConfig l t th h) -> th !! k = Some (Start o) -> returns_early o = Some r ->
  inv (mkConfig l t (<[k := Finished r]> th) (h ++ [(o, r)])).
Proof.
  intros I Hk E. pose proof (Forall_lookup_1 _ _ _ _ (inv_pcs _ I) Hk) as Hw. simpl in Hw.
  pose proof (returns_early_store o r h Hw E) as Es.
  assert (Ea : store_after (h ++ [(o, r)]) = store_after h) by (by rewrite store_after_snoc, Es).
  assert (Hsame : forall k' q, <[k := Finished r]> th !! k' = Some q -> holds_lock q = true -> th !! k' = Some q).
  { intros k' q [(-> & <- & _)|[_ Hq]]%list_lookup_insert_Some Hh; done. }
  split; simpl.
  - intros k1 q Hq Hh. destruct (inv_mutex _ I k1 q (Hsame _ _ Hq Hh) Hh) as [Hl Hu]. split; [done|].
    intros k2 q2 Hq2 Hh2. apply (Hu k2 q2); [by apply Hsame|done].
  - by apply Forall_insert; [apply I|].
  - apply hist_snoc; [apply I|by rewrite Es].
  - intros Hno. rewrite Ea. apply (inv_free _ I). intros k' q Hq. simpl in Hq.
    destruct (decide (k' = k)) as [->|Hne]; [by simplify_eq|]. apply (Hno k'). by rewrite list_lookup_insert_ne.
  - intros k1 q Hq Hh. rewrite Ea. by apply (inv_held _ I k1 q (Hsame _ _ Hq Hh)).
Qed.

Lemma inv_step c c' : inv c -> step c c' -> inv c'.
Proof.
  intros I St. destruct St as [l t th h k o r Hk He|t th h k o Hk _|t th h k o Hk _|l t th h k ty ob i x Hk Hi Hx Hr
    |l t th h k ty ob i x Hk Hi Hx Hr|l t th h k ty ob Hk|l t th h k o t' r Hk Hs|l t th h k o r Hk].
  - by apply inv_return.
  - by apply inv_lock.
  - done.
  - destruct (inv_held _ I k _ Hk eq_refl) as [R Hb]. simpl in R, Hb.
    pose proof (Forall_lookup_1 _ _ _ _ (inv_pcs _ I) Hk) as Hw. simpl in Hw.
    eapply (inv_move _ k _ (Scan ty ob (S i)) t I Hk); [done..|simpl; lia|]. simpl.
    split; [done|]. intros j Hj. destruct (decide (j = i)) as [->|]; [|apply Hb; lia].
    destruct R as (_ & _ & E). rewrite E, Hx. simpl. unfold entry_of.
    rewrite (proj2 (Z.eqb_neq _ _) Hr). eauto.
  - destruct (inv_held _ I k _ Hk eq_refl) as [R Hb]. simpl in R, Hb.
    pose proof (Forall_lookup_1 _ _ _ _ (inv_pcs _ I) Hk) as Hw. simpl in Hw.
    assert (Hn : store_after h !! i = None).
    { destruct R as (_ & _ & E). rewrite E, Hx. simpl. unfold entry_of. by rewrite Hr. }
    eapply (inv_move _ k _ _ _ I Hk); [done..|]. cbn [cs_inv c_hist].
    rewrite (scan_found ty ob _ i) by (done || lia). split; [|done].
    apply (represents_insert t _ i (mkHandle (Z.of_nat i) ty 1 ob)); [done|lia|simpl; unfold in_u; lia].
  - destruct (inv_held _ I k _ Hk eq_refl) as [R Hb]. simpl in R, Hb.
    eapply (inv_move _ k _ _ t I Hk); [done..|]. cbn [cs_inv c_hist]. by rewrite scan_full.
  - pose proof (inv_held _ I k _ Hk eq_refl) as R. simpl in R.
    pose proof (Forall_lookup_1 _ _ _ _ (inv_pcs _ I) Hk) as [Hw _]. simpl in Hw.
    destruct (handle_step_refines o t _ R Hw) as (t1 & E & R1). rewrite Hs in E.
    injection E as -> ->. by eapply (inv_move _ k _ _ t1 I Hk).
  - by eapply inv_unlock.
Qed.

Lemma inv_start ops : Forall hop_wf ops -> inv (start ops).
Proof.
  intros Hw.
  assert (Hno : forall k p, (Start <$> ops) !! k = Some p -> holds_lock p = false).
  { intros k p Hk. apply list_lookup_fmap_Some in Hk as (o & -> & _). done. }
  split; simpl; [intros k p Hk H; by rewrite (Hno k p Hk) in H|by apply Forall_fmap|done| |].
  - intros _. split; [apply handle_init_represents|done].
  - intros k p Hk H; by rewrite (Hno k p Hk) in H.
Qed.

Lemma finished_insert (th : list pc) k0 p k r :
  <[k0 := p]> th !! k = Some (Finished r) -> p = Finished r \/ th !! k = Some (Finished r).
Proof. intros [(_ & <- & _)|[_ H]]%list_lookup_insert_Some; auto. Qed.

(** A finished thread's result is in the history. *)
Lemma finished_in_hist ops c k r :
  reachable ops c -> c_threads c !! k = Some (Finished r) -> r ∈ snd <$> c_hist c.
Proof.
  induction 1 as [|c c' _ IH St]; intros Hk.
  { simpl in Hk. apply list_lookup_fmap_Some in Hk as (o & ? & _). done. }
  destruct St; simpl in *; try (apply finished_insert in Hk as [E|Hk]; [|by apply IH]; done).
  - rewrite fmap_app, elem_of_app. apply finished_insert in Hk as [[= ->]|Hk].
    + right. by left.
    + left. by apply IH.
  - apply finished_insert in Hk as [E|Hk]; [by destruct o|by apply IH].
  - by apply IH.
  - rewrite fmap_app, elem_of_app. apply finished_insert in Hk as [[= ->]|Hk].
    + right. by left.
    + left. by apply IH.
Qed.

(** C6: In every interleaving the history is a sequential run of the abstract store,
    it contains the result of every finished operation, at most one thread is in
    its critical section, and whenever the lock is free the table represents the
    store after the history. *)
Theorem handle_operations_linearizable ops c :
  Forall hop_wf ops -> reachable ops c ->
  snd <$> c_hist c = snd (store_run (fst <$> c_hist c) store_init) /\
  (forall k r, c_threads c !! k = Some (Finished r) -> r ∈ snd <$> c_hist c) /\
  (forall k k' p p', c_threads c !! k = Some p -> c_threads c !! k' = Some p' ->
     holds_lock p = true -> holds_lock p' = true -> k = k') /\
  (c_lock c = false -> represents (c_table c) (store_after (c_hist c))).
Proof.
  intros Hw Hr.
  assert (I : inv c) by (induction Hr; [by apply inv_start|by eapply inv_step]).
  split_and!.
  - apply I.
  - intros k r. by apply (finished_in_hist ops).
  - intros k k' p p' H1 H2 H3 H4. destruct (inv_mutex _ I k' p' H2 H4) as [_ Hu]. by eapply Hu.
  - intros Hl. apply (inv_free _ I). by apply no_holder.
Qed.

(** Two threads allocating: the second waits while the first scans. *)
Definition two_allocs : list hop := [HAlloc HANDLE_TYPE_EVENT (OEvent 0); HAlloc HANDLE_TYPE_MUTEX (OMutex 0)].

Lemma handle_operations_linearizable_witness :
  exists c, reachable two_allocs c /\
    c_threads c = [Finished (RHandle 3); Scan HANDLE_TYPE_MUTEX (OMutex 0) 3] /\
    snd <$> c_hist c = snd (store_run (fst <$> c_hist c) store_init).
Proof.
  assert (R : exists c, reachable two_allocs c /\
    c_threads c = [Finished (RHandle 3); Scan HANDLE_TYPE_MUTEX (OMutex 0) 3]).
  { eexists. split.
    - eapply reach_step; [eapply reach_step; [eapply reach_step; [eapply reach_step;
        [apply reach_start|]|]|]|].
      + eapply (step_lock _ _ _ 0); reflexivity.
      + eapply (step_scan_take _ _ _ _ 0); [reflexivity|lia|reflexivity|reflexivity].
      + eapply (step_unlock _ _ _ _ 0). reflexivity.
      + eapply (step_lock _ _ _ 1); reflexivity.
    - reflexivity. }
  destruct R as (c & R & Ht). exists c. split; [done|]. split; [done|].
  apply (handle_operations_linearizable two_allocs c); [|exact R].
  repeat constructor.
Defined.
