(* ===== verification/Ntdll.v ===== *)
(** * NT system call handlers (src/msvcrt/ntdll_*.c)

    The kernel object tables of ntdll_priv.h and the handlers that operate on
    them: handles and files, events, mutexes and semaphores, sections and views,
    virtual memory and time.  Guest memory is a byte map; the Linux system calls
    are parameters, and the calls that release resources are recorded in the
    order they are made. *)
From S2P Require Import Prelude Bytes CStr HandleTable.

(** ** State *)

Record wine_section_t := mkSection { s_base : Z; s_size : Z; s_fd : Z; s_max_size : Z }.
Record wine_view_t := mkView { v_base : Z; v_size : Z }.
Record wine_event_t := mkEvent { ev_handle : Z; ev_signaled : Z; ev_event_type : Z }.
Record wine_mutex_t := mkMutex { mx_handle : Z; mx_locked : Z }.
Record wine_semaphore_t := mkSemaphore { sm_handle : Z; sm_count : Z; sm_max_count : Z }.
Record wine_thread_t := mkThread { th_tid : Z; th_handle : Z; th_suspended : Z }.

Definition MAX_SECTIONS : nat := 64.
Definition MAX_EVENTS : nat := 64.
Definition MAX_MUTEXES : nat := 64.
Definition MAX_SEMAPHORES : nat := 64.
Definition MAX_THREADS : nat := 32.

(** wine_kernel_objects_t; its spinlock is not taken by any handler. *)
Record kernel_objects := mkKo {
  sections : list wine_section_t; section_count : Z;
  views : list wine_view_t; view_count : Z;
  events : list wine_event_t; event_count : Z;
  mutexes : list wine_mutex_t; mutex_count : Z;
  semaphores : list wine_semaphore_t; semaphore_count : Z;
  threads : list wine_thread_t; thread_count : Z }.

(** [g_ko = {0}] *)
Definition g_ko_init : kernel_objects :=
  mkKo (replicate MAX_SECTIONS (mkSection 0 0 0 0)) 0 (replicate MAX_SECTIONS (mkView 0 0)) 0
    (replicate MAX_EVENTS (mkEvent 0 0 0)) 0 (replicate MAX_MUTEXES (mkMutex 0 0)) 0
    (replicate MAX_SEMAPHORES (mkSemaphore 0 0 0)) 0 (replicate MAX_THREADS (mkThread 0 0 0)) 0.

Abbreviation mem := (gmap Z Z).

(** System calls whose effect is outside the modelled state. *)
Inductive syscall :=
| SysClose (fd : Z)
| SysMunmap (addr size : Z)
| SysKill (tid : Z).
#[export] Instance syscall_eq_dec : EqDecision syscall.
Proof. solve_decision. Defined.

Record nt_state := mkNt {
  nt_handles : table; nt_ko : kernel_objects; nt_mem : mem; nt_log : list syscall }.

Definition nt_init (m : mem) : nt_state :=
  mkNt wine_handle_manager_runtime_init g_ko_init m [].

(** ** A state and error monad *)

Definition nt (A : Type) : Type := nt_state -> outcome (A * nt_state).
#[export] Instance nt_ret : MRet nt := fun _ a s => Ret (a, s).
#[export] Instance nt_bind : MBind nt := fun _ _ f m s => '(a, s) ← m s; f a s.

Definition get_ko : nt kernel_objects := fun s => Ret (nt_ko s, s).
Definition set_ko (k : kernel_objects) : nt unit :=
  fun s => Ret (tt, mkNt (nt_handles s) k (nt_mem s) (nt_log s)).
Definition log_call (c : syscall) : nt unit :=
  fun s => Ret (tt, mkNt (nt_handles s) (nt_ko s) (nt_mem s) (nt_log s ++ [c])).
Definition lift {A} (o : outcome A) : nt A := fun s => a ← o; Ret (a, s).
(** Operations of the handle manager on the table of the state. *)
Definition on_handles {A} (f : table -> outcome (table * A)) : nt A :=
  fun s => '(t, a) ← f (nt_handles s); Ret (a, mkNt t (nt_ko s) (nt_mem s) (nt_log s)).
Definition handle_alloc (type : Z) (obj : object) : nt Z :=
  on_handles (fun t => wine_handle_alloc type obj t).
Definition handle_get (h : Z) : nt object := on_handles (fun t => o ← wine_handle_get h t; Ret (t, o)).
Definition handle_get_type (h : Z) : nt Z :=
  on_handles (fun t => o ← wine_handle_get_type h t; Ret (t, o)).
Definition handle_free (h : Z) : nt unit := on_handles (fun t => t ← wine_handle_free h t; Ret (t, tt)).

(** Loads and stores of [n] bytes of guest memory. *)
Fixpoint mload_bytes (n : nat) (a : Z) (m : mem) : option bytes :=
  match n with
  | O => Some []
  | S n => b ← m !! a; rest ← mload_bytes n (a + 1) m; Some (b :: rest)
  end.
Fixpoint mstore_bytes (a : Z) (bs : bytes) (m : mem) : option mem :=
  match bs with
  | [] => Some m
  | b :: bs => _ ← m !! a; mstore_bytes (a + 1) bs (<[a := b]> m)
  end.
Definition mload (n : nat) (a : Z) : nt Z := fun s =>
  bs ← deref (mload_bytes n a (nt_mem s)); Ret (le_combine bs, s).
Definition mstore_list (a : Z) (bs : bytes) : nt unit := fun s =>
  m ← deref (mstore_bytes a bs (nt_mem s));
  Ret (tt, mkNt (nt_handles s) (nt_ko s) m (nt_log s)).
Definition mstore (n : nat) (a v : Z) : nt unit := mstore_list a (le_split n v).

(** [if (p != 0) *p = v;] with an n-byte object. *)
Definition mstore_opt (n : nat) (a v : Z) : nt unit := if a =? 0 then mret tt else mstore n a v.

Definition STATUS_SUCCESS : Z := 0.
Definition STATUS_TIMEOUT : Z := 0x80.
Definition STATUS_UNSUCCESSFUL : Z := 0xC0000001.
Definition STATUS_INVALID_HANDLE : Z := 0xC0000008.
Definition STATUS_INVALID_PARAMETER : Z := 0xC000000D.
Definition STATUS_ACCESS_DENIED : Z := 0xC0000022.
Definition STATUS_MEMORY_NOT_AVAILABLE : Z := 0xC0000098.

(** ** Field updates of the kernel object store *)

Definition set_events (l : list wine_event_t) (n : Z) (k : kernel_objects) : kernel_objects :=
  mkKo (sections k) (section_count k) (views k) (view_count k) l n (mutexes k) (mutex_count k)
    (semaphores k) (semaphore_count k) (threads k) (thread_count k).
Definition set_mutexes (l : list wine_mutex_t) (n : Z) (k : kernel_objects) : kernel_objects :=
  mkKo (sections k) (section_count k) (views k) (view_count k) (events k) (event_count k) l n
    (semaphores k) (semaphore_count k) (threads k) (thread_count k).
Definition set_semaphores (l : list wine_semaphore_t) (n : Z) (k : kernel_objects) : kernel_objects :=
  mkKo (sections k) (section_count k) (views k) (view_count k) (events k) (event_count k)
    (mutexes k) (mutex_count k) l n (threads k) (thread_count k).
Definition set_threads (l : list wine_thread_t) (n : Z) (k : kernel_objects) : kernel_objects :=
  mkKo (sections k) (section_count k) (views k) (view_count k) (events k) (event_count k)
    (mutexes k) (mutex_count k) (semaphores k) (semaphore_count k) l n.
Definition set_sections (l : list wine_section_t) (n : Z) (k : kernel_objects) : kernel_objects :=
  mkKo l n (views k) (view_count k) (events k) (event_count k)
    (mutexes k) (mutex_count k) (semaphores k) (semaphore_count k) (threads k) (thread_count k).
Definition set_views (l : list wine_view_t) (n : Z) (k : kernel_objects) : kernel_objects :=
  mkKo (sections k) (section_count k) l n (events k) (event_count k)
    (mutexes k) (mutex_count k) (semaphores k) (semaphore_count k) (threads k) (thread_count k).

(** [ko_xxx(i)->... = ...]: the entry exists or the access is out of bounds. *)
Definition put {A} (i : nat) (x : A) (l : list A) : outcome (list A) :=
  _ ← deref (l !! i); Ret (<[i := x]> l).

(** ** Handlers *)

Section handlers.
Context {A : Arch}.

(** Linux: mmap (an address or minus an error number), munmap, openat, write, read, the size of
    a file by fstat, clone, clock_gettime. *)
Variable sys_mmap : forall (addr size prot flags fd off : Z), mem -> Z * mem.
Variable sys_munmap : forall (addr size : Z), mem -> Z * mem.
Variable sys_openat : forall (path : cstr) (oflags : Z), Z.
Variable sys_write : forall (fd buf len : Z), mem -> Z.
Variable sys_read : forall (fd buf len : Z), mem -> Z * mem.
Variable sys_fstat : forall (fd : Z), option Z.
Variable sys_clone : forall (args : Z), Z.
Variable sys_clock_gettime : forall (clock : Z), option (Z * Z).
(** createfile_fds_32[0 .. createfile_fd_count_32 - 1]. *)
Variable createfile_fds_32 : list Z.

(** [None] is MAP_FAILED. *)
Definition mmap (addr size prot flags fd off : Z) : nt (option Z) := fun s =>
  let '(ret, m) := sys_mmap addr size prot flags fd off (nt_mem s) in
  let p := INLINE_SYSCALL_MMAP ret in
  Ret (if p =? MAP_FAILED then None else Some p, mkNt (nt_handles s) (nt_ko s) m (nt_log s)).
Definition munmap (addr size : Z) : nt Z := fun s =>
  let '(r, m) := sys_munmap addr size (nt_mem s) in
  Ret (r, mkNt (nt_handles s) (nt_ko s) m (nt_log s ++ [SysMunmap addr size])).

(** *** ntdll_handle.c *)

Definition handle_to_fd (handle : Z) : nt Z :=
  if handle =? STDIN_HANDLE then mret 0
  else if handle =? STDOUT_HANDLE then mret 1
  else if handle =? STDERR_HANDLE then mret 2
  else
    let direct :=
      if is_my_wine32 && (3 <=? handle) && (handle <? 67)
      then createfile_fds_32 !! Z.to_nat (handle - 3) else None in
    match direct with
    | Some fd => mret fd
    | None =>
        type ← handle_get_type (u32 handle);
        if negb (type =? HANDLE_TYPE_FILE) then mret (-1)
        else
          obj ← handle_get (u32 handle);
          match (obj : object) with
          | ONull => mret (-1)
          | OFd fd => mret (i32 fd)
          | _ => lift Fault
          end
    end.

Definition fd_to_handle (fd : Z) : nt Z := handle_alloc HANDLE_TYPE_FILE (fd_object (usize fd)).

Definition is_std_handle (handle : Z) : bool :=
  (handle =? STDIN_HANDLE) || (handle =? STDOUT_HANDLE) || (handle =? STDERR_HANDLE).

Definition nt_free_handle (handle : Z) : nt unit :=
  if is_std_handle handle then mret tt else handle_free (u32 handle).

Definition handler_NtClose (handle : Z) : nt Z :=
  if is_std_handle handle then mret STATUS_SUCCESS
  else if handle <=? 2 then mret STATUS_SUCCESS
  else
    type ← handle_get_type (u32 handle);
    if type =? 0 then mret STATUS_INVALID_HANDLE
    else if type =? HANDLE_TYPE_FILE then
      obj ← handle_get (u32 handle);
      _ ← (match (obj : object) with
           | ONull => mret tt
           | OFd fd => log_call (SysClose (i32 fd))
           | _ => lift Fault
           end);
      _ ← handle_free (u32 handle);
      mret STATUS_SUCCESS
    else if type =? HANDLE_TYPE_SECTION then
      obj ← handle_get (u32 handle);
      _ ← (match (obj : object) with
           | ONull => mret tt
           | OSection i =>
               k ← get_ko;
               sec ← lift (deref (sections k !! i));
               if s_base sec =? 0 then mret tt
               else
                 _ ← munmap (s_base sec) (s_size sec);
                 k ← get_ko;
                 l ← lift (put i (mkSection 0 (s_size sec) (s_fd sec) (s_max_size sec)) (sections k));
                 set_ko (set_sections l (section_count k) k)
           | _ => lift Fault
           end);
      _ ← handle_free (u32 handle);
      mret STATUS_SUCCESS
    else
      _ ← handle_free (u32 handle);
      mret STATUS_SUCCESS.

(** *** ntdll_objects.c *)

Definition handler_NtCreateEvent (event_handle event_type initial_state : Z) : nt Z :=
  k ← get_ko;
  if Z.of_nat MAX_EVENTS <=? event_count k then mret STATUS_MEMORY_NOT_AVAILABLE
  else
    let slot := event_count k in
    _ ← set_ko (set_events (events k) (slot + 1) k);
    h ← handle_alloc HANDLE_TYPE_EVENT (OEvent (Z.to_nat slot));
    let handle := u32 h in
    k ← get_ko;
    if handle =? 0 then
      _ ← set_ko (set_events (events k) slot k);
      mret STATUS_MEMORY_NOT_AVAILABLE
    else
      l ← lift (put (Z.to_nat slot)
                  (mkEvent (i32 handle) (if initial_state =? 0 then 0 else 1) (i32 event_type))
                  (events k));
      _ ← set_ko (set_events l (event_count k) k);
      _ ← mstore_opt 8 event_handle handle;
      mret STATUS_SUCCESS.

Definition PAGE_SIZE : Z := 4096.

(** The clone'd thread runs guest code; only the creator's side is modelled. *)
Definition handler_NtCreateThreadEx (thread_handle start_routine argument create_flags : Z) : nt Z :=
  k ← get_ko;
  if Z.of_nat MAX_THREADS <=? thread_count k then mret STATUS_MEMORY_NOT_AVAILABLE
  else
    args ← mmap 0 PAGE_SIZE 3 0x22 (-1) 0;
    match (args : option Z) with
    | None => mret STATUS_MEMORY_NOT_AVAILABLE
    | Some args =>
        let w := Z.to_nat (ptr_bits / 8) in
        _ ← mstore w args (usize start_routine);
        _ ← mstore w (args + ptr_bits / 8) (usize argument);
        let tid := sys_clone args in
        if tid <? 0 then
          _ ← munmap args PAGE_SIZE;
          mret STATUS_UNSUCCESSFUL
        else
          k ← get_ko;
          let slot := thread_count k in
          _ ← set_ko (set_threads (threads k) (slot + 1) k);
          h ← handle_alloc HANDLE_TYPE_THREAD (OThread (Z.to_nat slot));
          let handle := u32 h in
          k ← get_ko;
          if handle =? 0 then
            _ ← set_ko (set_threads (threads k) slot k);
            _ ← log_call (SysKill tid);
            mret STATUS_MEMORY_NOT_AVAILABLE
          else
            l ← lift (put (Z.to_nat slot)
                        (mkThread (i32 tid) (i32 handle)
                           (if Z.land create_flags 4 =? 0 then 0 else 1)) (threads k));
            _ ← set_ko (set_threads l (thread_count k) k);
            _ ← mstore_opt 8 thread_handle handle;
            mret STATUS_SUCCESS
    end.

Definition handler_NtGetContextThread (context : Z) : nt Z :=
  if context =? 0 then mret STATUS_SUCCESS
  else
    _ ← mstore_list context (replicate 544 0);
    mret STATUS_SUCCESS.
Definition handler_NtSetContextThread (context : Z) : nt Z := mret STATUS_SUCCESS.

(** *** ntdll_synchronization.c *)

(** Index of the first entry, below the count, with the handle. *)
Fixpoint find_loop {X} (key : X -> Z) (l : list X) (handle : Z) (todo i : nat) : outcome (option nat) :=
  match todo with
  | O => Ret None
  | S todo =>
      x ← deref (l !! i);
      if key x =? handle then Ret (Some i) else find_loop key l handle todo (S i)
  end.
Definition find_event (k : kernel_objects) (handle : Z) : outcome (option nat) :=
  find_loop ev_handle (events k) handle (Z.to_nat (event_count k)) 0.
Definition find_mutex (k : kernel_objects) (handle : Z) : outcome (option nat) :=
  find_loop mx_handle (mutexes k) handle (Z.to_nat (mutex_count k)) 0.

Definition ko_event (i : nat) : nt wine_event_t := k ← get_ko; lift (deref (events k !! i)).
Definition set_signaled (i : nat) (v : Z) : nt unit :=
  k ← get_ko;
  e ← lift (deref (events k !! i));
  set_ko (set_events (<[i := mkEvent (ev_handle e) v (ev_event_type e)]> (events k)) (event_count k) k).

Definition change_event (v : Z) (handle previous_state : Z) : nt Z :=
  k ← get_ko;
  slot ← lift (find_event k (i32 handle));
  match (slot : option nat) with
  | None => mret STATUS_INVALID_HANDLE
  | Some slot =>
      e ← ko_event slot;
      _ ← mstore_opt 8 previous_state (u64 (ev_signaled e));
      _ ← set_signaled slot v;
      mret STATUS_SUCCESS
  end.
Definition handler_NtSetEvent : Z -> Z -> nt Z := change_event 1.
Definition handler_NtResetEvent : Z -> Z -> nt Z := change_event 0.

(** A test of the event: [Some STATUS_SUCCESS] when it is signaled, and then an
    auto-reset event is reset. *)
Definition take_if_signaled (slot : nat) : nt bool :=
  e ← ko_event slot;
  if ev_signaled e =? 0 then mret false
  else
    _ ← (if ev_event_type e =? 1 then set_signaled slot 0 else mret tt);
    mret true.

(** Waiting.  [others n] is what the rest of the process does to the state
    during the [n]-th sleep, [nanosleep n ns] the result of that system call for
    a request of [ns] nanoseconds and the remaining time it reports; both are
    arbitrary.  The fuel bounds the number of sleeps: [None] means that the
    handler has not returned after that many. *)
Variable others : forall (n : nat), nt_state -> nt_state.
Variable nanosleep : forall (n : nat) (ns : Z), Z * Z.

Definition sleep (n : nat) (ns : Z) : nt (Z * Z) := fun s => Ret (nanosleep n ns, others n s).

Fixpoint wait_forever (slot : nat) (fuel n : nat) : nt (option Z) :=
  match fuel with
  | O => mret None
  | S fuel =>
      e ← ko_event slot;
      if negb (ev_signaled e =? 0) then
        _ ← (if ev_event_type e =? 1 then set_signaled slot 0 else mret tt);
        mret (Some STATUS_SUCCESS)
      else
        _ ← sleep n 1000000;
        wait_forever slot fuel (S n)
  end.

(** The test after the loop. *)
Definition wait_final (slot : nat) : nt (option Z) :=
  hit ← take_if_signaled slot;
  mret (Some (if (hit : bool) then STATUS_SUCCESS else STATUS_TIMEOUT)).

Fixpoint wait_relative (slot : nat) (delay_ns : Z) (fuel n : nat) (elapsed : Z) : nt (option Z) :=
  match fuel with
  | O => mret None
  | S fuel =>
      if elapsed <? delay_ns then
        hit ← take_if_signaled slot;
        if (hit : bool) then mret (Some STATUS_SUCCESS)
        else
          let remaining := delay_ns - elapsed in
          let sleep_us := Z.min (remaining / 1000) 100000 in
          r ← sleep n (sleep_us * 1000);
          let slept := if fst (r : Z * Z) =? 0 then sleep_us * 1000 else snd (r : Z * Z) in
          wait_relative slot delay_ns fuel (S n) (u64 (elapsed + slept))
      else wait_final slot
  end.

Definition handler_NtWaitForSingleObject (fuel : nat) (handle timeout_ptr : Z) : nt (option Z) :=
  k ← get_ko;
  slot ← lift (find_event k (i32 handle));
  match (slot : option nat) with
  | None => mret (Some STATUS_INVALID_HANDLE)
  | Some slot =>
      if timeout_ptr =? 0 then wait_forever slot fuel 0
      else
        v ← mload 8 timeout_ptr;
        let timeout_100ns := i64 v in
        if timeout_100ns =? 0 then
          hit ← take_if_signaled slot;
          mret (Some (if (hit : bool) then STATUS_SUCCESS else STATUS_TIMEOUT))
        else if timeout_100ns <? 0 then
          let delay_ns := u64 (u64 (- timeout_100ns) * 100) in
          wait_relative slot delay_ns fuel 0 0
        else wait_final slot
  end.

Definition handler_NtCreateMutex (mutex_handle : Z) : nt Z :=
  k ← get_ko;
  if Z.of_nat MAX_MUTEXES <=? mutex_count k then mret STATUS_MEMORY_NOT_AVAILABLE
  else
    let slot := mutex_count k in
    _ ← set_ko (set_mutexes (mutexes k) (slot + 1) k);
    h ← handle_alloc HANDLE_TYPE_MUTEX (OMutex (Z.to_nat slot));
    let handle := u32 h in
    k ← get_ko;
    if handle =? 0 then
      _ ← set_ko (set_mutexes (mutexes k) slot k);
      mret STATUS_MEMORY_NOT_AVAILABLE
    else
      l ← lift (put (Z.to_nat slot) (mkMutex (i32 handle) 0) (mutexes k));
      _ ← set_ko (set_mutexes l (mutex_count k) k);
      _ ← mstore_opt 8 mutex_handle handle;
      mret STATUS_SUCCESS.

Definition handler_NtReleaseMutex (handle : Z) : nt Z :=
  k ← get_ko;
  slot ← lift (find_mutex k (i32 handle));
  match (slot : option nat) with
  | None => mret STATUS_INVALID_HANDLE
  | Some slot =>
      m ← lift (deref (mutexes k !! slot));
      if mx_locked m =? 0 then mret STATUS_INVALID_HANDLE
      else
        l ← lift (put slot (mkMutex (mx_handle m) 0) (mutexes k));
        _ ← set_ko (set_mutexes l (mutex_count k) k);
        mret STATUS_SUCCESS
  end.

Definition handler_NtCreateSemaphore (semaphore_handle initial_count maximum_count : Z) : nt Z :=
  if maximum_count =? 0 then mret STATUS_INVALID_PARAMETER
  else
    k ← get_ko;
    if Z.of_nat MAX_SEMAPHORES <=? semaphore_count k then mret STATUS_MEMORY_NOT_AVAILABLE
    else
      let initial_count := if maximum_count <? initial_count then maximum_count else initial_count in
      let slot := semaphore_count k in
      _ ← set_ko (set_semaphores (semaphores k) (slot + 1) k);
      h ← handle_alloc HANDLE_TYPE_SEMAPHORE (OSemaphore (Z.to_nat slot));
      let handle := u32 h in
      k ← get_ko;
      if handle =? 0 then
        _ ← set_ko (set_semaphores (semaphores k) slot k);
        mret STATUS_MEMORY_NOT_AVAILABLE
      else
        l ← lift (put (Z.to_nat slot)
                    (mkSemaphore (i32 handle) (i32 initial_count) (i32 maximum_count)) (semaphores k));
        _ ← set_ko (set_semaphores l (semaphore_count k) k);
        _ ← mstore_opt 8 semaphore_handle handle;
        mret STATUS_SUCCESS.

(** *** ntdll_memory.c *)

Definition PROT_READ : Z := 1.
Definition PROT_WRITE : Z := 2.
Definition PROT_EXEC : Z := 4.
Definition MAP_PRIVATE : Z := 2.
Definition MAP_ANONYMOUS : Z := 0x20.

Definition map_protect (protect : Z) : Z :=
  let p := i32 protect in
  if p =? 0x02 then PROT_READ
  else if p =? 0x04 then Z.lor PROT_READ PROT_WRITE
  else if p =? 0x10 then PROT_EXEC
  else if p =? 0x20 then Z.lor PROT_READ PROT_EXEC
  else if p =? 0x40 then Z.lor (Z.lor PROT_READ PROT_WRITE) PROT_EXEC
  else Z.lor PROT_READ PROT_WRITE.

Definition HANDLE_CURRENT_PROCESS : Z := 0xFFFFFFFF.

(** [base_address != 0 && *base_address != 0 ? *base_address : NULL] *)
Definition requested_addr (base_address : Z) : nt Z :=
  if base_address =? 0 then mret 0 else a ← mload 8 base_address; mret (usize a).

Definition handler_NtAllocateVirtualMemory (process base_address region_size protect : Z) : nt Z :=
  if negb (process =? HANDLE_CURRENT_PROCESS) then mret STATUS_ACCESS_DENIED
  else
    addr ← requested_addr base_address;
    sz ← mload 8 region_size;
    r ← mmap addr (usize sz) (map_protect protect) (Z.lor MAP_PRIVATE MAP_ANONYMOUS) (-1) 0;
    match (r : option Z) with
    | None => mret STATUS_MEMORY_NOT_AVAILABLE
    | Some result => _ ← mstore_opt 8 base_address result; mret STATUS_SUCCESS
    end.

Definition handler_NtFreeVirtualMemory (process base_address region_size : Z) : nt Z :=
  if negb (process =? HANDLE_CURRENT_PROCESS) then mret STATUS_ACCESS_DENIED
  else if base_address =? 0 then mret STATUS_INVALID_PARAMETER
  else
    base ← mload 8 base_address;
    if base =? 0 then mret STATUS_INVALID_PARAMETER
    else
      sz ← mload 8 region_size;
      res ← munmap (usize base) (usize sz);
      if negb (res =? 0) then mret STATUS_UNSUCCESSFUL
      else
        _ ← mstore 8 base_address 0;
        _ ← mstore 8 region_size 0;
        mret STATUS_SUCCESS.

(** sysv_memcpy within guest memory. *)
Definition mcopy (dst src len : Z) : nt unit := fun s =>
  bs ← deref (mload_bytes (Z.to_nat len) src (nt_mem s)); mstore_list dst bs s.

Definition register_view (base size : Z) : nt unit :=
  k ← get_ko;
  if view_count k <? Z.of_nat MAX_SECTIONS then
    l ← lift (put (Z.to_nat (view_count k)) (mkView base size) (views k));
    set_ko (set_views l (view_count k + 1) k)
  else mret tt.

Definition handler_NtMapViewOfSection (section_handle base_address commit_size section_offset
    view_size protect : Z) : nt Z :=
  obj ← handle_get (u32 section_handle);
  match (obj : object) with
  | ONull => mret STATUS_INVALID_HANDLE
  | OSection i =>
      k ← get_ko;
      sec ← lift (deref (sections k !! i));
      let sz := if commit_size =? 0 then s_size sec else usize commit_size in
      let view_sz := if s_size sec <? sz then s_size sec else sz in
      offset ← (if section_offset =? 0 then mret 0 else mload 8 section_offset);
      let prot := map_protect protect in
      addr ← requested_addr base_address;
      r ← (if 0 <=? s_fd sec then mmap addr view_sz prot MAP_PRIVATE (s_fd sec) offset
           else
             r ← mmap addr view_sz prot (Z.lor MAP_PRIVATE MAP_ANONYMOUS) (-1) 0;
             match (r : option Z) with
             | Some p =>
                 _ ← (if s_base sec =? 0 then mret tt else mcopy p (s_base sec + offset) view_sz);
                 mret (Some p)
             | None => mret None
             end);
      match (r : option Z) with
      | None => mret STATUS_MEMORY_NOT_AVAILABLE
      | Some result =>
          _ ← mstore_opt 8 base_address result;
          _ ← mstore_opt 8 view_size view_sz;
          _ ← register_view result view_sz;
          mret STATUS_SUCCESS
      end
  | _ => lift Fault
  end.

Definition find_view (k : kernel_objects) (base : Z) : outcome (option nat) :=
  find_loop v_base (views k) base (Z.to_nat (view_count k)) 0.

Definition handler_NtUnmapViewOfSection (base_address : Z) : nt Z :=
  if base_address =? 0 then mret STATUS_INVALID_PARAMETER
  else
    k ← get_ko;
    idx ← lift (find_view k (usize base_address));
    match (idx : option nat) with
    | None => mret STATUS_INVALID_PARAMETER
    | Some idx =>
        v ← lift (deref (views k !! idx));
        res ← munmap (v_base v) (v_size v);
        if negb (res =? 0) then mret STATUS_UNSUCCESSFUL
        else
          last ← lift (deref (views k !! Z.to_nat (view_count k - 1)));
          l ← lift (put idx last (views k));
          _ ← set_ko (set_views l (view_count k - 1) k);
          mret STATUS_SUCCESS
    end.

Definition handler_NtCreateSection (section_handle max_size page_protection file_handle : Z) : nt Z :=
  k ← get_ko;
  if Z.of_nat MAX_SECTIONS <=? section_count k then mret STATUS_MEMORY_NOT_AVAILABLE
  else
    max ← mload 8 max_size;
    (* file descriptor and size, or the status of an early return *)
    fs ← (if file_handle =? 0 then mret (inl (-1, usize max))
          else
            fd ← handle_to_fd file_handle;
            if fd <? 0 then mret (inr STATUS_INVALID_HANDLE)
            else match sys_fstat fd with
                 | None => mret (inr STATUS_UNSUCCESSFUL)
                 | Some sz => mret (inl (fd, usize sz))
                 end);
    match (fs : (Z * Z) + Z) with
    | inr status => mret status
    | inl (fd, size) =>
        b ← mmap 0 size (map_protect page_protection) (Z.lor MAP_PRIVATE MAP_ANONYMOUS) (-1) 0;
        match (b : option Z) with
        | None => mret STATUS_MEMORY_NOT_AVAILABLE
        | Some base =>
            ok ← (if 0 <=? fd then
                    t ← mmap 0 size PROT_READ MAP_PRIVATE fd 0;
                    match (t : option Z) with
                    | None => mret false
                    | Some temp => _ ← mcopy base temp size; _ ← munmap temp size; mret true
                    end
                  else mret true);
            if negb ok then mret STATUS_UNSUCCESSFUL
            else
              k ← get_ko;
              let idx := Z.to_nat (section_count k) in
              max ← mload 8 max_size;
              l ← lift (put idx (mkSection base size fd max) (sections k));
              _ ← set_ko (set_sections l (section_count k + 1) k);
              h ← handle_alloc HANDLE_TYPE_SECTION (OSection idx);
              _ ← mstore 8 section_handle h;
              mret STATUS_SUCCESS
        end
    end.

(** *** ntdll_time.c *)

Definition CLOCK_REALTIME : Z := 0.
Definition CLOCK_MONOTONIC : Z := 1.

Definition handler_NtQuerySystemTime (ft_ptr : Z) : nt Z :=
  match sys_clock_gettime CLOCK_REALTIME with
  | None => mret STATUS_UNSUCCESSFUL
  | Some (tv_sec, tv_nsec) =>
      let filetime := u64 (u64 (u64 tv_sec * 10000000) + u64 tv_nsec / 100) in
      let filetime := u64 (filetime + 116444736000000000) in
      _ ← mstore_opt 8 ft_ptr filetime;
      mret STATUS_SUCCESS
  end.

Definition handler_NtQueryPerformanceCounter (li_ptr : Z) : nt Z :=
  match sys_clock_gettime CLOCK_MONOTONIC with
  | None => mret STATUS_UNSUCCESSFUL
  | Some (tv_sec, tv_nsec) =>
      let counter := u64 (u64 (u64 tv_sec * 10000000) + u64 tv_nsec / 100) in
      _ ← mstore_opt 8 li_ptr counter;
      mret STATUS_SUCCESS
  end.

Definition handler_NtQueryPerformanceFrequency (li_ptr : Z) : nt Z :=
  _ ← mstore_opt 8 li_ptr 10000000;
  mret STATUS_SUCCESS.

(** One sleep of [sec] seconds and [nsec] nanoseconds; [true] when it ends
    without an error. *)
Variable sleep_ok : forall (sec nsec : Z), bool.

Definition handler_NtDelayExecution (timeout_ptr : Z) : nt Z :=
  if timeout_ptr =? 0 then mret STATUS_SUCCESS
  else
    v ← mload 8 timeout_ptr;
    let timeout_100ns := i64 v in
    if 0 <=? timeout_100ns then mret STATUS_SUCCESS
    else
      let delay_100ns := u64 (- timeout_100ns) in
      if sleep_ok (delay_100ns / 10000000) ((delay_100ns mod 10000000) * 100)
      then mret STATUS_SUCCESS else mret STATUS_UNSUCCESSFUL.

(** *** ntdll_io.c *)

Definition handler_NtWriteFile (file_handle buffer length_ bytes_written : Z) : nt Z :=
  fd ← handle_to_fd file_handle;
  if fd <? 0 then mret STATUS_INVALID_HANDLE
  else
    n ← (fun s => Ret (sys_write fd (usize buffer) length_ (nt_mem s), s));
    if n <? 0 then mret STATUS_UNSUCCESSFUL
    else
      _ ← mstore_opt 4 bytes_written (u32 n);
      mret STATUS_SUCCESS.

Definition handler_NtReadFile (file_handle buffer length_ bytes_read : Z) : nt Z :=
  fd ← handle_to_fd file_handle;
  if fd <? 0 then mret STATUS_INVALID_HANDLE
  else
    n ← (fun s => let '(n, m) := sys_read fd (usize buffer) length_ (nt_mem s) in
                  Ret (n, mkNt (nt_handles s) (nt_ko s) m (nt_log s)));
    if n <? 0 then mret STATUS_UNSUCCESSFUL
    else
      _ ← mstore_opt 4 bytes_read (u32 n);
      mret STATUS_SUCCESS.

Definition GENERIC_READ : Z := 0x80000000.
Definition GENERIC_WRITE : Z := 0x40000000.

(** The open flags for a desired access. *)
Definition open_flags (desired_access : Z) : Z :=
  let r := negb (Z.land desired_access GENERIC_READ =? 0) in
  let w := negb (Z.land desired_access GENERIC_WRITE =? 0) in
  let oflags := if w then 2 else 0 in
  if negb r && negb w then 0 else oflags.

(** The conversion loop: wcs[i] is a wchar_t of the build, four bytes. *)
Fixpoint convert_path (wcs : Z) (todo : nat) (i : Z) : nt cstr :=
  match todo with
  | O => mret []
  | S todo =>
      c ← mload 4 (wcs + 4 * i);
      if c =? 0 then mret []
      else
        rest ← convert_path wcs todo (i + 1);
        mret ((if i32 c <? 0x80 then u8 c else 63) :: rest)
  end.

(** The path of the OBJECT_ATTRIBUTES, if it has one (packed structures:
    ObjectName at 12; Length at 0 and Buffer at 4 of the UNICODE_STRING). *)
Definition object_path (object_attributes : Z) : nt (option cstr) :=
  if object_attributes =? 0 then mret None
  else
    name ← mload 8 (object_attributes + 12);
    let name := usize name in
    if name =? 0 then mret None
    else
      len ← mload 2 name;
      let wcs_len := if 16384 <? len then 16384 else len in
      buffer ← mload 8 (name + 4);
      if 0 <? wcs_len then
        let max_len := Z.min (wcs_len / 2) 2047 in
        p ← convert_path (usize buffer) (Z.to_nat max_len) 0;
        mret (cstr_from (p ++ [0]))
      else mret None.

Definition handler_NtOpenFile (file_handle desired_access object_attributes io_status_block : Z) : nt Z :=
  path ← object_path object_attributes;
  let open_path := default (lit "/dev/null"%string) path in
  let fd := i32 (sys_openat open_path (open_flags desired_access)) in
  if fd <? 0 then mret STATUS_UNSUCCESSFUL
  else
    handle ← fd_to_handle fd;
    if handle =? 0 then
      _ ← log_call (SysClose fd);
      mret STATUS_UNSUCCESSFUL
    else
      _ ← mstore 8 file_handle handle;
      _ ← (if io_status_block =? 0 then mret tt else mstore 8 (usize io_status_block + 8) 0);
      mret STATUS_SUCCESS.
End handlers.
