(* ===== verification/NtSync.v ===== *)
(** * Events and waits (theorems on src/msvcrt/ntdll_objects.c and
      ntdll_synchronization.c)

    The event handlers refine a map from handles to events; a wait without a
    timeout returns when the event becomes signaled; a relative timeout expires
    when it is a whole number of microseconds, and never does otherwise. *)
From S2P Require Import Prelude Bytes CStr HandleTable Ntdll.

(** ** Guest memory *)

Definition mapped (m : mem) (a : Z) (n : nat) : Prop := forall i, (i < n)%nat -> is_Some (m !! (a + Z.of_nat i)).

Lemma mapped_S m a n : mapped m a (S n) <-> is_Some (m !! a) /\ mapped m (a + 1) n.
Proof.
  unfold mapped. split.
  - intros H. split; [specialize (H 0%nat ltac:(lia)); by rewrite Z.add_0_r in H|].
    intros i Hi. specialize (H (S i) ltac:(lia)). by replace (a + 1 + Z.of_nat i) with (a + Z.of_nat (S i)) by lia.
  - intros [H0 H] [|i] Hi; [by rewrite Z.add_0_r|]. specialize (H i ltac:(lia)).
    by replace (a + Z.of_nat (S i)) with (a + 1 + Z.of_nat i) by lia.
Qed.

Lemma mload_bytes_insert_lt n a m x b : x < a -> mload_bytes n a (<[x := b]> m) = mload_bytes n a m.
Proof.
  revert a. induction n as [|n IH]; intros a Hx; [done|]. cbn [mload_bytes].
  rewrite lookup_insert_ne by lia. by rewrite IH by lia.
Qed.

Lemma mstore_bytes_lt bs a m m' x : mstore_bytes a bs m = Some m' -> x < a -> m' !! x = m !! x.
Proof.
  revert a m. induction bs as [|b bs IH]; intros a m H Hx; simpl in H; [by injection H as ->|].
  apply bind_Some in H as (o & _ & H). rewrite (IH _ _ H) by lia. by rewrite lookup_insert_ne by lia.
Qed.

(** A store to mapped memory succeeds, is read back, and maps nothing new. *)
Lemma mstore_bytes_ok bs a m :
  mapped m a (length bs) ->
  exists m', mstore_bytes a bs m = Some m' /\ mload_bytes (length bs) a m' = Some bs /\
    (forall x, is_Some (m' !! x) <-> is_Some (m !! x)) /\
    (forall x, x < a \/ a + blen bs <= x -> m' !! x = m !! x).
Proof.
  revert a m. induction bs as [|b bs IH]; intros a m H; simpl; [by exists m|].
  apply mapped_S in H as [[o Ho] H]. rewrite Ho. simpl.
  destruct (IH (a + 1) (<[a := b]> m)) as (m' & E & L & D & F).
  { intros i Hi. rewrite lookup_insert_ne by lia. by apply H. }
  exists m'. split; [done|]. split; [|split].
  - rewrite (mstore_bytes_lt _ _ _ _ a E) by lia. rewrite lookup_insert_eq. simpl. by rewrite L.
  - intros x. rewrite D, lookup_insert_is_Some. destruct (decide (a = x)) as [->|]; [|tauto].
    rewrite Ho. naive_solver.
  - intros x Hx. unfold blen in *. simpl in Hx. rewrite F by lia. by rewrite lookup_insert_ne by lia.
Qed.

Definition with_mem (s : nt_state) (m : mem) : nt_state := mkNt (nt_handles s) (nt_ko s) m (nt_log s).

(** [v] has been written at [p], in 8 bytes, when there is a pointer. *)
Definition stored (p v : Z) (m m' : mem) : Prop :=
  if p =? 0 then m' = m
  else mload_bytes 8 p m' = Some (le_split 8 v) /\ forall x, x < p \/ p + 8 <= x -> m' !! x = m !! x.

Lemma mstore_opt_stored p v s : p = 0 \/ mapped (nt_mem s) p 8 ->
  exists m', mstore_opt 8 p v s = Ret (tt, with_mem s m') /\ stored p v (nt_mem s) m'.
Proof.
  intros H. unfold mstore_opt, stored. destruct (Z.eqb_spec p 0) as [->|Hp]; [exists (nt_mem s); split; [by destruct s|done]|].
  destruct H as [|H]; [done|]. unfold mstore, mstore_list.
  destruct (mstore_bytes_ok (le_split 8 v) p (nt_mem s)) as (m' & E & L & _ & F); [by rewrite length_le_split|].
  exists m'. rewrite E. rewrite length_le_split in L. unfold blen in F. rewrite length_le_split in F. done.
Qed.
Lemma stored_loads p v m m' : stored p v m m' -> p <> 0 -> mload_bytes 8 p m' = Some (le_split 8 v).
Proof. unfold stored. intros H Hp. rewrite (proj2 (Z.eqb_neq p 0) Hp) in H. apply H. Qed.

Lemma mstore_opt_ok p v s :
  p = 0 \/ mapped (nt_mem s) p 8 ->
  exists m', mstore_opt 8 p v s = Ret (tt, with_mem s m') /\
    (p <> 0 -> mload_bytes 8 p m' = Some (le_split 8 v)).
Proof. intros H. destruct (mstore_opt_stored p v s H) as (m' & E & S). exists m'. split; [done|by eapply stored_loads]. Qed.

(** ** Lookup by handle *)

Lemma find_loop_spec {X} (key : X -> Z) (l : list X) h todo i :
  (i + todo <= length l)%nat ->
  find_loop key l h todo i
  = Ret ((fun p => (i + fst p)%nat) <$> list_find (fun x => key x = h) (take todo (drop i l))).
Proof.
  revert i. induction todo as [|todo IH]; intros i Hl; [done|]. cbn [find_loop].
  destruct (lookup_lt_is_Some_2 l i) as [x Hx]; [lia|]. rewrite Hx. cbn [deref mbind outcome_bind].
  rewrite (drop_S _ x i Hx). cbn [take list_find].
  destruct (Z.eqb_spec (key x) h) as [E|E].
  - rewrite decide_True by done. simpl. do 2 f_equal. lia.
  - rewrite decide_False by done. rewrite IH by lia. f_equal.
    destruct (list_find _ _) as [[j y]|]; simpl; [|done]. f_equal. lia.
Qed.

(** ** The event store *)

(** Handle to (signaled, auto-reset). *)
Abbreviation evmap := (gmap Z (bool * bool)).

Definition ev_val (e : wine_event_t) : bool * bool :=
  (negb (ev_signaled e =? 0), ev_event_type e =? 1).

(** The first [event_count] entries have distinct handles, each of them live in
    the handle table, and their values are those of the map. *)
Record ev_rep (s : nt_state) (a : evmap) : Prop := {
  er_len : length (events (nt_ko s)) = MAX_EVENTS;
  er_count : 0 <= event_count (nt_ko s) <= Z.of_nat MAX_EVENTS;
  er_entry : forall i e, (Z.of_nat i < event_count (nt_ko s)) -> events (nt_ko s) !! i = Some e ->
    a !! ev_handle e = Some (ev_val e);
  er_dom : forall h x, a !! h = Some x ->
    exists i e, Z.of_nat i < event_count (nt_ko s) /\ events (nt_ko s) !! i = Some e /\ ev_handle e = h;
  er_inj : forall i j e f, Z.of_nat i < event_count (nt_ko s) -> Z.of_nat j < event_count (nt_ko s) ->
    events (nt_ko s) !! i = Some e -> events (nt_ko s) !! j = Some f -> ev_handle e = ev_handle f -> i = j;
  er_live : exists st, represents (nt_handles s) st /\
    forall h x, a !! h = Some x -> 3 <= h < 512 /\ is_Some (st !! Z.to_nat h)
}.

Lemma find_event_rep s a h :
  ev_rep s a ->
  match a !! h with
  | Some x => exists i e, find_event (nt_ko s) h = Ret (Some i) /\ events (nt_ko s) !! i = Some e /\
      Z.of_nat i < event_count (nt_ko s) /\ ev_handle e = h /\ ev_val e = x
  | None => find_event (nt_ko s) h = Ret None
  end.
Proof.
  intros [L C E D J _]. unfold find_event. unfold MAX_EVENTS in *.
  rewrite find_loop_spec by lia. rewrite drop_0.
  set (l := take (Z.to_nat (event_count (nt_ko s))) (events (nt_ko s))).
  assert (Hl : forall i e, l !! i = Some e <->
    Z.of_nat i < event_count (nt_ko s) /\ events (nt_ko s) !! i = Some e).
  { intros i e. unfold l. rewrite lookup_take_Some. intuition lia. }
  destruct (list_find (fun x => ev_handle x = h) l) as [[i e]|] eqn:Ef.
  - apply list_find_Some in Ef as (Hi & He & _). apply Hl in Hi as [Hlt Hi].
    pose proof (E i e Hlt Hi) as Ha. rewrite He in Ha. rewrite Ha. exists i, e. done.
  - destruct (a !! h) as [x|] eqn:Ha; [|done].
    destruct (D h x Ha) as (i & e & Hlt & Hi & He). apply list_find_None in Ef.
    rewrite Forall_lookup in Ef. exfalso. apply (Ef i e); [|done]. by apply Hl.
Qed.

(** Overwriting the state of a registered event. *)
Lemma ev_rep_update s a i e v m :
  ev_rep s a -> Z.of_nat i < event_count (nt_ko s) -> events (nt_ko s) !! i = Some e ->
  ev_rep (mkNt (nt_handles s)
            (set_events (<[i := mkEvent (ev_handle e) v (ev_event_type e)]> (events (nt_ko s)))
               (event_count (nt_ko s)) (nt_ko s)) m (nt_log s))
    (<[ev_handle e := (negb (v =? 0), ev_event_type e =? 1)]> a).
Proof.
  intros [L C E D J [st [R Lv]]] Hi He.
  assert (Hlt : (i < length (events (nt_ko s)))%nat) by (by eapply lookup_lt_Some).
  set (e' := mkEvent (ev_handle e) v (ev_event_type e)).
  assert (K : forall j f, <[i := e']> (events (nt_ko s)) !! j = Some f ->
    (j = i /\ f = e') \/ (j <> i /\ events (nt_ko s) !! j = Some f)).
  { intros j f Hf. apply list_lookup_insert_Some in Hf as [(-> & -> & _)|[? ?]]; auto. }
  split; simpl.
  - by rewrite length_insert.
  - done.
  - intros j f Hj Hf. destruct (K j f Hf) as [[-> ->]|[Hne Hf']]; simpl.
    + by rewrite lookup_insert_eq.
    + rewrite lookup_insert_ne; [by apply (E j)|]. intros Heq. apply Hne. by eapply (J j i f e).
  - intros h x. destruct (decide (ev_handle e = h)) as [<-|Hne].
    + intros _. exists i, e'. split_and!; [done|by apply list_lookup_insert_eq|done].
    + rewrite lookup_insert_ne by done. intros Hx. destruct (D h x Hx) as (j & f & Hj & Hf & Hh).
      exists j, f. split_and!; [done| |done]. rewrite list_lookup_insert_ne; [done|].
      intros <-. congruence.
  - intros j1 j2 f1 f2 H1 H2 F1 F2 Heq.
    destruct (K j1 f1 F1) as [[-> ->]|[N1 F1']], (K j2 f2 F2) as [[-> ->]|[N2 F2']]; simpl in Heq.
    + done.
    + by eapply (J i j2 e f2).
    + by eapply (J j1 i f1 e).
    + by eapply (J j1 j2 f1 f2).
  - exists st. split; [done|]. intros h x. destruct (decide (ev_handle e = h)) as [<-|Hne].
    + intros _. by eapply (Lv _ _ (E i e Hi He)).
    + rewrite lookup_insert_ne by done. apply Lv.
Qed.

(** ** The handlers *)

Lemma i32_handle k : (k < 512)%nat -> i32 (u32 (Z.of_nat k)) = Z.of_nat k.
Proof. intros. rewrite wrap_small by lia. apply swrap_small; lia. Qed.

Lemma ev_rep_mem s a m : ev_rep s a -> ev_rep (with_mem s m) a.
Proof. intros []. by split. Qed.

(** Registering a new event under a fresh handle. *)
Lemma ev_rep_create s a st k t' v ty m :
  ev_rep s a -> event_count (nt_ko s) < Z.of_nat MAX_EVENTS ->
  (forall h x, a !! h = Some x -> 3 <= h < 512 /\ is_Some (st !! Z.to_nat h)) ->
  (3 <= k < 512)%nat -> st !! k = None ->
  represents t' (<[k := mkEntry HANDLE_TYPE_EVENT (OEvent (Z.to_nat (event_count (nt_ko s)))) 1]> st) ->
  ev_rep (mkNt t' (set_events
            (<[Z.to_nat (event_count (nt_ko s)) := mkEvent (Z.of_nat k) v ty]> (events (nt_ko s)))
            (event_count (nt_ko s) + 1) (nt_ko s)) m (nt_log s))
    (<[Z.of_nat k := (negb (v =? 0), ty =? 1)]> a).
Proof.
  intros [L C E D J _] Hc Lv Hk Hn R'. unfold MAX_EVENTS in *.
  set (n := Z.to_nat (event_count (nt_ko s))) in *. set (e' := mkEvent (Z.of_nat k) v ty).
  assert (Hfresh : a !! Z.of_nat k = None).
  { destruct (a !! Z.of_nat k) eqn:Ek; [|done]. destruct (Lv _ _ Ek) as [_ Hs].
    rewrite Nat2Z.id, Hn in Hs. by destruct Hs. }
  assert (K : forall j f, Z.of_nat j < event_count (nt_ko s) + 1 ->
    <[n := e']> (events (nt_ko s)) !! j = Some f ->
    (j = n /\ f = e') \/ (Z.of_nat j < event_count (nt_ko s) /\ events (nt_ko s) !! j = Some f)).
  { intros j f Hj Hf. apply list_lookup_insert_Some in Hf as [(-> & -> & _)|[? ?]]; [by left|].
    right. split; [lia|done]. }
  assert (Hne : forall j f, Z.of_nat j < event_count (nt_ko s) -> events (nt_ko s) !! j = Some f ->
    ev_handle f <> Z.of_nat k).
  { intros j f Hj Hf Heq. pose proof (E j f Hj Hf). congruence. }
  split; simpl.
  - by rewrite length_insert.
  - unfold MAX_EVENTS. lia.
  - intros j f Hj Hf. destruct (K j f Hj Hf) as [[-> ->]|[Hj' Hf']]; simpl.
    + by rewrite lookup_insert_eq.
    + rewrite lookup_insert_ne by (intros Heq; by eapply Hne). by apply (E j).
  - intros h x. destruct (decide (Z.of_nat k = h)) as [<-|Hne'].
    + intros _. exists n, e'. split_and!; [lia|apply list_lookup_insert_eq; lia|done].
    + rewrite lookup_insert_ne by done. intros Hx. destruct (D h x Hx) as (j & f & Hj & Hf & Hh).
      exists j, f. split_and!; [lia| |done]. by rewrite list_lookup_insert_ne by lia.
  - intros j1 j2 f1 f2 H1 H2 F1 F2 Heq.
    destruct (K j1 f1 H1 F1) as [[-> ->]|[H1' F1']], (K j2 f2 H2 F2) as [[-> ->]|[H2' F2']]; simpl in Heq.
    + done.
    + by destruct (Hne j2 f2).
    + by destruct (Hne j1 f1).
    + by eapply (J j1 j2 f1 f2).
  - eexists. split; [exact R'|]. intros h x. destruct (decide (Z.of_nat k = h)) as [<-|Hne'].
    + intros _. rewrite Nat2Z.id, lookup_insert_eq. split; [lia|by eauto].
    + rewrite lookup_insert_ne by done. intros Hx. destruct (Lv h x Hx) as [? ?].
      split; [done|]. by rewrite lookup_insert_ne by lia.
Qed.

(** Why NtCreateEvent fails, and the state when it succeeds. *)
Definition no_handle (st : store) : Prop := forall k, (3 <= k < 512)%nat -> is_Some (st !! k).

Definition ko_with_event (e : wine_event_t) (k : kernel_objects) : kernel_objects :=
  set_events (<[Z.to_nat (event_count k) := e]> (events k)) (event_count k + 1) k.

Lemma NtCreateEvent_run s a st p ty init :
  ev_rep s a -> represents (nt_handles s) st -> p = 0 \/ mapped (nt_mem s) p 8 ->
  (handler_NtCreateEvent p ty init s = Ret (STATUS_MEMORY_NOT_AVAILABLE, s) /\
     (Z.of_nat MAX_EVENTS <= event_count (nt_ko s) \/ no_handle st)) \/
  (exists k t' m', handler_NtCreateEvent p ty init s =
       Ret (STATUS_SUCCESS, mkNt t' (ko_with_event (mkEvent (Z.of_nat k) (if init =? 0 then 0 else 1) (i32 ty)) (nt_ko s)) m' (nt_log s)) /\
     event_count (nt_ko s) < Z.of_nat MAX_EVENTS /\ (3 <= k < 512)%nat /\ st !! k = None /\
     represents t' (<[k := mkEntry HANDLE_TYPE_EVENT (OEvent (Z.to_nat (event_count (nt_ko s)))) 1]> st) /\
     stored p (Z.of_nat k) (nt_mem s) m').
Proof.
  intros R Rt Hp. unfold handler_NtCreateEvent, mbind, nt_bind, get_ko.
  cbn [mbind outcome_bind mret nt_ret].
  destruct (Z.leb_spec (Z.of_nat MAX_EVENTS) (event_count (nt_ko s))) as [Hc|Hc]; [left; auto|].
  pose proof (er_count _ _ R) as Hc0.
  unfold set_ko, handle_alloc, on_handles. cbn [mbind outcome_bind nt_handles nt_ko nt_mem nt_log].
  destruct (alloc_cases HANDLE_TYPE_EVENT (OEvent (Z.to_nat (event_count (nt_ko s)))) _ _ Rt)
    as [E|(k & t' & Hk & Hn & E & R')]; rewrite E; cbn [mbind outcome_bind nt_handles nt_ko nt_mem nt_log].
  - left. split; [by destruct s as [? [] ? ?]|]. right. intros k Hk. destruct (st !! k) eqn:Hn; [by eexists|]. exfalso.
    destruct (alloc_succeeds HANDLE_TYPE_EVENT (OEvent (Z.to_nat (event_count (nt_ko s)))) _ _ k Rt Hk Hn) as (k' & t' & Hk' & _ & E' & _).
    rewrite E in E'. injection E' as _ E'. lia.
  - right. rewrite (proj2 (Z.eqb_neq _ _)) by (rewrite wrap_small; lia).
    unfold lift, put. cbn [set_events events event_count].
    destruct (lookup_lt_is_Some_2 (events (nt_ko s)) (Z.to_nat (event_count (nt_ko s)))) as [e0 He0].
    { rewrite (er_len _ _ R). unfold MAX_EVENTS in *. lia. }
    rewrite He0. cbn [deref mbind outcome_bind nt_handles nt_ko nt_mem nt_log].
    rewrite i32_handle, wrap_small by lia.
    set (s1 := mkNt t' _ (nt_mem s) (nt_log s)). change (mkNt t' _ (nt_mem s) (nt_log s)) with s1.
    destruct (mstore_opt_stored p (Z.of_nat k) s1 Hp) as (m' & Em & Hl). rewrite Em.
    cbn [mbind outcome_bind]. exists k, t', m'. split; [reflexivity|]. split; [exact Hc|]. split; [lia|]. by split_and!.
Qed.

Lemma represents_fun t st st' : represents t st -> represents t st' -> st = st'.
Proof. intros (_ & _ & E) (_ & _ & E'). apply map_eq. intros i. by rewrite E, E'. Qed.

Lemma ev_rep_created s a st k t' v ty m :
  ev_rep s a -> represents (nt_handles s) st -> event_count (nt_ko s) < Z.of_nat MAX_EVENTS ->
  (3 <= k < 512)%nat -> st !! k = None ->
  represents t' (<[k := mkEntry HANDLE_TYPE_EVENT (OEvent (Z.to_nat (event_count (nt_ko s)))) 1]> st) ->
  a !! Z.of_nat k = None /\
  ev_rep (mkNt t' (ko_with_event (mkEvent (Z.of_nat k) v ty) (nt_ko s)) m (nt_log s)) (<[Z.of_nat k := (negb (v =? 0), ty =? 1)]> a).
Proof.
  intros R Rt Hc Hk Hn R'. destruct (er_live _ _ R) as (st1 & Rt1 & Lv). rewrite (represents_fun _ _ _ Rt1 Rt) in Lv.
  split; [|by eapply ev_rep_create]. destruct (a !! Z.of_nat k) eqn:Ek; [|done]. destruct (Lv _ _ Ek) as [_ Hs].
  rewrite Nat2Z.id, Hn in Hs. by destruct Hs.
Qed.

Lemma NtCreateEvent_rep s a p ty init :
  ev_rep s a -> p = 0 \/ mapped (nt_mem s) p 8 ->
  exists s',
    (handler_NtCreateEvent p ty init s = Ret (STATUS_MEMORY_NOT_AVAILABLE, s') /\ ev_rep s' a) \/
    (exists h, handler_NtCreateEvent p ty init s = Ret (STATUS_SUCCESS, s') /\ a !! h = None /\
       ev_rep s' (<[h := (negb (init =? 0), i32 ty =? 1)]> a) /\
       (p <> 0 -> mload 8 p s' = Ret (h, s'))).
Proof.
  intros R Hp. destruct (er_live _ _ R) as (st & Rt & _).
  destruct (NtCreateEvent_run s a st p ty init R Rt Hp) as [[E _]|(k & t' & m' & E & Hc & Hk & Hn & R' & Hm)];
    eexists; [left; by split|right]. exists (Z.of_nat k).
  destruct (ev_rep_created s a st k t' (if init =? 0 then 0 else 1) (i32 ty) m' R Rt Hc Hk Hn R') as [Ha Hr].
  split; [exact E|]. split; [done|]. split; [by destruct (init =? 0)|].
  intros Hp0. unfold mload. cbn [nt_mem]. rewrite (stored_loads _ _ _ _ Hm Hp0). cbn [deref mbind outcome_bind].
  rewrite le_combine_split, wrap_small by lia. done.
Qed.

(** Setting and resetting. *)
Lemma change_event_run v s a handle prev :
  ev_rep s a -> prev = 0 \/ mapped (nt_mem s) prev 8 ->
  match a !! i32 handle with
  | Some x => exists i e m', events (nt_ko s) !! i = Some e /\ Z.of_nat i < event_count (nt_ko s) /\ ev_handle e = i32 handle /\ ev_val e = x /\
      stored prev (u64 (ev_signaled e)) (nt_mem s) m' /\
      change_event v handle prev s = Ret (STATUS_SUCCESS, mkNt (nt_handles s)
        (set_events (<[i := mkEvent (ev_handle e) v (ev_event_type e)]> (events (nt_ko s))) (event_count (nt_ko s)) (nt_ko s)) m' (nt_log s))
  | None => change_event v handle prev s = Ret (STATUS_INVALID_HANDLE, s)
  end.
Proof.
  intros R Hp. unfold change_event, mbind, nt_bind, get_ko, lift. cbn [mbind outcome_bind].
  pose proof (find_event_rep s a (i32 handle) R) as Hf.
  destruct (a !! i32 handle) as [x|]; [|by rewrite Hf].
  destruct Hf as (i & e & -> & He & Hi & Hh & Hv). cbn [mbind outcome_bind].
  unfold ko_event, mbind, nt_bind, get_ko, lift. cbn [mbind outcome_bind]. rewrite He.
  cbn [deref mbind outcome_bind].
  destruct (mstore_opt_stored prev (u64 (ev_signaled e)) s Hp) as (m' & -> & Hm).
  cbn [mbind outcome_bind]. unfold set_signaled, mbind, nt_bind, get_ko, lift, set_ko.
  cbn [mbind outcome_bind with_mem nt_ko]. rewrite He. cbn [deref mbind outcome_bind].
  exists i, e, m'. split_and!; done.
Qed.

Lemma change_event_rep v s a handle prev :
  ev_rep s a -> prev = 0 \/ mapped (nt_mem s) prev 8 ->
  exists s', match a !! i32 handle with
    | Some (_, auto) => change_event v handle prev s = Ret (STATUS_SUCCESS, s') /\
        ev_rep s' (<[i32 handle := (negb (v =? 0), auto)]> a)
    | None => change_event v handle prev s = Ret (STATUS_INVALID_HANDLE, s') /\ ev_rep s' a
    end.
Proof.
  intros R Hp. pose proof (change_event_run v s a handle prev R Hp) as H.
  destruct (a !! i32 handle) as [[sg auto]|]; [|by exists s].
  destruct H as (i & e & m' & He & Hi & Hh & Hv & _ & E). eexists. split; [exact E|].
  pose proof (ev_rep_update s a i e v m' R Hi He) as Hu. unfold ev_val in Hv. injection Hv as _ <-. rewrite <- Hh. exact Hu.
Qed.

Lemma take_if_signaled_run s i e :
  events (nt_ko s) !! i = Some e ->
  take_if_signaled i s = Ret (fst (ev_val e),
    if fst (ev_val e) && snd (ev_val e)
    then mkNt (nt_handles s) (set_events (<[i := mkEvent (ev_handle e) 0 (ev_event_type e)]> (events (nt_ko s))) (event_count (nt_ko s)) (nt_ko s)) (nt_mem s) (nt_log s)
    else s).
Proof.
  intros He. unfold take_if_signaled, ko_event, mbind, nt_bind, get_ko, lift.
  cbn [mbind outcome_bind]. rewrite He. cbn [deref mbind outcome_bind]. unfold ev_val. cbn [fst snd].
  destruct (ev_signaled e =? 0); cbn [negb andb]; [done|]. destruct (ev_event_type e =? 1); [|done].
  unfold set_signaled, mbind, nt_bind, get_ko, lift, set_ko. cbn [mbind outcome_bind]. by rewrite He.
Qed.
Lemma take_if_signaled_rep s a i e :
  ev_rep s a -> Z.of_nat i < event_count (nt_ko s) -> events (nt_ko s) !! i = Some e ->
  exists s', take_if_signaled i s = Ret (fst (ev_val e), s') /\
    ev_rep s' (if fst (ev_val e) then <[ev_handle e := (negb (snd (ev_val e)), snd (ev_val e))]> a else a) /\
    nt_mem s' = nt_mem s.
Proof.
  intros R Hi He. pose proof (er_entry _ _ R i e Hi He) as Ha.
  unfold take_if_signaled, ko_event, mbind, nt_bind, get_ko, lift.
  cbn [mbind outcome_bind]. rewrite He. cbn [deref mbind outcome_bind].
  unfold ev_val in *. cbn [fst snd].
  destruct (ev_signaled e =? 0) eqn:E0; cbn [negb]; [by exists s|].
  destruct (ev_event_type e =? 1) eqn:E1.
  - unfold set_signaled, mbind, nt_bind, get_ko, lift, set_ko. cbn [mbind outcome_bind]. rewrite He.
    cbn [deref mbind outcome_bind]. eexists. split; [reflexivity|]. split; [|done].
    pose proof (ev_rep_update s a i e 0 (nt_mem s) R Hi He) as Hu. by rewrite E1 in Hu.
  - exists s. split; [done|]. split; [|done]. by rewrite insert_id.
Qed.

Inductive evop :=
| EvCreate (ptr type initial : Z)
| EvSet (handle prev : Z)
| EvReset (handle prev : Z)
| EvPoll (handle timeout_ptr : Z).     (* a wait with a timeout of zero *)

(** The abstract state: the events by handle, signaled or not and reset automatically or
    not; the number of events ever created; the handles in use. *)
Record evstate := mkEs { es_events : evmap; es_made : Z; es_handles : store }.
Definition flag (b : bool) : Z := if b then 1 else 0.
Definition with_event (h : Z) (x : bool * bool) (a : evstate) : evstate := mkEs (<[h := x]> (es_events a)) (es_made a) (es_handles a).

(** The status, the state and the memory after an operation.  A new event takes a free
    handle, which is stored; it fails only when 64 events have been made or no handle is
    free.  The state before is stored by set and reset. *)
Inductive ev_spec (a : evstate) (m : mem) : evop -> Z -> evstate -> mem -> Prop :=
| spec_created p ty init k m' : es_made a < 64 -> (3 <= k < 512)%nat -> es_handles a !! k = None ->
    es_events a !! Z.of_nat k = None -> stored p (Z.of_nat k) m m' ->
    ev_spec a m (EvCreate p ty init) STATUS_SUCCESS
      (mkEs (<[Z.of_nat k := (negb (init =? 0), i32 ty =? 1)]> (es_events a)) (es_made a + 1)
        (<[k := mkEntry HANDLE_TYPE_EVENT (OEvent (Z.to_nat (es_made a))) 1]> (es_handles a))) m'
| spec_full p ty init : 64 <= es_made a \/ no_handle (es_handles a) ->
    ev_spec a m (EvCreate p ty init) STATUS_MEMORY_NOT_AVAILABLE a m
| spec_set h p sg auto m' : es_events a !! i32 h = Some (sg, auto) -> stored p (flag sg) m m' ->
    ev_spec a m (EvSet h p) STATUS_SUCCESS (with_event (i32 h) (true, auto) a) m'
| spec_reset h p sg auto m' : es_events a !! i32 h = Some (sg, auto) -> stored p (flag sg) m m' ->
    ev_spec a m (EvReset h p) STATUS_SUCCESS (with_event (i32 h) (false, auto) a) m'
| spec_poll h t auto : es_events a !! i32 h = Some (true, auto) ->
    ev_spec a m (EvPoll h t) STATUS_SUCCESS (with_event (i32 h) (negb auto, auto) a) m
| spec_timeout h t auto : es_events a !! i32 h = Some (false, auto) ->
    ev_spec a m (EvPoll h t) STATUS_TIMEOUT a m
| spec_invalid o h : es_events a !! i32 h = None ->
    (exists p, o = EvSet h p \/ o = EvReset h p \/ o = EvPoll h p) ->
    ev_spec a m o STATUS_INVALID_HANDLE a m.

Record es_rep (s : nt_state) (a : evstate) : Prop := {
  es_rep_events : ev_rep s (es_events a);
  es_rep_made : event_count (nt_ko s) = es_made a;
  es_rep_handles : represents (nt_handles s) (es_handles a);
  es_rep_flags : forall i e, Z.of_nat i < event_count (nt_ko s) -> events (nt_ko s) !! i = Some e -> ev_signaled e = flag (fst (ev_val e)) }.

(** Overwriting the state of an event with 0 or 1. *)
Lemma es_rep_update s a i e (b : bool) m : es_rep s a -> Z.of_nat i < event_count (nt_ko s) -> events (nt_ko s) !! i = Some e ->
  es_rep (mkNt (nt_handles s) (set_events (<[i := mkEvent (ev_handle e) (flag b) (ev_event_type e)]> (events (nt_ko s)))
    (event_count (nt_ko s)) (nt_ko s)) m (nt_log s)) (with_event (ev_handle e) (b, ev_event_type e =? 1) a).
Proof.
  intros [R M H F] Hi He. split; cbn [nt_ko nt_handles with_event es_events es_made es_handles]; [|done|done|].
  - pose proof (ev_rep_update s _ i e (flag b) m R Hi He) as Hu. by destruct b.
  - intros j f Hj [(-> & <- & _)|[_ Hf]]%list_lookup_insert_Some; [by destruct b|by eapply F].
Qed.

Lemma change_event_refines (b : bool) s a h p : es_rep s a -> p = 0 \/ mapped (nt_mem s) p 8 ->
  match es_events a !! i32 h with
  | Some (sg, auto) => exists s', change_event (flag b) h p s = Ret (STATUS_SUCCESS, s') /\
      stored p (flag sg) (nt_mem s) (nt_mem s') /\ es_rep s' (with_event (i32 h) (b, auto) a)
  | None => change_event (flag b) h p s = Ret (STATUS_INVALID_HANDLE, s)
  end.
Proof.
  intros R Hp. pose proof (change_event_run (flag b) s _ h p (es_rep_events _ _ R) Hp) as H.
  destruct (es_events a !! i32 h) as [[sg auto]|]; [|done].
  destruct H as (i & e & m' & He & Hi & Hh & Hv & Hm & E). eexists. split; [exact E|].
  rewrite (es_rep_flags _ _ R i e Hi He), Hv in Hm. cbn [fst] in Hm. split; [by destruct sg|].
  pose proof (es_rep_update s a i e b m' R Hi He) as Hu. rewrite Hh in *. unfold ev_val in Hv. by injection Hv as _ <-.
Qed.

Section waits.
Variable others : forall (n : nat), nt_state -> nt_state.
Variable nanosleep : forall (n : nat) (ns : Z), Z * Z.
Abbreviation wait := (handler_NtWaitForSingleObject others nanosleep).

Definition ev_step (o : evop) (s : nt_state) : outcome (option Z * nt_state) :=
  match o with
  | EvCreate p ty init => '(r, s) ← handler_NtCreateEvent p ty init s; Ret (Some r, s)
  | EvSet h p => '(r, s) ← handler_NtSetEvent h p s; Ret (Some r, s)
  | EvReset h p => '(r, s) ← handler_NtResetEvent h p s; Ret (Some r, s)
  | EvPoll h t => wait 0 h t s
  end.

(** The pointer arguments: absent or mapped; the poll's timeout is zero. *)
Definition evop_ok (s : nt_state) (o : evop) : Prop :=
  match o with
  | EvCreate p _ _ | EvSet _ p | EvReset _ p => p = 0 \/ mapped (nt_mem s) p 8
  | EvPoll _ t => t <> 0 /\ mload_bytes 8 t (nt_mem s) = Some (le_split 8 0)
  end.

(** C11: Every event operation terminates without a fault, with the status, the effect
    and the stored value (the handle, or the state before) of the specification, and
    changes no other memory of the guest. *)
Theorem event_handlers_refine s a o :
  es_rep s a -> evop_ok s o ->
  exists r s' a', ev_step o s = Ret (Some r, s') /\ ev_spec a (nt_mem s) o r a' (nt_mem s') /\ es_rep s' a'.
Proof.
  intros R Ho. pose proof R as [Re M Hr F]. destruct o as [p ty init|h p|h p|h t]; cbn [ev_step evop_ok] in *.
  - destruct (NtCreateEvent_run s _ _ p ty init Re Hr Ho) as [[E W]|(k & t' & m' & E & Hc & Hk & Hn & R' & Hm)]; rewrite E.
    + exists STATUS_MEMORY_NOT_AVAILABLE, s, a. split; [done|]. split; [|done]. apply spec_full. rewrite <- M. exact W.
    + destruct (ev_rep_created s _ _ k t' (if init =? 0 then 0 else 1) (i32 ty) m' Re Hr Hc Hk Hn R') as [Ha Hv].
      rewrite M in *. eexists _, _, _. split; [reflexivity|]. split; [by apply spec_created; first [exact Hc|lia|done]|].
      split; cbn [nt_ko nt_handles es_events es_made es_handles]; [by destruct (init =? 0)|by cbn; rewrite M|done|].
      intros i e Hi. cbn [ko_with_event set_events events event_count] in *.
      intros [(_ & <- & _)|[Hne He]]%list_lookup_insert_Some; [unfold ev_val; cbn; by destruct (init =? 0)|]. apply (F i e); [lia|done].
  - pose proof (change_event_refines true s a h p R Ho) as H. unfold handler_NtSetEvent. change 1 with (flag true).
    destruct (es_events a !! i32 h) as [[sg auto]|] eqn:Ea.
    + destruct H as (s' & -> & Hm & R'). eexists _, s', _. split; [done|]. split; [by eapply spec_set|done].
    + rewrite H. eexists _, s, a. split; [done|]. split; [by eapply spec_invalid; eauto|done].
  - pose proof (change_event_refines false s a h p R Ho) as H. unfold handler_NtResetEvent. change 0 with (flag false).
    destruct (es_events a !! i32 h) as [[sg auto]|] eqn:Ea.
    + destruct H as (s' & -> & Hm & R'). eexists _, s', _. split; [done|]. split; [by eapply spec_reset|done].
    + rewrite H. eexists _, s, a. split; [done|]. split; [by eapply spec_invalid; eauto|done].
  - destruct Ho as [Ht Hz]. unfold handler_NtWaitForSingleObject, mbind, nt_bind, get_ko, lift.
    cbn [mbind outcome_bind]. pose proof (find_event_rep s _ (i32 h) Re) as Hf.
    destruct (es_events a !! i32 h) as [[sg auto]|] eqn:Ea.
    + destruct Hf as (i & e & -> & He & Hi & Hh & Hv). cbn [mbind outcome_bind].
      rewrite (proj2 (Z.eqb_neq t 0) Ht). unfold mload. rewrite Hz.
      cbn [deref mbind outcome_bind]. change (i64 (le_combine (le_split 8 0)) =? 0) with true. cbv iota.
      cbv beta. rewrite (take_if_signaled_run s i e He), Hv. cbn [mbind outcome_bind fst snd].
      destruct sg; cbn [andb]; [|by eexists _, s, a; split; [done|]; split; [eapply spec_timeout|]].
      eexists _, _, (with_event (i32 h) (negb auto, auto) a). split; [reflexivity|].
      pose proof (es_rep_update s a i e false (nt_mem s) R Hi He) as Hu. unfold ev_val in Hv. injection Hv as _ Ht'. rewrite Hh, Ht' in Hu.
      destruct auto; (split; [by apply spec_poll|]); [rewrite Hh; exact Hu|].
      cbn [negb]. unfold with_event. rewrite insert_id by done. by destruct a.
    + rewrite Hf. cbn [mbind outcome_bind]. eexists _, s, a. split; [reflexivity|]. split; [|done].
      by eapply spec_invalid; eauto.
Qed.

(** ** Waiting without a timeout *)

(** The state after [n] sleeps, starting with sleep [k]. *)
Fixpoint after_sleeps (k n : nat) (s : nt_state) : nt_state :=
  match n with O => s | S n => after_sleeps (S k) n (others k s) end.

Definition event_at (s : nt_state) (i : nat) : option wine_event_t := events (nt_ko s) !! i.

Lemma wait_forever_S i fuel n s e :
  event_at s i = Some e ->
  wait_forever others nanosleep i (S fuel) n s
  = if negb (ev_signaled e =? 0)
    then (if ev_event_type e =? 1
          then '(_, s') ← set_signaled i 0 s; Ret (Some STATUS_SUCCESS, s')
          else Ret (Some STATUS_SUCCESS, s))
    else wait_forever others nanosleep i fuel (S n) (others n s).
Proof.
  intros He. cbn [wait_forever]. unfold ko_event, mbind, nt_bind, get_ko, lift.
  cbn [mbind outcome_bind]. unfold event_at in He. rewrite He. cbn [deref mbind outcome_bind].
  destruct (negb _); [|done]. by destruct (ev_event_type e =? 1).
Qed.

Lemma wait_forever_spec i N : forall n s e,
  (forall m, (m < N)%nat -> exists f, event_at (after_sleeps n m s) i = Some f /\ ev_signaled f = 0) ->
  event_at (after_sleeps n N s) i = Some e -> ev_signaled e <> 0 ->
  exists s', wait_forever others nanosleep i (S N) n s = Ret (Some STATUS_SUCCESS, s') /\
    event_at s' i = Some (mkEvent (ev_handle e) (if ev_event_type e =? 1 then 0 else ev_signaled e)
                            (ev_event_type e)).
Proof.
  induction N as [|N IH]; intros n s e Hbefore He Hs.
  - rewrite (wait_forever_S i 0 n s e He). rewrite (proj2 (Z.eqb_neq _ _) Hs). cbn [negb].
    destruct (ev_event_type e =? 1) eqn:E1.
    + unfold set_signaled, mbind, nt_bind, get_ko, lift, set_ko. cbn [mbind outcome_bind].
      simpl in He. unfold event_at in He. rewrite He. cbn [deref mbind outcome_bind].
      eexists. split; [reflexivity|]. unfold event_at. simpl.
      apply list_lookup_insert_eq. by eapply lookup_lt_Some.
    + exists s. split; [done|]. simpl in He. rewrite He. by destruct e.
  - destruct (Hbefore 0%nat ltac:(lia)) as (f & Hf & Hf0). simpl in Hf.
    rewrite (wait_forever_S i (S N) n s f Hf), Hf0. cbn [negb Z.eqb].
    apply (IH (S n) (others n s) e); [|done|done].
    intros m Hm. apply (Hbefore (S m)). lia.
Qed.

(** An infinite wait returns as soon as the event is found signaled, and resets
    it exactly when it is an auto-reset event. *)
Theorem wait_without_timeout_returns s handle i N e :
  find_event (nt_ko s) (i32 handle) = Ret (Some i) ->
  (forall m, (m < N)%nat -> exists f, event_at (after_sleeps 0 m s) i = Some f /\ ev_signaled f = 0) ->
  event_at (after_sleeps 0 N s) i = Some e -> ev_signaled e <> 0 ->
  exists s', wait (S N) handle 0 s = Ret (Some STATUS_SUCCESS, s') /\
    event_at s' i = Some (mkEvent (ev_handle e) (if ev_event_type e =? 1 then 0 else ev_signaled e)
                            (ev_event_type e)).
Proof.
  intros Hf Hb He Hs. unfold handler_NtWaitForSingleObject, mbind, nt_bind, get_ko, lift.
  cbn [mbind outcome_bind]. rewrite Hf. cbn [mbind outcome_bind Z.eqb].
  by apply (wait_forever_spec i N 0 s e).
Qed.

(** ** Relative timeouts

    Nobody signals the event and every sleep runs to its end. *)
Section quiet.
Hypothesis others_idle : forall n s, others n s = s.
Hypothesis sleeps_complete : forall n ns, fst (nanosleep n ns) = 0.

Lemma wait_relative_step i delay fuel n elapsed s e :
  event_at s i = Some e -> ev_signaled e = 0 -> 0 <= elapsed -> delay < 2 ^ 64 -> elapsed < delay ->
  wait_relative others nanosleep i delay (S fuel) n elapsed s
  = wait_relative others nanosleep i delay fuel (S n)
      (elapsed + Z.min ((delay - elapsed) / 1000) 100000 * 1000) s.
Proof.
  intros He Hs H0 Hd Hlt. cbn [wait_relative]. rewrite (proj2 (Z.ltb_lt _ _) Hlt).
  unfold take_if_signaled, ko_event, sleep, mbind, nt_bind, get_ko, lift.
  cbn [mbind outcome_bind]. unfold event_at in He. rewrite He. cbn [deref mbind outcome_bind].
  rewrite Hs. cbn [Z.eqb]. cbn [mret nt_ret mbind outcome_bind]. rewrite others_idle, sleeps_complete.
  cbn [Z.eqb]. f_equal. apply wrap_small.
  assert (0 <= (delay - elapsed) / 1000 * 1000 <= delay - elapsed)
    by (Z.to_euclidean_division_equations; lia).
  lia.
Qed.

Lemma wait_final_timeout i s e :
  event_at s i = Some e -> ev_signaled e = 0 -> wait_final i s = Ret (Some STATUS_TIMEOUT, s).
Proof.
  intros He Hs. unfold wait_final, take_if_signaled, ko_event, mbind, nt_bind, get_ko, lift.
  cbn [mbind outcome_bind]. unfold event_at in He. rewrite He. cbn [deref mbind outcome_bind].
  by rewrite Hs.
Qed.

Lemma wait_relative_expires i s e delay : event_at s i = Some e -> ev_signaled e = 0 ->
  delay < 2 ^ 64 -> forall fuel n elapsed,
  0 <= elapsed <= delay -> (delay - elapsed) mod 1000 = 0 -> (delay - elapsed) / 1000 < Z.of_nat fuel ->
  wait_relative others nanosleep i delay fuel n elapsed s = Ret (Some STATUS_TIMEOUT, s).
Proof.
  intros He Hs Hd. induction fuel as [|fuel IH]; intros n elapsed H0 Hm Hf.
  { Z.to_euclidean_division_equations; lia. }
  destruct (decide (elapsed < delay)) as [Hlt|Hge].
  - rewrite (wait_relative_step i delay fuel n elapsed s e) by (done || lia).
    apply IH; Z.to_euclidean_division_equations; lia.
  - cbn [wait_relative]. rewrite (proj2 (Z.ltb_ge _ _)) by lia. by apply (wait_final_timeout i s e).
Qed.

Lemma wait_relative_never i s e delay : event_at s i = Some e -> ev_signaled e = 0 ->
  delay < 2 ^ 64 -> forall fuel n elapsed,
  0 <= elapsed < delay -> (delay - elapsed) mod 1000 <> 0 ->
  wait_relative others nanosleep i delay fuel n elapsed s = Ret (None, s).
Proof.
  intros He Hs Hd. induction fuel as [|fuel IH]; intros n elapsed H0 Hm; [done|].
  rewrite (wait_relative_step i delay fuel n elapsed s e) by (done || lia).
  apply IH; Z.to_euclidean_division_equations; lia.
Qed.

Lemma wait_timeout_arg fuel handle i tp t s :
  find_event (nt_ko s) (i32 handle) = Ret (Some i) -> tp <> 0 -> 0 < t < 2 ^ 57 ->
  mload_bytes 8 tp (nt_mem s) = Some (le_split 8 (- t)) ->
  wait fuel handle tp s = wait_relative others nanosleep i (t * 100) fuel 0 0 s.
Proof.
  intros Hf Hp Ht Hl. unfold handler_NtWaitForSingleObject, mload, mbind, nt_bind, get_ko, lift.
  cbn [mbind outcome_bind]. rewrite Hf. cbn [mbind outcome_bind].
  rewrite (proj2 (Z.eqb_neq _ _) Hp), Hl. cbn [deref mbind outcome_bind].
  rewrite le_combine_split. change (8 * Z.of_nat 8) with 64.
  assert (E : i64 (u64 (- t)) = - t) by width_lia. rewrite E.
  rewrite (proj2 (Z.eqb_neq (- t) 0)), (proj2 (Z.ltb_lt (- t) 0)) by lia.
  rewrite Z.opp_involutive, (wrap_small 64 t), (wrap_small 64 (t * 100)) by lia. done.
Qed.

(** A relative timeout that is a multiple of ten 100ns units expires: the
    handler returns STATUS_TIMEOUT and leaves the state as it was. *)
Theorem wait_relative_timeout_expires s handle i e tp t :
  find_event (nt_ko s) (i32 handle) = Ret (Some i) -> event_at s i = Some e -> ev_signaled e = 0 ->
  tp <> 0 -> 0 < t < 2 ^ 57 -> mload_bytes 8 tp (nt_mem s) = Some (le_split 8 (- t)) ->
  t mod 10 = 0 ->
  wait (S (Z.to_nat (t / 10))) handle tp s = Ret (Some STATUS_TIMEOUT, s).
Proof.
  intros Hf He Hs Hp Ht Hl Hm. rewrite (wait_timeout_arg _ handle i tp t s) by done.
  apply (wait_relative_expires i s e); try done; [lia|lia|..];
    Z.to_euclidean_division_equations; lia.
Qed.

(** Any other relative timeout never expires: once less than a microsecond
    remains, the sleeps have length zero and the elapsed time stops growing. *)
Theorem wait_fractional_timeout_never_returns s handle i e tp t fuel :
  find_event (nt_ko s) (i32 handle) = Ret (Some i) -> event_at s i = Some e -> ev_signaled e = 0 ->
  tp <> 0 -> 0 < t < 2 ^ 57 -> mload_bytes 8 tp (nt_mem s) = Some (le_split 8 (- t)) ->
  t mod 10 <> 0 ->
  wait fuel handle tp s = Ret (None, s).
Proof.
  intros Hf He Hs Hp Ht Hl Hm. rewrite (wait_timeout_arg _ handle i tp t s) by done.
  apply (wait_relative_never i s e); try done; [lia|lia|..];
    Z.to_euclidean_division_equations; lia.
Qed.
End quiet.
End waits.

(** ** Concrete runs *)

Lemma ev_rep_init m : ev_rep (nt_init m) ∅.
Proof.
  split; simpl; try done; try lia.
  exists store_init. split; [apply handle_init_represents|done].
Qed.

(** Sixteen mapped bytes at 0x1000: a relative timeout of [t], then zero. *)
Definition sample_mem (t : Z) : mem :=
  list_to_map (zip ((fun i => 0x1000 + Z.of_nat i) <$> seq 0 16) (le_split 8 (- t) ++ replicate 8 0)).
Definition run_or {X} (m : nt X) (s : nt_state) : nt_state :=
  match m s with Ret (_, s') => s' | _ => s end.
(** An auto-reset event that is not signaled; its handle is 3. *)
Definition ev_sample (t : Z) : nt_state := run_or (handler_NtCreateEvent 0 1 0) (nt_init (sample_mem t)).
Definition idle (n : nat) (s : nt_state) : nt_state := s.
Definition sleeps_ok (n : nat) (ns : Z) : Z * Z := (0, 0).
(** Another thread that signals the event during the third sleep. *)
Definition signaller (n : nat) (s : nt_state) : nt_state :=
  if (n =? 2)%nat then run_or (handler_NtSetEvent 3 0) s else s.

Lemma es_rep_init m : es_rep (nt_init m) (mkEs ∅ 0 store_init).
Proof. split; cbn; [apply ev_rep_init|done|apply handle_init_represents|]. intros i e Hi. lia. Qed.

Lemma event_handlers_refine_witness :
  exists r s' a', ev_step idle sleeps_ok (EvCreate 0x1000 1 0) (nt_init (sample_mem 0)) = Ret (Some r, s') /\
    ev_spec (mkEs ∅ 0 store_init) (sample_mem 0) (EvCreate 0x1000 1 0) r a' (nt_mem s') /\ es_rep s' a'.
Proof.
  apply (event_handlers_refine idle sleeps_ok (nt_init (sample_mem 0)) (mkEs ∅ 0 store_init) (EvCreate 0x1000 1 0)).
  - apply es_rep_init.
  - right. intros i Hi. do 8 (destruct i as [|i]; [eexists; vm_compute; reflexivity|]). lia.
Defined.

Lemma wait_without_timeout_returns_witness :
  exists s', handler_NtWaitForSingleObject signaller sleeps_ok 4 3 0 (ev_sample 0)
    = Ret (Some STATUS_SUCCESS, s') /\ event_at s' 0 = Some (mkEvent 3 0 1).
Proof.
  apply (wait_without_timeout_returns signaller sleeps_ok (ev_sample 0) 3 0 3 (mkEvent 3 1 1)).
  - vm_compute. reflexivity.
  - intros m Hm. exists (mkEvent 3 0 1).
    do 3 (destruct m as [|m]; [split; vm_compute; reflexivity|]). lia.
  - vm_compute. reflexivity.
  - discriminate.
Defined.

Lemma wait_relative_timeout_expires_witness :
  handler_NtWaitForSingleObject idle sleeps_ok 3 3 0x1000 (ev_sample 20)
  = Ret (Some STATUS_TIMEOUT, ev_sample 20).
Proof.
  apply (wait_relative_timeout_expires idle sleeps_ok (fun _ _ => eq_refl) (fun _ _ => eq_refl)
    (ev_sample 20) 3 0 (mkEvent 3 0 1) 0x1000 20);
    first [vm_compute; reflexivity | discriminate | lia].
Defined.

Lemma wait_fractional_timeout_never_returns_witness :
  handler_NtWaitForSingleObject idle sleeps_ok 1000 3 0x1000 (ev_sample 15) = Ret (None, ev_sample 15).
Proof.
  apply (wait_fractional_timeout_never_returns idle sleeps_ok (fun _ _ => eq_refl) (fun _ _ => eq_refl)
    (ev_sample 15) 3 0 (mkEvent 3 0 1) 0x1000 15 1000);
    first [vm_compute; reflexivity | discriminate | lia].
Defined.

(** Closing an event frees its handle but not its entry: a new event gets the
    same handle, and operations on that handle act on the closed event.  Here
    the new event is created signaled, and a poll of it times out. *)
Theorem closed_event_shadows_new_event :
  let s0 := nt_init (sample_mem 0) in
  let s1 := run_or (handler_NtCreateEvent 0 1 0) s0 in
  let s2 := run_or (@handler_NtClose (fun _ _ m => (0, m)) 3) s1 in
  exists s3 s4,
    handler_NtCreateEvent 0 1 1 s2 = Ret (STATUS_SUCCESS, s3) /\
    event_at s3 1 = Some (mkEvent 3 1 1) /\
    handler_NtWaitForSingleObject idle sleeps_ok 1 3 0x1008 s3 = Ret (Some STATUS_TIMEOUT, s4) /\
    event_at s4 1 = Some (mkEvent 3 1 1).
Proof.
  intros s0 s1 s2.
  exists (run_or (handler_NtCreateEvent 0 1 1) s2).
  exists (run_or (handler_NtWaitForSingleObject idle sleeps_ok 1 3 0x1008)
            (run_or (handler_NtCreateEvent 0 1 1) s2)).
  split_and!; vm_compute; reflexivity.
Qed.
