(* ===== verification/NtFiles.v ===== *)
(** * Files, views and time (theorems on src/msvcrt/ntdll_io.c, ntdll_handle.c,
      ntdll_memory.c and ntdll_time.c)

    A handle returned by NtOpenFile is the opened descriptor until it is closed;
    unmapping a view removes exactly one registered view; the system time is the
    number of 100ns intervals since 1601. *)
From S2P Require Import Prelude Bytes CStr HandleTable Ntdll NtSync.
From Stdlib Require Import Permutation.

(** ** The handle manager in the handlers' monad *)

Lemma handle_get_rep h s st :
  represents (nt_handles s) st -> in_u 32 h ->
  handle_get h s = Ret (from_option e_object ONull (st !! Z.to_nat h), s).
Proof.
  intros R Hh. destruct (handle_step_refines (HGet h) _ _ R Hh) as (t & E & _).
  cbn [handle_step store_step snd] in E. apply bind_Ret in E as (x & E & [= _ ->]).
  unfold handle_get, on_handles. rewrite E. simpl. by destruct s.
Qed.

Lemma handle_get_type_rep h s st :
  represents (nt_handles s) st -> in_u 32 h ->
  handle_get_type h s = Ret (from_option e_type 0 (st !! Z.to_nat h), s).
Proof.
  intros R Hh. destruct (handle_step_refines (HGetType h) _ _ R Hh) as (t & E & _).
  cbn [handle_step store_step snd] in E. apply bind_Ret in E as (x & E & [= _ ->]).
  unfold handle_get_type, on_handles. rewrite E. simpl. by destruct s.
Qed.

Lemma handle_free_rep h s st :
  represents (nt_handles s) st -> in_u 32 h ->
  exists t, handle_free h s = Ret (tt, mkNt t (nt_ko s) (nt_mem s) (nt_log s)) /\
    represents t (fst (store_step (HFree h) st)).
Proof.
  intros R Hh. destruct (handle_step_refines (HFree h) _ _ R Hh) as (t & E & R').
  cbn [handle_step] in E. apply bind_Ret in E as (x & E & [= -> _]).
  exists t. split; [|done]. unfold handle_free, on_handles. by rewrite E.
Qed.

(** One step of a handler on a known state. *)
Ltac run_nt :=
  repeat first [ progress cbn [mbind outcome_bind mret nt_ret from_option e_type e_object negb
                               deref nt_handles nt_ko nt_mem nt_log]
               | rewrite Z.eqb_refl ].

(** ** Opening and closing files *)

Section files.
Variable sys_munmap : forall (addr size : Z), mem -> Z * mem.
Variable sys_openat : forall (path : cstr) (oflags : Z), Z.
Abbreviation to_fd := (@handle_to_fd arch64 []).
Abbreviation open_file := (@handler_NtOpenFile arch64 sys_openat).
Abbreviation close := (handler_NtClose sys_munmap).

Lemma not_std k : (3 <= k < 512)%nat ->
  is_std_handle (Z.of_nat k) = false /\ (Z.of_nat k <=? 2) = false /\ u32 (Z.of_nat k) = Z.of_nat k.
Proof.
  intros. unfold is_std_handle, STDIN_HANDLE, STDOUT_HANDLE, STDERR_HANDLE.
  rewrite wrap_small by lia. split_and!; [lia..|done].
Qed.

(** A table in which handle [k] is an open file. *)
Lemma to_fd_file s st k fd refs :
  represents (nt_handles s) st -> (3 <= k < 512)%nat -> 0 < fd < 2 ^ 31 ->
  st !! k = Some (mkEntry HANDLE_TYPE_FILE (OFd fd) refs) ->
  to_fd (Z.of_nat k) s = Ret (fd, s).
Proof.
  intros R Hk Hfd Hs. destruct (not_std k Hk) as (Hn & _ & Hu).
  unfold handle_to_fd. unfold is_std_handle in Hn. apply orb_false_iff in Hn as [Hn ->].
  apply orb_false_iff in Hn as [-> ->]. cbn [is_my_wine32 arch64 andb]. rewrite Hu.
  unfold mbind, nt_bind. rewrite (handle_get_type_rep _ s st R) by (unfold in_u; lia).
  rewrite Nat2Z.id, Hs. run_nt. rewrite (handle_get_rep _ s st R) by (unfold in_u; lia).
  rewrite Nat2Z.id, Hs. run_nt. rewrite swrap_small by lia. done.
Qed.

Lemma to_fd_dead s st k :
  represents (nt_handles s) st -> (3 <= k < 512)%nat -> st !! k = None ->
  to_fd (Z.of_nat k) s = Ret (-1, s).
Proof.
  intros R Hk Hs. destruct (not_std k Hk) as (Hn & _ & Hu).
  unfold handle_to_fd. unfold is_std_handle in Hn. apply orb_false_iff in Hn as [Hn ->].
  apply orb_false_iff in Hn as [-> ->]. cbn [is_my_wine32 arch64 andb]. rewrite Hu.
  unfold mbind, nt_bind. rewrite (handle_get_type_rep _ s st R) by (unfold in_u; lia).
  by rewrite Nat2Z.id, Hs.
Qed.

Lemma close_file s st k fd :
  represents (nt_handles s) st -> (3 <= k < 512)%nat -> 0 < fd < 2 ^ 31 ->
  st !! k = Some (mkEntry HANDLE_TYPE_FILE (OFd fd) 1) ->
  exists s', close (Z.of_nat k) s = Ret (STATUS_SUCCESS, s') /\
    nt_log s' = nt_log s ++ [SysClose fd] /\ represents (nt_handles s') (delete k st) /\ nt_mem s' = nt_mem s.
Proof.
  intros R Hk Hfd Hs. destruct (not_std k Hk) as (Hn & H2 & Hu).
  unfold handler_NtClose. rewrite Hn, H2, Hu. unfold mbind, nt_bind.
  rewrite (handle_get_type_rep _ s st R) by (unfold in_u; lia). rewrite Nat2Z.id, Hs. run_nt.
  change (HANDLE_TYPE_FILE =? 0) with false. cbv beta iota.
  rewrite (handle_get_rep _ s st R) by (unfold in_u; lia). rewrite Nat2Z.id, Hs. run_nt.
  unfold log_call. run_nt. rewrite swrap_small by lia. set (s1 := mkNt _ _ _ _).
  destruct (handle_free_rep (Z.of_nat k) s1 st R) as (t & -> & R'); [unfold in_u; lia|].
  run_nt. eexists. split; [reflexivity|]. split; [done|]. split; [|done].
  cbn [nt_handles]. cbn [store_step fst] in R'. rewrite H2, Nat2Z.id, Hs in R'. exact R'.
Qed.

(** Closing a handle that is not open. *)
Lemma close_none s st h : represents (nt_handles s) st -> in_u 32 h -> is_std_handle h = false -> (h <=? 2) = false ->
  st !! Z.to_nat h = None -> close h s = Ret (STATUS_INVALID_HANDLE, s).
Proof.
  intros R Hb Hn H2 Hs. assert (Eu : u32 h = h) by (apply wrap_small; exact Hb).
  unfold handler_NtClose. rewrite Hn, H2, Eu. unfold mbind, nt_bind. by rewrite (handle_get_type_rep _ s st R Hb), Hs.
Qed.

(** NtOpenFile with descriptor [fd] from the system: when a handle is free, the
    handle written back stands for [fd]; closing it closes [fd] once and makes
    the handle invalid.  When none is free the descriptor is closed again. *)
Theorem NtOpenFile_roundtrip s st path fd file_handle access oa :
  represents (nt_handles s) st -> @object_path arch64 oa s = Ret (path, s) ->
  sys_openat (default (lit "/dev/null"%string) path) (open_flags access) = fd ->
  0 < fd < 2 ^ 31 -> mapped (nt_mem s) file_handle 8 ->
  (exists s', @handler_NtOpenFile arch64 sys_openat file_handle access oa 0 s = Ret (STATUS_UNSUCCESSFUL, s') /\
     nt_log s' = nt_log s ++ [SysClose fd] /\ represents (nt_handles s') st) \/
  (exists h s', @handler_NtOpenFile arch64 sys_openat file_handle access oa 0 s = Ret (STATUS_SUCCESS, s') /\
     mload 8 file_handle s' = Ret (h, s') /\ @handle_to_fd arch64 [] h s' = Ret (fd, s') /\
     exists s'', handler_NtClose sys_munmap h s' = Ret (STATUS_SUCCESS, s'') /\
       nt_log s'' = nt_log s' ++ [SysClose fd] /\ @handle_to_fd arch64 [] h s'' = Ret (-1, s'')).
Proof.
  intros R Hpath Hopen Hfd Hm. unfold handler_NtOpenFile, mbind, nt_bind. rewrite Hpath. run_nt.
  rewrite Hopen, swrap_small by lia. rewrite (proj2 (Z.ltb_ge fd 0)) by lia.
  unfold fd_to_handle, handle_alloc, on_handles, fd_object, usize, ptr_bits. cbn [is_my_wine32 arch64].
  rewrite wrap_small by lia. rewrite (proj2 (Z.eqb_neq fd 0)) by lia.
  destruct (alloc_cases HANDLE_TYPE_FILE (OFd fd) _ _ R) as [E|(k & t' & Hk & Hn & E & R')]; rewrite E; run_nt.
  - left. eexists. split; [reflexivity|]. done.
  - right. rewrite (proj2 (Z.eqb_neq (Z.of_nat k) 0)) by lia.
    set (s1 := mkNt t' _ _ _). unfold mstore, mstore_list.
    destruct (mstore_bytes_ok (le_split 8 (Z.of_nat k)) file_handle (nt_mem s)) as (m' & Em & Hl & _).
    { by rewrite length_le_split. }
    cbn [nt_mem s1]. rewrite Em. run_nt. exists (Z.of_nat k).
    set (s2 := mkNt t' (nt_ko s) m' (nt_log s)). exists s2. split; [done|].
    assert (Hst : (<[k := mkEntry HANDLE_TYPE_FILE (OFd fd) 1]> st) !! k
      = Some (mkEntry HANDLE_TYPE_FILE (OFd fd) 1)) by by rewrite lookup_insert_eq.
    split; [|split].
    + unfold mload. cbn [nt_mem s2]. rewrite length_le_split in Hl. rewrite Hl. cbn [deref mbind outcome_bind].
      rewrite le_combine_split, wrap_small by lia. done.
    + by apply (to_fd_file s2 _ k fd 1 R').
    + destruct (close_file s2 _ k fd R' Hk Hfd Hst) as (s'' & Ec & Hlog & R2 & _).
      exists s''. split; [done|]. split; [done|]. apply (to_fd_dead s'' _ k R2 Hk).
      by rewrite lookup_delete_eq.
Qed.
End files.

(** ** Section views *)

(** The registered views. *)
Definition live_views (k : kernel_objects) : list wine_view_t :=
  take (Z.to_nat (view_count k)) (views k).
Definition views_wf (k : kernel_objects) : Prop :=
  length (views k) = MAX_SECTIONS /\ 0 <= view_count k <= Z.of_nat MAX_SECTIONS.

(** Replacing an entry by the last one and dropping the last removes the entry. *)
Lemma swap_remove_perm {X} (l : list X) i x y n :
  l !! i = Some x -> (i < S n)%nat -> l !! n = Some y ->
  take (S n) l ≡ₚ x :: take n (<[i := y]> l).
Proof.
  intros Hi Hlt Hn. rewrite (take_S_r _ _ _ Hn).
  destruct (decide (i = n)) as [->|Hne].
  - replace y with x by congruence. rewrite take_insert_ge by lia. by rewrite Permutation_app_comm.
  - assert (Hti : take n l !! i = Some x) by (rewrite lookup_take_lt; [done|lia]).
    rewrite take_insert_lt by lia. rewrite <- (take_drop_middle _ _ _ Hti) at 1.
    rewrite insert_take_drop by (by eapply lookup_lt_Some).
    rewrite <- !app_assoc. simpl. rewrite (Permutation_app_comm _ [y]). simpl.
    rewrite <- !Permutation_middle. rewrite perm_swap. done.
Qed.

Section unmap.
Context {A : Arch}.
Variable sys_munmap : forall (addr size : Z), mem -> Z * mem.

(** Unmapping: with no view at the address the call is refused; otherwise one
    registered view at that address is unmapped with its full size and leaves
    the registry, unless the system refuses to unmap it. *)
Theorem NtUnmapViewOfSection_correct s base :
  views_wf (nt_ko s) -> base <> 0 -> in_u ptr_bits base ->
  if decide (base ∈ v_base <$> live_views (nt_ko s)) then
    exists v s', v ∈ live_views (nt_ko s) /\ v_base v = base /\
      let r := fst (sys_munmap base (v_size v) (nt_mem s)) in
      handler_NtUnmapViewOfSection sys_munmap base s
        = Ret (if r =? 0 then STATUS_SUCCESS else STATUS_UNSUCCESSFUL, s') /\
      nt_log s' = nt_log s ++ [SysMunmap base (v_size v)] /\ views_wf (nt_ko s') /\
      (if r =? 0 then live_views (nt_ko s) ≡ₚ v :: live_views (nt_ko s')
       else live_views (nt_ko s') = live_views (nt_ko s))
  else handler_NtUnmapViewOfSection sys_munmap base s = Ret (STATUS_INVALID_PARAMETER, s).
Proof.
  intros [L C] Hb Hu. unfold handler_NtUnmapViewOfSection, mbind, nt_bind, get_ko, lift, find_view.
  rewrite (proj2 (Z.eqb_neq _ _) Hb). unfold usize. rewrite wrap_small by apply Hu. run_nt.
  rewrite find_loop_spec by (unfold MAX_SECTIONS in *; lia). rewrite drop_0. fold (live_views (nt_ko s)).
  destruct (list_find (fun v => v_base v = base) (live_views (nt_ko s))) as [[i v]|] eqn:Ef.
  - apply list_find_Some in Ef as (Hi & Hv & _).
    rewrite decide_True by (apply list_elem_of_fmap; exists v; split; [done|by eapply list_elem_of_lookup_2]).
    pose proof Hi as Hi'. unfold live_views in Hi'. apply lookup_take_Some in Hi' as [Hi' Hlt].
    exists v. cbn [fmap option_fmap option_map fst Nat.add]. run_nt. rewrite Hi'. run_nt.
    unfold munmap. rewrite Hv. destruct (sys_munmap base (v_size v) (nt_mem s)) as [r m]. run_nt.
    cbn [fst]. destruct (r =? 0) eqn:Er; run_nt.
    + destruct (lookup_lt_is_Some_2 (views (nt_ko s)) (Z.to_nat (view_count (nt_ko s) - 1))) as [y Hy].
      { rewrite L. unfold MAX_SECTIONS in *. lia. }
      rewrite Hy. run_nt. unfold put. rewrite Hi'. run_nt. unfold set_ko. run_nt.
      eexists. split; [by eapply list_elem_of_lookup_2|]. split; [done|]. split; [reflexivity|].
      split; [done|]. split; [split; simpl; [by rewrite length_insert|unfold MAX_SECTIONS in *; lia]|].
      unfold live_views. cbn [nt_ko set_views views view_count].
      replace (Z.to_nat (view_count (nt_ko s))) with (S (Z.to_nat (view_count (nt_ko s) - 1))) by lia.
      by apply swap_remove_perm; [|lia|].
    + eexists. split; [by eapply list_elem_of_lookup_2|]. split; [done|]. split; [reflexivity|].
      split; [done|]. split; [by split|]. done.
  - rewrite decide_False; [done|]. intros (v & Hv & Hin)%list_elem_of_fmap.
    apply list_find_None in Ef. rewrite Forall_forall in Ef. by apply (Ef v Hin).
Qed.
End unmap.

(** ** Time *)

(** The 100ns intervals from 1601 to a time given by seconds and nanoseconds
    since 1970 (134774 days lie between the two dates). *)
Definition filetime_of (sec nsec : Z) : Z := (134774 * 86400 + sec) * 10000000 + nsec / 100.

(** NtQuerySystemTime stores the FILETIME of the clock, without overflow for any
    time before the year 30000 or so. *)
Theorem NtQuerySystemTime_correct clock s p sec nsec :
  clock CLOCK_REALTIME = Some (sec, nsec) -> 0 <= sec < 2 ^ 40 -> 0 <= nsec < 1000000000 ->
  p <> 0 -> mapped (nt_mem s) p 8 ->
  exists s', handler_NtQuerySystemTime clock p s = Ret (STATUS_SUCCESS, s') /\
    mload 8 p s' = Ret (filetime_of sec nsec, s').
Proof.
  intros Hc Hs Hn Hp Hm. unfold handler_NtQuerySystemTime. rewrite Hc. unfold mbind, nt_bind.
  assert (Hq : 0 <= nsec / 100 < 10000000) by (Z.to_euclidean_division_equations; lia).
  rewrite (wrap_small 64 sec), (wrap_small 64 (sec * 10000000)), (wrap_small 64 nsec) by lia.
  rewrite (wrap_small 64 (_ + nsec / 100)) by lia. rewrite wrap_small by lia.
  destruct (mstore_opt_ok p (sec * 10000000 + nsec / 100 + 116444736000000000) s) as (m' & -> & Hl);
    [by right|]. run_nt. eexists. split; [reflexivity|]. unfold mload. cbn [with_mem nt_mem].
  rewrite (Hl Hp). run_nt. rewrite le_combine_split, wrap_small by lia. do 2 f_equal.
  unfold filetime_of. lia.
Qed.

(** ** Concrete runs *)

Definition munmap_ok (addr size : Z) (m : mem) : Z * mem := (0, m).
Definition openat5 (path : cstr) (oflags : Z) : Z := 5.

Lemma sample_mapped t p : p = 0x1000 \/ p = 0x1008 -> mapped (sample_mem t) p 8.
Proof.
  intros Hp i Hi. do 8 (destruct i as [|i]; [destruct Hp as [-> | ->]; eexists; vm_compute; reflexivity|]).
  lia.
Qed.

Lemma NtOpenFile_roundtrip_witness :
  (exists s', @handler_NtOpenFile arch64 openat5 0x1000 GENERIC_READ 0 0 (nt_init (sample_mem 0))
     = Ret (STATUS_UNSUCCESSFUL, s') /\ nt_log s' = [SysClose 5] /\ represents (nt_handles s') store_init) \/
  (exists h s', @handler_NtOpenFile arch64 openat5 0x1000 GENERIC_READ 0 0 (nt_init (sample_mem 0))
     = Ret (STATUS_SUCCESS, s') /\ mload 8 0x1000 s' = Ret (h, s') /\
     @handle_to_fd arch64 [] h s' = Ret (5, s') /\
     exists s'', handler_NtClose munmap_ok h s' = Ret (STATUS_SUCCESS, s'') /\
       nt_log s'' = nt_log s' ++ [SysClose 5] /\ @handle_to_fd arch64 [] h s'' = Ret (-1, s'')).
Proof.
  apply (NtOpenFile_roundtrip munmap_ok openat5 (nt_init (sample_mem 0)) store_init None 5 0x1000);
    [apply handle_init_represents|reflexivity|reflexivity|lia|apply sample_mapped; by left].
Defined.

Definition two_views : nt_state :=
  mkNt wine_handle_manager_runtime_init
    (set_views (<[0%nat := mkView 0x10000 64]> (<[1%nat := mkView 0x20000 32]> (views g_ko_init))) 2 g_ko_init)
    (sample_mem 0) [].

Lemma NtUnmapViewOfSection_correct_witness :
  exists v s', v ∈ live_views (nt_ko two_views) /\ v_base v = 0x10000 /\
    @handler_NtUnmapViewOfSection arch64 munmap_ok 0x10000 two_views = Ret (STATUS_SUCCESS, s') /\
    live_views (nt_ko two_views) ≡ₚ v :: live_views (nt_ko s').
Proof.
  pose proof (@NtUnmapViewOfSection_correct arch64 munmap_ok two_views 0x10000) as H.
  rewrite decide_True in H.
  - destruct H as (v & s' & H1 & H2 & H3 & _ & _ & H4).
    + split; [reflexivity|]. unfold MAX_SECTIONS. simpl. lia.
    + discriminate.
    + unfold in_u, ptr_bits. simpl. lia.
    + exists v, s'. simpl in H3, H4. done.
  - vm_compute. left.
Defined.

Lemma NtQuerySystemTime_correct_witness :
  exists s', handler_NtQuerySystemTime (fun _ => Some (0, 250)) 0x1000 (nt_init (sample_mem 0))
    = Ret (STATUS_SUCCESS, s') /\ mload 8 0x1000 s' = Ret (116444736000000002, s').
Proof.
  apply (NtQuerySystemTime_correct (fun _ => Some (0, 250)) (nt_init (sample_mem 0)) 0x1000 0 250);
    [reflexivity|lia|lia|discriminate|apply sample_mapped; by left].
Defined.

(** Descriptor 0 is stored as a null pointer: a file opened as descriptor 0 gets
    a handle that no operation accepts, and closing the handle does not close
    the descriptor. *)
Theorem descriptor_zero_is_lost :
  let s := run_or (@handler_NtOpenFile arch64 (fun _ _ => 0) 0x1000 GENERIC_READ 0 0) (nt_init (sample_mem 0)) in
  nt_log s = [] /\ (h ← mload 8 0x1000 s; Ret (fst h)) = Ret 3 /\
  @handle_to_fd arch64 [] 3 s = Ret (-1, s) /\
  nt_log (run_or (handler_NtClose munmap_ok 3) s) = [].
Proof. split_and!; vm_compute; reflexivity. Qed.

(** Handles are compared as 64-bit values and then truncated: NtClose of
    0x100000001 passes the test that protects handles 0, 1 and 2, and closes
    descriptor 1. *)
Theorem NtClose_truncation_closes_stdout :
  nt_log (run_or (handler_NtClose munmap_ok 0x100000001) (nt_init (sample_mem 0))) = [SysClose 1].
Proof. vm_compute. reflexivity. Qed.

(** NtMapViewOfSection does not check the type of the handle: given the handle
    of an event it reads a section structure outside every section. *)
Theorem NtMapViewOfSection_confuses_types :
  @handler_NtMapViewOfSection arch64 (fun _ _ _ _ _ _ m => (2 ^ 64 - 12, m)) 3 0 0 0 0 4 (ev_sample 0) = Fault.
Proof. vm_compute. reflexivity. Qed.
