(* ===== verification/CritSec.v ===== *)
(** * Critical sections (src/msvcrt/kernel32_sync.c)

    InitializeCriticalSection, EnterCriticalSection and LeaveCriticalSection of
    threads that share a section, one step per access to shared memory, over any
    events with the interface [Events]; the handlers of Ntdll are an instance. *)
From S2P Require Import Prelude Bytes CStr HandleTable Ntdll NtSync.

(** ** Events as critical sections use them

    [ev_create t] is NtCreateEvent with a local variable of thread [t] for the handle,
    which it reads back; a wait is a lookup of the handle, polls, and, when the event is
    signaled, the reset of an automatic one. *)
Class Events (E : Type) := {
  ev_create : nat -> E -> outcome (Z * E);
  ev_reset : Z -> E -> outcome E;
  ev_set : Z -> E -> outcome E;
  ev_find : Z -> E -> outcome (option nat);
  ev_poll : nat -> E -> outcome bool;
  ev_take : nat -> E -> outcome E }.

(** No operation fails on sound events, and slots stay valid. *)
Class EventLaws (E : Type) `{Events E} := {
  ev_ok : E -> Prop;
  ev_slot : nat -> E -> Prop;
  ev_le (e e' : E) : Prop := ev_ok e' /\ forall i, ev_slot i e -> ev_slot i e';
  ev_create_ok : forall t e, ev_ok e -> exists h e', ev_create t e = Ret (h, e') /\ ev_le e e';
  ev_reset_ok : forall h e, ev_ok e -> exists e', ev_reset h e = Ret e' /\ ev_le e e';
  ev_set_ok : forall h e, ev_ok e -> exists e', ev_set h e = Ret e' /\ ev_le e e';
  ev_find_ok : forall h e, ev_ok e -> exists o, ev_find h e = Ret o /\ forall i, o = Some i -> ev_slot i e;
  ev_poll_ok : forall i e, ev_ok e -> ev_slot i e -> exists b, ev_poll i e = Ret b;
  ev_take_ok : forall i e, ev_ok e -> ev_slot i e -> exists e', ev_take i e = Ret e' /\ ev_le e e' }.

(** ** State *)

Record CRITICAL_SECTION := mkCs {
  DebugInfo : Z; LockCount : Z; RecursionCount : Z; OwningThread : Z; LockSemaphore : Z; SpinCount : Z }.

Definition set_lock (v : Z) (s : CRITICAL_SECTION) : CRITICAL_SECTION :=
  mkCs (DebugInfo s) v (RecursionCount s) (OwningThread s) (LockSemaphore s) (SpinCount s).
Definition set_recursion (v : Z) (s : CRITICAL_SECTION) : CRITICAL_SECTION :=
  mkCs (DebugInfo s) (LockCount s) v (OwningThread s) (LockSemaphore s) (SpinCount s).
Definition set_owner (v : Z) (s : CRITICAL_SECTION) : CRITICAL_SECTION :=
  mkCs (DebugInfo s) (LockCount s) (RecursionCount s) v (LockSemaphore s) (SpinCount s).
Definition set_semaphore (v : Z) (s : CRITICAL_SECTION) : CRITICAL_SECTION :=
  mkCs (DebugInfo s) (LockCount s) (RecursionCount s) (OwningThread s) v (SpinCount s).

(** cs is not NULL. *)
Definition InitializeCriticalSection : CRITICAL_SECTION := mkCs 0 (-1) 0 0 0 0.

(** Where a thread is: in the code of the guest, or before an access of a call. *)
Inductive pc :=
| Idle
(* EnterCriticalSection *)
| E_Cas                (* compare-and-exchange of LockCount *)
| E_Rec                (* RecursionCount = 1 *)
| E_Own                (* OwningThread = getpid() *)
| E_Test               (* OwningThread == getpid() *)
| E_Inc                (* RecursionCount++: the load *)
| E_IncStore (v : Z)
| S_Sem                (* LockSemaphore == 0 *)
| S_Create             (* NtCreateEvent *)
| S_Store (h : Z)      (* LockSemaphore = handle *)
| S_Reset              (* the argument of NtResetEvent *)
| S_ResetCall (h : Z)
| S_Wait               (* the argument of NtWaitForSingleObject *)
| S_Find (h : Z)
| S_Poll (i : nat)
| S_Take (i : nat)
| S_Cas                (* compare-and-exchange after the wait *)
(* LeaveCriticalSection *)
| L_Dec                (* RecursionCount--: the load *)
| L_DecStore (v : Z)
| L_Test               (* RecursionCount == 0 *)
| L_Unlock             (* LockCount = -1 *)
| L_Clear              (* OwningThread = 0 *)
| L_Sem                (* LockSemaphore != 0 *)
| L_Event              (* the argument of NtSetEvent *)
| L_EventCall (h : Z).

(** What a step leads to: another access, or the end of a call. *)
Inductive next := Goto (p : pc) | Entered | Left.

Section code.
Context {A : Arch} {E : Type} `{Events E}.
(** The process of a thread: threads are cloned without CLONE_THREAD. *)
Variable getpid : nat -> Z.

Definition cas (ok fail : pc) (s : CRITICAL_SECTION) (e : E) : outcome (next * CRITICAL_SECTION * E) :=
  if LockCount s =? -1 then Ret (Goto ok, set_lock 0 s, e) else Ret (Goto fail, s, e).

Definition access (t : nat) (p : pc) (s : CRITICAL_SECTION) (e : E) : outcome (next * CRITICAL_SECTION * E) :=
  match p with
  | Idle => Ret (Goto Idle, s, e)
  | E_Cas => cas E_Rec E_Test s e
  | E_Rec => Ret (Goto E_Own, set_recursion 1 s, e)
  | E_Own => Ret (Entered, set_owner (usize (getpid t)) s, e)
  | E_Test => Ret (Goto (if OwningThread s =? u64 (getpid t) then E_Inc else S_Sem), s, e)
  | E_Inc => Ret (Goto (E_IncStore (RecursionCount s)), s, e)
  | E_IncStore v => Ret (Entered, set_recursion (i32 (v + 1)) s, e)
  | S_Sem => Ret (Goto (if LockSemaphore s =? 0 then S_Create else S_Reset), s, e)
  | S_Create => '(h, e) ← ev_create t e; Ret (Goto (S_Store h), s, e)
  | S_Store h => Ret (Goto S_Reset, set_semaphore (usize h) s, e)
  | S_Reset => Ret (Goto (S_ResetCall (LockSemaphore s)), s, e)
  | S_ResetCall h => e ← ev_reset h e; Ret (Goto S_Wait, s, e)
  | S_Wait => Ret (Goto (S_Find (LockSemaphore s)), s, e)
  | S_Find h => o ← ev_find h e; Ret (Goto (match o with Some i => S_Poll i | None => S_Cas end), s, e)
  | S_Poll i => b ← ev_poll i e; Ret (Goto (if (b : bool) then S_Take i else S_Poll i), s, e)
  | S_Take i => e ← ev_take i e; Ret (Goto S_Cas, s, e)
  | S_Cas => cas E_Rec S_Sem s e
  | L_Dec => Ret (Goto (L_DecStore (RecursionCount s)), s, e)
  | L_DecStore v => Ret (Goto L_Test, set_recursion (i32 (v - 1)) s, e)
  | L_Test => Ret (if RecursionCount s =? 0 then Goto L_Unlock else Left, s, e)
  | L_Unlock => Ret (Goto L_Clear, set_lock (-1) s, e)
  | L_Clear => Ret (Goto L_Sem, set_owner 0 s, e)
  | L_Sem => Ret (if LockSemaphore s =? 0 then Left else Goto L_Event, s, e)
  | L_Event => Ret (Goto (L_EventCall (LockSemaphore s)), s, e)
  | L_EventCall h => e ← ev_set h e; Ret (Left, s, e)
  end.

(** ** Threads

    A thread is a position and the number of times that it has entered the section and
    not left it.  It calls EnterCriticalSection whenever it likes, fewer than
    2^31 - 1 times in a row, and LeaveCriticalSection only when it has entered. *)
Record config := mkConf { c_cs : CRITICAL_SECTION; c_ev : E; c_th : list (pc * nat) }.

Inductive act := Enter (t : nat) | Leave (t : nat) | Run (t : nat).

Definition settle (n : next) (d : nat) : pc * nat :=
  match n with Goto p => (p, d) | Entered => (Idle, S d) | Left => (Idle, d) end.

Definition step (a : act) (c : config) : outcome config :=
  match a with
  | Enter t =>
      match c_th c !! t with
      | Some (Idle, d) =>
          if Z.of_nat d <? 2 ^ 31 - 1 then Ret (mkConf (c_cs c) (c_ev c) (<[t := (E_Cas, d)]> (c_th c))) else Ret c
      | _ => Ret c
      end
  | Leave t =>
      match c_th c !! t with
      | Some (Idle, S d) => Ret (mkConf (c_cs c) (c_ev c) (<[t := (L_Dec, d)]> (c_th c)))
      | _ => Ret c
      end
  | Run t =>
      match c_th c !! t with
      | Some (p, d) =>
          '(n, s, e) ← access t p (c_cs c) (c_ev c);
          Ret (mkConf s e (<[t := settle n d]> (c_th c)))
      | None => Ret c
      end
  end.

Fixpoint run (l : list act) (c : config) : outcome config :=
  match l with [] => Ret c | a :: l => c ← step a c; run l c end.

Definition start (n : nat) (e : E) : config := mkConf InitializeCriticalSection e (replicate n (Idle, 0%nat)).

End code.
Arguments config E : clear implicits.

(** ** The invariant *)

(** A thread holds the section from the exchange that succeeds to the store that sets
    it free. *)
Definition holds (x : pc * nat) : bool :=
  match x.1 with
  | E_Rec | E_Own | L_Dec | L_DecStore _ | L_Test | L_Unlock => true
  | L_Clear | L_Sem | L_Event | L_EventCall _ => false
  | _ => (0 <? x.2)%nat
  end.

(** What a thread knows of RecursionCount. *)
Definition knows (x : pc * nat) (rec : Z) : Prop :=
  let d := Z.of_nat x.2 in
  match x.1 with
  | Idle => (0 < d -> rec = d) /\ d <= 2 ^ 31 - 1
  | E_Rec => d = 0
  | E_Own => d = 0 /\ rec = 1
  | E_Inc => 0 < d /\ rec = d /\ d < 2 ^ 31 - 1
  | E_IncStore v => 0 < d /\ rec = d /\ v = d /\ d < 2 ^ 31 - 1
  | L_Dec => rec = d + 1 /\ d + 1 <= 2 ^ 31 - 1
  | L_DecStore v => rec = d + 1 /\ v = d + 1 /\ d + 1 <= 2 ^ 31 - 1
  | L_Test => rec = d /\ d <= 2 ^ 31 - 1
  | L_Unlock => d = 0 /\ rec = 0
  | L_Clear | L_Sem | L_Event | L_EventCall _ => d = 0
  | _ => (0 < d -> rec = d) /\ d < 2 ^ 31 - 1
  end.
Lemma knows_free x r r' : holds x = false -> knows x r -> knows x r'.
Proof.
  destruct x as [p d]. unfold holds, knows. cbn [fst snd].
  destruct p; intros Hh Hk; try done; try apply Nat.ltb_ge in Hh; try lia.
Qed.

(** The slot that a waiting thread polls. *)
Definition polls (p : pc) : option nat := match p with S_Poll i | S_Take i => Some i | _ => None end.

Section proofs.
Context {A : Arch} {E : Type} `{EventLaws E}.
Variable getpid : nat -> Z.
(** [n] threads, in processes of their own. *)
Variable n : nat.
Hypothesis getpid_pos : forall t, (t < n)%nat -> 0 < getpid t < 2 ^ 31.
Hypothesis getpid_inj : forall t t', (t < n)%nat -> (t' < n)%nat -> getpid t = getpid t' -> t = t'.

Record inv (c : config E) : Prop := {
  i_len : length (c_th c) = n;
  i_ev : ev_ok (c_ev c);
  i_slot : forall t x i, c_th c !! t = Some x -> polls x.1 = Some i -> ev_slot i (c_ev c);
  i_knows : forall t x, c_th c !! t = Some x -> knows x (RecursionCount (c_cs c));
  i_one : forall t t' x x', c_th c !! t = Some x -> c_th c !! t' = Some x' ->
    holds x = true -> holds x' = true -> t = t';
  i_lock : (LockCount (c_cs c) = 0 /\ exists t x, c_th c !! t = Some x /\ holds x = true) \/
    (LockCount (c_cs c) = -1 /\ RecursionCount (c_cs c) = 0 /\ forall t x, c_th c !! t = Some x -> holds x = false);
  i_owner : OwningThread (c_cs c) = 0 \/
    exists t x, c_th c !! t = Some x /\ OwningThread (c_cs c) = getpid t /\ (holds x = true \/ x.1 = L_Clear) }.

(** Thread [t] goes from [x] to [y] and keeps holding, or not holding, the section. *)
Lemma inv_keep c t x y s e :
  inv c -> c_th c !! t = Some x -> holds y = holds x -> knows y (RecursionCount s) ->
  ev_le (c_ev c) e -> (forall i, polls y.1 = Some i -> ev_slot i e) ->
  LockCount s = LockCount (c_cs c) -> RecursionCount s = RecursionCount (c_cs c) \/ holds x = true ->
  (OwningThread s = OwningThread (c_cs c) /\ x.1 <> L_Clear) \/ OwningThread s = 0 \/ (OwningThread s = getpid t /\ holds y = true) ->
  inv (mkConf s e (<[t := y]> (c_th c))).
Proof.
  intros [Len V S K O L W] Ht Hh Hy [He Hs] Hp El Er Eo. pose proof (lookup_lt_Some _ _ _ Ht) as Hlt.
  split; cbn [c_cs c_ev c_th]; [by rewrite length_insert|done| | | | |].
  - intros u z i [(<- & <- & _)|[Hne Hu]]%list_lookup_insert_Some Hz; [by apply Hp|by eapply Hs, S].
  - intros u z [(<- & <- & _)|[Hne Hu]]%list_lookup_insert_Some; [done|]. destruct Er as [->|Hx]; [by eapply K|].
    eapply knows_free; [|by eapply K]. destruct (holds z) eqn:Hz; [|done]. by destruct Hne; eapply O.
  - intros u u' z z' [(<- & <- & _)|[Hne Hu]]%list_lookup_insert_Some [(<- & <- & _)|[Hne' Hu']]%list_lookup_insert_Some Hz Hz';
      rewrite ?Hh in *; [done|by eapply O..].
  - rewrite El. destruct L as [(L & u & z & Hu & Hz)|(L & R & N)]; [left|right].
    + split; [done|]. destruct (decide (u = t)) as [->|Hne].
      * exists t, y. rewrite list_lookup_insert_eq by done. split; [done|]. rewrite Hh. congruence.
      * exists u, z. by rewrite list_lookup_insert_ne by done.
    + split; [done|]. split; [destruct Er as [->|Hx]; [done|by rewrite (N _ _ Ht) in Hx]|].
      intros u z [(<- & <- & _)|[Hne Hu]]%list_lookup_insert_Some; [by rewrite Hh; eapply N|by eapply N].
  - destruct Eo as [[-> Hx]|[->|[-> Hz]]]; [|by left|right; exists t, y; rewrite list_lookup_insert_eq by done; auto].
    destruct W as [W|(u & z & Hu & Ew & Hz)]; [by left|right]. destruct (decide (u = t)) as [->|Hne].
    + exists t, y. rewrite list_lookup_insert_eq by done. split_and!; [done..|]. left. rewrite Hh. destruct Hz; congruence.
    + exists u, z. by rewrite list_lookup_insert_ne by done.
Qed.

Lemma ev_le_refl e : ev_ok e -> ev_le e e.
Proof. by split. Qed.

(** A step that changes neither the section nor the events. *)
Lemma inv_goto c t x y :
  inv c -> c_th c !! t = Some x -> holds y = holds x -> x.1 <> L_Clear ->
  knows y (RecursionCount (c_cs c)) -> (forall i, polls y.1 = Some i -> ev_slot i (c_ev c)) ->
  inv (mkConf (c_cs c) (c_ev c) (<[t := y]> (c_th c))).
Proof. intros I Ht Hh Hx Hy Hp. eapply inv_keep; eauto. by apply ev_le_refl, I. Qed.

(** A thread takes the free section. *)
Lemma inv_acquire c t x y :
  inv c -> c_th c !! t = Some x -> LockCount (c_cs c) = -1 -> x.1 <> L_Clear -> holds y = true -> polls y.1 = None ->
  knows y (RecursionCount (c_cs c)) -> inv (mkConf (set_lock 0 (c_cs c)) (c_ev c) (<[t := y]> (c_th c))).
Proof.
  intros [Len V S K O L W] Ht El Hx Hy Hp Hk. pose proof (lookup_lt_Some _ _ _ Ht) as Hlt.
  destruct L as [[L _]|(_ & R & N)]; [lia|]. split; cbn [c_cs c_ev c_th set_lock RecursionCount LockCount OwningThread]; [by rewrite length_insert|done| | | | |].
  - intros u z i [(<- & <- & _)|[Hne Hu]]%list_lookup_insert_Some Hz; [congruence|by eapply S].
  - intros u z [(<- & <- & _)|[Hne Hu]]%list_lookup_insert_Some; [done|by eapply K].
  - intros u u' z z' [(<- & <- & _)|[Hne Hu]]%list_lookup_insert_Some [(<- & <- & _)|[Hne' Hu']]%list_lookup_insert_Some Hz Hz';
      [done| | |]; rewrite ?(N _ _ Hu), ?(N _ _ Hu') in *; done.
  - left. split; [done|]. exists t, y. by rewrite list_lookup_insert_eq by done.
  - destruct W as [W|(u & z & Hu & Ew & Hz)]; [by left|right]. destruct (decide (u = t)) as [->|Hne].
    + exfalso. destruct Hz as [Hz|Hz]; [by rewrite (N _ _ Hu) in Hz|congruence].
    + exists u, z. by rewrite list_lookup_insert_ne by done.
Qed.

(** The thread that holds the section sets it free. *)
Lemma inv_release c t d :
  inv c -> c_th c !! t = Some (L_Unlock, d) -> inv (mkConf (set_lock (-1) (c_cs c)) (c_ev c) (<[t := (L_Clear, d)]> (c_th c))).
Proof.
  intros [Len V S K O L W] Ht. pose proof (lookup_lt_Some _ _ _ Ht) as Hlt. pose proof (K _ _ Ht) as [Hd Hr].
  assert (N : forall u z, u <> t -> c_th c !! u = Some z -> holds z = false).
  { intros u z Hne Hu. destruct (holds z) eqn:Hz; [|done]. by destruct Hne; eapply O. }
  split; cbn [c_cs c_ev c_th set_lock RecursionCount LockCount OwningThread]; [by rewrite length_insert|done| | | | |].
  - intros u z i [(<- & <- & _)|[Hne Hu]]%list_lookup_insert_Some Hz; [done|by eapply S].
  - intros u z [(<- & <- & _)|[Hne Hu]]%list_lookup_insert_Some; [done|by eapply K].
  - intros u u' z z' [(<- & <- & _)|[Hne Hu]]%list_lookup_insert_Some [(<- & <- & _)|[Hne' Hu']]%list_lookup_insert_Some Hz Hz';
      [done|done|done|by eapply O].
  - right. split_and!; [done|done|]. intros u z [(<- & <- & _)|[Hne Hu]]%list_lookup_insert_Some; [done|by apply (N u)].
  - destruct W as [W|(u & z & Hu & Ew & Hz)]; [by left|right]. destruct (decide (u = t)) as [->|Hne].
    + exists t, (L_Clear, d). rewrite list_lookup_insert_eq by done. auto.
    + exists u, z. by rewrite list_lookup_insert_ne by done.
Qed.

Ltac keep I Ht := eapply inv_keep; [exact I|exact Ht|..]; cbn [fst snd set_lock set_recursion set_owner set_semaphore LockCount RecursionCount OwningThread polls];
  [try done|try done|try first [assumption|by apply ev_le_refl, I]|try done|try done|try (by left)|try (by left)].
Ltac goto I Ht := eapply inv_goto; [exact I|exact Ht|..]; cbn [fst snd polls]; [try done..].

Lemma pid_small t : (t < n)%nat -> usize (getpid t) = getpid t.
Proof. intros Ht. pose proof (getpid_pos t Ht). unfold usize. apply wrap_small. unfold ptr_bits. destruct is_my_wine32; lia. Qed.

Lemma cas_keeps ok fail c t x :
  inv c -> c_th c !! t = Some x -> x.1 <> L_Clear -> holds (fail, x.2) = holds x -> polls fail = None -> polls ok = None ->
  knows (fail, x.2) (RecursionCount (c_cs c)) -> holds (ok, x.2) = true ->
  (holds x = false -> knows (ok, x.2) (RecursionCount (c_cs c))) ->
  exists m s, cas ok fail (c_cs c) (c_ev c) = Ret (m, s, c_ev c) /\ inv (mkConf s (c_ev c) (<[t := settle m x.2]> (c_th c))).
Proof.
  intros I Ht Hx Hf P1 P2 Kf Ho Ko. unfold cas. destruct (Z.eqb_spec (LockCount (c_cs c)) (-1)) as [El|El].
  - eexists _, _. split; [done|]. assert (Hh : holds x = false).
    { destruct (i_lock _ I) as [[L _]|(_ & _ & N)]; [lia|by eapply N]. }
    by eapply inv_acquire; eauto.
  - eexists _, _. split; [done|]. cbn [settle]. eapply inv_goto; eauto. intros i Hi. cbn [fst] in Hi. congruence.
Qed.

Lemma access_keeps c t p d :
  inv c -> c_th c !! t = Some (p, d) ->
  exists m s e, access getpid t p (c_cs c) (c_ev c) = Ret (m, s, e) /\ inv (mkConf s e (<[t := settle m d]> (c_th c))).
Proof.
  intros I Ht. pose proof (i_knows _ I _ _ Ht) as Hk. pose proof (i_ev _ I) as V.
  assert (Hlt : (t < n)%nat) by (rewrite <- (i_len _ I); by eapply lookup_lt_Some). pose proof (getpid_pos t Hlt) as Hp.
  destruct p; cbn [access] in *; unfold knows in Hk; cbn [fst snd] in Hk.
  - eexists _, _, _. split; [done|]. goto I Ht.
  - edestruct (cas_keeps E_Rec E_Test c t (E_Cas, d) I Ht) as (m & s & E1 & I1); try done.
    { unfold holds, knows. destruct d; [done|done]. }
    eexists _, _, _. split; [exact E1|done].
  - eexists _, _, _. split; [done|]. keep I Ht. by right.
  - eexists _, _, _. split; [done|]. keep I Ht.
    + unfold knows. cbn. lia.
    + right. right. rewrite pid_small by done. split; [done|]. unfold holds. simpl. done.
  - eexists _, _, _. split; [done|]. destruct (Z.eqb_spec (OwningThread (c_cs c)) (u64 (getpid t))) as [Eo|Eo].
    + rewrite wrap_small in Eo by lia. destruct (i_owner _ I) as [W|(u & z & Hu & Ew & Hz)]; [lia|].
      assert (Hun : (u < n)%nat) by (rewrite <- (i_len _ I); by eapply lookup_lt_Some).
      assert (u = t) as -> by (apply getpid_inj; [done..|congruence]). rewrite Ht in Hu. injection Hu as <-.
      destruct Hz as [Hz|Hz]; [|done]. unfold holds in Hz. destruct d as [|d]; [done|]. goto I Ht. unfold knows. cbn in *. lia.
    + goto I Ht.
  - eexists _, _, _. split; [done|]. goto I Ht. unfold knows. cbn. lia.
  - eexists _, _, _. split; [done|]. destruct Hk as (Hd & Hr & -> & Hb). keep I Ht.
    + unfold holds. cbn. destruct d; [lia|done].
    + unfold knows. cbn. rewrite swrap_small by lia. lia.
    + right. unfold holds. cbn. destruct d; [lia|done].
  - eexists _, _, _. split; [done|]. goto I Ht; destruct (_ =? 0); done.
  - destruct (ev_create_ok t _ V) as (h & e' & -> & Hle). eexists _, _, _. split; [done|]. keep I Ht.
  - eexists _, _, _. split; [done|]. keep I Ht.
  - eexists _, _, _. split; [done|]. goto I Ht.
  - destruct (ev_reset_ok h _ V) as (e' & -> & Hle). eexists _, _, _. split; [done|]. keep I Ht.
  - eexists _, _, _. split; [done|]. goto I Ht.
  - destruct (ev_find_ok h _ V) as (o & -> & Ho). eexists _, _, _. split; [done|]. goto I Ht; destruct o; try done.
  - destruct (ev_poll_ok i _ V (i_slot _ I _ _ _ Ht eq_refl)) as [b ->]. eexists _, _, _. split; [done|].
    pose proof (i_slot _ I _ _ _ Ht eq_refl). goto I Ht; destruct b; try done; by intros j [= <-].
  - destruct (ev_take_ok i _ V (i_slot _ I _ _ _ Ht eq_refl)) as (e' & -> & Hle). eexists _, _, _. split; [done|]. keep I Ht.
  - edestruct (cas_keeps E_Rec S_Sem c t (S_Cas, d) I Ht) as (m & s & E1 & I1); try done.
    { unfold holds, knows. destruct d; [done|done]. }
    eexists _, _, _. split; [exact E1|done].
  - eexists _, _, _. split; [done|]. goto I Ht. unfold knows. cbn. lia.
  - eexists _, _, _. split; [done|]. destruct Hk as (Hr & -> & Hb). keep I Ht; [|by right].
    unfold knows. cbn. rewrite swrap_small by lia. lia.
  - eexists _, _, _. split; [done|]. destruct Hk as (Hr & Hb). destruct (Z.eqb_spec (RecursionCount (c_cs c)) 0) as [E0|E0]; goto I Ht.
    + unfold knows. cbn. lia.
    + unfold holds. cbn. destruct d; [lia|done].
  - eexists _, _, _. split; [done|]. by apply inv_release.
  - eexists _, _, _. split; [done|]. keep I Ht. by right; left.
  - eexists _, _, _. split; [done|]. destruct (_ =? 0); goto I Ht.
    + unfold holds. cbn. destruct d; [done|lia].
    + unfold knows. cbn. lia.
  - eexists _, _, _. split; [done|]. goto I Ht.
  - destruct (ev_set_ok h _ V) as (e' & -> & Hle). eexists _, _, _. split; [done|]. keep I Ht.
    + unfold holds. cbn. destruct d; [done|lia].
    + unfold knows. cbn. lia.
Qed.

Lemma step_keeps a c : inv c -> exists c', step getpid a c = Ret c' /\ inv c'.
Proof.
  intros I. destruct a as [t|t|t]; cbn [step]; destruct (c_th c !! t) as [[p d]|] eqn:Ht; try by exists c.
  - destruct p; try by exists c. destruct (Z.ltb_spec (Z.of_nat d) (2 ^ 31 - 1)); [|by exists c].
    eexists. split; [done|]. pose proof (i_knows _ I _ _ Ht) as [Hk _]. goto I Ht.
  - destruct p; try by exists c. destruct d as [|d]; [by exists c|].
    eexists. split; [done|]. pose proof (i_knows _ I _ _ Ht) as Hk. unfold knows in Hk. cbn in Hk. goto I Ht. unfold knows. cbn. lia.
  - destruct (access_keeps c t p d I Ht) as (m & s & e & -> & I'). by eexists.
Qed.

Lemma run_keeps l : forall c, inv c -> exists c', run getpid l c = Ret c' /\ inv c'.
Proof.
  induction l as [|a l IH]; intros c I; [by exists c|]. cbn [run].
  destruct (step_keeps a c I) as (c1 & -> & I1). by apply IH.
Qed.

Lemma start_inv e : ev_ok e -> inv (start n e).
Proof.
  intros V. assert (K : forall t x, replicate n (Idle, 0%nat) !! t = Some x -> x = (Idle, 0%nat)).
  { by intros t x [-> _]%lookup_replicate. }
  split; cbn [start c_cs c_ev c_th InitializeCriticalSection LockCount RecursionCount OwningThread]; [by rewrite length_replicate|done| | | | |by left].
  - by intros t x i ->%K.
  - by intros t x ->%K.
  - by intros t t' x x' ->%K ->%K.
  - right. split_and!; [done|done|]. by intros t x ->%K.
Qed.

(** How often a thread has entered the section. *)
Definition inside (c : config E) (t : nat) : nat := match c_th c !! t with Some (_, d) => d | None => 0 end.

Lemma inside_holds c t p d : c_th c !! t = Some (p, S d) -> inv c -> holds (p, S d) = true.
Proof. intros Ht I. pose proof (i_knows _ I _ _ Ht) as Hk. unfold knows in Hk. destruct p; try done; cbn in Hk; lia. Qed.

(** C12: Critical sections exclude: however any number of threads, each in a process of its
    own, call EnterCriticalSection and LeaveCriticalSection and however their accesses
    interleave, no two threads are inside of the section at the same time, and the
    section counts how often the thread inside has entered; when nobody uses the
    section it is free as after its initialization.  No access fails. *)
Theorem critical_sections_exclude e l : ev_ok e ->
  exists c, run getpid l (start n e) = Ret c /\
    (forall t t', (0 < inside c t)%nat -> (0 < inside c t')%nat -> t = t') /\
    (forall t, c_th c !! t = Some (Idle, inside c t) -> (0 < inside c t)%nat -> RecursionCount (c_cs c) = Z.of_nat (inside c t)) /\
    ((forall t x, c_th c !! t = Some x -> x = (Idle, 0%nat)) ->
      LockCount (c_cs c) = -1 /\ RecursionCount (c_cs c) = 0 /\ OwningThread (c_cs c) = 0).
Proof.
  intros V. destruct (run_keeps l (start n e) (start_inv e V)) as (c & Er & I). exists c. split_and!; [done| | |].
  - unfold inside. intros t t' Ht Ht'. destruct (c_th c !! t) as [[p [|d]]|] eqn:E1; [lia| |lia].
    destruct (c_th c !! t') as [[p' [|d']]|] eqn:E2; [lia| |lia]. eapply (i_one _ I); eauto using inside_holds.
  - intros t Ht Hd. pose proof (i_knows _ I _ _ Ht) as [Hk _]. cbn in Hk. apply Hk. lia.
  - intros Hall. destruct (i_lock _ I) as [(_ & t & x & Ht & Hx)|(L & R & N)].
    { rewrite (Hall _ _ Ht) in Hx. done. }
    split_and!; [done|done|]. destruct (i_owner _ I) as [W|(t & x & Ht & _ & Hx)]; [done|]. rewrite (Hall _ _ Ht) in Hx. by destruct Hx.
Qed.
End proofs.

Lemma mload_bytes_mapped n : forall m a, mapped m a n -> is_Some (mload_bytes n a m).
Proof.
  induction n as [|n IH]; intros m a Hm; [by eexists|]. apply mapped_S in Hm as [[b Eb] Hm]. cbn [mload_bytes].
  rewrite Eb. destruct (IH _ _ Hm) as [bs Es]. cbn [mbind option_bind]. rewrite Es. by eexists.
Qed.

(** ** The events of Ntdll *)

Section ntdll.
Context {A : Arch}.
(** The address of EnterCriticalSection's variable handle on the stack of a thread. *)
Variable local : nat -> Z.

#[export] Instance nt_events : Events nt_state := {
  ev_create t s :=
    '(_, s) ← mstore 8 (local t) 0 s; '(_, s) ← handler_NtCreateEvent (local t) 0 0 s; mload 8 (local t) s;
  ev_reset h s := '(_, s) ← handler_NtResetEvent h 0 s; Ret s;
  ev_set h s := '(_, s) ← handler_NtSetEvent h 0 s; Ret s;
  ev_find h s := find_event (nt_ko s) (i32 h);
  ev_poll i s := '(x, _) ← ko_event i s; Ret (negb (ev_signaled x =? 0));
  ev_take i s := '(x, s) ← ko_event i s; if ev_event_type x =? 1 then '(_, s) ← set_signaled i 0 s; Ret s else Ret s }.

(** Memory keeps its domain and the number of events does not fall. *)
Definition grows (s s' : nt_state) : Prop :=
  (forall x, is_Some (nt_mem s' !! x) <-> is_Some (nt_mem s !! x)) /\ event_count (nt_ko s) <= event_count (nt_ko s').
Lemma grows_refl s : grows s s.
Proof. split; [done|lia]. Qed.
Lemma grows_trans s1 s2 s3 : grows s1 s2 -> grows s2 s3 -> grows s1 s3.
Proof. intros [D1 L1] [D2 L2]. split; [intros x; by rewrite D2|lia]. Qed.

Lemma mstore_list_grows a bs s r s' : mstore_list a bs s = Ret (r, s') -> mapped (nt_mem s) a (length bs) -> grows s s'.
Proof.
  intros E Hm. destruct (mstore_bytes_ok bs a (nt_mem s) Hm) as (m' & Em & _ & D & _).
  unfold mstore_list in E. rewrite Em in E. simpl in E. injection E as <- <-. split; [exact D|simpl; lia].
Qed.
Lemma mstore_grows a v s r s' : mstore 8 a v s = Ret (r, s') -> mapped (nt_mem s) a 8 -> grows s s'.
Proof. intros E Hm. eapply mstore_list_grows; [exact E|]. by rewrite length_le_split. Qed.

Lemma NtCreateEvent_grows p ty init s r s' :
  handler_NtCreateEvent p ty init s = Ret (r, s') -> mapped (nt_mem s) p 8 -> 0 <= event_count (nt_ko s) -> grows s s'.
Proof.
  intros E Hm Hc. unfold handler_NtCreateEvent, mbind, nt_bind, get_ko in E. cbn [mbind outcome_bind] in E.
  destruct (_ <=? _) eqn:El; [injection E as <- <-; apply grows_refl|].
  unfold set_ko, handle_alloc, on_handles in E. cbn [mbind outcome_bind nt_handles nt_ko nt_mem nt_log] in E.
  apply bind_Ret in E as ([h s1] & E1 & E). apply bind_Ret in E1 as ([t' h'] & Ea & E1). injection E1 as <- <-.
  cbn [mbind outcome_bind nt_handles nt_ko nt_mem nt_log] in E.
  destruct (_ =? 0); [cbn [mbind outcome_bind] in E; injection E as <- <-; split; simpl; [done|lia]|].
  apply bind_Ret in E as ([l s2] & E2 & E). unfold lift in E2. apply bind_Ret in E2 as (l' & _ & E2). injection E2 as <- <-.
  cbn [mbind outcome_bind nt_handles nt_ko nt_mem nt_log] in E. apply bind_Ret in E as ([u s3] & E3 & E). injection E as <- <-.
  unfold mstore_opt in E3. destruct (p =? 0); [injection E3 as <- <-; split; simpl; [done|lia]|].
  eapply grows_trans; [|eapply mstore_grows; [exact E3|done]]. split; simpl; [done|lia].
Qed.

Lemma set_signaled_grows i v s r s' : set_signaled i v s = Ret (r, s') -> grows s s'.
Proof.
  unfold set_signaled, mbind, nt_bind, get_ko, lift, set_ko. cbn [mbind outcome_bind].
  destruct (events (nt_ko s) !! i); [|done]. cbn [deref mbind outcome_bind]. intros [= <- <-]. split; simpl; [done|lia].
Qed.

Lemma mstore_opt_grows p v s r s' : mstore_opt 8 p v s = Ret (r, s') -> p = 0 \/ mapped (nt_mem s) p 8 -> grows s s'.
Proof.
  unfold mstore_opt. destruct (Z.eqb_spec p 0) as [->|Hp]; intros E Hm; [injection E as <- <-; apply grows_refl|].
  destruct Hm as [|Hm]; [done|]. by eapply mstore_grows.
Qed.
Lemma change_event_grows v h p s r s' : change_event v h p s = Ret (r, s') -> p = 0 \/ mapped (nt_mem s) p 8 -> grows s s'.
Proof.
  intros E Hm. unfold change_event, mbind, nt_bind, get_ko, lift in E. cbn [mbind outcome_bind] in E.
  apply bind_Ret in E as ([o s1] & E1 & E). apply bind_Ret in E1 as (o' & _ & E1). injection E1 as <- <-.
  destruct o' as [i|]; [|injection E as <- <-; apply grows_refl].
  apply bind_Ret in E as ([e s2] & E2 & E). unfold ko_event, mbind, nt_bind, get_ko, lift in E2. cbn [mbind outcome_bind] in E2.
  apply bind_Ret in E2 as (e' & _ & E2). injection E2 as <- <-.
  apply bind_Ret in E as ([u1 s4] & E4 & E). apply bind_Ret in E as ([u s3] & E3 & E). injection E as <- <-.
  eapply grows_trans; [by eapply mstore_opt_grows|by eapply set_signaled_grows].
Qed.

Definition nt_ok (s : nt_state) : Prop :=
  (exists a, ev_rep s a) /\ forall t, local t <> 0 /\ mapped (nt_mem s) (local t) 8.
Lemma grows_ok s s' : nt_ok s -> (exists a, ev_rep s' a) -> grows s s' ->
  nt_ok s' /\ forall i, Z.of_nat i < event_count (nt_ko s) -> Z.of_nat i < event_count (nt_ko s').
Proof.
  intros [_ Hl] R [D L]. split; [|lia]. split; [done|]. intros t. split; [apply Hl|]. intros i Hi. apply D. by apply Hl.
Qed.

Lemma change_event_ok v h s : nt_ok s -> exists s', ('(_, s') ← change_event v h 0 s; Ret s') = Ret s' /\
  nt_ok s' /\ forall i, Z.of_nat i < event_count (nt_ko s) -> Z.of_nat i < event_count (nt_ko s').
Proof.
  intros V. pose proof V as [[a R] _]. destruct (change_event_rep v s a h 0 R (or_introl eq_refl)) as [s' Hs'].
  assert (exists r, change_event v h 0 s = Ret (r, s') /\ exists a', ev_rep s' a') as (r & E & R').
  { destruct (a !! i32 h) as [[sg auto]|]; destruct Hs' as [E R']; eauto. }
  exists s'. rewrite E. split; [done|]. apply grows_ok; [done..|]. eapply change_event_grows; [exact E|by left].
Qed.

#[export] Program Instance nt_event_laws : EventLaws nt_state := {
  ev_ok := nt_ok;
  ev_slot i s := Z.of_nat i < event_count (nt_ko s) }.
Next Obligation.
  intros t s V. pose proof V as [[a R] Hl]. destruct (Hl t) as [Hn Hm].
  unfold ev_create. cbn [nt_events]. destruct (mstore_opt_ok (local t) 0 s (or_intror Hm)) as (m & Em & Lm).
  unfold mstore_opt in Em. rewrite (proj2 (Z.eqb_neq _ _) Hn) in Em. rewrite Em. cbn [mbind outcome_bind].
  pose proof (mstore_grows _ _ _ _ _ Em Hm) as G1. pose proof (ev_rep_mem s a m R) as R1.
  assert (Hm1 : mapped (nt_mem (with_mem s m)) (local t) 8) by (intros i Hi; apply G1; by apply Hm).
  destruct (NtCreateEvent_rep (with_mem s m) a (local t) 0 0 R1 (or_intror Hm1)) as [s' Hs'].
  assert (exists r, handler_NtCreateEvent (local t) 0 0 (with_mem s m) = Ret (r, s') /\ exists a', ev_rep s' a') as (r & E & R').
  { destruct Hs' as [[E R']|(h & E & _ & R' & _)]; eauto. }
  rewrite E. cbn [mbind outcome_bind].
  pose proof (NtCreateEvent_grows _ _ _ _ _ _ E Hm1 (proj1 (er_count _ _ R1))) as G2. pose proof (grows_trans _ _ _ G1 G2) as G.
  destruct (grows_ok s s' V R' G) as [V' S']. destruct (proj2 V' t) as [_ Hm'].
  unfold mload. destruct (mload_bytes_mapped 8 _ _ Hm') as [bs ->].
  cbn [deref mbind outcome_bind]. eexists _, _. split; [done|]. by split.
Qed.
Next Obligation. intros h s V. by apply change_event_ok. Qed.
Next Obligation. intros h s V. by apply change_event_ok. Qed.
Next Obligation.
  intros h s [[a R] _]. pose proof (find_event_rep s a (i32 h) R) as Hf. cbn [ev_find nt_events]. destruct (a !! i32 h).
  - destruct Hf as (i & e & -> & _ & Hi & _). eexists. split; [done|]. by intros j [= <-].
  - rewrite Hf. by eexists.
Qed.
Next Obligation.
  intros i s [[a R] _] Hi. cbn [ev_poll nt_events]. unfold ko_event, mbind, nt_bind, get_ko, lift. cbn [mbind outcome_bind].
  destruct (lookup_lt_is_Some_2 (events (nt_ko s)) i) as [e ->]; [rewrite (er_len _ _ R); pose proof (er_count _ _ R); cbn beta in Hi; lia|]. by eexists.
Qed.
Next Obligation.
  intros i s V Hi. pose proof V as [[a R] _]. cbn [ev_take nt_events]. unfold ko_event, mbind, nt_bind, get_ko, lift. cbn [mbind outcome_bind].
  destruct (lookup_lt_is_Some_2 (events (nt_ko s)) i) as [e He]; [rewrite (er_len _ _ R); pose proof (er_count _ _ R); cbn beta in Hi; lia|].
  rewrite He. cbn [deref mbind outcome_bind]. destruct (ev_event_type e =? 1); [|by exists s].
  destruct (set_signaled i 0 s) as [[u s']| |] eqn:Es; [|exfalso; revert Es..];
    unfold set_signaled, mbind, nt_bind, get_ko, lift, set_ko in *; cbn [mbind outcome_bind] in *; rewrite He in *; [|done..].
  cbn [deref mbind outcome_bind] in Es. injection Es as <- <-. eexists. split; [done|].
  apply grows_ok; [done| |split; simpl; [done|lia]]. exists (<[ev_handle e := (negb (0 =? 0), ev_event_type e =? 1)]> a). by apply ev_rep_update.
Qed.
End ntdll.

(** ** Two threads *)

Definition demo_local (t : nat) : Z := 0x1000.
Definition demo_pid (t : nat) : Z := 500 + Z.of_nat t.
Definition demo_mem : mem := list_to_map ((fun i => (0x1000 + Z.of_nat i, 0)) <$> seq 0 8).
Definition demo_start : config nt_state := start 2 (nt_init demo_mem).
Definition demo_run {A : Arch} (l : list act) : outcome (config nt_state) := run (H := nt_events demo_local) demo_pid l demo_start.
(** A whole call of EnterCriticalSection on a free section, and of LeaveCriticalSection
    when nobody waits. *)
Definition enter (t : nat) : list act := Enter t :: replicate 3 (Run t).
Definition leave (t : nat) : list act := Leave t :: replicate 6 (Run t).

Lemma demo_ok {A : Arch} : ev_ok (EventLaws := nt_event_laws demo_local) (c_ev demo_start).
Proof.
  split; [exists ∅; apply ev_rep_init|]. intros t. split; [done|]. intros i Hi. do 8 (destruct i as [|i]; [by eexists|]). lia.
Qed.

Lemma critical_sections_exclude_witness : exists c,
  run (A := arch32) (H := nt_events demo_local) demo_pid (enter 0 ++ enter 1 ++ [Leave 0]) demo_start = Ret c /\
  (forall t t', (0 < inside c t)%nat -> (0 < inside c t')%nat -> t = t').
Proof.
  destruct (critical_sections_exclude (A := arch32) (H0 := nt_event_laws demo_local) demo_pid 2
    (fun t _ => ltac:(unfold demo_pid; lia)) (fun t t' _ _ => ltac:(unfold demo_pid; lia))
    (c_ev demo_start) (enter 0 ++ enter 1 ++ [Leave 0]) (demo_ok (A := arch32))) as (c & E & X & _).
  by exists c.
Defined.

(** A thread whose next step changes nothing waits for as long as it runs alone. *)
Lemma run_stuck {A : Arch} c t n : step (H := nt_events demo_local) demo_pid (Run t) c = Ret c ->
  run (H := nt_events demo_local) demo_pid (replicate n (Run t)) c = Ret c.
Proof. intros E. induction n as [|n IH]; [done|]. cbn [replicate run]. by rewrite E. Qed.

(** The wakeup of a thread that waits can be lost: thread 1 finds the section taken,
    thread 0 leaves it before there is an event to signal, and thread 1 then creates the
    event, resets it and waits for it while the section is free. *)
Example wakeup_lost : exists c,
  demo_run (A := arch32) (enter 0 ++ [Enter 1; Run 1; Run 1] ++ leave 0 ++ replicate 7 (Run 1)) = Ret c /\
  LockCount (c_cs c) = -1 /\ c_th c = [(Idle, 0%nat); (S_Poll 0, 0%nat)] /\
  forall n, run (A := arch32) (H := nt_events demo_local) demo_pid (replicate n (Run 1%nat)) c = Ret c.
Proof.
  eexists. split; [vm_compute; reflexivity|]. split; [done|]. split; [done|]. intros n. apply run_stuck. vm_compute. reflexivity.
Qed.

(** OwningThread is cleared after the section is set free, so that the clearing can hit
    the next owner: thread 1 takes the section between the two stores of thread 0, does
    not recognize itself when it enters again, and waits for itself. *)
Example owner_waits_for_itself : exists c,
  demo_run (A := arch32)
    (enter 0 ++ Leave 0 :: replicate 4 (Run 0%nat) ++ enter 1 ++ replicate 2 (Run 0%nat) ++ Enter 1 :: replicate 9 (Run 1%nat)) = Ret c /\
  c_th c = [(Idle, 0%nat); (S_Poll 0, 1%nat)] /\
  forall n, run (A := arch32) (H := nt_events demo_local) demo_pid (replicate n (Run 1%nat)) c = Ret c.
Proof.
  eexists. split; [vm_compute; reflexivity|]. split; [done|]. intros n. apply run_stuck. vm_compute. reflexivity.
Qed.
