(* ===== verification/KernelSync.v ===== *)
(** * Events and mutexes of kernel32 (src/msvcrt/kernel32_sync.c)

    CreateEventA, SetEvent, ResetEvent, WaitForSingleObject, CreateMutexA,
    ReleaseMutex and DeleteCriticalSection over the handlers of Ntdll. *)
From S2P Require Import Prelude Bytes CStr HandleTable Ntdll NtSync CritSec.

(** The NT state and g_last_error. *)
Record k32 := mkK32 { k_nt : nt_state; g_last_error : Z }.

Definition ERROR_INVALID_HANDLE : Z := 6.
Definition INFINITE : Z := 0xFFFFFFFF.
Definition WAIT_OBJECT_0 : Z := 0.
Definition WAIT_TIMEOUT : Z := 0x102.
Definition WAIT_FAILED : Z := 0x103.

(** A handler of Ntdll. *)
Definition on_nt {X} (m : nt X) (k : k32) : outcome (X * k32) :=
  '(x, s) ← m (k_nt k); Ret (x, mkK32 s (g_last_error k)).
Definition fail_with (code : Z) (k : k32) : outcome (bool * k32) := Ret (false, mkK32 (k_nt k) code).

Section code.
Context {A : Arch}.
(** The address of a local variable of eight bytes: handle, prev or timeout_100ns. *)
Variable local : Z.

Definition CreateEventA (bManualReset bInitialState : Z) (k : k32) : outcome (Z * k32) :=
  '(_, k) ← on_nt (mstore 8 local 0) k;
  '(_, k) ← on_nt (handler_NtCreateEvent local (if bManualReset =? 0 then 0 else 1) (if bInitialState =? 0 then 0 else 1)) k;
  '(handle, k) ← on_nt (mload 8 local) k;
  Ret (usize handle, k).

(** SetEvent and ResetEvent. *)
Definition set_or_reset (handler : Z -> Z -> nt Z) (hEvent : Z) (k : k32) : outcome (bool * k32) :=
  if hEvent =? 0 then fail_with ERROR_INVALID_HANDLE k
  else
    '(_, k) ← on_nt (mstore 8 local 0) k;
    '(status, k) ← on_nt (handler hEvent local) k;
    if negb (status =? 0) then fail_with ERROR_INVALID_HANDLE k else Ret (true, k).
Definition SetEvent : Z -> k32 -> outcome (bool * k32) := set_or_reset handler_NtSetEvent.
Definition ResetEvent : Z -> k32 -> outcome (bool * k32) := set_or_reset handler_NtResetEvent.

(** What the rest of the process does during the sleeps of a wait, and their results. *)
Variable others : nat -> nt_state -> nt_state.
Variable nanosleep : nat -> Z -> Z * Z.

Definition wait_result (status : Z) : Z :=
  if status =? 0 then WAIT_OBJECT_0 else if status =? STATUS_TIMEOUT then WAIT_TIMEOUT else WAIT_FAILED.

(** [None]: the wait has not returned after [fuel] sleeps.  The counter of calls is only
    used for diagnostics. *)
Definition WaitForSingleObject (fuel : nat) (hHandle dwMilliseconds : Z) (k : k32) : outcome (option Z * k32) :=
  if hHandle =? 0 then Ret (Some WAIT_FAILED, mkK32 (k_nt k) ERROR_INVALID_HANDLE)
  else if dwMilliseconds =? INFINITE then
    '(status, k) ← on_nt (handler_NtWaitForSingleObject others nanosleep fuel hHandle 0) k;
    Ret (fmap (M := option) wait_result status, k)
  else if dwMilliseconds =? 0 then
    '(_, k) ← on_nt (mstore 8 local 0) k;
    '(status, k) ← on_nt (handler_NtWaitForSingleObject others nanosleep fuel hHandle local) k;
    Ret (fmap (M := option) (fun st => if st =? 0 then WAIT_OBJECT_0 else WAIT_TIMEOUT) status, k)
  else
    '(_, k) ← on_nt (mstore 8 local (u64 (- (dwMilliseconds * 10000)))) k;
    '(status, k) ← on_nt (handler_NtWaitForSingleObject others nanosleep fuel hHandle local) k;
    Ret (fmap (M := option) wait_result status, k).

Definition CreateMutexA (k : k32) : outcome (Z * k32) :=
  '(_, k) ← on_nt (mstore 8 local 0) k;
  '(_, k) ← on_nt (handler_NtCreateMutex local) k;
  '(handle, k) ← on_nt (mload 8 local) k;
  Ret (usize handle, k).
Definition ReleaseMutex (hMutex : Z) (k : k32) : outcome (bool * k32) :=
  '(status, k) ← on_nt (handler_NtReleaseMutex hMutex) k;
  if negb (status =? 0) then fail_with ERROR_INVALID_HANDLE k else Ret (true, k).

(** Nobody uses the section any more; munmap is that of NtClose. *)
Definition DeleteCriticalSection (munmap : Z -> Z -> mem -> Z * mem) (cs : CRITICAL_SECTION) (k : k32) :
    outcome (CRITICAL_SECTION * k32) :=
  '(_, k) ← (if LockSemaphore cs =? 0 then Ret (tt, k)
             else '(_, k) ← on_nt (handler_NtClose munmap (LockSemaphore cs)) k; Ret (tt, k));
  Ret (mkCs 0 0 0 0 0 0, k).
End code.

(** ** The events refine a map

    An event is a pair: is it signaled, and does a wait reset it.  The second component
    is what CreateEventA is given as bManualReset. *)
Inductive kcall := KCreate (bManualReset bInitialState : Z) | KSet (hEvent : Z) | KReset (hEvent : Z) | KPoll (hHandle : Z).

Definition truth (b : bool) : Z := if b then 1 else 0.

Inductive kspec (a : evmap) (err : Z) : kcall -> Z -> evmap -> Z -> Prop :=
| k_created m i h : a !! h = None -> 3 <= h < 512 ->
    kspec a err (KCreate m i) h (<[h := (negb (i =? 0), negb (m =? 0))]> a) err
| k_full m i : kspec a err (KCreate m i) 0 a err
| k_set h sg auto : a !! i32 h = Some (sg, auto) -> kspec a err (KSet h) 1 (<[i32 h := (true, auto)]> a) err
| k_reset h sg auto : a !! i32 h = Some (sg, auto) -> kspec a err (KReset h) 1 (<[i32 h := (false, auto)]> a) err
| k_no_event h c : a !! i32 h = None -> c = KSet h \/ c = KReset h -> kspec a err c 0 a ERROR_INVALID_HANDLE
| k_signaled h auto : a !! i32 h = Some (true, auto) ->
    kspec a err (KPoll h) WAIT_OBJECT_0 (<[i32 h := (negb auto, auto)]> a) err
| k_not_signaled h auto : a !! i32 h = Some (false, auto) -> kspec a err (KPoll h) WAIT_TIMEOUT a err
| k_poll_null : kspec a err (KPoll 0) WAIT_FAILED a ERROR_INVALID_HANDLE
| k_poll_invalid h : h <> 0 -> a !! i32 h = None -> kspec a err (KPoll h) WAIT_TIMEOUT a err.

(** The specification of a sequence of calls. *)
Inductive kspecs : evmap -> Z -> list kcall -> list Z -> evmap -> Z -> Prop :=
| ks_nil a err : kspecs a err [] [] a err
| ks_cons a err c r a1 e1 l rs a2 e2 : kspec a err c r a1 e1 -> kspecs a1 e1 l rs a2 e2 -> kspecs a err (c :: l) (r :: rs) a2 e2.

Section refinement.
Context {A : Arch}.
Variable local : Z.
Hypothesis local_valid : local <> 0.
Variable others : nat -> nt_state -> nt_state.
Variable nanosleep : nat -> Z -> Z * Z.

Definition kstep (c : kcall) (k : k32) : outcome (Z * k32) :=
  match c with
  | KCreate m i => CreateEventA local m i k
  | KSet h => '(b, k) ← SetEvent local h k; Ret (truth b, k)
  | KReset h => '(b, k) ← ResetEvent local h k; Ret (truth b, k)
  | KPoll h => '(r, k) ← WaitForSingleObject local others nanosleep 0 h 0 k; r ← deref r; Ret (r, k)
  end.
Fixpoint krun (l : list kcall) (k : k32) : outcome (list Z * k32) :=
  match l with
  | [] => Ret ([], k)
  | c :: l => '(r, k) ← kstep c k; '(rs, k) ← krun l k; Ret (r :: rs, k)
  end.

(** The state stands for the map, and the local variable is in memory. *)
Record krep (k : k32) (a : evmap) : Prop := {
  kr_rep : ev_rep (k_nt k) a;
  kr_mem : mapped (nt_mem (k_nt k)) local 8 }.

(** The local variable is set before a call. *)
Lemma set_local v k a : krep k a -> exists m, on_nt (mstore 8 local v) k = Ret (tt, mkK32 (with_mem (k_nt k) m) (g_last_error k)) /\
  mload_bytes 8 local m = Some (le_split 8 v) /\ krep (mkK32 (with_mem (k_nt k) m) (g_last_error k)) a.
Proof.
  intros [R M]. destruct (mstore_opt_ok local v (k_nt k) (or_intror M)) as (m & Em & Lm).
  unfold mstore_opt in Em. rewrite (proj2 (Z.eqb_neq _ _) local_valid) in Em.
  pose proof (mstore_grows _ _ _ _ _ Em M) as [D _]. exists m. unfold on_nt. rewrite Em. split_and!; [done|by apply Lm|].
  split; [by apply ev_rep_mem|]. intros i Hi. apply D. by apply M.
Qed.

Lemma krep_grows k a s a' e : krep k a -> ev_rep s a' -> grows (k_nt k) s -> krep (mkK32 s e) a'.
Proof. intros [R M] R' [D _]. split; [done|]. intros i Hi. apply D. by apply M. Qed.
Lemma krep_error k a e : krep k a -> krep (mkK32 (k_nt k) e) a.
Proof. by intros []. Qed.
Lemma no_event_zero k a : krep k a -> a !! i32 0 = None.
Proof.
  intros [R _]. destruct (er_live _ _ R) as (st & _ & Lv). destruct (a !! i32 0) as [x|] eqn:E; [|done].
  destruct (Lv _ _ E) as [Hr _]. change (i32 0) with 0 in Hr. lia.
Qed.

(** A creation that fails stores nothing. *)
Lemma NtCreateEvent_fails p ty init s s' :
  handler_NtCreateEvent p ty init s = Ret (STATUS_MEMORY_NOT_AVAILABLE, s') -> nt_mem s' = nt_mem s.
Proof.
  intros E. unfold handler_NtCreateEvent, mbind, nt_bind, get_ko in E. cbn [mbind outcome_bind] in E.
  destruct (_ <=? _) eqn:El; [by injection E as <-|].
  unfold set_ko, handle_alloc, on_handles in E. cbn [mbind outcome_bind nt_handles nt_ko nt_mem nt_log] in E.
  apply bind_Ret in E as ([h s1] & E1 & E). apply bind_Ret in E1 as ([t' h'] & Ea & E1). injection E1 as <- <-.
  cbn [mbind outcome_bind nt_handles nt_ko nt_mem nt_log] in E. destruct (_ =? 0); [by injection E as <-|].
  apply bind_Ret in E as ([l s2] & E2 & E). unfold lift in E2. apply bind_Ret in E2 as (l' & _ & E2). injection E2 as <- <-.
  cbn [mbind outcome_bind nt_handles nt_ko nt_mem nt_log] in E. apply bind_Ret in E as ([u s3] & E3 & E). by injection E.
Qed.

Lemma kernel_create_refines m i k a : krep k a ->
  exists r k' a', CreateEventA local m i k = Ret (r, k') /\ kspec a (g_last_error k) (KCreate m i) r a' (g_last_error k') /\ krep k' a'.
Proof.
  intros K. destruct (set_local 0 k a K) as (m0 & E0 & L0 & K0). unfold CreateEventA. rewrite E0. cbn [mbind outcome_bind].
  set (s0 := with_mem (k_nt k) m0) in *. set (ty := if m =? 0 then 0 else 1). set (init := if i =? 0 then 0 else 1).
  destruct (NtCreateEvent_rep s0 a local ty init (kr_rep _ _ K0) (or_intror (kr_mem _ _ K0))) as [s' [[E R]|(h & E & Hh & R & Lh)]];
    unfold on_nt; cbn [k_nt g_last_error]; rewrite E; cbn [mbind outcome_bind];
    pose proof (NtCreateEvent_grows _ _ _ _ _ _ E (kr_mem _ _ K0) (proj1 (er_count _ _ (kr_rep _ _ K0)))) as G.
  - unfold mload. cbn [k_nt g_last_error]. rewrite (NtCreateEvent_fails _ _ _ _ _ E). cbn [s0 with_mem nt_mem]. rewrite L0.
    cbn [deref mbind outcome_bind]. rewrite le_combine_split. eexists _, _, a. split; [done|]. split; [apply k_full|].
    by eapply (krep_grows _ _ _ _ _ K0).
  - specialize (Lh local_valid). cbn [k_nt g_last_error]. rewrite Lh. cbn [mbind outcome_bind].
    destruct (er_live _ _ R) as (st & _ & Lv). destruct (Lv h _ (lookup_insert_eq _ _ _)) as [Hr _].
    assert (Hu : usize h = h). { unfold usize. apply wrap_small. unfold ptr_bits. destruct is_my_wine32; lia. }
    rewrite Hu. eexists _, _, _. split; [done|]. split; [|by eapply (krep_grows _ _ _ _ _ K0)].
    replace (negb (init =? 0), i32 ty =? 1) with (negb (i =? 0), negb (m =? 0)); [by apply k_created|].
    unfold init, ty. by destruct (i =? 0), (m =? 0).
Qed.

Lemma set_or_reset_refines (set : bool) h k a : krep k a ->
  exists r k' a', set_or_reset local (change_event (truth set)) h k = Ret (r, k') /\
    kspec a (g_last_error k) (if set then KSet h else KReset h) (truth r) a' (g_last_error k') /\ krep k' a'.
Proof.
  intros K. unfold set_or_reset. destruct (Z.eqb_spec h 0) as [->|Hh].
  { eexists _, _, a. split; [done|]. split; [|by apply krep_error]. apply (k_no_event _ _ 0); [by eapply no_event_zero|]. destruct set; auto. }
  destruct (set_local 0 k a K) as (m0 & E0 & L0 & K0). rewrite E0. cbn [mbind outcome_bind].
  destruct (change_event_rep (truth set) _ a h local (kr_rep _ _ K0) (or_intror (kr_mem _ _ K0))) as [s' Hs'].
  unfold on_nt. cbn [k_nt g_last_error] in *. destruct (a !! i32 h) as [[sg auto]|] eqn:Ea; destruct Hs' as [E R]; rewrite E; cbn [mbind outcome_bind];
    change (negb (STATUS_SUCCESS =? 0)) with false; change (negb (STATUS_INVALID_HANDLE =? 0)) with true; cbn iota.
  - eexists _, _, _. split; [done|]. split; [|eapply (krep_grows _ _ _ _ _ K0); [exact R|]].
    + destruct set; [by eapply k_set|by eapply k_reset].
    + eapply change_event_grows; [exact E|right; apply K0].
  - eexists _, _, _. split; [done|]. split; [|eapply krep_error, (krep_grows _ _ _ _ (g_last_error k) K0); [exact R|]].
    + apply (k_no_event _ _ h); [done|]. destruct set; auto.
    + eapply change_event_grows; [exact E|right; apply K0].
Qed.

Lemma poll_refines h k a : krep k a ->
  exists r k' a', WaitForSingleObject local others nanosleep 0 h 0 k = Ret (Some r, k') /\
    kspec a (g_last_error k) (KPoll h) r a' (g_last_error k') /\ krep k' a'.
Proof.
  intros K. unfold WaitForSingleObject. destruct (Z.eqb_spec h 0) as [->|Hh].
  { eexists _, _, a. split; [done|]. split; [apply k_poll_null|by apply krep_error]. }
  change (0 =? INFINITE) with false. change (0 =? 0) with true. cbn iota.
  destruct (set_local 0 k a K) as (m & -> & Lm & K0). cbn [mbind outcome_bind]. unfold on_nt. cbn [k_nt g_last_error].
  set (s0 := with_mem (k_nt k) m) in *. unfold handler_NtWaitForSingleObject, mload, mbind, nt_bind, get_ko, lift.
  cbn [mbind outcome_bind]. pose proof (find_event_rep s0 a (i32 h) (kr_rep _ _ K0)) as Hf. destruct (a !! i32 h) as [[sg auto]|] eqn:Ea.
  - destruct Hf as (i & e & -> & He & Hi & Ei & Ev). cbn [mbind outcome_bind]. rewrite (proj2 (Z.eqb_neq _ _) local_valid).
    change (nt_mem s0) with m. rewrite Lm. cbn [deref mbind outcome_bind]. change (i64 (le_combine (le_split 8 0)) =? 0) with true. cbn iota.
    destruct (take_if_signaled_rep s0 a i e (kr_rep _ _ K0) Hi He) as (s' & Et & R' & Em). rewrite Et, Ev, Ei in *. cbn [mbind outcome_bind fst snd] in *.
    assert (K' : krep (mkK32 s' (g_last_error k)) (if sg then <[i32 h := (negb auto, auto)]> a else a)).
    { split; [exact R'|]. cbn [k_nt]. rewrite Em. apply K0. }
    destruct sg; eexists _, _, _; (split; [done|]); split; try exact K'; [by apply k_signaled|by eapply k_not_signaled].
  - rewrite Hf. eexists _, _, a. split; [done|]. split; [by apply k_poll_invalid|exact K0].
Qed.

Lemma kstep_refines c k a : krep k a ->
  exists r k' a', kstep c k = Ret (r, k') /\ kspec a (g_last_error k) c r a' (g_last_error k') /\ krep k' a'.
Proof.
  intros K. destruct c as [m i|h|h|h]; cbn [kstep].
  - by apply kernel_create_refines.
  - destruct (set_or_reset_refines true h k a K) as (r & k' & a' & E & S & K'). exists (truth r), k', a'.
    unfold SetEvent. change handler_NtSetEvent with (change_event (truth true)). by rewrite E.
  - destruct (set_or_reset_refines false h k a K) as (r & k' & a' & E & S & K'). exists (truth r), k', a'.
    unfold ResetEvent. change handler_NtResetEvent with (change_event (truth false)). by rewrite E.
  - destruct (poll_refines h k a K) as (r & k' & a' & E & S & K'). exists r, k', a'. by rewrite E.
Qed.

(** Any sequence of CreateEventA, SetEvent, ResetEvent and WaitForSingleObject with a
    timeout of zero runs without a fault and has the results and the last errors of a
    map from handles to events. *)
Theorem kernel_events_refine l : forall k a, krep k a ->
  exists rs k' a', krun l k = Ret (rs, k') /\ kspecs a (g_last_error k) l rs a' (g_last_error k') /\ krep k' a'.
Proof.
  induction l as [|c l IH]; intros k a K; [exists [], k, a; split_and!; [done|constructor|done]|].
  destruct (kstep_refines c k a K) as (r & k1 & a1 & E1 & S1 & K1). destruct (IH k1 a1 K1) as (rs & k2 & a2 & E2 & S2 & K2).
  exists (r :: rs), k2, a2. cbn [krun]. rewrite E1. cbn [mbind outcome_bind]. rewrite E2. split_and!; [done|by econstructor|done].
Qed.

(** *** Timeouts *)

Hypothesis others_idle : forall n s, others n s = s.
Hypothesis sleeps_complete : forall n ns, fst (nanosleep n ns) = 0.

(** A timeout in milliseconds is a whole number of microseconds, so that a wait for an
    event that nobody signals ends, after at most 1000 sleeps per millisecond, and the
    events are as before. *)
Theorem WaitForSingleObject_times_out h ms k a auto :
  krep k a -> a !! i32 h = Some (false, auto) -> h <> 0 -> 0 < ms < INFINITE ->
  exists k', WaitForSingleObject local others nanosleep (S (Z.to_nat (ms * 1000))) h ms k = Ret (Some WAIT_TIMEOUT, k') /\ krep k' a.
Proof.
  intros K Ha Hh Hms. unfold WaitForSingleObject. rewrite (proj2 (Z.eqb_neq h 0)), (proj2 (Z.eqb_neq ms INFINITE)), (proj2 (Z.eqb_neq ms 0)) by lia.
  destruct (set_local (u64 (- (ms * 10000))) k a K) as (m & -> & Lm & K0). cbn [mbind outcome_bind]. unfold on_nt. cbn [k_nt g_last_error].
  set (s0 := with_mem (k_nt k) m) in *. pose proof (find_event_rep s0 a (i32 h) (kr_rep _ _ K0)) as Hf. rewrite Ha in Hf.
  destruct Hf as (i & e & Ef & He & Hi & Ei & Ev). unfold ev_val in Ev. injection Ev as Es _. apply negb_false_iff, Z.eqb_eq in Es.
  assert (El : mload_bytes 8 local (nt_mem s0) = Some (le_split 8 (- (ms * 10000)))).
  { change (nt_mem s0) with m. rewrite Lm. f_equal.
    pose proof (le_split_combine (le_split 8 (- (ms * 10000))) (wf_le_split 8 _)) as W. by rewrite le_combine_split, length_le_split in W. }
  unfold INFINITE in *.
  rewrite (wait_timeout_arg others nanosleep _ h i local (ms * 10000) s0) by (done || lia).
  rewrite (wait_relative_expires others nanosleep others_idle sleeps_complete i s0 e (ms * 10000 * 100)); try done; try lia;
    [|Z.to_euclidean_division_equations; lia..].
  cbn [mbind outcome_bind fmap option_fmap option_map]. eexists. split; [done|exact K0].
Qed.
End refinement.

(** ** Concrete calls *)

Definition demo_k32 : k32 := mkK32 (nt_init demo_mem) 0.
Lemma demo_krep : krep 0x1000 demo_k32 ∅.
Proof. split; [apply (ev_rep_init demo_mem)|]. intros i Hi. do 8 (destruct i as [|i]; [by eexists|]). lia. Qed.
Definition demo_krun {A : Arch} (l : list kcall) : outcome (list Z * k32) := krun 0x1000 idle sleeps_ok l demo_k32.

Lemma kernel_events_refine_witness : exists rs k' a',
  krun (A := arch32) 0x1000 idle sleeps_ok [KCreate 1 0; KSet 3; KPoll 3] demo_k32 = Ret (rs, k') /\
  kspecs ∅ 0 [KCreate 1 0; KSet 3; KPoll 3] rs a' (g_last_error k').
Proof.
  destruct (kernel_events_refine (A := arch32) 0x1000 ltac:(lia) idle sleeps_ok [KCreate 1 0; KSet 3; KPoll 3] demo_k32 ∅ demo_krep)
    as (rs & k' & a' & E & S & _). exists rs, k', a'. exact (conj E S).
Defined.

(** An event that CreateEventA is told to reset manually is reset by the first wait,
    and one that should reset itself stays signaled. *)
Example manual_event_resets_itself :
  fst <$> demo_krun (A := arch32) [KCreate 1 0; KSet 3; KPoll 3; KPoll 3] = Ret [3; 1; WAIT_OBJECT_0; WAIT_TIMEOUT].
Proof. vm_compute. reflexivity. Qed.
Example automatic_event_stays_signaled :
  fst <$> demo_krun (A := arch32) [KCreate 0 0; KSet 3; KPoll 3; KPoll 3] = Ret [3; 1; WAIT_OBJECT_0; WAIT_OBJECT_0].
Proof. vm_compute. reflexivity. Qed.

(** Polling a handle that is no event reports a timeout. *)
Example poll_of_nothing_times_out : fst <$> demo_krun (A := arch32) [KPoll 77] = Ret [WAIT_TIMEOUT].
Proof. vm_compute. reflexivity. Qed.

(** A mutex can be neither taken nor released: waiting for it fails, since only events
    are looked up, and no handler ever locks one. *)
Example mutexes_do_nothing :
  ('(h, k) ← CreateMutexA (A := arch32) 0x1000 demo_k32;
   '(w, k) ← WaitForSingleObject 0x1000 idle sleeps_ok 5 h INFINITE k;
   '(r, k) ← ReleaseMutex h k; Ret (h, w, r, g_last_error k)) = Ret (3, Some WAIT_FAILED, false, ERROR_INVALID_HANDLE).
Proof. vm_compute. reflexivity. Qed.

Definition demo_event {A : Arch} : k32 := match demo_krun [KCreate 0 0] with Ret (_, k) => k | _ => demo_k32 end.
Lemma demo_event_krep : krep 0x1000 (demo_event (A := arch32)) {[3 := (false, false)]}.
Proof.
  destruct (kernel_create_refines (A := arch32) 0x1000 ltac:(lia) 0 0 demo_k32 ∅ demo_krep) as (r & k' & a' & E & S & K).
  assert (Hk : k' = demo_event (A := arch32) /\ r = 3) by (vm_compute in E; injection E as <- <-; by vm_compute).
  destruct Hk as [-> ->]. inversion S; subst. exact K.
Qed.
Lemma WaitForSingleObject_times_out_witness : exists k',
  WaitForSingleObject 0x1000 idle sleeps_ok (S (Z.to_nat (50 * 1000))) 3 50 (demo_event (A := arch32)) = Ret (Some WAIT_TIMEOUT, k').
Proof.
  destruct (WaitForSingleObject_times_out 0x1000 ltac:(lia) idle sleeps_ok (fun _ _ => eq_refl) (fun _ _ => eq_refl)
    3 50 (demo_event (A := arch32)) _ false demo_event_krep) as (k' & E & _); [done|lia|unfold INFINITE; lia|exists k'; exact E].
Defined.
