(* ===== verification/Thunks.v ===== *)
(** * System call thunks (src/syscall/thunk_gen.c, dispatcher.c, dispatcher_entry.c)

    The machine code of the thunks, which a small model of the processor decodes and
    runs, the table of thunks, the arguments that the dispatcher reads from the guest's
    stack, and the place of its own stack. *)
From S2P Require Import Prelude Bytes CStr.

(** ** The code of a thunk *)

Definition byte_of (v k : Z) : Z := Z.land (Z.shiftr v (8 * k)) 0xFF.

(** push ebp; mov eax, dispatcher; mov edx, number; call eax; pop ebp; ret *)
Definition write_thunk_at_32 (syscall_number dispatcher_addr : Z) : bytes :=
  let disp_addr := u32 dispatcher_addr in
  let nr := u32 syscall_number in
  [0x55;
   0xB8; byte_of disp_addr 0; byte_of disp_addr 1; byte_of disp_addr 2; byte_of disp_addr 3;
   0xBA; byte_of nr 0; byte_of nr 1; byte_of nr 2; byte_of nr 3;
   0xFF; 0xD0; 0x5D; 0xC3].

(** The 64-bit code; the comment of the source calls its first instruction push rdi. *)
Definition write_thunk_at (syscall_number dispatcher_addr : Z) : bytes :=
  let addr := u64 dispatcher_addr in
  [0x41; 0x57;
   0x48; 0xC7; 0xC7; byte_of syscall_number 0; byte_of syscall_number 1; byte_of syscall_number 2; byte_of syscall_number 3;
   0x48; 0xB8; byte_of addr 0; byte_of addr 1; byte_of addr 2; byte_of addr 3;
   byte_of addr 4; byte_of addr 5; byte_of addr 6; byte_of addr 7;
   0xFF; 0xD0; 0x5F; 0xC3].

(** ** The table *)

Definition nt_syscall_list : list Z :=
  [0x05; 0x07; 0x0F; 0x18; 0x19; 0x24; 0x26; 0x28; 0x29; 0x2A; 0x3C; 0x3D; 0x48; 0x4A; 0x4E; 0x4F;
   0x09; 0x1A; 0x55; 0x56; 0x03; 0x1E; 0x44; 0x5C; 0x5E].

(** thunk_blob, its size and its bytes, and thunk_array; 0 is NULL. *)
Record thunks := mkThunks { thunk_blob : Z; thunk_blob_size : Z; thunk_bytes : bytes; thunk_array : list Z }.
Definition no_thunks : thunks := mkThunks 0 0 [] (replicate 0x60 0).

Section table.
Context {A : Arch}.

Definition PAGE : Z := 4096.
Definition THUNK_SIZE : Z := if is_my_wine32 then 15 else 23.
Definition thunk_code (nr dispatcher : Z) : bytes :=
  if is_my_wine32 then write_thunk_at_32 nr dispatcher else write_thunk_at nr dispatcher.

Definition thunk_alloc : Z :=
  let needed := 25 * THUNK_SIZE in
  let alloc := Z.land (needed + PAGE - 1) (usize (- PAGE)) in
  if alloc <? PAGE then PAGE else alloc.

Fixpoint thunk_write_loop (dispatcher i : Z) (l : list Z) (t : thunks) : outcome thunks :=
  match l with
  | [] => Ret t
  | nr :: l =>
      let loc := thunk_blob t + i * THUNK_SIZE in
      code ← store_bytes (i * THUNK_SIZE) (thunk_code nr dispatcher) (thunk_bytes t);
      _ ← deref (thunk_array t !! Z.to_nat nr);
      thunk_write_loop dispatcher (i + 1) l
        (mkThunks (thunk_blob t) (thunk_blob_size t) code (<[Z.to_nat nr := loc]> (thunk_array t)))
  end.

(** [ret] is what the kernel returns for mmap, [dispatcher] the address of
    __wine_dispatcher; the result is whether the thunks were generated.  Nothing is
    mapped at the address of an error number. *)
Definition generate_all_thunks (ret : Z) (dispatcher : Z) (t : thunks) : outcome (bool * thunks) :=
  let blob := INLINE_SYSCALL_MMAP ret in
  if blob =? MAP_FAILED then Ret (false, mkThunks blob (thunk_blob_size t) (thunk_bytes t) (thunk_array t))
  else
    let t := mkThunks blob thunk_alloc (if is_errno blob then [] else replicate (Z.to_nat thunk_alloc) 0) (thunk_array t) in
    if dispatcher =? 0 then Ret (false, t)
    else t ← thunk_write_loop dispatcher 0 nt_syscall_list t; Ret (true, t).

Definition lookup_thunk (syscall_number : Z) (t : thunks) : outcome Z :=
  if 0x60 <=? syscall_number then Ret 0 else deref (thunk_array t !! Z.to_nat syscall_number).

(** The region that is unmapped; the table keeps its pointers. *)
Definition cleanup_thunk_pages (t : thunks) : option (Z * Z) * thunks :=
  if thunk_blob t =? 0 then (None, t)
  else (Some (thunk_blob t, thunk_blob_size t), mkThunks 0 0 [] (thunk_array t)).
End table.

(** ** The dispatcher's arguments

    read_guest_stack on a stack pointer [sp] and the words that it points at. *)
Definition read_guest_stack {A : Arch} (sp : Z) (words : list Z) (index : Z) : outcome Z :=
  if (index <? 0) || (15 <? index) then Ret 0
  else if sp =? 0 then Ret 0
  else if (if is_my_wine32 then 0xFFFF8000 else 0xfffffffffffe0000) <? sp then Ret 0
  else if negb (syscall_safe_guest_ptr_is_valid sp) then Ret 0
  else deref (words !! Z.to_nat index).

(** The macros __ARG and STACK. *)
Definition ARG {A : Arch} (sp : Z) (words : list Z) (n : Z) : outcome Z :=
  read_guest_stack sp words (if is_my_wine32 then n + 3 else n).
Definition STACK {A : Arch} (sp : Z) (words : list Z) (n : Z) : outcome Z :=
  read_guest_stack sp words (if is_my_wine32 then n + 7 else n).

Definition STATUS_ACCESS_VIOLATION : Z := 0xC0000005.
(** The value at a guest's pointer and the pointer for the write-back, or a status;
    [guest] reads eight bytes. *)
Definition read_guest_ptr {A : Arch} (guest : Z -> outcome Z) (guest_ptr : Z) : outcome (Z * Z + Z) :=
  if guest_ptr =? 0 then Ret (inl (0, 0))
  else if negb (syscall_safe_guest_ptr_is_valid guest_ptr) then Ret (inr STATUS_ACCESS_VIOLATION)
  else v ← guest guest_ptr; Ret (inl (v, guest_ptr)).
(** [inr]: *result, and the case ends. *)
Definition dispatch_ptr_inout {A : Arch} (guest : Z -> outcome Z) (guest_arg : Z) : outcome (Z * Z + Z) :=
  r ← read_guest_ptr guest guest_arg; Ret (match r with inl v => inl v | inr status => inr (u64 (i32 status)) end).

(** ** The dispatcher's stack

    The base of the image and its size, or the fixed slot when there is no image; the
    result is the base of the mapping that is asked for. *)
Definition UNIX_STACK_SIZE : Z := 128 * 1024.
Definition GUEST_STACK_BASE : Z := 0x00500000.
Definition GUEST_STACK_SIZE : Z := 512 * 1024.
Definition SIG_STACK_BASE : Z := 0x00800000.
Definition unix_stack_base (image_base image_size : Z) : option Z :=
  let guest_stack_end := GUEST_STACK_BASE + GUEST_STACK_SIZE in
  let base_addr :=
    if negb (image_base =? 0) && negb (image_size =? 0) then
      let base_addr := u32 (image_base + image_size) in
      let base_addr := Z.land (u32 (base_addr + 4095)) (u32 (Z.lnot 4095)) in
      if (base_addr <? guest_stack_end) && (GUEST_STACK_BASE <? u32 (base_addr + UNIX_STACK_SIZE)) then guest_stack_end
      else base_addr
    else 0x00600000 in
  if SIG_STACK_BASE <? u32 (base_addr + UNIX_STACK_SIZE) then None else Some base_addr.
(** setup_unix_stack of the 32-bit build, with what the kernel returns for mmap
    (MAP_FIXED): unix_stack_ptr_val, [None] for the status -1. *)
Definition setup_unix_stack (mmap : Z -> Z -> Z) (image_base image_size : Z) : option Z :=
  match unix_stack_base image_base image_size with
  | None => None
  | Some base =>
      let base := INLINE_SYSCALL_MMAP (A := arch32) (mmap base UNIX_STACK_SIZE) in
      if base =? MAP_FAILED (A := arch32) then None else Some (u32 (base + UNIX_STACK_SIZE))
  end.
Definition cleanup_unix_stack (unix_stack_ptr_val : Z) : option (Z * Z) :=
  if unix_stack_ptr_val =? 0 then None else Some (unix_stack_ptr_val - UNIX_STACK_SIZE, UNIX_STACK_SIZE).

(** ** The processor

    The instructions that occur in thunks, with registers by their numbers, and a stack
    of words. *)
Inductive instr := Push (r : nat) | Pop (r : nat) | MovImm (r : nat) (v : Z) | CallReg (r : nat) | RetI.

Definition opcode_in (base op : Z) : bool := (base <=? op) && (op <? base + 8).
Definition reg_of (base op : Z) : nat := Z.to_nat (op - base).
(** An immediate of [n] bytes. *)
Definition imm (n : nat) (c : bytes) : option Z := if (n <=? length c)%nat then Some (le_combine (take n c)) else None.

(** Instructions without a prefix; register numbers from [high] on. *)
Definition decode_plain (high : nat) (c : bytes) : option (instr * Z) :=
  match c with
  | op :: c =>
      if opcode_in 0x50 op then Some (Push (high + reg_of 0x50 op), 1)
      else if opcode_in 0x58 op then Some (Pop (high + reg_of 0x58 op), 1)
      else if opcode_in 0xB8 op then (fun v => (MovImm (high + reg_of 0xB8 op) v, 5)) <$> imm 4 c
      else if op =? 0xC3 then Some (RetI, 1)
      else if op =? 0xFF then
        match c with
        | m :: _ => if opcode_in 0xD0 m then Some (CallReg (high + reg_of 0xD0 m), 2) else None
        | [] => None
        end
      else None
  | [] => None
  end.
(** 64-bit instructions with the prefix REX.W (48) or REX.B (41). *)
Definition decode_wide (c : bytes) : option (instr * Z) :=
  match c with
  | op :: c =>
      if opcode_in 0xB8 op then (fun v => (MovImm (reg_of 0xB8 op) v, 10)) <$> imm 8 c
      else if op =? 0xC7 then
        match c with
        | m :: c => if opcode_in 0xC0 m then (fun v => (MovImm (reg_of 0xC0 m) (u64 (i32 v)), 7)) <$> imm 4 c else None
        | [] => None
        end
      else None
  | [] => None
  end.
Definition decode {A : Arch} (c : bytes) : option (instr * Z) :=
  match c with
  | op :: rest =>
      if is_my_wine32 then decode_plain 0 c
      else if op =? 0x48 then decode_wide rest
      else if op =? 0x41 then (fun p => (p.1, p.2 + 1)) <$> decode_plain 8 rest
      else decode_plain 0 c
  | [] => None
  end.

Record cpu := mkCpu { ip : Z; regs : list Z; stack : list Z }.

Definition execute (i : instr) (next : Z) (m : cpu) : option cpu :=
  match i with
  | Push r => v ← regs m !! r; Some (mkCpu next (regs m) (v :: stack m))
  | Pop r =>
      match stack m with
      | v :: st => _ ← regs m !! r; Some (mkCpu next (<[r := v]> (regs m)) st)
      | [] => None
      end
  | MovImm r v => _ ← regs m !! r; Some (mkCpu next (<[r := v]> (regs m)) (stack m))
  | CallReg r => v ← regs m !! r; Some (mkCpu v (regs m) (next :: stack m))
  | RetI => match stack m with v :: st => Some (mkCpu v (regs m) st) | [] => None end
  end.
(** One instruction of [code], which lies at [base]. *)
Definition cpu_step {A : Arch} (base : Z) (code : bytes) (m : cpu) : option cpu :=
  if ip m <? base then None
  else '(i, len) ← decode (drop (Z.to_nat (ip m - base)) code); execute i (ip m + len) m.
Fixpoint cpu_run {A : Arch} (base : Z) (code : bytes) (n : nat) (m : cpu) : option cpu :=
  match n with O => Some m | S n => m ← cpu_step base code m; cpu_run base code n m end.

(** ** The code runs *)

Lemma byte_of_mod v k : 0 <= k -> byte_of v k = v / 2 ^ (8 * k) mod 256.
Proof.
  intros Hk. unfold byte_of. change 0xFF with (Z.ones 8). rewrite Z.land_ones, Z.shiftr_div_pow2 by lia. done.
Qed.
Lemma bytes_of_4 v : [byte_of v 0; byte_of v 1; byte_of v 2; byte_of v 3] = le_split 4 v.
Proof. rewrite !byte_of_mod by lia. cbn [le_split]. rewrite !Z.div_div by lia. by rewrite Z.div_1_r. Qed.
Lemma bytes_of_8 v : [byte_of v 0; byte_of v 1; byte_of v 2; byte_of v 3; byte_of v 4; byte_of v 5; byte_of v 6; byte_of v 7] = le_split 8 v.
Proof. rewrite !byte_of_mod by lia. cbn [le_split]. rewrite !Z.div_div by lia. by rewrite Z.div_1_r. Qed.

Lemma imm_4 v c : imm 4 (byte_of v 0 :: byte_of v 1 :: byte_of v 2 :: byte_of v 3 :: c) = Some (wrap 32 v).
Proof.
  unfold imm. cbn [length Nat.leb take]. rewrite bytes_of_4, le_combine_split. done.
Qed.
Lemma imm_8 v c : imm 8 (byte_of v 0 :: byte_of v 1 :: byte_of v 2 :: byte_of v 3 :: byte_of v 4 :: byte_of v 5 :: byte_of v 6 :: byte_of v 7 :: c)
  = Some (wrap 64 v).
Proof. unfold imm. cbn [length Nat.leb take]. rewrite bytes_of_8, le_combine_split. done. Qed.

Section run.
Context {A : Arch}.

(** The register that carries the number, EDX or RDI, and the registers that a thunk
    pushes and pops: EBP, or R15 and RDI. *)
Definition number_reg : nat := if is_my_wine32 then 2 else 7.
Definition pushed_reg : nat := if is_my_wine32 then 5 else 15.
Definition popped_reg : nat := if is_my_wine32 then 5 else 7.
(** The offset at which the dispatcher returns to the thunk. *)
Definition return_offset : Z := if is_my_wine32 then 13 else 21.

Lemma cpu_step_at base code k r st i len : decode (drop k code) = Some (i, len) ->
  cpu_step base code (mkCpu (base + Z.of_nat k) r st) = execute i (base + Z.of_nat k + len) (mkCpu (base + Z.of_nat k) r st).
Proof.
  intros E. unfold cpu_step. cbn [ip]. rewrite (proj2 (Z.ltb_ge _ _)) by lia.
  replace (Z.to_nat (base + Z.of_nat k - base)) with k by lia. by rewrite E.
Qed.

(** The code of a thunk as instructions, and their places. *)
Lemma thunk_decodes nr d : 0 <= nr < 2 ^ 16 -> 0 <= d < 2 ^ ptr_bits ->
  if is_my_wine32 then
    decode (drop 0 (thunk_code nr d)) = Some (Push 5, 1) /\ decode (drop 1 (thunk_code nr d)) = Some (MovImm 0 d, 5) /\
    decode (drop 6 (thunk_code nr d)) = Some (MovImm 2 nr, 5) /\ decode (drop 11 (thunk_code nr d)) = Some (CallReg 0, 2) /\
    decode (drop 13 (thunk_code nr d)) = Some (Pop 5, 1) /\ decode (drop 14 (thunk_code nr d)) = Some (RetI, 1)
  else
    decode (drop 0 (thunk_code nr d)) = Some (Push 15, 2) /\ decode (drop 2 (thunk_code nr d)) = Some (MovImm 7 nr, 7) /\
    decode (drop 9 (thunk_code nr d)) = Some (MovImm 0 d, 10) /\ decode (drop 19 (thunk_code nr d)) = Some (CallReg 0, 2) /\
    decode (drop 21 (thunk_code nr d)) = Some (Pop 7, 1) /\ decode (drop 22 (thunk_code nr d)) = Some (RetI, 1).
Proof.
  intros Hn Hd. unfold thunk_code, ptr_bits, decode in *. destruct is_my_wine32.
  - unfold write_thunk_at_32. cbn [drop]. unfold decode_plain.
    rewrite !imm_4, !(wrap_small 32 nr), !(wrap_small 32 d) by lia. split_and!; done.
  - unfold write_thunk_at. cbn [drop]. unfold decode_wide, decode_plain.
    rewrite !imm_4, !imm_8, !(wrap_small 64 d), (wrap_small 32 nr) by lia.
    assert (E : u64 (i32 nr) = nr) by (rewrite swrap_small, wrap_small by lia; done).
    split_and!; try done. cbn [opcode_in Z.leb Z.ltb Z.compare Pos.compare Pos.compare_cont andb Z.add Pos.add Z.eqb fmap option_fmap option_map].
    rewrite E. done.
Qed.

(** The next instruction, at the place [k], which [D] decodes. *)
Ltac cpu_next D k := match goal with
  | |- context [cpu_step ?base ?code (mkCpu ?a ?r ?st)] => replace (mkCpu a r st) with (mkCpu (base + Z.of_nat k) r st) by (f_equal; lia)
  end;
  rewrite (cpu_step_at _ _ _ _ _ _ _ D); cbn [execute regs stack mbind option_bind cpu_run];
  repeat first [rewrite list_lookup_insert_ne by done | rewrite list_lookup_insert_eq by (rewrite ?length_insert; lia)];
  repeat match goal with E : _ !! _ = Some _ |- _ => rewrite E end; cbn [mbind option_bind cpu_run].

(** From its start a thunk enters the dispatcher with the number of the system call. *)
Lemma thunk_enters nr d loc r st : 0 <= nr < 2 ^ 16 -> 0 <= d < 2 ^ ptr_bits -> length r = 16%nat ->
  exists saved r', r !! pushed_reg = Some saved /\
    cpu_run loc (thunk_code nr d) 4 (mkCpu loc r st) = Some (mkCpu d r' (loc + return_offset :: saved :: st)) /\
    r' !! number_reg = Some nr /\ length r' = 16%nat /\ forall k, k <> 0%nat -> k <> number_reg -> r' !! k = r !! k.
Proof.
  intros Hn Hd Hr. pose proof (thunk_decodes nr d Hn Hd) as Hc. unfold pushed_reg, number_reg, return_offset.
  assert (K : forall k, (k < 16)%nat -> exists v, r !! k = Some v) by (intros k Hk; apply lookup_lt_is_Some_2; lia).
  destruct (K 0%nat ltac:(lia)) as [v0 E0], (K 2%nat ltac:(lia)) as [v2 E2], (K 5%nat ltac:(lia)) as [v5 E5],
    (K 7%nat ltac:(lia)) as [v7 E7], (K 15%nat ltac:(lia)) as [v15 E15].
  destruct is_my_wine32; destruct Hc as (D0 & D1 & D2 & D3 & _).
  - exists v5, (<[2%nat := nr]> (<[0%nat := d]> r)). split_and!; [done| |apply list_lookup_insert_eq; rewrite length_insert; lia|by rewrite !length_insert|].
    + cbn [cpu_run]. cpu_next D0 0%nat. cpu_next D1 1%nat. cpu_next D2 6%nat. cpu_next D3 11%nat. do 3 f_equal. lia.
    + intros k Hk0 Hk. by rewrite !list_lookup_insert_ne by done.
  - exists v15, (<[0%nat := d]> (<[7%nat := nr]> r)).
    split_and!; [done| |rewrite list_lookup_insert_ne by done; apply list_lookup_insert_eq; lia|by rewrite !length_insert|].
    + cbn [cpu_run]. cpu_next D0 0%nat. cpu_next D1 2%nat. cpu_next D2 9%nat. cpu_next D3 19%nat. do 3 f_equal. lia.
    + intros k Hk0 Hk. by rewrite !list_lookup_insert_ne by done.
Qed.

(** When the dispatcher returns, the thunk takes back what it has saved and returns to
    the guest. *)
Lemma thunk_returns nr d loc r saved ret st : 0 <= nr < 2 ^ 16 -> 0 <= d < 2 ^ ptr_bits -> length r = 16%nat ->
  cpu_run loc (thunk_code nr d) 2 (mkCpu (loc + return_offset) r (saved :: ret :: st)) = Some (mkCpu ret (<[popped_reg := saved]> r) st).
Proof.
  intros Hn Hd Hr. pose proof (thunk_decodes nr d Hn Hd) as Hc. unfold popped_reg, return_offset.
  assert (K : forall k, (k < 16)%nat -> exists v, r !! k = Some v) by (intros k Hk; apply lookup_lt_is_Some_2; lia).
  destruct (K 5%nat ltac:(lia)) as [v5 E5], (K 7%nat ltac:(lia)) as [v7 E7].
  destruct is_my_wine32; destruct Hc as (_ & _ & _ & _ & D4 & D5); cbn [cpu_run].
  - cpu_next D4 13%nat. by cpu_next D5 14%nat.
  - cpu_next D4 21%nat. by cpu_next D5 22%nat.
Qed.

(** *** The table *)

Lemma thunk_code_length nr d : blen (thunk_code nr d) = THUNK_SIZE.
Proof. unfold thunk_code, THUNK_SIZE. by destruct is_my_wine32. Qed.

Lemma thunk_write_loop_spec d l : forall i t, NoDup l -> (forall nr, nr ∈ l -> 0 <= nr < 0x60) -> 0 <= i ->
  (i + Z.of_nat (length l)) * THUNK_SIZE <= blen (thunk_bytes t) -> length (thunk_array t) = 0x60%nat ->
  exists t', thunk_write_loop d i l t = Ret t' /\ thunk_blob t' = thunk_blob t /\ thunk_blob_size t' = thunk_blob_size t /\
    blen (thunk_bytes t') = blen (thunk_bytes t) /\ length (thunk_array t') = 0x60%nat /\
    (forall k nr, l !! k = Some nr -> thunk_array t' !! Z.to_nat nr = Some (thunk_blob t + (i + Z.of_nat k) * THUNK_SIZE) /\
       slice ((i + Z.of_nat k) * THUNK_SIZE) THUNK_SIZE (thunk_bytes t') = thunk_code nr d) /\
    (forall o len, 0 <= o -> o + len <= i * THUNK_SIZE -> slice o len (thunk_bytes t') = slice o len (thunk_bytes t)) /\
    (forall n, (forall nr, nr ∈ l -> Z.to_nat nr <> n) -> thunk_array t' !! n = thunk_array t !! n).
Proof.
  induction l as [|nr l IH]; intros i t Hnd Hr Hi Hb Ha.
  { exists t. by split_and!. }
  apply NoDup_cons in Hnd as [Hnr Hnd]. assert (0 < THUNK_SIZE) as Hs by (unfold THUNK_SIZE; by destruct is_my_wine32).
  cbn [length] in Hb. destruct (Hr nr ltac:(set_solver)) as [Hn0 Hn1].
  assert (Hin : in_range (i * THUNK_SIZE) (blen (thunk_code nr d)) (blen (thunk_bytes t)) = true).
  { apply in_range_spec. rewrite thunk_code_length. nia. }
  cbn [thunk_write_loop]. unfold store_bytes. rewrite Hin. cbn [mbind outcome_bind].
  destruct (lookup_lt_is_Some_2 (thunk_array t) (Z.to_nat nr)) as [old ->]; [lia|]. cbn [deref mbind outcome_bind].
  assert (Hl : blen (splice (i * THUNK_SIZE) (thunk_code nr d) (thunk_bytes t)) = blen (thunk_bytes t)).
  { unfold blen at 1. rewrite length_splice by done. done. }
  set (t1 := mkThunks (thunk_blob t) (thunk_blob_size t) (splice (i * THUNK_SIZE) (thunk_code nr d) (thunk_bytes t))
    (<[Z.to_nat nr := thunk_blob t + i * THUNK_SIZE]> (thunk_array t))). edestruct (IH (i + 1) t1) as (t' & E & B1 & B2 & B3 & B4 & S1 & S2 & S3); try done.
  { intros n Hn. apply Hr. set_solver. } { lia. } { cbn [thunk_bytes t1]. rewrite Hl. nia. } { cbn [thunk_array t1]. by rewrite length_insert. }
  cbn [thunk_blob thunk_blob_size thunk_bytes thunk_array t1] in *.
  exists t'. split_and!; [exact E|done|done|by rewrite B3|done| | |].
  - intros [|k] n Hk; cbn in Hk.
    + injection Hk as <-. rewrite Z.add_0_r. split.
      * rewrite S3; [apply list_lookup_insert_eq; lia|]. intros n Hn Heq. destruct (Hr n (proj2 (elem_of_cons _ _ _) (or_intror Hn))).
        assert (n = nr) as -> by lia. done.
      * rewrite S2 by nia. pose proof (slice_splice_same _ _ _ Hin) as Es. rewrite thunk_code_length in Es. exact Es.
    + replace (i + Z.of_nat (S k)) with (i + 1 + Z.of_nat k) by lia. by apply S1.
  - intros o len Ho Hle. rewrite S2 by nia. apply slice_splice_disjoint; [done|done|]. left. lia.
  - intros n Hn. rewrite S3 by (intros m Hm; apply Hn; set_solver). apply list_lookup_insert_ne. apply Hn. set_solver.
Qed.
End run.

(** The dispatcher's arguments in the 32-bit build: the dispatcher pushes the flags, so
    that the words at ESP are the flags, the return address in the thunk, the saved EBP,
    the guest's return address and the arguments. *)
Lemma arg_of_frame {A : Arch} sp flags back saved ret args k : is_my_wine32 = true ->
  syscall_safe_guest_ptr_is_valid sp = true -> 1 <= k <= 4 ->
  ARG sp (flags :: back :: saved :: ret :: args) k = deref (args !! Z.to_nat (k - 1)).
Proof.
  intros H32 Hv Hk. unfold ARG, read_guest_stack. rewrite H32, Hv. unfold syscall_safe_guest_ptr_is_valid in Hv. rewrite H32 in Hv.
  replace ((k + 3 <? 0) || (15 <? k + 3)) with false by lia.
  destruct (sp =? 0) eqn:E0; [done|]. destruct (4294934528 <? sp) eqn:E1; [done|]. cbn [negb].
  replace (Z.to_nat (k + 3)) with (S (S (S (S (Z.to_nat (k - 1)))))) by lia. done.
Qed.

(** C38: Thunks call the dispatcher: in the 32-bit build, once the thunks are generated, the
    lookup of a system call that the loader supports gives a thunk inside of the mapping,
    and of any other NULL.  Called by a guest, the thunk enters the dispatcher with the
    number in EDX and a stack from which it reads the guest's arguments; when the
    dispatcher returns, the guest goes on behind its call with its EBP. *)
Theorem thunks_call_dispatcher {A : Arch} b d : is_my_wine32 = true -> 0 < b < 2 ^ 32 - 4095 -> 0 < d < 2 ^ 32 ->
  exists t, generate_all_thunks b d no_thunks = Ret (true, t) /\
    (forall nr, 0 <= nr -> nr ∉ nt_syscall_list -> lookup_thunk nr t = Ret 0) /\
    forall nr, nr ∈ nt_syscall_list -> exists loc code,
      lookup_thunk nr t = Ret loc /\ b <= loc /\ loc + 15 <= b + thunk_blob_size t /\
      load_bytes (loc - b) 15 (thunk_bytes t) = Ret code /\
      forall r ret args, length r = 16%nat -> exists ebp r',
        r !! 5%nat = Some ebp /\
        cpu_run loc code 4 (mkCpu loc r (ret :: args)) = Some (mkCpu d r' (loc + 13 :: ebp :: ret :: args)) /\
        r' !! 2%nat = Some nr /\
        (forall sp flags k, syscall_safe_guest_ptr_is_valid sp = true -> 1 <= k <= 4 ->
          ARG sp (flags :: loc + 13 :: ebp :: ret :: args) k = deref (args !! Z.to_nat (k - 1))) /\
        forall r2, length r2 = 16%nat ->
          cpu_run loc code 2 (mkCpu (loc + 13) r2 (ebp :: ret :: args)) = Some (mkCpu ret (<[5%nat := ebp]> r2) args).
Proof.
  intros H32 Hb Hd. assert (Hs : THUNK_SIZE = 15) by (unfold THUNK_SIZE; by rewrite H32).
  assert (Ha : thunk_alloc = 4096) by (unfold thunk_alloc, usize, ptr_bits; rewrite Hs, H32; reflexivity).
  assert (Hnd : NoDup nt_syscall_list) by (apply (bool_decide_unpack _); vm_compute; done).
  assert (Hr : forall nr, nr ∈ nt_syscall_list -> 0 <= nr < 0x60).
  { apply Forall_forall. unfold nt_syscall_list. repeat (constructor; [lia|]). constructor. }
  set (t0 := mkThunks b thunk_alloc (replicate (Z.to_nat thunk_alloc) 0) (thunk_array no_thunks)).
  destruct (thunk_write_loop_spec d nt_syscall_list 0 t0 Hnd Hr ltac:(lia)) as (t & E & B1 & B2 & B3 & B4 & S1 & _ & S3).
  { cbn [thunk_bytes t0]. unfold blen. rewrite length_replicate, Ha, Hs. cbn. lia. } { done. }
  exists t. split; [|split].
  - unfold generate_all_thunks, INLINE_SYSCALL_MMAP, MAP_FAILED, is_errno, usize, ptr_bits. rewrite H32.
    change (wrap 32 (-1)) with (2 ^ 32 - 1). change (wrap 32 (-4095)) with (2 ^ 32 - 4095).
    rewrite (proj2 (Z.eqb_neq b _)), (proj2 (Z.leb_gt _ _)), (proj2 (Z.eqb_neq d 0)) by lia. fold t0. by rewrite E.
  - intros nr Hn Hni. unfold lookup_thunk. destruct (Z.leb_spec 0x60 nr); [done|]. rewrite S3.
    + cbn [thunk_array t0 no_thunks]. by rewrite lookup_replicate_2 by lia.
    + intros m Hm Heq. destruct (Hr m Hm). assert (m = nr) as -> by lia. done.
  - intros nr Hn. destruct (Hr nr Hn) as [Hn0 Hn1]. apply list_elem_of_lookup in Hn as [k Hk]. destruct (S1 k nr Hk) as [Ea Ec].
    assert (Hkl : (k < 25)%nat) by (by apply lookup_lt_Some in Hk). cbn [thunk_blob t0] in *. rewrite Z.add_0_l, Hs in *.
    exists (b + Z.of_nat k * 15), (thunk_code nr d). split_and!; [|lia| | |].
    + unfold lookup_thunk. rewrite (proj2 (Z.leb_gt 0x60 nr)) by lia. by rewrite Ea.
    + rewrite B2. cbn [thunk_blob_size t0]. rewrite Ha. lia.
    + replace (b + Z.of_nat k * 15 - b) with (Z.of_nat k * 15) by lia. rewrite load_bytes_ok, Ec; [done|].
      apply in_range_spec. rewrite B3. cbn [thunk_bytes t0]. unfold blen. rewrite length_replicate, Ha. lia.
    + intros r ret args Hl. assert (Hdp : 0 <= d < 2 ^ ptr_bits) by (unfold ptr_bits; rewrite H32; lia).
      destruct (thunk_enters nr d (b + Z.of_nat k * 15) r (ret :: args) ltac:(lia) Hdp Hl) as (ebp & r' & E5 & Er & E2 & _ & _).
      unfold pushed_reg, number_reg, return_offset in *. rewrite H32 in *. exists ebp, r'. split_and!; [done|done|done| |].
      * intros sp flags j Hv Hj. by apply arg_of_frame.
      * intros r2 Hl2. pose proof (thunk_returns nr d (b + Z.of_nat k * 15) r2 ebp ret args ltac:(lia) Hdp Hl2) as Et.
        unfold popped_reg, return_offset in Et. by rewrite H32 in Et.
Qed.

Lemma thunks_call_dispatcher_witness : exists t,
  generate_all_thunks (A := arch32) 0x10000 0x8048000 no_thunks = Ret (true, t) /\
  exists loc, lookup_thunk 0x3D t = Ret loc /\ 0x10000 <= loc.
Proof.
  destruct (thunks_call_dispatcher (A := arch32) 0x10000 0x8048000 eq_refl ltac:(lia) ltac:(lia)) as (t & E & _ & Hn).
  exists t. split; [exact E|]. destruct (Hn 0x3D) as (loc & code & El & Hb & _); [apply (bool_decide_unpack _); vm_compute; exact I|].
  exists loc. exact (conj El Hb).
Defined.

(** The thunks of the 64-bit build push R15 and pop RDI: the guest's RDI, which the
    callee has to keep, comes back as its R15. *)
Theorem thunk_replaces_rdi {A : Arch} nr d loc r ret st : is_my_wine32 = false -> 0 <= nr < 2 ^ 16 -> 0 <= d < 2 ^ 64 -> length r = 16%nat ->
  exists r15 r', r !! 15%nat = Some r15 /\
    cpu_run loc (thunk_code nr d) 4 (mkCpu loc r (ret :: st)) = Some (mkCpu d r' (loc + 21 :: r15 :: ret :: st)) /\
    forall r2, length r2 = 16%nat ->
      cpu_run loc (thunk_code nr d) 2 (mkCpu (loc + 21) r2 (r15 :: ret :: st)) = Some (mkCpu ret (<[7%nat := r15]> r2) st).
Proof.
  intros H64 Hn Hd Hl. assert (Hdp : 0 <= d < 2 ^ ptr_bits) by (unfold ptr_bits; rewrite H64; lia).
  destruct (thunk_enters nr d loc r (ret :: st) Hn Hdp Hl) as (v & r' & E5 & Er & _).
  unfold pushed_reg, return_offset in *. rewrite H64 in *. exists v, r'. split_and!; [done|done|]. intros r2 Hl2.
  pose proof (thunk_returns nr d loc r2 v ret st Hn Hdp Hl2) as Et. unfold popped_reg, return_offset in Et. by rewrite H64 in Et.
Qed.

(** The generated switch reads the arguments from the fifth on as read_guest_stack(N)
    with N from 1, on both builds: the fifth argument is the return address in the thunk
    in the 32-bit build, and the register that the thunk has saved in the other. *)
Example fifth_argument_is_return_address : read_guest_stack (A := arch32) 0x500000 [0x202; 0x1000d; 0; 0x401000; 1; 2; 3; 4; 5] 1 = Ret 0x1000d.
Proof. reflexivity. Qed.
Example fifth_argument_is_saved_register : read_guest_stack (A := arch64) 0x500000 [0x10015; 77; 0x401000; 0; 0; 0; 0; 5] 1 = Ret 77.
Proof. reflexivity. Qed.

(** An invalid pointer is reported with the upper half of the status set. *)
Example status_is_sign_extended : dispatch_ptr_inout (A := arch64) (fun _ => Ret 0) 3 = Ret (inr 0xFFFFFFFFC0000005).
Proof. reflexivity. Qed.

(** A mapping that failed is later unmapped. *)
Example failed_mapping_is_unmapped :
  (fun r => cleanup_thunk_pages (snd r)) <$> generate_all_thunks (A := arch64) (2 ^ 64 - 12) 1 no_thunks
  = Ret (Some (2 ^ 64 - 1, 0), mkThunks 0 0 [] (replicate 0x60 0)).
Proof. reflexivity. Qed.
(** The 32-bit build writes the thunks at the address of the error number. *)
Example failed_mapping_is_written : generate_all_thunks (A := arch32) (2 ^ 32 - 12) 1 no_thunks = Fault.
Proof. reflexivity. Qed.
(** Its dispatcher takes the error number for the base of its stack. *)
Example failed_stack_is_used : setup_unix_stack (fun _ _ => 2 ^ 32 - 12) 0x400000 0x120000 = Some (128 * 1024 - 12).
Proof. reflexivity. Qed.

(** *** The dispatcher's stack *)

Lemma align_up_4k v : 0 <= v < 2 ^ 32 - 4095 -> Z.land (u32 (v + 4095)) (u32 (Z.lnot 4095)) = (v + 4095) / 4096 * 4096.
Proof. intros Hv. rewrite (wrap_small 32 (v + 4095)) by lia. by apply (land_pages 32); lia. Qed.

(** The stack of the dispatcher is apart from the image, the guest's stack and the
    signal stack, and no mapping is made when there is no room for it. *)
Theorem unix_stack_disjoint image_base image_size base : 0 < image_base -> 0 < image_size -> image_base + image_size < 2 ^ 32 - 0x21000 ->
  unix_stack_base image_base image_size = Some base ->
  image_base + image_size <= base /\ base mod 4096 = 0 /\
  (base + UNIX_STACK_SIZE <= GUEST_STACK_BASE \/ GUEST_STACK_BASE + GUEST_STACK_SIZE <= base) /\ base + UNIX_STACK_SIZE <= SIG_STACK_BASE.
Proof.
  intros Hb Hs Hlt. unfold unix_stack_base. rewrite (proj2 (Z.eqb_neq image_base 0)), (proj2 (Z.eqb_neq image_size 0)) by lia. cbn [negb andb].
  rewrite (wrap_small 32 (image_base + image_size)) by lia. rewrite align_up_4k by lia.
  set (a := (image_base + image_size + 4095) / 4096 * 4096). assert (Ha : image_base + image_size <= a < image_base + image_size + 4096 /\ a mod 4096 = 0).
  { unfold a. split; [Z.to_euclidean_division_equations; lia|]. apply Z.mod_mul. lia. }
  clearbody a. unfold UNIX_STACK_SIZE, GUEST_STACK_BASE, GUEST_STACK_SIZE, SIG_STACK_BASE. rewrite (wrap_small 32 (a + _)) by lia.
  destruct ((a <? _) && (_ <? a + _)) eqn:Eo.
  - rewrite wrap_small by lia. cbn. intros [= <-]. split_and!; [lia|done|lia|lia].
  - rewrite wrap_small by lia. destruct (0x800000 <? _) eqn:El; [intros Ez; discriminate Ez|]. intros [= <-]. split_and!; [lia|lia|lia|lia].
Qed.
Lemma unix_stack_disjoint_witness : unix_stack_base 0x400000 0x120000 = Some 0x580000 /\ 0x400000 + 0x120000 <= 0x580000.
Proof.
  assert (E : unix_stack_base 0x400000 0x120000 = Some 0x580000) by (vm_compute; reflexivity).
  split; [exact E|]. apply (unix_stack_disjoint 0x400000 0x120000 0x580000); [lia..|exact E].
Defined.
