(* ===== verification/ImageMapper.v ===== *)
(** * Mapping a PE image (src/loader/image_mapper.c)

    map_image_at: parse the headers of the file, choose and map the image range,
    copy sections and headers, clear the sections without file data, relocate,
    and set the page protections.  The file and the system calls mmap and
    mprotect are parameters. *)
From S2P Require Import Prelude Bytes CStr PeStructs TestImages PePriv PeHeaders Relocations.

Definition ADDR32_LIMIT : Z := 0x100000000.
Definition PE32_DEFAULT_IMAGE_BASE : Z := 0x00400000.
Definition PAGE_MASK : Z := 4095.

(** Pages that cover [n] bytes. *)
Definition page_round (n : Z) : Z := (n + PAGE_MASK) / 4096 * 4096.

(** The fields of wine_loader_state_t the mapper writes. *)
Record loader_globals := mkLoader {
  g_image_base : Z; g_image_size : Z; g_pe_path : cstr; g_is_32bit : bool }.

(** What map_image_at leaves behind: the image and its protected ranges. *)
Record mapped_image := mkMapped {
  mi_base : Z; mi_bytes : bytes; mi_dos : IMAGE_DOS_HEADER; mi_nt : IMAGE_NT_HEADERS;
  mi_prot : list (Z * Z * Z) }.

Definition set_pe_path (path : cstr) (g : loader_globals) : loader_globals :=
  mkLoader (g_image_base g) (g_image_size g) (take 511 path) (g_is_32bit g).

Section width.
Context {A : Arch}.
(** mmap at a fixed address (MAP_FIXED_NOREPLACE) and anywhere; mprotect. *)
Variable mmap_fixed : forall (addr size : Z), option Z.
Variable mmap_any : forall (size : Z), option Z.
Variable mprotect : forall (addr size prot : Z), bool.

(** The base address to try first. *)
Definition choose_image_base (nt : IMAGE_NT_HEADERS) (desired_base : Z) : Z :=
  let image_size := pe_size_of_image nt in
  let image_base :=
    if negb (desired_base =? 0) then
      if pe_is_pe32 nt && (ADDR32_LIMIT <=? desired_base) then PE32_DEFAULT_IMAGE_BASE else desired_base
    else if pe_is_pe32 nt then PE32_DEFAULT_IMAGE_BASE
    else pe_image_base nt in
  if pe_is_pe32 nt then
    let image_base := if ADDR32_LIMIT <=? image_base then PE32_DEFAULT_IMAGE_BASE else image_base in
    if (ADDR32_LIMIT <? image_base) || (u64 (ADDR32_LIMIT - image_base) <? image_size)
    then PE32_DEFAULT_IMAGE_BASE else image_base
  else image_base.

(** Step 5: sections [i..] of the file's table. *)
Fixpoint copy_sections (file : bytes) (nt : IMAGE_NT_HEADERS) (base : Z)
    (sections : list IMAGE_SECTION_HEADER) (img : bytes) : outcome bytes :=
  match sections with
  | [] => Ret img
  | s :: sections =>
      if (sec_SizeOfRawData s =? 0) || (sec_PointerToRawData s =? 0)
      then copy_sections file nt base sections img
      else if negb (pe_rva_range_is_valid (sec_VirtualAddress s) (sec_SizeOfRawData s)
                      (pe_size_of_image nt)) then Fail
      else
        dest ← of_option (pe_rva_to_ptr base nt (sec_VirtualAddress s) (sec_SizeOfRawData s));
        raw ← load_bytes (sec_PointerToRawData s) (sec_SizeOfRawData s) file;
        img ← store_bytes dest raw img;
        copy_sections file nt base sections img
  end.

(** Where [sections] points after the header copy: still into the file mapping,
    or to an offset of the image. *)
Inductive section_table := InFile (l : list IMAGE_SECTION_HEADER) | InImage (off : Z).

Definition table_get (t : section_table) (i : nat) (img : bytes) : outcome IMAGE_SECTION_HEADER :=
  match t with
  | InFile l => deref (l !! i)
  | InImage off => section_at off i img
  end.

Definition copy_headers (file : bytes) (nt : IMAGE_NT_HEADERS)
    (sections : list IMAGE_SECTION_HEADER) (img : bytes) : outcome (bytes * section_table) :=
  let headers_size := pe_size_of_headers nt in
  if 0 <? headers_size then
    hdr ← load_bytes 0 headers_size file;
    img ← store_bytes 0 hdr img;
    dos ← load_bytes 0 sizeof_IMAGE_DOS_HEADER img;
    Ret (img, InImage (get_image_sections (e_lfanew (decode_IMAGE_DOS_HEADER dos)) nt))
  else Ret (img, InFile sections).

(** The size a section occupies for clearing and protection. *)
Definition mapped_size (s : IMAGE_SECTION_HEADER) : Z :=
  if sec_VirtualSize s =? 0 then sec_SizeOfRawData s else sec_VirtualSize s.

(** A section whose bytes do not come from the file. *)
Definition is_zero_section (s : IMAGE_SECTION_HEADER) : bool :=
  negb (negb (sec_PointerToRawData s =? 0) &&
        (Z.land (sec_Characteristics s) IMAGE_SCN_CNT_UNINITIALIZED_DATA =? 0)).

Fixpoint zero_sections (nt : IMAGE_NT_HEADERS) (base : Z) (t : section_table)
    (todo i : nat) (img : bytes) : outcome bytes :=
  match todo with
  | O => Ret img
  | S todo =>
      s ← table_get t i img;
      if negb (is_zero_section s) then zero_sections nt base t todo (S i) img
      else
        let size := mapped_size s in
        if size =? 0 then zero_sections nt base t todo (S i) img
        else if negb (pe_rva_range_is_valid (sec_VirtualAddress s) size (pe_size_of_image nt)) then Fail
        else
          dest ← of_option (pe_rva_to_ptr base nt (sec_VirtualAddress s) size);
          img ← store_bytes dest (replicate (Z.to_nat size) 0) img;
          zero_sections nt base t todo (S i) img
  end.

Definition section_prot (s : IMAGE_SECTION_HEADER) : Z :=
  Z.lor (if Z.land (sec_Characteristics s) IMAGE_SCN_MEM_READ =? 0 then 0 else 1)
    (Z.lor (if Z.land (sec_Characteristics s) IMAGE_SCN_MEM_WRITE =? 0 then 0 else 2)
       (if Z.land (sec_Characteristics s) IMAGE_SCN_MEM_EXECUTE =? 0 then 0 else 4)).

Fixpoint protect_sections (nt : IMAGE_NT_HEADERS) (base : Z) (t : section_table)
    (todo i : nat) (img : bytes) : outcome (list (Z * Z * Z)) :=
  match todo with
  | O => Ret []
  | S todo =>
      s ← table_get t i img;
      if (sec_VirtualSize s =? 0) && (sec_SizeOfRawData s =? 0)
      then protect_sections nt base t todo (S i) img
      else
        let size := Z.land (usize (mapped_size s + PAGE_MASK)) (usize (-4096)) in
        if negb (pe_rva_range_is_valid (sec_VirtualAddress s) size (pe_size_of_image nt)) then Fail
        else if negb (mprotect (base + sec_VirtualAddress s) size (section_prot s)) then Fail
        else
          rest ← protect_sections nt base t todo (S i) img;
          Ret ((sec_VirtualAddress s, size, section_prot s) :: rest)
  end.

(** Steps 4 to 6, on parsed headers. *)
Definition load_image (file : bytes) (dos : IMAGE_DOS_HEADER) (nt : IMAGE_NT_HEADERS)
    (sections : list IMAGE_SECTION_HEADER) (desired_base : Z) : outcome mapped_image :=
  let image_size := pe_size_of_image nt in
  if (image_size =? 0) || (UINT32_MAX <? image_size) then Fail
  else if (blen file <? pe_size_of_headers nt) || (image_size <? pe_size_of_headers nt) then Fail
  else
    base ← checked_mapping (mmap_fixed (choose_image_base nt desired_base) image_size)
             (checked_mapping (mmap_any image_size) Fail);
    let img := replicate (Z.to_nat (page_round image_size)) 0 in
    img ← copy_sections file nt base sections img;
    '(img, t) ← copy_headers file nt sections img;
    let num_sections := length sections in
    img ← zero_sections nt base t num_sections 0 img;
    '(rc, img) ← apply_relocations base nt img;
    if negb (rc =? 0) then Fail
    else
      prot ← protect_sections nt base t num_sections 0 img;
      Ret (mkMapped base img dos nt prot).

(** [file]: the contents, [None] when open, fstat or mmap of the file fails. *)
Definition map_image_at (path : cstr) (file : option bytes) (desired_base : Z) (g : loader_globals)
  : outcome (option mapped_image * loader_globals) :=
  let g := set_pe_path path g in
  match file with
  | None => Ret (None, g)
  | Some file =>
      match parse_headers file with
      | Fault => Fault
      | Fail => Ret (None, g)
      | Ret (dos, nt, sections) =>
          let g := mkLoader (g_image_base g) (g_image_size g) (g_pe_path g) (pe_is_pe32 nt) in
          match load_image file dos nt sections desired_base with
          | Fault => Fault
          | Fail => Ret (None, g)
          | Ret m =>
              Ret (Some m, mkLoader (mi_base m) (pe_size_of_image nt) (g_pe_path g) (g_is_32bit g))
          end
      end
  end.

Definition map_image (path : cstr) (file : option bytes) (g : loader_globals)
  : outcome (option mapped_image * loader_globals) := map_image_at path file 0 g.
End width.

(** ** What a mapped image holds *)

Definition has_raw (s : IMAGE_SECTION_HEADER) : bool :=
  negb (sec_SizeOfRawData s =? 0) && negb (sec_PointerToRawData s =? 0).

(** The bytes of the image a section may occupy. *)
Definition extent (s : IMAGE_SECTION_HEADER) : Z := Z.max (sec_SizeOfRawData s) (sec_VirtualSize s).
Definition disjoint_sections (s t : IMAGE_SECTION_HEADER) : Prop :=
  sec_VirtualAddress s + extent s <= sec_VirtualAddress t \/
  sec_VirtualAddress t + extent t <= sec_VirtualAddress s.

(** A section that fits the file and the image, behind the headers. *)
Record section_sound (file : bytes) (nt : IMAGE_NT_HEADERS) (s : IMAGE_SECTION_HEADER) : Prop := {
  ss_wf : wf_IMAGE_SECTION_HEADER s;
  ss_raw : has_raw s = true -> sec_PointerToRawData s + sec_SizeOfRawData s <= blen file;
  ss_place : pe_size_of_headers nt <= sec_VirtualAddress s;
  ss_fits : sec_VirtualAddress s + extent s <= pe_size_of_image nt;
  ss_bss : has_raw s = true -> is_zero_section s = true -> sec_SizeOfRawData s <= mapped_size s
}.

(** A file with headers [nt] whose sections are sound, pairwise disjoint and
    described inside SizeOfHeaders. *)
Record file_sound (file : bytes) (nt : IMAGE_NT_HEADERS) (sections : list IMAGE_SECTION_HEADER) : Prop := {
  fs_bytes : wf_bytes file;
  fs_nt : wf_IMAGE_NT_HEADERS nt;
  fs_image : 0 < pe_size_of_image nt;
  fs_headers : 64 <= pe_size_of_headers nt /\ pe_size_of_headers nt <= blen file /\
               pe_size_of_headers nt <= pe_size_of_image nt;
  fs_table : let off := get_image_sections (e_lfanew (decode_IMAGE_DOS_HEADER (slice 0 64 file))) nt in
    off + 40 * Z.of_nat (length sections) <= pe_size_of_headers nt /\
    forall i s, sections !! i = Some s -> section_at off i file = Ret s;
  fs_sections : Forall (section_sound file nt) sections;
  fs_disjoint : ForallOrdPairs disjoint_sections sections
}.

(** Byte [i] belongs to the file data of [s]. *)
Definition in_raw (s : IMAGE_SECTION_HEADER) (i : nat) : Prop :=
  has_raw s = true /\ sec_VirtualAddress s <= Z.of_nat i < sec_VirtualAddress s + sec_SizeOfRawData s.
(** Byte [i] belongs to a section that is cleared. *)
Definition in_zero (s : IMAGE_SECTION_HEADER) (i : nat) : Prop :=
  is_zero_section s = true /\ sec_VirtualAddress s <= Z.of_nat i < sec_VirtualAddress s + mapped_size s.

(** The image: headers, file data of the sections, zero everywhere else. *)
Record laid_out (file : bytes) (nt : IMAGE_NT_HEADERS) (sections : list IMAGE_SECTION_HEADER)
    (img : bytes) : Prop := {
  lo_length : blen img = page_round (pe_size_of_image nt);
  lo_headers : forall i, Z.of_nat i < pe_size_of_headers nt -> img !! i = file !! i;
  lo_data : forall s i, s ∈ sections -> is_zero_section s = false -> in_raw s i ->
    img !! i = file !! Z.to_nat (sec_PointerToRawData s + (Z.of_nat i - sec_VirtualAddress s));
  lo_zero : forall i, pe_size_of_headers nt <= Z.of_nat i < blen img ->
    (forall s, s ∈ sections -> is_zero_section s = false -> ~ in_raw s i) -> img !! i = Some 0
}.

Lemma lookup_slice off len b (k : nat) :
  0 <= off -> Z.of_nat k < len -> slice off len b !! k = b !! Z.to_nat (off + Z.of_nat k).
Proof.
  intros. unfold slice. rewrite lookup_take_lt by lia. rewrite lookup_drop. f_equal. lia.
Qed.

Lemma lookup_splice off src b (i : nat) :
  in_range off (blen src) (blen b) = true ->
  splice off src b !! i
  = if decide (off <= Z.of_nat i < off + blen src) then src !! Z.to_nat (Z.of_nat i - off) else b !! i.
Proof.
  intros Hr. pose proof Hr as Hr'. apply in_range_spec in Hr'. unfold blen in *. case_decide.
  - replace i with (Z.to_nat off + Z.to_nat (Z.of_nat i - off))%nat at 1 by lia.
    apply lookup_splice_in; [done|]. lia.
  - apply lookup_splice_out; [done|]. lia.
Qed.

Lemma wf_section_ranges s : wf_IMAGE_SECTION_HEADER s ->
  in_u 32 (sec_VirtualSize s) /\ in_u 32 (sec_VirtualAddress s) /\ in_u 32 (sec_SizeOfRawData s) /\
  in_u 32 (sec_PointerToRawData s).
Proof. unfold wf_IMAGE_SECTION_HEADER. tauto. Qed.

Lemma page_round_ge n : n <= page_round n < n + 4096.
Proof. unfold page_round, PAGE_MASK. Z.to_euclidean_division_equations; lia. Qed.

(** Copying the sections. *)
Lemma copy_sections_spec file nt base : base <> 0 -> forall sections img,
  Forall (section_sound file nt) sections -> ForallOrdPairs disjoint_sections sections ->
  0 <= pe_size_of_headers nt -> pe_size_of_image nt <= blen img ->
  exists img', copy_sections file nt base sections img = Ret img' /\ length img' = length img /\
    (forall s i, s ∈ sections -> in_raw s i ->
       img' !! i = file !! Z.to_nat (sec_PointerToRawData s + (Z.of_nat i - sec_VirtualAddress s))) /\
    (forall i, (forall s, s ∈ sections -> ~ in_raw s i) -> img' !! i = img !! i).
Proof.
  intros Hb. induction sections as [|s l IH]; intros img F D Hh Hi; cbn [copy_sections].
  { exists img. split_and!; [done..| |done]. by intros s i ?%not_elem_of_nil. }
  apply Forall_cons in F as [Hs F]. inversion D as [|s' l' Ds D']; subst.
  destruct (wf_section_ranges s (ss_wf _ _ _ Hs)) as (Wv & Wa & Wr & Wp). unfold in_u in *.
  pose proof (ss_place _ _ _ Hs) as Hp. pose proof (ss_fits _ _ _ Hs) as Hf. unfold extent in Hf.
  destruct ((sec_SizeOfRawData s =? 0) || (sec_PointerToRawData s =? 0)) eqn:E.
  - assert (Hnr : has_raw s = false) by (unfold has_raw; lia).
    destruct (IH img F D' Hh Hi) as (img' & -> & L & H1 & H2). exists img'. split_and!; [done..| |].
    + intros t i [->|Ht]%elem_of_cons; [by intros [? _]; congruence|by apply H1].
    + intros i Hni. apply H2. intros t Ht. apply Hni. by right.
  - assert (Hr : has_raw s = true) by (unfold has_raw; lia).
    pose proof (ss_raw _ _ _ Hs Hr) as Hraw.
    rewrite (proj2 (rva_range_valid_spec _ _ _ (proj1 Wa) (proj1 Wr))) by lia. cbn [negb].
    assert (Hptr : pe_rva_to_ptr base nt (sec_VirtualAddress s) (sec_SizeOfRawData s)
      = Some (sec_VirtualAddress s)) by (apply pe_rva_to_ptr_Some; lia).
    rewrite Hptr. cbn [of_option mbind outcome_bind].
    assert (R1 : in_range (sec_PointerToRawData s) (sec_SizeOfRawData s) (blen file) = true)
      by (apply in_range_spec; lia).
    rewrite load_bytes_ok by done. cbn [mbind outcome_bind].
    set (raw := slice _ _ file).
    assert (Lr : blen raw = sec_SizeOfRawData s)
      by (unfold raw, blen; rewrite length_slice by done; lia).
    assert (R2 : in_range (sec_VirtualAddress s) (blen raw) (blen img) = true)
      by (apply in_range_spec; lia).
    rewrite store_bytes_ok by done. cbn [mbind outcome_bind].
    destruct (IH (splice (sec_VirtualAddress s) raw img) F D' Hh) as (img' & -> & L & H1 & H2).
    { unfold blen. rewrite length_splice by done. exact Hi. }
    exists img'. rewrite length_splice in L by done.
    assert (Hdis : forall i, in_raw s i -> forall t, t ∈ l -> ~ in_raw t i).
    { intros i [_ Hsi] t Ht [_ Hti]. rewrite Forall_forall in Ds. specialize (Ds t Ht).
      unfold disjoint_sections, extent in Ds. lia. }
    split_and!; [done..| |].
    + intros t i [->|Ht]%elem_of_cons Hti; [|by apply H1].
      rewrite H2 by by apply Hdis. destruct Hti as [_ Hti].
      rewrite lookup_splice by done. rewrite decide_True by lia. unfold raw.
      rewrite lookup_slice by lia. f_equal. lia.
    + intros i Hni. rewrite H2 by (intros t Ht; apply Hni; by right).
      rewrite lookup_splice by done. rewrite decide_False; [done|].
      intros Hin. apply (Hni s); [by left|]. split; [done|lia].
Qed.

Lemma slice_ext a b off len bound :
  (forall i, Z.of_nat i < bound -> a !! i = b !! i) -> 0 <= off -> off + len <= bound ->
  slice off len a = slice off len b.
Proof.
  intros H Ho Hl. apply list_eq. intros k. destruct (decide (Z.of_nat k < len)) as [Hk|Hk].
  - rewrite !lookup_slice by lia. apply H. lia.
  - unfold slice. rewrite !lookup_take_ge by lia. done.
Qed.

(** The table is read from the image, whose headers are those of the file. *)
Lemma table_get_image file img off i s hs :
  (forall k, Z.of_nat k < hs -> img !! k = file !! k) -> hs <= blen img -> 0 <= off ->
  off + 40 * Z.of_nat (S i) <= hs -> section_at off i file = Ret s ->
  table_get (InImage off) i img = Ret s.
Proof.
  intros He Hb Ho Hle Hs. cbn [table_get]. rewrite section_at_ok by (apply in_range_spec; lia).
  unfold section_at in Hs. apply bind_Ret in Hs as (b & Hb' & Hs).
  apply load_bytes_inv in Hb' as [_ ->]. change sizeof_IMAGE_SECTION_HEADER with 40 in Hs.
  injection Hs as <-. do 2 f_equal. eapply slice_ext; [exact He|lia|lia].
Qed.

Lemma mapped_size_extent s : wf_IMAGE_SECTION_HEADER s -> 0 <= mapped_size s <= extent s.
Proof.
  intros H. destruct (wf_section_ranges s H) as (? & _ & ? & _). unfold in_u, mapped_size, extent in *.
  case_goal; lia.
Qed.

Lemma zero_sections_spec file nt base off hs sections : base <> 0 -> 0 <= off ->
  off + 40 * Z.of_nat (length sections) <= hs -> hs = pe_size_of_headers nt ->
  (forall i s, sections !! i = Some s -> section_at off i file = Ret s) ->
  Forall (section_sound file nt) sections ->
  forall todo i img, (i + todo = length sections)%nat ->
  hs <= pe_size_of_image nt <= blen img ->
  (forall k, Z.of_nat k < hs -> img !! k = file !! k) ->
  exists img', zero_sections nt base (InImage off) todo i img = Ret img' /\ length img' = length img /\
    (forall s k, s ∈ drop i sections -> in_zero s k -> img' !! k = Some 0) /\
    (forall k, (forall s, s ∈ drop i sections -> ~ in_zero s k) -> img' !! k = img !! k).
Proof.
  intros Hb Hoff Htab Hhs Hat F. induction todo as [|todo IH]; intros i img Hi Him Hhd;
    cbn [zero_sections].
  { exists img. rewrite drop_ge by lia. split_and!; [done..| |done]. by intros s k ?%not_elem_of_nil. }
  destruct (lookup_lt_is_Some_2 sections i) as [s Hs]; [lia|].
  rewrite (table_get_image file img off i s hs) by (try apply Hat; done || lia).
  cbn [mbind outcome_bind]. rewrite (drop_S _ _ _ Hs).
  pose proof (Forall_lookup_1 _ _ _ _ F Hs) as Hss.
  destruct (wf_section_ranges s (ss_wf _ _ _ Hss)) as (Wv & Wa & Wr & Wp). unfold in_u in *.
  pose proof (mapped_size_extent s (ss_wf _ _ _ Hss)) as Hms.
  pose proof (ss_fits _ _ _ Hss) as Hf. pose proof (ss_place _ _ _ Hss) as Hp.
  assert (Hskip : (forall k, ~ in_zero s k) ->
    exists img', zero_sections nt base (InImage off) todo (S i) img = Ret img' /\
      length img' = length img /\
      (forall t k, t ∈ s :: drop (S i) sections -> in_zero t k -> img' !! k = Some 0) /\
      (forall k, (forall t, t ∈ s :: drop (S i) sections -> ~ in_zero t k) -> img' !! k = img !! k)).
  { intros Hno. destruct (IH (S i) img) as (img' & -> & L & H1 & H2); [lia|done|done|].
    exists img'. split_and!; [done..| |].
    - intros t k [->|Ht]%elem_of_cons Hk; [by destruct (Hno k)|by eapply H1].
    - intros k Hk. apply H2. intros t Ht. apply Hk. by right. }
  destruct (is_zero_section s) eqn:Ez; cbn [negb];
    [|apply Hskip; intros k [? _]; congruence].
  destruct (Z.eqb_spec (mapped_size s) 0) as [E0|E0]; [apply Hskip; intros k [_ ?]; lia|].
  rewrite (proj2 (rva_range_valid_spec _ _ _ (proj1 Wa) (proj1 Hms))) by lia. cbn [negb].
  assert (Hptr : pe_rva_to_ptr base nt (sec_VirtualAddress s) (mapped_size s)
    = Some (sec_VirtualAddress s)) by (apply pe_rva_to_ptr_Some; lia).
  rewrite Hptr. cbn [of_option mbind outcome_bind].
  set (z := replicate (Z.to_nat (mapped_size s)) 0).
  assert (Lz : blen z = mapped_size s) by (unfold z, blen; rewrite length_replicate; lia).
  assert (R : in_range (sec_VirtualAddress s) (blen z) (blen img) = true) by (apply in_range_spec; lia).
  rewrite store_bytes_ok by done. cbn [mbind outcome_bind].
  destruct (IH (S i) (splice (sec_VirtualAddress s) z img)) as (img' & -> & L & H1 & H2); [lia| | |].
  { unfold blen in *. rewrite length_splice by done. lia. }
  { intros k Hk. rewrite lookup_splice by done. rewrite decide_False by lia. by apply Hhd. }
  exists img'. rewrite length_splice in L by done. split_and!; [done..| |].
  - intros t k [->|Ht]%elem_of_cons Hk; [|by eapply H1].
    destruct (decide (Exists (fun t => in_zero t k) (drop (S i) sections))) as [Hex|Hex].
    + apply Exists_exists in Hex as (t & Ht & Hk'). by eapply H1.
    + rewrite H2 by (intros t Ht Hk'; apply Hex, Exists_exists; eauto).
      rewrite lookup_splice by done. destruct Hk as [_ Hk]. rewrite decide_True by lia.
      unfold z. apply lookup_replicate_2. lia.
  - intros k Hk. rewrite H2 by (intros t Ht; apply Hk; by right).
    rewrite lookup_splice by done. rewrite decide_False; [done|].
    intros Hin. apply (Hk s); [by left|]. split; [done|lia].
Qed.

(** Two sections of a list with pairwise disjoint members. *)
Lemma sections_apart l s t :
  ForallOrdPairs disjoint_sections l -> s ∈ l -> t ∈ l -> s = t \/ disjoint_sections s t.
Proof.
  intros D Hs%list_elem_of_In Ht%list_elem_of_In.
  destruct (ForallOrdPairs_In D _ _ Hs Ht) as [?|[?|?]]; auto.
  right. unfold disjoint_sections in *. lia.
Qed.

Lemma in_raw_extent s k : in_raw s k ->
  sec_VirtualAddress s <= Z.of_nat k < sec_VirtualAddress s + extent s.
Proof. unfold in_raw, extent. lia. Qed.
Lemma in_zero_extent s k : wf_IMAGE_SECTION_HEADER s -> in_zero s k ->
  sec_VirtualAddress s <= Z.of_nat k < sec_VirtualAddress s + extent s.
Proof. intros H%mapped_size_extent [_ ?]. lia. Qed.

(** The three copying steps build the image the section table describes. *)
Lemma layout_spec file nt sections base :
  file_sound file nt sections -> base <> 0 ->
  let off := get_image_sections (e_lfanew (decode_IMAGE_DOS_HEADER (slice 0 64 file))) nt in
  exists i1 i2 img,
    copy_sections file nt base sections (replicate (Z.to_nat (page_round (pe_size_of_image nt))) 0) = Ret i1 /\
    copy_headers file nt sections i1 = Ret (i2, InImage off) /\
    zero_sections nt base (InImage off) (length sections) 0 i2 = Ret img /\
    laid_out file nt sections img.
Proof.
  intros [Hw Hn Hi (Hh1 & Hh2 & Hh3) [Ht1 Ht2] F D] Hb off.
  set (hs := pe_size_of_headers nt) in *. set (i0 := replicate _ 0).
  pose proof (page_round_ge (pe_size_of_image nt)) as Hpr.
  assert (L0 : blen i0 = page_round (pe_size_of_image nt))
    by (unfold i0, blen; rewrite length_replicate; lia).
  destruct (copy_sections_spec file nt base Hb sections i0 F D) as (i1 & E1 & L1 & C1 & C2);
    [fold hs; lia|lia|].
  assert (Lb1 : blen i1 = page_round (pe_size_of_image nt)) by (unfold blen in *; by rewrite L1).
  assert (R0 : in_range 0 hs (blen file) = true) by (apply in_range_spec; lia).
  set (hdr := slice 0 hs file).
  assert (Lh : blen hdr = hs) by (unfold hdr, blen; rewrite length_slice by done; lia).
  assert (R1 : in_range 0 (blen hdr) (blen i1) = true) by (apply in_range_spec; lia).
  set (i2 := splice 0 hdr i1).
  assert (Lb2 : blen i2 = page_round (pe_size_of_image nt))
    by (unfold i2, blen; rewrite length_splice by done; exact Lb1).
  assert (H2 : forall k, Z.of_nat k < hs -> i2 !! k = file !! k).
  { intros k Hk. unfold i2. rewrite lookup_splice by done. rewrite decide_True by lia.
    unfold hdr. rewrite lookup_slice by lia. f_equal. lia. }
  assert (H2' : forall k, hs <= Z.of_nat k -> i2 !! k = i1 !! k).
  { intros k Hk. unfold i2. rewrite lookup_splice by done. by rewrite decide_False by lia. }
  assert (Hoff : 0 <= off) by (apply wrap_range; lia).
  destruct (zero_sections_spec file nt base off hs sections Hb Hoff Ht1 eq_refl Ht2 F
    (length sections) 0 i2 eq_refl) as (img & E3 & L3 & Z1 & Z2); [lia|done|].
  rewrite drop_0 in Z1, Z2.
  exists i1, i2, img. split; [done|]. split.
  { unfold copy_headers. fold hs. rewrite (proj2 (Z.ltb_lt 0 hs)) by lia.
    rewrite load_bytes_ok by done. cbn [mbind outcome_bind]. fold hdr.
    rewrite store_bytes_ok by done. cbn [mbind outcome_bind]. fold i2.
    rewrite load_bytes_ok
      by (apply in_range_spec; change sizeof_IMAGE_DOS_HEADER with 64; lia).
    cbn [mbind outcome_bind]. change sizeof_IMAGE_DOS_HEADER with 64.
    rewrite (slice_ext i2 file 0 64 hs H2) by lia. done. }
  split; [done|].
  assert (Hnz : forall k, Z.of_nat k < hs -> forall s, s ∈ sections -> ~ in_zero s k).
  { intros k Hk s Hs [_ Hz]. rewrite Forall_forall in F.
    pose proof (ss_place _ _ _ (F s Hs)) as Hp. fold hs in Hp. lia. }
  assert (Lb3 : blen img = page_round (pe_size_of_image nt)) by (unfold blen in *; by rewrite L3).
  rewrite Forall_forall in F. split.
  - done.
  - intros k Hk. rewrite Z2 by by apply Hnz. by apply H2.
  - intros s k Hs Hz Hr. rewrite Z2.
    + rewrite H2'; [by apply C1|]. destruct Hr as [_ Hr].
      pose proof (ss_place _ _ _ (F s Hs)) as Hp. fold hs in Hp. lia.
    + intros t Ht Hzt. destruct (sections_apart _ s t D Hs Ht) as [<-|Hd].
      * destruct Hzt. congruence.
      * apply in_raw_extent in Hr. apply in_zero_extent in Hzt; [|by apply F].
        unfold disjoint_sections in Hd. lia.
  - intros k Hk Hno.
    destruct (decide (Exists (fun s => in_zero s k) sections)) as [Hex|Hex].
    { apply Exists_exists in Hex as (s & Hs & Hz). by eapply Z1. }
    assert (Hnz' : forall s, s ∈ sections -> ~ in_zero s k)
      by (intros s Hs Hz; apply Hex, Exists_exists; eauto).
    rewrite Z2 by done. rewrite H2' by (fold hs in Hk; lia). rewrite C2.
    + unfold i0. apply lookup_replicate_2. unfold blen in *. lia.
    + intros s Hs Hr. destruct (is_zero_section s) eqn:Ez; [|by apply (Hno s)].
      apply (Hnz' s Hs). destruct Hr as [Hr ?].
      pose proof (ss_bss _ _ _ (F s Hs) Hr Ez). split; [done|]. lia.
Qed.

(** The pages of a section are pages of the image. *)
Definition pages_fit (nt : IMAGE_NT_HEADERS) (s : IMAGE_SECTION_HEADER) : Prop :=
  sec_VirtualAddress s + page_round (mapped_size s) <= pe_size_of_image nt.

(** The protection of each section that has a size, and whether the system grants all
    of them. *)
Definition section_protections (sections : list IMAGE_SECTION_HEADER) : list (Z * Z * Z) :=
  (fun s => (sec_VirtualAddress s, page_round (mapped_size s), section_prot s))
    <$> filter (fun s => extent s <> 0) sections.
Definition granted (mprotect : Z -> Z -> Z -> bool) (base : Z) (l : list (Z * Z * Z)) : bool :=
  forallb (fun '(va, size, prot) => mprotect (base + va) size prot) l.

Lemma protected_size {A : Arch} s nt : wf_IMAGE_SECTION_HEADER s -> wf_IMAGE_NT_HEADERS nt -> pages_fit nt s ->
  Z.land (usize (mapped_size s + PAGE_MASK)) (usize (-4096)) = page_round (mapped_size s).
Proof.
  intros Hwf Hn Hp. unfold pages_fit in Hp. destruct (wf_section_ranges s Hwf) as (Wv & Wa & Wr & _).
  pose proof (wf_size_of_image nt Hn) as Hu. unfold in_u in *. pose proof (mapped_size_extent s Hwf) as Hms.
  pose proof (page_round_ge (mapped_size s)) as Hpr.
  assert (Hlt : mapped_size s + 4095 < 2 ^ 32) by (unfold page_round, PAGE_MASK in *; Z.to_euclidean_division_equations; lia).
  unfold usize, PAGE_MASK. destruct ptr_bits_cases as [E | E]; rewrite E;
    (rewrite wrap_small by lia; apply land_pages; lia).
Qed.

Lemma protect_sections_spec {A : Arch} file nt base off hs sections img (mprotect : Z -> Z -> Z -> bool) :
  0 <= off -> wf_IMAGE_NT_HEADERS nt ->
  off + 40 * Z.of_nat (length sections) <= hs -> hs <= blen img ->
  (forall i s, sections !! i = Some s -> section_at off i file = Ret s) ->
  (forall k, Z.of_nat k < hs -> img !! k = file !! k) ->
  Forall (fun s => wf_IMAGE_SECTION_HEADER s /\ pages_fit nt s) sections ->
  forall todo i, (i + todo = length sections)%nat ->
  protect_sections mprotect nt base (InImage off) todo i img
  = if granted mprotect base (section_protections (drop i sections)) then Ret (section_protections (drop i sections)) else Fail.
Proof.
  intros Hoff Hn Htab Hb Hat Hhd F. induction todo as [|todo IH]; intros i Hi; cbn [protect_sections].
  { by rewrite drop_ge by lia. }
  destruct (lookup_lt_is_Some_2 sections i) as [s Hs]; [lia|].
  rewrite (table_get_image file img off i s hs) by (try apply Hat; done || lia).
  cbn [mbind outcome_bind]. rewrite (drop_S _ _ _ Hs), (IH (S i)) by lia.
  destruct (Forall_lookup_1 _ _ _ _ F Hs) as [Hwf Hp].
  rewrite (protected_size s nt Hwf Hn Hp). unfold pages_fit in Hp.
  destruct (wf_section_ranges s Hwf) as (Wv & Wa & Wr & _). unfold in_u in *.
  pose proof (mapped_size_extent s Hwf) as Hms.
  unfold section_protections. destruct ((sec_VirtualSize s =? 0) && (sec_SizeOfRawData s =? 0)) eqn:E.
  - by rewrite filter_cons_False by (intros Hx; apply Hx; unfold extent; lia).
  - rewrite filter_cons_True by (intros Hx; unfold extent in Hx; lia).
    pose proof (page_round_ge (mapped_size s)).
    rewrite (proj2 (rva_range_valid_spec (sec_VirtualAddress s) (page_round (mapped_size s))
      (pe_size_of_image nt) (proj1 Wa) ltac:(lia))) by lia.
    cbn [negb fmap list_fmap granted forallb]. destruct (mprotect _ _ _); cbn [negb andb]; [|done].
    unfold granted. by case_match.
Qed.

Lemma apply_relocations_preferred {A : Arch} nt img :
  apply_relocations (pe_image_base nt) nt img = Ret (0, img).
Proof. unfold apply_relocations. by rewrite Z.sub_diag. Qed.

Section mapper.
Context {A : Arch}.
Variable mmap_fixed : Z -> Z -> option Z.
Variable mmap_any : Z -> option Z.
Variable mprotect : Z -> Z -> Z -> bool.
Context (path : cstr) (file : bytes) (dos : IMAGE_DOS_HEADER) (nt : IMAGE_NT_HEADERS)
  (sections : list IMAGE_SECTION_HEADER) (desired_base base : Z) (g : loader_globals).

(** A sound file whose image range the system maps at [base]: at the base tried first
    or, in the 64-bit build, at any other one. *)
Record mappable : Prop := {
  mp_parse : parse_headers file = Ret (dos, nt, sections);
  mp_sound : file_sound file nt sections;
  mp_pages : Forall (pages_fit nt) sections;
  mp_base : base <> 0;
  mp_mmap : match mmap_fixed (choose_image_base nt desired_base) (pe_size_of_image nt) with
            | Some b => b = base
            | None => is_my_wine32 = false /\ mmap_any (pe_size_of_image nt) = Some base
            end
}.

Local Abbreviation map_at := (map_image_at mmap_fixed mmap_any mprotect path (Some file) desired_base g).
(** The result without an image, and the result for a final image, which there is only
    when the system grants the protections. *)
Local Abbreviation refused :=
  (Ret (None, mkLoader (g_image_base g) (g_image_size g) (take 511 path) (pe_is_pe32 nt))).
Local Abbreviation mapped img :=
  (if granted mprotect base (section_protections sections)
   then Ret (Some (mkMapped base img dos nt (section_protections sections)),
             mkLoader base (pe_size_of_image nt) (take 511 path) (pe_is_pe32 nt))
   else refused).

Lemma checked_mapping_ret m1 m2 b :
  match m1 with Some b' => b' = b | None => is_my_wine32 = false /\ m2 = Some b end ->
  checked_mapping m1 (checked_mapping m2 Fail) = Ret b.
Proof. unfold checked_mapping. destruct m1; [by intros ->|]. by intros [-> ->]. Qed.

(** Everything but the relocations. *)
Lemma map_image_at_layout : mappable ->
  exists img0, laid_out file nt sections img0 /\
    (forall img, apply_relocations base nt img0 = Ret (0, img) -> length img = length img0 ->
       (forall k, Z.of_nat k < pe_size_of_headers nt -> img !! k = img0 !! k) -> map_at = mapped img) /\
    (forall img, apply_relocations base nt img0 = Ret (-1, img) -> map_at = refused).
Proof.
  intros [Hparse Hs Hpg Hb Hm]. destruct (layout_spec file nt sections _ Hs Hb)
    as (i1 & i2 & img0 & E1 & E2 & E3 & Hl).
  exists img0. split; [done|]. destruct Hs as [Hw Hn Hi (Hh1 & Hh2 & Hh3) [Ht1 Ht2] F D].
  pose proof (wf_size_of_image nt Hn) as Hu. unfold in_u in Hu.
  unfold map_image_at. rewrite Hparse. unfold load_image.
  rewrite (proj2 (orb_false_iff _ _)) by (unfold UINT32_MAX; lia).
  rewrite (proj2 (orb_false_iff _ _)) by lia.
  rewrite (checked_mapping_ret _ _ _ Hm). cbn [mbind outcome_bind]. rewrite E1. cbn [mbind outcome_bind].
  rewrite E2. cbn [mbind outcome_bind]. rewrite E3. cbn [mbind outcome_bind].
  split; intros img ->; cbn [mbind outcome_bind Z.eqb negb]; [|done]. intros Hlen Hhd.
  rewrite (protect_sections_spec file nt _ _ (pe_size_of_headers nt) sections img mprotect);
    [|apply wrap_range; lia|exact Hn|exact Ht1| |exact Ht2| | |done].
  - rewrite drop_0. by destruct (granted _ _ _).
  - unfold blen. rewrite Hlen. fold (blen img0). rewrite (lo_length _ _ _ _ Hl).
    pose proof (page_round_ge (pe_size_of_image nt)). lia.
  - intros k Hk. rewrite Hhd by done. by apply Hl.
  - apply Forall_forall. intros s Hin. rewrite Forall_forall in F, Hpg.
    split; [apply (F s Hin)|by apply Hpg].
Qed.

(** C1: A sound file, in both builds: the image holds the headers and the file data of
    every section and zeros everywhere else ([laid_out]); away from the preferred base
    its relocation table, which has no target in the headers, has been applied to it,
    and a file without relocations is refused; every section gets the protection its
    flags ask for, or there is no image when the system refuses one; the loader state
    describes the image. *)
Theorem map_image_correct : mappable ->
  exists img0, laid_out file nt sections img0 /\
    (base = pe_image_base nt -> map_at = mapped img0) /\
    (forall l, relocatable base nt img0 l ->
       (forall e t, e ∈ l -> target nt (usize (base - pe_image_base nt)) e = Some t ->
          pe_size_of_headers nt <= t.1) ->
       exists img, map_at = mapped img /\ relocated base nt l img0 img) /\
    (usize (base - pe_image_base nt) <> 0 ->
     Z.land (pe_characteristics nt) IMAGE_FILE_RELOCS_STRIPPED <> 0 -> map_at = refused).
Proof.
  intros H. destruct (map_image_at_layout H) as (img0 & Hl & Hok & Hfail).
  exists img0. split; [done|]. split_and!.
  - intros E. apply Hok; [|done|done]. rewrite E. apply apply_relocations_preferred.
  - intros l Hr Hh. destruct (apply_relocations_effect _ _ _ _ Hr) as (img & E & Hrel).
    exists img. split; [|done]. destruct Hrel as (L & _ & Ho). apply Hok; [done|done|].
    intros k Hk. apply Ho. intros e t He Ht. specialize (Hh e t He Ht). lia.
  - intros Hd Hst. apply (Hfail img0). unfold apply_relocations.
    by rewrite (proj2 (Z.eqb_neq _ _) Hd), (proj2 (Z.eqb_neq _ _) Hst).
Qed.
End mapper.

(** ** Concrete images *)

Definition map_fixed_ok (addr size : Z) : option Z := Some addr.
Definition map_any_none (size : Z) : option Z := None.
Definition protect_ok (addr size prot : Z) : bool := true.
Definition loader0 : loader_globals := mkLoader 0 0 [] false.

Lemma hello64_parses :
  @parse_headers arch64 hello64 = Ret (sample_dos 64, hello64_nt, hello64_secs).
Proof. vm_compute. reflexivity. Qed.

Ltac solve_section :=
  split; [unfold wf_IMAGE_SECTION_HEADER; solve_wf|vm_compute; discriminate..].

Lemma hello64_sound : file_sound hello64 hello64_nt hello64_secs.
Proof.
  split.
  - apply hello64_wf.
  - apply hello64_nt_wf.
  - reflexivity.
  - vm_compute. split_and!; discriminate.
  - cbv zeta. split; [vm_compute; discriminate|].
    intros [|[|i]] s Hs; simplify_eq/=; vm_compute; reflexivity.
  - repeat constructor; try (unfold wf_IMAGE_SECTION_HEADER; solve_wf); vm_compute; discriminate || done.
  - constructor; [|constructor; [constructor|constructor]].
    constructor; [|constructor]. left. vm_compute. discriminate.
Qed.

Lemma hello64_mappable :
  mappable (A := arch64) map_fixed_ok map_any_none hello64 (sample_dos 64) hello64_nt hello64_secs 0 0x140000000.
Proof.
  split; [apply hello64_parses|apply hello64_sound| |discriminate|reflexivity].
  repeat constructor; vm_compute; discriminate.
Qed.

Lemma map_image_correct_witness :
  exists img, laid_out hello64 hello64_nt hello64_secs img /\
    @map_image_at arch64 map_fixed_ok map_any_none protect_ok (lit "hello.exe"%string) (Some hello64) 0 loader0
    = Ret (Some (mkMapped 0x140000000 img (sample_dos 64) hello64_nt
                   [(0x1000, 0x1000, 5); (0x2000, 0x1000, 3)]),
           mkLoader 0x140000000 0x3000 (lit "hello.exe"%string) false).
Proof.
  destruct (map_image_correct (A := arch64) map_fixed_ok map_any_none protect_ok (lit "hello.exe"%string) hello64
    (sample_dos 64) hello64_nt hello64_secs 0 0x140000000 loader0 hello64_mappable) as (img & Hl & H & _).
  exists img. split; [exact Hl|]. apply H. reflexivity.
Defined.

(** The section table is re-read from the image at the offset given by the
    headers, without a test that it lies in the image: with NT headers near the
    end of a one-page image the table is read behind it. *)
Definition late_nt : IMAGE_NT_HEADERS := sample_nt64 0x140000000 0x1000 0x1000 1 0x22 no_dirs.
Definition late_file : bytes :=
  encode_IMAGE_DOS_HEADER (sample_dos 0xF00) ++ replicate (0xF00 - 64) 0 ++
  encode_IMAGE_NT_HEADERS late_nt ++
  encode_IMAGE_SECTION_HEADER (sample_section ".text"%string 0x10 0 0 0 0x60000020).

Theorem map_image_reads_table_outside_image :
  @parse_headers arch64 late_file
  = Ret (sample_dos 0xF00, late_nt, [sample_section ".text"%string 0x10 0 0 0 0x60000020]) /\
  @map_image arch64 map_fixed_ok map_any_none protect_ok (lit "late.exe"%string) (Some late_file) loader0
  = Fault.
Proof. split; vm_compute; reflexivity. Qed.

(** In the 32-bit build a base that is already taken is not noticed: mmap's error
    number is used as the base of the image, and the second mapping is never tried. *)
Definition hello32 : bytes :=
  sample_file (sample_nt32 0x400000 0x3000 0x200 1 0x22 no_dirs) [sample_section ".text"%string 0x10 0x1000 0x10 0x200 0x60000020]
    (replicate (Z.to_nat 0x210) 0x90).
Example taken_base_faults :
  @map_image_at arch32 (fun _ _ => None) (fun _ => Some 0x2000000) protect_ok (lit "hello.exe"%string) (Some hello32) 0 loader0 = Fault.
Proof. vm_compute. reflexivity. Qed.
Example free_base_is_mapped :
  mi_base <$> (match @map_image_at arch32 (fun a _ => Some a) (fun _ => None) protect_ok (lit "hello.exe"%string) (Some hello32) 0 loader0 with
               | Ret (m, _) => m | _ => None end) = Some 0x400000.
Proof. vm_compute. reflexivity. Qed.
