(* ===== verification/OrdinalTable.v ===== *)
(** * Imports by ordinal (src/loader/ordinal_table.c)

    The table from (DLL name, ordinal) to function name, and its lookup, which
    ignores the case of the DLL name. *)
From S2P Require Import Prelude Bytes CStr.

(** The rows of ordinal_table, without the sentinel. *)
Definition ordinal_rows : list (string * Z * string) := [
  ("ntdll.dll", 1, "NtAccessCheck");
  ("ntdll.dll", 5, "NtCallbackReturn");
  ("ntdll.dll", 7, "NtQueryInformationProcess");
  ("ntdll.dll", 9, "NtCreateDebugObject");
  ("ntdll.dll", 11, "NtSuspendThread");
  ("ntdll.dll", 12, "NtResumeThread");
  ("ntdll.dll", 14, "NtQuerySystemTime");
  ("ntdll.dll", 17, "NtEnumerateValueKey");
  ("ntdll.dll", 18, "NtEnumerateSystemEnvironmentValuesEx");
  ("ntdll.dll", 19, "NtClose");
  ("ntdll.dll", 20, "NtQueryDefaultLocale");
  ("ntdll.dll", 21, "NtQueryValueKey");
  ("ntdll.dll", 24, "NtQueryInformationThread");
  ("ntdll.dll", 26, "NtDelayExecution");
  ("ntdll.dll", 29, "NtTerminateThread");
  ("ntdll.dll", 31, "NtRaiseException");
  ("ntdll.dll", 37, "NtSetInformationFile");
  ("ntdll.dll", 40, "NtQueryInformationFile");
  ("ntdll.dll", 41, "NtFlushBuffersFile");
  ("ntdll.dll", 45, "NtPulseEvent");
  ("ntdll.dll", 46, "NtSetTimer");
  ("ntdll.dll", 48, "NtMapViewOfSection");
  ("ntdll.dll", 49, "NtUnmapViewOfSection");
  ("ntdll.dll", 52, "NtAllocateVirtualMemory");
  ("ntdll.dll", 56, "NtWriteVirtualMemory");
  ("ntdll.dll", 57, "NtWriteFile");
  ("ntdll.dll", 58, "NtDuplicateObject");
  ("ntdll.dll", 59, "NtQueryAttributesFile");
  ("ntdll.dll", 60, "NtClearEvent");
  ("ntdll.dll", 61, "NtReadVirtualMemory");
  ("ntdll.dll", 63, "NtReleaseSemaphore");
  ("ntdll.dll", 65, "NtOpenProcess");
  ("ntdll.dll", 66, "NtOpenThread");
  ("ntdll.dll", 68, "NtCreateMutex");
  ("ntdll.dll", 71, "NtCreateSection");
  ("ntdll.dll", 73, "NtFlushBuffersFile");
  ("ntdll.dll", 75, "NtCreateProcess");
  ("ntdll.dll", 76, "NtCreateSemaphore");
  ("ntdll.dll", 77, "NtCreateTimer");
  ("ntdll.dll", 78, "NtProtectVirtualMemory");
  ("ntdll.dll", 82, "NtLockVirtualMemory");
  ("ntdll.dll", 84, "NtQueryEvent");
  ("ntdll.dll", 85, "NtQueryPerformanceCounter");
  ("ntdll.dll", 86, "NtQueryPerformanceFrequency");
  ("ntdll.dll", 87, "NtQueryVolumeInformationFile");
  ("ntdll.dll", 88, "NtWaitForMultipleObjects");
  ("ntdll.dll", 89, "NtCreateFile");
  ("ntdll.dll", 90, "NtQueryFullAttributesFile");
  ("ntdll.dll", 91, "NtCancelIoFile");
  ("ntdll.dll", 92, "NtSetEvent");
  ("ntdll.dll", 94, "NtResetEvent");
  ("ntdll.dll", 95, "NtCancelTimer");
  ("ntdll.dll", 97, "NtSignalAndWaitForSingleObject");
  ("ntdll.dll", 99, "NtOpenKey");
  ("ntdll.dll", 100, "NtQueryDirectoryFile");
  ("ntdll.dll", 101, "NtUnlockVirtualMemory");
  ("ntdll.dll", 102, "NtQueryVirtualMemory");
  ("ntdll.dll", 105, "NtSetSystemTime");
  ("ntdll.dll", 107, "NtSetValueKey");
  ("ntdll.dll", 108, "NtCreateKey");
  ("ntdll.dll", 109, "NtDeleteKey");
  ("ntdll.dll", 111, "NtDeleteValueKey");
  ("ntdll.dll", 113, "NtCreateKeyedEvent");
  ("ntdll.dll", 115, "NtCreateNamedPipeFile");
  ("ntdll.dll", 116, "NtCreatePagingFile");
  ("ntdll.dll", 119, "NtCreateThread");
  ("ntdll.dll", 122, "NtNotifyChangeDirectoryFile");
  ("ntdll.dll", 123, "NtNotifyChangeKey");
  ("ntdll.dll", 124, "NtOpenFile");
  ("ntdll.dll", 127, "NtCreateEvent");
  ("ntdll.dll", 128, "NtCreateThreadEx");
  ("ntdll.dll", 129, "NtWaitForSingleObject");
  ("ntdll.dll", 130, "NtQueryInformationFile");
  ("ntdll.dll", 132, "NtQueryOpenSubKeys");
  ("ntdll.dll", 133, "NtQueryOpenSubKeysEx");
  ("ntdll.dll", 134, "NtReleaseMutant");
  ("kernel32.dll", 2, "GetVersion");
  ("kernel32.dll", 6, "GetStdHandle");
  ("kernel32.dll", 7, "InterlockedExchange");
  ("kernel32.dll", 10, "GetTickCount");
  ("kernel32.dll", 15, "GetCommandLineA");
  ("kernel32.dll", 17, "WriteFile");
  ("kernel32.dll", 18, "GetFileType");
  ("kernel32.dll", 19, "ReadFile");
  ("kernel32.dll", 21, "SetLastError");
  ("kernel32.dll", 30, "GetCommandLineW");
  ("kernel32.dll", 32, "GetStartupInfoA");
  ("kernel32.dll", 33, "GetStartupInfoW");
  ("kernel32.dll", 34, "GetModuleHandleA");
  ("kernel32.dll", 35, "GetModuleHandleW");
  ("kernel32.dll", 37, "ExitProcess");
  ("kernel32.dll", 38, "GetVersionExA");
  ("kernel32.dll", 39, "SetUnhandledExceptionFilter");
  ("kernel32.dll", 42, "CreateFileA");
  ("kernel32.dll", 43, "CloseHandle");
  ("kernel32.dll", 44, "GetModuleFileNameA");
  ("kernel32.dll", 48, "GetModuleFileNameW");
  ("kernel32.dll", 50, "GetFileAttributesA");
  ("kernel32.dll", 51, "GetFileAttributesW");
  ("kernel32.dll", 60, "GetFileAttributesExA");
  ("kernel32.dll", 64, "GetTickCount64");
  ("kernel32.dll", 78, "GetEnvironmentStrings");
  ("kernel32.dll", 100, "FreeLibrary");
  ("kernel32.dll", 113, "GetProcAddress");
  ("kernel32.dll", 125, "LoadLibraryA");
  ("kernel32.dll", 126, "LoadLibraryW");
  ("kernel32.dll", 134, "LoadLibraryExA");
  ("kernel32.dll", 135, "LoadLibraryExW");
  ("kernel32.dll", 147, "TlsAlloc");
  ("kernel32.dll", 148, "TlsGetValue");
  ("kernel32.dll", 149, "TlsSetValue");
  ("kernel32.dll", 150, "TlsFree");
  ("kernel32.dll", 169, "EnterCriticalSection");
  ("kernel32.dll", 170, "InitializeCriticalSection");
  ("kernel32.dll", 171, "LeaveCriticalSection");
  ("kernel32.dll", 172, "DeleteCriticalSection");
  ("kernel32.dll", 190, "GetLastError");
  ("kernel32.dll", 191, "GetSystemTime");
  ("kernel32.dll", 192, "GetSystemTimeAsFileTime");
  ("kernel32.dll", 193, "Sleep");
  ("kernel32.dll", 194, "QueryPerformanceCounter");
  ("kernel32.dll", 195, "QueryPerformanceFrequency");
  ("kernel32.dll", 200, "CreateMutexA");
  ("kernel32.dll", 201, "CreateMutexW");
  ("kernel32.dll", 202, "ReleaseMutex");
  ("kernel32.dll", 231, "CreateFileW");
  ("kernel32.dll", 237, "CreateFileMappingA");
  ("kernel32.dll", 263, "CreateEventA");
  ("kernel32.dll", 264, "CreateEventW");
  ("kernel32.dll", 265, "SetEvent");
  ("kernel32.dll", 266, "ResetEvent");
  ("kernel32.dll", 268, "WaitForSingleObject");
  ("kernel32.dll", 270, "WaitForMultipleObjects");
  ("kernel32.dll", 289, "VirtualProtect");
  ("kernel32.dll", 290, "VirtualAlloc");
  ("kernel32.dll", 291, "VirtualFree");
  ("kernel32.dll", 292, "VirtualQuery");
  ("kernel32.dll", 293, "VirtualQueryEx");
  ("kernel32.dll", 296, "HeapAlloc");
  ("kernel32.dll", 297, "HeapCreate");
  ("kernel32.dll", 298, "HeapFree");
  ("kernel32.dll", 299, "HeapReAlloc");
  ("kernel32.dll", 300, "HeapSize");
  ("kernel32.dll", 301, "HeapWalk");
  ("kernel32.dll", 302, "GetProcessHeap");
  ("kernel32.dll", 303, "HeapDestroy");
  ("kernel32.dll", 304, "GetProcessHeaps");
  ("comctl32.dll", 17, "InitCommonControls");
  ("dplay.dll", 1, "DPCreate");
  ("dplay.dll", 2, "DirectPlayEnumerateA");
  ("msvcrt.dll", 1, "abort");
  ("msvcrt.dll", 5, "_amsg_exit");
  ("msvcrt.dll", 14, "_commode");
  ("msvcrt.dll", 15, "_fmode");
  ("msvcrt.dll", 20, "calloc");
  ("msvcrt.dll", 26, "exit");
  ("msvcrt.dll", 34, "fprintf");
  ("msvcrt.dll", 35, "free");
  ("msvcrt.dll", 36, "fwrite");
  ("msvcrt.dll", 42, "malloc");
  ("msvcrt.dll", 43, "memcpy");
  ("msvcrt.dll", 57, "signal");
  ("msvcrt.dll", 58, "sleep");
  ("msvcrt.dll", 65, "strlen");
  ("msvcrt.dll", 66, "strncmp");
  ("msvcrt.dll", 67, "strcmp");
  ("msvcrt.dll", 68, "strcpy");
  ("msvcrt.dll", 69, "strncpy");
  ("msvcrt.dll", 77, "vfprintf");
  ("msvcrt.dll", 78, "sprintf");
  ("msvcrt.dll", 84, "vsprintf")
]%string.

Record ordinal_entry_t := mkOrdinal { oe_dll_name : cstr; oe_ordinal : Z; oe_func_name : cstr }.

Definition ordinal_table : list ordinal_entry_t :=
  (fun '(d, o, f) => mkOrdinal (lit d) o (lit f)) <$> ordinal_rows.

Fixpoint ordinal_lookup_loop (t : list ordinal_entry_t) (dll_name : cstr) (ordinal : Z) : option cstr :=
  match t with
  | [] => None
  | e :: t =>
      if (syscall_safe_strcasecmp (oe_dll_name e) dll_name =? 0) && (oe_ordinal e =? ordinal)
      then Some (oe_func_name e)
      else ordinal_lookup_loop t dll_name ordinal
  end.
Definition ordinal_lookup (dll_name : cstr) (ordinal : Z) : option cstr :=
  ordinal_lookup_loop ordinal_table dll_name ordinal.

(** ** The table is a function *)

Definition lower (s : cstr) : cstr := map syscall_safe_ascii_lower s.

(** No two rows have the same DLL and ordinal (decidable). *)
Definition same_key (a b : ordinal_entry_t) : bool :=
  bool_decide (lower (oe_dll_name a) = lower (oe_dll_name b)) && (oe_ordinal a =? oe_ordinal b).
Fixpoint keys_unique (t : list ordinal_entry_t) : bool :=
  match t with
  | [] => true
  | e :: t => negb (existsb (same_key e) t) && keys_unique t
  end.

Definition names_ok (t : list ordinal_entry_t) : bool :=
  forallb (fun e => forallb (fun c => (1 <=? c) && (c <? 256)) (oe_dll_name e)) t.

Lemma ordinal_table_unique : keys_unique ordinal_table = true.
Proof. vm_compute. reflexivity. Qed.
Lemma ordinal_table_names : names_ok ordinal_table = true.
Proof. vm_compute. reflexivity. Qed.

Lemma names_ok_wf t e : names_ok t = true -> e ∈ t -> wf_cstr (oe_dll_name e).
Proof.
  unfold names_ok. rewrite forallb_forall. intros H He%list_elem_of_In. specialize (H e He).
  rewrite forallb_forall in H. apply Forall_forall. intros c Hc%list_elem_of_In.
  specialize (H c Hc). lia.
Qed.

Lemma ordinal_lookup_loop_spec t dll ordinal f :
  wf_cstr dll -> keys_unique t = true -> names_ok t = true ->
  ordinal_lookup_loop t dll ordinal = Some f <->
  exists e, e ∈ t /\ lower (oe_dll_name e) = lower dll /\ oe_ordinal e = ordinal /\ oe_func_name e = f.
Proof.
  intros Hd. induction t as [|e t IH]; intros Hu Hn; simpl.
  { split; [done|]. intros (e & ?%not_elem_of_nil & _). done. }
  pose proof (names_ok_wf (e :: t) e Hn ltac:(by left)) as We.
  simpl in Hu, Hn. apply andb_prop in Hu as [Hu Hut]. apply andb_prop in Hn as [_ Hnt].
  specialize (IH Hut Hnt).
  assert (Hk : forall x, x ∈ t -> same_key e x = false).
  { intros x Hx%list_elem_of_In. destruct (same_key e x) eqn:E; [|done].
    apply negb_true_iff in Hu. rewrite <- Hu. symmetry. apply existsb_exists. eauto. }
  destruct ((syscall_safe_strcasecmp (oe_dll_name e) dll =? 0) && (oe_ordinal e =? ordinal)) eqn:E.
  - apply andb_prop in E as [E1 E2]. apply Z.eqb_eq, (strcasecmp_spec _ _ We Hd) in E1.
    apply Z.eqb_eq in E2. split.
    + intros [= <-]. exists e. split_and!; [by left|done..].
    + intros (x & [->|Hx]%elem_of_cons & H1 & H2 & H3); [by subst|].
      specialize (Hk x Hx). unfold same_key in Hk. unfold lower in *.
      rewrite bool_decide_eq_true_2 in Hk by congruence. lia.
  - rewrite IH. split.
    + intros (x & Hx & ?). exists x. split; [by right|done].
    + intros (x & [->|Hx]%elem_of_cons & H1 & H2 & H3); [|by exists x].
      apply (strcasecmp_spec _ _ We Hd) in H1. rewrite H1 in E. lia.
Qed.

(** The lookup finds exactly the rows of the table, whatever the case of the DLL
    name. *)
Theorem ordinal_lookup_correct dll ordinal f :
  wf_cstr dll ->
  ordinal_lookup dll ordinal = Some f <->
  exists e, e ∈ ordinal_table /\ lower (oe_dll_name e) = lower dll /\
    oe_ordinal e = ordinal /\ oe_func_name e = f.
Proof.
  intros Hd. apply ordinal_lookup_loop_spec;
    [done|apply ordinal_table_unique|apply ordinal_table_names].
Qed.

Lemma ordinal_lookup_correct_witness :
  ordinal_lookup (lit "NTDLL.dll"%string) 19 = Some (lit "NtClose"%string).
Proof.
  apply (ordinal_lookup_correct (lit "NTDLL.dll"%string) 19 (lit "NtClose"%string)).
  - unfold wf_cstr, lit. simpl. repeat constructor; lia.
  - exists (mkOrdinal (lit "ntdll.dll"%string) 19 (lit "NtClose"%string)).
    split; [|done]. apply list_elem_of_In. do 9 right. left. reflexivity.
Defined.
