(* ===== verification/InsertionSort.v ===== *)
(** * Insertion sort in place

    The loop shape shared by init_import_table (src/loader/import_table.c) and
    scan_rip_relative_jumps (src/pe_rip_scan.c): entry by entry, larger entries
    of the processed part are moved up by one and the key is stored in the gap.
    [gt a b] is the comparison "a > b" of the inner loop. *)
From Stdlib Require Import Permutation.
From S2P Require Import Prelude.

Section loops.
Context {T : Type} (gt : T -> T -> bool).

(** The inner loop from position [j]: shift, then store the key. *)
Fixpoint shift_loop (key : T) (j : nat) (t : list T) : outcome (list T) :=
  match j with
  | O => _ ← deref (t !! 0%nat); Ret (<[0%nat := key]> t)
  | S j' =>
      p ← deref (t !! j');
      if gt p key then _ ← deref (t !! j); shift_loop key j' (<[j := p]> t)
      else _ ← deref (t !! j); Ret (<[j := key]> t)
  end.

(** The outer loop over i, i+1, ... *)
Fixpoint sort_loop (todo i : nat) (t : list T) : outcome (list T) :=
  match todo with
  | O => Ret t
  | S todo => key ← deref (t !! i); t ← shift_loop key i t; sort_loop todo (S i) t
  end.

Definition insertion_sort (t : list T) : outcome (list T) := sort_loop (length t - 1) 1 t.

(** ** Correctness *)

Definition sorted_by (t : list T) : Prop :=
  forall i j a b, (i < j)%nat -> t !! i = Some a -> t !! j = Some b -> gt a b = false.

(** [gt] is the strict part of a total preorder on the elements in [P]. *)
Context (P : T -> Prop).
Hypothesis gt_asym : forall a b, P a -> P b -> gt a b = true -> gt b a = false.
Hypothesis le_trans : forall a b c, P a -> P b -> P c -> gt a b = false -> gt b c = false -> gt a c = false.

(** One pass of the inner loop on pre ++ x :: rest, where position |pre| is free. *)
Lemma shift_loop_spec key pre x rest :
  exists pre1 pre2, pre = pre1 ++ pre2 /\
    shift_loop key (length pre) (pre ++ x :: rest) = Ret (pre1 ++ key :: pre2 ++ rest) /\
    Forall (fun e => gt e key = true) pre2 /\
    (forall e, last pre1 = Some e -> gt e key = false).
Proof.
  revert x rest. induction pre as [|p pre IH] using rev_ind; intros x rest.
  - exists [], []. split_and!; done.
  - rewrite length_app, Nat.add_1_r. cbn [shift_loop]. rewrite <- app_assoc. cbn [app].
    assert (Hp : (pre ++ p :: x :: rest) !! length pre = Some p) by by rewrite list_lookup_middle.
    assert (Hx : (pre ++ p :: x :: rest) !! S (length pre) = Some x).
    { rewrite lookup_app_r by lia. by replace (S (length pre) - length pre)%nat with 1%nat by lia. }
    rewrite Hp. cbn [deref mbind outcome_bind]. rewrite Hx. cbn [deref mbind outcome_bind].
    assert (Hins : forall y, <[S (length pre) := y]> (pre ++ p :: x :: rest) = pre ++ p :: y :: rest).
    { intros y. rewrite insert_app_r_alt by lia.
      by replace (S (length pre) - length pre)%nat with 1%nat by lia. }
    rewrite !Hins. destruct (gt p key) eqn:E.
    + destruct (IH p (p :: rest)) as (pre1 & pre2 & -> & -> & F & L).
      exists pre1, (pre2 ++ [p]). split_and!; [by rewrite app_assoc| |by apply Forall_app_2; [|repeat constructor]|done].
      by rewrite <- app_assoc.
    + exists (pre ++ [p]), []. split_and!; [by rewrite app_nil_r|by rewrite <- app_assoc|done|].
      intros e. rewrite last_snoc. by intros [= <-].
Qed.

Lemma sorted_by_app t1 t2 :
  sorted_by (t1 ++ t2) <-> sorted_by t1 /\ sorted_by t2 /\
  forall a b, a ∈ t1 -> b ∈ t2 -> gt a b = false.
Proof.
  unfold sorted_by. split.
  - intros H. split_and!.
    + intros i j a b Hij Ha Hb. apply (H i j); [done|by apply lookup_app_l_Some..].
    + intros i j a b Hij Ha Hb. apply (H (length t1 + i)%nat (length t1 + j)%nat);
        [lia|rewrite lookup_app_r by lia; by replace (length t1 + _ - length t1)%nat with i by lia|
         rewrite lookup_app_r by lia; by replace (length t1 + _ - length t1)%nat with j by lia].
    + intros a b [i Ha]%list_elem_of_lookup [j Hb]%list_elem_of_lookup.
      apply (H i (length t1 + j)%nat); [apply lookup_lt_Some in Ha; lia|by apply lookup_app_l_Some|].
      rewrite lookup_app_r by lia. by replace (length t1 + _ - length t1)%nat with j by lia.
  - intros (H1 & H2 & H3) i j a b Hij Ha Hb.
    apply lookup_app_Some in Ha as [Ha|[Hi Ha]]; apply lookup_app_Some in Hb as [Hb|[Hj Hb]].
    + by eapply (H1 i j).
    + apply H3; by eapply list_elem_of_lookup_2.
    + apply lookup_lt_Some in Hb. lia.
    + eapply (H2 (i - length t1)%nat (j - length t1)%nat); [lia|done..].
Qed.

Lemma sorted_by_singleton e : sorted_by [e].
Proof. intros [|i] [|j] a b Hij Ha Hb; simplify_eq/=; lia. Qed.

Lemma last_elem_max t e :
  sorted_by t -> last t = Some e -> forall a, a ∈ t -> a = e \/ gt a e = false.
Proof.
  intros S L a Ha. rewrite last_lookup in L. apply list_elem_of_lookup in Ha as [i Hi].
  pose proof (lookup_lt_Some _ _ _ Hi). destruct (decide (i = pred (length t))) as [->|].
  - left. congruence.
  - right. eapply (S i (pred (length t))); [lia|done..].
Qed.

(** The inner loop keeps the processed prefix sorted and permutes the table. *)
Lemma insertion_step pre key rest :
  sorted_by pre -> Forall P (pre ++ key :: rest) ->
  exists pre', shift_loop key (length pre) (pre ++ key :: rest) = Ret (pre' ++ rest) /\
    sorted_by pre' /\ pre' ≡ₚ pre ++ [key].
Proof.
  intros Sp Hw. destruct (shift_loop_spec key pre key rest) as (p1 & p2 & -> & E & F & L).
  exists (p1 ++ key :: p2). split; [by rewrite E, <- app_assoc|].
  rewrite <- app_assoc in Hw. apply Forall_app in Hw as [W1 W2]. apply Forall_app in W2 as [W2 W3].
  apply Forall_cons in W3 as [Wk W3].
  apply sorted_by_app in Sp as (S1 & S2 & S12). rewrite Forall_forall in F, W1, W2. split.
  - apply sorted_by_app. split; [done|]. split.
    + apply (sorted_by_app [key] p2). split; [apply sorted_by_singleton|]. split; [done|].
      intros a b Ha%list_elem_of_singleton Hb. subst a. apply gt_asym; [by apply W2|done|by apply F].
    + intros a b Ha [->|Hb]%elem_of_cons; [|by apply S12].
      destruct (last p1) as [e|] eqn:El.
      2: { apply last_None in El as ->. by apply not_elem_of_nil in Ha. }
      specialize (L e eq_refl).
      assert (He : e ∈ p1) by (rewrite last_lookup in El; by eapply list_elem_of_lookup_2).
      destruct (last_elem_max p1 e S1 El a Ha) as [->|Hae]; [done|].
      eapply le_trans; [by apply W1|by apply W1|done|done|done].
  - rewrite <- app_assoc. f_equiv. by rewrite Permutation_cons_append.
Qed.

Lemma sort_loop_spec : forall rest pre,
  sorted_by pre -> Forall P (pre ++ rest) ->
  exists t, sort_loop (length rest) (length pre) (pre ++ rest) = Ret t /\
    sorted_by t /\ t ≡ₚ pre ++ rest.
Proof.
  induction rest as [|key rest IH]; intros pre Sp Hw; cbn [length sort_loop].
  { rewrite app_nil_r. by exists pre. }
  rewrite list_lookup_middle by done. cbn [deref mbind outcome_bind].
  destruct (insertion_step pre key rest Sp Hw) as (pre' & -> & Sp' & Pm). cbn [mbind outcome_bind].
  destruct (IH pre' Sp') as (t & E & St & Pt); [by rewrite Pm, <- app_assoc|].
  assert (Hl : length pre' = S (length pre)) by (rewrite Pm, length_app; simpl; lia).
  rewrite Hl in E. exists t. split; [done|]. split; [done|]. rewrite Pt, Pm, <- app_assoc. done.
Qed.

Lemma insertion_sort_spec t :
  Forall P t -> exists t', insertion_sort t = Ret t' /\ sorted_by t' /\ t' ≡ₚ t.
Proof.
  intros Hw. unfold insertion_sort. destruct t as [|e t].
  - exists []. split_and!; [done|by intros ? ? ? ? ? ?|done].
  - cbn [length]. replace (S (length t) - 1)%nat with (length t) by lia.
    apply (sort_loop_spec t [e]); [apply sorted_by_singleton|done].
Qed.
End loops.
