(* ===== verification/ImportTable.v ===== *)
(** * The stub import table and symbol lookup (src/loader/import_table.c,
      src/loader/import_lookup.c)

    The table of stub functions is sorted by name at start-up, by an insertion
    sort in the 32-bit build and by qsort otherwise; imports are looked up in it
    by binary search (64-bit) or by a scan for DLL and name (32-bit), then among
    the exports of the loaded modules. *)
From Stdlib Require Import Permutation.
From S2P Require Import Prelude Bytes CStr PeStructs TestImages PePriv ModuleList ExportTable InsertionSort.

Record import_entry_t := mkImport { ie_dll_name : cstr; ie_name : cstr; ie_address : Z }.

Definition import_entry_cmp_nolibc (a b : cstr) : Z := syscall_safe_strcmp a b.
Definition import_cmp_by_name (key : cstr) (elem : import_entry_t) : Z :=
  syscall_safe_strcmp key (ie_name elem).

(** The first entry with the name gets the address; the table without its
    sentinel. *)
Fixpoint set_import (name : cstr) (address : Z) (t : list import_entry_t) : list import_entry_t :=
  match t with
  | [] => []
  | e :: t =>
      if syscall_safe_strcmp (ie_name e) name =? 0 then mkImport (ie_dll_name e) (ie_name e) address :: t
      else e :: set_import name address t
  end.

(** The comparison of the inner loop of the insertion sort. *)
Definition import_gt (a b : import_entry_t) : bool := 0 <? import_entry_cmp_nolibc (ie_name a) (ie_name b).

Section init.
Context {A : Arch}.
(** libc's qsort with import_entry_cmp. *)
Variable qsort : list import_entry_t -> list import_entry_t.
Definition init_import_table (t : list import_entry_t) : outcome (list import_entry_t) :=
  if is_my_wine32 then insertion_sort import_gt t else Ret (qsort t).
End init.

(** ** Lookup *)

Fixpoint import_name_equal (a b : cstr) : bool :=
  match a, b with
  | x :: a, y :: b =>
      let ua := if (65 <=? x) && (x <=? 90) then u8 (x - 65 + 97) else x in
      let ub := if (65 <=? y) && (y <=? 90) then u8 (y - 65 + 97) else y in
      if negb (ua =? ub) then false else import_name_equal a b
  | [], [] => true
  | _, _ => false
  end.

(** 32-bit: the first entry with the DLL and the function name. *)
Fixpoint import_scan (dll_name func_name : cstr) (t : list import_entry_t) : option import_entry_t :=
  match t with
  | [] => None
  | e :: t =>
      if negb (import_name_equal dll_name (ie_dll_name e)) then import_scan dll_name func_name t
      else if import_cmp_by_name func_name e =? 0 then Some e
      else import_scan dll_name func_name t
  end.

(** 64-bit: binary search by function name. *)
Fixpoint import_bsearch (func_name : cstr) (t : list import_entry_t) (fuel lo hi : nat)
  : outcome (option import_entry_t) :=
  match fuel with
  | O => Fault
  | S fuel =>
      if (lo <? hi)%nat then
        let mid := (lo + (hi - lo) / 2)%nat in
        e ← deref (t !! mid);
        let cmp := import_cmp_by_name func_name e in
        if cmp <? 0 then import_bsearch func_name t fuel lo mid
        else if 0 <? cmp then import_bsearch func_name t fuel (S mid) hi
        else Ret (Some e)
      else Ret None
  end.

(** ** The diagnostic line of debug_resolved_import *)

(** The bounded copy loops: characters of [s] go to buf[i++] while [i < lim]. *)
Definition put_upto (lim : Z) (s : cstr) (st : bytes * Z) : outcome (bytes * Z) :=
  let c := take (Z.to_nat (lim - snd st)) s in
  buf ← store_bytes (snd st) c (fst st); Ret (buf, snd st + blen c).

(** The line written to stderr from the 256 bytes of [buf]; [None] below debug
    level 2. *)
Definition debug_resolved_import (g_debug_level : Z) (dll_name func_name : cstr) (addr : Z)
  : outcome (option bytes) :=
  if g_debug_level <? 2 then Ret None
  else
    st ← put_upto 250 (lit "resolve_import: ") (replicate 256 0, 0);
    st ← put_upto 250 dll_name st;
    st ← put_upto 250 (lit "!") st;
    st ← put_upto 250 func_name st;
    st ← put_upto 250 (lit " -> ") st;
    st ← (if addr =? 0 then put_upto 255 (lit "(null)") st
          else
            st ← put_upto 250 (lit "0x") st;
            buf ← store_bytes (snd st) (syscall_safe_format_hex addr 8) (fst st);
            Ret (buf, snd st + 8));
    st ← put_upto 255 [10] st;
    _ ← access (snd st <=? 256);
    Ret (Some (take (Z.to_nat (snd st)) (fst st))).

Section lookup.
Context {A : Arch}.
Variable g_debug_level : Z.
(** The registry of modules, and the bytes of the image of each slot. *)
Variable reg : registry.
Variable image : nat -> bytes.

(** Tier 1: the stub table. *)
Definition stub_lookup (t : list import_entry_t) (dll_name func_name : cstr)
  : outcome (option import_entry_t) :=
  if is_my_wine32 then Ret (import_scan dll_name func_name t)
  else import_bsearch func_name t (S (length t)) 0 (length t).

(** Tier 2: the exports of a loaded module; the export's address is the module's
    base plus the RVA that lookup_export finds. *)
Definition module_lookup (dll_name func_name : cstr) : outcome (option Z) :=
  m ← find_module_by_name dll_name reg;
  match (m : option nat) with
  | None => Ret None
  | Some slot =>
      m ← deref (modules reg !! slot);
      if 0 <? number_of_names (m_export_cache m) then
        r ← lookup_export m (image slot) func_name;
        Ret (option_map (fun rva => m_base m + rva) r)
      else Ret None
  end.

(** The address, or [None] for NULL. *)
Definition resolve_loader_import (t : list import_entry_t) (dll_name func_name : cstr)
  : outcome (option Z) :=
  entry ← stub_lookup t dll_name func_name;
  r ← (match (entry : option import_entry_t) with
       | Some e =>
           if negb (ie_address e =? 0) then Ret (Some (ie_address e))
           else module_lookup dll_name func_name
       | None => module_lookup dll_name func_name
       end);
  _ ← debug_resolved_import g_debug_level dll_name func_name (default 0 r);
  Ret r.
End lookup.

(** ** The diagnostic line *)

(** The part of the buffer that is filled, and the rest of it. *)
Definition filled (p b : bytes) : bytes * Z := (p ++ drop (length p) b, blen p).

Lemma put_upto_fits lim s p b :
  blen p + blen s <= lim -> lim <= blen b -> put_upto lim s (filled p b) = Ret (filled (p ++ s) b).
Proof.
  intros H1 H2. unfold put_upto, filled. cbn [fst snd]. rewrite take_ge by (unfold blen in *; lia).
  rewrite store_append by lia. cbn [mbind outcome_bind]. by rewrite blen_app.
Qed.

Definition resolved_line (dll_name func_name : cstr) (addr : Z) : bytes :=
  lit "resolve_import: " ++ dll_name ++ lit "!" ++ func_name ++ lit " -> " ++
  (if addr =? 0 then lit "(null)" else lit "0x" ++ syscall_safe_format_hex addr 8) ++ [10].

Lemma length_format_hex v n : length (syscall_safe_format_hex v n) = n.
Proof. unfold syscall_safe_format_hex. by rewrite length_map, length_seq. Qed.

Ltac line_lia := rewrite ?blen_app; unfold blen in *; simpl length in *; lia.

Lemma write_filled p b :
  blen p <= 256 ->
  (_ ← access (snd (filled p b) <=? 256);
   Ret (Some (take (Z.to_nat (snd (filled p b))) (fst (filled p b))))) = Ret (Some p).
Proof.
  intros H. unfold filled. cbn [fst snd]. replace (blen p <=? 256) with true by lia.
  cbn [access mbind outcome_bind]. unfold blen. by rewrite Nat2Z.id, take_app_length.
Qed.

(** The two names fit the line when their lengths add up to at most 223. *)
Lemma debug_resolved_import_fits g dll func addr :
  blen dll + blen func <= 223 ->
  debug_resolved_import g dll func addr
  = Ret (if g <? 2 then None else Some (resolved_line dll func addr)).
Proof.
  intros Hl. unfold debug_resolved_import. destruct (g <? 2); [done|].
  change (replicate 256 0, 0) with (filled [] (replicate 256 0)).
  pose proof (length_format_hex addr 8) as Hx.
  assert (Hb : blen (replicate 256 0) = 256) by reflexivity.
  revert Hb. generalize (replicate 256 0). intros b Hb.
  do 5 (rewrite put_upto_fits by line_lia; cbn [mbind outcome_bind]).
  unfold resolved_line. destruct (addr =? 0) eqn:Ea.
  - do 2 (rewrite put_upto_fits by line_lia; cbn [mbind outcome_bind]).
    rewrite write_filled by line_lia. by rewrite <- !app_assoc.
  - rewrite put_upto_fits by line_lia. cbn [mbind outcome_bind]. unfold filled. cbn [fst snd].
    rewrite store_append by line_lia. cbn [mbind outcome_bind].
    match goal with |- context [put_upto 255 [10] (?p ++ _, ?n)] =>
      replace (p ++ drop (length p) b, n) with (filled p b)
        by (unfold filled; f_equal; rewrite (blen_app _ (syscall_safe_format_hex addr 8)); unfold blen; lia) end.
    rewrite put_upto_fits by line_lia. cbn [mbind outcome_bind].
    rewrite write_filled by line_lia. by rewrite <- !app_assoc.
Qed.

(** Names that fit leave the result alone. *)
Lemma with_resolved_line g dll func (m : outcome (option Z)) :
  blen dll + blen func <= 223 ->
  (r ← m; _ ← debug_resolved_import g dll func (default 0 r); Ret r) = m.
Proof. intros Hl. destruct m; cbn [mbind outcome_bind]; [by rewrite debug_resolved_import_fits|done..]. Qed.

(** ** Sorting *)

(** Nondecreasing by name. *)
Definition sorted_table (t : list import_entry_t) : Prop :=
  forall i j a b, (i < j)%nat -> t !! i = Some a -> t !! j = Some b ->
    syscall_safe_strcmp (ie_name a) (ie_name b) <= 0.

Definition names_wf (t : list import_entry_t) : Prop := Forall (fun e => wf_cstr (ie_name e)) t.

Lemma sorted_table_by t : sorted_table t <-> sorted_by import_gt t.
Proof.
  split; intros H i j a b Hij Ha Hb; specialize (H i j a b Hij Ha Hb);
    unfold import_gt, import_entry_cmp_nolibc in *; lia.
Qed.

Lemma strcmp_le_trans a b c :
  wf_cstr a -> wf_cstr b -> wf_cstr c ->
  syscall_safe_strcmp a b <= 0 -> syscall_safe_strcmp b c <= 0 -> syscall_safe_strcmp a c <= 0.
Proof.
  intros Ha Hb Hc H1 H2.
  destruct (decide (syscall_safe_strcmp a b = 0)) as [E1|E1];
    [by rewrite (strcmp_eq a b Ha Hb E1)|].
  destruct (decide (syscall_safe_strcmp b c = 0)) as [E2|E2];
    [by rewrite <- (strcmp_eq b c Hb Hc E2)|].
  pose proof (strcmp_trans a b c Ha Hb Hc). lia.
Qed.

(** init_import_table leaves the entries sorted by name, in the 32-bit build by
    its own insertion sort, otherwise as qsort promises. *)
Theorem init_import_table_sorts {A : Arch} qsort t :
  names_wf t -> (is_my_wine32 = false -> sorted_table (qsort t) /\ qsort t ≡ₚ t) ->
  exists t', init_import_table qsort t = Ret t' /\ sorted_table t' /\ t' ≡ₚ t.
Proof.
  intros Hw Hq. unfold init_import_table. destruct is_my_wine32; [|by exists (qsort t); destruct Hq].
  setoid_rewrite sorted_table_by.
  apply (insertion_sort_spec import_gt (fun e => wf_cstr (ie_name e))); [| |done];
    unfold import_gt, import_entry_cmp_nolibc.
  - intros a b Ha Hb Hab. rewrite strcmp_antisym. lia.
  - intros a b c Ha Hb Hc Hab Hbc.
    pose proof (strcmp_le_trans (ie_name a) (ie_name b) (ie_name c) Ha Hb Hc). lia.
Qed.

(** ** Lookup in the sorted table *)

Lemma import_bsearch_spec t func :
  sorted_table t -> names_wf t -> wf_cstr func -> forall fuel lo hi,
  (lo <= hi <= length t)%nat -> (hi - lo < fuel)%nat ->
  (forall i e, t !! i = Some e -> (i < lo)%nat -> ie_name e <> func) ->
  (forall i e, t !! i = Some e -> (hi <= i)%nat -> ie_name e <> func) ->
  (exists e, e ∈ t /\ ie_name e = func /\ import_bsearch func t fuel lo hi = Ret (Some e)) \/
  ((forall e, e ∈ t -> ie_name e <> func) /\ import_bsearch func t fuel lo hi = Ret None).
Proof.
  intros St Hw Hf. unfold names_wf in Hw. rewrite Forall_forall in Hw.
  induction fuel as [|fuel IH]; intros lo hi Hb Hfu Hlo Hhi; [lia|cbn [import_bsearch]].
  destruct (Nat.ltb_spec lo hi) as [Hlt|Hge].
  2: { right. split; [|done]. intros e [i Hi]%list_elem_of_lookup.
       destruct (decide (i < lo)%nat); [by eapply Hlo|eapply Hhi; [done|lia]]. }
  assert (Hmid : (lo <= lo + (hi - lo) / 2 < hi)%nat).
  { assert ((hi - lo) / 2 < hi - lo)%nat by (apply Nat.div_lt; lia). lia. }
  set (mid := (lo + (hi - lo) / 2)%nat) in *. cbv zeta.
  destruct (lookup_lt_is_Some_2 t mid) as [e He]; [lia|]. rewrite He. cbn [deref mbind outcome_bind].
  assert (Hein : e ∈ t) by by eapply list_elem_of_lookup_2.
  unfold import_cmp_by_name.
  destruct (syscall_safe_strcmp func (ie_name e) <? 0) eqn:E1;
    [|destruct (0 <? syscall_safe_strcmp func (ie_name e)) eqn:E2].
  - apply IH; [lia|lia|done|]. intros i x Hx Hi <-.
    destruct (decide (i = mid)) as [->|].
    + rewrite He in Hx. injection Hx as ->. rewrite strcmp_refl in E1. lia.
    + pose proof (St mid i e x ltac:(lia) He Hx). rewrite strcmp_antisym in E1. lia.
  - apply IH; [lia|lia| |done]. intros i x Hx Hi <-.
    destruct (decide (i = mid)) as [->|].
    + rewrite He in Hx. injection Hx as ->. rewrite strcmp_refl in E2. lia.
    + pose proof (St i mid x e ltac:(lia) Hx He). lia.
  - left. exists e. split_and!; [done| |done]. symmetry. apply strcmp_eq; [done|by apply Hw|lia].
Qed.

(** 64-bit build: an import whose name is in the stub table resolves to a stub
    of that name, and any other import to the export of the loaded module. *)
Theorem resolve_loader_import_correct g reg image t dll func :
  blen dll + blen func <= 223 ->
  sorted_table t -> names_wf t -> wf_cstr func -> (forall e, e ∈ t -> ie_address e <> 0) ->
  (exists e, e ∈ t /\ ie_name e = func /\
     @resolve_loader_import arch64 g reg image t dll func = Ret (Some (ie_address e))) \/
  ((forall e, e ∈ t -> ie_name e <> func) /\
   @resolve_loader_import arch64 g reg image t dll func = module_lookup reg image dll func).
Proof.
  intros Hl St Hw Hf Ha. unfold resolve_loader_import, stub_lookup. cbn [is_my_wine32 arch64].
  destruct (import_bsearch_spec t func St Hw Hf (S (length t)) 0 (length t))
    as [(e & He & Hn & ->)|[Hno ->]]; [lia|lia|intros; lia| | |].
  - intros i e Hi Hge. apply lookup_lt_Some in Hi. lia.
  - left. exists e. split_and!; [done..|]. cbn [mbind outcome_bind].
    by rewrite (proj2 (Z.eqb_neq _ _) (Ha e He)), with_resolved_line.
  - right. split; [done|]. by apply with_resolved_line.
Qed.

(** ASCII case-insensitive equality, by the shared fold. *)
Lemma import_name_equal_spec a b :
  wf_cstr a -> wf_cstr b ->
  import_name_equal a b = true <-> map syscall_safe_ascii_lower a = map syscall_safe_ascii_lower b.
Proof.
  intros Ha. revert b. induction Ha as [|x a Hx Ha IH]; intros [|y b] Hb; cbn [import_name_equal map];
    [done|done|done|]. apply Forall_cons in Hb as [Hy Hb]. cbv zeta.
  assert (Hf : forall c, 1 <= c < 256 ->
    (if (65 <=? c) && (c <=? 90) then u8 (c - 65 + 97) else c) = syscall_safe_ascii_lower c).
  { intros c Hc. unfold syscall_safe_ascii_lower. destruct ((65 <=? c) && (c <=? 90)) eqn:E; [|done].
    f_equal. lia. }
  rewrite !Hf by done. specialize (IH b Hb).
  destruct (syscall_safe_ascii_lower x =? syscall_safe_ascii_lower y) eqn:E; cbn [negb].
  - apply Z.eqb_eq in E. rewrite E, IH. split; [by intros ->|by intros [= ->]].
  - apply Z.eqb_neq in E. split; [done|intros [= ??]; done].
Qed.

(** The entry the 32-bit build looks for. *)
Definition import_matches (dll func : cstr) (e : import_entry_t) : Prop :=
  map syscall_safe_ascii_lower (ie_dll_name e) = map syscall_safe_ascii_lower dll /\ ie_name e = func.

Lemma import_scan_spec dll func t :
  wf_cstr dll -> wf_cstr func -> Forall (fun e => wf_cstr (ie_dll_name e) /\ wf_cstr (ie_name e)) t ->
  match import_scan dll func t with
  | Some e => exists t1 t2, t = t1 ++ e :: t2 /\ import_matches dll func e /\
                Forall (fun e' => ~ import_matches dll func e') t1
  | None => Forall (fun e' => ~ import_matches dll func e') t
  end.
Proof.
  intros Hd Hf Ht. induction Ht as [|e t [He1 He2] Ht IH]; cbn [import_scan]; [done|].
  unfold import_cmp_by_name.
  destruct (import_name_equal dll (ie_dll_name e)) eqn:E; cbn [negb];
    [apply import_name_equal_spec in E; [|done..];
     destruct (syscall_safe_strcmp func (ie_name e) =? 0) eqn:E2; [|apply Z.eqb_neq in E2]|].
  { exists [], t. split_and!; [done| |done]. split; [done|]. symmetry. apply strcmp_eq; [done..|lia]. }
  all: assert (Hno : ~ import_matches dll func e)
    by (intros [H1 H2];
        first [by rewrite H2, strcmp_refl in E2
              |by rewrite (proj2 (import_name_equal_spec dll (ie_dll_name e) Hd He1)) in E]).
  all: destruct (import_scan dll func t) as [x|]; [|by constructor].
  all: destruct IH as (t1 & t2 & -> & Hx & F); exists (e :: t1), t2; split_and!; [done|done|by constructor].
Qed.

(** 32-bit build: an import with a stub for its DLL and name resolves to the
    first such stub, and any other import to the export of the loaded module. *)
Theorem resolve_loader_import32_correct g reg image t dll func :
  blen dll + blen func <= 223 ->
  wf_cstr dll -> wf_cstr func -> Forall (fun e => wf_cstr (ie_dll_name e) /\ wf_cstr (ie_name e)) t ->
  (forall e, e ∈ t -> ie_address e <> 0) ->
  (exists t1 e t2, t = t1 ++ e :: t2 /\ import_matches dll func e /\
     Forall (fun e' => ~ import_matches dll func e') t1 /\
     @resolve_loader_import arch32 g reg image t dll func = Ret (Some (ie_address e))) \/
  (Forall (fun e => ~ import_matches dll func e) t /\
   @resolve_loader_import arch32 g reg image t dll func = module_lookup reg image dll func).
Proof.
  intros Hl Hd Hf Ht Ha. pose proof (import_scan_spec dll func t Hd Hf Ht) as Hs.
  unfold resolve_loader_import, stub_lookup. cbn [is_my_wine32 arch32 mbind outcome_bind].
  destruct (import_scan dll func t) as [e|]; [left|by right; rewrite with_resolved_line].
  destruct Hs as (t1 & t2 & Et & Hm & F). exists t1, e, t2. split_and!; [done..|].
  rewrite (proj2 (Z.eqb_neq _ _)); [by rewrite with_resolved_line|]. apply Ha. rewrite Et. set_solver.
Qed.

(** ** Concrete tables *)

(** A table in the order of the source, before it is sorted. *)
Definition demo_table : list import_entry_t :=
  [ mkImport (lit "user32.dll") (lit "MessageBoxA") 300;
    mkImport (lit "kernel32.dll") (lit "Sleep") 200;
    mkImport (lit "kernel32.dll") (lit "ExitProcess") 100 ].

Lemma demo_table_wf : Forall (fun e => wf_cstr (ie_dll_name e) /\ wf_cstr (ie_name e)) demo_table.
Proof.
  repeat (apply Forall_cons; split); [..|apply Forall_nil; done];
    (split; by apply wf_cstrb_spec).
Qed.

Lemma demo_names_wf : names_wf demo_table.
Proof. eapply Forall_impl; [exact demo_table_wf|by intros e [_ ?]]. Qed.

Definition demo_sorted : list import_entry_t :=
  [ mkImport (lit "kernel32.dll") (lit "ExitProcess") 100;
    mkImport (lit "user32.dll") (lit "MessageBoxA") 300;
    mkImport (lit "kernel32.dll") (lit "Sleep") 200 ].

Lemma demo_sorted_sorted : sorted_table demo_sorted.
Proof.
  intros i j a b Hij Ha Hb. destruct i as [|[|[|i]]]; destruct j as [|[|[|j]]];
    simplify_eq/=; try lia; vm_compute; discriminate.
Qed.

Lemma init_import_table_sorts_witness :
  exists t', @init_import_table arch32 (fun t => t) demo_table = Ret t' /\ t' = demo_sorted /\ sorted_table t'.
Proof.
  destruct (@init_import_table_sorts arch32 (fun t => t) demo_table demo_names_wf) as (t' & E & S & P);
    [discriminate|].
  exists t'. split; [exact E|]. split; [|exact S]. injection E as <-. reflexivity.
Defined.

Definition demo_image (slot : nat) : bytes := [].

Lemma demo_stubs_live : forall e, e ∈ demo_sorted -> ie_address e <> 0.
Proof. intros e He. repeat (apply elem_of_cons in He as [->|He]; [done|]). by apply not_elem_of_nil in He. Qed.

Lemma demo_sorted_names_wf : names_wf demo_sorted.
Proof. do 3 (apply Forall_cons; split; [by apply wf_cstrb_spec|]). by apply Forall_nil. Qed.

Lemma resolve_loader_import_correct_witness :
  sorted_table demo_sorted /\
  ((exists e, e ∈ demo_sorted /\ ie_name e = lit "Sleep" /\
     @resolve_loader_import arch64 2 reg_ab demo_image demo_sorted (lit "KERNEL32.dll") (lit "Sleep")
       = Ret (Some (ie_address e))) \/
   ((forall e, e ∈ demo_sorted -> ie_name e <> lit "Sleep") /\
    @resolve_loader_import arch64 2 reg_ab demo_image demo_sorted (lit "KERNEL32.dll") (lit "Sleep")
      = module_lookup reg_ab demo_image (lit "KERNEL32.dll") (lit "Sleep"))).
Proof.
  split; [exact demo_sorted_sorted|].
  apply (resolve_loader_import_correct 2 reg_ab demo_image demo_sorted (lit "KERNEL32.dll") (lit "Sleep"));
    [by vm_compute|exact demo_sorted_sorted|exact demo_sorted_names_wf|by apply wf_cstrb_spec|exact demo_stubs_live].
Defined.

Lemma demo_table_live : forall e, e ∈ demo_table -> ie_address e <> 0.
Proof. intros e He. repeat (apply elem_of_cons in He as [->|He]; [done|]). by apply not_elem_of_nil in He. Qed.

Lemma resolve_loader_import32_correct_witness :
  (exists t1 e t2, demo_table = t1 ++ e :: t2 /\ import_matches (lit "KERNEL32.dll") (lit "Sleep") e /\
     Forall (fun e' => ~ import_matches (lit "KERNEL32.dll") (lit "Sleep") e') t1 /\
     @resolve_loader_import arch32 2 reg_ab demo_image demo_table (lit "KERNEL32.dll") (lit "Sleep")
       = Ret (Some (ie_address e))) \/
  (Forall (fun e => ~ import_matches (lit "KERNEL32.dll") (lit "Sleep") e) demo_table /\
   @resolve_loader_import arch32 2 reg_ab demo_image demo_table (lit "KERNEL32.dll") (lit "Sleep")
     = module_lookup reg_ab demo_image (lit "KERNEL32.dll") (lit "Sleep")).
Proof.
  apply (resolve_loader_import32_correct 2 reg_ab demo_image demo_table);
    [by vm_compute|by apply wf_cstrb_spec..|exact demo_table_wf|exact demo_table_live].
Defined.

(** The 64-bit build takes any stub of the function's name, whatever the DLL;
    the 32-bit build does not. *)
Theorem stub_lookup_ignores_dll :
  @resolve_loader_import arch64 2 reg_ab demo_image demo_sorted (lit "other.dll") (lit "Sleep")
    = Ret (Some 200) /\
  @resolve_loader_import arch32 2 reg_ab demo_image demo_sorted (lit "other.dll") (lit "Sleep")
    = Ret None.
Proof. split; vm_compute; reflexivity. Qed.

(** Longer names overrun the 256 bytes of the line: the hexadecimal digits are
    written without a bound. *)
Theorem debug_line_overflows :
  debug_resolved_import 2 (replicate 130 65) (replicate 96 66) 1 = Fault /\
  exists o, debug_resolved_import 2 (replicate 130 65) (replicate 95 66) 1 = Ret o.
Proof. split; [vm_compute; reflexivity|]. eexists. vm_compute. reflexivity. Qed.
