(* ===== verification/DllPath.v ===== *)
(** * The DLL search (src/loader/dll_path.c)

    find_dll_path looks for a DLL by an explicit path, or in the current
    directory, the directory of the program and the directories of
    WINE_DLL_PATH, with and without the extension and in upper case.  A local
    char array that is only used as a string is the string it holds; the
    caller's buffer is a byte buffer.  [openat] stands for the kernel's open. *)
From S2P Require Import Prelude Bytes CStr.

(** The string that syscall_safe_copy_str leaves in a local array. *)
Definition local_copy (size : Z) (src : cstr) : cstr := take (Z.to_nat (size - 1)) src.

Definition ascii_upper (ch : Z) : Z :=
  if (97 <=? ch) && (ch <=? 122) then u8 (ch - (97 - 65)) else ch.
Definition dll_ascii_upper_copy (dst_size : Z) (src : cstr) : cstr :=
  map ascii_upper (take (Z.to_nat (dst_size - 1)) src).

Definition dll_name_has_extension (dll_name : cstr) : bool := existsb (fun c => c =? 46) dll_name.
Definition dll_name_has_path_separator (dll_name : cstr) : bool :=
  bool_decide (is_Some (syscall_safe_strchr dll_name 47)) ||
  bool_decide (is_Some (syscall_safe_strchr dll_name 92)).

(** The segments of WINE_DLL_PATH: split at ';', the last one only if it is not
    empty, at most [n] of them. *)
Fixpoint path_segments (n : nat) (p : cstr) : list cstr :=
  match n with
  | O => []
  | S n =>
      match syscall_safe_strchr p 59 with
      | Some i => take (Z.to_nat i) p :: path_segments n (drop (Z.to_nat (i + 1)) p)
      | None => match p with [] => [] | _ => [p] end
      end
  end.
Definition DLL_PATH_MAX_SEGMENTS : nat := 32.

Section dll_path.
Context {A : Arch}.
Variable openat : cstr -> Z.

Definition syscall_safe_path_exists (path : cstr) : bool := negb (openat path <? 0).

(** *** Explicit paths *)

(** The candidate with the letters of its last component in upper case. *)
Definition upper_candidate (candidate : cstr) : cstr :=
  match syscall_safe_strrchr candidate 47 with
  | None => dll_ascii_upper_copy 512 candidate
  | Some i =>
      let base := Z.to_nat (i + 1) in
      take base candidate ++ dll_ascii_upper_copy (512 - Z.of_nat base) (drop base candidate)
  end.

Definition try_dll_explicit_path (dll_name : cstr) (path : bytes) (path_size : Z)
  : outcome (bool * bytes) :=
  let found c := path ← syscall_safe_copy_str path c path_size; Ret (true, path) in
  let candidate := local_copy 512 dll_name in
  let upper := upper_candidate candidate in
  if syscall_safe_path_exists candidate then found candidate
  else if negb (syscall_safe_strcmp upper candidate =? 0) && syscall_safe_path_exists upper
  then found upper
  else if dll_name_has_extension dll_name then Ret (false, path)
  else
    let len := syscall_safe_strlen candidate in
    if 512 <=? usize (len + 4) then Ret (false, path)
    else
      let with_dll := candidate ++ lit ".dll" in
      let upper := upper_candidate with_dll in
      if syscall_safe_path_exists with_dll then found with_dll
      else if negb (syscall_safe_strcmp upper with_dll =? 0) && syscall_safe_path_exists upper
      then found upper
      else
        let with_DLL := candidate ++ lit ".DLL" in
        if syscall_safe_path_exists with_DLL then found with_DLL
        else Ret (false, path).

(** *** Candidates in a directory *)

(** [build_path(...) == 0 && path_exists(path)]; [path] keeps what was built. *)
Definition probe (dir name : cstr) (path_size : Z) (path : bytes) : outcome (bool * bytes) :=
  match syscall_safe_build_path path path_size dir name with
  | Ret path => s ← deref (cstr_from path); Ret (syscall_safe_path_exists s, path)
  | Fail => Ret (false, path)
  | Fault => Fault
  end.

(** Run the second search if the first one did not succeed. *)
Definition or_else (m1 m2 : bytes -> outcome (bool * bytes)) (path : bytes) : outcome (bool * bytes) :=
  r ← m1 path; if (fst r : bool) then Ret r else m2 (snd r).

Definition not_found (path : bytes) : outcome (bool * bytes) := Ret (false, path).

Definition try_dll_candidate_in_dir (path_size : Z) (dir dll_name : cstr)
  : bytes -> outcome (bool * bytes) :=
  let upper_name := dll_ascii_upper_copy 128 dll_name in
  or_else (probe dir dll_name path_size)
    (if negb (syscall_safe_strcmp upper_name dll_name =? 0) then probe dir upper_name path_size
     else not_found).

(** The loop over dll_candidates. *)
Fixpoint try_candidates (path_size : Z) (dir : cstr) (names : list cstr)
  : bytes -> outcome (bool * bytes) :=
  match names with
  | [] => not_found
  | n :: names => or_else (try_dll_candidate_in_dir path_size dir n) (try_candidates path_size dir names)
  end.

(** The loop over the segments of WINE_DLL_PATH. *)
Fixpoint try_segments (path_size : Z) (segments names : list cstr) : bytes -> outcome (bool * bytes) :=
  match segments with
  | [] => not_found
  | d :: segments => or_else (try_candidates path_size d names) (try_segments path_size segments names)
  end.

Definition dll_candidates (dll_name : cstr) : list cstr :=
  if dll_name_has_extension dll_name then [dll_name]
  else if usize (syscall_safe_strlen dll_name + 4) <? 128 then
    [dll_name; local_copy 128 dll_name ++ lit ".dll"]
  else [dll_name].

(** g_exe_dir after the call; [pe_path] is loader_get_pe_path(). *)
Definition init_exe_dir (pe_path : option cstr) (g_exe_dir : cstr) : cstr :=
  match g_exe_dir with
  | _ :: _ => g_exe_dir
  | [] =>
      match pe_path with
      | Some p =>
          match p, syscall_safe_strrchr p 47 with
          | _ :: _, Some i =>
              if i =? 0 then [46] else take (Z.to_nat (if 512 <=? i then 511 else i)) p
          | _, _ => [46]
          end
      | None => [46]
      end
  end.

(** Found or not, the path buffer and g_exe_dir. *)
Definition find_dll_path (pe_path : option cstr) (g_wine_dll_path : cstr) (g_exe_dir : cstr)
    (dll_name : cstr) (path : bytes) (path_size : Z) : outcome (bool * bytes * cstr) :=
  if dll_name_has_path_separator dll_name then
    r ← try_dll_explicit_path dll_name path path_size; Ret (r, g_exe_dir)
  else
    let names := dll_candidates dll_name in
    r ← try_candidates path_size [46] names path;
    if (fst r : bool) then Ret (r, g_exe_dir)
    else
      let g_exe_dir := init_exe_dir pe_path g_exe_dir in
      r ← (if bool_decide (g_exe_dir = [46]) then not_found (snd r)
           else try_candidates path_size g_exe_dir names (snd r));
      if (fst r : bool) then Ret (r, g_exe_dir)
      else
        r ← (match g_wine_dll_path with
             | [] => not_found (snd r)
             | _ => try_segments path_size
                      (path_segments DLL_PATH_MAX_SEGMENTS (local_copy 1024 g_wine_dll_path)) names (snd r)
             end);
        Ret (r, g_exe_dir).
End dll_path.

(** ** The search order *)

(** dir/name and dir/NAME, those that fit the buffer. *)
Definition paths_in (path_size : Z) (dir name : cstr) : list cstr :=
  let upper := dll_ascii_upper_copy 128 name in
  filter (fun c => blen c < path_size)
    ([dir ++ 47 :: name] ++ (if decide (upper = name) then [] else [dir ++ 47 :: upper])).

(** The directories, in order. *)
Definition search_dirs (g_exe_dir g_wine_dll_path : cstr) : list cstr :=
  [[46]] ++ (if decide (g_exe_dir = [46]) then [] else [g_exe_dir]) ++
  path_segments 32 (take 1023 g_wine_dll_path).

Definition search_order (path_size : Z) (dirs names : list cstr) : list cstr :=
  d ← dirs; n ← names; paths_in path_size d n.

Lemma find_app {T} (f : T -> bool) l1 l2 :
  List.find f (l1 ++ l2) = match List.find f l1 with Some x => Some x | None => List.find f l2 end.
Proof. induction l1 as [|x l1 IH]; simpl; [done|]. by destruct (f x). Qed.

Lemma wf_upper_copy n s : wf_cstr s -> wf_cstr (dll_ascii_upper_copy n s).
Proof.
  intros H. unfold dll_ascii_upper_copy, wf_cstr. apply Forall_fmap, Forall_take.
  eapply Forall_impl; [exact H|]. intros c Hc. unfold compose, ascii_upper.
  destruct ((97 <=? c) && (c <=? 122)) eqn:E; [|done]. width_lia.
Qed.

Lemma length_upper_copy n s : (length (dll_ascii_upper_copy n s) <= length s)%nat.
Proof. unfold dll_ascii_upper_copy. rewrite length_map, length_take. lia. Qed.

Section correct.
Context {A : Arch}.
Variable openat : cstr -> Z.
Variable path_size : Z.

(** A search that tries [order] and leaves the first path that exists. *)
Definition searches (m : bytes -> outcome (bool * bytes)) (order : list cstr) : Prop :=
  forall path, blen path = path_size ->
  match List.find (syscall_safe_path_exists openat) order with
  | Some c => exists path', m path = Ret (true, path') /\ blen path' = path_size /\ cstr_from path' = Some c
  | None => exists path', m path = Ret (false, path') /\ blen path' = path_size
  end.

Lemma not_found_searches : searches not_found [].
Proof. intros path H. by exists path. Qed.

Lemma or_else_searches m1 m2 o1 o2 : searches m1 o1 -> searches m2 o2 -> searches (or_else m1 m2) (o1 ++ o2).
Proof.
  intros H1 H2 path Hp. rewrite find_app. specialize (H1 path Hp). unfold or_else.
  destruct (List.find _ o1) as [c|].
  - destruct H1 as (p' & -> & Hl & Hc). cbn [mbind outcome_bind fst]. eauto.
  - destruct H1 as (p' & -> & Hl). cbn [mbind outcome_bind fst snd]. by apply H2.
Qed.

Lemma probe_searches dir name :
  wf_cstr dir -> wf_cstr name -> blen dir + blen name + 2 < 2 ^ 32 ->
  searches (probe openat dir name path_size) (filter (fun c => blen c < path_size) [dir ++ 47 :: name]).
Proof.
  intros Hd Hn Hl path Hp. pose proof (build_path_spec path path_size dir name Hd Hn ltac:(lia) Hl) as Hb.
  assert (Hlen : blen (dir ++ 47 :: name) = blen dir + blen name + 1)
    by (unfold blen; rewrite length_app; simpl; lia).
  unfold probe. destruct (_ <=? path_size) eqn:E.
  - destruct Hb as (p' & -> & Hl' & Hc). rewrite filter_cons_True by lia.
    rewrite Hc. cbn [deref mbind outcome_bind]. simpl List.find.
    destruct (syscall_safe_path_exists openat (dir ++ 47 :: name)); exists p'; unfold blen in *; split_and?; auto; lia.
  - rewrite Hb, filter_cons_False by lia. simpl. by exists path.
Qed.

Lemma try_dll_candidate_in_dir_searches dir name :
  wf_cstr dir -> wf_cstr name -> blen dir + blen name + 2 < 2 ^ 32 ->
  searches (try_dll_candidate_in_dir openat path_size dir name) (paths_in path_size dir name).
Proof.
  intros Hd Hn Hl. unfold try_dll_candidate_in_dir, paths_in. cbv zeta.
  set (upper := dll_ascii_upper_copy 128 name).
  assert (Hu : wf_cstr upper) by by apply wf_upper_copy.
  assert (Hul : blen upper <= blen name) by (pose proof (length_upper_copy 128 name); unfold blen, upper; lia).
  rewrite filter_app. apply or_else_searches; [by apply probe_searches|].
  destruct (decide (upper = name)) as [->|Hne].
  - rewrite strcmp_refl. apply not_found_searches.
  - destruct (syscall_safe_strcmp upper name =? 0) eqn:E;
      [apply Z.eqb_eq, strcmp_eq in E; done|]. cbn [negb]. apply probe_searches; [done|done|lia].
Qed.

Lemma try_candidates_searches dir names :
  wf_cstr dir -> Forall (fun n => wf_cstr n /\ blen dir + blen n + 2 < 2 ^ 32) names ->
  searches (try_candidates openat path_size dir names) (n ← names; paths_in path_size dir n).
Proof.
  intros Hd. induction 1 as [|n names [Hn Hl] _ IH]; [apply not_found_searches|].
  apply or_else_searches; [by apply try_dll_candidate_in_dir_searches|done].
Qed.

Lemma try_segments_searches dirs names :
  Forall (fun d => wf_cstr d /\ Forall (fun n => wf_cstr n /\ blen d + blen n + 2 < 2 ^ 32) names) dirs ->
  searches (try_segments openat path_size dirs names) (search_order path_size dirs names).
Proof.
  induction 1 as [|d dirs [Hd Hn] _ IH]; [apply not_found_searches|].
  apply or_else_searches; [by apply try_candidates_searches|done].
Qed.

(** The composition in find_dll_path. *)
Lemma search_order_app d1 d2 names :
  search_order path_size (d1 ++ d2) names = search_order path_size d1 names ++ search_order path_size d2 names.
Proof. apply bind_app. Qed.

(** Three searches in a row, as find_dll_path runs them. *)
Lemma three_phases m1 m2 m3 o1 o2 o3 :
  searches m1 o1 -> searches m2 o2 -> searches m3 o3 ->
  forall path (g g' : cstr), blen path = path_size ->
  exists found path' gr,
    (r ← m1 path; if (fst r : bool) then Ret (r, g)
     else r ← m2 (snd r); if (fst r : bool) then Ret (r, g') else r ← m3 (snd r); Ret (r, g'))
      = Ret (found, path', gr) /\
    match List.find (syscall_safe_path_exists openat) (o1 ++ o2 ++ o3) with
    | Some c => found = true /\ cstr_from path' = Some c
    | None => found = false
    end.
Proof.
  intros S1 S2 S3 path g g' Hp. rewrite !find_app. specialize (S1 path Hp).
  destruct (List.find _ o1) as [c|]; destruct S1 as (p1 & -> & Hp1); cbn [mbind outcome_bind fst snd].
  { destruct Hp1. eauto 6. }
  specialize (S2 p1 Hp1).
  destruct (List.find _ o2) as [c|]; destruct S2 as (p2 & -> & Hp2); cbn [mbind outcome_bind fst snd].
  { destruct Hp2. eauto 6. }
  specialize (S3 p2 Hp2).
  destruct (List.find _ o3) as [c|]; destruct S3 as (p3 & -> & Hp3); cbn [mbind outcome_bind]; [destruct Hp3|];
    eauto 6.
Qed.
End correct.

Lemma wf_path_segments n p : wf_cstr p -> Forall (fun s => wf_cstr s /\ blen s <= blen p) (path_segments n p).
Proof.
  revert p. induction n as [|n IH]; intros p Hp; [constructor|cbn [path_segments]].
  destruct (syscall_safe_strchr p 59) as [i|].
  - constructor; [split; [by apply wf_cstr_take|unfold blen; rewrite length_take; lia]|].
    eapply Forall_impl; [apply IH; by apply Forall_drop|]. intros s [Hs Hl]. split; [done|].
    unfold blen in *. rewrite length_drop in Hl. lia.
  - destruct p; [constructor|]. constructor; [split; [done|lia]|constructor].
Qed.

Lemma wf_init_exe_dir pe_path g :
  wf_cstr g -> blen g < 512 -> (forall p, pe_path = Some p -> wf_cstr p) ->
  wf_cstr (init_exe_dir pe_path g) /\ blen (init_exe_dir pe_path g) < 512.
Proof.
  intros Hg Hl Hp. unfold init_exe_dir. destruct g as [|c g]; [|done].
  assert (H46 : wf_cstr [46] /\ blen [46] < 512) by (split; [by apply wf_cstrb_spec|done]).
  destruct pe_path as [p|]; [|done]. specialize (Hp p eq_refl).
  destruct p as [|x p]; [done|]. destruct (syscall_safe_strrchr (x :: p) 47) as [i|]; [|done].
  destruct (i =? 0); [done|]. split; [by apply wf_cstr_take|].
  unfold blen. rewrite length_take. destruct (512 <=? i) eqn:E; lia.
Qed.

Lemma dll_candidates_wf {A : Arch} name :
  wf_cstr name -> Forall (fun n => wf_cstr n /\ blen n <= blen name + 4) (dll_candidates name).
Proof.
  intros Hn. assert (H0 : wf_cstr name /\ blen name <= blen name + 4) by (split; [done|lia]).
  assert (H1 : Forall (fun n => wf_cstr n /\ blen n <= blen name + 4) [name])
    by (apply Forall_cons; split; [done|by apply Forall_nil]).
  unfold dll_candidates. destruct (dll_name_has_extension name); [done|].
  destruct (_ <? 128); [|done].
  apply Forall_cons. split; [done|]. apply Forall_cons. split; [|by apply Forall_nil]. split.
  - apply Forall_app. split; [by apply Forall_take|]. by apply wf_cstrb_spec.
  - unfold blen, local_copy. rewrite length_app, length_take. change (length (lit ".dll")) with 4%nat. lia.
Qed.

(** find_dll_path on a bare name: the first path of the search order that can be
    opened, in the caller's buffer; nothing is found exactly when none can. *)
Theorem find_dll_path_correct {A : Arch} openat pe_path g_wine_dll_path g_exe_dir dll_name path :
  wf_cstr dll_name -> blen dll_name < 2 ^ 31 -> dll_name_has_path_separator dll_name = false ->
  wf_cstr g_wine_dll_path -> wf_cstr g_exe_dir -> blen g_exe_dir < 512 ->
  (forall p, pe_path = Some p -> wf_cstr p) ->
  let order := search_order (blen path)
    (search_dirs (init_exe_dir pe_path g_exe_dir) g_wine_dll_path) (dll_candidates dll_name) in
  exists found path' g',
    find_dll_path openat pe_path g_wine_dll_path g_exe_dir dll_name path (blen path)
      = Ret (found, path', g') /\
    match List.find (syscall_safe_path_exists openat) order with
    | Some c => found = true /\ cstr_from path' = Some c
    | None => found = false
    end.
Proof.
  intros Hn Hnl Hsep Hw Hg Hgl Hpe order. unfold find_dll_path. rewrite Hsep. cbv zeta.
  destruct (wf_init_exe_dir pe_path g_exe_dir Hg Hgl Hpe) as [Hx Hxl].
  set (exe := init_exe_dir pe_path g_exe_dir) in *.
  pose proof (dll_candidates_wf dll_name Hn) as Hc. set (names := dll_candidates dll_name) in *.
  assert (Hdir : forall d, wf_cstr d -> blen d <= 1024 ->
    wf_cstr d /\ Forall (fun n => wf_cstr n /\ blen d + blen n + 2 < 2 ^ 32) names).
  { intros d Hd Hl. split; [done|]. eapply Forall_impl; [exact Hc|]. intros n [H1 H2]. split; [done|lia]. }
  assert (S1 : searches openat (blen path) (try_candidates openat (blen path) [46] names)
                 (search_order (blen path) [[46]] names)).
  { unfold search_order. cbn [mbind list_bind]. rewrite app_nil_r. destruct (Hdir [46]); [by apply wf_cstrb_spec|done|].
    by apply try_candidates_searches. }
  assert (S2 : searches openat (blen path)
     (fun p => if bool_decide (exe = [46]) then not_found p else try_candidates openat (blen path) exe names p)
     (search_order (blen path) (if decide (exe = [46]) then [] else [exe]) names)).
  { case_bool_decide as E; [rewrite decide_True by done; apply not_found_searches|rewrite decide_False by done].
    unfold search_order. cbn [mbind list_bind]. rewrite app_nil_r. destruct (Hdir exe); [done|lia|].
    by apply try_candidates_searches. }
  assert (S3 : searches openat (blen path)
     (fun p => match g_wine_dll_path with [] => not_found p
        | _ => try_segments openat (blen path)
                 (path_segments DLL_PATH_MAX_SEGMENTS (local_copy 1024 g_wine_dll_path)) names p end)
     (search_order (blen path) (path_segments 32 (take 1023 g_wine_dll_path)) names)).
  { destruct g_wine_dll_path as [|c g]; [apply not_found_searches|].
    apply try_segments_searches. eapply Forall_impl; [apply wf_path_segments; by apply wf_cstr_take|].
    intros s [Hs Hsl]. apply Hdir; [done|]. unfold blen, local_copy in *. rewrite length_take in Hsl. lia. }
  unfold order, search_dirs. fold exe.
  rewrite (search_order_app _ [[46]]), search_order_app.
  apply (three_phases openat (blen path) _ _ _ _ _ _ S1 S2 S3 path g_exe_dir exe eq_refl).
Qed.

(** *** Explicit paths *)

Definition explicit_order (dll_name : cstr) : list cstr :=
  let c := take 511 dll_name in
  [c; upper_candidate c] ++
  (if dll_name_has_extension dll_name || (508 <=? blen c) then []
   else [c ++ lit ".dll"; upper_candidate (c ++ lit ".dll"); c ++ lit ".DLL"]).

Lemma wf_upper_candidate c : wf_cstr c -> wf_cstr (upper_candidate c).
Proof.
  intros H. unfold upper_candidate. destruct (syscall_safe_strrchr c 47); [|by apply wf_upper_copy].
  apply Forall_app. split; [by apply wf_cstr_take|]. by apply wf_upper_copy, Forall_drop.
Qed.

Lemma length_upper_candidate c : (length (upper_candidate c) <= length c)%nat.
Proof.
  unfold upper_candidate. destruct (syscall_safe_strrchr c 47) as [i|]; [|apply length_upper_copy].
  rewrite length_app, length_take. pose proof (length_upper_copy (512 - Z.of_nat (Z.to_nat (i + 1))) (drop (Z.to_nat (i + 1)) c)).
  rewrite length_drop in *. lia.
Qed.

(** The two probes for a path and its upper-case form. *)
Lemma try_pair {T} (ex : cstr -> bool) c u (F : cstr -> T) (K : T) :
  wf_cstr c -> wf_cstr u ->
  (if ex c then F c else if negb (syscall_safe_strcmp u c =? 0) && ex u then F u else K)
  = match List.find ex [c; u] with Some x => F x | None => K end.
Proof.
  intros Hc Hu. simpl. destruct (ex c) eqn:E; [done|].
  destruct (syscall_safe_strcmp u c =? 0) eqn:Es; cbn [negb andb]; [|by destruct (ex u)].
  apply Z.eqb_eq, strcmp_eq in Es as ->; [by rewrite E|done..].
Qed.

Lemma find_ret (ex : cstr -> bool) (l : list cstr) (path : bytes) (K : outcome (bool * bytes)) (g : cstr) rest :
  Forall (fun c => wf_cstr c /\ blen c < blen path) l ->
  (List.find ex l = None -> exists found path', (r ← K; Ret (r, g)) = Ret (found, path', g) /\
     match List.find ex rest with Some c => found = true /\ cstr_from path' = Some c | None => found = false end) ->
  exists found path',
    (r ← match List.find ex l with
         | Some x => path ← syscall_safe_copy_str path x (blen path); Ret (true, path)
         | None => K end; Ret (r, g)) = Ret (found, path', g) /\
    match List.find ex (l ++ rest) with Some c => found = true /\ cstr_from path' = Some c | None => found = false end.
Proof.
  intros Hl HK. rewrite find_app. destruct (List.find ex l) as [c|] eqn:E; [|by apply HK].
  apply find_some in E as [Hin _]. rewrite Forall_forall in Hl.
  destruct (Hl c) as [Hw Hb]; [by apply list_elem_of_In|].
  destruct (copy_str_spec path c (blen path) Hw) as (p' & -> & _ & Hp & _); [unfold blen in *; lia|].
  cbn [mbind outcome_bind]. rewrite take_ge in Hp by (unfold blen in *; lia). eauto.
Qed.

(** A name with a separator is taken as a path: as given, in upper case, and
    with the extension when it has none. *)
Theorem find_dll_path_explicit {A : Arch} openat pe_path g_wine_dll_path g_exe_dir dll_name path :
  wf_cstr dll_name -> dll_name_has_path_separator dll_name = true -> 512 <= blen path ->
  exists found path',
    find_dll_path openat pe_path g_wine_dll_path g_exe_dir dll_name path (blen path)
      = Ret (found, path', g_exe_dir) /\
    match List.find (syscall_safe_path_exists openat) (explicit_order dll_name) with
    | Some c => found = true /\ cstr_from path' = Some c
    | None => found = false
    end.
Proof.
  intros Hn Hsep Hsz. unfold find_dll_path. rewrite Hsep. unfold try_dll_explicit_path. cbv zeta.
  change (local_copy 512 dll_name) with (take 511 dll_name). unfold explicit_order. cbv zeta.
  set (c := take 511 dll_name). assert (Hc : wf_cstr c) by by apply wf_cstr_take.
  assert (Hcl : (length c <= 511)%nat) by (unfold c; rewrite length_take; lia).
  assert (Hu : forall x, wf_cstr x -> wf_cstr (upper_candidate x)) by apply wf_upper_candidate.
  assert (Hfit : forall x, wf_cstr x -> (length x <= 511)%nat ->
    Forall (fun y => wf_cstr y /\ blen y < blen path) [x; upper_candidate x]).
  { intros x Hx Hxl. pose proof (length_upper_candidate x).
    apply Forall_cons. split; [split; [done|unfold blen in *; lia]|]. apply Forall_cons.
    split; [|by apply Forall_nil]. split; [by apply Hu|unfold blen in *; lia]. }
  set (F := fun x => path ← syscall_safe_copy_str path x (blen path); Ret (true, path)).
  rewrite (try_pair _ c (upper_candidate c) F) by auto. apply find_ret; [by apply Hfit|]. intros _.
  destruct (dll_name_has_extension dll_name) eqn:Ex; cbn [orb]; [by exists false, path|].
  unfold syscall_safe_strlen. fold (blen c). rewrite usize_u32 by (unfold blen; lia).
  destruct (508 <=? blen c) eqn:E5.
  { replace (512 <=? blen c + 4) with true by lia. by exists false, path. }
  replace (512 <=? blen c + 4) with false by lia.
  assert (Hd : forall s, wf_cstr (lit s) -> wf_cstr (c ++ lit s)) by (intros; by apply Forall_app).
  assert (H1 : wf_cstr (c ++ lit ".dll")) by (apply Hd; by apply wf_cstrb_spec).
  assert (H2 : wf_cstr (c ++ lit ".DLL")) by (apply Hd; by apply wf_cstrb_spec).
  assert (Hl : forall s, length (lit s) = 4%nat -> (length (c ++ lit s) <= 511)%nat)
    by (intros s Hs; rewrite length_app, Hs; unfold blen in E5; lia).
  rewrite (try_pair _ (c ++ lit ".dll") (upper_candidate (c ++ lit ".dll")) F) by auto.
  apply (find_ret _ [c ++ lit ".dll"; upper_candidate (c ++ lit ".dll")] path _ g_exe_dir [c ++ lit ".DLL"]);
    [apply Hfit; [done|by apply Hl]|]. intros _.
  pose proof (find_ret (syscall_safe_path_exists openat) [c ++ lit ".DLL"] path (Ret (false, path)) g_exe_dir []) as HL.
  simpl in HL |- *. destruct (syscall_safe_path_exists openat (c ++ lit ".DLL"));
    (apply HL; [apply Forall_cons; split; [split; [done|specialize (Hl ".DLL"%string eq_refl); unfold blen in *; lia]|by apply Forall_nil]|eauto]).
Qed.

(** ** Concrete searches *)

(** A file system with two files. *)
Definition demo_openat (p : cstr) : Z :=
  if decide (p = lit "lib/FOO.DLL") then 5 else if decide (p = lit "/opt/bar.dll") then 6 else -2.

Lemma find_dll_path_correct_witness :
  exists found path' g',
    @find_dll_path arch64 demo_openat (Some (lit "/home/game.exe")) (lit "a;lib") [] (lit "foo") (replicate 64 0) 64
      = Ret (found, path', g') /\ found = true /\ cstr_from path' = Some (lit "lib/FOO.DLL").
Proof.
  destruct (@find_dll_path_correct arch64 demo_openat (Some (lit "/home/game.exe")) (lit "a;lib") [] (lit "foo")
              (replicate 64 0)) as (f & p & g & E & H);
    [by apply wf_cstrb_spec|done|vm_compute; reflexivity|by apply wf_cstrb_spec|by apply wf_cstrb_spec|done
    |intros q [= <-]; by apply wf_cstrb_spec|].
  exists f, p, g. split; [exact E|]. vm_compute in H. exact H.
Defined.

Lemma find_dll_path_explicit_witness :
  exists found path',
    @find_dll_path arch32 demo_openat None [] [] (lit "/opt/bar") (replicate 512 0) 512
      = Ret (found, path', []) /\ found = true /\ cstr_from path' = Some (lit "/opt/bar.dll").
Proof.
  destruct (@find_dll_path_explicit arch32 demo_openat None [] [] (lit "/opt/bar") (replicate 512 0))
    as (f & p & E & H); [by apply wf_cstrb_spec|vm_compute; reflexivity|done|].
  exists f, p. split; [exact E|]. vm_compute in H. exact H.
Defined.
