(* ===== verification/RipScan.v ===== *)
(** * Scanning for indirect jumps (src/pe_rip_scan.c)

    The scan of the code section for "ff 25 disp32" (and "ff 15" in PE32
    images), with a callback for every jump whose target cell lies in the image;
    the collection of the targets, and the search for the jump through a cell
    that holds a given address. *)
From Stdlib Require Import Permutation.
From S2P Require Import Prelude Bytes CStr PeStructs TestImages PePriv PeHeaders InsertionSort.

Definition X86_JMP_RIP : Z := 0xFF.

Section scan.
Variable image_base : Z.
Variable nt : IMAGE_NT_HEADERS.
Variable img : bytes.

(** The code section's start and length, when it can hold an instruction. *)
Definition text_range (sections : list IMAGE_SECTION_HEADER) : outcome (option (Z * Z)) :=
  text ← find_code_section nt sections;
  match (text : option nat) with
  | None => Ret None
  | Some i =>
      text ← deref (sections !! i);
      let text_start := sec_VirtualAddress text in
      let text_len := if (sec_VirtualSize text =? 0) || (sec_SizeOfRawData text <? sec_VirtualSize text)
                      then sec_SizeOfRawData text else sec_VirtualSize text in
      if (UINT32_MAX <? text_len) || (UINT32_MAX - text_len <? text_start) then Ret None
      else if text_len <? 6 then Ret None
      else match pe_rva_to_ptr image_base nt text_start text_len with
           | None => Ret None
           | Some _ => Ret (Some (text_start, text_len))
           end
  end.

Definition cell_size : Z := if pe_is_pe32 nt then 4 else 8.

(** The body of the loop up to the callback: the RVA of the cell that the jump
    at text offset [off] goes through, if there is such a jump. *)
Definition jump_at (text_start off : Z) : outcome (option Z) :=
  b ← load 1 (text_start + off) img;
  if negb (b =? X86_JMP_RIP) then Ret None
  else
    mod_ ← load 1 (text_start + (off + 1)) img;
    if (if pe_is_pe32 nt then negb (mod_ =? 0x15) && negb (mod_ =? 0x25) else negb (mod_ =? 0x25))
    then Ret None
    else
      d ← load 4 (text_start + (off + 2)) img;
      let disp := i32 d in
      let target_rva :=
        if pe_is_pe32 nt then u32 (u32 disp - u32 image_base)
        else u64 (u64 (u64 (text_start + off) + 6) + u64 disp) in
      if (UINT32_MAX <? target_rva) ||
         negb (pe_rva_range_is_valid target_rva cell_size (pe_size_of_image nt))
      then Ret None else Ret (Some target_rva).

Section callback.
Context {U : Type}.
(** The callback: the new user data and whether to continue. *)
Variable cb : U -> Z -> Z -> outcome (U * bool).

Fixpoint scan_loop (text_start : Z) (todo : nat) (off : Z) (st : U) (count : Z) : outcome (U * Z) :=
  match todo with
  | O => Ret (st, count)
  | S todo =>
      t ← jump_at text_start off;
      match (t : option Z) with
      | None => scan_loop text_start todo (off + 1) st count
      | Some rva =>
          '(st, continue) ← cb st off rva;
          if (continue : bool) then scan_loop text_start todo (off + 1) st (count + 1)
          else Ret (st, count)
      end
  end.

Definition _scan_rip_jumps (sections : list IMAGE_SECTION_HEADER) (st : U) : outcome (U * Z) :=
  r ← text_range sections;
  match (r : option (Z * Z)) with
  | None => Ret (st, 0)
  | Some (text_start, text_size) => scan_loop text_start (Z.to_nat (text_size - 5)) 0 st 0
  end.
End callback.

(** The targets collected so far: new ones are appended while there is room. *)
Definition rip_scan_collect_cb (max_targets : Z) (targets : list Z) (offset target_rva : Z)
  : outcome (list Z * bool) :=
  if existsb (fun t => t =? target_rva) targets then Ret (targets, true)
  else if Z.of_nat (length targets) <? max_targets then Ret (targets ++ [target_rva], true)
  else Ret (targets, true).

Definition scan_rip_relative_jumps (sections : list IMAGE_SECTION_HEADER) (max_targets : Z)
  : outcome (list Z) :=
  '(targets, _) ← _scan_rip_jumps (rip_scan_collect_cb max_targets) sections [];
  insertion_sort (fun a b => b <? a) targets.

(** The RVA of the jump, once it is found. *)
Definition rip_scan_find_cb (text_start target_val : Z) (result : option Z) (offset target_rva : Z)
  : outcome (option Z * bool) :=
  match pe_rva_to_ptr image_base nt (u32 target_rva) cell_size with
  | None => Ret (result, true)
  | Some p =>
      v ← load (Z.to_nat cell_size) p img;
      if v =? (if pe_is_pe32 nt then u32 target_val else target_val)
      then Ret (pe_rva_to_ptr image_base nt (u32 (text_start + offset)) 1, false)
      else Ret (result, true)
  end.

Definition find_rip_relative_jump_to (sections : list IMAGE_SECTION_HEADER) (target_addr : Z)
  : outcome (option Z) :=
  text ← find_code_section nt sections;
  match (text : option nat) with
  | None => Ret None
  | Some i =>
      text ← deref (sections !! i);
      '(result, _) ← _scan_rip_jumps (rip_scan_find_cb (sec_VirtualAddress text) target_addr) sections None;
      Ret result
  end.
End scan.

(** ** What the scan finds *)

Section correct.
Variable image_base : Z.
Variable nt : IMAGE_NT_HEADERS.
Variable img : bytes.
Hypothesis Hwf : wf_bytes img.
Hypothesis Hsize : pe_size_of_image nt <= blen img.

(** An indirect jump at [pos] through the cell at [rva]. *)
Record is_jump (pos rva : Z) : Prop := {
  ij_opcode : fld pos 1 img = 0xFF;
  ij_mod : fld (pos + 1) 1 img = 0x25 \/ pe_is_pe32 nt = true /\ fld (pos + 1) 1 img = 0x15;
  ij_rva : rva = (if pe_is_pe32 nt then u32 (fld (pos + 2) 4 img - image_base)
                  else u64 (pos + 6 + i32 (fld (pos + 2) 4 img)));
  ij_cell : rva <= UINT32_MAX /\ rva + cell_size nt <= pe_size_of_image nt
}.

Lemma wrap_sum3 a b c : u64 (u64 (u64 a + b) + u64 c) = u64 (a + b + c).
Proof. width_lia. Qed.

Lemma wrap_disp d : in_u 32 d -> u32 (u32 (i32 d) - u32 image_base) = u32 (d - image_base).
Proof.
  intros Hd. width_lia.
Qed.

Lemma load_fld n off :
  0 <= off -> off + Z.of_nat n <= pe_size_of_image nt -> load n off img = Ret (fld off (Z.of_nat n) img).
Proof. intros. apply load_ok. apply in_range_spec. lia. Qed.

Lemma jump_at_spec start off :
  0 <= start -> 0 <= off -> start + off + 6 <= pe_size_of_image nt ->
  exists o, jump_at image_base nt img start off = Ret o /\
    forall rva, o = Some rva <-> is_jump (start + off) rva.
Proof.
  intros Hs Ho He. unfold jump_at. rewrite !load_fld by lia. cbn [mbind outcome_bind].
  rewrite !(Z.add_assoc start off). change (Z.of_nat 1) with 1. change (Z.of_nat 4) with 4.
  destruct (Z.eqb_spec (fld (start + off) 1 img) X86_JMP_RIP) as [Eop|Eop]; cbn [negb].
  2: { exists None. split; [done|]. intros rva. split; [done|]. by intros [H _ _ _]. }
  set (mod_ := fld (start + off + 1) 1 img). set (d := fld (start + off + 2) 4 img).
  assert (Hd : in_u 32 d) by by apply fld4.
  rewrite wrap_sum3, (wrap_disp d Hd).
  set (rva0 := if pe_is_pe32 nt then u32 (d - image_base) else u64 (start + off + 6 + i32 d)).
  assert (Hr0 : 0 <= rva0) by (unfold rva0; destruct (pe_is_pe32 nt); width_lia).
  assert (Hc : 0 <= cell_size nt) by (unfold cell_size; destruct (pe_is_pe32 nt); lia).
  destruct (if pe_is_pe32 nt then negb (mod_ =? 21) && negb (mod_ =? 37) else negb (mod_ =? 37)) eqn:Em.
  { exists None. split; [done|]. intros rva. split; [done|]. intros [_ H _ _]. fold mod_ in H.
    destruct (pe_is_pe32 nt); lia. }
  assert (Hm : mod_ = 0x25 \/ pe_is_pe32 nt = true /\ mod_ = 0x15)
    by (destruct (pe_is_pe32 nt); lia).
  destruct ((UINT32_MAX <? rva0) || negb (pe_rva_range_is_valid rva0 (cell_size nt) (pe_size_of_image nt))) eqn:Ev.
  - exists None. split; [done|]. intros rva. split; [done|]. intros [_ _ -> [H1 H2]].
    change (rva0 <= UINT32_MAX) in H1. change (rva0 + cell_size nt <= pe_size_of_image nt) in H2.
    apply rva_range_valid_spec in H2; [|lia..]. rewrite H2 in Ev. lia.
  - exists (Some rva0). split; [done|]. apply orb_false_iff in Ev as [E1 E2%negb_false_iff].
    apply rva_range_valid_spec in E2; [|lia..]. intros rva. split.
    + intros [= <-]. by split; [| | |split; [lia|]].
    + intros [_ _ -> _]. done.
Qed.

(** *** Collecting *)

Lemma collect_cb_spec max st off rva :
  exists st', rip_scan_collect_cb max st off rva = Ret (st', true) /\
    (NoDup st -> NoDup st') /\ (Z.of_nat (length st) <= max -> Z.of_nat (length st') <= max) /\
    (length st <= length st')%nat /\ (forall x, x ∈ st' -> x ∈ st \/ x = rva) /\
    (forall x, x ∈ st -> x ∈ st') /\ (Z.of_nat (length st') < max -> rva ∈ st').
Proof.
  unfold rip_scan_collect_cb. destruct (existsb _ st) eqn:E.
  - exists st. split_and!; auto. intros _. apply existsb_exists in E as (x & Hx & ->%Z.eqb_eq).
    by apply list_elem_of_In.
  - assert (Hn : rva ∉ st).
    { intros Hin. apply not_true_iff_false in E. apply E, existsb_exists. exists rva.
      split; [by apply list_elem_of_In|lia]. }
    destruct (Z.ltb_spec (Z.of_nat (length st)) max).
    + exists (st ++ [rva]). rewrite length_app. simpl. split_and!; [done| |lia|lia|set_solver|set_solver|set_solver].
      intros Hd. apply NoDup_app. split_and!; [done|set_solver|apply NoDup_singleton].
    + exists st. split_and!; auto. lia.
Qed.

Lemma collect_loop_spec max start : 0 <= start -> forall todo off st count,
  0 <= off -> start + off + Z.of_nat todo + 5 <= pe_size_of_image nt ->
  exists st' c, scan_loop image_base nt img (rip_scan_collect_cb max) start todo off st count = Ret (st', c) /\
    (NoDup st -> NoDup st') /\ (Z.of_nat (length st) <= max -> Z.of_nat (length st') <= max) /\
    (length st <= length st')%nat /\ (forall x, x ∈ st -> x ∈ st') /\
    (forall x, x ∈ st' -> x ∈ st \/ exists o, off <= o < off + Z.of_nat todo /\ is_jump (start + o) x) /\
    (Z.of_nat (length st') < max ->
     forall o x, off <= o < off + Z.of_nat todo -> is_jump (start + o) x -> x ∈ st').
Proof.
  intros Hs. induction todo as [|todo IH]; intros off st count Ho He; cbn [scan_loop].
  { exists st, count. split_and!; auto. intros; lia. }
  destruct (jump_at_spec start off Hs Ho ltac:(lia)) as (o & -> & Hj). cbn [mbind outcome_bind].
  assert (Hrange : forall x, off <= x < off + Z.of_nat (S todo) <->
    x = off \/ off + 1 <= x < off + 1 + Z.of_nat todo) by lia.
  destruct o as [rva|].
  - destruct (collect_cb_spec max st off rva) as (st1 & -> & N1 & M1 & L1 & I1 & K1 & C1).
    cbn [mbind outcome_bind].
    destruct (IH (off + 1) st1 (count + 1) ltac:(lia) ltac:(lia)) as (st2 & c & -> & N2 & M2 & L2 & K2 & I2 & C2).
    exists st2, c. split_and!; auto; [lia| |].
    + intros x Hx. apply I2 in Hx as [Hx|(y & Hy & Hx)]; [|right; exists y; split; [lia|done]].
      apply I1 in Hx as [Hx| ->]; [by left|right]. exists off. split; [lia|]. by apply Hj.
    + intros Hlt y x Hy Hx. apply Hrange in Hy as [->|Hy]; [|by eapply C2].
      apply Hj in Hx as [= ->]. apply K2, C1. lia.
  - destruct (IH (off + 1) st count ltac:(lia) ltac:(lia)) as (st2 & c & -> & N2 & M2 & L2 & K2 & I2 & C2).
    exists st2, c. split_and!; auto.
    + intros x Hx. apply I2 in Hx as [Hx|(y & Hy & Hx)]; [by left|right; exists y; split; [lia|done]].
    + intros Hlt y x Hy Hx. apply Hrange in Hy as [->|Hy]; [|by eapply C2]. by apply Hj in Hx.
Qed.

Lemma text_range_inside sections start len :
  Forall wf_IMAGE_SECTION_HEADER sections ->
  text_range image_base nt sections = Ret (Some (start, len)) ->
  0 <= start /\ 6 <= len /\ start + len <= UINT32_MAX /\ start + len <= pe_size_of_image nt.
Proof.
  intros Hw H. unfold text_range in H. destruct (find_code_section nt sections) as [[i|]| |]; [|done..].
  cbn [mbind outcome_bind] in H. destruct (sections !! i) as [t|] eqn:Ei; [|done].
  cbn [deref mbind outcome_bind] in H.
  destruct (Forall_lookup_1 _ _ _ _ Hw Ei) as (_ & _ & Hv & Ha & Hr & _). unfold in_u in *.
  set (n := if (sec_VirtualSize t =? 0) || _ then sec_SizeOfRawData t else _) in H.
  assert (Hn : 0 <= n) by (unfold n; case_goal; lia).
  destruct ((UINT32_MAX <? n) || (UINT32_MAX - n <? sec_VirtualAddress t)) eqn:E1; [done|].
  destruct (n <? 6) eqn:E2; [done|].
  destruct (pe_rva_to_ptr image_base nt (sec_VirtualAddress t) n) as [p|] eqn:Ep; [|done].
  apply pe_rva_to_ptr_Some in Ep as (_ & _ & Ep); [|lia..].
  assert (start = sec_VirtualAddress t /\ len = n) as [-> ->] by (split; congruence). lia.
Qed.

(** The scan returns whenever the code section can be determined. *)
Lemma scan_rip_relative_jumps_returns sections o max :
  Forall wf_IMAGE_SECTION_HEADER sections -> text_range image_base nt sections = Ret o ->
  exists targets, scan_rip_relative_jumps image_base nt img sections max = Ret targets.
Proof.
  intros Hw Ht. unfold scan_rip_relative_jumps, _scan_rip_jumps. rewrite Ht. cbn [mbind outcome_bind].
  assert (Hs : forall st, exists t, insertion_sort (fun a b => b <? a) st = Ret t).
  { intros st. destruct (insertion_sort_spec (fun a b => b <? a) (fun _ => True)) with (t := st) as (t & E & _);
      [intros; lia|intros; lia|by apply Forall_true|]. eauto. }
  destruct o as [[start len]|]; [|apply Hs].
  destruct (text_range_inside _ _ _ Hw Ht) as (H0 & H6 & _ & Hi).
  destruct (collect_loop_spec max start H0 (Z.to_nat (len - 5)) 0 [] 0 ltac:(lia) ltac:(lia))
    as (st & c & -> & _). cbn [mbind outcome_bind]. apply Hs.
Qed.

Lemma find_code_section_returns sections :
  (Z.to_nat (pe_section_count nt) <= length sections)%nat ->
  exists r, find_code_section nt sections = Ret r /\ forall i, r = Some i -> is_Some (sections !! i).
Proof.
  intros Hl. unfold find_code_section. destruct (_ =? _); [by exists None|].
  assert (Hf : forall p, exists r, find_section_loop p sections (Z.to_nat (pe_section_count nt)) 0 = Ret r /\
    forall i, r = Some i -> is_Some (sections !! i)).
  { intros p. rewrite find_section_loop_eq by lia. eexists. split; [done|]. intros i Hi.
    destruct (list_find _ _) as [[j x]|] eqn:E; [|done]. cbn in Hi. injection Hi as <-.
    apply list_find_Some in E as (E & _). rewrite lookup_take_Some, lookup_drop in E. naive_solver. }
  assert (Hn : forall names, exists r, find_code_by_names names sections (Z.to_nat (pe_section_count nt)) = Ret r /\
    forall i, r = Some i -> is_Some (sections !! i)).
  { induction names as [|n names IH]; cbn [find_code_by_names]; [by exists None|].
    destruct (Hf (section_name_matches n)) as ([i|] & -> & Hi); cbn [mbind outcome_bind]; [by exists (Some i)|done]. }
  destruct (Hn code_names) as ([i|] & -> & Hi); cbn [mbind outcome_bind]; [by exists (Some i)|apply Hf].
Qed.

Lemma text_range_returns sections :
  (Z.to_nat (pe_section_count nt) <= length sections)%nat ->
  exists o, text_range image_base nt sections = Ret o.
Proof.
  intros Hl. unfold text_range. destruct (find_code_section_returns sections Hl) as ([i|] & -> & Hi);
    cbn [mbind outcome_bind]; [|eauto].
  destruct (Hi i eq_refl) as [s ->]. cbn [deref mbind outcome_bind]. repeat case_goal; eauto.
Qed.

(** *** Theorems *)

(** The targets are the cells of the jumps in the code section, in ascending
    order, each once; all of them unless the array is full. *)
Theorem scan_rip_relative_jumps_correct sections start len max :
  Forall wf_IMAGE_SECTION_HEADER sections -> 0 <= max ->
  text_range image_base nt sections = Ret (Some (start, len)) ->
  exists targets, scan_rip_relative_jumps image_base nt img sections max = Ret targets /\
    (forall i j a b, (i < j)%nat -> targets !! i = Some a -> targets !! j = Some b -> a < b) /\
    Z.of_nat (length targets) <= max /\
    (forall x, x ∈ targets -> exists off, 0 <= off <= len - 6 /\ is_jump (start + off) x) /\
    (Z.of_nat (length targets) < max ->
     forall off x, 0 <= off <= len - 6 -> is_jump (start + off) x -> x ∈ targets).
Proof.
  intros Hw Hmax Ht. destruct (text_range_inside _ _ _ Hw Ht) as (H0 & H6 & _ & Hi).
  unfold scan_rip_relative_jumps, _scan_rip_jumps. rewrite Ht. cbn [mbind outcome_bind].
  destruct (collect_loop_spec max start H0 (Z.to_nat (len - 5)) 0 [] 0 ltac:(lia) ltac:(lia))
    as (st & c & -> & N & M & _ & _ & I & C). cbn [mbind outcome_bind].
  destruct (insertion_sort_spec (fun a b => b <? a) (fun _ => True)) with (t := st)
    as (t' & -> & S & Pm); [intros; lia|intros; lia|by apply Forall_true|].
  assert (Hl : length t' = length st) by by rewrite Pm.
  exists t'. split_and!; [done| |rewrite Hl; apply M; simpl; lia| |].
  - intros i j a b Hij Ha Hb. specialize (S i j a b Hij Ha Hb). simpl in S.
    assert (a <> b); [|lia]. intros ->.
    assert (Nt : NoDup t') by (rewrite Pm; apply N, NoDup_nil_2).
    assert (i = j) by (eapply NoDup_lookup; eauto). lia.
  - intros x Hx. rewrite Pm in Hx. apply I in Hx as [Hx|(o & Ho & Hx)]; [by apply not_elem_of_nil in Hx|].
    exists o. split; [lia|done].
  - intros Hlt off x Ho Hx. rewrite Pm. apply (C ltac:(lia) off); [lia|done].
Qed.

(** The first jump through a cell that holds the address: its RVA. *)
Definition holds (target_addr rva : Z) : Prop :=
  fld rva (cell_size nt) img = (if pe_is_pe32 nt then u32 target_addr else target_addr).

Lemma find_jump_loop_spec start target : image_base <> 0 -> 0 <= start -> forall todo off count,
  0 <= off -> start + off + Z.of_nat todo + 5 <= pe_size_of_image nt ->
  start + off + Z.of_nat todo <= UINT32_MAX ->
  exists r c, scan_loop image_base nt img (rip_scan_find_cb image_base nt img start target) start todo off None count
      = Ret (r, c) /\
    match r with
    | Some p => exists o rva, p = start + o /\ off <= o < off + Z.of_nat todo /\
        is_jump (start + o) rva /\ holds target rva /\
        forall o' rva', off <= o' < o -> is_jump (start + o') rva' -> ~ holds target rva'
    | None => forall o rva, off <= o < off + Z.of_nat todo -> is_jump (start + o) rva -> ~ holds target rva
    end.
Proof.
  intros Hb Hs. induction todo as [|todo IH]; intros off count Ho He Hu; cbn [scan_loop].
  { exists None, count. split; [done|]. intros; lia. }
  destruct (jump_at_spec start off Hs Ho ltac:(lia)) as (o & -> & Hj). cbn [mbind outcome_bind].
  destruct (IH (off + 1) (match o with Some _ => count + 1 | None => count end) ltac:(lia) ltac:(lia) ltac:(lia)) as (r & c & Er & Hr).
  assert (Hskip : (forall rva, is_jump (start + off) rva -> ~ holds target rva) ->
    match r with
    | Some p => exists o rva, p = start + o /\ off <= o < off + Z.of_nat (S todo) /\
        is_jump (start + o) rva /\ holds target rva /\
        forall o' rva', off <= o' < o -> is_jump (start + o') rva' -> ~ holds target rva'
    | None => forall o rva, off <= o < off + Z.of_nat (S todo) -> is_jump (start + o) rva -> ~ holds target rva
    end).
  { intros Hno. destruct r as [p|].
    - destruct Hr as (o1 & rva & -> & H1 & H2 & H3 & H4). exists o1, rva. split_and!; [done|lia|lia|done|done|].
      intros o' rva' Ho'. destruct (decide (o' = off)) as [->|]; [by apply Hno|apply H4; lia].
    - intros o1 rva Ho1. destruct (decide (o1 = off)) as [->|]; [by apply Hno|apply Hr; lia]. }
  destruct o as [rva|].
  2: { exists r, c. split; [exact Er|]. apply Hskip. intros rva Hx. by apply Hj in Hx. }
  pose proof (proj1 (Hj rva) eq_refl) as Hjr. destruct (ij_cell _ _ Hjr) as [Hc1 Hc2].
  assert (Hc : 0 < cell_size nt) by (unfold cell_size; destruct (pe_is_pe32 nt); lia).
  assert (Hr0 : 0 <= rva) by (rewrite (ij_rva _ _ Hjr); destruct (pe_is_pe32 nt); width_lia).
  unfold rip_scan_find_cb. unfold UINT32_MAX in *. rewrite (wrap_small 32 rva) by lia.
  rewrite (proj2 (pe_rva_to_ptr_Some image_base nt rva (cell_size nt) rva ltac:(lia) ltac:(lia))) by done.
  rewrite load_fld by lia. cbn [mbind outcome_bind]. rewrite Z2Nat.id by lia.
  assert (Hu1 : forall x, is_jump (start + off) x -> x = rva).
  { intros x Hx. apply Hj in Hx. congruence. }
  destruct (Z.eqb_spec (fld rva (cell_size nt) img) (if pe_is_pe32 nt then u32 target else target)) as [E|E].
  - rewrite (wrap_small 32 (start + off)) by lia.
    rewrite (proj2 (pe_rva_to_ptr_Some image_base nt (start + off) 1 (start + off) ltac:(lia) ltac:(lia)))
      by (split_and!; [done|done|lia]). cbn [mbind outcome_bind].
    eexists _, _. split; [done|]. exists off, rva. split_and!; [done|lia|lia|done|done|]. intros; lia.
  - exists r, c. split; [exact Er|]. apply Hskip. intros x Hx. rewrite (Hu1 x Hx). exact E.
Qed.

(** find_rip_relative_jump_to finds the first jump in the code section through a
    cell that holds the address, and nothing when there is none. *)
Theorem find_rip_relative_jump_to_correct sections start len target :
  Forall wf_IMAGE_SECTION_HEADER sections -> image_base <> 0 ->
  text_range image_base nt sections = Ret (Some (start, len)) ->
  exists r, find_rip_relative_jump_to image_base nt img sections target = Ret r /\
    match r with
    | Some p => exists off rva, p = start + off /\ 0 <= off <= len - 6 /\
        is_jump (start + off) rva /\ holds target rva /\
        forall off' rva', 0 <= off' < off -> is_jump (start + off') rva' -> ~ holds target rva'
    | None => forall off rva, 0 <= off <= len - 6 -> is_jump (start + off) rva -> ~ holds target rva
    end.
Proof.
  intros Hw Hb Ht. destruct (text_range_inside _ _ _ Hw Ht) as (H0 & H6 & Hu & Hi).
  pose proof Ht as Ht'. unfold text_range in Ht'. unfold find_rip_relative_jump_to.
  destruct (find_code_section nt sections) as [[i|]| |] eqn:Ec; [|done..].
  cbn [mbind outcome_bind] in Ht' |- *. destruct (sections !! i) as [t|] eqn:Ei; [|done].
  cbn [deref mbind outcome_bind] in Ht' |- *.
  assert (start = sec_VirtualAddress t) as <- by (repeat case_hyp Ht'; simplify_eq; done).
  unfold _scan_rip_jumps. rewrite Ht. cbn [mbind outcome_bind].
  destruct (find_jump_loop_spec start target Hb H0 (Z.to_nat (len - 5)) 0 0 ltac:(lia) ltac:(lia) ltac:(unfold UINT32_MAX in *; lia))
    as (r & c & -> & Hr). cbn [mbind outcome_bind]. exists r. split; [done|]. destruct r as [p|].
  - destruct Hr as (o & rva & -> & H1 & H2 & H3 & H4). exists o, rva. split_and!; [done|lia|lia|done|done|]. auto.
  - intros off rva Ho. apply Hr. lia.
Qed.
End correct.

(** ** A concrete image

    One jump at RVA 0x10 through the cell at 0x20, which holds 0x1234. *)
Definition jump_nt : IMAGE_NT_HEADERS := sample_nt64 0x140000000 0x40 0x10 1 0x22 no_dirs.
Definition jump_secs : list IMAGE_SECTION_HEADER := [sample_section ".text" 12 0x10 12 0x200 0x60000020]%string.
Definition jump_img : bytes :=
  replicate 16 0 ++ [0xFF; 0x25] ++ le_split 4 0xA ++ replicate 10 0 ++ le_split 8 0x1234 ++ replicate 24 0.

Lemma jump_img_wf : wf_bytes jump_img.
Proof. apply wf_bytesb_spec. vm_compute. reflexivity. Qed.
Lemma jump_secs_wf : Forall wf_IMAGE_SECTION_HEADER jump_secs.
Proof.
  apply Forall_cons. split; [|by apply Forall_nil]. unfold wf_IMAGE_SECTION_HEADER. solve_wf.
Qed.
Lemma jump_size : pe_size_of_image jump_nt <= blen jump_img.
Proof. vm_compute. discriminate. Qed.

Lemma scan_rip_relative_jumps_correct_witness :
  exists targets, scan_rip_relative_jumps 0x140000000 jump_nt jump_img jump_secs 256 = Ret targets /\
    targets = [0x20] /\
    (forall x, x ∈ targets -> exists off, 0 <= off <= 12 - 6 /\ is_jump 0x140000000 jump_nt jump_img (0x10 + off) x).
Proof.
  destruct (scan_rip_relative_jumps_correct 0x140000000 jump_nt jump_img jump_img_wf jump_size jump_secs
              0x10 12 256 jump_secs_wf) as (t & E & _ & _ & H & _); [done|vm_compute; reflexivity|].
  exists t. split; [exact E|]. split; [|exact H].
  enough (Ret t = Ret [0x20]) by congruence. rewrite <- E. vm_compute. reflexivity.
Defined.

Lemma find_rip_relative_jump_to_correct_witness :
  exists r, find_rip_relative_jump_to 0x140000000 jump_nt jump_img jump_secs 0x1234 = Ret r /\ r = Some 0x10.
Proof.
  destruct (find_rip_relative_jump_to_correct 0x140000000 jump_nt jump_img jump_img_wf jump_size jump_secs
              0x10 12 0x1234 jump_secs_wf) as (r & E & _); [done|vm_compute; reflexivity|].
  exists r. split; [exact E|]. enough (Ret r = Ret (Some 0x10)) by congruence.
  rewrite <- E. vm_compute. reflexivity.
Defined.
