(* ===== verification/ImportResolve.v ===== *)
(** * Resolving the imports of a mapped image (src/loader/import_resolve.c,
      src/loader/import_flat.c)

    Pass 1 walks the import descriptors and stores the resolved address of every
    thunk in the import address table.  Pass 2 (PE32+) scans the code for jumps
    through cells, builds the flat list of imports and patches cells with three
    strategies.  Memory is the byte buffer of the image: descriptors, names and
    thunks are read again at every use, as the code does.  The resolver is a
    parameter here and is resolve_loader_import in the composed definitions. *)
From S2P Require Import Prelude Bytes CStr PeStructs TestImages PePriv PeHeaders RipScan.
From S2P Require Import ModuleList ExportTable OrdinalTable ImportTable.

Definition MAX_THUNK_TARGETS : Z := 256.
Definition MAX_FLAT_IMPORTS : Z := 256.
Definition sizeof_IMAGE_IMPORT_BY_NAME : Z := 3.

Section image.
Context {A : Arch}.
Variable base : Z.
Variable nt : IMAGE_NT_HEADERS.

(** image_cstr_valid of import_resolve.c. *)
Definition import_cstr_valid (img : bytes) (rva : Z) : outcome bool :=
  let image_size := pe_size_of_image nt in
  if negb (pe_rva_range_is_valid rva 1 image_size) then Ret false
  else image_cstr_loop img (Z.to_nat (image_size - rva)) rva.

Definition high_bit_mask : Z := if pe_is_pe32 nt then 0x80000000 else 0x8000000000000000.
Definition thunk_size : Z := if pe_is_pe32 nt then 4 else 8.
Definition thunk_bytes : nat := if pe_is_pe32 nt then 4 else 8.

(** Descriptor fields, read from the image. *)
Definition desc_OriginalFirstThunk (desc : Z) (img : bytes) : outcome Z := load 4 desc img.
Definition desc_Name (desc : Z) (img : bytes) : outcome Z := load 4 (desc + 12) img.
Definition desc_FirstThunk (desc : Z) (img : bytes) : outcome Z := load 4 (desc + 16) img.

(** The line of debug level 3 before a write; only the use of the 256-byte buffer
    matters.  (The line after the write consists of constants and digits and
    always fits.) *)
Definition debug_iat_write (g_debug_level idx : Z) (dll_name : cstr) (ilt iat : Z) : outcome unit :=
  if g_debug_level <? 3 then Ret tt
  else
    let digit v := 48 + v mod 10 in
    st ← put_upto 240 (lit "IAT write: idx=") (replicate 256 0, 0);
    let digits := [digit idx; digit (idx / 10); digit (idx / 100); digit (idx / 1000)] in
    buf ← store_bytes (snd st) digits (fst st);
    st ← put_upto 240 (lit ", dll=") (buf, snd st + 4);
    st ← put_upto 245 dll_name st;
    st ← put_upto 245 (lit ", ILT=0x") st;
    buf ← store_bytes (snd st) (syscall_safe_format_hex ilt 8) (fst st);
    st ← put_upto 245 (lit ", IAT=0x") (buf, snd st + 8);
    buf ← store_bytes (snd st) (syscall_safe_format_hex iat 8) (fst st);
    _ ← store_bytes (snd st + 8) [10] buf;
    Ret tt.

(** *** Pass 1 *)

Section pass1.
Variable g_debug_level : Z.
Variable resolve : cstr -> cstr -> outcome (option Z).

(** What one thunk value resolves to; [None]: the walk fails (return -1). *)
Definition thunk_address (dll_name : cstr) (thunk_val : Z) (img : bytes) : outcome (option (option Z)) :=
  if negb (Z.land thunk_val high_bit_mask =? 0) then
    let ordinal := u16 (Z.land thunk_val 0xFFFF) in
    match ordinal_lookup dll_name ordinal with
    | Some func_name => r ← resolve dll_name func_name; Ret (Some r)
    | None => Ret (Some None)
    end
  else if (UINT32_MAX - 2 <? thunk_val) ||
          negb (pe_rva_range_is_valid (u32 thunk_val) 3 (pe_size_of_image nt)) then Ret None
  else
    valid ← import_cstr_valid img (u32 (u32 thunk_val + 2));
    if negb valid then Ret None
    else
      match pe_rva_to_ptr base nt (u32 thunk_val) sizeof_IMAGE_IMPORT_BY_NAME with
      | None => Ret None
      | Some imp_name =>
          func_name ← deref (cstr_at (imp_name + 2) img);
          r ← resolve dll_name func_name; Ret (Some r)
      end.

(** The loop over the thunks of the descriptor at [desc]: the return value and
    the image; 1 stands for the break. *)
Fixpoint thunk_loop (desc name_rva ilt_rva orig_base iat_base : Z) (fuel : nat) (i : Z) (img : bytes)
  : outcome (Z * bytes) :=
  match fuel with
  | O => Fault
  | S fuel =>
      let thunk_off := usize (i * thunk_size) in
      first_thunk ← desc_FirstThunk desc img;
      if negb (thunk_off / thunk_size =? i) || (usize (-1) - thunk_size <? thunk_off) ||
         negb (pe_rva_range_is_valid ilt_rva (thunk_off + thunk_size) (pe_size_of_image nt)) ||
         negb (pe_rva_range_is_valid first_thunk (thunk_off + thunk_size) (pe_size_of_image nt))
      then Ret (-1, img)
      else
        thunk_val ← load thunk_bytes (orig_base + i * thunk_size) img;
        if thunk_val =? 0 then Ret (1, img)
        else
          dll_name ← deref (cstr_at name_rva img);
          addr ← thunk_address dll_name thunk_val img;
          match (addr : option (option Z)) with
          | None => Ret (-1, img)
          | Some None => thunk_loop desc name_rva ilt_rva orig_base iat_base fuel (i + 1) img
          | Some (Some addr) =>
              _ ← debug_iat_write g_debug_level i dll_name (base + orig_base + i * thunk_size)
                    (base + iat_base + i * thunk_size);
              img ← store thunk_bytes (iat_base + i * thunk_size) addr img;
              thunk_loop desc name_rva ilt_rva orig_base iat_base fuel (i + 1) img
          end
  end.

(** Thunks advance by at least four bytes of the image. *)
Definition thunk_fuel : nat := S (Z.to_nat (pe_size_of_image nt)).

Fixpoint desc_loop (import_rva dir_size : Z) (fuel : nat) (desc desc_offset : Z) (img : bytes)
  : outcome (Z * bytes) :=
  match fuel with
  | O => Fault
  | S fuel =>
      if dir_size <? usize (desc_offset + sizeof_IMAGE_IMPORT_DESCRIPTOR) then Ret (-1, img)
      else
        name ← desc_Name desc img;
        if name =? 0 then Ret (0, img)
        else
          valid ← import_cstr_valid img name;
          if negb valid then Ret (-1, img)
          else
            oft ← desc_OriginalFirstThunk desc img;
            first_thunk ← desc_FirstThunk desc img;
            let ilt_rva := if negb (oft =? 0) then oft else first_thunk in
            match pe_rva_to_ptr base nt ilt_rva thunk_size, pe_rva_to_ptr base nt first_thunk thunk_size with
            | Some orig_base, Some iat_base =>
                '(rc, img) ← thunk_loop desc name ilt_rva orig_base iat_base thunk_fuel 0 img;
                if rc =? -1 then Ret (-1, img)
                else
                  let desc_offset := u32 (desc_offset + sizeof_IMAGE_IMPORT_DESCRIPTOR) in
                  match pe_rva_to_ptr base nt (u32 (import_rva + desc_offset)) sizeof_IMAGE_IMPORT_DESCRIPTOR with
                  | None => Ret (-1, img)
                  | Some desc => desc_loop import_rva dir_size fuel desc desc_offset img
                  end
            | _, _ => Ret (-1, img)
            end
  end.

Definition resolve_import_pass1 (img : bytes) : outcome (Z * bytes) :=
  match pe_get_import_dir nt with
  | Fault => Fault
  | Fail => Ret (0, img)
  | Ret imp_dir =>
      if dd_Size imp_dir =? 0 then Ret (0, img)
      else if (dd_VirtualAddress imp_dir =? 0) ||
              negb (pe_rva_range_is_valid (dd_VirtualAddress imp_dir) (dd_Size imp_dir) (pe_size_of_image nt))
      then Ret (-1, img)
      else
        let import_rva := dd_VirtualAddress imp_dir in
        match pe_rva_to_ptr base nt import_rva sizeof_IMAGE_IMPORT_DESCRIPTOR with
        | None => Ret (-1, img)
        | Some desc =>
            desc_loop import_rva (dd_Size imp_dir) (S (S (Z.to_nat (dd_Size imp_dir / 20)))) desc 0 img
        end
  end.
End pass1.

(** *** Pass 2 *)

(** A name printed by the diagnostics: in the image, or a string of the loader. *)
Inductive name_ptr := InImageAt (off : Z) | StaticName (s : cstr).

Record import_flat := mkFlat {
  ilt_value : Z; resolved_addr : Z; iat_addr : Z; fl_dll_name : Z; fl_func_name : name_ptr }.

(** The headers of the section table of the image that can be read. *)
Fixpoint image_sections (off : Z) (num i : nat) (img : bytes) : list IMAGE_SECTION_HEADER :=
  match num with
  | O => []
  | S num => match section_at off i img with Ret s => s :: image_sections off num (S i) img | _ => [] end
  end.

Definition collect_thunk_targets (img : bytes) : outcome (list Z) :=
  dos ← load_bytes 0 sizeof_IMAGE_DOS_HEADER img;
  let off := get_image_sections (e_lfanew (decode_IMAGE_DOS_HEADER dos)) nt in
  scan_rip_relative_jumps base nt img (image_sections off (Z.to_nat (pe_section_count nt)) 0 img) MAX_THUNK_TARGETS.

(** The entry for thunk [i]; [None]: the function returns what it has. *)
Definition flat_entry (name_rva orig iath i val : Z) (img : bytes) : outcome (option import_flat) :=
  cell ← load thunk_bytes (iath + i * thunk_size) img;
  let entry f := Some (mkFlat val cell (base + (iath + i * thunk_size)) name_rva f) in
  if negb (Z.land val high_bit_mask =? 0) then
    dll_name ← deref (cstr_at name_rva img);
    match ordinal_lookup dll_name (u16 (Z.land val 0xFFFF)) with
    | Some f => Ret (entry (StaticName f))
    | None => Ret (entry (StaticName (lit "<ordinal>")))
    end
  else if negb (pe_is_pe32 nt) && (UINT32_MAX <? val) then Ret None
  else
    match pe_rva_to_ptr base nt (u32 val) sizeof_IMAGE_IMPORT_BY_NAME with
    | None => Ret None
    | Some p => Ret (entry (InImageAt (p + 2)))
    end.

(** The thunks of one descriptor: the entries, and whether the function returns. *)
Fixpoint flat_thunks (name_rva ilt_rva first_thunk orig iath : Z) (fuel : nat) (i : Z)
    (flat : list import_flat) (img : bytes) : outcome (list import_flat * bool) :=
  match fuel with
  | O => Fault
  | S fuel =>
      val ← load thunk_bytes (orig + i * thunk_size) img;
      if (val =? 0) || (MAX_FLAT_IMPORTS <=? Z.of_nat (length flat)) then Ret (flat, false)
      else
        let thunk_off := usize (i * thunk_size) in
        if negb (thunk_off / thunk_size =? i) || (usize (-1) - thunk_size <? thunk_off) ||
           negb (pe_rva_range_is_valid ilt_rva (thunk_off + thunk_size) (pe_size_of_image nt)) ||
           negb (pe_rva_range_is_valid first_thunk (thunk_off + thunk_size) (pe_size_of_image nt))
        then Ret (flat, true)
        else
          e ← flat_entry name_rva orig iath i val img;
          match (e : option import_flat) with
          | None => Ret (flat, true)
          | Some e => flat_thunks name_rva ilt_rva first_thunk orig iath fuel (i + 1) (flat ++ [e]) img
          end
  end.

Fixpoint flat_descs (import_rva dir_size : Z) (fuel : nat) (desc desc_offset : Z)
    (flat : list import_flat) (img : bytes) : outcome (list import_flat) :=
  match fuel with
  | O => Fault
  | S fuel =>
      if dir_size <? usize (desc_offset + sizeof_IMAGE_IMPORT_DESCRIPTOR) then Ret flat
      else
        name ← desc_Name desc img;
        if (name =? 0) || (MAX_FLAT_IMPORTS <=? Z.of_nat (length flat)) ||
           negb (pe_rva_range_is_valid name 1 (pe_size_of_image nt)) then Ret flat
        else
          oft ← desc_OriginalFirstThunk desc img;
          first_thunk ← desc_FirstThunk desc img;
          let ilt_rva := if negb (oft =? 0) then oft else first_thunk in
          match pe_rva_to_ptr base nt ilt_rva thunk_size, pe_rva_to_ptr base nt first_thunk thunk_size with
          | Some orig, Some iath =>
              '(flat, stop) ← flat_thunks name ilt_rva first_thunk orig iath thunk_fuel 0 flat img;
              if (stop : bool) then Ret flat
              else
                let desc_offset := u32 (desc_offset + sizeof_IMAGE_IMPORT_DESCRIPTOR) in
                match pe_rva_to_ptr base nt (u32 (import_rva + desc_offset)) sizeof_IMAGE_IMPORT_DESCRIPTOR with
                | None => Ret flat
                | Some desc => flat_descs import_rva dir_size fuel desc desc_offset flat img
                end
          | _, _ => Ret flat
          end
  end.

Definition build_flat_import_array (img : bytes) : outcome (list import_flat) :=
  match pe_get_import_dir nt with
  | Fault => Fault
  | Fail => Ret []
  | Ret imp_dir =>
      if (dd_VirtualAddress imp_dir =? 0) ||
         negb (pe_rva_range_is_valid (dd_VirtualAddress imp_dir) (dd_Size imp_dir) (pe_size_of_image nt))
      then Ret []
      else
        match pe_rva_to_ptr base nt (dd_VirtualAddress imp_dir) sizeof_IMAGE_IMPORT_DESCRIPTOR with
        | None => Ret []
        | Some desc =>
            flat_descs (dd_VirtualAddress imp_dir) (dd_Size imp_dir)
              (S (S (Z.to_nat (dd_Size imp_dir / 20)))) desc 0 [] img
        end
  end.

(** The strategies, on the cell at offset [target] of the image. *)
Definition strategy_resolved_overlap (current_val target : Z) (flat : list import_flat) : bool :=
  existsb (fun f => (iat_addr f =? base + target) && (resolved_addr f =? current_val)) flat.

Definition patch_first (p : import_flat -> bool) (target : Z) (flat : list import_flat) (img : bytes)
  : outcome (bool * bytes) :=
  match List.find p flat with
  | Some f => img ← store_bytes target (le_split thunk_bytes (resolved_addr f)) img; Ret (true, img)
  | None => Ret (false, img)
  end.

Definition strategy_ilt_value_match (current_val target : Z) (flat : list import_flat) (img : bytes)
  : outcome (bool * bytes) :=
  if current_val =? 0 then Ret (false, img)
  else patch_first (fun f => (iat_addr f =? base + target) && (ilt_value f =? current_val) &&
                             negb (resolved_addr f =? 0)) target flat img.

Definition strategy_ilt_offset_match (current_val target : Z) (flat : list import_flat) (img : bytes)
  : outcome (bool * bytes) :=
  if current_val =? 0 then Ret (false, img)
  else patch_first (fun f => (iat_addr f =? base + target) && negb (resolved_addr f =? 0)) target flat img.

(** The number of matches and the image. *)
Fixpoint patch_thunk_targets (targets : list Z) (flat : list import_flat) (matched : Z) (img : bytes)
  : outcome (Z * bytes) :=
  match targets with
  | [] => Ret (matched, img)
  | target :: targets =>
      if UINT32_MAX <? target then patch_thunk_targets targets flat matched img
      else
        match pe_rva_to_ptr base nt (u32 target) thunk_size with
        | None => patch_thunk_targets targets flat matched img
        | Some p =>
            current_val ← load thunk_bytes p img;
            if strategy_resolved_overlap current_val p flat
            then patch_thunk_targets targets flat (matched + 1) img
            else
              '(m2, img) ← strategy_ilt_value_match current_val p flat img;
              if (m2 : bool) then patch_thunk_targets targets flat (matched + 1) img
              else
                '(m3, img) ← strategy_ilt_offset_match current_val p flat img;
                patch_thunk_targets targets flat (if (m3 : bool) then matched + 1 else matched) img
        end
  end.

Definition resolve_import_pass2 (img : bytes) : outcome (Z * bytes) :=
  if pe_is_pe32 nt then Ret (0, img)
  else
    match pe_get_import_dir nt with
    | Fault => Fault
    | Fail => Ret (0, img)
    | Ret imp_dir =>
        if dd_Size imp_dir =? 0 then Ret (0, img)
        else
          targets ← collect_thunk_targets img;
          match targets with
          | [] => Ret (0, img)
          | _ =>
              flat ← build_flat_import_array img;
              '(_, img) ← patch_thunk_targets targets flat 0 img;
              Ret (0, img)
          end
    end.

(** Both passes, with the loader's own resolver. *)
Definition resolve_imports (g_debug_level : Z) (reg : registry) (image : nat -> bytes)
    (import_table : list import_entry_t) (img : bytes) : outcome (Z * bytes) :=
  '(rc, img) ← resolve_import_pass1 g_debug_level
                 (resolve_loader_import g_debug_level reg image import_table) img;
  if negb (rc =? 0) then Ret (-1, img) else resolve_import_pass2 img.
End image.

Definition stub_libs : list cstr :=
  [lit "kernel32.dll"; lit "ntdll.dll"; lit "msvcrt.dll"; lit "advapi32.dll"; lit "user32.dll"; lit "gdi32.dll";
   lit "winmm.dll"; lit "ddraw.dll"; lit "dsound.dll"; lit "dplay.dll"; lit "comdlg32.dll"; lit "comctl32.dll"].
Definition is_builtin_stub_library (dll_name : cstr) : bool :=
  existsb (fun l => syscall_safe_strcasecmp l dll_name =? 0) stub_libs.

(** ** Pass 2 never writes *)

Section pass2.
Context {A : Arch}.
Variable base : Z.
Variable nt : IMAGE_NT_HEADERS.
Variable img : bytes.

(** Every entry holds the value its own cell has. *)
Definition coherent (flat : list import_flat) : Prop :=
  Forall (fun f => exists off, iat_addr f = base + off /\
    load (thunk_bytes nt) off img = Ret (resolved_addr f)) flat.

Lemma flat_entry_coherent name_rva orig iath i val e :
  flat_entry base nt name_rva orig iath i val img = Ret (Some e) -> coherent [e].
Proof.
  unfold flat_entry. destruct (load _ _ _) as [cell| |] eqn:E; [|done..]. cbn [mbind outcome_bind].
  intros H. apply Forall_singleton. exists (iath + i * thunk_size nt).
  assert (iat_addr e = base + (iath + i * thunk_size nt) /\ resolved_addr e = cell) as [-> ->]; [|done].
  revert H. cbv zeta. unfold deref. repeat (case_goal; cbn [mbind outcome_bind]); intros; by simplify_eq/=.
Qed.

Lemma flat_thunks_coherent name_rva ilt ft orig iath fuel i flat flat' stop :
  coherent flat -> flat_thunks base nt name_rva ilt ft orig iath fuel i flat img = Ret (flat', stop) ->
  coherent flat'.
Proof.
  revert i flat. induction fuel as [|fuel IH]; intros i flat Hc H; cbn [flat_thunks] in H; [done|].
  destruct (load _ _ _) as [val| |]; [|done..]. cbn [mbind outcome_bind] in H.
  destruct (_ || _); [by simplify_eq|]. cbv zeta in H. destruct (_ || _); [by simplify_eq|].
  destruct (flat_entry _ _ _ _ _ _ _ _) as [[e|]| |] eqn:E; cbn [mbind outcome_bind] in H; [|by simplify_eq|done..].
  eapply IH; [|exact H]. apply Forall_app. split; [done|]. by eapply flat_entry_coherent.
Qed.

Lemma flat_descs_coherent rva size fuel desc off flat flat' :
  coherent flat -> flat_descs base nt rva size fuel desc off flat img = Ret flat' -> coherent flat'.
Proof.
  revert desc off flat. induction fuel as [|fuel IH]; intros desc off flat Hc H; cbn [flat_descs] in H; [done|].
  destruct (_ <? _); [by simplify_eq|]. destruct (desc_Name _ _) as [name| |]; [|done..].
  cbn [mbind outcome_bind] in H. destruct (_ || _); [by simplify_eq|].
  destruct (desc_OriginalFirstThunk _ _) as [oft| |]; [|done..]. cbn [mbind outcome_bind] in H.
  destruct (desc_FirstThunk _ _) as [ft| |]; [|done..]. cbn [mbind outcome_bind] in H. cbv zeta in H.
  destruct (pe_rva_to_ptr base nt (if negb (oft =? 0) then oft else ft) _) as [orig|]; [|by simplify_eq].
  destruct (pe_rva_to_ptr base nt ft _) as [iath|]; [|by simplify_eq].
  destruct (flat_thunks _ _ _ _ _ _ _ _ _ _ _) as [[fl stop]| |] eqn:E; [|done..].
  cbn [mbind outcome_bind] in H. apply flat_thunks_coherent in E; [|done].
  destruct stop; [by simplify_eq|]. destruct (pe_rva_to_ptr _ _ _ _); [|by simplify_eq]. by eapply IH.
Qed.

Lemma build_flat_coherent flat : build_flat_import_array base nt img = Ret flat -> coherent flat.
Proof.
  unfold build_flat_import_array. destruct (pe_get_import_dir nt) as [d| |]; intros H; [|by simplify_eq; constructor|done].
  destruct (_ || _); [by simplify_eq; constructor|].
  destruct (pe_rva_to_ptr _ _ _ _); [|by simplify_eq; constructor].
  eapply flat_descs_coherent; [|exact H]. constructor.
Qed.

(** The overlap test succeeds for every cell that the other strategies match. *)
Lemma no_patch (p : import_flat -> bool) cur target flat :
  coherent flat -> load (thunk_bytes nt) target img = Ret cur ->
  strategy_resolved_overlap base cur target flat = false ->
  (forall f, p f = true -> (iat_addr f =? base + target) = true) ->
  patch_first nt p target flat img = Ret (false, img).
Proof.
  intros Hc Hl Ho Hp. unfold patch_first. destruct (List.find p flat) as [f|] eqn:E; [exfalso|done].
  apply find_some in E as [Hin Hf]. specialize (Hp f Hf).
  apply not_true_iff_false in Ho. apply Ho, existsb_exists. exists f. split; [done|].
  unfold coherent in Hc. rewrite Forall_forall in Hc.
  destruct (Hc f) as (off & Ha & Hv); [by apply list_elem_of_In|].
  assert (off = target) as -> by lia. rewrite Hv in Hl. injection Hl as ->. lia.
Qed.

Lemma patch_thunk_targets_noop targets flat :
  coherent flat -> pe_size_of_image nt <= blen img -> forall matched,
  exists m, patch_thunk_targets base nt targets flat matched img = Ret (m, img).
Proof.
  intros Hc Hs. induction targets as [|target targets IH]; intros matched; cbn [patch_thunk_targets]; [eauto|].
  destruct (_ <? _) eqn:Eu; [apply IH|].
  destruct (pe_rva_to_ptr base nt (u32 target) (thunk_size nt)) as [p|] eqn:Ep; [|apply IH].
  apply pe_rva_to_ptr_Some in Ep as (_ & -> & Ep);
    [|width_lia|unfold thunk_size; destruct (pe_is_pe32 nt); lia].
  assert (Hts : Z.of_nat (thunk_bytes nt) = thunk_size nt)
    by (unfold thunk_bytes, thunk_size; by destruct (pe_is_pe32 nt)).
  assert (Hl : exists cur, load (thunk_bytes nt) (u32 target) img = Ret cur).
  { eexists. apply load_ok, in_range_spec. split; [width_lia|]. lia. }
  destruct Hl as [cur Hl]. rewrite Hl. cbn [mbind outcome_bind].
  destruct (strategy_resolved_overlap base cur (u32 target) flat) eqn:Eo; [apply IH|].
  unfold strategy_ilt_value_match, strategy_ilt_offset_match.
  destruct (cur =? 0); cbn [mbind outcome_bind]; [apply IH|].
  rewrite (no_patch _ cur) by (done || (intros f; lia)). cbn [mbind outcome_bind].
  rewrite (no_patch _ cur) by (done || (intros f; lia)). cbn [mbind outcome_bind]. apply IH.
Qed.

(** Pass 2 only reads: every cell it could patch already holds the address its
    flat entry was built from, so it returns 0 with the image unchanged. *)
Lemma pass2_reads_only targets flat :
  pe_size_of_image nt <= blen img -> pe_get_import_dir nt <> Fault ->
  collect_thunk_targets base nt img = Ret targets -> build_flat_import_array base nt img = Ret flat ->
  resolve_import_pass2 base nt img = Ret (0, img).
Proof.
  intros Hs Hd Hc Hf. unfold resolve_import_pass2. destruct (pe_is_pe32 nt); [done|].
  destruct (pe_get_import_dir nt) as [d| |]; [|done|done]. destruct (_ =? _); [done|].
  rewrite Hc. cbn [mbind outcome_bind]. destruct targets as [|t targets]; [done|].
  rewrite Hf. cbn [mbind outcome_bind].
  destruct (patch_thunk_targets_noop (t :: targets) flat (build_flat_coherent flat Hf) Hs 0) as [m ->]. done.
Qed.
End pass2.

(** ** What pass 1 does *)

Inductive import_symbol := ByName (f : cstr) | ByOrdinal (n : Z).

(** A descriptor: DLL, lookup table, address table, symbols. *)
Record import_desc := mkDesc { id_dll : cstr; id_ilt : Z; id_iat : Z; id_syms : list import_symbol }.

Section layout.
Variable nt : IMAGE_NT_HEADERS.
Local Abbreviation ts := (thunk_size nt).
Local Abbreviation size := (pe_size_of_image nt).

(** A terminated string inside the image. *)
Definition str_at (img : bytes) (rva : Z) (s : cstr) : Prop :=
  0 <= rva /\ cstr_at rva img = Some s /\ rva + blen s + 1 <= size.

(** The thunk value [v] stands for a symbol. *)
Definition sym_at (img : bytes) (v : Z) (s : import_symbol) : Prop :=
  match s with
  | ByOrdinal n => Z.land v (high_bit_mask nt) <> 0 /\ n = Z.land v 0xFFFF
  | ByName f => Z.land v (high_bit_mask nt) = 0 /\ v <= UINT32_MAX - 2 /\ str_at img (v + 2) f
  end.

(** The descriptor at [off] of the image. *)
Record desc_at (img : bytes) (off : Z) (d : import_desc) : Prop := {
  da_named : fld (off + 12) 4 img <> 0;
  da_dll : str_at img (fld (off + 12) 4 img) (id_dll d);
  da_iat : fld (off + 16) 4 img = id_iat d;
  da_ilt : id_ilt d = (if fld off 4 img =? 0 then id_iat d else fld off 4 img);
  da_ilt_fits : id_ilt d + ts * (Z.of_nat (length (id_syms d)) + 1) <= size;
  da_iat_fits : id_iat d + ts * (Z.of_nat (length (id_syms d)) + 1) <= size;
  da_syms : forall i s, id_syms d !! i = Some s ->
    fld (id_ilt d + ts * Z.of_nat i) ts img <> 0 /\
    sym_at img (fld (id_ilt d + ts * Z.of_nat i) ts img) s;
  da_end : fld (id_ilt d + ts * Z.of_nat (length (id_syms d))) ts img = 0
}.

(** The import directory lists [ds]. *)
Record lists_imports (img : bytes) (dir : IMAGE_DATA_DIRECTORY) (ds : list import_desc) : Prop := {
  li_dir : dd_VirtualAddress dir <> 0 /\ dd_VirtualAddress dir + dd_Size dir <= size /\
    20 * (Z.of_nat (length ds) + 1) <= dd_Size dir;
  li_descs : forall k d, ds !! k = Some d -> desc_at img (dd_VirtualAddress dir + 20 * Z.of_nat k) d;
  li_end : fld (dd_VirtualAddress dir + 20 * Z.of_nat (length ds) + 12) 4 img = 0
}.

(** Images that differ at most in the bytes [lo, hi). *)
Definition same_outside (lo hi : Z) (b1 b2 : bytes) : Prop :=
  length b1 = length b2 /\ forall i : nat, ~ (lo <= Z.of_nat i < hi) -> b1 !! i = b2 !! i.

(** The address tables occupy [lo, hi), disjoint from each other and from
    everything that describes the imports. *)
Record importable (img : bytes) (dir : IMAGE_DATA_DIRECTORY) (ds : list import_desc) (lo hi : Z) : Prop := {
  im_nt : wf_IMAGE_NT_HEADERS nt;
  im_img : wf_bytes img;
  im_size : size <= blen img;
  im_dir : pe_get_import_dir nt = Ret dir;
  im_table : dd_VirtualAddress dir + dd_Size dir <= lo \/ hi <= dd_VirtualAddress dir;
  im_stable : forall img', wf_bytes img' -> same_outside lo hi img img' -> lists_imports img' dir ds;
  im_cells : forall d, d ∈ ds -> 0 <= lo <= id_iat d /\
    id_iat d + ts * Z.of_nat (length (id_syms d)) <= hi <= size;
  im_apart : forall k k' d d', k <> k' -> ds !! k = Some d -> ds !! k' = Some d' ->
    id_iat d + ts * Z.of_nat (length (id_syms d)) <= id_iat d' \/
    id_iat d' + ts * Z.of_nat (length (id_syms d')) <= id_iat d
}.

(** *** Writes of whole cells *)

Definition write_cell (b : bytes) (w : Z * Z) : bytes := splice w.1 (le_split (thunk_bytes nt) w.2) b.
Definition cell_in (b : bytes) (w : Z * Z) : Prop := in_range w.1 ts (blen b) = true.

Lemma thunk_bytes_size : Z.of_nat (thunk_bytes nt) = ts.
Proof. unfold thunk_bytes, thunk_size. by destruct (pe_is_pe32 nt). Qed.
Lemma thunk_size_pos : 4 <= ts <= 8.
Proof. unfold thunk_size. destruct (pe_is_pe32 nt); lia. Qed.

Lemma blen_cell v : blen (le_split (thunk_bytes nt) v) = ts.
Proof. rewrite blen_le_split. apply thunk_bytes_size. Qed.

Lemma length_write_cell b w : cell_in b w -> length (write_cell b w) = length b.
Proof. intros H. apply length_splice. by rewrite blen_cell. Qed.

Lemma write_cell_frame b w (i : nat) :
  cell_in b w -> ~ (w.1 <= Z.of_nat i < w.1 + ts) -> write_cell b w !! i = b !! i.
Proof.
  intros Hc Hi. unfold write_cell. apply lookup_splice_out; [by rewrite blen_cell|].
  apply in_range_spec in Hc. rewrite length_le_split. pose proof thunk_bytes_size. lia.
Qed.

Lemma write_cell_value b c a : cell_in b (c, a) -> fld c ts (write_cell b (c, a)) = wrap (8 * ts) a.
Proof.
  intros Hc. unfold fld, write_cell. cbn [fst snd]. rewrite <- (blen_cell a) at 1.
  rewrite slice_splice_same by by rewrite blen_cell. rewrite le_combine_split. by rewrite thunk_bytes_size.
Qed.

Lemma write_cell_other b w c :
  cell_in b w -> 0 <= c -> c + ts <= w.1 \/ w.1 + ts <= c -> fld c ts (write_cell b w) = fld c ts b.
Proof.
  intros Hc H0 Ha. unfold fld, write_cell. f_equal. apply slice_splice_disjoint; rewrite ?blen_cell; done.
Qed.

Definition write_cells (ws : list (Z * Z)) (b : bytes) : bytes := fold_left write_cell ws b.

Lemma length_write_cells ws b :
  Forall (cell_in b) ws -> length (write_cells ws b) = length b.
Proof.
  revert b. induction ws as [|w ws IH]; intros b H; [done|]. apply Forall_cons in H as [Hw H].
  cbn [write_cells fold_left]. fold (write_cells ws (write_cell b w)).
  rewrite IH; [by apply length_write_cell|]. eapply Forall_impl; [exact H|].
  intros x. unfold cell_in, blen. by rewrite length_write_cell.
Qed.

Lemma write_cells_frame ws b (i : nat) :
  Forall (cell_in b) ws -> (forall w, w ∈ ws -> ~ (w.1 <= Z.of_nat i < w.1 + ts)) ->
  write_cells ws b !! i = b !! i.
Proof.
  revert b. induction ws as [|w ws IH]; intros b H Hi; [done|]. apply Forall_cons in H as [Hw H].
  cbn [write_cells fold_left]. fold (write_cells ws (write_cell b w)). rewrite IH.
  - apply write_cell_frame; [done|]. apply Hi. by left.
  - eapply Forall_impl; [exact H|]. intros x. unfold cell_in, blen. by rewrite length_write_cell.
  - intros x Hx. apply Hi. by right.
Qed.

(** A cell keeps its value unless it is written, and then has the last value. *)
Lemma write_cells_value ws b c (v : Z) :
  0 <= c -> Forall (cell_in b) ws ->
  (forall w, w ∈ ws -> (w.1 = c /\ wrap (8 * ts) w.2 = v) \/ c + ts <= w.1 \/ w.1 + ts <= c) ->
  fld c ts b = v \/ (exists a, (c, a) ∈ ws) -> fld c ts (write_cells ws b) = v.
Proof.
  intros Hc. revert b. induction ws as [|[c' a] ws IH]; intros b H Hw Hv.
  { destruct Hv as [Hv|[a Ha]]; [done|by apply not_elem_of_nil in Ha]. }
  apply Forall_cons in H as [Hi H]. cbn [write_cells fold_left]. fold (write_cells ws (write_cell b (c', a))).
  apply IH.
  - eapply Forall_impl; [exact H|]. intros x. unfold cell_in, blen. by rewrite length_write_cell.
  - intros w Hx. apply Hw. by right.
  - destruct (Hw (c', a)) as [[E Ev]|Ha]; [by left| |]; cbn [fst snd] in *.
    + subst c'. left. by rewrite write_cell_value.
    + destruct Hv as [Hv|[x Hx]].
      * left. by rewrite write_cell_other.
      * apply elem_of_cons in Hx as [[= -> ->]|Hx]; [pose proof thunk_size_pos; lia|]. eauto.
Qed.
End layout.

Section pass1_correct.
Context {A : Arch}.
Variable base : Z.
Variable nt : IMAGE_NT_HEADERS.
Variable g_debug_level : Z.
Variable resolve : cstr -> cstr -> outcome (option Z).
Hypothesis Hbase : base <> 0.
Hypothesis Hdebug : g_debug_level < 3.
Hypothesis Hnt : wf_IMAGE_NT_HEADERS nt.
Local Abbreviation ts := (thunk_size nt).
Local Abbreviation size := (pe_size_of_image nt).

Lemma size_range : 0 <= size < 2 ^ 32.
Proof. exact (wf_size_of_image nt Hnt). Qed.

Lemma import_dir_wf dir : pe_get_import_dir nt = Ret dir -> wf_IMAGE_DATA_DIRECTORY dir.
Proof.
  unfold pe_get_import_dir. intros H.
  destruct (pe_get_data_dir_cases nt IMAGE_DIRECTORY_ENTRY_IMPORT Hnt)
    as [E | (d' & E & _ & ?)]; [unfold IMAGE_DIRECTORY_ENTRY_IMPORT; lia|congruence..].
Qed.

(** The address of a symbol. *)
Definition sym_address (dll : cstr) (s : import_symbol) : outcome (option Z) :=
  match s with
  | ByName f => resolve dll f
  | ByOrdinal n => match ordinal_lookup dll n with Some f => resolve dll f | None => Ret None end
  end.

Lemma image_cstr_loop_true img s : forall todo off,
  0 <= off -> cstr_at off img = Some s -> blen s < Z.of_nat todo -> off + Z.of_nat todo <= blen img ->
  image_cstr_loop img todo off = Ret true.
Proof.
  induction s as [|c s IH]; intros [|todo] off H0 Hs Hl Hb; unfold blen in Hl; simpl length in Hl; try lia;
    cbn [image_cstr_loop]; unfold cstr_at in Hs;
    destruct (drop (Z.to_nat off) img) as [|x rest] eqn:Ed; [done| |done|];
    rewrite (load1_cons off img x rest H0 Ed); cbn [mbind outcome_bind]; cbn [cstr_from] in Hs;
    destruct (x =? 0) eqn:Ex.
  - done.
  - by destruct (cstr_from rest).
  - done.
  - apply IH; [lia| |unfold blen; lia|lia]. unfold cstr_at.
    replace (Z.to_nat (off + 1)) with (Z.to_nat off + 1)%nat by lia. rewrite <- drop_drop, Ed. simpl drop.
    rewrite drop_0. by destruct (cstr_from rest) as [r|]; [injection Hs as _ ->|].
Qed.

Lemma import_cstr_valid_ok img rva s :
  size <= blen img -> str_at nt img rva s -> import_cstr_valid nt img rva = Ret true.
Proof.
  intros Hs (H0 & Hc & Hf). assert (0 <= blen s) by (unfold blen; lia). unfold import_cstr_valid.
  rewrite (proj2 (rva_range_valid_spec rva 1 size H0 ltac:(lia))) by lia. cbn [negb].
  apply (image_cstr_loop_true img s); [done|done|lia|lia].
Qed.

Lemma load_cell img c :
  size <= blen img -> 0 <= c -> c + ts <= size -> load (thunk_bytes nt) c img = Ret (fld c ts img).
Proof.
  intros. rewrite load_ok by (apply in_range_spec; pose proof (thunk_bytes_size nt); lia).
  by rewrite thunk_bytes_size.
Qed.

Lemma load_field img c :
  size <= blen img -> 0 <= c -> c + 4 <= size -> load 4 c img = Ret (fld c 4 img).
Proof. intros. apply load_ok, in_range_spec. lia. Qed.

Lemma thunk_address_ok img dll v s o :
  size <= blen img -> 0 <= v -> sym_at nt img v s -> sym_address dll s = Ret o ->
  thunk_address base nt resolve dll v img = Ret (Some o).
Proof.
  intros Hs Hv Hsym Ho. pose proof size_range as Hsz. unfold thunk_address. destruct s as [f|n]; simpl in Hsym, Ho.
  - destruct Hsym as (Hm & Hu & Hstr). unfold UINT32_MAX in *. rewrite Hm. cbn [Z.eqb negb].
    pose proof Hstr as (_ & Hc & Hf). assert (0 <= blen f) by (unfold blen; lia).
    rewrite (wrap_small 32 v) by lia. rewrite (wrap_small 32 (v + 2)) by lia.
    rewrite (proj2 (rva_range_valid_spec v 3 size Hv ltac:(lia))) by lia.
    replace (_ || _) with false by lia. rewrite (import_cstr_valid_ok img (v + 2) f Hs Hstr).
    cbn [mbind outcome_bind negb]. unfold sizeof_IMAGE_IMPORT_BY_NAME.
    rewrite (proj2 (pe_rva_to_ptr_Some base nt v 3 v Hv ltac:(lia))) by (split_and!; [done|done|lia]).
    rewrite Hc. cbn [deref mbind outcome_bind]. by rewrite Ho.
  - destruct Hsym as [Hm ->]. apply Z.eqb_neq in Hm. rewrite Hm. cbn [negb].
    assert (Hl : 0 <= Z.land v 0xFFFF < 2 ^ 16).
    { change 0xFFFF with (Z.ones 16). rewrite Z.land_ones by lia. apply Z.mod_pos_bound. lia. }
    rewrite (wrap_small 16) by lia. destruct (ordinal_lookup dll (Z.land v 65535)); [by rewrite Ho|].
    by injection Ho as <-.
Qed.

(** The writes for the symbols from number [i] on. *)
Fixpoint thunk_writes (dll : cstr) (iat i : Z) (syms : list import_symbol) : list (Z * Z) :=
  match syms with
  | [] => []
  | s :: syms =>
      match sym_address dll s with Ret (Some a) => [(iat + ts * i, a)] | _ => [] end ++
      thunk_writes dll iat (i + 1) syms
  end.

Lemma thunk_writes_elem dll iat syms i w :
  w ∈ thunk_writes dll iat i syms <->
  exists j s a, syms !! j = Some s /\ sym_address dll s = Ret (Some a) /\
    w = (iat + ts * (i + Z.of_nat j), a).
Proof.
  revert i. induction syms as [|s syms IH]; intros i; cbn [thunk_writes].
  { split; [by intros ?%not_elem_of_nil|]. by intros (j & s & a & H & _). }
  rewrite elem_of_app, IH. split.
  - intros [H|(j & s' & a & H1 & H2 & ->)].
    + destruct (sym_address dll s) as [[a|]| |] eqn:E; try by apply not_elem_of_nil in H.
      apply list_elem_of_singleton in H as ->. exists 0%nat, s, a. by rewrite Z.add_0_r.
    + exists (S j), s', a. split_and!; [done|done|]. do 2 f_equal. lia.
  - intros ([|j] & s' & a & H1 & H2 & ->); simplify_eq/=.
    + left. rewrite H2. rewrite Z.add_0_r. by left.
    + right. exists j, s', a. split_and!; [done|done|]. f_equal. f_equal. lia.
Qed.

Section run.
Variables (img : bytes) (dir : IMAGE_DATA_DIRECTORY) (ds : list import_desc) (lo hi : Z).
Hypothesis Him : importable nt img dir ds lo hi.
Hypothesis Hres : forall d s, d ∈ ds -> s ∈ id_syms d -> exists o, sym_address (id_dll d) s = Ret o.
Local Abbreviation va := (dd_VirtualAddress dir).

(** The images that occur on the way. *)
Definition good (b : bytes) : Prop := wf_bytes b /\ same_outside lo hi img b.

Lemma good_img : good img.
Proof. split; [apply (im_img _ _ _ _ _ _ Him)|by split]. Qed.

Lemma good_lists b : good b -> lists_imports nt b dir ds.
Proof. intros [Hw Hs]. by apply (im_stable _ _ _ _ _ _ Him). Qed.

Lemma good_size b : good b -> size <= blen b.
Proof. intros [_ [L _]]. pose proof (im_size _ _ _ _ _ _ Him). unfold blen in *. lia. Qed.

Lemma good_write b d i a :
  good b -> d ∈ ds -> (i < length (id_syms d))%nat ->
  cell_in nt b (id_iat d + ts * Z.of_nat i, a) /\ good (write_cell nt b (id_iat d + ts * Z.of_nat i, a)).
Proof.
  intros Hg Hd Hi. pose proof (good_size b Hg) as Hs. pose proof (thunk_size_pos nt) as Ht.
  destruct (im_cells _ _ _ _ _ _ Him d Hd) as [Hlo Hhi].
  assert (Hc : cell_in nt b (id_iat d + ts * Z.of_nat i, a)) by (apply in_range_spec; cbn [fst]; nia).
  split; [done|]. destruct Hg as [Hw [L Ho]]. split; [|split].
  - by apply wf_splice, wf_le_split.
  - rewrite length_write_cell by done. done.
  - intros k Hk. rewrite write_cell_frame; [by apply Ho|done|]. cbn [fst]. nia.
Qed.

Lemma good_name b k :
  good b -> (k < length ds)%nat -> fld (va + 20 * Z.of_nat k + 12) 4 b = fld (va + 20 * Z.of_nat k + 12) 4 img.
Proof.
  intros Hg Hk. destruct (li_dir _ _ _ _ (good_lists img good_img)) as (H0 & _ & H2).
  destruct (import_dir_wf dir (im_dir _ _ _ _ _ _ Him)) as [Hv _].
  unfold fld. f_equal. apply list_eq. intros i. unfold slice.
  destruct (decide (i < Z.to_nat 4)%nat); [|by rewrite !lookup_take_ge by lia].
  rewrite !lookup_take_lt, !lookup_drop by lia. symmetry. apply Hg.
  unfold in_u in Hv. destruct (im_table _ _ _ _ _ _ Him); lia.
Qed.

(** The bounds test of the thunk loops. *)
Lemma thunk_in_bounds rva (i n : Z) :
  0 <= rva -> 0 <= i <= n -> rva + ts * (n + 1) <= size ->
  usize (i * ts) = i * ts /\ i * ts / ts = i /\ (usize (-1) - ts <? i * ts) = false /\
  pe_rva_range_is_valid rva (i * ts + ts) size = true.
Proof.
  intros Hr Hi Hf. pose proof size_range as Hs. pose proof (thunk_size_pos nt) as Ht.
  assert (0 <= i * ts /\ i * ts + ts <= size) as [Hit Hit'] by nia.
  rewrite usize_u32 by lia. split_and!; [done|by apply Z.div_mul; lia| |].
  - apply Z.ltb_ge. unfold usize, ptr_bits. destruct is_my_wine32.
    + change (wrap 32 (-1)) with (2 ^ 32 - 1). lia.
    + change (wrap 64 (-1)) with (2 ^ 64 - 1). lia.
  - apply rva_range_valid_spec; [done|lia|]. nia.
Qed.

Lemma debug_quiet i dll a b : debug_iat_write g_debug_level i dll a b = Ret tt.
Proof. unfold debug_iat_write. by replace (g_debug_level <? 3) with true by lia. Qed.

Lemma desc_inside k d : ds !! k = Some d ->
  0 <= va + 20 * Z.of_nat k /\ va + 20 * Z.of_nat k + 20 <= size.
Proof.
  intros Hk. apply lookup_lt_Some in Hk.
  destruct (li_dir _ _ _ _ (good_lists img good_img)) as (H0 & H1 & H2).
  destruct (import_dir_wf dir (im_dir _ _ _ _ _ _ Him)) as [Hv _]. unfold in_u in Hv. lia.
Qed.

Lemma ilt_nonneg b k d : good b -> ds !! k = Some d -> 0 <= id_ilt d /\ 0 <= id_iat d.
Proof.
  intros Hg Hk. pose proof (li_descs _ _ _ _ (good_lists b Hg) k d Hk) as [_ _ Ei El _ _ _ _].
  pose proof (fld4 (va + 20 * Z.of_nat k) b (proj1 Hg)) as [? _].
  pose proof (fld4 (va + 20 * Z.of_nat k + 16) b (proj1 Hg)) as [? _].
  rewrite El. case_goal; lia.
Qed.

(** One iteration of the thunk loop. *)
Lemma thunk_loop_step k d b fuel i : ds !! k = Some d -> good b -> (i <= length (id_syms d))%nat ->
  let off := va + 20 * Z.of_nat k in
  let loop := thunk_loop base nt g_debug_level resolve off (fld (off + 12) 4 img) (id_ilt d) (id_ilt d) (id_iat d) in
  loop (S fuel) (Z.of_nat i) b =
  match id_syms d !! i with
  | None => Ret (1, b)
  | Some s =>
      match sym_address (id_dll d) s with
      | Ret (Some a) => loop fuel (Z.of_nat (S i)) (write_cell nt b (id_iat d + ts * Z.of_nat i, a))
      | _ => loop fuel (Z.of_nat (S i)) b
      end
  end.
Proof.
  intros Hk Hg Hi off loop. subst loop. assert (Hd : d ∈ ds) by by eapply list_elem_of_lookup_2.
  destruct (desc_inside k d Hk) as [Ho1 Ho2]. fold off in Ho1, Ho2. cbn [thunk_loop].
  pose proof (li_descs _ _ _ _ (good_lists b Hg) k d Hk) as Hda. fold off in Hda.
  pose proof (good_size b Hg) as Hs. destruct (ilt_nonneg b k d Hg Hk) as [Hn1 Hn2].
  unfold desc_FirstThunk. rewrite (load_field b (off + 16)) by lia. cbn [mbind outcome_bind].
  rewrite (da_iat _ _ _ _ Hda).
  destruct (thunk_in_bounds (id_ilt d) (Z.of_nat i) (Z.of_nat (length (id_syms d))) Hn1 ltac:(lia)
         (da_ilt_fits _ _ _ _ Hda)) as (-> & -> & -> & ->).
  destruct (thunk_in_bounds (id_iat d) (Z.of_nat i) (Z.of_nat (length (id_syms d))) Hn2 ltac:(lia)
         (da_iat_fits _ _ _ _ Hda)) as (_ & _ & _ & ->).
  rewrite Z.eqb_refl. cbn [negb orb].
  pose proof (thunk_size_pos nt) as Ht. pose proof (da_ilt_fits _ _ _ _ Hda) as Hfit.
  rewrite (load_cell b) by nia. cbn [mbind outcome_bind]. rewrite (Z.mul_comm (Z.of_nat i) ts).
  replace (Z.of_nat i + 1) with (Z.of_nat (S i)) by lia.
  destruct (id_syms d !! i) as [s|] eqn:Hsi.
  2: { apply lookup_ge_None in Hsi. replace i with (length (id_syms d)) by lia.
       by rewrite (da_end _ _ _ _ Hda). }
  pose proof (lookup_lt_Some _ _ _ Hsi) as Hlt. destruct (da_syms _ _ _ _ Hda i s Hsi) as [Hnz Hsym].
  rewrite (proj2 (Z.eqb_neq _ _) Hnz). pose proof (da_dll _ _ _ _ Hda) as (_ & Hname & _).
  pose proof (good_name b k Hg (lookup_lt_Some _ _ _ Hk)) as Hgn. fold off in Hgn. rewrite Hgn in Hname.
  rewrite Hname. cbn [deref mbind outcome_bind].
  destruct (Hres d s Hd (list_elem_of_lookup_2 _ _ _ Hsi)) as [o Eo].
  rewrite (thunk_address_ok b (id_dll d) _ s o Hs (proj1 (fld_range _ ts b (proj1 Hg) ltac:(lia))) Hsym Eo).
  cbn [mbind outcome_bind]. rewrite Eo. destruct o as [a|]; [|done].
  rewrite debug_quiet. cbn [mbind outcome_bind].
  rewrite store_ok; [done|]. rewrite thunk_bytes_size. exact (proj1 (good_write b d i a Hg Hd Hlt)).
Qed.

Lemma thunk_loop_ok k d : ds !! k = Some d ->
  let off := va + 20 * Z.of_nat k in
  forall rest i b fuel, rest = drop i (id_syms d) -> (i <= length (id_syms d))%nat ->
  (length rest < fuel)%nat -> good b ->
  exists b', thunk_loop base nt g_debug_level resolve off (fld (off + 12) 4 img) (id_ilt d) (id_ilt d) (id_iat d)
      fuel (Z.of_nat i) b = Ret (1, b') /\
    b' = write_cells nt (thunk_writes (id_dll d) (id_iat d) (Z.of_nat i) rest) b /\ good b'.
Proof.
  intros Hk off. assert (Hd : d ∈ ds) by by eapply list_elem_of_lookup_2.
  induction rest as [|s rest IH]; intros i b [|fuel] Hr Hi Hf Hg; simpl in Hf; try lia;
    unfold off; rewrite (thunk_loop_step k d b fuel i Hk Hg Hi); fold off.
  - symmetry in Hr. apply (f_equal length) in Hr. rewrite length_drop in Hr. simpl in Hr.
    rewrite lookup_ge_None_2 by lia. by exists b.
  - assert (Hsi : id_syms d !! i = Some s) by (rewrite <- (Nat.add_0_r i), <- lookup_drop, <- Hr; done).
    pose proof (lookup_lt_Some _ _ _ Hsi) as Hlt. rewrite Hsi.
    assert (Hrest : rest = drop (S i) (id_syms d)) by (rewrite (drop_S _ _ _ Hsi) in Hr; by injection Hr).
    cbn [thunk_writes]. replace (Z.of_nat i + 1) with (Z.of_nat (S i)) by lia.
    destruct (Hres d s Hd (list_elem_of_lookup_2 _ _ _ Hsi)) as [[a|] ->].
    + destruct (good_write b d i a Hg Hd Hlt) as [Hc Hg']. apply (IH (S i)); [done|lia|lia|done].
    + apply (IH (S i)); [done|lia|lia|done].
Qed.

(** All writes, in order. *)
Definition import_writes (l : list import_desc) : list (Z * Z) :=
  d ← l; thunk_writes (id_dll d) (id_iat d) 0 (id_syms d).

Lemma desc_loop_ok : forall rest k b fuel,
  rest = drop k ds -> (k <= length ds)%nat -> (length rest < fuel)%nat -> good b ->
  exists b', desc_loop base nt g_debug_level resolve va (dd_Size dir) fuel
      (va + 20 * Z.of_nat k) (20 * Z.of_nat k) b = Ret (0, b') /\
    b' = write_cells nt (import_writes rest) b /\ good b'.
Proof.
  pose proof size_range as Hsz. destruct (li_dir _ _ _ _ (good_lists img good_img)) as (H0 & H1 & H2).
  destruct (import_dir_wf dir (im_dir _ _ _ _ _ _ Him)) as [Hv Hz]. unfold in_u in Hv, Hz.
  induction rest as [|d rest IH]; intros k b [|fuel] Hr Hk Hf Hg; simpl in Hf; try lia; cbn [desc_loop].
  all: pose proof (good_size b Hg) as Hs; unfold sizeof_IMAGE_IMPORT_DESCRIPTOR.
  all: rewrite usize_u32 by lia; replace (_ <? _) with false by lia.
  all: unfold desc_Name; rewrite (load_field b (va + 20 * Z.of_nat k + 12)) by lia; cbn [mbind outcome_bind].
  - symmetry in Hr. apply (f_equal length) in Hr. rewrite length_drop in Hr. simpl in Hr.
    replace k with (length ds) by lia. rewrite (li_end _ _ _ _ (good_lists b Hg)). by exists b.
  - assert (Hkd : ds !! k = Some d) by (rewrite <- (Nat.add_0_r k), <- lookup_drop, <- Hr; done).
    pose proof (lookup_lt_Some _ _ _ Hkd) as Hlt.
    assert (Hrest : rest = drop (S k) ds) by (rewrite (drop_S _ _ _ Hkd) in Hr; by injection Hr).
    pose proof (li_descs _ _ _ _ (good_lists b Hg) k d Hkd) as Hda.
    rewrite (proj2 (Z.eqb_neq _ _) (da_named _ _ _ _ Hda)).
    rewrite (import_cstr_valid_ok b _ (id_dll d) Hs (da_dll _ _ _ _ Hda)). cbn [mbind outcome_bind negb].
    unfold desc_OriginalFirstThunk, desc_FirstThunk. rewrite !load_field by lia. cbn [mbind outcome_bind].
    rewrite (da_iat _ _ _ _ Hda), if_negb. rewrite <- (da_ilt _ _ _ _ Hda).
    destruct (ilt_nonneg b k d Hg Hkd) as [Hn1 Hn2]. pose proof (thunk_size_pos nt) as Ht.
    pose proof (da_ilt_fits _ _ _ _ Hda) as Hf1. pose proof (da_iat_fits _ _ _ _ Hda) as Hf2.
    rewrite (proj2 (pe_rva_to_ptr_Some base nt (id_ilt d) ts (id_ilt d) Hn1 ltac:(lia))) by (split_and!; [done|done|nia]).
    rewrite (proj2 (pe_rva_to_ptr_Some base nt (id_iat d) ts (id_iat d) Hn2 ltac:(lia))) by (split_and!; [done|done|nia]).
    rewrite (good_name b k Hg Hlt).
    destruct (thunk_loop_ok k d Hkd (id_syms d) 0 b (thunk_fuel nt)) as (b1 & E & Eb & Hg1);
      [done|lia|unfold thunk_fuel; nia|done|].
    change (Z.of_nat 0) with 0 in E, Eb. rewrite E. cbn [mbind outcome_bind]. change (1 =? -1) with false. cbv iota zeta.
    rewrite (wrap_small 32 (20 * Z.of_nat k + 20)) by lia. rewrite wrap_small by lia.
    rewrite (proj2 (pe_rva_to_ptr_Some base nt (va + (20 * Z.of_nat k + 20)) 20 (va + (20 * Z.of_nat k + 20))
      ltac:(lia) ltac:(lia))) by (split_and!; [done|done|lia]).
    replace (20 * Z.of_nat k + 20) with (20 * Z.of_nat (S k)) by lia.
    destruct (IH (S k) b1 fuel Hrest) as (b2 & E2 & Eb2 & Hg2); [lia|lia|done|].
    exists b2. split_and!; [exact E2| |done]. rewrite Eb2, Eb. unfold write_cells, import_writes.
    cbn [mbind list_bind]. by rewrite fold_left_app.
Qed.

Lemma import_writes_elem l w :
  w ∈ import_writes l <-> exists d j s a, d ∈ l /\ id_syms d !! j = Some s /\
    sym_address (id_dll d) s = Ret (Some a) /\ w = (id_iat d + ts * Z.of_nat j, a).
Proof.
  unfold import_writes. rewrite list_elem_of_bind. split.
  - intros (d & Hw & Hd). apply thunk_writes_elem in Hw as (j & s & a & H1 & H2 & ->). by exists d, j, s, a.
  - intros (d & j & s & a & Hd & H1 & H2 & ->). exists d. split; [|done]. apply thunk_writes_elem. by exists j, s, a.
Qed.

Lemma resolve_import_pass1_ok :
  exists b', resolve_import_pass1 base nt g_debug_level resolve img = Ret (0, b') /\
    b' = write_cells nt (import_writes ds) img /\ good b'.
Proof.
  pose proof size_range as Hsz. destruct (li_dir _ _ _ _ (good_lists img good_img)) as (H0 & H1 & H2).
  destruct (import_dir_wf dir (im_dir _ _ _ _ _ _ Him)) as [Hv Hz]. unfold in_u in Hv, Hz.
  unfold resolve_import_pass1. rewrite (im_dir _ _ _ _ _ _ Him).
  replace (dd_Size dir =? 0) with false by lia. replace (va =? 0) with false by lia.
  rewrite (proj2 (rva_range_valid_spec va (dd_Size dir) size ltac:(lia) ltac:(lia))) by lia. cbn [negb orb].
  unfold sizeof_IMAGE_IMPORT_DESCRIPTOR.
  rewrite (proj2 (pe_rva_to_ptr_Some base nt va 20 va ltac:(lia) ltac:(lia))) by (split_and!; [done|done|lia]).
  destruct (desc_loop_ok ds 0 img (S (S (Z.to_nat (dd_Size dir / 20))))) as (b' & E & H); [done|lia| |apply good_img|].
  - assert (Z.of_nat (length ds) <= dd_Size dir / 20); [|lia].
    apply Z.div_le_lower_bound; lia.
  - rewrite Z.add_0_r in E. by exists b'.
Qed.

(** *** Pass 2 on the images that occur *)

Lemma flat_entry_returns b k d i s : good b -> ds !! k = Some d -> id_syms d !! i = Some s ->
  let off := va + 20 * Z.of_nat k in
  exists e, flat_entry base nt (fld (off + 12) 4 b) (id_ilt d) (id_iat d) (Z.of_nat i)
    (fld (id_ilt d + ts * Z.of_nat i) ts b) b = Ret e.
Proof.
  intros Hg Hk Hs off. pose proof (li_descs _ _ _ _ (good_lists b Hg) k d Hk) as Hda. fold off in Hda.
  pose proof (good_size b Hg) as Hb. destruct (ilt_nonneg b k d Hg Hk) as [_ Hn].
  pose proof (thunk_size_pos nt) as Ht. pose proof (da_iat_fits _ _ _ _ Hda) as Hf.
  apply lookup_lt_Some in Hs. unfold flat_entry. rewrite (load_cell b) by nia. cbn [mbind outcome_bind]. cbv zeta.
  destruct (da_dll _ _ _ _ Hda) as (_ & -> & _). cbn [deref mbind outcome_bind].
  repeat case_goal; eauto.
Qed.

Lemma flat_thunks_returns b k d : good b -> ds !! k = Some d ->
  let off := va + 20 * Z.of_nat k in
  forall rest i flat fuel, rest = drop i (id_syms d) -> (i <= length (id_syms d))%nat -> (length rest < fuel)%nat ->
  exists r, flat_thunks base nt (fld (off + 12) 4 b) (id_ilt d) (id_iat d) (id_ilt d) (id_iat d) fuel
    (Z.of_nat i) flat b = Ret r.
Proof.
  intros Hg Hk off. pose proof (li_descs _ _ _ _ (good_lists b Hg) k d Hk) as Hda. fold off in Hda.
  pose proof (good_size b Hg) as Hb. destruct (ilt_nonneg b k d Hg Hk) as [Hn _].
  pose proof (thunk_size_pos nt) as Ht. pose proof (da_ilt_fits _ _ _ _ Hda) as Hf.
  induction rest as [|s rest IH]; intros i flat [|fuel] Hr Hi Hl; simpl in Hl; try lia; cbn [flat_thunks].
  all: rewrite (load_cell b) by nia; cbn [mbind outcome_bind]; rewrite (Z.mul_comm (Z.of_nat i) ts).
  - symmetry in Hr. apply (f_equal length) in Hr. rewrite length_drop in Hr. simpl in Hr.
    replace i with (length (id_syms d)) by lia. rewrite (da_end _ _ _ _ Hda). by eexists.
  - assert (Hsi : id_syms d !! i = Some s) by (rewrite <- (Nat.add_0_r i), <- lookup_drop, <- Hr; done).
    assert (Hrest : rest = drop (S i) (id_syms d)) by (rewrite (drop_S _ _ _ Hsi) in Hr; by injection Hr).
    destruct (_ || _); [by eexists|]. cbv zeta. destruct (_ || _); [by eexists|].
    destruct (flat_entry_returns b k d i s Hg Hk Hsi) as [e Ee]. fold off in Ee. rewrite Ee. cbn [mbind outcome_bind].
    destruct e as [e|]; [|by eexists]. replace (Z.of_nat i + 1) with (Z.of_nat (S i)) by lia.
    apply lookup_lt_Some in Hsi. apply IH; [done|lia|lia].
Qed.

Lemma flat_descs_returns b : good b -> forall rest k flat fuel,
  rest = drop k ds -> (k <= length ds)%nat -> (length rest < fuel)%nat ->
  exists r, flat_descs base nt va (dd_Size dir) fuel (va + 20 * Z.of_nat k) (20 * Z.of_nat k) flat b = Ret r.
Proof.
  intros Hg. pose proof size_range as Hsz. destruct (li_dir _ _ _ _ (good_lists b Hg)) as (H0 & H1 & H2).
  destruct (import_dir_wf dir (im_dir _ _ _ _ _ _ Him)) as [Hv Hz]. unfold in_u in Hv, Hz.
  pose proof (good_size b Hg) as Hs.
  induction rest as [|d rest IH]; intros k flat [|fuel] Hr Hk Hf; simpl in Hf; try lia; cbn [flat_descs].
  all: unfold sizeof_IMAGE_IMPORT_DESCRIPTOR; rewrite usize_u32 by lia; replace (_ <? _) with false by lia.
  all: unfold desc_Name; rewrite (load_field b (va + 20 * Z.of_nat k + 12)) by lia; cbn [mbind outcome_bind].
  - symmetry in Hr. apply (f_equal length) in Hr. rewrite length_drop in Hr. simpl in Hr.
    replace k with (length ds) by lia. rewrite (li_end _ _ _ _ (good_lists b Hg)). by eexists.
  - assert (Hkd : ds !! k = Some d) by (rewrite <- (Nat.add_0_r k), <- lookup_drop, <- Hr; done).
    assert (Hrest : rest = drop (S k) ds) by (rewrite (drop_S _ _ _ Hkd) in Hr; by injection Hr).
    pose proof (li_descs _ _ _ _ (good_lists b Hg) k d Hkd) as Hda. apply lookup_lt_Some in Hkd as Hlt.
    destruct (_ || _); [by eexists|].
    unfold desc_OriginalFirstThunk, desc_FirstThunk. rewrite !load_field by lia. cbn [mbind outcome_bind].
    rewrite (da_iat _ _ _ _ Hda), if_negb, <- (da_ilt _ _ _ _ Hda).
    destruct (ilt_nonneg b k d Hg Hkd) as [Hn1 Hn2]. pose proof (thunk_size_pos nt) as Ht.
    pose proof (da_ilt_fits _ _ _ _ Hda) as Hf1.
    destruct (pe_rva_to_ptr base nt (id_ilt d) ts) as [o|] eqn:Eo; [|by eexists].
    apply pe_rva_to_ptr_Some in Eo as (_ & -> & _); [|lia..].
    destruct (pe_rva_to_ptr base nt (id_iat d) ts) as [o|] eqn:Eo; [|by eexists].
    apply pe_rva_to_ptr_Some in Eo as (_ & -> & _); [|lia..].
    destruct (flat_thunks_returns b k d Hg Hkd (id_syms d) 0 flat (thunk_fuel nt)) as ([fl stop] & E);
      [done|lia|unfold thunk_fuel; nia|].
    change (Z.of_nat 0) with 0 in E. rewrite E. cbn [mbind outcome_bind]. destruct stop; [by eexists|].
    rewrite (wrap_small 32 (20 * Z.of_nat k + 20)) by lia. rewrite wrap_small by lia.
    destruct (pe_rva_to_ptr base nt (va + (20 * Z.of_nat k + 20)) 20) as [o|] eqn:Eo; [|by eexists].
    apply pe_rva_to_ptr_Some in Eo as (_ & -> & _); [|lia..].
    replace (20 * Z.of_nat k + 20) with (20 * Z.of_nat (S k)) by lia. apply IH; [done|lia|lia].
Qed.

Lemma build_flat_returns b : good b -> exists flat, build_flat_import_array base nt b = Ret flat.
Proof.
  intros Hg. unfold build_flat_import_array. rewrite (im_dir _ _ _ _ _ _ Him).
  destruct (li_dir _ _ _ _ (good_lists b Hg)) as (H0 & H1 & H2).
  destruct (import_dir_wf dir (im_dir _ _ _ _ _ _ Him)) as [Hv Hz]. unfold in_u in Hv, Hz.
  destruct (_ || _); [by eexists|].
  destruct (pe_rva_to_ptr _ _ _ _) as [o|] eqn:Eo; [|by eexists].
  apply pe_rva_to_ptr_Some in Eo as (_ & -> & _); [|unfold sizeof_IMAGE_IMPORT_DESCRIPTOR; lia..].
  destruct (flat_descs_returns b Hg ds 0 [] (S (S (Z.to_nat (dd_Size dir / 20))))) as [r E]; [done|lia| |].
  - assert (Z.of_nat (length ds) <= dd_Size dir / 20); [|lia]. apply Z.div_le_lower_bound; lia.
  - rewrite Z.add_0_r in E. by exists r.
Qed.

(** The section table of the image, behind 64 bytes that the address tables do
    not touch. *)
Definition section_table_inside : Prop :=
  64 <= lo /\ 64 <= size /\
  get_image_sections (e_lfanew (decode_IMAGE_DOS_HEADER (slice 0 64 img))) nt + 40 * pe_section_count nt <= size.

Lemma image_sections_ok b off num i :
  wf_bytes b -> 0 <= off -> off + 40 * Z.of_nat (i + num) <= blen b ->
  length (image_sections off num i b) = num /\ Forall wf_IMAGE_SECTION_HEADER (image_sections off num i b).
Proof.
  intros Hw Ho. revert i. induction num as [|num IH]; intros i Hb; cbn [image_sections]; [by split|].
  destruct (section_at off i b) as [s| |] eqn:E;
    [|by rewrite section_at_ok in E by (apply in_range_spec; lia)..].
  destruct (IH (S i)) as [L F]; [lia|]. cbn [length]. split; [lia|]. apply Forall_cons. split; [|done].
  by eapply section_at_wf.
Qed.

Lemma collect_returns b : section_table_inside -> good b -> exists t, collect_thunk_targets base nt b = Ret t.
Proof.
  intros (Hlo & H64 & Ht) Hg. pose proof (good_size b Hg) as Hs. unfold collect_thunk_targets.
  rewrite load_bytes_ok by (apply in_range_spec; change sizeof_IMAGE_DOS_HEADER with 64; lia).
  cbn [mbind outcome_bind]. change sizeof_IMAGE_DOS_HEADER with 64.
  assert (E : slice 0 64 b = slice 0 64 img).
  { apply list_eq. intros i. unfold slice. destruct (decide (i < Z.to_nat 64)%nat).
    - rewrite !lookup_take_lt, !lookup_drop by lia. symmetry. apply Hg. lia.
    - by rewrite !lookup_take_ge by lia. }
  rewrite E. set (off := get_image_sections _ _) in *.
  pose proof (wf_section_count nt Hnt) as [Hc _].
  assert (Ho : 0 <= off) by (apply wrap_range; lia).
  destruct (image_sections_ok b off (Z.to_nat (pe_section_count nt)) 0 (proj1 Hg) Ho) as [L F]; [lia|].
  destruct (text_range_returns base nt (image_sections off (Z.to_nat (pe_section_count nt)) 0 b)) as [o Eo]; [lia|].
  eapply scan_rip_relative_jumps_returns; [apply Hg|exact Hs|exact F|exact Eo].
Qed.

(** *** The result *)

(** What the address tables hold afterwards: the address of every symbol that
    was resolved, and everything else unchanged. *)
Definition bound (b : bytes) : Prop :=
  length b = length img /\
  (forall d j s o, d ∈ ds -> id_syms d !! j = Some s -> sym_address (id_dll d) s = Ret o ->
     fld (id_iat d + ts * Z.of_nat j) ts b =
     match o with
     | Some a => wrap (8 * ts) a
     | None => fld (id_iat d + ts * Z.of_nat j) ts img
     end) /\
  (forall i : nat, (forall d, d ∈ ds ->
     ~ (id_iat d <= Z.of_nat i < id_iat d + ts * Z.of_nat (length (id_syms d)))) -> b !! i = img !! i).

Lemma cells_apart d j d' j' :
  d ∈ ds -> d' ∈ ds -> (j < length (id_syms d))%nat -> (j' < length (id_syms d'))%nat ->
  let c := id_iat d + ts * Z.of_nat j in let c' := id_iat d' + ts * Z.of_nat j' in
  (d = d' /\ j = j') \/ c + ts <= c' \/ c' + ts <= c.
Proof.
  intros [k Hk]%list_elem_of_lookup [k' Hk']%list_elem_of_lookup Hj Hj' c c'.
  pose proof (thunk_size_pos nt). destruct (decide (k = k')) as [->|Hne].
  - assert (d = d') as <- by congruence. destruct (decide (j = j')); [by left|]. right. subst c c'. nia.
  - right. destruct (im_apart _ _ _ _ _ _ Him k k' d d' Hne Hk Hk'); subst c c'; nia.
Qed.

Lemma write_cells_bound : bound (write_cells nt (import_writes ds) img).
Proof.
  pose proof (thunk_size_pos nt) as Ht.
  assert (Hin : Forall (cell_in nt img) (import_writes ds)).
  { apply Forall_forall. intros w (d & j & s & a & Hd & Hj & _ & ->)%import_writes_elem.
    apply lookup_lt_Some in Hj. exact (proj1 (good_write img d j a good_img Hd Hj)). }
  split_and!; [by apply length_write_cells| |].
  - intros d j s o Hd Hj Ho. pose proof (lookup_lt_Some _ _ _ Hj) as Hlt.
    destruct (im_cells _ _ _ _ _ _ Him d Hd) as [Hlo _].
    apply write_cells_value; [nia|done| |].
    + intros w (d' & j' & s' & a & Hd' & Hj' & Ha & ->)%import_writes_elem. cbn [fst snd].
      pose proof (lookup_lt_Some _ _ _ Hj') as Hlt'.
      destruct (cells_apart d j d' j' Hd Hd' Hlt Hlt') as [[<- <-]|Hap]; [|by right].
      left. assert (s' = s) as -> by congruence. rewrite Ho in Ha. by injection Ha as ->.
    + destruct o as [a|]; [right|by left]. exists a. apply import_writes_elem. by exists d, j, s, a.
  - intros i Hi. apply write_cells_frame; [done|].
    intros w (d & j & s & a & Hd & Hj & _ & ->)%import_writes_elem. cbn [fst].
    apply lookup_lt_Some in Hj. specialize (Hi d Hd). nia.
Qed.
End run.
End pass1_correct.

(** Pass 1 on an image whose import directory lists [ds]: every address-table
    entry of a symbol that resolves gets its address, at the width of the image;
    nothing else changes. *)
Theorem resolve_import_pass1_correct {A : Arch} base nt g_debug_level resolve img dir ds lo hi :
  base <> 0 -> g_debug_level < 3 -> importable nt img dir ds lo hi ->
  (forall d s, d ∈ ds -> s ∈ id_syms d -> exists o, sym_address resolve (id_dll d) s = Ret o) ->
  exists img', resolve_import_pass1 base nt g_debug_level resolve img = Ret (0, img') /\
    bound nt resolve img ds img'.
Proof.
  intros Hb Hd Him Hres.
  destruct (resolve_import_pass1_ok base nt g_debug_level resolve Hb Hd (im_nt _ _ _ _ _ _ Him) img dir ds lo hi Him Hres)
    as (b & E & -> & _).
  eexists. split; [exact E|]. by eapply write_cells_bound.
Qed.

(** C3: Both passes with the loader's resolver: the address tables are bound, and
    pass 2 adds nothing to that. *)
Theorem resolve_imports_correct {A : Arch} base nt g_debug_level reg image import_table img dir ds lo hi :
  let resolve := resolve_loader_import g_debug_level reg image import_table in
  base <> 0 -> g_debug_level < 3 -> importable nt img dir ds lo hi -> section_table_inside nt img lo ->
  (forall d s, d ∈ ds -> s ∈ id_syms d -> exists o, sym_address resolve (id_dll d) s = Ret o) ->
  exists img', resolve_imports base nt g_debug_level reg image import_table img = Ret (0, img') /\
    bound nt resolve img ds img'.
Proof.
  intros resolve Hb Hd Him Ht Hres. pose proof (im_nt _ _ _ _ _ _ Him) as Hnt.
  destruct (resolve_import_pass1_ok base nt g_debug_level resolve Hb Hd Hnt img dir ds lo hi Him Hres)
    as (b & E & Eb & Hg).
  exists b. split; [|rewrite Eb; by eapply write_cells_bound].
  unfold resolve_imports. fold resolve. rewrite E. cbn [mbind outcome_bind Z.eqb negb].
  destruct (collect_returns base nt Hnt img dir ds lo hi Him b Ht Hg) as [targets Hc].
  destruct (build_flat_returns base nt Hnt img dir ds lo hi Him b Hg) as [flat Hf].
  eapply pass2_reads_only; [by eapply good_size|by rewrite (im_dir _ _ _ _ _ _ Him)|exact Hc|exact Hf].
Qed.

(** ** A concrete image

    One descriptor for "k.dll" at 0x40 with the symbol "Sleep": lookup table at
    0x80, address table at 0x90, hint and name at 0xB0. *)
Definition bind_nt : IMAGE_NT_HEADERS :=
  sample_nt64 0x140000000 0x140 0x40 0 0x22 (set_dir 1 0x40 40 no_dirs).
Definition bind_pre : bytes :=
  replicate 64 0 ++ encode_IMAGE_IMPORT_DESCRIPTOR (mk_IMAGE_IMPORT_DESCRIPTOR 0x80 0 0 0x70 0x90) ++
  replicate 28 0 ++ lit "k.dll" ++ replicate 11 0 ++ le_split 8 0xB0 ++ le_split 8 0.
Definition bind_post : bytes := replicate 24 0 ++ [0; 0] ++ lit "Sleep" ++ replicate 137 0.
Definition bind_img : bytes := bind_pre ++ le_split 8 0xB0 ++ bind_post.
Definition bind_ds : list import_desc := [mkDesc (lit "k.dll") 0x80 0x90 [ByName (lit "Sleep")]].

Lemma same_outside_middle pre y post img :
  same_outside (blen pre) (blen pre + blen y) (pre ++ y ++ post) img ->
  exists x, length x = length y /\ img = pre ++ x ++ post.
Proof.
  intros [L H]. rewrite !length_app in L. exists (take (length y) (drop (length pre) img)).
  split; [rewrite length_take, length_drop; lia|].
  assert (E1 : take (length pre) img = pre).
  { apply list_eq. intros i. destruct (decide (i < length pre)%nat).
    - rewrite lookup_take_lt by done. rewrite <- H by (unfold blen; lia). by rewrite lookup_app_l.
    - rewrite lookup_take_ge by lia. symmetry. apply lookup_ge_None_2. lia. }
  assert (E2 : drop (length pre + length y) img = post).
  { apply list_eq. intros i. rewrite lookup_drop, <- H by (unfold blen; lia).
    rewrite lookup_app_r, lookup_app_r by lia. f_equal. lia. }
  rewrite <- E1 at 1. rewrite <- E2, <- drop_drop, take_drop, take_drop. done.
Qed.

Lemma bind_dir : pe_get_import_dir bind_nt = Ret (mk_IMAGE_DATA_DIRECTORY 0x40 40).
Proof. reflexivity. Qed.

Lemma bind_lists x : length x = 8%nat ->
  lists_imports bind_nt (bind_pre ++ x ++ bind_post) (mk_IMAGE_DATA_DIRECTORY 0x40 40) bind_ds.
Proof.
  intros L. destruct x as [|a [|b [|c [|d [|e [|f [|g [|h [|]]]]]]]]]; try discriminate L. clear L. split.
  - vm_compute. split_and!; discriminate.
  - intros [|k] dd Hk; [|by destruct k]. injection Hk as <-. split.
    + vm_compute. discriminate.
    + split; [vm_compute; discriminate|]. split; [vm_compute; reflexivity|vm_compute; discriminate].
    + vm_compute. reflexivity.
    + vm_compute. reflexivity.
    + vm_compute. discriminate.
    + vm_compute. discriminate.
    + intros [|i] s Hs; [|by destruct i]. injection Hs as <-. split; [vm_compute; discriminate|].
      split; [vm_compute; reflexivity|]. split; [vm_compute; discriminate|].
      split; [vm_compute; discriminate|]. split; [vm_compute; reflexivity|vm_compute; discriminate].
    + vm_compute. reflexivity.
  - vm_compute. reflexivity.
Qed.

Lemma bind_importable : importable bind_nt bind_img (mk_IMAGE_DATA_DIRECTORY 0x40 40) bind_ds 0x90 0x98.
Proof.
  split.
  - unfold bind_nt, sample_nt64, wf_IMAGE_NT_HEADERS, wf_IMAGE_FILE_HEADER, wf_IMAGE_OPTIONAL_HEADER64. solve_nt_wf.
  - apply wf_bytesb_spec. vm_compute. reflexivity.
  - vm_compute. discriminate.
  - exact bind_dir.
  - left. vm_compute. discriminate.
  - intros img' _ Hs. apply (same_outside_middle bind_pre (le_split 8 0xB0) bind_post) in Hs as (x & L & ->).
    by apply bind_lists.
  - intros d Hd%list_elem_of_singleton. subst d. vm_compute. split_and!; discriminate.
  - intros [|k] [|k'] d d' Hne Hk Hk'; try done; by destruct k || by destruct k'.
Qed.

Lemma bind_resolves d s : d ∈ bind_ds -> s ∈ id_syms d ->
  exists o, sym_address (@resolve_loader_import arch64 0 reg_ab demo_image demo_sorted) (id_dll d) s = Ret o.
Proof.
  intros Hd%list_elem_of_singleton Hs. subst d. apply list_elem_of_singleton in Hs. subst s.
  exists (Some 200). vm_compute. reflexivity.
Qed.

Lemma resolve_import_pass1_correct_witness :
  exists img', @resolve_import_pass1 arch64 0x140000000 bind_nt 0
      (@resolve_loader_import arch64 0 reg_ab demo_image demo_sorted) bind_img = Ret (0, img') /\
    fld 0x90 8 img' = 200.
Proof.
  destruct (@resolve_import_pass1_correct arch64 0x140000000 bind_nt 0 _ bind_img _ bind_ds 0x90 0x98
              ltac:(done) ltac:(done) bind_importable bind_resolves) as (img' & E & _ & Hv & _).
  exists img'. split; [exact E|].
  apply (Hv (mkDesc (lit "k.dll") 0x80 0x90 [ByName (lit "Sleep")]) 0%nat (ByName (lit "Sleep")) (Some 200));
    [by left|reflexivity|vm_compute; reflexivity].
Defined.

Lemma resolve_imports_correct_witness :
  exists img', @resolve_imports arch64 0x140000000 bind_nt 0 reg_ab demo_image demo_sorted bind_img = Ret (0, img') /\
    fld 0x90 8 img' = 200.
Proof.
  destruct (@resolve_imports_correct arch64 0x140000000 bind_nt 0 reg_ab demo_image demo_sorted bind_img _ bind_ds
              0x90 0x98 ltac:(done) ltac:(done) bind_importable) as (img' & E & _ & Hv & _).
  - vm_compute. split_and!; discriminate.
  - exact bind_resolves.
  - exists img'. split; [exact E|].
    apply (Hv (mkDesc (lit "k.dll") 0x80 0x90 [ByName (lit "Sleep")]) 0%nat (ByName (lit "Sleep")) (Some 200));
      [by left|reflexivity|vm_compute; reflexivity].
Defined.

(** At debug level 3 a DLL name of 245 characters overruns the line. *)
Theorem debug_iat_line_overflows :
  debug_iat_write 3 0 (replicate 245 65) 0 0 = Fault /\ debug_iat_write 3 0 (replicate 100 65) 0 0 = Ret tt.
Proof. split; vm_compute; reflexivity. Qed.

(** The patching pass changes nothing: every cell that one of its strategies
    could write already holds the address the strategy would store. *)
Theorem resolve_import_pass2_changes_nothing {A : Arch} base nt img targets flat :
  pe_size_of_image nt <= blen img -> pe_get_import_dir nt <> Fault ->
  collect_thunk_targets base nt img = Ret targets -> build_flat_import_array base nt img = Ret flat ->
  resolve_import_pass2 base nt img = Ret (0, img).
Proof. apply pass2_reads_only. Qed.

(** An image with a code section whose jump goes through the address table. *)
Definition thunk_nt : IMAGE_NT_HEADERS :=
  sample_nt64 0x140000000 0x180 0x40 1 0x22 (set_dir 1 0x40 40 no_dirs).
Definition thunk_img : bytes :=
  take 264 bind_img ++
  encode_IMAGE_SECTION_HEADER (sample_section ".text"%string 16 0x140 16 0x200 0x60000020) ++ replicate 16 0 ++
  [0xFF; 0x25] ++ le_split 4 (0x90 - 0x146) ++ replicate 58 0.

Lemma resolve_import_pass2_changes_nothing_witness :
  collect_thunk_targets 0x140000000 thunk_nt thunk_img = Ret [0x90] /\
  @resolve_import_pass2 arch64 0x140000000 thunk_nt thunk_img = Ret (0, thunk_img).
Proof.
  assert (Hc : collect_thunk_targets 0x140000000 thunk_nt thunk_img = Ret [0x90]) by (vm_compute; reflexivity).
  split; [exact Hc|].
  eapply (@resolve_import_pass2_changes_nothing arch64 _ _ _ _ _);
    [vm_compute; discriminate|vm_compute; discriminate|exact Hc|vm_compute; reflexivity].
Defined.
