(* ===== verification/DllLoader.v ===== *)
(** * Loading DLLs (src/loader/dll_loader.c, resolve_module_imports of
      src/loader/import_resolve.c)

    load_dll composes the image mapper, the module registry, the PEB lists and
    import resolution; resolve_module_imports loads the DLLs a module needs and
    so calls load_dll again.  The files, the system's mmap and mprotect, and the
    entry points of DLLs (guest code) are parameters. *)
From S2P Require Import Prelude Bytes CStr PeStructs TestImages PePriv PeHeaders.
From S2P Require Import ModuleList PebLdr ExportTable ImageMapper ImportTable DllPath ImportResolve.

Definition MAX_IMPORT_DEPTH : Z := 8.
Definition PAGE_SIZE : Z := 4096.
Definition DLL_PROCESS_ATTACH : Z := 1.

(** g_loader, the images of the module slots, g_exe_dir of dll_path.c, and the
    ranges that were unmapped. *)
Record loader_state := mkLoaderState {
  ld_globals : loader_globals;
  ld_base_next : Z;
  ld_ldr : ldr_state;
  ld_images : gmap nat bytes;
  ld_exe_dir : cstr;
  ld_unmapped : list (Z * Z) }.

Definition set_globals (g : loader_globals) (s : loader_state) : loader_state :=
  mkLoaderState g (ld_base_next s) (ld_ldr s) (ld_images s) (ld_exe_dir s) (ld_unmapped s).
Definition set_base_next (n : Z) (s : loader_state) : loader_state :=
  mkLoaderState (ld_globals s) n (ld_ldr s) (ld_images s) (ld_exe_dir s) (ld_unmapped s).
Definition set_ldr (l : ldr_state) (s : loader_state) : loader_state :=
  mkLoaderState (ld_globals s) (ld_base_next s) l (ld_images s) (ld_exe_dir s) (ld_unmapped s).
Definition set_images (i : gmap nat bytes) (s : loader_state) : loader_state :=
  mkLoaderState (ld_globals s) (ld_base_next s) (ld_ldr s) i (ld_exe_dir s) (ld_unmapped s).
Definition set_exe_dir (d : cstr) (s : loader_state) : loader_state :=
  mkLoaderState (ld_globals s) (ld_base_next s) (ld_ldr s) (ld_images s) d (ld_unmapped s).
Definition munmap (base size : Z) (s : loader_state) : loader_state :=
  mkLoaderState (ld_globals s) (ld_base_next s) (ld_ldr s) (ld_images s) (ld_exe_dir s)
    (ld_unmapped s ++ [(base, size)]).

Definition ld_reg (s : loader_state) : registry := ls_reg (ld_ldr s).
Definition set_reg (r : registry) (s : loader_state) : loader_state :=
  set_ldr (mkLdrState r (ls_peb_ldr (ld_ldr s))) s.
Definition image_of_slot (s : loader_state) (slot : nat) : bytes := default [] (ld_images s !! slot).
Definition update_module (slot : nat) (f : loaded_module_t -> loaded_module_t) (s : loader_state) : loader_state :=
  match modules (ld_reg s) !! slot with
  | Some m => set_reg (set_module slot (f m) (ld_reg s)) s
  | None => s
  end.

Definition set_dllmain_called (m : loaded_module_t) : loaded_module_t :=
  mkModule (m_base m) (m_name m) (m_nt m) (m_export_cache m) (m_ldr_entry m) (m_load_count m) (m_ldr_linked m) true.

(** The part of a path behind its last '/'. *)
Fixpoint base_name (name path : cstr) : cstr :=
  match path with
  | [] => name
  | c :: path => base_name (if c =? 47 then path else name) path
  end.

Section loader.
Context {A : Arch}.
Variable files : cstr -> option bytes.
Variable openat : cstr -> Z.
Variable mmap_fixed : Z -> Z -> option Z.
Variable mmap_any : Z -> option Z.
Variable mprotect : Z -> Z -> Z -> bool.
(** Whether the page for the copy of the NT headers can be mapped. *)
Variable mmap_page : loader_state -> bool.
(** The code of the module in a slot, entered at an address with the base and the
    reason. *)
Variable dll_entry : forall (slot : nat) (entry base reason : Z), loader_state -> Z * loader_state.
Variable g_debug_level : Z.
Variable g_wine_dll_path : cstr.
Variable import_table : list import_entry_t.

Definition call_module_dllmain (slot : nat) (reason : Z) (s : loader_state) : outcome (bool * loader_state) :=
  m ← deref (modules (ld_reg s) !! slot);
  match m_nt m with
  | None => Ret (true, s)
  | Some nt =>
      if (m_base m =? 0) || (pe_entry_rva nt =? 0) then Ret (true, s)
      else
        let '(r, s) := dll_entry slot (m_base m + pe_entry_rva nt) (m_base m) reason s in
        Ret (negb (r =? 0), s)
  end.

(** The headers as load_dll reads them back from the image. *)
Definition image_nt_headers (img : bytes) : outcome IMAGE_NT_HEADERS :=
  pe_off ← load 4 60 img;
  magic ← load 2 (u32 (pe_off + 4 + sizeof_IMAGE_FILE_HEADER)) img;
  if magic =? IMAGE_NT_OPTIONAL_HDR32_MAGIC then
    b ← load_bytes pe_off sizeof_IMAGE_NT_HEADERS32 img; Ret (PE_TYPE_32 (decode_IMAGE_NT_HEADERS32 b))
  else
    b ← load_bytes pe_off sizeof_IMAGE_NT_HEADERS64 img; Ret (PE_TYPE_64 (decode_IMAGE_NT_HEADERS64 b)).

(** Undo the registration of a module and release its memory. *)
Definition discard_module (slot : nat) (nt : IMAGE_NT_HEADERS) (base : Z) (s : loader_state)
  : outcome loader_state :=
  m ← deref (modules (ld_reg s) !! slot);
  l ← (if ls_peb_ldr (ld_ldr s) && m_ldr_linked m then ldr_remove_module slot (ld_ldr s) else Ret (ld_ldr s));
  let s := update_module slot reset_export_cache (set_ldr l s) in
  let s := set_reg (remove_module slot (ld_reg s)) s in
  Ret (munmap base (pe_size_of_image nt) (set_images (delete slot (ld_images s)) s)).

(** Reserve a page-aligned base: the base and the new dll_base_next. *)
Definition reserve_base (next : Z) : Z * Z :=
  let rounded := Z.land (usize (next + (PAGE_SIZE - 1))) (usize (- PAGE_SIZE)) in
  (rounded, usize (rounded + PAGE_SIZE)).

Section recursion.
(** resolve_module_imports(mod, depth). *)
Variable resolve_module : nat -> Z -> loader_state -> outcome (Z * loader_state).

(** The part behind add_module: link the module into the PEB lists, resolve its
    imports, parse its exports, and attach a PE32 module. *)
Definition attach_module (slot : nat) (base : Z) (img_nt : IMAGE_NT_HEADERS) (depth : Z) (s : loader_state)
  : outcome (option nat * loader_state) :=
  s ← (if ls_peb_ldr (ld_ldr s) then
         match ldr_add_module slot (ld_ldr s) with
         | Ret l => Ret (set_ldr l s) | Fail => Ret s | Fault => Fault
         end
       else Ret s);
  '(rc, s) ← resolve_module slot (depth + 1) s;
  if negb (rc =? 0) then s ← discard_module slot img_nt base s; Ret (None, s)
  else
    mo ← deref (modules (ld_reg s) !! slot);
    s ← (if number_of_names (m_export_cache mo) =? 0 then
           match pe_get_data_dir img_nt 0 with
           | Ret d => if negb (dd_VirtualAddress d =? 0) then
                        '(_, c) ← parse_export_table mo (image_of_slot s slot);
                        Ret (update_module slot (with_cache c) s)
                      else Ret s
           | Fail => Ret s
           | Fault => Fault
           end
         else Ret s);
    if pe_is_pe32 img_nt then
      '(ok, s) ← call_module_dllmain slot DLL_PROCESS_ATTACH s;
      if negb ok then s ← discard_module slot img_nt base s; Ret (None, s)
      else Ret (Some slot, update_module slot set_dllmain_called s)
    else Ret (Some slot, s).

(** The slot of the loaded module, or [None]. *)
Definition load_dll (path : cstr) (depth : Z) (s : loader_state) : outcome (option nat * loader_state) :=
  let saved := ld_globals s in
  let '(alloc_base, next) := reserve_base (ld_base_next s) in
  let s := set_base_next next s in
  '(mapped, g) ← map_image_at mmap_fixed mmap_any mprotect path (files path) alloc_base (ld_globals s);
  let s := set_globals (mkLoader (g_image_base saved) (g_image_size g) (take 511 (take 511 (g_pe_path saved)))
                          (g_is_32bit saved)) s in
  match (mapped : option mapped_image) with
  | None => Ret (None, s)
  | Some m =>
      let base := mi_base m in
      if base =? 0 then Ret (None, s)
      else
        let dll_size := Z.land (u32 (pe_size_of_image (mi_nt m) + (PAGE_SIZE - 1))) (usize (- PAGE_SIZE)) in
        let s := if PAGE_SIZE <? dll_size
                 then set_base_next (usize (ld_base_next s + (dll_size - PAGE_SIZE))) s else s in
        if negb (mmap_page s)
        then if is_my_wine32 then Fault else Ret (None, munmap base (pe_size_of_image (mi_nt m)) s)
        else
          img_nt ← image_nt_headers (mi_bytes m);
          if negb (Bool.eqb (g_is_32bit saved) (pe_is_pe32 img_nt))
          then Ret (None, munmap base (pe_size_of_image (mi_nt m)) s)
          else
            match add_module base (base_name path path) img_nt (ld_reg s) with
            | None => Ret (None, munmap base (pe_size_of_image img_nt) s)
            | Some (r, slot) =>
                attach_module slot base img_nt depth
                  (set_images (<[slot := mi_bytes m]> (ld_images s)) (set_reg r s))
            end
  end.

(** First pass: load what the descriptors name. *)
Fixpoint dep_loop (slot : nat) (base : Z) (nt : IMAGE_NT_HEADERS) (import_rva dir_size depth : Z) (fuel : nat)
    (desc desc_offset : Z) (s : loader_state) : outcome (Z * loader_state) :=
  match fuel with
  | O => Fault
  | S fuel =>
      if dir_size <? usize (desc_offset + sizeof_IMAGE_IMPORT_DESCRIPTOR) then Ret (-1, s)
      else
        let img := image_of_slot s slot in
        name ← desc_Name desc img;
        if name =? 0 then Ret (0, s)
        else
          valid ← import_cstr_valid nt img name;
          if negb valid then Ret (-1, s)
          else
            dll_name ← deref (cstr_at name img);
            let next (s : loader_state) :=
              let desc_offset := u32 (desc_offset + sizeof_IMAGE_IMPORT_DESCRIPTOR) in
              match pe_rva_to_ptr base nt (u32 (import_rva + desc_offset)) sizeof_IMAGE_IMPORT_DESCRIPTOR with
              | None => Ret (-1, s)
              | Some desc => dep_loop slot base nt import_rva dir_size depth fuel desc desc_offset s
              end in
            dep ← find_module_by_name dll_name (ld_reg s);
            match (dep : option nat) with
            | Some _ => next s
            | None =>
                if is_builtin_stub_library dll_name then next s
                else
                  '(found, path, exe_dir) ← find_dll_path openat (Some (g_pe_path (ld_globals s))) g_wine_dll_path
                                              (ld_exe_dir s) dll_name (replicate 512 0) 512;
                  let s := set_exe_dir exe_dir s in
                  if negb found then Ret (-1, s)
                  else
                    path ← deref (cstr_from path);
                    '(dep, s) ← load_dll path (depth + 1) s;
                    match (dep : option nat) with
                    | None => Ret (-1, s)
                    | Some _ => next s
                    end
            end
  end.
End recursion.

(** [fuel] bounds the nesting; the code bounds it by the depth. *)
Fixpoint resolve_module_imports (fuel : nat) (slot : nat) (depth : Z) (s : loader_state)
  : outcome (Z * loader_state) :=
  if MAX_IMPORT_DEPTH <=? depth then Ret (-1, s)
  else
    match fuel with
    | O => Fault
    | S fuel =>
        m ← deref (modules (ld_reg s) !! slot);
        nt ← deref (m_nt m);
        match pe_get_import_dir nt with
        | Fault => Fault
        | Fail => Ret (0, s)
        | Ret imp_dir =>
            if dd_Size imp_dir =? 0 then Ret (0, s)
            else if (dd_VirtualAddress imp_dir =? 0) ||
                    negb (pe_rva_range_is_valid (dd_VirtualAddress imp_dir) (dd_Size imp_dir) (pe_size_of_image nt))
            then Ret (-1, s)
            else
              match pe_rva_to_ptr (m_base m) nt (dd_VirtualAddress imp_dir) sizeof_IMAGE_IMPORT_DESCRIPTOR with
              | None => Ret (-1, s)
              | Some desc =>
                  '(rc, s) ← dep_loop (resolve_module_imports fuel) slot (m_base m) nt (dd_VirtualAddress imp_dir)
                               (dd_Size imp_dir) depth (S (S (Z.to_nat (dd_Size imp_dir / 20)))) desc 0 s;
                  if negb (rc =? 0) then Ret (-1, s)
                  else
                    '(rc, img) ← resolve_imports (m_base m) nt g_debug_level (ld_reg s) (image_of_slot s)
                                   import_table (image_of_slot s slot);
                    let s := set_images (<[slot := img]> (ld_images s)) s in
                    if negb (rc =? 0) then Ret (-1, s)
                    else
                      mo ← deref (modules (ld_reg s) !! slot);
                      '(_, c) ← parse_export_table mo (image_of_slot s slot);
                      Ret (0, update_module slot (with_cache c) s)
              end
        end
    end.

(** LoadLibrary's entry: depth 0. *)
Definition load_library (path : cstr) (s : loader_state) : outcome (option nat * loader_state) :=
  load_dll (resolve_module_imports 5) path 0 s.
End loader.

(** ** What loading leaves alone *)

(** The main program's globals that load_dll saves and restores. *)
Definition globals_kept (g g' : loader_globals) : Prop :=
  g_image_base g' = g_image_base g /\ g_is_32bit g' = g_is_32bit g /\
  ((length (g_pe_path g) <= 511)%nat -> g_pe_path g' = g_pe_path g).

Definition same_identity (m m' : loaded_module_t) : Prop :=
  m_base m' = m_base m /\ m_name m' = m_name m /\ m_nt m' = m_nt m.

(** From [s] to [s'] every registered module stays registered under its base,
    name and headers; outside of [own] its record and its image are untouched. *)
Definition frame (own : nat -> Prop) (s s' : loader_state) : Prop :=
  globals_kept (ld_globals s) (ld_globals s') /\
  forall i m, modules (ld_reg s) !! i = Some m -> live m ->
    exists m', modules (ld_reg s') !! i = Some m' /\ same_identity m m' /\
      (~ own i -> m' = m /\ ld_images s' !! i = ld_images s !! i).

Definition nothing (_ : nat) : Prop := False.

#[export] Instance same_identity_refl : Reflexive same_identity.
Proof. by intros m. Qed.

#[export] Instance frame_refl own : Reflexive (frame own).
Proof. intros s. split; [by split_and!|]. intros i m Hm _. by exists m. Qed.

#[export] Instance frame_trans own : Transitive (frame own).
Proof.
  intros s1 s2 s3 [(G1 & G2 & G3) H12] [(K1 & K2 & K3) H23]. split.
  - split_and!; [congruence..|]. intros L. rewrite K3, G3 by (by rewrite ?G3). done.
  - intros i m Hm Hl. destruct (H12 i m Hm Hl) as (m' & Hm' & (I1 & I2 & I3) & Ho).
    destruct (H23 i m' Hm') as (m'' & Hm'' & (J1 & J2 & J3) & Ho'); [unfold live in *; congruence|].
    exists m''. split_and!; [done|split_and!; congruence|].
    intros Hn. destruct (Ho Hn) as [-> E], (Ho' Hn) as [-> E']. by rewrite E', E.
Qed.

Lemma frame_weaken (own own' : nat -> Prop) s s' :
  (forall i, own i -> own' i) -> frame own s s' -> frame own' s s'.
Proof.
  intros Hw [G H]. split; [done|]. intros i m Hm Hl. destruct (H i m Hm Hl) as (m' & ? & ? & Ho).
  exists m'. split_and!; [done..|]. naive_solver.
Qed.

(** Only the registry slot and the image of [slot] change. *)
Lemma frame_update s s' slot m m' :
  modules (ld_reg s) !! slot = Some m -> same_identity m m' ->
  ld_globals s' = ld_globals s ->
  modules (ld_reg s') = <[slot := m']> (modules (ld_reg s)) ->
  (forall i, i <> slot -> ld_images s' !! i = ld_images s !! i) ->
  frame (eq slot) s s'.
Proof.
  intros Hm Hid Hg Hr Hi. split; [rewrite Hg; by split_and!|].
  intros i n Hn _. rewrite Hr. destruct (decide (i = slot)) as [->|Hne].
  - exists m'. rewrite list_lookup_insert_eq by (by eapply lookup_lt_Some).
    rewrite Hm in Hn. injection Hn as <-. split_and!; [done..|]. by intros [].
  - exists n. rewrite list_lookup_insert_ne by done. split_and!; [done..|]. intros _. auto.
Qed.

(** A change of [slot] is none when the slot was free. *)
Lemma frame_new own s0 s s' slot :
  (forall m, modules (ld_reg s0) !! slot = Some m -> ~ live m) ->
  frame own s0 s -> frame (eq slot) s s' -> frame own s0 s'.
Proof.
  intros Hf [(G1 & G2 & G3) H12] [(K1 & K2 & K3) H23]. split.
  - split_and!; [congruence..|]. intros L. rewrite K3, G3 by (by rewrite ?G3). done.
  - intros i m Hm Hl. assert (slot <> i) by (intros ->; by eapply Hf).
    destruct (H12 i m Hm Hl) as (m' & Hm' & (I1 & I2 & I3) & Ho).
    destruct (H23 i m' Hm') as (m'' & Hm'' & _ & Ho'); [unfold live in *; congruence|].
    destruct (Ho' ltac:(done)) as [-> E']. exists m'. split_and!; [done..|].
    intros Hn. destruct (Ho Hn) as [-> E]. by rewrite E', E.
Qed.

(** Only the slot [slot] changes, and it was free. *)
Lemma frame_away own s0 s s' slot :
  (forall m, modules (ld_reg s0) !! slot = Some m -> ~ live m) ->
  ld_globals s' = ld_globals s ->
  (forall i, i <> slot -> modules (ld_reg s') !! i = modules (ld_reg s) !! i /\
     ld_images s' !! i = ld_images s !! i) ->
  frame own s0 s -> frame own s0 s'.
Proof.
  intros Hf Hg Ha [G H]. split; [by rewrite Hg|]. intros i m Hm Hl.
  assert (i <> slot) as Hne by (intros ->; by eapply Hf). destruct (Ha i Hne) as [-> ->]. eauto.
Qed.

Lemma update_module_frame s slot f :
  (forall m, same_identity m (f m)) -> frame (eq slot) s (update_module slot f s).
Proof.
  intros Hf. unfold update_module. destruct (modules (ld_reg s) !! slot) as [m|] eqn:E; [|done].
  eapply frame_update; [exact E|apply Hf|done..].
Qed.

Lemma set_ldr_frame s slot l m e b :
  modules (ld_reg s) !! slot = Some m ->
  modules (ls_reg l) = <[slot := with_ldr e b m]> (modules (ld_reg s)) -> frame (eq slot) s (set_ldr l s).
Proof. intros Hm Hl. eapply frame_update; [exact Hm| |done|exact Hl|done]. done. Qed.

Lemma ldr_add_module_inv slot l l' :
  ldr_add_module slot l = Ret l' ->
  l' = l \/ exists m e, modules (ls_reg l) !! slot = Some m /\
    modules (ls_reg l') = <[slot := with_ldr e true m]> (modules (ls_reg l)).
Proof.
  unfold ldr_add_module. intros H. apply bind_Ret in H as (m & Hm & H).
  destruct (modules (ls_reg l) !! slot) as [m'|] eqn:E; [injection Hm as ->|done].
  repeat case_hyp H; inv_ret; [by left|]. right. do 2 eexists. split; [done|reflexivity].
Qed.

Lemma ldr_remove_module_inv slot l l' :
  ldr_remove_module slot l = Ret l' ->
  forall i, i <> slot -> modules (ls_reg l') !! i = modules (ls_reg l) !! i.
Proof.
  unfold ldr_remove_module. intros H i Hi. apply bind_Ret in H as (m & Hm & H).
  repeat case_hyp H; inv_ret; [done|]. simpl. by rewrite list_lookup_insert_ne.
Qed.

Lemma remove_module_other slot r i :
  i <> slot -> modules (remove_module slot r) !! i = modules r !! i.
Proof. intros Hi. unfold remove_module. case_match; [|done]. simpl. by rewrite list_lookup_insert_ne. Qed.

Lemma update_module_other slot f s i :
  i <> slot -> modules (ld_reg (update_module slot f s)) !! i = modules (ld_reg s) !! i.
Proof.
  intros Hi. unfold update_module. case_match; [|done]. simpl. by rewrite list_lookup_insert_ne.
Qed.

Lemma update_module_fields slot f s :
  ld_globals (update_module slot f s) = ld_globals s /\ ld_images (update_module slot f s) = ld_images s.
Proof. unfold update_module. by case_match. Qed.

Lemma discard_module_frame own s0 s s' slot nt base :
  (forall m, modules (ld_reg s0) !! slot = Some m -> ~ live m) ->
  discard_module slot nt base s = Ret s' -> frame own s0 s -> frame own s0 s'.
Proof.
  intros Hf H. unfold discard_module in H.
  apply bind_Ret in H as (m & Hm & H). apply bind_Ret in H as (l & Hl & H). injection H as <-.
  apply (frame_away own s0 s _ slot Hf).
  - simpl. by rewrite (proj1 (update_module_fields _ _ _)).
  - intros i Hi. simpl. split.
    + unfold ld_reg at 1. simpl. rewrite remove_module_other, update_module_other by done.
      case_hyp Hl; [by eapply ldr_remove_module_inv in Hl|by injection Hl as <-].
    + by rewrite lookup_delete_ne, (proj2 (update_module_fields _ _ _)).
Qed.

Lemma add_module_inv {A : Arch} base name nt r r' slot :
  add_module base name nt r = Some (r', slot) ->
  (forall m, modules r !! slot = Some m -> ~ live m) /\
  (forall i, i <> slot -> modules r' !! i = modules r !! i) /\
  exists m, modules r' !! slot = Some m /\ m_base m = base /\ m_name m = take 259 name /\ m_nt m = Some nt.
Proof.
  unfold add_module. intros H. destruct (free_slot (modules r) 0) as [k|] eqn:E; [|done].
  injection H as <- <-. apply free_slot_Some in E as (m & Hm & Hz & _). rewrite Nat.sub_0_r in Hm.
  simpl. split_and!.
  - intros m' Hm'. rewrite Hm in Hm'. injection Hm' as <-. unfold live. tauto.
  - intros i Hi. by rewrite list_lookup_insert_ne.
  - eexists. rewrite list_lookup_insert_eq by (by eapply lookup_lt_Some). by split_and!.
Qed.

Section frames.
Context {A : Arch} (files : cstr -> option bytes) (openat : cstr -> Z)
  (mmap_fixed : Z -> Z -> option Z) (mmap_any : Z -> option Z) (mprotect : Z -> Z -> Z -> bool)
  (mmap_page : loader_state -> bool)
  (dll_entry : nat -> Z -> Z -> Z -> loader_state -> Z * loader_state)
  (g_debug_level : Z) (g_wine_dll_path : cstr) (import_table : list import_entry_t).

(** A DLL's entry point leaves the other modules and the main program's globals
    alone. *)
Definition entry_keeps_others : Prop := forall slot entry base reason s,
  frame (eq slot) s (snd (dll_entry slot entry base reason s)).

(** No DllMain does harm: in a 64-bit program none is called when a module is attached. *)
Definition quiet (s : loader_state) : Prop := g_is_32bit (ld_globals s) = true -> entry_keeps_others.
Lemma quiet_frame own s s' : frame own s s' -> quiet s -> quiet s'.
Proof. intros [(_ & E & _) _]. unfold quiet. by rewrite E. Qed.

Lemma call_module_dllmain_frame slot reason s b s' : entry_keeps_others ->
  call_module_dllmain dll_entry slot reason s = Ret (b, s') -> frame (eq slot) s s'.
Proof.
  intros Hentry. unfold call_module_dllmain. intros H. apply bind_Ret in H as (m & _ & H).
  destruct (m_nt m) as [nt|]; [|by injection H as <- <-].
  case_hyp H; [by injection H as <- <-|].
  pose proof (Hentry slot (m_base m + pe_entry_rva nt) (m_base m) reason s) as He.
  destruct (dll_entry _ _ _ _ s) as [r s1]. injection H as <- <-. exact He.
Qed.

Section resolver.
Variable resolve_module : nat -> Z -> loader_state -> outcome (Z * loader_state).
Hypothesis Hresolve : forall slot depth s rc s', quiet s ->
  resolve_module slot depth s = Ret (rc, s') -> frame (eq slot) s s'.

(** A module that stays is only changed in its own slot. *)
Lemma attach_module_frame s0 slot base nt depth s r s' :
  quiet s -> (pe_is_pe32 nt = true -> entry_keeps_others) ->
  (forall m, modules (ld_reg s0) !! slot = Some m -> ~ live m) -> frame nothing s0 s ->
  attach_module dll_entry resolve_module slot base nt depth s = Ret (r, s') ->
  frame nothing s0 s' /\ forall slot', r = Some slot' -> slot' = slot /\ frame (eq slot) s s'.
Proof.
  intros Q Qn Hf H0 H. unfold attach_module in H.
  apply bind_Ret in H as (s1 & H1 & H).
  assert (F1 : frame (eq slot) s s1).
  { case_hyp H1; [|by injection H1 as <-].
    destruct (ldr_add_module slot (ld_ldr s)) as [l| |] eqn:El; inv_ret; [|done].
    apply ldr_add_module_inv in El as [->|(m & e & Hm & Hl)]; [by destruct s|by eapply set_ldr_frame]. }
  apply bind_Ret in H as ([rc s2] & H2 & H). apply Hresolve in H2; [|by eapply quiet_frame]. rewrite H2 in F1. clear H1.
  case_hyp H.
  { apply bind_Ret in H as (s3 & H3 & H). injection H as <- <-. split; [|done].
    eapply discard_module_frame; [done..|]. by eapply frame_new. }
  apply bind_Ret in H as (mo & _ & H). apply bind_Ret in H as (s3 & H3 & H).
  assert (F3 : frame (eq slot) s s3).
  { etrans; [exact F1|]. repeat case_hyp H3; inv_ret; try done.
    destruct x. inv_ret. by apply update_module_frame. }
  case_hyp H; [|injection H as <- <-; split; [by eapply frame_new|naive_solver]].
  apply bind_Ret in H as ([ok s4] & H4 & H). apply call_module_dllmain_frame in H4; [|by apply Qn]. rewrite H4 in F3.
  case_hyp H.
  - apply bind_Ret in H as (s5 & H5 & H). injection H as <- <-. split; [|done].
    eapply discard_module_frame; [done..|]. by eapply frame_new.
  - injection H as <- <-.
    assert (F5 : frame (eq slot) s (update_module slot set_dllmain_called s4))
      by (etrans; [exact F3|by apply update_module_frame]).
    split; [by eapply frame_new|naive_solver].
Qed.

(** What load_dll promises of the slot it returns. *)
Definition newly_loaded (path : cstr) (s s' : loader_state) (slot : nat) : Prop :=
  (forall m, modules (ld_reg s) !! slot = Some m -> ~ live m) /\
  exists m nt, modules (ld_reg s') !! slot = Some m /\ live m /\
    m_name m = take 259 (base_name path path) /\ m_nt m = Some nt /\
    pe_is_pe32 nt = g_is_32bit (ld_globals s).

Lemma globals_restored g size :
  globals_kept g (mkLoader (g_image_base g) size (take 511 (take 511 (g_pe_path g))) (g_is_32bit g)).
Proof. split_and!; [done..|]. intros L. cbn [g_pe_path].
  by rewrite take_take, take_ge by lia. Qed.

Lemma frame_same_registry s s' own :
  globals_kept (ld_globals s) (ld_globals s') -> ld_ldr s' = ld_ldr s -> ld_images s' = ld_images s ->
  frame own s s'.
Proof.
  intros G Hl Hi. split; [done|]. intros i m Hm _. exists m. unfold ld_reg. rewrite Hl, Hi. by split_and!.
Qed.

Lemma newly_loaded_attach path s s1 s' slot m nt :
  (forall m, modules (ld_reg s) !! slot = Some m -> ~ live m) ->
  frame (eq slot) s1 s' -> modules (ld_reg s1) !! slot = Some m -> live m ->
  m_name m = take 259 (base_name path path) -> m_nt m = Some nt ->
  pe_is_pe32 nt = g_is_32bit (ld_globals s) -> newly_loaded path s s' slot.
Proof.
  intros Hf [_ H] Hm Hl Hn Ht Hp.
  destruct (H slot m Hm Hl) as (m' & Hm' & (I1 & I2 & I3) & _).
  split; [done|]. exists m', nt. unfold live in *. split; [done|]. repeat split; congruence.
Qed.

Lemma load_dll_frame path depth s r s' : quiet s ->
  load_dll files mmap_fixed mmap_any mprotect mmap_page dll_entry resolve_module path depth s = Ret (r, s') ->
  frame nothing s s' /\ forall slot, r = Some slot -> newly_loaded path s s' slot.
Proof.
  intros Q. unfold load_dll. destruct (reserve_base (ld_base_next s)) as [alloc_base next].
  intros H. apply bind_Ret in H as ([mapped g] & _ & H).
  match type of H with context [set_globals ?g ?s0] => set (s1 := set_globals g s0) in H end.
  assert (F1 : forall s2, ld_globals s2 = ld_globals s1 -> ld_ldr s2 = ld_ldr s -> ld_images s2 = ld_images s ->
                 frame nothing s s2).
  { intros s2 Hg. apply frame_same_registry. rewrite Hg. apply globals_restored. }
  destruct mapped as [m|]; [|injection H as <- <-; split; [by apply F1|done]].
  destruct (Z.eqb_spec (mi_base m) 0) as [|Hb]; [injection H as <- <-; split; [by apply F1|done]|].
  match type of H with context [mmap_page ?x] => set (s2 := x) in H end.
  assert (E2 : ld_globals s2 = ld_globals s1 /\ ld_ldr s2 = ld_ldr s /\ ld_images s2 = ld_images s)
    by (subst s2; by destruct (PAGE_SIZE <? _)).
  destruct E2 as (Eg & El & Ei).
  case_hyp H; [destruct is_my_wine32; [done|]; injection H as <- <-; split; [by apply F1|done]|].
  apply bind_Ret in H as (img_nt & _ & H).
  destruct (Bool.eqb _ _) eqn:Ep; cbn [negb] in H;
    [|injection H as <- <-; split; [by apply F1|done]].
  destruct (add_module _ _ _ _) as [[reg slot]|] eqn:Ea;
    [|injection H as <- <-; split; [by apply F1|done]].
  apply add_module_inv in Ea as (Hfree & Hother & n & Hn & Hnb & Hnn & Hnt).
  assert (Hfree' : forall m, modules (ld_reg s) !! slot = Some m -> ~ live m)
    by (unfold ld_reg in *; rewrite El in Hfree; done).
  apply Bool.eqb_prop in Ep. assert (Q2 : quiet s2) by (unfold quiet; rewrite Eg; exact Q).
  apply (attach_module_frame s) in H as [Hframe Hslot]; [|exact Q2|rewrite <- Ep; exact Q|done|].
  - split; [done|]. intros slot' Hs. destruct (Hslot slot' Hs) as [-> Hfr].
    refine (newly_loaded_attach path s _ s' slot n img_nt Hfree' Hfr Hn _ Hnn Hnt _); [unfold live; congruence|].
    done.
  - apply (frame_away _ s s2 _ slot); [done|done| |by apply F1].
    intros i Hi. split; [apply Hother; done|]. simpl. by rewrite lookup_insert_ne.
Qed.

Lemma dep_loop_frame slot base nt import_rva dir_size depth fuel desc off s rc s' : quiet s ->
  dep_loop files openat mmap_fixed mmap_any mprotect mmap_page dll_entry g_wine_dll_path resolve_module
    slot base nt import_rva dir_size depth fuel desc off s = Ret (rc, s') ->
  frame nothing s s'.
Proof.
  revert desc off s. induction fuel as [|fuel IH]; intros desc off s Q H; [done|]. cbn [dep_loop] in H.
  case_hyp H; [by injection H as <- <-|].
  apply bind_Ret in H as (name & _ & H). case_hyp H; [by injection H as <- <-|].
  apply bind_Ret in H as (valid & _ & H). case_hyp H; [by injection H as <- <-|].
  apply bind_Ret in H as (dll_name & _ & H).
  assert (Hnext : forall s1, quiet s1 ->
    match pe_rva_to_ptr base nt (u32 (import_rva + u32 (off + sizeof_IMAGE_IMPORT_DESCRIPTOR)))
            sizeof_IMAGE_IMPORT_DESCRIPTOR with
    | None => Ret (-1, s1)
    | Some desc => dep_loop files openat mmap_fixed mmap_any mprotect mmap_page dll_entry g_wine_dll_path
                     resolve_module slot base nt import_rva dir_size depth fuel desc
                     (u32 (off + sizeof_IMAGE_IMPORT_DESCRIPTOR)) s1
    end = Ret (rc, s') -> frame nothing s1 s').
  { intros s1 Q1 Hs. case_hyp Hs; [by eapply IH|by injection Hs as <- <-]. }
  apply bind_Ret in H as (dep & _ & H). destruct dep; [by apply Hnext|].
  case_hyp H; [by apply Hnext|].
  apply bind_Ret in H as ([[found path] exe_dir] & _ & H).
  assert (Fe : frame nothing s (set_exe_dir exe_dir s)) by (apply frame_same_registry; [by split_and!|done..]).
  case_hyp H; [by injection H as <- <-|].
  apply bind_Ret in H as (p & _ & H). apply bind_Ret in H as ([dep s1] & Hl & H).
  apply load_dll_frame in Hl as [Hl _]; [|exact Q]. rewrite Fe, Hl.
  case_hyp H; [apply Hnext; [by eapply quiet_frame|done]|by injection H as <- <-].
Qed.
End resolver.

Lemma resolve_module_imports_frame fuel slot depth s rc s' : quiet s ->
  resolve_module_imports files openat mmap_fixed mmap_any mprotect mmap_page dll_entry g_debug_level
    g_wine_dll_path import_table fuel slot depth s = Ret (rc, s') -> frame (eq slot) s s'.
Proof.
  revert slot depth s rc s'. induction fuel as [|fuel IH]; intros slot depth s rc s' Q H;
    cbn [resolve_module_imports] in H;
    (case_hyp H; [by injection H as <- <-|]); [done|].
  apply bind_Ret in H as (m & Hm & H). apply bind_Ret in H as (nt & _ & H).
  destruct (pe_get_import_dir nt) as [dir| |]; [|by injection H as <- <-|done].
  case_hyp H; [by injection H as <- <-|]. case_hyp H; [by injection H as <- <-|].
  destruct (pe_rva_to_ptr _ _ _ _) as [desc|]; [|by injection H as <- <-].
  apply bind_Ret in H as ([rc1 s1] & Hd & H). apply dep_loop_frame in Hd; [|exact IH|exact Q].
  apply (frame_weaken nothing (eq slot)) in Hd; [|done]. rewrite Hd.
  case_hyp H; [by injection H as <- <-|]. apply bind_Ret in H as ([rc2 img] & _ & H).
  assert (Fi : frame (eq slot) s1 (set_images (<[slot := img]> (ld_images s1)) s1)).
  { split; [by split_and!|]. intros i n Hn _. exists n. split_and!; [done..|].
    intros Hne. split; [done|]. simpl. by rewrite lookup_insert_ne. }
  case_hyp H; [by injection H as <- <-|].
  apply bind_Ret in H as (mo & _ & H). apply bind_Ret in H as ([x c] & _ & H). injection H as <- <-.
  etrans; [exact Fi|by apply update_module_frame].
Qed.

(** ** Who changes what

    Loading as a sequence of steps, with the slots that it has taken so far: the loader
    works on its own slots, it takes a slot that is free, for a module of the program's
    bitness, or the DllMain of a module in one of its slots runs, which can do anything. *)
Definition keeps (own : gset nat) (s s' : loader_state) : Prop :=
  globals_kept (ld_globals s) (ld_globals s') /\
  forall i, i ∉ own -> modules (ld_reg s') !! i = modules (ld_reg s) !! i /\ ld_images s' !! i = ld_images s !! i.

Inductive lstep : gset nat * loader_state -> gset nat * loader_state -> Prop :=
| ls_own own s s' : keeps own s s' -> lstep (own, s) (own, s')
| ls_take own slot s s' m nt : (forall m0, modules (ld_reg s) !! slot = Some m0 -> ~ live m0) -> keeps {[slot]} s s' ->
    modules (ld_reg s') !! slot = Some m -> live m -> m_nt m = Some nt -> pe_is_pe32 nt = g_is_32bit (ld_globals s) ->
    lstep (own, s) ({[slot]} ∪ own, s')
| ls_guest own slot ok s s' : slot ∈ own -> call_module_dllmain dll_entry slot DLL_PROCESS_ATTACH s = Ret (ok, s') ->
    lstep (own, s) (own, s').
Abbreviation lsteps := (rtc lstep).

Lemma lsteps_grow p q : lsteps p q -> p.1 ⊆ q.1.
Proof. induction 1 as [|p q r St _ IH]; [done|]. etrans; [|exact IH]. destruct St; simpl; set_solver. Qed.

Lemma keeps_weaken own own' s s' : own ⊆ own' -> keeps own s s' -> keeps own' s s'.
Proof. intros Hs [G H]. split; [done|]. intros i Hi. apply H. set_solver. Qed.
Lemma keeps_step own slot s s' : slot ∈ own -> keeps {[slot]} s s' -> lsteps (own, s) (own, s').
Proof. intros Hs K. apply rtc_once, ls_own. eapply keeps_weaken; [|exact K]. set_solver. Qed.
Lemma keeps_none own s s' : globals_kept (ld_globals s) (ld_globals s') -> ld_ldr s' = ld_ldr s -> ld_images s' = ld_images s ->
  lsteps (own, s) (own, s').
Proof. intros G El Ei. apply rtc_once, ls_own. split; [done|]. intros i _. unfold ld_reg. by rewrite El, Ei. Qed.

Lemma keeps_slot_update slot f s : keeps {[slot]} s (update_module slot f s).
Proof.
  destruct (update_module_fields slot f s) as [Eg Ei]. split; [rewrite Eg; by split_and!|].
  intros i Hi. rewrite Ei, update_module_other by set_solver. done.
Qed.
Lemma keeps_ldr slot l s : (forall i, i <> slot -> modules (ls_reg l) !! i = modules (ld_reg s) !! i) -> keeps {[slot]} s (set_ldr l s).
Proof. intros H. split; [by split_and!|]. intros i Hi. split; [apply H; set_solver|done]. Qed.

Lemma keeps_link slot s s' :
  (if ls_peb_ldr (ld_ldr s) then match ldr_add_module slot (ld_ldr s) with Ret l => Ret (set_ldr l s) | Fail => Ret s | Fault => Fault end
   else Ret s) = Ret s' -> keeps {[slot]} s s'.
Proof.
  intros H. assert (R : keeps {[slot]} s s) by (split; [by split_and!|done]). case_hyp H; [|by injection H as <-].
  destruct (ldr_add_module slot (ld_ldr s)) as [l| |] eqn:El; inv_ret; [|done].
  apply ldr_add_module_inv in El as [->|(m & e & Hm & Hl)]; [by destruct s|]. apply keeps_ldr. intros i Hi.
  unfold ld_reg. by rewrite Hl, list_lookup_insert_ne.
Qed.

Lemma keeps_discard slot nt base s s' : discard_module slot nt base s = Ret s' -> keeps {[slot]} s s'.
Proof.
  unfold discard_module. intros H. apply bind_Ret in H as (m & Hm & H). apply bind_Ret in H as (l & Hl & H). injection H as <-.
  split; [simpl; rewrite (proj1 (update_module_fields _ _ _)); by split_and!|].
  intros i Hi. assert (i <> slot) by set_solver. simpl. split.
  - unfold ld_reg at 1. simpl. rewrite remove_module_other, update_module_other by done.
    case_hyp Hl; [by eapply ldr_remove_module_inv in Hl|by injection Hl as <-].
  - by rewrite lookup_delete_ne, (proj2 (update_module_fields _ _ _)).
Qed.

(** Both kinds of function: from the slots taken so far to some more. *)
Definition goes (own : gset nat) (s s' : loader_state) (more : gset nat -> Prop) : Prop :=
  exists own', lsteps (own, s) (own', s') /\ more own'.
Lemma goes_after own s own1 s1 s' more : lsteps (own, s) (own1, s1) -> goes own1 s1 s' more -> goes own s s' more.
Proof. intros H (own' & H' & M). exists own'. split; [by etrans|done]. Qed.
Lemma goes_seq own s s1 s' more more' : goes own s s1 more' -> (forall own1, own ⊆ own1 -> more' own1 -> goes own1 s1 s' more) -> goes own s s' more.
Proof. intros (own1 & H & M) K. eapply goes_after; [exact H|]. apply K; [|done]. exact (lsteps_grow _ _ H). Qed.
Lemma goes_stop own s s' (more : gset nat -> Prop) : lsteps (own, s) (own, s') -> more own -> goes own s s' more.
Proof. intros H M. by exists own. Qed.

Section resolver_steps.
Variable resolve_module : nat -> Z -> loader_state -> outcome (Z * loader_state).
Hypothesis Hresolve : forall own slot depth s rc s', slot ∈ own ->
  resolve_module slot depth s = Ret (rc, s') -> goes own s s' (fun _ => True).

Lemma attach_module_steps own slot base nt depth s r s' : slot ∈ own ->
  attach_module dll_entry resolve_module slot base nt depth s = Ret (r, s') ->
  goes own s s' (fun _ => r = None \/ r = Some slot).
Proof.
  intros Hin H. unfold attach_module in H. apply bind_Ret in H as (s1 & H1 & H). apply keeps_link in H1.
  eapply goes_after; [by eapply keeps_step|]. apply bind_Ret in H as ([rc s2] & H2 & H).
  eapply goes_seq; [by eapply Hresolve|]. intros own1 Hsub _. assert (Hin1 : slot ∈ own1) by set_solver. clear H1 H2 Hin.
  case_hyp H.
  { apply bind_Ret in H as (s3 & H3 & H). injection H as <- <-. apply keeps_discard in H3.
    apply goes_stop; [by eapply keeps_step|by left]. }
  apply bind_Ret in H as (mo & _ & H). apply bind_Ret in H as (s3 & H3 & H).
  assert (K3 : keeps {[slot]} s2 s3).
  { repeat case_hyp H3; inv_ret; try (split; [by split_and!|done]). destruct x. inv_ret. apply keeps_slot_update. }
  eapply goes_after; [by eapply keeps_step|].
  case_hyp H; [|injection H as <- <-; apply goes_stop; [done|by right]].
  apply bind_Ret in H as ([ok s4] & H4 & H).
  eapply goes_after; [by eapply rtc_once, ls_guest|].
  case_hyp H.
  - apply bind_Ret in H as (s5 & H5 & H). injection H as <- <-. apply keeps_discard in H5.
    apply goes_stop; [by eapply keeps_step|by left].
  - injection H as <- <-. apply goes_stop; [|by right]. eapply keeps_step; [done|apply keeps_slot_update].
Qed.

Lemma load_dll_steps own path depth s r s' :
  load_dll files mmap_fixed mmap_any mprotect mmap_page dll_entry resolve_module path depth s = Ret (r, s') ->
  goes own s s' (fun own' => forall slot, r = Some slot -> slot ∈ own').
Proof.
  unfold load_dll. destruct (reserve_base (ld_base_next s)) as [alloc_base next].
  intros H. apply bind_Ret in H as ([mapped g] & _ & H).
  match type of H with context [set_globals ?g ?s0] => set (s1 := set_globals g s0) in H end.
  assert (F1 : forall own s2, ld_globals s2 = ld_globals s1 -> ld_ldr s2 = ld_ldr s -> ld_images s2 = ld_images s -> lsteps (own, s) (own, s2)).
  { intros o s2 Hg. apply keeps_none. rewrite Hg. apply globals_restored. }
  destruct mapped as [m|]; [|injection H as <- <-; apply goes_stop; [by apply F1|done]].
  destruct (Z.eqb_spec (mi_base m) 0) as [|Hb]; [injection H as <- <-; apply goes_stop; [by apply F1|done]|].
  match type of H with context [mmap_page ?x] => set (s2 := x) in H end.
  assert (E2 : ld_globals s2 = ld_globals s1 /\ ld_ldr s2 = ld_ldr s /\ ld_images s2 = ld_images s)
    by (subst s2; by destruct (PAGE_SIZE <? _)).
  destruct E2 as (Eg & El & Ei).
  case_hyp H; [destruct is_my_wine32; [done|]; injection H as <- <-; apply goes_stop; [by apply F1|done]|].
  apply bind_Ret in H as (img_nt & _ & H).
  destruct (Bool.eqb _ _) eqn:Ep; cbn [negb] in H; [|injection H as <- <-; apply goes_stop; [by apply F1|done]].
  destruct (add_module _ _ _ _) as [[reg slot]|] eqn:Ea; [|injection H as <- <-; apply goes_stop; [by apply F1|done]].
  apply add_module_inv in Ea as (Hfree & Hother & n & Hn & Hnb & Hnn & Hnt).
  eapply goes_after; [by apply (F1 own s2)|]. apply Bool.eqb_prop in Ep.
  match type of H with attach_module _ _ _ _ _ _ ?x = _ => eapply (goes_after own s2 ({[slot]} ∪ own) x) end.
  - apply rtc_once. eapply ls_take; [exact Hfree| |exact Hn|unfold live; congruence|exact Hnt|rewrite Eg; exact (eq_sym Ep)].
    split; [by split_and!|]. intros i Hi. assert (i <> slot) by set_solver.
    split; [by apply Hother|]. simpl. by rewrite lookup_insert_ne.
  - apply (attach_module_steps ({[slot]} ∪ own)) in H; [|set_solver].
    eapply goes_seq; [exact H|]. intros own1 Hsub Hr. apply goes_stop; [done|]. intros slot' ->.
    destruct Hr as [|[= ->]]; [done|]. set_solver.
Qed.

Lemma dep_loop_steps own slot base nt import_rva dir_size depth fuel desc off s rc s' :
  dep_loop files openat mmap_fixed mmap_any mprotect mmap_page dll_entry g_wine_dll_path resolve_module
    slot base nt import_rva dir_size depth fuel desc off s = Ret (rc, s') ->
  goes own s s' (fun _ => True).
Proof.
  revert own desc off s. induction fuel as [|fuel IH]; intros own desc off s H; [done|]. cbn [dep_loop] in H.
  assert (Stop : forall o x, goes o x x (fun _ => True)) by (intros; by apply goes_stop).
  case_hyp H; [by injection H as <- <-|].
  apply bind_Ret in H as (name & _ & H). case_hyp H; [by injection H as <- <-|].
  apply bind_Ret in H as (valid & _ & H). case_hyp H; [by injection H as <- <-|].
  apply bind_Ret in H as (dll_name & _ & H).
  assert (Hnext : forall own s1,
    match pe_rva_to_ptr base nt (u32 (import_rva + u32 (off + sizeof_IMAGE_IMPORT_DESCRIPTOR)))
            sizeof_IMAGE_IMPORT_DESCRIPTOR with
    | None => Ret (-1, s1)
    | Some desc => dep_loop files openat mmap_fixed mmap_any mprotect mmap_page dll_entry g_wine_dll_path
                     resolve_module slot base nt import_rva dir_size depth fuel desc
                     (u32 (off + sizeof_IMAGE_IMPORT_DESCRIPTOR)) s1
    end = Ret (rc, s') -> goes own s1 s' (fun _ => True)).
  { intros o s1 Hs. case_hyp Hs; [by eapply IH|by injection Hs as <- <-]. }
  apply bind_Ret in H as (dep & _ & H). destruct dep; [by apply Hnext|].
  case_hyp H; [by apply Hnext|].
  apply bind_Ret in H as ([[found path] exe_dir] & _ & H).
  eapply goes_after; [apply (keeps_none own s (set_exe_dir exe_dir s)); [by split_and!|done..]|].
  case_hyp H; [by injection H as <- <-|].
  apply bind_Ret in H as (p & _ & H). apply bind_Ret in H as ([dep s1] & Hl & H).
  eapply goes_seq; [by eapply load_dll_steps|]. intros own1 _ _.
  case_hyp H; [by apply Hnext|by injection H as <- <-].
Qed.
End resolver_steps.

Lemma resolve_module_imports_steps fuel own slot depth s rc s' : slot ∈ own ->
  resolve_module_imports files openat mmap_fixed mmap_any mprotect mmap_page dll_entry g_debug_level
    g_wine_dll_path import_table fuel slot depth s = Ret (rc, s') -> goes own s s' (fun _ => True).
Proof.
  revert own slot depth s rc s'. induction fuel as [|fuel IH]; intros own slot depth s rc s' Hin H;
    cbn [resolve_module_imports] in H;
    (case_hyp H; [injection H as <- <-; by apply goes_stop|]); [done|].
  assert (Stop : forall o x, goes o x x (fun _ => True)) by (intros; by apply goes_stop).
  apply bind_Ret in H as (m & Hm & H). apply bind_Ret in H as (nt & _ & H).
  destruct (pe_get_import_dir nt) as [dir| |]; [|by injection H as <- <-|done].
  case_hyp H; [by injection H as <- <-|]. case_hyp H; [by injection H as <- <-|].
  destruct (pe_rva_to_ptr _ _ _ _) as [desc|]; [|by injection H as <- <-].
  apply bind_Ret in H as ([rc1 s1] & Hd & H).
  eapply goes_seq; [eapply dep_loop_steps; [exact IH|exact Hd]|]. intros own1 Hsub _. assert (Hin1 : slot ∈ own1) by set_solver.
  case_hyp H; [by injection H as <- <-|]. apply bind_Ret in H as ([rc2 img] & _ & H).
  eapply goes_after; [apply (keeps_step own1 slot s1 (set_images (<[slot := img]> (ld_images s1)) s1) Hin1)|].
  { split; [by split_and!|]. intros i Hi. assert (i <> slot) by set_solver. simpl. by rewrite lookup_insert_ne. }
  case_hyp H; [by injection H as <- <-|].
  apply bind_Ret in H as (mo & _ & H). apply bind_Ret in H as ([x c] & _ & H). injection H as <- <-.
  apply goes_stop; [|done]. eapply keeps_step; [done|apply keeps_slot_update].
Qed.
End frames.

(** ** The recursion is bounded by the import depth *)

Section depth.
Context {A : Arch} (files : cstr -> option bytes) (openat : cstr -> Z)
  (mmap_fixed : Z -> Z -> option Z) (mmap_any : Z -> option Z) (mprotect : Z -> Z -> Z -> bool)
  (mmap_page : loader_state -> bool)
  (dll_entry : nat -> Z -> Z -> Z -> loader_state -> Z * loader_state)
  (g_debug_level : Z) (g_wine_dll_path : cstr) (import_table : list import_entry_t).

Lemma load_dll_ext r1 r2 path depth s :
  (forall slot s, r1 slot (depth + 1) s = r2 slot (depth + 1) s) ->
  load_dll files mmap_fixed mmap_any mprotect mmap_page dll_entry r1 path depth s
  = load_dll files mmap_fixed mmap_any mprotect mmap_page dll_entry r2 path depth s.
Proof.
  intros H. unfold load_dll. destruct (reserve_base _) as [a n].
  destruct (map_image_at _ _ _ _ _ _ _) as [[[m|] g]| |]; cbn [mbind outcome_bind]; [|done..].
  destruct (mi_base m =? 0); [done|]. destruct (negb (mmap_page _)); [done|].
  destruct (image_nt_headers _) as [nt| |]; cbn [mbind outcome_bind]; [|done..].
  destruct (negb (Bool.eqb _ _)); [done|]. destruct (add_module _ _ _ _) as [[r slot]|]; [|done].
  unfold attach_module.
  match goal with |- (?x ≫= _) = _ => destruct x as [s1| |] end; cbn [mbind outcome_bind]; [|done..].
  by rewrite H.
Qed.

(** The fuel covers the directory behind [off]. *)
Definition dep_fuel_enough (dir_size off : Z) (fuel : nat) : Prop :=
  (1 <= fuel)%nat /\ 0 <= off < 2 ^ 32 - 20 /\ dir_size < 2 ^ 32 - 20 /\ dir_size < off + 20 * Z.of_nat fuel.

Lemma dep_loop_agree r1 r2 slot base nt import_rva dir_size depth f1 f2 desc off s :
  (forall slot s, r1 slot (depth + 1 + 1) s = r2 slot (depth + 1 + 1) s) ->
  f1 = f2 \/ dep_fuel_enough dir_size off f1 /\ dep_fuel_enough dir_size off f2 ->
  dep_loop files openat mmap_fixed mmap_any mprotect mmap_page dll_entry g_wine_dll_path r1
    slot base nt import_rva dir_size depth f1 desc off s
  = dep_loop files openat mmap_fixed mmap_any mprotect mmap_page dll_entry g_wine_dll_path r2
    slot base nt import_rva dir_size depth f2 desc off s.
Proof.
  intros H. revert f2 desc off s. induction f1 as [|f1 IH]; intros f2 desc off s Hf.
  { destruct Hf as [<-|[[? _] _]]; [done|lia]. }
  destruct f2 as [|f2]; [destruct Hf as [?|[_ [? _]]]; lia|]. cbn [dep_loop].
  destruct (Z.ltb_spec dir_size (usize (off + sizeof_IMAGE_IMPORT_DESCRIPTOR))) as [|Hs]; [done|].
  assert (Hf' : f1 = f2 \/
    dep_fuel_enough dir_size (u32 (off + sizeof_IMAGE_IMPORT_DESCRIPTOR)) f1 /\
    dep_fuel_enough dir_size (u32 (off + sizeof_IMAGE_IMPORT_DESCRIPTOR)) f2).
  { destruct Hf as [Hf|[(_ & O & D & F1) (_ & _ & _ & F2)]]; [left; lia|].
    assert (E : u32 (off + sizeof_IMAGE_IMPORT_DESCRIPTOR) = off + 20)
      by (unfold sizeof_IMAGE_IMPORT_DESCRIPTOR; apply wrap_small; lia).
    assert (E' : usize (off + sizeof_IMAGE_IMPORT_DESCRIPTOR) = off + 20)
      by (unfold sizeof_IMAGE_IMPORT_DESCRIPTOR; apply usize_u32; lia).
    right. unfold dep_fuel_enough. rewrite E. lia. }
  destruct (desc_Name _ _) as [name| |]; cbn [mbind outcome_bind]; [|done..].
  destruct (name =? 0); [done|].
  destruct (import_cstr_valid _ _ _) as [v| |]; cbn [mbind outcome_bind]; [|done..].
  destruct (negb v); [done|]. destruct (deref _) as [dll| |]; cbn [mbind outcome_bind]; [|done..].
  destruct (find_module_by_name _ _) as [dep| |]; cbn [mbind outcome_bind]; [|done..].
  assert (Hnext : forall p (s1 : loader_state),
    match p with
    | None => Ret (-1, s1)
    | Some d => dep_loop files openat mmap_fixed mmap_any mprotect mmap_page dll_entry g_wine_dll_path r1
        slot base nt import_rva dir_size depth f1 d (u32 (off + sizeof_IMAGE_IMPORT_DESCRIPTOR)) s1
    end = match p with
    | None => Ret (-1, s1)
    | Some d => dep_loop files openat mmap_fixed mmap_any mprotect mmap_page dll_entry g_wine_dll_path r2
        slot base nt import_rva dir_size depth f2 d (u32 (off + sizeof_IMAGE_IMPORT_DESCRIPTOR)) s1
    end) by (intros [p|] s1; [by apply IH|done]).
  destruct dep; [apply Hnext|]. destruct (is_builtin_stub_library _); [apply Hnext|].
  destruct (find_dll_path _ _ _ _ _ _ _) as [[[found path] dir]| |]; cbn [mbind outcome_bind]; [|done..].
  destruct (negb found); [done|]. destruct (deref _) as [p| |]; cbn [mbind outcome_bind]; [|done..].
  rewrite (load_dll_ext r1 r2) by done.
  destruct (load_dll _ _ _ _ _ _ _ _ _ _) as [[[x|] s1]| |]; cbn [mbind outcome_bind]; [apply Hnext|done..].
Qed.

(** The fuel resolve_module_imports gives to the walk is enough. *)
Lemma dep_loop_fuel r slot base nt import_rva dir_size depth fuel desc s :
  0 <= dir_size < 2 ^ 32 - 20 -> dir_size < 20 * Z.of_nat fuel ->
  dep_loop files openat mmap_fixed mmap_any mprotect mmap_page dll_entry g_wine_dll_path r
    slot base nt import_rva dir_size depth fuel desc 0 s
  = dep_loop files openat mmap_fixed mmap_any mprotect mmap_page dll_entry g_wine_dll_path r
    slot base nt import_rva dir_size depth (S (S (Z.to_nat (dir_size / 20)))) desc 0 s.
Proof.
  intros D F. apply dep_loop_agree; [done|]. right.
  split; unfold dep_fuel_enough; split_and!; width_lia.
Qed.

Abbreviation resolve fuel :=
  (resolve_module_imports files openat mmap_fixed mmap_any mprotect mmap_page dll_entry g_debug_level
     g_wine_dll_path import_table fuel).

Lemma resolve_module_imports_fuel fuel fuel' slot depth s :
  MAX_IMPORT_DEPTH <= depth + 2 * Z.of_nat fuel -> MAX_IMPORT_DEPTH <= depth + 2 * Z.of_nat fuel' ->
  resolve fuel slot depth s = resolve fuel' slot depth s.
Proof.
  revert fuel' slot depth s. induction fuel as [|fuel IH]; intros fuel' slot depth s H H'.
  - destruct fuel'; cbn [resolve_module_imports]; destruct (Z.leb_spec MAX_IMPORT_DEPTH depth); [done|lia|done|lia].
  - destruct fuel' as [|fuel'];
      cbn [resolve_module_imports]; (destruct (Z.leb_spec MAX_IMPORT_DEPTH depth); [reflexivity|]); [lia|].
    destruct (deref _) as [m| |]; cbn [mbind outcome_bind]; [|done..].
    destruct (deref _) as [nt| |]; cbn [mbind outcome_bind]; [|done..].
    destruct (pe_get_import_dir nt) as [dir| |]; [|done..].
    destruct (dd_Size dir =? 0); [done|]. destruct (_ || _); [done|].
    destruct (pe_rva_to_ptr _ _ _ _) as [desc|]; [|done].
    assert (Hr : forall slot s, resolve fuel slot (depth + 1 + 1) s = resolve fuel' slot (depth + 1 + 1) s)
      by (intros; apply IH; lia).
    rewrite (dep_loop_agree (resolve fuel) (resolve fuel') _ _ _ _ _ _ _ _ _ _ _ Hr (or_introl eq_refl)).
    reflexivity.
Qed.

(** Loading a library nests at most four resolutions, whatever the DLLs import:
    more fuel gives the same result, so the recursion always ends. *)
Theorem load_library_nesting_bounded k path s :
  load_dll files mmap_fixed mmap_any mprotect mmap_page dll_entry (resolve (4 + k)) path 0 s
  = load_library files openat mmap_fixed mmap_any mprotect mmap_page dll_entry g_debug_level g_wine_dll_path
      import_table path s.
Proof.
  unfold load_library. apply load_dll_ext. intros slot s'.
  apply resolve_module_imports_fuel; unfold MAX_IMPORT_DEPTH; lia.
Qed.

(** C14: Loading a library never changes a module that was already loaded, whatever the
    file and its dependencies hold and whether or not loading succeeds.  In general:
    loading consists of steps in which the loader changes no record and no image outside
    of the slots that it has taken, each of which was free when it took it for a module
    of the program's bitness, and restores the main program's base, path and bitness;
    between them only the DllMain of a module in one of these slots runs, whose code is
    arbitrary; a returned slot is one of them.  In a 64-bit program no DllMain runs:
    every registered module keeps its record and its image, and a returned slot was free
    before and now holds a module of the program's bitness under the file's name. *)
Theorem load_library_keeps_loaded path s r s' :
  load_library files openat mmap_fixed mmap_any mprotect mmap_page dll_entry g_debug_level g_wine_dll_path
    import_table path s = Ret (r, s') ->
  (exists own, rtc (lstep dll_entry) (∅, s) (own, s') /\ forall slot, r = Some slot -> slot ∈ own) /\
  (g_is_32bit (ld_globals s) = false -> frame nothing s s' /\ forall slot, r = Some slot -> newly_loaded path s s' slot).
Proof.
  intros H. unfold load_library in H. split.
  - refine (load_dll_steps files openat _ _ _ _ _ g_debug_level g_wine_dll_path _ _ ∅ _ _ _ _ _ H).
    intros. by eapply resolve_module_imports_steps.
  - intros Hb. refine (load_dll_frame files openat _ _ _ _ _ g_wine_dll_path _ _ _ _ _ _ _ _ H).
    + intros. by eapply resolve_module_imports_frame.
    + intros Hb'. congruence.
Qed.
End depth.

(** ** Witness: a DLL without imports in an empty process, and one whose import is
    a second DLL. *)

Definition app64 : bytes :=
  let h := sample_file (sample_nt64 0x140000000 0x2000 0x200 1 0x22 (set_dir 1 0x1000 40 no_dirs)) import64_secs [] in
  h ++ replicate (512 - length h) 0 ++ import64_idata.
Definition demo_files (p : cstr) : option bytes :=
  if decide (p = lit "/w/plain.dll") then Some hello64
  else if decide (p = lit "/w/app.dll") then Some app64
  else if decide (p = lit "/w/a.dll") then Some hello64 else None.
Definition demo_opens (p : cstr) : Z := if decide (p = lit "/w/a.dll") then 3 else -2.
Definition demo_entry (slot : nat) (entry base reason : Z) (s : loader_state) : Z * loader_state := (1, s).
Definition demo_state : loader_state :=
  mkLoaderState (mkLoader 0x400000 0x5000 (lit "/w/game.exe") false) 0x60000000
    (mkLdrState (init_module_list (mkRegistry [] 0 ∅)) false) ∅ [] [].
Abbreviation demo_load p s :=
  (@load_library arch64 demo_files demo_opens (fun a _ => Some a) (fun _ => None) (fun _ _ _ => true)
     (fun _ => true) demo_entry 0 [] [] p s).

Definition demo_slot (p : cstr) (s : loader_state) : option nat :=
  match demo_load p s with Ret (r, _) => r | _ => None end.
Definition demo_after (p : cstr) (s : loader_state) : loader_state :=
  match demo_load p s with Ret (_, s') => s' | _ => s end.
Lemma demo_load_result p s k : demo_slot p s = Some k -> demo_load p s = Ret (Some k, demo_after p s).
Proof. unfold demo_slot, demo_after. by destruct (demo_load p s) as [[r s']| |]; [intros ->|..]. Qed.

Definition demo_loaded : loader_state := demo_after (lit "/w/plain.dll") demo_state.

Lemma load_library_keeps_loaded_witness :
  demo_slot (lit "/w/app.dll") demo_loaded = Some 1%nat /\
  frame nothing demo_loaded (demo_after (lit "/w/app.dll") demo_loaded) /\
  newly_loaded (lit "/w/app.dll") demo_loaded (demo_after (lit "/w/app.dll") demo_loaded) 1.
Proof.
  assert (E : demo_slot (lit "/w/app.dll") demo_loaded = Some 1%nat) by (vm_compute; reflexivity).
  destruct (@load_library_keeps_loaded arch64 demo_files demo_opens (fun a _ => Some a) (fun _ => None)
    (fun _ _ _ => true) (fun _ => true) demo_entry 0 [] [] (lit "/w/app.dll") demo_loaded (Some 1%nat)
    (demo_after (lit "/w/app.dll") demo_loaded) (demo_load_result _ _ _ E)) as [_ H].
  destruct H as [F N]; [vm_compute; reflexivity|]. split; [exact E|]. split; [exact F|]. exact (N 1%nat eq_refl).
Defined.

(** Loading "/w/app.dll" also loads the DLL it imports. *)
Example app_dll_loads_its_import :
  (fun m => (m_base m, m_name m)) <$>
    take 4 (modules (ld_reg (demo_after (lit "/w/app.dll") demo_loaded)))
  = [(0x60000000, lit "plain.dll"); (0x60003000, lit "app.dll"); (0x60005000, lit "a.dll"); (0, [])].
Proof. vm_compute. reflexivity. Qed.

(** The size of the image is not restored: it is the size of the last DLL that was
    mapped. *)
Example image_size_of_the_dll_stays :
  g_image_size (ld_globals demo_state) = 0x5000 /\ g_image_size (ld_globals demo_loaded) = 0x3000.
Proof. vm_compute. done. Qed.

(** "/w/bad.dll" imports a.dll, which loads, and b.dll, which does not exist.  The
    failed load frees slot 0 below a.dll, the count drops to one, and a.dll is no
    longer found although it is still registered. *)
Definition bad64_idata : bytes :=
  encode_IMAGE_IMPORT_DESCRIPTOR (mk_IMAGE_IMPORT_DESCRIPTOR 0x1050 0 0 0x103c 0x1050) ++
  encode_IMAGE_IMPORT_DESCRIPTOR (mk_IMAGE_IMPORT_DESCRIPTOR 0x1050 0 0 0x1042 0x1050) ++
  replicate 20 0 ++ lit "a.dll"%string ++ [0] ++ lit "b.dll"%string ++ replicate 25 0.
Definition bad64 : bytes :=
  let h := sample_file (sample_nt64 0x140000000 0x2000 0x200 1 0x22 (set_dir 1 0x1000 60 no_dirs)) import64_secs [] in
  h ++ replicate (512 - length h) 0 ++ bad64_idata.
Definition bad_files (p : cstr) : option bytes :=
  if decide (p = lit "/w/bad.dll") then Some bad64 else demo_files p.
Definition bad_load : outcome (option nat * loader_state) :=
  @load_library arch64 bad_files demo_opens (fun a _ => Some a) (fun _ => None) (fun _ _ _ => true)
    (fun _ => true) demo_entry 0 [] [] (lit "/w/bad.dll") demo_state.

Example failed_load_hides_dependency :
  match bad_load with
  | Ret (None, s') =>
      (fun m => (m_base m, m_name m)) <$> take 2 (modules (ld_reg s')) = [(0, []); (0x60002000, lit "a.dll")] /\
      module_count (ld_reg s') = 1 /\ find_module_by_name (lit "a.dll") (ld_reg s') = Ret None
  | _ => False
  end.
Proof. vm_compute. done. Qed.
