(* ===== verification/Kernel32Module.v ===== *)
(** * The library functions of kernel32 (src/msvcrt/kernel32_module.c)

    LoadLibraryA, GetProcAddress, GetModuleHandleA/W, GetModuleFileNameA and
    FreeLibraryA on top of the module registry and load_dll.  A HMODULE is the
    base of a module or one of the fixed handles of the built-in DLLs; 0 is NULL. *)
From S2P Require Import Prelude Bytes CStr PeStructs TestImages PePriv PeHeaders.
From S2P Require Import ModuleList PebLdr ExportTable ImageMapper ImportTable DllPath ImportResolve DllLoader.

Record builtin_module_t := mkBuiltin { bm_name : cstr; bm_handle : Z }.

(** The table without its sentinel. *)
Definition g_builtin_modules : list builtin_module_t :=
  [mkBuiltin (lit "kernel32.dll") 0xffff0001;
   mkBuiltin (lit "ntdll.dll") 0xffff0002;
   mkBuiltin (lit "msvcrt.dll") 0xffff0003;
   mkBuiltin (lit "advapi32.dll") 0xffff0004;
   mkBuiltin (lit "user32.dll") 0xffff0005;
   mkBuiltin (lit "gdi32.dll") 0xffff0006;
   mkBuiltin (lit "winmm.dll") 0xffff0007;
   mkBuiltin (lit "ddraw.dll") 0xffff0008;
   mkBuiltin (lit "dsound.dll") 0xffff0009;
   mkBuiltin (lit "dplay.dll") 0xffff000a;
   mkBuiltin (lit "comdlg32.dll") 0xffff000b;
   mkBuiltin (lit "comctl32.dll") 0xffff000c].

Definition find_builtin_module_by_name (name : cstr) : option builtin_module_t :=
  List.find (fun b => syscall_safe_strcasecmp (bm_name b) name =? 0) g_builtin_modules.
Definition find_builtin_module_by_handle (handle : Z) : option builtin_module_t :=
  List.find (fun b => bm_handle b =? handle) g_builtin_modules.

(** The first stub of the DLL with the name and an address; 0 for NULL. *)
Fixpoint lookup_builtin_export (dll_name func_name : cstr) (t : list import_entry_t) : Z :=
  match t with
  | [] => 0
  | e :: t =>
      if ie_address e =? 0 then lookup_builtin_export dll_name func_name t
      else if negb (syscall_safe_strcasecmp (ie_dll_name e) dll_name =? 0)
      then lookup_builtin_export dll_name func_name t
      else if negb (syscall_safe_strcmp (ie_name e) func_name =? 0)
      then lookup_builtin_export dll_name func_name t
      else ie_address e
  end.

Definition set_load_count (n : Z) (m : loaded_module_t) : loaded_module_t :=
  mkModule (m_base m) (m_name m) (m_nt m) (m_export_cache m) (m_ldr_entry m) n (m_ldr_linked m) (m_dllmain_called m).
Definition clear_dllmain_called (m : loaded_module_t) : loaded_module_t :=
  mkModule (m_base m) (m_name m) (m_nt m) (m_export_cache m) (m_ldr_entry m) (m_load_count m) (m_ldr_linked m) false.

Definition DLL_PROCESS_DETACH : Z := 0.

(** The loader's state and the static buffer g_dll_path. *)
Record k32_state := mkK32 { k_loader : loader_state; k_dll_path : bytes }.

Section k32.
Context {A : Arch}.
Variable files : cstr -> option bytes.
Variable openat : cstr -> Z.
Variable mmap_fixed : Z -> Z -> option Z.
Variable mmap_any : Z -> option Z.
Variable mprotect : Z -> Z -> Z -> bool.
Variable mmap_page : loader_state -> bool.
Variable dll_entry : forall (slot : nat) (entry base reason : Z), loader_state -> Z * loader_state.
Variable g_debug_level : Z.
Variable g_wine_dll_path : cstr.
Variable import_table : list import_entry_t.

(** [None]: the name is NULL. *)
Definition LoadLibraryA (lpLibFileName : option cstr) (k : k32_state) : outcome (Z * k32_state) :=
  match lpLibFileName with
  | None => Ret (0, k)
  | Some name =>
      let s := k_loader k in
      found ← find_module_by_name_safe name (ld_reg s);
      match (found : option nat) with
      | Some slot =>
          m ← deref (modules (ld_reg s) !! slot);
          Ret (m_base m, mkK32 (update_module slot (set_load_count (m_load_count m + 1)) s) (k_dll_path k))
      | None =>
          match find_builtin_module_by_name name with
          | Some b => Ret (bm_handle b, k)
          | None =>
              '(found, path, exe_dir) ← find_dll_path openat (Some (g_pe_path (ld_globals s))) g_wine_dll_path
                                          (ld_exe_dir s) name (k_dll_path k) 512;
              let s := set_exe_dir exe_dir s in
              if negb found then Ret (0, mkK32 s path)
              else
                p ← deref (cstr_from path);
                '(r, s) ← load_library files openat mmap_fixed mmap_any mprotect mmap_page dll_entry
                            g_debug_level g_wine_dll_path import_table p s;
                match (r : option nat) with
                | None => Ret (0, mkK32 s path)
                | Some slot => m ← deref (modules (ld_reg s) !! slot); Ret (m_base m, mkK32 s path)
                end
          end
      end
  end.

Definition GetProcAddress (hModule : Z) (lpProcName : option cstr) (s : loader_state) : outcome Z :=
  match lpProcName with
  | None => Ret 0
  | Some name =>
      if hModule =? 0 then Ret 0
      else
        match find_builtin_module_by_handle hModule with
        | Some b => Ret (lookup_builtin_export (bm_name b) name import_table)
        | None =>
            found ← find_module_by_addr hModule (ld_reg s);
            match (found : option nat) with
            | None => Ret 0
            | Some slot =>
                m ← deref (modules (ld_reg s) !! slot);
                if number_of_names (m_export_cache m) =? 0 then Ret 0
                else
                  r ← lookup_export m (image_of_slot s slot) name;
                  Ret (match r with Some rva => m_base m + rva | None => 0 end)
            end
        end
  end.

Definition GetModuleHandleA (lpModuleName : option cstr) (s : loader_state) : outcome Z :=
  match lpModuleName with
  | None =>
      if 0 <? module_count (ld_reg s) then m ← deref (modules (ld_reg s) !! 0%nat); Ret (m_base m) else Ret 0
  | Some name =>
      match find_builtin_module_by_name name with
      | Some b => Ret (bm_handle b)
      | None =>
          found ← find_module_by_name_safe name (ld_reg s);
          match (found : option nat) with
          | None => Ret 0
          | Some slot => m ← deref (modules (ld_reg s) !! slot); Ret (m_base m)
          end
      end
  end.

(** The copy loop: [src] from position [len] on, into the caller's buffer. *)
Fixpoint copy_name (src : cstr) (len nSize : Z) (buf : bytes) : outcome (Z * bytes) :=
  match src with
  | c :: src =>
      if u32 (len + 1) <? nSize then
        buf ← store_bytes len [c] buf; copy_name src (u32 (len + 1)) nSize buf
      else Ret (len, buf)
  | [] => Ret (len, buf)
  end.

(** [lpFilename]: the caller's buffer, [None] for NULL. *)
Definition GetModuleFileNameA (hModule : Z) (lpFilename : option bytes) (nSize : Z) (s : loader_state)
  : outcome (Z * option bytes) :=
  match lpFilename with
  | None => Ret (0, None)
  | Some buf =>
      if nSize =? 0 then Ret (0, Some buf)
      else
        src ← (if (hModule =? 0) || (hModule =? g_image_base (ld_globals s)) then Ret (g_pe_path (ld_globals s))
               else
                 found ← find_module_by_addr hModule (ld_reg s);
                 match (found : option nat) with
                 | None => Ret (g_pe_path (ld_globals s))
                 | Some slot => m ← deref (modules (ld_reg s) !! slot); Ret (m_name m)
                 end);
        '(len, buf) ← copy_name src 0 nSize buf;
        buf ← store_bytes len [0] buf;
        Ret (len, Some buf)
  end.

(** The units up to the end or the 259th; [None] when one is not ASCII.  The
    string is the list of its units, without the terminator. *)
Fixpoint narrow_name (units : list Z) (i : nat) : option cstr :=
  match units with
  | [] => Some []
  | ch :: units =>
      if (i + 1 <? 260)%nat then
        if 0x7f <? ch then None else option_map (cons ch) (narrow_name units (S i))
      else Some []
  end.

Definition GetModuleHandleW (lpModuleName : option (list Z)) (s : loader_state) : outcome Z :=
  match lpModuleName with
  | None => GetModuleHandleA None s
  | Some units =>
      match narrow_name units 0 with
      | None => Ret 0
      | Some name => GetModuleHandleA (Some name) s
      end
  end.

Definition call_module_dllmain_detach (slot : nat) (s : loader_state) : outcome loader_state :=
  m ← deref (modules (ld_reg s) !! slot);
  match m_nt m with
  | None => Ret s
  | Some nt =>
      if negb (m_dllmain_called m) || (m_base m =? 0) || (pe_entry_rva nt =? 0) then Ret s
      else
        let '(_, s) := dll_entry slot (m_base m + pe_entry_rva nt) (m_base m) DLL_PROCESS_DETACH s in
        Ret (update_module slot clear_dllmain_called s)
  end.

(** The last reference is gone: detach, unlink, unmap, unregister. *)
Definition unload_module (slot : nat) (s : loader_state) : outcome loader_state :=
  s ← call_module_dllmain_detach slot s;
  let s := update_module slot reset_export_cache s in
  m ← deref (modules (ld_reg s) !! slot);
  l ← (if ls_peb_ldr (ld_ldr s) && m_ldr_linked m then ldr_remove_module slot (ld_ldr s) else Ret (ld_ldr s));
  let s := set_ldr l s in
  m ← deref (modules (ld_reg s) !! slot);
  let s := match m_nt m with
           | Some nt => if m_base m =? 0 then s
                        else munmap (m_base m) (pe_size_of_image nt) (set_images (delete slot (ld_images s)) s)
           | None => s
           end in
  Ret (set_reg (remove_module slot (ld_reg s)) s).

Definition FreeLibraryA (hModule : Z) (s : loader_state) : outcome (Z * loader_state) :=
  match find_builtin_module_by_handle hModule with
  | Some _ => Ret (1, s)
  | None =>
      found ← find_module_by_addr hModule (ld_reg s);
      match (found : option nat) with
      | None => Ret (0, s)
      | Some slot =>
          m ← deref (modules (ld_reg s) !! slot);
          let s := update_module slot (set_load_count (m_load_count m - 1)) s in
          if 0 <? m_load_count m - 1 then Ret (1, s)
          else s ← unload_module slot s; Ret (1, s)
      end
  end.
End k32.

(** ** Reference counts *)

(** Under compactness, no module's base lies in another module and no two modules
    share a name up to case; no base is the handle of a built-in DLL. *)
Record registry_sound {A : Arch} (r : registry) : Prop := {
  rs_ok : registry_ok r;
  rs_compact : compact r;
  rs_covers : forall i m, modules r !! i = Some m -> live m -> module_covers (m_base m) m = true;
  rs_apart : forall i j m n, modules r !! i = Some m -> modules r !! j = Some n -> live m ->
    module_covers (m_base m) n = true -> i = j;
  rs_names : forall i j m n, modules r !! i = Some m -> modules r !! j = Some n -> live m -> live n ->
    safe_name_eq (m_name n) (m_name m) = true -> i = j;
  rs_handles : forall i m, modules r !! i = Some m -> live m -> find_builtin_module_by_handle (m_base m) = None }.

Section refcount.
Context {A : Arch}.

Lemma sound_find_by_addr r i m :
  registry_sound r -> modules r !! i = Some m -> live m -> find_module_by_addr (m_base m) r = Ret (Some i).
Proof.
  intros Hs Hm Hl. destruct (find_module_loop_complete (module_covers (m_base m)) r i m) as (j & n & E & Hn & Hp & _);
    [by destruct Hs..|by eapply rs_covers|].
  unfold find_module_by_addr. rewrite E. by rewrite (rs_apart _ Hs i j m n).
Qed.

Lemma safe_name_eq_refl a : safe_name_eq a a = true.
Proof. by apply safe_name_eq_spec. Qed.

Lemma sound_find_by_name r i m :
  registry_sound r -> modules r !! i = Some m -> live m -> find_module_by_name_safe (m_name m) r = Ret (Some i).
Proof.
  intros Hs Hm Hl. unfold find_module_by_name_safe. rewrite find_module_loop_ok by apply Hs.
  pose proof (proj1 (rs_compact _ Hs i m Hm) Hl) as Hi.
  destruct (list_find _ _) as [[j n]|] eqn:E; simpl.
  - apply list_find_Some in E as (Hj & Hp & _). pose proof (lookup_lt_Some _ _ _ Hj) as L.
    rewrite length_take in L. rewrite lookup_take_lt in Hj by lia.
    rewrite (rs_names _ Hs i j m n); try done. apply (rs_compact _ Hs j n Hj). lia.
  - apply list_find_None in E. rewrite Forall_lookup in E.
    destruct (E i m); [rewrite lookup_take_lt by lia; done|apply safe_name_eq_refl].
Qed.

Lemma set_load_count_twice a b m : set_load_count a (set_load_count b m) = set_load_count a m.
Proof. done. Qed.

(** Changing a count keeps a registry sound. *)
Lemma registry_sound_count r i m c :
  registry_sound r -> modules r !! i = Some m -> registry_sound (set_module i (set_load_count c m) r).
Proof.
  intros Hs Hm.
  assert (Hback : forall j n, modules (set_module i (set_load_count c m) r) !! j = Some n ->
    exists n', modules r !! j = Some n' /\ m_base n' = m_base n /\ m_name n' = m_name n /\ m_nt n' = m_nt n).
  { intros j n Hj. simpl in Hj. apply list_lookup_insert_Some in Hj as [(-> & <- & _)|[_ Hj]]; eauto. }
  destruct Hs as [[L C] Hc Hv Ha Hn Hh]. split.
  - split; simpl; [by rewrite length_insert|].
    pose proof (live_count_insert (modules r) i m (set_load_count c m) Hm) as Hk.
    rewrite C. f_equal. assert (live (set_load_count c m) <-> live m) by done.
    destruct (decide (live m)), (decide (live (set_load_count c m))); try tauto; lia.
  - intros j n Hj. destruct (Hback j n Hj) as (n' & Hn' & Hb & _).
    rewrite <- (Hc j n' Hn'). unfold live. by rewrite Hb.
  - intros j n Hj Hl. destruct (Hback j n Hj) as (n' & Hn' & Hb & _ & Ht).
    unfold live in Hl. rewrite <- Hb in Hl. specialize (Hv j n' Hn' Hl).
    unfold module_covers in *. by rewrite <- Ht, <- Hb.
  - intros j k n o Hj Hk Hl Hcv. destruct (Hback j n Hj) as (n' & Hn' & Hb & _).
    destruct (Hback k o Hk) as (o' & Ho' & Hb' & _ & Ht'). unfold live in Hl. rewrite <- Hb in *.
    apply (Ha j k n' o' Hn' Ho' Hl). unfold module_covers in *. by rewrite Ht', Hb'.
  - intros j k n o Hj Hk Hl Hl' Hq. destruct (Hback j n Hj) as (n' & Hn' & Hb & Hnm & _).
    destruct (Hback k o Hk) as (o' & Ho' & Hb' & Hnm' & _). unfold live in *. rewrite <- Hb, <- Hnm, <- Hb', <- Hnm' in *.
    by eapply Hn.
  - intros j n Hj Hl. destruct (Hback j n Hj) as (n' & Hn' & Hb & _). unfold live in *. rewrite <- Hb in *.
    by eapply Hh.
Qed.

Variable files : cstr -> option bytes.
Variable openat : cstr -> Z.
Variable mmap_fixed : Z -> Z -> option Z.
Variable mmap_any : Z -> option Z.
Variable mprotect : Z -> Z -> Z -> bool.
Variable mmap_page : loader_state -> bool.
Variable dll_entry : forall (slot : nat) (entry base reason : Z), loader_state -> Z * loader_state.
Variable g_debug_level : Z.
Variable g_wine_dll_path : cstr.
Variable import_table : list import_entry_t.

Abbreviation LoadLibrary := (LoadLibraryA files openat mmap_fixed mmap_any mprotect mmap_page dll_entry
  g_debug_level g_wine_dll_path import_table).

(** A program's calls on one library: load it by name, free it by handle. *)
Inductive lib_op := OpLoad | OpFree.

Fixpoint run_lib (name : cstr) (handle : Z) (ops : list lib_op) (k : k32_state)
  : outcome (list Z * k32_state) :=
  match ops with
  | [] => Ret ([], k)
  | OpLoad :: ops =>
      '(r, k) ← LoadLibrary (Some name) k; '(rs, k) ← run_lib name handle ops k; Ret (r :: rs, k)
  | OpFree :: ops =>
      '(r, s) ← FreeLibraryA dll_entry handle (k_loader k);
      '(rs, k) ← run_lib name handle ops (mkK32 s (k_dll_path k)); Ret (r :: rs, k)
  end.

(** The specification: a counter; every free but a last one is harmless. *)
Definition op_delta (o : lib_op) : Z := match o with OpLoad => 1 | OpFree => -1 end.
Fixpoint stays_loaded (c : Z) (ops : list lib_op) : bool :=
  match ops with
  | [] => true
  | o :: ops => (0 <? c + op_delta o) && stays_loaded (c + op_delta o) ops
  end.
Definition count_after (c : Z) (ops : list lib_op) : Z := fold_left (fun c o => c + op_delta o) ops c.
Definition op_result (handle : Z) (o : lib_op) : Z := match o with OpLoad => handle | OpFree => 1 end.

Definition with_count (i : nat) (c : Z) (k : k32_state) : k32_state :=
  mkK32 (update_module i (set_load_count c) (k_loader k)) (k_dll_path k).

Lemma update_module_at i f s m :
  modules (ld_reg s) !! i = Some m -> update_module i f s = set_reg (set_module i (f m) (ld_reg s)) s.
Proof. intros H. unfold update_module. by rewrite H. Qed.

Lemma with_count_module i c k m :
  modules (ld_reg (k_loader k)) !! i = Some m ->
  modules (ld_reg (k_loader (with_count i c k))) !! i = Some (set_load_count c m).
Proof.
  intros H. simpl. rewrite (update_module_at _ _ _ m H). simpl.
  by rewrite list_lookup_insert_eq by (by eapply lookup_lt_Some).
Qed.

Lemma with_count_twice i c d k m :
  modules (ld_reg (k_loader k)) !! i = Some m -> with_count i c (with_count i d k) = with_count i c k.
Proof.
  intros H. pose proof (with_count_module i d k m H) as H'. unfold with_count in *. simpl in *.
  rewrite (update_module_at _ _ _ _ H'), (update_module_at _ _ _ m H), (update_module_at i _ _ m H).
  unfold set_reg, set_ldr, set_module, ld_reg. simpl. by rewrite list_insert_insert_eq.
Qed.

Lemma with_count_sound i c k m :
  modules (ld_reg (k_loader k)) !! i = Some m -> registry_sound (ld_reg (k_loader k)) ->
  registry_sound (ld_reg (k_loader (with_count i c k))).
Proof.
  intros H Hs. simpl. rewrite (update_module_at _ _ _ m H). by apply (registry_sound_count _ i m).
Qed.

(** Calls on a loaded library do nothing but count. *)
Lemma run_lib_counts i ops : forall k m,
  registry_sound (ld_reg (k_loader k)) -> modules (ld_reg (k_loader k)) !! i = Some m -> live m ->
  stays_loaded (m_load_count m) ops = true ->
  run_lib (m_name m) (m_base m) ops k
  = Ret (map (op_result (m_base m)) ops, with_count i (count_after (m_load_count m) ops) k).
Proof.
  induction ops as [|o ops IH]; intros k m Hs Hm Hl Hc.
  - simpl. unfold with_count, count_after. simpl. rewrite (update_module_at _ _ _ m Hm).
    destruct k as [[g n [r p] im ex un] d], m, r. unfold set_reg, set_ldr, set_module, set_load_count, ld_reg in *.
    simpl in *. by rewrite list_insert_id.
  - cbn [stays_loaded] in Hc. apply andb_true_iff in Hc as [Hp Hc].
    specialize (IH (with_count i (m_load_count m + op_delta o) k) (set_load_count (m_load_count m + op_delta o) m)).
    rewrite (with_count_twice i _ _ k m Hm) in IH. cbn [m_name m_base m_load_count set_load_count] in IH.
    specialize (IH (with_count_sound i _ k m Hm Hs) (with_count_module i _ k m Hm) Hl Hc).
    destruct o; cbn [run_lib].
    + unfold LoadLibraryA at 1. rewrite (sound_find_by_name _ i m Hs Hm Hl). cbn [mbind outcome_bind].
      rewrite Hm. cbn [deref mbind outcome_bind].
      unfold with_count, op_delta in IH. rewrite IH. reflexivity.
    + unfold FreeLibraryA. rewrite (rs_handles _ Hs i m Hm Hl), (sound_find_by_addr _ i m Hs Hm Hl).
      cbn [mbind outcome_bind]. rewrite Hm. cbn [deref mbind outcome_bind].
      cbn [op_delta] in Hp. replace (0 <? m_load_count m - 1) with true by lia. cbn [mbind outcome_bind].
      unfold with_count, op_delta in IH. replace (m_load_count m + -1) with (m_load_count m - 1) in IH by lia.
      rewrite IH. simpl map. unfold count_after. simpl.
      by replace (m_load_count m - 1) with (m_load_count m + -1) by lia.
Qed.
End refcount.

(** ** The last reference *)

(** A registry whose slot [i] may have changed, but not as a registration. *)
Record stage (s0 s : loader_state) (order : list nat) (i : nat) (m0 : loaded_module_t) : Prop := {
  st_rep : ldr_rep (ld_ldr s) order;
  st_mod : exists m, modules (ld_reg s) !! i = Some m /\ m_base m = m_base m0 /\ m_nt m = m_nt m0;
  st_other : forall j, j <> i -> modules (ld_reg s) !! j = modules (ld_reg s0) !! j;
  st_count : module_count (ld_reg s) = module_count (ld_reg s0);
  st_unmapped : ld_unmapped s = ld_unmapped s0 }.

Lemma ldr_rep_set_module l order i m m' :
  ldr_rep l order -> modules (ls_reg l) !! i = Some m -> m_ldr_linked m' = m_ldr_linked m ->
  ldr_rep (mkLdrState (set_module i m' (ls_reg l)) (ls_peb_ldr l)) order.
Proof.
  intros [Hl Hr Hm Hs Hn] Hi E. split; simpl; [done|done| |..].
  - eapply linked_insert; [exact Hm|rewrite E; by apply Hm|done].
  - intros j Hj. rewrite is_Some_insert. by apply Hs.
  - intros j k Hj. rewrite is_Some_insert in Hj. by apply Hn.
Qed.

Lemma stage_update s0 s order i m0 f :
  (forall m, m_base (f m) = m_base m /\ m_nt (f m) = m_nt m /\ m_ldr_linked (f m) = m_ldr_linked m) ->
  stage s0 s order i m0 -> stage s0 (update_module i f s) order i m0.
Proof.
  intros Hf [Hr (m & Hm & Hb & Ht) Ho Hc Hu]. rewrite (update_module_at i f s m Hm).
  destruct (Hf m) as (E1 & E2 & E3). split; simpl; try done.
  - by eapply ldr_rep_set_module.
  - exists (f m). rewrite list_lookup_insert_eq by (by eapply lookup_lt_Some). split_and!; congruence.
  - intros j Hj. rewrite list_lookup_insert_ne by done. by apply Ho.
Qed.

(** The entry points do not call back into the loader. *)
Definition entry_does_not_load (dll_entry : nat -> Z -> Z -> Z -> loader_state -> Z * loader_state) : Prop :=
  forall slot entry base reason s,
    let s' := snd (dll_entry slot entry base reason s) in
    ld_ldr s' = ld_ldr s /\ ld_unmapped s' = ld_unmapped s.

(** The state after DllMain has been told to detach, which it is when it has been told
    to attach. *)
Definition detached (dll_entry : nat -> Z -> Z -> Z -> loader_state -> Z * loader_state) (i : nat) (m : loaded_module_t)
    (nt : IMAGE_NT_HEADERS) (s : loader_state) : loader_state :=
  if m_dllmain_called m && negb (pe_entry_rva nt =? 0)
  then snd (dll_entry i (m_base m + pe_entry_rva nt) (m_base m) DLL_PROCESS_DETACH s) else s.

(** Only the registry and the PEB lists differ. *)
Definition same_rest (s s' : loader_state) : Prop := s' = set_ldr (ld_ldr s') s.
Lemma same_rest_trans s1 s2 s3 : same_rest s1 s2 -> same_rest s2 s3 -> same_rest s1 s3.
Proof. unfold same_rest. intros E2 E3. rewrite E3. by rewrite E2 at 1. Qed.
Lemma same_rest_update i f s : same_rest s (update_module i f s).
Proof. unfold same_rest, update_module. case_match; [done|by destruct s]. Qed.

Lemma stage_detach dll_entry s0 s order i m0 m nt :
  entry_does_not_load dll_entry -> stage s0 s order i m0 ->
  modules (ld_reg s) !! i = Some m -> m_base m <> 0 -> m_nt m = Some nt ->
  exists s', call_module_dllmain_detach dll_entry i s = Ret s' /\ stage s0 s' order i m0 /\ same_rest (detached dll_entry i m nt s) s'.
Proof.
  intros He Hs Hm Hb Hnt. unfold call_module_dllmain_detach, detached.
  rewrite Hm. cbn [deref mbind outcome_bind]. rewrite Hnt, (proj2 (Z.eqb_neq _ _) Hb), orb_false_r.
  destruct (m_dllmain_called m), (pe_entry_rva nt =? 0); cbn [negb orb andb]; try (exists s; split_and!; [done..|by destruct s]).
  destruct (He i (m_base m + pe_entry_rva nt) (m_base m) DLL_PROCESS_DETACH s) as [El Eu].
  destruct (dll_entry _ _ _ _ s) as [r s1]. simpl in El, Eu. eexists. split; [reflexivity|]. split; [|apply same_rest_update].
  apply stage_update; [done|]. destruct Hs as [Hr Hmo Ho Hc Hu].
  split; unfold ld_reg in *; rewrite ?El; try done. by rewrite Eu.
Qed.

(** Removing the slot from the registry keeps the lists. *)
Lemma remove_module_rep l order i :
  ldr_rep l order -> i ∉ order -> ldr_rep (mkLdrState (remove_module i (ls_reg l)) (ls_peb_ldr l)) order.
Proof.
  intros [Hl Hr Hm Hs Hn] Hi. unfold remove_module. case_match; [|by split].
  split; simpl; [done| | |..].
  - intros k Hk. eapply ring_frame; [|by apply Hr]. intros n Hn'. unfold zero_links.
    apply elem_of_cons in Hn' as [->|(t & -> & Ht)%elem_of_nodes]; [by rewrite !lookup_insert_ne|].
    assert (t <> i) by (intros ->; done). by rewrite !lookup_insert_ne by congruence.
  - eapply linked_insert; [exact Hm|split; [done|by intros ?%Hi]|done].
  - intros j Hj. rewrite is_Some_insert. by apply Hs.
  - intros j k Hj Hk. rewrite is_Some_insert in Hj. unfold zero_links.
    rewrite !lookup_insert. repeat case_decide; eauto.
Qed.

Lemma unload_module_rep dll_entry s0 s a i b m0 nt :
  entry_does_not_load dll_entry -> stage s0 s (a ++ i :: b) i m0 -> modules (ld_reg s) !! i = Some m0 ->
  m_base m0 <> 0 -> m_nt m0 = Some nt -> Z.of_nat i < module_count (ld_reg s0) ->
  exists s', unload_module dll_entry i s = Ret s' /\
    ldr_rep (ld_ldr s') (a ++ b) /\ modules (ld_reg s') !! i = Some zero_module /\
    (forall j, j <> i -> modules (ld_reg s') !! j = modules (ld_reg s0) !! j) /\
    module_count (ld_reg s') = module_count (ld_reg s0) - 1 /\
    ld_unmapped s' = ld_unmapped s0 ++ [(m_base m0, pe_size_of_image nt)] /\
    s' = munmap (m_base m0) (pe_size_of_image nt)
           (set_images (delete i (ld_images (detached dll_entry i m0 nt s))) (set_ldr (ld_ldr s') (detached dll_entry i m0 nt s))).
Proof.
  intros He Hs Hm0 Hb Hnt Hi. unfold unload_module.
  destruct (stage_detach dll_entry s0 s _ i m0 m0 nt He Hs Hm0 Hb Hnt) as (s1 & E1 & H1 & R1). rewrite E1. cbn [mbind outcome_bind].
  apply (stage_update _ _ _ _ _ reset_export_cache) in H1; [|done].
  pose proof (same_rest_trans _ _ _ R1 (same_rest_update i reset_export_cache s1)) as R2. clear E1 Hs Hm0 R1.
  remember (update_module i reset_export_cache s1) as s2. clear Heqs2 s1. set (d := detached dll_entry i m0 nt s) in *. clearbody d.
  destruct H1 as [Hr (m & Hm & Emb & Emt) Ho Hc Hu]. rewrite Hm. cbn [deref mbind outcome_bind].
  assert (m_ldr_linked m = true) as Hlk by (apply (rep_linked _ _ Hr i m Hm); set_solver).
  rewrite (rep_ldr _ _ Hr), Hlk. cbn [andb].
  destruct (ldr_remove_module_rep _ a i b Hr) as (l & El & Hl & m1 & n & Hm1 & En & Enb & Ent).
  unfold ld_reg in Hm. rewrite Hm in Hm1. injection Hm1 as <-.
  pose proof (ldr_remove_module_inv i _ _ El) as Hro.
  assert (module_count (ls_reg l) = module_count (ld_reg s0)) as Hcl.
  { rewrite <- Hc. clear -El. unfold ldr_remove_module in El. inv_ret. repeat case_hyp El; inv_ret; done. }
  rewrite El. cbn [mbind outcome_bind].
  assert (Hln : modules (ls_reg l) !! i = Some n)
    by (rewrite En; apply list_lookup_insert_eq; by eapply lookup_lt_Some).
  change (ld_reg (set_ldr l s2)) with (ls_reg l). rewrite Hln. cbn [deref mbind outcome_bind].
  rewrite Ent, Emt, Hnt, Enb, Emb. replace (m_base m0 =? 0) with false by lia.
  eexists. split; [reflexivity|]. cbn [ld_ldr set_reg set_ldr munmap set_images ld_unmapped ls_peb_ldr].
  assert (i ∉ a ++ b) as Hni.
  { pose proof (ldr_rep_NoDup _ _ Hr) as ND. apply NoDup_app in ND as (_ & Hd & [Hib _]%NoDup_cons).
    rewrite elem_of_app. intros [Hia|?]; [|done]. apply (Hd i Hia). by left. }
  split; [by apply remove_module_rep|].
  unfold ld_reg. simpl. rewrite Hu. unfold remove_module. rewrite Hcl. replace (Z.of_nat i <? _) with true by lia. simpl.
  split_and!; try done.
  - apply list_lookup_insert_eq. by eapply lookup_lt_Some.
  - intros j Hj. rewrite list_lookup_insert_ne by done. rewrite Hro by done. by apply Ho.
  - unfold same_rest in R2. rewrite R2. by destruct d.
Qed.

(** ** Theorems *)

(** A library stays loaded as long as it has been loaded more often than freed:
    any such sequence of LoadLibraryA and FreeLibraryA calls returns the handle and
    TRUE, and changes nothing but the reference count. *)
Theorem library_calls_only_count {A : Arch} files openat mmap_fixed mmap_any mprotect mmap_page dll_entry
    g_debug_level g_wine_dll_path import_table i ops k m :
  registry_sound (ld_reg (k_loader k)) -> modules (ld_reg (k_loader k)) !! i = Some m -> live m ->
  stays_loaded (m_load_count m) ops = true ->
  run_lib files openat mmap_fixed mmap_any mprotect mmap_page dll_entry g_debug_level g_wine_dll_path import_table
    (m_name m) (m_base m) ops k
  = Ret (map (op_result (m_base m)) ops, with_count i (count_after (m_load_count m) ops) k).
Proof. intros. by apply run_lib_counts. Qed.

Lemma no_module_covers {A : Arch} r r' i m :
  registry_sound r -> modules r !! i = Some m -> live m -> registry_ok r' ->
  modules r' !! i = Some zero_module -> (forall j, j <> i -> modules r' !! j = modules r !! j) ->
  find_module_by_addr (m_base m) r' = Ret None.
Proof.
  intros Hs Hm Hl Ho Hz Hj. unfold find_module_by_addr. rewrite find_module_loop_ok by done.
  destruct (list_find _ _) as [[j n]|] eqn:E; [exfalso|done].
  apply list_find_Some in E as (Hn & Hp & _).
  pose proof (lookup_lt_Some _ _ _ Hn) as L. rewrite length_take in L. rewrite lookup_take_lt in Hn by lia.
  destruct (decide (j = i)) as [->|Hne].
  - rewrite Hz in Hn. injection Hn as <-. done.
  - rewrite Hj in Hn by done. by pose proof (rs_apart _ Hs i j m n Hm Hn Hl Hp).
Qed.

(** C16: Freeing the last reference unloads the library: its DllMain is told to detach
    when it has been told to attach (and does not itself load or free libraries, which
    Windows forbids), it is unlinked from the PEB lists, unmapped exactly once with its
    full size and removed from the registry, the other modules stay, and its handle is
    no longer valid; besides that the state is the one that DllMain has left. *)
Theorem FreeLibraryA_unloads {A : Arch} dll_entry s i m nt order :
  entry_does_not_load dll_entry -> registry_sound (ld_reg s) -> ldr_rep (ld_ldr s) order ->
  modules (ld_reg s) !! i = Some m -> live m -> m_nt m = Some nt -> m_load_count m = 1 -> i ∈ order ->
  let d := detached dll_entry i m nt (update_module i (set_load_count 0) s) in
  exists s', FreeLibraryA dll_entry (m_base m) s = Ret (1, s') /\
    ldr_rep (ld_ldr s') (filter (fun j => j <> i) order) /\
    modules (ld_reg s') !! i = Some zero_module /\
    (forall j, j <> i -> modules (ld_reg s') !! j = modules (ld_reg s) !! j) /\
    ld_unmapped s' = ld_unmapped s ++ [(m_base m, pe_size_of_image nt)] /\
    find_module_by_addr (m_base m) (ld_reg s') = Ret None /\
    s' = munmap (m_base m) (pe_size_of_image nt) (set_images (delete i (ld_images d)) (set_ldr (ld_ldr s') d)).
Proof.
  intros He Hs Hr Hm Hl Hnt Hc Hin d. pose proof (ldr_rep_NoDup _ _ Hr) as ND.
  apply list_elem_of_split in Hin as (a & b & ->). rewrite filter_out by done.
  assert (H0 : stage s (update_module i (set_load_count (m_load_count m - 1)) s) (a ++ i :: b) i m)
    by (apply stage_update; [done|]; split; eauto).
  assert (Hm1 : modules (ld_reg (update_module i (set_load_count (m_load_count m - 1)) s)) !! i = Some (set_load_count 0 m)).
  { rewrite Hc, (update_module_at _ _ _ _ Hm). apply list_lookup_insert_eq. by eapply lookup_lt_Some. }
  assert (H1 : stage s (update_module i (set_load_count (m_load_count m - 1)) s) (a ++ i :: b) i (set_load_count 0 m)) by (by destruct H0).
  destruct (unload_module_rep dll_entry s _ a i b (set_load_count 0 m) nt He H1 Hm1 Hl Hnt (proj1 (rs_compact _ Hs i m Hm) Hl))
    as (s' & E & R & Hz & Ho & Hcnt & Hu & Hd).
  exists s'. split; [|split_and!; try done].
  3: { subst d. rewrite Hc in Hd. exact Hd. }
  - unfold FreeLibraryA. rewrite (rs_handles _ Hs i m Hm Hl), (sound_find_by_addr _ i m Hs Hm Hl).
    cbn [mbind outcome_bind]. rewrite Hm. cbn [deref mbind outcome_bind]. rewrite Hc.
    cbn [Z.ltb Z.sub Z.compare]. rewrite Hc in E. simpl in E |- *. by rewrite E.
  - eapply no_module_covers; try done.
    pose proof (remove_module_ok i (ld_reg s) m (rs_ok _ Hs) Hm Hl) as [L C].
    assert (modules (ld_reg s') = modules (remove_module i (ld_reg s))) as Em.
    { apply list_eq. intros j. unfold remove_module.
      replace (Z.of_nat i <? _) with true by (pose proof (proj1 (rs_compact _ Hs i m Hm) Hl); lia). simpl.
      destruct (decide (j = i)) as [->|]; [|by rewrite Ho, list_lookup_insert_ne].
      rewrite Hz, list_lookup_insert_eq by (by eapply lookup_lt_Some). done. }
    split; rewrite Em; [done|]. rewrite <- C, Hcnt. unfold remove_module.
    replace (Z.of_nat i <? _) with true by (pose proof (proj1 (rs_compact _ Hs i m Hm) Hl); lia). done.
Qed.

(** GetProcAddress on the handle of a loaded module with a sorted name table: the
    address of the named export, and NULL for a name it does not export. *)
Theorem GetProcAddress_correct {A : Arch} import_table s i m c names func :
  registry_sound (ld_reg s) -> modules (ld_reg s) !! i = Some (with_cache c m) ->
  image_of m (image_of_slot s i) -> parse_export_table m (image_of_slot s i) = Ret (0, c) ->
  names_of (image_of_slot s i) c names -> sorted_names names -> wf_cstr func ->
  (func ∉ names -> GetProcAddress import_table (m_base m) (Some func) s = Ret 0) /\
  (forall n, names !! n = Some func ->
     GetProcAddress import_table (m_base m) (Some func) s
     = Ret (match export_target (with_cache c m) n with Some rva => m_base m + rva | None => 0 end)).
Proof.
  intros Hs Hm Hi Hp Hn Hso Hf.
  assert (Hl : live (with_cache c m)) by (destruct Hi; done).
  destruct (lookup_export_spec m (image_of_slot s i) c names func Hi Hp Hn Hso Hf) as [Hno Hyes].
  pose proof (Forall2_length _ _ _ Hn) as LN.
  destruct (parse_export_table_content m _ c Hi Hp) as (nt & dir & _ & _ & _ & Hw).
  pose proof (cw_name_table _ Hw) as [LN' _]. pose proof (cw_names _ Hw).
  assert (E : forall r, lookup_export (with_cache c m) (image_of_slot s i) func = Ret r ->
    (number_of_names c = 0 -> r = None) ->
    GetProcAddress import_table (m_base m) (Some func) s
    = Ret (match r with Some rva => m_base m + rva | None => 0 end)).
  { intros r Hr H0. unfold GetProcAddress. pose proof (io_base _ _ Hi) as Hb.
    replace (m_base m =? 0) with false by lia.
    pose proof (rs_handles _ Hs i _ Hm Hl) as Hh. pose proof (sound_find_by_addr _ i _ Hs Hm Hl) as Ha.
    cbn [with_cache m_base] in Hh, Ha. rewrite Hh, Ha. cbn [mbind outcome_bind]. rewrite Hm. cbn [deref mbind outcome_bind].
    cbn [with_cache m_export_cache]. destruct (Z.eqb_spec (number_of_names c) 0) as [e|]; [by rewrite (H0 e)|].
    fold (with_cache c m). rewrite Hr. done. }
  split.
  - intros H1. apply (E None); [by apply Hno|done].
  - intros n H1. apply E; [by apply Hyes|]. intros H0. exfalso.
    apply lookup_lt_Some in H1. lia.
Qed.

(** *** Names *)

Lemma copy_name_spec src : forall len nSize buf,
  0 <= len < nSize -> nSize < 2 ^ 32 -> nSize <= blen buf ->
  let n := Z.min (blen src) (nSize - 1 - len) in
  copy_name src len nSize buf = Ret (len + n, splice len (take (Z.to_nat n) src) buf).
Proof.
  induction src as [|c src IH]; intros len nSize buf Hl Hs Hb; cbn zeta.
  - simpl. rewrite take_nil. unfold splice, blen in *. simpl.
    rewrite Nat.add_0_r, take_drop. do 2 f_equal. lia.
  - cbn [copy_name]. rewrite wrap_small by lia. destruct (Z.ltb_spec (len + 1) nSize).
    + assert (Hr : in_range len (blen [c]) (blen buf) = true)
        by (apply in_range_spec; unfold blen in *; simpl; lia).
      unfold store_bytes. rewrite Hr. cbn [access mbind outcome_bind].
      rewrite IH; [|lia|lia|unfold blen in *; rewrite length_splice by done; lia].
      assert (Hn : Z.to_nat (Z.min (blen (c :: src)) (nSize - 1 - len))
                   = S (Z.to_nat (Z.min (blen src) (nSize - 1 - (len + 1)))))
        by (unfold blen; simpl length; lia).
      do 2 f_equal; [unfold blen; simpl length; lia|]. rewrite Hn. cbn [take].
      apply (splice_app len [c]); [lia|]. unfold blen in *. rewrite length_take. simpl. lia.
    + replace (Z.min _ _) with 0 by (unfold blen; simpl length; lia). simpl.
      unfold splice. simpl. rewrite Nat.add_0_r, take_drop. do 2 f_equal. lia.
Qed.

(** The path GetModuleFileNameA reports for a handle. *)
Definition module_file_name {A : Arch} (hModule : Z) (s : loader_state) : outcome cstr :=
  if (hModule =? 0) || (hModule =? g_image_base (ld_globals s)) then Ret (g_pe_path (ld_globals s))
  else
    found ← find_module_by_addr hModule (ld_reg s);
    match (found : option nat) with
    | None => Ret (g_pe_path (ld_globals s))
    | Some slot => m ← deref (modules (ld_reg s) !! slot); Ret (m_name m)
    end.

(** GetModuleFileNameA writes the name, cut to nSize - 1 characters and terminated,
    at the start of the caller's buffer, changes nothing behind the terminator and
    returns the length. *)
Theorem GetModuleFileNameA_correct {A : Arch} hModule buf nSize s name :
  0 < nSize < 2 ^ 32 -> nSize <= blen buf -> module_file_name hModule s = Ret name ->
  let n := Z.min (blen name) (nSize - 1) in
  GetModuleFileNameA hModule (Some buf) nSize s
  = Ret (n, Some (take (Z.to_nat n) name ++ [0] ++ drop (S (Z.to_nat n)) buf)).
Proof.
  intros Hn Hb Hs n. unfold GetModuleFileNameA. replace (nSize =? 0) with false by lia.
  unfold module_file_name in Hs. rewrite Hs. cbn [mbind outcome_bind].
  rewrite copy_name_spec by lia. cbn [mbind outcome_bind]. rewrite Z.sub_0_r, Z.add_0_l. fold n.
  assert (Hlt : blen (take (Z.to_nat n) name) = n) by (unfold blen, n in *; rewrite length_take; unfold blen; lia).
  unfold store_bytes.
  assert (Hr : in_range n (blen [0]) (blen (splice 0 (take (Z.to_nat n) name) buf)) = true).
  { apply in_range_spec. unfold blen in *. rewrite length_splice by (apply in_range_spec; unfold n, blen in *; lia).
    unfold n in *. simpl. lia. }
  rewrite Hr. cbn [access mbind outcome_bind]. do 3 f_equal.
  replace n with (0 + blen (take (Z.to_nat n) name)) at 1 by lia.
  rewrite splice_app by (unfold n, blen in *; simpl; lia).
  unfold splice. rewrite length_app, <- (assoc_L (++)). simpl. do 3 f_equal.
  unfold blen in Hlt. lia.
Qed.

Lemma narrow_name_ascii units : forall i,
  Forall (fun ch => ch <= 0x7f) units -> (i + length units < 260)%nat -> narrow_name units i = Some units.
Proof.
  induction units as [|ch units IH]; intros i H L; [done|]. apply Forall_cons in H as [Hc H].
  cbn [narrow_name]. simpl in L. replace (i + 1 <? 260)%nat with true by (symmetry; apply Nat.ltb_lt; lia).
  replace (0x7f <? ch) with false by lia. by rewrite IH by (done || lia).
Qed.

(** On an ASCII name that fits its buffer, GetModuleHandleW is GetModuleHandleA. *)
Theorem GetModuleHandleW_ascii (name : cstr) s :
  Forall (fun ch => ch <= 0x7f) name -> (length name < 260)%nat ->
  GetModuleHandleW (Some name) s = GetModuleHandleA (Some name) s.
Proof. intros H L. unfold GetModuleHandleW. by rewrite narrow_name_ascii. Qed.

(** ** Witnesses *)

(** A decision procedure for soundness of a concrete registry. *)
Definition at_slot (r : registry) (i : nat) (p : loaded_module_t -> bool) : bool :=
  match modules r !! i with Some m => p m | None => true end.
Definition registry_soundb {A : Arch} (r : registry) : bool :=
  let slots := seq 0 (length (modules r)) in
  (length (modules r) =? MAX_MODULES)%nat && (module_count r =? Z.of_nat (live_count (modules r))) &&
  forallb (fun i => at_slot r i (fun m =>
    Bool.eqb (bool_decide (live m)) (Z.of_nat i <? module_count r) &&
    (negb (bool_decide (live m)) ||
     (module_covers (m_base m) m &&
      match find_builtin_module_by_handle (m_base m) with None => true | Some _ => false end &&
      forallb (fun j => (i =? j)%nat || at_slot r j (fun n =>
        negb (module_covers (m_base m) n) &&
        (negb (bool_decide (live n)) || negb (safe_name_eq (m_name n) (m_name m))))) slots)))) slots.

Lemma forallb_slots {A} (l : list A) p : forallb p (seq 0 (length l)) = true ->
  forall i x, l !! i = Some x -> p i = true.
Proof.
  intros H i x Hi. rewrite forallb_forall in H. apply H. apply in_seq.
  apply lookup_lt_Some in Hi. lia.
Qed.

Lemma registry_soundb_spec {A : Arch} r : registry_soundb r = true -> registry_sound r.
Proof.
  unfold registry_soundb. rewrite !andb_true_iff. intros [[L C] H].
  assert (Hi : forall i m, modules r !! i = Some m ->
    (live m <-> Z.of_nat i < module_count r) /\
    (live m -> module_covers (m_base m) m = true /\ find_builtin_module_by_handle (m_base m) = None /\
      forall j n, modules r !! j = Some n -> i <> j ->
        module_covers (m_base m) n = false /\ (live n -> safe_name_eq (m_name n) (m_name m) = false))).
  { intros i m Hm. pose proof (forallb_slots _ _ H i m Hm) as Hc. unfold at_slot in Hc at 1. rewrite Hm in Hc.
    apply andb_true_iff in Hc as [Hlv Hc]. apply Bool.eqb_prop in Hlv. split.
    - rewrite <- Z.ltb_lt, <- Hlv. symmetry. apply bool_decide_eq_true.
    - intros Hl. rewrite (bool_decide_eq_true_2 _ Hl) in Hc. simpl in Hc.
      rewrite !andb_true_iff in Hc. destruct Hc as [[Hv Hh] Hc]. split; [done|].
      split; [by destruct (find_builtin_module_by_handle _)|].
      intros j n Hn Hne. pose proof (forallb_slots _ _ Hc j n Hn) as Hj. unfold at_slot in Hj. rewrite Hn in Hj.
      replace (i =? j)%nat with false in Hj by (symmetry; by apply Nat.eqb_neq). simpl in Hj.
      apply andb_true_iff in Hj as [Hj1 Hj2]. split; [by destruct (module_covers _ n)|].
      intros Hln. rewrite (bool_decide_eq_true_2 _ Hln) in Hj2. by destruct (safe_name_eq _ _). }
  split.
  - split; [by apply Nat.eqb_eq|lia].
  - intros i m Hm. apply (proj1 (Hi i m Hm)).
  - intros i m Hm Hl. apply (proj2 (Hi i m Hm) Hl).
  - intros i j m n Hm Hn Hl Hv. destruct (decide (i = j)); [done|]. exfalso.
    destruct (Hi i m Hm) as [_ Hx]. destruct (Hx Hl) as (_ & _ & Hy). destruct (Hy j n Hn) as [Hz _]; [done|congruence].
  - intros i j m n Hm Hn Hl Hl' Hv. destruct (decide (i = j)); [done|]. exfalso.
    destruct (Hi i m Hm) as [_ Hx]. destruct (Hx Hl) as (_ & _ & Hy). destruct (Hy j n Hn) as [_ Hz]; [done|].
    rewrite Hz in Hv by done. done.
  - intros i m Hm Hl. apply (proj2 (Hi i m Hm) Hl).
Qed.

(** Two libraries, linked in load order. *)
Definition k32_ldr : ldr_state := state_or (ldr_run [LdrAdd 0; LdrAdd 1] ldr_inited) ldr_inited.
Definition k32_loader : loader_state :=
  mkLoaderState (mkLoader 0x400000 0x5000 (lit "/w/game.exe") false) 0x60020000 k32_ldr ∅ [] [].
Definition k32_demo : k32_state := mkK32 k32_loader (replicate 512 0).

Lemma k32_ldr_rep : ldr_rep k32_ldr [0; 1]%nat.
Proof.
  destruct (ldr_step_rep ldr_inited [] (LdrAdd 0) ldr_inited_rep) as (s1 & E1 & R1 & K1).
  { eexists; split; [reflexivity|split; [discriminate|eexists; reflexivity]]. }
  destruct (ldr_step_rep s1 _ (LdrAdd 1) R1) as (s2 & E2 & R2 & _).
  { apply K1. eexists; split; [reflexivity|split; [discriminate|eexists; reflexivity]]. }
  unfold k32_ldr. cbn [ldr_run]. rewrite E1. cbn [mbind outcome_bind]. rewrite E2. exact R2.
Qed.
Lemma k32_sound : @registry_sound arch64 (ld_reg k32_loader).
Proof. apply registry_soundb_spec. vm_compute. reflexivity. Qed.

Definition k32_mod (i : nat) : loaded_module_t := default zero_module (modules (ld_reg k32_loader) !! i).

Lemma library_calls_only_count_witness :
  @run_lib arch64 demo_files demo_opens (fun a _ => Some a) (fun _ => None) (fun _ _ _ => true)
    (fun _ => true) demo_entry 0 [] [] (m_name (k32_mod 1)) (m_base (k32_mod 1)) [OpLoad; OpLoad; OpFree] k32_demo
  = Ret ([0x60010000; 0x60010000; 1], with_count 1 2 k32_demo).
Proof.
  exact (@library_calls_only_count arch64 demo_files demo_opens (fun a _ => Some a) (fun _ => None) (fun _ _ _ => true)
    (fun _ => true) demo_entry 0 [] [] 1 [OpLoad; OpLoad; OpFree] k32_demo (k32_mod 1) k32_sound eq_refl
    ltac:(discriminate) eq_refl).
Defined.

Lemma FreeLibraryA_unloads_witness :
  exists s', @FreeLibraryA arch64 demo_entry 0x60000000 k32_loader = Ret (1, s') /\
    ldr_rep (ld_ldr s') [1%nat] /\ ld_unmapped s' = [(0x60000000, 0x3000)] /\
    @find_module_by_addr arch64 0x60000000 (ld_reg s') = Ret None.
Proof.
  destruct (@FreeLibraryA_unloads arch64 demo_entry k32_loader 0 (k32_mod 0) hello64_nt [0; 1]%nat)
    as (s' & E & R & _ & _ & U & F & _); [done|exact k32_sound|exact k32_ldr_rep|reflexivity|discriminate
    |reflexivity|reflexivity|by left|].
  exists s'. split_and!; [exact E|exact R|exact U|exact F].
Defined.

(** A process with one module, the image of the export sample. *)
Definition export_loader : loader_state :=
  let r := mkRegistry (with_cache export_cache_sample export_mod :: replicate 15 zero_module) 1 ∅ in
  mkLoaderState (mkLoader 0x400000 0x5000 (lit "/w/game.exe") false) 0x60020000 (mkLdrState r false)
    {[ 0%nat := export_img ]} [] [].

Lemma GetProcAddress_correct_witness :
  @GetProcAddress arch64 [] (m_base export_mod) (Some [97]) export_loader = Ret (m_base export_mod + 4).
Proof.
  destruct (@GetProcAddress_correct arch64 [] export_loader 0 export_mod export_cache_sample export_names [97])
    as [_ H]; [apply registry_soundb_spec; vm_compute; reflexivity|reflexivity|exact export_image
    |exact export_sample_parse|exact export_sample_names|exact export_sample_sorted|by apply wf_cstrb_spec|].
  exact (H 0%nat eq_refl).
Defined.

Lemma GetModuleFileNameA_correct_witness :
  @GetModuleFileNameA arch64 0x60010004 (Some (replicate 4 7)) 4 k32_loader = Ret (3, Some (lit "B.d" ++ [0])).
Proof.
  exact (@GetModuleFileNameA_correct arch64 0x60010004 (replicate 4 7) 4 k32_loader (lit "B.dll")
    ltac:(lia) ltac:(vm_compute; discriminate) eq_refl).
Defined.

Lemma GetModuleHandleW_ascii_witness :
  GetModuleHandleW (Some (lit "b.DLL")) k32_loader = Ret 0x60010000.
Proof.
  rewrite (GetModuleHandleW_ascii (lit "b.DLL") k32_loader); [reflexivity| |simpl; lia].
  apply Forall_forall. intros x Hx. vm_compute in Hx. set_solver by lia.
Defined.

(** A library that is named without its extension is loaded again at every call:
    the registered name is compared with the name as given. *)
Example library_without_extension_loads_twice :
  match @LoadLibraryA arch64 demo_files demo_opens (fun a _ => Some a) (fun _ => None) (fun _ _ _ => true)
          (fun _ => true) demo_entry 0 [] [] (Some (lit "a")) (mkK32 demo_state (replicate 512 0)) with
  | Ret (h1, k1) =>
      match @LoadLibraryA arch64 demo_files demo_opens (fun a _ => Some a) (fun _ => None) (fun _ _ _ => true)
              (fun _ => true) demo_entry 0 [] [] (Some (lit "a")) k1 with
      | Ret (h2, k2) => h1 = 0x60000000 /\ h2 = 0x60003000 /\
          (m_name <$> take 2 (modules (ld_reg (k_loader k2)))) = [lit "a.dll"; lit "a.dll"]
      | _ => False
      end
  | _ => False
  end.
Proof. vm_compute. done. Qed.
