(* ===== verification/MessageQueue.v ===== *)
(** * The USER32 message loop (src/msvcrt/user32_message_queue.c,
      user32_message.c, user32_message_hook.c)

    Two ring buffers of 64 messages (posted and translated), the pending quit
    message, the keyboard hook, and the exports GetMessageA, PeekMessageA,
    PostMessageA and PostQuitMessage.  Which windows exist (get_window_entry), the
    backend's rb_event_wait and rb_event_peek are parameters.  The hook procedure of
    the guest runs when it is called: it is a program of calls, which may get and post
    messages and be hooked again. *)
From S2P Require Import Prelude.

(** rb_msg_t of include/render_backend.h. *)
Record rb_msg_t := mkMsg {
  hwnd : Z; message : Z; wParam : Z; lParam : Z; time : Z; pt_x : Z; pt_y : Z }.
Definition zero_msg : rb_msg_t := mkMsg 0 0 0 0 0 0 0.
#[export] Instance rb_msg_eq_dec : EqDecision rb_msg_t.
Proof. solve_decision. Defined.

Definition WM_QUIT : Z := 0x0012.
Definition WM_KEYDOWN : Z := 0x0100.
Definition WM_KEYUP : Z := 0x0101.
Definition WM_SYSKEYDOWN : Z := 0x0104.
Definition WM_SYSKEYUP : Z := 0x0105.
Definition USER32_TRANSLATED_QUEUE_CAPACITY : nat := 64.
Definition USER32_POSTED_QUEUE_CAPACITY : nat := 64.

Definition user32_is_keyboard_message (m : Z) : bool :=
  (m =? WM_KEYDOWN) || (m =? WM_KEYUP) || (m =? WM_SYSKEYDOWN) || (m =? WM_SYSKEYUP).

(** user32_copy_rb_msg_to_msg copies field by field. *)
Record MSG := mkMSG { msg_hwnd : Z; msg_message : Z; msg_wParam : Z; msg_lParam : Z; msg_time : Z; msg_pt : Z * Z }.
Definition user32_copy_rb_msg_to_msg (src : rb_msg_t) : MSG :=
  mkMSG (hwnd src) (message src) (wParam src) (lParam src) (time src) (pt_x src, pt_y src).

(** ** Ring buffers *)

(** The array with its head and count; the capacity is its length.  The indices
    stay below twice the capacity, so size_t does not wrap. *)
Record ring := mkRing { rq_buf : list rb_msg_t; rq_head : nat; rq_count : nat }.
Definition capacity (q : ring) : nat := length (rq_buf q).

(** The return value and the queue. *)
Definition user32_queue_push (msg : rb_msg_t) (q : ring) : bool * ring :=
  if (capacity q <=? rq_count q)%nat then (false, q)
  else
    let tail := ((rq_head q + rq_count q) mod capacity q)%nat in
    (true, mkRing (<[tail := msg]> (rq_buf q)) (rq_head q) (S (rq_count q))).

(** The loop over i < count; [p] is the filter.  The index in the array. *)
Fixpoint queue_find_loop (p : rb_msg_t -> bool) (q : ring) (todo i : nat) : outcome (option nat) :=
  match todo with
  | O => Ret None
  | S todo =>
      let idx := ((rq_head q + i) mod capacity q)%nat in
      m ← deref (rq_buf q !! idx);
      if p m then Ret (Some idx) else queue_find_loop p q todo (S i)
  end.
Definition user32_queue_find_matching (p : rb_msg_t -> bool) (q : ring) : outcome (option nat) :=
  queue_find_loop p q (rq_count q) 0.

(** Close the gap at [i] up to the last message at [last]. *)
Fixpoint queue_shift_loop (last : nat) (fuel i : nat) (buf : list rb_msg_t) : outcome (list rb_msg_t) :=
  if (i =? last)%nat then Ret buf
  else
    match fuel with
    | O => Fault
    | S fuel =>
        let next := ((i + 1) mod length buf)%nat in
        m ← deref (buf !! next);
        queue_shift_loop last fuel next (<[i := m]> buf)
    end.

(** [None]: nothing was taken. *)
Definition user32_queue_take_at (match_idx : option nat) (remove : bool) (q : ring)
  : outcome (option rb_msg_t * ring) :=
  match match_idx with
  | None => Ret (None, q)
  | Some idx =>
      if (rq_count q =? 0)%nat then Ret (None, q)
      else
        msg ← deref (rq_buf q !! idx);
        if negb remove then Ret (Some msg, q)
        else
          let last := ((rq_head q + rq_count q - 1) mod capacity q)%nat in
          buf ← queue_shift_loop last (capacity q) idx (rq_buf q);
          Ret (Some msg, mkRing buf (rq_head q) (rq_count q - 1))
  end.

(** The loop over the old messages: keep the live ones, in place. *)
Fixpoint discard_loop (alive : rb_msg_t -> bool) (old_head : nat) (todo i write_count : nat)
    (buf : list rb_msg_t) : outcome (nat * list rb_msg_t) :=
  match todo with
  | O => Ret (write_count, buf)
  | S todo =>
      msg ← deref (buf !! ((old_head + i) mod length buf)%nat);
      if negb (alive msg) then discard_loop alive old_head todo (S i) write_count buf
      else discard_loop alive old_head todo (S i) (S write_count)
             (<[((old_head + write_count) mod length buf)%nat := msg]> buf)
  end.
Definition user32_queue_discard_dead_targets (alive : rb_msg_t -> bool) (q : ring) : outcome ring :=
  if (rq_count q =? 0)%nat then Ret q
  else
    '(n, buf) ← discard_loop alive (rq_head q) (rq_count q) 0 0 (rq_buf q);
    Ret (mkRing buf (rq_head q) n).

Definition user32_queue_take_matching (alive p : rb_msg_t -> bool) (remove : bool) (q : ring)
  : outcome (option rb_msg_t * ring) :=
  q ← user32_queue_discard_dead_targets alive q;
  idx ← user32_queue_find_matching p q;
  user32_queue_take_at idx remove q.

(** ** The message state *)

Record msg_state (B : Type) := mkMsgState {
  g_posted_queue : ring;
  g_translated_queue : ring;
  g_quit_pending : bool;
  g_quit_exit_code : Z;
  g_keyboard_hook_proc : Z;
  g_keyboard_hook_handle : Z;
  (** PeekMessageA's idle_poll_count. *)
  idle_poll_count : Z;
  (** The history of the hook calls, latest last. *)
  hook_calls : list (Z * Z);
  backend : B }.
Arguments mkMsgState {_}.
Arguments g_posted_queue {_}.
Arguments g_translated_queue {_}.
Arguments g_quit_pending {_}.
Arguments g_quit_exit_code {_}.
Arguments g_keyboard_hook_proc {_}.
Arguments g_keyboard_hook_handle {_}.
Arguments idle_poll_count {_}.
Arguments hook_calls {_}.
Arguments backend {_}.

Section state.
Context {A : Arch} {B : Type}.
(** get_window_entry(hwnd) != NULL. *)
Variable window : Z -> bool.
(** rb_event_wait and rb_event_peek: the return value, the message and the
    backend afterwards. *)
Variable rb_event_wait rb_event_peek : B -> Z * rb_msg_t * B.

Abbreviation state := (msg_state B).

Definition set_posted (q : ring) (s : state) : state :=
  mkMsgState q (g_translated_queue s) (g_quit_pending s) (g_quit_exit_code s) (g_keyboard_hook_proc s)
    (g_keyboard_hook_handle s) (idle_poll_count s) (hook_calls s) (backend s).
Definition set_translated (q : ring) (s : state) : state :=
  mkMsgState (g_posted_queue s) q (g_quit_pending s) (g_quit_exit_code s) (g_keyboard_hook_proc s)
    (g_keyboard_hook_handle s) (idle_poll_count s) (hook_calls s) (backend s).
Definition set_quit (pending : bool) (code : Z) (s : state) : state :=
  mkMsgState (g_posted_queue s) (g_translated_queue s) pending code (g_keyboard_hook_proc s)
    (g_keyboard_hook_handle s) (idle_poll_count s) (hook_calls s) (backend s).
Definition set_hook (proc handle : Z) (s : state) : state :=
  mkMsgState (g_posted_queue s) (g_translated_queue s) (g_quit_pending s) (g_quit_exit_code s) proc handle
    (idle_poll_count s) (hook_calls s) (backend s).
Definition set_idle (n : Z) (s : state) : state :=
  mkMsgState (g_posted_queue s) (g_translated_queue s) (g_quit_pending s) (g_quit_exit_code s)
    (g_keyboard_hook_proc s) (g_keyboard_hook_handle s) n (hook_calls s) (backend s).
Definition log_hook (c : Z * Z) (s : state) : state :=
  mkMsgState (g_posted_queue s) (g_translated_queue s) (g_quit_pending s) (g_quit_exit_code s)
    (g_keyboard_hook_proc s) (g_keyboard_hook_handle s) (idle_poll_count s) (hook_calls s ++ [c]) (backend s).
Definition set_backend (b : B) (s : state) : state :=
  mkMsgState (g_posted_queue s) (g_translated_queue s) (g_quit_pending s) (g_quit_exit_code s)
    (g_keyboard_hook_proc s) (g_keyboard_hook_handle s) (idle_poll_count s) (hook_calls s) b.

(** *** Filters *)

Definition user32_message_target_alive (msg : rb_msg_t) : bool :=
  (message msg =? WM_QUIT) || (hwnd msg =? 0) || window (hwnd msg).

Definition user32_message_matches_filter (hwnd_filter min_filter max_filter : Z) (msg : rb_msg_t) : bool :=
  let m := message msg in
  if m =? WM_QUIT then true
  else
    let hwnd_filter := if user32_is_keyboard_message m then 0 else hwnd_filter in
    let hwnd_filter := if negb (hwnd_filter =? 0) && negb (window hwnd_filter) then 0 else hwnd_filter in
    if negb (hwnd_filter =? 0) && negb (hwnd msg =? hwnd_filter) then false
    else if (min_filter =? 0) && (max_filter =? 0) then true
    else if max_filter =? 0 then min_filter <=? m
    else (min_filter <=? m) && (m <=? max_filter).

(** *** Operations *)

Definition user32_synthesize_quit_message (remove : bool) (hf lo hi : Z) (s : state)
  : option rb_msg_t * state :=
  if g_quit_pending s then
    let msg := mkMsg 0 WM_QUIT (usize (g_quit_exit_code s)) 0 0 0 0 in
    if negb (user32_message_matches_filter hf lo hi msg) then (None, s)
    else (Some msg, if remove then set_quit false (g_quit_exit_code s) s else s)
  else (None, s).

(** The loop over backend events; the fuel bounds the events it looks at.
    [None]: it is still waiting. *)
Fixpoint fetch_loop (blocking remove : bool) (p : rb_msg_t -> bool) (fuel : nat) (s : state)
  : option (option rb_msg_t * state) :=
  match fuel with
  | O => None
  | S fuel =>
      let '(ret, incoming, b) := if blocking then rb_event_wait (backend s) else rb_event_peek (backend s) in
      let s := set_backend b s in
      if (if blocking then ret <? 0 else ret <=? 0) || (message incoming =? 0) then Some (None, s)
      else if negb (user32_message_target_alive incoming) then fetch_loop blocking remove p fuel s
      else if p incoming then
        if negb remove then
          let '(ok, q) := user32_queue_push incoming (g_translated_queue s) in
          if negb ok then Some (None, s) else Some (Some incoming, set_translated q s)
        else Some (Some incoming, s)
      else
        let '(ok, q) := user32_queue_push incoming (g_translated_queue s) in
        if negb ok then Some (None, s) else fetch_loop blocking remove p fuel (set_translated q s)
  end.

Definition user32_fetch_queued_message (blocking remove : bool) (hf lo hi : Z) (fuel : nat) (s : state)
  : outcome (option (option rb_msg_t * state)) :=
  let p := user32_message_matches_filter hf lo hi in
  '(r, q) ← user32_queue_take_matching user32_message_target_alive p remove (g_posted_queue s);
  let s := set_posted q s in
  match (r : option rb_msg_t) with
  | Some m => Ret (Some (Some m, s))
  | None =>
      '(r, q) ← user32_queue_take_matching user32_message_target_alive p remove (g_translated_queue s);
      let s := set_translated q s in
      match (r : option rb_msg_t) with
      | Some m => Ret (Some (Some m, s))
      | None => Ret (fetch_loop blocking remove p fuel s)
      end
  end.

(** What the guest's procedure at an address does with wParam and lParam; [None]: it
    does not return. *)
Variable run_hook : Z -> Z -> Z -> state -> outcome (option state).

(** The procedure's result is discarded by both callers. *)
Definition user32_call_keyboard_hook (msg : rb_msg_t) (s : state) : outcome (option state) :=
  if (g_keyboard_hook_proc s =? 0) || negb (user32_is_keyboard_message (message msg)) then Ret (Some s)
  else run_hook (g_keyboard_hook_proc s) (wParam msg) (lParam msg) (log_hook (wParam msg, lParam msg) s).
(** The same for a message that is not in a queue; whether the procedure was called. *)
Definition user32_call_keyboard_hook_direct (message wp lp : Z) (s : state) : outcome (option (Z * state)) :=
  if (g_keyboard_hook_proc s =? 0) || negb (user32_is_keyboard_message message) then Ret (Some (0, s))
  else
    r ← run_hook (g_keyboard_hook_proc s) wp lp (log_hook (wp, lp) s);
    Ret (match (r : option state) with None => None | Some s => Some (1, s) end).

Definition user32_set_keyboard_hook (proc : Z) (s : state) : Z * state :=
  if proc =? 0 then (0, s) else (0x60000002, set_hook proc 0x60000002 s).
Definition user32_clear_keyboard_hook (hook : Z) (s : state) : state :=
  if negb (hook =? 0) && (hook =? g_keyboard_hook_handle s) then set_hook 0 0 s else s.

Definition WH_KEYBOARD : Z := 2.
Definition SetWindowsHookExA (idHook lpfn : Z) (s : state) : Z * state :=
  if idHook =? WH_KEYBOARD then user32_set_keyboard_hook lpfn s else (0, s).
Definition UnhookWindowsHookEx (hhk : Z) (s : state) : Z * state := (1, user32_clear_keyboard_hook hhk s).

(** The return value, what is written to the caller's MSG, and the state.  [None]:
    the backend has not delivered enough events, or the hook does not return. *)
Definition GetMessageA (hf lo hi : Z) (fuel : nat) (s : state)
  : outcome (option (Z * option MSG * state)) :=
  match user32_synthesize_quit_message true hf lo hi s with
  | (Some rb, s) => Ret (Some (0, Some (user32_copy_rb_msg_to_msg rb), s))
  | (None, s) =>
      r ← user32_fetch_queued_message true true hf lo hi fuel s;
      match (r : option (option rb_msg_t * state)) with
      | None => Ret None
      | Some (None, s) => Ret (Some (0, None, s))
      | Some (Some rb, s) =>
          r ← user32_call_keyboard_hook rb s;
          Ret (match (r : option state) with
               | None => None
               | Some s => Some (if message rb =? WM_QUIT then 0 else 1, Some (user32_copy_rb_msg_to_msg rb), s)
               end)
      end
  end.

Definition PeekMessageA (hf lo hi wRemoveMsg : Z) (fuel : nat) (s : state)
  : outcome (option (Z * option MSG * state)) :=
  let remove := negb (Z.land wRemoveMsg 1 =? 0) in
  match user32_synthesize_quit_message remove hf lo hi s with
  | (Some rb, s) => Ret (Some (1, Some (user32_copy_rb_msg_to_msg rb), s))
  | (None, s) =>
      r ← user32_fetch_queued_message false remove hf lo hi fuel s;
      match (r : option (option rb_msg_t * state)) with
      | None => Ret None
      | Some (None, s) => Ret (Some (0, None, set_idle (u32 (idle_poll_count s + 1)) s))
      | Some (Some rb, s) =>
          r ← user32_call_keyboard_hook rb (set_idle 0 s);
          Ret (match (r : option state) with
               | None => None
               | Some s => Some (1, Some (user32_copy_rb_msg_to_msg rb), s)
               end)
      end
  end.

Definition PostMessageA (hWnd Msg wp lp : Z) (s : state) : bool * state :=
  if negb (hWnd =? 0) && negb (window hWnd) then (false, s)
  else
    let '(ok, q) := user32_queue_push (mkMsg hWnd Msg wp lp 0 0 0) (g_posted_queue s) in
    (ok, set_posted q s).

Definition PostQuitMessage (nExitCode : Z) (s : state) : state := set_quit true nExitCode s.
End state.


(** ** Rings hold lists *)

(** The physical index of logical position [i]. *)
Abbreviation phys h c i := (((h + i) mod c)%nat).

(** The first [length l] logical positions of the ring hold [l]. *)
Definition holds (buf : list rb_msg_t) (h : nat) (l : list rb_msg_t) : Prop :=
  (length l <= length buf)%nat /\ forall i, (i < length l)%nat -> buf !! phys h (length buf) i = l !! i.

Record ring_rep (q : ring) (l : list rb_msg_t) : Prop := {
  rr_holds : holds (rq_buf q) (rq_head q) l;
  rr_count : rq_count q = length l }.

Lemma phys_inj h c i j : (i < c)%nat -> (j < c)%nat -> phys h c i = phys h c j -> i = j.
Proof.
  intros Hi Hj E.
  pose proof (Nat.div_mod_eq (h + i) c). pose proof (Nat.div_mod_eq (h + j) c).
  set (q1 := ((h + i) / c)%nat) in *. set (q2 := ((h + j) / c)%nat) in *.
  assert (q1 = q2) by nia. nia.
Qed.

Lemma phys_lt h c i : (0 < c)%nat -> (phys h c i < c)%nat.
Proof. intros. apply Nat.mod_upper_bound. lia. Qed.

Lemma phys_next h c i : ((phys h c i + 1) mod c)%nat = phys h c (S i).
Proof.
  destruct c; [simpl; lia|]. rewrite Nat.Div0.add_mod_idemp_l. f_equal. lia.
Qed.

Lemma lookup_write buf h (i j : nat) (m : rb_msg_t) :
  (i < length buf)%nat -> (j < length buf)%nat ->
  <[phys h (length buf) j := m]> buf !! phys h (length buf) i
  = if decide (i = j) then Some m else buf !! phys h (length buf) i.
Proof.
  intros Hi Hj. case_decide as E.
  - subst. apply list_lookup_insert_eq. apply phys_lt. lia.
  - rewrite list_lookup_insert_ne; [done|]. intros Hp. apply phys_inj in Hp; congruence.
Qed.

Lemma push_rep q l m :
  ring_rep q l ->
  exists q', user32_queue_push m q = ((length l <? capacity q)%nat, q') /\ capacity q' = capacity q /\
    ring_rep q' (if (length l <? capacity q)%nat then l ++ [m] else l).
Proof.
  intros [[L H] C]. unfold user32_queue_push. rewrite C. unfold capacity in *.
  destruct (Nat.ltb_spec (length l) (length (rq_buf q))), (Nat.leb_spec (length (rq_buf q)) (length l)); try lia.
  - eexists. split; [reflexivity|]. simpl. rewrite length_insert. split; [done|].
    split; simpl; [|rewrite length_app; simpl; lia].
    split; [rewrite length_insert, length_app; simpl; lia|]. rewrite length_insert. intros i Hi.
    rewrite length_app in Hi. simpl in Hi. rewrite lookup_write by lia. case_decide as E.
    + subst. by rewrite lookup_app_r, Nat.sub_diag by lia.
    + rewrite lookup_app_l by lia. apply H. lia.
  - eexists. split_and!; [reflexivity|done|by split].
Qed.

Lemma find_loop_rep p q l : ring_rep q l -> forall todo i,
  (i + todo = length l)%nat ->
  queue_find_loop p q todo i
  = Ret ((fun k => phys (rq_head q) (capacity q) (i + k)) <$> (fst <$> list_find (fun m => p m = true) (drop i l))).
Proof.
  intros [[L H] C]. induction todo as [|todo IH]; intros i Hi; cbn [queue_find_loop].
  - rewrite drop_ge by lia. done.
  - destruct (lookup_lt_is_Some_2 l i) as [m Hm]; [lia|].
    rewrite (drop_S l m i Hm). unfold capacity. rewrite H by lia. rewrite Hm. cbn [deref mbind outcome_bind list_find].
    destruct (p m) eqn:E.
    + rewrite decide_True by done. simpl. by rewrite Nat.add_0_r.
    + rewrite decide_False by done. rewrite IH by lia.
      destruct (list_find _ _) as [[k x]|]; simpl; [|done]. unfold capacity. do 4 f_equal. lia.
Qed.

Lemma delete_shift (l : list rb_msg_t) k x :
  l !! S k = Some x -> delete (S k) (<[k := x]> l) = delete k l.
Proof.
  intros Hx. apply list_eq. intros i. destruct (decide (i < k)%nat).
  - by rewrite !list_lookup_delete_lt, list_lookup_insert_ne by lia.
  - destruct (decide (i = k)) as [->|].
    + rewrite list_lookup_delete_lt, list_lookup_delete_ge, Hx by lia.
      apply list_lookup_insert_eq. apply lookup_lt_Some in Hx. lia.
    + by rewrite !list_lookup_delete_ge, list_lookup_insert_ne by lia.
Qed.

(** Shifting down over position [k]. *)
Lemma shift_loop_rep h : forall fuel k l buf,
  (k < length l)%nat -> (length l <= k + fuel)%nat -> holds buf h l ->
  exists buf', queue_shift_loop (phys h (length buf) (length l - 1)) fuel (phys h (length buf) k) buf = Ret buf' /\
    length buf' = length buf /\ holds buf' h (delete k l).
Proof.
  induction fuel as [|fuel IH]; intros k l buf Hk Hf [L H]; [lia|]. cbn [queue_shift_loop].
  destruct (Nat.eqb_spec (phys h (length buf) k) (phys h (length buf) (length l - 1))) as [E|E].
  - apply phys_inj in E; [|lia..]. exists buf. split; [done|]. split; [done|].
    pose proof (length_delete l k (lookup_lt_is_Some_2 l k Hk)) as Ld.
    split; [lia|]. intros i Hi. rewrite list_lookup_delete_lt by lia. apply H. lia.
  - assert (k <> length l - 1)%nat by (intros ->; done).
    rewrite phys_next. destruct (lookup_lt_is_Some_2 l (S k)) as [x Hx]; [lia|].
    rewrite (H (S k)), Hx by lia. cbn [deref mbind outcome_bind].
    destruct (IH (S k) (<[k := x]> l) (<[phys h (length buf) k := x]> buf)) as (buf' & E' & L' & H');
      rewrite ?length_insert in *; [lia|lia| |].
    + split; rewrite ?length_insert; [lia|]. intros i Hi. rewrite lookup_write by lia. case_decide as Ei.
      * subst i. symmetry. apply list_lookup_insert_eq. lia.
      * rewrite list_lookup_insert_ne by done. by apply H.
    + exists buf'. rewrite delete_shift in H' by done. done.
Qed.

(** Taking the first match: the message, and the list without it when removed. *)
Definition take_first (p : rb_msg_t -> bool) (remove : bool) (l : list rb_msg_t)
  : option rb_msg_t * list rb_msg_t :=
  match list_find (fun m => p m = true) l with
  | Some (k, m) => (Some m, if remove then delete k l else l)
  | None => (None, l)
  end.

Lemma take_at_rep p remove q l :
  ring_rep q l ->
  exists q', (idx ← user32_queue_find_matching p q; user32_queue_take_at idx remove q)
    = Ret (fst (take_first p remove l), q') /\ capacity q' = capacity q /\
    ring_rep q' (snd (take_first p remove l)).
Proof.
  intros R. pose proof R as [[L H] C]. unfold user32_queue_find_matching, take_first.
  rewrite (find_loop_rep p q l R) by lia. rewrite drop_0. cbn [mbind outcome_bind].
  destruct (list_find _ l) as [[k m]|] eqn:E; simpl; [|by eauto].
  apply list_find_Some in E as (Hm & _). pose proof (lookup_lt_Some _ _ _ Hm) as Hk.
  replace (rq_count q =? 0)%nat with false by (symmetry; apply Nat.eqb_neq; lia).
  unfold capacity in *. rewrite H, Hm by lia. cbn [deref mbind outcome_bind].
  destruct remove; cbn [negb]; [|by eauto].
  destruct (shift_loop_rep (rq_head q) (length (rq_buf q)) k l (rq_buf q)) as (buf' & E' & L' & H'); [lia|lia|done|].
  rewrite C. replace (rq_head q + length l - 1)%nat with (rq_head q + (length l - 1))%nat by lia.
  rewrite E'. cbn [mbind outcome_bind]. eexists. split; [reflexivity|]. split; [done|].
  split; simpl; [done|]. rewrite length_delete by eauto. lia.
Qed.

Lemma discard_loop_rep alive h l : forall todo i buf,
  (i + todo = length l)%nat -> (length l <= length buf)%nat ->
  let w := length (filter (fun m => alive m = true) (take i l)) in
  (forall j, (j < w)%nat -> buf !! phys h (length buf) j = filter (fun m => alive m = true) (take i l) !! j) ->
  (forall j, (i <= j < length l)%nat -> buf !! phys h (length buf) j = l !! j) ->
  exists buf', discard_loop alive h todo i w buf = Ret (length (filter (fun m => alive m = true) l), buf') /\
    length buf' = length buf /\ holds buf' h (filter (fun m => alive m = true) l).
Proof.
  induction todo as [|todo IH]; intros i buf Hi L w Hw Hr; cbn [discard_loop].
  - unfold w in *. rewrite take_ge in * by lia. exists buf. split; [done|]. split; [done|].
    split; [|done]. pose proof (length_filter (fun m => alive m = true) l). lia.
  - destruct (lookup_lt_is_Some_2 l i) as [m Hm]; [lia|]. rewrite (Hr i), Hm by lia. cbn [deref mbind outcome_bind].
    pose proof (take_S_r _ _ _ Hm) as Et.
    pose proof (length_filter (fun m => alive m = true) (take i l)) as Lf. rewrite length_take in Lf.
    destruct (alive m) eqn:Ea; cbn [negb].
    + assert (Ef : filter (fun m => alive m = true) (take (S i) l)
                   = filter (fun m => alive m = true) (take i l) ++ [m])
        by (rewrite Et, filter_app, filter_cons_True by done; done).
      specialize (IH (S i) (<[phys h (length buf) w := m]> buf)). rewrite Ef, length_app in IH. simpl in IH.
      rewrite Nat.add_1_r, length_insert in IH. apply IH; [lia|lia| |].
      * intros j Hj. rewrite lookup_write by lia. case_decide as Ej.
        -- subst j. by rewrite lookup_app_r, Nat.sub_diag by lia.
        -- rewrite lookup_app_l by lia. apply Hw. lia.
      * intros j Hj. rewrite lookup_write by lia. case_decide; [lia|]. apply Hr. lia.
    + assert (Ef : filter (fun m => alive m = true) (take (S i) l) = filter (fun m => alive m = true) (take i l))
        by (rewrite Et, filter_app, filter_cons_False by (by rewrite Ea); apply app_nil_r).
      specialize (IH (S i) buf). rewrite Ef in IH. apply IH; [lia|lia|done|]. intros. apply Hr. lia.
Qed.

Lemma discard_rep alive q l :
  ring_rep q l ->
  exists q', user32_queue_discard_dead_targets alive q = Ret q' /\ capacity q' = capacity q /\
    ring_rep q' (filter (fun m => alive m = true) l).
Proof.
  intros [[L H] C]. unfold user32_queue_discard_dead_targets. rewrite C.
  destruct (Nat.eqb_spec (length l) 0) as [E|E].
  - destruct l; [|done]. exists q. by split_and!.
  - destruct (discard_loop_rep alive (rq_head q) l (length l) 0 (rq_buf q)) as (buf' & E' & L' & H');
      [lia|done|intros j Hj; simpl in Hj; lia|intros j Hj; apply H; lia|].
    simpl in E'. rewrite E'. cbn [mbind outcome_bind]. eexists. split; [reflexivity|]. by split.
Qed.

(** What taking a message does to the list a queue holds. *)
Definition take_spec (alive p : rb_msg_t -> bool) (remove : bool) (l : list rb_msg_t)
  : option rb_msg_t * list rb_msg_t := take_first p remove (filter (fun m => alive m = true) l).

Lemma take_matching_rep alive p remove q l :
  ring_rep q l ->
  exists q', user32_queue_take_matching alive p remove q = Ret (fst (take_spec alive p remove l), q') /\
    capacity q' = capacity q /\ ring_rep q' (snd (take_spec alive p remove l)).
Proof.
  intros R. destruct (discard_rep alive q l R) as (q1 & E1 & C1 & R1).
  destruct (take_at_rep p remove q1 _ R1) as (q2 & E2 & C2 & R2).
  exists q2. unfold user32_queue_take_matching. rewrite E1. cbn [mbind outcome_bind]. rewrite E2.
  split; [done|]. split; [congruence|done].
Qed.

(** ** The abstract mailbox *)

Record mailbox (B : Type) := mkMailbox {
  mb_posted : list rb_msg_t;
  mb_translated : list rb_msg_t;
  (** The exit code of a pending quit. *)
  mb_quit : option Z;
  (** Procedure and handle of the keyboard hook. *)
  mb_hook : option (Z * Z);
  mb_calls : list (Z * Z);
  mb_backend : B }.
Arguments mkMailbox {_}.
Arguments mb_posted {_}.
Arguments mb_translated {_}.
Arguments mb_quit {_}.
Arguments mb_hook {_}.
Arguments mb_calls {_}.
Arguments mb_backend {_}.

(** The calls a program makes. *)
Inductive mop :=
| MPost (hWnd Msg wp lp : Z)
| MQuit (code : Z)
| MGet (hf lo hi : Z)
| MPeek (hf lo hi wRemoveMsg : Z)
| MHook (idHook lpfn : Z)
| MUnhook (hhk : Z).
Inductive mres := RBool (b : bool) | RNone | RMsg (ret : Z) (m : option MSG) | RHook (h : Z).

(** What a procedure of the guest does: calls, each depending on the results of the
    earlier ones. *)
Inductive guest := GReturn | GCall (o : mop) (k : mres -> guest).

Section spec.
Context {A : Arch} {B : Type}.
Variable window : Z -> bool.
Variable rb_event_wait rb_event_peek : B -> Z * rb_msg_t * B.
(** How many backend events a call may look at. *)
Variable fuel : nat.
(** The guest's procedure at an address, with wParam and lParam. *)
Variable hook_proc : Z -> Z -> Z -> guest.

Abbreviation alive := (user32_message_target_alive window).
Abbreviation box := (mailbox B).

Definition QUEUE_LIMIT : nat := 64.

Definition mb_set_lists (p t : list rb_msg_t) (a : box) : box :=
  mkMailbox p t (mb_quit a) (mb_hook a) (mb_calls a) (mb_backend a).
Definition mb_set_backend (b : B) (a : box) : box :=
  mkMailbox (mb_posted a) (mb_translated a) (mb_quit a) (mb_hook a) (mb_calls a) b.

(** Backend events until one matches: the others wait in the translated list. *)
Fixpoint mb_receive (blocking remove : bool) (p : rb_msg_t -> bool) (n : nat) (a : box)
  : option (option rb_msg_t * box) :=
  match n with
  | O => None
  | S n =>
      let '(ret, m, b) := (if blocking then rb_event_wait else rb_event_peek) (mb_backend a) in
      let a := mb_set_backend b a in
      if (if blocking then ret <? 0 else ret <=? 0) || (message m =? 0) then Some (None, a)
      else if negb (alive m) then mb_receive blocking remove p n a
      else if p m && remove then Some (Some m, a)
      else if (QUEUE_LIMIT <=? length (mb_translated a))%nat then Some (None, a)
      else
        let a := mb_set_lists (mb_posted a) (mb_translated a ++ [m]) a in
        if p m then Some (Some m, a) else mb_receive blocking remove p n a
  end.

Definition mb_fetch (blocking remove : bool) (hf lo hi : Z) (a : box) : option (option rb_msg_t * box) :=
  let p := user32_message_matches_filter window hf lo hi in
  let '(r, posted) := take_spec alive p remove (mb_posted a) in
  let a := mb_set_lists posted (mb_translated a) a in
  match r with
  | Some m => Some (Some m, a)
  | None =>
      let '(r, translated) := take_spec alive p remove (mb_translated a) in
      let a := mb_set_lists (mb_posted a) translated a in
      match r with
      | Some m => Some (Some m, a)
      | None => mb_receive blocking remove p fuel a
      end
  end.

(** The hook sees the keyboard messages that are delivered. *)
Definition mb_deliver (run_hook : Z -> Z -> Z -> box -> option box) (m : rb_msg_t) (a : box) : option box :=
  match mb_hook a with
  | Some (proc, _) =>
      if user32_is_keyboard_message (message m)
      then run_hook proc (wParam m) (lParam m)
             (mkMailbox (mb_posted a) (mb_translated a) (mb_quit a) (mb_hook a)
                (mb_calls a ++ [(wParam m, lParam m)]) (mb_backend a))
      else Some a
  | None => Some a
  end.

Definition quit_msg (code : Z) : rb_msg_t := mkMsg 0 WM_QUIT (usize code) 0 0 0 0.

Definition mb_next (run_hook : Z -> Z -> Z -> box -> option box) (blocking remove : bool) (hf lo hi : Z) (a : box) : option (mres * box) :=
  match mb_quit a with
  | Some code =>
      Some (RMsg (if blocking then 0 else 1) (Some (user32_copy_rb_msg_to_msg (quit_msg code))),
            if remove then mkMailbox (mb_posted a) (mb_translated a) None (mb_hook a) (mb_calls a) (mb_backend a)
            else a)
  | None =>
      match mb_fetch blocking remove hf lo hi a with
      | None => None
      | Some (None, a) => Some (RMsg 0 None, a)
      | Some (Some m, a) =>
          a ← mb_deliver run_hook m a;
          Some (RMsg (if blocking && (message m =? WM_QUIT) then 0 else 1) (Some (user32_copy_rb_msg_to_msg m)), a)
      end
  end.

Definition mb_step (run_hook : Z -> Z -> Z -> box -> option box) (o : mop) (a : box) : option (mres * box) :=
  match o with
  | MPost h m wp lp =>
      if (h =? 0) || window h then
        if (length (mb_posted a) <? QUEUE_LIMIT)%nat
        then Some (RBool true, mb_set_lists (mb_posted a ++ [mkMsg h m wp lp 0 0 0]) (mb_translated a) a)
        else Some (RBool false, a)
      else Some (RBool false, a)
  | MQuit code => Some (RNone, mkMailbox (mb_posted a) (mb_translated a) (Some code) (mb_hook a) (mb_calls a) (mb_backend a))
  | MGet hf lo hi => mb_next run_hook true true hf lo hi a
  | MPeek hf lo hi rm => mb_next run_hook false (Z.odd rm) hf lo hi a
  | MHook id proc =>
      if (id =? WH_KEYBOARD) && negb (proc =? 0)
      then Some (RHook 0x60000002,
             mkMailbox (mb_posted a) (mb_translated a) (mb_quit a) (Some (proc, 0x60000002)) (mb_calls a) (mb_backend a))
      else Some (RHook 0, a)
  | MUnhook h =>
      Some (RBool true,
        match mb_hook a with
        | Some (_, h') => if h =? h'
                          then mkMailbox (mb_posted a) (mb_translated a) (mb_quit a) None (mb_calls a) (mb_backend a)
                          else a
        | None => a
        end)
  end.

(** A procedure of the guest, and the hook procedures, which may be called again while
    they run, to a depth. *)
Fixpoint mb_guest (run_hook : Z -> Z -> Z -> box -> option box) (g : guest) (a : box) : option box :=
  match g with
  | GReturn => Some a
  | GCall o k => '(r, a) ← mb_step run_hook o a; mb_guest run_hook (k r) a
  end.
Fixpoint mb_hooks (depth : nat) (proc wp lp : Z) (a : box) : option box :=
  match depth with
  | O => None
  | S depth => mb_guest (mb_hooks depth) (hook_proc proc wp lp) a
  end.

(** How deep the hooks may be nested. *)
Variable depth : nat.

(** The run stops with the results so far when a call is still waiting. *)
Fixpoint mb_run (ops : list mop) (a : box) : list mres * option box :=
  match ops with
  | [] => ([], Some a)
  | o :: ops =>
      match mb_step (mb_hooks depth) o a with
      | None => ([], None)
      | Some (r, a) => let '(rs, a) := mb_run ops a in (r :: rs, a)
      end
  end.

(** The same calls on the code's state. *)
Definition msg_step (run_hook : Z -> Z -> Z -> msg_state B -> outcome (option (msg_state B))) (o : mop) (s : msg_state B) : outcome (option (mres * msg_state B)) :=
  let get r :=
    r ← r;
    Ret (match (r : option (Z * option MSG * msg_state B)) with
         | None => None
         | Some (ret, m, s) => Some (RMsg ret m, s)
         end) in
  match o with
  | MPost h m wp lp => let '(b, s) := PostMessageA window h m wp lp s in Ret (Some (RBool b, s))
  | MQuit code => Ret (Some (RNone, PostQuitMessage code s))
  | MGet hf lo hi => get (GetMessageA window rb_event_wait rb_event_peek run_hook hf lo hi fuel s)
  | MPeek hf lo hi rm => get (PeekMessageA window rb_event_wait rb_event_peek run_hook hf lo hi rm fuel s)
  | MHook id proc => let '(h, s) := SetWindowsHookExA id proc s in Ret (Some (RHook h, s))
  | MUnhook h => let '(b, s) := UnhookWindowsHookEx h s in Ret (Some (RBool (b =? 1), s))
  end.

Fixpoint msg_guest (run_hook : Z -> Z -> Z -> msg_state B -> outcome (option (msg_state B))) (g : guest) (s : msg_state B)
  : outcome (option (msg_state B)) :=
  match g with
  | GReturn => Ret (Some s)
  | GCall o k =>
      r ← msg_step run_hook o s;
      match (r : option (mres * msg_state B)) with
      | None => Ret None
      | Some (r, s) => msg_guest run_hook (k r) s
      end
  end.
Fixpoint msg_hooks (depth : nat) (proc wp lp : Z) (s : msg_state B) : outcome (option (msg_state B)) :=
  match depth with
  | O => Ret None
  | S depth => msg_guest (msg_hooks depth) (hook_proc proc wp lp) s
  end.

Fixpoint msg_run (ops : list mop) (s : msg_state B) : outcome (list mres * option (msg_state B)) :=
  match ops with
  | [] => Ret ([], Some s)
  | o :: ops =>
      r ← msg_step (msg_hooks depth) o s;
      match (r : option (mres * msg_state B)) with
      | None => Ret ([], None)
      | Some (r, s) => '(rs, s) ← msg_run ops s; Ret (r :: rs, s)
      end
  end.

(** The state of the code represents a mailbox. *)
Record mb_rep (s : msg_state B) (a : box) : Prop := {
  mr_posted : ring_rep (g_posted_queue s) (mb_posted a);
  mr_posted_cap : capacity (g_posted_queue s) = QUEUE_LIMIT;
  mr_translated : ring_rep (g_translated_queue s) (mb_translated a);
  mr_translated_cap : capacity (g_translated_queue s) = QUEUE_LIMIT;
  mr_quit : mb_quit a = if g_quit_pending s then Some (g_quit_exit_code s) else None;
  mr_hook : match mb_hook a with
            | Some (p, h) => p <> 0 /\ h <> 0 /\ g_keyboard_hook_proc s = p /\ g_keyboard_hook_handle s = h
            | None => g_keyboard_hook_proc s = 0 /\ g_keyboard_hook_handle s = 0
            end;
  mr_calls : hook_calls s = mb_calls a;
  mr_backend : backend s = mb_backend a }.

(** Both sides are still waiting, or give the same result in related states. *)
Definition same_result {R} (x : option (R * msg_state B)) (y : option (R * box)) : Prop :=
  match x, y with
  | None, None => True
  | Some (r, s), Some (r', a) => r = r' /\ mb_rep s a
  | _, _ => False
  end.

Lemma mb_rep_backend s a b : mb_rep s a -> mb_rep (set_backend b s) (mb_set_backend b a).
Proof. intros []. by split. Qed.
Lemma mb_rep_posted s a q l :
  mb_rep s a -> ring_rep q l -> capacity q = QUEUE_LIMIT ->
  mb_rep (set_posted q s) (mb_set_lists l (mb_translated a) a).
Proof. intros [] ? ?. by split. Qed.
Lemma mb_rep_translated s a q l :
  mb_rep s a -> ring_rep q l -> capacity q = QUEUE_LIMIT ->
  mb_rep (set_translated q s) (mb_set_lists (mb_posted a) l a).
Proof. intros [] ? ?. by split. Qed.
Lemma mb_rep_idle s a n : mb_rep s a -> mb_rep (set_idle n s) a.
Proof. intros []. by split. Qed.

Lemma push_translated s a m :
  mb_rep s a ->
  exists q, user32_queue_push m (g_translated_queue s) = ((length (mb_translated a) <? QUEUE_LIMIT)%nat, q) /\
    ((length (mb_translated a) < QUEUE_LIMIT)%nat ->
     mb_rep (set_translated q s) (mb_set_lists (mb_posted a) (mb_translated a ++ [m]) a)).
Proof.
  intros R. destruct (push_rep _ _ m (mr_translated _ _ R)) as (q & E & C & Rq).
  rewrite (mr_translated_cap _ _ R) in *. exists q. split; [done|]. intros Hlt.
  rewrite (proj2 (Nat.ltb_lt _ _) Hlt) in Rq. by apply mb_rep_translated.
Qed.

Lemma fetch_loop_sim blocking remove p n s a :
  mb_rep s a ->
  same_result (fetch_loop window rb_event_wait rb_event_peek blocking remove p n s)
              (mb_receive blocking remove p n a).
Proof.
  revert s a. induction n as [|n IH]; intros s a R; [done|]. cbn [fetch_loop mb_receive].
  rewrite (mr_backend _ _ R).
  replace ((if blocking then rb_event_wait else rb_event_peek) (mb_backend a))
    with (if blocking then rb_event_wait (mb_backend a) else rb_event_peek (mb_backend a)) by (by destruct blocking).
  destruct (if blocking then rb_event_wait _ else _) as [[ret m] b].
  apply (mb_rep_backend s a b) in R. remember (set_backend b s) as s'. remember (mb_set_backend b a) as a'.
  clear Heqs' Heqa' s a. destruct (_ || _); [done|].
  destruct (negb (alive m)); [by apply IH|].
  destruct (push_translated s' a' m R) as (q & E & Hq). rewrite E.
  destruct (p m) eqn:Ep, remove; cbn [andb negb]; [done|..];
    (destruct (Nat.ltb_spec (length (mb_translated a')) QUEUE_LIMIT),
       (Nat.leb_spec QUEUE_LIMIT (length (mb_translated a'))); try lia; cbn [negb]); try done.
  - split; [done|]. by apply Hq.
  - by apply IH, Hq.
  - by apply IH, Hq.
Qed.

Lemma fetch_sim blocking remove hf lo hi s a :
  mb_rep s a ->
  exists x, user32_fetch_queued_message window rb_event_wait rb_event_peek blocking remove hf lo hi fuel s = Ret x /\
    same_result x (mb_fetch blocking remove hf lo hi a).
Proof.
  intros R. unfold user32_fetch_queued_message, mb_fetch.
  set (p := user32_message_matches_filter window hf lo hi).
  destruct (take_matching_rep alive p remove _ _ (mr_posted _ _ R)) as (q & E & C & Rq).
  rewrite E. cbn [mbind outcome_bind].
  destruct (take_spec alive p remove (mb_posted a)) as [r l]. cbn [fst snd] in Rq |- *.
  apply (mb_rep_posted s a q _ R) in Rq; [|by rewrite C; apply R].
  destruct r as [m|]; [eexists; split; [reflexivity|done]|].
  remember (set_posted q s) as s1. remember (mb_set_lists l _ a) as a1. clear E C R Heqs1 Heqa1.
  destruct (take_matching_rep alive p remove _ _ (mr_translated _ _ Rq)) as (q2 & E2 & C2 & Rq2).
  rewrite E2. cbn [mbind outcome_bind].
  destruct (take_spec alive p remove (mb_translated a1)) as [r2 l2]. cbn [fst snd] in Rq2 |- *.
  apply (mb_rep_translated s1 a1 q2 _ Rq) in Rq2; [|by rewrite C2; apply Rq].
  destruct r2 as [m|]; [eexists; split; [reflexivity|done]|].
  eexists. split; [reflexivity|]. by apply fetch_loop_sim.
Qed.

(** The hook procedure on both sides. *)
Definition same_state (x : option (msg_state B)) (y : option box) : Prop :=
  match x, y with None, None => True | Some s, Some a => mb_rep s a | _, _ => False end.
Definition same_hooks (h : Z -> Z -> Z -> msg_state B -> outcome (option (msg_state B))) (h' : Z -> Z -> Z -> box -> option box) : Prop :=
  forall proc wp lp s a, mb_rep s a -> exists x, h proc wp lp s = Ret x /\ same_state x (h' proc wp lp a).

Lemma deliver_sim h h' m s a : same_hooks h h' -> mb_rep s a ->
  exists x, user32_call_keyboard_hook h m s = Ret x /\ same_state x (mb_deliver h' m a).
Proof.
  intros Hk R. pose proof (mr_hook _ _ R) as Hh. unfold user32_call_keyboard_hook, mb_deliver.
  destruct (mb_hook a) as [[proc hd]|] eqn:Eh.
  - destruct Hh as (Hp & ? & Ep & ?). rewrite Ep. replace (proc =? 0) with false by lia. cbn [orb].
    destruct (user32_is_keyboard_message _); cbn [negb]; [|by eexists].
    apply Hk. destruct R. split; simpl; done || congruence.
  - destruct Hh as [-> _]. by eexists.
Qed.

Lemma quit_matches hf lo hi code : user32_message_matches_filter window hf lo hi (quit_msg code) = true.
Proof. done. Qed.

Lemma synthesize_quit_sim remove hf lo hi s a :
  mb_rep s a ->
  match mb_quit a with
  | Some code => exists s', user32_synthesize_quit_message window remove hf lo hi s = (Some (quit_msg code), s') /\
      mb_rep s' (if remove then mkMailbox (mb_posted a) (mb_translated a) None (mb_hook a) (mb_calls a) (mb_backend a)
                 else a)
  | None => user32_synthesize_quit_message window remove hf lo hi s = (None, s)
  end.
Proof.
  intros R. unfold user32_synthesize_quit_message. pose proof (mr_quit _ _ R) as Hq. rewrite Hq.
  destruct (g_quit_pending s); [|done].
  change (mkMsg 0 WM_QUIT (usize (g_quit_exit_code s)) 0 0 0 0) with (quit_msg (g_quit_exit_code s)).
  rewrite quit_matches. cbn [negb]. eexists. split; [reflexivity|].
  destruct remove; [|done]. destruct R. by split.
Qed.

Lemma msg_step_sim run_hook run_hook' o s a :
  same_hooks run_hook run_hook' -> mb_rep s a ->
  exists x, msg_step run_hook o s = Ret x /\ same_result x (mb_step run_hook' o a).
Proof.
  intros Hk R. destruct o as [h m wp lp|code|hf lo hi|hf lo hi rm|id proc|h]; cbn [msg_step mb_step].
  - unfold PostMessageA. rewrite <- negb_orb. destruct ((h =? 0) || window h); cbn [negb];
      [|eexists; split; [reflexivity|done]].
    destruct (push_rep _ _ (mkMsg h m wp lp 0 0 0) (mr_posted _ _ R)) as (q & E & C & Rq).
    rewrite E. rewrite (mr_posted_cap _ _ R) in *. eexists. split; [reflexivity|].
    destruct (Nat.ltb_spec (length (mb_posted a)) QUEUE_LIMIT).
    + split; [done|]. by apply mb_rep_posted.
    + split; [done|]. replace a with (mb_set_lists (mb_posted a) (mb_translated a) a) by (by destruct a).
      by apply mb_rep_posted.
  - eexists. split; [reflexivity|]. split; [done|]. destruct R. by split.
  - unfold GetMessageA, mb_next. pose proof (synthesize_quit_sim true hf lo hi s a R) as Hq.
    destruct (mb_quit a) as [code|].
    + destruct Hq as (s' & -> & R'). eexists. split; [reflexivity|]. by split.
    + rewrite Hq. destruct (fetch_sim true true hf lo hi s a R) as (x & E & Hx). rewrite E. cbn [mbind outcome_bind].
      destruct x as [[[rb|] s']|], (mb_fetch _ _ _ _ _ _) as [[r' a']|]; try done; [|destruct Hx as [<- Hr]; by eexists|by eexists].
      destruct Hx as [<- Hr]. destruct (deliver_sim _ _ rb _ _ Hk Hr) as (y & -> & Hy).
      cbn [mbind outcome_bind option_bind]. destruct y, (mb_deliver _ _ _); try done; by eexists.
  - unfold PeekMessageA, mb_next.
    assert (negb (Z.land rm 1 =? 0) = Z.odd rm) as ->.
    { change 1 with (Z.ones 1). rewrite Z.land_ones by lia. rewrite Zmod_odd. by destruct (Z.odd rm). }
    pose proof (synthesize_quit_sim (Z.odd rm) hf lo hi s a R) as Hq.
    destruct (mb_quit a) as [code|].
    + destruct Hq as (s' & -> & R'). eexists. split; [reflexivity|]. by split.
    + rewrite Hq. destruct (fetch_sim false (Z.odd rm) hf lo hi s a R) as (x & E & Hx). rewrite E.
      cbn [mbind outcome_bind].
      destruct x as [[[rb|] s']|], (mb_fetch _ _ _ _ _ _) as [[r' a']|]; try done; [| |by eexists].
      * destruct Hx as [<- Hr]. destruct (deliver_sim _ _ rb _ _ Hk (mb_rep_idle _ _ 0 Hr)) as (y & -> & Hy).
        cbn [mbind outcome_bind option_bind]. destruct y, (mb_deliver _ _ _); try done; by eexists.
      * destruct Hx as [<- Hr]. eexists. split; [reflexivity|]. split; [done|]. by apply mb_rep_idle.
  - unfold SetWindowsHookExA, user32_set_keyboard_hook. destruct (id =? WH_KEYBOARD); cbn [andb];
      [|eexists; split; [reflexivity|done]].
    destruct (Z.eqb_spec proc 0); cbn [negb]; (eexists; split; [reflexivity|]); [done|].
    split; [done|]. destruct R. by split.
  - unfold UnhookWindowsHookEx, user32_clear_keyboard_hook. eexists. split; [reflexivity|]. split; [done|].
    pose proof (mr_hook _ _ R) as Hh. destruct (mb_hook a) as [[proc h']|] eqn:Eh.
    + destruct Hh as (? & ? & ? & ->). destruct (Z.eqb_spec h h') as [->|]; [|by rewrite andb_false_r].
      replace (h' =? 0) with false by lia. simpl. destruct R. by split.
    + destruct Hh as [? ->]. by destruct (Z.eqb_spec h 0).
Qed.

Lemma msg_guest_sim h h' g : same_hooks h h' -> forall s a, mb_rep s a ->
  exists x, msg_guest h g s = Ret x /\ same_state x (mb_guest h' g a).
Proof.
  intros Hk. induction g as [|o k IH]; intros s a R; cbn [msg_guest mb_guest]; [by eexists|].
  destruct (msg_step_sim h h' o s a Hk R) as (x & -> & Hx). cbn [mbind outcome_bind].
  destruct x as [[r s1]|], (mb_step h' o a) as [[r' a1]|]; try done; [|by eexists].
  destruct Hx as [<- R1]. cbn [option_bind]. by apply IH.
Qed.
Lemma hooks_sim n : same_hooks (msg_hooks n) (mb_hooks n).
Proof.
  induction n as [|n IH]; intros proc wp lp s a R; [by eexists|]. cbn [msg_hooks mb_hooks]. by apply msg_guest_sim.
Qed.

Lemma msg_run_sim ops s a :
  mb_rep s a ->
  exists rs x, msg_run ops s = Ret (rs, x) /\ fst (mb_run ops a) = rs /\
    match x, snd (mb_run ops a) with
    | Some s', Some a' => mb_rep s' a'
    | None, None => True
    | _, _ => False
    end.
Proof.
  revert s a. induction ops as [|o ops IH]; intros s a R; cbn [msg_run mb_run]; [by eauto|].
  destruct (msg_step_sim _ _ o s a (hooks_sim depth) R) as (x & E & Hx). rewrite E. cbn [mbind outcome_bind].
  destruct x as [[r s1]|], (mb_step _ o a) as [[r' a1]|]; try done; [|by eauto].
  destruct Hx as [<- R1]. destruct (IH s1 a1 R1) as (rs & x & E1 & E2 & Hx). rewrite E1. cbn [mbind outcome_bind].
  destruct (mb_run ops a1) as [rs' a2]. simpl in *. subst rs'. eauto.
Qed.
End spec.

(** ** Theorems *)

Section theorems.
Context {A : Arch} {B : Type}.
Variable window : Z -> bool.
Variable rb_event_wait rb_event_peek : B -> Z * rb_msg_t * B.
Variable hook_proc : Z -> Z -> Z -> guest.

Definition empty_ring (n : nat) : ring := mkRing (replicate n zero_msg) 0 0.
Definition msg_init (b : B) : msg_state B :=
  mkMsgState (empty_ring USER32_POSTED_QUEUE_CAPACITY) (empty_ring USER32_TRANSLATED_QUEUE_CAPACITY)
    false 0 0 0 0 [] b.
Definition mb_init (b : B) : mailbox B := mkMailbox [] [] None None [] b.

Lemma empty_ring_rep n : ring_rep (empty_ring n) [].
Proof. split; [split; [simpl; lia|intros i Hi; simpl in Hi; lia]|done]. Qed.

Lemma msg_init_rep b : mb_rep (msg_init b) (mb_init b).
Proof. split; try done; apply empty_ring_rep. Qed.

(** C15: Every sequence of calls of the message loop (posting, quitting, getting and
    peeking with any filters, hooking) runs without a fault and returns what the
    mailbox returns: two lists of at most 64 messages, filtered by living targets,
    and a pending exit code.  The hook procedures are any programs of the same calls,
    run while the message that they see is delivered; they may be hooked again. *)
Theorem message_loop_refines fuel depth ops b :
  exists x, msg_run window rb_event_wait rb_event_peek fuel hook_proc depth ops (msg_init b)
    = Ret (fst (mb_run window rb_event_wait rb_event_peek fuel hook_proc depth ops (mb_init b)), x).
Proof.
  destruct (msg_run_sim window rb_event_wait rb_event_peek fuel hook_proc depth ops _ _ (msg_init_rep b)) as (rs & x & E & <- & _).
  eauto.
Qed.

(** *** Order *)

Definition post_of (m : rb_msg_t) : mop := MPost (hwnd m) (message m) (wParam m) (lParam m).
(** Messages a program may post: to no window or to a living one, not WM_QUIT,
    without time and place. *)
Definition postable (m : rb_msg_t) : Prop :=
  (hwnd m =? 0) || window (hwnd m) = true /\ message m <> WM_QUIT /\ time m = 0 /\ pt_x m = 0 /\ pt_y m = 0.

Lemma mb_run_app fuel depth ops1 ops2 a rs a1 :
  mb_run window rb_event_wait rb_event_peek fuel hook_proc depth ops1 a = (rs, Some a1) ->
  mb_run window rb_event_wait rb_event_peek fuel hook_proc depth (ops1 ++ ops2) a
  = (rs ++ fst (mb_run window rb_event_wait rb_event_peek fuel hook_proc depth ops2 a1),
     snd (mb_run window rb_event_wait rb_event_peek fuel hook_proc depth ops2 a1)).
Proof.
  revert a rs. induction ops1 as [|o ops1 IH]; intros a rs H; simpl in H |- *.
  - injection H as <- <-. by destruct (mb_run _ _ _ _ _ _ _ a).
  - destruct (mb_step _ _ _ _ _ o a) as [[r a']|]; [|done].
    destruct (mb_run _ _ _ _ _ _ ops1 a') as [rs' x] eqn:E. injection H as <- ->.
    by rewrite (IH a' rs' E).
Qed.

Lemma mb_posts fuel depth ms : forall a,
  Forall postable ms -> (length (mb_posted a) + length ms <= QUEUE_LIMIT)%nat ->
  mb_run window rb_event_wait rb_event_peek fuel hook_proc depth (map post_of ms) a
  = (replicate (length ms) (RBool true), Some (mb_set_lists (mb_posted a ++ ms) (mb_translated a) a)).
Proof.
  induction ms as [|m ms IH]; intros a H L; simpl.
  - rewrite app_nil_r. by destruct a.
  - apply Forall_cons in H as [(Hw & _ & Ht & Hx & Hy) H]. simpl in L. rewrite Hw.
    replace (length (mb_posted a) <? QUEUE_LIMIT)%nat with true by (symmetry; apply Nat.ltb_lt; lia).
    rewrite IH by (simpl; rewrite ?length_app; simpl; done || lia). simpl.
    replace (mkMsg (hwnd m) (message m) (wParam m) (lParam m) 0 0 0) with m by (destruct m; simpl in *; by subst).
    by rewrite <- (assoc_L (++)).
Qed.

Lemma no_filter_matches m : user32_message_matches_filter window 0 0 0 m = true.
Proof.
  unfold user32_message_matches_filter. destruct (_ =? WM_QUIT); [done|].
  by destruct (user32_is_keyboard_message _).
Qed.

Lemma postable_alive ms : Forall postable ms -> filter (fun m => user32_message_target_alive window m = true) ms = ms.
Proof.
  induction 1 as [|m ms (Hw & _) _ IH]; [done|]. rewrite filter_cons_True, IH; [done|].
  unfold user32_message_target_alive. rewrite <- orb_assoc, Hw. apply orb_true_r.
Qed.

Lemma mb_gets fuel depth ms : forall a,
  Forall postable ms -> mb_posted a = ms -> mb_quit a = None -> mb_hook a = None ->
  fst (mb_run window rb_event_wait rb_event_peek fuel hook_proc depth (replicate (length ms) (MGet 0 0 0)) a)
  = map (fun m => RMsg 1 (Some (user32_copy_rb_msg_to_msg m))) ms.
Proof.
  induction ms as [|m ms IH]; intros a H Hp Hq Hh; simpl; [done|].
  unfold mb_next. rewrite Hq. unfold mb_fetch, take_spec. rewrite Hp, postable_alive by done.
  unfold take_first. cbn [list_find]. rewrite decide_True by apply no_filter_matches.
  cbn [delete list_delete].
  unfold mb_deliver. cbn [mb_set_lists mb_hook]. rewrite Hh.
  apply Forall_cons in H as [(_ & Hm & _) H]. replace (message m =? WM_QUIT) with false by lia. cbn [andb mbind option_bind].
  specialize (IH (mb_set_lists ms (mb_translated a) a) H eq_refl Hq Hh).
  destruct (mb_run _ _ _ _ _ _ (replicate (length ms) _) _) as [rs x]. simpl in IH |- *. by rewrite IH.
Qed.

(** Up to 64 posted messages are delivered by GetMessageA exactly once, in the
    order in which they were posted, with their fields. *)
Theorem posted_messages_fifo fuel depth ms b :
  Forall postable ms -> (length ms <= 64)%nat ->
  exists x, msg_run window rb_event_wait rb_event_peek fuel hook_proc depth
      (map post_of ms ++ replicate (length ms) (MGet 0 0 0)) (msg_init b)
    = Ret (replicate (length ms) (RBool true) ++ map (fun m => RMsg 1 (Some (user32_copy_rb_msg_to_msg m))) ms, x).
Proof.
  intros H L.
  destruct (msg_run_sim window rb_event_wait rb_event_peek fuel hook_proc depth
    (map post_of ms ++ replicate (length ms) (MGet 0 0 0)) _ _ (msg_init_rep b)) as (rs & x & E & <- & _).
  exists x. rewrite E. do 2 f_equal.
  rewrite (mb_run_app fuel depth _ _ (mb_init b) _ _ (mb_posts fuel depth ms (mb_init b) H ltac:(unfold QUEUE_LIMIT; simpl; lia))). simpl.
  f_equal. by apply mb_gets.
Qed.

(** *** Waiting for the backend *)

(** The backend hands out these messages one after the other. *)
Inductive delivers : B -> list rb_msg_t -> B -> Prop :=
| delivers_nil b : delivers b [] b
| delivers_cons b ret m b1 ms b2 :
    rb_event_wait b = (ret, m, b1) -> 0 <= ret -> message m <> 0 -> delivers b1 ms b2 -> delivers b (m :: ms) b2.

Lemma mb_receive_skips p ms : forall n a b,
  delivers (mb_backend a) ms b -> Forall (fun m => p m = false) ms ->
  (length (mb_translated a) + length (filter (fun m => user32_message_target_alive window m = true) ms) <= QUEUE_LIMIT)%nat ->
  mb_receive window rb_event_wait rb_event_peek true true p (length ms + n) a
  = mb_receive window rb_event_wait rb_event_peek true true p n
      (mb_set_backend b (mb_set_lists (mb_posted a)
         (mb_translated a ++ filter (fun m => user32_message_target_alive window m = true) ms) a)).
Proof.
  induction ms as [|m ms IH]; intros n a b Hd Hp L; inversion Hd; subst.
  - simpl. rewrite app_nil_r. by destruct a.
  - apply Forall_cons in Hp as [Hm Hp]. simpl length. cbn [plus mb_receive].
    match goal with H : rb_event_wait _ = _ |- _ => rewrite H end.
    replace (_ <? 0) with false by lia. replace (message m =? 0) with false by lia. cbn [orb].
    rewrite Hm. cbn [andb]. destruct (user32_message_target_alive window m) eqn:Ea; cbn [negb].
    + rewrite filter_cons_True in L |- * by done. simpl in L.
      replace (QUEUE_LIMIT <=? _)%nat with false by (symmetry; apply Nat.leb_gt; simpl; lia).
      rewrite (IH n _ b) by (simpl; rewrite ?length_app; simpl; done || lia). simpl.
      by rewrite <- (assoc_L (++)).
    + rewrite filter_cons_False in L |- * by (by rewrite Ea).
      by rewrite (IH n _ b) by (simpl; done || lia).
Qed.

(** Waiting without a pending quit or a queued match, GetMessageA returns the first
    event of the backend that matches the filter; the events before it that have a
    living target are kept, in order, for later calls. *)
Theorem GetMessageA_waits depth hf lo hi s a ms b m ret b' n :
  let p := user32_message_matches_filter window hf lo hi in
  let alive := user32_message_target_alive window in
  mb_rep s a -> mb_quit a = None -> mb_hook a = None ->
  fst (take_spec alive p true (mb_posted a)) = None -> fst (take_spec alive p true (mb_translated a)) = None ->
  delivers (mb_backend a) ms b -> Forall (fun m => p m = false) ms ->
  rb_event_wait b = (ret, m, b') -> 0 <= ret -> message m <> 0 -> alive m = true -> p m = true ->
  (length (filter (fun m => alive m = true) (mb_translated a) ++ filter (fun m => alive m = true) ms) <= 64)%nat ->
  exists s' a', GetMessageA window rb_event_wait rb_event_peek
        (msg_hooks window rb_event_wait rb_event_peek (length ms + S n) hook_proc depth) hf lo hi (length ms + S n) s
      = Ret (Some (if message m =? WM_QUIT then 0 else 1, Some (user32_copy_rb_msg_to_msg m), s')) /\
    mb_rep s' a' /\ mb_posted a' = filter (fun m => alive m = true) (mb_posted a) /\
    mb_translated a' = filter (fun m => alive m = true) (mb_translated a) ++ filter (fun m => alive m = true) ms.
Proof.
  intros p alive R Hq Hh Hp Ht Hd Hs Hw Hr Hm0 Hal Hpm L.
  destruct (msg_step_sim window rb_event_wait rb_event_peek (length ms + S n) _ _ (MGet hf lo hi) s a
    (hooks_sim window rb_event_wait rb_event_peek (length ms + S n) hook_proc depth) R) as (x & E & Hx).
  unfold take_spec, take_first in Hp, Ht. fold alive p in Hp, Ht.
  cbn [mb_step] in Hx. unfold mb_next in Hx. rewrite Hq in Hx. unfold mb_fetch, take_spec, take_first in Hx.
  fold p alive in Hx.
  destruct (list_find (fun m => p m = true) (filter _ (mb_posted a))) as [[? ?]|]; [done|].
  cbn [mb_set_lists mb_translated] in Hx.
  destruct (list_find (fun m => p m = true) (filter _ (mb_translated a))) as [[? ?]|]; [done|].
  rewrite length_app in L.
  rewrite (mb_receive_skips p ms (S n) _ b) in Hx; [|exact Hd|exact Hs|exact L].
  cbn [mb_receive mb_set_backend mb_set_lists mb_backend mb_posted mb_translated] in Hx. rewrite Hw in Hx.
  replace (ret <? 0) with false in Hx by lia. replace (message m =? 0) with false in Hx by lia.
  cbn [orb] in Hx. fold alive in Hx. rewrite Hal, Hpm in Hx. cbn [negb andb] in Hx.
  unfold mb_deliver in Hx. cbn [mb_hook mb_set_backend mb_set_lists] in Hx. rewrite Hh in Hx. cbn [mbind option_bind] in Hx.
  destruct x as [[r s']|]; [|done]. destruct Hx as [-> R'].
  cbn [msg_step] in E. apply bind_Ret in E as (y & Ey & E). injection E as E.
  destruct y as [[[rt mm] s'']|]; [|done]. injection E as -> -> ->.
  exists s'. eexists. split; [exact Ey|]. split; [exact R'|]. done.
Qed.
End theorems.

(** ** Witnesses *)

(** Windows 5 and 6 exist; the backend plays a script and then reports an error. *)
Definition demo_window (h : Z) : bool := (h =? 5) || (h =? 6).
Definition script_event (b : list rb_msg_t) : Z * rb_msg_t * list rb_msg_t :=
  match b with
  | [] => (-1, zero_msg, [])
  | m :: b => (1, m, b)
  end.
Definition no_hook (_ _ _ : Z) : guest := GReturn.
Definition demo_msg (h m : Z) : rb_msg_t := mkMsg h m 7 8 0 0 0.

Lemma posted_messages_fifo_witness :
  exists x, @msg_run arch64 (list rb_msg_t) demo_window script_event script_event 1 no_hook 0
      [MPost 5 0x400 7 8; MPost 6 0x401 7 8; MGet 0 0 0; MGet 0 0 0] (msg_init [])
    = Ret ([RBool true; RBool true; RMsg 1 (Some (mkMSG 5 0x400 7 8 0 (0, 0)));
            RMsg 1 (Some (mkMSG 6 0x401 7 8 0 (0, 0)))], x).
Proof.
  apply (@posted_messages_fifo arch64 (list rb_msg_t) demo_window script_event script_event no_hook 1 0
           [demo_msg 5 0x400; demo_msg 6 0x401] []); [|simpl; lia].
  repeat apply Forall_cons_2; [by split_and!|by split_and!|apply Forall_nil_2].
Defined.

(** Waiting for messages of window 5: one of window 6 is kept, one of a window
    that is gone is dropped. *)
Lemma GetMessageA_waits_witness :
  exists s' a', @GetMessageA arch64 (list rb_msg_t) demo_window script_event script_event
        (msg_hooks (A := arch64) demo_window script_event script_event 3 no_hook 0) 5 0 0 3
      (msg_init [demo_msg 6 0x400; demo_msg 9 0x400; demo_msg 5 0x401])
      = Ret (Some (1, Some (mkMSG 5 0x401 7 8 0 (0, 0)), s')) /\
    mb_rep s' a' /\ mb_translated a' = [demo_msg 6 0x400].
Proof.
  destruct (@GetMessageA_waits arch64 (list rb_msg_t) demo_window script_event script_event no_hook 0 5 0 0 _ _
    [demo_msg 6 0x400; demo_msg 9 0x400] [demo_msg 5 0x401] (demo_msg 5 0x401) 1 [] 0
    (msg_init_rep [demo_msg 6 0x400; demo_msg 9 0x400; demo_msg 5 0x401])) as (s' & a' & E & R & _ & T);
    [reflexivity|reflexivity|reflexivity|reflexivity| | |reflexivity|lia|discriminate|reflexivity|reflexivity|simpl; lia|].
  - do 2 (eapply delivers_cons; [reflexivity|lia|discriminate|]). apply delivers_nil.
  - repeat apply Forall_cons_2; [reflexivity|reflexivity|apply Forall_nil_2].
  - exists s', a'. split_and!; [exact E|exact R|exact T].
Defined.

(** With 64 messages of another window queued, the next one makes GetMessageA
    return 0, the value that ends a message loop, and the message is lost. *)
Example full_queue_ends_message_loop :
  match @GetMessageA arch64 (list rb_msg_t) demo_window script_event script_event (fun _ _ _ s => Ret (Some s)) 5 0 0 66
          (msg_init (replicate 64 (demo_msg 6 0x400) ++ [demo_msg 6 0x777; demo_msg 5 0x401])) with
  | Ret (Some (ret, m, s)) => ret = 0 /\ m = None /\ g_quit_pending s = false /\
      bool_decide (demo_msg 6 0x777 ∈ rq_buf (g_translated_queue s)) = false /\ backend s = [demo_msg 5 0x401]
  | _ => False
  end.
Proof. vm_compute. done. Qed.

(** A hook that posts a message to window 5 for each key it sees: the guest gets it
    after the key. *)
Definition echo_hook (_ wp _ : Z) : guest := GCall (MPost 5 0x401 wp 0) (fun _ => GReturn).
Example hook_posts_message :
  exists x, @msg_run arch64 (list rb_msg_t) demo_window script_event script_event 1 echo_hook 1
      [MHook WH_KEYBOARD 0x1000; MPost 5 WM_KEYDOWN 65 0; MGet 0 0 0; MGet 0 0 0] (msg_init [])
    = Ret ([RHook 0x60000002; RBool true; RMsg 1 (Some (mkMSG 5 WM_KEYDOWN 65 0 0 (0, 0)));
            RMsg 1 (Some (mkMSG 5 0x401 65 0 0 (0, 0)))], x).
Proof. eexists. vm_compute. reflexivity. Qed.
