(* ===== verification/BackendState.v ===== *)
(** * State of the SDL backend's events (src/backend/sdl2/rb_event_state.c,
      rb_event_focus.c, rb_event_shutdown.c, rb_runtime_state.c)

    The route table between guest windows and backend windows, the queue of
    synthetic messages, the focus policy, the shutdown sequence and the flags set
    by signal handlers.  Backend windows are the objects of the live handles of
    type RB_WINDOW, a finite map.  Whether realloc succeeds is a parameter. *)
From S2P Require Import Prelude MessageQueue.

Definition WM_ACTIVATE : Z := 0x0006.
Definition WM_SETFOCUS : Z := 0x0007.
Definition WM_KILLFOCUS : Z := 0x0008.
Definition WM_CLOSE : Z := 0x0010.
Definition WA_INACTIVE : Z := 0.
Definition WA_ACTIVE : Z := 1.

(** The fields of rb_window the event code uses. *)
Record rb_window := mkRbWindow {
  w_sdl_window_id : Z; w_native_window_id : Z; w_is_visible : bool; w_is_minimized : bool; w_is_maximized : bool }.

Record rb_window_route := mkRoute {
  r_hwnd : Z; r_backend_win : Z; r_sdl_window_id : Z; r_native_window_id : Z }.
Definition zero_route : rb_window_route := mkRoute 0 0 0 0.
#[export] Instance rb_window_route_eq_dec : EqDecision rb_window_route.
Proof. solve_decision. Defined.

(** The arrays have the length of their capacity; cells of the message array
    beyond the count are never read. *)
Record rb_state := mkRb {
  g_active_window : Z;
  g_window_routes : list rb_window_route;
  g_synthetic_queue : list rb_msg_t;
  g_synthetic_queue_count : nat;
  g_shutdown_hwnds : list Z;
  g_shutdown_hwnd_count : nat;
  g_shutdown_hwnd_head : nat;
  g_shutdown_force_quit_pending : bool;
  g_alt_key_down : bool;
  g_shutdown_requested : bool;
  g_x11_bad_window_pending : Z;
  rb_windows : gmap Z rb_window }.

Definition set_active (h : Z) (s : rb_state) : rb_state :=
  mkRb h (g_window_routes s) (g_synthetic_queue s) (g_synthetic_queue_count s) (g_shutdown_hwnds s)
    (g_shutdown_hwnd_count s) (g_shutdown_hwnd_head s) (g_shutdown_force_quit_pending s) (g_alt_key_down s)
    (g_shutdown_requested s) (g_x11_bad_window_pending s) (rb_windows s).
Definition set_routes (r : list rb_window_route) (s : rb_state) : rb_state :=
  mkRb (g_active_window s) r (g_synthetic_queue s) (g_synthetic_queue_count s) (g_shutdown_hwnds s)
    (g_shutdown_hwnd_count s) (g_shutdown_hwnd_head s) (g_shutdown_force_quit_pending s) (g_alt_key_down s)
    (g_shutdown_requested s) (g_x11_bad_window_pending s) (rb_windows s).
Definition set_synthetic (q : list rb_msg_t) (n : nat) (s : rb_state) : rb_state :=
  mkRb (g_active_window s) (g_window_routes s) q n (g_shutdown_hwnds s)
    (g_shutdown_hwnd_count s) (g_shutdown_hwnd_head s) (g_shutdown_force_quit_pending s) (g_alt_key_down s)
    (g_shutdown_requested s) (g_x11_bad_window_pending s) (rb_windows s).
Definition set_shutdown (l : list Z) (count head : nat) (force : bool) (s : rb_state) : rb_state :=
  mkRb (g_active_window s) (g_window_routes s) (g_synthetic_queue s) (g_synthetic_queue_count s)
    l count head force (g_alt_key_down s) (g_shutdown_requested s) (g_x11_bad_window_pending s) (rb_windows s).
Definition set_alt (b : bool) (s : rb_state) : rb_state :=
  mkRb (g_active_window s) (g_window_routes s) (g_synthetic_queue s) (g_synthetic_queue_count s)
    (g_shutdown_hwnds s) (g_shutdown_hwnd_count s) (g_shutdown_hwnd_head s) (g_shutdown_force_quit_pending s) b
    (g_shutdown_requested s) (g_x11_bad_window_pending s) (rb_windows s).
Definition set_flags (shutdown : bool) (bad : Z) (s : rb_state) : rb_state :=
  mkRb (g_active_window s) (g_window_routes s) (g_synthetic_queue s) (g_synthetic_queue_count s)
    (g_shutdown_hwnds s) (g_shutdown_hwnd_count s) (g_shutdown_hwnd_head s) (g_shutdown_force_quit_pending s)
    (g_alt_key_down s) shutdown bad (rb_windows s).
Definition set_windows (w : gmap Z rb_window) (s : rb_state) : rb_state :=
  mkRb (g_active_window s) (g_window_routes s) (g_synthetic_queue s) (g_synthetic_queue_count s)
    (g_shutdown_hwnds s) (g_shutdown_hwnd_count s) (g_shutdown_hwnd_head s) (g_shutdown_force_quit_pending s)
    (g_alt_key_down s) (g_shutdown_requested s) (g_x11_bad_window_pending s) w.

(** *** Growing arrays *)

(** [while (new_capacity < needed) new_capacity *= 2] *)
Fixpoint double_until (fuel needed cap : nat) : nat :=
  match fuel with
  | O => cap
  | S fuel => if (cap <? needed)%nat then double_until fuel needed (cap * 2) else cap
  end.
Definition grown_capacity (initial needed cap : nat) : nat :=
  double_until needed needed (if (cap =? 0)%nat then initial else cap * 2).

Section backend.
Context {A : Arch}.
(** realloc of an array to this many bytes succeeds. *)
Variable realloc : Z -> bool.

Definition sizeof_route : Z := if is_my_wine32 then 16 else 32.
Definition sizeof_rb_msg : Z := if is_my_wine32 then 28 else 48.
Definition sizeof_uintptr : Z := if is_my_wine32 then 4 else 8.

(** *** Windows and routes *)

Definition rb_event_get_backend_window (win : Z) (s : rb_state) : option rb_window := rb_windows s !! win.

Definition rb_event_ensure_route_capacity (needed : nat) (s : rb_state) : option rb_state :=
  let cap := length (g_window_routes s) in
  if (needed <=? cap)%nat then Some s
  else
    let n := grown_capacity 16 needed cap in
    if realloc (usize (Z.of_nat n * sizeof_route))
    then Some (set_routes (g_window_routes s ++ replicate (n - cap) zero_route) s) else None.

Definition find_route (p : rb_window_route -> bool) (s : rb_state) : option nat :=
  fst <$> list_find (fun r => p r = true) (g_window_routes s).
Definition rb_event_find_route_by_hwnd (h : Z) (s : rb_state) : option nat :=
  find_route (fun r => r_hwnd r =? h) s.
Definition rb_event_find_route_by_sdl_window (id : Z) (s : rb_state) : option nat :=
  if id =? 0 then None else find_route (fun r => negb (r_hwnd r =? 0) && (r_sdl_window_id r =? id)) s.
Definition rb_event_find_route_by_native_window (id : Z) (s : rb_state) : option nat :=
  if id =? 0 then None else find_route (fun r => negb (r_hwnd r =? 0) && (r_native_window_id r =? id)) s.

Definition rb_event_alloc_route_slot (s : rb_state) : option nat * rb_state :=
  match rb_event_ensure_route_capacity (length (g_window_routes s) + 1) s with
  | None => (None, s)
  | Some s => (find_route (fun r => r_hwnd r =? 0) s, s)
  end.

Definition rb_event_set_active_window (h : Z) (s : rb_state) : rb_state := set_active h s.

(** [true] is RB_OK. *)
Definition rb_event_bind_window (h win : Z) (s : rb_state) : bool * rb_state :=
  match rb_event_get_backend_window win s with
  | None => (false, s)
  | Some wnd =>
      if (h =? 0) || (w_sdl_window_id wnd =? 0) then (false, s)
      else
        let '(idx, s) := match rb_event_find_route_by_hwnd h s with
                         | Some i => (Some i, s)
                         | None => rb_event_alloc_route_slot s
                         end in
        match idx with
        | None => (false, s)
        | Some i =>
            (true, set_routes (<[i := mkRoute h win (w_sdl_window_id wnd) (w_native_window_id wnd)]>
                                 (g_window_routes s)) s)
        end
  end.

Definition rb_event_unbind_window (h : Z) (s : rb_state) : rb_state :=
  match rb_event_find_route_by_hwnd h s with
  | None => s
  | Some i =>
      let s := set_routes (<[i := zero_route]> (g_window_routes s)) s in
      if g_active_window s =? h then set_active 0 s else s
  end.

Definition route_field (f : rb_window_route -> Z) (i : option nat) (s : rb_state) : Z :=
  match i with
  | Some i => match g_window_routes s !! i with Some r => f r | None => 0 end
  | None => 0
  end.
Definition rb_event_get_sdl_window_id (h : Z) (s : rb_state) : Z :=
  route_field r_sdl_window_id (rb_event_find_route_by_hwnd h s) s.
Definition rb_event_resolve_hwnd_from_sdl_window (id : Z) (s : rb_state) : Z :=
  route_field r_hwnd (rb_event_find_route_by_sdl_window id s) s.
Definition rb_event_resolve_hwnd_from_native_window (id : Z) (s : rb_state) : Z :=
  route_field r_hwnd (rb_event_find_route_by_native_window id s) s.
Definition rb_event_resolve_backend_window (h : Z) (s : rb_state) : option rb_window :=
  match rb_event_find_route_by_hwnd h s with
  | None => None
  | Some i => r ← g_window_routes s !! i; rb_event_get_backend_window (r_backend_win r) s
  end.

(** *** Synthetic messages *)

Definition rb_event_ensure_synthetic_capacity (needed : nat) (s : rb_state) : option rb_state :=
  let cap := length (g_synthetic_queue s) in
  if (needed <=? cap)%nat then Some s
  else
    let n := grown_capacity 8 needed cap in
    if realloc (usize (Z.of_nat n * sizeof_rb_msg))
    then Some (set_synthetic (g_synthetic_queue s ++ replicate (n - cap) zero_msg) (g_synthetic_queue_count s) s)
    else None.

Definition rb_event_push_synthetic (m : rb_msg_t) (s : rb_state) : bool * rb_state :=
  match rb_event_ensure_synthetic_capacity (g_synthetic_queue_count s + 1) s with
  | None => (false, s)
  | Some s =>
      (true, set_synthetic (<[g_synthetic_queue_count s := m]> (g_synthetic_queue s))
               (g_synthetic_queue_count s + 1) s)
  end.

(** The loop [for (i = 1; i < count; i++) q[i - 1] = q[i]]. *)
Fixpoint shift_down (todo i : nat) (q : list rb_msg_t) : outcome (list rb_msg_t) :=
  match todo with
  | O => Ret q
  | S todo => m ← deref (q !! i); shift_down todo (S i) (<[(i - 1)%nat := m]> q)
  end.

Definition rb_event_pop_synthetic (s : rb_state) : outcome (option rb_msg_t * rb_state) :=
  if (g_synthetic_queue_count s =? 0)%nat then Ret (None, s)
  else
    m ← deref (g_synthetic_queue s !! 0%nat);
    q ← shift_down (g_synthetic_queue_count s - 1) 1 (g_synthetic_queue s);
    Ret (Some m, set_synthetic q (g_synthetic_queue_count s - 1) s).

(** *** Focus *)

Definition rb_event_queue_focus_messages (h : Z) (gained : bool) (s : rb_state) : rb_state :=
  if h =? 0 then s
  else
    let '(_, s) := rb_event_push_synthetic
                     (mkMsg h WM_ACTIVATE (if gained then WA_ACTIVE else WA_INACTIVE) 0 0 0 0) s in
    snd (rb_event_push_synthetic (mkMsg h (if gained then WM_SETFOCUS else WM_KILLFOCUS) 0 0 0 0 0) s).

Definition rb_event_activate_window (h : Z) (s : rb_state) : rb_state :=
  if h =? 0 then s else rb_event_queue_focus_messages h true (rb_event_set_active_window h s).

Inductive focus_change := FocusGained | FocusLost | FocusOther.

(** The message, when one is returned.  winmm_doom95_set_application_active is a
    weak symbol of the multimedia stubs and not part of this state. *)
Definition rb_event_translate_focus_window_event (ev : focus_change) (event_hwnd : Z) (s : rb_state)
  : outcome (option rb_msg_t * rb_state) :=
  if event_hwnd =? 0 then Ret (None, s)
  else
    match ev with
    | FocusGained =>
        rb_event_pop_synthetic (rb_event_queue_focus_messages event_hwnd true (rb_event_set_active_window event_hwnd s))
    | FocusLost =>
        if g_active_window s =? event_hwnd then
          let s := rb_event_queue_focus_messages event_hwnd false s in
          rb_event_pop_synthetic (set_alt false (rb_event_set_active_window 0 s))
        else Ret (None, s)
    | FocusOther => Ret (None, s)
    end.

(** *** Shutdown *)

Definition rb_event_ensure_shutdown_capacity (needed : nat) (s : rb_state) : option rb_state :=
  let cap := length (g_shutdown_hwnds s) in
  if (needed <=? cap)%nat then Some s
  else
    let n := grown_capacity 16 needed cap in
    if realloc (usize (Z.of_nat n * sizeof_uintptr))
    then Some (set_shutdown (g_shutdown_hwnds s ++ replicate (n - cap) 0) (g_shutdown_hwnd_count s)
                 (g_shutdown_hwnd_head s) (g_shutdown_force_quit_pending s) s)
    else None.

(** The loop over the routes: append the windows other than the active one. *)
Fixpoint queue_other_windows (active : Z) (routes : list rb_window_route) (l : list Z) (count : nat)
  : outcome (list Z * nat) :=
  match routes with
  | [] => Ret (l, count)
  | r :: routes =>
      if (r_hwnd r =? 0) || (r_hwnd r =? active) then queue_other_windows active routes l count
      else
        _ ← deref (l !! count);
        queue_other_windows active routes (<[count := r_hwnd r]> l) (S count)
  end.

Definition rb_event_begin_shutdown (s : rb_state) : outcome rb_state :=
  let s := set_shutdown (g_shutdown_hwnds s) 0 0 false s in
  match rb_event_ensure_shutdown_capacity (length (g_window_routes s) + 1) s with
  | None => Ret s
  | Some s =>
      let active := g_active_window s in
      let with_active := negb (active =? 0) && bool_decide (is_Some (rb_event_resolve_backend_window active s)) in
      let l := if with_active then <[0%nat := active]> (g_shutdown_hwnds s) else g_shutdown_hwnds s in
      '(l, count) ← queue_other_windows active (g_window_routes s) l (if with_active then 1 else 0);
      Ret (set_shutdown l count 0 false s)
  end.

Fixpoint shutdown_loop (todo head : nat) (s : rb_state) : outcome (option Z * nat) :=
  match todo with
  | O => Ret (None, head)
  | S todo =>
      h ← deref (g_shutdown_hwnds s !! head);
      if (h =? 0) || bool_decide (rb_event_resolve_backend_window h s = None) then shutdown_loop todo (S head) s
      else Ret (Some h, S head)
  end.

Definition rb_event_translate_shutdown (s : rb_state) : outcome (option rb_msg_t * rb_state) :=
  '(h, head) ← shutdown_loop (g_shutdown_hwnd_count s - g_shutdown_hwnd_head s) (g_shutdown_hwnd_head s) s;
  let s := set_shutdown (g_shutdown_hwnds s) (g_shutdown_hwnd_count s) head (g_shutdown_force_quit_pending s) s in
  match (h : option Z) with
  | Some h => Ret (Some (mkMsg h WM_CLOSE 0 0 0 0 0), s)
  | None =>
      if g_shutdown_force_quit_pending s
      then Ret (Some (mkMsg 0 WM_QUIT 0 0 0 0 0),
                set_shutdown (g_shutdown_hwnds s) (g_shutdown_hwnd_count s) head false s)
      else Ret (None, s)
  end.

(** *** Flags of the runtime *)

Definition rb_runtime_note_shutdown_request (s : rb_state) : rb_state :=
  set_flags true (g_x11_bad_window_pending s) s.
Definition rb_runtime_consume_shutdown_request (s : rb_state) : bool * rb_state :=
  if negb (g_shutdown_requested s) then (false, s) else (true, set_flags false (g_x11_bad_window_pending s) s).
Definition rb_runtime_note_bad_window (native : Z) (s : rb_state) : rb_state :=
  set_flags (g_shutdown_requested s) native s.
Definition rb_x11_consume_bad_window (s : rb_state) : Z * rb_state :=
  (g_x11_bad_window_pending s, set_flags (g_shutdown_requested s) 0 s).
End backend.

(** ** Lemmas *)

Lemma double_until_enough fuel : forall needed cap,
  (1 <= cap)%nat -> (needed <= cap + fuel)%nat -> (needed <= double_until fuel needed cap)%nat.
Proof.
  induction fuel as [|fuel IH]; intros needed cap Hc Hn; simpl; [lia|].
  destruct (Nat.ltb_spec cap needed); [|lia]. apply IH; lia.
Qed.

Lemma grown_capacity_enough initial needed cap :
  (1 <= initial)%nat -> (needed <= grown_capacity initial needed cap)%nat.
Proof.
  intros Hi. unfold grown_capacity. apply double_until_enough; destruct (Nat.eqb_spec cap 0); lia.
Qed.

Lemma grown_capacity_step initial cap :
  (2 <= initial)%nat ->
  grown_capacity initial (cap + 1) cap = if (cap =? 0)%nat then initial else (cap * 2)%nat.
Proof.
  intros Hi. unfold grown_capacity. rewrite Nat.add_1_r. cbn [double_until].
  destruct (Nat.eqb_spec cap 0).
  - by rewrite (proj2 (Nat.ltb_ge _ _)) by lia.
  - by rewrite (proj2 (Nat.ltb_ge _ _)) by lia.
Qed.

(** *** Synthetic messages *)

Definition synth (s : rb_state) : list rb_msg_t := take (g_synthetic_queue_count s) (g_synthetic_queue s).
Definition synth_ok (s : rb_state) : Prop := (g_synthetic_queue_count s <= length (g_synthetic_queue s))%nat.

(** Everything but the queue of synthetic messages. *)
Definition same_but_synth (s s' : rb_state) : Prop :=
  s' = set_synthetic (g_synthetic_queue s') (g_synthetic_queue_count s') s.

Lemma push_synthetic_spec {A : Arch} realloc m s :
  synth_ok s ->
  exists b s', rb_event_push_synthetic realloc m s = (b, s') /\ synth_ok s' /\ same_but_synth s s' /\
    synth s' = (if b then synth s ++ [m] else synth s) /\
    ((forall n, realloc n = true) -> b = true).
Proof.
  intros Ho. unfold rb_event_push_synthetic, rb_event_ensure_synthetic_capacity, synth_ok, synth in *.
  destruct s as [ac ro q n sh sc hd fq al rq bw ws]. simpl in *.
  destruct (Nat.leb_spec (n + 1) (length q)).
  - exists true. eexists. split; [reflexivity|]. simpl. rewrite length_insert. split_and!; [lia|done| |done].
    rewrite Nat.add_1_r, (take_S_r _ _ m) by (apply list_lookup_insert_eq; lia).
    by rewrite take_insert_ge by lia.
  - pose proof (grown_capacity_enough 8 (n + 1) (length q) ltac:(lia)) as Hg.
    destruct (realloc _) eqn:Er.
    + exists true. eexists. split; [reflexivity|]. simpl. rewrite length_insert, length_app, length_replicate.
      split_and!; [lia|done| |done].
      generalize dependent (grown_capacity 8 (n + 1) (length q)). intros g Hg _.
      rewrite Nat.add_1_r, (take_S_r _ _ m)
        by (apply list_lookup_insert_eq; rewrite length_app, length_replicate; lia).
      rewrite take_insert_ge by lia. by rewrite take_app_le by lia.
    + exists false. eexists. split; [reflexivity|]. split_and!; [done|done|done|].
      intros Hr. by rewrite Hr in Er.
Qed.

Lemma shift_down_spec todo : forall i q,
  (1 <= i)%nat -> (i + todo <= length q)%nat ->
  exists q', shift_down todo i q = Ret q' /\ length q' = length q /\
    (forall j, (j < i - 1)%nat -> q' !! j = q !! j) /\
    (forall j, (i - 1 <= j < i - 1 + todo)%nat -> q' !! j = q !! S j).
Proof.
  induction todo as [|todo IH]; intros i q Hi Hl; simpl; [exists q; split_and!; [done..|intros; lia]|].
  destruct (lookup_lt_is_Some_2 q i) as [m Hm]; [lia|]. rewrite Hm. cbn [deref mbind outcome_bind].
  destruct (IH (S i) (<[(i - 1)%nat := m]> q)) as (q' & E & L & H1 & H2); [lia|rewrite length_insert; lia|].
  exists q'. rewrite length_insert in L. split_and!; [done|done| |].
  - intros j Hj. rewrite H1 by lia. by rewrite list_lookup_insert_ne by lia.
  - intros j Hj. destruct (decide (j = i - 1)%nat) as [->|].
    + rewrite H1, list_lookup_insert_eq by lia. by replace (S (i - 1)) with i by lia.
    + rewrite H2 by lia. by rewrite list_lookup_insert_ne by lia.
Qed.

Lemma pop_synthetic_spec s :
  synth_ok s ->
  exists s', rb_event_pop_synthetic s = Ret (head (synth s), s') /\ synth_ok s' /\ same_but_synth s s' /\
    synth s' = tail (synth s).
Proof.
  intros Ho. unfold rb_event_pop_synthetic, synth_ok, synth in *.
  destruct s as [ac ro q n sh sc hd fq al rq bw ws]. simpl in *.
  destruct (Nat.eqb_spec n 0) as [->|E].
  - eexists. split; [reflexivity|]. by split_and!.
  - destruct (lookup_lt_is_Some_2 q 0) as [m Hm]; [lia|]. rewrite Hm. cbn [deref mbind outcome_bind].
    destruct (shift_down_spec (n - 1) 1 q) as (q' & Eq & L & _ & H2); [lia|lia|].
    rewrite Eq. cbn [mbind outcome_bind]. destruct q as [|m' q0] eqn:Eqq; [done|]. injection Hm as ->.
    destruct n as [|n']; [done|]. simpl. eexists. split; [reflexivity|]. simpl in *. rewrite Nat.sub_0_r in *.
    split_and!; [lia|done|]. apply list_eq. intros j. destruct (decide (j < n')%nat).
    + rewrite !lookup_take_lt by done. rewrite H2 by lia. done.
    + rewrite !lookup_take_ge by lia. done.
Qed.

(** *** Routes *)

(** The windows bound, as a map from HWND to backend window and ids. *)
Record routes_rep (s : rb_state) (m : gmap Z (Z * Z * Z)) : Prop := {
  rt_zero : m !! 0 = None;
  rt_lookup : forall h w i n, h <> 0 -> m !! h = Some (w, i, n) <-> mkRoute h w i n ∈ g_window_routes s;
  rt_unique : forall i j r r', g_window_routes s !! i = Some r -> g_window_routes s !! j = Some r' ->
    r_hwnd r <> 0 -> r_hwnd r = r_hwnd r' -> i = j }.

Lemma find_route_Some p s i :
  find_route p s = Some i -> exists r, g_window_routes s !! i = Some r /\ p r = true.
Proof.
  unfold find_route. destruct (list_find _ _) as [[j r]|] eqn:E; [|done]. intros [= <-].
  apply list_find_Some in E as (? & ? & _). eauto.
Qed.
Lemma find_route_None p s r :
  find_route p s = None -> r ∈ g_window_routes s -> p r = false.
Proof.
  unfold find_route. destruct (list_find _ _) as [[j r']|] eqn:E; [done|]. intros _ Hr.
  apply list_find_None in E. rewrite Forall_forall in E. specialize (E r Hr).
  by destruct (p r).
Qed.

(** Writing slot [i], which holds [h] or is free and [h] is not bound. *)
Lemma routes_rep_write s m i r0 h w id n :
  routes_rep s m -> h <> 0 -> g_window_routes s !! i = Some r0 ->
  r_hwnd r0 = h \/ (r_hwnd r0 = 0 /\ m !! h = None) ->
  routes_rep (set_routes (<[i := mkRoute h w id n]> (g_window_routes s)) s) (<[h := (w, id, n)]> m).
Proof.
  intros [Hz Hl Hu] Hh Hi Hr.
  assert (Hother : forall j r, g_window_routes s !! j = Some r -> r_hwnd r = h -> j = i).
  { intros j r Hj Hrh. destruct Hr as [Hr|[_ Hr]]; [by apply (Hu j i r r0 Hj Hi); congruence|].
    destruct r as [h' w' id' n']. simpl in Hrh. subst h'. apply list_elem_of_lookup_2 in Hj.
    apply Hl in Hj; [congruence|done]. }
  split; simpl.
  - by rewrite lookup_insert_ne by congruence.
  - intros h' w' id' n' Hh'. rewrite list_elem_of_lookup. split.
    + rewrite lookup_insert_Some. intros [[<- [= <- <- <-]]|[Hne Hm]].
      * exists i. apply list_lookup_insert_eq. by eapply lookup_lt_Some.
      * apply Hl, list_elem_of_lookup in Hm as [j Hj]; [|done].
        assert (j <> i). { intros ->. rewrite Hi in Hj. injection Hj as ->. simpl in Hr. destruct Hr as [?|[? _]]; congruence. }
        exists j. by rewrite list_lookup_insert_ne by done.
    + intros [j Hj]. apply list_lookup_insert_Some in Hj as [(-> & [= -> -> -> ->] & _)|[Hne Hj]]; [by rewrite lookup_insert_eq|].
      rewrite lookup_insert_ne; [apply Hl; [done|by eapply list_elem_of_lookup_2]|].
      intros ->. by rewrite (Hother j _ Hj eq_refl) in Hne.
  - intros j k r r' Hj Hk Hnz Heq.
    apply list_lookup_insert_Some in Hj as [(-> & <- & _)|[Hne Hj]];
      apply list_lookup_insert_Some in Hk as [(-> & <- & _)|[Hne' Hk]]; try done; simpl in *.
    + symmetry. by apply (Hother k r').
    + by apply (Hother j r).
    + by apply (Hu j k r r').
Qed.

Lemma routes_rep_find s m h i :
  routes_rep s m -> rb_event_find_route_by_hwnd h s = Some i -> exists r, g_window_routes s !! i = Some r /\ r_hwnd r = h.
Proof. intros _ H. apply find_route_Some in H as (r & Hr & Hp). exists r. split; [done|lia]. Qed.

Lemma routes_rep_unfound s m h :
  routes_rep s m -> h <> 0 -> rb_event_find_route_by_hwnd h s = None -> m !! h = None.
Proof.
  intros R Hh H. destruct (m !! h) as [[[w i] n]|] eqn:E; [|done]. exfalso.
  apply (rt_lookup _ _ R) in E; [|done]. apply (find_route_None _ _ _ H) in E. simpl in E. lia.
Qed.

Lemma routes_rep_append s m k :
  routes_rep s m -> routes_rep (set_routes (g_window_routes s ++ replicate k zero_route) s) m.
Proof.
  intros [Hz Hl Hu]. split; simpl; [done| |].
  - intros h w i n Hh. rewrite Hl by done. rewrite elem_of_app. split; [by left|].
    intros [?|[Hr _]%elem_of_replicate]; [done|]. unfold zero_route in Hr. congruence.
  - intros i j r r' Hi Hj Hnz Heq.
    assert (Hz' : forall i r, (g_window_routes s ++ replicate k zero_route) !! i = Some r -> r_hwnd r <> 0 ->
              g_window_routes s !! i = Some r).
    { intros i0 r0 H0 Hn0. apply lookup_app_Some in H0 as [?|[_ H0]]; [done|].
      apply lookup_replicate in H0 as [-> _]. done. }
    eapply Hu; [by apply Hz'|apply Hz'; [done|congruence]|done|done].
Qed.

Section theorems.
Context {A : Arch}.
Variable realloc : Z -> bool.

(** *** Binding *)

Lemma alloc_route_slot_spec s m :
  routes_rep s m -> (forall n, realloc n = true) ->
  exists i r s', rb_event_alloc_route_slot realloc s = (Some i, s') /\ routes_rep s' m /\
    g_window_routes s' !! i = Some r /\ r_hwnd r = 0 /\
    length (g_window_routes s') = (if (length (g_window_routes s) =? 0)%nat then 16 else length (g_window_routes s) * 2)%nat /\
    s' = set_routes (g_window_routes s') s.
Proof.
  intros R Hre. unfold rb_event_alloc_route_slot, rb_event_ensure_route_capacity. cbn zeta.
  set (cap := length (g_window_routes s)).
  replace (cap + 1 <=? cap)%nat with false by (symmetry; apply Nat.leb_gt; lia). rewrite Hre.
  rewrite grown_capacity_step by lia. set (n := if (cap =? 0)%nat then 16%nat else (cap * 2)%nat).
  assert (Hn : (cap < n)%nat) by (unfold n; destruct (Nat.eqb_spec cap 0); lia).
  remember (set_routes (g_window_routes s ++ replicate (n - cap) zero_route) s) as s' eqn:Es.
  pose proof (routes_rep_append s m (n - cap) R) as R'. rewrite <- Es in R'.
  assert (Hz : zero_route ∈ g_window_routes s').
  { subst s'. simpl. apply elem_of_app. right. apply elem_of_replicate. split; [done|lia]. }
  destruct (find_route (fun r => r_hwnd r =? 0) s') as [i|] eqn:E.
  - apply find_route_Some in E as (r & Hr & Hp). exists i, r, s'. split; [done|].
    split; [done|]. split; [done|]. split; [lia|]. subst s'. simpl. split; [|done].
    rewrite length_app, length_replicate. fold cap. lia.
  - by apply (find_route_None _ _ _ E) in Hz.
Qed.

(** Binding a window enters it into the route map, replacing an older route of the
    same HWND; only a missing backend window, a window without an SDL id or the
    null HWND is refused. *)
Lemma bind_window_spec h win wnd s m :
  routes_rep s m -> (forall n, realloc n = true) ->
  rb_windows s !! win = Some wnd -> h <> 0 -> w_sdl_window_id wnd <> 0 ->
  exists s', rb_event_bind_window realloc h win s = (true, s') /\
    routes_rep s' (<[h := (win, w_sdl_window_id wnd, w_native_window_id wnd)]> m) /\
    rb_windows s' = rb_windows s /\ g_active_window s' = g_active_window s /\ synth s' = synth s.
Proof.
  intros R Hre Hw Hh Hid. unfold rb_event_bind_window, rb_event_get_backend_window. rewrite Hw.
  replace (h =? 0) with false by lia. replace (w_sdl_window_id wnd =? 0) with false by lia. cbn [orb].
  destruct (rb_event_find_route_by_hwnd h s) as [i|] eqn:E.
  - destruct (routes_rep_find s m h i R E) as (r & Hr & Hrh).
    eexists. split; [reflexivity|]. split; [|by split_and!]. eapply routes_rep_write; eauto.
  - destruct (alloc_route_slot_spec s m R Hre) as (i & r & s' & Ea & R' & Hi & Hz & _ & Es). rewrite Ea.
    eexists. split; [reflexivity|]. split.
    + eapply routes_rep_write; eauto. right. split; [done|]. exact (routes_rep_unfound s m h R Hh E).
    + rewrite Es. by split_and!.
Qed.

(** Unbinding removes the route and deactivates the window. *)
Lemma unbind_window_correct h s m :
  routes_rep s m -> h <> 0 ->
  routes_rep (rb_event_unbind_window h s) (delete h m) /\
  (is_Some (m !! h) -> g_active_window (rb_event_unbind_window h s) = if g_active_window s =? h then 0 else g_active_window s).
Proof.
  intros R Hh. unfold rb_event_unbind_window.
  destruct (rb_event_find_route_by_hwnd h s) as [i|] eqn:E.
  - destruct (routes_rep_find s m h i R E) as (r & Hr & Hrh).
    assert (R' : routes_rep (set_routes (<[i := zero_route]> (g_window_routes s)) s) (delete h m)).
    { destruct R as [Hz Hl Hu]. split; simpl.
      - by rewrite lookup_delete_ne by congruence.
      - intros h' w id n Hh'. rewrite list_elem_of_lookup, lookup_delete_Some. split.
        + intros [Hne Hm]. apply Hl, list_elem_of_lookup in Hm as [j Hj]; [|done].
          exists j. rewrite list_lookup_insert_ne; [done|]. intros ->. rewrite Hr in Hj. injection Hj as ->. done.
        + intros [j Hj]. apply list_lookup_insert_Some in Hj as [(_ & Hj & _)|[Hne Hj]]; [unfold zero_route in Hj; congruence|].
          split; [|apply Hl; [done|by eapply list_elem_of_lookup_2]].
          intros ->. destruct Hne. by apply (Hu i j r _ Hr Hj); [congruence|].
      - intros j k r1 r2 Hj Hk Hnz Heq.
        apply list_lookup_insert_Some in Hj as [(-> & <- & _)|[_ Hj]]; [done|].
        apply list_lookup_insert_Some in Hk as [(-> & <- & _)|[_ Hk]]; [by rewrite Heq in Hnz|].
        by apply (Hu j k r1 r2). }
    cbn zeta. destruct (_ =? h) eqn:Ea; simpl in Ea |- *.
    + split; [by destruct R'; split|]. intros _. by rewrite ?Ea.
    + split; [done|]. intros _. by rewrite ?Ea.
  - pose proof (routes_rep_unfound s m h R Hh E) as Hn. split; [by rewrite delete_id|].
    intros [x Hx]. congruence.
Qed.

(** An SDL window id resolves to an HWND bound to it, and to 0 exactly when there
    is none. *)
Lemma resolve_sdl_window_spec id s m :
  routes_rep s m -> id <> 0 ->
  let h := rb_event_resolve_hwnd_from_sdl_window id s in
  (h <> 0 -> exists w n, m !! h = Some (w, id, n)) /\
  (h = 0 -> forall h' w n, m !! h' <> Some (w, id, n)).
Proof.
  intros R Hid. unfold rb_event_resolve_hwnd_from_sdl_window, rb_event_find_route_by_sdl_window.
  replace (id =? 0) with false by lia. destruct (find_route _ s) as [i|] eqn:E; cbn [route_field].
  - apply find_route_Some in E as (r & Hr & Hp). rewrite Hr. split; [|intros; lia]. intros Hz.
    destruct r as [h w id' n]. simpl in *. exists w, n. apply (rt_lookup _ _ R); [done|].
    replace id with id' by lia. by eapply list_elem_of_lookup_2.
  - split; [done|]. intros _ h' w n Hm.
    destruct (decide (h' = 0)) as [->|Hh']; [by rewrite (rt_zero _ _ R) in Hm|].
    apply (rt_lookup _ _ R) in Hm; [|done]. apply (find_route_None _ _ _ E) in Hm. simpl in Hm. lia.
Qed.

(** A newly bound window is the one its events are delivered to, when no other
    window has its SDL id; after unbinding, events of that id go nowhere. *)
Theorem bound_window_receives_events h win wnd s m :
  routes_rep s m -> (forall n, realloc n = true) ->
  rb_windows s !! win = Some wnd -> h <> 0 -> w_sdl_window_id wnd <> 0 ->
  (forall h' w n, m !! h' = Some (w, w_sdl_window_id wnd, n) -> h' = h) ->
  exists s', rb_event_bind_window realloc h win s = (true, s') /\
    rb_event_resolve_hwnd_from_sdl_window (w_sdl_window_id wnd) s' = h /\
    rb_event_resolve_hwnd_from_sdl_window (w_sdl_window_id wnd) (rb_event_unbind_window h s') = 0.
Proof.
  intros R Hre Hw Hh Hid Hun. set (id := w_sdl_window_id wnd) in *.
  destruct (bind_window_spec h win wnd s m R Hre Hw Hh Hid) as (s' & E & R' & _). exists s'. split; [done|].
  fold id in R'. split.
  - destruct (resolve_sdl_window_spec id s' _ R' Hid) as [H1 H2].
    destruct (decide (rb_event_resolve_hwnd_from_sdl_window id s' = 0)) as [Ez|Ez].
    + exfalso. apply (H2 Ez h win (w_native_window_id wnd)). by rewrite lookup_insert_eq.
    + destruct (H1 Ez) as (w & n & Hm). apply lookup_insert_Some in Hm as [[<- _]|[_ Hm]]; [done|].
      by apply Hun in Hm.
  - destruct (unbind_window_correct h s' _ R' Hh) as [Ru _].
    destruct (resolve_sdl_window_spec id _ _ Ru Hid) as [H1 _].
    destruct (decide (rb_event_resolve_hwnd_from_sdl_window id (rb_event_unbind_window h s') = 0)) as [|Ez]; [done|].
    destruct (H1 Ez) as (w & n & Hm). apply lookup_delete_Some in Hm as [Hne Hm].
    rewrite lookup_insert_ne in Hm by done. by apply Hun in Hm.
Qed.

(** Binding a new HWND doubles the route table, even when it has free slots. *)
Theorem bind_doubles_route_table h win wnd s m :
  routes_rep s m -> (forall n, realloc n = true) -> rb_windows s !! win = Some wnd ->
  h <> 0 -> w_sdl_window_id wnd <> 0 -> m !! h = None -> g_window_routes s <> [] ->
  length (g_window_routes (snd (rb_event_bind_window realloc h win s))) = (2 * length (g_window_routes s))%nat.
Proof.
  intros R Hre Hw Hh Hid Hm Hne. unfold rb_event_bind_window, rb_event_get_backend_window. rewrite Hw.
  replace (h =? 0) with false by lia. replace (w_sdl_window_id wnd =? 0) with false by lia. cbn [orb].
  destruct (rb_event_find_route_by_hwnd h s) as [i|] eqn:E.
  - exfalso. destruct (routes_rep_find s m h i R E) as ([h' w id n] & Hr & Hrh). simpl in Hrh. subst h'.
    apply list_elem_of_lookup_2 in Hr. apply (rt_lookup _ _ R) in Hr; [congruence|done].
  - destruct (alloc_route_slot_spec s m R Hre) as (i & r & s' & Ea & _ & _ & _ & Hl & _). rewrite Ea. simpl.
    rewrite length_insert, Hl. destruct (Nat.eqb_spec (length (g_window_routes s)) 0) as [H0|]; [|lia].
    by destruct (g_window_routes s).
Qed.

(** *** Shutdown *)

Definition others (active : Z) (routes : list rb_window_route) : list Z :=
  filter (fun h => h <> 0 /\ h <> active) (r_hwnd <$> routes).

(** The windows a shutdown asks to close: the active one first, then the others in
    the order of their routes. *)
Definition shutdown_targets (s : rb_state) : list Z :=
  (if negb (g_active_window s =? 0) && bool_decide (is_Some (rb_event_resolve_backend_window (g_active_window s) s))
   then [g_active_window s] else []) ++ others (g_active_window s) (g_window_routes s).
Definition window_exists (s : rb_state) (h : Z) : Prop := is_Some (rb_event_resolve_backend_window h s).
#[export] Instance window_exists_dec s h : Decision (window_exists s h).
Proof. unfold window_exists. apply _. Defined.

(** Call rb_event_translate_shutdown until it has nothing to say. *)
Fixpoint drain_shutdown (n : nat) (s : rb_state) : outcome (list rb_msg_t * rb_state) :=
  match n with
  | O => Ret ([], s)
  | S n =>
      '(m, s) ← rb_event_translate_shutdown s;
      match (m : option rb_msg_t) with
      | None => Ret ([], s)
      | Some m => '(ms, s) ← drain_shutdown n s; Ret (m :: ms, s)
      end
  end.

Lemma length_others active routes : (length (others active routes) <= length routes)%nat.
Proof. unfold others. etrans; [apply length_filter|]. by rewrite length_fmap. Qed.

Lemma length_shutdown_targets s : (length (shutdown_targets s) <= length (g_window_routes s) + 1)%nat.
Proof.
  unfold shutdown_targets. pose proof (length_others (g_active_window s) (g_window_routes s)).
  rewrite length_app. destruct (negb _ && _); simpl; lia.
Qed.

Lemma queue_other_windows_spec active routes : forall l count,
  (count + length (others active routes) <= length l)%nat ->
  exists l', queue_other_windows active routes l count = Ret (l', (count + length (others active routes))%nat) /\
    length l' = length l /\ take (count + length (others active routes)) l' = take count l ++ others active routes.
Proof.
  induction routes as [|r routes IH]; intros l count H; cbn [queue_other_windows].
  - exists l. unfold others. simpl. by rewrite Nat.add_0_r, app_nil_r.
  - unfold others in *. rewrite fmap_cons in *.
    destruct ((r_hwnd r =? 0) || (r_hwnd r =? active)) eqn:E.
    + rewrite filter_cons_False in * by lia. by apply IH.
    + rewrite filter_cons_True in * by lia. simpl in H |- *.
      destruct (lookup_lt_is_Some_2 l count) as [x Hx]; [lia|]. rewrite Hx. cbn [deref mbind outcome_bind].
      destruct (IH (<[count := r_hwnd r]> l) (S count)) as (l' & E' & L & T); [rewrite length_insert; lia|].
      exists l'. rewrite length_insert in L. rewrite E'.
      rewrite Nat.add_succ_r, <- Nat.add_succ_l.
      split; [done|]. split; [done|]. rewrite T.
      rewrite (take_S_r _ _ (r_hwnd r)) by (apply list_lookup_insert_eq; lia).
      rewrite take_insert_ge by lia. by rewrite <- (assoc_L (++)).
Qed.

(** The shutdown queue of [s] holds [l], of which [k] are done. *)
Record shutdown_rep (s : rb_state) (l : list Z) (k : nat) : Prop := {
  sd_queue : take (g_shutdown_hwnd_count s) (g_shutdown_hwnds s) = l;
  sd_bound : (g_shutdown_hwnd_count s <= length (g_shutdown_hwnds s))%nat;
  sd_head : g_shutdown_hwnd_head s = k;
  sd_le : (k <= g_shutdown_hwnd_count s)%nat;
  sd_quit : g_shutdown_force_quit_pending s = false }.

Lemma sd_count s l k : shutdown_rep s l k -> g_shutdown_hwnd_count s = length l.
Proof. intros [<- Hb _ _ _]. rewrite length_take. lia. Qed.

Lemma sd_lookup s l k i : shutdown_rep s l k -> (i < length l)%nat -> g_shutdown_hwnds s !! i = l !! i.
Proof.
  intros R Hi. pose proof (sd_count s l k R). rewrite <- (sd_queue _ _ _ R). by rewrite lookup_take_lt by lia.
Qed.

Lemma shutdown_loop_spec s l k : shutdown_rep s l k -> forall todo head,
  (head + todo = length l)%nat -> Forall (fun h => h <> 0) l ->
  exists h head', shutdown_loop todo head s = Ret (h, head') /\ (head <= head' <= length l)%nat /\
    match h with
    | Some h => filter (window_exists s) (drop head l) = h :: filter (window_exists s) (drop head' l)
    | None => filter (window_exists s) (drop head l) = [] /\ head' = length l
    end.
Proof.
  intros R. induction todo as [|todo IH]; intros head Hh Hnz; cbn [shutdown_loop].
  - exists None, head. rewrite drop_ge by lia. split_and!; [done|lia|lia|done|lia].
  - destruct (lookup_lt_is_Some_2 l head) as [h Hl]; [lia|].
    rewrite (sd_lookup s l k head R), Hl by lia. cbn [deref mbind outcome_bind].
    rewrite (drop_S l h head Hl). pose proof (proj1 (Forall_lookup _ _) Hnz head h Hl) as Hz. simpl in Hz.
    replace (h =? 0) with false by lia. cbn [orb]. case_bool_decide as E.
    + rewrite filter_cons_False by (unfold window_exists; rewrite E; by intros []).
      destruct (IH (S head)) as (h' & head' & E' & Hr & Hm); [lia|done|]. exists h', head'. split_and!; try done; lia.
    + exists (Some h), (S head). rewrite filter_cons_True by (unfold window_exists; by apply not_eq_None_Some).
      split_and!; try done; lia.
Qed.

Lemma drain_shutdown_spec n : forall s l k,
  shutdown_rep s l k -> Forall (fun h => h <> 0) l ->
  (length (filter (window_exists s) (drop k l)) < n)%nat ->
  exists s', drain_shutdown n s
    = Ret (map (fun h => mkMsg h WM_CLOSE 0 0 0 0 0) (filter (window_exists s) (drop k l)), s').
Proof.
  induction n as [|n IH]; intros s l k R Hnz Hn; [lia|]. cbn [drain_shutdown].
  unfold rb_event_translate_shutdown. pose proof (sd_count _ _ _ R) as Hc. pose proof (sd_head _ _ _ R) as Hh.
  pose proof (sd_le _ _ _ R) as Hle.
  destruct (shutdown_loop_spec s l k R (g_shutdown_hwnd_count s - g_shutdown_hwnd_head s) (g_shutdown_hwnd_head s))
    as (h & head' & E & Hr & Hm); [lia|done|].
  rewrite E, Hh in *. cbn [mbind outcome_bind]. destruct h as [h|].
  - rewrite Hm in *. cbn [mbind outcome_bind].
    set (s1 := set_shutdown _ _ head' _ s).
    assert (R1 : shutdown_rep s1 l head') by (destruct R; split; simpl; done || lia).
    assert (Ew : filter (window_exists s1) (drop head' l) = filter (window_exists s) (drop head' l)) by done.
    destruct (IH s1 l head' R1 Hnz) as (s' & E'); [rewrite Ew; simpl in Hn; lia|].
    rewrite E'. cbn [mbind outcome_bind]. exists s'. by rewrite Ew.
  - destruct Hm as [Hm _]. rewrite Hm. cbn [mbind outcome_bind]. simpl. rewrite (sd_quit _ _ _ R).
    cbn [mbind outcome_bind]. eauto.
Qed.

Lemma begin_shutdown_spec s :
  (forall n, realloc n = true) ->
  exists s', rb_event_begin_shutdown realloc s = Ret s' /\ shutdown_rep s' (shutdown_targets s) 0 /\
    g_window_routes s' = g_window_routes s /\ rb_windows s' = rb_windows s.
Proof.
  intros Hre. unfold rb_event_begin_shutdown, rb_event_ensure_shutdown_capacity. cbn zeta.
  set (n := length (g_window_routes s)). cbn [g_shutdown_hwnds set_shutdown g_window_routes].
  set (l0 := g_shutdown_hwnds s).
  assert (Hs : exists l1, (if (n + 1 <=? length l0)%nat then Some (set_shutdown l0 0 0 false s)
      else if realloc (usize (Z.of_nat (grown_capacity 16 (n + 1) (length l0)) * sizeof_uintptr))
           then Some (set_shutdown (l0 ++ replicate (grown_capacity 16 (n + 1) (length l0) - length l0) 0) 0 0 false s)
           else None) = Some (set_shutdown l1 0 0 false s) /\ (n + 1 <= length l1)%nat).
  { destruct (Nat.leb_spec (n + 1) (length l0)); [eauto|]. rewrite Hre. eexists. split; [reflexivity|].
    rewrite length_app, length_replicate. pose proof (grown_capacity_enough 16 (n + 1) (length l0) ltac:(lia)). lia. }
  destruct Hs as (l1 & Es & Hl1). fold n in Es |- *.
  match goal with |- context [match ?x with None => _ | Some _ => _ end] => change x with
    (if (n + 1 <=? length l0)%nat then Some (set_shutdown l0 0 0 false s)
      else if realloc (usize (Z.of_nat (grown_capacity 16 (n + 1) (length l0)) * sizeof_uintptr))
           then Some (set_shutdown (l0 ++ replicate (grown_capacity 16 (n + 1) (length l0) - length l0) 0) 0 0 false s)
           else None) end.
  rewrite Es. unfold shutdown_targets. cbn [g_active_window g_window_routes g_shutdown_hwnds set_shutdown].
  change (rb_event_resolve_backend_window (g_active_window s) (set_shutdown l1 0 0 false s))
    with (rb_event_resolve_backend_window (g_active_window s) s).
  pose proof (length_others (g_active_window s) (g_window_routes s)) as Lo. fold n in Lo.
  set (wa := negb _ && _).
  destruct (queue_other_windows_spec (g_active_window s) (g_window_routes s)
    (if wa then <[0%nat := g_active_window s]> l1 else l1) (if wa then 1 else 0)) as (l2 & E2 & L2 & T2);
    [destruct wa; rewrite ?length_insert; lia|].
  rewrite E2. cbn [mbind outcome_bind]. eexists. split; [reflexivity|]. split; [|done].
  assert (length l2 = length l1) by (rewrite L2; destruct wa; by rewrite ?length_insert).
  split; simpl; [|destruct wa; lia|done|lia|done].
  rewrite T2. f_equal. destruct wa; [|done]. destruct l1; [simpl in Hl1; lia|done].
Qed.

(** A shutdown asks every bound window that still exists to close, exactly once,
    the active window first, and then has nothing more to say. *)
Theorem shutdown_closes_every_window s m :
  routes_rep s m -> (forall n, realloc n = true) ->
  exists s1 s2 closed, rb_event_begin_shutdown realloc s = Ret s1 /\
    drain_shutdown (S (length (g_window_routes s) + 1)) s1 = Ret (map (fun h => mkMsg h WM_CLOSE 0 0 0 0 0) closed, s2) /\
    NoDup closed /\
    (forall h w i n, m !! h = Some (w, i, n) -> is_Some (rb_windows s !! w) -> h ∈ closed) /\
    (window_exists s (g_active_window s) -> g_active_window s <> 0 -> head closed = Some (g_active_window s)).
Proof.
  intros R Hre. destruct (begin_shutdown_spec s Hre) as (s1 & E1 & R1 & Er & Ew). exists s1.
  assert (Hex : forall h, window_exists s1 h <-> window_exists s h).
  { intros h. unfold window_exists, rb_event_resolve_backend_window, rb_event_find_route_by_hwnd, find_route,
      rb_event_get_backend_window. by rewrite Er, Ew. }
  assert (Hnz : Forall (fun h => h <> 0) (shutdown_targets s)).
  { unfold shutdown_targets. apply Forall_app. split.
    - destruct (Z.eqb_spec (g_active_window s) 0); [done|]. simpl. by case_bool_decide; [apply Forall_singleton|].
    - apply Forall_forall. intros h [[? _] _]%list_elem_of_filter. done. }
  destruct (drain_shutdown_spec (S (length (g_window_routes s) + 1)) s1 _ 0 R1 Hnz) as (s2 & E2).
  { rewrite drop_0. pose proof (length_filter (window_exists s1) (shutdown_targets s)).
    pose proof (length_shutdown_targets s). lia. }
  rewrite drop_0 in E2. exists s2. eexists. split; [done|]. split; [exact E2|].
  assert (Hho : forall h w i n, m !! h = Some (w, i, n) -> h <> 0 /\ h ∈ r_hwnd <$> g_window_routes s).
  { intros h w i n Hm. assert (h <> 0) by (intros ->; by rewrite (rt_zero _ _ R) in Hm). split; [done|].
    apply (rt_lookup _ _ R) in Hm; [|done]. apply list_elem_of_fmap. by exists (mkRoute h w i n). }
  assert (Hw : forall h w i n, m !! h = Some (w, i, n) -> is_Some (rb_windows s !! w) -> window_exists s h).
  { intros h w i n Hm Hx. destruct (Hho _ _ _ _ Hm) as [Hh _].
    unfold window_exists, rb_event_resolve_backend_window.
    destruct (rb_event_find_route_by_hwnd h s) as [k|] eqn:Ek.
    - destruct (routes_rep_find s m h k R Ek) as ([h' w' i' n'] & Hr & Hrh). simpl in Hrh. subst h'. rewrite Hr. simpl.
      apply list_elem_of_lookup_2, (rt_lookup _ _ R) in Hr; [|done]. rewrite Hm in Hr. by injection Hr as -> -> ->.
    - by rewrite (routes_rep_unfound s m h R Hh Ek) in Hm. }
  split_and!.
  - apply NoDup_filter. unfold shutdown_targets. apply NoDup_app. split_and!.
    + destruct (negb _ && _); [apply NoDup_singleton|apply NoDup_nil_2].
    + intros h Hin [[_ Hne] _]%list_elem_of_filter. destruct (negb _ && _); [|by apply not_elem_of_nil in Hin].
      apply list_elem_of_singleton in Hin. done.
    + unfold others. pose proof (rt_unique _ _ R) as Hu. revert Hu. generalize (g_window_routes s). intros rs Hu.
      induction rs as [|r rs IH]; [apply NoDup_nil_2|]. rewrite fmap_cons.
      assert (Hu' : forall i j r r', rs !! i = Some r -> rs !! j = Some r' -> r_hwnd r <> 0 -> r_hwnd r = r_hwnd r' -> i = j).
      { intros i j a b Ha Hb Hna Hab. by injection (Hu (S i) (S j) a b Ha Hb Hna Hab) as ->. }
      destruct (decide (r_hwnd r <> 0 /\ r_hwnd r <> g_active_window s)) as [Hd|Hd];
        [rewrite filter_cons_True by done|rewrite filter_cons_False by done; by apply IH].
      apply NoDup_cons. split; [|by apply IH].
      intros [_ (r' & Hr' & [j Hj]%list_elem_of_lookup)%list_elem_of_fmap]%list_elem_of_filter.
      by pose proof (Hu 0%nat (S j) r r' eq_refl Hj (proj1 Hd) Hr').
  - intros h w i n Hm Hx. destruct (Hho _ _ _ _ Hm) as [Hh Hin]. pose proof (Hw _ _ _ _ Hm Hx) as He.
    apply list_elem_of_filter. split; [by apply Hex|]. unfold shutdown_targets. apply elem_of_app.
    destruct (decide (h = g_active_window s)) as [->|Hne].
    + left. replace (g_active_window s =? 0) with false by lia. simpl.
      rewrite bool_decide_eq_true_2 by done. by left.
    + right. unfold others. apply list_elem_of_filter. done.
  - intros He Hn0. unfold shutdown_targets. replace (g_active_window s =? 0) with false by lia.
    cbn [negb andb]. rewrite bool_decide_eq_true_2 by done. cbn [app].
    rewrite filter_cons_True by (by apply Hex). done.
Qed.
End theorems.

(** ** Witnesses *)

Definition demo_backend : rb_state :=
  mkRb 7 [] [] 0 [] 0 0 false false false 0
    {[ 100 := mkRbWindow 1 11 true false false; 101 := mkRbWindow 2 12 true false false;
       102 := mkRbWindow 3 13 true false false ]}.
Definition always (_ : Z) : bool := true.

Lemma demo_routes_empty : routes_rep demo_backend ∅.
Proof.
  split; [done| |].
  - intros h w i n _. split; [by intros []%lookup_empty_Some|by intros []%not_elem_of_nil].
  - intros i j r r' Hi. done.
Qed.

Lemma bound_window_receives_events_witness :
  exists s', @rb_event_bind_window arch64 always 7 100 demo_backend = (true, s') /\
    rb_event_resolve_hwnd_from_sdl_window 1 s' = 7 /\
    rb_event_resolve_hwnd_from_sdl_window 1 (rb_event_unbind_window 7 s') = 0.
Proof.
  exact (@bound_window_receives_events arch64 always 7 100 (mkRbWindow 1 11 true false false) demo_backend ∅
    demo_routes_empty (fun _ => eq_refl) eq_refl ltac:(discriminate) ltac:(discriminate)
    ltac:(intros h' w n H; by apply lookup_empty_Some in H)).
Defined.

(** Two windows bound, the second one active. *)
Definition two_windows : rb_state :=
  set_active 8 (snd (@rb_event_bind_window arch64 always 8 101 (snd (@rb_event_bind_window arch64 always 7 100 demo_backend)))).
Lemma two_windows_rep : exists m, routes_rep two_windows m.
Proof.
  destruct (@bind_window_spec arch64 always 7 100 _ demo_backend ∅ demo_routes_empty (fun _ => eq_refl) eq_refl)
    as (s1 & E1 & R1 & W1 & _); [discriminate|discriminate|].
  destruct (@bind_window_spec arch64 always 8 101 (mkRbWindow 2 12 true false false) s1 _ R1 (fun _ => eq_refl))
    as (s2 & E2 & R2 & _); [by rewrite W1|discriminate|discriminate|].
  eexists. unfold two_windows. rewrite E1. cbn [snd]. rewrite E2. cbn [snd]. destruct R2 as [a b c].
  by split; [exact a|exact b|exact c].
Qed.

Lemma shutdown_closes_every_window_witness :
  exists s1 s2 closed, @rb_event_begin_shutdown arch64 always two_windows = Ret s1 /\
    drain_shutdown 34 s1 = Ret (map (fun h => mkMsg h WM_CLOSE 0 0 0 0 0) closed, s2) /\
    NoDup closed /\ head closed = Some 8.
Proof.
  destruct two_windows_rep as [m R].
  destruct (@shutdown_closes_every_window arch64 always two_windows m R (fun _ => eq_refl))
    as (s1 & s2 & closed & E1 & E2 & N & _ & H).
  exists s1, s2, closed. split; [exact E1|]. split; [exact E2|]. split; [exact N|].
  apply H; [eexists; vm_compute; reflexivity|discriminate].
Defined.

Lemma bind_doubles_route_table_witness :
  length (g_window_routes (snd (@rb_event_bind_window arch64 always 9 102 two_windows))) = 64%nat.
Proof.
  destruct two_windows_rep as [m R].
  rewrite (@bind_doubles_route_table arch64 always 9 102 (mkRbWindow 3 13 true false false) two_windows m R
    (fun _ => eq_refl) eq_refl); [reflexivity|discriminate|discriminate| |discriminate].
  destruct (m !! 9) as [[[w i] n]|] eqn:E; [|done]. exfalso.
  apply (rt_lookup _ _ R) in E; [|done]. apply list_elem_of_lookup in E as [k E].
  assert (F : forallb (fun r => negb (r_hwnd r =? 9)) (g_window_routes two_windows) = true) by (vm_compute; reflexivity).
  rewrite forallb_forall in F. apply list_elem_of_lookup_2, list_elem_of_In in E. by specialize (F _ E).
Defined.

(** The pending WM_QUIT that should end a shutdown is never set. *)
Lemma shutdown_never_forces_quit {A : Arch} realloc s s' :
  rb_event_begin_shutdown realloc s = Ret s' -> g_shutdown_force_quit_pending s' = false.
Proof.
  unfold rb_event_begin_shutdown, rb_event_ensure_shutdown_capacity. cbn zeta.
  intros Hb. destruct (if (_ <=? _)%nat then _ else _) as [s1|]; [|by inv_ret].
  apply bind_Ret in Hb as ([l n] & _ & Hb). by inv_ret.
Qed.
