(* ===== verification/KeyTables.v ===== *)
(** * Keys of the SDL backend (g_vk_to_scancode and the key maps of
      src/backend/sdl2/rb_sdl2_priv.h, rb_event_keyboard.c, rb_input.c)

    The tables between SDL's keycodes and scancodes, Windows' virtual keys and PC
    scancodes, and the asynchronous key state.  SDL's enumerations are inductive
    types with the constants the code names: only their distinctness is used. *)
From S2P Require Import Prelude.

(** SDL_Scancode: the named constants the code uses, SDL_SCANCODE_UNKNOWN (0), and
    any other value. *)
Inductive scancode :=
| SC_UNKNOWN | SC_BACKSPACE | SC_TAB | SC_RETURN | SC_PAUSE | SC_ESCAPE | SC_SPACE | SC_PAGEUP | SC_PAGEDOWN
| SC_END | SC_HOME | SC_LEFT | SC_UP | SC_RIGHT | SC_DOWN | SC_INSERT | SC_DELETE | SC_0 | SC_1 | SC_2 | SC_3
| SC_4 | SC_5 | SC_6 | SC_7 | SC_8 | SC_9 | SC_A | SC_B | SC_C | SC_D | SC_E | SC_F | SC_G | SC_H | SC_I
| SC_J | SC_K | SC_L | SC_M | SC_N | SC_O | SC_P | SC_Q | SC_R | SC_S | SC_T | SC_U | SC_V | SC_W | SC_X
| SC_Y | SC_Z | SC_KP_0 | SC_KP_1 | SC_KP_2 | SC_KP_3 | SC_KP_4 | SC_KP_5 | SC_KP_6 | SC_KP_7 | SC_KP_8
| SC_KP_9 | SC_F1 | SC_F2 | SC_F3 | SC_F4 | SC_F5 | SC_F6 | SC_F7 | SC_F8 | SC_F9 | SC_F10 | SC_F11 | SC_F12
| SC_LSHIFT | SC_RSHIFT | SC_LCTRL | SC_RCTRL | SC_LALT | SC_RALT | SC_MINUS | SC_EQUALS | SC_LEFTBRACKET
| SC_RIGHTBRACKET | SC_SEMICOLON | SC_APOSTROPHE | SC_GRAVE | SC_BACKSLASH | SC_COMMA | SC_PERIOD | SC_SLASH
| SC_KP_MULTIPLY | SC_CAPSLOCK | SC_other (code : Z).

#[export] Instance scancode_eq_dec : EqDecision scancode.
Proof. solve_decision. Defined.

(** SDL_Keycode: SDLK_a + i, SDLK_0 + d, the named keys, and any other value. *)
Inductive keycode :=
| K_letter (i : Z) | K_digit (d : Z) | K_BACKSPACE | K_TAB | K_RETURN | K_ESCAPE | K_SPACE | K_PAGEUP
| K_PAGEDOWN | K_END | K_HOME | K_LEFT | K_UP | K_RIGHT | K_DOWN | K_INSERT | K_DELETE | K_F1 | K_F2 | K_F3
| K_F4 | K_F5 | K_F6 | K_F7 | K_F8 | K_F9 | K_F10 | K_F11 | K_F12 | K_LSHIFT | K_RSHIFT | K_LCTRL | K_RCTRL
| K_LALT | K_RALT | K_other (code : Z).

#[export] Instance keycode_eq_dec : EqDecision keycode.
Proof. solve_decision. Defined.

(** The initialisers of g_vk_to_scancode; the other entries are 0. *)
Definition vk_scancodes : list (Z * scancode) :=
  [(0x08, SC_BACKSPACE); (0x09, SC_TAB); (0x0D, SC_RETURN); (0x13, SC_PAUSE); (0x1B, SC_ESCAPE);
   (0x20, SC_SPACE); (0x21, SC_PAGEUP); (0x22, SC_PAGEDOWN); (0x23, SC_END); (0x24, SC_HOME);
   (0x25, SC_LEFT); (0x26, SC_UP); (0x27, SC_RIGHT); (0x28, SC_DOWN); (0x2D, SC_INSERT); (0x2E, SC_DELETE);
   (0x30, SC_0); (0x31, SC_1); (0x32, SC_2); (0x33, SC_3); (0x34, SC_4); (0x35, SC_5); (0x36, SC_6);
   (0x37, SC_7); (0x38, SC_8); (0x39, SC_9); (0x41, SC_A); (0x42, SC_B); (0x43, SC_C); (0x44, SC_D);
   (0x45, SC_E); (0x46, SC_F); (0x47, SC_G); (0x48, SC_H); (0x49, SC_I); (0x4A, SC_J); (0x4B, SC_K);
   (0x4C, SC_L); (0x4D, SC_M); (0x4E, SC_N); (0x4F, SC_O); (0x50, SC_P); (0x51, SC_Q); (0x52, SC_R);
   (0x53, SC_S); (0x54, SC_T); (0x55, SC_U); (0x56, SC_V); (0x57, SC_W); (0x58, SC_X); (0x59, SC_Y);
   (0x5A, SC_Z); (0x60, SC_KP_0); (0x61, SC_KP_1); (0x62, SC_KP_2); (0x63, SC_KP_3); (0x64, SC_KP_4);
   (0x65, SC_KP_5); (0x66, SC_KP_6); (0x67, SC_KP_7); (0x68, SC_KP_8); (0x69, SC_KP_9); (0x70, SC_F1);
   (0x71, SC_F2); (0x72, SC_F3); (0x73, SC_F4); (0x74, SC_F5); (0x75, SC_F6); (0x76, SC_F7); (0x77, SC_F8);
   (0x78, SC_F9); (0x79, SC_F10); (0x7A, SC_F11); (0x7B, SC_F12); (0xA0, SC_LSHIFT); (0xA1, SC_RSHIFT);
   (0xA2, SC_LCTRL); (0xA3, SC_RCTRL); (0xA4, SC_LALT); (0xA5, SC_RALT); (0x10, SC_LSHIFT); (0x11, SC_LCTRL);
   (0x12, SC_LALT)].

Definition g_vk_to_scancode (vk : Z) : scancode :=
  match list_find (fun e => fst e = vk) vk_scancodes with Some (_, (_, s)) => s | None => SC_UNKNOWN end.

(** -1 for an entry of the table that is 0. *)
Definition vk_to_scancode (vk : Z) : option scancode :=
  match g_vk_to_scancode (Z.land vk 0xFF) with SC_UNKNOWN => None | s => Some s end.

(** The first vk of 0 .. 255 with the scancode; [None] is -1. *)
Definition scancode_to_vk (s : scancode) : option Z :=
  List.find (fun vk => bool_decide (g_vk_to_scancode vk = s)) (map Z.of_nat (seq 0 256)).

(** [None] is -1. *)
Definition rb_keycode_to_vk (sym : keycode) (s : scancode) : option Z :=
  match sym with
  | K_letter i => Some (65 + i)
  | K_digit d => Some (48 + d)
  | K_BACKSPACE => Some 0x08
  | K_TAB => Some 0x09
  | K_RETURN => Some 0x0D
  | K_ESCAPE => Some 0x1B
  | K_SPACE => Some 0x20
  | K_PAGEUP => Some 0x21
  | K_PAGEDOWN => Some 0x22
  | K_END => Some 0x23
  | K_HOME => Some 0x24
  | K_LEFT => Some 0x25
  | K_UP => Some 0x26
  | K_RIGHT => Some 0x27
  | K_DOWN => Some 0x28
  | K_INSERT => Some 0x2D
  | K_DELETE => Some 0x2E
  | K_F1 => Some 0x70
  | K_F2 => Some 0x71
  | K_F3 => Some 0x72
  | K_F4 => Some 0x73
  | K_F5 => Some 0x74
  | K_F6 => Some 0x75
  | K_F7 => Some 0x76
  | K_F8 => Some 0x77
  | K_F9 => Some 0x78
  | K_F10 => Some 0x79
  | K_F11 => Some 0x7A
  | K_F12 => Some 0x7B
  | K_LSHIFT => Some 0xA0
  | K_RSHIFT => Some 0xA1
  | K_LCTRL => Some 0xA2
  | K_RCTRL => Some 0xA3
  | K_LALT => Some 0xA4
  | K_RALT => Some 0xA5
  | K_other _ => scancode_to_vk s
  end.

(** The PC scancode and whether it is extended.  [code] gives the numeric values of
    the constants that fall into the default case. *)
Definition pc_scancode (code : scancode -> Z) (s : scancode) : Z * bool :=
  match s with
  | SC_ESCAPE => (0x01, false)
  | SC_1 => (0x02, false)
  | SC_2 => (0x03, false)
  | SC_3 => (0x04, false)
  | SC_4 => (0x05, false)
  | SC_5 => (0x06, false)
  | SC_6 => (0x07, false)
  | SC_7 => (0x08, false)
  | SC_8 => (0x09, false)
  | SC_9 => (0x0a, false)
  | SC_0 => (0x0b, false)
  | SC_MINUS => (0x0c, false)
  | SC_EQUALS => (0x0d, false)
  | SC_BACKSPACE => (0x0e, false)
  | SC_TAB => (0x0f, false)
  | SC_Q => (0x10, false)
  | SC_W => (0x11, false)
  | SC_E => (0x12, false)
  | SC_R => (0x13, false)
  | SC_T => (0x14, false)
  | SC_Y => (0x15, false)
  | SC_U => (0x16, false)
  | SC_I => (0x17, false)
  | SC_O => (0x18, false)
  | SC_P => (0x19, false)
  | SC_LEFTBRACKET => (0x1a, false)
  | SC_RIGHTBRACKET => (0x1b, false)
  | SC_RETURN => (0x1c, false)
  | SC_LCTRL => (0x1d, false)
  | SC_RCTRL => (0x1d, true)
  | SC_A => (0x1e, false)
  | SC_S => (0x1f, false)
  | SC_D => (0x20, false)
  | SC_F => (0x21, false)
  | SC_G => (0x22, false)
  | SC_H => (0x23, false)
  | SC_J => (0x24, false)
  | SC_K => (0x25, false)
  | SC_L => (0x26, false)
  | SC_SEMICOLON => (0x27, false)
  | SC_APOSTROPHE => (0x28, false)
  | SC_GRAVE => (0x29, false)
  | SC_LSHIFT => (0x2a, false)
  | SC_BACKSLASH => (0x2b, false)
  | SC_Z => (0x2c, false)
  | SC_X => (0x2d, false)
  | SC_C => (0x2e, false)
  | SC_V => (0x2f, false)
  | SC_B => (0x30, false)
  | SC_N => (0x31, false)
  | SC_M => (0x32, false)
  | SC_COMMA => (0x33, false)
  | SC_PERIOD => (0x34, false)
  | SC_SLASH => (0x35, false)
  | SC_RSHIFT => (0x36, false)
  | SC_KP_MULTIPLY => (0x37, false)
  | SC_LALT => (0x38, false)
  | SC_RALT => (0x38, true)
  | SC_SPACE => (0x39, false)
  | SC_CAPSLOCK => (0x3a, false)
  | SC_F1 => (0x3b, false)
  | SC_F2 => (0x3c, false)
  | SC_F3 => (0x3d, false)
  | SC_F4 => (0x3e, false)
  | SC_F5 => (0x3f, false)
  | SC_F6 => (0x40, false)
  | SC_F7 => (0x41, false)
  | SC_F8 => (0x42, false)
  | SC_F9 => (0x43, false)
  | SC_F10 => (0x44, false)
  | SC_HOME => (0x47, true)
  | SC_UP => (0x48, true)
  | SC_PAGEUP => (0x49, true)
  | SC_LEFT => (0x4b, true)
  | SC_RIGHT => (0x4d, true)
  | SC_END => (0x4f, true)
  | SC_DOWN => (0x50, true)
  | SC_PAGEDOWN => (0x51, true)
  | SC_INSERT => (0x52, true)
  | SC_DELETE => (0x53, true)
  | SC_F11 => (0x57, false)
  | SC_F12 => (0x58, false)
  | s => (Z.land (code s) 0x7f, false)
  end.

(** *** The asynchronous key state (rb_input.c) *)

(** g_async_key_down and g_async_key_pressed, 256 flags each. *)
Record key_state := mkKeys { key_down : list bool; key_pressed : list bool }.
Definition no_keys : key_state := mkKeys (replicate 256 false) (replicate 256 false).

Definition note_key (idx : Z) (is_down is_repeat : bool) (k : key_state) : key_state :=
  mkKeys (<[Z.to_nat idx := is_down]> (key_down k))
         (if is_down && negb is_repeat then <[Z.to_nat idx := true]> (key_pressed k) else key_pressed k).

Definition generic_vk (idx : Z) : option Z :=
  if (idx =? 0xA0) || (idx =? 0xA1) then Some 0x10
  else if (idx =? 0xA2) || (idx =? 0xA3) then Some 0x11
  else if (idx =? 0xA4) || (idx =? 0xA5) then Some 0x12
  else None.

Definition rb_keyboard_note_key_event (vk : Z) (is_down is_repeat : bool) (k : key_state) : key_state :=
  if vk <? 0 then k
  else
    let idx := u8 vk in
    let k := note_key idx is_down is_repeat k in
    match generic_vk idx with
    | Some g => note_key g is_down is_repeat k
    | None => k
    end.

Definition clear_pressed (idx : Z) (k : key_state) : key_state :=
  mkKeys (key_down k) (<[Z.to_nat idx := false]> (key_pressed k)).
Definition async_result (pressed was_pressed : bool) : Z :=
  i16 (Z.lor (if pressed then 0x8000 else 0) (if was_pressed then 1 else 0)).

(** [keyboard]: SDL's key state; [buttons vk]: the mouse button of [vk] is down. *)
Definition rb_keyboard_get_async_state (keyboard : scancode -> bool) (buttons : Z -> bool) (vk : Z) (k : key_state)
  : outcome (Z * key_state) :=
  let idx := u8 vk in
  was_pressed ← deref (key_pressed k !! Z.to_nat idx);
  if (vk =? 1) || (vk =? 2) || (vk =? 4) || (vk =? 5) || (vk =? 6) then
    Ret (async_result (buttons vk) was_pressed, clear_pressed idx k)
  else
    match vk_to_scancode vk with
    | None => Ret (async_result false was_pressed, clear_pressed idx k)
    | Some s =>
        let v := Z.land vk 0xFF in
        let alternate := if v =? 0x10 then keyboard SC_RSHIFT
                         else if v =? 0x11 then keyboard SC_RCTRL
                         else if v =? 0x12 then keyboard SC_RALT else false in
        down ← deref (key_down k !! Z.to_nat idx);
        Ret (async_result (keyboard s || alternate || down) was_pressed, clear_pressed idx k)
    end.

(** ** Theorems *)

(** The virtual key of a scancode is an entry of the table for it, except that an
    unknown scancode is taken for the virtual key 0. *)
Lemma scancode_to_vk_sound s vk :
  scancode_to_vk s = Some vk -> g_vk_to_scancode vk = s /\ 0 <= vk < 256.
Proof.
  unfold scancode_to_vk. intros H. apply List.find_some in H as [Hin Hp].
  apply bool_decide_eq_true in Hp. split; [done|]. apply in_map_iff in Hin as (n & <- & Hn).
  apply in_seq in Hn. lia.
Qed.

Example unknown_scancode_is_vk_0 : scancode_to_vk SC_UNKNOWN = Some 0.
Proof. vm_compute. reflexivity. Qed.

(** Every virtual key of the table but the right-hand and left-hand modifiers
    survives the way to a scancode and back. *)
Lemma vk_scancode_roundtrip :
  forallb (fun vk => match vk_to_scancode vk with
                     | Some s => bool_decide (scancode_to_vk s = Some vk)
                     | None => true
                     end || ((0xA0 <=? vk) && (vk <=? 0xA5))) (map Z.of_nat (seq 0 256)) = true.
Proof. vm_compute. reflexivity. Qed.

Definition keys_ok (k : key_state) : Prop := length (key_down k) = 256%nat /\ length (key_pressed k) = 256%nat.

Lemma note_key_ok idx d r k : keys_ok k -> keys_ok (note_key idx d r k).
Proof. intros [H1 H2]. split; simpl; [by rewrite length_insert|]. case_match; [by rewrite length_insert|done]. Qed.

Lemma note_key_event_ok vk d r k : keys_ok k -> keys_ok (rb_keyboard_note_key_event vk d r k).
Proof.
  intros H. unfold rb_keyboard_note_key_event. destruct (vk <? 0); [done|].
  destruct (generic_vk _); by repeat apply note_key_ok.
Qed.

Lemma generic_vk_other idx : generic_vk idx <> Some idx.
Proof. unfold generic_vk. intros H. repeat case_hyp H; simplify_eq; lia. Qed.

Lemma note_key_event_lookup vk d r k :
  0 <= vk < 256 -> keys_ok k ->
  key_down (rb_keyboard_note_key_event vk d r k) !! Z.to_nat vk = Some d /\
  (d = true -> r = false -> key_pressed (rb_keyboard_note_key_event vk d r k) !! Z.to_nat vk = Some true).
Proof.
  intros Hv [H1 H2]. unfold rb_keyboard_note_key_event. replace (vk <? 0) with false by lia.
  rewrite wrap_small by lia. pose proof (generic_vk_other vk) as Hg.
  assert (Hgr : forall g, generic_vk vk = Some g -> 0 <= g < 256 /\ g <> vk).
  { intros g Hx. split; [|congruence]. unfold generic_vk in Hx. repeat case_hyp Hx; simplify_eq; lia. }
  destruct (generic_vk vk) as [g|].
  - destruct (Hgr g eq_refl) as [Hr Hne]. simpl. rewrite list_lookup_insert_ne by lia.
    rewrite list_lookup_insert_eq by lia. split; [done|]. intros -> ->. simpl.
    rewrite list_lookup_insert_ne by lia. by rewrite list_lookup_insert_eq by lia.
  - simpl. rewrite list_lookup_insert_eq by lia. split; [done|]. intros -> ->. simpl.
    by rewrite list_lookup_insert_eq by lia.
Qed.

(** A key that was pressed is reported as down, with its pressed bit, by the next
    query, and without the pressed bit by the one after it; once it is released it
    is up. *)
Theorem async_key_state_correct keyboard buttons vk k :
  keys_ok k -> 7 <= vk < 256 -> is_Some (vk_to_scancode vk) ->
  let k1 := rb_keyboard_note_key_event vk true false k in
  exists k2, rb_keyboard_get_async_state keyboard buttons vk k1 = Ret (i16 0x8001, k2) /\
  exists k3, rb_keyboard_get_async_state keyboard buttons vk k2 = Ret (i16 0x8000, k3) /\
    ((forall s, keyboard s = false) ->
     exists k4, rb_keyboard_get_async_state keyboard buttons vk (rb_keyboard_note_key_event vk false false k3)
       = Ret (0, k4)).
Proof.
  intros Hk Hv [s Hs] k1.
  assert (Hget : forall k d p, keys_ok k -> key_down k !! Z.to_nat vk = Some d -> key_pressed k !! Z.to_nat vk = Some p ->
    exists b, rb_keyboard_get_async_state keyboard buttons vk k = Ret (async_result (b || d) p, clear_pressed vk k) /\
      ((forall s, keyboard s = false) -> b = false)).
  { intros k0 d p H0 Hd Hp. unfold rb_keyboard_get_async_state. rewrite wrap_small by lia. rewrite Hp, Hd, Hs.
    cbn [deref mbind outcome_bind].
    replace ((vk =? 1) || (vk =? 2) || (vk =? 4) || (vk =? 5) || (vk =? 6)) with false by lia.
    eexists. split; [reflexivity|]. intros Hf. rewrite !Hf. by repeat case_match. }
  assert (Hc : forall k, keys_ok k -> keys_ok (clear_pressed vk k) /\
    key_down (clear_pressed vk k) = key_down k /\ key_pressed (clear_pressed vk k) !! Z.to_nat vk = Some false).
  { intros k0 [H1 H2]. split_and!; [by split; simpl; rewrite ?length_insert|done|].
    simpl. apply list_lookup_insert_eq. lia. }
  pose proof (note_key_event_ok vk true false k Hk) as Hk1.
  destruct (note_key_event_lookup vk true false k ltac:(lia) Hk) as [Hd Hp].
  destruct (Hget k1 true true Hk1 Hd (Hp eq_refl eq_refl)) as (b & E & _). rewrite orb_true_r in E.
  exists (clear_pressed vk k1). split; [exact E|].
  destruct (Hc k1 Hk1) as (Hk2 & Hd2 & Hp2).
  destruct (Hget _ true false Hk2 ltac:(by rewrite Hd2) Hp2) as (b2 & E2 & _). rewrite orb_true_r in E2.
  eexists. split; [exact E2|]. intros Hf.
  destruct (Hc _ Hk2) as (Hk3 & _ & Hp3).
  set (k3 := clear_pressed vk (clear_pressed vk k1)) in *.
  destruct (note_key_event_lookup vk false false k3 ltac:(lia) Hk3) as [Hd4 _].
  assert (Hp4 : key_pressed (rb_keyboard_note_key_event vk false false k3) = key_pressed k3).
  { unfold rb_keyboard_note_key_event. destruct (vk <? 0); [done|]. by destruct (generic_vk _). }
  destruct (Hget (rb_keyboard_note_key_event vk false false k3) false false) as (b4 & E4 & Hb4);
    [by apply note_key_event_ok|done|by rewrite Hp4|].
  rewrite (Hb4 Hf) in E4. eauto.
Qed.

Lemma async_key_state_correct_witness :
  exists k2, rb_keyboard_get_async_state (fun _ => false) (fun _ => false) 0x41
    (rb_keyboard_note_key_event 0x41 true false no_keys) = Ret (-32767, k2).
Proof.
  destruct (async_key_state_correct (fun _ => false) (fun _ => false) 0x41 no_keys) as (k2 & E & _);
    [by split|lia|eexists; reflexivity|]. exists k2. exact E.
Defined.
