(* ===== verification/BackendEvents.v ===== *)
(** * Events of the SDL backend (src/backend/sdl2/rb_event.c, rb_event_keyboard.c,
      rb_event_window_mouse.c, rb_event_queue.c)

    The translation of SDL's events into window messages, the watch that sees key
    events as SDL queues them, and the two calls that deliver messages to user32.
    SDL is a parameter: what a call into it makes happen is a list of host actions,
    the events SDL queues (shown to the watch), signals and X11 errors. *)
From S2P Require Import Prelude MessageQueue BackendState KeyTables.

Definition WM_MOVE : Z := 0x0003.
Definition WM_SIZE : Z := 0x0005.
Definition WM_PAINT : Z := 0x000F.
Definition WM_CHAR : Z := 0x0102.
Definition WM_MOUSEMOVE : Z := 0x0200.
Definition VK_F4 : Z := 0x73.

(** ** SDL's events, with the fields the code reads *)

Record SDL_KeyboardEvent := mkKeyEvent {
  key_timestamp : Z; key_windowID : Z; key_repeat : bool;
  key_scancode : scancode; key_sym : keycode;
  (** keysym.mod & KMOD_ALT *)
  key_mod_alt : bool }.

Inductive window_event :=
| WE_EXPOSED | WE_SIZE_CHANGED | WE_RESIZED | WE_MOVED | WE_CLOSE | WE_MINIMIZED | WE_RESTORED | WE_MAXIMIZED
| WE_FOCUS_GAINED | WE_FOCUS_LOST | WE_other.

Inductive SDL_Event :=
| EvKey (down : bool) (key : SDL_KeyboardEvent)
| EvText (timestamp windowID text0 : Z)
| EvMotion (timestamp windowID state x y : Z)
| EvButton (down : bool) (timestamp windowID button x y : Z)
| EvWheel (timestamp windowID y : Z)
| EvWindow (timestamp windowID : Z) (event : window_event) (data1 data2 : Z)
| EvQuit
| EvOther.

(** A queued key event: SDL_KEYDOWN or SDL_KEYUP, and the fields that identify it. *)
Record rb_key_watch_event := mkWatch {
  kw_down : bool; kw_timestamp : Z; kw_window_id : Z; kw_scancode : scancode; kw_sym : keycode }.
#[export] Instance rb_key_watch_event_eq_dec : EqDecision rb_key_watch_event.
Proof. solve_decision. Defined.

Record ev_state (H : Type) := mkEv {
  ev_rb : rb_state;
  ev_keys : key_state;
  (** The first g_key_watch_queue_count entries of the array of 64. *)
  g_key_watch_queue : list rb_key_watch_event;
  last_pump_ms : Z;
  ev_host : H }.
Arguments mkEv {_}.
Arguments ev_rb {_}.
Arguments ev_keys {_}.
Arguments g_key_watch_queue {_}.
Arguments last_pump_ms {_}.
Arguments ev_host {_}.

(** What happens during a call into SDL. *)
Inductive host_action :=
| HEvent (e : SDL_Event)
| HSignal
| HBadWindow (native_window_id : Z).

Definition RB_KEY_WATCH_QUEUE_CAPACITY : nat := 64.

(** *** The watched keys *)

Definition watch_entry (down : bool) (key : SDL_KeyboardEvent) : rb_key_watch_event :=
  mkWatch down (key_timestamp key) (key_windowID key) (key_scancode key) (key_sym key).

(** A full queue drops its oldest entry. *)
Definition rb_event_note_watched_key (down : bool) (key : SDL_KeyboardEvent) (q : list rb_key_watch_event)
  : list rb_key_watch_event :=
  let q := if (RB_KEY_WATCH_QUEUE_CAPACITY <=? length q)%nat then drop 1 q else q in
  q ++ [watch_entry down key].

Fixpoint rb_event_take_watched_key (down : bool) (key : SDL_KeyboardEvent) (q : list rb_key_watch_event)
  : bool * list rb_key_watch_event :=
  match q with
  | [] => (false, [])
  | e :: q =>
      if bool_decide (e = watch_entry down key) then (true, q)
      else let '(found, q) := rb_event_take_watched_key down key q in (found, e :: q)
  end.

Section events.
Context {A : Arch} {H : Type}.
Variable realloc : Z -> bool.
(** The numeric values of SDL's scancodes, and SDL_GetMouseState. *)
Variable code : scancode -> Z.
Variable mouse_state : H -> Z.
(** SDL_WaitEventTimeout, SDL_PeepEvents with SDL_GETEVENT, SDL_PumpEvents and the
    monotonic clock in milliseconds (0 when it cannot be read). *)
Variable sdl_wait : H -> list host_action * option SDL_Event * H.
Variable sdl_peep : H -> option SDL_Event * H.
Variable sdl_pump : H -> list host_action * H.
Variable clock : H -> Z * H.

Abbreviation state := (ev_state H).

Definition intptr (z : Z) : Z := swrap ptr_bits z.

Definition set_rb (r : rb_state) (s : state) : state :=
  mkEv r (ev_keys s) (g_key_watch_queue s) (last_pump_ms s) (ev_host s).
Definition set_keys (k : key_state) (s : state) : state :=
  mkEv (ev_rb s) k (g_key_watch_queue s) (last_pump_ms s) (ev_host s).
Definition set_watch (q : list rb_key_watch_event) (s : state) : state :=
  mkEv (ev_rb s) (ev_keys s) q (last_pump_ms s) (ev_host s).
Definition set_pump (n : Z) (s : state) : state :=
  mkEv (ev_rb s) (ev_keys s) (g_key_watch_queue s) n (ev_host s).
Definition set_host (h : H) (s : state) : state :=
  mkEv (ev_rb s) (ev_keys s) (g_key_watch_queue s) (last_pump_ms s) h.

(** *** Keys *)

Definition is_alt (sym : keycode) : bool := bool_decide (sym = K_LALT \/ sym = K_RALT).

Definition rb_event_is_system_key_event (key : SDL_KeyboardEvent) (s : state) : bool :=
  is_alt (key_sym key) || g_alt_key_down (ev_rb s) || key_mod_alt key.
Definition rb_event_note_alt_keydown (sym : keycode) (s : state) : state :=
  if is_alt sym then set_rb (set_alt true (ev_rb s)) s else s.
Definition rb_event_note_alt_keyup (sym : keycode) (s : state) : state :=
  if is_alt sym then set_rb (set_alt false (ev_rb s)) s else s.

Definition rb_build_key_lparam (key : SDL_KeyboardEvent) (is_keyup : bool) (s : state) : Z :=
  let '(sc, extended) := pc_scancode code (key_scancode key) in
  let lparam := Z.lor 1 (Z.shiftl (Z.land sc 0xff) 16) in
  let lparam := if rb_event_is_system_key_event key s then Z.lor lparam (Z.shiftl 1 29) else lparam in
  let lparam := if extended then Z.lor lparam (Z.shiftl 1 24) else lparam in
  let lparam := if key_repeat key || is_keyup then Z.lor lparam (Z.shiftl 1 30) else lparam in
  if is_keyup then Z.lor lparam (Z.shiftl 1 31) else lparam.

(** The WM_(SYS)KEYDOWN or WM_(SYS)KEYUP message, built in the same way for the
    watch and for the translation. *)
Definition key_message (h vk : Z) (down : bool) (key : SDL_KeyboardEvent) (s : state) : rb_msg_t :=
  let sys := rb_event_is_system_key_event key s in
  let lparam := intptr (rb_build_key_lparam key (negb down) s) in
  mkMsg h (if down then if sys then WM_SYSKEYDOWN else WM_KEYDOWN else if sys then WM_SYSKEYUP else WM_KEYUP)
    vk (if down then Z.land lparam (Z.lnot (Z.shiftl 1 30)) else lparam) (u32 (key_timestamp key)) 0 0.

Definition note_key_event (vk : Z) (down repeat : bool) (s : state) : state :=
  set_keys (rb_keyboard_note_key_event vk down repeat (ev_keys s)) s.

Definition rb_event_translate_key_event (down : bool) (key : SDL_KeyboardEvent) (h : Z) (s : state)
  : option rb_msg_t * state :=
  let '(watched, q) := rb_event_take_watched_key down key (g_key_watch_queue s) in
  let s := set_watch q s in
  if watched then (None, s)
  else
    let h := if h =? 0 then g_active_window (ev_rb s) else h in
    if h =? 0 then (None, s)
    else
      let s := if down then rb_event_note_alt_keydown (key_sym key) s else s in
      match rb_keycode_to_vk (key_sym key) (key_scancode key) with
      | None => (None, s)
      | Some vk =>
          let s := note_key_event vk down (if down then key_repeat key else false) s in
          if down && rb_event_is_system_key_event key s && (vk =? VK_F4) then
            (Some (mkMsg h WM_CLOSE 0 0 (u32 (key_timestamp key)) 0 0), s)
          else if negb down && rb_event_is_system_key_event key s && (vk =? VK_F4) then
            (None, rb_event_note_alt_keyup (key_sym key) s)
          else
            (Some (key_message h vk down key s),
             if down then s else rb_event_note_alt_keyup (key_sym key) s)
      end.

Definition rb_event_watch (e : SDL_Event) (s : state) : state :=
  match e with
  | EvKey down key =>
      match rb_keycode_to_vk (key_sym key) (key_scancode key) with
      | None => s
      | Some vk =>
          let s := note_key_event vk down (key_repeat key) s in
          let h := rb_event_resolve_hwnd_from_sdl_window (key_windowID key) (ev_rb s) in
          let h := if h =? 0 then g_active_window (ev_rb s) else h in
          if h =? 0 then s
          else
            let '(_, r) := rb_event_push_synthetic realloc (key_message h vk down key s) (ev_rb s) in
            set_watch (rb_event_note_watched_key down key (g_key_watch_queue s)) (set_rb r s)
      end
  | _ => s
  end.

Definition rb_event_translate_keyboard_or_text (e : SDL_Event) (h : Z) (s : state) : option rb_msg_t * state :=
  match e with
  | EvKey down key => rb_event_translate_key_event down key h s
  | EvText timestamp _ text0 =>
      let h := if h =? 0 then g_active_window (ev_rb s) else h in
      if h =? 0 then (None, s) else (Some (mkMsg h WM_CHAR (usize text0) 0 (u32 timestamp) 0 0), s)
  | _ => (None, s)
  end.

(** *** The mouse and the window *)

(** [x | (y << 16)], an int. *)
Definition point_lparam (x y : Z) : Z := Z.lor x (i32 (Z.shiftl y 16)).

Definition SDL_BUTTON_LEFT : Z := 1.
Definition SDL_BUTTON_MIDDLE : Z := 2.
Definition SDL_BUTTON_RIGHT : Z := 3.
Definition button_message (down : bool) (button : Z) : option Z :=
  if button =? SDL_BUTTON_LEFT then Some (if down then 0x0201 else 0x0202)
  else if button =? SDL_BUTTON_RIGHT then Some (if down then 0x0204 else 0x0205)
  else if button =? SDL_BUTTON_MIDDLE then Some (if down then 0x0207 else 0x0208)
  else None.

Definition rb_event_translate_mouse (e : SDL_Event) (h : Z) (s : state) : option rb_msg_t :=
  if h =? 0 then None
  else
    match e with
    | EvMotion timestamp _ st x y => Some (mkMsg h WM_MOUSEMOVE st (point_lparam x y) (u32 timestamp) x y)
    | EvButton down timestamp _ button x y =>
        m ← button_message down button;
        Some (mkMsg h m (Z.land (mouse_state (ev_host s)) 0xFFFF)
                (if down then point_lparam x y else Z.lor (point_lparam x y) (- 2 ^ 31)) (u32 timestamp) x y)
    | EvWheel timestamp _ y =>
        Some (mkMsg h 0x020A (Z.lor (usize (Z.shiftl (u16 (i16 (y * 120))) 16))
                                    (Z.land (mouse_state (ev_host s)) 0xFFFF)) 0 (u32 timestamp) 0 0)
    | _ => None
    end.

Definition size_lparam (data1 data2 : Z) : Z :=
  i32 (Z.lor (Z.land data1 0xFFFF) (i32 (Z.shiftl (Z.land data2 0xFFFF) 16))).

Definition focus_of (ev : window_event) : focus_change :=
  match ev with WE_FOCUS_GAINED => FocusGained | WE_FOCUS_LOST => FocusLost | _ => FocusOther end.

(** Record the state of the backend window of [h], if it has one. *)
Definition set_window_state (h : Z) (minimized maximized : bool) (r : rb_state) : rb_state :=
  match rb_event_find_route_by_hwnd h r with
  | None => r
  | Some i =>
      match g_window_routes r !! i with
      | None => r
      | Some rt =>
          match rb_windows r !! r_backend_win rt with
          | None => r
          | Some w => set_windows (<[r_backend_win rt := mkRbWindow (w_sdl_window_id w) (w_native_window_id w) true
                                                           minimized maximized]> (rb_windows r)) r
          end
      end
  end.

Definition rb_event_translate_window_or_mouse (e : SDL_Event) (h : Z) (s : state)
  : outcome (option rb_msg_t * state) :=
  match rb_event_translate_mouse e h s with
  | Some m => Ret (Some m, s)
  | None =>
      match e with
      | EvWindow timestamp _ ev data1 data2 =>
          '(m, r) ← rb_event_translate_focus_window_event realloc (focus_of ev) h (ev_rb s);
          let s := set_rb r s in
          match (m : option rb_msg_t) with
          | Some m => Ret (Some m, s)
          | None =>
              if h =? 0 then Ret (None, s)
              else
                match ev with
                | WE_EXPOSED => Ret (Some (mkMsg h WM_PAINT 0 0 (u32 timestamp) 0 0), s)
                | WE_SIZE_CHANGED | WE_RESIZED =>
                    Ret (Some (mkMsg h WM_SIZE 0 (size_lparam data1 data2) (u32 timestamp) 0 0), s)
                | WE_MOVED => Ret (Some (mkMsg h WM_MOVE 0 (size_lparam data1 data2) (u32 timestamp) 0 0), s)
                | WE_CLOSE => Ret (Some (mkMsg h WM_CLOSE 0 0 (u32 timestamp) 0 0), s)
                | WE_MINIMIZED => Ret (None, set_rb (set_window_state h true false (ev_rb s)) s)
                | WE_RESTORED => Ret (None, set_rb (set_window_state h false false (ev_rb s)) s)
                | WE_MAXIMIZED => Ret (None, set_rb (set_window_state h false true (ev_rb s)) s)
                | _ => Ret (None, s)
                end
          end
      | _ => Ret (None, s)
      end
  end.

(** *** rb_event.c *)

Definition event_window (e : SDL_Event) : Z :=
  match e with
  | EvKey _ key => key_windowID key
  | EvText _ w _ | EvMotion _ w _ _ _ | EvButton _ _ w _ _ _ | EvWheel _ w _ | EvWindow _ w _ _ _ => w
  | EvQuit | EvOther => 0
  end.
Definition rb_event_get_window_hwnd (e : SDL_Event) (s : state) : Z :=
  let id := event_window e in if id =? 0 then 0 else rb_event_resolve_hwnd_from_sdl_window id (ev_rb s).

Definition rb_event_translate_sdl_event (e : SDL_Event) (s : state) : outcome (option rb_msg_t * state) :=
  let h := rb_event_get_window_hwnd e s in
  match e with
  | EvKey _ _ | EvText _ _ _ => Ret (rb_event_translate_keyboard_or_text e h s)
  | EvMotion _ _ _ _ _ | EvButton _ _ _ _ _ _ | EvWheel _ _ _ | EvWindow _ _ _ _ _ =>
      rb_event_translate_window_or_mouse e h s
  | EvQuit => Ret (Some (mkMsg h WM_QUIT 0 0 0 0 0), s)
  | EvOther => Ret (None, s)
  end.

(** *** rb_event_queue.c *)

Definition run_action (a : host_action) (s : state) : state :=
  match a with
  | HEvent e => rb_event_watch e s
  | HSignal => set_rb (rb_runtime_note_shutdown_request (ev_rb s)) s
  | HBadWindow w => set_rb (rb_runtime_note_bad_window w (ev_rb s)) s
  end.
Definition run_host (l : list host_action) (s : state) : state := fold_left (fun s a => run_action a s) l s.

Definition rb_event_translate_bad_window (s : state) : option rb_msg_t * state :=
  let '(native, r) := rb_x11_consume_bad_window (ev_rb s) in
  let s := set_rb r s in
  if native =? 0 then (None, s)
  else
    let h := rb_event_resolve_hwnd_from_native_window native (ev_rb s) in
    if h =? 0 then (None, s) else (Some (mkMsg h WM_CLOSE 0 0 0 0 0), s).

Definition rb_event_pump_host (s : state) : state :=
  let '(l, h) := sdl_pump (ev_host s) in run_host l (set_host h s).

(** The flag against re-entry is clear whenever the function is called: the watch
    does not call it. *)
Definition rb_event_maybe_pump_host (min_interval_ms : Z) (s : state) : state :=
  let '(now, h) := clock (ev_host s) in
  let s := set_host h s in
  if negb (min_interval_ms =? 0) && negb (last_pump_ms s =? 0) && negb (now =? 0) &&
     (u64 (now - last_pump_ms s) <? min_interval_ms) then s
  else
    let s := rb_event_pump_host s in
    if negb (now =? 0) then set_pump now s
    else let '(t, h) := clock (ev_host s) in set_pump t (set_host h s).

(** What both calls try before they look at SDL's queue: [Some] with [true] for a
    synthetic message. *)
Definition pending_message (s : state) : outcome (option (bool * rb_msg_t) * state) :=
  '(m, r) ← rb_event_pop_synthetic (ev_rb s);
  let s := set_rb r s in
  match (m : option rb_msg_t) with
  | Some m => Ret (Some (true, m), s)
  | None =>
      let '(shutdown, r) := rb_runtime_consume_shutdown_request (ev_rb s) in
      r ← (if shutdown then rb_event_begin_shutdown realloc r else Ret r);
      '(m, r) ← rb_event_translate_shutdown r;
      let s := set_rb r s in
      match (m : option rb_msg_t) with
      | Some m => Ret (Some (false, m), s)
      | None =>
          let '(m, s) := rb_event_translate_bad_window s in
          Ret (match m with Some m => Some (false, m) | None => None end, s)
      end
  end.

Definition wait_result (m : rb_msg_t) : Z := if message m =? WM_QUIT then 0 else 1.

(** The fuel bounds the passes of the endless loop, [None]: still waiting. *)
Fixpoint rb_event_wait (fuel : nat) (s : state) : outcome (option (Z * rb_msg_t) * state) :=
  match fuel with
  | O => Ret (None, s)
  | S fuel =>
      '(p, s) ← pending_message s;
      match (p : option (bool * rb_msg_t)) with
      | Some (synthetic, m) => Ret (Some (if synthetic then wait_result m else 1, m), s)
      | None =>
          let '(l, e, h) := sdl_wait (ev_host s) in
          let s := run_host l (set_host h s) in
          match e with
          | None => rb_event_wait fuel s
          | Some e =>
              '(m, s) ← rb_event_translate_sdl_event e s;
              match (m : option rb_msg_t) with
              | Some m => Ret (Some (wait_result m, m), s)
              | None => rb_event_wait fuel s
              end
          end
      end
  end.

(** [None] is the return value 0: no message. *)
Definition rb_event_peek (s : state) : outcome (option rb_msg_t * state) :=
  let s := rb_event_maybe_pump_host 1 s in
  '(p, s) ← pending_message s;
  match (p : option (bool * rb_msg_t)) with
  | Some (_, m) => Ret (Some m, s)
  | None =>
      let '(e, h) := sdl_peep (ev_host s) in
      let s := set_host h s in
      match e with
      | None => Ret (None, s)
      | Some e => rb_event_translate_sdl_event e s
      end
  end.

Definition rb_event_push (m : rb_msg_t) (s : state) : bool * state :=
  let '(ok, r) := rb_event_push_synthetic realloc m (ev_rb s) in (ok, set_rb r s).
End events.

(** ** The invariant *)

(** The counts stay inside their arrays, and no final quit is pending. *)
Record rb_ok (r : rb_state) : Prop := {
  ok_synth : synth_ok r;
  ok_shutdown : (g_shutdown_hwnd_head r <= g_shutdown_hwnd_count r <= length (g_shutdown_hwnds r))%nat;
  ok_quit : g_shutdown_force_quit_pending r = false }.

Record ev_ok {H} (s : ev_state H) : Prop := {
  ok_rb : rb_ok (ev_rb s);
  ok_keys : keys_ok (ev_keys s);
  ok_watch : (length (g_key_watch_queue s) <= RB_KEY_WATCH_QUEUE_CAPACITY)%nat }.

Lemma rb_ok_synth r r' : rb_ok r -> same_but_synth r r' -> synth_ok r' -> rb_ok r'.
Proof. intros [_ H2 H3] E Hs. unfold same_but_synth in E. rewrite E in *. by split. Qed.

Lemma push_rb_ok {A : Arch} realloc m r : rb_ok r -> rb_ok (snd (rb_event_push_synthetic realloc m r)).
Proof.
  intros Hr. destruct (push_synthetic_spec realloc m r (ok_synth _ Hr)) as (b & r' & E & Ho & Hs & _).
  rewrite E. by apply (rb_ok_synth r).
Qed.

Lemma focus_messages_ok {A : Arch} realloc h g r :
  rb_ok r -> rb_ok (rb_event_queue_focus_messages realloc h g r).
Proof.
  intros Hr. unfold rb_event_queue_focus_messages. destruct (h =? 0); [done|].
  pose proof (push_rb_ok realloc (mkMsg h WM_ACTIVATE (if g then WA_ACTIVE else WA_INACTIVE) 0 0 0 0) r Hr) as H1.
  destruct (rb_event_push_synthetic _ _ _) as [b r']. by apply push_rb_ok.
Qed.

Lemma pop_rb_ok r : rb_ok r -> exists m r', rb_event_pop_synthetic r = Ret (m, r') /\ rb_ok r'.
Proof.
  intros Hr. destruct (pop_synthetic_spec r (ok_synth _ Hr)) as (r' & E & Ho & Hs & _).
  do 2 eexists. split; [exact E|]. by apply (rb_ok_synth r).
Qed.

Lemma set_alt_ok b r : rb_ok r -> rb_ok (set_alt b r).
Proof. by intros [H1 H2 H3]. Qed.
Lemma set_active_ok h r : rb_ok r -> rb_ok (set_active h r).
Proof. by intros [H1 H2 H3]. Qed.
Lemma set_flags_ok b z r : rb_ok r -> rb_ok (set_flags b z r).
Proof. by intros [H1 H2 H3]. Qed.
Lemma set_windows_ok w r : rb_ok r -> rb_ok (set_windows w r).
Proof. by intros [H1 H2 H3]. Qed.
Create HintDb backend.
#[export] Hint Resolve set_alt_ok set_active_ok set_flags_ok set_windows_ok focus_messages_ok push_rb_ok : backend.

Lemma set_window_state_ok h a b r : rb_ok r -> rb_ok (set_window_state h a b r).
Proof. intros Hr. unfold set_window_state. repeat case_match; auto with backend. Qed.
#[export] Hint Resolve set_window_state_ok : backend.

Lemma focus_event_ok {A : Arch} realloc ev h r :
  rb_ok r -> exists m r', rb_event_translate_focus_window_event realloc ev h r = Ret (m, r') /\ rb_ok r'.
Proof.
  intros Hr. unfold rb_event_translate_focus_window_event, rb_event_set_active_window.
  destruct (h =? 0); [by eauto|]. destruct ev; [|destruct (g_active_window r =? h)|]; try by eauto.
  all: apply pop_rb_ok; auto with backend.
Qed.

Lemma begin_shutdown_ok {A : Arch} realloc r :
  rb_ok r -> exists r', rb_event_begin_shutdown realloc r = Ret r' /\ rb_ok r' /\ synth r' = synth r.
Proof.
  intros [H1 H2 H3]. unfold rb_event_begin_shutdown, rb_event_ensure_shutdown_capacity. cbn zeta.
  cbn [g_shutdown_hwnds set_shutdown g_window_routes].
  set (n := length (g_window_routes r)). set (l0 := g_shutdown_hwnds r).
  set (x := if (n + 1 <=? length l0)%nat then _ else _).
  assert (Hs : x = None \/ exists l1, x = Some (set_shutdown l1 0 0 false r) /\ (n + 1 <= length l1)%nat).
  { subst x. destruct (Nat.leb_spec (n + 1) (length l0)); [by eauto|]. destruct (realloc _); [right|by left].
    eexists. split; [reflexivity|]. rewrite length_app, length_replicate.
    pose proof (grown_capacity_enough 16 (n + 1) (length l0) ltac:(lia)). lia. }
  clearbody x. destruct Hs as [->|(l1 & -> & Hl)].
  - eexists. split; [reflexivity|]. split; [|done]. split; simpl; [done|lia|done].
  - cbn [g_active_window g_window_routes g_shutdown_hwnds set_shutdown]. set (wa := negb _ && _).
    pose proof (length_others (g_active_window r) (g_window_routes r)) as Lo. fold n in Lo.
    destruct (queue_other_windows_spec (g_active_window r) (g_window_routes r)
      (if wa then <[0%nat := g_active_window r]> l1 else l1) (if wa then 1 else 0)) as (l2 & E2 & L2 & _);
      [destruct wa; rewrite ?length_insert; lia|].
    rewrite E2. cbn [mbind outcome_bind]. eexists. split; [reflexivity|]. split; [|done].
    split; simpl; [done| |done]. rewrite L2. destruct wa; rewrite ?length_insert; lia.
Qed.

Lemma shutdown_loop_ok r todo : forall head,
  (head + todo <= length (g_shutdown_hwnds r))%nat ->
  exists h head', shutdown_loop todo head r = Ret (h, head') /\ (head <= head' <= head + todo)%nat.
Proof.
  induction todo as [|todo IH]; intros head Hl; cbn [shutdown_loop]; [exists None, head; split; [done|lia]|].
  destruct (lookup_lt_is_Some_2 (g_shutdown_hwnds r) head) as [h Hh]; [lia|]. rewrite Hh. cbn [deref mbind outcome_bind].
  destruct (_ || _).
  - destruct (IH (S head)) as (h' & head' & E & Hr); [lia|]. exists h', head'. split; [done|lia].
  - exists (Some h), (S head). split; [done|lia].
Qed.

Lemma translate_shutdown_ok r :
  rb_ok r -> exists m r', rb_event_translate_shutdown r = Ret (m, r') /\ rb_ok r' /\
    forall x, m = Some x -> message x = WM_CLOSE.
Proof.
  intros [H1 H2 H3]. unfold rb_event_translate_shutdown.
  destruct (shutdown_loop_ok r (g_shutdown_hwnd_count r - g_shutdown_hwnd_head r) (g_shutdown_hwnd_head r))
    as (h & head' & E & Hr); [lia|]. rewrite E. cbn [mbind outcome_bind].
  destruct h as [h|]; [|simpl; rewrite H3]; do 2 eexists; (split; [reflexivity|]).
  all: split; [split; simpl; done || lia|]. all: by intros x [= <-].
Qed.

Section invariant.
Context {A : Arch} {H : Type}.
Variable realloc : Z -> bool.
Variable code : scancode -> Z.
Variable mouse_state : H -> Z.
Variable sdl_wait : H -> list host_action * option SDL_Event * H.
Variable sdl_peep : H -> option SDL_Event * H.
Variable sdl_pump : H -> list host_action * H.
Variable clock : H -> Z * H.
Implicit Types s : ev_state H.

Lemma set_rb_ok r s : rb_ok r -> ev_ok s -> ev_ok (set_rb r s).
Proof. intros Hr [H1 H2 H3]. by split. Qed.
Lemma set_host_ok h s : ev_ok s -> ev_ok (set_host h s).
Proof. intros [H1 H2 H3]. by split. Qed.
Lemma set_pump_ok n s : ev_ok s -> ev_ok (set_pump n s).
Proof. intros [H1 H2 H3]. by split. Qed.
Lemma note_key_event_ev_ok vk d r s : ev_ok s -> ev_ok (note_key_event vk d r s).
Proof. intros [H1 H2 H3]. split; [done| |done]. by apply note_key_event_ok. Qed.
Hint Resolve set_rb_ok set_host_ok set_pump_ok note_key_event_ev_ok ok_rb : backend.

Lemma take_watched_key_length d key q : (length (snd (rb_event_take_watched_key d key q)) <= length q)%nat.
Proof.
  induction q as [|e q IH]; simpl; [lia|]. case_bool_decide; simpl; [lia|].
  destruct (rb_event_take_watched_key d key q) as [f q']. simpl in *. lia.
Qed.

Lemma note_watched_key_length d key q :
  (length q <= RB_KEY_WATCH_QUEUE_CAPACITY)%nat ->
  (length (rb_event_note_watched_key d key q) <= RB_KEY_WATCH_QUEUE_CAPACITY)%nat.
Proof.
  unfold rb_event_note_watched_key, RB_KEY_WATCH_QUEUE_CAPACITY. intros Hq. rewrite length_app.
  destruct (Nat.leb_spec 64 (length q)); rewrite ?length_drop; simpl; lia.
Qed.

Lemma alt_down_ok sym s : ev_ok s -> ev_ok (rb_event_note_alt_keydown sym s).
Proof. unfold rb_event_note_alt_keydown. destruct (is_alt _); auto 6 with backend. Qed.
Lemma alt_up_ok sym s : ev_ok s -> ev_ok (rb_event_note_alt_keyup sym s).
Proof. unfold rb_event_note_alt_keyup. destruct (is_alt _); auto 6 with backend. Qed.
Hint Resolve alt_down_ok alt_up_ok : backend.

Lemma watch_ok e s : ev_ok s -> ev_ok (rb_event_watch realloc code e s).
Proof.
  intros Hs. unfold rb_event_watch. destruct e; try done. destruct (rb_keycode_to_vk _ _) as [vk|]; [|done].
  pose proof (note_key_event_ev_ok vk down (key_repeat key) s Hs) as Hs1.
  set (s1 := note_key_event vk down (key_repeat key) s) in *.
  match goal with |- context [if ?b =? 0 then s1 else _] => set (h := b) end. destruct (h =? 0); [done|].
  pose proof (push_rb_ok realloc (key_message code h vk down key s1) _ (ok_rb _ Hs1)) as Hp.
  destruct (rb_event_push_synthetic _ _ _) as [b r].
  simpl in Hp. destruct Hs1 as [H1 H2 H3]. split; [done..|].
  by apply note_watched_key_length.
Qed.

Lemma run_host_ok l : forall s, ev_ok s -> ev_ok (run_host realloc code l s).
Proof.
  unfold run_host. induction l as [|a l IH]; intros s Hs; [done|]. simpl. apply IH.
  destruct a; simpl; [by apply watch_ok|..]; unfold rb_runtime_note_shutdown_request, rb_runtime_note_bad_window;
    auto 6 with backend.
Qed.

Lemma translate_key_ok d key h s :
  ev_ok s -> ev_ok (snd (rb_event_translate_key_event code d key h s)).
Proof.
  intros Hs. unfold rb_event_translate_key_event.
  pose proof (take_watched_key_length d key (g_key_watch_queue s)) as Hl.
  destruct (rb_event_take_watched_key d key _) as [watched q]. simpl in Hl.
  assert (Hs1 : ev_ok (set_watch q s)) by (destruct Hs as [H1 H2 H3]; split; simpl; [done..|lia]).
  set (s1 := set_watch q s) in *. destruct watched; [done|].
  destruct (_ =? 0); [done|].
  assert (Hs2 : ev_ok (if d then rb_event_note_alt_keydown (key_sym key) s1 else s1)) by (destruct d; auto with backend).
  set (s2 := if d then _ else _) in *. destruct (rb_keycode_to_vk _ _) as [vk|]; [|done].
  repeat case_goal; simpl; auto with backend.
Qed.

Lemma translate_sdl_event_ok e s :
  ev_ok s -> exists m s', rb_event_translate_sdl_event realloc code mouse_state e s = Ret (m, s') /\ ev_ok s'.
Proof.
  intros Hs. unfold rb_event_translate_sdl_event. set (h := rb_event_get_window_hwnd e s).
  assert (Hret : forall x : option rb_msg_t * ev_state H, ev_ok (snd x) ->
    exists m s', Ret x = Ret (m, s') /\ ev_ok s') by (intros [m s'] Hx; eauto).
  destruct e; try (by apply Hret);
    try (unfold rb_event_translate_window_or_mouse; simpl; repeat case_goal; apply Hret; done).
  - apply Hret. by apply translate_key_ok.
  - unfold rb_event_translate_window_or_mouse.
    destruct (rb_event_translate_mouse mouse_state (EvWindow _ _ _ _ _) h s); [by apply Hret|].
    destruct (focus_event_ok realloc (focus_of event) h (ev_rb s) (ok_rb _ Hs)) as (m & r & E & Hr).
    rewrite E. cbn [mbind outcome_bind]. pose proof (set_rb_ok r s Hr Hs) as Hs1.
    destruct m; [by apply Hret|]. destruct (h =? 0); [by apply Hret|].
    destruct event; apply Hret; simpl; auto 6 with backend.
Qed.

Lemma pending_message_ok s :
  ev_ok s -> exists p s', pending_message realloc s = Ret (p, s') /\ ev_ok s' /\
    (forall m, p = Some (false, m) -> message m = WM_CLOSE) /\
    (forall m l, synth (ev_rb s) = m :: l -> p = Some (true, m)).
Proof.
  intros Hs. unfold pending_message. destruct (pop_synthetic_spec _ (ok_synth _ (ok_rb _ Hs))) as (r & E & Ho & Hsb & _).
  pose proof (rb_ok_synth _ _ (ok_rb _ Hs) Hsb Ho) as Hr.
  rewrite E. cbn [mbind outcome_bind]. destruct (head (synth (ev_rb s))) as [m|] eqn:Eh.
  { do 2 eexists. split; [reflexivity|]. split; [auto with backend|]. split; [done|].
    intros m' l Hl. rewrite Hl in Eh. by injection Eh as ->. }
  assert (Hnil : synth (ev_rb s) = []) by (by destruct (synth (ev_rb s))). rewrite Hnil.
  destruct (rb_runtime_consume_shutdown_request _) as [b r1] eqn:Ec.
  assert (Hr1 : rb_ok r1).
  { unfold rb_runtime_consume_shutdown_request in Ec. simpl in Ec. destruct (negb _); simplify_eq; auto with backend. }
  assert (Hb : exists r2, (if b then rb_event_begin_shutdown realloc r1 else Ret r1) = Ret r2 /\ rb_ok r2).
  { destruct b; [|by eauto]. destruct (begin_shutdown_ok realloc r1 Hr1) as (r2 & E2 & Hr2 & _). eauto. }
  destruct Hb as (r2 & -> & Hr2). cbn [mbind outcome_bind].
  destruct (translate_shutdown_ok r2 Hr2) as (m & r3 & -> & Hr3 & Hm). cbn [mbind outcome_bind].
  destruct m as [m|].
  { do 2 eexists. split; [reflexivity|]. split; [auto with backend|]. split; [|done]. intros m' [= <-]. by apply Hm. }
  unfold rb_event_translate_bad_window, rb_x11_consume_bad_window. simpl.
  repeat case_goal; do 2 eexists; (split; [reflexivity|]); (split; [auto 6 with backend|]); split; try done.
  by intros m' [= <-].
Qed.

Lemma maybe_pump_ok n s : ev_ok s -> ev_ok (rb_event_maybe_pump_host realloc code sdl_pump clock n s).
Proof.
  intros Hs. unfold rb_event_maybe_pump_host, rb_event_pump_host.
  destruct (clock (ev_host s)) as [now h]. destruct (_ && (_ <? _)); [auto with backend|].
  destruct (sdl_pump _) as [l h']. pose proof (run_host_ok l (set_host h' (set_host h s))) as Hr.
  destruct (negb (now =? 0)); [|destruct (clock _)]; auto 8 with backend.
Qed.

(** C29: Whatever SDL delivers, rb_event_wait never reads or writes outside of the
    queues and keeps them consistent, however many passes it makes; the message it
    returns comes with 0 when it is WM_QUIT and with 1 otherwise. *)
Theorem rb_event_wait_safe fuel s :
  ev_ok s ->
  exists r s', rb_event_wait realloc code mouse_state sdl_wait fuel s = Ret (r, s') /\ ev_ok s' /\
    match r with Some (ret, m) => ret = if message m =? WM_QUIT then 0 else 1 | None => True end.
Proof.
  revert s. induction fuel as [|fuel IH]; intros s Hs; cbn [rb_event_wait]; [by eauto|].
  destruct (pending_message_ok s Hs) as (p & s1 & -> & Hs1 & Hc & _). cbn [mbind outcome_bind].
  destruct p as [[syn m]|].
  { do 2 eexists. split; [reflexivity|]. split; [done|]. destruct syn; [done|]. by rewrite (Hc m eq_refl). }
  destruct (sdl_wait _) as [[l e] h]. pose proof (run_host_ok l (set_host h s1)) as Hs2.
  specialize (Hs2 ltac:(auto with backend)). destruct e as [e|]; [|by apply IH].
  destruct (translate_sdl_event_ok e _ Hs2) as (m & s3 & -> & Hs3). cbn [mbind outcome_bind].
  destruct m as [m|]; [|by apply IH]. do 2 eexists. split; [reflexivity|]. done.
Qed.

(** rb_event_peek never blocks and never faults, and a message that is already
    queued for the guest is the one it returns. *)
Lemma rb_event_peek_safe s :
  ev_ok s -> exists r s', rb_event_peek realloc code mouse_state sdl_peep sdl_pump clock s = Ret (r, s') /\ ev_ok s'.
Proof.
  intros Hs. unfold rb_event_peek. pose proof (maybe_pump_ok 1 s Hs) as Hs1.
  destruct (pending_message_ok _ Hs1) as (p & s2 & -> & Hs2 & _). cbn [mbind outcome_bind].
  destruct p as [[syn m]|]; [by eauto|]. destruct (sdl_peep _) as [e h]. destruct e as [e|]; [|by eauto with backend].
  apply translate_sdl_event_ok. auto with backend.
Qed.
End invariant.

(** ** Key events reach the guest once *)

Section keys.
Context {A : Arch} {H : Type}.
Variable realloc : Z -> bool.
Variable code : scancode -> Z.
Variable mouse_state : H -> Z.
Implicit Types s : ev_state H.

(** Translate events one after the other, as the delivery loop does. *)
Fixpoint translate_all (l : list SDL_Event) (s : ev_state H) : outcome (list rb_msg_t * ev_state H) :=
  match l with
  | [] => Ret ([], s)
  | e :: l =>
      '(m, s) ← rb_event_translate_sdl_event realloc code mouse_state e s;
      '(ms, s) ← translate_all l s;
      Ret (option_list m ++ ms, s)
  end.

Definition key_event (k : bool * SDL_KeyboardEvent) : SDL_Event := EvKey k.1 k.2.

(** The window a key event is for. *)
Definition key_target (key : SDL_KeyboardEvent) (r : rb_state) : Z :=
  let h := rb_event_resolve_hwnd_from_sdl_window (key_windowID key) r in
  if h =? 0 then g_active_window r else h.

(** The message of a key event, when the key has a virtual key. *)
Definition key_messages (s : ev_state H) (k : bool * SDL_KeyboardEvent) : list rb_msg_t :=
  match rb_keycode_to_vk (key_sym k.2) (key_scancode k.2) with
  | Some vk => [key_message code (key_target k.2 (ev_rb s)) vk k.1 k.2 s]
  | None => []
  end.
(** The keys the watch takes: those with a virtual key and a window to go to. *)
Definition takes_key (r : rb_state) (k : bool * SDL_KeyboardEvent) : Prop :=
  is_Some (rb_keycode_to_vk (key_sym k.2) (key_scancode k.2)) /\ key_target k.2 r <> 0.
#[export] Instance takes_key_dec r k : Decision (takes_key r k).
Proof. unfold takes_key. apply _. Defined.
Definition taken_keys (r : rb_state) (ks : list (bool * SDL_KeyboardEvent)) : list (bool * SDL_KeyboardEvent) :=
  filter (takes_key r) ks.
Definition key_watches (r : rb_state) (ks : list (bool * SDL_KeyboardEvent)) : list rb_key_watch_event :=
  map (fun k => watch_entry k.1 k.2) (taken_keys r ks).

(** What the messages depend on is the same. *)
Record same_keys_view (r r' : rb_state) : Prop := {
  sv_active : g_active_window r' = g_active_window r;
  sv_routes : g_window_routes r' = g_window_routes r;
  sv_alt : g_alt_key_down r' = g_alt_key_down r }.

Lemma key_messages_view s s' k : same_keys_view (ev_rb s) (ev_rb s') -> key_messages s' k = key_messages s k.
Proof.
  intros [Ha Hr Hl]. unfold key_messages, key_target, rb_event_resolve_hwnd_from_sdl_window,
    rb_event_find_route_by_sdl_window, find_route, route_field, key_message, rb_build_key_lparam,
    rb_event_is_system_key_event. by rewrite Ha, Hr, Hl.
Qed.

Lemma key_target_view r r' key : same_keys_view r r' -> key_target key r' = key_target key r.
Proof.
  intros [Ha Hr Hl]. unfold key_target, rb_event_resolve_hwnd_from_sdl_window,
    rb_event_find_route_by_sdl_window, find_route, route_field. by rewrite Ha, Hr.
Qed.

Lemma taken_keys_view r r' ks : same_keys_view r r' -> taken_keys r' ks = taken_keys r ks.
Proof.
  intros Hv. apply list_filter_iff. intros k. unfold takes_key. by rewrite (key_target_view _ _ _ Hv).
Qed.

Lemma watch_key s d key :
  synth_ok (ev_rb s) ->
  (length (g_key_watch_queue s) + length (taken_keys (ev_rb s) [(d, key)]) <= RB_KEY_WATCH_QUEUE_CAPACITY)%nat ->
  exists s' sent, rb_event_watch realloc code (EvKey d key) s = s' /\ synth_ok (ev_rb s') /\
    same_keys_view (ev_rb s) (ev_rb s') /\
    sublist sent (taken_keys (ev_rb s) [(d, key)]) /\
    ((forall n, realloc n = true) -> sent = taken_keys (ev_rb s) [(d, key)]) /\
    synth (ev_rb s') = synth (ev_rb s) ++ concat (map (key_messages s) sent) /\
    g_key_watch_queue s' = g_key_watch_queue s ++ key_watches (ev_rb s) [(d, key)].
Proof.
  intros Ho Hl. unfold rb_event_watch, key_watches, taken_keys in *.
  assert (Hkt : forall n, (if rb_event_resolve_hwnd_from_sdl_window (key_windowID key) (ev_rb (note_key_event n d (key_repeat key) s)) =? 0
          then g_active_window (ev_rb (note_key_event n d (key_repeat key) s))
          else rb_event_resolve_hwnd_from_sdl_window (key_windowID key) (ev_rb (note_key_event n d (key_repeat key) s)))
    = key_target key (ev_rb s)) by done.
  destruct (decide (takes_key (ev_rb s) (d, key))) as [Ht|Ht].
  - rewrite filter_cons_True, filter_nil in Hl |- * by done. destruct Ht as [[vk Ek] Ht]. simpl in Ek, Ht, Hl.
    rewrite Ek. cbn zeta. rewrite Hkt, (proj2 (Z.eqb_neq _ _) Ht).
    destruct (push_synthetic_spec realloc (key_message code (key_target key (ev_rb s)) vk d key
      (note_key_event vk d (key_repeat key) s)) (ev_rb s) Ho) as (b & r & E & Hr & Hsb & Hsy & Hb).
    cbn [ev_rb note_key_event set_keys]. rewrite E. eexists _, (if b then [(d, key)] else []). split; [reflexivity|]. simpl.
    unfold same_but_synth in Hsb. split_and!; [done|by rewrite Hsb| | | |].
    + destruct b; [done|apply sublist_nil_l].
    + intros Hre. by rewrite (Hb Hre).
    + rewrite Hsy. destruct b; simpl; [|by rewrite app_nil_r]. unfold key_messages. simpl. by rewrite Ek.
    + unfold rb_event_note_watched_key. replace (RB_KEY_WATCH_QUEUE_CAPACITY <=? _)%nat with false; [done|].
      symmetry. apply Nat.leb_gt. lia.
  - rewrite filter_cons_False, filter_nil by done. eexists _, []. split; [reflexivity|].
    rewrite !app_nil_r. unfold takes_key in Ht. simpl in Ht.
    destruct (rb_keycode_to_vk (key_sym key) (key_scancode key)) as [vk|]; [|by split_and!].
    cbn zeta. rewrite Hkt.
    destruct (Z.eqb_spec (key_target key (ev_rb s)) 0) as [E|E]; [|by destruct Ht].
    simpl. by split_and!.
Qed.

Lemma watch_all ks : forall s,
  synth_ok (ev_rb s) ->
  (length (g_key_watch_queue s) + length (taken_keys (ev_rb s) ks) <= RB_KEY_WATCH_QUEUE_CAPACITY)%nat ->
  exists s' sent, run_host realloc code (map (fun k => HEvent (key_event k)) ks) s = s' /\ synth_ok (ev_rb s') /\
    same_keys_view (ev_rb s) (ev_rb s') /\
    sublist sent (taken_keys (ev_rb s) ks) /\
    ((forall n, realloc n = true) -> sent = taken_keys (ev_rb s) ks) /\
    synth (ev_rb s') = synth (ev_rb s) ++ concat (map (key_messages s) sent) /\
    g_key_watch_queue s' = g_key_watch_queue s ++ key_watches (ev_rb s) ks.
Proof.
  induction ks as [|[d key] ks IH]; intros s Ho Hl.
  { eexists _, []. split; [reflexivity|]. simpl. unfold key_watches. simpl. by rewrite !app_nil_r. }
  assert (Hk : taken_keys (ev_rb s) ((d, key) :: ks) = taken_keys (ev_rb s) [(d, key)] ++ taken_keys (ev_rb s) ks)
    by apply (filter_app _ [_]).
  unfold key_watches. rewrite Hk in Hl |- *. rewrite length_app in Hl. rewrite map_app.
  destruct (watch_key s d key Ho) as (s1 & l1 & E1 & Ho1 & Hv1 & Hu1 & Hf1 & Hs1 & Hq1); [lia|].
  destruct (IH s1 Ho1) as (s2 & l2 & E2 & Ho2 & Hv2 & Hu2 & Hf2 & Hs2 & Hq2).
  { rewrite (taken_keys_view _ _ ks Hv1), Hq1, length_app. unfold key_watches. rewrite length_map. lia. }
  unfold key_watches in Hq1, Hq2. rewrite (taken_keys_view _ _ ks Hv1) in Hu2, Hf2, Hq2.
  exists s2, (l1 ++ l2). split; [by rewrite <- E1 in E2|].
  split; [done|]. split; [destruct Hv1, Hv2; split; congruence|].
  split; [by apply sublist_app|]. split; [intros Hre; by rewrite (Hf1 Hre), (Hf2 Hre)|]. split.
  - rewrite Hs2, Hs1, <- (assoc_L (++)), map_app, concat_app. do 3 f_equal. apply map_ext.
    intros k. by apply key_messages_view.
  - by rewrite Hq2, Hq1, <- (assoc_L (++)).
Qed.

Lemma take_watched_absent d key q :
  watch_entry d key ∉ q -> rb_event_take_watched_key d key q = (false, q).
Proof.
  induction q as [|e q IH]; simpl; [done|]. intros [Hne Hq]%not_elem_of_cons.
  rewrite bool_decide_eq_false_2 by congruence. by rewrite IH.
Qed.

Lemma watched_taken d key r ks :
  watch_entry d key ∈ key_watches r ks -> takes_key r (d, key).
Proof.
  unfold key_watches, taken_keys. intros Hin. apply list_elem_of_In, in_map_iff in Hin as ([d' key'] & He & Hin).
  apply list_elem_of_In, list_elem_of_filter in Hin as [[Hs Ht] _]. unfold watch_entry, takes_key, key_target in *.
  simpl in *. injection He as <- _ Hw Hsc Hsy. rewrite <- Hw, <- Hsc, <- Hsy. by split.
Qed.

(** A key the watch did not take has no message when it is delivered either. *)
Lemma translate_untaken d key s :
  watch_entry d key ∉ g_key_watch_queue s -> ~ takes_key (ev_rb s) (d, key) ->
  exists s', rb_event_translate_sdl_event realloc code mouse_state (EvKey d key) s = Ret (None, s') /\
    g_key_watch_queue s' = g_key_watch_queue s /\ ev_rb s' = ev_rb s.
Proof.
  intros Hw Ht. unfold rb_event_translate_sdl_event, rb_event_translate_keyboard_or_text, rb_event_translate_key_event.
  cbn beta iota zeta. rewrite (take_watched_absent _ _ _ Hw). unfold takes_key, key_target in Ht. simpl in Ht.
  set (h := rb_event_get_window_hwnd _ s). change (ev_rb (set_watch (g_key_watch_queue s) s)) with (ev_rb s).
  destruct (rb_keycode_to_vk (key_sym key) (key_scancode key)) as [vk|] eqn:Hv.
  - assert (E : (if h =? 0 then g_active_window (ev_rb s) else h) = 0).
    { assert (Hh : h = rb_event_resolve_hwnd_from_sdl_window (key_windowID key) (ev_rb s)).
      { unfold h, rb_event_get_window_hwnd. simpl. destruct (Z.eqb_spec (key_windowID key) 0) as [->|]; [|done]. done. }
      rewrite Hh. destruct (Z.eq_dec (if rb_event_resolve_hwnd_from_sdl_window (key_windowID key) (ev_rb s) =? 0
        then g_active_window (ev_rb s) else rb_event_resolve_hwnd_from_sdl_window (key_windowID key) (ev_rb s)) 0)
        as [|Hn]; [done|]. by destruct Ht. }
    rewrite E. eexists. split; [reflexivity|]. by split.
  - assert (Ha : is_alt (key_sym key) = false).
    { unfold is_alt. apply bool_decide_eq_false_2. by intros [Hx|Hx]; rewrite Hx in Hv. }
    unfold rb_event_note_alt_keydown. rewrite Ha.
    repeat case_goal; eexists; (split; [reflexivity|]); by split.
Qed.

Lemma translate_watched ks : forall s,
  g_key_watch_queue s = key_watches (ev_rb s) ks ->
  exists s', translate_all (map key_event ks) s = Ret ([], s') /\ g_key_watch_queue s' = [] /\ ev_rb s' = ev_rb s.
Proof.
  induction ks as [|[d key] ks IH]; intros s Hq.
  { exists s. by unfold key_watches in Hq. }
  cbn [map translate_all]. change (key_event (d, key)) with (EvKey d key).
  assert (Hstep : exists s1, rb_event_translate_sdl_event realloc code mouse_state (EvKey d key) s = Ret (None, s1) /\
    g_key_watch_queue s1 = key_watches (ev_rb s) ks /\ ev_rb s1 = ev_rb s).
  { unfold key_watches, taken_keys in *. destruct (decide (takes_key (ev_rb s) (d, key))) as [Hs|Hs].
    - rewrite filter_cons_True in Hq by done. simpl in Hq.
      unfold rb_event_translate_sdl_event, rb_event_translate_keyboard_or_text, rb_event_translate_key_event.
      cbn beta iota zeta. rewrite Hq. cbn [rb_event_take_watched_key].
      rewrite bool_decide_eq_true_2 by done. eexists. split; [reflexivity|]. by split.
    - rewrite filter_cons_False in Hq by done. change (g_key_watch_queue s = key_watches (ev_rb s) ks) in Hq.
      change (map _ (filter _ ks)) with (key_watches (ev_rb s) ks). rewrite <- Hq. apply translate_untaken; [|done]. rewrite Hq. intros Hin. by apply Hs, (watched_taken _ _ _ ks). }
  destruct Hstep as (s1 & -> & Hq1 & Hr1). cbn [mbind outcome_bind].
  destruct (IH s1) as (s2 & -> & Hq2 & Hr2); [by rewrite Hr1|]. cbn [mbind outcome_bind].
  exists s2. split; [done|]. split; [done|congruence].
Qed.

(** C30: Key events that SDL queues are delivered once.  The watch queues, in order,
    one message for each key event that has a virtual key and a window to go to;
    only the messages whose queue cannot grow for lack of memory are left out.  When
    SDL hands the same events out later none of them gives a message again, whether
    it had one or not.  The watch remembers 64 keys. *)
Theorem key_events_delivered_once ks s :
  ev_ok s -> g_key_watch_queue s = [] -> (length (taken_keys (ev_rb s) ks) <= 64)%nat ->
  let s1 := run_host realloc code (map (fun k => HEvent (key_event k)) ks) s in
  exists sent, sublist sent (taken_keys (ev_rb s) ks) /\
  ((forall n, realloc n = true) -> sent = taken_keys (ev_rb s) ks) /\
  synth (ev_rb s1) = synth (ev_rb s) ++ concat (map (key_messages s) sent) /\
  exists s2, translate_all (map key_event ks) s1 = Ret ([], s2) /\
    g_key_watch_queue s2 = [] /\ synth (ev_rb s2) = synth (ev_rb s1).
Proof.
  intros Hok Hq Hl. cbn zeta.
  destruct (watch_all ks s (ok_synth _ (ok_rb _ Hok))) as (s1 & sent & E1 & _ & Hv & Hu & Hf & Hs1 & Hq1).
  { rewrite Hq. exact Hl. }
  rewrite E1. exists sent. split; [done|]. split; [done|]. split; [done|]. rewrite Hq in Hq1.
  destruct (translate_watched ks s1) as (s2 & E2 & Hq2 & Hr2).
  { rewrite Hq1. unfold key_watches. by rewrite (taken_keys_view _ _ ks Hv). }
  exists s2. split; [done|]. split; [done|]. by rewrite Hr2.
Qed.
End keys.

(** *** Mouse coordinates *)

Definition get_x_lparam (l : Z) : Z := i16 (Z.land l 0xFFFF).
Definition get_y_lparam (l : Z) : Z := i16 (Z.land (Z.shiftr l 16) 0xFFFF).

Lemma land_ones_16 z : Z.land z 0xFFFF = z mod 2 ^ 16.
Proof. change 0xFFFF with (Z.ones 16). by apply Z.land_ones. Qed.

Lemma lor_shifted_i32 x y : 0 <= x < 2 ^ 15 -> - 2 ^ 15 <= y < 2 ^ 15 -> point_lparam x y = y * 2 ^ 16 + x.
Proof.
  intros Hx Hy. unfold point_lparam. rewrite Z.shiftl_mul_pow2 by lia. rewrite swrap_small by lia.
  rewrite Z.lor_comm, <- Z.lxor_lor, <- Z.add_nocarry_lxor; [done| |].
  all: apply Z.bits_inj'; intros n Hn; rewrite Z.land_spec, Z.bits_0.
  all: destruct (Z.lt_ge_cases n 16); [rewrite Z.mul_pow2_bits_low by lia; done|].
  all: rewrite (Z.bits_above_log2 x n); [by rewrite andb_false_r|lia|].
  all: destruct (Z.eq_dec x 0) as [->|]; [simpl; lia|]; apply Z.log2_lt_pow2; [lia|].
  all: apply Z.lt_le_trans with (2 ^ 15); [lia|]; apply Z.pow_le_mono_r; lia.
Qed.

(** The position of a pointer in the window is what the guest reads back from the
    message, in its point and in the two halves of lParam, for mouse moves and for
    buttons going down. *)
Theorem mouse_position_roundtrip {A : Arch} {H : Type} realloc code (mouse_state : H -> Z) (s : ev_state H) e x y :
  (exists t w st, e = EvMotion t w st x y) \/ (exists t w b, e = EvButton true t w b x y /\ is_Some (button_message true b)) ->
  rb_event_get_window_hwnd e s <> 0 -> 0 <= x < 2 ^ 15 -> - 2 ^ 15 <= y < 2 ^ 15 ->
  exists m, rb_event_translate_sdl_event realloc code mouse_state e s = Ret (Some m, s) /\
    hwnd m = rb_event_get_window_hwnd e s /\ pt_x m = x /\ pt_y m = y /\
    get_x_lparam (lParam m) = x /\ get_y_lparam (lParam m) = y.
Proof.
  intros He Hh Hx Hy. rewrite <- Z.eqb_neq in Hh.
  assert (Hl : get_x_lparam (point_lparam x y) = x /\ get_y_lparam (point_lparam x y) = y).
  { unfold get_x_lparam, get_y_lparam. rewrite lor_shifted_i32, !land_ones_16, Z.shiftr_div_pow2 by lia.
    split; width_lia. }
  unfold rb_event_translate_sdl_event. destruct He as [(t & w & st & ->)|(t & w & b & -> & (mm & Hb))].
  all: unfold rb_event_translate_window_or_mouse, rb_event_translate_mouse; rewrite Hh, ?Hb.
  all: eexists; (split; [reflexivity|]); simpl; tauto.
Qed.

(** *** Concrete inputs *)

Definition demo_routes : rb_state :=
  set_routes [mkRoute 7 1 3 9] (set_active 7 (set_windows {[1 := mkRbWindow 3 9 true false false]} demo_backend)).
Definition demo_ev : ev_state unit := mkEv demo_routes no_keys [] 0 tt.
Definition demo_key (t : Z) : SDL_KeyboardEvent := mkKeyEvent t 3 false SC_A (K_letter 0) false.

Lemma demo_ev_ok : ev_ok demo_ev.
Proof. split; [split|split|]; simpl; done || lia || (unfold synth_ok; simpl; lia). Qed.

Abbreviation quiet := (fun _ : unit => (@nil host_action, @None SDL_Event, tt)).

Lemma rb_event_wait_safe_witness :
  exists r s', rb_event_wait (A := arch64) always (fun _ => 0) (fun _ => 0) quiet 3 demo_ev = Ret (r, s') /\ ev_ok s'.
Proof.
  destruct (rb_event_wait_safe (A := arch64) always (fun _ => 0) (fun _ => 0) quiet 3 demo_ev demo_ev_ok)
    as (r & s' & E & Ho & _). exists r, s'. by split.
Defined.

Lemma key_events_delivered_once_witness :
  exists s2, translate_all (A := arch64) always (fun _ => 0) (fun _ => 0) [EvKey true (demo_key 5); EvKey false (demo_key 6)]
    (run_host (A := arch64) always (fun _ => 0) [HEvent (EvKey true (demo_key 5)); HEvent (EvKey false (demo_key 6))] demo_ev)
  = Ret ([], s2).
Proof.
  destruct (key_events_delivered_once (A := arch64) always (fun _ => 0) (fun _ => 0)
    [(true, demo_key 5); (false, demo_key 6)] demo_ev) as (_ & _ & _ & _ & s2 & E & _).
  - exact demo_ev_ok.
  - done.
  - apply Nat.leb_le. vm_compute. reflexivity.
  - exists s2. exact E.
Defined.

(** Without memory for its message a key is lost: the watch notes the key all the
    same, so that its delivery gives no message either. *)
Example key_lost_without_memory :
  let s1 := run_host (A := arch64) (fun _ => false) (fun _ => 0) [HEvent (EvKey true (demo_key 5))] demo_ev in
  synth (ev_rb s1) = synth (ev_rb demo_ev) /\ taken_keys (ev_rb demo_ev) [(true, demo_key 5)] <> [] /\
  exists s2, translate_all (A := arch64) (fun _ => false) (fun _ => 0) (fun _ => 0) [EvKey true (demo_key 5)] s1 = Ret ([], s2).
Proof. split; [vm_compute; reflexivity|]. split; [vm_compute; discriminate|]. eexists. vm_compute. reflexivity. Qed.

Lemma mouse_position_roundtrip_witness :
  exists m, rb_event_translate_sdl_event (A := arch64) always (fun _ => 0) (fun _ => 0) (EvMotion 1 3 0 20 (-4)) demo_ev
    = Ret (Some m, demo_ev) /\ get_y_lparam (lParam m) = -4.
Proof.
  destruct (mouse_position_roundtrip (A := arch64) always (fun _ => 0) (fun _ => 0) demo_ev (EvMotion 1 3 0 20 (-4)) 20 (-4))
    as (m & E & _ & _ & _ & _ & Hy).
  - left. eauto.
  - vm_compute. discriminate.
  - lia.
  - lia.
  - exists m. by split.
Defined.

(** A negative x, which a captured pointer left of the window has, overwrites the y
    of lParam. *)
Example negative_x_overwrites_y : get_y_lparam (point_lparam (-1) 20) = -1.
Proof. vm_compute. reflexivity. Qed.

(** A released button reports its y with the high bit set: a point in the window
    reads as one above it. *)
Example button_up_moves_y :
  exists m, rb_event_translate_sdl_event (A := arch64) always (fun _ => 0) (fun _ => 0) (EvButton false 1 3 1 20 30) demo_ev
    = Ret (Some m, demo_ev) /\ pt_y m = 30 /\ get_y_lparam (lParam m) = 30 - 2 ^ 15.
Proof. eexists. split; [vm_compute; reflexivity|]. by vm_compute. Qed.

(** The watch remembers 64 keys.  The 65th makes it forget the first, which is then
    delivered a second time. *)
Example key_65_is_delivered_twice :
  let ks := map (fun i => EvKey true (demo_key (Z.of_nat i))) (seq 0 65) in
  let s1 := run_host (A := arch64) always (fun _ => 0) (map HEvent ks) demo_ev in
  match translate_all (A := arch64) always (fun _ => 0) (fun _ => 0) ks s1 with
  | Ret ([m], _) => hwnd m = 7 /\ wParam m = 0x41 /\ length (synth (ev_rb s1)) = 65%nat
  | _ => False
  end.
Proof. vm_compute. done. Qed.
