(* ===== verification/Kernel32Path.v ===== *)
(** * Guest paths (src/msvcrt/kernel32_path.c)

    The current directory of the guest, the translation of DOS paths into host
    paths, the lookup that ignores case, and the file functions on top of them.
    A char array is the string it holds, and each byte that is written is checked
    against its size.  The host's file system is a parameter: [stat] says whether a
    path exists and is a directory, [readdir] lists the names of a directory. *)
From S2P Require Import Prelude Bytes CStr.

Definition SLASH : Z := 47.
Definition BACKSLASH : Z := 92.
Definition is_sep (c : Z) : bool := (c =? SLASH) || (c =? BACKSLASH).

Record wine_path_runtime_state := mkPathState { current_directory : cstr; path_initialized : bool }.

Definition wine_reset_current_directory_cache (st : wine_path_runtime_state) : wine_path_runtime_state :=
  mkPathState [] false.

(** The string an array of [dst_size] bytes holds afterwards. *)
Definition wine_copy_cstr (dst_size : Z) (src : cstr) : cstr :=
  if dst_size <=? syscall_safe_strlen src then take (Z.to_nat (dst_size - 1)) src else src.

(** Write one more byte into an array of [size] bytes. *)
Definition put (size : Z) (c : Z) (out : cstr) : outcome cstr :=
  if syscall_safe_strlen out <? size then Ret (out ++ [c]) else Fault.
(** Terminate the string. *)
Definition finish (size : Z) (out : cstr) : outcome cstr :=
  if syscall_safe_strlen out <? size then Ret out else Fault.

(** The components of a path: the parts between slashes, also the empty ones. *)
Fixpoint split_at (sep : Z) (cur : cstr) (p : cstr) : list cstr :=
  match p with
  | [] => [cur]
  | c :: p => if c =? sep then cur :: split_at sep [] p else split_at sep (cur ++ [c]) p
  end.

Section path.
(** g_loader.pe_path and getcwd. *)
Variable pe_path : cstr.
Variable getcwd : option cstr.
(** stat: [Some b] if the path exists, [b] if it is a directory. *)
Variable stat : cstr -> option bool.
Variable access_x : cstr -> bool.
(** opendir and readdir. *)
Variable readdir : cstr -> option (list cstr).
Variable mkdir : cstr -> Z.

Definition sizeof_path : Z := 1024.

Definition wine_init_process_directory (st : wine_path_runtime_state) : wine_path_runtime_state :=
  if path_initialized st then st
  else
    match pe_path, syscall_safe_strrchr pe_path SLASH with
    | _ :: _, Some len =>
        if len =? 0 then mkPathState [SLASH] true
        else
          let len := if sizeof_path <=? len then sizeof_path - 1 else len in
          let plain := mkPathState (take (Z.to_nat len) pe_path) true in
          if negb (chr pe_path =? SLASH) then
            match getcwd with
            | Some cwd =>
                let cwd := match last cwd with Some c => if c =? SLASH then removelast cwd else cwd | None => cwd end in
                if syscall_safe_strlen cwd + 1 + len <? sizeof_path
                then mkPathState (cwd ++ SLASH :: take (Z.to_nat len) pe_path) true else plain
            | None => plain
            end
          else plain
    | _, _ => mkPathState [46] true
    end.

Definition wine_get_current_directory (st : wine_path_runtime_state) : cstr * wine_path_runtime_state :=
  let st := wine_init_process_directory st in (current_directory st, st).

(** [src[0] != 0 && src[1] == ':'] *)
Definition has_drive (src : cstr) : bool := bool_decide (src !! 1%nat = Some 58).
Definition skip_one_sep (src : cstr) : cstr :=
  match src with c :: src' => if is_sep c then src' else src | [] => [] end.
(** Skip leading separators. *)
Fixpoint skip_seps (src : cstr) : cstr :=
  match src with c :: src' => if is_sep c then skip_seps src' else src | [] => [] end.

(** The copy of the rest of the path, a separator after another one left out. *)
Fixpoint resolve_loop (dst_size : Z) (src out : cstr) : cstr :=
  match src with
  | [] => out
  | c :: src =>
      if syscall_safe_strlen out + 1 <? dst_size then
        let ch := if c =? BACKSLASH then SLASH else c in
        if (ch =? SLASH) && bool_decide (last out = Some SLASH) then resolve_loop dst_size src out
        else resolve_loop dst_size src (out ++ [ch])
      else out
  end.

(** [Fail] is the return value 0. *)
Definition wine_resolve_path (src : option cstr) (dst_size : Z) (st : wine_path_runtime_state)
  : outcome (cstr * wine_path_runtime_state) :=
  match src with
  | None => Fail
  | Some src =>
      if dst_size <? 2 then Fail
      else
        let st := wine_init_process_directory st in
        '(src, out) ←
          (if has_drive src then out ← put dst_size SLASH []; Ret (skip_one_sep (drop 2 src), out)
           else if is_sep (chr src) then out ← put dst_size SLASH []; Ret (skip_seps src, out)
           else
             let out := take (Z.to_nat (dst_size - 1)) (current_directory st) in
             if bool_decide (last out = Some SLASH) then Ret (src, out)
             else out ← put dst_size SLASH out; Ret (src, out));
        out ← finish dst_size (resolve_loop dst_size src out);
        Ret (out, st)
  end.

Definition wine_set_current_directory (path : option cstr) (st : wine_path_runtime_state)
  : outcome (bool * wine_path_runtime_state) :=
  match wine_resolve_path path sizeof_path st with
  | Ret (resolved, st) =>
      if negb (bool_decide (stat resolved = Some true)) || negb (access_x resolved) then Ret (false, st)
      else Ret (true, mkPathState (wine_copy_cstr sizeof_path resolved) true)
  | Fail => Ret (false, st)
  | Fault => Fault
  end.

(** *** The lookup that ignores case *)

(** The loop over the components of the path. *)
Fixpoint lookup_loop (segments : list cstr) (current : cstr) : option cstr :=
  match segments with
  | [] => Some current
  | [] :: segments => lookup_loop segments current
  | wanted :: segments =>
      if 256 <=? syscall_safe_strlen wanted then None
      else
        entries ← readdir current;
        name ← snd <$> list_find (fun n => syscall_safe_strcasecmp n wanted = 0) entries;
        let current_len := syscall_safe_strlen current in
        if (1 <? current_len) && (sizeof_path <=? current_len + 1) then None
        else
          let current := if 1 <? current_len then current ++ [SLASH] else current in
          if sizeof_path <=? syscall_safe_strlen current + syscall_safe_strlen name then None
          else lookup_loop segments (current ++ name)
  end.

Definition wine_path_lookup_case_insensitive (path : cstr) (resolved_size : Z) : option cstr :=
  if resolved_size =? 0 then None
  else if bool_decide (is_Some (stat path)) then Some (wine_copy_cstr resolved_size path)
  else
    match path with
    | c :: rest =>
        if negb (c =? SLASH) then None
        else
          current ← lookup_loop (split_at SLASH [] rest) [SLASH];
          if bool_decide (is_Some (stat current)) then Some (wine_copy_cstr resolved_size current) else None
    | [] => None
    end.

(** *** Searching *)

Definition strrchr_tail (s : cstr) (c : Z) : option cstr :=
  (fun i => drop (Z.to_nat (i + 1)) s) <$> syscall_safe_strrchr s c.

Definition wine_build_search_candidate (directory filename extension : option cstr) (candidate_size : Z)
  : option cstr :=
  let base := default [] filename in
  dir ← match directory with
        | Some ((_ :: _) as d) =>
            if candidate_size <=? syscall_safe_strlen d then None
            else if negb (is_sep (default 0 (last d))) then
              if candidate_size <=? syscall_safe_strlen d + 1 then None else Some (d ++ [BACKSLASH])
            else Some d
        | _ => Some []
        end;
  if candidate_size <=? syscall_safe_strlen dir + syscall_safe_strlen base then None
  else
    let scan := match strrchr_tail base BACKSLASH with
                | Some s => s
                | None => match strrchr_tail base SLASH with Some s => s | None => base end
                end in
    let has_extension := bool_decide (is_Some (syscall_safe_strrchr scan 46)) in
    match extension with
    | Some ((_ :: _) as e) =>
        if has_extension then Some (dir ++ base)
        else if candidate_size <=? syscall_safe_strlen dir + syscall_safe_strlen base + syscall_safe_strlen e
        then None else Some (dir ++ base ++ e)
    | _ => Some (dir ++ base)
    end.

(** [None]: the return value 0. *)
Definition wine_search_existing_path (directory filename extension : option cstr) (st : wine_path_runtime_state)
  : outcome (option cstr * wine_path_runtime_state) :=
  match wine_build_search_candidate directory filename extension sizeof_path with
  | None => Ret (None, st)
  | Some candidate =>
      match wine_resolve_path (Some candidate) sizeof_path st with
      | Ret (unix_path, st) => Ret (wine_path_lookup_case_insensitive unix_path sizeof_path, st)
      | Fail => Ret (None, st)
      | Fault => Fault
      end
  end.

Definition INVALID_FILE_ATTRIBUTES : Z := 0xffffffff.
Definition FILE_ATTRIBUTE_DIRECTORY : Z := 0x10.
Definition FILE_ATTRIBUTE_NORMAL : Z := 0x80.

Definition GetFileAttributesA (lpFileName : option cstr) (st : wine_path_runtime_state)
  : outcome (Z * wine_path_runtime_state) :=
  match lpFileName with
  | None | Some [] => Ret (INVALID_FILE_ATTRIBUTES, st)
  | Some name =>
      match wine_resolve_path (Some name) sizeof_path st with
      | Fail => Ret (INVALID_FILE_ATTRIBUTES, st)
      | Fault => Fault
      | Ret (path, st) =>
          match wine_path_lookup_case_insensitive path sizeof_path with
          | None => Ret (INVALID_FILE_ATTRIBUTES, st)
          | Some resolved =>
              Ret (match stat resolved with
                   | None => INVALID_FILE_ATTRIBUTES
                   | Some true => FILE_ATTRIBUTE_DIRECTORY
                   | Some false => FILE_ATTRIBUTE_NORMAL
                   end, st)
          end
      end
  end.

Definition CreateDirectoryA (lpPathName : option cstr) (st : wine_path_runtime_state)
  : outcome (bool * wine_path_runtime_state) :=
  match wine_resolve_path lpPathName sizeof_path st with
  | Fail => Ret (false, st)
  | Fault => Fault
  | Ret (path, st) => Ret (mkdir path =? 0, st)
  end.

(** The loop over the directories of the search path. *)
Fixpoint search_segments (segments : list cstr) (file : cstr) (extension : option cstr) (st : wine_path_runtime_state)
  : outcome (option cstr * wine_path_runtime_state) :=
  match segments with
  | [] => Ret (None, st)
  | [] :: segments => search_segments segments file extension st
  | d :: segments =>
      '(r, st) ← wine_search_existing_path (Some d) (Some file) extension st;
      match (r : option cstr) with
      | Some r => Ret (Some r, st)
      | None => search_segments segments file extension st
      end
  end.

Definition find_in_path (lpPath : option cstr) (file : cstr) (extension : option cstr) (st : wine_path_runtime_state)
  : outcome (option cstr * wine_path_runtime_state) :=
  if bool_decide (is_Some (syscall_safe_strchr file BACKSLASH)) ||
     bool_decide (is_Some (syscall_safe_strchr file SLASH)) || has_drive file
  then wine_search_existing_path None (Some file) extension st
  else
    '(r, st) ← match lpPath with
               | Some ((_ :: _) as p) =>
                   search_segments (split_at 59 [] (wine_copy_cstr sizeof_path p)) file extension st
               | _ => Ret (None, st)
               end;
    match (r : option cstr) with
    | Some r => Ret (Some r, st)
    | None => wine_search_existing_path None (Some file) extension st
    end.

(** The return value, the caller's buffer and the offset written to *lpFilePart. *)
Definition SearchPathA (lpPath lpFileName lpExtension : option cstr) (nBufferLength : Z) (lpBuffer : option bytes)
    (st : wine_path_runtime_state) : outcome (Z * option bytes * option Z * wine_path_runtime_state) :=
  match lpFileName with
  | None => Ret (0, lpBuffer, None, st)
  | Some file =>
      '(r, st) ← find_in_path lpPath file lpExtension st;
      match (r : option cstr), lpBuffer with
      | None, _ => Ret (0, lpBuffer, None, st)
      | Some resolved, Some buf =>
          let len := syscall_safe_strlen resolved in
          if nBufferLength =? 0 then Ret (len, Some buf, None, st)
          else
            let len := if nBufferLength <? u32 (len + 1) then nBufferLength - 1 else len in
            buf ← store_bytes 0 (take (Z.to_nat len) resolved ++ [0]) buf;
            let part := match syscall_safe_strrchr (take (Z.to_nat len) resolved) SLASH with
                        | Some i => i + 1 | None => 0 end in
            Ret (len, Some buf, Some part, st)
      | Some resolved, None => Ret (syscall_safe_strlen resolved, None, None, st)
      end
  end.
End path.

(** ** Paths as lists of components *)

(** The components of a path that are not empty. *)
Definition parts (p : cstr) : list cstr := filter (fun s => s <> []) (split_at SLASH [] p).

Definition to_slash (c : Z) : Z := if c =? BACKSLASH then SLASH else c.
(** The components of a DOS path, which may use either separator. *)
Definition dos_parts (p : cstr) : list cstr := parts (map to_slash p).
Definition strip_drive (p : cstr) : cstr := if has_drive p then drop 2 p else p.
Definition is_absolute (p : cstr) : bool := has_drive p || is_sep (chr p).

Lemma split_at_app sep a : forall cur b, split_at sep cur (a ++ sep :: b) = split_at sep cur a ++ split_at sep [] b.
Proof.
  induction a as [|c a IH]; intros cur b; simpl; [by rewrite Z.eqb_refl|].
  destruct (c =? sep); [simpl; by rewrite IH|apply IH].
Qed.

Lemma parts_app a b : parts (a ++ SLASH :: b) = parts a ++ parts b.
Proof. unfold parts. by rewrite split_at_app, filter_app. Qed.

Lemma parts_slash b : parts (SLASH :: b) = parts b.
Proof. exact (parts_app [] b). Qed.

Lemma parts_trailing a : parts (a ++ [SLASH]) = parts a.
Proof. rewrite (parts_app a []). apply app_nil_r. Qed.

Lemma parts_double_slash a b : last a = Some SLASH -> parts (a ++ SLASH :: b) = parts (a ++ b).
Proof.
  intros [a' ->]%last_Some. rewrite parts_app, parts_trailing, <- (assoc_L (++)). simpl. by rewrite parts_app.
Qed.

Lemma split_at_no_sep s : forall cur, SLASH ∉ s -> split_at SLASH cur s = [cur ++ s].
Proof.
  induction s as [|c s IH]; intros cur Hs; simpl; [by rewrite app_nil_r|].
  apply not_elem_of_cons in Hs as [Hc Hs]. replace (c =? SLASH) with false by (unfold SLASH in *; lia).
  rewrite IH by done. by rewrite <- (assoc_L (++)).
Qed.

Lemma parts_name s : s <> [] -> SLASH ∉ s -> parts s = [s].
Proof. intros Hne Hs. unfold parts. rewrite split_at_no_sep by done. by rewrite filter_cons_True, filter_nil. Qed.

(** ** Resolving *)

Lemma resolve_loop_parts size src : forall out,
  syscall_safe_strlen out + syscall_safe_strlen src < size ->
  parts (resolve_loop size src out) = parts (out ++ map to_slash src) /\
  syscall_safe_strlen (resolve_loop size src out) < size.
Proof.
  unfold syscall_safe_strlen.
  induction src as [|c src IH]; intros out Hl; simpl in *; [rewrite app_nil_r; split; [done|lia]|].
  unfold syscall_safe_strlen. replace (Z.of_nat (length out) + 1 <? size) with true by lia. fold (to_slash c).
  destruct (to_slash c =? SLASH) eqn:Es; simpl.
  - apply Z.eqb_eq in Es. rewrite Es. case_bool_decide as Hla.
    + destruct (IH out) as [-> Hx]; [lia|]. by rewrite parts_double_slash.
    + destruct (IH (out ++ [SLASH])) as [-> Hx]; [rewrite length_app; simpl; lia|].
      split; [by rewrite <- (assoc_L (++))|done].
  - destruct (IH (out ++ [to_slash c])) as [-> Hx]; [rewrite length_app; simpl; lia|].
    split; [by rewrite <- (assoc_L (++))|done].
Qed.

Lemma resolve_loop_length size src : forall out,
  syscall_safe_strlen out < size -> syscall_safe_strlen (resolve_loop size src out) < size.
Proof.
  unfold syscall_safe_strlen.
  induction src as [|c src IH]; intros out Hl; simpl; [done|]. unfold syscall_safe_strlen.
  destruct (Z.ltb_spec (Z.of_nat (length out) + 1) size); [|done].
  case_match; apply IH; rewrite ?length_app; simpl; lia.
Qed.

Lemma resolve_loop_full size src out :
  size <= syscall_safe_strlen out + 1 -> resolve_loop size src out = out.
Proof. intros Hl. destruct src; simpl; [done|]. by replace (_ <? _) with false by lia. Qed.

Lemma resolve_loop_prefix size src : forall out, exists t, resolve_loop size src out = out ++ t.
Proof.
  induction src as [|c src IH]; intros out; simpl; [exists []; by rewrite app_nil_r|].
  case_match; [|exists []; by rewrite app_nil_r]. case_match; [apply IH|].
  destruct (IH (out ++ [if c =? BACKSLASH then SLASH else c])) as [t ->].
  eexists. by rewrite <- (assoc_L (++)).
Qed.

Lemma skip_seps_parts src : parts (map to_slash (skip_seps src)) = parts (map to_slash src).
Proof.
  induction src as [|c src IH]; [done|]. simpl. destruct (is_sep c) eqn:E; [|done].
  assert (to_slash c = SLASH) as -> by (unfold is_sep, to_slash, SLASH, BACKSLASH in *; by case_match; lia).
  by rewrite parts_slash.
Qed.

Lemma skip_seps_length src : (length (skip_seps src) <= length src)%nat.
Proof. induction src as [|c src IH]; simpl; [lia|]. case_match; simpl in *; lia. Qed.

Lemma skip_one_sep_parts src : parts (map to_slash (skip_one_sep src)) = parts (map to_slash src).
Proof.
  destruct src as [|c src]; [done|]. simpl. destruct (is_sep c) eqn:E; [|done]. simpl.
  assert (to_slash c = SLASH) as -> by (unfold is_sep, to_slash, SLASH, BACKSLASH in *; by case_match; lia).
  by rewrite parts_slash.
Qed.

(** The rest of the path the loop copies, and the prefix it copies it after. *)
Definition resolve_start (cwd src : cstr) (size : Z) : cstr * cstr :=
  if has_drive src then (skip_one_sep (drop 2 src), [SLASH])
  else if is_sep (chr src) then (skip_seps src, [SLASH])
  else
    let out := take (Z.to_nat (size - 1)) cwd in
    (src, if bool_decide (last out = Some SLASH) then out else out ++ [SLASH]).

Lemma resolve_path_unfold pe cwd0 src size st :
  2 <= size ->
  let st' := wine_init_process_directory pe cwd0 st in
  let '(rest, out) := resolve_start (current_directory st') src size in
  wine_resolve_path pe cwd0 (Some src) size st =
    (out ← finish size (resolve_loop size rest out); Ret (out, st')).
Proof.
  intros Hs st'. unfold wine_resolve_path, resolve_start, put. replace (size <? 2) with false by lia. fold st'.
  change (syscall_safe_strlen []) with 0. replace (0 <? size) with true by lia.
  destruct (has_drive src); [done|]. destruct (is_sep (chr src)); [done|].
  set (out := take (Z.to_nat (size - 1)) (current_directory st')).
  destruct (bool_decide _); [done|]. replace (syscall_safe_strlen out <? size) with true; [done|].
  symmetry. apply Z.ltb_lt. unfold syscall_safe_strlen, out. rewrite length_take. lia.
Qed.

Lemma finish_ok size out : syscall_safe_strlen out < size -> finish size out = Ret out.
Proof. intros H. unfold finish. by replace (_ <? _) with true by lia. Qed.

Lemma resolve_start_parts cwd src size :
  2 <= size -> syscall_safe_strlen cwd < size - 1 ->
  let '(rest, out) := resolve_start cwd src size in
  parts (out ++ map to_slash rest) = (if is_absolute src then [] else parts cwd) ++ dos_parts (strip_drive src) /\
  syscall_safe_strlen out + syscall_safe_strlen rest <= syscall_safe_strlen cwd + 1 + syscall_safe_strlen src /\
  (is_absolute src = true -> out = [SLASH]) /\ (is_absolute src = false -> exists t, out = cwd ++ t).
Proof.
  unfold syscall_safe_strlen. intros Hs Hc. unfold resolve_start, is_absolute, strip_drive, dos_parts.
  destruct (has_drive src).
  - cbn [orb app]. rewrite parts_slash, skip_one_sep_parts. split_and!; [done| |done|done].
    pose proof (length_drop src 2) as Hd. unfold skip_one_sep. destruct (drop 2 src); [simpl; lia|].
    case_match; simpl in *; lia.
  - destruct (is_sep (chr src)); cbn [orb app].
    + rewrite parts_slash, skip_seps_parts. split_and!; [done| |done|done].
      pose proof (skip_seps_length src). simpl. lia.
    + rewrite (take_ge cwd) by lia. case_bool_decide as Hl.
      * split_and!; [|lia|done|intros _; exists []; by rewrite app_nil_r].
        destruct (proj1 (last_Some _ _) Hl) as [c' ->]. rewrite <- (assoc_L (++)). simpl. by rewrite parts_app, parts_trailing.
      * rewrite length_app. simpl. split_and!; [|lia|done|by eexists].
        rewrite <- (assoc_L (++)). simpl. apply parts_app.
Qed.

Lemma resolve_path_spec pe_path getcwd src size st :
  let st' := wine_init_process_directory pe_path getcwd st in
  let cwd := current_directory st' in
  2 <= size -> syscall_safe_strlen cwd + 1 + syscall_safe_strlen src < size ->
  exists out, wine_resolve_path pe_path getcwd (Some src) size st = Ret (out, st') /\
    parts out = (if is_absolute src then [] else parts cwd) ++ dos_parts (strip_drive src) /\
    (if is_absolute src then chr out = SLASH else exists t, out = cwd ++ t).
Proof.
  intros st' cwd Hs Hl. pose proof (resolve_path_unfold pe_path getcwd src size st Hs) as Hu. cbv zeta in Hu. fold st' cwd in Hu.
  pose proof (resolve_start_parts cwd src size Hs) as Hp.
  destruct (resolve_start cwd src size) as [rest out]. destruct Hp as (Hp & Hlen & Ha & Hr);
    [unfold syscall_safe_strlen in *; lia|].
  destruct (resolve_loop_parts size rest out) as [Hq Hlt]; [lia|].
  rewrite Hu, finish_ok by done. eexists. split; [reflexivity|]. split; [by rewrite Hq|].
  destruct (resolve_loop_prefix size rest out) as [t ->]. destruct (is_absolute src).
  - by rewrite Ha.
  - destruct (Hr eq_refl) as [t' ->]. eexists. by rewrite <- (assoc_L (++)).
Qed.

(** C33: A guest path that fits in the buffer resolves to a host path with the same
    components: a path with a drive letter or a leading separator from the root,
    any other one from the current directory; both separators are understood. *)
Theorem wine_resolve_path_correct pe_path getcwd src size st :
  let st' := wine_init_process_directory pe_path getcwd st in
  let cwd := current_directory st' in
  2 <= size -> syscall_safe_strlen cwd + 1 + syscall_safe_strlen src < size ->
  exists out, wine_resolve_path pe_path getcwd (Some src) size st = Ret (out, st') /\
    parts out = (if is_absolute src then [] else parts cwd) ++ dos_parts (strip_drive src) /\
    (if is_absolute src then chr out = SLASH else exists t, out = cwd ++ t).
Proof. exact (resolve_path_spec pe_path getcwd src size st). Qed.

(** C35: wine_resolve_path writes past the end of its buffer exactly when a relative path
    meets a current directory that fills the buffer and does not end in a slash. *)
Theorem wine_resolve_path_overflows pe_path getcwd src size st :
  let cwd := current_directory (wine_init_process_directory pe_path getcwd st) in
  2 <= size ->
  wine_resolve_path pe_path getcwd (Some src) size st = Fault <->
  is_absolute src = false /\ size - 1 <= syscall_safe_strlen cwd /\ last (take (Z.to_nat (size - 1)) cwd) <> Some SLASH.
Proof.
  intros cwd Hs. pose proof (resolve_path_unfold pe_path getcwd src size st Hs) as Hu. cbv zeta in Hu. fold cwd in Hu.
  unfold resolve_start in Hu. unfold is_absolute.
  assert (Hok : forall rest out, syscall_safe_strlen out < size ->
    finish size (resolve_loop size rest out) = Ret (resolve_loop size rest out)).
  { intros. apply finish_ok. by apply resolve_loop_length. }
  assert (H1 : syscall_safe_strlen [SLASH] < size) by (unfold syscall_safe_strlen; simpl; lia).
  destruct (has_drive src); [rewrite Hu, Hok by done; split; [done|by intros [? _]]|].
  destruct (is_sep (chr src)); [rewrite Hu, Hok by done; split; [done|by intros [? _]]|].
  unfold syscall_safe_strlen in *. cbn [orb]. case_bool_decide as Hl.
  - rewrite Hu, Hok by (rewrite length_take; lia). split; [done|]. by intros (_ & _ & ?).
  - destruct (Z.le_gt_cases (size - 1) (Z.of_nat (length cwd))).
    + rewrite Hu. split; [done|]. intros _. rewrite resolve_loop_full;
        unfold syscall_safe_strlen; rewrite ?length_app, ?length_take; simpl; [|lia].
      unfold finish, syscall_safe_strlen. rewrite length_app, length_take. simpl.
      by rewrite (proj2 (Z.ltb_ge _ _)) by lia.
    + rewrite Hu, Hok by (rewrite length_app, length_take; simpl; lia). split; [done|]. intros (_ & ? & _). lia.
Qed.

(** ** The lookup that ignores case *)

Definition same_name (a b : cstr) : Prop := syscall_safe_strcasecmp a b = 0.
Definition join (cur n : cstr) : cstr :=
  (if 1 <? syscall_safe_strlen cur then cur ++ [SLASH] else cur) ++ n.

Section lookup.
Variable stat : cstr -> option bool.
Variable readdir : cstr -> option (list cstr).
(** readdir returns file names: not empty and without a slash. *)
Hypothesis readdir_names : forall d l, readdir d = Some l -> Forall (fun n => n <> [] /\ SLASH ∉ n) l.

Lemma parts_join cur n :
  chr cur = SLASH -> n <> [] -> SLASH ∉ n -> parts (join cur n) = parts cur ++ [n] /\ chr (join cur n) = SLASH.
Proof.
  intros Hc Hn Hs. unfold join, syscall_safe_strlen. destruct cur as [|c [|c' cur]]; [done| |]; simpl in Hc; subst c.
  - change (1 <? Z.of_nat (length [SLASH])) with false. simpl. rewrite parts_slash, parts_name by done. done.
  - rewrite (proj2 (Z.ltb_lt _ _)) by (simpl; lia).
    rewrite <- (assoc_L (++)). change ([SLASH] ++ n) with (SLASH :: n). rewrite parts_app, (parts_name n) by done. done.
Qed.

(** One round of the loop. *)
Lemma lookup_loop_cons wanted segs cur r :
  wanted <> [] ->
  lookup_loop readdir (wanted :: segs) cur = Some r ->
  exists l n, readdir cur = Some l /\ n ∈ l /\ same_name n wanted /\ lookup_loop readdir segs (join cur n) = Some r /\
    syscall_safe_strlen (join cur n) < sizeof_path.
Proof.
  intros Hw. destruct wanted as [|c w]; [done|]. cbn [lookup_loop].
  destruct (256 <=? _); [done|]. destruct (readdir cur) as [l|] eqn:El; [|done]. cbn [mbind option_bind].
  destruct (list_find _ l) as [[i n]|] eqn:Ef; [|done]. cbn [fmap option_fmap option_map mbind option_bind snd].
  destruct (_ && _); [done|]. destruct (Z.leb_spec sizeof_path (syscall_safe_strlen
    (if 1 <? syscall_safe_strlen cur then cur ++ [SLASH] else cur) + syscall_safe_strlen n)) as [|Hlt]; [done|]. intros Hr.
  apply list_find_Some in Ef as (Hi & Hn & _). exists l, n.
  split_and!; [done|by eapply list_elem_of_lookup_2|done|done|].
  unfold join. unfold syscall_safe_strlen in *. rewrite length_app. lia.
Qed.

Lemma lookup_loop_sound segs : forall cur r,
  chr cur = SLASH -> lookup_loop readdir segs cur = Some r ->
  exists ns, parts r = parts cur ++ ns /\ Forall2 same_name ns (filter (fun s => s <> []) segs) /\
    (syscall_safe_strlen cur < sizeof_path -> syscall_safe_strlen r < sizeof_path).
Proof.
  induction segs as [|w segs IH]; intros cur r Hc Hr.
  - injection Hr as <-. exists []. by rewrite app_nil_r.
  - destruct w as [|c w].
    + rewrite filter_cons_False by (by intros []). by apply IH.
    + apply lookup_loop_cons in Hr as (l & n & Hl & Hn & Hm & Hr & Hlt); [|done].
      pose proof (proj1 (Forall_forall _ _) (readdir_names _ _ Hl) n Hn) as [Hne Hs].
      destruct (parts_join cur n Hc Hne Hs) as [Hp Hc'].
      destruct (IH _ _ Hc' Hr) as (ns & Hpr & Hf & Hlr). exists (n :: ns).
      rewrite filter_cons_True by done. rewrite Hpr, Hp, <- (assoc_L (++)). split_and!; [done|by constructor|auto].
Qed.

(** The names of a walk through the directories from [cur] to [fin], where no two
    entries of a directory on the way differ only in case. *)
Inductive walk : cstr -> list cstr -> cstr -> Prop :=
| walk_nil cur : walk cur [] cur
| walk_cons cur l n ns fin :
    readdir cur = Some l -> n ∈ l -> (forall n', n' ∈ l -> same_name n' n -> n' = n) ->
    walk (join cur n) ns fin -> walk cur (n :: ns) fin.

Lemma walk_length cur ns fin : walk cur ns fin -> syscall_safe_strlen cur <= syscall_safe_strlen fin.
Proof.
  induction 1; [lia|]. unfold join, syscall_safe_strlen in *. rewrite length_app in *. case_match; rewrite ?length_app in *; lia.
Qed.

Lemma same_name_trans a b c : same_name a b -> same_name b c -> wf_cstr a -> wf_cstr b -> wf_cstr c -> same_name a c.
Proof. unfold same_name. intros H1 H2 Ha Hb Hc. rewrite strcasecmp_spec in * by done. congruence. Qed.

Hypothesis readdir_wf : forall d l, readdir d = Some l -> Forall wf_cstr l.

Lemma lookup_loop_complete segs : forall cur ns fin,
  walk cur ns fin -> Forall wf_cstr segs ->
  Forall2 same_name ns (filter (fun s => s <> []) segs) -> syscall_safe_strlen fin < sizeof_path ->
  Forall (fun s => syscall_safe_strlen s < 256) segs ->
  lookup_loop readdir segs cur = Some fin.
Proof.
  induction segs as [|w segs IH]; intros cur ns fin Hwk Hwf Hf Hlen Hsh.
  - rewrite filter_nil in Hf. inversion Hf; subst. by inversion Hwk; subst.
  - apply Forall_cons in Hsh as [Hsw Hsh]. apply Forall_cons in Hwf as [Hww Hwf]. destruct w as [|c w].
    + rewrite filter_cons_False in Hf by (by intros []). by apply (IH cur ns).
    + rewrite filter_cons_True in Hf by done. inversion Hf as [|n ? ns' ? Hnm Hf']; subst.
      inversion Hwk as [|? l ? ? ? Hl Hin Hu Hwk']; subst. cbn [lookup_loop].
      replace (256 <=? _) with false by lia. rewrite Hl. cbn [mbind option_bind].
      pose proof (proj1 (Forall_forall _ _) (readdir_wf _ _ Hl)) as Hwl.
      destruct (list_find (fun n => syscall_safe_strcasecmp n (c :: w) = 0) l) as [[i n']|] eqn:Ef.
      2: { exfalso. apply list_find_None in Ef. by apply (proj1 (Forall_forall _ _) Ef n Hin). }
      apply list_find_Some in Ef as (Hi & Hm & _). apply list_elem_of_lookup_2 in Hi.
      assert (n' = n) as ->.
      { apply Hu; [done|]. apply (same_name_trans _ (c :: w)); auto. unfold same_name in *.
        rewrite strcasecmp_spec in * by auto. by symmetry. }
      cbn [fmap option_fmap option_map mbind option_bind snd].
      pose proof (walk_length _ _ _ Hwk') as Hj. unfold join in Hj, Hwk'.
      set (cur' := if 1 <? syscall_safe_strlen cur then _ else _) in *.
      assert (Hcl : 1 < syscall_safe_strlen cur -> syscall_safe_strlen cur' = syscall_safe_strlen cur + 1).
      { intros Hgt. subst cur'. replace (1 <? _) with true by lia. unfold syscall_safe_strlen. rewrite length_app. simpl. lia. }
      assert (Hla : syscall_safe_strlen (cur' ++ n) = syscall_safe_strlen cur' + syscall_safe_strlen n)
        by (unfold syscall_safe_strlen; rewrite length_app; lia).
      assert (0 < syscall_safe_strlen n).
      { destruct (proj1 (Forall_forall _ _) (readdir_names _ _ Hl) n Hin) as [Hne _].
        destruct n; [done|]. unfold syscall_safe_strlen. simpl. lia. }
      replace ((1 <? _) && _) with false by lia. replace (sizeof_path <=? _) with false by lia.
      by apply (IH _ ns').
Qed.

(** A lookup that succeeds names an existing file whose components are those of the
    path up to case. *)
Lemma lookup_sound path r :
  syscall_safe_strlen path < sizeof_path ->
  wine_path_lookup_case_insensitive stat readdir path sizeof_path = Some r ->
  is_Some (stat r) /\ Forall2 same_name (parts r) (parts path) /\ syscall_safe_strlen r < sizeof_path.
Proof.
  intros Hp. unfold wine_path_lookup_case_insensitive. replace (sizeof_path =? 0) with false by done.
  assert (Hcopy : forall c, syscall_safe_strlen c < sizeof_path -> wine_copy_cstr sizeof_path c = c).
  { intros c Hc. unfold wine_copy_cstr. by replace (sizeof_path <=? _) with false by lia. }
  case_bool_decide as Hs.
  - rewrite Hcopy by done. intros [= <-]. split_and!; [done| |done]. clear. induction (parts path); constructor; [|done].
    unfold same_name. by rewrite strcasecmp_lower, strcmp_refl.
  - destruct path as [|c rest]; [done|]. destruct (negb _) eqn:Hc; [done|].
    assert (c = SLASH) as -> by (unfold SLASH in *; lia). intros H.
    destruct (lookup_loop readdir _ [SLASH]) as [cur|] eqn:El; [|done]. cbn [mbind option_bind] in H.
    case_bool_decide as Hst; [|done]. injection H as <-.
    destruct (lookup_loop_sound _ [SLASH] cur eq_refl El) as (ns & Hpn & Hf & Hl). rewrite parts_slash.
    specialize (Hl ltac:(done)). rewrite Hcopy by done. split_and!; [done| |done]. by rewrite Hpn.
Qed.

(** A file is found whatever case its path is spelled in: if the directories hold
    the names of the path up to case, without two entries that differ only in case,
    and the file they lead to exists, the lookup returns the path itself or the
    names as they are on the disk. *)
Theorem file_found_in_any_case path rest ns fin :
  path = SLASH :: rest -> syscall_safe_strlen path < sizeof_path -> Forall wf_cstr (split_at SLASH [] rest) ->
  walk [SLASH] ns fin -> is_Some (stat fin) ->
  Forall2 same_name ns (parts path) -> syscall_safe_strlen fin < sizeof_path ->
  Forall (fun s => syscall_safe_strlen s < 256) (split_at SLASH [] rest) ->
  exists r, wine_path_lookup_case_insensitive stat readdir path sizeof_path = Some r /\ is_Some (stat r) /\
    (r = path \/ r = fin).
Proof.
  intros -> Hp Hwf Hwk Hst Hf Hl Hsh. unfold wine_path_lookup_case_insensitive.
  replace (sizeof_path =? 0) with false by done. case_bool_decide as Hs.
  - eexists. split; [reflexivity|]. unfold wine_copy_cstr. replace (sizeof_path <=? _) with false by lia. auto.
  - rewrite parts_slash in Hf. change (negb (SLASH =? SLASH)) with false. cbn iota.
    rewrite (lookup_loop_complete _ _ ns fin) by done. cbn [mbind option_bind].
    rewrite bool_decide_eq_true_2 by done. eexists. split; [reflexivity|].
    unfold wine_copy_cstr. replace (sizeof_path <=? syscall_safe_strlen fin) with false by lia. auto.
Qed.
End lookup.

(** ** The file functions *)

Section files.
Variable pe_path : cstr.
Variable getcwd : option cstr.
Variable stat : cstr -> option bool.
Variable access_x : cstr -> bool.
Variable readdir : cstr -> option (list cstr).
Hypothesis readdir_names : forall d l, readdir d = Some l -> Forall (fun n => n <> [] /\ SLASH ∉ n) l.

Abbreviation init := (wine_init_process_directory pe_path getcwd).

Lemma init_initialized st : path_initialized (init st) = true.
Proof. unfold wine_init_process_directory. destruct (path_initialized st) eqn:E; [done|]. by repeat case_match. Qed.
Lemma init_idem st : init (init st) = init st.
Proof.
  pose proof (init_initialized st) as Hi. generalize dependent (init st). intros s Hi.
  unfold wine_init_process_directory. by rewrite Hi.
Qed.

(** The current directory leaves room for a separator and the terminator. *)
Definition roomy (st : wine_path_runtime_state) : Prop := syscall_safe_strlen (current_directory (init st)) < sizeof_path - 1.

Lemma roomy_init st : roomy st -> roomy (init st).
Proof. unfold roomy. by rewrite init_idem. Qed.

Lemma resolve_roomy src st :
  roomy st -> exists out, wine_resolve_path pe_path getcwd (Some src) sizeof_path st = Ret (out, init st) /\
    syscall_safe_strlen out < sizeof_path.
Proof.
  intros Hr. pose proof (resolve_path_unfold pe_path getcwd src sizeof_path st ltac:(unfold sizeof_path; lia)) as Hu.
  cbv zeta in Hu. destruct (resolve_start _ _ _) as [rest out] eqn:Es.
  assert (Hl : syscall_safe_strlen (resolve_loop sizeof_path rest out) < sizeof_path).
  { apply resolve_loop_length. unfold resolve_start, roomy, syscall_safe_strlen, sizeof_path in *.
    assert (Hone : Z.of_nat (length [SLASH]) < 1024) by done.
    destruct (has_drive src); [by simplify_eq|]. destruct (is_sep (chr src)); [by simplify_eq|].
    case_bool_decide; simplify_eq; rewrite ?length_app, length_take; cbn [length]; lia. }
  rewrite Hu, finish_ok by done. eauto.
Qed.

(** An attribute other than the error value is that of an existing file whose path
    has, up to case, the components of the name, taken from the root or from the
    current directory. *)
Theorem GetFileAttributesA_sound name st :
  roomy st -> name <> [] -> syscall_safe_strlen (current_directory (init st)) + 1 + syscall_safe_strlen name < sizeof_path ->
  exists attr, GetFileAttributesA pe_path getcwd stat readdir (Some name) st = Ret (attr, init st) /\
    (attr <> INVALID_FILE_ATTRIBUTES ->
     exists file dir, stat file = Some dir /\ attr = (if dir then FILE_ATTRIBUTE_DIRECTORY else FILE_ATTRIBUTE_NORMAL) /\
       Forall2 same_name (parts file)
         ((if is_absolute name then [] else parts (current_directory (init st))) ++ dos_parts (strip_drive name))).
Proof.
  intros Hr Hn Hl. unfold GetFileAttributesA. destruct name as [|c name]; [done|].
  destruct (resolve_path_spec pe_path getcwd (c :: name) sizeof_path st) as (out & E & Hp & _); [done|done|].
  destruct (resolve_roomy (c :: name) st Hr) as (out' & E' & Hlo). rewrite E in E'. injection E' as <-. rewrite E.
  destruct (wine_path_lookup_case_insensitive _ _ _ _) as [r|] eqn:El; [|by eexists].
  destruct (lookup_sound stat readdir readdir_names out r Hlo El) as (Hs & Hf & _).
  eexists. split; [reflexivity|]. intros Ha. destruct (stat r) as [dir|] eqn:Es; [|done].
  exists r, dir. rewrite Es, <- Hp. split_and!; [done|by destruct dir|done].
Qed.

(** Changing the current directory keeps it an existing directory, and leaves it
    unchanged when the call fails. *)
Lemma wine_set_current_directory_correct path st :
  roomy st ->
  exists ok st', wine_set_current_directory pe_path getcwd stat access_x path st = Ret (ok, st') /\
    if ok then stat (current_directory st') = Some true /\ syscall_safe_strlen (current_directory st') < sizeof_path
    else current_directory (init st') = current_directory (init st).
Proof.
  intros Hr. unfold wine_set_current_directory. destruct path as [src|]; [|by do 2 eexists].
  destruct (resolve_roomy src st Hr) as (out & -> & Hl). destruct (negb _ || negb _) eqn:E.
  - do 2 eexists. split; [reflexivity|]. cbn iota. by rewrite init_idem.
  - do 2 eexists. split; [reflexivity|]. simpl.
    assert (wine_copy_cstr sizeof_path out = out) as ->.
    { unfold wine_copy_cstr. by replace (sizeof_path <=? _) with false by lia. }
    apply orb_false_iff in E as [E _]. apply negb_false_iff, bool_decide_eq_true in E. done.
Qed.

Lemma search_existing_sound d f e st :
  roomy st ->
  exists r st', wine_search_existing_path pe_path getcwd stat readdir d f e st = Ret (r, st') /\
    init st' = init st /\ forall p, r = Some p -> is_Some (stat p) /\ syscall_safe_strlen p < sizeof_path.
Proof.
  intros Hr. unfold wine_search_existing_path. destruct (wine_build_search_candidate _ _ _ _) as [cand|]; [|by do 2 eexists].
  destruct (resolve_roomy cand st Hr) as (out & -> & Hl). do 2 eexists. split; [reflexivity|]. split; [apply init_idem|].
  intros p Hp. destruct (lookup_sound stat readdir readdir_names out p Hl Hp) as (? & _ & ?). done.
Qed.

Lemma roomy_same st st' : init st' = init st -> roomy st -> roomy st'.
Proof. unfold roomy. by intros ->. Qed.

Lemma search_segments_sound ds f e : forall st,
  roomy st ->
  exists r st', search_segments pe_path getcwd stat readdir ds f e st = Ret (r, st') /\
    init st' = init st /\ forall p, r = Some p -> is_Some (stat p) /\ syscall_safe_strlen p < sizeof_path.
Proof.
  induction ds as [|[|c d] ds IH]; intros st Hr; cbn [search_segments]; [by do 2 eexists|by apply IH|].
  destruct (search_existing_sound (Some (c :: d)) (Some f) e st Hr) as (r & st' & -> & Hi & Hp).
  cbn [mbind outcome_bind]. destruct r; [by eauto|].
  destruct (IH st' (roomy_same _ _ Hi Hr)) as (r & st2 & -> & Hi2 & Hp2). exists r, st2. by rewrite Hi2.
Qed.

Lemma find_in_path_sound lp f e st :
  roomy st ->
  exists r st', find_in_path pe_path getcwd stat readdir lp f e st = Ret (r, st') /\
    init st' = init st /\ forall p, r = Some p -> is_Some (stat p) /\ syscall_safe_strlen p < sizeof_path.
Proof.
  intros Hr. unfold find_in_path. destruct (_ || _ || _); [by apply search_existing_sound|].
  assert (Hs : exists r st', match lp with
    | Some ((_ :: _) as p) => search_segments pe_path getcwd stat readdir (split_at 59 [] (wine_copy_cstr sizeof_path p)) f e st
    | _ => Ret (None, st) end = Ret (r, st') /\
    init st' = init st /\ forall p, r = Some p -> is_Some (stat p) /\ syscall_safe_strlen p < sizeof_path).
  { destruct lp as [[|c p]|]; [by do 2 eexists|by apply search_segments_sound|by do 2 eexists]. }
  destruct Hs as (r & st' & -> & Hi & Hp). cbn [mbind outcome_bind]. destruct r; [by eauto|].
  destruct (search_existing_sound None (Some f) e st' (roomy_same _ _ Hi Hr)) as (r & st2 & -> & Hi2 & Hp2).
  exists r, st2. by rewrite Hi2.
Qed.

(** SearchPathA never writes outside of the caller's buffer: what it returns is
    shorter than the buffer, which then holds that many bytes of the path of an
    existing file and a terminator; a search that fails leaves the buffer alone. *)
Theorem SearchPathA_in_bounds lp f e n buf st :
  roomy st -> 0 < n < 2 ^ 32 -> blen buf = n ->
  exists len buf' part st', SearchPathA pe_path getcwd stat readdir lp (Some f) e n (Some buf) st
      = Ret (len, Some buf', part, st') /\ blen buf' = n /\
    ((len = 0 /\ buf' = buf /\ part = None) \/
     exists file, is_Some (stat file) /\ 0 <= len < n /\ len <= syscall_safe_strlen file /\
       take (Z.to_nat (len + 1)) buf' = take (Z.to_nat len) file ++ [0]).
Proof.
  intros Hr Hn Hb. unfold SearchPathA.
  destruct (find_in_path_sound lp f e st Hr) as (r & st' & -> & _ & Hp). cbn [mbind outcome_bind].
  destruct r as [file|]; [|do 4 eexists; split; [reflexivity|]; split; [done|by left]].
  destruct (Hp file eq_refl) as [Hs Hl]. replace (n =? 0) with false by lia.
  assert (0 <= syscall_safe_strlen file) by (unfold syscall_safe_strlen; lia).
  rewrite (wrap_small 32) by (unfold sizeof_path in *; lia).
  set (len := if n <? syscall_safe_strlen file + 1 then n - 1 else syscall_safe_strlen file).
  assert (Hlen : 0 <= len < n /\ len <= syscall_safe_strlen file) by (subst len; case_match; lia).
  clearbody len.
  assert (Hbl : blen (take (Z.to_nat len) file ++ [0]) = len + 1).
  { unfold blen, syscall_safe_strlen in *. rewrite length_app, length_take. simpl. lia. }
  rewrite (store_bytes_ok 0) by (apply in_range_spec; lia). cbn [mbind outcome_bind].
  do 4 eexists. split; [reflexivity|]. rewrite splice_0. split.
  - unfold blen in *. rewrite length_app, length_drop. lia.
  - right. exists file. split_and!; [done|lia|lia|lia|].
    unfold blen in Hbl. rewrite take_app_le by lia. apply take_ge. lia.
Qed.
End files.

(** *** Concrete inputs *)

Definition demo_readdir (d : cstr) : option (list cstr) :=
  if bool_decide (d = [SLASH]) then Some [lit "tmp"; lit "Games"]
  else if bool_decide (d = lit "/Games") then Some [lit "DOOM1.WAD"; lit "doom95.exe"] else None.
Definition demo_stat (p : cstr) : option bool :=
  if bool_decide (p = [SLASH]) || bool_decide (p = lit "/Games") || bool_decide (p = lit "/tmp") then Some true
  else if bool_decide (p = lit "/Games/DOOM1.WAD") || bool_decide (p = lit "/Games/doom95.exe") then Some false
  else None.
Definition demo_path_state : wine_path_runtime_state := mkPathState (lit "/Games") true.

Lemma demo_readdir_names : forall d l, demo_readdir d = Some l -> Forall (fun n => n <> [] /\ SLASH ∉ n) l.
Proof.
  intros d l. unfold demo_readdir.
  destruct (bool_decide (d = [SLASH])); [|destruct (bool_decide (d = lit "/Games")); [|done]]; intros [= <-].
  all: repeat (apply Forall_cons; split; [split; [done|]; by apply (bool_decide_unpack _); vm_compute|]); apply Forall_nil, I.
Qed.

Lemma wine_resolve_path_correct_witness :
  exists out, wine_resolve_path [] None (Some (lit "..\saves/a.dsg")) 1024 demo_path_state = Ret (out, demo_path_state) /\
    parts out = [lit "Games"; lit ".."; lit "saves"; lit "a.dsg"].
Proof.
  destruct (wine_resolve_path_correct [] None (lit "..\saves/a.dsg") 1024 demo_path_state) as (out & E & Hp & _);
    [lia|by vm_compute|]. exists out. split; [exact E|]. rewrite Hp. vm_compute. reflexivity.
Defined.

Lemma wine_resolve_path_overflows_witness :
  wine_resolve_path [] None (Some (lit "a")) 1024 (mkPathState (SLASH :: replicate 1022 97) true) = Fault.
Proof. apply wine_resolve_path_overflows; [lia|]. split_and!; [done|by vm_compute|by vm_compute]. Defined.

Lemma demo_readdir_wf : forall d l, demo_readdir d = Some l -> Forall wf_cstr l.
Proof.
  intros d l. unfold demo_readdir.
  destruct (bool_decide (d = [SLASH])); [|destruct (bool_decide (d = lit "/Games")); [|done]]; intros [= <-].
  all: repeat (apply Forall_cons; split; [by apply wf_cstrb_spec|]); apply Forall_nil, I.
Qed.

Lemma file_found_in_any_case_witness :
  exists r, wine_path_lookup_case_insensitive demo_stat demo_readdir (lit "/GAMES/doom1.wad") 1024 = Some r.
Proof.
  destruct (file_found_in_any_case demo_stat demo_readdir demo_readdir_names demo_readdir_wf (lit "/GAMES/doom1.wad")
    (lit "GAMES/doom1.wad") [lit "Games"; lit "DOOM1.WAD"] (lit "/Games/DOOM1.WAD")) as (r & E & _).
  - reflexivity.
  - by vm_compute.
  - repeat (apply Forall_cons; split; [by apply wf_cstrb_spec|]); apply Forall_nil, I.
  - apply walk_cons with [lit "tmp"; lit "Games"]; [reflexivity|by right; left| |].
    { intros n' [-> | [-> | []%not_elem_of_nil]%elem_of_cons]%elem_of_cons Hs; [by vm_compute in Hs|done]. }
    apply walk_cons with [lit "DOOM1.WAD"; lit "doom95.exe"]; [reflexivity|by left| |].
    { intros n' [-> | [-> | []%not_elem_of_nil]%elem_of_cons]%elem_of_cons Hs; [done|by vm_compute in Hs]. }
    apply walk_nil.
  - by eexists.
  - repeat (apply Forall2_cons; split; [by vm_compute|]). by apply Forall2_nil.
  - by vm_compute.
  - repeat (apply Forall_cons; split; [by vm_compute|]); apply Forall_nil, I.
  - exists r. exact E.
Defined.

Lemma GetFileAttributesA_sound_witness :
  exists attr, GetFileAttributesA [] None demo_stat demo_readdir (Some (lit "doom1.wad")) demo_path_state
    = Ret (attr, demo_path_state).
Proof.
  destruct (GetFileAttributesA_sound [] None demo_stat demo_readdir demo_readdir_names (lit "doom1.wad") demo_path_state)
    as (attr & E & _); [by vm_compute|done|by vm_compute|]. exists attr. exact E.
Defined.

Lemma SearchPathA_in_bounds_witness :
  exists len buf' part st', SearchPathA [] None demo_stat demo_readdir None (Some (lit "doom1")) (Some (lit ".wad")) 8
    (Some (replicate 8 1)) demo_path_state = Ret (len, Some buf', part, st') /\ blen buf' = 8.
Proof.
  destruct (SearchPathA_in_bounds [] None demo_stat demo_readdir demo_readdir_names None (lit "doom1") (Some (lit ".wad")) 8
    (replicate 8 1) demo_path_state) as (len & buf' & part & st' & E & Hb & _); [by vm_compute|lia|done|].
  exists len, buf', part, st'. by split.
Defined.

(** The first entry that matches up to case is taken: a file in the second of two
    directories whose names differ in case is not found. *)
Example lookup_takes_first_directory :
  let readdir d := if bool_decide (d = [SLASH]) then Some [lit "Data"; lit "DATA"]
                   else if bool_decide (d = lit "/DATA") then Some [lit "a"] else Some [] in
  let stat p := if bool_decide (p = lit "/DATA/a") then Some false else None in
  wine_path_lookup_case_insensitive stat readdir (lit "/DATA/A") 1024 = None.
Proof. vm_compute. reflexivity. Qed.
