(* ===== verification/Kernel32String.v ===== *)
(** * Strings of kernel32 (src/msvcrt/kernel32_string.c)

    The ANSI string functions and the conversions to and from 16-bit characters.
    The guest's buffers are lists of bytes or of 16-bit units; reading or writing
    outside of one is a fault. *)
From S2P Require Import Prelude Bytes CStr.

Definition lstrlenA (lpString : cstr) : Z := i32 (Z.of_nat (length lpString)).

(** [None] is a NULL pointer; the result is the destination buffer. *)
Definition lstrcpyA (dest : option bytes) (src : option cstr) : outcome (option bytes) :=
  match dest, src with
  | Some dest, Some src => b ← store_bytes 0 (src ++ [0]) dest; Ret (Some b)
  | _, _ => Ret None
  end.

Definition lstrcatA (dest : option bytes) (src : option cstr) : outcome (option bytes) :=
  match dest with
  | None => Ret None
  | Some dest =>
      match src with
      | None => Ret (Some dest)
      | Some src =>
          d ← deref (cstr_from dest);
          b ← store_bytes (Z.of_nat (length d)) (src ++ [0]) dest; Ret (Some b)
      end
  end.

(** The loop [for (i = 0; i < count; i++) out[i] = f(src[i])]. *)
Fixpoint convert_loop (f : Z -> Z) (todo i : nat) (src out : list Z) : outcome (list Z) :=
  match todo with
  | O => Ret out
  | S todo =>
      c ← deref (src !! i);
      _ ← deref (out !! i);
      convert_loop f todo (S i) src (<[i := f c]> out)
  end.

(** The length of a source given as -1: the string with its terminator. *)
Definition source_length (src : list Z) (n : Z) : outcome Z :=
  if n <? 0 then s ← deref (cstr_from src); Ret (Z.of_nat (length s) + 1) else Ret n.

Definition convert (f : Z -> Z) (src : option (list Z)) (n : Z) (out : option (list Z)) (size : Z)
  : outcome (Z * option (list Z)) :=
  match src with
  | None => Ret (0, out)
  | Some src =>
      n ← source_length src n;
      match out with
      | Some o =>
          if size =? 0 then Ret (n, out)
          else
            let count := if n <? size then n else size in
            o ← convert_loop f (Z.to_nat count) 0 src o;
            Ret (count, Some o)
      | None => Ret (n, out)
      end
  end.

Definition MultiByteToWideChar (lpMultiByteStr : option bytes) (cbMultiByteChar : Z)
    (lpWideCharStr : option (list Z)) (cchWideChar : Z) : outcome (Z * option (list Z)) :=
  convert u8 lpMultiByteStr cbMultiByteChar lpWideCharStr cchWideChar.

Definition narrow_char (ch : Z) : Z := if ch <=? 0xff then ch else 63.
Definition WideCharToMultiByte (code_page : Z) (lpWideCharStr : option (list Z)) (cchWideChar : Z)
    (lpMultiByteStr : option bytes) (cbMultiByteChar : Z) : outcome (Z * option bytes) :=
  if negb (code_page =? 0) && negb (code_page =? 1252) then Ret (0, lpMultiByteStr)
  else convert narrow_char lpWideCharStr cchWideChar lpMultiByteStr cbMultiByteChar.

(** ** Theorems *)

Lemma convert_loop_spec f todo : forall i src out,
  (i + todo <= length src)%nat -> (i + todo <= length out)%nat ->
  convert_loop f todo i src out = Ret (take i out ++ map f (take todo (drop i src)) ++ drop (i + todo) out).
Proof.
  induction todo as [|todo IH]; intros i src out Hs Ho; cbn [convert_loop].
  - rewrite Nat.add_0_r. simpl. by rewrite take_drop.
  - destruct (lookup_lt_is_Some_2 src i) as [c Hc]; [lia|]. destruct (lookup_lt_is_Some_2 out i) as [d Hd]; [lia|].
    rewrite Hc, Hd. cbn [deref mbind outcome_bind]. rewrite IH by (rewrite ?length_insert; lia).
    rewrite (drop_S src c i Hc). simpl. rewrite (take_S_r _ _ (f c)) by (apply list_lookup_insert_eq; lia).
    rewrite take_insert_ge by lia. rewrite drop_insert_lt by lia. rewrite <- (assoc_L (++)). simpl.
    by rewrite Nat.add_succ_r.
Qed.

Lemma convert_spec f src n out size :
  0 < n <= Z.of_nat (length src) -> 0 < size -> n <= size -> size = Z.of_nat (length out) ->
  convert f (Some src) n (Some out) size
  = Ret (n, Some (map f (take (Z.to_nat n) src) ++ drop (Z.to_nat n) out)).
Proof.
  intros Hn Hs Hle Ho. unfold convert, source_length. replace (n <? 0) with false by lia. cbn [mbind outcome_bind].
  replace (size =? 0) with false by lia.
  assert (Hcnt : (if n <? size then n else size) = n) by (destruct (Z.ltb_spec n size); lia).
  rewrite Hcnt, convert_loop_spec by lia. cbn [mbind outcome_bind]. simpl. by rewrite drop_0.
Qed.

Lemma convert_terminated f s rest out size :
  wf_cstr s -> size = Z.of_nat (length out) -> Z.of_nat (length s) < size ->
  convert f (Some (s ++ 0 :: rest)) (-1) (Some out) size
  = Ret (Z.of_nat (length s) + 1, Some (map f (s ++ [0]) ++ drop (S (length s)) out)).
Proof.
  intros Hwf Ho Hs.
  assert (Hc : convert f (Some (s ++ 0 :: rest)) (Z.of_nat (length s) + 1) (Some out) size
    = Ret (Z.of_nat (length s) + 1, Some (map f (s ++ [0]) ++ drop (S (length s)) out))).
  { rewrite convert_spec by (rewrite ?length_app; simpl; lia).
    replace (Z.to_nat (Z.of_nat (length s) + 1)) with (S (length s)) by lia. do 3 f_equal.
    replace (s ++ 0 :: rest) with ((s ++ [0]) ++ rest) by (by rewrite <- (assoc_L (++))).
    rewrite take_app_le by (rewrite length_app; simpl; lia). by rewrite take_ge by (rewrite length_app; simpl; lia). }
  rewrite <- Hc. unfold convert, source_length. change (-1 <? 0) with true. cbn iota.
  rewrite cstr_from_app by done. cbn [deref mbind outcome_bind].
  by replace (Z.of_nat (length s) + 1 <? 0) with false by lia.
Qed.

(** A string survives the way to 16-bit characters and back, with its terminator and
    with the lengths Windows documents, whatever characters it has; the bytes of the
    buffers after it are kept. *)
Theorem string_conversion_roundtrip s rest wide narrow :
  wf_cstr s -> (length s < length wide)%nat -> (length s < length narrow)%nat ->
  exists wide', MultiByteToWideChar (Some (s ++ 0 :: rest)) (-1) (Some wide) (Z.of_nat (length wide))
      = Ret (Z.of_nat (length s) + 1, Some wide') /\
    WideCharToMultiByte 0 (Some wide') (-1) (Some narrow) (Z.of_nat (length narrow))
      = Ret (Z.of_nat (length s) + 1, Some (s ++ 0 :: drop (S (length s)) narrow)).
Proof.
  intros Hwf Hw Hn. unfold MultiByteToWideChar, WideCharToMultiByte.
  assert (Hu : map u8 (s ++ [0]) = s ++ [0]).
  { rewrite map_app. f_equal. induction Hwf as [|c s Hc _ IH]; [done|]. simpl in *.
    rewrite IH by lia. by rewrite wrap_small by lia. }
  assert (Hnc : map narrow_char (s ++ [0]) = s ++ [0]).
  { rewrite map_app. f_equal. clear Hu. induction Hwf as [|c s Hc _ IH]; [done|]. simpl in *. rewrite IH by lia.
    unfold narrow_char. by replace (c <=? 255) with true by lia. }
  rewrite convert_terminated by (done || lia). rewrite Hu. eexists. split; [reflexivity|].
  change (negb (0 =? 0) && negb (0 =? 1252)) with false. cbn iota.
  rewrite <- (assoc_L (++)). cbn [app]. rewrite convert_terminated by (done || lia).
  rewrite Hnc, <- (assoc_L (++)). done.
Qed.

(** Concatenation appends the string after the one the buffer holds. *)
Lemma lstrcatA_correct a b rest :
  wf_cstr a -> (length b <= length rest)%nat ->
  exists rest', lstrcatA (Some (a ++ 0 :: rest)) (Some b) = Ret (Some ((a ++ b) ++ 0 :: rest')).
Proof.
  intros Ha Hl. unfold lstrcatA. rewrite cstr_from_app by done. cbn [deref mbind outcome_bind].
  rewrite store_bytes_ok by (apply in_range_spec; unfold blen; rewrite !length_app; simpl; lia).
  cbn [mbind outcome_bind]. exists (drop (length b) rest). do 2 f_equal. unfold splice. rewrite Nat2Z.id, take_app_length.
  rewrite <- !(assoc_L (++)). f_equal. f_equal. simpl. f_equal.
  rewrite drop_app_ge by (rewrite length_app; simpl; lia).
  replace (length a + length (b ++ [0%Z]) - length a)%nat with (S (length b)) by (rewrite length_app; simpl; lia). done.
Qed.

Lemma string_conversion_roundtrip_witness :
  exists w, WideCharToMultiByte 0 (Some w) (-1) (Some (replicate 8 7)) 8 = Ret (4, Some (lit "abc" ++ [0; 7; 7; 7; 7])).
Proof.
  destruct (string_conversion_roundtrip (lit "abc") [] (replicate 6 0) (replicate 8 7)) as (w & _ & E);
    [by apply wf_cstrb_spec|simpl; lia|simpl; lia|]. exists w. exact E.
Defined.
