(* ===== verification/FindFiles.v ===== *)
(** * Searching for files (src/msvcrt/launcher_kernel32_stubs.c, kernel32_file.c)

    FindFirstFileA, FindNextFileA and FindClose over the handle table and the
    directory streams of the host; the pointer to the find data is valid.  The two
    functions that look for files match names against the pattern in different ways;
    both are compared with a specification. *)
From S2P Require Import Prelude Bytes CStr HandleTable Kernel32Path.

Definition STAR : Z := 42.
Definition QUEST : Z := 63.
Definition fold (c : Z) : Z := Z.lor c 32.

(** ** The two matchers

    A text is read up to and including its terminator; nothing lies behind it. *)
Definition cur (t : bytes) : outcome Z := deref (head t).

(** The matcher of FindFirstFileA. *)
Fixpoint wildcard_match_ci (pattern : cstr) (text : bytes) {struct pattern} : outcome bool :=
  match pattern with
  | [] => x ← cur text; Ret (x =? 0)
  | c :: pattern =>
      if c =? STAR then
        match pattern with
        | [] => Ret true
        | _ :: _ =>
            (fix scan (text : bytes) : outcome bool :=
               match text with
               | [] => Fault
               | x :: text' =>
                   if x =? 0 then wildcard_match_ci pattern text
                   else
                     m ← wildcard_match_ci pattern text;
                     if (m : bool) then Ret true else scan text'
               end) text
        end
      else if c =? QUEST then
        x ← cur text;
        if x =? 0 then Ret false else wildcard_match_ci pattern (tail text)
      else
        x ← cur text;
        if negb (fold c =? fold x) then Ret false else wildcard_match_ci pattern (tail text)
  end.

(** [while ( *text != 0 && ( *pattern | 32) != ( *text | 32)) text++] *)
Fixpoint skip_to (c : Z) (text : bytes) : outcome bytes :=
  match text with
  | [] => Fault
  | x :: text' => if negb (x =? 0) && negb (fold c =? fold x) then skip_to c text' else Ret text
  end.
(** The loop of FindNextFileA: whether the pattern has matched, whether it has a star,
    and the rest of the text. *)
Fixpoint match_loop (pattern : cstr) (text : bytes) (star : bool) : outcome (bool * bool * bytes) :=
  match pattern with
  | [] => Ret (true, star, text)
  | c :: pattern =>
      if c =? STAR then
        match pattern with
        | [] => Ret (true, true, text)
        | c' :: _ => text ← skip_to c' text; match_loop pattern text true
        end
      else
        x ← cur text;
        if x =? 0 then Ret (false, star, text)
        else if negb (c =? QUEST) && negb (fold c =? fold x) then Ret (false, star, text)
        else match_loop pattern (tail text) star
  end.
Definition next_matches (pattern : cstr) (text : bytes) : outcome bool :=
  '(matched, star, text) ← match_loop pattern text false;
  if negb matched then Ret false
  else if (star : bool) then Ret true
  else x ← cur text; Ret (x =? 0).

(** ** Searches *)

Record wine_find_handle := mkFind { fh_dir : option (list cstr); fh_directory : cstr; fh_pattern : cstr; fh_exact_done : Z }.
Record WIN32_FIND_DATAA_WINE := mkFindData {
  dwFileAttributes : Z; nFileSizeHigh : Z; nFileSizeLow : Z; cFileName : cstr }.

Record find_state := mkFs {
  fs_handles : table; fs_finds : gmap nat wine_find_handle; fs_path : wine_path_runtime_state }.

(** snprintf of strings into an array of [size] bytes. *)
Definition snprintf (size : nat) (s : cstr) : cstr := take (size - 1) s.

Section search.
Context {A : Arch}.
Variable pe_path : cstr.
Variable getcwd : option cstr.
(** stat: whether the path is a directory, and its size. *)
Variable stat : cstr -> option (bool * Z).
(** opendir: the names that readdir will return. *)
Variable opendir : cstr -> option (list cstr).
Variable calloc : gmap nat wine_find_handle -> option nat.

Definition INVALID_HANDLE_VALUE : Z := usize (-1).

Definition find_data (st : bool * Z) (name : cstr) : WIN32_FIND_DATAA_WINE :=
  mkFindData (if st.1 then FILE_ATTRIBUTE_DIRECTORY else FILE_ATTRIBUTE_NORMAL) (u32 (Z.shiftr (u64 st.2) 32)) (u32 st.2) name.
Definition fill_find_data (resolved_path : cstr) (st : bool * Z) : WIN32_FIND_DATAA_WINE :=
  find_data st (snprintf 260 (default resolved_path (strrchr_tail resolved_path SLASH))).

(** [data] is left alone when nothing is found; the rest of the stream. *)
Fixpoint scan_dir (matches : cstr -> bytes -> outcome bool) (fill : cstr -> cstr -> bool * Z -> WIN32_FIND_DATAA_WINE)
    (find : wine_find_handle) (names : list cstr) : outcome (option WIN32_FIND_DATAA_WINE * list cstr) :=
  match names with
  | [] => Ret (None, [])
  | d_name :: names =>
      m ← matches (fh_pattern find) (d_name ++ [0]);
      if negb (m : bool) then scan_dir matches fill find names
      else
        let full_path := snprintf 1400 (fh_directory find ++ SLASH :: d_name) in
        match stat full_path with
        | None => scan_dir matches fill find names
        | Some st => Ret (Some (fill full_path d_name st), names)
        end
  end.
Definition set_dir (names : list cstr) (f : wine_find_handle) : wine_find_handle :=
  mkFind (Some names) (fh_directory f) (fh_pattern f) (fh_exact_done f).

Definition find_handle_next_match (find : wine_find_handle) : outcome (option WIN32_FIND_DATAA_WINE * wine_find_handle) :=
  match fh_dir find with
  | None => Ret (None, find)
  | Some names =>
      '(d, names) ← scan_dir wildcard_match_ci (fun full_path _ st => fill_find_data full_path st) find names;
      Ret (d, set_dir names find)
  end.

Definition store_find (h : table) (p : nat) (f : wine_find_handle) (s : find_state) : find_state :=
  mkFs h (<[p := f]> (fs_finds s)) (fs_path s).

Definition is_wild (name : cstr) : bool := bool_decide (STAR ∈ name) || bool_decide (QUEST ∈ name).

Definition FindFirstFileA (lpFileName : option cstr) (s : find_state) : outcome (Z * option WIN32_FIND_DATAA_WINE * find_state) :=
  match wine_resolve_path pe_path getcwd lpFileName 1024 (fs_path s) with
  | Fault => Fault
  | Fail => Ret (INVALID_HANDLE_VALUE, None, s)
  | Ret (resolved, path) =>
      let s := mkFs (fs_handles s) (fs_finds s) path in
      match calloc (fs_finds s) with
      | None => Ret (INVALID_HANDLE_VALUE, None, s)
      | Some p =>
          if is_wild (default [] lpFileName) then
            match syscall_safe_strrchr resolved SLASH with
            | None => Ret (INVALID_HANDLE_VALUE, None, s)
            | Some slash =>
                let directory := snprintf 1024 (take (Z.to_nat slash) resolved) in
                let pattern := snprintf 260 (drop (Z.to_nat (slash + 1)) resolved) in
                match opendir directory with
                | None => Ret (INVALID_HANDLE_VALUE, None, s)
                | Some names =>
                    '(d, find) ← find_handle_next_match (mkFind (Some names) directory pattern 0);
                    match d with
                    | None => Ret (INVALID_HANDLE_VALUE, None, s)
                    | Some _ =>
                        '(t, handle) ← wine_handle_alloc HANDLE_TYPE_HGLOBAL (OFind p) (fs_handles s);
                        if u32 handle =? 0 then Ret (INVALID_HANDLE_VALUE, d, s)
                        else Ret (u32 handle, d, store_find t p find s)
                    end
                end
            end
          else
            match stat resolved with
            | None => Ret (INVALID_HANDLE_VALUE, None, s)
            | Some st =>
                let d := fill_find_data resolved st in
                '(t, handle) ← wine_handle_alloc HANDLE_TYPE_HGLOBAL (OFind p) (fs_handles s);
                if u32 handle =? 0 then Ret (INVALID_HANDLE_VALUE, Some d, s)
                else Ret (u32 handle, Some d, store_find t p (mkFind None (snprintf 1024 resolved) [] 1) s)
            end
      end
  end.

Definition FindNextFileA (hFindFile : Z) (s : find_state) : outcome (bool * option WIN32_FIND_DATAA_WINE * find_state) :=
  let handle := u32 hFindFile in
  type ← wine_handle_get_type handle (fs_handles s);
  if negb (type =? HANDLE_TYPE_HGLOBAL) then Ret (false, None, s)
  else
    o ← wine_handle_get handle (fs_handles s);
    match (o : object) with
    | ONull => Ret (false, None, s)
    | OFind p =>
        find ← deref (fs_finds s !! p);
        match fh_dir find with
        | None => Ret (false, None, s)
        | Some names =>
            '(d, names) ← scan_dir next_matches (fun _ d_name st => find_data st (snprintf 260 d_name)) find names;
            Ret (bool_decide (is_Some d), d, store_find (fs_handles s) p (set_dir names find) s)
        end
    | _ => Fault
    end.

Definition FindClose (hFindFile : Z) (s : find_state) : outcome (bool * find_state) :=
  let handle := u32 hFindFile in
  type ← wine_handle_get_type handle (fs_handles s);
  if negb (type =? HANDLE_TYPE_HGLOBAL) then Ret (false, s)
  else
    o ← wine_handle_get handle (fs_handles s);
    finds ← (match (o : object) with
             | ONull => Ret (fs_finds s)
             | OFind p => _ ← deref (fs_finds s !! p); Ret (delete p (fs_finds s))
             | _ => Fault
             end);
    t ← wine_handle_free handle (fs_handles s);
    Ret (true, mkFs t finds (fs_path s)).

(** *** A guest that lists files

    It asks for the next file until there is none, and closes the search. *)
Fixpoint find_rest (fuel : nat) (h : Z) (s : find_state) : outcome (list WIN32_FIND_DATAA_WINE * find_state) :=
  match fuel with
  | O => Fail
  | S fuel =>
      '(ok, d, s) ← FindNextFileA h s;
      match ok : bool, d : option WIN32_FIND_DATAA_WINE with
      | true, Some d => '(l, s) ← find_rest fuel h s; Ret (d :: l, s)
      | _, _ => Ret ([], s)
      end
  end.
Definition list_files (fuel : nat) (name : cstr) (s : find_state) : outcome (list WIN32_FIND_DATAA_WINE * find_state) :=
  '(h, d, s) ← FindFirstFileA (Some name) s;
  match d with
  | Some d =>
      if h =? INVALID_HANDLE_VALUE then Ret ([], s)
      else '(l, s) ← find_rest fuel h s; '(_, s) ← FindClose h s; Ret (d :: l, s)
  | None => Ret ([], s)
  end.
End search.

(** ** What a pattern means *)

Definition lower (c : Z) : Z := if (65 <=? c) && (c <=? 90) then c + 32 else c.
(** Equality up to the case of letters. *)
Definition same (c x : Z) : Prop := lower c = lower x.

(** A star stands for any text, a question mark for one character, any other character
    for itself in either case. *)
Inductive Matches : cstr -> cstr -> Prop :=
| M_end : Matches [] []
| M_star p t1 t2 : Matches p t2 -> Matches (STAR :: p) (t1 ++ t2)
| M_any p x t : Matches p t -> Matches (QUEST :: p) (x :: t)
| M_char c p x t : c <> STAR -> c <> QUEST -> same c x -> Matches p t -> Matches (c :: p) (x :: t).

(** The files that FindNextFileA returns: a star stands for the text up to the first
    character that is the one behind the star (a question mark there is taken for
    itself), and behind a star the end of the text need not be reached. *)
Inductive Accepts : bool -> cstr -> cstr -> Prop :=
| A_end (star : bool) t : star = true \/ t = [] -> Accepts star [] t
| A_last star t : Accepts star [STAR] t
| A_star star c p t1 t2 : Forall (fun x => ~ same c x) t1 -> (forall x, head t2 = Some x -> same c x) ->
    Accepts true (c :: p) t2 -> Accepts star (STAR :: c :: p) (t1 ++ t2)
| A_any star p x t : Accepts star p t -> Accepts star (QUEST :: p) (x :: t)
| A_char star c p x t : c <> STAR -> c <> QUEST -> same c x -> Accepts star p t -> Accepts star (c :: p) (x :: t).

Definition wf_name (t : cstr) : Prop := Forall (fun x => 0 < x < 256) t.

(** Two characters that the code takes for each other, although they are not the two
    cases of a letter: ^ and ~, [ and {. *)
Definition confused (c x : Z) : bool := (fold c =? fold x) && negb (lower c =? lower x).
Definition clear_of (p t : cstr) : Prop := forall c x, c ∈ p -> x ∈ t -> confused c x = false.
(** The text is what the pattern means up to one of its blanks: the matcher takes the
    blank for the terminator. *)
Definition ends_at_blank (p t : cstr) : Prop := exists p1 p2, p = p1 ++ 32 :: p2 /\ Matches p1 t.
Record unambiguous (p t : cstr) : Prop := { un_clear : clear_of p t; un_blank : ~ ends_at_blank p t }.

Lemma clear_of_cons c p x t : clear_of (c :: p) (x :: t) -> confused c x = false /\ clear_of p (x :: t) /\ clear_of (c :: p) t /\ clear_of p t.
Proof. intros H. split_and!; [apply H; by left|..]; intros c' x' Hc Hx; apply H; by (done || right). Qed.
Lemma clear_of_pattern c p t : clear_of (c :: p) t -> clear_of p t.
Proof. intros H c' x' Hc Hx. apply H; [by right|done]. Qed.
Lemma clear_of_text p t1 t2 : clear_of p (t1 ++ t2) -> clear_of p t2.
Proof. intros H c x Hc Hx. apply H; [done|]. apply elem_of_app. by right. Qed.
Lemma same_fold c x : confused c x = false -> same c x -> fold c = fold x.
Proof.
  intros _ Hs. unfold same, lower in Hs. assert (Hl : forall y, 65 <= y <= 90 -> fold y = y + 32).
  { intros y Hy. assert (forallb (fun y => fold y =? y + 32) (seqZ 65 26) = true) as Hf by (vm_compute; reflexivity).
    rewrite forallb_forall in Hf. apply Z.eqb_eq, Hf, list_elem_of_In, elem_of_seqZ. lia. }
  assert (Hu : forall y, fold (fold y) = fold y) by (intros y; unfold fold; by rewrite <- Z.lor_assoc).
  destruct ((65 <=? c) && (c <=? 90)) eqn:Ec, ((65 <=? x) && (x <=? 90)) eqn:Ex.
  - rewrite !Hl; lia.
  - rewrite <- Hs, <- (Hl c), Hu by lia. done.
  - rewrite Hs, <- (Hl x), Hu by lia. done.
  - by rewrite Hs.
Qed.
Lemma fold_same c x : confused c x = false -> fold c = fold x <-> same c x.
Proof.
  intros Hc. split; [|by apply same_fold]. unfold confused in Hc. intros E. rewrite E, Z.eqb_refl in Hc. unfold same. cbn in Hc. lia.
Qed.
Lemma fold_terminator c : 0 < c < 256 -> fold c = fold 0 -> c = 32.
Proof.
  intros Hc E. assert (forallb (fun y => negb (fold y =? fold 0) || (y =? 32)) (seqZ 1 255) = true) as Hf by (vm_compute; reflexivity).
  rewrite forallb_forall in Hf. specialize (Hf c). rewrite E in Hf. apply Z.eqb_eq, Hf, list_elem_of_In, elem_of_seqZ. lia.
Qed.

Lemma wildcard_star c p t : wildcard_match_ci (STAR :: c :: p) t =
  match t with
  | [] => Fault
  | x :: t' => if x =? 0 then wildcard_match_ci (c :: p) t
      else m ← wildcard_match_ci (c :: p) t; if (m : bool) then Ret true else wildcard_match_ci (STAR :: c :: p) t'
  end.
Proof. by destruct t. Qed.

Lemma star_cons p x t : Matches (STAR :: p) (x :: t) <-> Matches p (x :: t) \/ Matches (STAR :: p) t.
Proof.
  split.
  - inversion 1 as [|p' t1 t2 H1| |]; simplify_eq. destruct t1 as [|y t1]; simplify_eq/=; [by left|right]. by constructor.
  - intros [H|H]; [by apply (M_star p [])|]. inversion H as [|p' t1 t2 H1| |]; simplify_eq. by apply (M_star p (x :: t1)).
Qed.
Lemma star_nil p : Matches (STAR :: p) [] <-> Matches p [].
Proof.
  split; [|by apply (M_star p [] [])]. inversion 1 as [|p' t1 t2 H1 E1 E2| |]; simplify_eq. by destruct t1; simplify_eq/=.
Qed.

Lemma blank_star p t1 t2 : ~ ends_at_blank (STAR :: p) (t1 ++ t2) -> ~ ends_at_blank p t2.
Proof. intros H (p1 & p2 & -> & Hm). apply H. exists (STAR :: p1), p2. split; [done|]. by constructor. Qed.
Lemma blank_star_cons p x t : ~ ends_at_blank (STAR :: p) (x :: t) -> ~ ends_at_blank (STAR :: p) t.
Proof.
  intros H (p1 & p2 & E & Hm). destruct p1 as [|c p1]; simplify_eq/=. apply H. exists (STAR :: p1), p2. split; [done|].
  apply star_cons. by right.
Qed.

(** The matcher of FindFirstFileA: it reads no further than the terminator and finds
    exactly the texts that the pattern means. *)
Lemma wildcard_spec p : wf_name p -> forall t, wf_name t -> clear_of p t -> ~ ends_at_blank p t ->
  exists b, wildcard_match_ci p (t ++ [0]) = Ret b /\ (b = true <-> Matches p t).
Proof.
  induction p as [|c p IH]; intros Hp t Ht Hcl Hb.
  { exists (bool_decide (t = [])). split.
    - destruct t as [|x t]; [done|]. apply Forall_cons in Ht as [Hx _]. cbn. by rewrite (proj2 (Z.eqb_neq x 0)) by lia.
    - rewrite bool_decide_eq_true. split; [intros ->; constructor|by inversion 1]. }
  apply Forall_cons in Hp as [Hc Hp]. specialize (IH Hp).
  destruct (decide (c = STAR)) as [->|Hs].
  { destruct p as [|c' p].
    { exists true. split; [done|]. split; [|done]. intros _. rewrite <- (app_nil_r t). repeat constructor. }
    induction t as [|x t IHt].
    - destruct (IH [] ltac:(constructor) ltac:(by eapply clear_of_pattern) (blank_star _ [] _ Hb)) as (b & E & Hb').
      exists b. rewrite star_nil, <- Hb'. by rewrite wildcard_star.
    - pose proof Ht as Ht'. apply Forall_cons in Ht as [Hx Ht].
      destruct (IH _ Ht' (clear_of_pattern _ _ _ Hcl) (blank_star _ [] _ Hb)) as (b & E & Hm).
      destruct (IHt Ht (blank_star_cons _ _ _ Hb) (clear_of_text _ [x] _ Hcl)) as (b' & E' & Hm').
      rewrite wildcard_star. cbn [app]. rewrite (proj2 (Z.eqb_neq x 0)) by lia. cbn [app] in E. rewrite E. cbn [mbind outcome_bind].
      destruct b; [exists true|exists b'; rewrite E']; (split; [done|]); rewrite star_cons, <- Hm, <- ?Hm'; naive_solver. }
  cbn [wildcard_match_ci]. rewrite (proj2 (Z.eqb_neq c STAR)) by done.
  destruct (Z.eqb_spec c QUEST) as [->|Hq]; destruct t as [|x t].
  - exists false. split; [done|]. split; [done|]. by inversion 1.
  - apply Forall_cons in Ht as [Hx Ht]. destruct (IH _ Ht) as (b & E & Hm); [by apply (clear_of_cons _ _ _ _ Hcl)| |].
    { intros (p1 & p2 & -> & Hm). apply Hb. exists (QUEST :: p1), p2. split; [done|]. by constructor. }
    exists b. cbn. rewrite (proj2 (Z.eqb_neq x 0)) by lia. split; [done|]. rewrite Hm. split; [by constructor|]. by inversion 1.
  - exists false. cbn [app cur head deref mbind outcome_bind]. destruct (Z.eqb_spec (fold c) (fold 0)) as [E|E].
    { destruct Hb. apply fold_terminator in E as ->; [|done]. exists [], p. split; [done|constructor]. }
    split; [done|]. split; [done|]. inversion 1; simplify_eq.
  - apply Forall_cons in Ht as [Hx Ht]. destruct (clear_of_cons _ _ _ _ Hcl) as (Hcx & _ & _ & Hcl').
    cbn. destruct (Z.eqb_spec (fold c) (fold x)) as [Ef|Ef]; cbn; rewrite (fold_same c x Hcx) in Ef.
    + destruct (IH _ Ht Hcl') as (b & E & Hm).
      { intros (p1 & p2 & -> & Hm). apply Hb. exists (c :: p1), p2. split; [done|]. by constructor. }
      exists b. split; [done|]. rewrite Hm. split; [by constructor|]. by inversion 1.
    + exists false. split; [done|]. split; [done|]. by inversion 1; simplify_eq.
Qed.

(** The split of a text before the first character that is [c]. *)
Definition split_first (c : Z) (t1 t2 : cstr) : Prop :=
  Forall (fun x => ~ same c x) t1 /\ forall x, head t2 = Some x -> same c x.

Lemma split_first_unique c t1 t2 : forall u1 u2, split_first c t1 t2 -> split_first c u1 u2 -> t1 ++ t2 = u1 ++ u2 -> t1 = u1 /\ t2 = u2.
Proof.
  induction t1 as [|x t1 IH]; intros [|y u1] u2 [Ht Ht2] [Hu Hu2] E; simplify_eq/=; try done.
  - apply Forall_cons in Hu as [Hu _]. destruct (Hu (Ht2 y eq_refl)).
  - apply Forall_cons in Ht as [Ht _]. destruct (Ht (Hu2 x eq_refl)).
  - apply Forall_cons in Ht as [_ Ht]. apply Forall_cons in Hu as [_ Hu].
    destruct (IH u1 u2) as [-> ->]; done.
Qed.

Lemma skip_to_spec c t : wf_name t -> (forall x, x ∈ t -> confused c x = false) ->
  exists t1 t2, t = t1 ++ t2 /\ skip_to c (t ++ [0]) = Ret (t2 ++ [0]) /\ split_first c t1 t2.
Proof.
  induction t as [|x t IH]; intros Ht Hcl; [exists [], []; repeat split; done|].
  apply Forall_cons in Ht as [Hx Ht]. cbn [app skip_to]. rewrite (proj2 (Z.eqb_neq x 0)) by lia. cbn [negb andb].
  destruct (Z.eqb_spec (fold c) (fold x)) as [E|E]; cbn [negb]; rewrite (fold_same c x (Hcl x (list_elem_of_here _ _))) in E.
  - exists [], (x :: t). split_and!; try done. split; [done|]. by intros ? [= <-].
  - destruct (IH Ht) as (t1 & t2 & -> & Es & [H1 H2]); [intros y Hy; apply Hcl; by right|]. exists (x :: t1), t2. split_and!; [done|done|]. split; [by constructor|done].
Qed.

Definition accepted (r : outcome (bool * bool * bytes)) : outcome bool :=
  '(matched, star, text) ← r;
  if negb matched then Ret false else if (star : bool) then Ret true else x ← cur text; Ret (x =? 0).

Lemma wf_app t1 t2 : wf_name (t1 ++ t2) <-> wf_name t1 /\ wf_name t2.
Proof. apply Forall_app. Qed.

(** The matcher of FindNextFileA finds exactly the texts that [Accepts] describes. *)
Lemma match_loop_spec p : forall t star, wf_name t -> clear_of p t ->
  exists b, accepted (match_loop p (t ++ [0]) star) = Ret b /\ (b = true <-> Accepts star p t).
Proof.
  induction p as [|c p IH]; intros t star Ht Hcl.
  { exists (star || bool_decide (t = [])). split.
    - destruct star; [done|]. destruct t as [|x t]; [done|]. apply Forall_cons in Ht as [Hx _]. cbn.
      by rewrite (proj2 (Z.eqb_neq x 0)) by lia.
    - rewrite orb_true_iff, bool_decide_eq_true. split; [by constructor|by inversion 1]. }
  destruct (decide (c = STAR)) as [->|Hs].
  { destruct p as [|c p].
    { exists true. split; [by destruct t|]. split; [|done]. constructor. }
    destruct (skip_to_spec c t Ht) as (t1 & t2 & -> & E & Hsp).
    { intros x Hx. apply (clear_of_pattern _ _ _ Hcl); [by left|done]. }
    apply wf_app in Ht as [_ Ht2].
    destruct (IH t2 true Ht2 (clear_of_text _ _ _ (clear_of_pattern _ _ _ Hcl))) as (b & Eb & Hb). exists b. cbn [match_loop Z.eqb Pos.eqb STAR]. rewrite E. split; [exact Eb|]. rewrite Hb.
    split; [intros H; destruct Hsp; by constructor|].
    inversion 1 as [| |? ? ? u1 u2 Hu1 Hu2 Ha Eq1 Eq2 Eq3| |]; simplify_eq.
    by destruct (split_first_unique c u1 u2 t1 t2) as [-> ->]. }
  cbn [match_loop]. rewrite (proj2 (Z.eqb_neq c STAR)) by done.
  destruct t as [|x t].
  { exists false. split; [done|]. split; [done|]. by inversion 1. }
  apply Forall_cons in Ht as [Hx Ht]. cbn [app cur head deref mbind outcome_bind tail]. rewrite (proj2 (Z.eqb_neq x 0)) by lia.
  destruct (clear_of_cons _ _ _ _ Hcl) as (Hcx & _ & _ & Hcl'). destruct (IH t star Ht Hcl') as (b & Eb & Hb).
  destruct (Z.eqb_spec c QUEST) as [->|Hq]; cbn [negb andb].
  - exists b. split; [done|]. rewrite Hb. split; [by constructor|]. by inversion 1.
  - destruct (Z.eqb_spec (fold c) (fold x)) as [Ef|Ef]; cbn [negb]; rewrite (fold_same c x Hcx) in Ef.
    + exists b. split; [done|]. rewrite Hb. split; [by constructor|]. by inversion 1.
    + exists false. split; [done|]. split; [done|]. by inversion 1; simplify_eq.
Qed.
Lemma next_spec p t : wf_name t -> clear_of p t -> exists b, next_matches p (t ++ [0]) = Ret b /\ (b = true <-> Accepts false p t).
Proof. apply match_loop_spec. Qed.

(** For a pattern without stars both matchers find the same files. *)
Lemma accepts_without_star p : STAR ∉ p -> forall t, Accepts false p t <-> Matches p t.
Proof.
  induction p as [|c p IH]; intros Hp t.
  - split; inversion 1; [|constructor; by right]. naive_solver constructor.
  - apply not_elem_of_cons in Hp as [Hc Hp]. split; inversion 1; simplify_eq; constructor; try done; by apply (IH Hp).
Qed.
(** For a pattern *c..., the literal text must follow the first [c]. *)
Lemma accepts_literal p t star : STAR ∉ p -> QUEST ∉ p -> Accepts star p t <->
  exists t1 t2, t = t1 ++ t2 /\ Forall2 same p t1 /\ (star = true \/ t2 = []).
Proof.
  revert t. induction p as [|c p IH]; intros t Hs Hq.
  - split; [inversion 1; exists [], t; naive_solver|]. intros (t1 & t2 & -> & H & E). inversion H. by constructor.
  - apply not_elem_of_cons in Hs as [Hc Hs]. apply not_elem_of_cons in Hq as [Hc' Hq]. split.
    + inversion 1 as [| | | |? ? ? x t' _ _ Hx Ha]; simplify_eq. apply IH in Ha as (t1 & t2 & -> & H1 & H2); [|done..].
      exists (x :: t1), t2. split_and!; [done|by constructor|done].
    + intros (t1 & t2 & -> & H & E). inversion H as [|? x ? t1' Hx H']; simplify_eq. cbn [app]. constructor; try done. apply IH; [done..|]. eauto.
Qed.

(** ** Listing files *)

Lemma strrchr_from_spec s1 s2 c : c <> 0 -> c ∉ s2 -> forall i acc,
  strrchr_from i acc (s1 ++ c :: s2) c = Some (i + Z.of_nat (length s1)).
Proof.
  intros Hc Hn. assert (H : forall i acc, strrchr_from i acc s2 c = acc).
  { clear s1. induction s2 as [|x s2 IH]; intros i acc; cbn [strrchr_from]; [by rewrite (proj2 (Z.eqb_neq 0 c)) by done|].
    apply not_elem_of_cons in Hn as [Hx Hn]. rewrite (proj2 (Z.eqb_neq x c)) by done. by apply IH. }
  induction s1 as [|x s1 IH]; intros i acc; cbn [app strrchr_from length].
  - rewrite Z.eqb_refl, H. f_equal. lia.
  - rewrite IH. f_equal. lia.
Qed.
Lemma strrchr_slash s1 s2 : SLASH ∉ s2 -> syscall_safe_strrchr (s1 ++ SLASH :: s2) SLASH = Some (Z.of_nat (length s1)).
Proof. intros Hn. unfold syscall_safe_strrchr. by apply (strrchr_from_spec s1 s2 SLASH). Qed.
Lemma drop_behind {X} (l1 l2 : list X) x : drop (Z.to_nat (Z.of_nat (length l1) + 1)) (l1 ++ x :: l2) = l2.
Proof. replace (Z.to_nat (Z.of_nat (length l1) + 1)) with (length l1 + 1)%nat by lia. by rewrite drop_app_add. Qed.

Lemma snprintf_fits n s : (length s < n)%nat -> snprintf n s = s.
Proof. intros H. unfold snprintf. apply take_ge. lia. Qed.

Record name_ok (n : cstr) : Prop := { no_wf : wf_name n; no_slash : SLASH ∉ n; no_length : (length n <= 255)%nat }.

(** The members of a list that satisfy [Q], in order. *)
Inductive picks (Q : cstr -> Prop) : list cstr -> list cstr -> Prop :=
| picks_nil : picks Q [] []
| picks_take n l r : Q n -> picks Q l r -> picks Q (n :: l) (n :: r)
| picks_skip n l r : ~ Q n -> picks Q l r -> picks Q (n :: l) r.

Lemma picks_none Q l1 l2 r : Forall (fun n => ~ Q n) l1 -> picks Q l2 r -> picks Q (l1 ++ l2) r.
Proof. induction 1; [done|]. intros. by apply picks_skip; auto. Qed.
Lemma picks_iff Q Q' l r : (forall n, Q n <-> Q' n) -> picks Q l r -> picks Q' l r.
Proof. intros H. induction 1; [constructor|apply picks_take|apply picks_skip]; naive_solver. Qed.

Section listing.
Context {A : Arch}.
Variable pe_path : cstr.
Variable getcwd : option cstr.
Variable stat : cstr -> option (bool * Z).
Variable opendir : cstr -> option (list cstr).
Variable calloc : gmap nat wine_find_handle -> option nat.
Hypothesis calloc_fresh : forall m p, calloc m = Some p -> m !! p = None.

(** The files of a directory that exist and satisfy [P]. *)
Definition found (P : cstr -> Prop) (dir n : cstr) : Prop := P n /\ is_Some (stat (dir ++ SLASH :: n)).
Definition entry_data (dir n : cstr) : WIN32_FIND_DATAA_WINE := find_data (default (false, 0) (stat (dir ++ SLASH :: n))) n.

Lemma scan_dir_spec matches fill P f names :
  (forall n, n ∈ names -> exists b, matches (fh_pattern f) (n ++ [0]) = Ret b /\ (b = true <-> P n)) ->
  (forall n st, name_ok n -> fill (fh_directory f ++ SLASH :: n) n st = find_data st n) ->
  (length (fh_directory f) < 1024)%nat -> Forall name_ok names ->
  (exists l1 n l2, names = l1 ++ n :: l2 /\ Forall (fun m => ~ found P (fh_directory f) m) l1 /\ found P (fh_directory f) n /\
     scan_dir stat matches fill f names = Ret (Some (entry_data (fh_directory f) n), l2)) \/
  (Forall (fun m => ~ found P (fh_directory f) m) names /\ scan_dir stat matches fill f names = Ret (None, [])).
Proof.
  intros HP Hf Hd Hns. induction Hns as [|n names Hn _ IH]; [by right|]. cbn [scan_dir].
  destruct (HP n (list_elem_of_here _ _)) as (b & -> & Hb). specialize (IH (fun m Hm => HP m (list_elem_of_further _ _ _ Hm))). cbn [mbind outcome_bind].
  rewrite (snprintf_fits 1400) by (rewrite length_app; cbn [length]; pose proof (no_length n Hn); lia).
  assert (Hskip : ~ found P (fh_directory f) n ->
    (exists l1 n0 l2, n :: names = l1 ++ n0 :: l2 /\ Forall (fun m => ~ found P (fh_directory f) m) l1 /\ found P (fh_directory f) n0 /\
       scan_dir stat matches fill f names = Ret (Some (entry_data (fh_directory f) n0), l2)) \/
    (Forall (fun m => ~ found P (fh_directory f) m) (n :: names) /\ scan_dir stat matches fill f names = Ret (None, []))).
  { intros Hno. destruct IH as [(l1 & x & l2 & -> & H1 & H2 & E)|[H E]]; [left|right; by split; [constructor|]].
    exists (n :: l1), x, l2. split_and!; [done|by constructor|done|done]. }
  destruct b; cbn [negb]; [destruct (stat (fh_directory f ++ SLASH :: n)) as [st|] eqn:Es|].
  - left. exists [], n, names. split_and!; [done|constructor|split; [by apply Hb|by rewrite Es]|].
    rewrite Hf by done. unfold entry_data. by rewrite Es.
  - apply Hskip. intros [_ Hs]. rewrite Es in Hs. by destruct Hs.
  - apply Hskip. intros [Hp _]. by apply Hb in Hp.
Qed.

(** One call of FindNextFileA on an open search. *)
Lemma FindNextFileA_open s st k p f names : represents (fs_handles s) st -> (3 <= k < 512)%nat ->
  st !! k = Some (mkEntry HANDLE_TYPE_HGLOBAL (OFind p) 1) -> fs_finds s !! p = Some f -> fh_dir f = Some names ->
  FindNextFileA stat (Z.of_nat k) s =
    ('(d, names) ← scan_dir stat next_matches (fun _ d_name st => find_data st (snprintf 260 d_name)) f names;
     Ret (bool_decide (is_Some d), d, store_find (fs_handles s) p (set_dir names f) s)).
Proof.
  intros R Hk Es Ef Ed. unfold FindNextFileA. rewrite wrap_small by lia.
  destruct (get_entry _ _ _ _ _ _ R Es) as [-> ->]; [lia|]. cbn [mbind outcome_bind]. rewrite Z.eqb_refl. cbn [negb].
  rewrite Ef. cbn [deref mbind outcome_bind]. by rewrite Ed.
Qed.

Lemma find_rest_spec st k p dir pat e : forall fuel s names, represents (fs_handles s) st -> (3 <= k < 512)%nat ->
  st !! k = Some (mkEntry HANDLE_TYPE_HGLOBAL (OFind p) 1) -> (length dir < 1024)%nat ->
  fs_finds s !! p = Some (mkFind (Some names) dir pat e) -> Forall name_ok names -> Forall (clear_of pat) names ->
  (length names < fuel)%nat ->
  exists r, find_rest stat fuel (Z.of_nat k) s
    = Ret (entry_data dir <$> r, mkFs (fs_handles s) (<[p := mkFind (Some []) dir pat e]> (fs_finds s)) (fs_path s)) /\
    picks (found (Accepts false pat) dir) names r.
Proof.
  induction fuel as [|fuel IH]; intros s names R Hk Es Hd Ef Hn Hcl Hl; [lia|]. cbn [find_rest].
  rewrite (FindNextFileA_open _ _ _ _ _ _ R Hk Es Ef eq_refl).
  destruct (scan_dir_spec next_matches (fun _ d_name st => find_data st (snprintf 260 d_name)) (Accepts false pat)
    (mkFind (Some names) dir pat e) names) as [(l1 & n & l2 & -> & H1 & H2 & ->)|[H ->]]; try done.
  - intros n Hin. rewrite Forall_forall in Hn, Hcl. apply next_spec; [by apply Hn|by apply Hcl].
  - intros n st' Hok. rewrite snprintf_fits; [done|]. pose proof (no_length n Hok). lia.
  - cbn [mbind outcome_bind]. rewrite bool_decide_true by by eexists. cbn [set_dir fh_directory fh_pattern fh_exact_done].
    apply Forall_app in Hn as [_ Hn]. apply Forall_cons in Hn as [_ Hn]. rewrite length_app in Hl. cbn [length] in Hl.
    apply Forall_app in Hcl as [_ Hcl]. apply Forall_cons in Hcl as [_ Hcl].
    destruct (IH (store_find (fs_handles s) p (mkFind (Some l2) dir pat e) s) l2) as (r & Er & Hr); try done; [..|unfold set_dir; cbn [fh_directory fh_pattern fh_exact_done]; rewrite Er].
    { cbn. by rewrite lookup_insert_eq. } { lia. }
    cbn [mbind outcome_bind]. exists (n :: r). cbn. rewrite insert_insert_eq. split; [done|].
    apply picks_none; [done|]. by apply picks_take.
  - cbn [mbind outcome_bind]. rewrite bool_decide_false by (by intros []). exists []. split; [done|].
    rewrite <- (app_nil_r names). apply picks_none; [done|constructor].
Qed.

Lemma FindClose_open s st k p f : represents (fs_handles s) st -> (3 <= k < 512)%nat ->
  st !! k = Some (mkEntry HANDLE_TYPE_HGLOBAL (OFind p) 1) -> fs_finds s !! p = Some f ->
  exists t, FindClose (Z.of_nat k) s = Ret (true, mkFs t (delete p (fs_finds s)) (fs_path s)) /\ represents t (delete k st).
Proof.
  intros R Hk Es Ef. unfold FindClose. rewrite wrap_small by lia.
  destruct (get_entry _ _ _ _ _ _ R Es) as [-> ->]; [lia|]. cbn [mbind outcome_bind]. rewrite Z.eqb_refl. cbn [negb].
  rewrite Ef. cbn [deref mbind outcome_bind]. destruct (free_entry _ _ _ _ _ R Es Hk) as (t & -> & Rt). by exists t.
Qed.

(** A file that is named: one call finds it, and there is no next one. *)
Lemma list_named_file name s st path dir pat p k fuel :
  represents (fs_handles s) st -> (3 <= k < 512)%nat -> st !! k = None -> is_wild name = false ->
  wine_resolve_path pe_path getcwd (Some name) 1024 (fs_path s) = Ret (dir ++ SLASH :: pat, path) ->
  SLASH ∉ pat -> (length pat < 260)%nat -> calloc (fs_finds s) = Some p ->
  exists t, list_files pe_path getcwd stat opendir calloc (S fuel) name s
      = Ret (entry_data dir <$> (if stat (dir ++ SLASH :: pat) is Some _ then [pat] else []), mkFs t (fs_finds s) path) /\ represents t st.
Proof.
  intros R Hk Hf Hw Er Hsl Hpl Hp. unfold list_files, FindFirstFileA. rewrite Er. cbn [fs_finds fs_handles]. rewrite Hp.
  cbn [default from_option id]. rewrite Hw. destruct (stat (dir ++ SLASH :: pat)) as [e|] eqn:Es; [|by exists (fs_handles s)].
  destruct (alloc_succeeds HANDLE_TYPE_HGLOBAL (OFind p) _ _ k R Hk Hf) as (k' & t' & Hk' & Hf' & -> & R').
  cbn [mbind outcome_bind]. rewrite wrap_small by lia. rewrite (proj2 (Z.eqb_neq _ 0)) by lia. cbn [mbind outcome_bind].
  assert (Hi : Z.of_nat k' <> INVALID_HANDLE_VALUE) by (unfold INVALID_HANDLE_VALUE, usize, ptr_bits; destruct is_my_wine32; vm_compute (wrap _ _); lia).
  rewrite (proj2 (Z.eqb_neq _ _) Hi). set (f := mkFind None _ [] 1). set (s1 := store_find _ _ _ _).
  assert (E1 : fs_finds s1 !! p = Some f) by (cbn; by rewrite lookup_insert_eq).
  assert (Hnext : FindNextFileA stat (Z.of_nat k') s1 = Ret (false, None, s1)).
  { unfold FindNextFileA. rewrite wrap_small by lia. change (fs_handles s1) with t'.
    destruct (get_entry _ _ _ _ _ _ R' (lookup_insert_eq _ _ _)) as [-> ->]; [lia|]. cbn [mbind outcome_bind]. rewrite Z.eqb_refl.
    cbn [negb]. rewrite E1. done. }
  cbn [find_rest]. rewrite Hnext. cbn [mbind outcome_bind].
  destruct (FindClose_open s1 _ k' p f R' Hk' (lookup_insert_eq _ _ _) E1) as (t & -> & Rt).
  cbn [mbind outcome_bind]. exists t. rewrite delete_insert_id in Rt by done. split; [|done].
  unfold s1. cbn. rewrite delete_insert_id by (by apply calloc_fresh). do 3 f_equal.
  unfold entry_data, fill_find_data, strrchr_tail. rewrite Es, strrchr_slash by done.
  cbn [fmap option_fmap option_map default from_option id]. by rewrite drop_behind, snprintf_fits.
Qed.

(** C34: Listing the files of a pattern, from the first to the last, in a directory that can
    be read and with memory and a free handle, gives names of files that exist,
    in the order of the directory: the first is the first that the pattern
    means, the others are those behind it that FindNextFileA accepts; when the pattern
    has no star they are exactly the files that it means.  A name without a wildcard
    lists this file when it exists.  Afterwards the handle and the memory of the search
    are free again.  The patterns are unambiguous on the names of the directory: no name
    has a character that setting bit 5 makes equal to another one of the pattern, and
    none is what the pattern means up to a blank. *)
Theorem list_files_correct name s st path dir pat names p k :
  represents (fs_handles s) st -> (3 <= k < 512)%nat -> st !! k = None ->
  wine_resolve_path pe_path getcwd (Some name) 1024 (fs_path s) = Ret (dir ++ SLASH :: pat, path) ->
  SLASH ∉ pat -> wf_name pat -> (length dir < 1024)%nat -> (length pat < 260)%nat -> Forall (unambiguous pat) names ->
  opendir dir = Some names -> Forall name_ok names -> calloc (fs_finds s) = Some p ->
  exists l t, list_files pe_path getcwd stat opendir calloc (S (length names)) name s
      = Ret (entry_data dir <$> l, mkFs t (fs_finds s) path) /\ represents t st /\
    if is_wild name then
      (Forall (fun n => ~ found (Matches pat) dir n) names /\ l = [] \/
       exists l1 n l2 r, names = l1 ++ n :: l2 /\ l = n :: r /\ Forall (fun n => ~ found (Matches pat) dir n) l1 /\
         found (Matches pat) dir n /\ picks (found (Accepts false pat) dir) l2 r) /\
      (STAR ∉ pat -> picks (found (Matches pat) dir) names l)
    else l = if stat (dir ++ SLASH :: pat) is Some _ then [pat] else [].
Proof.
  intros R Hk Hf Er Hsl Hpw Hdl Hpl Hb Hop Hns Hp. destruct (is_wild name) eqn:Hw.
  2: { destruct (list_named_file name s st path dir pat p k (length names)) as (t & E & Rt); try done. by eexists _, t. }
  pose proof Hns as Hns0. rewrite Forall_forall in Hns0. pose proof Hb as Hb0. rewrite Forall_forall in Hb0.
  assert (Hw' : forall n, n ∈ names -> exists b, wildcard_match_ci pat (n ++ [0]) = Ret b /\ (b = true <-> Matches pat n)).
  { intros n Hn. apply wildcard_spec; [done|by apply Hns0|by apply Hb0..]. }
  unfold list_files, FindFirstFileA. rewrite Er. cbn [fs_finds fs_handles]. rewrite Hp. cbn [default from_option id]. rewrite Hw.
  rewrite strrchr_slash by done. rewrite drop_behind, Nat2Z.id, take_app_length, !snprintf_fits by done. rewrite Hop.
  unfold find_handle_next_match. cbn [fh_dir].
  destruct (scan_dir_spec wildcard_match_ci (fun full_path _ st => fill_find_data full_path st) (Matches pat)
    (mkFind (Some names) dir pat 0) names Hw') as [(l1 & n & l2 & -> & H1 & H2 & ->)|[H ->]]; try done.
  - intros n st' Hok. cbn [fh_directory]. unfold fill_find_data, strrchr_tail. rewrite strrchr_slash by apply Hok.
    cbn [fmap option_fmap option_map default from_option id]. rewrite drop_behind, snprintf_fits; [done|].
    pose proof (no_length n Hok). lia.
  - cbn [mbind outcome_bind set_dir fh_directory fh_pattern fh_exact_done].
    destruct (alloc_succeeds HANDLE_TYPE_HGLOBAL (OFind p) _ _ k R Hk Hf) as (k' & t' & Hk' & Hf' & -> & R').
    cbn [mbind outcome_bind]. rewrite wrap_small by lia. rewrite (proj2 (Z.eqb_neq _ 0)) by lia. cbn [mbind outcome_bind].
    assert (Hi : Z.of_nat k' <> INVALID_HANDLE_VALUE) by (unfold INVALID_HANDLE_VALUE, usize, ptr_bits; destruct is_my_wine32; vm_compute (wrap _ _); lia).
    rewrite (proj2 (Z.eqb_neq _ _) Hi).
    apply Forall_app in Hns as [_ Hns]. apply Forall_cons in Hns as [_ Hns]. set (s1 := store_find _ _ _ _).
    assert (Hcl : Forall (clear_of pat) l2).
    { apply Forall_app in Hb as [_ Hb]. apply Forall_cons in Hb as [_ Hb]. eapply Forall_impl; [exact Hb|]. by intros n' [??]. }
    assert (E1 : fs_finds s1 !! p = Some (mkFind (Some l2) dir pat 0)) by (cbn; by rewrite lookup_insert_eq).
    destruct (find_rest_spec (<[k' := mkEntry HANDLE_TYPE_HGLOBAL (OFind p) 1]> st) k' p dir pat 0 (S (length (l1 ++ n :: l2))) s1 l2 R' Hk'
      ltac:(by rewrite lookup_insert_eq) Hdl E1 Hns Hcl) as (r & -> & Hr); [rewrite length_app; cbn; lia|].
    cbn [mbind outcome_bind]. edestruct (FindClose_open (mkFs (fs_handles s1) (<[p := mkFind (Some []) dir pat 0]> (fs_finds s1)) (fs_path s1)))
      as (t & -> & Rt); [exact R'|exact Hk'|by rewrite lookup_insert_eq|cbn; by rewrite lookup_insert_eq|].
    cbn [mbind outcome_bind]. exists (n :: r), t. rewrite delete_insert_id in Rt by done. split_and!; [|done| |].
    + do 3 f_equal. unfold s1. cbn. by rewrite insert_insert_eq, delete_insert_id by (by apply calloc_fresh).
    + right. by exists l1, n, l2, r.
    + intros Hst. apply picks_none; [done|]. apply picks_take; [done|]. eapply picks_iff; [|exact Hr].
      intros m. unfold found. by rewrite accepts_without_star.
  - cbn [mbind outcome_bind]. exists [], (fs_handles s). split_and!; [done|done|by left|]. intros _.
    rewrite <- (app_nil_r names). apply picks_none; [done|constructor].
Qed.
End listing.

(** *** A directory *)

Definition games : list cstr := [lit "."; lit "doom.wad"; lit "README.TXT"; lit "DOOM2.WAD"; lit "gone.wad"]%string.
Definition games_dir (d : cstr) : option (list cstr) := if bool_decide (d = lit "/games"%string) then Some games else None.
Definition games_stat (p : cstr) : option (bool * Z) :=
  if bool_decide (p = lit "/games/doom.wad"%string) then Some (false, 100)
  else if bool_decide (p = lit "/games/DOOM2.WAD"%string) then Some (false, 200) else None.
Definition one_find (m : gmap nat wine_find_handle) : option nat := if bool_decide (m = ∅) then Some 0%nat else None.
Lemma one_find_fresh m p : one_find m = Some p -> m !! p = None.
Proof. unfold one_find. case_bool_decide as E; [|done]. intros _. by rewrite E. Qed.
Definition find_start : find_state := mkFs wine_handle_manager_runtime_init ∅ (mkPathState (lit "/games"%string) true).
Definition list_games {A : Arch} (fuel : nat) (pattern : string) : outcome (list WIN32_FIND_DATAA_WINE * find_state) :=
  list_files [] None games_stat games_dir one_find fuel (lit pattern) find_start.

Lemma games_ok : Forall name_ok games.
Proof.
  apply Forall_forall. intros n Hn. split.
  - revert n Hn. apply Forall_forall, (bool_decide_unpack _). vm_compute. done.
  - revert n Hn. apply (Forall_forall (fun n => SLASH ∉ n)), (bool_decide_unpack _). vm_compute. done.
  - revert n Hn. apply (Forall_forall (fun n => (length n <= 255)%nat)), (bool_decide_unpack _). vm_compute. done.
Qed.

Lemma games_unambiguous : Forall (unambiguous (lit "d*.wad"%string)) games.
Proof.
  assert (Hc : forallb (fun n => forallb (fun c => forallb (fun x => negb (confused c x)) n) (lit "d*.wad"%string)) games = true)
    by (vm_compute; reflexivity).
  rewrite forallb_forall in Hc. apply Forall_forall. intros n Hn. split.
  - intros c x Hp Hx. specialize (Hc n ltac:(by apply list_elem_of_In)). rewrite forallb_forall in Hc.
    specialize (Hc c ltac:(by apply list_elem_of_In)). rewrite forallb_forall in Hc. apply negb_true_iff, Hc. by apply list_elem_of_In.
  - intros (p1 & p2 & E & _). assert (H : 32 ∈ lit "d*.wad"%string) by (rewrite E; set_solver).
    revert H. apply (bool_decide_unpack _). vm_compute. exact I.
Qed.

Lemma list_files_correct_witness : exists l t,
  list_games (A := arch32) 6 "d*.wad" = Ret (entry_data games_stat (lit "/games"%string) <$> l, mkFs t ∅ (fs_path find_start)) /\ represents t store_init.
Proof.
  destruct (list_files_correct (A := arch32) [] None games_stat games_dir one_find one_find_fresh (lit "d*.wad"%string) find_start store_init
    (fs_path find_start) (lit "/games"%string) (lit "d*.wad"%string) games 0 3) as (l & t & E & R & _);
    try (apply (bool_decide_unpack _); vm_compute; exact I); try reflexivity; try lia.
  - apply handle_init_represents.
  - apply games_unambiguous.
  - apply games_ok.
  - exists l, t. exact (conj E R).
Defined.
Example games_are_listed : (fun r : list WIN32_FIND_DATAA_WINE * find_state => map cFileName (fst r)) <$> list_games (A := arch32) 6 "d*.wad" = Ret [lit "doom.wad"; lit "DOOM2.WAD"]%string.
Proof. vm_compute. reflexivity. Qed.

(** ** Defects *)

Definition text (s : string) : bytes := lit s ++ [0].
(** FindFirstFileA finds a name with a second dot, FindNextFileA does not. *)
Example second_dot_is_missed :
  wildcard_match_ci (lit "*.wad"%string) (text "a.b.wad") = Ret true /\ next_matches (lit "*.wad"%string) (text "a.b.wad") = Ret false.
Proof. done. Qed.
(** FindNextFileA does not look at what follows the text of a pattern with a star. *)
Example longer_name_is_found :
  wildcard_match_ci (lit "*.wad"%string) (text "doom.wad.bak") = Ret false /\ next_matches (lit "*.wad"%string) (text "doom.wad.bak") = Ret true.
Proof. done. Qed.
(** A blank in the pattern is the same as the terminator in either case: the text is
    read behind its end. *)
Example blank_reads_behind : wildcard_match_ci (lit "my game.wad"%string) (text "my") = Fault.
Proof. done. Qed.
(** Setting bit 5 makes ^ and ~ equal: a backup file is found that no one asked for. *)
Example caret_finds_tilde : wildcard_match_ci (lit "doom^"%string) (text "doom~") = Ret true.
Proof. done. Qed.
(** The directory of a pattern in the root is the empty string. *)
Example root_is_not_listed :
  (fun r : Z * option WIN32_FIND_DATAA_WINE * find_state => fst (fst r)) <$> FindFirstFileA (A := arch32) [] None (fun _ => Some (false, 1))
    (fun d => if bool_decide (d = [SLASH]) then Some games else None) one_find (Some (lit "C:\*.wad"%string)) find_start
  = Ret (INVALID_HANDLE_VALUE (A := arch32)).
Proof. vm_compute. reflexivity. Qed.
