(* ===== verification/KernelFile.v ===== *)
(** * Files (src/msvcrt/kernel32_file.c, kernel32_console.c)

    CreateFileA, CloseHandle, ReadFile, WriteFile and their siblings, over the host's
    descriptors: in the 64-bit build through the handle table, in the 32-bit build
    through a table of its own, createfile_fds_32.  Reading and writing look up the
    thunk of their system call first. *)
From S2P Require Import Prelude Bytes CStr HandleTable Ntdll NtSync NtFiles Kernel32Path FindFiles Thunks.

(** What fstat says of an open file: the size and the times of change, access and
    modification. *)
Record file_stat := mkStat { st_size : Z; st_ctim : Z * Z; st_atim : Z * Z; st_mtim : Z * Z }.

(** The host: system calls on files, with a state of its own.  Results below 0 are
    errors; read fills the memory of the guest. *)
Class Host (H : Type) := {
  sys_openat : cstr -> Z -> H -> Z * H;
  sys_close : Z -> H -> H;
  sys_lseek : Z -> Z -> Z -> H -> Z * H;
  sys_fstat : Z -> H -> option file_stat;
  sys_read : Z -> Z -> Z -> mem -> H -> Z * mem * H;
  sys_write : Z -> Z -> Z -> mem -> H -> Z * H;
  sys_unlinkat : cstr -> H -> Z * H }.

(** The NT state, the host, createfile_fds_32[0 .. createfile_fd_count_32 - 1], the
    current directory and g_last_error. *)
Record kf_state (H : Type) := mkKf {
  kf_nt : nt_state; kf_host : H; kf_fds : list Z; kf_path : wine_path_runtime_state; kf_last_error : Z }.
Arguments mkKf {H}. Arguments kf_nt {H}. Arguments kf_host {H}. Arguments kf_fds {H}.
Arguments kf_path {H}. Arguments kf_last_error {H}.

Definition GENERIC_WRITE : Z := 0x40000000.
Definition FILE_TYPE_DISK : Z := 1.
Definition FILE_TYPE_CHAR : Z := 2.
Definition NT_SYSCALL_READ_FILE : Z := 0x3C.
Definition NT_SYSCALL_WRITE_FILE : Z := 0x3D.
Definition ERROR_FILE_NOT_FOUND : Z := 2.

Section files.
Context {A : Arch} {H : Type} `{Host H}.
Variable pe_path : cstr.
Variable getcwd : option cstr.
Variable sys_munmap : forall (addr size : Z), mem -> Z * mem.
Variable thunk_table : thunks.

Definition set_host (h : H) (k : kf_state H) : kf_state H := mkKf (kf_nt k) h (kf_fds k) (kf_path k) (kf_last_error k).
Definition set_path (p : wine_path_runtime_state) (k : kf_state H) : kf_state H := mkKf (kf_nt k) (kf_host k) (kf_fds k) p (kf_last_error k).
Definition set_fds (l : list Z) (k : kf_state H) : kf_state H := mkKf (kf_nt k) (kf_host k) l (kf_path k) (kf_last_error k).

(** A handler of ntdll; the descriptors that it closes are closed in the host. *)
Definition host_call (h : H) (c : syscall) : H := match c with SysClose fd => sys_close fd h | _ => h end.
Definition on_ntdll {X} (m : nt X) (k : kf_state H) : outcome (X * kf_state H) :=
  '(x, s) ← m (kf_nt k);
  Ret (x, mkKf s (foldl host_call (kf_host k) (drop (length (nt_log (kf_nt k))) (nt_log s))) (kf_fds k) (kf_path k) (kf_last_error k)).

Definition CloseHandle (hObject : Z) (k : kf_state H) : outcome (bool * kf_state H) :=
  let handle := usize hObject in
  if is_std_handle handle then Ret (true, k)
  else if handle <=? 2 then Ret (true, k)
  else
    let nt_close := '(status, k) ← on_ntdll (handler_NtClose sys_munmap handle) k; Ret (status =? STATUS_SUCCESS, k) in
    if is_my_wine32 then
      match kf_fds k !! Z.to_nat (handle - 3) with
      | Some fd =>
          if 0 <=? fd then Ret (true, set_fds (<[Z.to_nat (handle - 3) := -1]> (kf_fds k)) (set_host (sys_close fd (kf_host k)) k))
          else nt_close
      | None => nt_close
      end
    else nt_close.

(** The flags of openat: O_RDWR, and O_CREAT, O_EXCL and O_TRUNC for the creation
    disposition. *)
Definition open_flags (dwDesiredAccess dwCreationDisposition : Z) : Z :=
  let oflags := if Z.land dwDesiredAccess GENERIC_WRITE =? 0 then 0 else 2 in
  if dwCreationDisposition =? 1 then Z.lor oflags (Z.lor 128 64)
  else if dwCreationDisposition =? 2 then Z.lor oflags (Z.lor 512 64)
  else if dwCreationDisposition =? 4 then Z.lor oflags 64
  else if dwCreationDisposition =? 5 then Z.lor oflags 512
  else oflags.

(** A handle for an open descriptor, 0 when there is none left. *)
Definition new_file_handle (fd : Z) (k : kf_state H) : outcome (Z * kf_state H) :=
  if is_my_wine32 then
    let idx := Z.of_nat (length (kf_fds k)) in
    if 64 <=? idx then Ret (0, k) else Ret (3 + idx, set_fds (kf_fds k ++ [fd]) k)
  else on_ntdll (fd_to_handle fd) k.

Definition CreateFileA (lpFileName : option cstr) (dwDesiredAccess dwCreationDisposition : Z) (k : kf_state H) : outcome (Z * kf_state H) :=
  match wine_resolve_path pe_path getcwd lpFileName 1024 (kf_path k) with
  | Fault => Fault
  | Fail => Ret (INVALID_HANDLE_VALUE, k)
  | Ret (path_buf, path) =>
      let '(res, host) := sys_openat path_buf (open_flags dwDesiredAccess dwCreationDisposition) (kf_host k) in
      let k := set_host host (set_path path k) in
      let fd := i32 res in
      if fd <? 0 then Ret (INVALID_HANDLE_VALUE, k)
      else
        '(handle, k) ← new_file_handle fd k;
        if handle =? 0 then Ret (INVALID_HANDLE_VALUE, set_host (sys_close fd (kf_host k)) k)
        else Ret (handle, k)
  end.

Definition DeleteFileA (lpFileName : option cstr) (k : kf_state H) : outcome (bool * kf_state H) :=
  match wine_resolve_path pe_path getcwd lpFileName 1024 (kf_path k) with
  | Fault => Fault
  | Fail => Ret (false, k)
  | Ret (path_buf, path) =>
      let '(res, host) := sys_unlinkat path_buf (kf_host k) in
      let k := set_host host (set_path path k) in
      if negb (res =? 0) then Ret (false, mkKf (kf_nt k) (kf_host k) (kf_fds k) (kf_path k) ERROR_FILE_NOT_FOUND)
      else Ret (true, k)
  end.

(** The descriptor of a handle, below 0 when there is none. *)
Definition descriptor (handle : Z) (k : kf_state H) : outcome (Z * kf_state H) := on_ntdll (handle_to_fd (kf_fds k) handle) k.

(** The result, and the number of bytes where it is written. *)
Definition ReadFile (hFile lpBuffer nNumberOfBytesToRead : Z) (k : kf_state H) : outcome (bool * option Z * kf_state H) :=
  thunk ← lookup_thunk NT_SYSCALL_READ_FILE thunk_table;
  if thunk =? 0 then Ret (false, None, k)
  else
    '(fd, k) ← descriptor (usize hFile) k;
    if fd <? 0 then Ret (false, Some 0, k)
    else
      let '(res, m, host) := sys_read fd lpBuffer nNumberOfBytesToRead (nt_mem (kf_nt k)) (kf_host k) in
      let nt := mkNt (nt_handles (kf_nt k)) (nt_ko (kf_nt k)) m (nt_log (kf_nt k)) in
      let k := mkKf nt host (kf_fds k) (kf_path k) (kf_last_error k) in
      if res <? 0 then Ret (false, Some 0, k) else Ret (true, Some (u32 res), k).

Definition WriteFile (hFile lpBuffer nNumberOfBytesToWrite : Z) (k : kf_state H) : outcome (bool * option Z * kf_state H) :=
  thunk ← lookup_thunk NT_SYSCALL_WRITE_FILE thunk_table;
  if thunk =? 0 then Ret (false, None, k)
  else
    '(fd, k) ← descriptor (usize hFile) k;
    if fd <? 0 then Ret (false, Some 0, k)
    else
      let '(res, host) := sys_write fd lpBuffer nNumberOfBytesToWrite (nt_mem (kf_nt k)) (kf_host k) in
      let k := set_host host k in
      if res <? 0 then Ret (false, Some 0, k) else Ret (true, Some (u32 res), k).

Definition GetFileType (hFile : Z) : Z :=
  let handle := usize hFile in
  if is_std_handle handle || (handle <=? 2) then FILE_TYPE_CHAR else FILE_TYPE_DISK.

(** The lower and the upper half of the size. *)
Definition GetFileSize (hFile : Z) (k : kf_state H) : outcome (Z * option Z * kf_state H) :=
  '(fd, k) ← descriptor (usize hFile) k;
  match (if fd <? 0 then None else sys_fstat fd (kf_host k)) with
  | None => Ret (0xffffffff, None, k)
  | Some st => Ret (u32 (st_size st), Some (u32 (Z.shiftr (u64 (st_size st)) 32)), k)
  end.

Definition wine_unix_time_to_filetime (t : Z * Z) : Z * Z :=
  let value := u64 (u64 (u64 t.1 * 10000000) + u64 (Z.quot t.2 100)) in
  let value := u64 (value + 116444736000000000) in
  (u32 value, u32 (Z.shiftr value 32)).
(** The creation, access and write times. *)
Definition GetFileTime (hFile : Z) (k : kf_state H) : outcome (option ((Z * Z) * (Z * Z) * (Z * Z)) * kf_state H) :=
  '(fd, k) ← descriptor (usize hFile) k;
  match (if fd <? 0 then None else sys_fstat fd (kf_host k)) with
  | None => Ret (None, k)
  | Some st => Ret (Some (wine_unix_time_to_filetime (st_ctim st), wine_unix_time_to_filetime (st_atim st), wine_unix_time_to_filetime (st_mtim st)), k)
  end.

(** The distance to move, as a long; [high] is *lpDistanceToMoveHigh. *)
Definition seek_distance (lDistanceToMove : Z) (high : option Z) : Z :=
  let distance := u32 lDistanceToMove in
  let distance := match high with Some h => i64 (Z.lor distance (Z.shiftl h 32)) | None => distance end in
  if is_my_wine32 then i32 distance else distance.
Definition SetFilePointer (hFile lDistanceToMove : Z) (high : option Z) (dwMoveMethod : Z) (k : kf_state H)
    : outcome (Z * option Z * kf_state H) :=
  '(fd, k) ← descriptor (usize hFile) k;
  if fd <? 0 then Ret (0xffffffff, high, k)
  else
    let whence := if dwMoveMethod =? 1 then 1 else if dwMoveMethod =? 2 then 2 else 0 in
    let '(pos, host) := sys_lseek fd (seek_distance lDistanceToMove high) whence (kf_host k) in
    let k := set_host host k in
    if pos <? 0 then Ret (0xffffffff, high, k)
    else Ret (u32 pos, (fun _ => i32 (Z.shiftr pos 32)) <$> high, k).
End files.

(** ** Specification

    A map from open handles to descriptors, how many files have been opened, the host,
    the guest's memory and the current directory. *)
Record files_view (H : Type) := mkFv {
  fv_files : gmap Z Z; fv_opened : nat; fv_host : H; fv_mem : mem; fv_path : wine_path_runtime_state }.
Arguments mkFv {H}. Arguments fv_files {H}. Arguments fv_opened {H}. Arguments fv_host {H}.
Arguments fv_mem {H}. Arguments fv_path {H}.

Inductive fcall :=
| FOpen (name : cstr) (access disposition : Z)
| FClose (h : Z)
| FRead (h buf len : Z)
| FWrite (h buf len : Z)
| FSeek (h distance : Z) (high : option Z) (method : Z)
| FSize (h : Z).

Definition truth (b : bool) : Z := if b then 1 else 0.

Section spec.
Context {A : Arch} {H : Type} `{Host H}.
Variable pe_path : cstr.
Variable getcwd : option cstr.
Variable sys_munmap : forall (addr size : Z), mem -> Z * mem.
Variable thunk_table : thunks.

Definition fstep (c : fcall) (k : kf_state H) : outcome (Z * option Z * kf_state H) :=
  match c with
  | FOpen name access disposition => '(h, k) ← CreateFileA pe_path getcwd (Some name) access disposition k; Ret (h, None, k)
  | FClose h => '(ok, k) ← CloseHandle sys_munmap h k; Ret (truth ok, None, k)
  | FRead h buf len => '(ok, n, k) ← ReadFile thunk_table h buf len k; Ret (truth ok, n, k)
  | FWrite h buf len => '(ok, n, k) ← WriteFile thunk_table h buf len k; Ret (truth ok, n, k)
  | FSeek h distance high method => SetFilePointer h distance high method k
  | FSize h => GetFileSize h k
  end.
Fixpoint frun (l : list fcall) (k : kf_state H) : outcome (list (Z * option Z) * kf_state H) :=
  match l with
  | [] => Ret ([], k)
  | c :: l => '(r, k) ← fstep c k; '(rs, k) ← frun l k; Ret (r :: rs, k)
  end.

(** The handles from 1 to 2 and the three standard handles are always open. *)
Definition descriptor_of (a : files_view H) (h : Z) : option Z :=
  if h =? STDIN_HANDLE then Some 0 else if h =? STDOUT_HANDLE then Some 1 else if h =? STDERR_HANDLE then Some 2
  else if h =? 1 then Some 1 else if h =? 2 then Some 2 else fv_files a !! h.
(** The 64-bit build has room for 509 files at a time, the 32-bit build for 64 files
    altogether. *)
Definition room (a : files_view H) : bool :=
  if is_my_wine32 then (fv_opened a <? 64)%nat else (size (fv_files a) <? 509)%nat.

Definition answer (failed ok : Z * option Z) (res : Z) : Z * option Z := if res <? 0 then failed else ok.
Definition whence_of (method : Z) : Z := if method =? 1 then 1 else if method =? 2 then 2 else 0.
Definition with_files (m : gmap Z Z) (n : nat) (host : H) (path : wine_path_runtime_state) (a : files_view H) : files_view H :=
  mkFv m n host (fv_mem a) path.
Definition with_fhost (host : H) (a : files_view H) : files_view H := mkFv (fv_files a) (fv_opened a) host (fv_mem a) (fv_path a).

Inductive fspec (a : files_view H) : fcall -> Z * option Z -> files_view H -> Prop :=
| F_open_error name acc d p path res host : wine_resolve_path pe_path getcwd (Some name) 1024 (fv_path a) = Ret (p, path) ->
    sys_openat p (open_flags acc d) (fv_host a) = (res, host) -> i32 res < 0 ->
    fspec a (FOpen name acc d) (INVALID_HANDLE_VALUE, None) (with_files (fv_files a) (fv_opened a) host path a)
| F_open_full name acc d p path res host : wine_resolve_path pe_path getcwd (Some name) 1024 (fv_path a) = Ret (p, path) ->
    sys_openat p (open_flags acc d) (fv_host a) = (res, host) -> 0 < i32 res -> room a = false ->
    fspec a (FOpen name acc d) (INVALID_HANDLE_VALUE, None) (with_files (fv_files a) (fv_opened a) (sys_close (i32 res) host) path a)
| F_open name acc d p path res host h : wine_resolve_path pe_path getcwd (Some name) 1024 (fv_path a) = Ret (p, path) ->
    sys_openat p (open_flags acc d) (fv_host a) = (res, host) -> 0 < i32 res -> room a = true ->
    fv_files a !! h = None -> 3 <= h < 512 ->
    fspec a (FOpen name acc d) (h, None) (with_files (<[h := i32 res]> (fv_files a)) (S (fv_opened a)) host path a)
| F_close_std h : is_std_handle h || (h <=? 2) = true -> fspec a (FClose h) (1, None) a
| F_close h fd : is_std_handle h || (h <=? 2) = false -> fv_files a !! h = Some fd ->
    fspec a (FClose h) (1, None) (with_files (delete h (fv_files a)) (fv_opened a) (sys_close fd (fv_host a)) (fv_path a) a)
| F_close_none h : is_std_handle h || (h <=? 2) = false -> fv_files a !! h = None -> fspec a (FClose h) (0, None) a
| F_read h buf len fd res m host : descriptor_of a h = Some fd -> sys_read fd buf len (fv_mem a) (fv_host a) = (res, m, host) ->
    fspec a (FRead h buf len) (answer (0, Some 0) (1, Some (u32 res)) res) (mkFv (fv_files a) (fv_opened a) host m (fv_path a))
| F_read_none h buf len : descriptor_of a h = None -> fspec a (FRead h buf len) (0, Some 0) a
| F_write h buf len fd res host : descriptor_of a h = Some fd -> sys_write fd buf len (fv_mem a) (fv_host a) = (res, host) ->
    fspec a (FWrite h buf len) (answer (0, Some 0) (1, Some (u32 res)) res) (with_fhost host a)
| F_write_none h buf len : descriptor_of a h = None -> fspec a (FWrite h buf len) (0, Some 0) a
| F_seek h dist high method fd pos host : descriptor_of a h = Some fd ->
    sys_lseek fd (seek_distance dist high) (whence_of method) (fv_host a) = (pos, host) ->
    fspec a (FSeek h dist high method) (answer (0xffffffff, high) (u32 pos, (fun _ => i32 (Z.shiftr pos 32)) <$> high) pos) (with_fhost host a)
| F_seek_none h dist high method : descriptor_of a h = None -> fspec a (FSeek h dist high method) (0xffffffff, high) a
| F_size h fd st : descriptor_of a h = Some fd -> sys_fstat fd (fv_host a) = Some st ->
    fspec a (FSize h) (u32 (st_size st), Some (u32 (Z.shiftr (u64 (st_size st)) 32))) a
| F_size_none h : (forall fd, descriptor_of a h = Some fd -> sys_fstat fd (fv_host a) = None) -> fspec a (FSize h) (0xffffffff, None) a.

Inductive fspecs : files_view H -> list fcall -> list (Z * option Z) -> files_view H -> Prop :=
| fspecs_nil a : fspecs a [] [] a
| fspecs_cons a c r a' l rs a'' : fspec a c r a' -> fspecs a' l rs a'' -> fspecs a (c :: l) (r :: rs) a''.

(** Arguments that a guest's register can hold: handles of 32 bits. *)
Definition fcall_wf (c : fcall) : Prop :=
  match c with
  | FOpen name _ _ => True
  | FClose h | FRead h _ _ | FWrite h _ _ | FSeek h _ _ _ | FSize h => in_u 32 h
  end.

(** *** Representation *)

Definition file_entry (fd : Z) : entry := mkEntry HANDLE_TYPE_FILE (OFd fd) 1.
(** The handle table with the files of the 64-bit build. *)
Definition file_lookup (m : gmap Z Z) (i : nat) : option entry :=
  if (i <? 3)%nat then store_init !! i else if is_my_wine32 then None else file_entry <$> m !! Z.of_nat i.

Record files_rep (k : kf_state H) (a : files_view H) : Prop := {
  fr_mem : nt_mem (kf_nt k) = fv_mem a;
  fr_host : kf_host k = fv_host a;
  fr_path : kf_path k = fv_path a;
  fr_roomy : roomy pe_path getcwd (fv_path a);
  fr_table : exists st, represents (nt_handles (kf_nt k)) st /\ forall i, st !! i = file_lookup (fv_files a) i;
  fr_files : forall h fd, fv_files a !! h = Some fd -> 3 <= h < 512 /\ 0 < fd < 2 ^ 31;
  fr_fds : if is_my_wine32
           then length (kf_fds k) = fv_opened a /\ (fv_opened a <= 64)%nat /\ Forall (fun fd => fd = -1 \/ 0 < fd < 2 ^ 31) (kf_fds k) /\
                forall h, 3 <= h -> fv_files a !! h = (fd ← kf_fds k !! Z.to_nat (h - 3); if 0 <=? fd then Some fd else None)
           else kf_fds k = [] }.
End spec.

Section proofs.
Context {A : Arch} {H : Type} `{Hh : !Host H}.
Variable pe_path : cstr.
Variable getcwd : option cstr.
Variable sys_munmap : forall (addr size : Z), mem -> Z * mem.
Variable thunk_table : thunks.

Abbreviation rep := (files_rep pe_path getcwd).

Lemma usize_32 h : in_u 32 h -> usize h = h.
Proof. intros Hh'. unfold usize, ptr_bits, in_u in *. destruct is_my_wine32; apply wrap_small; lia. Qed.

Lemma on_ntdll_pure {X} (m : nt X) x (k : kf_state H) : m (kf_nt k) = Ret (x, kf_nt k) -> on_ntdll m k = Ret (x, k).
Proof. intros E. unfold on_ntdll. rewrite E. cbn [mbind outcome_bind]. rewrite drop_all. cbn [foldl]. by destruct k. Qed.

Lemma not_always_open h : is_std_handle h || (h <=? 2) = false ->
  (h =? STDIN_HANDLE) = false /\ (h =? STDOUT_HANDLE) = false /\ (h =? STDERR_HANDLE) = false /\ 3 <= h.
Proof. unfold is_std_handle. intros E. repeat apply orb_false_iff in E as [E ?]. lia. Qed.

(** A descriptor that is looked up in the handle table. *)
Lemma to_fd_table fds h s st : represents (nt_handles s) st -> in_u 32 h -> is_std_handle h = false ->
  (if is_my_wine32 && (3 <=? h) && (h <? 67) then fds !! Z.to_nat (h - 3) else None) = None ->
  handle_to_fd fds h s = match st !! Z.to_nat h with
    | None => Ret (-1, s)
    | Some e => if e_type e =? HANDLE_TYPE_FILE then
                  match e_object e with ONull => Ret (-1, s) | OFd fd => Ret (i32 fd, s) | _ => Fault end
                else Ret (-1, s)
    end.
Proof.
  intros R Hb Hn Hd. unfold is_std_handle in Hn. apply orb_false_iff in Hn as [Hn H3]. apply orb_false_iff in Hn as [H1 H2].
  unfold handle_to_fd. rewrite H1, H2, H3, Hd. assert (Eu : u32 h = h) by (apply wrap_small; exact Hb). rewrite Eu.
  unfold mbind, nt_bind. rewrite (handle_get_type_rep _ s st R Hb). run_nt.
  destruct (st !! Z.to_nat h) as [[ty ob n]|] eqn:Es; run_nt; [|done].
  destruct (ty =? HANDLE_TYPE_FILE); run_nt; [|done]. rewrite (handle_get_rep _ s st R Hb), Es. run_nt. by destruct ob.
Qed.

Lemma descriptor_spec k a h : rep k a -> in_u 32 h ->
  exists fd, descriptor h k = Ret (fd, k) /\ match descriptor_of a h with Some d => fd = d /\ 0 <= d | None => fd < 0 end.
Proof.
  intros R Hb. destruct R as [_ _ _ _ (st & Rt & Ht) Hf Hfds].
  assert (Hpure : forall fd, handle_to_fd (kf_fds k) h (kf_nt k) = Ret (fd, kf_nt k) -> descriptor h k = Ret (fd, k))
    by (intros fd E; by apply on_ntdll_pure).
  destruct (is_std_handle h) eqn:Es.
  { unfold is_std_handle in Es. unfold descriptor_of, handle_to_fd in *.
    destruct (h =? STDIN_HANDLE); [exists 0; split; [by apply Hpure|done]|].
    destruct (h =? STDOUT_HANDLE); [exists 1; split; [by apply Hpure|done]|].
    destruct (h =? STDERR_HANDLE); [exists 2; split; [by apply Hpure|done]|done]. }
  pose proof Es as Es'. unfold is_std_handle in Es'. apply orb_false_iff in Es' as [Es' E3]. apply orb_false_iff in Es' as [E1 E2].
  destruct (decide (h < 3)) as [Hlt|Hge].
  { assert (Ec : h = 0 \/ h = 1 \/ h = 2) by (unfold in_u in Hb; lia).
    assert (Et : handle_to_fd (kf_fds k) h (kf_nt k) = Ret (if h =? 0 then -1 else h, kf_nt k)).
    { rewrite (to_fd_table _ _ _ st Rt Hb Es); [rewrite Ht|]; destruct Ec as [-> | [-> | -> ]]; try done; by rewrite andb_false_r. }
    exists (if h =? 0 then -1 else h). split; [by apply Hpure|].
    unfold descriptor_of. rewrite E1, E2, E3. destruct Ec as [-> | [-> | -> ]]; cbn; try done.
    destruct (fv_files a !! 0) eqn:E0; [|done]. apply Hf in E0. lia. }
  assert (Edesc : descriptor_of a h = fv_files a !! h).
  { unfold descriptor_of. rewrite E1, E2, E3. by rewrite (proj2 (Z.eqb_neq h 1)), (proj2 (Z.eqb_neq h 2)) by lia. }
  rewrite Edesc. assert (Elk : st !! Z.to_nat h = if is_my_wine32 then None else file_entry <$> fv_files a !! h).
  { rewrite Ht. unfold file_lookup. rewrite (proj2 (Nat.ltb_ge _ _)) by lia. by rewrite Z2Nat.id by lia. }
  destruct is_my_wine32 eqn:E32; [destruct Hfds as (Hln & Hop & Hr & Hm); rewrite (Hm h) by lia; destruct (kf_fds k !! Z.to_nat (h - 3)) as [fd|] eqn:Efd|].
  - exists fd. split.
    + apply Hpure. unfold handle_to_fd. rewrite E1, E2, E3, E32, (proj2 (Z.leb_le 3 h)) by lia. cbn [andb].
      destruct (Z.ltb_spec h 67); [by rewrite Efd|]. apply lookup_lt_Some in Efd. lia.
    + rewrite Forall_lookup in Hr. specialize (Hr _ _ Efd). cbn [mbind option_bind]. destruct (Z.leb_spec 0 fd); [done|lia].
  - exists (-1). split; [|done]. apply Hpure. rewrite (to_fd_table _ _ _ st Rt Hb Es), Elk; [done|].
    rewrite E32. cbn [andb]. by destruct ((3 <=? h) && (h <? 67)).
  - assert (Et := to_fd_table (kf_fds k) h (kf_nt k) st Rt Hb Es). rewrite E32 in Et. specialize (Et eq_refl). rewrite Elk in Et.
    destruct (fv_files a !! h) as [fd|] eqn:Efd.
    + exists fd. destruct (Hf _ _ Efd) as [_ Hfd]. split; [|lia]. apply Hpure. rewrite Et. cbn. by rewrite swrap_small by lia.
    + exists (-1). split; [by apply Hpure|lia].
Qed.

(** *** Opening *)

(** The handles that are given out. *)
Definition slots (n : Z) : gset Z := list_to_set (seqZ 3 n).
Lemma elem_of_slots n h : h ∈ slots n <-> 3 <= h < 3 + n.
Proof. unfold slots. by rewrite elem_of_list_to_set, elem_of_seqZ. Qed.
Lemma size_slots n : 0 <= n -> size (slots n) = Z.to_nat n.
Proof. intros Hn. unfold slots. rewrite size_list_to_set by apply NoDup_seqZ. by rewrite length_seqZ. Qed.

Lemma files_free (m : gmap Z Z) n : 0 <= n -> (forall h fd, m !! h = Some fd -> 3 <= h < 3 + n) ->
  (size m < Z.to_nat n)%nat <-> exists h, 3 <= h < 3 + n /\ m !! h = None.
Proof.
  intros Hn Hm. assert (Hs : dom m ⊆ slots n).
  { intros h Hin. apply elem_of_dom in Hin as [fd E]. apply elem_of_slots. by apply (Hm h fd). }
  split.
  - intros Hlt. destruct (decide (set_Exists (fun h => h ∉ dom m) (slots n))) as [(h & Hin & Hno)|Hall].
    + apply elem_of_slots in Hin. exists h. split; [done|]. by apply not_elem_of_dom.
    + assert (Hsup : slots n ⊆ dom m) by (intros h Hin; destruct (decide (h ∈ dom m)); [done|]; destruct Hall; by exists h).
      apply subseteq_size in Hsup. rewrite size_slots, size_dom in Hsup; lia.
  - intros (h & Hr & Hno). assert (Hu : {[h]} ∪ dom m ⊆ slots n).
    { apply union_subseteq. split; [|done]. by apply singleton_subseteq_l, elem_of_slots. }
    apply subseteq_size in Hu. rewrite size_union, size_slots, size_singleton, size_dom in Hu; [lia|done|].
    by apply disjoint_singleton_l, not_elem_of_dom.
Qed.

Lemma rep_env k (a : files_view H) host path : rep k a -> roomy pe_path getcwd path ->
  rep (set_host host (set_path path k)) (with_files (fv_files a) (fv_opened a) host path a).
Proof. intros [] Hp. by split. Qed.

Lemma alloc_log ty ob s t h : wine_handle_alloc ty ob (nt_handles s) = Ret (t, h) ->
  handle_alloc ty ob s = Ret (h, mkNt t (nt_ko s) (nt_mem s) (nt_log s)).
Proof. intros E. unfold handle_alloc, on_handles. by rewrite E. Qed.

Lemma new_file_handle_spec fd k (a : files_view H) : rep k a -> 0 < fd < 2 ^ 31 ->
  (room a = false /\ new_file_handle fd k = Ret (0, k)) \/
  (room a = true /\ exists h k', new_file_handle fd k = Ret (h, k') /\ 3 <= h < 512 /\ fv_files a !! h = None /\ kf_host k' = kf_host k /\
     rep k' (with_files (<[h := fd]> (fv_files a)) (S (fv_opened a)) (fv_host a) (fv_path a) a)).
Proof.
  intros R Hfd. destruct R as [R1 R2 R3 R4 (st & Rt & Ht) Hf Hfds]. unfold room, new_file_handle in *.
  destruct is_my_wine32 eqn:E32.
  - destruct Hfds as (Hl & Ho & Hr & Hm). destruct (Nat.ltb_spec (fv_opened a) 64) as [Hlt|Hge].
    + right. split; [done|]. rewrite (proj2 (Z.leb_gt _ _)) by lia. exists (3 + Z.of_nat (length (kf_fds k))). eexists. split; [done|].
      assert (Hn : fv_files a !! (3 + Z.of_nat (length (kf_fds k))) = None).
      { rewrite Hm by lia. rewrite lookup_ge_None_2 by lia. done. }
      split_and!; [lia|lia|done|done|]. split; try done.
      * exists st. split; [done|]. intros i. rewrite Ht. unfold file_lookup. by rewrite E32.
      * intros h fd'. cbn. intros [[<- <-]|[_ E]]%lookup_insert_Some; [split; lia|by apply Hf in E].
      * rewrite E32. cbn. rewrite length_app, Hl. cbn [length]. split_and!; [lia|lia|apply Forall_app; split; [done|]; repeat constructor; lia|].
        intros h Hh3. destruct (decide (h = 3 + Z.of_nat (fv_opened a))) as [->|Hne].
        { rewrite lookup_insert_eq. replace (Z.to_nat (3 + Z.of_nat (fv_opened a) - 3)) with (length (kf_fds k)) by lia.
          rewrite lookup_app_r, Nat.sub_diag by lia. cbn. by rewrite (proj2 (Z.leb_le 0 fd)) by lia. }
        rewrite lookup_insert_ne by done. rewrite Hm by done. destruct (decide (Z.to_nat (h - 3) < length (kf_fds k))%nat).
        { by rewrite lookup_app_l by lia. }
        rewrite !lookup_ge_None_2; [done|rewrite length_app; cbn; lia|lia].
    + left. split; [done|]. by rewrite (proj2 (Z.leb_le _ _)) by lia.
  - pose proof (files_free (fv_files a) 509 ltac:(lia) (fun h fd E => proj1 (Hf h fd E))) as Hfree. change (Z.to_nat 509) with 509%nat in Hfree.
    change (3 + 509) with 512 in Hfree. unfold fd_to_handle.
    assert (Eo : fd_object (usize fd) = OFd fd) by (unfold fd_object, usize, ptr_bits; rewrite E32, wrap_small, (proj2 (Z.eqb_neq fd 0)) by lia; done).
    rewrite Eo. assert (Hst : forall i, (3 <= i < 512)%nat -> st !! i = None <-> fv_files a !! Z.of_nat i = None).
    { intros i Hi. rewrite Ht. unfold file_lookup. rewrite E32, (proj2 (Nat.ltb_ge _ _)) by lia. by rewrite fmap_None. }
    assert (Elog : forall t h, wine_handle_alloc HANDLE_TYPE_FILE (OFd fd) (nt_handles (kf_nt k)) = Ret (t, h) ->
      on_ntdll (handle_alloc HANDLE_TYPE_FILE (OFd fd)) k = Ret (h, mkKf (mkNt t (nt_ko (kf_nt k)) (nt_mem (kf_nt k)) (nt_log (kf_nt k))) (kf_host k) (kf_fds k) (kf_path k) (kf_last_error k))).
    { intros t h E. unfold on_ntdll. rewrite (alloc_log _ _ _ _ _ E). cbn [mbind outcome_bind nt_log]. by rewrite drop_all. }
    destruct (Nat.ltb_spec (size (fv_files a)) 509) as [Hlt|Hge]; [right|left]; split; try done.
    + apply Hfree in Hlt as (h0 & Hh0 & Hn0).
      destruct (alloc_succeeds HANDLE_TYPE_FILE (OFd fd) _ _ (Z.to_nat h0) Rt) as (i & t & Hi & Hni & E & Rt'); [lia| |].
      { apply Hst; [lia|]. by rewrite Z2Nat.id by lia. }
      rewrite (Elog _ _ E). exists (Z.of_nat i). eexists. split; [done|]. apply Hst in Hni; [|done]. split_and!; [lia|lia|done|done|].
      split; try done.
      * exists (<[i := file_entry fd]> st). split; [exact Rt'|]. intros j. unfold file_lookup. rewrite E32. cbn [fv_files with_files].
        destruct (decide (i = j)) as [->|Hne]; [rewrite lookup_insert_eq, (proj2 (Nat.ltb_ge _ _)), lookup_insert_eq by lia; done|].
        rewrite !lookup_insert_ne by lia. rewrite Ht. unfold file_lookup. by rewrite E32.
      * intros h fd'. cbn. intros [[<- <-]|[_ E']]%lookup_insert_Some; [split; lia|by apply Hf in E'].
      * by rewrite E32.
    + destruct (alloc_cases HANDLE_TYPE_FILE (OFd fd) _ _ Rt) as [E|(i & t & Hi & Hni & _)].
      * rewrite (Elog _ _ E). by destruct k as [[]].
      * exfalso. apply Hst in Hni; [|done]. assert (size (fv_files a) < 509)%nat; [|lia]. apply Hfree. exists (Z.of_nat i). split; [lia|done].
Qed.

(** *** Closing *)

Lemma CloseHandle_std h k : in_u 32 h -> is_std_handle h || (h <=? 2) = true -> CloseHandle sys_munmap h k = Ret (true, k).
Proof.
  intros Hb Hn. unfold CloseHandle. rewrite (usize_32 h Hb). destruct (is_std_handle h); [done|]. cbn [orb] in Hn. by rewrite Hn.
Qed.

Lemma CloseHandle_spec h k (a : files_view H) : rep k a -> in_u 32 h -> is_std_handle h || (h <=? 2) = false ->
  match fv_files a !! h with
  | Some fd => exists k', CloseHandle sys_munmap h k = Ret (true, k') /\
      rep k' (with_files (delete h (fv_files a)) (fv_opened a) (sys_close fd (fv_host a)) (fv_path a) a)
  | None => CloseHandle sys_munmap h k = Ret (false, k)
  end.
Proof.
  intros R Hb Hn. pose proof (not_always_open h Hn) as (_ & _ & _ & H3). apply orb_false_iff in Hn as [Hn H2].
  destruct R as [R1 R2 R3 R4 (st & Rt & Ht) Hf Hfds]. unfold CloseHandle. rewrite (usize_32 h Hb), Hn, H2.
  assert (Hnone : st !! Z.to_nat h = None ->
    ('(status, k) ← on_ntdll (handler_NtClose sys_munmap h) k; Ret (status =? STATUS_SUCCESS, k)) = Ret (false, k)).
  { intros E. rewrite (on_ntdll_pure _ STATUS_INVALID_HANDLE); [done|]. by apply (close_none _ _ st). }
  assert (Elk : st !! Z.to_nat h = if is_my_wine32 then None else file_entry <$> fv_files a !! h).
  { rewrite Ht. unfold file_lookup. rewrite (proj2 (Nat.ltb_ge _ _)) by lia. by rewrite Z2Nat.id by lia. }
  destruct is_my_wine32 eqn:E32.
  - destruct Hfds as (Hln & Hop & Hr & Hm). pose proof (Hm h H3) as Eh. rewrite Eh.
    destruct (kf_fds k !! Z.to_nat (h - 3)) as [fd|] eqn:Efd; cbn [mbind option_bind]; [|by apply Hnone].
    destruct (Z.leb_spec 0 fd) as [Hfd|Hfd]; [|by apply Hnone].
    eexists. split; [done|]. rewrite R2. pose proof (lookup_lt_Some _ _ _ Efd) as Hlt. split; try done.
    + exists st. split; [done|]. intros i. rewrite Ht. unfold file_lookup. by rewrite E32.
    + intros x fd'. cbn [fv_files with_files]. intros [_ E]%lookup_delete_Some. by apply Hf in E.
    + rewrite E32. cbn. rewrite length_insert. split_and!; [done|done|apply Forall_insert; [done|by left]|].
      intros x Hx. destruct (decide (x = h)) as [->|Hne].
      { rewrite lookup_delete_eq, list_lookup_insert_eq by done. done. }
      rewrite lookup_delete_ne, list_lookup_insert_ne by lia. by apply Hm.
  - destruct (fv_files a !! h) as [fd|] eqn:Efd; [|by apply Hnone].
    destruct (Hf _ _ Efd) as [Hrg Hfd]. destruct (close_file sys_munmap (kf_nt k) st (Z.to_nat h) fd Rt) as (s' & Ec & Hlog & Rt' & Hmem);
      [lia|done|exact Elk|]. rewrite Z2Nat.id in Ec by lia.
    unfold on_ntdll. rewrite Ec. cbn [mbind outcome_bind]. rewrite Hlog, drop_app_length. cbn [foldl host_call].
    eexists. split; [done|]. rewrite R2. split; cbn [kf_nt kf_host kf_path kf_fds with_files fv_mem fv_host fv_path fv_files fv_opened]; try done.
    + by rewrite Hmem.
    + exists (delete (Z.to_nat h) st). split; [done|]. intros i. unfold file_lookup. rewrite E32.
      destruct (decide (i = Z.to_nat h)) as [->|Hne].
      { rewrite lookup_delete_eq, (proj2 (Nat.ltb_ge _ _)) by lia. by rewrite Z2Nat.id, lookup_delete_eq by lia. }
      rewrite !lookup_delete_ne by lia. rewrite Ht. unfold file_lookup. by rewrite E32.
    + intros x fd'. intros [_ E]%lookup_delete_Some. by apply Hf in E.
    + by rewrite E32.
Qed.

(** *** The refinement *)

Hypothesis openat_positive : forall p flags h, i32 (fst (sys_openat p flags h)) <> 0.
Hypothesis read_thunk : exists t, lookup_thunk NT_SYSCALL_READ_FILE thunk_table = Ret t /\ t <> 0.
Hypothesis write_thunk : exists t, lookup_thunk NT_SYSCALL_WRITE_FILE thunk_table = Ret t /\ t <> 0.

Lemma open_refines name acc d k (a : files_view H) : rep k a ->
  exists r k' a', CreateFileA pe_path getcwd (Some name) acc d k = Ret (r, k') /\
    fspec pe_path getcwd a (FOpen name acc d) (r, None) a' /\ rep k' a'.
Proof.
  intros R. unfold CreateFileA. rewrite (fr_path _ _ _ _ R).
  destruct (resolve_roomy pe_path getcwd name (fv_path a) (fr_roomy _ _ _ _ R)) as (p & Er & _).
  unfold sizeof_path in Er. rewrite Er, (fr_host _ _ _ _ R).
  destruct (sys_openat p (open_flags acc d) (fv_host a)) as [res host] eqn:Eo.
  pose proof (openat_positive p (open_flags acc d) (fv_host a)) as Hpos. rewrite Eo in Hpos. cbn [fst] in Hpos.
  pose proof (rep_env k a host _ R (roomy_init _ _ _ (fr_roomy _ _ _ _ R))) as R'.
  pose proof (swrap_range 32 res ltac:(lia)) as Hr.
  destruct (Z.ltb_spec (i32 res) 0) as [Hneg|Hge].
  { do 3 eexists. split; [done|]. split; [by eapply F_open_error|done]. }
  destruct (new_file_handle_spec (i32 res) _ _ R' ltac:(lia)) as [[Hroom ->]|(Hroom & h & k' & -> & Hrg & Hn & Ehost & Rk)]; cbn [mbind outcome_bind].
  - do 3 eexists. split; [done|]. split; [by eapply F_open_full; eauto; lia|]. by apply (rep_env _ _ _ _ R'), R'.
  - rewrite (proj2 (Z.eqb_neq h 0)) by lia. do 3 eexists. split; [done|]. split; [by eapply F_open; eauto; lia|done].
Qed.

Lemma rep_host (k : kf_state H) (a : files_view H) (host : H) : rep k a -> rep (set_host host k) (with_fhost host a).
Proof. intros []. by split. Qed.
Lemma rep_mem (k : kf_state H) (a : files_view H) (host : H) m : rep k a ->
  rep (mkKf (mkNt (nt_handles (kf_nt k)) (nt_ko (kf_nt k)) m (nt_log (kf_nt k))) host (kf_fds k) (kf_path k) (kf_last_error k))
      (mkFv (fv_files a) (fv_opened a) host m (fv_path a)).
Proof. intros []. by split. Qed.

Definition refines (c : fcall) (k : kf_state H) (a : files_view H) : Prop :=
  exists r (k' : kf_state H) (a' : files_view H), fstep pe_path getcwd sys_munmap thunk_table c k = Ret (r, k') /\ fspec pe_path getcwd a c r a' /\ rep k' a'.
Lemma refines_intro c k a r (k' : kf_state H) (a' : files_view H) : fstep pe_path getcwd sys_munmap thunk_table c k = Ret (r, k') ->
  fspec pe_path getcwd a c r a' -> rep k' a' -> refines c k a.
Proof. intros. by exists r, k', a'. Qed.

Lemma read_refines h buf len k (a : files_view H) : rep k a -> in_u 32 h -> refines (FRead h buf len) k a.
Proof.
  intros R Hb. destruct (descriptor_spec k a h R Hb) as (fd & Ed & Hd). destruct read_thunk as (t & Et & Hz).
  unfold refines. cbn [fstep]. unfold ReadFile. rewrite Et. cbn [mbind outcome_bind]. rewrite (proj2 (Z.eqb_neq t 0) Hz), (usize_32 h Hb), Ed.
  cbn [mbind outcome_bind]. destruct (descriptor_of a h) as [d|] eqn:Edo.
  - destruct Hd as [-> Hd]. rewrite (proj2 (Z.ltb_ge d 0) Hd), (fr_mem _ _ _ _ R), (fr_host _ _ _ _ R).
    destruct (sys_read d buf len (fv_mem a) (fv_host a)) as [[res m] host] eqn:Er.
    pose proof (F_read pe_path getcwd a h buf len d res m host Edo Er) as Hs. unfold answer in Hs.
    destruct (res <? 0); (do 3 eexists; split; [reflexivity|]; split; [exact Hs|by apply rep_mem]).
  - rewrite (proj2 (Z.ltb_lt fd 0) Hd). do 3 eexists; split; [reflexivity|]; split; [by apply F_read_none|exact R].
Qed.
Lemma write_refines h buf len k (a : files_view H) : rep k a -> in_u 32 h -> refines (FWrite h buf len) k a.
Proof.
  intros R Hb. destruct (descriptor_spec k a h R Hb) as (fd & Ed & Hd). destruct write_thunk as (t & Et & Hz).
  unfold refines. cbn [fstep]. unfold WriteFile. rewrite Et. cbn [mbind outcome_bind]. rewrite (proj2 (Z.eqb_neq t 0) Hz), (usize_32 h Hb), Ed.
  cbn [mbind outcome_bind]. destruct (descriptor_of a h) as [d|] eqn:Edo.
  - destruct Hd as [-> Hd]. rewrite (proj2 (Z.ltb_ge d 0) Hd), (fr_mem _ _ _ _ R), (fr_host _ _ _ _ R).
    destruct (sys_write d buf len (fv_mem a) (fv_host a)) as [res host] eqn:Er.
    pose proof (F_write pe_path getcwd a h buf len d res host Edo Er) as Hs. unfold answer in Hs.
    destruct (res <? 0); (do 3 eexists; split; [reflexivity|]; split; [exact Hs|by apply rep_host]).
  - rewrite (proj2 (Z.ltb_lt fd 0) Hd). do 3 eexists; split; [reflexivity|]; split; [by apply F_write_none|exact R].
Qed.
Lemma seek_refines h dist high method k (a : files_view H) : rep k a -> in_u 32 h -> refines (FSeek h dist high method) k a.
Proof.
  intros R Hb. destruct (descriptor_spec k a h R Hb) as (fd & Ed & Hd).
  unfold refines. cbn [fstep]. unfold SetFilePointer. rewrite (usize_32 h Hb), Ed. cbn [mbind outcome_bind].
  destruct (descriptor_of a h) as [d|] eqn:Edo.
  - destruct Hd as [-> Hd]. rewrite (proj2 (Z.ltb_ge d 0) Hd), (fr_host _ _ _ _ R). fold (whence_of method).
    destruct (sys_lseek d (seek_distance dist high) (whence_of method) (fv_host a)) as [pos host] eqn:Er.
    pose proof (F_seek pe_path getcwd a h dist high method d pos host Edo Er) as Hs. unfold answer in Hs.
    destruct (pos <? 0); (do 3 eexists; split; [reflexivity|]; split; [exact Hs|by apply rep_host]).
  - rewrite (proj2 (Z.ltb_lt fd 0) Hd). do 3 eexists; split; [reflexivity|]; split; [by apply F_seek_none|exact R].
Qed.
Lemma size_refines h k (a : files_view H) : rep k a -> in_u 32 h -> refines (FSize h) k a.
Proof.
  intros R Hb. destruct (descriptor_spec k a h R Hb) as (fd & Ed & Hd).
  unfold refines. cbn [fstep]. unfold GetFileSize. rewrite (usize_32 h Hb), Ed. cbn [mbind outcome_bind].
  destruct (descriptor_of a h) as [d|] eqn:Edo.
  - destruct Hd as [-> Hd]. rewrite (proj2 (Z.ltb_ge d 0) Hd), (fr_host _ _ _ _ R).
    destruct (sys_fstat d (fv_host a)) as [st|] eqn:Est; (do 3 eexists; split; [reflexivity|]; split; [|exact R]).
    + by eapply F_size.
    + apply F_size_none. intros ? E. rewrite Edo in E. by injection E as <-.
  - rewrite (proj2 (Z.ltb_lt fd 0) Hd). do 3 eexists; split; [reflexivity|]; split; [apply F_size_none|exact R]. intros ? E. by rewrite Edo in E.
Qed.

Lemma fstep_refines c k (a : files_view H) : rep k a -> fcall_wf c -> refines c k a.
Proof.
  intros R Hw. destruct c as [name acc d|h|h buf len|h buf len|h dist high method|h]; cbn in Hw.
  - destruct (open_refines name acc d k a R) as (r & k' & a' & E & Hs & R'). eapply refines_intro; [|exact Hs|exact R'].
    cbn [fstep]. by rewrite E.
  - destruct (is_std_handle h || (h <=? 2)) eqn:Es.
    + eapply refines_intro; [cbn [fstep]; by rewrite CloseHandle_std|by apply F_close_std|done].
    + pose proof (CloseHandle_spec h k a R Hw Es) as Hc. destruct (fv_files a !! h) as [fd|] eqn:E.
      * destruct Hc as (k' & Ec & R'). eapply refines_intro; [cbn [fstep]; by rewrite Ec|by apply F_close|done].
      * eapply refines_intro; [cbn [fstep]; by rewrite Hc|by apply F_close_none|done].
  - by apply read_refines.
  - by apply write_refines.
  - by apply seek_refines.
  - by apply size_refines.
Qed.

(** C13: Files refine a map from handles to descriptors: every sequence of CreateFileA,
    CloseHandle, ReadFile, WriteFile, SetFilePointer and GetFileSize, on any handles,
    makes exactly the system calls, on exactly the descriptors, that a map from open
    handles to descriptors says: a handle that is given out was not in use, reaches its
    own file until it is closed, and closes it once; a file that finds no handle is
    closed again.  The 64-bit build has room for 509 files at a time, the 32-bit build
    for 64 in the life of the program. *)
Theorem kernel_files_refine l : forall k (a : files_view H), rep k a -> Forall fcall_wf l ->
  exists rs (k' : kf_state H) (a' : files_view H), frun pe_path getcwd sys_munmap thunk_table l k = Ret (rs, k') /\ fspecs pe_path getcwd a l rs a' /\ rep k' a'.
Proof.
  induction l as [|c l IH]; intros k a R Hw; [exists [], k, a; split_and!; [done|constructor|done]|].
  apply Forall_cons in Hw as [Hc Hw]. destruct (fstep_refines c k a R Hc) as (r & k1 & a1 & E & Hs & R1).
  destruct (IH k1 a1 R1 Hw) as (rs & k' & a' & E' & Hs' & R'). exists (r :: rs), k', a'.
  split_and!; [|by econstructor|done]. cbn [frun]. rewrite E. cbn [mbind outcome_bind]. by rewrite E'.
Qed.
End proofs.

(** ** A host

    The descriptors from 3 on, in order; files are empty, and every byte written to
    them is accepted. *)
#[export] Instance counting_host : Host Z := {
  sys_openat _ _ h := (if i32 h =? 0 then 3 else h, h + 1);
  sys_close _ h := h;
  sys_lseek _ off _ h := (off, h);
  sys_fstat _ _ := Some (mkStat 0 (0, 0) (0, 0) (0, 0));
  sys_read _ _ _ m h := (0, m, h);
  sys_write _ _ len _ h := (len, h);
  sys_unlinkat _ h := (0, h) }.
Definition demo_thunks : thunks :=
  match generate_all_thunks (A := arch32) 0x10000 0x8048000 no_thunks with Ret (_, t) => t | _ => no_thunks end.
Definition games_path : wine_path_runtime_state := mkPathState (lit "/games"%string) true.
Definition kf_start : kf_state Z := mkKf (nt_init ∅) 3 [] games_path 0.
Definition fv_start : files_view Z := mkFv ∅ 0 3 ∅ games_path.
Definition demo_frun {A : Arch} (l : list fcall) : outcome (list (Z * option Z) * kf_state Z) :=
  frun [] None (fun _ _ m => (0, m)) demo_thunks l kf_start.

Lemma kf_start_rep {A : Arch} : files_rep [] None kf_start fv_start.
Proof.
  split; try done.
  - exists store_init. split; [apply handle_init_represents|]. intros i. unfold file_lookup. cbn [fv_files fv_start].
    destruct (Nat.ltb_spec i 3) as [Hi|Hi]; [done|]. rewrite lookup_empty. unfold store_init.
    rewrite !lookup_insert_ne, lookup_singleton_ne by lia. by destruct is_my_wine32.
  - destruct is_my_wine32; [|done]. cbn. split_and!; [done|lia|constructor|]. intros h _. by rewrite lookup_nil.
Qed.

Definition demo_files : list fcall := [FOpen (lit "doom.wad") 0 3; FRead 3 0 10; FClose 3; FRead 3 0 10]%string.
Lemma kernel_files_refine_witness : exists rs k a,
  demo_frun (A := arch32) demo_files = Ret (rs, k) /\ fspecs (A := arch32) [] None fv_start demo_files rs a.
Proof.
  destruct (kernel_files_refine (A := arch32) [] None (fun _ _ m => (0, m)) demo_thunks) with (l := demo_files) (k := kf_start) (a := fv_start)
    as (rs & k & a & E & S & _).
  - intros p flags h. cbn. destruct (Z.eqb_spec (i32 h) 0); [done|done].
  - exists (0x10000 + 10 * 15). split; [vm_compute; reflexivity|lia].
  - exists (0x10000 + 11 * 15). split; [vm_compute; reflexivity|lia].
  - apply kf_start_rep.
  - repeat constructor; unfold fcall_wf, in_u; lia.
  - exists rs, k, a. exact (conj E S).
Defined.

(** ** Defects *)

(** The 32-bit build never uses an entry of its table again: after 64 files no file can
    be opened, although all are closed. *)
Definition open_and_close (i : Z) : list fcall := [FOpen (lit "doom.wad"%string) 0 3; FClose (3 + i)].
Example files_run_out :
  (fun r => last (fst r)) <$> demo_frun (A := arch32) (concat (open_and_close <$> seqZ 0 64) ++ [FOpen (lit "doom.wad"%string) 0 3])
  = Ret (Some (0xFFFFFFFF, None)).
Proof. vm_compute. reflexivity. Qed.

(** The table has handles of its own, which are also those of the handle table: here an
    event and a file have the handle 3.  CloseHandle of the event closes the file, and
    the event stays. *)
Definition event_and_file : outcome (Z * kf_state Z) :=
  '(_, s) ← handler_NtCreateEvent 0 1 0 (nt_init ∅);
  CreateFileA (A := arch32) [] None (Some (lit "doom.wad"%string)) 0 3 (mkKf s 3 [] games_path 0).
Example event_handle_closes_file :
  ('(h, k) ← event_and_file;
   '(ok, k) ← CloseHandle (A := arch32) (fun _ _ m => (0, m)) 3 k;
   type ← wine_handle_get_type 3 (nt_handles (kf_nt k));
   Ret (h, ok, kf_fds k, type)) = Ret (3, true, [-1], HANDLE_TYPE_EVENT).
Proof. vm_compute. reflexivity. Qed.

(** Without the upper half the distance is taken for unsigned: the 64-bit build moves
    forward by 4294967286 bytes instead of back by 10. *)
Example negative_distance_is_lost :
  seek_distance (A := arch64) (-10) None = 4294967286 /\ seek_distance (A := arch32) (-10) None = -10.
Proof. done. Qed.
