(* ===== verification/VirtualMem.v ===== *)
(** * Virtual memory of kernel32 (src/msvcrt/kernel32_memory.c)

    VirtualAlloc, VirtualFree and VirtualProtect over the handlers of Ntdll.  The sizes
    of allocations are kept in a table, for VirtualFree with the size 0. *)
From S2P Require Import Prelude Bytes CStr HandleTable Ntdll NtSync.

Definition MAX_VM_ALLOCS : nat := 64.
Definition MEM_RELEASE : Z := 0x8000.
Definition ERROR_ACCESS_DENIED : Z := 5.

(** ** The table: bases and sizes *)

Abbreviation vm_table := (list (Z * Z)).

Fixpoint vm_find_loop (base : Z) (l : vm_table) (i : Z) : Z :=
  match l with [] => -1 | (b, _) :: l => if b =? base then i else vm_find_loop base l (i + 1) end.
Definition vm_alloc_find (base : Z) (l : vm_table) : Z := vm_find_loop base l 0.
Definition vm_alloc_add (base size : Z) (l : vm_table) : vm_table :=
  if (MAX_VM_ALLOCS <=? length l)%nat then l else l ++ [(base, size)].
Definition vm_alloc_remove (idx : Z) (l : vm_table) : outcome vm_table :=
  if (idx <? 0) || (Z.of_nat (length l) <=? idx) then Ret l
  else
    last ← deref (l !! (length l - 1)%nat);
    Ret (take (length l - 1) (<[Z.to_nat idx := last]> l)).

Record vm_state := mkVm { vm_nt : nt_state; vm_allocs : vm_table; vm_last_error : Z }.

Definition on_vm {X} (m : nt X) (s : vm_state) : outcome (X * vm_state) :=
  '(x, n) ← m (vm_nt s); Ret (x, mkVm n (vm_allocs s) (vm_last_error s)).

Section code.
Context {A : Arch}.
(** mmap, munmap and mprotect. *)
Variable sys_mmap : forall (addr size prot flags fd off : Z), mem -> Z * mem.
Variable sys_munmap : forall (addr size : Z), mem -> Z * mem.
Variable sys_mprotect : forall (addr size prot : Z), Z.
(** The addresses of the local variables base and region_size, of eight bytes each. *)
Variable base region_size : Z.

Definition VirtualAlloc (lpAddress dwSize flProtect : Z) (s : vm_state) : outcome (Z * vm_state) :=
  if dwSize =? 0 then Ret (0, s)
  else
    '(_, s) ← on_vm (mstore 8 base lpAddress) s;
    '(_, s) ← on_vm (mstore 8 region_size dwSize) s;
    '(status, s) ← on_vm (handler_NtAllocateVirtualMemory sys_mmap HANDLE_CURRENT_PROCESS base region_size flProtect) s;
    if negb (status =? STATUS_SUCCESS) then Ret (0, s)
    else
      '(b, s) ← on_vm (mload 8 base) s;
      '(size, s) ← on_vm (mload 8 region_size) s;
      Ret (usize b, mkVm (vm_nt s) (vm_alloc_add b size (vm_allocs s)) (vm_last_error s)).

(** The size of the region to free, [None] when it is not known. *)
Definition region_to_free (lpAddress dwSize dwFreeType : Z) (s : vm_state) : outcome (option Z) :=
  if negb (Z.land dwFreeType MEM_RELEASE =? 0) && (dwSize =? 0) then
    let idx := vm_alloc_find lpAddress (vm_allocs s) in
    if 0 <=? idx then e ← deref (vm_allocs s !! Z.to_nat idx); Ret (Some e.2)
    else
      vidx ← find_view (nt_ko (vm_nt s)) (usize lpAddress);
      match vidx with
      | Some i => v ← deref (views (nt_ko (vm_nt s)) !! i); Ret (Some (v_size v))
      | None => Ret None
      end
  else Ret (Some dwSize).

Definition VirtualFree (lpAddress dwSize dwFreeType : Z) (s : vm_state) : outcome (bool * vm_state) :=
  if lpAddress =? 0 then Ret (false, s)
  else
    '(_, s) ← on_vm (mstore 8 base lpAddress) s;
    size ← region_to_free lpAddress dwSize dwFreeType s;
    match size with
    | None => Ret (false, s)
    | Some size =>
        '(_, s) ← on_vm (mstore 8 region_size size) s;
        '(status, s) ← on_vm (handler_NtFreeVirtualMemory sys_munmap HANDLE_CURRENT_PROCESS base region_size) s;
        if status =? STATUS_SUCCESS then
          '(b, s) ← on_vm (mload 8 base) s;
          let idx := vm_alloc_find b (vm_allocs s) in
          l ← (if 0 <=? idx then vm_alloc_remove idx (vm_allocs s) else Ret (vm_allocs s));
          Ret (true, mkVm (vm_nt s) l (vm_last_error s))
        else Ret (false, s)
    end.

(** The result and *lpflOldProtect. *)
Definition VirtualProtect (lpAddress dwSize flNewProtect : Z) (s : vm_state) : bool * Z * vm_state :=
  let prot := map_protect flNewProtect in
  let page_start := Z.land lpAddress (usize (- PAGE_SIZE)) in
  let offset := usize (lpAddress - page_start) in
  let total_size := usize (offset + dwSize) in
  let aligned_size := Z.land (usize (total_size + PAGE_SIZE - 1)) (usize (- PAGE_SIZE)) in
  if negb (sys_mprotect page_start aligned_size prot =? 0)
  then (false, flNewProtect, mkVm (vm_nt s) (vm_allocs s) ERROR_ACCESS_DENIED)
  else (true, flNewProtect, s).
End code.

(** ** The table as a list

    The first allocation at an address that is still recorded. *)
Definition vm_first (base : Z) (l : vm_table) : option Z := snd ∘ snd <$> list_find (fun e => e.1 = base) l.

Lemma vm_find_loop_spec b l i : vm_find_loop b l i = match list_find (fun e => e.1 = b) l with Some (j, _) => i + Z.of_nat j | None => -1 end.
Proof.
  revert i. induction l as [|[b' n] l IH]; intros i; [done|]. cbn [vm_find_loop list_find]. destruct (Z.eqb_spec b' b) as [->|Hb].
  - rewrite decide_True by done. simpl. lia.
  - rewrite decide_False by done. rewrite IH. destruct (list_find _ l) as [[j e]|]; simpl; [lia|done].
Qed.
Lemma vm_alloc_find_spec b l : match vm_first b l with
  | Some n => 0 <= vm_alloc_find b l /\ snd <$> l !! Z.to_nat (vm_alloc_find b l) = Some n
  | None => vm_alloc_find b l = -1
  end.
Proof.
  unfold vm_first, vm_alloc_find. rewrite vm_find_loop_spec. destruct (list_find _ l) as [[j e]|] eqn:E; simpl; [|done].
  apply list_find_Some in E as (E & _ & _). rewrite ?Z.add_0_l, Nat2Z.id, E. split; [lia|done].
Qed.
Lemma vm_first_app b l1 l2 : vm_first b (l1 ++ l2) = match vm_first b l1 with Some n => Some n | None => vm_first b l2 end.
Proof.
  unfold vm_first. induction l1 as [|[b' n] l1 IH]; [simpl; by destruct (list_find _ l2)|]. cbn [app list_find].
  destruct (decide (_ = b)); [done|]. destruct (list_find _ (l1 ++ l2)) as [[]|], (list_find _ l1) as [[]|]; simpl in *; congruence.
Qed.

(** ** Locals *)

Lemma mload_bytes_frame n : forall a m m', (forall x, a <= x < a + Z.of_nat n -> m' !! x = m !! x) -> mload_bytes n a m' = mload_bytes n a m.
Proof.
  induction n as [|n IH]; intros a m m' Hf; [done|]. cbn [mload_bytes]. rewrite Hf by lia. by rewrite (IH (a + 1) m m') by (intros; apply Hf; lia).
Qed.
(** A variable of eight bytes at [p] holds [v]. *)
Definition local_is (m : mem) (p v : Z) : Prop := mload_bytes 8 p m = Some (le_split 8 v).

Lemma local_load s p v : local_is (nt_mem s) p v -> mload 8 p s = Ret (u64 v, s).
Proof. intros E. unfold mload. rewrite E. cbn [deref mbind outcome_bind]. by rewrite le_combine_split. Qed.
Lemma local_store s p v : mapped (nt_mem s) p 8 -> exists m, mstore 8 p v s = Ret (tt, with_mem s m) /\ local_is m p v /\
  (forall x, is_Some (m !! x) <-> is_Some (nt_mem s !! x)) /\ (forall x, x < p \/ p + 8 <= x -> m !! x = nt_mem s !! x).
Proof.
  intros Hm. destruct (mstore_bytes_ok (le_split 8 v) p (nt_mem s)) as (m & E & L & D & F); [by rewrite length_le_split|].
  exists m. unfold mstore, mstore_list. rewrite E. unfold local_is. rewrite length_le_split in L. split_and!; [done|done|done|].
  intros x Hx. apply F. unfold blen. rewrite length_le_split. lia.
Qed.

(** ** Programs

    A guest allocates memory anywhere or at an address of its choice, and frees, with
    any size and type. *)
Inductive vcall := VAlloc (addr size protect : Z) | VFree (addr size type : Z).

(** The bytes of the pages of a region. *)
Definition in_pages (a n x : Z) : Prop := a <= x < a + (n + 4095) / 4096 * 4096.

Section programs.
Context {A : Arch}.
Variable sys_mmap : forall (addr size prot flags fd off : Z), mem -> Z * mem.
Variable sys_munmap : forall (addr size : Z), mem -> Z * mem.
Variable base region_size : Z.
Hypothesis locals_apart : 0 < base /\ base + 8 <= region_size /\ region_size + 8 <= usize (-4095).
(** mmap without MAP_FIXED answers an error number, or the address of pages that were
    not mapped; it changes nothing else.  munmap changes nothing outside of its pages. *)
Hypothesis mmap_law : forall a n p o m, let '(ret, m') := sys_mmap a n p (Z.lor MAP_PRIVATE MAP_ANONYMOUS) (-1) o m in
  0 < ret < 2 ^ ptr_bits /\
  (is_errno ret = true /\ m' = m \/
   (forall x, in_pages ret n x -> m !! x = None) /\ (forall x, ~ in_pages ret n x -> m' !! x = m !! x)).
Hypothesis munmap_law : forall a n m x, ~ in_pages a n x -> snd (sys_munmap a n m) !! x = m !! x.

Definition is_local (x : Z) : Prop := base <= x < base + 8 \/ region_size <= x < region_size + 8.
Definition keeps_locals (m m' : mem) : Prop := forall x, is_local x -> m' !! x = m !! x.
(** A region without the local variables. *)
Definition apart (a n : Z) : Prop := forall x, is_local x -> ~ in_pages a n x.

Definition vstep (c : vcall) (s : vm_state) : outcome (Z * vm_state) :=
  match c with
  | VAlloc addr size protect => VirtualAlloc sys_mmap base region_size addr size protect s
  | VFree addr size type => '(ok, s) ← VirtualFree sys_munmap base region_size addr size type s; Ret (if (ok : bool) then 1 else 0, s)
  end.
Fixpoint vrun (l : list vcall) (s : vm_state) : outcome (list Z * vm_state) :=
  match l with
  | [] => Ret ([], s)
  | c :: l => '(r, s) ← vstep c s; '(rs, s) ← vrun l s; Ret (r :: rs, s)
  end.

(** The size of the view that is mapped at an address. *)
Definition view_size_at (k : kernel_objects) (addr : Z) : option Z :=
  match find_view k addr with Ret (Some i) => v_size <$> views k !! i | _ => None end.
(** The size that a call of VirtualFree frees: with MEM_RELEASE and the size 0 the
    recorded one, or that of a view. *)
Definition freed_size (k : kernel_objects) (l : vm_table) (addr size type : Z) : option Z :=
  if negb (Z.land type MEM_RELEASE =? 0) && (size =? 0)
  then match vm_first addr l with Some n => Some n | None => view_size_at k addr end
  else Some size.

(** What they do to a ledger of sizes by address, in which nothing is ever deleted, and
    to the log of unmapped regions; the views do not change. *)
Definition mmap_value (addr size protect : Z) (m : mem) : Z :=
  INLINE_SYSCALL_MMAP (fst (sys_mmap addr (usize size) (map_protect protect) (Z.lor MAP_PRIVATE MAP_ANONYMOUS) (-1) 0 m)).
Variable ko : kernel_objects.
Inductive vspec (l : vm_table) (log : list syscall) : vcall -> Z -> vm_table -> list syscall -> Prop :=
| V_none addr protect : vspec l log (VAlloc addr 0 protect) 0 l log
| V_refused addr size protect m : mmap_value addr size protect m = MAP_FAILED -> vspec l log (VAlloc addr size protect) 0 l log
| V_alloc addr size protect m p : mmap_value addr size protect m = p -> p <> MAP_FAILED -> 0 < p -> (length l < 64)%nat ->
    vspec l log (VAlloc addr size protect) p (l ++ [(p, size)]) log
| V_alloc_unrecorded addr size protect m p : mmap_value addr size protect m = p -> p <> MAP_FAILED -> 0 < p -> (64 <= length l)%nat ->
    vspec l log (VAlloc addr size protect) p l log
| V_free_null size type : vspec l log (VFree 0 size type) 0 l log
| V_free_unknown addr size type : freed_size ko l addr size type = None -> vspec l log (VFree addr size type) 0 l log
| V_free addr size type n m : addr <> 0 -> freed_size ko l addr size type = Some n ->
    vspec l log (VFree addr size type) (if fst (sys_munmap addr n m) =? 0 then 1 else 0) l (log ++ [SysMunmap addr n]).

Inductive vspecs : vm_table -> list syscall -> list vcall -> list Z -> vm_table -> list syscall -> Prop :=
| vspecs_nil l log : vspecs l log [] [] l log
| vspecs_cons l log c r l1 log1 cs rs l2 log2 : vspec l log c r l1 log1 -> vspecs l1 log1 cs rs l2 log2 ->
    vspecs l log (c :: cs) (r :: rs) l2 log2.

(** The locals are mapped, and neither a recorded region nor a view holds them. *)
Record vm_ok (s : vm_state) : Prop := {
  vo_base : mapped (nt_mem (vm_nt s)) base 8;
  vo_region : mapped (nt_mem (vm_nt s)) region_size 8;
  vo_table : Forall (fun e => 0 < e.1 /\ 0 <= e.2 < 2 ^ ptr_bits /\ apart e.1 e.2) (vm_allocs s);
  vo_ko : nt_ko (vm_nt s) = ko }.
Definition views_ok : Prop := forall addr,
  match find_view ko addr with
  | Ret None => True
  | Ret (Some i) => exists v, views ko !! i = Some v /\ 0 <= v_size v < 2 ^ ptr_bits /\ apart addr (v_size v)
  | _ => False
  end.
Hypothesis views_apart : views_ok.

Lemma keeps_mapped m m' : keeps_locals m m' -> mapped m base 8 /\ mapped m region_size 8 -> mapped m' base 8 /\ mapped m' region_size 8.
Proof. intros K [H1 H2]. split; intros i Hi; (rewrite K by (unfold is_local; lia)); by (apply H1 || apply H2). Qed.
(** The locals are mapped, so that a new mapping does not hold them. *)
Lemma local_mapped m x : mapped m base 8 -> mapped m region_size 8 -> is_local x -> is_Some (m !! x).
Proof.
  intros H1 H2 [Hx|Hx]; [specialize (H1 (Z.to_nat (x - base)))|specialize (H2 (Z.to_nat (x - region_size)))].
  - replace (base + Z.of_nat (Z.to_nat (x - base))) with x in H1 by lia. apply H1. lia.
  - replace (region_size + Z.of_nat (Z.to_nat (x - region_size))) with x in H2 by lia. apply H2. lia.
Qed.
Lemma mmap_keeps a n p o m : mapped m base 8 -> mapped m region_size 8 ->
  keeps_locals m (snd (sys_mmap a n p (Z.lor MAP_PRIVATE MAP_ANONYMOUS) (-1) o m)).
Proof.
  intros H1 H2. pose proof (mmap_law a n p o m) as Hl. destruct (sys_mmap _ _ _ _ _ _ m) as [ret m']. destruct Hl as [_ [[_ ->]|[Hn Hf]]]; [done|].
  intros x Hx. apply Hf. intros Hin%Hn. destruct (local_mapped m x H1 H2 Hx) as [v Hv]. cbn in *. congruence.
Qed.
Lemma mmap_apart a n p o m : mapped m base 8 -> mapped m region_size 8 ->
  let r := INLINE_SYSCALL_MMAP (fst (sys_mmap a n p (Z.lor MAP_PRIVATE MAP_ANONYMOUS) (-1) o m)) in r <> MAP_FAILED -> apart r n.
Proof.
  intros H1 H2. pose proof (mmap_law a n p o m) as Hl. destruct (sys_mmap _ _ _ _ _ _ m) as [ret m']. cbn zeta. cbn [fst].
  unfold INLINE_SYSCALL_MMAP. intros Hr x Hx. destruct Hl as [Hret [[He _]|[Hn _]]].
  - assert (E : (if is_my_wine32 then ret else if 2 ^ 63 <=? ret then MAP_FAILED else ret) = ret \/ (if is_my_wine32 then ret else if 2 ^ 63 <=? ret then MAP_FAILED else ret) = MAP_FAILED)
      by (destruct is_my_wine32; [by left|destruct (2 ^ 63 <=? ret); auto]).
    destruct E as [-> |E]; [|by rewrite E in Hr]. unfold is_errno in He. unfold in_pages. destruct Hx; lia.
  - destruct (local_mapped m x H1 H2 Hx) as [v Hv].
    destruct is_my_wine32; [intros Hin%Hn; congruence|]. destruct (2 ^ 63 <=? ret); [done|]. intros Hin%Hn. congruence.
Qed.
Lemma same_domain m m' p : (forall x, is_Some (m' !! x) <-> is_Some (m !! x)) -> mapped m p 8 -> mapped m' p 8.
Proof. intros D Hm i Hi. apply D. by apply Hm. Qed.
Lemma local_kept m m' p v : (forall x, p <= x < p + 8 -> m' !! x = m !! x) -> local_is m p v -> local_is m' p v.
Proof. intros K L. unfold local_is in *. by rewrite (mload_bytes_frame 8 p m m') by (intros; apply K; lia). Qed.

(** Both variables are set. *)
Lemma set_locals s v w : mapped (nt_mem s) base 8 -> mapped (nt_mem s) region_size 8 -> exists m1 m2,
  mstore 8 base v s = Ret (tt, with_mem s m1) /\ mstore 8 region_size w (with_mem s m1) = Ret (tt, with_mem s m2) /\
  local_is m2 base v /\ local_is m2 region_size w /\ mapped m2 base 8 /\ mapped m2 region_size 8.
Proof.
  intros Hb Hr. destruct (local_store s base v Hb) as (m1 & E1 & L1 & D1 & F1).
  destruct (local_store (with_mem s m1) region_size w) as (m2 & E2 & L2 & D2 & F2); [by eapply same_domain|].
  exists m1, m2. split_and!; [done|done| |done|by eapply same_domain; [exact D2|]; eapply same_domain|by eapply same_domain; [exact D2|]; eapply same_domain].
  eapply local_kept; [|exact L1]. intros x Hx. apply F2. lia.
Qed.

Lemma on_vm_ret {X} (m : nt X) x n s : m (vm_nt s) = Ret (x, n) -> on_vm m s = Ret (x, mkVm n (vm_allocs s) (vm_last_error s)).
Proof. intros E. unfold on_vm. by rewrite E. Qed.

Lemma INLINE_range a n p o m : 0 < INLINE_SYSCALL_MMAP (fst (sys_mmap a n p (Z.lor MAP_PRIVATE MAP_ANONYMOUS) (-1) o m)) < 2 ^ ptr_bits.
Proof.
  pose proof (mmap_law a n p o m) as Hl. destruct (sys_mmap _ _ _ _ _ _ m) as [ret m']. destruct Hl as [Hr _]. cbn [fst]. unfold INLINE_SYSCALL_MMAP, MAP_FAILED, usize. unfold ptr_bits in *.
  destruct is_my_wine32; [done|]. destruct (2 ^ 63 <=? _); [|done]. by vm_compute.
Qed.
Lemma ptr_u64 v : 0 <= v < 2 ^ ptr_bits -> u64 v = v /\ usize v = v.
Proof. unfold usize. intros Hv. destruct ptr_bits_cases as [E|E]; rewrite E in *; split; apply wrap_small; lia. Qed.

(** The handler of VirtualAlloc on its variables. *)
Lemma allocate_spec s addr size protect m : 0 <= addr < 2 ^ ptr_bits -> 0 <= size < 2 ^ ptr_bits -> nt_mem s = m ->
  local_is m base addr -> local_is m region_size size -> mapped m base 8 -> mapped m region_size 8 ->
  exists status m', handler_NtAllocateVirtualMemory sys_mmap HANDLE_CURRENT_PROCESS base region_size protect s = Ret (status, with_mem s m') /\
    mapped m' base 8 /\ mapped m' region_size 8 /\
    if mmap_value addr size protect m =? MAP_FAILED then status = STATUS_MEMORY_NOT_AVAILABLE
    else status = STATUS_SUCCESS /\ local_is m' base (mmap_value addr size protect m) /\ local_is m' region_size size.
Proof.
  intros Ha0 Hs <- Lb Lr Mb Mr. destruct (ptr_u64 size Hs) as [E1 E2]. destruct (ptr_u64 addr Ha0) as [Ea1 Ea2]. destruct locals_apart as (Hp & Ha & _).
  unfold handler_NtAllocateVirtualMemory, requested_addr. rewrite (proj2 (Z.eqb_neq base 0)) by lia. cbn [negb Z.eqb].
  rewrite Z.eqb_refl. cbn [negb]. unfold mbind, nt_bind. rewrite (local_load _ _ _ Lb). cbn [mbind outcome_bind mret nt_ret].
  rewrite (local_load _ _ _ Lr). cbn [mbind outcome_bind]. rewrite E1, Ea1, Ea2.
  unfold Ntdll.mmap, mmap_value. set (m := nt_mem s) in *.
  pose proof (mmap_keeps addr (usize size) (map_protect protect) 0 m Mb Mr) as K.
  pose proof (INLINE_range addr (usize size) (map_protect protect) 0 m) as Hr.
  destruct (sys_mmap _ _ _ _ _ _ m) as [ret m1]. cbn [fst snd] in *.
  destruct (keeps_mapped m m1 K (conj Mb Mr)) as [Mb1 Mr1]. cbn [mbind outcome_bind].
  destruct (INLINE_SYSCALL_MMAP ret =? MAP_FAILED); cbn [mret nt_ret].
  { by exists STATUS_MEMORY_NOT_AVAILABLE, m1. }
  unfold mstore_opt. rewrite (proj2 (Z.eqb_neq base 0)) by lia.
  set (s1 := mkNt _ _ m1 _). destruct (local_store s1 base (INLINE_SYSCALL_MMAP ret) Mb1) as (m2 & Es & L2 & D2 & F2). rewrite Es. cbn [mbind outcome_bind].
  exists STATUS_SUCCESS, m2. split_and!; [done|by eapply same_domain|by eapply same_domain|done|done|].
  eapply local_kept; [|exact Lr]. intros x Hx. rewrite F2 by lia. cbn [nt_mem s1]. by apply K; right.
Qed.

Lemma usize_u64 n : usize (u64 n) = usize n.
Proof.
  unfold usize, wrap. apply Z.mod_mod_divide. destruct ptr_bits_cases as [-> | ->]; [|apply Z.divide_refl]. by exists (2 ^ 32).
Qed.

(** The handler of VirtualFree on its variables: it sets the base to 0. *)
Lemma release_spec s addr n m : 0 < addr < 2 ^ ptr_bits -> 0 <= n < 2 ^ ptr_bits -> apart addr n -> nt_mem s = m -> local_is m base addr -> local_is m region_size n ->
  mapped m base 8 -> mapped m region_size 8 ->
  exists status m', handler_NtFreeVirtualMemory sys_munmap HANDLE_CURRENT_PROCESS base region_size s
      = Ret (status, mkNt (nt_handles s) (nt_ko s) m' (nt_log s ++ [SysMunmap addr n])) /\
    mapped m' base 8 /\ mapped m' region_size 8 /\
    if fst (sys_munmap addr n m) =? 0 then status = STATUS_SUCCESS /\ local_is m' base 0 else status = STATUS_UNSUCCESSFUL.
Proof.
  intros Hs Hn Hap <- Lb Lr Mb Mr. destruct (ptr_u64 addr ltac:(lia)) as [E1 E2]. destruct (ptr_u64 n Hn) as [_ En].
  destruct locals_apart as (Hp & Ha & _).
  unfold handler_NtFreeVirtualMemory. rewrite (proj2 (Z.eqb_neq base 0)), Z.eqb_refl by lia. cbn [negb]. unfold mbind, nt_bind.
  rewrite (local_load _ _ _ Lb), E1. cbn [mbind outcome_bind]. rewrite (proj2 (Z.eqb_neq addr 0)) by lia.
  rewrite (local_load _ _ _ Lr). cbn [mbind outcome_bind]. rewrite usize_u64, E2, En. unfold munmap. set (m := nt_mem s) in *.
  assert (K : keeps_locals m (snd (sys_munmap addr n m))) by (intros x Hx; apply munmap_law; by apply Hap).
  destruct (sys_munmap addr n m) as [res m1]. cbn [fst snd] in *.
  destruct (keeps_mapped m m1 K (conj Mb Mr)) as [Mb1 Mr1]. cbn [mbind outcome_bind].
  destruct (res =? 0); cbn [negb].
  2: { by exists STATUS_UNSUCCESSFUL, m1. }
  set (s1 := mkNt _ _ m1 _). destruct (set_locals s1 0 0 Mb1 Mr1) as (m2 & m3 & -> & Es & Lb3 & _ & Mb3 & Mr3). cbn [mbind outcome_bind].
  rewrite Es. cbn [mbind outcome_bind mret nt_ret]. by exists STATUS_SUCCESS, m3.
Qed.

(** Addresses and sizes of a register; a region whose size the guest gives itself does
    not hold the stack that VirtualFree runs on. *)
Definition vcall_wf (c : vcall) : Prop :=
  match c with
  | VAlloc addr size _ => 0 <= addr < 2 ^ ptr_bits /\ 0 <= size < 2 ^ ptr_bits
  | VFree addr size type => 0 <= addr < 2 ^ ptr_bits /\ 0 <= size < 2 ^ ptr_bits /\
      (negb (Z.land type MEM_RELEASE =? 0) && (size =? 0) = false -> apart addr size)
  end.

Lemma alloc_vspec addr size protect s : vm_ok s -> vcall_wf (VAlloc addr size protect) -> exists r s',
  vstep (VAlloc addr size protect) s = Ret (r, s') /\ vspec (vm_allocs s) (nt_log (vm_nt s)) (VAlloc addr size protect) r (vm_allocs s') (nt_log (vm_nt s')) /\ vm_ok s'.
Proof.
  intros [Mb Mr T0 V0] [Ha Hs]. cbn [vstep]. unfold VirtualAlloc. destruct (Z.eqb_spec size 0) as [->|Hz].
  { exists 0, s. split_and!; [done|constructor|done]. }
  destruct (set_locals (vm_nt s) addr size Mb Mr) as (m1 & m2 & E1 & E2 & Lb & Lr & Mb2 & Mr2).
  rewrite (on_vm_ret _ _ _ _ E1). cbn [mbind outcome_bind vm_allocs vm_last_error].
  rewrite (on_vm_ret (mstore 8 region_size size) tt _ (mkVm (with_mem (vm_nt s) m1) (vm_allocs s) (vm_last_error s)) E2). cbn [mbind outcome_bind vm_allocs vm_last_error].
  destruct (allocate_spec (with_mem (vm_nt s) m2) addr size protect m2 Ha Hs eq_refl Lb Lr Mb2 Mr2) as (status & m3 & E3 & Mb3 & Mr3 & Hst).
  erewrite on_vm_ret by exact E3. cbn [mbind outcome_bind vm_allocs vm_last_error].
  pose proof (INLINE_range addr (usize size) (map_protect protect) 0 m2) as Hr. fold (mmap_value addr size protect m2) in Hr.
  pose proof (mmap_apart addr (usize size) (map_protect protect) 0 m2 Mb2 Mr2) as Hap. cbn zeta in Hap. fold (mmap_value addr size protect m2) in Hap.
  destruct (Z.eqb_spec (mmap_value addr size protect m2) MAP_FAILED) as [Ef|Ef].
  - subst status. do 2 eexists. split; [reflexivity|]. split; [by eapply V_refused|by split].
  - destruct Hst as (-> & Lb3 & Lr3). cbn [negb Z.eqb STATUS_SUCCESS].
    erewrite on_vm_ret by (by apply local_load). cbn [mbind outcome_bind vm_allocs vm_last_error].
    erewrite on_vm_ret by (by apply local_load). cbn [mbind outcome_bind vm_allocs vm_last_error vm_nt].
    destruct (ptr_u64 (mmap_value addr size protect m2) ltac:(lia)) as [-> ->]. destruct (ptr_u64 size Hs) as [-> Eu]. rewrite Eu in Hap.
    do 2 eexists. split; [reflexivity|]. unfold vm_alloc_add, MAX_VM_ALLOCS.
    destruct (Nat.leb_spec 64 (length (vm_allocs s))); (split; [(by eapply V_alloc_unrecorded; [| |lia|]) || (by eapply V_alloc; [| |lia|])|]); [by split|].
    split; try done. cbn [vm_allocs]. apply Forall_app. split; [done|]. apply Forall_singleton. cbn. split_and!; [lia|lia|lia|by apply Hap].
Qed.

Lemma vm_first_in addr l n : vm_first addr l = Some n -> (addr, n) ∈ l.
Proof.
  unfold vm_first. destruct (list_find _ l) as [[i [b k]]|] eqn:E; [|done]. simpl. intros [= <-]. apply list_find_Some in E as (E & <- & _).
  by apply list_elem_of_lookup_2 in E.
Qed.
Lemma no_null_record s : vm_ok s -> vm_first 0 (vm_allocs s) = None.
Proof.
  intros V. destruct (vm_first 0 (vm_allocs s)) as [n|] eqn:E; [|done]. apply vm_first_in in E.
  destruct (proj1 (Forall_forall _ _) (vo_table s V) _ E) as [? _]. cbn in *. lia.
Qed.

(** The size that is found is the specified one, of a region without the locals. *)
Lemma region_spec s s1 addr size type : vm_ok s -> vcall_wf (VFree addr size type) -> vm_allocs s1 = vm_allocs s -> nt_ko (vm_nt s1) = ko ->
  region_to_free addr size type s1 = Ret (freed_size ko (vm_allocs s) addr size type) /\
  forall n, freed_size ko (vm_allocs s) addr size type = Some n -> 0 <= n < 2 ^ ptr_bits /\ apart addr n.
Proof.
  intros V (Ha & Hs & Hap) El Ek. unfold region_to_free, freed_size. rewrite El, Ek.
  destruct (negb _ && (size =? 0)) eqn:Eb; [|split; [done|intros n [= <-]; auto]].
  pose proof (vm_alloc_find_spec addr (vm_allocs s)) as Hf. destruct (vm_first addr (vm_allocs s)) as [n|] eqn:En.
  - destruct Hf as [Hi Hl]. rewrite (proj2 (Z.leb_le 0 _) Hi). destruct (vm_allocs s !! _) as [[b n']|]; [|done]. simpl in Hl. injection Hl as ->.
    split; [done|]. intros k [= <-]. apply vm_first_in in En. by destruct (proj1 (Forall_forall _ _) (vo_table s V) _ En) as (_ & ? & ?).
  - rewrite Hf. cbn [Z.leb Z.compare]. destruct (ptr_u64 addr Ha) as [_ ->]. unfold view_size_at. pose proof (views_apart addr) as Hv.
    destruct (find_view ko addr) as [[i|]| |]; [|done|done|done]. destruct Hv as (v & Ev & Hvs & Hva). rewrite Ev. cbn [mbind outcome_bind]. rewrite Ev. split; [done|]. cbn.
    by intros k [= <-].
Qed.

Lemma free_vspec addr size type s : vm_ok s -> vcall_wf (VFree addr size type) -> exists r s',
  vstep (VFree addr size type) s = Ret (r, s') /\ vspec (vm_allocs s) (nt_log (vm_nt s)) (VFree addr size type) r (vm_allocs s') (nt_log (vm_nt s')) /\ vm_ok s'.
Proof.
  intros V Hw. pose proof V as [Mb Mr T0 V0]. pose proof Hw as (Ha & Hs & _). cbn [vstep]. unfold VirtualFree. destruct (Z.eqb_spec addr 0) as [->|Hz].
  { exists 0, s. split_and!; [done|by constructor|done]. }
  destruct (local_store (vm_nt s) base addr Mb) as (m1 & E1 & L1 & D1 & F1).
  erewrite on_vm_ret by exact E1. cbn [mbind outcome_bind vm_allocs vm_last_error].
  destruct (region_spec s (mkVm (with_mem (vm_nt s) m1) (vm_allocs s) (vm_last_error s)) addr size type V Hw eq_refl V0) as [-> Hn].
  cbn [mbind outcome_bind]. destruct (freed_size ko (vm_allocs s) addr size type) as [n|] eqn:En.
  - destruct (Hn n eq_refl) as [Hn0 Hap].
    destruct (local_store (with_mem (vm_nt s) m1) region_size n) as (m2 & E2 & L2 & D2 & F2); [by eapply same_domain|].
    erewrite on_vm_ret by exact E2. cbn [mbind outcome_bind vm_allocs vm_last_error].
    destruct (release_spec (with_mem (vm_nt s) m2) addr n m2) as (status & m3 & E3 & Mb3 & Mr3 & Hst); try done; [lia| | | |].
    { eapply local_kept; [|exact L1]. intros x Hx. apply F2. destruct locals_apart. lia. }
    { eapply same_domain; [exact D2|]. by eapply same_domain. } { eapply same_domain; [exact D2|]. by eapply same_domain. }
    erewrite on_vm_ret by exact E3. cbn [mbind outcome_bind vm_allocs vm_last_error]. cbn [with_mem nt_handles nt_ko nt_log] in *.
    pose proof (V_free (vm_allocs s) (nt_log (vm_nt s)) addr size type n m2 Hz En) as Hspec.
    destruct (fst (sys_munmap addr n m2) =? 0).
    + destruct Hst as [-> L3]. cbn [Z.eqb STATUS_SUCCESS]. erewrite on_vm_ret by (by apply local_load). cbn [mbind outcome_bind vm_allocs vm_last_error].
      pose proof (vm_alloc_find_spec 0 (vm_allocs s)) as H0. rewrite (no_null_record s V) in H0. change (u64 0) with 0. rewrite H0.
      cbn [Z.leb Z.compare mbind outcome_bind]. do 2 eexists. split; [reflexivity|]. split; [exact Hspec|by split].
    + subst status. do 2 eexists. split; [reflexivity|]. split; [exact Hspec|by split].
  - do 2 eexists. split; [reflexivity|]. split; [by constructor|]. split; [by eapply same_domain|by eapply same_domain|done|done].
Qed.

(** C26: What VirtualAlloc and VirtualFree do with memory, in every program of such calls:
    VirtualAlloc returns what mmap answers for the wanted address and size, and records
    it while fewer than 64 allocations are recorded.  VirtualFree unmaps, at the address
    that it is given, the size that it is given; with MEM_RELEASE and the size 0, the
    size of the first record of this address in a ledger from which nothing is ever
    deleted, or else of the view that is mapped there; without either it unmaps nothing
    and fails.  The guest's own sizes are those of regions without the stack that
    VirtualFree runs on. *)
Theorem virtual_memory_refines l : forall s, vm_ok s -> Forall vcall_wf l -> exists rs s',
  vrun l s = Ret (rs, s') /\ vspecs (vm_allocs s) (nt_log (vm_nt s)) l rs (vm_allocs s') (nt_log (vm_nt s')) /\ vm_ok s'.
Proof.
  induction l as [|c l IH]; intros s V Hw; [exists [], s; split_and!; [done|constructor|done]|].
  apply Forall_cons in Hw as [Hc Hw].
  assert (Hstep : exists r s1, vstep c s = Ret (r, s1) /\ vspec (vm_allocs s) (nt_log (vm_nt s)) c r (vm_allocs s1) (nt_log (vm_nt s1)) /\ vm_ok s1)
    by (destruct c; [by apply alloc_vspec|by apply free_vspec]).
  destruct Hstep as (r & s1 & E & S & V1). destruct (IH s1 V1 Hw) as (rs & s' & E' & S' & V').
  exists (r :: rs), s'. split_and!; [|by econstructor|done]. cbn [vrun]. rewrite E. cbn [mbind outcome_bind]. by rewrite E'.
Qed.
End programs.

(** VirtualProtect protects the pages that hold the given bytes, and no other. *)
Theorem VirtualProtect_pages {A : Arch} sys_mprotect addr size protect s : 0 <= addr -> 0 <= size -> addr + size + 4095 < 2 ^ ptr_bits ->
  exists start len, start mod 4096 = 0 /\ len mod 4096 = 0 /\ start <= addr < start + 4096 /\ addr + size <= start + len < addr + size + 4096 /\
    fst (fst (VirtualProtect sys_mprotect addr size protect s)) = (sys_mprotect start len (map_protect protect) =? 0).
Proof.
  intros Ha Hs Hlt. assert (Hw : 12 <= ptr_bits) by (destruct ptr_bits_cases as [-> | ->]; lia).
  unfold VirtualProtect, PAGE_SIZE, usize. rewrite (land_pages ptr_bits addr) by lia. set (start := addr / 4096 * 4096).
  assert (Hst : start <= addr < start + 4096 /\ start mod 4096 = 0).
  { unfold start. split; [Z.to_euclidean_division_equations; lia|]. apply Z.mod_mul. lia. }
  rewrite (wrap_small ptr_bits (addr - start)), (wrap_small ptr_bits (addr - start + size)) by lia.
  replace (addr - start + size + 4096 - 1) with (addr - start + size + 4095) by lia.
  rewrite (wrap_small ptr_bits (addr - start + size + 4095)), land_pages by lia. set (len := (addr - start + size + 4095) / 4096 * 4096).
  assert (Hlen : addr - start + size <= len < addr - start + size + 4096 /\ len mod 4096 = 0).
  { unfold len. split; [Z.to_euclidean_division_equations; lia|]. apply Z.mod_mul. lia. }
  exists start, len. split_and!; [lia..|]. by destruct (sys_mprotect start len (map_protect protect) =? 0).
Qed.
Lemma VirtualProtect_pages_witness : exists start len, start <= 0x401234 < start + 4096 /\ 0x401234 + 0x2000 <= start + len.
Proof.
  destruct (VirtualProtect_pages (A := arch32) (fun _ _ _ => 0) 0x401234 0x2000 4 (mkVm (nt_init ∅) [] 0)) as (start & len & _ & _ & H1 & H2 & _);
    [lia|lia|vm_compute; reflexivity|]. exists start, len. lia.
Defined.

(** *** A machine

    Mappings of [n] bytes are at the address 0x10000 + 0x1000 n, or all at 0x10000. *)
Definition spread_mmap (a n p f fd o : Z) (m : mem) : Z * mem := (0x10000 + Z.min n 1000 * 0x1000, m).
Definition fixed_mmap (a n p f fd o : Z) (m : mem) : Z * mem :=
  (if bool_decide (map_Forall (fun x _ => x < 0x10000) m) then 0x10000 else 2 ^ 32 - 1, m).
Definition ok_munmap (a n : Z) (m : mem) : Z * mem := (0, m).
Definition locals_mem : mem := list_to_map ((fun i => (0x1000 + Z.of_nat i, 0)) <$> seq 0 16).
Definition vm_start : vm_state := mkVm (nt_init locals_mem) [] 0.
Lemma vm_start_ok : vm_ok (A := arch32) 0x1000 0x1008 (nt_ko (nt_init locals_mem)) vm_start.
Proof.
  assert (Hm : forall i, (i < 16)%nat -> is_Some (locals_mem !! (0x1000 + Z.of_nat i))).
  { intros i Hi. do 16 (destruct i as [|i]; [eexists; vm_compute; reflexivity|]). lia. }
  split; try done.
  - intros i Hi. apply Hm. lia.
  - intros i Hi. replace (0x1008 + Z.of_nat i) with (0x1000 + Z.of_nat (8 + i)) by lia. apply Hm. lia.
Qed.

Definition demo_vcalls : list vcall := [VAlloc 0 0x3000 4; VFree 0x10000 0 MEM_RELEASE; VFree 0x10000 0x1000 0x4000].
Lemma virtual_memory_refines_witness : exists rs s,
  vrun (A := arch32) fixed_mmap ok_munmap 0x1000 0x1008 demo_vcalls vm_start = Ret (rs, s) /\
  vspecs (A := arch32) fixed_mmap ok_munmap (nt_ko (nt_init locals_mem)) [] [] demo_vcalls rs (vm_allocs s) (nt_log (vm_nt s)).
Proof.
  destruct (virtual_memory_refines (A := arch32) fixed_mmap ok_munmap 0x1000 0x1008) with (ko := nt_ko (nt_init locals_mem)) (l := demo_vcalls) (s := vm_start)
    as (rs & s & E & S & _).
  - split_and!; vm_compute; congruence.
  - intros a n p o m. unfold fixed_mmap. case_bool_decide as Hm; (split; [vm_compute; done|]); [right|left; done]. split; [|done].
    intros x [Hx _]. destruct (m !! x) as [v|] eqn:E; [|done]. specialize (Hm x v E). cbn in Hm. lia.
  - intros ? ? m x _. reflexivity.
  - intros addr. vm_compute. done.
  - apply vm_start_ok.
  - repeat (apply Forall_cons; split); [..|by apply Forall_nil]; cbn [vcall_wf];
      change (2 ^ @ptr_bits arch32) with (2 ^ 32); (split; [lia|]); [lia|(split; [lia|])..].
    + intros E. vm_compute in E. discriminate E.
    + intros _ x Hx. unfold in_pages, is_local in *. change ((0x1000 + 4095) / 4096 * 4096) with 4096. lia.
  - exists rs, s. exact (conj E S).
Defined.

(** ** Defects *)

(** VirtualFree looks for the record to delete at the address that the handler has set
    to 0: when an address is used again, the size of its first use is unmapped. *)
Example stale_size_is_unmapped :
  (fun r : list Z * vm_state => nt_log (vm_nt (snd r))) <$> vrun (A := arch32) fixed_mmap ok_munmap 0x1000 0x1008
    [VAlloc 0 0x1000 4; VFree 0x10000 0 MEM_RELEASE; VAlloc 0 0x5000 4; VFree 0x10000 0 MEM_RELEASE] vm_start
  = Ret [SysMunmap 0x10000 0x1000; SysMunmap 0x10000 0x1000].
Proof. vm_compute. reflexivity. Qed.
(** After 64 allocations, all of them released, a new one can no longer be. *)
Definition alloc_and_free (n : Z) : list vcall := [VAlloc 0 n 4; VFree (0x10000 + n * 0x1000) 0 MEM_RELEASE].
Example releases_run_out :
  (fun r : list Z * vm_state => last (fst r)) <$> vrun (A := arch32) spread_mmap ok_munmap 0x1000 0x1008 (concat (alloc_and_free <$> seqZ 1 65)) vm_start
  = Ret (Some 0).
Proof. vm_compute. reflexivity. Qed.
(** The old protection that VirtualProtect reports is the new one. *)
Example old_protection_is_new : snd (fst (VirtualProtect (A := arch32) (fun _ _ _ => 0) 0x401000 0x1000 0x20 vm_start)) = 0x20.
Proof. reflexivity. Qed.
