(* ===== verification/Audio.v ===== *)
(** * Audio of the SDL backend (src/backend/sdl2/rb_audio.c, rb_audio_mix.c)

    Sound buffers with their playback cursor in 32.32 fixed point, the operations
    DirectSound calls, and the mixer that fills the device's stream.  Each operation
    runs under the lock of the audio device and is one step.  The product of a sample
    with the gains, computed in floating point, is a parameter. *)
From S2P Require Import Prelude Bytes.

Definition RB_AUDIO_CURSOR_SHIFT : Z := 32.

(** The gains are functions of volume and pan. *)
Record rb_audio_buf := mkBuf {
  b_data : bytes; b_buffer_size : Z; b_sample_rate : Z; b_channels : Z; b_bits_per_sample : Z;
  b_bytes_per_frame : Z; b_playing : bool; b_loop : bool; b_volume : Z; b_pan : Z; b_frequency : Z;
  b_cursor_fp : Z }.

Definition set_cursor (c : Z) (b : rb_audio_buf) : rb_audio_buf :=
  mkBuf (b_data b) (b_buffer_size b) (b_sample_rate b) (b_channels b) (b_bits_per_sample b) (b_bytes_per_frame b)
    (b_playing b) (b_loop b) (b_volume b) (b_pan b) (b_frequency b) c.
Definition set_playing (p : bool) (b : rb_audio_buf) : rb_audio_buf :=
  mkBuf (b_data b) (b_buffer_size b) (b_sample_rate b) (b_channels b) (b_bits_per_sample b) (b_bytes_per_frame b)
    p (b_loop b) (b_volume b) (b_pan b) (b_frequency b) (b_cursor_fp b).
Definition set_loop (l : bool) (b : rb_audio_buf) : rb_audio_buf :=
  mkBuf (b_data b) (b_buffer_size b) (b_sample_rate b) (b_channels b) (b_bits_per_sample b) (b_bytes_per_frame b)
    (b_playing b) l (b_volume b) (b_pan b) (b_frequency b) (b_cursor_fp b).
Definition set_volume (v : Z) (b : rb_audio_buf) : rb_audio_buf :=
  mkBuf (b_data b) (b_buffer_size b) (b_sample_rate b) (b_channels b) (b_bits_per_sample b) (b_bytes_per_frame b)
    (b_playing b) (b_loop b) v (b_pan b) (b_frequency b) (b_cursor_fp b).
Definition set_pan (p : Z) (b : rb_audio_buf) : rb_audio_buf :=
  mkBuf (b_data b) (b_buffer_size b) (b_sample_rate b) (b_channels b) (b_bits_per_sample b) (b_bytes_per_frame b)
    (b_playing b) (b_loop b) (b_volume b) p (b_frequency b) (b_cursor_fp b).
Definition set_frequency (f : Z) (b : rb_audio_buf) : rb_audio_buf :=
  mkBuf (b_data b) (b_buffer_size b) (b_sample_rate b) (b_channels b) (b_bits_per_sample b) (b_bytes_per_frame b)
    (b_playing b) (b_loop b) (b_volume b) (b_pan b) f (b_cursor_fp b).
Definition set_data (d : bytes) (b : rb_audio_buf) : rb_audio_buf :=
  mkBuf d (b_buffer_size b) (b_sample_rate b) (b_channels b) (b_bits_per_sample b) (b_bytes_per_frame b)
    (b_playing b) (b_loop b) (b_volume b) (b_pan b) (b_frequency b) (b_cursor_fp b).

(** What a handle stands for: a sound buffer, or an object of another kind. *)
Inductive audio_object := ABuf (b : rb_audio_buf) | AForeign.

(** g_audio, with the linked list of buffers as the list of their handles, and the
    part of the handle table that audio uses. *)
Record rb_audio_state := mkAudio {
  a_opened : bool; a_sample_rate : Z; a_channels : Z; a_bits_per_sample : Z; a_buffer_size : Z;
  a_buffers : list Z; a_buffer_count : Z; a_objects : gmap Z audio_object }.

Definition set_objects (m : gmap Z audio_object) (g : rb_audio_state) : rb_audio_state :=
  mkAudio (a_opened g) (a_sample_rate g) (a_channels g) (a_bits_per_sample g) (a_buffer_size g) (a_buffers g)
    (a_buffer_count g) m.
Definition set_buffers (l : list Z) (n : Z) (g : rb_audio_state) : rb_audio_state :=
  mkAudio (a_opened g) (a_sample_rate g) (a_channels g) (a_bits_per_sample g) (a_buffer_size g) l n (a_objects g).

(** ** The mixer *)

Section mixer.
(** [(int32_t)((float)sample * gain * pan)] and the same divided by 256, for the left
    and the right channel. *)
Variable gain16 gain8 : Z -> Z -> bool -> Z -> Z.

Definition rb_audio_step_fp (g : rb_audio_state) (b : rb_audio_buf) : Z :=
  let source_rate := if negb (b_frequency b =? 0) then b_frequency b else u64 (b_sample_rate b) in
  let device_rate := if 0 <? a_sample_rate g then a_sample_rate g else 0 in
  if (source_rate =? 0) || (device_rate =? 0) then 0
  else u64 (Z.shiftl source_rate RB_AUDIO_CURSOR_SHIFT) / device_rate.

Definition rb_audio_frame_count (b : rb_audio_buf) : Z :=
  if b_bytes_per_frame b <=? 0 then 0 else Z.quot (b_buffer_size b) (b_bytes_per_frame b).

Definition rb_audio_decode_u8 (sample : Z) : Z := i16 (Z.shiftl (sample - 128) 8).

Definition rb_audio_read_frame (b : rb_audio_buf) (frame_index : Z) : outcome (Z * Z) :=
  if frame_index <? 0 then Ret (0, 0)
  else
    let src := frame_index * b_bytes_per_frame b in
    if b_bits_per_sample b <=? 8 then
      l ← load 1 src (b_data b);
      r ← (if 2 <=? b_channels b then load 1 (src + 1) (b_data b) else Ret l);
      Ret (rb_audio_decode_u8 l, rb_audio_decode_u8 r)
    else
      l ← load 2 src (b_data b);
      r ← (if 2 <=? b_channels b then load 2 (src + 2) (b_data b) else Ret l);
      Ret (i16 l, i16 r).

Definition clamp (lo hi v : Z) : Z := if v <? lo then lo else if hi <? v then hi else v.

(** Add one sample to the stream at [off]. *)
Definition mix_sample16 (off v : Z) (stream : bytes) : outcome bytes :=
  out ← load 2 off stream;
  store 2 off (clamp (-32768) 32767 (i16 out + v)) stream.
Definition mix_sample8 (off v : Z) (stream : bytes) : outcome bytes :=
  out ← load 1 off stream;
  store 1 off (clamp (-128) 127 (out - 128 + v) + 128) stream.

Definition rb_audio_mix_s16 (frame_index frame_bytes device_channels : Z) (b : rb_audio_buf) (vl vr : Z)
    (stream : bytes) : outcome bytes :=
  let off := frame_index * frame_bytes in
  s ← mix_sample16 off (gain16 (b_volume b) (b_pan b) false vl) stream;
  if 2 <=? device_channels then mix_sample16 (off + 2) (gain16 (b_volume b) (b_pan b) true vr) s else Ret s.

Definition rb_audio_mix_u8 (frame_index frame_bytes device_channels : Z) (b : rb_audio_buf) (vl vr : Z)
    (stream : bytes) : outcome bytes :=
  let off := frame_index * frame_bytes in
  s ← mix_sample8 off (gain8 (b_volume b) (b_pan b) false vl) stream;
  if 2 <=? device_channels then mix_sample8 (off + 1) (gain8 (b_volume b) (b_pan b) true vr) s else Ret s.

(** The inner loop, which brings the cursor back into the buffer: [None] when a buffer
    that does not loop has reached its end.  Each pass subtracts the length of the
    buffer, so [cursor / length] passes are enough. *)
Fixpoint wrap_cursor (fuel : nat) (total_frames : Z) (loop : bool) (cursor : Z) : option Z :=
  if Z.shiftr cursor RB_AUDIO_CURSOR_SHIFT <? total_frames then Some cursor
  else if negb loop then None
  else
    match fuel with
    | O => Some cursor
    | S fuel => wrap_cursor fuel total_frames loop (u64 (cursor - u64 (Z.shiftl total_frames RB_AUDIO_CURSOR_SHIFT)))
    end.
Definition cursor_passes (total_frames cursor : Z) : nat :=
  Z.to_nat (cursor / Z.shiftl total_frames RB_AUDIO_CURSOR_SHIFT).

Definition mix_frame (device_bps device_channels frame_bytes frame_index : Z) (b : rb_audio_buf) (source_index : Z)
    (stream : bytes) : outcome bytes :=
  '(vl, vr) ← rb_audio_read_frame b (i32 source_index);
  if device_bps =? 1 then rb_audio_mix_u8 frame_index frame_bytes device_channels b vl vr stream
  else rb_audio_mix_s16 frame_index frame_bytes device_channels b vl vr stream.

(** The loop over the frames of the stream. *)
Fixpoint mix_loop (todo : nat) (frame_index device_bps device_channels frame_bytes total_frames step_fp : Z)
    (b : rb_audio_buf) (stream : bytes) : outcome (bytes * rb_audio_buf) :=
  match todo with
  | O => Ret (stream, b)
  | S todo =>
      match wrap_cursor (cursor_passes total_frames (b_cursor_fp b)) total_frames (b_loop b) (b_cursor_fp b) with
      | None => Ret (stream, set_playing false (set_cursor (u64 (Z.shiftl total_frames RB_AUDIO_CURSOR_SHIFT)) b))
      | Some cursor =>
          s ← mix_frame device_bps device_channels frame_bytes frame_index b (Z.shiftr cursor RB_AUDIO_CURSOR_SHIFT) stream;
          mix_loop todo (frame_index + 1) device_bps device_channels frame_bytes total_frames step_fp
            (set_cursor (u64 (cursor + step_fp)) b) s
      end
  end.

Definition rb_audio_mix_buffer (g : rb_audio_state) (len : Z) (b : rb_audio_buf) (stream : bytes)
  : outcome (bytes * rb_audio_buf) :=
  if negb (b_playing b) then Ret (stream, b)
  else
    let device_bps := Z.quot (a_bits_per_sample g) 8 in
    let device_channels := a_channels g in
    let frame_bytes := device_bps * device_channels in
    let output_frames := if 0 <? frame_bytes then Z.quot len frame_bytes else 0 in
    let total_frames := rb_audio_frame_count b in
    let step_fp := rb_audio_step_fp g b in
    if (output_frames <=? 0) || (total_frames <=? 0) || (step_fp =? 0) then Ret (stream, set_playing false b)
    else mix_loop (Z.to_nat output_frames) 0 device_bps device_channels frame_bytes total_frames step_fp b stream.

(** ** Operations on buffers *)

(** rb_audio_get_buf: the object of the handle, which is used as a sound buffer
    whatever it is. *)
Definition rb_audio_get_buf (h : Z) (g : rb_audio_state) : outcome (option rb_audio_buf) :=
  match a_objects g !! h with
  | None => Ret None
  | Some AForeign => Fault
  | Some (ABuf b) => Ret (Some b)
  end.
Definition put_buf (h : Z) (b : rb_audio_buf) (g : rb_audio_state) : rb_audio_state :=
  set_objects (<[h := ABuf b]> (a_objects g)) g.

(** [true] is RB_OK. *)
Definition with_buf (h : Z) (f : rb_audio_buf -> bool * rb_audio_buf) (g : rb_audio_state)
  : outcome (bool * rb_audio_state) :=
  b ← rb_audio_get_buf h g;
  match (b : option rb_audio_buf) with
  | None => Ret (false, g)
  | Some b => let '(ok, b) := f b in Ret (ok, put_buf h b g)
  end.

Definition rb_audio_remove_buffer_locked (h : Z) (g : rb_audio_state) : rb_audio_state :=
  match list_find (fun x => x = h) (a_buffers g) with
  | None => g
  | Some (i, _) => set_buffers (delete i (a_buffers g)) (if 0 <? a_buffer_count g then a_buffer_count g - 1 else a_buffer_count g) g
  end.
Definition rb_audio_append_buffer_locked (h : Z) (g : rb_audio_state) : rb_audio_state :=
  set_buffers (h :: a_buffers g) (a_buffer_count g + 1) g.

Definition stop_buf (o : audio_object) : audio_object :=
  match o with ABuf b => ABuf (set_playing false b) | AForeign => AForeign end.
Definition rb_audio_stop_all_locked (g : rb_audio_state) : rb_audio_state :=
  set_objects (foldr (fun h m => alter stop_buf h m) (a_objects g) (a_buffers g)) g.

Definition rb_audio_close (g : rb_audio_state) : rb_audio_state :=
  if negb (a_opened g) then g
  else
    let g := rb_audio_stop_all_locked g in
    mkAudio false (a_sample_rate g) (a_channels g) (a_bits_per_sample g) (a_buffer_size g) (a_buffers g)
      (a_buffer_count g) (a_objects g).

(** SDL_OpenAudioDevice: the frequency, the channels, the bits per sample (8 or 16)
    and the samples of the device, or a failure. *)
Definition rb_audio_open (have : option (Z * Z * Z * Z)) (g : rb_audio_state) : bool * rb_audio_state :=
  let g := if a_opened g then rb_audio_close g else g in
  match have with
  | None => (false, g)
  | Some (freq, channels, bits, samples) =>
      (true, mkAudio true freq channels bits samples (a_buffers g) (a_buffer_count g) (a_objects g))
  end.

Definition rb_audio_clamp_int (value min_value max_value : Z) : Z := clamp min_value max_value value.
Definition rb_audio_set_gain (volume : Z) (b : rb_audio_buf) : rb_audio_buf :=
  set_volume (rb_audio_clamp_int volume (-10000) 0) b.
Definition rb_audio_set_pan_gains (pan : Z) (b : rb_audio_buf) : rb_audio_buf :=
  set_pan (rb_audio_clamp_int pan (-10000) 10000) b.

(** [alloc]: both allocations succeed; [handle]: what wine_handle_alloc returns, 0
    when the table is full. *)
Definition rb_audio_buffer_create (format : option (Z * Z * Z)) (buffer_size : Z) (alloc : bool) (handle : Z)
    (g : rb_audio_state) : Z * rb_audio_state :=
  let '(fr, fc, fb) := default (0, 0, 0) format in
  let sample_rate := if negb (fr =? 0) then fr else u32 (a_sample_rate g) in
  let channels := if negb (fc =? 0) then fc else u16 (a_channels g) in
  let bits := if negb (fb =? 0) then fb else u16 (a_bits_per_sample g) in
  if (channels =? 0) || (bits =? 0) then (0, g)
  else if negb (bits =? 8) && negb (bits =? 16) then (0, g)
  else
    let buffer_size := if buffer_size <=? 0 then i32 (a_buffer_size g * (bits / 8) * channels) else buffer_size in
    if negb alloc || (buffer_size <? 0) then (0, g)
    else if handle =? 0 then (0, g)
    else
      let b := mkBuf (replicate (Z.to_nat buffer_size) 0) buffer_size (i32 sample_rate) channels bits (bits / 8 * channels)
                 false false 0 0 sample_rate 0 in
      (handle, rb_audio_append_buffer_locked handle (put_buf handle (rb_audio_set_pan_gains 0 (rb_audio_set_gain 0 b)) g)).

Definition rb_audio_buffer_destroy (h : Z) (g : rb_audio_state) : outcome (bool * rb_audio_state) :=
  b ← rb_audio_get_buf h g;
  match (b : option rb_audio_buf) with
  | None => Ret (false, g)
  | Some _ =>
      let g := rb_audio_remove_buffer_locked h g in
      Ret (true, set_objects (delete h (a_objects g)) g)
  end.

(** The offset of the region in the buffer's data and its length. *)
Definition rb_audio_buffer_lock (h offset bytes : Z) (g : rb_audio_state) : outcome (option (Z * Z)) :=
  b ← rb_audio_get_buf h g;
  match (b : option rb_audio_buf) with
  | None => Ret None
  | Some b =>
      let size := u32 (b_buffer_size b) in
      if size <=? offset then Ret None
      else Ret (Some (offset, if u32 (size - offset) <? bytes then u32 (size - offset) else bytes))
  end.

Definition rb_audio_buffer_unlock (h : Z) (g : rb_audio_state) : outcome bool :=
  b ← rb_audio_get_buf h g; Ret (bool_decide (is_Some b)).

Definition end_cursor (b : rb_audio_buf) : Z :=
  let total := rb_audio_frame_count b in
  u64 (Z.shiftl (if 0 <? total then total else 0) RB_AUDIO_CURSOR_SHIFT).

Definition rb_audio_buffer_play (h : Z) (loop : bool) : rb_audio_state -> outcome (bool * rb_audio_state) :=
  with_buf h (fun b =>
    let b := if negb (b_playing b) && (end_cursor b <=? b_cursor_fp b) then set_cursor 0 b else b in
    (true, set_loop loop (set_playing true b))).

Definition rb_audio_buffer_stop (h : Z) : rb_audio_state -> outcome (bool * rb_audio_state) :=
  with_buf h (fun b => (true, set_playing false b)).
Definition rb_audio_buffer_set_volume (h volume : Z) : rb_audio_state -> outcome (bool * rb_audio_state) :=
  with_buf h (fun b => (true, rb_audio_set_gain volume b)).
Definition rb_audio_buffer_set_pan (h pan : Z) : rb_audio_state -> outcome (bool * rb_audio_state) :=
  with_buf h (fun b => (true, rb_audio_set_pan_gains pan b)).
Definition rb_audio_buffer_set_frequency (h freq : Z) : rb_audio_state -> outcome (bool * rb_audio_state) :=
  with_buf h (fun b => if freq =? 0 then (false, b) else (true, set_frequency freq b)).

Definition rb_audio_buffer_set_position (h byte_offset : Z) : rb_audio_state -> outcome (bool * rb_audio_state) :=
  with_buf h (fun b =>
    if b_bytes_per_frame b <=? 0 then (false, b)
    else
      let max_frames := rb_audio_frame_count b in
      let byte_offset := if u32 (b_buffer_size b) <? byte_offset then u32 (b_buffer_size b) else byte_offset in
      let frame_index := byte_offset / u32 (b_bytes_per_frame b) in
      let frame_index := if max_frames <? i32 frame_index then u32 max_frames else frame_index in
      (true, set_cursor (u64 (Z.shiftl frame_index RB_AUDIO_CURSOR_SHIFT)) b)).

Definition rb_audio_buffer_get_position (h : Z) (g : rb_audio_state) : outcome (option Z) :=
  b ← rb_audio_get_buf h g;
  match (b : option rb_audio_buf) with
  | None => Ret None
  | Some b =>
      if b_bytes_per_frame b <=? 0 then Ret None
      else Ret (Some (u32 (u64 (Z.shiftr (b_cursor_fp b) RB_AUDIO_CURSOR_SHIFT * b_bytes_per_frame b))))
  end.

(** -1 for an invalid handle. *)
Definition rb_audio_buffer_is_playing (shutdown_requested : bool) (h : Z) (g : rb_audio_state)
  : outcome (Z * rb_audio_state) :=
  b ← rb_audio_get_buf h g;
  match (b : option rb_audio_buf) with
  | None => Ret (-1, g)
  | Some b =>
      if shutdown_requested then Ret (0, g)
      else if b_playing b && negb (b_loop b) && (u64 (Z.shiftl (rb_audio_frame_count b) RB_AUDIO_CURSOR_SHIFT) <=? b_cursor_fp b)
      then Ret (0, put_buf h (set_playing false b) g)
      else Ret (if b_playing b then 1 else 0, g)
  end.

(** The loop of the callback over the list of buffers. *)
Fixpoint mix_all (l : list Z) (len : Z) (stream : bytes) (g : rb_audio_state) : outcome (bytes * rb_audio_state) :=
  match l with
  | [] => Ret (stream, g)
  | h :: l =>
      match a_objects g !! h with
      | Some (ABuf b) =>
          '(stream, b) ← rb_audio_mix_buffer g len b stream;
          mix_all l len stream (put_buf h b g)
      | _ => Fault
      end
  end.

Definition rb_audio_callback (shutdown_requested : bool) (stream : bytes) (g : rb_audio_state)
  : outcome (bytes * rb_audio_state) :=
  let len := blen stream in
  let stream := replicate (length stream) (if a_bits_per_sample g <=? 8 then 128 else 0) in
  if shutdown_requested then Ret (stream, rb_audio_stop_all_locked g)
  else mix_all (a_buffers g) len stream g.
End mixer.

(** ** The mixer plays the right frames *)

(** A buffer as rb_audio_buffer_create makes it. *)
Record buf_ok (b : rb_audio_buf) : Prop := {
  bo_size : blen (b_data b) = b_buffer_size b;
  bo_small : b_buffer_size b < 2 ^ 31;
  bo_bits : b_bits_per_sample b = 8 \/ b_bits_per_sample b = 16;
  bo_channels : 1 <= b_channels b < 2 ^ 16;
  bo_bpf : b_bytes_per_frame b = b_bits_per_sample b / 8 * b_channels b;
  bo_freq : 0 <= b_frequency b < 2 ^ 32;
  bo_cursor : 0 <= b_cursor_fp b < 2 ^ 64 }.

(** A device as SDL opens it. *)
Record device_ok (g : rb_audio_state) : Prop := {
  dv_bits : a_bits_per_sample g = 8 \/ a_bits_per_sample g = 16;
  dv_channels : 1 <= a_channels g < 2 ^ 8;
  dv_rate : 0 < a_sample_rate g < 2 ^ 31 }.

(** A device that SDL has opened, or the zero state before that. *)
Definition device_state (g : rb_audio_state) : Prop := device_ok g \/ a_bits_per_sample g = 0.

Lemma device_state_same g g' :
  a_bits_per_sample g' = a_bits_per_sample g -> a_channels g' = a_channels g -> a_sample_rate g' = a_sample_rate g ->
  device_state g -> device_state g'.
Proof. intros H1 H2 H3 [[D1 D2 D3]|D]; [left; split; congruence|right; congruence]. Qed.

Lemma mix_sample16_ok off v s :
  in_range off 2 (blen s) = true -> exists s', mix_sample16 off v s = Ret s' /\ blen s' = blen s.
Proof.
  intros Hr. unfold mix_sample16. rewrite load_ok by done. cbn [mbind outcome_bind].
  match goal with |- context [store 2 off ?x s] => destruct (store 2 off x s) as [s'| |] eqn:E end;
    [|by rewrite store_ok in E|by rewrite store_ok in E].
  exists s'. split; [done|]. unfold blen. by rewrite (store_length _ _ _ _ _ E).
Qed.
Lemma mix_sample8_ok off v s :
  in_range off 1 (blen s) = true -> exists s', mix_sample8 off v s = Ret s' /\ blen s' = blen s.
Proof.
  intros Hr. unfold mix_sample8. rewrite load_ok by done. cbn [mbind outcome_bind].
  match goal with |- context [store 1 off ?x s] => destruct (store 1 off x s) as [s'| |] eqn:E end;
    [|by rewrite store_ok in E|by rewrite store_ok in E].
  exists s'. split; [done|]. unfold blen. by rewrite (store_length _ _ _ _ _ E).
Qed.

Lemma frame_in_range fb i n size off len :
  0 <= i < n -> 0 < fb -> n * fb <= size -> 0 <= off -> 0 <= len -> off + len <= fb ->
  in_range (i * fb + off) len size = true.
Proof. intros. apply in_range_spec. nia. Qed.

Lemma frame_count_spec b :
  buf_ok b -> 0 <= rb_audio_frame_count b < 2 ^ 31 /\ 0 < b_bytes_per_frame b /\
    rb_audio_frame_count b * b_bytes_per_frame b <= b_buffer_size b.
Proof.
  intros [Hs Hm Hb Hc Hp _ _]. assert (0 <= b_buffer_size b) by (unfold blen in Hs; lia).
  assert (Hpos : 0 < b_bytes_per_frame b) by (destruct Hb as [E|E]; rewrite Hp, E; [change (8 / 8) with 1|change (16 / 8) with 2]; lia).
  unfold rb_audio_frame_count. replace (_ <=? 0) with false by lia.
  rewrite Z.quot_div_nonneg by lia.
  pose proof (Z.mul_div_le (b_buffer_size b) (b_bytes_per_frame b) Hpos).
  assert (0 <= b_buffer_size b / b_bytes_per_frame b <= b_buffer_size b).
  { split; [apply Z.div_pos; lia|]. apply Z.div_le_upper_bound; nia. }
  lia.
Qed.

Lemma read_frame_ok b k :
  buf_ok b -> 0 <= k < rb_audio_frame_count b -> exists l r, rb_audio_read_frame b k = Ret (l, r).
Proof.
  intros Hb Hk. destruct (frame_count_spec b Hb) as (_ & Hp & Hle). destruct Hb as [Hs _ Hbits Hc Hbpf _ _].
  unfold rb_audio_read_frame. replace (k <? 0) with false by lia.
  assert (Hin : forall off len, 0 <= off -> 0 <= len -> off + len <= b_bytes_per_frame b ->
    in_range (k * b_bytes_per_frame b + off) len (blen (b_data b)) = true).
  { intros off len H1 H2 H3. apply (frame_in_range _ _ (rb_audio_frame_count b)); lia. }
  assert (Hin0 : forall len, 0 <= len -> len <= b_bytes_per_frame b ->
    in_range (k * b_bytes_per_frame b) len (blen (b_data b)) = true).
  { intros len H1 H2. rewrite <- (Z.add_0_r (k * _)). apply Hin; lia. }
  destruct Hbits as [E|E]; rewrite E in *; [change (8 / 8) with 1 in Hbpf|change (16 / 8) with 2 in Hbpf]; cbn [Z.leb Z.compare Pos.compare Pos.compare_cont].
  - rewrite (load_ok 1 (k * b_bytes_per_frame b)) by (apply Hin0; lia). cbn [mbind outcome_bind].
    destruct (Z.leb_spec 2 (b_channels b)); [|by do 2 eexists].
    rewrite (load_ok 1 (k * b_bytes_per_frame b + 1)) by (apply Hin; lia). cbn [mbind outcome_bind]. by do 2 eexists.
  - rewrite (load_ok 2 (k * b_bytes_per_frame b)) by (apply Hin0; lia). cbn [mbind outcome_bind].
    destruct (Z.leb_spec 2 (b_channels b)); [|by do 2 eexists].
    rewrite (load_ok 2 (k * b_bytes_per_frame b + 2)) by (apply Hin; lia). cbn [mbind outcome_bind]. by do 2 eexists.
Qed.

Section mixing.
Variable gain16 gain8 : Z -> Z -> bool -> Z -> Z.

Lemma mix_frame_ok bps ch i n b k s :
  buf_ok b -> bps = 1 \/ bps = 2 -> 1 <= ch -> 0 <= i < n -> n * (bps * ch) <= blen s ->
  0 <= k < rb_audio_frame_count b ->
  exists s', mix_frame gain16 gain8 bps ch (bps * ch) i b k s = Ret s' /\ blen s' = blen s.
Proof.
  intros Hb Hbps Hch Hi Hs Hk. destruct (frame_count_spec b Hb) as (Hc & _ & _).
  unfold mix_frame. rewrite swrap_small by lia. destruct (read_frame_ok b k Hb Hk) as (l & r & ->).
  cbn [mbind outcome_bind].
  assert (Hin : forall off len, 0 <= off -> 0 <= len -> off + len <= bps * ch ->
    in_range (i * (bps * ch) + off) len (blen s) = true).
  { intros off len H1 H2 H3. apply (frame_in_range _ _ n); nia. }
  pose proof (Hin 0) as Hin0. rewrite Z.add_0_r in Hin0.
  destruct Hbps as [->| ->]; cbn [Z.eqb]; unfold rb_audio_mix_u8, rb_audio_mix_s16.
  - destruct (mix_sample8_ok (i * (1 * ch)) (gain8 (b_volume b) (b_pan b) false l) s) as (s1 & E1 & L1);
      [apply Hin0; lia|]. rewrite E1. cbn [mbind outcome_bind].
    destruct (Z.leb_spec 2 ch); [|by eexists].
    destruct (mix_sample8_ok (i * (1 * ch) + 1) (gain8 (b_volume b) (b_pan b) true r) s1) as (s2 & E2 & L2);
      [rewrite L1; apply Hin; lia|]. exists s2. split; [done|congruence].
  - destruct (mix_sample16_ok (i * (2 * ch)) (gain16 (b_volume b) (b_pan b) false l) s) as (s1 & E1 & L1);
      [apply Hin0; lia|]. rewrite E1. cbn [mbind outcome_bind].
    destruct (Z.leb_spec 2 ch); [|by eexists].
    destruct (mix_sample16_ok (i * (2 * ch) + 2) (gain16 (b_volume b) (b_pan b) true r) s1) as (s2 & E2 & L2);
      [rewrite L1; apply Hin; lia|]. exists s2. split; [done|congruence].
Qed.

(** *** The cursor *)

Lemma shiftl_32 z : Z.shiftl z RB_AUDIO_CURSOR_SHIFT = z * 2 ^ 32.
Proof. apply Z.shiftl_mul_pow2. unfold RB_AUDIO_CURSOR_SHIFT. lia. Qed.
Lemma shiftr_32 z : Z.shiftr z RB_AUDIO_CURSOR_SHIFT = z / 2 ^ 32.
Proof. apply Z.shiftr_div_pow2. unfold RB_AUDIO_CURSOR_SHIFT. lia. Qed.

Lemma cursor_in_buffer total c : 0 <= c -> (Z.shiftr c RB_AUDIO_CURSOR_SHIFT <? total) = (c <? total * 2 ^ 32).
Proof.
  intros Hc. rewrite shiftr_32. destruct (Z.ltb_spec c (total * 2 ^ 32)).
  - apply Z.ltb_lt. apply Z.div_lt_upper_bound; lia.
  - apply Z.ltb_ge. apply Z.div_le_lower_bound; lia.
Qed.

Lemma wrap_cursor_loop total fuel : forall c,
  0 < total < 2 ^ 31 -> 0 <= c < 2 ^ 64 -> c / (total * 2 ^ 32) <= Z.of_nat fuel ->
  wrap_cursor fuel total true c = Some (c mod (total * 2 ^ 32)).
Proof.
  induction fuel as [|fuel IH]; intros c Ht Hc Hf; cbn [wrap_cursor]; rewrite cursor_in_buffer by lia.
  - destruct (Z.ltb_spec c (total * 2 ^ 32)); [by rewrite Z.mod_small by lia|].
    assert (1 <= c / (total * 2 ^ 32)) by (apply Z.div_le_lower_bound; lia). lia.
  - destruct (Z.ltb_spec c (total * 2 ^ 32)); [by rewrite Z.mod_small by lia|]. cbn [negb].
    rewrite shiftl_32. rewrite (wrap_small 64 (total * _)) by lia. rewrite wrap_small by lia.
    assert (Hd : (c - total * 2 ^ 32) / (total * 2 ^ 32) = c / (total * 2 ^ 32) - 1).
    { replace (c - total * 2 ^ 32) with (c + (-1) * (total * 2 ^ 32)) by lia. rewrite Z.div_add by lia. lia. }
    rewrite IH by lia. f_equal. replace (c - total * 2 ^ 32) with (c + (-1) * (total * 2 ^ 32)) by lia.
    apply Z.mod_add. lia.
Qed.

Lemma wrap_cursor_passes total c :
  0 < total < 2 ^ 31 -> 0 <= c < 2 ^ 64 ->
  wrap_cursor (cursor_passes total c) total true c = Some (c mod (total * 2 ^ 32)).
Proof.
  intros Ht Hc. apply wrap_cursor_loop; [done..|]. unfold cursor_passes. rewrite shiftl_32.
  rewrite Z2Nat.id; [lia|]. apply Z.div_pos; lia.
Qed.

(** The reference: output frame [i] is mixed with the source frame under the position
    [c + i * step], taken modulo the length of the buffer. *)
Fixpoint mix_reference (todo : nat) (i : Z) (bps ch total step c : Z) (b : rb_audio_buf) (stream : bytes)
  : outcome bytes :=
  match todo with
  | O => Ret stream
  | S todo =>
      s ← mix_frame gain16 gain8 bps ch (bps * ch) i b ((c + i * step) mod (total * 2 ^ 32) / 2 ^ 32) stream;
      mix_reference todo (i + 1) bps ch total step c b s
  end.

Lemma mix_frame_cursor bps ch fb i b c k s :
  mix_frame gain16 gain8 bps ch fb i (set_cursor c b) k s = mix_frame gain16 gain8 bps ch fb i b k s.
Proof. done. Qed.

Lemma buf_ok_cursor b c : buf_ok b -> 0 <= c < 2 ^ 64 -> buf_ok (set_cursor c b).
Proof. intros [H1 H2 H3 H4 H5 H6 H7] Hc. by split. Qed.

Lemma mix_loop_reference bps ch total step c n b : forall todo i cur s,
  buf_ok b -> b_loop b = true -> bps = 1 \/ bps = 2 -> 1 <= ch -> total = rb_audio_frame_count b -> 0 < total ->
  0 < step -> step + total * 2 ^ 32 <= 2 ^ 64 -> 0 <= i -> i + Z.of_nat todo <= n -> n * (bps * ch) <= blen s ->
  0 <= c -> 0 <= cur < 2 ^ 64 -> cur mod (total * 2 ^ 32) = (c + i * step) mod (total * 2 ^ 32) ->
  exists s' cur', mix_loop gain16 gain8 todo i bps ch (bps * ch) total step (set_cursor cur b) s
      = Ret (s', set_cursor cur' b) /\
    mix_reference todo i bps ch total step c b s = Ret s' /\ blen s' = blen s /\ 0 <= cur' < 2 ^ 64 /\
    cur' mod (total * 2 ^ 32) = (c + (i + Z.of_nat todo) * step) mod (total * 2 ^ 32).
Proof.
  induction todo as [|todo IH]; intros i cur s Hb Hl Hbps Hch Ht Htp Hst Hov Hi Hn Hs Hc Hcur Hm.
  - exists s, cur. cbn [mix_loop mix_reference]. split_and!; try done; try lia. rewrite Hm. do 2 f_equal. lia.
  - cbn [mix_loop mix_reference]. cbn [b_cursor_fp b_loop set_cursor].
    destruct (frame_count_spec b Hb) as (Hfc & _ & _).
    rewrite Hl, wrap_cursor_passes by lia. rewrite mix_frame_cursor, shiftr_32, Hm.
    set (pos := (c + i * step) mod (total * 2 ^ 32)).
    assert (Hpos : 0 <= pos < total * 2 ^ 32) by (apply Z.mod_pos_bound; lia).
    destruct (mix_frame_ok bps ch i n b (pos / 2 ^ 32) s) as (s1 & E1 & L1); [done|done|done|lia|done| |].
    { split; [apply Z.div_pos; lia|]. apply Z.div_lt_upper_bound; lia. }
    rewrite E1. cbn [mbind outcome_bind]. rewrite wrap_small by lia.
    destruct (IH (i + 1) (pos + step) s1) as (s' & cur' & E & Er & L & Hc' & Hm'); try done; try lia.
    { unfold pos. rewrite Zplus_mod_idemp_l. f_equal. lia. }
    exists s', cur'. split; [exact E|]. split; [done|]. split; [congruence|]. split; [done|].
    rewrite Hm'. do 2 f_equal. lia.
Qed.

(** The step is positive and bounded when the buffer plays on an open device. *)
Lemma step_fp_spec g b :
  device_ok g -> buf_ok b -> b_frequency b <> 0 ->
  rb_audio_step_fp g b = b_frequency b * 2 ^ 32 / a_sample_rate g.
Proof.
  intros [_ _ Hr] [_ _ _ _ _ Hf _] Hz. unfold rb_audio_step_fp.
  replace (b_frequency b =? 0) with false by lia. replace (0 <? a_sample_rate g) with true by lia. cbn [negb].
  replace ((b_frequency b =? 0) || (a_sample_rate g =? 0)) with false by lia.
  rewrite shiftl_32, wrap_small by lia. done.
Qed.

(** C28: A looping buffer fills the whole stream: every output frame is mixed with the
    source frame at the playback position, which advances by the ratio of the rates
    and wraps around at the end of the buffer, and the buffer goes on playing. *)
Theorem looping_buffer_wraps g b stream :
  device_ok g -> buf_ok b -> b_playing b = true -> b_loop b = true -> b_frequency b <> 0 ->
  0 < rb_audio_frame_count b ->
  let bps := a_bits_per_sample g / 8 in
  let ch := a_channels g in
  let total := rb_audio_frame_count b in
  let step := b_frequency b * 2 ^ 32 / a_sample_rate g in
  let n := blen stream / (bps * ch) in
  0 < n -> 0 < step -> step + total * 2 ^ 32 <= 2 ^ 64 -> blen stream < 2 ^ 31 ->
  exists stream' cur', rb_audio_mix_buffer gain16 gain8 g (blen stream) b stream = Ret (stream', set_cursor cur' b) /\
    mix_reference (Z.to_nat n) 0 bps ch total step (b_cursor_fp b) b stream = Ret stream' /\
    blen stream' = blen stream /\
    cur' mod (total * 2 ^ 32) = (b_cursor_fp b + n * step) mod (total * 2 ^ 32).
Proof.
  intros Hd Hb Hp Hl Hf Ht bps ch total step n Hn Hst Hov Hlen.
  pose proof (step_fp_spec g b Hd Hb Hf) as Hstep. destruct Hd as [Hbits Hch Hr].
  assert (Hbps : bps = 1 \/ bps = 2) by (subst bps; destruct Hbits as [->| ->]; auto).
  assert (Hq : Z.quot (a_bits_per_sample g) 8 = bps) by (subst bps; destruct Hbits as [->| ->]; done).
  unfold rb_audio_mix_buffer. rewrite Hp, Hstep, Hq. cbn [negb]. fold ch total step.
  assert (Hfb : 0 < bps * ch) by nia. replace (0 <? bps * ch) with true by lia.
  rewrite Z.quot_div_nonneg by (unfold blen; lia). fold n.
  replace ((n <=? 0) || (total <=? 0) || (step =? 0)) with false by lia.
  pose proof (bo_cursor _ Hb) as Hc. pose proof (Z.mul_div_le (blen stream) (bps * ch) Hfb) as Hnl. fold n in Hnl.
  destruct (mix_loop_reference bps ch total step (b_cursor_fp b) n b (Z.to_nat n) 0 (b_cursor_fp b) stream)
    as (s' & cur' & E & Er & L & _ & Hm); try done; try lia.
  { f_equal. lia. }
  assert (Hself : set_cursor (b_cursor_fp b) b = b) by (by destruct b). rewrite Hself in E.
  exists s', cur'. split; [exact E|]. split; [done|]. split; [done|]. rewrite Hm. do 2 f_equal. lia.
Qed.

(** *** Buffers that do not loop *)

Lemma wrap_cursor_once fuel total c :
  0 <= c -> wrap_cursor fuel total false c = if c <? total * 2 ^ 32 then Some c else None.
Proof. intros Hc. destruct fuel; cbn [wrap_cursor]; by rewrite cursor_in_buffer by done. Qed.

Lemma mix_loop_once bps ch total step c n b : forall todo i s,
  buf_ok b -> b_loop b = false -> bps = 1 \/ bps = 2 -> 1 <= ch -> total = rb_audio_frame_count b -> 0 < total ->
  0 < step -> step + total * 2 ^ 32 <= 2 ^ 64 -> 0 <= i -> i + Z.of_nat todo <= n -> n * (bps * ch) <= blen s ->
  0 <= c -> 0 <= c + i * step < 2 ^ 64 ->
  exists played s', (played <= todo)%nat /\
    mix_reference played i bps ch total step c b s = Ret s' /\ blen s' = blen s /\
    (forall j, (j < played)%nat -> c + (i + Z.of_nat j) * step < total * 2 ^ 32) /\
    mix_loop gain16 gain8 todo i bps ch (bps * ch) total step (set_cursor (c + i * step) b) s =
      Ret (s', if (played <? todo)%nat then set_playing false (set_cursor (total * 2 ^ 32) b)
               else set_cursor (c + (i + Z.of_nat todo) * step) b) /\
    ((played < todo)%nat -> total * 2 ^ 32 <= c + (i + Z.of_nat played) * step).
Proof.
  induction todo as [|todo IH]; intros i s Hb Hl Hbps Hch Ht Htp Hst Hov Hi Hn Hs Hc Hcur.
  - exists 0%nat, s. cbn [mix_loop mix_reference]. rewrite Z.add_0_r. split_and!; done || lia.
  - cbn [mix_loop mix_reference]. cbn [b_cursor_fp b_loop set_cursor].
    destruct (frame_count_spec b Hb) as (Hfc & _ & _). rewrite Hl, wrap_cursor_once by lia.
    destruct (Z.ltb_spec (c + i * step) (total * 2 ^ 32)) as [Hin|Hout].
    + rewrite mix_frame_cursor, shiftr_32.
      destruct (mix_frame_ok bps ch i n b ((c + i * step) / 2 ^ 32) s) as (s1 & E1 & L1); [done|done|done|lia|done| |].
      { split; [apply Z.div_pos; lia|]. apply Z.div_lt_upper_bound; lia. }
      rewrite E1. cbn [mbind outcome_bind]. rewrite wrap_small by lia.
      replace (c + i * step + step) with (c + (i + 1) * step) by lia.
      destruct (IH (i + 1) s1) as (played & s' & Hp & Er & L & Hj & E & He); try done; try lia.
      exists (S played), s'. cbn [mix_reference]. rewrite (Z.mod_small (c + i * step)) by lia. rewrite E1.
      cbn [mbind outcome_bind]. split_and!; [lia|done|congruence| | |].
      * intros [|j] Hlt; [by rewrite Z.add_0_r|]. specialize (Hj j ltac:(lia)).
        replace (i + Z.of_nat (S j)) with (i + 1 + Z.of_nat j) by lia. done.
      * replace (i + Z.of_nat (S todo)) with (i + 1 + Z.of_nat todo) by lia.
        change (S played <? S todo)%nat with (played <? todo)%nat. exact E.
      * intros Hlt. specialize (He ltac:(lia)). replace (i + Z.of_nat (S played)) with (i + 1 + Z.of_nat played) by lia. done.
    + exists 0%nat, s. rewrite shiftl_32, wrap_small by lia. rewrite Z.add_0_r. split_and!; done || lia.
Qed.

(** A buffer that does not loop is mixed up to its end: the frames before it are
    played like those of a looping buffer, then it stops with its cursor at the end,
    and the rest of the stream is left as it was. *)
Theorem one_shot_buffer_stops g b stream :
  device_ok g -> buf_ok b -> b_playing b = true -> b_loop b = false -> b_frequency b <> 0 ->
  0 < rb_audio_frame_count b ->
  let bps := a_bits_per_sample g / 8 in
  let ch := a_channels g in
  let total := rb_audio_frame_count b in
  let step := b_frequency b * 2 ^ 32 / a_sample_rate g in
  let n := blen stream / (bps * ch) in
  0 < n -> 0 < step -> step + total * 2 ^ 32 <= 2 ^ 64 ->
  exists played stream' b', rb_audio_mix_buffer gain16 gain8 g (blen stream) b stream = Ret (stream', b') /\
    mix_reference played 0 bps ch total step (b_cursor_fp b) b stream = Ret stream' /\
    (forall j, (j < played)%nat -> b_cursor_fp b + Z.of_nat j * step < total * 2 ^ 32) /\
    ((played = Z.to_nat n /\ b' = set_cursor (b_cursor_fp b + n * step) b) \/
     ((played < Z.to_nat n)%nat /\ total * 2 ^ 32 <= b_cursor_fp b + Z.of_nat played * step /\
      b' = set_playing false (set_cursor (total * 2 ^ 32) b))).
Proof.
  intros Hd Hb Hp Hl Hf Ht bps ch total step n Hn Hst Hov.
  pose proof (step_fp_spec g b Hd Hb Hf) as Hstep. destruct Hd as [Hbits Hch Hr].
  assert (Hbps : bps = 1 \/ bps = 2) by (subst bps; destruct Hbits as [->| ->]; auto).
  assert (Hq : Z.quot (a_bits_per_sample g) 8 = bps) by (subst bps; destruct Hbits as [->| ->]; done).
  unfold rb_audio_mix_buffer. rewrite Hp, Hstep, Hq. cbn [negb]. fold ch total step.
  assert (Hfb : 0 < bps * ch) by nia. replace (0 <? bps * ch) with true by lia.
  rewrite Z.quot_div_nonneg by (unfold blen; lia). fold n.
  replace ((n <=? 0) || (total <=? 0) || (step =? 0)) with false by lia.
  pose proof (bo_cursor _ Hb) as Hc. pose proof (Z.mul_div_le (blen stream) (bps * ch) Hfb) as Hnl. fold n in Hnl.
  destruct (mix_loop_once bps ch total step (b_cursor_fp b) n b (Z.to_nat n) 0 stream)
    as (played & s' & Hle & Er & L & Hj & E & He); try done; try lia.
  assert (Hself : set_cursor (b_cursor_fp b + 0 * step) b = b) by (destruct b; simpl; unfold set_cursor; simpl; by rewrite Z.add_0_r).
  rewrite Hself in E. exists played, s'. eexists. split; [exact E|]. split; [done|]. split; [done|].
  destruct (Nat.ltb_spec played (Z.to_nat n)).
  - right. split_and!; [done|by apply He|done].
  - left. split; [lia|]. f_equal. rewrite Z.add_0_l. by rewrite Z2Nat.id by lia.
Qed.
End mixing.

(** ** Safety of the operations *)

(** The list holds each sound buffer once, and the buffers are sound. *)
Record audio_ok (g : rb_audio_state) : Prop := {
  ao_device : device_state g;
  ao_nodup : NoDup (a_buffers g);
  ao_listed : forall h, h ∈ a_buffers g <-> is_Some (a_objects g !! h);
  ao_bufs : forall h o, a_objects g !! h = Some o -> exists b, o = ABuf b /\ buf_ok b;
  ao_count : a_buffer_count g = Z.of_nat (length (a_buffers g)) }.

(** The calls of DirectSound, the guest writing into a locked region, and SDL's
    callback. *)
Inductive audio_op :=
| AOpen (freq channels bits samples : Z)
| AOpenFails
| AClose
| ACreate (format : Z * Z * Z) (size : Z) (alloc : bool)
| ADestroy (h : Z)
| APlay (h : Z) (loop : bool)
| AStop (h : Z)
| AVolume (h v : Z)
| APan (h p : Z)
| AFrequency (h f : Z)
| APosition (h p : Z)
| AIsPlaying (shutdown : bool) (h : Z)
| AWrite (h offset : Z) (data : bytes)
| ACallback (shutdown : bool) (len : nat).

Definition op_ok (o : audio_op) : Prop :=
  match o with
  | AOpen f c b _ => (b = 8 \/ b = 16) /\ 1 <= c < 2 ^ 8 /\ 0 < f < 2 ^ 31
  | ACreate (r, c, b) size _ => 0 <= r < 2 ^ 32 /\ 0 <= c < 2 ^ 16 /\ 0 <= b < 2 ^ 16 /\ size < 2 ^ 31
  | AFrequency _ f => 0 <= f < 2 ^ 32
  | APosition _ p => 0 <= p < 2 ^ 32
  | AWrite _ off d => 0 <= off < 2 ^ 32 /\ blen d < 2 ^ 32
  | _ => True
  end.

Section safety.
Variable gain16 gain8 : Z -> Z -> bool -> Z -> Z.
(** wine_handle_alloc returns a handle that is not in use. *)
Variable new_handle : gmap Z audio_object -> Z.
Hypothesis new_handle_fresh : forall m, m !! new_handle m = None.

(** A write into the region that rb_audio_buffer_lock hands out. *)
Definition write_locked (h offset : Z) (data : bytes) (g : rb_audio_state) : outcome rb_audio_state :=
  r ← rb_audio_buffer_lock h offset (blen data) g;
  match (r : option (Z * Z)) with
  | None => Ret g
  | Some (off, len) =>
      b ← rb_audio_get_buf h g;
      match (b : option rb_audio_buf) with
      | None => Ret g
      | Some b => d ← store_bytes off (take (Z.to_nat len) data) (b_data b); Ret (put_buf h (set_data d b) g)
      end
  end.

Definition audio_step (o : audio_op) (g : rb_audio_state) : outcome rb_audio_state :=
  match o with
  | AOpen f c b n => Ret (snd (rb_audio_open (Some (f, c, b, n)) g))
  | AOpenFails => Ret (snd (rb_audio_open None g))
  | AClose => Ret (rb_audio_close g)
  | ACreate fmt size alloc => Ret (snd (rb_audio_buffer_create (Some fmt) size alloc (new_handle (a_objects g)) g))
  | ADestroy h => '(_, g) ← rb_audio_buffer_destroy h g; Ret g
  | APlay h l => '(_, g) ← rb_audio_buffer_play h l g; Ret g
  | AStop h => '(_, g) ← rb_audio_buffer_stop h g; Ret g
  | AVolume h v => '(_, g) ← rb_audio_buffer_set_volume h v g; Ret g
  | APan h p => '(_, g) ← rb_audio_buffer_set_pan h p g; Ret g
  | AFrequency h f => '(_, g) ← rb_audio_buffer_set_frequency h f g; Ret g
  | APosition h p => '(_, g) ← rb_audio_buffer_set_position h p g; Ret g
  | AIsPlaying sd h => '(_, g) ← rb_audio_buffer_is_playing sd h g; Ret g
  | AWrite h off d => write_locked h off d g
  | ACallback sd len => '(_, g) ← rb_audio_callback gain16 gain8 sd (replicate len 0) g; Ret g
  end.

Lemma put_buf_ok h b b0 g : audio_ok g -> a_objects g !! h = Some (ABuf b0) -> buf_ok b -> audio_ok (put_buf h b g).
Proof.
  intros [H1 H2 H3 H4 H5] Hh Hb. split; simpl; [by apply (device_state_same g)|done| | |done].
  - intros k. rewrite H3. destruct (decide (k = h)) as [->|].
    + rewrite lookup_insert_eq, Hh. split; eauto.
    + by rewrite lookup_insert_ne.
  - intros k o. destruct (decide (k = h)) as [->|].
    + rewrite lookup_insert_eq. intros [= <-]. eauto.
    + rewrite lookup_insert_ne by done. apply H4.
Qed.

Lemma get_buf_ok h g :
  audio_ok g -> (a_objects g !! h = None /\ rb_audio_get_buf h g = Ret None) \/
    exists b, a_objects g !! h = Some (ABuf b) /\ rb_audio_get_buf h g = Ret (Some b) /\ buf_ok b.
Proof.
  intros Hg. unfold rb_audio_get_buf. destruct (a_objects g !! h) as [o|] eqn:E; [|by left]. right.
  destruct (ao_bufs _ Hg _ _ E) as (b & -> & Hb). eauto.
Qed.

Lemma with_buf_ok h f g :
  audio_ok g -> (forall b, buf_ok b -> buf_ok (snd (f b))) -> exists r g', with_buf h f g = Ret (r, g') /\ audio_ok g'.
Proof.
  intros Hg Hf. unfold with_buf. destruct (get_buf_ok h g Hg) as [[_ ->]|(b & Hh & -> & Hb)]; cbn [mbind outcome_bind].
  - eauto.
  - specialize (Hf b Hb). destruct (f b) as [r b']. do 2 eexists. split; [reflexivity|]. by apply (put_buf_ok h b' b).
Qed.

Lemma wrap64_range z : 0 <= u64 z < 2 ^ 64.
Proof. apply wrap_range. lia. Qed.

Lemma buf_ok_playing p b : buf_ok b -> buf_ok (set_playing p b).
Proof. by intros [H1 H2 H3 H4 H5 H6 H7]. Qed.
Lemma buf_ok_loop p b : buf_ok b -> buf_ok (set_loop p b).
Proof. by intros [H1 H2 H3 H4 H5 H6 H7]. Qed.

Lemma wrap_cursor_range fuel total l : forall c r,
  0 < total < 2 ^ 31 -> 0 <= c < 2 ^ 64 -> (l = true -> c / (total * 2 ^ 32) <= Z.of_nat fuel) ->
  wrap_cursor fuel total l c = Some r -> 0 <= r < total * 2 ^ 32.
Proof.
  intros c r Ht Hc Hf. destruct l.
  - rewrite wrap_cursor_loop by auto. intros [= <-]. apply Z.mod_pos_bound. lia.
  - rewrite wrap_cursor_once by lia. destruct (Z.ltb_spec c (total * 2 ^ 32)); [|done]. intros [= <-]. lia.
Qed.

Lemma mix_loop_safe bps ch step n todo : forall i b s,
  buf_ok b -> 0 < rb_audio_frame_count b -> bps = 1 \/ bps = 2 -> 1 <= ch -> 0 <= i -> i + Z.of_nat todo <= n ->
  n * (bps * ch) <= blen s ->
  exists s' b', mix_loop gain16 gain8 todo i bps ch (bps * ch) (rb_audio_frame_count b) step b s = Ret (s', b') /\
    buf_ok b' /\ blen s' = blen s.
Proof.
  induction todo as [|todo IH]; intros i b s Hb Ht Hbps Hch Hi Hn Hs; cbn [mix_loop]; [by eauto|].
  destruct (frame_count_spec b Hb) as (Hfc & _ & _). pose proof (bo_cursor _ Hb) as Hc.
  destruct (wrap_cursor _ _ _ _) as [cur|] eqn:Ew.
  - apply wrap_cursor_range in Ew; [|lia|done|].
    2: { intros _. unfold cursor_passes. rewrite shiftl_32, Z2Nat.id; [lia|]. apply Z.div_pos; lia. }
    rewrite shiftr_32. destruct (mix_frame_ok gain16 gain8 bps ch i n b (cur / 2 ^ 32) s) as (s1 & E1 & L1); [done|done|done|lia|done| |].
    { split; [apply Z.div_pos; lia|]. apply Z.div_lt_upper_bound; lia. }
    rewrite E1. cbn [mbind outcome_bind].
    destruct (IH (i + 1) (set_cursor (u64 (cur + step)) b) s1) as (s' & b' & E & Hb' & L); try done; try lia.
    { apply buf_ok_cursor; [done|]. apply wrap64_range. }
    exists s', b'. split; [exact E|]. split; [done|congruence].
  - do 2 eexists. split; [reflexivity|]. split; [|done]. apply buf_ok_playing, buf_ok_cursor; [done|]. apply wrap64_range.
Qed.

Lemma mix_buffer_safe g b s :
  device_state g -> buf_ok b ->
  exists s' b', rb_audio_mix_buffer gain16 gain8 g (blen s) b s = Ret (s', b') /\ buf_ok b' /\ blen s' = blen s.
Proof.
  intros Hdev Hb. unfold rb_audio_mix_buffer. destruct (negb _); [by eauto|].
  destruct Hdev as [[Hbits Hch Hr]|Hz].
  2: { rewrite Hz. cbn. do 2 eexists. split; [reflexivity|]. split; [by apply buf_ok_playing|done]. }
  set (bps := Z.quot (a_bits_per_sample g) 8).
  assert (Hbps : bps = 1 \/ bps = 2) by (subst bps; destruct Hbits as [->| ->]; auto).
  assert (Hfb : 0 < bps * a_channels g) by nia. replace (0 <? bps * a_channels g) with true by lia.
  rewrite Z.quot_div_nonneg by (unfold blen; lia). set (n := blen s / _).
  pose proof (Z.mul_div_le (blen s) (bps * a_channels g) Hfb) as Hnl. fold n in Hnl.
  destruct ((n <=? 0) || _ || _) eqn:E.
  - do 2 eexists. split; [reflexivity|]. split; [by apply buf_ok_playing|done].
  - apply (mix_loop_safe bps (a_channels g) _ n); done || lia.
Qed.

Lemma mix_all_safe l : forall s g len,
  audio_ok g -> (forall h, h ∈ l -> h ∈ a_buffers g) -> len = blen s ->
  exists s' g', mix_all gain16 gain8 l len s g = Ret (s', g') /\ audio_ok g' /\ a_buffers g' = a_buffers g.
Proof.
  induction l as [|h l IH]; intros s g len Hg Hl ->; cbn [mix_all]; [by eauto|].
  destruct (proj1 (ao_listed _ Hg h) (Hl h ltac:(by left))) as [o Ho]. rewrite Ho.
  destruct (ao_bufs _ Hg _ _ Ho) as (b & -> & Hb).
  destruct (mix_buffer_safe g b s (ao_device _ Hg) Hb) as (s1 & b1 & -> & Hb1 & L1). cbn [mbind outcome_bind].
  destruct (IH s1 (put_buf h b1 g) (blen s)) as (s' & g' & E & Hg' & Hbf).
  - by apply (put_buf_ok h b1 b).
  - intros k Hk. apply Hl. by right.
  - done.
  - eauto.
Qed.

Lemma stop_all_lookup (l : list Z) (m : gmap Z audio_object) h o :
  foldr (fun h m => alter stop_buf h m) m l !! h = Some o -> exists o', m !! h = Some o' /\ (o = o' \/ o = stop_buf o').
Proof.
  revert o. induction l as [|k l IH]; simpl; intros o Ho; [by eauto|].
  destruct (decide (h = k)) as [->|].
  - rewrite lookup_alter_eq in Ho. apply fmap_Some in Ho as (o1 & H1 & ->).
    destruct (IH o1 H1) as (o' & Hm & [->| ->]); exists o'; split; auto. right. by destruct o'.
  - rewrite lookup_alter_ne in Ho by done. by apply IH.
Qed.
Lemma stop_all_is_Some (l : list Z) (m : gmap Z audio_object) h :
  is_Some (foldr (fun h m => alter stop_buf h m) m l !! h) <-> is_Some (m !! h).
Proof.
  induction l as [|k l IH]; simpl; [done|]. destruct (decide (h = k)) as [->|].
  - by rewrite lookup_alter_eq, fmap_is_Some.
  - by rewrite lookup_alter_ne.
Qed.

Lemma stop_all_ok g : audio_ok g -> audio_ok (rb_audio_stop_all_locked g).
Proof.
  intros [H1 H2 H3 H4 H5]. split; simpl; [by apply (device_state_same g)|done| | |done].
  - intros h. by rewrite stop_all_is_Some.
  - intros h o Ho. apply stop_all_lookup in Ho as (o' & Ho' & Hx). destruct (H4 _ _ Ho') as (b & -> & Hb).
    destruct Hx as [->| ->]; eexists; (split; [reflexivity|]); [done|]. by apply buf_ok_playing.
Qed.

Lemma close_ok g : audio_ok g -> audio_ok (rb_audio_close g).
Proof.
  intros Hg. unfold rb_audio_close. destruct (negb _); [done|]. apply stop_all_ok in Hg as [H1 H2 H3 H4 H5].
  split; [by apply (device_state_same (rb_audio_stop_all_locked g))|done..].
Qed.

Lemma open_ok have g :
  audio_ok g -> match have with Some (f, c, b, _) => (b = 8 \/ b = 16) /\ 1 <= c < 2 ^ 8 /\ 0 < f < 2 ^ 31 | None => True end ->
  audio_ok (snd (rb_audio_open have g)).
Proof.
  intros Hg Hh. unfold rb_audio_open.
  assert (Hg' : audio_ok (if a_opened g then rb_audio_close g else g)) by (destruct (a_opened g); [by apply close_ok|done]).
  destruct have as [[[[f c] b] n]|]; [|done]. destruct Hg' as [H1 H2 H3 H4 H5].
  destruct Hh as (? & ? & ?). split; [left; by split|done..].
Qed.

Lemma create_ok fmt size alloc g :
  audio_ok g -> op_ok (ACreate fmt size alloc) ->
  audio_ok (snd (rb_audio_buffer_create (Some fmt) size alloc (new_handle (a_objects g)) g)).
Proof.
  intros Hg Ho. destruct fmt as [[r c] b]. destruct Ho as (Hr & Hc & Hb & Hs). unfold rb_audio_buffer_create.
  change (default (0, 0, 0) (Some (r, c, b))) with (r, c, b). cbn iota.
  set (c' := if negb (c =? 0) then c else u16 (a_channels g)).
  set (b' := if negb (b =? 0) then b else u16 (a_bits_per_sample g)).
  set (r' := if negb (r =? 0) then r else u32 (a_sample_rate g)).
  pose proof (wrap_range 16 (a_channels g) ltac:(lia)) as Hwc. pose proof (wrap_range 32 (a_sample_rate g) ltac:(lia)) as Hwr.
  assert (Hcr : 0 <= c' < 2 ^ 16) by (unfold c'; destruct (c =? 0); simpl negb; cbn iota; lia).
  assert (Hrr : 0 <= r' < 2 ^ 32) by (unfold r'; destruct (r =? 0); simpl negb; cbn iota; lia).
  clearbody c' b' r'.
  destruct ((c' =? 0) || (b' =? 0)) eqn:E1; [done|]. destruct (negb (b' =? 8) && negb (b' =? 16)) eqn:E2; [done|].
  set (sz := if size <=? 0 then _ else size).
  assert (Hsz : sz < 2 ^ 31).
  { subst sz. destruct (size <=? 0); [|lia].
    match goal with |- i32 ?x < _ => generalize x end. intros x. unfold swrap. pose proof (Z.mod_pos_bound (x + 2 ^ (32 - 1)) (2 ^ 32)). lia. }
  clearbody sz. destruct (negb alloc || (sz <? 0)) eqn:E3; [done|]. destruct (new_handle (a_objects g) =? 0); [done|].
  pose proof (new_handle_fresh (a_objects g)) as Hf. set (h := new_handle (a_objects g)) in *. destruct Hg as [H1 H2 H3 H4 H5].
  assert (Hnew : h ∉ a_buffers g) by (intros Hin; apply H3 in Hin; rewrite Hf in Hin; by destruct Hin).
  split; simpl; [by apply (device_state_same g)|by apply NoDup_cons| | |lia].
  - intros k. rewrite elem_of_cons, H3. destruct (decide (k = h)) as [->|].
    + rewrite lookup_insert_eq. split; eauto.
    + rewrite lookup_insert_ne by done. split; [intros [->|?]; [done|done]|by right].
  - intros k o. destruct (decide (k = h)) as [->|]; [|rewrite lookup_insert_ne by done; apply H4].
    rewrite lookup_insert_eq. intros [= <-]. eexists. split; [reflexivity|].
    split; simpl; [unfold blen; rewrite length_replicate; lia|lia|lia|lia|done|lia|lia].
Qed.

Lemma destroy_ok h g : audio_ok g -> exists r g', rb_audio_buffer_destroy h g = Ret (r, g') /\ audio_ok g'.
Proof.
  intros Hg. unfold rb_audio_buffer_destroy. destruct (get_buf_ok h g Hg) as [[_ ->]|(b & Hh & -> & Hb)]; cbn [mbind outcome_bind]; [by eauto|].
  do 2 eexists. split; [reflexivity|]. destruct Hg as [H1 H2 H3 H4 H5].
  assert (Hin : h ∈ a_buffers g) by (apply H3; eauto). unfold rb_audio_remove_buffer_locked.
  destruct (list_find (fun x => x = h) (a_buffers g)) as [[i y]|] eqn:Ef.
  2: { apply list_find_None in Ef. by pose proof (proj1 (Forall_forall _ _) Ef h Hin). }
  apply list_find_Some in Ef as (Hi & -> & _).
  assert (Hp : a_buffers g ≡ₚ h :: delete i (a_buffers g)) by (by apply delete_Permutation).
  assert (Hnd : NoDup (h :: delete i (a_buffers g))) by (by rewrite <- Hp). apply NoDup_cons in Hnd as [Hnh Hnd].
  split; simpl; [by apply (device_state_same g)|done| | |].
  - intros k. destruct (decide (k = h)) as [->|].
    + rewrite lookup_delete_eq. split; [done|by intros []].
    + rewrite lookup_delete_ne by done. rewrite <- H3.
      assert (Hk : k ∈ a_buffers g <-> k ∈ h :: delete i (a_buffers g)) by (by rewrite <- Hp).
      rewrite Hk, elem_of_cons. split; [by right|]. by intros [->|].
  - intros k o. destruct (decide (k = h)) as [->|]; [by rewrite lookup_delete_eq|]. rewrite lookup_delete_ne by done. apply H4.
  - pose proof (Permutation_length Hp) as Hl. simpl in Hl. rewrite H5, Hl. destruct (Z.ltb_spec 0 (Z.of_nat (S (length (delete i (a_buffers g)))))); lia.
Qed.

Lemma write_locked_ok h off d g :
  audio_ok g -> 0 <= off < 2 ^ 32 -> blen d < 2 ^ 32 -> exists g', write_locked h off d g = Ret g' /\ audio_ok g'.
Proof.
  intros Hg Ho Hd. unfold write_locked, rb_audio_buffer_lock.
  destruct (get_buf_ok h g Hg) as [[_ E]|(b & Hh & E & Hb)]; rewrite E; cbn [mbind outcome_bind]; [by eauto|].
  pose proof Hb as [Hs Hm Hbits Hc Hbpf Hfr Hcu]. assert (0 <= b_buffer_size b) by (unfold blen in Hs; lia).
  rewrite (wrap_small 32 (b_buffer_size b)) by lia. destruct (Z.leb_spec (b_buffer_size b) off); cbn [mbind outcome_bind]; [by eauto|].
  rewrite wrap_small by lia.
  set (len := if _ <? _ then _ else _).
  assert (Hlen : 0 <= len <= b_buffer_size b - off /\ len <= blen d).
  { subst len. unfold blen in *. destruct (Z.ltb_spec (b_buffer_size b - off) (Z.of_nat (length d))); lia. }
  clearbody len.
  destruct (store_bytes off (take (Z.to_nat len) d) (b_data b)) as [d'| |] eqn:Es.
  - cbn [mbind outcome_bind]. eexists. split; [reflexivity|]. apply (put_buf_ok h _ b); [done|done|].
    unfold store_bytes in Es. destruct (in_range _ _ _) eqn:Er; [|done]. injection Es as <-.
    split; simpl; try done. unfold blen in *. by rewrite length_splice.
  - unfold store_bytes in Es. by destruct (in_range _ _ _).
  - exfalso. unfold store_bytes in Es. destruct (in_range _ _ _) eqn:Er; [done|].
    assert (in_range off (blen (take (Z.to_nat len) d)) (blen (b_data b)) = true); [|congruence].
    apply in_range_spec. unfold blen in *. rewrite length_take. lia.
Qed.

Lemma audio_step_ok o g : audio_ok g -> op_ok o -> exists g1, audio_step o g = Ret g1 /\ audio_ok g1.
Proof.
  intros Hg Ho.
  assert (Hw : forall h f, (forall b, buf_ok b -> buf_ok (snd (f b))) ->
    exists g1, ('(_, g0) ← with_buf h f g; Ret g0) = Ret g1 /\ audio_ok g1).
  { intros h f Hf. destruct (with_buf_ok h f g Hg Hf) as (r & g1 & -> & Hg1). by eauto. }
  destruct o; cbn [audio_step op_ok] in *.
  - eexists. split; [reflexivity|]. by apply open_ok.
  - eexists. split; [reflexivity|]. by apply open_ok.
  - eexists. split; [reflexivity|]. by apply close_ok.
  - eexists. split; [reflexivity|]. by apply create_ok.
  - destruct (destroy_ok h g Hg) as (r & g1 & -> & Hg1). by eauto.
  - apply Hw. intros b Hb. simpl. apply buf_ok_loop, buf_ok_playing. destruct (_ && _); [|done]. by apply buf_ok_cursor.
  - apply Hw. intros b Hb. by apply buf_ok_playing.
  - apply Hw. intros b Hb. destruct Hb. by split.
  - apply Hw. intros b Hb. destruct Hb. by split.
  - apply Hw. intros b Hb. destruct (f =? 0); [done|]. destruct Hb. by split.
  - apply Hw. intros b Hb. destruct (_ <=? 0); [done|]. simpl. apply buf_ok_cursor; [done|]. apply wrap64_range.
  - unfold rb_audio_buffer_is_playing. destruct (get_buf_ok h g Hg) as [[_ ->]|(b & Hh & -> & Hb)]; cbn [mbind outcome_bind]; [by eauto|].
    destruct shutdown; [by eauto|]. destruct (_ && _ && _); [|by eauto]. cbn [mbind outcome_bind]. eexists. split; [reflexivity|].
    apply (put_buf_ok h _ b); [done|done|by apply buf_ok_playing].
  - destruct Ho. by apply write_locked_ok.
  - unfold rb_audio_callback. destruct shutdown; cbn [mbind outcome_bind].
    + eexists. split; [reflexivity|]. by apply stop_all_ok.
    + match goal with |- context [mix_all _ _ _ ?len ?s _] =>
        destruct (mix_all_safe (a_buffers g) s g len Hg) as (s' & g1 & -> & Hg1 & _) end; [done| |by eauto].
      unfold blen. by rewrite !length_replicate.
Qed.

(** C31: Whatever sound buffers the guest creates, fills, plays, moves and destroys, and
    whenever SDL asks for samples, no operation touches memory outside of the buffers
    and the stream, and the list of buffers stays exactly the live ones. *)
Theorem audio_operations_safe ops g :
  audio_ok g -> Forall op_ok ops ->
  exists g', foldl (fun m o => m ≫= audio_step o) (Ret g) ops = Ret g' /\ audio_ok g'.
Proof.
  intros Hg Hops. revert g Hg. induction Hops as [|o ops Ho Hops IH]; intros g Hg; [by eauto|]. cbn [foldl mbind outcome_bind].
  destruct (audio_step_ok o g Hg Ho) as (g1 & -> & Hg1). by apply IH.
Qed.
End safety.

(** *** Positions *)

(** The position read back after it was set is the one set, rounded down to a frame
    and limited to the whole frames of the buffer. *)
Theorem position_roundtrip h p g b :
  a_objects g !! h = Some (ABuf b) -> buf_ok b -> 0 <= p < 2 ^ 32 ->
  exists g', rb_audio_buffer_set_position h p g = Ret (true, g') /\
    rb_audio_buffer_get_position h g'
      = Ret (Some (Z.min p (b_buffer_size b) / b_bytes_per_frame b * b_bytes_per_frame b)).
Proof.
  intros Hh Hb Hp. destruct (frame_count_spec b Hb) as (Hfc & Hpos & Hle). pose proof (bo_small _ Hb) as Hsm.
  assert (Hsz : 0 <= b_buffer_size b) by (pose proof (bo_size _ Hb); unfold blen in *; lia).
  unfold rb_audio_buffer_set_position, with_buf, rb_audio_get_buf. rewrite Hh. cbn [mbind outcome_bind].
  replace (b_bytes_per_frame b <=? 0) with false by lia.
  assert (Hbpf : b_bytes_per_frame b < 2 ^ 32).
  { destruct Hb as [_ _ Hbits Hc Hb _ _]. rewrite Hb. destruct Hbits as [->| ->]; [change (8 / 8) with 1|change (16 / 8) with 2]; lia. }
  rewrite (wrap_small 32 (b_buffer_size b)), (wrap_small 32 (b_bytes_per_frame b)) by lia.
  set (off := if b_buffer_size b <? p then _ else p).
  assert (Hoff : off = Z.min p (b_buffer_size b)) by (subst off; destruct (Z.ltb_spec (b_buffer_size b) p); lia).
  rewrite Hoff. clear off Hoff. set (off := Z.min p (b_buffer_size b)).
  assert (Hfr : 0 <= off / b_bytes_per_frame b <= rb_audio_frame_count b).
  { split; [apply Z.div_pos; lia|]. unfold rb_audio_frame_count. replace (_ <=? 0) with false by lia.
    rewrite Z.quot_div_nonneg by lia. apply Z.div_le_mono; lia. }
  rewrite swrap_small by lia. replace (rb_audio_frame_count b <? _) with false by lia.
  eexists. split; [reflexivity|]. unfold rb_audio_buffer_get_position, rb_audio_get_buf. simpl a_objects.
  rewrite lookup_insert_eq. cbn [mbind outcome_bind]. cbn [b_bytes_per_frame b_cursor_fp set_cursor].
  replace (b_bytes_per_frame b <=? 0) with false by lia. rewrite shiftl_32, shiftr_32.
  assert (off / b_bytes_per_frame b * b_bytes_per_frame b <= off) by (rewrite Z.mul_comm; apply Z.mul_div_le; lia).
  rewrite (wrap_small 64 (_ * 2 ^ 32)) by lia. rewrite Z.div_mul by lia. rewrite (wrap_small 64) by nia.
  rewrite wrap_small by nia. done.
Qed.

(** *** Concrete inputs *)

Definition demo_buf (loop : bool) : rb_audio_buf :=
  mkBuf [128; 255; 0; 64] 4 11025 1 8 1 true loop 0 0 11025 0.
Definition demo_audio : rb_audio_state :=
  mkAudio true 22050 1 8 4 [1] 1 {[1 := ABuf (demo_buf true)]}.
Abbreviation unit_gain16 := (fun (_ _ : Z) (_ : bool) (s : Z) => s).
Abbreviation unit_gain8 := (fun (_ _ : Z) (_ : bool) (s : Z) => Z.quot s 256).

Lemma demo_buf_ok l : buf_ok (demo_buf l).
Proof. split; simpl; try done; lia || auto. Qed.
Lemma demo_device_ok : device_ok demo_audio.
Proof. split; simpl; try done; lia || auto. Qed.

Lemma looping_buffer_wraps_witness :
  exists s c, rb_audio_mix_buffer unit_gain16 unit_gain8 demo_audio 10 (demo_buf true) (replicate 10 128)
    = Ret (s, set_cursor c (demo_buf true)) /\ blen s = 10.
Proof.
  destruct (looping_buffer_wraps unit_gain16 unit_gain8 demo_audio (demo_buf true) (replicate 10 128))
    as (s & c & E & _ & L & _); [exact demo_device_ok|apply demo_buf_ok|done|done|done|by vm_compute..|].
  exists s, c. split; [exact E|exact L].
Defined.

Lemma one_shot_buffer_stops_witness :
  exists s b, rb_audio_mix_buffer unit_gain16 unit_gain8 demo_audio 10 (demo_buf false) (replicate 10 128) = Ret (s, b).
Proof.
  destruct (one_shot_buffer_stops unit_gain16 unit_gain8 demo_audio (demo_buf false) (replicate 10 128))
    as (n & s & b & E & _); [exact demo_device_ok|apply demo_buf_ok|done|done|done|by vm_compute..|].
  exists s, b. exact E.
Defined.

(** A half-speed looping buffer plays every frame twice and starts over. *)
Example looping_buffer_example :
  rb_audio_mix_buffer unit_gain16 unit_gain8 demo_audio 10 (demo_buf true) (replicate 10 128)
  = Ret ([128; 128; 255; 255; 0; 0; 64; 64; 128; 128], set_cursor (1 * 2 ^ 32) (demo_buf true)).
Proof. vm_compute. reflexivity. Qed.

Definition next_handle (m : gmap Z audio_object) : Z := fresh (dom m : gset Z).
Lemma next_handle_fresh m : m !! next_handle m = None.
Proof. apply not_elem_of_dom. unfold next_handle. apply is_fresh. Qed.

Lemma demo_audio_ok : audio_ok demo_audio.
Proof.
  split.
  - left. exact demo_device_ok.
  - apply NoDup_singleton.
  - intros h. simpl. rewrite list_elem_of_singleton. split; [intros ->; eexists; reflexivity|].
    intros [o Ho]. by apply lookup_singleton_Some in Ho as [-> _].
  - intros h o Ho. change (a_objects demo_audio) with ({[1 := ABuf (demo_buf true)]} : gmap Z audio_object) in Ho.
    apply lookup_singleton_Some in Ho as [_ <-]. eexists. split; [reflexivity|]. apply demo_buf_ok.
  - done.
Qed.

Lemma audio_operations_safe_witness :
  exists g, foldl (fun m o => m ≫= audio_step unit_gain16 unit_gain8 next_handle o) (Ret demo_audio)
    [ACallback false 7; AStop 1; APosition 1 3; APlay 1 false; ACallback false 100; ADestroy 1] = Ret g.
Proof.
  destruct (audio_operations_safe unit_gain16 unit_gain8 next_handle next_handle_fresh
    [ACallback false 7; AStop 1; APosition 1 3; APlay 1 false; ACallback false 100; ADestroy 1] demo_audio)
    as (g & E & _); [exact demo_audio_ok| |exists g; exact E].
  repeat (apply Forall_cons; split; [simpl; done || lia|]). apply Forall_nil, I.
Defined.

Lemma position_roundtrip_witness :
  exists g, rb_audio_buffer_set_position 1 3 demo_audio = Ret (true, g) /\ rb_audio_buffer_get_position 1 g = Ret (Some 3).
Proof.
  destruct (position_roundtrip 1 3 demo_audio (demo_buf true)) as (g & E1 & E2); [reflexivity|apply demo_buf_ok|lia|].
  exists g. split; [exact E1|exact E2].
Defined.

(** A handle of another kind is used as a sound buffer without a check. *)
Example foreign_handle_is_used :
  rb_audio_buffer_stop 2 (set_objects (<[2 := AForeign]> (a_objects demo_audio)) demo_audio) = Fault.
Proof. reflexivity. Qed.
