(* ===== verification/DSound.v ===== *)
(** * DirectSound (src/msvcrt/dsound_interface.c, dsound_buffer.c,
      dsound_buffer_control.c, dsound_buffer_create.c)

    The two COM objects of DirectSound over the audio backend.  Objects live in a
    heap that the guest's pointers index: a pointer to an object that has been freed
    is a fault.  malloc, SDL's audio device and the handle table are parameters. *)
From stdpp Require Import functions.
From S2P Require Import Prelude Bytes Audio.

Inductive hresult :=
| DS_OK | DSERR_CONTROLUNAVAIL | DSERR_INVALIDCALL | DSERR_OUTOFMEMORY | DSERR_INVALIDPARAM | DSERR_UNSUPPORTED
| CLASS_E_NOAGGREGATION | E_NOINTERFACE.
#[export] Instance hresult_eq_dec : EqDecision hresult.
Proof. solve_decision. Defined.
Definition failed (hr : hresult) : bool := negb (bool_decide (hr = DS_OK)).

Record WAVEFORMATEX := mkWave {
  wFormatTag : Z; nChannels : Z; nSamplesPerSec : Z; nAvgBytesPerSec : Z; nBlockAlign : Z; wBitsPerSample : Z; cbSize : Z }.

Record DSBUFFERDESC := mkDesc {
  dsd_dwSize : Z; dsd_dwFlags : Z; dsd_dwBufferBytes : Z; lpwfxFormat : option WAVEFORMATEX }.

Record my_ds_t := mkDs {
  ds_ref_count : Z; ds_cooperative_hwnd : Z; ds_cooperative_level : Z; ds_backend_ready : bool;
  ds_primary_format : WAVEFORMATEX;
  ds_buffer_list : Z }.

Record my_ds_buffer_t := mkDsBuffer {
  db_ref_count : Z; db_owner : Z; db_owner_next : Z; db_rb_buffer : Z; db_format : WAVEFORMATEX; db_desc_flags : Z; db_play_flags : Z;
  db_buffer_bytes : Z; db_volume : Z; db_pan : Z; db_frequency : Z; db_is_primary : bool }.

Record dsound := mkDsound { d_ds : gmap Z my_ds_t; d_buf : gmap Z my_ds_buffer_t; d_audio : rb_audio_state }.

Definition set_ds (p : Z) (d : my_ds_t) (s : dsound) : dsound := mkDsound (<[p := d]> (d_ds s)) (d_buf s) (d_audio s).
Definition set_buf (p : Z) (b : my_ds_buffer_t) (s : dsound) : dsound :=
  mkDsound (d_ds s) (<[p := b]> (d_buf s)) (d_audio s).
Definition set_audio (g : rb_audio_state) (s : dsound) : dsound := mkDsound (d_ds s) (d_buf s) g.

Definition ds_set_ref (n : Z) (d : my_ds_t) : my_ds_t :=
  mkDs n (ds_cooperative_hwnd d) (ds_cooperative_level d) (ds_backend_ready d) (ds_primary_format d) (ds_buffer_list d).
Definition ds_set_list (l : Z) (d : my_ds_t) : my_ds_t :=
  mkDs (ds_ref_count d) (ds_cooperative_hwnd d) (ds_cooperative_level d) (ds_backend_ready d) (ds_primary_format d) l.
Definition ds_set_ready (d : my_ds_t) : my_ds_t :=
  mkDs (ds_ref_count d) (ds_cooperative_hwnd d) (ds_cooperative_level d) true (ds_primary_format d) (ds_buffer_list d).
Definition ds_set_format (f : WAVEFORMATEX) (d : my_ds_t) : my_ds_t :=
  mkDs (ds_ref_count d) (ds_cooperative_hwnd d) (ds_cooperative_level d) (ds_backend_ready d) f (ds_buffer_list d).
Definition ds_set_level (hwnd level : Z) (d : my_ds_t) : my_ds_t :=
  mkDs (ds_ref_count d) hwnd level (ds_backend_ready d) (ds_primary_format d) (ds_buffer_list d).

Definition db_set_ref (n : Z) (b : my_ds_buffer_t) : my_ds_buffer_t :=
  mkDsBuffer n (db_owner b) (db_owner_next b) (db_rb_buffer b) (db_format b) (db_desc_flags b) (db_play_flags b) (db_buffer_bytes b)
    (db_volume b) (db_pan b) (db_frequency b) (db_is_primary b).
Definition db_set_format (f : WAVEFORMATEX) (freq : Z) (b : my_ds_buffer_t) : my_ds_buffer_t :=
  mkDsBuffer (db_ref_count b) (db_owner b) (db_owner_next b) (db_rb_buffer b) f (db_desc_flags b) (db_play_flags b) (db_buffer_bytes b)
    (db_volume b) (db_pan b) freq (db_is_primary b).
Definition db_set_rb (h : Z) (b : my_ds_buffer_t) : my_ds_buffer_t :=
  mkDsBuffer (db_ref_count b) (db_owner b) (db_owner_next b) h (db_format b) (db_desc_flags b) (db_play_flags b) (db_buffer_bytes b)
    (db_volume b) (db_pan b) (db_frequency b) (db_is_primary b).
Definition db_set_play (fl : Z) (b : my_ds_buffer_t) : my_ds_buffer_t :=
  mkDsBuffer (db_ref_count b) (db_owner b) (db_owner_next b) (db_rb_buffer b) (db_format b) (db_desc_flags b) fl (db_buffer_bytes b)
    (db_volume b) (db_pan b) (db_frequency b) (db_is_primary b).
Definition db_set_controls (v p f : Z) (b : my_ds_buffer_t) : my_ds_buffer_t :=
  mkDsBuffer (db_ref_count b) (db_owner b) (db_owner_next b) (db_rb_buffer b) (db_format b) (db_desc_flags b) (db_play_flags b)
    (db_buffer_bytes b) v p f (db_is_primary b).
Definition db_set_primary (b : my_ds_buffer_t) : my_ds_buffer_t :=
  mkDsBuffer (db_ref_count b) (db_owner b) (db_owner_next b) (db_rb_buffer b) (db_format b) (db_desc_flags b) (db_play_flags b)
    (db_buffer_bytes b) (db_volume b) (db_pan b) (db_frequency b) true.

(** Only the owner and the link. *)
Definition db_set_link (owner next : Z) (b : my_ds_buffer_t) : my_ds_buffer_t :=
  mkDsBuffer (db_ref_count b) owner next (db_rb_buffer b) (db_format b) (db_desc_flags b) (db_play_flags b)
    (db_buffer_bytes b) (db_volume b) (db_pan b) (db_frequency b) (db_is_primary b).
Definition db_set_next (next : Z) (b : my_ds_buffer_t) : my_ds_buffer_t := db_set_link (db_owner b) next b.

Definition WAVE_FORMAT_PCM : Z := 1.
Definition DSOUND_DEFAULT_BUFFER_SAMPLES : Z := 4096.

Definition dsound_default_wave_format : WAVEFORMATEX := mkWave WAVE_FORMAT_PCM 2 22050 (22050 * (2 * 2)) (2 * 2) 16 0.

Definition dsound_apply_format (b : my_ds_buffer_t) (format : WAVEFORMATEX) : hresult * my_ds_buffer_t :=
  if negb (wFormatTag format =? WAVE_FORMAT_PCM) then (DSERR_UNSUPPORTED, b)
  else if (nChannels format =? 0) || (nSamplesPerSec format =? 0) || (wBitsPerSample format =? 0) then (DSERR_INVALIDPARAM, b)
  else if negb (wBitsPerSample format =? 8) && negb (wBitsPerSample format =? 16) then (DSERR_UNSUPPORTED, b)
  else if negb (nBlockAlign format =? u16 (nChannels format * (wBitsPerSample format / 8))) then (DSERR_INVALIDPARAM, b)
  else if negb (nAvgBytesPerSec format =? u32 (nSamplesPerSec format * nBlockAlign format)) then (DSERR_INVALIDPARAM, b)
  else (DS_OK, db_set_format format (nSamplesPerSec format) b).

Section dsound.
Context {A : Arch}.
(** malloc: the new pointer. *)
Variable malloc : dsound -> option Z.
(** rb_init succeeds; what SDL opens for a format; the backend's allocations succeed;
    wine_handle_alloc. *)
Variable rb_init : bool.
Variable sdl_open : WAVEFORMATEX -> option (Z * Z * Z * Z).
Variable host_alloc : Z -> bool.
Variable new_handle : gmap Z audio_object -> Z.

(** The object behind a this pointer; [None] for NULL. *)
Definition get_ds (p : Z) (s : dsound) : outcome (option my_ds_t) :=
  if p =? 0 then Ret None else d ← deref (d_ds s !! p); Ret (Some d).
Definition get_buffer (p : Z) (s : dsound) : outcome (option my_ds_buffer_t) :=
  if p =? 0 then Ret None else b ← deref (d_buf s !! p); Ret (Some b).

(** *** The device object *)

Definition DirectSoundCreate (guid_null outer_null : bool) (s : dsound) : hresult * Z * dsound :=
  if negb outer_null then (CLASS_E_NOAGGREGATION, 0, s)
  else if negb guid_null then (DSERR_UNSUPPORTED, 0, s)
  else
    match malloc s with
    | None => (DSERR_OUTOFMEMORY, 0, s)
    | Some p => (DS_OK, p, set_ds p (mkDs 1 0 1 false dsound_default_wave_format 0) s)
    end.

Definition dsound_ds_addref (p : Z) (s : dsound) : outcome (Z * dsound) :=
  d ← get_ds p s;
  match (d : option my_ds_t) with
  | None => Ret (0, s)
  | Some d => let n := u32 (ds_ref_count d + 1) in Ret (n, set_ds p (ds_set_ref n d) s)
  end.

Definition dsound_ds_release (p : Z) (s : dsound) : outcome (Z * dsound) :=
  d ← get_ds p s;
  match (d : option my_ds_t) with
  | None => Ret (0, s)
  | Some d =>
      let n := if 0 <? ds_ref_count d then ds_ref_count d - 1 else ds_ref_count d in
      if negb (n =? 0) then Ret (n, set_ds p (ds_set_ref n d) s)
      else Ret (0, mkDsound (delete p (d_ds s)) (d_buf s) (d_audio s))
  end.

(** IUnknown and IDirectSound. *)
Definition dsound_QueryInterface (p : Z) (known : bool) (s : dsound) : outcome (hresult * Z * dsound) :=
  d ← get_ds p s;
  match (d : option my_ds_t) with
  | None => Ret (DSERR_INVALIDPARAM, 0, s)
  | Some _ => if known then '(_, s) ← dsound_ds_addref p s; Ret (DS_OK, p, s) else Ret (E_NOINTERFACE, 0, s)
  end.

Definition dsound_SetCooperativeLevel (p hwnd level : Z) (s : dsound) : outcome (hresult * dsound) :=
  d ← get_ds p s;
  match (d : option my_ds_t) with
  | None => Ret (DSERR_INVALIDPARAM, s)
  | Some d =>
      if (level <? 1) || (4 <? level) then Ret (DSERR_INVALIDPARAM, s)
      else Ret (DS_OK, set_ds p (ds_set_level hwnd level d) s)
  end.

Definition dsound_ensure_backend (p : Z) (s : dsound) : outcome (hresult * dsound) :=
  d ← get_ds p s;
  match (d : option my_ds_t) with
  | None => Ret (DSERR_INVALIDPARAM, s)
  | Some d =>
      if ds_backend_ready d then Ret (DS_OK, s)
      else if negb rb_init then Ret (DSERR_INVALIDCALL, s)
      else
        let '(ok, g) := rb_audio_open (sdl_open (ds_primary_format d)) (d_audio s) in
        let s := set_audio g s in
        if negb ok then Ret (DSERR_INVALIDCALL, s) else Ret (DS_OK, set_ds p (ds_set_ready d) s)
  end.

(** *** Buffers: creation and destruction *)

(** Writing through [link]: the owner's buffer_list, or the owner_next of a buffer. *)
Definition write_link (owner : Z) (link : option Z) (next : Z) (s : dsound) : outcome dsound :=
  match link with
  | None => d ← deref (d_ds s !! owner); Ret (set_ds owner (ds_set_list next d) s)
  | Some q => x ← deref (d_buf s !! q); Ret (set_buf q (db_set_next next x) s)
  end.
(** The loop: [cur] is what [link] points to.  A list with a cycle has it run for ever
    ([Fail]). *)
Fixpoint unlink_loop (fuel : nat) (owner p : Z) (link : option Z) (cur : Z) (s : dsound) : outcome dsound :=
  match fuel with
  | O => Fail
  | S fuel =>
      if cur =? 0 then Ret s
      else if cur =? p then b ← deref (d_buf s !! p); write_link owner link (db_owner_next b) s
      else x ← deref (d_buf s !! cur); unlink_loop fuel owner p (Some cur) (db_owner_next x) s
  end.
Definition dsound_unlink_buffer (p : Z) (s : dsound) : outcome dsound :=
  b ← get_buffer p s;
  match (b : option my_ds_buffer_t) with
  | None => Ret s
  | Some b =>
      if db_owner b =? 0 then Ret s
      else
        d ← deref (d_ds s !! db_owner b);
        s ← unlink_loop (S (size (d_buf s))) (db_owner b) p None (ds_buffer_list d) s;
        b ← deref (d_buf s !! p);
        Ret (set_buf p (db_set_link 0 0 b) s)
  end.

Definition dsound_destroy_buffer (p : Z) (s : dsound) : outcome dsound :=
  b ← get_buffer p s;
  match (b : option my_ds_buffer_t) with
  | None => Ret s
  | Some b =>
      let owner := db_owner b in
      s ← dsound_unlink_buffer p s;
      b ← deref (d_buf s !! p);
      s ← (if negb (db_rb_buffer b =? 0)
           then '(_, g) ← rb_audio_buffer_destroy (db_rb_buffer b) (d_audio s); Ret (set_audio g s) else Ret s);
      let s := mkDsound (d_ds s) (delete p (d_buf s)) (d_audio s) in
      if negb (owner =? 0) then '(_, s) ← dsound_ds_release owner s; Ret s else Ret s
  end.

Definition DSBCAPS_PRIMARYBUFFER : Z := 1.
Definition dsound_legacy_buffer_desc_size : Z := if is_my_wine32 then 20 else 24.

Definition dsound_init_buffer_defaults (owner : Z) (desc : DSBUFFERDESC) : my_ds_buffer_t :=
  mkDsBuffer 1 owner 0 0 (mkWave 0 0 0 0 0 0 0) (dsd_dwFlags desc) 0 (dsd_dwBufferBytes desc) 0 0 0 false.

Definition dsound_create_primary_buffer (b : my_ds_buffer_t) (d : my_ds_t) (desc : DSBUFFERDESC)
  : hresult * my_ds_buffer_t :=
  dsound_apply_format (db_set_primary b) (default (ds_primary_format d) (lpwfxFormat desc)).

Definition dsound_configure_secondary_buffer_controls (b : my_ds_buffer_t) (g : rb_audio_state)
  : outcome (hresult * rb_audio_state) :=
  '(ok, g) ← rb_audio_buffer_set_volume (db_rb_buffer b) (db_volume b) g;
  if negb ok then Ret (DSERR_INVALIDCALL, g)
  else
    '(ok, g) ← rb_audio_buffer_set_pan (db_rb_buffer b) (db_pan b) g;
    if negb ok then Ret (DSERR_INVALIDCALL, g)
    else
      '(ok, g) ← rb_audio_buffer_set_frequency (db_rb_buffer b) (db_frequency b) g;
      if negb ok then Ret (DSERR_INVALIDCALL, g) else Ret (DS_OK, g).

Definition dsound_create_secondary_buffer (b : my_ds_buffer_t) (desc : DSBUFFERDESC) (g : rb_audio_state)
  : outcome (hresult * my_ds_buffer_t * rb_audio_state) :=
  match lpwfxFormat desc with
  | None => Ret (DSERR_INVALIDPARAM, b, g)
  | Some fmt =>
      if dsd_dwBufferBytes desc =? 0 then Ret (DSERR_INVALIDPARAM, b, g)
      else
        let '(hr, b) := dsound_apply_format b fmt in
        if failed hr then Ret (hr, b, g)
        else
          let size := i32 (dsd_dwBufferBytes desc) in
          let '(h, g) := rb_audio_buffer_create
                           (Some (nSamplesPerSec (db_format b), nChannels (db_format b), wBitsPerSample (db_format b)))
                           size (host_alloc size) (new_handle (a_objects g)) g in
          let b := db_set_rb h b in
          if h =? 0 then Ret (DSERR_OUTOFMEMORY, b, g)
          else
            '(hr, g) ← dsound_configure_secondary_buffer_controls b g;
            if failed hr then '(_, g) ← rb_audio_buffer_destroy h g; Ret (hr, db_set_rb 0 b, g)
            else Ret (DS_OK, b, g)
  end.

Definition dsound_attach_buffer_to_owner (owner p : Z) (s : dsound) : outcome dsound :=
  '(_, s) ← dsound_ds_addref owner s;
  d ← deref (d_ds s !! owner);
  b ← deref (d_buf s !! p);
  let s := set_buf p (db_set_next (ds_buffer_list d) b) s in
  Ret (set_ds owner (ds_set_list p d) s).

Definition dsound_buffer_create (ds : Z) (desc : DSBUFFERDESC) (outer_null : bool) (s : dsound)
  : outcome (hresult * Z * dsound) :=
  d ← get_ds ds s;
  match (d : option my_ds_t) with
  | None => Ret (DSERR_INVALIDPARAM, 0, s)
  | Some _ =>
      if negb outer_null then Ret (CLASS_E_NOAGGREGATION, 0, s)
      else if dsd_dwSize desc <? dsound_legacy_buffer_desc_size then Ret (DSERR_INVALIDPARAM, 0, s)
      else
        '(hr, s) ← dsound_ensure_backend ds s;
        if failed hr then Ret (hr, 0, s)
        else
          match malloc s with
          | None => Ret (DSERR_OUTOFMEMORY, 0, s)
          | Some p =>
              let b := dsound_init_buffer_defaults ds desc in
              d ← deref (d_ds s !! ds);
              '(hr, b, g) ←
                (if negb (Z.land (dsd_dwFlags desc) DSBCAPS_PRIMARYBUFFER =? 0)
                 then let '(hr, b) := dsound_create_primary_buffer b d desc in Ret (hr, b, d_audio s)
                 else dsound_create_secondary_buffer b desc (d_audio s));
              let s := set_audio g s in
              if failed hr then Ret (hr, 0, s)
              else s ← dsound_attach_buffer_to_owner ds p (set_buf p b s); Ret (DS_OK, p, s)
          end
  end.

Definition dsound_buffer_AddRef (p : Z) (s : dsound) : outcome (Z * dsound) :=
  b ← get_buffer p s;
  match (b : option my_ds_buffer_t) with
  | None => Ret (0, s)
  | Some b => let n := u32 (db_ref_count b + 1) in Ret (n, set_buf p (db_set_ref n b) s)
  end.

Definition dsound_buffer_Release (p : Z) (s : dsound) : outcome (Z * dsound) :=
  b ← get_buffer p s;
  match (b : option my_ds_buffer_t) with
  | None => Ret (0, s)
  | Some b =>
      let n := if 0 <? db_ref_count b then db_ref_count b - 1 else db_ref_count b in
      let s := set_buf p (db_set_ref n b) s in
      if negb (n =? 0) then Ret (n, s) else s ← dsound_destroy_buffer p s; Ret (0, s)
  end.

Definition dsound_buffer_QueryInterface (p : Z) (known : bool) (s : dsound) : outcome (hresult * Z * dsound) :=
  b ← get_buffer p s;
  match (b : option my_ds_buffer_t) with
  | None => Ret (DSERR_INVALIDPARAM, 0, s)
  | Some b =>
      if known then Ret (DS_OK, p, set_buf p (db_set_ref (u32 (db_ref_count b + 1)) b) s) else Ret (E_NOINTERFACE, 0, s)
  end.

(** The getters of the controls. *)
Definition dsound_buffer_get (field : my_ds_buffer_t -> Z) (p : Z) (s : dsound) : outcome (hresult * Z) :=
  b ← get_buffer p s;
  Ret (match (b : option my_ds_buffer_t) with None => (DSERR_INVALIDPARAM, 0) | Some b => (DS_OK, field b) end).
Definition dsound_buffer_GetVolume := dsound_buffer_get db_volume.
Definition dsound_buffer_GetPan := dsound_buffer_get db_pan.
Definition dsound_buffer_GetFrequency := dsound_buffer_get db_frequency.

(** *** Buffers: control *)

Definition DSBLOCK_ENTIREBUFFER : Z := 2.
Definition DSBPLAY_LOOPING : Z := 1.

(** The two regions, each an offset into the buffer's data and a length. *)
Definition dsound_buffer_Lock (p write_cursor write_bytes flags : Z) (s : dsound)
  : outcome (hresult * option (Z * Z) * option (Z * Z)) :=
  b ← get_buffer p s;
  match (b : option my_ds_buffer_t) with
  | None => Ret (DSERR_INVALIDPARAM, None, None)
  | Some b =>
      if db_is_primary b || (db_rb_buffer b =? 0) then Ret (DSERR_CONTROLUNAVAIL, None, None)
      else if db_buffer_bytes b =? 0 then Ret (DSERR_INVALIDPARAM, None, None)
      else
        let entire := negb (Z.land flags DSBLOCK_ENTIREBUFFER =? 0) in
        if negb entire && (write_bytes =? 0) then Ret (DSERR_INVALIDPARAM, None, None)
        else
          let offset := if entire then 0 else write_cursor mod db_buffer_bytes b in
          let write_bytes := if entire then db_buffer_bytes b else write_bytes in
          let lock := fun o n => rb_audio_buffer_lock (db_rb_buffer b) o n (d_audio s) in
          if u32 (offset + write_bytes) <=? db_buffer_bytes b then
            r ← lock offset write_bytes;
            Ret (match (r : option (Z * Z)) with Some r => (DS_OK, Some r, None) | None => (DSERR_INVALIDCALL, None, None) end)
          else
            let size1 := db_buffer_bytes b - offset in
            r1 ← lock offset size1;
            match (r1 : option (Z * Z)) with
            | None => Ret (DSERR_INVALIDCALL, None, None)
            | Some r1 =>
                r2 ← lock 0 (u32 (write_bytes - size1));
                Ret (match (r2 : option (Z * Z)) with
                     | Some r2 => (DS_OK, Some r1, Some r2)
                     | None => (DSERR_INVALIDCALL, None, None)
                     end)
            end
  end.

(** [ptr1] and [ptr2] are whether the regions are non-empty with a pointer. *)
Definition dsound_buffer_Unlock (p : Z) (ptr1 ptr2 : bool) (s : dsound) : outcome hresult :=
  b ← get_buffer p s;
  match (b : option my_ds_buffer_t) with
  | None => Ret DSERR_INVALIDPARAM
  | Some b =>
      if db_is_primary b then Ret DS_OK
      else if db_rb_buffer b =? 0 then Ret DSERR_INVALIDCALL
      else
        ok1 ← (if ptr1 then rb_audio_buffer_unlock (db_rb_buffer b) (d_audio s) else Ret true);
        if negb (ok1 : bool) then Ret DSERR_INVALIDCALL
        else
          ok2 ← (if ptr2 then rb_audio_buffer_unlock (db_rb_buffer b) (d_audio s) else Ret true);
          Ret (if ok2 : bool then DS_OK else DSERR_INVALIDCALL)
  end.

(** A call on the backend's buffer: DS_OK on the primary buffer, [err] when the
    backend refuses. *)
Definition on_backend (b : my_ds_buffer_t) (missing err : hresult)
    (f : Z -> rb_audio_state -> outcome (bool * rb_audio_state)) (s : dsound) : outcome (hresult * dsound) :=
  if db_is_primary b then Ret (DS_OK, s)
  else if db_rb_buffer b =? 0 then Ret (missing, s)
  else
    '(ok, g) ← f (db_rb_buffer b) (d_audio s);
    Ret (if (ok : bool) then DS_OK else err, set_audio g s).

Definition dsound_buffer_Play (p flags : Z) (s : dsound) : outcome (hresult * dsound) :=
  b ← get_buffer p s;
  match (b : option my_ds_buffer_t) with
  | None => Ret (DSERR_INVALIDPARAM, s)
  | Some b =>
      let s := if db_is_primary b || (db_rb_buffer b =? 0) then s else set_buf p (db_set_play flags b) s in
      on_backend b DSERR_INVALIDCALL DSERR_INVALIDCALL
        (fun h => rb_audio_buffer_play h (negb (Z.land flags DSBPLAY_LOOPING =? 0))) s
  end.

Definition dsound_buffer_Stop (p : Z) (s : dsound) : outcome (hresult * dsound) :=
  b ← get_buffer p s;
  match (b : option my_ds_buffer_t) with
  | None => Ret (DSERR_INVALIDPARAM, s)
  | Some b =>
      let s := if db_is_primary b || (db_rb_buffer b =? 0) then s else set_buf p (db_set_play 0 b) s in
      on_backend b DSERR_INVALIDCALL DSERR_INVALIDCALL rb_audio_buffer_stop s
  end.

Definition dsound_buffer_SetCurrentPosition (p new_position : Z) (s : dsound) : outcome (hresult * dsound) :=
  b ← get_buffer p s;
  match (b : option my_ds_buffer_t) with
  | None => Ret (DSERR_INVALIDPARAM, s)
  | Some b => on_backend b DSERR_INVALIDCALL DSERR_INVALIDPARAM (fun h => rb_audio_buffer_set_position h new_position) s
  end.

Definition dsound_buffer_GetCurrentPosition (p : Z) (s : dsound) : outcome (hresult * Z) :=
  b ← get_buffer p s;
  match (b : option my_ds_buffer_t) with
  | None => Ret (DSERR_INVALIDPARAM, 0)
  | Some b =>
      if negb (db_is_primary b) && negb (db_rb_buffer b =? 0) then
        r ← rb_audio_buffer_get_position (db_rb_buffer b) (d_audio s); Ret (DS_OK, default 0 r)
      else Ret (DS_OK, 0)
  end.

Definition dsound_validate_control_range (value min_value max_value : Z) : bool :=
  negb ((value <? min_value) || (max_value <? value)).

Definition dsound_buffer_SetVolume (p volume : Z) (s : dsound) : outcome (hresult * dsound) :=
  b ← get_buffer p s;
  match (b : option my_ds_buffer_t) with
  | None => Ret (DSERR_INVALIDPARAM, s)
  | Some b =>
      if negb (dsound_validate_control_range volume (-10000) 0) then Ret (DSERR_INVALIDPARAM, s)
      else
        let b := db_set_controls volume (db_pan b) (db_frequency b) b in
        on_backend b DSERR_CONTROLUNAVAIL DSERR_INVALIDCALL (fun h => rb_audio_buffer_set_volume h volume) (set_buf p b s)
  end.

Definition dsound_buffer_SetPan (p pan : Z) (s : dsound) : outcome (hresult * dsound) :=
  b ← get_buffer p s;
  match (b : option my_ds_buffer_t) with
  | None => Ret (DSERR_INVALIDPARAM, s)
  | Some b =>
      if negb (dsound_validate_control_range pan (-10000) 10000) then Ret (DSERR_INVALIDPARAM, s)
      else
        let b := db_set_controls (db_volume b) pan (db_frequency b) b in
        on_backend b DSERR_CONTROLUNAVAIL DSERR_INVALIDCALL (fun h => rb_audio_buffer_set_pan h pan) (set_buf p b s)
  end.

Definition dsound_resolve_frequency (b : my_ds_buffer_t) (freq : Z) : Z :=
  if freq =? 0 then nSamplesPerSec (db_format b) else freq.
Definition dsound_buffer_SetFrequency (p freq : Z) (s : dsound) : outcome (hresult * dsound) :=
  b ← get_buffer p s;
  match (b : option my_ds_buffer_t) with
  | None => Ret (DSERR_INVALIDPARAM, s)
  | Some b =>
      let f := dsound_resolve_frequency b freq in
      if (f <? 100) || (200000 <? f) then Ret (DSERR_INVALIDPARAM, s)
      else
        let b := db_set_controls (db_volume b) (db_pan b) f b in
        on_backend b DSERR_CONTROLUNAVAIL DSERR_INVALIDCALL (fun h => rb_audio_buffer_set_frequency h f) (set_buf p b s)
  end.

(** The status flags: playing and looping. *)
Definition dsound_buffer_GetStatus (shutdown : bool) (p : Z) (s : dsound) : outcome (hresult * (bool * bool) * dsound) :=
  b ← get_buffer p s;
  match (b : option my_ds_buffer_t) with
  | None => Ret (DSERR_INVALIDPARAM, (false, false), s)
  | Some b =>
      if db_is_primary b then Ret (DS_OK, (false, false), s)
      else if db_rb_buffer b =? 0 then Ret (DS_OK, (false, false), s)
      else
        '(playing, g) ← rb_audio_buffer_is_playing shutdown (db_rb_buffer b) (d_audio s);
        Ret (DS_OK, (0 <? playing, (0 <? playing) && negb (Z.land (db_play_flags b) DSBPLAY_LOOPING =? 0)), set_audio g s)
  end.

Definition same_layout (f g : WAVEFORMATEX) : bool :=
  (nChannels f =? nChannels g) && (wBitsPerSample f =? wBitsPerSample g) && (nBlockAlign f =? nBlockAlign g).

Definition dsound_buffer_SetFormat (p : Z) (format : WAVEFORMATEX) (s : dsound) : outcome (hresult * dsound) :=
  b0 ← get_buffer p s;
  match (b0 : option my_ds_buffer_t) with
  | None => Ret (DSERR_INVALIDPARAM, s)
  | Some b0 =>
      let old_format := db_format b0 in
      let '(hr, b) := dsound_apply_format b0 format in
      if failed hr then Ret (hr, s)
      else
        let undo := set_buf p (db_set_format old_format (nSamplesPerSec old_format) b) in
        if db_is_primary b then
          let '(ok, g) := rb_audio_open (sdl_open format) (d_audio s) in
          let s := set_audio g s in
          if negb ok then Ret (DSERR_INVALIDCALL, undo s)
          else
            let s := set_buf p b s in
            if negb (db_owner b =? 0) then
              d ← deref (d_ds s !! db_owner b); Ret (DS_OK, set_ds (db_owner b) (ds_set_format format d) s)
            else Ret (DS_OK, s)
        else if db_rb_buffer b =? 0 then Ret (DSERR_CONTROLUNAVAIL, undo s)
        else if negb (same_layout format old_format) then Ret (DSERR_UNSUPPORTED, undo s)
        else
          '(ok, g) ← rb_audio_buffer_set_frequency (db_rb_buffer b) (nSamplesPerSec format) (d_audio s);
          let s := set_audio g s in
          if negb ok then Ret (DSERR_INVALIDCALL, undo s) else Ret (DS_OK, set_buf p b s)
  end.
End dsound.

(** ** Locked regions *)

(** The byte of the buffer that position [i] of the two regions is. *)
Definition region_byte (r1 : Z * Z) (r2 : option (Z * Z)) (i : Z) : Z :=
  if i <? r1.2 then r1.1 + i else match r2 with Some r => r.1 + (i - r1.2) | None => -1 end.

Lemma mod_add_wrap a b n : 0 <= a < n -> 0 <= b < n -> n <= a + b -> (a + b) mod n = a + b - n.
Proof. intros. rewrite <- (Z.mod_add (a + b) (-1) n) by lia. rewrite Z.mod_small; lia. Qed.

(** Lock hands out the bytes the guest asks for: together the two regions have the
    length requested, both lie inside of the buffer, and they follow the circular
    buffer from the write cursor on. *)
Theorem lock_regions_correct p cursor bytes s b ab :
  p <> 0 -> d_buf s !! p = Some b -> db_is_primary b = false -> db_rb_buffer b <> 0 ->
  a_objects (d_audio s) !! db_rb_buffer b = Some (ABuf ab) -> buf_ok ab -> db_buffer_bytes b = b_buffer_size ab ->
  0 < bytes <= db_buffer_bytes b -> 0 <= cursor < 2 ^ 32 ->
  exists r1 r2, dsound_buffer_Lock p cursor bytes 0 s = Ret (DS_OK, Some r1, r2) /\
    0 <= r1.1 /\ 0 < r1.2 /\ r1.1 + r1.2 <= b_buffer_size ab /\
    match r2 with None => r1.2 = bytes | Some r2 => r1.2 + r2.2 = bytes /\ r2.1 = 0 /\ 0 < r2.2 <= b_buffer_size ab end /\
    forall i, 0 <= i < bytes -> region_byte r1 r2 i = (cursor + i) mod b_buffer_size ab.
Proof.
  intros Hp Hb Hpr Hrb Ha Hab Hsz Hby Hcu. unfold dsound_buffer_Lock, get_buffer.
  replace (p =? 0) with false by lia. rewrite Hb. cbn [deref mbind outcome_bind]. rewrite Hpr.
  replace (db_rb_buffer b =? 0) with false by lia. replace (db_buffer_bytes b =? 0) with false by lia. cbn [orb].
  change (Z.land 0 DSBLOCK_ENTIREBUFFER) with 0. change (negb (0 =? 0)) with false. cbn iota. cbn [negb andb].
  replace (bytes =? 0) with false by lia. rewrite Hsz in *. set (n := b_buffer_size ab) in *.
  assert (Hn : n < 2 ^ 31) by apply (bo_small _ Hab). set (o := cursor mod n).
  assert (Ho : 0 <= o < n) by (apply Z.mod_pos_bound; lia).
  assert (Hmod : forall i, (cursor + i) mod n = (o + i) mod n) by (intros; unfold o; by rewrite Zplus_mod_idemp_l).
  assert (Hlock : forall off k, 0 <= off < n -> 0 <= k < 2 ^ 32 ->
    rb_audio_buffer_lock (db_rb_buffer b) off k (d_audio s) = Ret (Some (off, Z.min k (n - off)))).
  { intros off k H1 H2. unfold rb_audio_buffer_lock, rb_audio_get_buf. rewrite Ha. cbn [mbind outcome_bind]. fold n.
    rewrite (wrap_small 32 n) by lia. replace (n <=? off) with false by lia. rewrite wrap_small by lia.
    do 3 f_equal. destruct (Z.ltb_spec (n - off) k); lia. }
  rewrite (wrap_small 32 (o + bytes)) by lia. destruct (Z.leb_spec (o + bytes) n).
  - rewrite Hlock by lia. cbn [mbind outcome_bind]. do 2 eexists. split; [reflexivity|]. cbn [fst snd].
    split_and!; [lia..|]. intros i Hi. unfold region_byte. cbn [fst snd]. replace (i <? _) with true by lia.
    rewrite Hmod. symmetry. apply Z.mod_small. lia.
  - rewrite (wrap_small 32 (bytes - (n - o))) by lia. rewrite (Hlock o), (Hlock 0) by lia.
    cbn [mbind outcome_bind]. do 2 eexists. split; [reflexivity|]. cbn [fst snd]. split_and!; [lia..|].
    intros i Hi. unfold region_byte. cbn [fst snd]. rewrite Hmod. destruct (Z.ltb_spec i (Z.min (n - o) (n - o))).
    + symmetry. apply Z.mod_small. lia.
    + rewrite mod_add_wrap by lia. lia.
Qed.

(** ** The lifetime of the objects *)

(** The calls of a guest. *)
Inductive ds_op :=
| GCreate
| GAddRef (ds : Z)
| GRelease (ds : Z)
| GQuery (ds : Z)
| GLevel (ds hwnd level : Z)
| GCreateBuffer (ds : Z) (desc : DSBUFFERDESC)
| GBufAddRef (b : Z)
| GBufRelease (b : Z)
| GBufQuery (b : Z)
| GPlay (b flags : Z)
| GStop (b : Z)
| GPosition (b p : Z)
| GVolume (b v : Z)
| GPan (b v : Z)
| GFrequency (b f : Z)
| GFormat (b : Z) (f : WAVEFORMATEX)
| GStatus (b : Z)
| GLock (b cursor bytes flags : Z)
| GUnlock (b : Z) (ptr1 ptr2 : bool).

(** The fields of a format and a descriptor have their C types. *)
Definition wave_ok (f : WAVEFORMATEX) : Prop :=
  0 <= nSamplesPerSec f < 2 ^ 32 /\ 0 <= nChannels f < 2 ^ 16 /\ 0 <= wBitsPerSample f < 2 ^ 16.
Definition ds_op_ok (o : ds_op) : Prop :=
  match o with
  | GCreateBuffer _ desc => match lpwfxFormat desc with Some f => wave_ok f | None => True end
  | GFormat _ f => wave_ok f
  | GPosition _ x => 0 <= x < 2 ^ 32
  | _ => True
  end.

(** How many references the guest holds to each device and to each buffer. *)
Record held := mkHeld { h_ds : gmap Z Z; h_buf : gmap Z Z }.
Definition refs (m : gmap Z Z) (p : Z) : Z := default 0 (m !! p).
Definition add_ref (p k : Z) (m : gmap Z Z) : gmap Z Z := <[p := refs m p + k]> m.
Definition hold_ds (p k : Z) (h : held) : held := mkHeld (add_ref p k (h_ds h)) (h_buf h).
Definition hold_buf (p k : Z) (h : held) : held := mkHeld (h_ds h) (add_ref p k (h_buf h)).

(** The guest calls methods only of objects to which it holds a reference. *)
Definition allowed (o : ds_op) (h : held) : bool :=
  match o with
  | GCreate => true
  | GAddRef p | GRelease p | GQuery p | GLevel p _ _ | GCreateBuffer p _ => 0 <? refs (h_ds h) p
  | GBufAddRef p | GBufRelease p | GPlay p _ | GStop p | GPosition p _ | GVolume p _ | GPan p _ | GFrequency p _
  | GFormat p _ | GStatus p | GLock p _ _ _ | GUnlock p _ _ | GBufQuery p => 0 <? refs (h_buf h) p
  end.

Lemma refs_add p k m q : refs (add_ref p k m) q = if decide (q = p) then refs m p + k else refs m q.
Proof.
  unfold add_ref, refs at 1. destruct (decide (q = p)) as [->|]; [by rewrite lookup_insert_eq|].
  by rewrite lookup_insert_ne.
Qed.

(** The links from [head] run through the live buffers [l] and end. *)
Fixpoint chain (m : gmap Z my_ds_buffer_t) (head : Z) (l : list Z) : Prop :=
  match l with
  | [] => head = 0
  | q :: l => head = q /\ q <> 0 /\ exists b, m !! q = Some b /\ chain m (db_owner_next b) l
  end.


Lemma chain_frame m m' l : forall head,
  (forall q b, q ∈ l -> m !! q = Some b -> exists b', m' !! q = Some b' /\ db_owner_next b' = db_owner_next b) ->
  chain m head l -> chain m' head l.
Proof.
  induction l as [|q l IH]; intros head Hm; [done|]. intros (-> & Hq & b & Hb & Hc). split_and!; [done..|].
  destruct (Hm q b) as (b' & Hb' & Hn); [by left|done|]. exists b'. split; [done|]. rewrite Hn. apply IH; [|done].
  intros x y Hx. apply Hm. by right.
Qed.
Lemma chain_update m p b b' l head :
  m !! p = Some b -> db_owner_next b' = db_owner_next b -> chain m head l -> chain (<[p := b']> m) head l.
Proof.
  intros Hp Hn. apply chain_frame. intros q y _ Hy. destruct (decide (q = p)) as [->|]; [|rewrite lookup_insert_ne by done; eauto].
  rewrite lookup_insert_eq. exists b'. split; [done|congruence].
Qed.
Lemma chain_live m l : forall head q, chain m head l -> q ∈ l -> is_Some (m !! q).
Proof.
  induction l as [|x l IH]; intros head q; [by intros _ ?%not_elem_of_nil|]. intros (-> & _ & b & Hb & Hc) [->|Hq]%elem_of_cons; eauto.
Qed.
Lemma chain_length m l head : chain m head l -> NoDup l -> (length l <= size m)%nat.
Proof.
  intros Hc Hnd. rewrite <- (size_dom (D := gset Z)), <- (size_list_to_set (C := gset Z) l Hnd). apply subseteq_size.
  intros q Hq%elem_of_list_to_set. apply elem_of_dom. by apply (chain_live m l head).
Qed.

(** A list without one buffer. *)
Definition others (p : Z) (l : list Z) : list Z := filter (fun x => x <> p) l.
Lemma elem_of_others p l q : q ∈ others p l <-> q <> p /\ q ∈ l.
Proof. unfold others. by rewrite list_elem_of_filter. Qed.
Lemma others_cons p q l : q <> p -> others p (q :: l) = q :: others p l.
Proof. intros Hq. unfold others. by rewrite filter_cons_True. Qed.
Lemma others_id p l : p ∉ l -> others p l = l.
Proof.
  induction l as [|q l IH]; [done|]. intros [Hq Hl]%not_elem_of_cons. rewrite others_cons by congruence. by rewrite IH.
Qed.
Lemma others_head p l : p ∉ l -> others p (p :: l) = l.
Proof. intros Hp. unfold others. rewrite filter_cons_False by (intros H; by apply H). by apply others_id. Qed.
Lemma others_length p l : NoDup l -> p ∈ l -> length l = S (length (others p l)).
Proof.
  induction l as [|q l IH]; [by intros _ ?%not_elem_of_nil|]. intros [Hq Hn]%NoDup_cons Hp.
  destruct (decide (q = p)) as [->|Hqp]; [by rewrite others_head|]. rewrite others_cons by done. cbn. f_equal. apply IH; [done|].
  by apply elem_of_cons in Hp as [->|?].
Qed.

(** The buffers after a walk: only links differ, and only those of listed buffers. *)
Definition relinked (l : list Z) (m m' : gmap Z my_ds_buffer_t) : Prop :=
  forall q, (q ∉ l -> m' !! q = m !! q) /\ db_set_next 0 <$> m' !! q = db_set_next 0 <$> m !! q.
Lemma relinked_insert l m q x n : m !! q = Some x -> q ∈ l -> relinked l m (<[q := db_set_next n x]> m).
Proof.
  intros Hq Hl k. destruct (decide (k = q)) as [->|]; [rewrite lookup_insert_eq, Hq|by rewrite lookup_insert_ne]. by split.
Qed.
Lemma relinked_sub l l' m m' : relinked l m m' -> (forall q, q ∈ l -> q ∈ l') -> relinked l' m m'.
Proof. intros Hr Hl q. destruct (Hr q) as [H1 H2]. split; [|done]. intros Hq. apply H1. auto. Qed.
Lemma relinked_back l m m' q y : relinked l m m' -> m' !! q = Some y -> exists x, m !! q = Some x /\ y = db_set_next (db_owner_next y) x.
Proof.
  intros Hr Hy. destruct (Hr q) as [_ E]. rewrite Hy in E. cbn in E. destruct (m !! q) as [x|]; [|done]. exists x. split; [done|].
  destruct x, y. cbn in *. injection E as -> -> -> -> -> -> -> -> -> -> ->. done.
Qed.
Lemma relinked_forth l m m' q x : relinked l m m' -> m !! q = Some x -> exists n, m' !! q = Some (db_set_next n x).
Proof.
  intros Hr Hx. destruct (Hr q) as [_ E]. rewrite Hx in E. destruct (m' !! q) as [y|] eqn:Hy; [|done].
  destruct (relinked_back l m m' q y Hr Hy) as (x' & Hx' & Ey). rewrite Hx in Hx'. injection Hx' as <-. rewrite Ey. eauto.
Qed.

(** An unlisted buffer put back. *)
Lemma relinked_put l m m' p b0 b : m !! p = Some b -> p ∉ l -> relinked l (<[p := b0]> m) m' -> relinked l m (<[p := b]> m').
Proof.
  intros Hp Hl Hr q. destruct (decide (q = p)) as [->|]; [rewrite lookup_insert_eq, Hp; by split|].
  destruct (Hr q) as [H1 H2]. rewrite lookup_insert_ne in H1, H2 by done. by rewrite lookup_insert_ne.
Qed.

(** Past the head the walk takes the buffer out by a write to the link before it. *)
Lemma unlink_loop_tail owner p l : forall fuel q0 cur s,
  (length l < fuel)%nat -> NoDup (q0 :: l) -> p ∈ l -> chain (d_buf s) cur l ->
  (exists x, d_buf s !! q0 = Some x /\ db_owner_next x = cur) -> q0 <> 0 ->
  exists m, unlink_loop fuel owner p (Some q0) cur s = Ret (mkDsound (d_ds s) m (d_audio s)) /\
    relinked (others p (q0 :: l)) (d_buf s) m /\ chain m q0 (others p (q0 :: l)).
Proof.
  induction l as [|c l IH]; intros fuel q0 cur s Hf Hnd Hp Hc (x & Hx & Hn) Hq0; [by apply not_elem_of_nil in Hp|].
  destruct fuel as [|fuel]; [simpl in Hf; lia|]. destruct Hc as (-> & Hc0 & b & Hb & Hc). cbn [unlink_loop].
  replace (c =? 0) with false by lia. apply NoDup_cons in Hnd as [Hq Hnd]. pose proof Hnd as [Hcl Hnl]%NoDup_cons.
  assert (Hqp : q0 <> p) by (intros ->; done). rewrite others_cons by done.
  destruct (Z.eqb_spec c p) as [->|Hcp].
  - rewrite Hb. cbn [deref mbind outcome_bind write_link]. rewrite Hx. cbn [deref mbind outcome_bind]. eexists. split; [reflexivity|].
    cbn [d_buf]. rewrite others_head by done. split; [apply relinked_insert; [done|by left]|]. split_and!; [done..|]. rewrite lookup_insert_eq. eexists. split; [reflexivity|].
    apply (chain_frame (d_buf s)); [|exact Hc]. intros y z Hy Hz. rewrite lookup_insert_ne; [eauto|]. intros <-. apply Hq. by right.
  - rewrite Hb. cbn [deref mbind outcome_bind]. apply elem_of_cons in Hp as [Hp|Hp]; [by subst|].
    destruct (IH fuel c (db_owner_next b) s) as (m & E & Hr & Hm); [simpl in Hf; lia|done..|by eauto|done|].
    rewrite E. eexists. split; [reflexivity|].
    split; [apply (relinked_sub _ _ _ _ Hr); intros; by right|]. split_and!; [done..|].
    destruct (Hr q0) as [Hsame _]. exists x. rewrite Hsame, Hx, Hn; [done|].
    intros [_ Hin]%elem_of_others. by apply Hq.
Qed.

(** The walk from the owner takes the buffer out of the list, whichever place it has. *)
Lemma unlink_loop_ok owner p l d b s :
  d_ds s !! owner = Some d -> d_buf s !! p = Some b -> chain (d_buf s) (ds_buffer_list d) l -> NoDup l -> p ∈ l ->
  exists hd m, unlink_loop (S (size (d_buf s))) owner p None (ds_buffer_list d) s =
      Ret (mkDsound (<[owner := ds_set_list hd d]> (d_ds s)) m (d_audio s)) /\
    relinked (others p l) (d_buf s) m /\ chain m hd (others p l).
Proof.
  intros Hd Hb Hc Hnd Hp. pose proof (chain_length _ _ _ Hc Hnd) as Hlen. destruct l as [|c l]; [by apply not_elem_of_nil in Hp|].
  destruct Hc as (Hcc & Hc0 & x & Hx & Hc). cbn [unlink_loop]. rewrite Hcc. replace (c =? 0) with false by lia.
  pose proof Hnd as [Hcl Hnl]%NoDup_cons. destruct (Z.eqb_spec c p) as [->|Hcp].
  - rewrite Hb in Hx. injection Hx as <-. rewrite Hb. cbn [deref mbind outcome_bind write_link]. rewrite Hd. cbn [deref mbind outcome_bind].
    exists (db_owner_next b), (d_buf s). rewrite others_head by done. by split_and!.
  - rewrite Hx. cbn [deref mbind outcome_bind]. apply elem_of_cons in Hp as [Hp|Hp]; [by subst|].
    destruct (unlink_loop_tail owner p l (size (d_buf s)) c (db_owner_next x) s) as (m & E & Hr & Hm); [simpl in Hlen; lia|done..|by eauto|done|].
    exists c, m. rewrite E. split; [|done]. do 2 f_equal. symmetry. apply insert_id. rewrite Hd. f_equal. destruct d. cbn in *. by subst.
Qed.

Section lifetime.
Context {A : Arch}.
Variable malloc : dsound -> option Z.
Variable rb_init : bool.
Variable sdl_open : WAVEFORMATEX -> option (Z * Z * Z * Z).
Variable host_alloc : Z -> bool.
Variable new_handle : gmap Z audio_object -> Z.
Hypothesis malloc_fresh : forall s p, malloc s = Some p -> p <> 0 /\ d_ds s !! p = None /\ d_buf s !! p = None.
Hypothesis new_handle_fresh : forall m, m !! new_handle m = None.
Hypothesis sdl_open_ok : forall f fr c b n,
  sdl_open f = Some (fr, c, b, n) -> (b = 8 \/ b = 16) /\ 1 <= c < 2 ^ 8 /\ 0 < fr < 2 ^ 31.

(** One call, with the references it gives to the guest or takes. *)
Definition guest_step (o : ds_op) (s : dsound) (h : held) : outcome (dsound * held) :=
  match o with
  | GCreate =>
      let '(hr, p, s) := DirectSoundCreate malloc true true s in
      Ret (s, if failed hr then h else hold_ds p 1 h)
  | GAddRef p => '(_, s) ← dsound_ds_addref p s; Ret (s, hold_ds p 1 h)
  | GRelease p => '(_, s) ← dsound_ds_release p s; Ret (s, hold_ds p (-1) h)
  | GQuery p => '(_, _, s) ← dsound_QueryInterface p true s; Ret (s, hold_ds p 1 h)
  | GLevel p hwnd l => '(_, s) ← dsound_SetCooperativeLevel p hwnd l s; Ret (s, h)
  | GCreateBuffer p desc =>
      '(hr, b, s) ← dsound_buffer_create malloc rb_init sdl_open host_alloc new_handle p desc true s;
      Ret (s, if failed hr then h else hold_buf b 1 h)
  | GBufAddRef p => '(_, s) ← dsound_buffer_AddRef p s; Ret (s, hold_buf p 1 h)
  | GBufRelease p => '(_, s) ← dsound_buffer_Release p s; Ret (s, hold_buf p (-1) h)
  | GBufQuery p => '(_, _, s) ← dsound_buffer_QueryInterface p true s; Ret (s, hold_buf p 1 h)
  | GPlay p f => '(_, s) ← dsound_buffer_Play p f s; Ret (s, h)
  | GStop p => '(_, s) ← dsound_buffer_Stop p s; Ret (s, h)
  | GPosition p x => '(_, s) ← dsound_buffer_SetCurrentPosition p x s; Ret (s, h)
  | GVolume p v => '(_, s) ← dsound_buffer_SetVolume p v s; Ret (s, h)
  | GPan p v => '(_, s) ← dsound_buffer_SetPan p v s; Ret (s, h)
  | GFrequency p f => '(_, s) ← dsound_buffer_SetFrequency p f s; Ret (s, h)
  | GFormat p f => '(_, s) ← dsound_buffer_SetFormat sdl_open p f s; Ret (s, h)
  | GStatus p => '(_, _, s) ← dsound_buffer_GetStatus false p s; Ret (s, h)
  | GLock p c n f => _ ← dsound_buffer_Lock p c n f s; Ret (s, h)
  | GUnlock p x y => _ ← dsound_buffer_Unlock p x y s; Ret (s, h)
  end.

(** Run the calls as long as the guest respects the discipline. *)
Fixpoint guest_run (ops : list ds_op) (s : dsound) (h : held) : outcome (dsound * held) :=
  match ops with
  | [] => Ret (s, h)
  | o :: ops => if allowed o h then '(s, h) ← guest_step o s h; guest_run ops s h else Ret (s, h)
  end.

(** The reference counts are exact: a device counts the guest's references and its
    buffers, a buffer counts the guest's references; counts are at most [n].
    [L] lists the buffers of each device, which its links run through. *)
Record ds_inv (n : Z) (L : Z -> list Z) (s : dsound) (h : held) : Prop := {
  iv_audio : audio_ok (d_audio s);
  iv_ds : forall p d, d_ds s !! p = Some d ->
    p <> 0 /\ ds_ref_count d = refs (h_ds h) p + Z.of_nat (length (L p)) /\ 0 < ds_ref_count d <= n /\
    NoDup (L p) /\ wave_ok (ds_primary_format d);
  iv_list : forall p d q, d_ds s !! p = Some d ->
    q ∈ L p <-> exists b, d_buf s !! q = Some b /\ db_owner b = p;
  iv_buf : forall q b, d_buf s !! q = Some b ->
    q <> 0 /\ db_ref_count b = refs (h_buf h) q /\ 0 < db_ref_count b <= n /\ is_Some (d_ds s !! db_owner b) /\
    wave_ok (db_format b);
  iv_held_ds : forall p, 0 <= refs (h_ds h) p /\ (0 < refs (h_ds h) p -> is_Some (d_ds s !! p));
  iv_held_buf : forall p, 0 <= refs (h_buf h) p /\ (0 < refs (h_buf h) p -> is_Some (d_buf s !! p));
  iv_links : forall p d, d_ds s !! p = Some d -> chain (d_buf s) (ds_buffer_list d) (L p) }.

(** Only the audio state changes. *)
Lemma inv_audio n L s h g : ds_inv n L s h -> audio_ok g -> ds_inv n L (set_audio g s) h.
Proof. intros [H1 H2 H3 H4 H5 H6] Hg. by split. Qed.

(** Only the controls of a buffer change. *)
Lemma inv_buf_control n L s h p b b' :
  ds_inv n L s h -> d_buf s !! p = Some b -> db_ref_count b' = db_ref_count b -> db_owner b' = db_owner b ->
  db_owner_next b' = db_owner_next b -> wave_ok (db_format b') -> ds_inv n L (set_buf p b' s) h.
Proof.
  intros [H1 H2 H3 H4 H5 H6 H7] Hb Hr Ho Hn Hw. split; simpl; [done|done| | |done| |intros q d Hd; apply (chain_update _ p b); auto].
  - intros q d x Hd. rewrite (H3 q d x Hd). destruct (decide (x = p)) as [->|].
    + rewrite lookup_insert_eq. split; intros (y & Hy & Hq); simplify_eq; eexists; (split; [done|]); congruence.
    + by rewrite lookup_insert_ne.
  - intros q y. destruct (decide (q = p)) as [->|]; [|rewrite lookup_insert_ne by done; apply H4].
    rewrite lookup_insert_eq. intros [= <-]. destruct (H4 p b Hb) as (? & ? & ? & ? & _). rewrite Hr, Ho. done.
  - intros q. destruct (H6 q) as [? Hs]. split; [done|]. intros Hq. specialize (Hs Hq).
    destruct (decide (q = p)) as [->|]; [rewrite lookup_insert_eq; eauto|]. by rewrite lookup_insert_ne.
Qed.

(** Only the fields of a device that are not about lifetime change. *)
Lemma inv_ds_control n L s h p d d' :
  ds_inv n L s h -> d_ds s !! p = Some d -> ds_ref_count d' = ds_ref_count d -> ds_buffer_list d' = ds_buffer_list d ->
  wave_ok (ds_primary_format d') -> ds_inv n L (set_ds p d' s) h.
Proof.
  intros [H1 H2 H3 H4 H5 H6 H7] Hd Hr Hl Hw. split; simpl; [done| | | | |done|].
  - intros q y. destruct (decide (q = p)) as [->|]; [|rewrite lookup_insert_ne by done; apply H2].
    rewrite lookup_insert_eq. intros [= <-]. destruct (H2 p d Hd) as (? & ? & ? & ? & _). rewrite Hr. done.
  - intros q y x. destruct (decide (q = p)) as [->|]; [|rewrite lookup_insert_ne by done; apply H3].
    rewrite lookup_insert_eq. intros [= <-]. by apply (H3 p d).
  - intros q y Hy. destruct (H4 q y Hy) as (? & ? & ? & Hs & ?). split_and!; try done; try lia.
    destruct (decide (db_owner y = p)) as [->|]; [rewrite lookup_insert_eq; eauto|]. by rewrite lookup_insert_ne.
  - intros q. destruct (H5 q) as [? Hs]. split; [done|]. intros Hq. specialize (Hs Hq).
    destruct (decide (q = p)) as [->|]; [rewrite lookup_insert_eq; eauto|]. by rewrite lookup_insert_ne.
  - intros q y. destruct (decide (q = p)) as [->|]; [|rewrite lookup_insert_ne by done; apply H7].
    rewrite lookup_insert_eq. intros [= <-]. rewrite Hl. by apply H7.
Qed.

Lemma inv_weaken n L m s h : ds_inv n L s h -> n <= m -> ds_inv m L s h.
Proof.
  intros [H1 H2 H3 H4 H5 H6] Hm. split; try done.
  - intros p d Hd. destruct (H2 p d Hd) as (? & ? & ? & ? & ?). split_and!; done || lia.
  - intros q b Hb. destruct (H4 q b Hb) as (? & ? & ? & ? & ?). split_and!; done || lia.
Qed.

Lemma get_ds_held n L s h p :
  ds_inv n L s h -> 0 < refs (h_ds h) p -> exists d, d_ds s !! p = Some d /\ get_ds p s = Ret (Some d).
Proof.
  intros Hi Hp. destruct (proj2 (iv_held_ds _ _ _ _ Hi p) Hp) as [d Hd]. exists d. split; [done|].
  destruct (iv_ds _ _ _ _ Hi p d Hd) as (? & _). unfold get_ds. replace (p =? 0) with false by lia. by rewrite Hd.
Qed.
Lemma get_buffer_held n L s h p :
  ds_inv n L s h -> 0 < refs (h_buf h) p -> exists b, d_buf s !! p = Some b /\ get_buffer p s = Ret (Some b).
Proof.
  intros Hi Hp. destruct (proj2 (iv_held_buf _ _ _ _ Hi p) Hp) as [d Hd]. exists d. split; [done|].
  destruct (iv_buf _ _ _ _ Hi p d Hd) as (? & _). unfold get_buffer. replace (p =? 0) with false by lia. by rewrite Hd.
Qed.

Lemma inv_same_held n L s h h' :
  ds_inv n L s h -> (forall p, refs (h_ds h') p = refs (h_ds h) p) -> (forall p, refs (h_buf h') p = refs (h_buf h) p) ->
  ds_inv n L s h'.
Proof.
  intros [H1 H2 H3 H4 H5 H6 H7] Hd Hb. split; [done| |done| | | |done]; intros; rewrite ?Hd, ?Hb; eauto.
Qed.

(** A device's count and the guest's references to it change by the same number. *)
Lemma inv_count n L m s h p d k :
  ds_inv n L s h -> d_ds s !! p = Some d -> n <= m -> 0 < ds_ref_count d + k <= m -> 0 <= refs (h_ds h) p + k ->
  ds_inv m L (set_ds p (ds_set_ref (ds_ref_count d + k) d) s) (hold_ds p k h).
Proof.
  intros Hi Hd Hm Hk Hr. apply (inv_weaken n L m) in Hi as [H1 H2 H3 H4 H5 H6 H7]; [|done].
  destruct (H2 p d Hd) as (Hp & Hc & _ & Hn & Hw). split; simpl; [done| | | | |done|].
  - intros q y. destruct (decide (q = p)) as [->|].
    + rewrite lookup_insert_eq, refs_add, decide_True by done. intros [= <-]. simpl. split_and!; done || lia.
    + rewrite lookup_insert_ne, refs_add, decide_False by done. apply H2.
  - intros q y x. destruct (decide (q = p)) as [->|]; [|rewrite lookup_insert_ne by done; apply H3].
    rewrite lookup_insert_eq. intros [= <-]. simpl. by apply (H3 p d x Hd).
  - intros q y Hy. destruct (H4 q y Hy) as (? & ? & ? & Hs & ?). split_and!; try done; try lia.
    destruct (decide (db_owner y = p)) as [->|]; [rewrite lookup_insert_eq; eauto|]. by rewrite lookup_insert_ne.
  - intros q. destruct (H5 q) as [Hq Hs]. rewrite refs_add. destruct (decide (q = p)) as [->|].
    + split; [done|]. rewrite lookup_insert_eq. eauto.
    + by rewrite lookup_insert_ne.
  - intros q y. destruct (decide (q = p)) as [->|]; [|rewrite lookup_insert_ne by done; apply H7].
    rewrite lookup_insert_eq. intros [= <-]. by apply (H7 p d).
Qed.

Lemma addref_inv n L s h p :
  ds_inv n L s h -> n + 1 < 2 ^ 32 -> 0 < refs (h_ds h) p ->
  exists r s', dsound_ds_addref p s = Ret (r, s') /\ ds_inv (n + 1) L s' (hold_ds p 1 h).
Proof.
  intros Hi Hn Hp. destruct (get_ds_held n L s h p Hi Hp) as (d & Hd & Hg). unfold dsound_ds_addref. rewrite Hg.
  cbn [mbind outcome_bind]. destruct (iv_ds _ _ _ _ Hi p d Hd) as (_ & _ & Hc & _).
  rewrite wrap_small by lia. do 2 eexists. split; [reflexivity|]. apply (inv_count n); done || lia.
Qed.

Lemma release_inv n L s h p :
  ds_inv n L s h -> 0 < refs (h_ds h) p ->
  exists r s', dsound_ds_release p s = Ret (r, s') /\ ds_inv n L s' (hold_ds p (-1) h).
Proof.
  intros Hi Hp. destruct (get_ds_held n L s h p Hi Hp) as (d & Hd & Hg). unfold dsound_ds_release. rewrite Hg.
  cbn [mbind outcome_bind]. destruct (iv_ds _ _ _ _ Hi p d Hd) as (Hp0 & Hct & Hc & _).
  replace (0 <? ds_ref_count d) with true by lia. destruct (Z.eqb_spec (ds_ref_count d - 1) 0) as [E|E]; cbn [negb].
  - do 2 eexists. split; [reflexivity|]. destruct Hi as [H1 H2 H3 H4 H5 H6 H7].
    assert (Hnil : L p = []) by (apply length_zero_iff_nil; lia).
    assert (Hown : forall q b, d_buf s !! q = Some b -> db_owner b <> p).
    { intros q b Hb Ho. pose proof (proj2 (H3 p d q Hd) (ex_intro _ b (conj Hb Ho))) as Hin.
      rewrite Hnil in Hin. by apply not_elem_of_nil in Hin. }
    split; simpl; [done| | | | |done|intros q y Hy; apply lookup_delete_Some in Hy as [_ Hy]; auto].
    + intros q y Hy. apply lookup_delete_Some in Hy as [Hne Hy]. rewrite refs_add, decide_False by done. by apply H2.
    + intros q y x Hy. apply lookup_delete_Some in Hy as [Hne Hy]. by apply (H3 q y).
    + intros q y Hy. destruct (H4 q y Hy) as (? & ? & ? & Hs & ?). split_and!; try done; try lia.
      rewrite lookup_delete_ne; [done|]. intros Heq. by apply (Hown q y Hy).
    + intros q. destruct (H5 q) as [Hq Hs]. rewrite refs_add. destruct (decide (q = p)) as [->|].
      * split; [lia|]. lia.
      * by rewrite lookup_delete_ne.
  - do 2 eexists. split; [reflexivity|]. apply (inv_count n L n); done || lia.
Qed.

Lemma buf_count n L m s h p b k :
  ds_inv n L s h -> d_buf s !! p = Some b -> n <= m -> 0 < db_ref_count b + k <= m ->
  ds_inv m L (set_buf p (db_set_ref (db_ref_count b + k) b) s) (hold_buf p k h).
Proof.
  intros Hi Hb Hm Hk. apply (inv_weaken n L m) in Hi as [H1 H2 H3 H4 H5 H6 H7]; [|done].
  destruct (H4 p b Hb) as (Hp & Hc & _ & Ho & Hw). split; simpl; [done|done| | |done| |intros q d Hd; apply (chain_update _ p b); auto].
  - intros q d x Hd. rewrite (H3 q d x Hd). destruct (decide (x = p)) as [->|]; [|by rewrite lookup_insert_ne].
    rewrite lookup_insert_eq. split; intros (y & Hy & Hq); simplify_eq; eexists; (split; [done|]); done.
  - intros q y. destruct (decide (q = p)) as [->|].
    + rewrite lookup_insert_eq, refs_add, decide_True by done. intros [= <-]. simpl. split_and!; done || lia.
    + rewrite lookup_insert_ne, refs_add, decide_False by done. apply H4.
  - intros q. destruct (H6 q) as [Hq Hs]. rewrite refs_add. destruct (decide (q = p)) as [->|].
    + split; [lia|]. rewrite lookup_insert_eq. eauto.
    + by rewrite lookup_insert_ne.
Qed.

(** Taking a buffer whose last reference is dropped out of the heap and out of its
    owner's list leaves the owner with one reference too many. *)
Lemma inv_detach n L s h p b d hd m g :
  ds_inv n L s h -> d_buf s !! p = Some b -> db_ref_count b = 1 -> d_ds s !! db_owner b = Some d -> audio_ok g ->
  relinked (others p (L (db_owner b))) (d_buf s) m -> chain m hd (others p (L (db_owner b))) ->
  ds_inv n (<[db_owner b := others p (L (db_owner b))]> L) (mkDsound (<[db_owner b := ds_set_list hd d]> (d_ds s)) (delete p m) g)
    (hold_ds (db_owner b) 1 (hold_buf p (-1) h)).
Proof.
  intros [H1 H2 H3 H4 H5 H6 H7] Hb Hr Hd Hg Hm Hch. destruct (H2 _ d Hd) as (Ho & Hc & Hcn & Hnd & Hw).
  destruct (H4 p b Hb) as (Hp & Hcb & _). assert (Hin : p ∈ L (db_owner b)) by (apply (H3 _ d p Hd); eauto).
  pose proof (others_length p _ Hnd Hin) as Hlen.
  split; simpl; [done| | | | | |].
  - intros q y. destruct (decide (q = db_owner b)) as [->|].
    + rewrite lookup_insert_eq, fn_lookup_insert, refs_add, decide_True by done. intros [= <-]. simpl.
      split_and!; [done|lia|lia|lia|by apply NoDup_filter|done].
    + rewrite lookup_insert_ne, fn_lookup_insert_ne, refs_add, decide_False by done. apply H2.
  - intros q y x Hy. transitivity (x <> p /\ exists b', d_buf s !! x = Some b' /\ db_owner b' = q).
    + destruct (decide (q = db_owner b)) as [->|].
      * rewrite fn_lookup_insert, elem_of_others. by rewrite (H3 _ d x Hd).
      * rewrite fn_lookup_insert_ne by done. rewrite lookup_insert_ne in Hy by done. rewrite (H3 _ y x Hy). split; [|by intros [_ ?]].
        intros (b' & Hb' & Hq). split; [|eauto]. intros ->. congruence.
    + destruct (decide (x = p)) as [->|]; [rewrite lookup_delete_eq; naive_solver|]. rewrite lookup_delete_ne by done. split.
      * intros (_ & b' & Hb' & Hq). destruct (relinked_forth _ _ _ _ _ Hm Hb') as [k Hk]. by eexists.
      * intros (y' & Hy' & Hq). destruct (relinked_back _ _ _ _ _ Hm Hy') as (b' & Hb' & E). rewrite E in Hq. eauto.
  - intros q y Hy. apply lookup_delete_Some in Hy as [Hne Hy]. destruct (relinked_back _ _ _ _ _ Hm Hy) as (x & Hx & ->).
    destruct (H4 q x Hx) as (? & ? & ? & Hs & ?). cbn [db_set_next db_set_link db_ref_count db_owner db_format].
    rewrite refs_add, decide_False by done. split_and!; try done; try lia.
    destruct (decide (db_owner x = db_owner b)) as [->|]; [rewrite lookup_insert_eq; eauto|]. by rewrite lookup_insert_ne.
  - intros q. destruct (H5 q) as [Hq Hs]. rewrite refs_add. destruct (decide (q = db_owner b)) as [->|].
    + split; [lia|]. rewrite lookup_insert_eq. eauto.
    + by rewrite lookup_insert_ne.
  - intros q. destruct (H6 q) as [Hq Hs]. rewrite refs_add. destruct (decide (q = p)) as [->|].
    + split; lia.
    + rewrite lookup_delete_ne by done. split; [done|]. intros Hlt. destruct (Hs Hlt) as [x Hx].
      destruct (relinked_forth _ _ _ _ _ Hm Hx) as [k Hk]. eauto.
  - intros q y. destruct (decide (q = db_owner b)) as [->|].
    + rewrite lookup_insert_eq, fn_lookup_insert. intros [= <-]. apply (chain_frame m); [|done].
      intros x z [Hx _]%elem_of_others Hz. rewrite lookup_delete_ne by done. eauto.
    + rewrite lookup_insert_ne, fn_lookup_insert_ne by done. intros Hy. apply (chain_frame (d_buf s)); [|by apply H7].
      intros x z Hx Hz. apply (H3 q y x Hy) in Hx as (b' & Hb' & Hq). rewrite Hz in Hb'. injection Hb' as <-.
      exists z. split; [|done]. assert (x <> p) by (intros ->; congruence). rewrite lookup_delete_ne by done.
      destruct (Hm x) as [Hsame _]. rewrite Hsame; [done|]. intros [_ Hx]%elem_of_others.
      apply (H3 _ d x Hd) in Hx as (b' & Hb' & Hq'). congruence.
Qed.

Lemma audio_destroyed h g :
  audio_ok g -> exists g', audio_ok g' /\ forall s, d_audio s = g ->
    (if negb (h =? 0) then '(_, g) ← rb_audio_buffer_destroy h (d_audio s); Ret (set_audio g s) else Ret s) = Ret (set_audio g' s).
Proof.
  intros Hg. destruct (negb _).
  - destruct (destroy_ok h g Hg) as (r & g' & E & Hg'). exists g'. split; [done|]. intros s <-. by rewrite E.
  - exists g. split; [done|]. intros [] <-. done.
Qed.

Lemma buf_release_inv n L s h p :
  ds_inv n L s h -> 0 < refs (h_buf h) p ->
  exists r s' L', dsound_buffer_Release p s = Ret (r, s') /\ ds_inv n L' s' (hold_buf p (-1) h).
Proof.
  intros Hi Hp. destruct (get_buffer_held n L s h p Hi Hp) as (b & Hb & Hg). unfold dsound_buffer_Release. rewrite Hg.
  cbn [mbind outcome_bind]. destruct (iv_buf _ _ _ _ Hi p b Hb) as (Hp0 & Hct & Hc & [d Hd] & Hwb).
  replace (0 <? db_ref_count b) with true by lia. destruct (Z.eqb_spec (db_ref_count b - 1) 0) as [E|E]; cbn [negb].
  2: { do 3 eexists. split; [reflexivity|]. apply (buf_count n L n); done || lia. }
  destruct (iv_ds _ _ _ _ Hi _ d Hd) as (Ho & _ & Hdc & Hnd & _).
  assert (Hin : p ∈ L (db_owner b)) by (apply (iv_list _ _ _ _ Hi _ d p Hd); eauto).
  set (s0 := set_buf p (db_set_ref (db_ref_count b - 1) b) s).
  assert (Hb0 : d_buf s0 !! p = Some (db_set_ref (db_ref_count b - 1) b)) by apply lookup_insert_eq.
  assert (Hg0 : get_buffer p s0 = Ret (Some (db_set_ref (db_ref_count b - 1) b))).
  { unfold get_buffer. replace (p =? 0) with false by lia. by rewrite Hb0. }
  destruct (unlink_loop_ok (db_owner b) p (L (db_owner b)) d _ s0 Hd Hb0) as (hd & m & El & Hm & Hch); [|done|done|].
  { apply (chain_update _ p b); [done..|]. by apply (iv_links _ _ _ _ Hi). }
  destruct (audio_destroyed (db_rb_buffer b) (d_audio s) (iv_audio _ _ _ _ Hi)) as (g & Hgok & Hge).
  assert (Hmp : m !! p = Some (db_set_ref (db_ref_count b - 1) b)).
  { rewrite (proj1 (Hm p)); [done|]. rewrite elem_of_others. naive_solver. }
  unfold dsound_destroy_buffer, dsound_unlink_buffer. rewrite Hg0. cbn [mbind outcome_bind].
  change (db_owner (db_set_ref (db_ref_count b - 1) b)) with (db_owner b). replace (db_owner b =? 0) with false by lia. cbn [negb].
  change (d_ds s0) with (d_ds s) in *. rewrite Hd. cbn [deref mbind outcome_bind]. rewrite El. cbn [mbind outcome_bind d_buf].
  rewrite Hmp. cbn [deref mbind outcome_bind d_buf set_buf]. rewrite lookup_insert_eq. cbn [deref mbind outcome_bind].
  change (db_rb_buffer (db_set_link 0 0 (db_set_ref (db_ref_count b - 1) b))) with (db_rb_buffer b).
  rewrite Hge by done. cbn [mbind outcome_bind negb d_buf d_ds d_audio set_audio set_buf]. rewrite delete_insert_eq.
  assert (Hpl : p ∉ others p (L (db_owner b))) by (rewrite elem_of_others; naive_solver).
  pose proof (inv_detach n L s h p b d hd (<[p := b]> m) g Hi Hb ltac:(lia) Hd Hgok (relinked_put _ _ _ _ _ _ Hb Hpl Hm)) as Hdet.
  rewrite delete_insert_eq in Hdet. specialize (Hdet ltac:(apply (chain_frame m); [intros q y Hq Hy; exists y; (rewrite lookup_insert_ne by (intros ->; done)); done|done])).
  destruct (release_inv n _ _ _ (db_owner b) Hdet) as (r & s2 & E2 & Hi2).
  { cbn [h_ds hold_ds]. rewrite refs_add, decide_True by done. pose proof (proj1 (iv_held_ds _ _ _ _ Hi (db_owner b))). simpl. lia. }
  change (d_audio s0) with (d_audio s). rewrite E2. cbn [mbind outcome_bind]. do 3 eexists. split; [reflexivity|].
  apply (inv_same_held _ _ _ _ _ Hi2); intros q; cbn [h_ds h_buf hold_ds hold_buf]; [|done].
  rewrite !refs_add, (decide_True (P := db_owner b = db_owner b)) by done. case_decide; subst; lia.
Qed.

(** *** Calls into the audio backend *)

Lemma audio_call {X} o g (m : outcome (X * rb_audio_state)) :
  audio_ok g -> op_ok o ->
  audio_step (fun _ _ _ x => x) (fun _ _ _ x => x) new_handle o g = ('(_, g1) ← m; Ret g1) ->
  exists r g1, m = Ret (r, g1) /\ audio_ok g1.
Proof.
  intros Hg Ho Hm.
  destruct (audio_step_ok (fun _ _ _ x => x) (fun _ _ _ x => x) new_handle new_handle_fresh o g Hg Ho) as (g1 & E & Hg1).
  rewrite E in Hm. destruct m as [[r g2]| |]; [|done..]. cbn [mbind outcome_bind] in Hm. injection Hm as ->. eauto.
Qed.

Lemma on_backend_inv n L s h b missing err f :
  ds_inv n L s h -> (forall k g, audio_ok g -> exists r g1, f k g = Ret (r, g1) /\ audio_ok g1) ->
  exists hr s', on_backend b missing err f s = Ret (hr, s') /\ ds_inv n L s' h.
Proof.
  intros Hi Hf. unfold on_backend. destruct (db_is_primary b); [by eauto|]. destruct (_ =? 0); [by eauto|].
  destruct (Hf (db_rb_buffer b) (d_audio s) (iv_audio _ _ _ _ Hi)) as (r & g & -> & Hg). cbn [mbind outcome_bind].
  do 2 eexists. split; [reflexivity|]. by apply inv_audio.
Qed.

Lemma open_inv n L s h f :
  ds_inv n L s h -> ds_inv n L (set_audio (snd (rb_audio_open (sdl_open f) (d_audio s))) s) h.
Proof.
  intros Hi. apply inv_audio; [done|]. apply open_ok; [apply (iv_audio _ _ _ _ Hi)|].
  destruct (sdl_open f) as [[[[fr c] b] k]|] eqn:E; [|done]. by apply (sdl_open_ok f fr c b k).
Qed.

Lemma lock_ok k o m g : audio_ok g -> exists r, rb_audio_buffer_lock k o m g = Ret r.
Proof.
  intros Hg. unfold rb_audio_buffer_lock. destruct (get_buf_ok k g Hg) as [[_ ->]|(b & _ & -> & _)]; cbn [mbind outcome_bind]; [by eauto|].
  case_match; eauto.
Qed.

Lemma apply_format_inv b f hr b' :
  dsound_apply_format b f = (hr, b') ->
  (hr <> DS_OK /\ b' = b) \/ (hr = DS_OK /\ b' = db_set_format f (nSamplesPerSec f) b).
Proof. unfold dsound_apply_format. intros H. repeat case_match; simplify_eq; auto. Qed.
Lemma failed_ok hr : failed hr = false <-> hr = DS_OK.
Proof. unfold failed. by destruct hr. Qed.

(** *** The methods of a buffer *)

Section methods.
Variable n : Z.
Variable L : Z -> list Z.
Variable s : dsound.
Variable h : held.
Variable p : Z.
Hypothesis Hi : ds_inv n L s h.
Hypothesis Hp : 0 < refs (h_buf h) p.

Lemma play_inv fl : exists hr s', dsound_buffer_Play p fl s = Ret (hr, s') /\ ds_inv n L s' h.
Proof.
  destruct (get_buffer_held n L s h p Hi Hp) as (b & Hb & E). unfold dsound_buffer_Play. rewrite E. cbn [mbind outcome_bind].
  apply on_backend_inv; [|intros k g Hg; by apply (audio_call (APlay k (negb (Z.land fl DSBPLAY_LOOPING =? 0))) g)].
  destruct (_ || _); [done|]. by apply (inv_buf_control n L s h p b); [..|apply (iv_buf _ _ _ _ Hi p b Hb)].
Qed.

Lemma stop_inv : exists hr s', dsound_buffer_Stop p s = Ret (hr, s') /\ ds_inv n L s' h.
Proof.
  destruct (get_buffer_held n L s h p Hi Hp) as (b & Hb & E). unfold dsound_buffer_Stop. rewrite E. cbn [mbind outcome_bind].
  apply on_backend_inv; [|intros k g Hg; by apply (audio_call (AStop k) g)].
  destruct (_ || _); [done|]. by apply (inv_buf_control n L s h p b); [..|apply (iv_buf _ _ _ _ Hi p b Hb)].
Qed.

Lemma position_inv x : 0 <= x < 2 ^ 32 ->
  exists hr s', dsound_buffer_SetCurrentPosition p x s = Ret (hr, s') /\ ds_inv n L s' h.
Proof.
  intros Hx. destruct (get_buffer_held n L s h p Hi Hp) as (b & Hb & E). unfold dsound_buffer_SetCurrentPosition. rewrite E.
  cbn [mbind outcome_bind]. apply on_backend_inv; [done|]. intros k g Hg. by apply (audio_call (APosition k x) g).
Qed.

Lemma controls_inv b v q f : d_buf s !! p = Some b -> ds_inv n L (set_buf p (db_set_controls v q f b) s) h.
Proof. intros Hb. by apply (inv_buf_control n L s h p b); [..|apply (iv_buf _ _ _ _ Hi p b Hb)]. Qed.

Lemma volume_inv v : exists hr s', dsound_buffer_SetVolume p v s = Ret (hr, s') /\ ds_inv n L s' h.
Proof.
  destruct (get_buffer_held n L s h p Hi Hp) as (b & Hb & E). unfold dsound_buffer_SetVolume. rewrite E. cbn [mbind outcome_bind].
  destruct (negb _); [by eauto|]. apply on_backend_inv; [by apply controls_inv|].
  intros k g Hg. by apply (audio_call (AVolume k v) g).
Qed.

Lemma pan_inv v : exists hr s', dsound_buffer_SetPan p v s = Ret (hr, s') /\ ds_inv n L s' h.
Proof.
  destruct (get_buffer_held n L s h p Hi Hp) as (b & Hb & E). unfold dsound_buffer_SetPan. rewrite E. cbn [mbind outcome_bind].
  destruct (negb _); [by eauto|]. apply on_backend_inv; [by apply controls_inv|].
  intros k g Hg. by apply (audio_call (APan k v) g).
Qed.

Lemma frequency_inv f : exists hr s', dsound_buffer_SetFrequency p f s = Ret (hr, s') /\ ds_inv n L s' h.
Proof.
  destruct (get_buffer_held n L s h p Hi Hp) as (b & Hb & E). unfold dsound_buffer_SetFrequency. rewrite E. cbn [mbind outcome_bind].
  set (x := dsound_resolve_frequency b f). clearbody x. destruct ((x <? 100) || (200000 <? x)) eqn:Ex; [by eauto|].
  apply on_backend_inv; [by apply controls_inv|].
  intros k g Hg. apply (audio_call (AFrequency k x) g); [done| |done]. cbn [op_ok]. lia.
Qed.

Lemma status_inv : exists hr x s', dsound_buffer_GetStatus false p s = Ret (hr, x, s') /\ ds_inv n L s' h.
Proof.
  destruct (get_buffer_held n L s h p Hi Hp) as (b & Hb & E). unfold dsound_buffer_GetStatus. rewrite E. cbn [mbind outcome_bind].
  destruct (db_is_primary b); [by eauto|]. destruct (_ =? 0); [by eauto|].
  destruct (audio_call (AIsPlaying false (db_rb_buffer b)) (d_audio s)
              (rb_audio_buffer_is_playing false (db_rb_buffer b) (d_audio s)) (iv_audio _ _ _ _ Hi)) as (r & g & -> & Hg); [done..|].
  cbn [mbind outcome_bind]. do 3 eexists. split; [reflexivity|]. by apply inv_audio.
Qed.

Lemma lock_inv c m fl : exists r, dsound_buffer_Lock p c m fl s = Ret r.
Proof.
  destruct (get_buffer_held n L s h p Hi Hp) as (b & Hb & E). unfold dsound_buffer_Lock. rewrite E. cbn [mbind outcome_bind].
  pose proof (fun o m => lock_ok (db_rb_buffer b) o m (d_audio s) (iv_audio _ _ _ _ Hi)) as Hl. cbv zeta.
  destruct (_ || _); [by eauto|]. destruct (_ =? 0); [by eauto|]. destruct (_ && _); [by eauto|].
  destruct (_ <=? _); repeat (match goal with |- context [rb_audio_buffer_lock _ ?o ?m _] => destruct (Hl o m) as [? ->] end);
    cbn [mbind outcome_bind]; repeat case_match; by eauto.
Qed.

Lemma unlock_inv x y : exists r, dsound_buffer_Unlock p x y s = Ret r.
Proof.
  destruct (get_buffer_held n L s h p Hi Hp) as (b & Hb & E). unfold dsound_buffer_Unlock. rewrite E. cbn [mbind outcome_bind].
  destruct (db_is_primary b); [by eauto|]. destruct (_ =? 0); [by eauto|].
  assert (Hu : exists r, rb_audio_buffer_unlock (db_rb_buffer b) (d_audio s) = Ret r).
  { unfold rb_audio_buffer_unlock. destruct (get_buf_ok (db_rb_buffer b) (d_audio s) (iv_audio _ _ _ _ Hi)) as [[_ ->]|(c & _ & -> & _)]; by eauto. }
  destruct Hu as [r ->]. destruct x, y; cbn [mbind outcome_bind negb]; try destruct r; cbn [mbind outcome_bind negb]; by eauto.
Qed.

Lemma buf_ref_inv : n + 1 < 2 ^ 32 ->
  exists b, get_buffer p s = Ret (Some b) /\
    ds_inv (n + 1) L (set_buf p (db_set_ref (u32 (db_ref_count b + 1)) b) s) (hold_buf p 1 h).
Proof.
  intros Hn. destruct (get_buffer_held n L s h p Hi Hp) as (b & Hb & E). exists b. split; [done|].
  destruct (iv_buf _ _ _ _ Hi p b Hb) as (_ & _ & Hc & _). rewrite wrap_small by lia. apply (buf_count n); done || lia.
Qed.
End methods.

Lemma format_inv n L s h p f :
  ds_inv n L s h -> 0 < refs (h_buf h) p -> wave_ok f ->
  exists hr s', dsound_buffer_SetFormat sdl_open p f s = Ret (hr, s') /\ ds_inv n L s' h.
Proof.
  intros Hi Hp Hf. destruct (get_buffer_held n L s h p Hi Hp) as (b & Hb & E). unfold dsound_buffer_SetFormat. rewrite E.
  cbn [mbind outcome_bind]. destruct (iv_buf _ _ _ _ Hi p b Hb) as (_ & _ & _ & [d Hd] & Hw).
  destruct (dsound_apply_format b f) as [hr b'] eqn:Ea.
  destruct (apply_format_inv b f hr b' Ea) as [[Hne ->]|[-> ->]].
  { destruct (failed hr) eqn:Ef; [by eauto|]. by apply failed_ok in Ef. }
  change (failed DS_OK) with false. cbn iota. cbn [db_is_primary db_rb_buffer db_owner db_set_format].
  assert (Hset : forall g w x, audio_ok g -> wave_ok w -> ds_inv n L (set_buf p (db_set_format w x b) (set_audio g s)) h).
  { intros g w x Hg Hwv. apply (inv_buf_control n L (set_audio g s) h p b); [by apply inv_audio|done..]. }
  assert (Hundo : ds_inv n L (set_buf p (db_set_format (db_format b) (nSamplesPerSec (db_format b)) b) s) h).
  { destruct s as [ms mb ma]. apply (Hset ma _ _ (iv_audio _ _ _ _ Hi) Hw). }
  destruct (db_is_primary b).
  - pose proof (open_inv n L s h f Hi) as Ho. destruct (rb_audio_open (sdl_open f) (d_audio s)) as [ok g] eqn:Eo. cbn [snd] in Ho.
    pose proof (iv_audio _ _ _ _ Ho) as Hg. cbn [d_audio set_audio] in Hg. destruct ok; cbn [negb].
    2: { do 2 eexists. split; [reflexivity|]. by apply Hset. }
    destruct (_ =? 0); cbn [negb].
    { do 2 eexists. split; [reflexivity|]. by apply Hset. }
    cbn [d_ds set_buf set_audio]. rewrite Hd. cbn [deref mbind outcome_bind]. do 2 eexists. split; [reflexivity|].
    apply (inv_ds_control n L _ h _ d); [by apply Hset|done..].
  - destruct (_ =? 0); [do 2 eexists; split; [reflexivity|]; done|].
    destruct (negb _); [do 2 eexists; split; [reflexivity|]; done|].
    destruct (audio_call (AFrequency (db_rb_buffer b) (nSamplesPerSec f)) (d_audio s)
      (rb_audio_buffer_set_frequency (db_rb_buffer b) (nSamplesPerSec f) (d_audio s)) (iv_audio _ _ _ _ Hi)) as (r & g & -> & Hg);
      [apply Hf|done|].
    cbn [mbind outcome_bind]. destruct r; cbn [negb]; do 2 eexists; (split; [reflexivity|]); by apply Hset.
Qed.

(** *** Creating objects *)

(** A pointer that malloc returns is not one the guest holds. *)
Lemma fresh_not_held n L s h p :
  ds_inv n L s h -> malloc s = Some p -> refs (h_ds h) p = 0 /\ refs (h_buf h) p = 0.
Proof.
  intros Hi Hm. destruct (malloc_fresh s p Hm) as (_ & H1 & H2).
  destruct (iv_held_ds _ _ _ _ Hi p) as [Hd Hds]. destruct (iv_held_buf _ _ _ _ Hi p) as [Hb Hbs]. split.
  - destruct (decide (0 < refs (h_ds h) p)) as [Hlt|]; [|lia]. rewrite H1 in Hds. by destruct (Hds Hlt).
  - destruct (decide (0 < refs (h_buf h) p)) as [Hlt|]; [|lia]. rewrite H2 in Hbs. by destruct (Hbs Hlt).
Qed.

Lemma create_inv n L s h :
  ds_inv n L s h -> 0 <= n ->
  let '(hr, p, s') := DirectSoundCreate malloc true true s in
  exists L', ds_inv (n + 1) L' s' (if failed hr then h else hold_ds p 1 h).
Proof.
  intros Hi Hn. unfold DirectSoundCreate. cbn [negb]. destruct (malloc s) as [p|] eqn:Em.
  2: { exists L. by apply (inv_weaken n L); [|lia]. }
  change (failed DS_OK) with false. cbn iota. destruct (malloc_fresh s p Em) as (Hp & H1 & _).
  destruct (fresh_not_held n L s h p Hi Em) as [Hr _]. exists (<[p := []]> L).
  apply (inv_weaken n L (n + 1)) in Hi as [A1 A2 A3 A4 A5 A6 A7]; [|lia]. split; simpl; [done| | | | |done|].
  - intros q y. destruct (decide (q = p)) as [->|].
    + rewrite lookup_insert_eq, fn_lookup_insert, refs_add, decide_True by done. intros [= <-]. simpl.
      split_and!; [done|lia|lia|lia|apply NoDup_nil_2|done..].
    + rewrite lookup_insert_ne, fn_lookup_insert_ne, refs_add, decide_False by done. apply A2.
  - intros q y x. destruct (decide (q = p)) as [->|]; [|rewrite lookup_insert_ne, fn_lookup_insert_ne by done; apply A3].
    rewrite lookup_insert_eq, fn_lookup_insert. intros [= <-]. simpl. split; [by intros ?%not_elem_of_nil|].
    intros (b & Hb & Ho). destruct (A4 x b Hb) as (_ & _ & _ & Hs & _). rewrite Ho, H1 in Hs. by destruct Hs.
  - intros q y Hy. destruct (A4 q y Hy) as (? & ? & ? & Hs & ?). split_and!; try done; try lia.
    destruct (decide (db_owner y = p)) as [->|]; [rewrite lookup_insert_eq; eauto|]. by rewrite lookup_insert_ne.
  - intros q. destruct (A5 q) as [Hq Hs]. rewrite refs_add. destruct (decide (q = p)) as [->|].
    + split; [lia|]. rewrite lookup_insert_eq. eauto.
    + by rewrite lookup_insert_ne.
  - intros q y. destruct (decide (q = p)) as [->|]; [|rewrite lookup_insert_ne, fn_lookup_insert_ne by done; apply A7].
    rewrite lookup_insert_eq, fn_lookup_insert. by intros [= <-].
Qed.

Lemma ensure_inv n L s h p :
  ds_inv n L s h -> 0 < refs (h_ds h) p ->
  exists hr s', dsound_ensure_backend rb_init sdl_open p s = Ret (hr, s') /\ ds_inv n L s' h.
Proof.
  intros Hi Hp. destruct (get_ds_held n L s h p Hi Hp) as (d & Hd & E). unfold dsound_ensure_backend. rewrite E.
  cbn [mbind outcome_bind]. destruct (ds_backend_ready d); [by eauto|]. destruct (negb rb_init); [by eauto|].
  pose proof (open_inv n L s h (ds_primary_format d) Hi) as Ho.
  destruct (rb_audio_open _ _) as [ok g]. cbn [snd] in Ho. destruct (negb ok); [by eauto|].
  do 2 eexists. split; [reflexivity|]. by apply (inv_ds_control n L _ h p d); [..|apply (iv_ds _ _ _ _ Hi p d Hd)].
Qed.

(** The new buffer is in its owner's list, and the owner has one more reference. *)
Lemma inv_attach n L s h o d p b g :
  ds_inv n L s h -> audio_ok g -> malloc s = Some p -> d_ds s !! o = Some d -> db_owner b = o -> db_ref_count b = 1 -> wave_ok (db_format b) ->
  db_owner_next b = ds_buffer_list d ->
  ds_inv (n + 1) (<[o := p :: L o]> L) (mkDsound (<[o := ds_set_list p (ds_set_ref (ds_ref_count d + 1) d)]> (d_ds s))
                    (<[p := b]> (d_buf s)) g) (hold_buf p 1 h).
Proof.
  intros Hi Hg Hm Hd Ho Hr Hw Hnx. destruct (malloc_fresh s p Hm) as (Hp & _ & Hf). destruct (fresh_not_held n L s h p Hi Hm) as [_ Hrf].
  apply (inv_weaken n L (n + 1)) in Hi as Hi'; [|lia]. destruct (iv_ds _ _ _ _ Hi o d Hd) as (Ho0 & Hc & Hcn & Hnd & Hwd).
  destruct Hi' as [A1 A2 A3 A4 A5 A6 A7].
  assert (Hnew : forall q y, d_ds s !! q = Some y -> p ∉ L q).
  { intros q y Hy Hin. apply (A3 q y p Hy) in Hin as (b' & Hb' & _). congruence. }
  assert (Hch : forall q y, d_ds s !! q = Some y -> chain (<[p := b]> (d_buf s)) (ds_buffer_list y) (L q)).
  { intros q y Hy. apply (chain_frame (d_buf s)); [|by apply A7]. intros x z Hx Hz.
    rewrite lookup_insert_ne; [eauto|]. intros <-. by apply (Hnew q y). }
  split; simpl; [done| | | | | |].
  - intros q y. destruct (decide (q = o)) as [->|]; [|rewrite lookup_insert_ne, fn_lookup_insert_ne by done; apply A2].
    rewrite lookup_insert_eq, fn_lookup_insert. intros [= <-]. simpl. split_and!; [done|lia|lia|lia|apply NoDup_cons; eauto|apply Hwd..].
  - intros q y x. destruct (decide (x = p)) as [->|].
    + rewrite lookup_insert_eq. destruct (decide (q = o)) as [->|].
      * rewrite lookup_insert_eq, fn_lookup_insert. intros [= <-]. simpl. split; [by eauto|by left].
      * rewrite lookup_insert_ne, fn_lookup_insert_ne by done. intros Hy. split; [intros Hin; by destruct (Hnew q y Hy)|].
        intros (b' & [= <-] & Hq). congruence.
    + rewrite (lookup_insert_ne (d_buf s)) by done.
      destruct (decide (q = o)) as [->|]; [|rewrite lookup_insert_ne, fn_lookup_insert_ne by done; apply A3].
      rewrite lookup_insert_eq, fn_lookup_insert. intros [= <-]. simpl. rewrite elem_of_cons, <- (A3 o d x Hd). split; [by intros [->|]|by right].
  - intros q y. assert (Hown : forall k, is_Some (d_ds s !! k) -> is_Some (<[o := ds_set_list p
      (ds_set_ref (ds_ref_count d + 1) d)]> (d_ds s) !! k)).
    { intros k Hk. destruct (decide (k = o)) as [->|]; [rewrite lookup_insert_eq; eauto|by rewrite lookup_insert_ne]. }
    destruct (decide (q = p)) as [->|].
    + rewrite lookup_insert_eq, refs_add, decide_True by done. intros [= <-]. rewrite Ho.
      split_and!; [done|lia|lia|lia|apply Hown; eauto|apply Hw..].
    + rewrite lookup_insert_ne, refs_add, decide_False by done. intros Hy. destruct (A4 q y Hy) as (? & ? & ? & Hs & ?).
      split_and!; try done; try lia. by apply Hown.
  - intros q. destruct (A5 q) as [Hq Hs]. split; [done|]. intros Hlt.
    destruct (decide (q = o)) as [->|]; [rewrite lookup_insert_eq; eauto|rewrite lookup_insert_ne by done; auto].
  - intros q. destruct (A6 q) as [Hq Hs]. rewrite refs_add. destruct (decide (q = p)) as [->|].
    + split; [lia|]. rewrite lookup_insert_eq. eauto.
    + by rewrite lookup_insert_ne.
  - intros q y. destruct (decide (q = o)) as [->|]; [|rewrite lookup_insert_ne, fn_lookup_insert_ne by done; apply Hch].
    rewrite lookup_insert_eq, fn_lookup_insert. intros [= <-]. simpl. split_and!; [done..|]. exists b. rewrite lookup_insert_eq, Hnx. auto.
Qed.

(** The goal is about a call that returned. *)
Ltac refused := do 3 eexists; split; [reflexivity|]; try done.

Lemma secondary_ok b desc g :
  audio_ok g -> match lpwfxFormat desc with Some f => wave_ok f | None => True end ->
  exists hr b' g', dsound_create_secondary_buffer host_alloc new_handle b desc g = Ret (hr, b', g') /\ audio_ok g' /\
    (hr = DS_OK -> db_owner b' = db_owner b /\ db_ref_count b' = db_ref_count b /\ wave_ok (db_format b')).
Proof.
  intros Hg Hf. unfold dsound_create_secondary_buffer. destruct (lpwfxFormat desc) as [f|]; [|by refused].
  destruct (_ =? 0); [by refused|]. destruct (dsound_apply_format b f) as [hr b'] eqn:Ea.
  destruct (apply_format_inv b f hr b' Ea) as [[Hne ->]|[-> ->]].
  { destruct (failed hr) eqn:Ef; [by refused|]. by apply failed_ok in Ef. }
  change (failed DS_OK) with false. cbn iota. cbv zeta.
  match goal with |- context [rb_audio_buffer_create (Some ?fmt) ?size ?al ?hn g] =>
    pose proof (create_ok new_handle new_handle_fresh fmt size al g Hg) as Hc;
    destruct (rb_audio_buffer_create (Some fmt) size al hn g) as [k g1] end.
  cbn [snd] in Hc. assert (Hg1 : audio_ok g1).
  { apply Hc. destruct Hf as (? & ? & ?). cbn. split_and!; try lia. unfold swrap.
    pose proof (Z.mod_pos_bound (dsd_dwBufferBytes desc + 2 ^ (32 - 1)) (2 ^ 32)). lia. }
  destruct (k =? 0); [by refused|]. unfold dsound_configure_secondary_buffer_controls.
  cbn [db_rb_buffer db_set_rb db_set_format db_volume db_pan db_frequency].
  destruct (audio_call (AVolume k (db_volume b)) g1 (rb_audio_buffer_set_volume k (db_volume b) g1) Hg1) as (r1 & g2 & -> & Hg2); [done..|].
  assert (Hd : forall hr g, audio_ok g -> hr <> DS_OK -> exists hr' b' g', ('(_, g) ← rb_audio_buffer_destroy k g;
    Ret (hr, db_set_rb 0 (db_set_rb k (db_set_format f (nSamplesPerSec f) b)), g)) = Ret (hr', b', g') /\ audio_ok g' /\
    (hr' = DS_OK -> db_owner b' = db_owner b /\ db_ref_count b' = db_ref_count b /\ wave_ok (db_format b'))).
  { intros hr0 g0 Hg0 Hne. destruct (destroy_ok k g0 Hg0) as (r & g' & -> & Hg'). cbn [mbind outcome_bind]. by refused. }
  cbn [mbind outcome_bind]. destruct r1; cbn [negb mbind outcome_bind]; [|by apply Hd].
  destruct (audio_call (APan k (db_pan b)) g2 (rb_audio_buffer_set_pan k (db_pan b) g2) Hg2) as (r2 & g3 & -> & Hg3); [done..|].
  cbn [mbind outcome_bind]. destruct r2; cbn [negb mbind outcome_bind]; [|by apply Hd].
  destruct (audio_call (AFrequency k (nSamplesPerSec f)) g3 (rb_audio_buffer_set_frequency k (nSamplesPerSec f) g3) Hg3)
    as (r3 & g4 & -> & Hg4); [apply Hf|done|].
  cbn [mbind outcome_bind]. destruct r3; cbn [negb mbind outcome_bind]; [|by apply Hd].
  change (failed DS_OK) with false. cbn iota. by refused.
Qed.

Lemma buffer_create_inv n L s h p desc :
  ds_inv n L s h -> 0 < refs (h_ds h) p -> n + 1 < 2 ^ 32 -> ds_op_ok (GCreateBuffer p desc) ->
  exists hr q s' L', dsound_buffer_create malloc rb_init sdl_open host_alloc new_handle p desc true s = Ret (hr, q, s') /\
    ds_inv (n + 1) L' s' (if failed hr then h else hold_buf q 1 h).
Proof.
  intros Hi Hp Hn Hop. destruct (get_ds_held n L s h p Hi Hp) as (d0 & _ & E). unfold dsound_buffer_create. rewrite E.
  cbn [mbind outcome_bind negb]. pose proof (inv_weaken n L (n + 1) s h Hi ltac:(lia)) as Hi1.
  destruct (_ <? _); [do 4 eexists; split; [reflexivity|]; done|].
  destruct (ensure_inv n L s h p Hi Hp) as (hr & s1 & -> & Hs1). cbn [mbind outcome_bind].
  pose proof (inv_weaken n L (n + 1) s1 h Hs1 ltac:(lia)) as Hs1'.
  destruct (failed hr) eqn:Ef; [do 4 eexists; split; [reflexivity|]; by rewrite Ef|].
  destruct (malloc s1) as [q|] eqn:Em; [|do 4 eexists; split; [reflexivity|]; done].
  destruct (get_ds_held n L s1 h p Hs1 Hp) as (d & Hd & _). rewrite Hd. cbn [deref mbind outcome_bind].
  destruct (iv_ds _ _ _ _ Hs1 p d Hd) as (Hp0 & _ & Hcn & _ & Hwd).
  assert (Hmake : exists hr b g, (if negb (Z.land (dsd_dwFlags desc) DSBCAPS_PRIMARYBUFFER =? 0)
      then let '(hr, b) := dsound_create_primary_buffer (dsound_init_buffer_defaults p desc) d desc in Ret (hr, b, d_audio s1)
      else dsound_create_secondary_buffer host_alloc new_handle (dsound_init_buffer_defaults p desc) desc (d_audio s1))
    = Ret (hr, b, g) /\ audio_ok g /\ (hr = DS_OK -> db_owner b = p /\ db_ref_count b = 1 /\ wave_ok (db_format b))).
  { pose proof (iv_audio _ _ _ _ Hs1) as Hg. destruct (negb _).
    - unfold dsound_create_primary_buffer. destruct (dsound_apply_format _ _) as [hr' b'] eqn:Ea.
      do 3 eexists. split; [reflexivity|]. split; [done|]. intros ->. apply apply_format_inv in Ea as [[? _]|[_ ->]]; [done|].
      split_and!; [done..|]. cbn [db_format db_set_format]. cbn [ds_op_ok] in Hop. by destruct (lpwfxFormat desc).
    - by apply secondary_ok. }
  destruct Hmake as (hr' & b & g & -> & Hg & Hb). cbn [mbind outcome_bind]. destruct (failed hr') eqn:Ef'.
  { do 4 eexists. split; [reflexivity|]. rewrite Ef'. by apply inv_audio. }
  apply failed_ok in Ef'. destruct (Hb Ef') as (Ho & Hr & Hw).
  unfold dsound_attach_buffer_to_owner, dsound_ds_addref, get_ds.
  replace (p =? 0) with false by lia. cbn [d_ds set_buf set_audio]. rewrite Hd. cbn [deref mbind outcome_bind].
  cbn [d_ds d_buf set_ds set_buf]. rewrite lookup_insert_eq. cbn [deref mbind outcome_bind]. rewrite lookup_insert_eq.
  cbn [deref mbind outcome_bind]. do 4 eexists. split; [reflexivity|].
  change (failed DS_OK) with false. cbn iota. rewrite wrap_small by lia.
  unfold set_ds, set_buf, set_audio. cbn [d_ds d_buf d_audio ds_buffer_list ds_set_ref]. rewrite !insert_insert_eq.
  by apply (inv_attach n L s1 h p d q (db_set_next (ds_buffer_list d) b) g).
Qed.

(** *** Any program *)

Lemma guest_step_inv n L o s h :
  ds_inv n L s h -> 0 <= n -> n + 1 < 2 ^ 32 -> ds_op_ok o -> allowed o h = true ->
  exists s' h' L', guest_step o s h = Ret (s', h') /\ ds_inv (n + 1) L' s' h'.
Proof.
  intros Hi H0 Hn Ho Ha.
  assert (Hsame : forall (m : outcome (hresult * dsound)), (exists hr s', m = Ret (hr, s') /\ ds_inv n L s' h) ->
    exists s' h' L', ('(_, s) ← m; Ret (s, h)) = Ret (s', h') /\ ds_inv (n + 1) L' s' h').
  { intros m (hr & s' & -> & Hs). do 3 eexists. split; [reflexivity|]. by apply (inv_weaken n L); [|lia]. }
  destruct o; cbn [allowed guest_step] in *; try (apply Z.ltb_lt in Ha).
  - pose proof (create_inv n L s h Hi H0) as Hc. destruct (DirectSoundCreate _ _ _ _) as [[hr p] s'].
    destruct Hc as [L' Hc]. by eauto.
  - destruct (addref_inv n L s h ds Hi Hn Ha) as (r & s' & -> & Hs). by eauto.
  - destruct (release_inv n L s h ds Hi Ha) as (r & s' & -> & Hs). cbn [mbind outcome_bind]. do 3 eexists.
    split; [reflexivity|]. by apply (inv_weaken n L); [|lia].
  - destruct (get_ds_held n L s h ds Hi Ha) as (d & _ & E). unfold dsound_QueryInterface. rewrite E. cbn [mbind outcome_bind].
    destruct (addref_inv n L s h ds Hi Hn Ha) as (r & s' & -> & Hs). by eauto.
  - apply Hsame. destruct (get_ds_held n L s h ds Hi Ha) as (d & Hd & E). unfold dsound_SetCooperativeLevel. rewrite E.
    cbn [mbind outcome_bind]. destruct (_ || _); [by eauto|]. do 2 eexists. split; [reflexivity|].
    by apply (inv_ds_control n L s h ds d); [..|apply (iv_ds _ _ _ _ Hi ds d Hd)].
  - destruct (buffer_create_inv n L s h ds desc Hi Ha Hn Ho) as (hr & q & s' & L' & -> & Hs). by eauto.
  - destruct (buf_ref_inv n L s h b Hi Ha Hn) as (x & E & Hs). unfold dsound_buffer_AddRef. rewrite E. by eauto.
  - destruct (buf_release_inv n L s h b Hi Ha) as (r & s' & L' & -> & Hs). cbn [mbind outcome_bind]. do 3 eexists.
    split; [reflexivity|]. by apply (inv_weaken n L'); [|lia].
  - destruct (buf_ref_inv n L s h b Hi Ha Hn) as (x & E & Hs). unfold dsound_buffer_QueryInterface. rewrite E. by eauto.
  - by apply Hsame, play_inv.
  - by apply Hsame, stop_inv.
  - by apply Hsame, position_inv.
  - by apply Hsame, volume_inv.
  - by apply Hsame, pan_inv.
  - by apply Hsame, frequency_inv.
  - by apply Hsame, format_inv.
  - destruct (status_inv n L s h b Hi Ha) as (hr & x & s' & -> & Hs). cbn [mbind outcome_bind]. do 3 eexists.
    split; [reflexivity|]. by apply (inv_weaken n L); [|lia].
  - destruct (lock_inv n L s h b Hi Ha cursor bytes flags) as (r & ->). cbn [mbind outcome_bind]. do 3 eexists.
    split; [reflexivity|]. by apply (inv_weaken n L); [|lia].
  - destruct (unlock_inv n L s h b Hi Ha ptr1 ptr2) as (r & ->). cbn [mbind outcome_bind]. do 3 eexists.
    split; [reflexivity|]. by apply (inv_weaken n L); [|lia].
Qed.

Definition empty_held : held := mkHeld ∅ ∅.
Definition empty_dsound (g : rb_audio_state) : dsound := mkDsound ∅ ∅ g.
Lemma empty_inv g : audio_ok g -> ds_inv 0 (fun _ => []) (empty_dsound g) empty_held.
Proof. intros Hg. split; simpl; try done; intros p; unfold refs; rewrite lookup_empty; simpl; split; done || lia. Qed.

Lemma guest_run_inv ops : forall n L s h,
  ds_inv n L s h -> 0 <= n -> n + Z.of_nat (length ops) < 2 ^ 32 -> Forall ds_op_ok ops ->
  exists s' h' m L', guest_run ops s h = Ret (s', h') /\ ds_inv m L' s' h'.
Proof.
  induction ops as [|o ops IH]; intros n L s h Hi H0 Hn Ho; cbn [guest_run]; [by exists s, h, n, L|]. inversion Ho; subst. simpl in Hn.
  destruct (allowed o h) eqn:Ha; [|by exists s, h, n, L].
  destruct (guest_step_inv n L o s h Hi H0 ltac:(lia) ltac:(done) Ha) as (s' & h' & L' & -> & Hs). cbn [mbind outcome_bind].
  apply (IH (n + 1) L' s' h' Hs); [lia|lia|done].
Qed.

(** C21: No program that calls methods only through references it holds makes DirectSound
    touch a freed object, whatever it creates, shares and releases; and nothing
    leaks or is freed too early: a buffer is alive exactly while the program holds a
    reference to it, a device exactly while the program holds a reference to it or to
    one of its buffers, and the links from a device run through exactly its live
    buffers, each once. *)
Theorem objects_live_as_long_as_referenced ops g :
  audio_ok g -> Forall ds_op_ok ops -> Z.of_nat (length ops) < 2 ^ 32 ->
  exists s h, guest_run ops (empty_dsound g) empty_held = Ret (s, h) /\
    (forall q, is_Some (d_buf s !! q) <-> 0 < refs (h_buf h) q) /\
    (forall p, is_Some (d_ds s !! p) <->
       0 < refs (h_ds h) p \/ exists q b, d_buf s !! q = Some b /\ db_owner b = p) /\
    (forall p d, d_ds s !! p = Some d -> exists l, chain (d_buf s) (ds_buffer_list d) l /\ NoDup l /\
       forall q, q ∈ l <-> exists b, d_buf s !! q = Some b /\ db_owner b = p).
Proof.
  intros Hg Hops Hlen. destruct (guest_run_inv ops 0 _ _ _ (empty_inv g Hg) ltac:(lia) ltac:(lia) Hops) as (s & h & m & L & E & Hi).
  exists s, h. split; [done|]. split_and!.
  - intros q. split; [|apply (iv_held_buf _ _ _ _ Hi)]. intros [b Hb]. destruct (iv_buf _ _ _ _ Hi q b Hb) as (_ & Hr & Hc & _). lia.
  - intros p. split.
    + intros [d Hd]. destruct (iv_ds _ _ _ _ Hi p d Hd) as (_ & Hr & Hc & _).
      destruct (L p) as [|q l] eqn:El; [left; simpl in Hr; lia|]. right.
      assert (Hq : q ∈ L p) by (rewrite El; by left).
      apply (iv_list _ _ _ _ Hi p d q Hd) in Hq as (b & Hb & Ho). eauto.
    + intros [Hp|(q & b & Hb & <-)]; [by apply (iv_held_ds _ _ _ _ Hi)|]. by apply (iv_buf _ _ _ _ Hi q b Hb).
  - intros p d Hd. exists (L p). split_and!; [by apply (iv_links _ _ _ _ Hi)|by apply (iv_ds _ _ _ _ Hi p d Hd)|].
    intros q. by apply (iv_list _ _ _ _ Hi p d q).
Qed.
End lifetime.

(** *** Concrete inputs *)

Definition next_pointer (s : dsound) : option Z :=
  Some (fresh ({[0]} ∪ dom (d_ds s) ∪ dom (d_buf s) : gset Z)).
Lemma next_pointer_fresh s p : next_pointer s = Some p -> p <> 0 /\ d_ds s !! p = None /\ d_buf s !! p = None.
Proof.
  intros [= <-]. pose proof (is_fresh ({[0]} ∪ dom (d_ds s) ∪ dom (d_buf s) : gset Z)) as Hf.
  split_and!; [set_solver|apply not_elem_of_dom; set_solver..].
Qed.
Definition demo_open (f : WAVEFORMATEX) : option (Z * Z * Z * Z) := Some (22050, 2, 16, 4096).
Definition demo_wave : WAVEFORMATEX := mkWave 1 1 11025 11025 1 8 0.
Definition demo_program : list ds_op :=
  [GCreate; GCreateBuffer 1 (mkDesc 24 0 4 (Some demo_wave)); GRelease 1; GPlay 2 1; GBufAddRef 2; GBufRelease 2; GFormat 2 demo_wave].

Lemma objects_live_as_long_as_referenced_witness :
  exists s h, guest_run (A := arch64) next_pointer true demo_open (fun _ => true) next_handle demo_program
    (empty_dsound demo_audio) empty_held = Ret (s, h).
Proof.
  destruct (objects_live_as_long_as_referenced (A := arch64) next_pointer true demo_open (fun _ => true) next_handle
    next_pointer_fresh next_handle_fresh (fun f fr c b k H => ltac:(injection H as <- <- <- <-; lia)) demo_program demo_audio)
    as (s & h & E & _); [exact demo_audio_ok| |vm_compute; reflexivity|exists s, h; exact E].
  repeat (apply Forall_cons; split; [cbn; unfold wave_ok; cbn; lia || exact I|]). apply Forall_nil, I.
Defined.

Lemma lock_regions_correct_witness :
  exists r1 r2, dsound_buffer_Lock 7 3 3 0
    (mkDsound ∅ {[7 := mkDsBuffer 1 0 0 1 demo_wave 0 0 4 0 0 11025 false]} demo_audio) = Ret (DS_OK, Some r1, r2).
Proof.
  destruct (lock_regions_correct 7 3 3
    (mkDsound ∅ {[7 := mkDsBuffer 1 0 0 1 demo_wave 0 0 4 0 0 11025 false]} demo_audio)
    (mkDsBuffer 1 0 0 1 demo_wave 0 0 4 0 0 11025 false) (demo_buf true)) as (r1 & r2 & E & _);
    [done|reflexivity|done|done|reflexivity|apply demo_buf_ok|done|simpl; lia|lia|exists r1, r2; exact E].
Defined.

(** A change of format that the device refuses forgets the frequency set before. *)
Example refused_format_loses_frequency :
  let b := mkDsBuffer 1 0 0 0 demo_wave 0 0 4 0 0 22050 true in
  exists s, dsound_buffer_SetFormat (fun _ => None) 7 demo_wave (mkDsound ∅ {[7 := b]} demo_audio) = Ret (DSERR_INVALIDCALL, s) /\
    d_buf s !! 7 = Some (db_set_controls 0 0 11025 b).
Proof. eexists. split; vm_compute; reflexivity. Qed.
