(* ===== verification/WndClass.v ===== *)
(** * Window classes (src/msvcrt/user32_class_registry.c)

    The growing array of registered window classes.  A cell of the array beyond the
    count is uninitialised memory ([None]); a read of one is a fault.  Whether an
    allocation succeeds is a parameter. *)
From S2P Require Import Prelude Bytes CStr MessageQueue BackendState.

Record WNDCLASSA := mkClass {
  wc_style : Z; lpfnWndProc : Z; cbClsExtra : Z; cbWndExtra : Z; wc_hInstance : Z; hIcon : Z; hCursor : Z;
  hbrBackground : Z; lpszMenuName : option cstr; lpszClassName : option cstr }.

Record class_registry := mkRegistry { g_class_registry : list (option WNDCLASSA); g_class_count : nat }.
Definition empty_registry : class_registry := mkRegistry [] 0.

(** user32_strcmp on two pointers to strings; equal pointers compare like equal
    strings. *)
Definition user32_strcmp (a b : option cstr) : Z :=
  match a, b with
  | None, None => 0
  | None, Some _ => -1
  | Some _, None => 1
  | Some a, Some b => syscall_safe_strcmp a b
  end.

Section registry.
Context {A : Arch}.
(** An allocation of this many bytes succeeds. *)
Variable user32_alloc : Z -> bool.

Definition sizeof_class : Z := if is_my_wine32 then 40 else 72.

Definition ensure_class_capacity (needed : nat) (r : class_registry) : option class_registry :=
  let cap := length (g_class_registry r) in
  if (needed <=? cap)%nat then Some r
  else
    let n := grown_capacity 16 needed cap in
    if user32_alloc (usize (Z.of_nat n * sizeof_class))
    then Some (mkRegistry (take (g_class_count r) (g_class_registry r) ++ replicate (n - g_class_count r) None) (g_class_count r))
    else None.

(** The loop from index [i], with [todo] entries left. *)
Fixpoint find_class_loop (todo i : nat) (name : option cstr) (r : class_registry) : outcome (option nat) :=
  match todo with
  | O => Ret None
  | S todo =>
      wc ← deref (mjoin (g_class_registry r !! i));
      if bool_decide (is_Some (lpszClassName wc)) && (user32_strcmp (lpszClassName wc) name =? 0) then Ret (Some i)
      else find_class_loop todo (S i) name r
  end.
Definition find_class_index (name : option cstr) (r : class_registry) : outcome (option nat) :=
  find_class_loop (g_class_count r) 0 name r.

(** The copy of the name has its own storage, so the entry keeps the name as it was. *)
Definition RegisterClassA (lpWndClass : option WNDCLASSA) (r : class_registry) : outcome (Z * class_registry) :=
  match lpWndClass with
  | None => Ret (0, r)
  | Some wc =>
      match lpszClassName wc with
      | None => Ret (0, r)
      | Some name =>
          idx ← find_class_index (Some name) r;
          match (idx : option nat) with
          | Some i => Ret (Z.of_nat i + 1, r)
          | None =>
              match ensure_class_capacity (g_class_count r + 1) r with
              | None => Ret (0, r)
              | Some r =>
                  if negb (user32_alloc (syscall_safe_strlen name + 1)) then Ret (0, r)
                  else
                    _ ← deref (g_class_registry r !! g_class_count r);
                    Ret (Z.of_nat (g_class_count r) + 1,
                         mkRegistry (<[g_class_count r := Some wc]> (g_class_registry r)) (g_class_count r + 1))
              end
          end
      end
  end.

(** The class and its atom. *)
Definition user32_find_registered_class (name : option cstr) (r : class_registry) : outcome (option (WNDCLASSA * Z)) :=
  idx ← find_class_index name r;
  match (idx : option nat) with
  | None => Ret None
  | Some i => wc ← deref (mjoin (g_class_registry r !! i)); Ret (Some (wc, Z.of_nat i + 1))
  end.
End registry.

(** ** Every cell below the count is initialised *)

Definition reg_ok (r : class_registry) : Prop :=
  forall i, (i < g_class_count r)%nat -> exists wc, g_class_registry r !! i = Some (Some wc).

Lemma find_class_loop_safe r n todo : forall i,
  reg_ok r -> (i + todo = g_class_count r)%nat ->
  exists x, find_class_loop todo i n r = Ret x /\ (forall k, x = Some k -> (k < g_class_count r)%nat).
Proof.
  induction todo as [|todo IH]; intros i R Hi; cbn [find_class_loop]; [by eexists|].
  destruct (R i ltac:(lia)) as [wc ->]. cbn [mjoin option_join deref mbind outcome_bind].
  destruct (_ && _); [|apply IH; [done|lia]]. eexists. split; [reflexivity|]. intros k [= <-]. lia.
Qed.

Lemma find_registered_class_safe r n : reg_ok r -> exists x, user32_find_registered_class n r = Ret x.
Proof.
  intros R. unfold user32_find_registered_class, find_class_index.
  destruct (find_class_loop_safe r n (g_class_count r) 0 R eq_refl) as (x & -> & Hx). cbn [mbind outcome_bind].
  destruct x as [i|]; [|by eauto]. destruct (R i (Hx i eq_refl)) as [wc ->]. by eexists.
Qed.

Lemma RegisterClassA_safe {A : Arch} al wc r : reg_ok r -> exists a r', RegisterClassA al wc r = Ret (a, r') /\ reg_ok r'.
Proof.
  intros R. unfold RegisterClassA, find_class_index. destruct wc as [wc|]; [|by eauto]. destruct (lpszClassName wc) as [n|]; [|by eauto].
  destruct (find_class_loop_safe r (Some n) (g_class_count r) 0 R eq_refl) as (x & -> & _). cbn [mbind outcome_bind].
  destruct x as [i|]; [by eauto|]. destruct (ensure_class_capacity al _ r) as [r1|] eqn:Ec; [|by eauto].
  assert (H1 : reg_ok r1 /\ (g_class_count r1 < length (g_class_registry r1))%nat).
  { unfold ensure_class_capacity in Ec. destruct (Nat.leb_spec (g_class_count r + 1) (length (g_class_registry r))).
    { injection Ec as <-. split; [done|lia]. }
    pose proof (grown_capacity_enough 16 (g_class_count r + 1) (length (g_class_registry r)) ltac:(lia)) as Hg.
    set (n0 := grown_capacity _ _ _) in *. clearbody n0. destruct (al _); [|done]. injection Ec as <-. simpl.
    assert (Hc : (g_class_count r <= length (g_class_registry r))%nat).
    { destruct (decide (g_class_count r = 0)%nat); [lia|]. destruct (R (g_class_count r - 1)%nat ltac:(lia)) as [x Hx].
      apply lookup_lt_Some in Hx. lia. }
    rewrite length_app, length_take, length_replicate. split; [|lia]. intros i Hi. simpl in *.
    rewrite lookup_app_l by (rewrite length_take; lia). rewrite lookup_take_lt by done. by apply R. }
  destruct H1 as [R1 Hl]. destruct (negb _); [by eauto|].
  destruct (lookup_lt_is_Some_2 (g_class_registry r1) (g_class_count r1) Hl) as [x ->]. cbn [deref mbind outcome_bind].
  do 2 eexists. split; [reflexivity|]. intros i Hi. simpl in *. destruct (decide (i = g_class_count r1)) as [->|].
  - rewrite list_lookup_insert_eq by done. eauto.
  - rewrite list_lookup_insert_ne by done. apply R1. lia.
Qed.

(** ** The registry as a list of classes *)

Definition class_wf (wc : WNDCLASSA) : Prop := exists n, lpszClassName wc = Some n /\ wf_cstr n.

Record registry_rep (r : class_registry) (l : list WNDCLASSA) : Prop := {
  rr_count : g_class_count r = length l;
  rr_cells : forall i, (i < length l)%nat -> g_class_registry r !! i = Some <$> l !! i;
  rr_wf : Forall class_wf l;
  rr_nodup : NoDup (map lpszClassName l) }.

Lemma empty_registry_rep : registry_rep empty_registry [].
Proof. split; [done|simpl; intros; lia|apply Forall_nil_2|apply NoDup_nil_2]. Qed.

Lemma strcmp_name a b : wf_cstr a -> wf_cstr b -> user32_strcmp (Some a) (Some b) = 0 <-> a = b.
Proof.
  intros Ha Hb. simpl. split; [by apply strcmp_eq|]. intros ->. apply strcmp_refl.
Qed.

Lemma find_class_loop_spec r l n todo : forall i,
  registry_rep r l -> wf_cstr n -> (i + todo = length l)%nat ->
  find_class_loop todo i (Some n) r
    = Ret ((fun x => (x.1 + i)%nat) <$> list_find (fun wc => lpszClassName wc = Some n) (drop i l)).
Proof.
  induction todo as [|todo IH]; intros i R Hn Hi; cbn [find_class_loop].
  - rewrite drop_ge by lia. done.
  - destruct (lookup_lt_is_Some_2 l i) as [wc Hwc]; [lia|].
    rewrite (rr_cells _ _ R), Hwc by lia. cbn [fmap option_fmap option_map mjoin option_join deref mbind outcome_bind].
    rewrite (drop_S _ _ _ Hwc). cbn [list_find].
    destruct (Forall_lookup_1 _ _ _ _ (rr_wf _ _ R) Hwc) as (m & Em & Hm). rewrite Em. cbn [andb].
    rewrite bool_decide_true by eauto. cbn [andb]. destruct (decide (Some m = Some n)) as [E|E].
    + injection E as ->. rewrite (proj2 (Z.eqb_eq _ _)) by (by apply strcmp_name). simpl. done.
    + rewrite (proj2 (Z.eqb_neq _ _)) by (rewrite strcmp_name by done; congruence).
      rewrite (IH (S i) R Hn) by lia. f_equal.
      destruct (list_find _ (drop (S i) l)) as [[k wc']|]; simpl; [|done]. f_equal. lia.
Qed.

Lemma find_class_index_spec r l n :
  registry_rep r l -> wf_cstr n ->
  find_class_index (Some n) r = Ret (fst <$> list_find (fun wc => lpszClassName wc = Some n) l).
Proof.
  intros R Hn. unfold find_class_index. rewrite (rr_count _ _ R), (find_class_loop_spec r l n _ 0 R Hn) by done.
  rewrite drop_0. f_equal. destruct (list_find _ l) as [[k wc]|]; simpl; [|done]. f_equal. lia.
Qed.

Section theorems.
Context {A : Arch}.
Variable user32_alloc : Z -> bool.

Lemma ensure_class_capacity_spec r l r' :
  registry_rep r l -> ensure_class_capacity user32_alloc (g_class_count r + 1) r = Some r' ->
  registry_rep r' l /\ (length l < length (g_class_registry r'))%nat.
Proof.
  intros R. unfold ensure_class_capacity. rewrite (rr_count _ _ R).
  destruct (Nat.leb_spec (length l + 1) (length (g_class_registry r))).
  { intros [= <-]. split; [done|lia]. }
  pose proof (grown_capacity_enough 16 (length l + 1) (length (g_class_registry r)) ltac:(lia)) as Hg.
  set (n := grown_capacity _ _ _) in *. clearbody n. destruct (user32_alloc _); [|done]. intros [= <-].
  assert (Hlen : (length l <= length (g_class_registry r))%nat).
  { destruct (decide (length l = 0)%nat); [lia|]. pose proof (rr_cells _ _ R (length l - 1) ltac:(lia)) as Hc.
    destruct (lookup_lt_is_Some_2 l (length l - 1)) as [x Hx]; [lia|]. rewrite Hx in Hc. apply lookup_lt_Some in Hc. lia. }
  simpl. split.
  - destruct R as [R1 R2 R3 R4]. split; simpl; [done| |done|done]. intros i Hi.
    rewrite lookup_app_l by (rewrite length_take; lia). rewrite lookup_take_lt by done. by apply R2.
  - rewrite length_app, length_take, length_replicate. lia.
Qed.

(** Registering a class never touches memory outside of the array.  A name that is
    taken gives its old atom and changes nothing; a new name is appended, unless
    memory runs out, which changes nothing either. *)
Lemma RegisterClassA_spec wc n r l :
  registry_rep r l -> lpszClassName wc = Some n -> wf_cstr n ->
  exists atom r' l', RegisterClassA user32_alloc (Some wc) r = Ret (atom, r') /\ registry_rep r' l' /\
    match list_find (fun c => lpszClassName c = Some n) l with
    | Some (i, _) => atom = Z.of_nat i + 1 /\ l' = l
    | None => (atom = Z.of_nat (length l) + 1 /\ l' = l ++ [wc]) \/ (atom = 0 /\ l' = l /\ exists k, user32_alloc k = false)
    end.
Proof.
  intros R En Hn. unfold RegisterClassA. rewrite En, (find_class_index_spec r l n R Hn). cbn [mbind outcome_bind].
  destruct (list_find _ l) as [[i c]|] eqn:Ef; cbn [fmap option_fmap option_map fst]; [by eauto 10|].
  destruct (ensure_class_capacity _ _ _) as [r1|] eqn:Ec.
  2: { do 3 eexists. split; [reflexivity|]. split; [exact R|]. right. split_and!; [done|done|].
    unfold ensure_class_capacity in Ec. case_match; [done|]. case_match eqn:E; [done|]. eauto. }
  destruct (ensure_class_capacity_spec r l r1 R Ec) as [R1 Hl].
  destruct (user32_alloc (syscall_safe_strlen n + 1)) eqn:Ea; cbn [negb].
  2: { do 3 eexists. split; [reflexivity|]. split; [exact R1|]. right. eauto. }
  rewrite (rr_count _ _ R1). destruct (lookup_lt_is_Some_2 (g_class_registry r1) (length l)) as [x Hx]; [lia|].
  rewrite Hx. cbn [deref mbind outcome_bind]. exists (Z.of_nat (length l) + 1). eexists. exists (l ++ [wc]).
  split; [reflexivity|]. split; [|by left]. destruct R1 as [H1 H2 H3 H4]. split; simpl.
  - rewrite length_app. simpl. lia.
  - intros i Hi. rewrite length_app in Hi. simpl in Hi. destruct (decide (i = length l)) as [->|].
    + rewrite list_lookup_insert_eq by lia. by rewrite lookup_app_r, Nat.sub_diag by lia.
    + rewrite list_lookup_insert_ne by done. rewrite lookup_app_l by lia. apply H2. lia.
  - apply Forall_app. split; [done|]. apply Forall_singleton. by exists n.
  - rewrite map_app. apply NoDup_app. split; [done|]. split; [|apply NoDup_singleton]. intros x' Hin Hx'.
    apply list_elem_of_singleton in Hx' as ->. apply list_elem_of_fmap in Hin as (c & Hc & Hin).
    apply list_find_None in Ef. apply (proj1 (Forall_forall _ _) Ef c Hin). congruence.
Qed.

Lemma find_registered_class_spec n r l :
  registry_rep r l -> wf_cstr n ->
  user32_find_registered_class (Some n) r
    = Ret ((fun x => (x.2, Z.of_nat x.1 + 1)) <$> list_find (fun c => lpszClassName c = Some n) l).
Proof.
  intros R Hn. unfold user32_find_registered_class. rewrite (find_class_index_spec r l n R Hn). cbn [mbind outcome_bind].
  destruct (list_find _ l) as [[i c]|] eqn:Ef; [|done]. cbn [fmap option_fmap option_map fst].
  apply list_find_Some in Ef as (Hi & _). rewrite (rr_cells _ _ R) by (by eapply lookup_lt_Some). by rewrite Hi.
Qed.

Fixpoint register_all (cs : list WNDCLASSA) (r : class_registry) : outcome class_registry :=
  match cs with
  | [] => Ret r
  | c :: cs => '(_, r) ← RegisterClassA user32_alloc (Some c) r; register_all cs r
  end.

Lemma register_all_prefix cs : forall r l,
  registry_rep r l -> Forall class_wf cs ->
  exists r' l', register_all cs r = Ret r' /\ registry_rep r' (l ++ l') /\ (forall x, x ∈ l' -> x ∈ cs).
Proof.
  induction cs as [|c cs IH]; intros r l R Hc; cbn [register_all].
  { exists r, []. rewrite app_nil_r. split_and!; [done|done|by intros x ?%not_elem_of_nil]. }
  apply Forall_cons in Hc as [(n & En & Hn) Hc].
  destruct (RegisterClassA_spec c n r l R En Hn) as (a & r1 & l1 & -> & R1 & Hl). cbn [mbind outcome_bind].
  assert (Hp : exists k, l1 = l ++ k /\ forall x, x ∈ k -> x = c).
  { destruct (list_find _ l) as [[i x]|].
    - exists []. rewrite app_nil_r. destruct Hl as [_ ->]. split; [done|]. by intros x' ?%not_elem_of_nil.
    - destruct Hl as [[_ ->]|(_ & -> & _)].
      + exists [c]. split; [done|]. by intros x ?%list_elem_of_singleton.
      + exists []. rewrite app_nil_r. split; [done|]. by intros x ?%not_elem_of_nil. }
  destruct Hp as (k & -> & Hk). destruct (IH r1 (l ++ k) R1 Hc) as (r' & l' & -> & R' & Hl'). exists r', (k ++ l').
  rewrite (assoc_L (++)). split_and!; [done|done|]. intros x [Hx|Hx]%elem_of_app; [rewrite (Hk x Hx); by left|right; by apply Hl'].
Qed.

(** A registered class stays registered: whatever other classes are registered
    before and after it, the class and its atom are found under its name. *)
Theorem registered_class_is_found before wc n after :
  Forall class_wf before -> Forall class_wf after -> lpszClassName wc = Some n -> wf_cstr n ->
  Forall (fun c => lpszClassName c <> Some n) before ->
  exists r1 atom r2 r3, register_all before empty_registry = Ret r1 /\
    RegisterClassA user32_alloc (Some wc) r1 = Ret (atom, r2) /\ register_all after r2 = Ret r3 /\
    (atom <> 0 -> user32_find_registered_class (Some n) r3 = Ret (Some (wc, atom))) /\
    ((forall k, user32_alloc k = true) -> atom <> 0).
Proof.
  intros Hb Ha En Hn Hne.
  destruct (register_all_prefix before _ _ empty_registry_rep Hb) as (r1 & l1 & E1 & R1 & H1). simpl in R1.
  destruct (RegisterClassA_spec wc n r1 l1 R1 En Hn) as (atom & r2 & l2 & E2 & R2 & H2).
  destruct (register_all_prefix after r2 l2 R2 Ha) as (r3 & l3 & E3 & R3 & _).
  assert (Hf : list_find (fun c => lpszClassName c = Some n) l1 = None).
  { apply list_find_None, Forall_forall. intros c Hc. apply (proj1 (Forall_forall _ _) Hne). by apply H1. }
  rewrite Hf in H2. exists r1, atom, r2, r3. split_and!; [done..| |].
  - intros Hat. destruct H2 as [[-> ->]|(-> & _)]; [|done]. rewrite (find_registered_class_spec n r3 _ R3 Hn).
    rewrite <- (assoc_L (++)). rewrite list_find_app_r by done. cbn [app list_find]. rewrite decide_True by done. simpl. do 3 f_equal; lia.
  - intros Hall. destruct H2 as [[-> _]|(_ & _ & k & Hk)]; [lia|]. by rewrite Hall in Hk.
Qed.
End theorems.

Definition demo_class (n : string) : WNDCLASSA := mkClass 0 0x401000 0 0 0 0 0 0 None (Some (lit n)).
Lemma registered_class_is_found_witness :
  exists r, register_all (A := arch64) (fun _ => true) [demo_class "A"; demo_class "Doom95"; demo_class "A"] empty_registry = Ret r /\
    user32_find_registered_class (Some (lit "Doom95")) r = Ret (Some (demo_class "Doom95", 2)).
Proof.
  assert (Hwf : forall n, wf_cstrb (lit n) = true -> class_wf (demo_class n)).
  { intros n Hn. exists (lit n). split; [done|]. by apply wf_cstrb_spec. }
  destruct (registered_class_is_found (A := arch64) (fun _ => true) [demo_class "A"] (demo_class "Doom95") (lit "Doom95") [demo_class "A"])
    as (r1 & atom & r2 & r3 & E1 & E2 & E3 & Hf & Ha).
  - apply Forall_singleton. by apply Hwf.
  - apply Forall_singleton. by apply Hwf.
  - done.
  - by apply wf_cstrb_spec.
  - apply Forall_singleton. done.
  - exists r3. vm_compute in E1. injection E1 as <-. vm_compute in E2. injection E2 as <- <-.
    split; [|apply Hf; lia]. vm_compute in E3. injection E3 as <-. vm_compute. reflexivity.
Defined.
