(* ===== verification/Resource.v ===== *)
(** * Resources (src/msvcrt/resource_win32.c, kernel32_resource.c, LoadStringA of
      user32_dialog_resources.c)

    The lookup of a resource in the three-level directory of a mapped image, the
    handles of found resources, and string tables.  Offsets are relative to the start
    of the image; a read outside of it is a fault. *)
From S2P Require Import Prelude Bytes CStr PeStructs TestImages PePriv ModuleList HandleTable.

(** HandleTable has a type of that name. *)
Abbreviation load := Bytes.load.

Record wine_resource_handle := mkRes { module_base : Z; rh_data : Z; rh_size : Z }.

(** What a char pointer of the caller is: an integer below 2^16 (0 is NULL), a string,
    or an address that is neither. *)
Inductive query := Q_id (n : Z) | Q_str (s : cstr) | Q_wild (addr : Z).

(** The loader's globals that the lookup uses, the bytes mapped from a base address
    on, the handle table, and the structures that malloc has returned. *)
Record rsrc := mkRsrc {
  rs_image_base : Z; rs_reg : registry; rs_image : Z -> bytes; rs_handles : table; rs_objects : gmap nat wine_resource_handle }.
Definition with_rsrc (t : table) (o : gmap nat wine_resource_handle) (s : rsrc) : rsrc :=
  mkRsrc (rs_image_base s) (rs_reg s) (rs_image s) t o.

Definition IMAGE_DIRECTORY_ENTRY_RESOURCE : nat := 2.
Definition HIGH : Z := 0x80000000.

Fixpoint wine_resource_ascii_eq_utf16 (ascii : cstr) (img : bytes) (wide : Z) (len : nat) {struct len} : outcome bool :=
  match len with
  | O => Ret (bool_decide (ascii = []))
  | S len =>
      match ascii with
      | [] => Ret false
      | ch :: ascii =>
          w ← load 2 wide img;
          if (0x7f <? w) || negb (ch =? w) then Ret false
          else wine_resource_ascii_eq_utf16 ascii img (wide + 2) len
      end
  end.

(** The decimal number after '#'. *)
Fixpoint parse_number (value : Z) (p : cstr) : Z :=
  match p with
  | c :: p => if (48 <=? c) && (c <=? 57) then parse_number (u32 (u32 (value * 10) + (c - 48))) p else value
  | [] => value
  end.

Definition wine_resource_builtin_type (type : cstr) : Z :=
  match type with
  | 35 :: p => parse_number 0 p
  | _ =>
      if bool_decide (type = lit "DIALOG") then 5
      else if bool_decide (type = lit "STRING") then 6
      else if bool_decide (type = lit "GROUP_ICON") then 14
      else if bool_decide (type = lit "VERSION") then 16
      else 0
  end.

(** [entry]: the offset of the entry; [root], [root_size]: the directory. *)
Definition wine_resource_name_matches (q : query) (img : bytes) (root root_size entry : Z) : outcome bool :=
  match q with
  | Q_id n =>
      if n =? 0 then Ret false
      else Name ← load 4 entry img; Ret ((Z.land Name HIGH =? 0) && (Z.land Name 0xffff =? n))
  | _ =>
      Name ← load 4 entry img;
      if Z.land Name HIGH =? 0 then Ret false
      else
        let name_rva := Z.land Name 0x7fffffff in
        if root_size <? name_rva + 2 then Ret false
        else
          name_len ← load 2 (root + name_rva) img;
          if root_size <? name_rva + 2 + name_len * 2 then Ret false
          else match q with
               | Q_str s => wine_resource_ascii_eq_utf16 s img (root + name_rva + 2) (Z.to_nat name_len)
               | _ => Fault
               end
  end.

(** The entries from [i] on. *)
Fixpoint find_entry_loop (q : query) (img : bytes) (root root_size dir : Z) (todo : nat) (i : Z) : outcome (option Z) :=
  match todo with
  | O => Ret None
  | S todo =>
      let entry := dir + 16 + 8 * i in
      m ← wine_resource_name_matches q img root root_size entry;
      if (m : bool) then Ret (Some entry) else find_entry_loop q img root root_size dir todo (i + 1)
  end.

Definition wine_resource_find_entry (dir : Z) (q : query) (img : bytes) (root root_size : Z) : outcome (option Z) :=
  named ← load 2 (dir + 12) img;
  ids ← load 2 (dir + 14) img;
  find_entry_loop q img root root_size dir (Z.to_nat (u16 (named + ids))) 0.

Section resource.
Context {A : Arch}.
(** malloc: the new structure, or none. *)
Variable malloc : gmap nat wine_resource_handle -> option nat.

Definition first_module (s : rsrc) : option IMAGE_NT_HEADERS :=
  if 0 <? module_count (rs_reg s) then modules (rs_reg s) !! 0%nat ≫= m_nt else None.

(** Base, headers, offset and size of the resource directory. *)
Definition wine_resource_get_root (hModule : Z) (s : rsrc) : outcome (option (Z * IMAGE_NT_HEADERS * Z * Z)) :=
  '(base, nt) ←
    (if hModule =? 0 then Ret (rs_image_base s, first_module s)
     else
       found ← find_module_by_addr hModule (rs_reg s);
       match found with
       | Some i => m ← deref (modules (rs_reg s) !! i); Ret (hModule, m_nt m)
       | None => Ret (hModule, if hModule =? rs_image_base s then first_module s else None)
       end);
  match nt with
  | None => Ret None
  | Some nt =>
      if base =? 0 then Ret None
      else
        dir ← deref (match nt with
                     | PE_TYPE_32 h => oh32_DataDirectory (nt32_OptionalHeader h) !! IMAGE_DIRECTORY_ENTRY_RESOURCE
                     | PE_TYPE_64 h => oh64_DataDirectory (nt64_OptionalHeader h) !! IMAGE_DIRECTORY_ENTRY_RESOURCE end);
        if (dd_VirtualAddress dir =? 0) || (dd_Size dir <? 16) then Ret None
        else
          Ret (match pe_rva_to_ptr base nt (dd_VirtualAddress dir) (dd_Size dir) with
               | Some root => Some (base, nt, root, dd_Size dir) | None => None end)
  end.

(** The type as the directory spells it. *)
Definition type_query (type : query) : query :=
  match type with
  | Q_str t =>
      let id := wine_resource_builtin_type t in
      if id =? 0 then type else if id <? 2 ^ 16 then Q_id id else Q_wild id
  | _ => type
  end.

(** The data entry of a resource: its RVA and its size. *)
Definition find_data (img : bytes) (root root_size : Z) (type name : query) : outcome (option (Z * Z)) :=
  type_entry ← wine_resource_find_entry root type img root root_size;
  match type_entry with
  | None => Ret None
  | Some te =>
      o ← load 4 (te + 4) img;
      if Z.land o HIGH =? 0 then Ret None
      else
        name_entry ← wine_resource_find_entry (root + Z.land o 0x7fffffff) name img root root_size;
        match name_entry with
        | None => Ret None
        | Some ne =>
            o ← load 4 (ne + 4) img;
            if Z.land o HIGH =? 0 then Ret None
            else
              let lang_dir := Z.land o 0x7fffffff in
              if root_size <? lang_dir + 16 + 8 then Ret None
              else
                named ← load 2 (root + lang_dir + 12) img;
                ids ← load 2 (root + lang_dir + 14) img;
                if named + ids =? 0 then Ret None
                else
                  o ← load 4 (root + lang_dir + 20) img;
                  if negb (Z.land o HIGH =? 0) then Ret None
                  else if root_size <? o + 16 then Ret None
                  else
                    rva ← load 4 (root + o) img;
                    size ← load 4 (root + o + 4) img;
                    Ret (Some (rva, size))
        end
  end.

(** The handle (0 when nothing is found) and the size. *)
Definition wine_resource_find (hModule : Z) (type name : query) (s : rsrc) : outcome (Z * Z * rsrc) :=
  r ← wine_resource_get_root hModule s;
  match r with
  | None => Ret (0, 0, s)
  | Some (base, nt, root, root_size) =>
      d ← find_data (rs_image s base) root root_size (type_query type) name;
      match d with
      | None => Ret (0, 0, s)
      | Some (rva, size) =>
          match malloc (rs_objects s) with
          | None => Ret (0, 0, s)
          | Some p =>
              match pe_rva_to_ptr base nt rva size with
              | None => Ret (0, 0, s)
              | Some data =>
                  '(t, h) ← wine_handle_alloc HANDLE_TYPE_HRSRC (OResource p) (rs_handles s);
                  Ret (h, size, with_rsrc t (<[p := mkRes base data size]> (rs_objects s)) s)
              end
          end
      end
  end.

(** The structure behind a resource handle. *)
Definition resource_of (h : Z) (s : rsrc) : outcome (option wine_resource_handle) :=
  let h := u32 h in
  type ← wine_handle_get_type h (rs_handles s);
  if negb (type =? HANDLE_TYPE_HRSRC) && negb (type =? HANDLE_TYPE_HGLOBAL) then Ret None
  else
    o ← wine_handle_get h (rs_handles s);
    match o with
    | OResource p => r ← deref (rs_objects s !! p); Ret (Some r)
    | ONull => Ret None
    | _ => Fault
    end.

(** Base and offset of the data. *)
Definition wine_resource_lock (h : Z) (s : rsrc) : outcome (option (Z * Z)) :=
  r ← resource_of h s;
  Ret (match r with Some r => Some (module_base r, rh_data r) | None => None end).

Definition wine_resource_size (h : Z) (s : rsrc) : outcome Z :=
  r ← resource_of h s; Ret (match r with Some r => rh_size r | None => 0 end).

Definition FindResourceA (hModule : Z) (lpName lpType : query) (s : rsrc) : outcome (Z * rsrc) :=
  '(h, _, s) ← wine_resource_find hModule lpType lpName s; Ret (h, s).
Definition SizeofResource (h : Z) (s : rsrc) : outcome Z := wine_resource_size h s.
Definition LockResource (h : Z) (s : rsrc) : outcome (option (Z * Z)) := wine_resource_lock h s.

Definition LoadResource (hResInfo : Z) (s : rsrc) : outcome (Z * rsrc) :=
  let h := u32 hResInfo in
  type ← wine_handle_get_type h (rs_handles s);
  if negb (type =? HANDLE_TYPE_HRSRC) then Ret (0, s)
  else
    o ← wine_handle_get h (rs_handles s);
    if bool_decide (o = ONull) then Ret (0, s)
    else t ← wine_handle_add_ref h (rs_handles s); Ret (h, with_rsrc t (rs_objects s) s).

(** *** String tables *)

(** Skip [n] strings of the block of [size] bytes at [data]. *)
Fixpoint skip_strings (n : nat) (img : bytes) (data size table : Z) : outcome (option Z) :=
  match n with
  | O => Ret (Some table)
  | S n =>
      if data + size <? table + 2 then Ret None
      else
        len ← load 2 table img;
        if data + size <? table + 2 + 2 * len then Ret None
        else skip_strings n img data size (table + 2 + 2 * len)
  end.

Fixpoint copy_string (n : nat) (img : bytes) (table : Z) : outcome cstr :=
  match n with
  | O => Ret []
  | S n =>
      ch ← load 2 table img;
      rest ← copy_string n img (table + 2);
      Ret ((if ch <=? 0x7f then ch else 63) :: rest)
  end.

(** The length and the characters stored before the terminator; [None] when nothing
    is stored.  The buffer holds at least cchBufferMax bytes. *)
Definition LoadStringA (hInstance uID : Z) (lpBuffer : bool) (cchBufferMax : Z) (s : rsrc)
  : outcome (Z * option cstr * rsrc) :=
  let block_id := uID / 16 + 1 in
  let entry_id := uID mod 16 in
  if negb lpBuffer || (cchBufferMax <=? 0) then Ret (0, None, s)
  else
    let q := if block_id <? 2 ^ 16 then Q_id block_id else Q_wild block_id in
    '(res, size, s) ← wine_resource_find hInstance (Q_id 6) q s;
    if res =? 0 then Ret (0, None, s)
    else
      table ← wine_resource_lock res s;
      match table with
      | None => Ret (0, None, s)
      | Some (base, data) =>
          if size <? 2 then Ret (0, None, s)
          else
            let img := rs_image s base in
            t ← skip_strings (Z.to_nat entry_id) img data size data;
            match t with
            | None => Ret (0, None, s)
            | Some table =>
                len ← load 2 table img;
                let len := if u16 cchBufferMax <=? len then u16 (cchBufferMax - 1) else len in
                str ← copy_string (Z.to_nat len) img (table + 2);
                Ret (len, Some str, s)
            end
      end.
End resource.

(** ** Resource directories

    A directory as a tree of names, and its layout in the image. *)
Inductive rname := N_id (n : Z) | N_str (s : cstr).
Record rleaf := mkLeaf { leaf_rva : Z; leaf_size : Z }.
(** Types, names, and the languages of a resource. *)
Abbreviation rtree := (list (rname * list (rname * list rleaf))).

Definition same_name (q : query) (nm : rname) : bool :=
  match q, nm with
  | Q_id n, N_id m => negb (n =? 0) && (n =? m)
  | Q_str s, N_str t => bool_decide (s = t)
  | _, _ => false
  end.

(** The first entry with a name. *)
Fixpoint first_entry {X} (q : query) (l : list (rname * X)) : option X :=
  match l with [] => None | (nm, x) :: l => if same_name q nm then Some x else first_entry q l end.

(** The first language of the first match is taken. *)
Definition tree_lookup (type name : query) (t : rtree) : option rleaf :=
  names ← first_entry type t; leaves ← first_entry name names; leaves !! 0%nat.

Section layout.
Variables (img : bytes) (root size : Z).

Definition name_at (w : Z) (nm : rname) : Prop :=
  match nm with
  | N_id n => w = n /\ 0 < n < 2 ^ 16
  | N_str s =>
      exists o, w = HIGH + o /\ 0 <= o < 2 ^ 31 /\ o + 2 + 2 * blen s <= size /\ blen s < 2 ^ 16 /\
        load 2 (root + o) img = Ret (blen s) /\ Forall (fun c => 1 <= c <= 127) s /\
        forall i c, s !! i = Some c -> load 2 (root + o + 2 + 2 * Z.of_nat i) img = Ret c
  end.

(** A directory at [off], each entry with its name and with [P] of its offset word. *)
Definition dir_at {X} (P : Z -> X -> Prop) (off : Z) (l : list (rname * X)) : Prop :=
  exists named ids, load 2 (root + off + 12) img = Ret named /\ load 2 (root + off + 14) img = Ret ids /\
    0 <= named /\ 0 <= ids /\ named + ids = Z.of_nat (length l) /\ Z.of_nat (length l) < 2 ^ 16 /\
    forall i nm x, l !! i = Some (nm, x) ->
      exists w o, load 4 (root + off + 16 + 8 * Z.of_nat i) img = Ret w /\
        load 4 (root + off + 16 + 8 * Z.of_nat i + 4) img = Ret o /\ name_at w nm /\ P o x.

(** A subdirectory has the high bit of its offset set. *)
Definition subdir_at {X} (P : Z -> X -> Prop) (o : Z) (l : list (rname * X)) : Prop :=
  exists off, o = HIGH + off /\ 0 <= off < 2 ^ 31 /\ dir_at P off l.

(** The language directory, of which the first entry is used. *)
Definition leaves_at (o : Z) (leaves : list rleaf) : Prop :=
  exists off named ids, o = HIGH + off /\ 0 <= off /\ off < 2 ^ 31 /\ off + 24 <= size /\
    load 2 (root + off + 12) img = Ret named /\ load 2 (root + off + 14) img = Ret ids /\
    0 <= named /\ 0 <= ids /\ named + ids = Z.of_nat (length leaves) /\
    forall leaf, leaves !! 0%nat = Some leaf ->
      exists d, load 4 (root + off + 20) img = Ret d /\ 0 <= d < 2 ^ 31 /\ d + 16 <= size /\
        load 4 (root + d) img = Ret (leaf_rva leaf) /\ load 4 (root + d + 4) img = Ret (leaf_size leaf).

Definition tree_at (t : rtree) : Prop := dir_at (subdir_at leaves_at) 0 t.

Lemma ascii_eq_spec q s off :
  Forall (fun c => 1 <= c <= 127) s ->
  (forall i c, s !! i = Some c -> load 2 (off + 2 * Z.of_nat i) img = Ret c) ->
  wine_resource_ascii_eq_utf16 q img off (length s) = Ret (bool_decide (q = s)).
Proof.
  intros Hs. revert q off. induction Hs as [|c s Hc Hs IH]; intros q off Hl; simpl; [f_equal; by apply bool_decide_ext|].
  destruct q as [|x q]; [done|]. pose proof (Hl 0%nat c eq_refl) as L. rewrite Z.mul_0_r, Z.add_0_r in L. rewrite L. simpl.
  rewrite (proj2 (Z.ltb_ge 0x7f c)) by lia. simpl. destruct (Z.eqb_spec x c) as [->|Hne]; simpl.
  - rewrite IH.
    + f_equal. apply bool_decide_ext. naive_solver.
    + intros i d Hi. rewrite <- (Hl (S i) d Hi). f_equal. lia.
  - rewrite bool_decide_false by congruence. done.
Qed.

Lemma high_word o : 0 <= o < 2 ^ 31 -> Z.land (HIGH + o) HIGH <> 0 /\ Z.land (HIGH + o) 0x7fffffff = o.
Proof.
  intros Ho. unfold HIGH. change 0x80000000 with (2 ^ 31). change 0x7fffffff with (Z.ones 31).
  rewrite Z.land_ones by lia. split; [|Z.to_euclidean_division_equations; lia].
  intros E. apply (f_equal (fun z => Z.testbit z 31)) in E. rewrite Z.land_spec, Z.bits_0, Z.pow2_bits_true, andb_true_r in E by lia.
  apply Z.testbit_false in E; [|lia]. Z.to_euclidean_division_equations. lia.
Qed.

Lemma low_word n : 0 <= n < 2 ^ 31 -> Z.land n HIGH = 0.
Proof.
  intros Hn. change HIGH with (2 ^ 31). apply Z.bits_inj'. intros k Hk. rewrite Z.land_spec, Z.bits_0, Z.pow2_bits_eqb by lia.
  destruct (Z.eqb_spec 31 k) as [<-|]; [|apply andb_false_r]. rewrite andb_true_r.
  apply Z.testbit_false; [lia|]. rewrite Z.div_small by lia. done.
Qed.

(** A pointer that the caller may pass. *)
Definition query_ok (q : query) : Prop := match q with Q_id n => 0 <= n < 2 ^ 16 | Q_str _ => True | Q_wild _ => False end.

Lemma entry_matches_spec q entry w nm :
  query_ok q -> load 4 entry img = Ret w -> name_at w nm ->
  wine_resource_name_matches q img root size entry = Ret (same_name q nm).
Proof.
  intros Hq Hl Hn. unfold wine_resource_name_matches. destruct nm as [m|t].
  - destruct Hn as [-> Hm]. destruct q as [n|s|]; [|by rewrite Hl; cbn [mbind outcome_bind]; rewrite low_word by lia|done].
    simpl in Hq. destruct (Z.eqb_spec n 0) as [->|Hz]; [done|]. rewrite Hl. cbn [mbind outcome_bind].
    rewrite low_word by lia. change 0xffff with (Z.ones 16). rewrite Z.land_ones, Z.mod_small by lia. f_equal. simpl. rewrite (proj2 (Z.eqb_neq n 0) Hz). by rewrite Z.eqb_sym.
  - destruct Hn as (o & -> & Ho & Hsz & Hlen & Hll & Hc & Hchars). destruct (high_word o Ho) as [Hh Hr].
    destruct q as [n|s|]; [|rewrite Hl|done]; cbn [mbind outcome_bind].
    + destruct (n =? 0); [done|]. rewrite Hl. cbn [mbind outcome_bind]. by rewrite (proj2 (Z.eqb_neq _ 0) Hh).
    + rewrite (proj2 (Z.eqb_neq _ 0) Hh), Hr. pose proof (Zle_0_nat (length t)). unfold blen in *.
      rewrite (proj2 (Z.ltb_ge size _)) by lia. rewrite Hll. cbn [mbind outcome_bind].
      rewrite (proj2 (Z.ltb_ge size _)) by lia. rewrite Nat2Z.id. by rewrite ascii_eq_spec.
Qed.

(** The search returns the first entry that matches. *)
Lemma find_entry_loop_spec {X} q (P : Z -> X -> Prop) dir l : query_ok q -> forall i todo,
  todo = length l ->
  (forall k nm x, l !! k = Some (nm, x) -> exists w o, load 4 (dir + 16 + 8 * (i + Z.of_nat k)) img = Ret w /\
     load 4 (dir + 16 + 8 * (i + Z.of_nat k) + 4) img = Ret o /\ name_at w nm /\ P o x) ->
  match first_entry q l with
  | None => find_entry_loop q img root size dir todo i = Ret None
  | Some x => exists e o, find_entry_loop q img root size dir todo i = Ret (Some e) /\ load 4 (e + 4) img = Ret o /\ P o x
  end.
Proof.
  intros Hq. induction l as [|[nm x] l IH]; intros i todo -> Hl; [done|].
  destruct (Hl 0%nat nm x eq_refl) as (w & o & L1 & L2 & Hn & Hp). rewrite Z.add_0_r in L1, L2.
  cbn [first_entry length find_entry_loop]. rewrite (entry_matches_spec q _ w nm Hq L1 Hn). cbn [mbind outcome_bind].
  destruct (same_name q nm); [eauto|]. apply IH; [done|].
  intros k nm' x' Hk. destruct (Hl (S k) nm' x' Hk) as (w' & o' & ? & ? & ? & ?). exists w', o'.
  replace (i + 1 + Z.of_nat k) with (i + Z.of_nat (S k)) by lia. done.
Qed.

Lemma find_entry_spec {X} q (P : Z -> X -> Prop) off l :
  query_ok q -> dir_at P off l ->
  match first_entry q l with
  | None => wine_resource_find_entry (root + off) q img root size = Ret None
  | Some x => exists e o, wine_resource_find_entry (root + off) q img root size = Ret (Some e) /\ load 4 (e + 4) img = Ret o /\ P o x
  end.
Proof.
  intros Hq (named & ids & L1 & L2 & H1 & H2 & Hlen & Hmax & Hl). unfold wine_resource_find_entry. rewrite L1, L2.
  cbn [mbind outcome_bind]. rewrite Hlen, wrap_small, Nat2Z.id by lia.
  apply find_entry_loop_spec; [done | done |]. intros k nm x Hk. apply (Hl k nm x Hk).
Qed.

(** The lookup in the image is the lookup in the tree. *)
Lemma find_data_spec type name t :
  query_ok type -> query_ok name -> tree_at t ->
  find_data img root size type name
  = Ret (match tree_lookup type name t with Some leaf => Some (leaf_rva leaf, leaf_size leaf) | None => None end).
Proof.
  intros Ht Hn Hd. unfold find_data, tree_lookup. pose proof (find_entry_spec type _ 0 t Ht Hd) as H1. rewrite Z.add_0_r in H1.
  destruct (first_entry type t) as [names|]; [|by rewrite H1]. destruct H1 as (e & o & E & Lo & off & -> & Ho & Hd1).
  rewrite E. cbn [mbind outcome_bind option_bind]. rewrite Lo. cbn [mbind outcome_bind].
  destruct (high_word off Ho) as [Hh Hr]. rewrite (proj2 (Z.eqb_neq _ 0) Hh), Hr.
  pose proof (find_entry_spec name _ off names Hn Hd1) as H2.
  destruct (first_entry name names) as [leaves|]; [|by rewrite H2]. destruct H2 as (e2 & o2 & E2 & Lo2 & off2 & named & ids & -> & Hlo & Hhi & Hs & L1 & L2 & Hnm & Hid & Hlen & Hleaf).
  rewrite E2. cbn [mbind outcome_bind option_bind]. rewrite Lo2. cbn [mbind outcome_bind].
  destruct (high_word off2 ltac:(lia)) as [Hh2 Hr2]. rewrite (proj2 (Z.eqb_neq _ 0) Hh2), Hr2.
  rewrite (proj2 (Z.ltb_ge size _)) by lia. rewrite L1, L2. cbn [mbind outcome_bind].
  destruct leaves as [|leaf leaves].
  - simpl in Hlen. rewrite (proj2 (Z.eqb_eq _ 0)) by lia. done.
  - rewrite (proj2 (Z.eqb_neq _ 0)) by (simpl in Hlen; lia). destruct (Hleaf leaf eq_refl) as (d & Ld & Hdr & Hds & La & Lb).
    rewrite Ld. cbn [mbind outcome_bind]. rewrite low_word by done. simpl negb. cbv iota.
    rewrite (proj2 (Z.ltb_ge size _)) by lia. rewrite La, Lb. done.
Qed.
End layout.

(** ** Handles of resources *)

Section found.
Context {A : Arch}.
Variable malloc : gmap nat wine_resource_handle -> option nat.
Hypothesis malloc_fresh : forall m p, malloc m = Some p -> m !! p = None.

Lemma resource_of_new s p r k st :
  represents (rs_handles s) st -> st !! k = Some (mkEntry HANDLE_TYPE_HRSRC (OResource p) 1) -> (k < 512)%nat ->
  rs_objects s !! p = Some r -> resource_of (Z.of_nat k) s = Ret (Some r).
Proof.
  intros R E Hk Hp. destruct (get_entry _ _ _ _ _ _ R E Hk) as [E1 E2]. unfold resource_of.
  rewrite (wrap_small 32 (Z.of_nat k)) by lia. rewrite E1, E2. simpl. by rewrite Hp.
Qed.

(** A search that succeeds: the new handle, its structure and the rest of the state. *)
Lemma find_ok hModule type name s base nt root size t st k p leaf :
  wine_resource_get_root hModule s = Ret (Some (base, nt, root, size)) ->
  tree_at (rs_image s base) root size t -> query_ok (type_query type) -> query_ok name ->
  represents (rs_handles s) st -> (3 <= k < 512)%nat -> st !! k = None -> malloc (rs_objects s) = Some p ->
  tree_lookup (type_query type) name t = Some leaf -> is_Some (pe_rva_to_ptr base nt (leaf_rva leaf) (leaf_size leaf)) ->
  exists h t', (3 <= h < 512)%nat /\ st !! h = None /\
    represents t' (<[h := mkEntry HANDLE_TYPE_HRSRC (OResource p) 1]> st) /\
    let s' := with_rsrc t' (<[p := mkRes base (leaf_rva leaf) (leaf_size leaf)]> (rs_objects s)) s in
    wine_resource_find malloc hModule type name s = Ret (Z.of_nat h, leaf_size leaf, s')
    /\ resource_of (Z.of_nat h) s' = Ret (Some (mkRes base (leaf_rva leaf) (leaf_size leaf))).
Proof.
  intros Hr Ht Hq1 Hq2 R Hk Hn Hm El [data Ep]. unfold wine_resource_find. rewrite Hr. cbn [mbind outcome_bind].
  rewrite (find_data_spec _ _ _ _ _ t Hq1 Hq2 Ht), El. cbn [mbind outcome_bind]. rewrite Hm, Ep.
  assert (Ed : data = leaf_rva leaf) by (unfold pe_rva_to_ptr in Ep; repeat case_hyp Ep; congruence). subst data.
  destruct (alloc_succeeds HANDLE_TYPE_HRSRC (OResource p) _ st k R Hk Hn) as (h & t' & Hh & Hn' & Ea & R').
  rewrite Ea. cbn [mbind outcome_bind]. exists h, t'. split_and!; [lia | lia | done | done | done |].
  eapply resource_of_new; [exact R' | apply lookup_insert_eq | lia | apply lookup_insert_eq].
Qed.

(** C19: FindResourceA finds what the resource directory of the image names: with the
    directory laid out as a tree, the search for a type and a name succeeds exactly
    when the tree has them, and the handle leads to the data and the size of the
    first language of the first match.  A search that fails changes nothing, one that
    succeeds keeps every other resource and takes one slot of the handle table. *)
Theorem resource_found hModule type name s base nt root size t st k p :
  wine_resource_get_root hModule s = Ret (Some (base, nt, root, size)) ->
  tree_at (rs_image s base) root size t -> query_ok (type_query type) -> query_ok name ->
  represents (rs_handles s) st -> (3 <= k < 512)%nat -> st !! k = None -> malloc (rs_objects s) = Some p ->
  match tree_lookup (type_query type) name t with
  | None => FindResourceA malloc hModule name type s = Ret (0, s)
  | Some leaf =>
      match pe_rva_to_ptr base nt (leaf_rva leaf) (leaf_size leaf) with
      | None => FindResourceA malloc hModule name type s = Ret (0, s)
      | Some _ =>
          exists h s', FindResourceA malloc hModule name type s = Ret (Z.of_nat h, s') /\ (3 <= h)%nat /\
            LockResource (Z.of_nat h) s' = Ret (Some (base, leaf_rva leaf)) /\
            SizeofResource (Z.of_nat h) s' = Ret (leaf_size leaf) /\
            (forall q r, rs_objects s !! q = Some r -> rs_objects s' !! q = Some r) /\
            st !! h = None /\ represents (rs_handles s') (<[h := mkEntry HANDLE_TYPE_HRSRC (OResource p) 1]> st)
      end
  end.
Proof.
  intros Hr Ht Hq1 Hq2 R Hk Hn Hm. unfold FindResourceA. destruct (tree_lookup (type_query type) name t) as [leaf|] eqn:El.
  - destruct (pe_rva_to_ptr base nt (leaf_rva leaf) (leaf_size leaf)) as [data|] eqn:Ep.
    + destruct (find_ok hModule type name s base nt root size t st k p leaf) as (h & t' & Hh & Hn' & R' & E & Hro); try done.
      rewrite E. cbn [mbind outcome_bind]. eexists h, _. split_and!; [done | lia | | | | done | done].
      * unfold LockResource, wine_resource_lock. by rewrite Hro.
      * unfold SizeofResource, wine_resource_size. by rewrite Hro.
      * intros q r Hqr. simpl. rewrite lookup_insert_ne; [done|]. intros ->. rewrite (malloc_fresh _ _ Hm) in Hqr. done.
    + unfold wine_resource_find. rewrite Hr. cbn [mbind outcome_bind].
      rewrite (find_data_spec _ _ _ _ _ t Hq1 Hq2 Ht), El. cbn [mbind outcome_bind]. by rewrite Hm, Ep.
  - unfold wine_resource_find. rewrite Hr. cbn [mbind outcome_bind].
    by rewrite (find_data_spec _ _ _ _ _ t Hq1 Hq2 Ht), El.
Qed.

(** *** String tables *)

(** The strings of a block, one after the other, each with its length in front. *)
Fixpoint strings_at (img : bytes) (off : Z) (l : list (list Z)) : Prop :=
  match l with
  | [] => True
  | x :: l =>
      load 2 off img = Ret (blen x) /\ (forall i c, x !! i = Some c -> load 2 (off + 2 + 2 * Z.of_nat i) img = Ret c)
      /\ strings_at img (off + 2 + 2 * blen x) l
  end.
Definition strings_size (l : list (list Z)) : Z := foldr (fun x n => 2 + 2 * blen x + n) 0 l.

Lemma strings_size_nonneg l : 0 <= strings_size l.
Proof.
  induction l as [|x l IH]; [done|]. change (strings_size (x :: l)) with (2 + 2 * blen x + strings_size l).
  pose proof (Zle_0_nat (length x)). unfold blen. lia.
Qed.

Lemma skip_strings_spec img data size n : forall l off,
  strings_at img off l -> (n < length l)%nat -> off + strings_size l <= data + size ->
  exists off' x l', skip_strings n img data size off = Ret (Some off') /\ l !! n = Some x /\ strings_at img off' (x :: l').
Proof.
  induction n as [|n IH]; intros l off Hl Hn Hs; (destruct l as [|x l]; [simpl in Hn; lia|]).
  - by exists off, x, l.
  - destruct Hl as (L & Hc & Hl). simpl in Hs. pose proof (strings_size_nonneg l). pose proof (Zle_0_nat (length x)).
    change (foldr _ 0 l) with (strings_size l) in Hs. unfold blen in *. cbn [skip_strings].
    rewrite (proj2 (Z.ltb_ge (data + size) (off + 2))) by lia. rewrite L. cbn [mbind outcome_bind].
    rewrite (proj2 (Z.ltb_ge (data + size) _)) by lia. apply IH; [done | simpl in Hn; lia | lia].
Qed.

(** What an ANSI caller sees of a UTF-16 string. *)
Definition ansi (x : list Z) : cstr := (fun ch => if ch <=? 0x7f then ch else 63) <$> x.

Lemma copy_string_spec img x : forall n off,
  (forall i c, x !! i = Some c -> load 2 (off + 2 * Z.of_nat i) img = Ret c) -> (n <= length x)%nat ->
  copy_string n img off = Ret (take n (ansi x)).
Proof.
  intros n. revert x. induction n as [|n IH]; intros x off Hl Hn; [done|]. destruct x as [|c x]; [simpl in Hn; lia|].
  cbn [copy_string]. pose proof (Hl 0%nat c eq_refl) as L. rewrite Z.mul_0_r, Z.add_0_r in L. rewrite L. cbn [mbind outcome_bind].
  rewrite (IH x); [done | | simpl in Hn; lia]. intros i d Hi. rewrite <- (Hl (S i) d Hi). f_equal. lia.
Qed.

(** LoadStringA returns the string with a given number: the 16 strings of a block are
    found under the block's number, and the string is cut to the caller's buffer. *)
Theorem LoadStringA_correct hInstance uID cch s base nt root size t st k p leaf l x :
  wine_resource_get_root hInstance s = Ret (Some (base, nt, root, size)) -> tree_at (rs_image s base) root size t ->
  represents (rs_handles s) st -> (3 <= k < 512)%nat -> st !! k = None -> malloc (rs_objects s) = Some p ->
  0 <= uID -> uID / 16 + 1 < 2 ^ 16 -> 0 < cch < 2 ^ 16 ->
  tree_lookup (Q_id 6) (Q_id (uID / 16 + 1)) t = Some leaf -> is_Some (pe_rva_to_ptr base nt (leaf_rva leaf) (leaf_size leaf)) ->
  strings_at (rs_image s base) (leaf_rva leaf) l -> strings_size l <= leaf_size leaf -> l !! Z.to_nat (uID mod 16) = Some x ->
  exists s', LoadStringA malloc hInstance uID true cch s
    = Ret (Z.min (blen x) (cch - 1), Some (take (Z.to_nat (cch - 1)) (ansi x)), s').
Proof.
  intros Hr Ht R Hk Hn Hm Hu Hb Hc El Ep Hl Hsz Hx. pose proof (Zle_0_nat (length x)) as Hx0.
  assert (0 <= uID / 16) by (apply Z.div_pos; lia).
  destruct (find_ok hInstance (Q_id 6) (Q_id (uID / 16 + 1)) s base nt root size t st k p leaf) as (h & t' & Hh & Hn' & R' & E & Hro);
    try done; [simpl; lia|].
  unfold LoadStringA. cbn [negb orb]. rewrite (proj2 (Z.leb_gt cch 0)), (proj2 (Z.ltb_lt _ (2 ^ 16))) by lia.
  rewrite E. cbn [mbind outcome_bind]. rewrite (proj2 (Z.eqb_neq (Z.of_nat h) 0)) by lia.
  unfold wine_resource_lock. rewrite Hro. cbn [mbind outcome_bind rh_data module_base rs_image with_rsrc].
  assert (Hne : 2 <= leaf_size leaf).
  { destruct l as [|y l]; [done|]. simpl in Hsz. change (foldr _ 0 l) with (strings_size l) in Hsz.
    pose proof (strings_size_nonneg l). pose proof (Zle_0_nat (length y)). unfold blen in Hsz. lia. }
  rewrite (proj2 (Z.ltb_ge (leaf_size leaf) 2)) by lia.
  destruct (skip_strings_spec (rs_image s base) (leaf_rva leaf) (leaf_size leaf) (Z.to_nat (uID mod 16)) l (leaf_rva leaf) Hl)
    as (off & y & l' & Es & Ey & Ly & Lc & _); [by eapply lookup_lt_Some | lia |].
  rewrite Hx in Ey. injection Ey as <-. rewrite Es. cbn [mbind outcome_bind]. rewrite Ly. cbn [mbind outcome_bind].
  rewrite !wrap_small by lia.
  replace (if cch <=? blen x then cch - 1 else blen x) with (Z.min (blen x) (cch - 1)) by (case_goal; lia).
  rewrite (copy_string_spec _ x).
  - eexists. simpl. do 3 f_equal. unfold blen. destruct (decide (Z.of_nat (length x) <= cch - 1)).
    + rewrite Z.min_l, Nat2Z.id by lia. rewrite !take_ge by (unfold ansi; rewrite length_fmap; lia). done.
    + by rewrite Z.min_r by lia.
  - intros i c Hi. rewrite <- (Lc i c Hi). done.
  - unfold blen. lia.
Qed.
End found.

(** ** A string table

    An image of 140 bytes: a resource directory at 16 with one block of strings, of
    which the first is "Hi" and the other fifteen are empty. *)
Definition le16 (v : Z) : bytes := [v mod 256; v / 256].
Definition le32 (v : Z) : bytes := le16 (v mod 65536) ++ le16 (v / 65536).
Definition demo_dir (id off : Z) : bytes := replicate 12 0 ++ le16 0 ++ le16 1 ++ le32 id ++ le32 off.
Definition demo_image : bytes :=
  replicate 16 0 ++ demo_dir 6 (HIGH + 24) ++ demo_dir 1 (HIGH + 48) ++ demo_dir 1033 72 ++
  le32 104 ++ le32 36 ++ le32 0 ++ le32 0 ++ le16 2 ++ le16 72 ++ le16 105 ++ replicate 30 0.
Definition demo_nt : IMAGE_NT_HEADERS := sample_nt32 0x10000 140 16 0 0x102 (set_dir 2 16 124 no_dirs).
Definition demo_rsrc : rsrc :=
  mkRsrc 0x10000 (mkRegistry [mkModule 0x10000 (lit "a.exe") (Some demo_nt) zero_cache zero_ldr 1 false false] 1 ∅)
    (fun b => if b =? 0x10000 then demo_image else []) wine_handle_manager_runtime_init ∅.
Definition demo_tree : rtree := [(N_id 6, [(N_id 1, [mkLeaf 104 36])])].
Definition demo_strings : list (list Z) := [72; 105] :: replicate 15 [].

(** malloc gives the smallest structure that is not in use. *)
Definition demo_malloc (m : gmap nat wine_resource_handle) : option nat := Some (fresh (dom m)).
Lemma demo_malloc_fresh m p : demo_malloc m = Some p -> m !! p = None.
Proof. intros [= <-]. apply not_elem_of_dom, is_fresh. Qed.

Lemma demo_root {A : Arch} : wine_resource_get_root 0 demo_rsrc = Ret (Some (0x10000, demo_nt, 16, 124)).
Proof. vm_compute. reflexivity. Qed.

(** Reads of the image, and bounds on literals. *)
Local Ltac calc :=
  lazymatch goal with
  | |- _ = _ => vm_compute; reflexivity
  | |- _ <= _ => vm_compute; discriminate
  | |- _ < _ => vm_compute; reflexivity
  | |- _ /\ _ => split; calc
  | |- name_at _ _ _ _ _ => split; calc
  | |- _ => idtac
  end.

Lemma demo_tree_at : tree_at (rs_image demo_rsrc 0x10000) 16 124 demo_tree.
Proof.
  exists 0, 1. split_and!; calc.
  intros [|[|i]] nm x [= <- <-]. exists 6, (HIGH + 24). split_and!; calc.
  exists 24. split_and!; calc.
  exists 0, 1. split_and!; calc.
  intros [|[|i]] nm x [= <- <-]. exists 1, (HIGH + 48). split_and!; calc.
  exists 48, 0, 1. split_and!; calc.
  intros leaf [= <-]. exists 72. split_and!; calc.
Qed.

Lemma demo_strings_at : strings_at (rs_image demo_rsrc 0x10000) 104 demo_strings.
Proof.
  unfold demo_strings. split_and!; [calc | intros [|[|i]] c [= <-]; calc |].
  repeat (split_and!; [calc | by intros i c ? |]). done.
Qed.

Lemma demo_slot_free : store_init !! 3%nat = None.
Proof. vm_compute. reflexivity. Qed.

(** The first string of the table, for a buffer of sixteen characters. *)
Lemma LoadStringA_correct_witness : exists s',
  LoadStringA (A := arch32) demo_malloc 0 0 true 16 demo_rsrc = Ret (2, Some (lit "Hi"), s').
Proof.
  apply (LoadStringA_correct (A := arch32) demo_malloc 0 0 16 demo_rsrc 0x10000 demo_nt 16 124 demo_tree store_init 3 0
    (mkLeaf 104 36) demo_strings [72; 105] demo_root demo_tree_at handle_init_represents ltac:(lia) demo_slot_free
    eq_refl); [lia | calc | lia | done | by eexists | apply demo_strings_at | calc | done].
Defined.

(** The block of strings itself. *)
Lemma resource_found_witness : exists h s',
  FindResourceA (A := arch32) demo_malloc 0 (Q_id 1) (Q_str (lit "STRING")) demo_rsrc = Ret (Z.of_nat h, s') /\ (3 <= h)%nat /\
  LockResource (Z.of_nat h) s' = Ret (Some (0x10000, 104)) /\ SizeofResource (Z.of_nat h) s' = Ret 36.
Proof.
  destruct (resource_found (A := arch32) demo_malloc demo_malloc_fresh 0 (Q_str (lit "STRING")) (Q_id 1) demo_rsrc 0x10000 demo_nt
    16 124 demo_tree store_init 3 0 demo_root demo_tree_at ltac:(simpl; lia) ltac:(simpl; lia) handle_init_represents
    ltac:(lia) demo_slot_free eq_refl) as (h & s' & E1 & E2 & E3 & E4 & _).
  exists h, s'. split_and!; [exact E1 | exact E2 | exact E3 | exact E4].
Defined.

(** ** What the lookup does not check *)

Definition demo_rsrc_of (img : bytes) : rsrc :=
  mkRsrc 0x10000 (rs_reg demo_rsrc) (fun _ => img) wine_handle_manager_runtime_init ∅.

(** The offset of a subdirectory may lie outside of the resource section: the search
    reads there. *)
Example subdirectory_offset_unchecked {A : Arch} :
  FindResourceA demo_malloc 0 (Q_id 1) (Q_id 6)
    (demo_rsrc_of (replicate 16 0 ++ demo_dir 6 (HIGH + 0x100000) ++ replicate 100 0)) = Fault.
Proof. vm_compute. reflexivity. Qed.

(** So may the entries that the header of a directory announces. *)
Example entry_count_unchecked {A : Arch} :
  FindResourceA demo_malloc 0 (Q_id 1) (Q_id 6)
    (demo_rsrc_of (replicate 16 0 ++ replicate 12 0 ++ le16 0 ++ le16 1000 ++ replicate 108 0)) = Fault.
Proof. vm_compute. reflexivity. Qed.

(** A type given as a number of more than sixteen bits is taken for the address of a
    string as soon as the directory has an entry with a name. *)
Example wide_type_number_dereferenced {A : Arch} :
  FindResourceA demo_malloc 0 (Q_id 1) (Q_str (lit "#70000"))
    (demo_rsrc_of (replicate 16 0 ++ demo_dir (HIGH + 24) (HIGH + 24) ++ le16 1 ++ le16 65 ++ replicate 96 0)) = Fault.
Proof. vm_compute. reflexivity. Qed.

(** The last string of a block is not compared with the size of the block: its length
    is read and its characters are copied from wherever they lie. *)
Example last_string_unchecked {A : Arch} :
  LoadStringA demo_malloc 0 0 true 4096
    (demo_rsrc_of (take 104 demo_image ++ le16 1000 ++ replicate 34 0)) = Fault.
Proof. vm_compute. reflexivity. Qed.

(** A buffer size is cut to sixteen bits: with room for 65,537 characters the string
    "Hi" comes back empty. *)
Example buffer_size_truncated {A : Arch} :
  (fun r => fst <$> r) (LoadStringA demo_malloc 0 0 true 65537 demo_rsrc) = Ret (0, Some []).
Proof. vm_compute. reflexivity. Qed.

(** The same string [n] times. *)
Fixpoint load_repeatedly {A : Arch} (n : nat) (s : rsrc) : outcome rsrc :=
  match n with
  | O => Ret s
  | S n => '(_, s) ← LoadStringA demo_malloc 0 0 true 16 s; load_repeatedly n s
  end.

(** Every call keeps a slot of the handle table: after 509 strings there are none. *)
Example string_handles_leak :
  (fun r => fst <$> r) (s ← load_repeatedly (A := arch32) 509 demo_rsrc; LoadStringA (A := arch32) demo_malloc 0 0 true 16 s) = Ret (0, None).
Proof. vm_compute. reflexivity. Qed.
