(* ===== verification/Dialog.v ===== *)
(** * Dialog controls (src/msvcrt/user32_dialog_state.c, user32_dialog_controls.c,
      user32_dialog_items.c)

    The items of dialogs: a table of 64 controls, each a combo box, list box, edit
    field, button and spin button at once, and the messages they answer.  A character
    array of 128 bytes is represented by the string in it; what is behind the
    terminator is never read. *)
From S2P Require Import Prelude Bytes CStr MessageQueue BackendState WndClass.

Definition WM_SETTEXT : Z := 0x000C.
Definition WM_GETTEXT : Z := 0x000D.
Definition GWL_HWNDPARENT : Z := -8.
Definition GWL_ID : Z := -12.
Definition CB_ADDSTRING : Z := 0x0143.
Definition CB_GETCOUNT : Z := 0x0146.
Definition CB_GETCURSEL : Z := 0x0147.
Definition CB_GETLBTEXT : Z := 0x0148.
Definition CB_GETLBTEXTLEN : Z := 0x0149.
Definition CB_INSERTSTRING : Z := 0x014a.
Definition CB_RESETCONTENT : Z := 0x014b.
Definition CB_FINDSTRING : Z := 0x014c.
Definition CB_SELECTSTRING : Z := 0x014d.
Definition CB_SETCURSEL : Z := 0x014e.
Definition CB_GETITEMDATA : Z := 0x0150.
Definition CB_SETITEMDATA : Z := 0x0151.
Definition LB_ADDSTRING : Z := 0x0180.
Definition LB_INSERTSTRING : Z := 0x0181.
Definition LB_DELETESTRING : Z := 0x0182.
Definition LB_RESETCONTENT : Z := 0x0184.
Definition LB_SETCURSEL : Z := 0x0186.
Definition LB_GETCURSEL : Z := 0x0188.
Definition LB_GETTEXT : Z := 0x0189.
Definition LB_GETTEXTLEN : Z := 0x018a.
Definition LB_GETCOUNT : Z := 0x018b.
Definition LB_SELECTSTRING : Z := 0x018c.
Definition LB_GETITEMDATA : Z := 0x0199.
Definition LB_SETITEMDATA : Z := 0x019a.
Definition LB_FINDSTRINGEXACT : Z := 0x01a2.
Definition UDM_SETRANGE : Z := 0x0465.
Definition UDM_SETPOS : Z := 0x0467.
Definition UDM_GETPOS : Z := 0x0468.
Definition UDM_SETBUDDY : Z := 0x0469.

Record dialog_item_state := mkItem {
  di_dialog : Z; di_handle : Z; di_id : Z; di_state : Z; cur_sel : Z; di_text : cstr; items : list cstr; item_data : list Z;
  item_count : Z; range_min : Z; range_max : Z; position : Z; buddy : Z }.
Definition zero_item : dialog_item_state := mkItem 0 0 0 0 0 [] (replicate 32 []) (replicate 32 0) 0 0 0 0 0.
Definition fresh_item (dialog handle id : Z) : dialog_item_state :=
  mkItem dialog handle id 0 (-1) [] (replicate 32 []) (replicate 32 0) 0 0 0 0 0.

Definition set_state (v : Z) (x : dialog_item_state) : dialog_item_state :=
  mkItem (di_dialog x) (di_handle x) (di_id x) v (cur_sel x) (di_text x) (items x) (item_data x) (item_count x) (range_min x) (range_max x) (position x) (buddy x).
Definition set_sel (v : Z) (x : dialog_item_state) : dialog_item_state :=
  mkItem (di_dialog x) (di_handle x) (di_id x) (di_state x) v (di_text x) (items x) (item_data x) (item_count x) (range_min x) (range_max x) (position x) (buddy x).
Definition set_text (v : cstr) (x : dialog_item_state) : dialog_item_state :=
  mkItem (di_dialog x) (di_handle x) (di_id x) (di_state x) (cur_sel x) v (items x) (item_data x) (item_count x) (range_min x) (range_max x) (position x) (buddy x).
Definition set_items (l : list cstr) (data : list Z) (n : Z) (x : dialog_item_state) : dialog_item_state :=
  mkItem (di_dialog x) (di_handle x) (di_id x) (di_state x) (cur_sel x) (di_text x) l data n (range_min x) (range_max x) (position x) (buddy x).
Definition set_range (lo hi : Z) (x : dialog_item_state) : dialog_item_state :=
  mkItem (di_dialog x) (di_handle x) (di_id x) (di_state x) (cur_sel x) (di_text x) (items x) (item_data x) (item_count x) lo hi (position x) (buddy x).
Definition set_position (v : Z) (x : dialog_item_state) : dialog_item_state :=
  mkItem (di_dialog x) (di_handle x) (di_id x) (di_state x) (cur_sel x) (di_text x) (items x) (item_data x) (item_count x) (range_min x) (range_max x) v (buddy x).
Definition set_buddy (v : Z) (x : dialog_item_state) : dialog_item_state :=
  mkItem (di_dialog x) (di_handle x) (di_id x) (di_state x) (cur_sel x) (di_text x) (items x) (item_data x) (item_count x) (range_min x) (range_max x) (position x) v.

(** The string in a buffer of n + 1 bytes after user32_strncpy(buffer, src, n), the
    last byte being zero. *)
Definition user32_strncpy (n : nat) (src : option cstr) : cstr := take n (default [] src).

(** *** The C library *)

Fixpoint prefixb (n s : cstr) : bool :=
  match n, s with
  | [], _ => true
  | a :: n, b :: s => (a =? b) && prefixb n s
  | _ :: _, [] => false
  end.
(** strstr finds something. *)
Fixpoint strstr (s n : cstr) : bool := prefixb n s || match s with [] => false | _ :: s => strstr s n end.

(** The decimal digits of a number of at most [fuel] digits. *)
Fixpoint digits (fuel : nat) (n : Z) : cstr :=
  match fuel with
  | O => []
  | S fuel => if n <? 10 then [48 + n] else digits fuel (n / 10) ++ [48 + n mod 10]
  end.
(** %d, %u and %ld. *)
Definition print_dec (z : Z) : cstr := if z <? 0 then 45 :: digits 20 (- z) else digits 20 z.

(** *** Strings of a control *)

Fixpoint find_loop (test : cstr -> bool) (l : list cstr) (i todo : nat) : outcome (option nat) :=
  match todo with
  | O => Ret None
  | S todo => s ← deref (l !! i); if test s then Ret (Some i) else find_loop test l (S i) todo
  end.

Definition user32_dialog_find_string (item : dialog_item_state) (start_idx : Z) (needle : option cstr) (exact : bool) : outcome Z :=
  if item_count item =? 0 then Ret (-1)
  else
    let start := if (i32 start_idx <? 0) || (item_count item <=? start_idx) then 0 else start_idx in
    let needle := default [] needle in
    let test (s : cstr) := if exact then user32_strcmp (Some s) (Some needle) =? 0 else strstr s needle in
    r ← find_loop test (items item) (Z.to_nat start) (Z.to_nat (item_count item - start));
    match r with
    | Some i => Ret (Z.of_nat i)
    | None =>
        r ← find_loop test (items item) 0 (Z.to_nat start);
        Ret (match r with Some i => Z.of_nat i | None => -1 end)
    end.

Fixpoint data_index_loop (l : list Z) (needle : Z) (i todo : nat) : outcome Z :=
  match todo with
  | O => Ret (-1)
  | S todo => v ← deref (l !! i); if v =? needle then Ret (Z.of_nat i) else data_index_loop l needle (S i) todo
  end.
Definition user32_dialog_find_item_data_index (item : dialog_item_state) (needle : Z) : outcome Z :=
  data_index_loop (item_data item) needle 0 (Z.to_nat (item_count item)).

(** The store items[i] = v or item_data[i] = v. *)
Definition put {X} (i : nat) (v : X) (l : list X) : outcome (list X) :=
  if (i <? length l)%nat then Ret (<[i := v]> l) else Fault.

(** The new string becomes the selected text when nothing was selected. *)
Definition select_first (idx : nat) (it : dialog_item_state) : outcome dialog_item_state :=
  s ← deref (items it !! idx); Ret (set_text (user32_strncpy 127 (Some s)) (set_sel 0 it)).

Definition dialog_item_append_string (it : dialog_item_state) (src : option cstr) : outcome (Z * dialog_item_state) :=
  if 32 <=? item_count it then Ret (-1, it)
  else
    let idx := Z.to_nat (item_count it) in
    l ← put idx (user32_strncpy 127 src) (items it);
    data ← put idx 0 (item_data it);
    let it := set_items l data (item_count it + 1) it in
    it ← (if cur_sel it <? 0 then select_first idx it else Ret it);
    Ret (Z.of_nat idx, it).

(** for (i = idx + n; i > idx; i--): move an entry up. *)
Fixpoint shift_up {X} (idx n : nat) (l : list X) : outcome (list X) :=
  match n with
  | O => Ret l
  | S n => v ← deref (l !! (idx + n)%nat); l ← put (idx + S n) v l; shift_up idx n l
  end.

Definition dialog_item_insert_string (it : dialog_item_state) (idx : Z) (src : option cstr) : outcome (Z * dialog_item_state) :=
  if 32 <=? item_count it then Ret (-1, it)
  else if item_count it <=? idx then dialog_item_append_string it src
  else
    let i := Z.to_nat idx in
    let n := Z.to_nat (item_count it - idx) in
    l ← shift_up i n (items it);
    data ← shift_up i n (item_data it);
    l ← put i (user32_strncpy 127 src) l;
    data ← put i 0 data;
    let it := set_items l data (item_count it + 1) it in
    it ← (if cur_sel it <? 0 then select_first i it
          else Ret (if idx <=? cur_sel it then set_sel (cur_sel it + 1) it else it));
    Ret (idx, it).

(** for (i = idx; n times; i++): move the next entry down. *)
Fixpoint shift_down {X} (idx n : nat) (l : list X) : outcome (list X) :=
  match n with
  | O => Ret l
  | S n => v ← deref (l !! S idx); l ← put idx v l; shift_down (S idx) n l
  end.

Definition dialog_item_delete_string (it : dialog_item_state) (idx : Z) : outcome (Z * dialog_item_state) :=
  if item_count it <=? idx then Ret (-1, it)
  else
    let i := Z.to_nat idx in
    let n := Z.to_nat (item_count it - 1 - idx) in
    l ← shift_down i n (items it);
    data ← shift_down i n (item_data it);
    let count := item_count it - 1 in
    let sel :=
      if count =? 0 then -1 else if cur_sel it =? idx then -1
      else if idx <? cur_sel it then cur_sel it - 1 else cur_sel it in
    let it := set_sel sel (set_items l data count it) in
    text ← (if (0 <=? sel) && (sel <? count) then s ← deref (l !! Z.to_nat sel); Ret (user32_strncpy 127 (Some s)) else Ret []);
    Ret (count, set_text text it).

(** cur_sel = idx, with its string as the text. *)
Definition select_item (idx : Z) (it : dialog_item_state) : outcome dialog_item_state :=
  s ← deref (items it !! Z.to_nat idx); Ret (set_text (user32_strncpy 127 (Some s)) (set_sel idx it)).

(** *** The table of controls *)

Record dialogs := mkDialogs { g_dialog_items : list dialog_item_state; g_next_dialog_item_handle : Z }.
Definition no_dialogs : dialogs := mkDialogs (replicate 64 zero_item) 0x40000000.

(** The first entry from [i] on that [p] selects. *)
Fixpoint first_item {X} (p : X -> bool) (i : nat) (l : list X) : option nat :=
  match l with [] => None | x :: l => if p x then Some i else first_item p (S i) l end.

Definition lookup_item (dialog id : Z) (d : dialogs) : option nat :=
  first_item (fun x => (di_dialog x =? dialog) && (di_id x =? id)) 0 (g_dialog_items d).
Definition user32_dialog_find_item (dialog id : Z) (create : bool) (d : dialogs) : option nat * dialogs :=
  match lookup_item dialog id d with
  | Some i => (Some i, d)
  | None =>
      if negb create then (None, d)
      else
        match first_item (fun x => di_dialog x =? 0) 0 (g_dialog_items d) with
        | Some i =>
            (Some i, mkDialogs (<[i := fresh_item dialog (g_next_dialog_item_handle d) id]> (g_dialog_items d))
                       (u32 (g_next_dialog_item_handle d + 1)))
        | None => (None, d)
        end
  end.

Definition user32_dialog_find_item_by_handle (handle : Z) (d : dialogs) : option nat :=
  first_item (fun x => di_handle x =? handle) 0 (g_dialog_items d).

Definition item_at (i : nat) (d : dialogs) : outcome dialog_item_state := deref (g_dialog_items d !! i).
Definition set_item (i : nat) (x : dialog_item_state) (d : dialogs) : dialogs :=
  mkDialogs (<[i := x]> (g_dialog_items d)) (g_next_dialog_item_handle d).

(** The answer of a window that is not a control. *)
Definition NOT_A_CONTROL : Z := -2147483647.

Section code.
Context {A : Arch}.
(** The guest's memory: the string at an address. *)
Variable guest_string : Z -> cstr.

Definition user32_dialog_get_window_long_ptr (hWnd nIndex : Z) (d : dialogs) : outcome Z :=
  match user32_dialog_find_item_by_handle hWnd d with
  | None => Ret 0
  | Some i =>
      it ← item_at i d;
      Ret (if nIndex =? GWL_ID then swrap ptr_bits (di_id it)
           else if nIndex =? GWL_HWNDPARENT then swrap ptr_bits (di_dialog it) else 0)
  end.

Definition string_arg (lParam : Z) : option cstr := if lParam =? 0 then None else Some (guest_string (usize lParam)).

(** A message to an item: the result and the bytes written at lParam. *)
Definition item_message (Msg wParam lParam : Z) (it : dialog_item_state) : outcome (Z * bytes * dialog_item_state) :=
  let msg (l : list Z) := bool_decide (Msg ∈ l) in
  let idx := u32 wParam in
  if msg [WM_GETTEXT] then
    if (lParam =? 0) || (wParam =? 0) then Ret (0, [], it)
    else let s := take (Z.to_nat (wParam - 1)) (di_text it) in Ret (blen s, s ++ [0], it)
  else if msg [WM_SETTEXT] then Ret (1, [], set_text (user32_strncpy 127 (string_arg lParam)) it)
  else if msg [CB_ADDSTRING; LB_ADDSTRING] then '(r, it) ← dialog_item_append_string it (string_arg lParam); Ret (r, [], it)
  else if msg [CB_INSERTSTRING; LB_INSERTSTRING] then '(r, it) ← dialog_item_insert_string it idx (string_arg lParam); Ret (r, [], it)
  else if msg [LB_DELETESTRING] then '(r, it) ← dialog_item_delete_string it idx; Ret (r, [], it)
  else if msg [CB_GETCOUNT; LB_GETCOUNT] then Ret (item_count it, [], it)
  else if msg [CB_GETCURSEL; LB_GETCURSEL] then Ret (cur_sel it, [], it)
  else if msg [CB_GETLBTEXT; LB_GETTEXT] then
    if (item_count it <=? idx) || (lParam =? 0) then Ret (-1, [], it)
    else s ← deref (items it !! Z.to_nat idx); Ret (blen s, s ++ replicate (128 - length s) 0, it)
  else if msg [CB_GETLBTEXTLEN; LB_GETTEXTLEN] then
    if item_count it <=? idx then Ret (-1, [], it) else s ← deref (items it !! Z.to_nat idx); Ret (blen s, [], it)
  else if msg [CB_RESETCONTENT; LB_RESETCONTENT] then
    Ret (1, [], set_text [] (set_sel (-1) (set_items (items it) (item_data it) 0 it)))
  else if msg [CB_FINDSTRING] then r ← user32_dialog_find_string it idx (string_arg lParam) false; Ret (r, [], it)
  else if msg [LB_FINDSTRINGEXACT] then r ← user32_dialog_find_string it idx (string_arg lParam) true; Ret (r, [], it)
  else if msg [CB_SELECTSTRING; LB_SELECTSTRING] then
    r ← user32_dialog_find_string it idx (string_arg lParam) false;
    if r <? 0 then Ret (-1, [], it) else it ← select_item r it; Ret (r, [], it)
  else if msg [CB_SETCURSEL; LB_SETCURSEL] then
    if i32 wParam <? 0 then Ret (-1, [], set_sel (-1) it)
    else if item_count it <=? idx then Ret (-1, [], it)
    else it ← select_item (i32 wParam) it; Ret (cur_sel it, [], it)
  else if msg [CB_GETITEMDATA] then
    if item_count it <=? idx then Ret (0, [], it) else v ← deref (item_data it !! Z.to_nat idx); Ret (v, [], it)
  else if msg [LB_GETITEMDATA] then
    if item_count it <=? idx then Ret (-1, [], it) else v ← deref (item_data it !! Z.to_nat idx); Ret (v, [], it)
  else if msg [CB_SETITEMDATA; LB_SETITEMDATA] then
    if item_count it <=? idx then Ret (-1, [], it)
    else data ← put (Z.to_nat idx) lParam (item_data it); Ret (1, [], set_items (items it) data (item_count it) it)
  else if msg [UDM_SETRANGE] then Ret (0, [], set_range (i16 (Z.land (Z.shiftr lParam 16) 0xffff)) (i16 (Z.land lParam 0xffff)) it)
  else if msg [UDM_SETPOS] then Ret (position it, [], set_position (i16 (Z.land lParam 0xffff)) it)
  else if msg [UDM_GETPOS] then Ret (u16 (position it), [], it)
  else if msg [UDM_SETBUDDY] then Ret (swrap ptr_bits (buddy it), [], set_buddy wParam it)
  else Ret (0, [], it).

(** UDM_SETPOS shows the new position in the buddy. *)
Definition show_position (it : dialog_item_state) (d : dialogs) : outcome dialogs :=
  if buddy it =? 0 then Ret d
  else
    match user32_dialog_find_item_by_handle (buddy it) d with
    | None => Ret d
    | Some j => b ← item_at j d; Ret (set_item j (set_text (take 127 (print_dec (position it))) b) d)
    end.

Definition user32_dialog_send_control_message (hWnd Msg wParam lParam : Z) (d : dialogs) : outcome (Z * bytes * dialogs) :=
  match user32_dialog_find_item_by_handle hWnd d with
  | None => Ret (NOT_A_CONTROL, [], d)
  | Some i =>
      it ← item_at i d;
      '(r, out, it) ← item_message Msg wParam lParam it;
      let d := set_item i it d in
      d ← (if Msg =? UDM_SETPOS then show_position it d else Ret d);
      Ret (r, out, d)
  end.

(** *** Items of a dialog *)

Definition user32_dialog_get_item_handle (hDlg nIDDlgItem : Z) (d : dialogs) : outcome (Z * dialogs) :=
  let '(r, d) := user32_dialog_find_item hDlg (u32 nIDDlgItem) true d in
  match r with
  | None => Ret (0, d)
  | Some i => it ← item_at i d; Ret (di_handle it, d)
  end.
Definition GetDlgItem (hDlg nIDDlgItem : Z) (d : dialogs) : outcome (Z * dialogs) := user32_dialog_get_item_handle hDlg nIDDlgItem d.

Definition user32_dialog_set_item_text (hDlg nIDDlgItem : Z) (lpString : option cstr) (d : dialogs) : outcome (bool * dialogs) :=
  let '(r, d) := user32_dialog_find_item hDlg (u32 nIDDlgItem) true d in
  match r with
  | None => Ret (false, d)
  | Some i => it ← item_at i d; Ret (true, set_item i (set_text (user32_strncpy 127 lpString) it) d)
  end.
Definition SetDlgItemTextA (hDlg nIDDlgItem : Z) (lpString : option cstr) (d : dialogs) : outcome (bool * dialogs) :=
  user32_dialog_set_item_text hDlg nIDDlgItem lpString d.

Definition CheckDlgButton (hDlg nIDButton uCheck : Z) (d : dialogs) : outcome (bool * dialogs) :=
  let '(r, d) := user32_dialog_find_item hDlg (u32 nIDButton) true d in
  match r with
  | None => Ret (false, d)
  | Some i => it ← item_at i d; Ret (true, set_item i (set_state uCheck it) d)
  end.

Definition IsDlgButtonChecked (hDlg nIDButton : Z) (d : dialogs) : outcome Z :=
  match (user32_dialog_find_item hDlg (u32 nIDButton) false d).1 with
  | None => Ret 0
  | Some i => it ← item_at i d; Ret (di_state it)
  end.
End code.

(** *** Modal dialogs (user32_dialog_modal.c) *)

Record dialog_modal_state := mkModal { dm_dialog : Z; dm_dlgproc : Z; dm_result : Z; dm_ended : bool }.
Definition zero_modal : dialog_modal_state := mkModal 0 0 0 false.
Abbreviation modals := (list dialog_modal_state).
Definition no_modals : modals := replicate 16 zero_modal.
Definition modal_at (i : nat) (m : modals) : dialog_modal_state := default zero_modal (m !! i).

Definition dialog_find_modal (dialog : Z) (create : bool) (m : modals) : option nat * modals :=
  match first_item (fun x => dm_dialog x =? dialog) 0 m with
  | Some i => (Some i, m)
  | None =>
      if negb create then (None, m)
      else
        match first_item (fun x => dm_dialog x =? 0) 0 m with
        | Some i => (Some i, <[i := mkModal dialog 0 0 false]> m)
        | None => (None, m)
        end
  end.

Definition user32_dialog_set_modal_dlgproc (dialog dlgproc : Z) (m : modals) : modals :=
  let '(r, m) := dialog_find_modal dialog true m in
  match r with
  | Some i => alter (fun x => mkModal (dm_dialog x) dlgproc (dm_result x) (dm_ended x)) i m
  | None => m
  end.
Definition user32_dialog_get_modal_dlgproc (dialog : Z) (m : modals) : Z :=
  match (dialog_find_modal dialog false m).1 with Some i => dm_dlgproc (modal_at i m) | None => 0 end.
Definition user32_dialog_mark_modal_end (hDlg nResult : Z) (m : modals) : modals :=
  match (dialog_find_modal hDlg false m).1 with
  | Some i => alter (fun x => mkModal (dm_dialog x) (dm_dlgproc x) nResult true) i m
  | None => m
  end.
Definition user32_dialog_clear_modal (dialog : Z) (m : modals) : modals :=
  match (dialog_find_modal dialog false m).1 with Some i => <[i := zero_modal]> m | None => m end.

(** ** Controls as lists

    What a control is: strings with a number each, the selected one, and a text. *)
Record control := mkControl {
  c_items : list (cstr * Z); c_sel : option nat; c_text : cstr; c_state : Z; c_min : Z; c_max : Z; c_pos : Z; c_buddy : Z }.
Definition new_control : control := mkControl [] None [] 0 0 0 0 0.

Definition c_with (l : list (cstr * Z)) (sel : option nat) (text : cstr) (c : control) : control :=
  mkControl l sel text (c_state c) (c_min c) (c_max c) (c_pos c) (c_buddy c).
Definition c_set_range (lo hi : Z) (c : control) : control :=
  mkControl (c_items c) (c_sel c) (c_text c) (c_state c) lo hi (c_pos c) (c_buddy c).
Definition c_set_pos (v : Z) (c : control) : control :=
  mkControl (c_items c) (c_sel c) (c_text c) (c_state c) (c_min c) (c_max c) v (c_buddy c).
Definition c_set_buddy (v : Z) (c : control) : control :=
  mkControl (c_items c) (c_sel c) (c_text c) (c_state c) (c_min c) (c_max c) (c_pos c) v.
Definition c_set_state (v : Z) (c : control) : control :=
  mkControl (c_items c) (c_sel c) (c_text c) v (c_min c) (c_max c) (c_pos c) (c_buddy c).
Definition c_set_text (t : cstr) (c : control) : control := c_with (c_items c) (c_sel c) t c.

Definition strings (c : control) : list cstr := (c_items c).*1.
Definition c_size (c : control) : Z := Z.of_nat (length (c_items c)).
Definition sel_index (o : option nat) : Z := match o with Some k => Z.of_nat k | None => -1 end.
Definition nth_string (i : nat) (c : control) : cstr := default [] (strings c !! i).
Definition insert_at {X} (n : nat) (x : X) (l : list X) : list X := take n l ++ x :: drop n l.

(** The selection shows the string. *)
Definition spec_select (i : nat) (c : control) : control := c_with (c_items c) (Some i) (nth_string i c) c.

Definition spec_add (s : cstr) (c : control) : Z * control :=
  if 32 <=? c_size c then (-1, c)
  else
    let l := c_items c ++ [(s, 0)] in
    (c_size c, match c_sel c with None => c_with l (Some 0%nat) s c | Some k => c_with l (Some k) (c_text c) c end).

Definition spec_insert (idx : Z) (s : cstr) (c : control) : Z * control :=
  if 32 <=? c_size c then (-1, c)
  else if c_size c <=? idx then spec_add s c
  else
    let n := Z.to_nat idx in
    let l := insert_at n (s, 0) (c_items c) in
    (idx, match c_sel c with
          | None => c_with l (Some 0%nat) s c
          | Some k => c_with l (Some (if (n <=? k)%nat then S k else k)) (c_text c) c
          end).

Definition spec_delete (idx : Z) (c : control) : Z * control :=
  if c_size c <=? idx then (-1, c)
  else
    let n := Z.to_nat idx in
    let l := delete n (c_items c) in
    let sel := k ← c_sel c; if decide (k = n) then None else Some (if (n <? k)%nat then (k - 1)%nat else k) in
    (Z.of_nat (length l), c_with l sel (default [] (k ← sel; l.*1 !! k)) c).

(** The first string with a property, from [start] on and around the end. *)
Definition find_in (test : cstr -> bool) (l : list cstr) : option nat := fst <$> list_find (fun s => test s = true) l.
Definition spec_find (test : cstr -> bool) (idx : Z) (c : control) : option nat :=
  let start := Z.to_nat (if (i32 idx <? 0) || (c_size c <=? idx) then 0 else idx) in
  (fun j => (start + j) mod length (c_items c))%nat <$> find_in test (drop start (strings c) ++ take start (strings c)).

Section spec.
Context {A : Arch}.
Variable guest_string : Z -> cstr.

Definition text_arg (lParam : Z) : cstr := take 127 (default [] (string_arg guest_string lParam)).
(** What is searched for is not cut. *)
Definition has_text (lParam : Z) (s : cstr) : bool := strstr s (default [] (string_arg guest_string lParam)).
Definition is_text (lParam : Z) (s : cstr) : bool := bool_decide (s = default [] (string_arg guest_string lParam)).

Definition spec_message (Msg wParam lParam : Z) (c : control) : Z * bytes * control :=
  let msg (l : list Z) := bool_decide (Msg ∈ l) in
  let idx := u32 wParam in
  let i := Z.to_nat idx in
  let inside := idx <? c_size c in
  let quiet (r : Z * control) := (r.1, @nil Z, r.2) in
  if msg [WM_GETTEXT] then
    if (lParam =? 0) || (wParam =? 0) then (0, [], c)
    else let s := take (Z.to_nat (wParam - 1)) (c_text c) in (blen s, s ++ [0], c)
  else if msg [WM_SETTEXT] then (1, [], c_set_text (text_arg lParam) c)
  else if msg [CB_ADDSTRING; LB_ADDSTRING] then quiet (spec_add (text_arg lParam) c)
  else if msg [CB_INSERTSTRING; LB_INSERTSTRING] then quiet (spec_insert idx (text_arg lParam) c)
  else if msg [LB_DELETESTRING] then quiet (spec_delete idx c)
  else if msg [CB_GETCOUNT; LB_GETCOUNT] then (c_size c, [], c)
  else if msg [CB_GETCURSEL; LB_GETCURSEL] then (sel_index (c_sel c), [], c)
  else if msg [CB_GETLBTEXT; LB_GETTEXT] then
    if inside && negb (lParam =? 0)
    then let s := nth_string i c in (blen s, s ++ replicate (128 - length s) 0, c) else (-1, [], c)
  else if msg [CB_GETLBTEXTLEN; LB_GETTEXTLEN] then (if inside then blen (nth_string i c) else -1, [], c)
  else if msg [CB_RESETCONTENT; LB_RESETCONTENT] then (1, [], c_with [] None [] c)
  else if msg [CB_FINDSTRING] then (sel_index (spec_find (has_text lParam) idx c), [], c)
  else if msg [LB_FINDSTRINGEXACT] then (sel_index (spec_find (is_text lParam) idx c), [], c)
  else if msg [CB_SELECTSTRING; LB_SELECTSTRING] then
    match spec_find (has_text lParam) idx c with
    | Some k => (Z.of_nat k, [], spec_select k c)
    | None => (-1, [], c)
    end
  else if msg [CB_SETCURSEL; LB_SETCURSEL] then
    if i32 wParam <? 0 then (-1, [], c_with (c_items c) None (c_text c) c)
    else if inside then (idx, [], spec_select i c) else (-1, [], c)
  else if msg [CB_GETITEMDATA] then (if inside then default 0 ((c_items c).*2 !! i) else 0, [], c)
  else if msg [LB_GETITEMDATA] then (if inside then default 0 ((c_items c).*2 !! i) else -1, [], c)
  else if msg [CB_SETITEMDATA; LB_SETITEMDATA] then
    if inside then (1, [], c_with (<[i := (nth_string i c, lParam)]> (c_items c)) (c_sel c) (c_text c) c) else (-1, [], c)
  else if msg [UDM_SETRANGE] then (0, [], c_set_range (i16 (Z.shiftr lParam 16)) (i16 lParam) c)
  else if msg [UDM_SETPOS] then (c_pos c, [], c_set_pos (i16 lParam) c)
  else if msg [UDM_GETPOS] then (u16 (c_pos c), [], c)
  else if msg [UDM_SETBUDDY] then (swrap ptr_bits (c_buddy c), [], c_set_buddy wParam c)
  else (0, [], c).
End spec.

(** The arrays hold the list in their first entries. *)
Record item_rep (it : dialog_item_state) (c : control) : Prop := {
  ir_len : length (items it) = 32%nat;
  ir_dlen : length (item_data it) = 32%nat;
  ir_count : item_count it = c_size c;
  ir_size : c_size c <= 32;
  ir_items : take (length (c_items c)) (items it) = strings c;
  ir_data : take (length (c_items c)) (item_data it) = (c_items c).*2;
  ir_sel : cur_sel it = sel_index (c_sel c);
  ir_sel_in : forall k, c_sel c = Some k -> (k < length (c_items c))%nat;
  ir_text : di_text it = c_text c;
  ir_short : Forall (fun s => (length s <= 127)%nat /\ wf_cstr s) (strings c);
  ir_rest : (di_state it, range_min it, range_max it, position it, buddy it) = (c_state c, c_min c, c_max c, c_pos c, c_buddy c) }.

(** *** Arrays *)

Lemma put_in {X} i (v : X) l : (i < length l)%nat -> put i v l = Ret (<[i := v]> l).
Proof. intros H. unfold put. by rewrite (proj2 (Nat.ltb_lt _ _) H). Qed.

Lemma shift_up_spec {X} idx n : forall l : list X, (idx + n < length l)%nat ->
  exists l', shift_up idx n l = Ret l' /\ length l' = length l /\
    forall j, l' !! j = if decide (idx < j <= idx + n)%nat then l !! (j - 1)%nat else l !! j.
Proof.
  induction n as [|n IH]; intros l Hn; cbn [shift_up].
  - exists l. split_and!; [done..|]. intros j. destruct (decide _); [lia|done].
  - destruct (lookup_lt_is_Some_2 l (idx + n)) as [v Hv]; [lia|]. rewrite Hv. cbn [deref mbind outcome_bind].
    rewrite put_in by lia. cbn [mbind outcome_bind]. destruct (IH (<[(idx + S n)%nat := v]> l)) as (l' & E & Hl & Hj).
    { rewrite length_insert. lia. }
    exists l'. rewrite length_insert in Hl. split_and!; [done..|]. intros j. rewrite Hj. destruct (decide (j = idx + S n)%nat) as [->|].
    + rewrite !decide_False, decide_True by lia. rewrite list_lookup_insert_eq by lia. replace (idx + S n - 1)%nat with (idx + n)%nat by lia. done.
    + destruct (decide (idx < j <= idx + n)%nat).
      * rewrite (decide_True (P := (idx < j <= idx + S n)%nat)) by lia. by rewrite list_lookup_insert_ne by lia.
      * rewrite (decide_False (P := (idx < j <= idx + S n)%nat)) by lia. by rewrite list_lookup_insert_ne by lia.
Qed.

Lemma items_shift_down_spec {X} n : forall idx (l : list X), (idx + n < length l)%nat ->
  exists l', shift_down idx n l = Ret l' /\ length l' = length l /\
    forall j, l' !! j = if decide (idx <= j < idx + n)%nat then l !! S j else l !! j.
Proof.
  induction n as [|n IH]; intros idx l Hn; cbn [shift_down].
  - exists l. split_and!; [done..|]. intros j. destruct (decide _); [lia|done].
  - destruct (lookup_lt_is_Some_2 l (S idx)) as [v Hv]; [lia|]. rewrite Hv. cbn [deref mbind outcome_bind].
    rewrite put_in by lia. cbn [mbind outcome_bind]. destruct (IH (S idx) (<[idx := v]> l)) as (l' & E & Hl & Hj).
    { rewrite length_insert. lia. }
    exists l'. rewrite length_insert in Hl. split_and!; [done..|]. intros j. rewrite Hj. destruct (decide (j = idx)%nat) as [->|].
    + rewrite decide_False, decide_True by lia. by rewrite list_lookup_insert_eq by lia.
    + destruct (decide (S idx <= j < S idx + n)%nat).
      * rewrite (decide_True (P := (idx <= j < idx + S n)%nat)) by lia. by rewrite list_lookup_insert_ne by lia.
      * rewrite (decide_False (P := (idx <= j < idx + S n)%nat)) by lia. by rewrite list_lookup_insert_ne by lia.
Qed.

Lemma lookup_take_if {X} n (l : list X) j : take n l !! j = if decide (j < n)%nat then l !! j else None.
Proof. destruct (decide _); [by rewrite lookup_take_lt|by rewrite lookup_take_ge by lia]. Qed.

Lemma lookup_insert_at {X} n (x : X) l j : (n <= length l)%nat ->
  insert_at n x l !! j = if decide (j < n)%nat then l !! j else if decide (j = n) then Some x else l !! (j - 1)%nat.
Proof.
  intros Hn. unfold insert_at. destruct (decide (j < n)%nat).
  - rewrite lookup_app_l by (rewrite length_take; lia). by rewrite lookup_take_lt.
  - rewrite lookup_app_r by (rewrite length_take; lia). rewrite length_take, Nat.min_l by lia.
    destruct (decide (j = n)) as [->|]; [by rewrite Nat.sub_diag|].
    destruct (j - n)%nat as [|k] eqn:E; [lia|]. simpl. rewrite lookup_drop. f_equal. lia.
Qed.

(** Inserting into the first [c] entries of an array. *)
Lemma array_insert {X} i c (v : X) l : (i < c < length l)%nat ->
  exists l', (l1 ← shift_up i (c - i) l; put i v l1) = Ret l' /\ length l' = length l /\ take (S c) l' = insert_at i v (take c l).
Proof.
  intros Hc. destruct (shift_up_spec i (c - i) l) as (l1 & E & Hl & Hj); [lia|]. rewrite E. cbn [mbind outcome_bind].
  rewrite put_in by lia. eexists. split_and!; [done|by rewrite length_insert|]. apply list_eq. intros j.
  rewrite lookup_take_if, lookup_insert_at by (rewrite length_take; lia). rewrite !lookup_take_if.
  destruct (decide (j = i)) as [->|].
  - rewrite list_lookup_insert_eq by lia. repeat destruct (decide _); try lia; done.
  - rewrite list_lookup_insert_ne, Hj by done. repeat destruct (decide _); try lia; done.
Qed.

(** Appending to them. *)
Lemma array_append {X} c (v : X) l : (c < length l)%nat -> take (S c) (<[c := v]> l) = take c l ++ [v].
Proof. intros Hc. rewrite (take_S_r _ _ v) by (by rewrite list_lookup_insert_eq). by rewrite take_insert_ge. Qed.

(** Deleting from them. *)
Lemma array_delete {X} i c (l : list X) : (i < c <= length l)%nat ->
  exists l', shift_down i (c - 1 - i) l = Ret l' /\ length l' = length l /\ take (c - 1) l' = delete i (take c l).
Proof.
  intros Hc. destruct (items_shift_down_spec (c - 1 - i) i l) as (l1 & E & Hl & Hj); [lia|]. exists l1. split_and!; [done..|].
  apply list_eq. intros j. rewrite lookup_take_if, Hj. destruct (decide (j < i)%nat).
  - rewrite list_lookup_delete_lt, lookup_take_if by done. repeat destruct (decide _); try lia; done.
  - rewrite list_lookup_delete_ge, lookup_take_if by lia. repeat destruct (decide _); try lia; done.
Qed.

Lemma fmap_insert_at {X Y} (f : X -> Y) n x l : f <$> insert_at n x l = insert_at n (f x) (f <$> l).
Proof. unfold insert_at. by rewrite fmap_app, fmap_take, fmap_cons, fmap_drop. Qed.
Lemma length_insert_at {X} n (x : X) l : length (insert_at n x l) = S (length l).
Proof. unfold insert_at. rewrite length_app, length_take. simpl. rewrite length_drop. lia. Qed.
Lemma fmap_delete {X Y} (f : X -> Y) n (l : list X) : f <$> delete n l = delete n (f <$> l).
Proof. revert n. induction l as [|x l IH]; intros [|n]; [done..|]. simpl. f_equal. apply IH. Qed.
Lemma Forall_insert_at {X} (P : X -> Prop) n x l : P x -> Forall P l -> Forall P (insert_at n x l).
Proof. intros Hx Hl. apply Forall_app. split; [by apply Forall_take|]. constructor; [done|by apply Forall_drop]. Qed.
Lemma Forall_delete_at {X} (P : X -> Prop) n (l : list X) : Forall P l -> Forall P (delete n l).
Proof. intros H. rewrite delete_take_drop. apply Forall_app. split; [by apply Forall_take|by apply Forall_drop]. Qed.

(** *** Searching *)

Lemma item_search_spec test l : forall todo i, (i + todo <= length l)%nat ->
  find_loop test l i todo = Ret ((fun j => (i + j)%nat) <$> find_in test (take todo (drop i l))).
Proof.
  induction todo as [|todo IH]; intros i Hi; cbn [find_loop]; [done|].
  destruct (lookup_lt_is_Some_2 l i) as [s Hs]; [lia|]. rewrite Hs. cbn [deref mbind outcome_bind].
  rewrite (drop_S _ _ _ Hs). cbn [take]. unfold find_in in *. cbn [list_find]. destruct (decide (test s = true)) as [E|E].
  - rewrite E. simpl. by rewrite Nat.add_0_r.
  - destruct (test s); [done|]. rewrite IH by lia. f_equal. destruct (list_find _ _) as [[j x]|]; simpl; [|done]. f_equal. lia.
Qed.

Lemma find_in_app test a b :
  find_in test (a ++ b) = match find_in test a with Some j => Some j | None => (fun j => (length a + j)%nat) <$> find_in test b end.
Proof.
  unfold find_in. induction a as [|s a IH]; simpl; [by destruct (list_find _ b) as [[]|]|].
  destruct (decide (test s = true)); simpl; [done|].
  destruct (list_find _ (a ++ b)) as [[]|], (list_find _ a) as [[]|], (list_find _ b) as [[]|]; simpl in *; congruence.
Qed.
Lemma find_in_lt test l j : find_in test l = Some j -> (j < length l)%nat.
Proof.
  unfold find_in. intros H. apply fmap_Some in H as ([i s] & H & ->). apply list_find_Some in H as (H & _).
  by eapply lookup_lt_Some.
Qed.
Lemma find_in_ext test test' l : Forall (fun s => test s = test' s) l -> find_in test l = find_in test' l.
Proof.
  unfold find_in. induction 1 as [|s l E _ IH]; [done|]. simpl. rewrite E.
  destruct (decide _); [done|]. destruct (list_find _ l) as [[]|], (list_find _ l) as [[]|]; simpl in *; congruence.
Qed.

(** *** The operations on lists *)

Definition same_id (x y : dialog_item_state) : Prop := di_dialog y = di_dialog x /\ di_handle y = di_handle x /\ di_id y = di_id x.
(** An operation on the arrays does what the one on lists does. *)
Definition refines {X} (m : outcome (X * dialog_item_state)) (r : X * control) (it : dialog_item_state) : Prop :=
  exists it', m = Ret (r.1, it') /\ item_rep it' r.2 /\ same_id it it'.

Definition short (s : cstr) : Prop := (length s <= 127)%nat /\ wf_cstr s.
Lemma strncpy_short s : short s -> user32_strncpy 127 (Some s) = s.
Proof. intros [H _]. apply take_ge. exact H. Qed.
Lemma take_short s : wf_cstr s -> short (take 127 s).
Proof. intros H. split; [rewrite length_take; lia|by apply wf_cstr_take]. Qed.

Lemma ir_lookup it c i s : item_rep it c -> strings c !! i = Some s -> items it !! i = Some s.
Proof.
  intros R H. rewrite <- (ir_items _ _ R) in H. rewrite lookup_take_if in H. destruct (decide _); [done|discriminate].
Qed.
Lemma ir_lookup_data it c i v : item_rep it c -> (c_items c).*2 !! i = Some v -> item_data it !! i = Some v.
Proof.
  intros R H. rewrite <- (ir_data _ _ R) in H. rewrite lookup_take_if in H. destruct (decide _); [done|discriminate].
Qed.
Lemma length_strings c : length (strings c) = length (c_items c).
Proof. apply length_fmap. Qed.
Lemma nth_string_in i c : (i < length (c_items c))%nat -> strings c !! i = Some (nth_string i c).
Proof.
  intros H. unfold nth_string. destruct (lookup_lt_is_Some_2 (strings c) i) as [s ->]; [by rewrite length_strings|done].
Qed.
Lemma nth_string_short it c i : item_rep it c -> (i < length (c_items c))%nat -> short (nth_string i c).
Proof. intros R H. exact (proj1 (Forall_lookup _ _) (ir_short _ _ R) _ _ (nth_string_in i c H)). Qed.
Lemma nth_item it c i : item_rep it c -> (i < length (c_items c))%nat -> items it !! i = Some (nth_string i c).
Proof. intros R H. by apply (ir_lookup it c i _ R), nth_string_in. Qed.

(** New arrays with the contents of [l] in front. *)
Lemma rep_items it c l la ld sel text :
  item_rep it c -> length la = 32%nat -> length ld = 32%nat -> Z.of_nat (length l) <= 32 ->
  take (length l) la = l.*1 -> take (length l) ld = l.*2 -> (forall k, sel = Some k -> (k < length l)%nat) ->
  Forall (fun s => (length s <= 127)%nat /\ wf_cstr s) l.*1 ->
  item_rep (set_text text (set_sel (sel_index sel) (set_items la ld (Z.of_nat (length l)) it))) (c_with l sel text c).
Proof. intros R Ha Hd Hl E1 E2 Hs Hf. split; simpl; try done. exact (ir_rest _ _ R). Qed.

(** The three ways in which an operation sets text and selection. *)
Lemma set_same it : set_text (di_text it) (set_sel (cur_sel it) it) = it.
Proof. by destruct it. Qed.
Lemma set_same_text v it : set_sel v it = set_text (di_text it) (set_sel v it).
Proof. by destruct it. Qed.

Lemma item_rep_select it c i : item_rep it c -> (i < length (c_items c))%nat -> item_rep (set_text (nth_string i c) (set_sel (Z.of_nat i) it)) (spec_select i c).
Proof. intros R Hi. split; simpl; try apply R; try done. by intros k [= <-]. Qed.

Lemma append_refines it c src : item_rep it c -> wf_cstr (default [] src) ->
  refines (dialog_item_append_string it src) (spec_add (take 127 (default [] src)) c) it.
Proof.
  intros R Hw. unfold dialog_item_append_string, spec_add. rewrite (ir_count _ _ R). destruct (32 <=? c_size c) eqn:E.
  { by exists it. }
  assert (Hn : (length (c_items c) < 32)%nat) by (unfold c_size in E; lia).
  replace (Z.to_nat (c_size c)) with (length (c_items c)) by (unfold c_size; lia).
  rewrite !put_in by (rewrite ?(ir_len _ _ R), ?(ir_dlen _ _ R); lia). cbn [mbind outcome_bind].
  set (s := user32_strncpy 127 src). set (n := length (c_items c)).
  assert (Hs : short s) by (by apply take_short). change (take 127 (default [] src)) with s.
  assert (Hrep : forall sel text, (forall k, sel = Some k -> (k < S n)%nat) ->
    item_rep (set_text text (set_sel (sel_index sel) (set_items (<[n := s]> (items it)) (<[n := 0]> (item_data it)) (c_size c + 1) it)))
             (c_with (c_items c ++ [(s, 0)]) sel text c)).
  { intros sel text Hk. replace (c_size c + 1) with (Z.of_nat (length (c_items c ++ [(s, 0)]))) by (rewrite length_app; unfold c_size; simpl; lia).
    apply rep_items; rewrite ?length_insert, ?length_app; simpl; try apply R; try lia; try (by rewrite Nat.add_1_r).
    - rewrite Nat.add_1_r, array_append by (rewrite (ir_len _ _ R); lia). rewrite fmap_app. f_equal. apply (ir_items _ _ R).
    - rewrite Nat.add_1_r, array_append by (rewrite (ir_dlen _ _ R); lia). rewrite fmap_app. f_equal. apply (ir_data _ _ R).
    - rewrite fmap_app. apply Forall_app. split; [apply (ir_short _ _ R)|]. by constructor. }
  cbn [cur_sel set_items]. rewrite (ir_sel _ _ R). destruct (c_sel c) as [k|] eqn:Ec; cbn [sel_index].
  - rewrite (proj2 (Z.ltb_ge (Z.of_nat k) 0)) by lia. cbn [mbind outcome_bind]. eexists. split; [done|]. split; [|done].
    specialize (Hrep (Some k) (c_text c)). rewrite <- (ir_text _ _ R) in Hrep at 1. pose proof (ir_sel _ _ R) as E'. rewrite Ec in E'.
    rewrite <- E' in Hrep. apply Hrep. intros k' [= <-]. pose proof (ir_sel_in _ _ R k Ec). lia.
  - rewrite (proj2 (Z.ltb_lt (-1) 0)) by lia. unfold select_first. cbn [items set_items].
    rewrite list_lookup_insert_eq by (rewrite (ir_len _ _ R); lia). cbn [deref mbind outcome_bind]. rewrite (strncpy_short s) by done.
    eexists. split; [done|]. split; [|done]. apply (Hrep (Some 0%nat)). intros k [= <-]. lia.
Qed.

Lemma insert_refines it c idx src : item_rep it c -> wf_cstr (default [] src) -> 0 <= idx ->
  refines (dialog_item_insert_string it idx src) (spec_insert idx (take 127 (default [] src)) c) it.
Proof.
  intros R Hw Hi. unfold dialog_item_insert_string, spec_insert. rewrite (ir_count _ _ R).
  destruct (32 <=? c_size c) eqn:E; [by exists it|]. destruct (c_size c <=? idx) eqn:E2; [by apply append_refines|].
  set (i := Z.to_nat idx). set (n := length (c_items c)). set (s := user32_strncpy 127 src). change (take 127 (default [] src)) with s.
  assert (Hn : (i < n < 32)%nat) by (unfold c_size in *; lia). assert (Hs : short s) by (by apply take_short).
  replace (Z.to_nat (c_size c - idx)) with (n - i)%nat by (unfold c_size; lia).
  destruct (array_insert i n s (items it)) as (la & Ea & Hla & Ta); [rewrite (ir_len _ _ R); lia|].
  destruct (array_insert i n 0 (item_data it)) as (ld & Ed & Hld & Td); [rewrite (ir_dlen _ _ R); lia|].
  apply bind_Ret in Ea as (l1 & Ea1 & Ea2). apply bind_Ret in Ed as (l2 & Ed1 & Ed2).
  rewrite Ea1. cbn [mbind outcome_bind]. rewrite Ed1. cbn [mbind outcome_bind]. rewrite Ea2. cbn [mbind outcome_bind]. rewrite Ed2.
  cbn [mbind outcome_bind]. cbn [cur_sel set_items].
  assert (Hrep : forall sel text, (forall k, sel = Some k -> (k < S n)%nat) ->
    item_rep (set_text text (set_sel (sel_index sel) (set_items la ld (c_size c + 1) it))) (c_with (insert_at i (s, 0) (c_items c)) sel text c)).
  { intros sel text Hk. replace (c_size c + 1) with (Z.of_nat (length (insert_at i (s, 0) (c_items c)))) by (rewrite length_insert_at; unfold c_size; lia).
    apply rep_items; rewrite ?length_insert_at; try rewrite Hla; try rewrite Hld; try apply R; try lia; try done.
    - fold n. rewrite Ta, fmap_insert_at. f_equal. apply (ir_items _ _ R).
    - fold n. rewrite Td, fmap_insert_at. f_equal. apply (ir_data _ _ R).
    - rewrite fmap_insert_at. apply Forall_insert_at; [done|apply (ir_short _ _ R)]. }
  rewrite (ir_sel _ _ R). destruct (c_sel c) as [k|] eqn:Ec; cbn [sel_index].
  - rewrite (proj2 (Z.ltb_ge (Z.of_nat k) 0)) by lia. cbn [mbind outcome_bind]. eexists. split; [done|]. split; [|by destruct (idx <=? _)].
    specialize (Hrep (Some (if (i <=? k)%nat then S k else k)) (c_text c)). rewrite <- (ir_text _ _ R) in Hrep at 1.
    pose proof (ir_sel _ _ R) as E'. rewrite Ec in E'. cbn [sel_index] in *. pose proof (ir_sel_in _ _ R k Ec) as Hk'. fold n in Hk'.
    destruct (idx <=? Z.of_nat k) eqn:E3.
    + rewrite (proj2 (Nat.leb_le i k)) in * by lia. replace (Z.of_nat k + 1) with (Z.of_nat (S k)) by lia. apply Hrep. intros ? [= <-]. lia.
    + rewrite (proj2 (Nat.leb_gt i k)) in * by lia. rewrite <- E' in Hrep. apply Hrep. intros ? [= <-]. lia.
  - rewrite (proj2 (Z.ltb_lt (-1) 0)) by lia. unfold select_first. cbn [items set_items].
    assert (La : la !! i = Some s).
    { unfold put in Ea2. destruct (i <? length l1)%nat eqn:El; [|discriminate]. injection Ea2 as <-. apply list_lookup_insert_eq. by apply Nat.ltb_lt. }
    rewrite La. cbn [deref mbind outcome_bind]. rewrite (strncpy_short s) by done.
    eexists. split; [done|]. split; [|done]. apply (Hrep (Some 0%nat)). intros k [= <-]. lia.
Qed.

Lemma delete_refines it c idx : item_rep it c -> 0 <= idx ->
  refines (dialog_item_delete_string it idx) (spec_delete idx c) it.
Proof.
  intros R Hi. unfold dialog_item_delete_string, spec_delete. rewrite (ir_count _ _ R).
  destruct (c_size c <=? idx) eqn:E2; [by exists it|].
  set (i := Z.to_nat idx). set (n := length (c_items c)). pose proof (ir_size _ _ R) as H32.
  assert (Hn : (i < n <= 32)%nat) by (unfold c_size in *; lia). assert (Hii : Z.of_nat i = idx) by (unfold i; lia).
  replace (Z.to_nat (c_size c - 1 - idx)) with (n - 1 - i)%nat by (unfold c_size; lia).
  destruct (array_delete i n (items it)) as (la & Ea & Hla & Ta); [rewrite (ir_len _ _ R); lia|].
  destruct (array_delete i n (item_data it)) as (ld & Ed & Hld & Td); [rewrite (ir_dlen _ _ R); lia|].
  rewrite Ea. cbn [mbind outcome_bind]. rewrite Ed. cbn [mbind outcome_bind].
  destruct (lookup_lt_is_Some_2 (c_items c) i) as [x Hx]; [lia|].
  pose proof (length_delete (c_items c) i ltac:(by eexists)) as Hd.
  fold n in Hd. replace (c_size c - 1) with (Z.of_nat (length (delete i (c_items c)))) by (unfold c_size; fold n; lia).
  set (l := delete i (c_items c)) in *.
  set (sel := k ← c_sel c; if decide (k = i) then None else Some (if (i <? k)%nat then (k - 1)%nat else k)).
  assert (Hk : forall k, sel = Some k -> (k < length l)%nat).
  { unfold sel. intros k. destruct (c_sel c) as [k'|] eqn:Ec; simpl; [|done]. pose proof (ir_sel_in _ _ R k' Ec) as Hk'. fold n in Hk'.
    destruct (decide _); [done|]. destruct (Nat.ltb_spec i k'); intros [= <-]; lia. }
  assert (Hsel : (if Z.of_nat (length l) =? 0 then -1 else if cur_sel it =? idx then -1
                  else if idx <? cur_sel it then cur_sel it - 1 else cur_sel it) = sel_index sel).
  { unfold sel. rewrite (ir_sel _ _ R). destruct (c_sel c) as [k'|] eqn:Ec; cbn [sel_index mbind option_bind].
    - pose proof (ir_sel_in _ _ R k' Ec) as Hk'. fold n in Hk'. destruct (decide (k' = i)) as [->|]; cbn [sel_index]; [case_goal; [done|case_goal; lia]|].
      cbn [sel_index]. destruct (Nat.ltb_spec i k'); repeat case_goal; lia.
    - repeat case_goal; lia. }
  rewrite Hsel.
  assert (Htext : (if (0 <=? sel_index sel) && (sel_index sel <? Z.of_nat (length l))
                   then s ← deref (la !! Z.to_nat (sel_index sel)); Ret (user32_strncpy 127 (Some s)) else Ret [])
                  = Ret (default [] (k ← sel; l.*1 !! k))).
  { destruct sel as [k|]; cbn [sel_index]; [|done]. specialize (Hk k eq_refl).
    rewrite (proj2 (Z.leb_le 0 _)), (proj2 (Z.ltb_lt _ _)) by lia. cbn [andb]. rewrite Nat2Z.id.
    destruct (lookup_lt_is_Some_2 l.*1 k) as [s Hs]; [by rewrite length_fmap|].
    assert (Hla' : la !! k = Some s).
    { unfold l in Hs. rewrite fmap_delete in Hs. fold (strings c) in Hs. rewrite <- (ir_items _ _ R) in Hs. fold n in Hs. rewrite <- Ta, lookup_take_if in Hs.
      destruct (decide _); [done|discriminate]. }
    rewrite Hla'. cbn [deref mbind outcome_bind option_bind]. rewrite Hs. simpl. f_equal. apply strncpy_short.
    unfold l in Hs. rewrite fmap_delete in Hs. pose proof (Forall_delete_at _ i _ (ir_short _ _ R)) as Hf.
    exact (proj1 (Forall_lookup _ _) Hf _ _ Hs). }
  rewrite Htext. cbn [mbind outcome_bind]. eexists. split; [done|]. split; [|done].
  apply rep_items; try done; try (rewrite ?Hla, ?Hld; apply R); [lia| | |].
  - unfold l at 2. rewrite fmap_delete. fold (strings c). rewrite <- (ir_items _ _ R). fold n. rewrite <- Ta. f_equal. lia.
  - unfold l at 2. rewrite fmap_delete. rewrite <- (ir_data _ _ R). fold n. rewrite <- Td. f_equal. lia.
  - unfold l. rewrite fmap_delete. apply Forall_delete_at, (ir_short _ _ R).
Qed.

Lemma find_string_spec it c idx needle (exact : bool) test :
  item_rep it c -> 0 <= idx ->
  (forall s, short s -> test s = if exact then user32_strcmp (Some s) (Some (default [] needle)) =? 0 else strstr s (default [] needle)) ->
  user32_dialog_find_string it idx needle exact = Ret (sel_index (spec_find test idx c)).
Proof.
  intros R Hi Ht. unfold user32_dialog_find_string, spec_find. rewrite (ir_count _ _ R). destruct (c_size c =? 0) eqn:E.
  { assert (c_items c = []) as E' by (apply nil_length_inv; unfold c_size in E; lia). unfold strings. rewrite E'. simpl. rewrite take_nil, drop_nil. done. }
  set (start := if (i32 idx <? 0) || (c_size c <=? idx) then 0 else idx).
  assert (Hs : 0 <= start < c_size c) by (unfold start; destruct (_ || _) eqn:E2; unfold c_size in *; lia).
  set (n := length (c_items c)). assert (Hn : c_size c = Z.of_nat n) by done. pose proof (ir_size _ _ R). rewrite Hn in *.
  set (k := Z.to_nat start). assert (Hk : (k < n)%nat) by (unfold k; lia).
  set (test' := fun s => if exact then _ else _).
  assert (Hf : forall l, Forall short l -> find_in test' l = find_in test l).
  { intros l Hl. apply find_in_ext. eapply Forall_impl; [exact Hl|]. intros s Hsh. by rewrite (Ht s Hsh). }
  assert (Hit : strings c = take n (items it)) by (symmetry; apply (ir_items _ _ R)).
  rewrite !item_search_spec by (rewrite (ir_len _ _ R); lia).
  replace (take (Z.to_nat (Z.of_nat n - start)) (drop k (items it))) with (drop k (strings c)).
  2: { rewrite Hit, skipn_firstn_comm. f_equal. unfold k. lia. }
  replace (take k (drop 0 (items it))) with (take k (strings c)).
  2: { rewrite drop_0, Hit, take_take. f_equal. lia. }
  rewrite !Hf by (first [apply Forall_drop | apply Forall_take]; apply (ir_short _ _ R)). rewrite find_in_app.
  cbn [mbind outcome_bind]. destruct (find_in test (drop k (strings c))) as [j|] eqn:Ef; simpl.
  - apply find_in_lt in Ef. rewrite length_drop, length_strings in Ef. fold n in Ef. rewrite Nat.mod_small by lia. done.
  - destruct (find_in test (take k (strings c))) as [j|] eqn:Eg; simpl; [|done].
    apply find_in_lt in Eg. rewrite length_take, length_strings in Eg. fold n in Eg.
    rewrite length_drop, length_strings. fold n. replace (k + (n - k + j))%nat with (j + 1 * n)%nat by lia.
    rewrite Nat.Div0.mod_add, Nat.mod_small by lia. done.
Qed.

Lemma spec_find_in test idx c k : spec_find test idx c = Some k -> (k < length (c_items c))%nat.
Proof.
  unfold spec_find. intros H. apply fmap_Some in H as (j & H & ->). apply find_in_lt in H.
  rewrite length_app, length_drop, length_take, length_strings in H. apply Nat.mod_upper_bound. lia.
Qed.

Lemma i16_low l : i16 (Z.land l 0xffff) = i16 l.
Proof. change 0xffff with (Z.ones 16). rewrite Z.land_ones by lia. unfold swrap. by rewrite Zplus_mod_idemp_l. Qed.

Section refinement.
Context {A : Arch}.
Variable guest_string : Z -> cstr.
Hypothesis guest_string_wf : forall a, wf_cstr (guest_string a).

Lemma string_arg_wf l : wf_cstr (default [] (string_arg guest_string l)).
Proof. unfold string_arg. destruct (l =? 0); [apply Forall_nil_2|apply guest_string_wf]. Qed.

Lemma find_has_text it c idx l : item_rep it c -> 0 <= idx ->
  user32_dialog_find_string it idx (string_arg guest_string l) false = Ret (sel_index (spec_find (has_text guest_string l) idx c)).
Proof. intros R Hi. by apply find_string_spec. Qed.
Lemma find_is_text it c idx l : item_rep it c -> 0 <= idx ->
  user32_dialog_find_string it idx (string_arg guest_string l) true = Ret (sel_index (spec_find (is_text guest_string l) idx c)).
Proof.
  intros R Hi. apply find_string_spec; [done..|]. intros s [_ Hw]. unfold is_text.
  destruct (Z.eqb_spec (user32_strcmp (Some s) (Some (default [] (string_arg guest_string l)))) 0) as [E|E].
  - rewrite bool_decide_eq_true. by apply strcmp_name in E; [|done|apply string_arg_wf].
  - rewrite bool_decide_eq_false. intros ->. apply E. apply strcmp_name; [apply string_arg_wf..|done].
Qed.

Lemma refines_quiet it (m : outcome (Z * dialog_item_state)) r :
  refines m r it -> refines ('(x, it') ← m; Ret (x, @nil Z, it')) (r.1, @nil Z, r.2) it.
Proof. intros (it' & -> & R & S). by exists it'. Qed.
Lemma refines_ret {X} (x : X) it c : item_rep it c -> refines (Ret (x, it)) (x, c) it.
Proof. intros R. by exists it. Qed.
Lemma select_refines it c i : item_rep it c -> (i < length (c_items c))%nat ->
  select_item (Z.of_nat i) it = Ret (set_text (nth_string i c) (set_sel (Z.of_nat i) it)).
Proof.
  intros R Hi. unfold select_item. rewrite Nat2Z.id, (nth_item it c i R Hi). cbn [deref mbind outcome_bind].
  by rewrite strncpy_short by (by eapply nth_string_short).
Qed.

Lemma set_data_refines it c i v : item_rep it c -> (i < length (c_items c))%nat ->
  item_rep (set_items (items it) (<[i := v]> (item_data it)) (item_count it) it)
    (c_with (<[i := (nth_string i c, v)]> (c_items c)) (c_sel c) (c_text c) c).
Proof.
  intros R Hi. assert (Hstr : (<[i := (nth_string i c, v)]> (c_items c)).*1 = strings c).
  { rewrite list_fmap_insert. apply list_insert_id. by apply nth_string_in. }
  destruct R. split; unfold c_size, strings in *; cbn [items item_data item_count set_items c_with c_items c_sel c_text cur_sel di_text
    di_state range_min range_max position buddy c_state c_min c_max c_pos c_buddy]; rewrite ?length_insert; try done.
  - by rewrite Hstr.
  - rewrite list_fmap_insert. cbn [snd]. rewrite <- ir_data0. apply take_insert_lt. lia.
  - by rewrite Hstr.
Qed.

(** A message to an item does what it does to the list. *)
Lemma item_message_refines Msg wParam lParam it c : item_rep it c -> 0 <= wParam ->
  refines (item_message guest_string Msg wParam lParam it) (spec_message guest_string Msg wParam lParam c) it.
Proof.
  intros R Hw. pose proof (wrap_range 32 wParam ltac:(lia)) as Hu. set (idx := u32 wParam) in *.
  assert (Hn : idx < c_size c -> (Z.to_nat idx < length (c_items c))%nat) by (unfold c_size; lia).
  assert (Hin : (idx <? c_size c) = negb (item_count it <=? idx)) by (rewrite (ir_count _ _ R); lia).
  unfold item_message, spec_message. fold idx. rewrite Hin. pose proof (ir_count _ _ R) as Hc.
  destruct (bool_decide _).
  { rewrite (ir_text _ _ R). case_goal; by apply refines_ret. }
  destruct (bool_decide _).
  { eexists. split; [done|]. split; [|done]. destruct R. by split. }
  destruct (bool_decide _). { by apply refines_quiet, append_refines, string_arg_wf. }
  destruct (bool_decide _). { apply refines_quiet, insert_refines; [done|apply string_arg_wf|lia]. }
  destruct (bool_decide _). { apply refines_quiet, delete_refines; [done|lia]. }
  destruct (bool_decide _). { rewrite Hc. by apply refines_ret. }
  destruct (bool_decide _). { rewrite (ir_sel _ _ R). by apply refines_ret. }
  destruct (bool_decide _).
  { destruct (item_count it <=? idx) eqn:E; [by apply refines_ret|]. cbn [orb negb andb]. destruct (lParam =? 0); [by apply refines_ret|].
    rewrite (nth_item it c _ R) by (apply Hn; lia). by apply refines_ret. }
  destruct (bool_decide _).
  { destruct (item_count it <=? idx) eqn:E; [by apply refines_ret|]. rewrite (nth_item it c _ R) by (apply Hn; lia). by apply refines_ret. }
  destruct (bool_decide _).
  { eexists. split; [done|]. split; [|done]. destruct R. by split. }
  destruct (bool_decide _). { rewrite (find_has_text it c) by (done || lia). by apply refines_ret. }
  destruct (bool_decide _). { rewrite (find_is_text it c) by (done || lia). by apply refines_ret. }
  destruct (bool_decide _).
  { rewrite (find_has_text it c) by (done || lia). cbn [mbind outcome_bind]. destruct (spec_find _ idx c) as [k|] eqn:Ef; cbn [sel_index];
      [|by apply refines_ret].
    rewrite (proj2 (Z.ltb_ge (Z.of_nat k) 0)) by lia. apply spec_find_in in Ef. rewrite (select_refines it c k) by done.
    eexists. split; [done|]. split; [by apply item_rep_select|done]. }
  destruct (bool_decide _).
  { destruct (i32 wParam <? 0) eqn:E1.
    { eexists. split; [done|]. split; [|done]. destruct R. by split. }
    destruct (item_count it <=? idx) eqn:E; [by apply refines_ret|]. pose proof (ir_size _ _ R).
    assert (i32 wParam = idx) as -> by (unfold idx, wrap, swrap in *; Z.to_euclidean_division_equations; lia).
    pose proof (select_refines it c (Z.to_nat idx) R ltac:(apply Hn; lia)) as Es.
    pose proof (item_rep_select it c (Z.to_nat idx) R ltac:(apply Hn; lia)) as Hs. rewrite Z2Nat.id in Es, Hs by lia. rewrite Es.
    eexists. split; [done|]. by split. }
  destruct (bool_decide _).
  { destruct (item_count it <=? idx) eqn:E; [by apply refines_ret|].
    destruct (lookup_lt_is_Some_2 (c_items c).*2 (Z.to_nat idx)) as [v Hv]; [rewrite length_fmap; apply Hn; lia|].
    rewrite (ir_lookup_data it c _ v R Hv), Hv. by apply refines_ret. }
  destruct (bool_decide _).
  { destruct (item_count it <=? idx) eqn:E; [by apply refines_ret|].
    destruct (lookup_lt_is_Some_2 (c_items c).*2 (Z.to_nat idx)) as [v Hv]; [rewrite length_fmap; apply Hn; lia|].
    rewrite (ir_lookup_data it c _ v R Hv), Hv. by apply refines_ret. }
  destruct (bool_decide _).
  { destruct (item_count it <=? idx) eqn:E; [by apply refines_ret|]. pose proof (ir_size _ _ R).
    rewrite put_in by (rewrite (ir_dlen _ _ R); lia). eexists. split; [done|]. split; [apply set_data_refines; [done|apply Hn; lia]|done]. }
  pose proof (ir_rest _ _ R) as Er. injection Er as Er1 Er2 Er3 Er4 Er5.
  repeat (destruct (bool_decide _); [rewrite ?i16_low, ?Er4, ?Er5; eexists; split; [done|]; split; [|done]; destruct R; split; simpl; try done; congruence|]).
  by apply refines_ret.
Qed.
End refinement.

(** ** The table as a list

    The controls in the order in which they were created, each with its dialog and its
    number. *)
Abbreviation ctable := (list (Z * Z * control)).

Definition handle_of (i : nat) : Z := 0x40000000 + Z.of_nat i.
Definition of_handle (hwnd : Z) (t : ctable) : option nat :=
  let i := Z.to_nat (hwnd - 0x40000000) in
  if (0x40000000 <=? hwnd) && (i <? length t)%nat then Some i else None.

Definition t_find (dialog id : Z) (t : ctable) : option nat := fst <$> list_find (fun e => e.1 = (dialog, id)) t.
Definition t_get (dialog id : Z) (t : ctable) : option nat * ctable :=
  match t_find dialog id t with
  | Some i => (Some i, t)
  | None => if (length t <? 64)%nat then (Some (length t), t ++ [(dialog, id, new_control)]) else (None, t)
  end.
Definition t_update (i : nat) (f : control -> control) (t : ctable) : ctable := alter (prod_map id f) i t.

Section tables.
Context {A : Arch}.
Variable guest_string : Z -> cstr.

(** The calls of a guest on the controls of its dialogs. *)
Inductive dcall :=
| DGetItem (dlg id : Z)
| DCheck (dlg id v : Z)
| DIsChecked (dlg id : Z)
| DSetText (dlg id : Z) (s : option cstr)
| DSend (hwnd msg wParam lParam : Z)
| DGetLong (hwnd index : Z).

Definition bool_z (b : bool) : Z := if b then 1 else 0.

Definition dstep (c : dcall) (d : dialogs) : outcome (Z * bytes * dialogs) :=
  match c with
  | DGetItem dlg id => '(r, d) ← GetDlgItem dlg id d; Ret (r, [], d)
  | DCheck dlg id v => '(r, d) ← CheckDlgButton dlg id v d; Ret (bool_z r, [], d)
  | DIsChecked dlg id => r ← IsDlgButtonChecked dlg id d; Ret (r, [], d)
  | DSetText dlg id s => '(r, d) ← SetDlgItemTextA dlg id s d; Ret (bool_z r, [], d)
  | DSend hwnd msg wp lp => user32_dialog_send_control_message guest_string hwnd msg wp lp d
  | DGetLong hwnd index => r ← user32_dialog_get_window_long_ptr hwnd index d; Ret (r, [], d)
  end.

(** What they do to the list. *)
Definition t_show (c : control) (t : ctable) : ctable :=
  match of_handle (c_buddy c) t with Some j => t_update j (c_set_text (print_dec (c_pos c))) t | None => t end.
Definition spec_step (c : dcall) (t : ctable) : Z * bytes * ctable :=
  match c with
  | DGetItem dlg id => let '(r, t) := t_get dlg (u32 id) t in (from_option handle_of 0 r, [], t)
  | DCheck dlg id v =>
      let '(r, t) := t_get dlg (u32 id) t in
      match r with Some i => (1, [], t_update i (c_set_state v) t) | None => (0, [], t) end
  | DIsChecked dlg id => (default 0 (i ← t_find dlg (u32 id) t; e ← t !! i; Some (c_state e.2)), [], t)
  | DSetText dlg id s =>
      let '(r, t) := t_get dlg (u32 id) t in
      match r with Some i => (1, [], t_update i (c_set_text (take 127 (default [] s))) t) | None => (0, [], t) end
  | DSend hwnd msg wp lp =>
      match (i ← of_handle hwnd t; t !! i) with
      | Some (dlg, id, c) =>
          let '(r, out, c) := spec_message guest_string msg wp lp c in
          let t := t_update (Z.to_nat (hwnd - 0x40000000)) (fun _ => c) t in
          (r, out, if msg =? UDM_SETPOS then t_show c t else t)
      | None => (NOT_A_CONTROL, [], t)
      end
  | DGetLong hwnd index =>
      (match (i ← of_handle hwnd t; t !! i) with
       | Some (dlg, id, _) =>
           if index =? GWL_ID then swrap ptr_bits id else if index =? GWL_HWNDPARENT then swrap ptr_bits dlg else 0
       | None => 0
       end, [], t)
  end.

Definition dcall_ok (c : dcall) : Prop :=
  match c with
  | DGetItem dlg _ | DCheck dlg _ _ | DIsChecked dlg _ => dlg <> 0
  | DSetText dlg _ s => dlg <> 0 /\ wf_cstr (default [] s)
  | DSend hwnd _ wp _ => hwnd <> 0 /\ 0 <= wp
  | DGetLong hwnd _ => hwnd <> 0
  end.

Fixpoint drun (l : list dcall) (d : dialogs) : outcome (list (Z * bytes) * dialogs) :=
  match l with
  | [] => Ret ([], d)
  | c :: l => '(r, out, d) ← dstep c d; '(rs, d) ← drun l d; Ret ((r, out) :: rs, d)
  end.
Fixpoint spec_run (l : list dcall) (t : ctable) : list (Z * bytes) * ctable :=
  match l with
  | [] => ([], t)
  | c :: l => let '(r, out, t) := spec_step c t in let '(rs, t) := spec_run l t in ((r, out) :: rs, t)
  end.

Record dialogs_rep (d : dialogs) (t : ctable) : Prop := {
  dr_len : length (g_dialog_items d) = 64%nat;
  dr_size : (length t <= 64)%nat;
  dr_next : g_next_dialog_item_handle d = handle_of (length t);
  dr_used : forall i dlg id c, t !! i = Some (dlg, id, c) ->
    dlg <> 0 /\ exists it, g_dialog_items d !! i = Some it /\ item_rep it c /\ di_dialog it = dlg /\ di_id it = id /\ di_handle it = handle_of i;
  dr_free : forall i, (length t <= i < 64)%nat -> g_dialog_items d !! i = Some zero_item }.

Lemma first_item_Some {X} (p : X -> bool) l x : forall i k, l !! i = Some x -> p x = true -> (forall j y, (j < i)%nat -> l !! j = Some y -> p y = false) ->
  first_item p k l = Some (k + i)%nat.
Proof.
  induction l as [|y l IH]; intros i k Hi Hp Hj; [done|]. destruct i as [|i]; cbn [first_item].
  - injection Hi as ->. by rewrite Hp, Nat.add_0_r.
  - rewrite (Hj 0%nat y) by (done || lia). rewrite (IH i (S k)); [f_equal; lia|done..|]. intros j z Hz E. apply (Hj (S j) z); [lia|done].
Qed.
Lemma first_item_None {X} (p : X -> bool) l : forall k, (forall j y, l !! j = Some y -> p y = false) -> first_item p k l = None.
Proof.
  induction l as [|y l IH]; intros k Hj; [done|]. cbn [first_item]. rewrite (Hj 0%nat y eq_refl). apply IH. intros j z E. apply (Hj (S j) z E).
Qed.

(** An entry of the array is a control of the list or free. *)
Lemma rep_cases d t j y : dialogs_rep d t -> g_dialog_items d !! j = Some y ->
  (exists dlg id c, t !! j = Some (dlg, id, c) /\ dlg <> 0 /\ item_rep y c /\ di_dialog y = dlg /\ di_id y = id /\ di_handle y = handle_of j)
  \/ ((length t <= j < 64)%nat /\ y = zero_item).
Proof.
  intros R E. destruct (t !! j) as [[[dlg id] c]|] eqn:Et.
  - left. destruct (dr_used _ _ R _ _ _ _ Et) as (H0 & it & E' & ?). rewrite E in E'. injection E' as <-. by exists dlg, id, c.
  - right. apply lookup_ge_None in Et. pose proof (lookup_lt_Some _ _ _ E) as Hj. rewrite (dr_len _ _ R) in Hj.
    split; [lia|]. rewrite (dr_free _ _ R) in E by lia. congruence.
Qed.

Lemma lookup_item_spec d t dlg id : dialogs_rep d t -> dlg <> 0 -> lookup_item dlg id d = t_find dlg id t.
Proof.
  intros R H0. unfold lookup_item, t_find. destruct (list_find _ t) as [[i [[dlg' id'] c]]|] eqn:F; simpl.
  - apply list_find_Some in F as (Et & [= -> ->] & Hj). destruct (dr_used _ _ R _ _ _ _ Et) as (_ & it & E & _ & E1 & E2 & _).
    apply (first_item_Some _ _ it i 0); [done|by rewrite E1, E2, !Z.eqb_refl|]. intros j y Hlt Ey.
    destruct (rep_cases d t j y R Ey) as [(dl & id' & c' & Etj & _ & _ & <- & <- & _)|[_ ->]].
    + apply andb_false_iff. pose proof (Hj j _ Etj Hlt) as Hne. simpl in Hne.
      destruct (Z.eqb_spec (di_dialog y) dlg); [right|by left]. apply Z.eqb_neq. congruence.
    + apply andb_false_iff. left. apply Z.eqb_neq. cbn [di_dialog zero_item]. congruence.
  - apply list_find_None in F. apply first_item_None. intros j y Ey.
    destruct (rep_cases d t j y R Ey) as [(dl & id' & c' & Etj & _ & _ & <- & <- & _)|[_ ->]].
    + pose proof (proj1 (Forall_lookup _ _) F j _ Etj) as Hne. simpl in Hne. apply andb_false_iff.
      destruct (Z.eqb_spec (di_dialog y) dlg); [right|by left]. apply Z.eqb_neq. congruence.
    + apply andb_false_iff. left. apply Z.eqb_neq. cbn [di_dialog zero_item]. congruence.
Qed.

Lemma find_by_handle_spec d t h : dialogs_rep d t -> h <> 0 -> user32_dialog_find_item_by_handle h d = of_handle h t.
Proof.
  intros R H0. unfold user32_dialog_find_item_by_handle, of_handle. set (i := Z.to_nat (h - 0x40000000)). pose proof (dr_size _ _ R).
  destruct ((0x40000000 <=? h) && (i <? length t)%nat) eqn:E.
  - apply andb_true_iff in E as [E1 E2%Nat.ltb_lt]. apply Z.leb_le in E1.
    destruct (lookup_lt_is_Some_2 t i E2) as [[[dlg id] c] Et]. destruct (dr_used _ _ R _ _ _ _ Et) as (_ & it & E & _ & _ & _ & Eh).
    apply (first_item_Some _ _ it i 0); [done|rewrite Eh; apply Z.eqb_eq; unfold handle_of, i; lia|]. intros j y Hlt Ey.
    destruct (rep_cases d t j y R Ey) as [(dl & id' & c' & Etj & _ & _ & _ & _ & ->)|[_ ->]]; apply Z.eqb_neq; [|simpl; lia].
    unfold handle_of. unfold i in Hlt. lia.
  - apply first_item_None. intros j y Ey.
    destruct (rep_cases d t j y R Ey) as [(dl & id' & c' & Etj & _ & _ & _ & _ & ->)|[_ ->]]; apply Z.eqb_neq; [|simpl; lia].
    apply lookup_lt_Some in Etj. apply andb_false_iff in E as [E%Z.leb_gt|E%Nat.ltb_ge]; unfold handle_of, i in *; lia.
Qed.

Lemma new_item_rep dlg h id : item_rep (fresh_item dlg h id) new_control.
Proof. by split. Qed.

Lemma find_item_spec d t dlg id : dialogs_rep d t -> dlg <> 0 ->
  exists d', user32_dialog_find_item dlg id true d = ((t_get dlg id t).1, d') /\ dialogs_rep d' (t_get dlg id t).2.
Proof.
  intros R H0. unfold user32_dialog_find_item, t_get. rewrite (lookup_item_spec d t) by done.
  destruct (t_find dlg id t) as [i|]; [by exists d|]. cbn [negb]. destruct (Nat.ltb_spec (length t) 64) as [Hlt|Hge].
  - rewrite (first_item_Some _ _ zero_item (length t) 0); [|by apply (dr_free _ _ R)|done|].
    2: { intros j y Hj Ey. apply Z.eqb_neq. destruct (rep_cases d t j y R Ey) as [(? & ? & ? & ? & ? & ? & -> & ?)|[? _]]; [done|lia]. }
    eexists. split; [done|]. simpl. assert (Hl : length (t ++ [(dlg, id, new_control)]) = S (length t)) by (rewrite length_app; simpl; lia).
    split; simpl; rewrite ?length_insert, ?Hl.
    + apply R.
    + lia.
    + rewrite (dr_next _ _ R), wrap_small; unfold handle_of; lia.
    + intros j dl id' c Ej. destruct (decide (j = length t)) as [->|Hne].
      * rewrite list_lookup_middle in Ej by done. injection Ej as <- <- <-. split; [done|]. eexists.
        split; [apply list_lookup_insert_eq; rewrite (dr_len _ _ R); lia|]. split; [apply new_item_rep|]. by rewrite (dr_next _ _ R).
      * apply lookup_app_Some in Ej as [Ej|[Hge Ej]].
        -- destruct (dr_used _ _ R _ _ _ _ Ej) as (Hd & it & E & ?). split; [done|]. exists it. by rewrite list_lookup_insert_ne.
        -- apply lookup_lt_Some in Ej. simpl in Ej. lia.
    + intros j Hj. rewrite list_lookup_insert_ne by lia. apply (dr_free _ _ R). lia.
  - rewrite first_item_None; [by exists d|]. intros j y Ey. apply Z.eqb_neq.
    destruct (rep_cases d t j y R Ey) as [(? & ? & ? & ? & ? & ? & -> & ?)|[? _]]; [done|lia].
Qed.

Lemma t_get_in dlg id t i : (t_get dlg id t).1 = Some i -> exists c, (t_get dlg id t).2 !! i = Some (dlg, id, c).
Proof.
  unfold t_get, t_find. destruct (list_find _ t) as [[j [[dlg' id'] c]]|] eqn:F; simpl.
  - intros [= <-]. apply list_find_Some in F as (E & [= -> ->] & _). by exists c.
  - destruct (length t <? 64)%nat; simpl; [|done]. intros [= <-]. exists new_control. by apply list_lookup_middle.
Qed.

Lemma set_item_rep d t i dlg id c it it' f : dialogs_rep d t -> t !! i = Some (dlg, id, c) -> g_dialog_items d !! i = Some it ->
  item_rep it' (f c) -> same_id it it' -> dialogs_rep (set_item i it' d) (t_update i f t).
Proof.
  intros R Et Ei Hr (S1 & S2 & S3). unfold t_update. split; simpl; rewrite ?length_insert, ?length_alter; try apply R.
  - intros j dl id' c' Ej. destruct (decide (j = i)) as [->|Hne].
    + rewrite list_lookup_alter_eq, Et in Ej. injection Ej as <- <- <-.
      destruct (dr_used _ _ R _ _ _ _ Et) as (Hd & x & Ex & _ & H1 & H2 & H3). rewrite Ei in Ex. injection Ex as <-.
      split; [done|]. exists it'. split_and!; [|done|congruence..]. apply list_lookup_insert_eq. by eapply lookup_lt_Some.
    + rewrite list_lookup_alter_ne in Ej by done. destruct (dr_used _ _ R _ _ _ _ Ej) as (Hd & x & Ex & ?). split; [done|].
      exists x. by rewrite list_lookup_insert_ne.
  - intros j Hj. rewrite list_lookup_insert_ne; [by apply R|]. apply lookup_lt_Some in Et. lia.
Qed.

Lemma print_dec_length z : (length (print_dec z) <= 21)%nat.
Proof.
  assert (Hd : forall n x, (length (digits n x) <= n)%nat).
  { induction n as [|n IH]; intros x; cbn [digits]; [done|]. case_goal; simpl; [lia|]. rewrite length_app. specialize (IH (x / 10)). simpl. lia. }
  unfold print_dec. pose proof (Hd 20%nat (- z)). pose proof (Hd 20%nat z). destruct (z <? 0); cbn [length]; lia.
Qed.
Lemma print_dec_short z : take 127 (print_dec z) = print_dec z.
Proof. apply take_ge. pose proof (print_dec_length z). lia. Qed.

(** Running an operation on the item behind a call. *)
Lemma get_then d t dlg id f g :
  dialogs_rep d t -> dlg <> 0 -> (forall it c, item_rep it c -> item_rep (g it) (f c) /\ same_id it (g it)) ->
  exists d', (let '(r, d) := user32_dialog_find_item dlg id true d in
              match r with None => Ret (false, d) | Some i => it ← item_at i d; Ret (true, set_item i (g it) d) end)
             = Ret (bool_decide (is_Some (t_get dlg id t).1), d') /\
    dialogs_rep d' (let '(r, t) := t_get dlg id t in match r with Some i => t_update i f t | None => t end).
Proof.
  intros R H0 Hg. destruct (find_item_spec d t dlg id R H0) as (d' & E & R'). rewrite E. destruct (t_get dlg id t) as [[i|] t'] eqn:Et; simpl.
  - destruct (t_get_in dlg id t i) as [c Hc]; [by rewrite Et|]. rewrite Et in Hc. simpl in Hc, R'.
    destruct (dr_used _ _ R' _ _ _ _ Hc) as (_ & it & Ei & Hr & _). unfold item_at. rewrite Ei. cbn [deref mbind outcome_bind].
    eexists. split; [done|]. eapply set_item_rep; [done..|apply Hg; exact Hr|apply (Hg _ _ Hr)].
  - by exists d'.
Qed.

Hypothesis guest_string_wf : forall a, wf_cstr (guest_string a).

Lemma show_position_refines d t it c : dialogs_rep d t -> item_rep it c ->
  exists d', show_position it d = Ret d' /\ dialogs_rep d' (t_show c t).
Proof.
  intros R Hr. unfold show_position, t_show. pose proof (ir_rest _ _ Hr) as E. injection E as _ _ _ Ep Eb. rewrite Eb.
  destruct (Z.eqb_spec (c_buddy c) 0) as [Hb|Hb].
  - exists d. rewrite Hb. unfold of_handle. simpl. done.
  - rewrite (find_by_handle_spec d t) by done. destruct (of_handle (c_buddy c) t) as [j|] eqn:Ej; [|by exists d].
    unfold of_handle in Ej. destruct (_ && _) eqn:E; [|done]. injection Ej as <-. apply andb_true_iff in E as [_ E%Nat.ltb_lt].
    destruct (lookup_lt_is_Some_2 _ _ E) as [[[dl id'] c'] Ec]. destruct (dr_used _ _ R _ _ _ _ Ec) as (_ & x & Ex & Hx & _).
    unfold item_at. rewrite Ex. cbn [deref mbind outcome_bind]. rewrite print_dec_short, Ep. eexists. split; [done|].
    eapply set_item_rep; [done|exact Ec|exact Ex| |done]. destruct Hx. by split.
Qed.

Lemma dstep_refines call d t : dialogs_rep d t -> dcall_ok call ->
  exists d', dstep call d = Ret ((spec_step call t).1.1, (spec_step call t).1.2, d') /\ dialogs_rep d' (spec_step call t).2.
Proof.
  intros R Hok. destruct call as [dlg id|dlg id v|dlg id|dlg id s|hwnd msg wp lp|hwnd index]; cbn [dstep spec_step dcall_ok] in *.
  - unfold GetDlgItem, user32_dialog_get_item_handle. destruct (find_item_spec d t dlg (u32 id) R Hok) as (d' & E & R'). rewrite E.
    destruct (t_get dlg (u32 id) t) as [[i|] t'] eqn:Et; simpl; [|by exists d'].
    destruct (t_get_in dlg (u32 id) t i) as [c Hc]; [by rewrite Et|]. rewrite Et in Hc. simpl in Hc, R'.
    destruct (dr_used _ _ R' _ _ _ _ Hc) as (_ & it & Ei & _ & _ & _ & Eh). unfold item_at. rewrite Ei. cbn [deref mbind outcome_bind].
    rewrite Eh. by exists d'.
  - unfold CheckDlgButton. destruct (get_then d t dlg (u32 id) (c_set_state v) (set_state v)) as (d' & E & R'); [done..| |].
    { intros it c Hr. split; [|done]. destruct Hr. split; try done. simpl. congruence. }
    rewrite E. cbn [mbind outcome_bind]. destruct (t_get dlg (u32 id) t) as [[i|] t']; by exists d'.
  - unfold IsDlgButtonChecked, user32_dialog_find_item. rewrite (lookup_item_spec d t) by done. exists d. split; [|done].
    destruct (t_find dlg (u32 id) t) as [i|] eqn:F; simpl; [|done]. unfold t_find in F. apply fmap_Some in F as ([j e] & F & [= ->]).
    apply list_find_Some in F as (Ec & _). destruct e as [[dl id'] c]. destruct (dr_used _ _ R _ _ _ _ Ec) as (_ & it & Ei & Hr & _).
    unfold item_at. rewrite Ei. simpl. change (t !! j) with (lookup (M := ctable) j t). rewrite Ec. simpl.
    pose proof (ir_rest _ _ Hr) as E. by injection E as -> _ _ _ _.
  - destruct Hok as [Hd Hw]. unfold SetDlgItemTextA, user32_dialog_set_item_text.
    destruct (get_then d t dlg (u32 id) (c_set_text (take 127 (default [] s))) (set_text (user32_strncpy 127 s))) as (d' & E & R'); [done..| |].
    { intros it c Hr. split; [|done]. destruct Hr. by split. }
    rewrite E. cbn [mbind outcome_bind]. destruct (t_get dlg (u32 id) t) as [[i|] t']; by exists d'.
  - destruct Hok as [Hd Hw]. unfold user32_dialog_send_control_message. rewrite (find_by_handle_spec d t) by done.
    destruct (of_handle hwnd t) as [i|] eqn:Ei; simpl; [|by exists d].
    assert (i = Z.to_nat (hwnd - 0x40000000) /\ (i < length t)%nat) as [Hi Hlt].
    { unfold of_handle in Ei. destruct (_ && _) eqn:E; [|done]. injection Ei as <-. apply andb_true_iff in E as [_ E%Nat.ltb_lt]. done. }
    destruct (lookup_lt_is_Some_2 _ _ Hlt) as [[[dl id'] c] Ec]. rewrite Ec. rewrite <- Hi.
    destruct (dr_used _ _ R _ _ _ _ Ec) as (_ & it & Ex & Hx & _). unfold item_at. rewrite Ex. cbn [deref mbind outcome_bind].
    destruct (item_message_refines guest_string guest_string_wf msg wp lp it c Hx Hw) as (it' & E & Hr' & Hs).
    destruct (spec_message guest_string msg wp lp c) as [[r out] c'] eqn:Es. rewrite E. cbn [mbind outcome_bind fst snd] in *.
    pose proof (set_item_rep d t i dl id' c it it' (fun _ => c') R Ec Ex Hr' Hs) as R'.
    destruct (msg =? UDM_SETPOS); [|by eexists].
    destruct (show_position_refines _ _ it' c' R' Hr') as (d'' & E' & R''). rewrite E'. by exists d''.
  - unfold user32_dialog_get_window_long_ptr. rewrite (find_by_handle_spec d t) by done. exists d. split; [|done].
    destruct (of_handle hwnd t) as [i|] eqn:Ei; simpl; [|done].
    assert (i < length t)%nat as Hlt.
    { unfold of_handle in Ei. destruct (_ && _) eqn:E; [|done]. injection Ei as <-. by apply andb_true_iff in E as [_ E%Nat.ltb_lt]. }
    destruct (lookup_lt_is_Some_2 _ _ Hlt) as [[[dl id'] c] Ec]. rewrite Ec. destruct (dr_used _ _ R _ _ _ _ Ec) as (_ & it & Ex & _ & <- & <- & _).
    unfold item_at. by rewrite Ex.
Qed.

Lemma drun_refines l : forall d t, dialogs_rep d t -> Forall dcall_ok l ->
  exists d', drun l d = Ret ((spec_run l t).1, d') /\ dialogs_rep d' (spec_run l t).2.
Proof.
  induction l as [|call l IH]; intros d t R Hl; cbn [drun spec_run]; [by exists d|]. apply Forall_cons in Hl as [Hc Hl].
  destruct (dstep_refines call d t R Hc) as (d1 & E1 & R1). rewrite E1. destruct (spec_step call t) as [[r out] t1]. cbn [mbind outcome_bind fst snd] in *.
  destruct (IH d1 t1 R1 Hl) as (d2 & E2 & R2). rewrite E2. destruct (spec_run l t1) as [rs t2]. by exists d2.
Qed.

Lemma no_dialogs_rep : dialogs_rep no_dialogs [].
Proof.
  split; simpl; [done|lia|done|done|]. intros i Hi. change (replicate 64 zero_item !! i = Some zero_item). apply lookup_replicate_2. simpl in Hi. lia.
Qed.

(** C18: The controls of dialogs behave as lists: whatever calls a guest makes on the items
    of its dialogs, in whatever order, with dialog and window handles that are not
    null, every result and every byte written is the one
    of the table of controls that are lists of strings, each with its number, a
    selection and a text.  No call leaves the arrays. *)
Theorem dialog_controls_refine l : Forall dcall_ok l ->
  exists d, drun l no_dialogs = Ret ((spec_run l []).1, d) /\ dialogs_rep d (spec_run l []).2.
Proof. intros Hl. by apply drun_refines; [apply no_dialogs_rep|]. Qed.
End tables.

(** ** No call leaves the arrays

    What the table needs for that, free entries included. *)
Record item_fit (it : dialog_item_state) : Prop := {
  if_len : length (items it) = 32%nat;
  if_dlen : length (item_data it) = 32%nat;
  if_count : 0 <= item_count it <= 32;
  if_sel : -1 <= cur_sel it }.
Definition dialogs_ok (d : dialogs) : Prop := length (g_dialog_items d) = 64%nat /\ Forall item_fit (g_dialog_items d).

Section fits.
Context {A : Arch}.
Variable guest_string : Z -> cstr.

Definition fits {X} (m : outcome (X * dialog_item_state)) : Prop := exists x it', m = Ret (x, it') /\ item_fit it'.

Lemma fits_ret {X} (x : X) it : item_fit it -> fits (Ret (x, it)).
Proof. intros H. by exists x, it. Qed.
Lemma fit_get it i : item_fit it -> 0 <= i < item_count it ->
  (exists s, items it !! Z.to_nat i = Some s) /\ (exists v, item_data it !! Z.to_nat i = Some v).
Proof. intros [H1 H2 H3 H4] Hi. split; apply lookup_lt_is_Some_2; lia. Qed.
Lemma select_first_fit i it : item_fit it -> (i < 32)%nat -> exists it', select_first i it = Ret it' /\ item_fit it'.
Proof.
  intros H Hi. unfold select_first. destruct (lookup_lt_is_Some_2 (items it) i) as [s ->]; [by rewrite (if_len _ H)|].
  eexists. split; [done|]. destruct H. by split.
Qed.

Lemma append_fits it src : item_fit it -> fits (dialog_item_append_string it src).
Proof.
  intros H. pose proof H as [H1 H2 H3 H4]. unfold dialog_item_append_string. destruct (32 <=? item_count it) eqn:E; [by apply fits_ret|].
  rewrite !put_in by lia. cbn [mbind outcome_bind]. set (it1 := set_items _ _ _ it).
  assert (Hf : item_fit it1) by (split; simpl; rewrite ?length_insert; try done; lia).
  destruct (cur_sel it1 <? 0); [|by apply fits_ret]. destruct (select_first_fit (Z.to_nat (item_count it)) it1 Hf) as (it' & -> & Hf'); [lia|].
  by apply fits_ret.
Qed.

Lemma insert_fits it idx src : item_fit it -> 0 <= idx -> fits (dialog_item_insert_string it idx src).
Proof.
  intros H Hi. pose proof H as [H1 H2 H3 H4]. unfold dialog_item_insert_string. destruct (32 <=? item_count it) eqn:E; [by apply fits_ret|].
  destruct (item_count it <=? idx) eqn:E2; [by apply append_fits|]. replace (Z.to_nat (item_count it - idx)) with (Z.to_nat (item_count it) - Z.to_nat idx)%nat by lia.
  destruct (array_insert (Z.to_nat idx) (Z.to_nat (item_count it)) (user32_strncpy 127 src) (items it)) as (la & Ea & Hla & _); [lia|].
  destruct (array_insert (Z.to_nat idx) (Z.to_nat (item_count it)) 0 (item_data it)) as (ld & Ed & Hld & _); [lia|].
  apply bind_Ret in Ea as (l1 & -> & Ea). apply bind_Ret in Ed as (l2 & Ed1 & Ed). cbn [mbind outcome_bind]. rewrite Ed1. cbn [mbind outcome_bind].
  rewrite Ea. cbn [mbind outcome_bind]. rewrite Ed. cbn [mbind outcome_bind]. set (it1 := set_items _ _ _ it).
  assert (Hf : item_fit it1) by (split; simpl; try congruence; lia).
  destruct (cur_sel it1 <? 0) eqn:Es.
  - destruct (select_first_fit (Z.to_nat idx) it1 Hf) as (it' & -> & Hf'); [lia|]. by apply fits_ret.
  - apply fits_ret. destruct (idx <=? cur_sel it1); [|done]. destruct Hf. split; simpl in *; try done. lia.
Qed.

Lemma delete_fits it idx : item_fit it -> 0 <= idx -> fits (dialog_item_delete_string it idx).
Proof.
  intros H Hi. pose proof H as [H1 H2 H3 H4]. unfold dialog_item_delete_string. destruct (item_count it <=? idx) eqn:E; [by apply fits_ret|].
  replace (Z.to_nat (item_count it - 1 - idx)) with (Z.to_nat (item_count it) - 1 - Z.to_nat idx)%nat by lia.
  destruct (array_delete (Z.to_nat idx) (Z.to_nat (item_count it)) (items it)) as (la & -> & Hla & _); [lia|].
  destruct (array_delete (Z.to_nat idx) (Z.to_nat (item_count it)) (item_data it)) as (ld & Ed & Hld & _); [lia|].
  cbn [mbind outcome_bind]. rewrite Ed. cbn [mbind outcome_bind]. set (sel := if item_count it - 1 =? 0 then _ else _).
  assert (Hs : -1 <= sel) by (unfold sel; repeat case_goal; lia).
  destruct ((0 <=? sel) && (sel <? item_count it - 1)) eqn:Es.
  - destruct (lookup_lt_is_Some_2 la (Z.to_nat sel)) as [s ->]; [lia|]. cbn [deref mbind outcome_bind]. apply fits_ret. split; simpl; try congruence; lia.
  - cbn [mbind outcome_bind]. apply fits_ret. split; simpl; try congruence; lia.
Qed.

Lemma find_string_total it idx needle exact : item_fit it -> 0 <= idx ->
  exists r, user32_dialog_find_string it idx needle exact = Ret r /\ -1 <= r < Z.max 0 (item_count it).
Proof.
  intros [H1 H2 H3 H4] Hi. unfold user32_dialog_find_string. destruct (item_count it =? 0) eqn:E0; [exists (-1); split; [done|lia]|].
  set (start := if (i32 idx <? 0) || (item_count it <=? idx) then 0 else idx).
  assert (Hs : 0 <= start < item_count it) by (unfold start; case_goal; lia).
  set (test := fun s : cstr => if exact then _ else _). rewrite !item_search_spec by lia. cbn [mbind outcome_bind].
  destruct (find_in test (take (Z.to_nat (item_count it - start)) _)) as [j|] eqn:F; simpl.
  { apply find_in_lt in F. rewrite length_take, length_drop in F. eexists. split; [done|]. lia. }
  destruct (find_in test (take (Z.to_nat start) _)) as [j|] eqn:G; simpl; [|exists (-1); split; [done|lia]].
  apply find_in_lt in G. rewrite length_take in G. eexists. split; [done|]. lia.
Qed.

Lemma select_fit it i : item_fit it -> 0 <= i < item_count it -> exists it', select_item i it = Ret it' /\ item_fit it'.
Proof.
  intros H Hi. destruct (fit_get it i H Hi) as [[s Es] _]. unfold select_item. rewrite Es. eexists. split; [done|].
  destruct H. split; simpl; try done. lia.
Qed.

Lemma fits_quiet (m : outcome (Z * dialog_item_state)) : fits m -> fits ('(x, it') ← m; Ret (x, @nil Z, it')).
Proof. intros (x & it' & -> & H). by exists (x, []), it'. Qed.

Lemma item_message_fits Msg wParam lParam it : item_fit it -> fits (item_message guest_string Msg wParam lParam it).
Proof.
  intros H. pose proof (wrap_range 32 wParam ltac:(lia)) as Hu. unfold item_message. set (idx := u32 wParam) in *.
  destruct (bool_decide _). { case_goal; by apply fits_ret. }
  destruct (bool_decide _). { apply fits_ret. destruct H. by split. }
  destruct (bool_decide _). { by apply fits_quiet, append_fits. }
  destruct (bool_decide _). { apply fits_quiet, insert_fits; [done|lia]. }
  destruct (bool_decide _). { apply fits_quiet, delete_fits; [done|lia]. }
  destruct (bool_decide _). { by apply fits_ret. }
  destruct (bool_decide _). { by apply fits_ret. }
  destruct (bool_decide _).
  { case_goal; [by apply fits_ret|]. destruct (fit_get it idx H) as [[s ->] _]; [lia|]. by apply fits_ret. }
  destruct (bool_decide _).
  { case_goal; [by apply fits_ret|]. destruct (fit_get it idx H) as [[s ->] _]; [lia|]. by apply fits_ret. }
  destruct (bool_decide _). { apply fits_ret. destruct H. split; simpl; try done. }
  destruct (bool_decide _).
  { destruct (find_string_total it idx (string_arg guest_string lParam) false H ltac:(lia)) as (r & -> & _). by apply fits_ret. }
  destruct (bool_decide _).
  { destruct (find_string_total it idx (string_arg guest_string lParam) true H ltac:(lia)) as (r & -> & _). by apply fits_ret. }
  destruct (bool_decide _).
  { destruct (find_string_total it idx (string_arg guest_string lParam) false H ltac:(lia)) as (r & -> & Hr). cbn [mbind outcome_bind].
    destruct (r <? 0) eqn:E; [by apply fits_ret|]. destruct (select_fit it r H) as (it' & -> & H'); [lia|]. by apply fits_ret. }
  destruct (bool_decide _).
  { destruct (i32 wParam <? 0) eqn:E1; [apply fits_ret; destruct H; split; simpl; try done; lia|].
    destruct (item_count it <=? idx) eqn:E; [by apply fits_ret|]. pose proof (if_count _ H).
    destruct (select_fit it (i32 wParam) H) as (it' & -> & H'); [|by apply fits_ret].
    unfold idx, wrap, swrap in *. Z.to_euclidean_division_equations. lia. }
  destruct (bool_decide _).
  { case_goal; [by apply fits_ret|]. destruct (fit_get it idx H) as [_ [v ->]]; [lia|]. by apply fits_ret. }
  destruct (bool_decide _).
  { case_goal; [by apply fits_ret|]. destruct (fit_get it idx H) as [_ [v ->]]; [lia|]. by apply fits_ret. }
  destruct (bool_decide _).
  { case_goal; [by apply fits_ret|]. pose proof H as [H1 H2 H3 H4]. rewrite put_in by lia. apply fits_ret. split; simpl; rewrite ?length_insert; done. }
  repeat (destruct (bool_decide _); [apply fits_ret; destruct H; by split|]). by apply fits_ret.
Qed.

Lemma first_item_in {X} (p : X -> bool) l : forall k i, first_item p k l = Some i -> exists x, (k <= i)%nat /\ l !! (i - k)%nat = Some x.
Proof.
  induction l as [|y l IH]; intros k i; [done|]. cbn [first_item]. destruct (p y).
  - intros [= <-]. exists y. by rewrite Nat.sub_diag.
  - intros E. destruct (IH _ _ E) as (x & Hk & Hx). exists x. split; [lia|]. by replace (i - k)%nat with (S (i - S k))%nat by lia.
Qed.
Lemma first_item_at p d i : first_item p 0 (g_dialog_items d) = Some i -> exists it, item_at i d = Ret it /\ g_dialog_items d !! i = Some it.
Proof. intros E. destruct (first_item_in p _ _ _ E) as (x & _ & Hx). rewrite Nat.sub_0_r in Hx. exists x. unfold item_at. by rewrite Hx. Qed.

Lemma set_item_ok i it d : dialogs_ok d -> item_fit it -> dialogs_ok (set_item i it d).
Proof. intros [Hl Hd] Hi. split; [by rewrite <- Hl; apply length_insert|by apply Forall_insert]. Qed.
Lemma item_at_ok i it d : dialogs_ok d -> g_dialog_items d !! i = Some it -> item_fit it.
Proof. intros [_ Hd] Hi. exact (proj1 (Forall_lookup _ _) Hd _ _ Hi). Qed.

Lemma control_message_ok hWnd Msg wParam lParam d : dialogs_ok d ->
  exists r d', user32_dialog_send_control_message guest_string hWnd Msg wParam lParam d = Ret (r, d') /\ dialogs_ok d'.
Proof.
  intros Hd. unfold user32_dialog_send_control_message. destruct (user32_dialog_find_item_by_handle hWnd d) as [i|] eqn:E.
  - destruct (first_item_at _ _ _ E) as (it & -> & Ei). cbn [mbind outcome_bind].
    destruct (item_message_fits Msg wParam lParam it) as ([r out] & it' & Em & Hf); [by apply (item_at_ok i it d)|]. rewrite Em.
    cbn [mbind outcome_bind]. pose proof (set_item_ok i it' d Hd Hf) as Hd'. destruct (Msg =? UDM_SETPOS); [|by eexists _, _].
    unfold show_position. destruct (buddy it' =? 0); [by eexists _, _|].
    destruct (user32_dialog_find_item_by_handle (buddy it') (set_item i it' d)) as [j|] eqn:E'; [|by eexists _, _].
    destruct (first_item_at _ _ _ E') as (b & -> & Eb). cbn [mbind outcome_bind]. eexists _, _. split; [done|]. apply set_item_ok; [done|].
    pose proof (item_at_ok j b _ Hd' Eb) as [H1 H2 H3 H4]. by split.
  - by eexists _, _.
Qed.

(** What WM_GETTEXT writes ends with a terminator. *)
Lemma control_text_terminated hWnd wParam lParam d r out d' :
  user32_dialog_send_control_message guest_string hWnd WM_GETTEXT wParam lParam d = Ret (r, out, d') ->
  r = NOT_A_CONTROL \/ r = 0 \/ 0 ∈ out.
Proof.
  unfold user32_dialog_send_control_message. destruct (user32_dialog_find_item_by_handle hWnd d) as [i|]; [|intros [= <- _ _]; by left].
  intros E. apply bind_Ret in E as (it & _ & E). apply bind_Ret in E as ([[r' out'] it'] & Em & E). cbn in E. injection E as <- <- _.
  right. unfold item_message in Em. rewrite bool_decide_true in Em by (by left). destruct (_ || _) in Em; injection Em as <- <- _; [by left|right].
  apply elem_of_app. right. by left.
Qed.

Lemma find_item_ok dialog id create d : dialogs_ok d ->
  dialogs_ok (user32_dialog_find_item dialog id create d).2 /\
  forall i, (user32_dialog_find_item dialog id create d).1 = Some i ->
    exists it, item_at i (user32_dialog_find_item dialog id create d).2 = Ret it /\ item_fit it.
Proof.
  intros Hd. unfold user32_dialog_find_item. destruct (lookup_item dialog id d) as [i|] eqn:E; cbn [fst snd].
  { split; [done|]. intros j [= <-]. destruct (first_item_at _ _ _ E) as (it & E1 & E2). exists it. split; [done|by apply (item_at_ok i it d)]. }
  destruct create; cbn [negb]; [|done]. destruct (first_item _ 0 (g_dialog_items d)) as [i|] eqn:E1; cbn [fst snd]; [|done].
  assert (Hf : item_fit (fresh_item dialog (g_next_dialog_item_handle d) id)) by (split; simpl; (done || lia)).
  split; [destruct Hd as [Hl Hd]; split; [by rewrite <- Hl; apply length_insert|by apply Forall_insert]|].
  intros j [= <-]. exists (fresh_item dialog (g_next_dialog_item_handle d) id). split; [|done].
  destruct (first_item_at _ _ _ E1) as (it & _ & Ei). unfold item_at. cbn [g_dialog_items].
  by rewrite list_lookup_insert_eq by (by eapply lookup_lt_Some).
Qed.

(** An entry stays an entry. *)
Lemma item_in i d : dialogs_ok d -> (i < 64)%nat -> exists it, item_at i d = Ret it /\ item_fit it.
Proof.
  intros Hd Hi. destruct (lookup_lt_is_Some_2 (g_dialog_items d) i) as [it E]; [by rewrite (proj1 Hd)|].
  exists it. unfold item_at. rewrite E. split; [done|by apply (item_at_ok i it d)].
Qed.
Lemma find_item_lt dialog id create d i : dialogs_ok d -> (user32_dialog_find_item dialog id create d).1 = Some i -> (i < 64)%nat.
Proof.
  intros Hd E. destruct (find_item_ok dialog id create d Hd) as [[Hl _] Hi]. destruct (Hi i E) as (it & E' & _).
  unfold item_at in E'. destruct (g_dialog_items _ !! i) eqn:El; [|done]. apply lookup_lt_Some in El. lia.
Qed.

Lemma get_item_handle_ok dlg id d : dialogs_ok d -> exists r d', user32_dialog_get_item_handle dlg id d = Ret (r, d') /\ dialogs_ok d'.
Proof.
  intros Hd. unfold user32_dialog_get_item_handle. destruct (find_item_ok dlg (u32 id) true d Hd) as [Hd' Hi].
  destruct (user32_dialog_find_item _ _ _ _) as [[i|] d']; cbn [fst snd] in *; [|by eexists _, _].
  destruct (Hi i eq_refl) as (it & -> & _). by eexists _, _.
Qed.
Lemma set_item_text_ok dlg id t d : dialogs_ok d -> exists r d', user32_dialog_set_item_text dlg id t d = Ret (r, d') /\ dialogs_ok d'.
Proof.
  intros Hd. unfold user32_dialog_set_item_text. destruct (find_item_ok dlg (u32 id) true d Hd) as [Hd' Hi].
  destruct (user32_dialog_find_item _ _ _ _) as [[i|] d']; cbn [fst snd] in *; [|by eexists _, _].
  destruct (Hi i eq_refl) as (it & -> & [H1 H2 H3 H4]). eexists _, _. split; [done|]. apply set_item_ok; [done|by split].
Qed.
Lemma check_button_ok dlg id v d : dialogs_ok d -> exists r d', CheckDlgButton dlg id v d = Ret (r, d') /\ dialogs_ok d'.
Proof.
  intros Hd. unfold CheckDlgButton. destruct (find_item_ok dlg (u32 id) true d Hd) as [Hd' Hi].
  destruct (user32_dialog_find_item _ _ _ _) as [[i|] d']; cbn [fst snd] in *; [|by eexists _, _].
  destruct (Hi i eq_refl) as (it & -> & [H1 H2 H3 H4]). eexists _, _. split; [done|]. apply set_item_ok; [done|by split].
Qed.
Lemma button_checked_ok dlg id d : dialogs_ok d -> exists r, IsDlgButtonChecked dlg id d = Ret r.
Proof.
  intros Hd. unfold IsDlgButtonChecked. destruct (find_item_ok dlg (u32 id) false d Hd) as [_ Hi].
  unfold user32_dialog_find_item in *. destruct (lookup_item dlg (u32 id) d) as [i|]; cbn [fst snd negb] in *; [|by eexists].
  destruct (Hi i eq_refl) as (it & -> & _). by eexists.
Qed.
Lemma dialog_long_ok hwnd index d : exists r, user32_dialog_get_window_long_ptr hwnd index d = Ret r.
Proof.
  unfold user32_dialog_get_window_long_ptr. destruct (user32_dialog_find_item_by_handle hwnd d) as [i|] eqn:E; [|by eexists].
  destruct (first_item_at _ _ _ E) as (it & -> & _). by eexists.
Qed.
Lemma no_dialogs_ok : dialogs_ok no_dialogs.
Proof. split; [done|]. apply Forall_replicate. by split. Qed.
End fits.

(** *** The selection *)

Lemma spec_add_selection s c k x : c_sel c = Some k -> c_items c !! k = Some x ->
  exists k', c_sel (spec_add s c).2 = Some k' /\ c_items (spec_add s c).2 !! k' = Some x.
Proof.
  intros Ek Ex. unfold spec_add. destruct (32 <=? c_size c); [by exists k|]. rewrite Ek. exists k. split; [done|]. by apply lookup_app_l_Some.
Qed.
Lemma spec_insert_selection idx s c k x : 0 <= idx -> c_sel c = Some k -> c_items c !! k = Some x ->
  exists k', c_sel (spec_insert idx s c).2 = Some k' /\ c_items (spec_insert idx s c).2 !! k' = Some x.
Proof.
  intros Hi Ek Ex. unfold spec_insert. destruct (32 <=? c_size c); [by exists k|]. destruct (c_size c <=? idx) eqn:E; [by apply (spec_add_selection s c k x)|].
  rewrite Ek. eexists. split; [done|]. cbn [snd c_with c_items]. rewrite lookup_insert_at by (unfold c_size in E; lia).
  destruct (Nat.leb_spec (Z.to_nat idx) k); repeat destruct (decide _); try lia; [|done]. by rewrite Nat.sub_succ, Nat.sub_0_r.
Qed.
Lemma spec_delete_selection idx c k x : 0 <= idx -> c_sel c = Some k -> c_items c !! k = Some x -> idx <> Z.of_nat k ->
  exists k', c_sel (spec_delete idx c).2 = Some k' /\ c_items (spec_delete idx c).2 !! k' = Some x.
Proof.
  intros Hi Ek Ex Hne. unfold spec_delete. destruct (c_size c <=? idx); [by exists k|]. cbn [snd c_with c_sel c_items]. rewrite Ek.
  cbn [mbind option_bind]. rewrite decide_False by lia. eexists. split; [done|]. destruct (Nat.ltb_spec (Z.to_nat idx) k).
  - rewrite list_lookup_delete_ge by lia. by replace (S (k - 1)) with k by lia.
  - by rewrite list_lookup_delete_lt by lia.
Qed.

(** The messages that add, insert and delete strings. *)
Definition list_messages : list Z := [CB_ADDSTRING; LB_ADDSTRING; CB_INSERTSTRING; LB_INSERTSTRING; LB_DELETESTRING].

(** The selection stays with its item: whatever string is added, inserted or deleted
    around the selected one, the number of the selection is adjusted so that it still
    names the same string and the same data. *)
Theorem selection_follows_item {A : Arch} guest_string Msg wParam lParam it c k x :
  (forall a, wf_cstr (guest_string a)) -> item_rep it c -> 0 <= wParam ->
  Msg ∈ list_messages -> c_sel c = Some k -> c_items c !! k = Some x ->
  (Msg = LB_DELETESTRING -> u32 wParam <> Z.of_nat k) ->
  exists r out it' c' k', item_message guest_string Msg wParam lParam it = Ret (r, out, it') /\ item_rep it' c' /\
    cur_sel it' = Z.of_nat k' /\ c_items c' !! k' = Some x /\ items it' !! k' = Some x.1 /\ item_data it' !! k' = Some x.2.
Proof.
  intros Hg R Hw Hm Ek Ex Hdel. destruct (item_message_refines guest_string Hg Msg wParam lParam it c R Hw) as (it' & E & R' & _).
  pose proof (wrap_range 32 wParam ltac:(lia)) as Hu.
  assert (exists k', c_sel (spec_message guest_string Msg wParam lParam c).2 = Some k' /\
    c_items (spec_message guest_string Msg wParam lParam c).2 !! k' = Some x) as (k' & Ek' & Ex').
  { unfold list_messages in Hm. rewrite !elem_of_cons, elem_of_nil in Hm. destruct Hm as [->|[->|[->|[->|[->|[]]]]]].
    - by apply spec_add_selection with (k := k).
    - by apply spec_add_selection with (k := k).
    - apply spec_insert_selection with (k := k); [lia|done..].
    - apply spec_insert_selection with (k := k); [lia|done..].
    - apply spec_delete_selection with (k := k); [lia|done..|by apply Hdel]. }
  destruct (spec_message guest_string Msg wParam lParam c) as [[r out] c'] eqn:Es. cbn [fst snd] in *.
  exists r, out, it', c', k'. split_and!; [done|done| |done| |].
  - by rewrite (ir_sel _ _ R'), Ek'.
  - apply (ir_lookup it' c' k' _ R'). unfold strings. by rewrite list_lookup_fmap, Ex'.
  - apply (ir_lookup_data it' c' k' _ R'). by rewrite list_lookup_fmap, Ex'.
Qed.

(** *** Concrete dialogs *)

(** Three strings in the memory of a guest. *)
Definition demo_memory (a : Z) : cstr :=
  if a =? 1 then lit "easy" else if a =? 2 then lit "normal" else if a =? 3 then lit "hard" else [].
Lemma demo_memory_wf a : wf_cstr (demo_memory a).
Proof. unfold demo_memory. repeat case_goal; apply wf_cstrb_spec; done. Qed.

(** A combo box of dialog 5: two strings, the second is selected, one goes in front. *)
Definition combo : Z := 0x40000000.
Definition demo_calls : list dcall :=
  [DGetItem 5 100; DSend combo CB_ADDSTRING 0 1; DSend combo CB_ADDSTRING 0 3; DSend combo CB_SETCURSEL 1 0;
   DSend combo CB_INSERTSTRING 0 2; DSend combo CB_GETCURSEL 0 0; DSend combo WM_GETTEXT 16 4096; DGetLong combo GWL_ID].
Lemma dialog_controls_refine_witness :
  exists d, drun (A := arch32) demo_memory demo_calls no_dialogs
    = Ret ([(combo, []); (0, []); (1, []); (1, []); (0, []); (2, []); (4, lit "hard" ++ [0]); (100, [])], d).
Proof.
  destruct (dialog_controls_refine (A := arch32) demo_memory demo_memory_wf demo_calls) as (d & E & _).
  { unfold demo_calls. repeat constructor; done. }
  exists d. exact E.
Defined.

Definition demo_control : control := mkControl [(lit "easy", 7); (lit "hard", 8)] (Some 1%nat) [] 0 0 0 0 0.
Definition demo_item : dialog_item_state :=
  mkItem 5 combo 100 0 1 [] (lit "easy" :: lit "hard" :: replicate 30 []) (7 :: 8 :: replicate 30 0) 2 0 0 0 0.
Lemma demo_item_rep : item_rep demo_item demo_control.
Proof.
  split; try done. { by intros k [= <-]; simpl; lia. }
  repeat constructor; try (simpl; lia); apply wf_cstrb_spec; done.
Qed.
Lemma selection_follows_item_witness :
  exists r out it', item_message (A := arch32) demo_memory LB_DELETESTRING 0 0 demo_item = Ret (r, out, it') /\
    cur_sel it' = 0 /\ items it' !! 0%nat = Some (lit "hard") /\ item_data it' !! 0%nat = Some 8.
Proof.
  destruct (selection_follows_item (A := arch32) demo_memory LB_DELETESTRING 0 0 demo_item demo_control 1 (lit "hard", 8)
    demo_memory_wf demo_item_rep) as (r & out & it' & c' & k' & E & _ & Ek & _ & Ei & Ed); [lia|by do 4 right; left|done..|].
  exists r, out, it'. pose proof E as E'. vm_compute in E'. injection E' as <- <- <-. vm_compute in Ek.
  destruct k' as [|k']; [by split_and!|exfalso; lia].
Defined.

(** *** What the controls do otherwise *)

(** A string that is added while nothing is selected selects the first string, and
    shows the new one. *)
Example added_string_shown_for_another :
  (fun r => fst <$> r) (drun (A := arch32) demo_memory
    [DGetItem 5 100; DSend combo CB_ADDSTRING 0 1; DSend combo CB_SETCURSEL 0xffffffff 0; DSend combo CB_ADDSTRING 0 3;
     DSend combo CB_GETCURSEL 0 0; DSend combo WM_GETTEXT 16 4096] no_dialogs)
  = Ret [(combo, []); (0, []); (-1, []); (1, []); (0, []); (4, lit "hard" ++ [0])].
Proof. vm_compute. reflexivity. Qed.

(** CB_GETLBTEXT writes 128 bytes whatever the length of the string is that
    CB_GETLBTEXTLEN announces. *)
Example get_text_writes_128_bytes :
  (fun r => fst <$> r) (drun (A := arch32) demo_memory
    [DGetItem 5 100; DSend combo CB_ADDSTRING 0 1; DSend combo CB_GETLBTEXTLEN 0 0; DSend combo CB_GETLBTEXT 0 4096] no_dialogs)
  = Ret [(combo, []); (0, []); (4, []); (4, lit "easy" ++ replicate 124 0)].
Proof. vm_compute. reflexivity. Qed.

(** The window handle 0 is a control as long as the table has a free entry. *)
Example null_window_is_a_control :
  (fun r => fst <$> r) (dstep (A := arch32) demo_memory (DSend 0 WM_SETTEXT 0 1) no_dialogs) = Ret (1, []).
Proof. vm_compute. reflexivity. Qed.

(** An item of dialog 0 is given away a second time. *)
Example item_of_null_dialog_lost :
  (fun r => fst <$> r) (drun (A := arch32) demo_memory
    [DGetItem 0 9; DSend combo CB_ADDSTRING 0 1; DGetItem 5 100; DSend combo CB_GETCOUNT 0 0] no_dialogs)
  = Ret [(combo, []); (0, []); (combo + 1, []); (NOT_A_CONTROL, [])].
Proof. vm_compute. reflexivity. Qed.

(** Entries are never given back: 64 items is what all dialogs of a process have. *)
Example items_run_out :
  (fun r => last r.1) <$> drun (A := arch32) demo_memory ((fun i => DGetItem (Z.of_nat i) 1) <$> seq 1 65) no_dialogs = Ret (Some (0, [])).
Proof. vm_compute. reflexivity. Qed.
