(* ===== verification/Windows.v ===== *)
(** * Windows (src/msvcrt/user32_window.c, user32_window_lifecycle.c, user32_focus.c,
      user32_window_ops.c, user32_window_state.c, user32_message_dispatch.c,
      user32_input.c, user32_priv.h)

    The windows of user32: creation, destruction, focus, dispatch and properties.
    Window procedures are guest code that calls back into these functions, so every
    function is a state transformer that takes the procedures as a parameter; DialogRun runs them.

    Window entries live in a heap indexed by pointers; an access to a freed entry is a
    fault.  Handles live in the handle table, which the render backend shares; the
    backend is an interface of requests on the table and its own state. *)
From S2P Require Import Prelude Bytes CStr HandleTable ModuleList MessageQueue BackendState WndClass Resource Dialog.

Definition WM_CREATE : Z := 0x0001.
Definition WM_DESTROY : Z := 0x0002.
Definition WM_SETCURSOR : Z := 0x0020.
Definition WM_GETMINMAXINFO : Z := 0x0024.
Definition WM_NCCREATE : Z := 0x0081.
Definition WM_NCDESTROY : Z := 0x0082.
Definition WM_SYSKEYDOWN : Z := 0x0104.
Definition WM_SYSCOMMAND : Z := 0x0112.
Definition VK_F4 : Z := 0x73.
Definition SC_CLOSE : Z := 0xF060.
Definition WS_VISIBLE : Z := 0x10000000.
Definition WS_THICKFRAME : Z := 0x00040000.
Definition RB_WINDOW_RESIZABLE : Z := 2.
Definition RB_WINDOW_SHOWN : Z := 4.
Definition IDC_ARROW : Z := 32512.
Definition CW_USEDEFAULT : Z := - 2 ^ 31.

(** client_rect is never used. *)
Record wine_window_entry := mkWindow {
  sdl_window : Z; wnd_proc : Z; class_name : option cstr; title : cstr; style : Z; ex_style : Z; user_data : Z;
  hinstance : Z; parent : Z; menu : Z; class_cursor : Z; class_atom : Z; destroy_in_progress : bool }.

Record CREATESTRUCTA := mkCreate {
  lpCreateParams : Z; cs_hInstance : Z; cs_hMenu : Z; hwndParent : Z; cs_cy : Z; cs_cx : Z; cs_y : Z; cs_x : Z;
  cs_style : Z; lpszName : option cstr; lpszClass : option cstr; cs_dwExStyle : Z }.

(** An LPARAM: a number, the address of a CREATESTRUCTA with its contents, or the
    address of a string of the library. *)
Inductive lparam := LInt (z : Z) | LCreate (addr : Z) (cs : CREATESTRUCTA) | LText (addr : Z) (t : cstr).
Definition lparam_value (lp : lparam) : Z := match lp with LInt z => z | LCreate a _ | LText a _ => a end.

(** The dialogs: controls, modal dialogs, and the resources found so far. *)
Record dialog_state := mkDialogState {
  ds_controls : dialogs; g_dialog_class_registered : bool; g_dialog_modals : modals; ds_resources : gmap nat wine_resource_handle }.
Definition dialog_init : dialog_state := mkDialogState no_dialogs false no_modals ∅.

(** What the resource lookup reads of the loader, and malloc. *)
Record images := mkImages {
  im_base : Z; im_modules : ModuleList.registry; im_bytes : Z -> bytes; im_malloc : gmap nat wine_resource_handle -> option nat }.
Definition no_images : images := mkImages 0 (ModuleList.mkRegistry [] 0 ∅) (fun _ => []) (fun _ => None).

Definition set_sdl_window (w : Z) (e : wine_window_entry) : wine_window_entry :=
  mkWindow w (wnd_proc e) (class_name e) (title e) (style e) (ex_style e) (user_data e) (hinstance e) (parent e) (menu e)
    (class_cursor e) (class_atom e) (destroy_in_progress e).
Definition set_title (t : cstr) (e : wine_window_entry) : wine_window_entry :=
  mkWindow (sdl_window e) (wnd_proc e) (class_name e) t (style e) (ex_style e) (user_data e) (hinstance e) (parent e) (menu e)
    (class_cursor e) (class_atom e) (destroy_in_progress e).
Definition set_class_cursor (c : Z) (e : wine_window_entry) : wine_window_entry :=
  mkWindow (sdl_window e) (wnd_proc e) (class_name e) (title e) (style e) (ex_style e) (user_data e) (hinstance e) (parent e)
    (menu e) c (class_atom e) (destroy_in_progress e).
Definition set_destroying (e : wine_window_entry) : wine_window_entry :=
  mkWindow (sdl_window e) (wnd_proc e) (class_name e) (title e) (style e) (ex_style e) (user_data e) (hinstance e) (parent e)
    (menu e) (class_cursor e) (class_atom e) true.

(** *** The render backend *)

Inductive rb_req :=
| RbInit
| RbCreate (title : cstr) (x y w h flags : Z)
| RbDestroy (win : Z)
| RbAttach (win hwnd : Z)
| RbShow (win : Z) (show : bool)
| RbMinimize (win : Z)
| RbMaximize (win : Z)
| RbRestore (win : Z)
| RbSetPosition (win x y : Z)
| RbSetSize (win w h : Z)
| RbSetTitle (win : Z) (title : cstr)
| RbSetActive (hwnd : Z)
| RbCursorCreate (idc : Z)
| RbCursorDestroy (cur : Z)
| RbSetCursor (win cur : Z).

(** The result is the C function's: a handle, or 0 for success (RB_OK). *)
Class Backend (H : Type) := rb_call : rb_req -> table -> H -> outcome (table * H * Z).

Definition rb_type (ty : Z) : bool := (HANDLE_TYPE_RB_WINDOW <=? ty) && (ty <=? HANDLE_TYPE_RB_CURSOR).

(** The two stores have the same entries of the types that [p] selects. *)
Definition same_entries (p : Z -> bool) (s s' : store) : Prop :=
  forall k e, p (e_type e) = true -> s !! k = Some e <-> s' !! k = Some e.

(** What user32 relies on: the backend keeps its own objects consistent with the
    handles of its types, every request returns, and it leaves the handles of other
    types alone; what user32 does to the handles of other types does not disturb it. *)
Class BackendLaws (H : Type) `{Backend H} := {
  backend_ok : store -> H -> Prop;
  backend_call_ok : forall q t s h, represents t s -> backend_ok s h ->
    exists t' s' h' r, rb_call q t h = Ret (t', h', r) /\ represents t' s' /\ backend_ok s' h' /\
      same_entries (fun ty => negb (rb_type ty)) s s';
  backend_frame : forall s s' h, same_entries rb_type s s' -> backend_ok s h -> backend_ok s' h }.

(** *** State *)

Record user32 (H : Type) := mkUser32 {
  u_table : table;
  u_heap : gmap nat wine_window_entry;
  u_host : H;
  g_user32_backend_inited : bool;
  g_user32_backend_available : bool;
  g_user32_window_create_attempted : bool;
  g_user32_live_windows : Z;
  g_user32_active_window : Z;
  g_user32_focus_window : Z;
  g_user32_current_cursor : Z;
  u_classes : class_registry;
  u_dialogs : dialog_state;
  (** The entries that the C functions on the stack hold pointers to. *)
  u_held : list nat }.
Arguments mkUser32 {_} _ _ _ _ _ _ _ _ _ _ _ _ _.
Arguments u_table {_} _.
Arguments u_heap {_} _.
Arguments u_host {_} _.
Arguments g_user32_backend_inited {_} _.
Arguments g_user32_backend_available {_} _.
Arguments g_user32_window_create_attempted {_} _.
Arguments g_user32_live_windows {_} _.
Arguments g_user32_active_window {_} _.
Arguments g_user32_focus_window {_} _.
Arguments g_user32_current_cursor {_} _.
Arguments u_classes {_} _.
Arguments u_dialogs {_} _.
Arguments u_held {_} _.

Definition with_table {H} (t : table) (s : user32 H) : user32 H :=
  mkUser32 t (u_heap s) (u_host s) (g_user32_backend_inited s) (g_user32_backend_available s) (g_user32_window_create_attempted s) (g_user32_live_windows s) (g_user32_active_window s) (g_user32_focus_window s) (g_user32_current_cursor s) (u_classes s) (u_dialogs s) (u_held s).
Definition with_heap {H} (m : gmap nat wine_window_entry) (s : user32 H) : user32 H :=
  mkUser32 (u_table s) m (u_host s) (g_user32_backend_inited s) (g_user32_backend_available s) (g_user32_window_create_attempted s) (g_user32_live_windows s) (g_user32_active_window s) (g_user32_focus_window s) (g_user32_current_cursor s) (u_classes s) (u_dialogs s) (u_held s).
Definition with_backend {H} (t : table) (h : H) (s : user32 H) : user32 H :=
  mkUser32 t (u_heap s) h (g_user32_backend_inited s) (g_user32_backend_available s) (g_user32_window_create_attempted s) (g_user32_live_windows s) (g_user32_active_window s) (g_user32_focus_window s) (g_user32_current_cursor s) (u_classes s) (u_dialogs s) (u_held s).
Definition with_available {H} (b : bool) (s : user32 H) : user32 H :=
  mkUser32 (u_table s) (u_heap s) (u_host s) true b (g_user32_window_create_attempted s) (g_user32_live_windows s) (g_user32_active_window s) (g_user32_focus_window s) (g_user32_current_cursor s) (u_classes s) (u_dialogs s) (u_held s).
Definition with_attempted {H}  (s : user32 H) : user32 H :=
  mkUser32 (u_table s) (u_heap s) (u_host s) (g_user32_backend_inited s) (g_user32_backend_available s) true (g_user32_live_windows s) (g_user32_active_window s) (g_user32_focus_window s) (g_user32_current_cursor s) (u_classes s) (u_dialogs s) (u_held s).
Definition with_live {H} (n : Z) (s : user32 H) : user32 H :=
  mkUser32 (u_table s) (u_heap s) (u_host s) (g_user32_backend_inited s) (g_user32_backend_available s) (g_user32_window_create_attempted s) n (g_user32_active_window s) (g_user32_focus_window s) (g_user32_current_cursor s) (u_classes s) (u_dialogs s) (u_held s).
Definition with_active {H} (h : Z) (s : user32 H) : user32 H :=
  mkUser32 (u_table s) (u_heap s) (u_host s) (g_user32_backend_inited s) (g_user32_backend_available s) (g_user32_window_create_attempted s) (g_user32_live_windows s) h (g_user32_focus_window s) (g_user32_current_cursor s) (u_classes s) (u_dialogs s) (u_held s).
Definition with_focus {H} (h : Z) (s : user32 H) : user32 H :=
  mkUser32 (u_table s) (u_heap s) (u_host s) (g_user32_backend_inited s) (g_user32_backend_available s) (g_user32_window_create_attempted s) (g_user32_live_windows s) (g_user32_active_window s) h (g_user32_current_cursor s) (u_classes s) (u_dialogs s) (u_held s).
Definition with_cursor {H} (c : Z) (s : user32 H) : user32 H :=
  mkUser32 (u_table s) (u_heap s) (u_host s) (g_user32_backend_inited s) (g_user32_backend_available s) (g_user32_window_create_attempted s) (g_user32_live_windows s) (g_user32_active_window s) (g_user32_focus_window s) c (u_classes s) (u_dialogs s) (u_held s).
Definition with_classes {H} (r : class_registry) (s : user32 H) : user32 H :=
  mkUser32 (u_table s) (u_heap s) (u_host s) (g_user32_backend_inited s) (g_user32_backend_available s) (g_user32_window_create_attempted s) (g_user32_live_windows s) (g_user32_active_window s) (g_user32_focus_window s) (g_user32_current_cursor s) r (u_dialogs s) (u_held s).
Definition with_dialogs {H} (d : dialog_state) (s : user32 H) : user32 H :=
  mkUser32 (u_table s) (u_heap s) (u_host s) (g_user32_backend_inited s) (g_user32_backend_available s) (g_user32_window_create_attempted s) (g_user32_live_windows s) (g_user32_active_window s) (g_user32_focus_window s) (g_user32_current_cursor s) (u_classes s) d (u_held s).
Definition with_held {H} (l : list nat) (s : user32 H) : user32 H :=
  mkUser32 (u_table s) (u_heap s) (u_host s) (g_user32_backend_inited s) (g_user32_backend_available s) (g_user32_window_create_attempted s) (g_user32_live_windows s) (g_user32_active_window s) (g_user32_focus_window s) (g_user32_current_cursor s) (u_classes s) (u_dialogs s) l.

(** *** Programs over the state *)

Abbreviation M H X := (user32 H -> outcome (X * user32 H)).
Definition retM {H X} (x : X) : M H X := fun s => Ret (x, s).
Definition bindM {H X Y} (m : M H X) (f : X -> M H Y) : M H Y := fun s => '(x, s) ← m s; f x s.
Definition getM {H X} (f : user32 H -> X) : M H X := fun s => Ret (f s, s).
Definition modM {H} (f : user32 H -> user32 H) : M H unit := fun s => Ret (tt, f s).
(** A call that reads the handle table. *)
Definition tableM {H X} (f : table -> outcome X) : M H X := fun s => x ← f (u_table s); Ret (x, s).

Declare Scope user32_scope.
Delimit Scope user32_scope with user32.
Notation "x <~ m ;; k" := (bindM m (fun x => k)) (at level 100, m at next level, right associativity) : user32_scope.
Notation "m ;; k" := (bindM m (fun _ => k)) (at level 100, right associativity) : user32_scope.
Open Scope user32_scope.

Section code.
Context {A : Arch} {H : Type} `{Backend H}.
(** The C code is [strict = false].  With [strict = true] the run stops ([Fail]) when
    a window is freed while a C function on the stack still holds its entry. *)
Variable strict : bool.
Variable malloc : gmap nat wine_window_entry -> option nat.
Variable user32_alloc : Z -> bool.
(** The guest's memory: the string at an address. *)
Variable guest_string : Z -> cstr.
(** Where the compiler puts the CREATESTRUCTA of CreateWindowExA. *)
Variable create_struct_addr : Z.
(** The addresses of a local buffer, of a string constant and of DefWindowProcA. *)
Variable local_buffer def_window_proc : Z.
Variable im : images.
(** Running a window procedure on hwnd, msg, wParam and lParam. *)
Variable call_proc : Z -> Z -> Z -> Z -> lparam -> M H Z.

Definition entry (p : nat) : M H wine_window_entry := fun s => e ← deref (u_heap s !! p); Ret (e, s).
Definition update (p : nat) (f : wine_window_entry -> wine_window_entry) : M H unit :=
  fun s => e ← deref (u_heap s !! p); Ret (tt, with_heap (<[p := f e]> (u_heap s)) s).
(** Run [m] while the calling C function holds pointers to the entries [l]. *)
Definition hold {X} (l : list nat) (m : M H X) : M H X :=
  fun s => '(x, s') ← m (with_held (l ++ u_held s) s); Ret (x, with_held (drop (length l) (u_held s')) s').
Definition rb (q : rb_req) : M H Z :=
  fun s => '(t, h, r) ← rb_call q (u_table s) (u_host s); Ret (r, with_backend t h s).

(** A call on the controls, and one on the modal dialogs. *)
Definition controls {X} (f : dialogs -> outcome (X * dialogs)) : M H X := fun s =>
  let d := u_dialogs s in
  '(x, c) ← f (ds_controls d);
  Ret (x, with_dialogs (mkDialogState c (g_dialog_class_registered d) (g_dialog_modals d) (ds_resources d)) s).
Definition modalM {X} (f : modals -> X * modals) : M H X := fun s =>
  let d := u_dialogs s in
  let '(x, m) := f (g_dialog_modals d) in
  Ret (x, with_dialogs (mkDialogState (ds_controls d) (g_dialog_class_registered d) m (ds_resources d)) s).
(** The string at an LPARAM. *)
Definition lparam_string (lp : lparam) : Z -> cstr := match lp with LText _ t => fun _ => t | _ => guest_string end.

(** *** user32_priv.h *)

Definition get_window_entry (hwnd : Z) : M H (option nat) :=
  obj <~ tableM (wine_handle_get (u32 hwnd));;
  ty <~ tableM (wine_handle_get_type (u32 hwnd));;
  if bool_decide (obj = ONull) || negb (ty =? HANDLE_TYPE_HWIN) then retM None
  else match obj with OWindow p => retM (Some p) | _ => fun _ => Fault end.

Definition is_window (hwnd : Z) : M H bool := x <~ get_window_entry hwnd;; retM (bool_decide (is_Some x)).
Definition user32_get_active_window : M H Z :=
  h <~ getM g_user32_active_window;; w <~ is_window h;; retM (if (w : bool) then h else 0).
Definition user32_set_active_window (hwnd : Z) : M H unit :=
  w <~ is_window hwnd;; modM (with_active (if (w : bool) then hwnd else 0)).
Definition user32_get_focus_window : M H Z :=
  h <~ getM g_user32_focus_window;; w <~ is_window h;; retM (if (w : bool) then h else 0).
Definition user32_set_focus_window (hwnd : Z) : M H unit :=
  w <~ is_window hwnd;; modM (with_focus (if (w : bool) then hwnd else 0)).
Definition user32_call_wndproc (proc hwnd msg wParam : Z) (lp : lparam) : M H Z :=
  if proc =? 0 then retM 0 else call_proc proc hwnd msg wParam lp.

(** *** user32_focus.c *)

(** The loop over the handles from [handle], with [todo] left. *)
Fixpoint replacement_loop (todo : nat) (handle exclude : Z) : M H Z :=
  match todo with
  | O => retM 0
  | S todo =>
      if handle =? exclude then replacement_loop todo (handle + 1) exclude
      else
        ty <~ tableM (wine_handle_get_type handle);;
        obj <~ tableM (wine_handle_get handle);;
        if (ty =? HANDLE_TYPE_HWIN) && negb (bool_decide (obj = ONull)) then retM handle
        else replacement_loop todo (handle + 1) exclude
  end.
Definition user32_find_replacement_window (exclude : Z) : M H Z :=
  replacement_loop (Z.to_nat HANDLE_TABLE_SIZE - 1) 1 exclude.

(** WM_ACTIVATE and WM_KILLFOCUS or WM_SETFOCUS to one window. *)
Definition notify_focus (e : option nat) (hwnd wactivate msg other : Z) : M H unit :=
  match e with
  | None => retM tt
  | Some p =>
      x <~ entry p;;
      if wnd_proc x =? 0 then retM tt
      else
        user32_call_wndproc (wnd_proc x) hwnd WM_ACTIVATE wactivate (LInt other);;
        x <~ entry p;;
        user32_call_wndproc (wnd_proc x) hwnd msg other (LInt 0);;
        retM tt
  end.

Definition user32_send_focus_transition (previous target : Z) : M H unit :=
  prev_entry <~ get_window_entry previous;;
  target_entry <~ get_window_entry target;;
  if previous =? target then retM tt
  else
    hold (option_list prev_entry ++ option_list target_entry)
      (notify_focus prev_entry previous WA_INACTIVE WM_KILLFOCUS target;;
       notify_focus target_entry target WA_ACTIVE WM_SETFOCUS previous).

Definition user32_set_foreground_focus (target : Z) (send_messages : bool) : M H unit :=
  previous_focus <~ user32_get_focus_window;;
  previous_active <~ user32_get_active_window;;
  user32_set_focus_window target;;
  user32_set_active_window target;;
  rb (RbSetActive target);;
  if send_messages
  then user32_send_focus_transition (if negb (previous_focus =? 0) then previous_focus else previous_active) target
  else retM tt.

Definition user32_activate_window_direct (hwnd : Z) : M H unit :=
  w <~ is_window hwnd;; if negb (w : bool) then retM tt else user32_set_foreground_focus hwnd true.

Definition user32_update_window_ownership_after_destroy (destroyed_hwnd : Z) : M H unit :=
  replacement <~ user32_find_replacement_window destroyed_hwnd;;
  active <~ getM g_user32_active_window;;
  (if active =? destroyed_hwnd then modM (with_active replacement) else retM tt);;
  focus <~ getM g_user32_focus_window;;
  (if focus =? destroyed_hwnd then modM (with_focus replacement) else retM tt);;
  a <~ user32_get_active_window;;
  rb (RbSetActive a);;
  retM tt.

Definition GetActiveWindow : M H Z := user32_get_active_window.
Definition GetFocus : M H Z := user32_get_focus_window.
Definition SetFocus (hwnd : Z) : M H Z :=
  prev <~ user32_get_focus_window;;
  w <~ is_window hwnd;;
  user32_set_foreground_focus (if (w : bool) then hwnd else 0) true;;
  retM prev.

(** *** user32_input.c: cursors *)

Definition LoadCursorA (lpCursorName : Z) : M H Z :=
  if lpCursorName =? 0 then retM 0
  else
    cur <~ rb (RbCursorCreate (i32 lpCursorName));;
    if cur =? 0 then retM 0
    else
      handle <~ (fun s => '(t, h) ← wine_handle_alloc HANDLE_TYPE_HCURSOR (OHandle cur) (u_table s); Ret (h, with_table t s));;
      if handle =? 0 then rb (RbCursorDestroy cur);; retM 0 else retM handle.

(** The rb_cursor_t stored as the object of a cursor handle. *)
Definition object_handle (o : object) : Z := match o with OHandle h => h | _ => 0 end.

Definition SetCursor (hCursor : Z) : M H Z :=
  previous <~ getM g_user32_current_cursor;;
  ty <~ tableM (wine_handle_get_type (u32 hCursor));;
  obj <~ tableM (wine_handle_get (u32 hCursor));;
  if negb (hCursor =? 0) && negb (ty =? HANDLE_TYPE_HCURSOR) then retM 0
  else
    let cur := if hCursor =? 0 then 0 else object_handle obj in
    hwnd <~ user32_get_active_window;;
    e <~ get_window_entry hwnd;;
    (match e with
     | None => retM tt
     | Some p =>
         x <~ entry p;;
         if negb (sdl_window x =? 0) && negb (cur =? 0) then rb (RbSetCursor (sdl_window x) cur);; retM tt else retM tt
     end);;
    modM (with_cursor hCursor);;
    retM previous.

(** *** user32_window_lifecycle.c *)

Definition user32_heap_free (p : nat) : M H unit := fun s =>
  if strict && bool_decide (p ∈ u_held s) then Fail
  else _ ← deref (u_heap s !! p); Ret (tt, with_heap (delete p (u_heap s)) s).

Definition user32_ensure_backend : M H bool :=
  inited <~ getM g_user32_backend_inited;;
  (if (inited : bool) then retM tt else r <~ rb RbInit;; modM (with_available (r =? 0)));;
  getM g_user32_backend_available.

Definition user32_init_window_entry (wc : WNDCLASSA) (atom dwExStyle dwStyle hWndParent hMenu hInstance : Z)
    (lpWindowName : option cstr) : wine_window_entry :=
  mkWindow 0 (lpfnWndProc wc) (lpszClassName wc) (user32_strncpy 127 lpWindowName) dwStyle dwExStyle 0 hInstance hWndParent hMenu
    (hCursor wc) atom false.

Definition has_flag (flags bit : Z) : bool := negb (Z.land flags bit =? 0).

Definition user32_create_backend_window (e : wine_window_entry) (dwStyle x y nWidth nHeight : Z) : M H Z :=
  rb (RbCreate (title e) x y nWidth nHeight
        (Z.lor (if has_flag dwStyle WS_VISIBLE then RB_WINDOW_SHOWN else 0)
               (if has_flag dwStyle WS_THICKFRAME then RB_WINDOW_RESIZABLE else 0))).

Definition user32_fill_create_struct (lpParam hInstance hMenu hWndParent px py pw ph dwStyle dwExStyle : Z)
    (lpWindowName lpClassName : option cstr) : CREATESTRUCTA :=
  mkCreate lpParam hInstance hMenu hWndParent ph pw py px (i32 dwStyle) lpWindowName lpClassName dwExStyle.

Definition decrement_live : M H unit :=
  modM (fun s => with_live (if 0 <? g_user32_live_windows s then g_user32_live_windows s - 1 else g_user32_live_windows s) s).
Definition free_handle (h : Z) : M H unit := fun s => t ← wine_handle_free (u32 h) (u_table s); Ret (tt, with_table t s).

Definition user32_cleanup_failed_create (p : nat) (rb_win handle : Z) (decrement_live_windows : bool) : M H unit :=
  (if decrement_live_windows then decrement_live else retM tt);;
  (if negb (rb_win =? 0) then rb (RbDestroy rb_win);; retM tt else retM tt);;
  (if negb (handle =? 0) then free_handle handle else retM tt);;
  user32_heap_free p.

(** The handle; [None] when the creation failed. *)
Definition user32_finish_window_create (p : nat) (cs : CREATESTRUCTA) (dwStyle px py pw ph : Z) : M H (option Z) :=
  e <~ entry p;;
  rb_win <~ user32_create_backend_window e dwStyle px py pw ph;;
  if rb_win =? 0 then user32_cleanup_failed_create p 0 0 false;; retM None
  else
    update p (set_sdl_window rb_win);;
    handle <~ (fun s => '(t, h) ← wine_handle_alloc HANDLE_TYPE_HWIN (OWindow p) (u_table s); Ret (h, with_table t s));;
    if handle =? 0 then user32_cleanup_failed_create p rb_win 0 false;; retM None
    else
      modM (fun s => with_live (g_user32_live_windows s + 1) s);;
      attached <~ rb (RbAttach rb_win handle);;
      if negb (attached =? 0) then user32_cleanup_failed_create p rb_win handle true;; retM None
      else
        ok <~ hold [p]
          (e <~ entry p;;
           create_result <~ (if wnd_proc e =? 0 then retM 1
                             else user32_call_wndproc (wnd_proc e) handle WM_NCCREATE 0 (LCreate create_struct_addr cs));;
           if create_result =? 0 then retM false
           else
             e <~ entry p;;
             create_result <~ (if wnd_proc e =? 0 then retM 0
                               else user32_call_wndproc (wnd_proc e) handle WM_CREATE 0 (LCreate create_struct_addr cs));;
             retM (negb (create_result =? -1)));;
        if negb (ok : bool) then user32_cleanup_failed_create p rb_win handle true;; retM None
        else retM (Some handle).

Definition user32_finish_window_destroy (hwnd : Z) (e : option nat) : M H bool :=
  match e with
  | None => retM false
  | Some p =>
      x <~ entry p;;
      if destroy_in_progress x then retM true
      else
        update p set_destroying;;
        hold [p]
          (x <~ entry p;;
           if wnd_proc x =? 0 then retM tt
           else
             user32_call_wndproc (wnd_proc x) hwnd WM_DESTROY 0 (LInt 0);;
             x <~ entry p;;
             user32_call_wndproc (wnd_proc x) hwnd WM_NCDESTROY 0 (LInt 0);;
             retM tt);;
        x <~ entry p;;
        rb (RbDestroy (sdl_window x));;
        free_handle hwnd;;
        user32_heap_free p;;
        decrement_live;;
        user32_update_window_ownership_after_destroy hwnd;;
        retM true
  end.

(** *** user32_window.c *)

Definition user32_heap_alloc (e : wine_window_entry) : M H (option nat) := fun s =>
  match malloc (u_heap s) with
  | None => Ret (None, s)
  | Some p => Ret (Some p, with_heap (<[p := e]> (u_heap s)) s)
  end.

Definition CreateWindowExA (dwExStyle : Z) (lpClassName lpWindowName : option cstr) (dwStyle x y nWidth nHeight : Z)
    (hWndParent hMenu hInstance lpParam : Z) : M H Z :=
  modM with_attempted;;
  available <~ user32_ensure_backend;;
  if negb (available : bool) then retM 0
  else
    c <~ (fun s => c ← user32_find_registered_class lpClassName (u_classes s); Ret (c, s));;
    match (c : option (WNDCLASSA * Z)) with
    | None => retM 0
    | Some (wc, atom) =>
        a <~ user32_heap_alloc (user32_init_window_entry wc atom dwExStyle dwStyle hWndParent hMenu hInstance lpWindowName);;
        match (a : option nat) with
        | None => retM 0
        | Some p =>
            e <~ entry p;;
            (if class_cursor e =? 0 then cur <~ LoadCursorA IDC_ARROW;; update p (set_class_cursor cur) else retM tt);;
            let px := if x =? CW_USEDEFAULT then -1 else x in
            let py := if y =? CW_USEDEFAULT then -1 else y in
            let pw := if nWidth =? CW_USEDEFAULT then 640 else nWidth in
            let ph := if nHeight =? CW_USEDEFAULT then 480 else nHeight in
            let cs := user32_fill_create_struct lpParam hInstance hMenu hWndParent px py pw ph dwStyle dwExStyle
                        lpWindowName (lpszClassName wc) in
            r <~ user32_finish_window_create p cs dwStyle px py pw ph;;
            match (r : option Z) with
            | None => retM 0
            | Some handle => user32_set_foreground_focus handle true;; retM handle
            end
        end
    end.

Definition DestroyWindow (hwnd : Z) : M H bool :=
  e <~ get_window_entry hwnd;; user32_finish_window_destroy hwnd e.

(** *** user32_window_ops.c *)

Definition SW_HIDE : Z := 0.
Definition SW_SHOWMINIMIZED : Z := 2.
Definition SW_SHOWMAXIMIZED : Z := 3.
Definition SW_MINIMIZE : Z := 6.
Definition SW_RESTORE : Z := 9.

(** An operation on the backend window of [hwnd]; FALSE when there is no window. *)
Definition with_window (hwnd : Z) (f : nat -> wine_window_entry -> M H unit) : M H bool :=
  e <~ get_window_entry hwnd;;
  match e with
  | None => retM false
  | Some p => x <~ entry p;; f p x;; retM true
  end.

Definition ShowWindow (hwnd nCmdShow : Z) : M H bool :=
  with_window hwnd (fun _ x =>
    if nCmdShow =? SW_HIDE then rb (RbShow (sdl_window x) false);; retM tt
    else if nCmdShow =? SW_RESTORE then rb (RbRestore (sdl_window x));; user32_set_foreground_focus hwnd true
    else if (nCmdShow =? SW_SHOWMINIMIZED) || (nCmdShow =? SW_MINIMIZE) then rb (RbMinimize (sdl_window x));; retM tt
    else if nCmdShow =? SW_SHOWMAXIMIZED then rb (RbMaximize (sdl_window x));; user32_set_foreground_focus hwnd true
    else rb (RbShow (sdl_window x) true);; user32_set_foreground_focus hwnd true).

Definition SWP_NOSIZE : Z := 0x0001.
Definition SWP_NOMOVE : Z := 0x0002.
Definition SWP_NOACTIVATE : Z := 0x0010.
Definition SWP_SHOWWINDOW : Z := 0x0040.
Definition SWP_HIDEWINDOW : Z := 0x0080.

Definition when (b : bool) (m : M H unit) : M H unit := if b then m else retM tt.

Definition SetWindowPos (hwnd x y cx cy uFlags : Z) : M H bool :=
  with_window hwnd (fun _ e =>
    when (negb (has_flag uFlags SWP_NOMOVE)) (rb (RbSetPosition (sdl_window e) x y);; retM tt);;
    when (negb (has_flag uFlags SWP_NOSIZE)) (rb (RbSetSize (sdl_window e) cx cy);; retM tt);;
    when (has_flag uFlags SWP_HIDEWINDOW) (rb (RbShow (sdl_window e) false);; retM tt);;
    when (has_flag uFlags SWP_SHOWWINDOW) (rb (RbShow (sdl_window e) true);; retM tt);;
    when (negb (has_flag uFlags SWP_NOACTIVATE) && negb (has_flag uFlags SWP_HIDEWINDOW)) (user32_set_foreground_focus hwnd true)).

Definition MoveWindow (hwnd x y nWidth nHeight : Z) : M H bool :=
  with_window hwnd (fun _ e =>
    rb (RbSetPosition (sdl_window e) x y);; rb (RbSetSize (sdl_window e) nWidth nHeight);; retM tt).

Definition SetWindowTextA (hwnd : Z) (lpString : option cstr) : M H bool :=
  with_window hwnd (fun p _ =>
    update p (set_title (user32_strncpy 127 lpString));;
    e <~ entry p;; rb (RbSetTitle (sdl_window e) (title e));; retM tt).

Definition IsWindow (hwnd : Z) : M H bool :=
  if hwnd =? 0 then retM false else ty <~ tableM (wine_handle_get_type (u32 hwnd));; retM (ty =? HANDLE_TYPE_HWIN).

(** *** user32_window_state.c *)

Definition GWL_WNDPROC : Z := -4.
Definition GWL_HINSTANCE : Z := -6.
Definition GWL_STYLE : Z := -16.
Definition GWL_EXSTYLE : Z := -20.
Definition GWL_USERDATA : Z := -21.

(** Conversion to LONG_PTR. *)
Definition long_ptr (z : Z) : Z := swrap ptr_bits z.

Definition user32_get_window_long_ptr (e : wine_window_entry) (nIndex : Z) : Z :=
  if nIndex =? GWL_WNDPROC then long_ptr (wnd_proc e)
  else if nIndex =? GWL_STYLE then long_ptr (style e)
  else if nIndex =? GWL_EXSTYLE then long_ptr (ex_style e)
  else if nIndex =? GWL_HINSTANCE then long_ptr (hinstance e)
  else if nIndex =? GWL_HWNDPARENT then long_ptr (parent e)
  else if nIndex =? GWL_USERDATA then long_ptr (user_data e)
  else if nIndex =? GWL_ID then long_ptr (menu e)
  else 0.

(** The entry after the assignment. *)
Definition set_window_long (e : wine_window_entry) (nIndex v : Z) : wine_window_entry :=
  let at_index k new old := if nIndex =? k then new else old in
  mkWindow (sdl_window e) (at_index GWL_WNDPROC (usize v) (wnd_proc e)) (class_name e) (title e)
    (at_index GWL_STYLE (u32 v) (style e)) (at_index GWL_EXSTYLE (u32 v) (ex_style e))
    (at_index GWL_USERDATA (usize v) (user_data e)) (at_index GWL_HINSTANCE (usize v) (hinstance e))
    (at_index GWL_HWNDPARENT (usize v) (parent e)) (at_index GWL_ID (usize v) (menu e))
    (class_cursor e) (class_atom e) (destroy_in_progress e).
Definition user32_set_window_long_ptr (p : nat) (nIndex v : Z) : M H Z :=
  e <~ entry p;; update p (fun e => set_window_long e nIndex v);; retM (user32_get_window_long_ptr e nIndex).

Definition GetWindowLongPtrA (hwnd nIndex : Z) : M H Z :=
  e <~ get_window_entry hwnd;;
  match e with
  | None => controls (fun d => r ← user32_dialog_get_window_long_ptr hwnd nIndex d; Ret (r, d))
  | Some p => x <~ entry p;; retM (user32_get_window_long_ptr x nIndex)
  end.
Definition GetWindowLongA (hwnd nIndex : Z) : M H Z := v <~ GetWindowLongPtrA hwnd nIndex;; retM (i32 v).
Definition SetWindowLongPtrA (hwnd nIndex v : Z) : M H Z :=
  e <~ get_window_entry hwnd;;
  match e with None => retM 0 | Some p => user32_set_window_long_ptr p nIndex v end.
Definition SetWindowLongA (hwnd nIndex v : Z) : M H Z := r <~ SetWindowLongPtrA hwnd nIndex v;; retM (i32 r).

(** *** user32_message_dispatch.c *)

Definition user32_apply_class_cursor (hwnd : Z) : M H Z :=
  e <~ get_window_entry hwnd;;
  match e with
  | None => retM 0
  | Some p => x <~ entry p;; if negb (class_cursor x =? 0) then SetCursor (class_cursor x);; retM 1 else retM 0
  end.

Definition alt_context : Z := 2 ^ 29.
(** The close command: the tail of DefWindowProcA. *)
Definition default_close (hwnd msg wParam : Z) : M H Z :=
  if (msg =? WM_CLOSE) || ((msg =? WM_SYSCOMMAND) && (Z.land wParam 0xFFF0 =? SC_CLOSE))
  then DestroyWindow hwnd;; retM 0 else retM 0.
Definition DefWindowProcA (hwnd msg wParam : Z) (lp : lparam) : M H Z :=
  if msg =? WM_NCCREATE then retM 1
  else if msg =? WM_SETCURSOR then user32_apply_class_cursor hwnd
  else if (msg =? WM_SYSKEYDOWN) && (wParam =? VK_F4) && has_flag (lparam_value lp) alt_context
  then default_close hwnd WM_SYSCOMMAND SC_CLOSE
  else default_close hwnd msg wParam.

(** The result, and the bytes written to the buffer at lParam; the MINMAXINFO that
    WM_GETMINMAXINFO fills in the guest's memory is not represented. *)
Definition SendMessageA (hwnd msg wParam : Z) (lp : lparam) : M H (Z * bytes) :=
  e <~ get_window_entry hwnd;;
  dialog_result <~ controls (user32_dialog_send_control_message (lparam_string lp) hwnd msg wParam (lparam_value lp));;
  if negb (dialog_result.1 =? NOT_A_CONTROL) then retM dialog_result
  else if msg =? WM_GETTEXT then
    match e with
    | None => retM (0, [])
    | Some p =>
        if (i32 wParam <=? 0) || (lparam_value lp =? 0) then retM (0, [])
        else x <~ entry p;; let buf := user32_strncpy (Z.to_nat (i32 wParam) - 1) (Some (title x)) in
             retM (blen buf, buf ++ replicate (Z.to_nat (i32 wParam) - length buf) 0)
    end
  else if msg =? WM_SETTEXT then
    match e with
    | None => retM (0, [])
    | Some p =>
        update p (set_title (user32_strncpy 127 (string_arg (lparam_string lp) (lparam_value lp))));;
        x <~ entry p;; rb (RbSetTitle (sdl_window x) (title x));; retM (1, [])
    end
  else if msg =? WM_GETMINMAXINFO then retM (0, [])
  else
    match e with
    | None => r <~ DefWindowProcA hwnd msg wParam lp;; retM (r, [])
    | Some p =>
        x <~ entry p;;
        r <~ (if negb (wnd_proc x =? 0) then user32_call_wndproc (wnd_proc x) hwnd msg wParam lp
              else DefWindowProcA hwnd msg wParam lp);;
        retM (r, [])
    end.

Definition mouse_messages : list Z :=
  [0x0200; 0x0201; 0x0202; 0x0203; 0x0204; 0x0205; 0x0206; 0x0207; 0x0208; 0x0209; 0x020A].

Definition DispatchMessageA (hwnd msg wParam : Z) (lp : lparam) : M H Z :=
  (if bool_decide (msg ∈ mouse_messages) then SendMessageA hwnd WM_SETCURSOR hwnd (LInt 0);; retM tt else retM tt);;
  e <~ get_window_entry hwnd;;
  match e with
  | None => DefWindowProcA hwnd msg wParam lp
  | Some p =>
      x <~ entry p;;
      if negb (wnd_proc x =? 0) then user32_call_wndproc (wnd_proc x) hwnd msg wParam lp else DefWindowProcA hwnd msg wParam lp
  end.

Definition CallWindowProcA (lpPrevWndFunc hwnd msg wParam : Z) (lp : lparam) : M H Z :=
  user32_call_wndproc lpPrevWndFunc hwnd msg wParam lp.
End code.
