(* ===== verification/DialogRun.v ===== *)
(** * Dialogs and guests (src/msvcrt/user32_dialog_create.c, user32_dialog_modal.c,
      user32_dialog_lifecycle.c, user32_dialog_message.c, user32_dialog_doom95.c,
      launcher_ui_stubs.c)

    The functions that create dialogs and run their procedures, over the windows of
    Windows, the controls of Dialog and the resources of Resource; the calls that a
    guest can make; and its run, the interpretation of a tree of calls. *)
From S2P Require Import Prelude Bytes CStr HandleTable ModuleList MessageQueue BackendState WndClass Resource Dialog Windows.

Definition WM_INITDIALOG : Z := 0x0110.
Definition WM_COMMAND : Z := 0x0111.
Definition IDOK : Z := 1.
Definition WS_POPUP : Z := 0x80000000.
Definition WS_CAPTION : Z := 0x00C00000.

(** *** strtol in base 10 *)

Fixpoint skip_spaces (s : cstr) : cstr :=
  match s with
  | c :: s' => if (c =? 32) || ((9 <=? c) && (c <=? 13)) then skip_spaces s' else s
  | [] => []
  end.
(** The value, and what is left; [None] when there is no number. *)
Definition strtol {A : Arch} (s : cstr) : option (Z * cstr) :=
  let s := skip_spaces s in
  let '(neg, s) := match s with 45 :: s => (true, s) | 43 :: s => (false, s) | _ => (false, s) end in
  match digit_prefix s with
  | [] => None
  | ds =>
      let v := if (neg : bool) then - dec_from 0 ds else dec_from 0 ds in
      Some (Z.max (- 2 ^ (ptr_bits - 1)) (Z.min v (2 ^ (ptr_bits - 1) - 1)), drop (length ds) s)
  end.

Section code.
Context {A : Arch} {H : Type} `{Backend H}.
Variable strict : bool.
Variable malloc : gmap nat wine_window_entry -> option nat.
Variable user32_alloc : Z -> bool.
Variable guest_string : Z -> cstr.
Variable create_struct_addr : Z.
(** The addresses of a local buffer, of a string constant and of DefWindowProcA. *)
Variable local_buffer def_window_proc : Z.
Variable im : images.
Variable call_proc : Z -> Z -> Z -> Z -> lparam -> M H Z.

Local Abbreviation SendMessage := (SendMessageA strict guest_string call_proc).
Local Abbreviation Destroy := (DestroyWindow strict call_proc).

(** *** user32_dialog_modal.c *)

Definition dialog_class : WNDCLASSA := mkClass 0 def_window_proc 0 0 0 0 0 0 None (Some (lit "MY_WINE_DIALOG")).
Definition set_class_registered {H} (s : user32 H) : user32 H :=
  let d := u_dialogs s in with_dialogs (mkDialogState (ds_controls d) true (g_dialog_modals d) (ds_resources d)) s.
Definition register_class (wc : option WNDCLASSA) : M H Z :=
  fun s => '(a, r) ← RegisterClassA user32_alloc wc (u_classes s); Ret (a, with_classes r s).

Definition user32_dialog_ensure_class : M H unit :=
  d <~ getM u_dialogs;;
  if g_dialog_class_registered d then retM tt
  else atom <~ register_class (Some dialog_class);; when (negb (atom =? 0)) (modM set_class_registered).

(** The modal dialog at an index, as it is now. *)
Definition modal_now (i : nat) : M H dialog_modal_state := getM (fun s => modal_at i (g_dialog_modals (u_dialogs s))).

(** Result and end; the entry stays the one found at the beginning. *)
Definition user32_dialog_run_modal_lifecycle (hwnd lpDialogFunc : Z) : M H (option (Z * bool)) :=
  modal <~ modalM (dialog_find_modal hwnd false);;
  if hwnd =? 0 then retM None
  else
    modal <~ (match modal with Some i => retM (Some i) | None => modalM (dialog_find_modal hwnd true) end);;
    match modal with
    | None => retM None
    | Some i =>
        m <~ modal_now i;;
        when (negb (dm_ended m) && negb (lpDialogFunc =? 0)) (call_proc lpDialogFunc hwnd WM_COMMAND IDOK (LInt 0);; retM tt);;
        m <~ modal_now i;;
        when (negb (dm_ended m) && negb (lpDialogFunc =? 0)) (call_proc lpDialogFunc hwnd WM_CLOSE 0 (LInt 0);; retM tt);;
        m <~ modal_now i;;
        retM (Some (dm_result m, dm_ended m))
    end.

(** *** user32_dialog_lifecycle.c *)

Definition user32_dialog_end (hDlg nResult : Z) : M H unit :=
  modalM (fun m => (tt, user32_dialog_mark_modal_end hDlg nResult m));;
  when (negb (hDlg =? 0)) (Destroy hDlg;; retM tt).
Definition EndDialog (hDlg nResult : Z) : M H bool := user32_dialog_end hDlg nResult;; retM true.

Definition user32_dialog_run_modal (hwnd lpDialogFunc : Z) : M H Z :=
  r <~ user32_dialog_run_modal_lifecycle hwnd lpDialogFunc;;
  match r with
  | None => retM 0
  | Some (result, ended) =>
      (if negb ended then user32_dialog_end hwnd 0
       else modalM (fun m => (tt, user32_dialog_mark_modal_end hwnd result m)));;
      modalM (fun m => (tt, user32_dialog_clear_modal hwnd m));;
      retM (i32 result)
  end.

(** *** user32_dialog_message.c *)

Definition user32_dialog_dispatch_message (hDlg : Z) (lpMsg : option (Z * Z * Z * lparam)) : M H bool :=
  match lpMsg with
  | None => retM false
  | Some (hwnd, message, wParam, lp) =>
      if hDlg =? 0 then retM false
      else
        dlgproc <~ modalM (fun m => (user32_dialog_get_modal_dlgproc hDlg m, m));;
        if dlgproc =? 0 then retM false
        else
          mine <~ (if hwnd =? hDlg then retM true
                   else controls (fun d =>
                     match user32_dialog_find_item_by_handle hwnd d with
                     | Some i => it ← item_at i d; Ret (di_dialog it =? hDlg, d)
                     | None => Ret (false, d)
                     end));;
          if negb (mine : bool) then retM false
          else r <~ call_proc dlgproc hDlg message wParam lp;; retM (negb (r =? 0))
  end.
Definition IsDialogMessageA (hDlg : Z) (lpMsg : option (Z * Z * Z * lparam)) : M H bool := user32_dialog_dispatch_message hDlg lpMsg.

(** *** launcher_ui_stubs.c *)

(** The local text of the C function in place of the buffer of a message. *)
Definition GetDlgItemTextA (hDlg nIDDlgItem lpString cchMax : Z) : M H (Z * bytes) :=
  item <~ controls (GetDlgItem hDlg nIDDlgItem);;
  if (lpString =? 0) || (cchMax <=? 0) then retM (0, [])
  else
    r <~ SendMessage item WM_GETTEXT cchMax (LInt lpString);;
    let copied := if cchMax <=? u32 r.1 then cchMax - 1 else u32 r.1 in
    retM (copied, take (Z.to_nat copied) r.2 ++ [0] ++ drop (S (Z.to_nat copied)) r.2).

(** The number, and what is stored at lpTranslated. *)
Definition GetDlgItemInt (hDlg nIDDlgItem : Z) : M H (Z * bool) :=
  item <~ controls (GetDlgItem hDlg nIDDlgItem);;
  if item =? 0 then retM (0, false)
  else
    r <~ SendMessage item WM_GETTEXT 64 (LInt local_buffer);;
    if r.1 <=? 0 then retM (0, false)
    else
      text <~ (fun s => t ← deref (cstr_from r.2); Ret (t, s));;
      match strtol text with
      | Some (value, []) => if value <? 0 then retM (0, false) else retM (u32 value, true)
      | _ => retM (0, false)
      end.

Definition SetDlgItemInt (hDlg nIDDlgItem uValue : Z) (bSigned : bool) : M H bool :=
  item <~ controls (GetDlgItem hDlg nIDDlgItem);;
  if item =? 0 then retM false
  else
    r <~ SendMessage item WM_SETTEXT 0 (LText local_buffer (print_dec (if bSigned then i32 uValue else u32 uValue)));;
    retM (negb (r.1 =? 0)).

Definition SendDlgItemMessageA (hDlg nIDDlgItem Msg wParam : Z) (lp : lparam) : M H (Z * bytes) :=
  item <~ controls (GetDlgItem hDlg nIDDlgItem);; SendMessage item Msg wParam lp.
Definition GetWindowTextA (hWnd lpString nMaxCount : Z) : M H (Z * bytes) :=
  if (lpString =? 0) || (nMaxCount <=? 0) then retM (0, [])
  else r <~ SendMessage hWnd WM_GETTEXT nMaxCount (LInt lpString);; retM (i32 r.1, r.2).
Definition GetDlgCtrlID (hWnd : Z) : M H Z := GetWindowLongA hWnd GWL_ID.

Definition user32_strings_match (a b : option cstr) : bool :=
  match a, b with Some a, Some b => user32_strcmp (Some a) (Some b) =? 0 | _, _ => false end.
Fixpoint find_window_loop (todo : nat) (handle : Z) (lpClassName lpWindowName : option cstr) : M H Z :=
  match todo with
  | O => retM 0
  | S todo =>
      let next := find_window_loop todo (handle + 1) lpClassName lpWindowName in
      ty <~ tableM (wine_handle_get_type handle);;
      if negb (ty =? HANDLE_TYPE_HWIN) then next
      else
        obj <~ tableM (wine_handle_get handle);;
        match obj with
        | ONull => next
        | OWindow p =>
            e <~ entry p;;
            if bool_decide (is_Some lpClassName) && negb (user32_strings_match (class_name e) lpClassName) then next
            else if bool_decide (is_Some lpWindowName) && negb (user32_strings_match (Some (title e)) lpWindowName) then next
            else retM handle
        | _ => fun _ => Fault
        end
  end.
Definition FindWindowA (lpClassName lpWindowName : option cstr) : M H Z := find_window_loop 511 1 lpClassName lpWindowName.

Definition SetForegroundWindow (hWnd : Z) : M H bool :=
  e <~ get_window_entry hWnd;;
  match e with None => retM false | Some _ => user32_set_active_window hWnd;; user32_set_focus_window hWnd;; retM true end.
Definition IsWindowVisible (hWnd : Z) : M H bool := is_window hWnd.
Definition GetLastActivePopup (hWnd : Z) : M H Z :=
  w <~ is_window hWnd;; if (w : bool) then retM hWnd else user32_get_active_window.
Definition GetParent (hWnd : Z) : M H Z :=
  e <~ get_window_entry hWnd;; match e with None => retM 0 | Some p => x <~ entry p;; retM (parent x) end.

(** *** user32_dialog_doom95.c *)

Definition item_now (i : nat) : M H dialog_item_state := controls (fun d => it ← item_at i d; Ret (it, d)).
Definition item_handle (o : option nat) : M H Z :=
  match o with Some i => it <~ item_now i;; retM (di_handle it) | None => retM 0 end.
Definition find_item (hwnd id : Z) (create : bool) : M H (option nat) :=
  controls (fun d => Ret (user32_dialog_find_item hwnd id create d)).

(** The first item with data that is not "(NONE)". *)
Fixpoint first_wad (it : dialog_item_state) (i todo : nat) : outcome Z :=
  match todo with
  | O => Ret (-1)
  | S todo =>
      s ← deref (items it !! i);
      v ← deref (item_data it !! i);
      if negb (v =? 0) && negb (user32_strcmp (Some s) (Some (lit "(NONE)")) =? 0) then Ret (Z.of_nat i) else first_wad it (S i) todo
  end.
(** The item of the list of WADs to take; [cur] is selected. *)
Definition choose_wad (cur : Z) (it : dialog_item_state) : outcome Z :=
  let named s i := if (i : Z) <? 0 then user32_dialog_find_string it 0 (Some (lit s)) true else Ret i in
  first ← (if 0 <? cur then Ret cur
           else if (cur =? 0) && (item_count it =? 1)
           then s ← deref (items it !! 0%nat); Ret (if user32_strcmp (Some s) (Some (lit "(NONE)")) =? 0 then -1 else cur)
           else Ret (-1));
  i ← named "DOOM1.WAD"%string first;
  i ← named "DOOM1"%string i;
  if i <? 0 then first_wad it 0 (Z.to_nat (item_count it)) else Ret i.

(** refresh_maps is a guest function of the dialog alone.  What
    wine_doom95_seed_basewad_state writes to the guest's image is not represented. *)
Definition autostart_wad (hInstance hwnd lpDialogFunc wad_hwnd map_hwnd : Z) (wad map : option nat) : M H unit :=
  let wad_text := LText local_buffer (lit "DOOM1.WAD") in
  n <~ SendMessage wad_hwnd CB_GETCOUNT 0 (LInt 0);;
  when (n.1 <=? 0) (SendMessage wad_hwnd CB_ADDSTRING 0 wad_text;; retM tt);;
  SendMessage wad_hwnd WM_SETTEXT 0 wad_text;;
  cur <~ SendMessage wad_hwnd CB_GETCURSEL 0 (LInt 0);;
  i <~ (match wad with
        | Some w => it <~ item_now w;; (fun s => r ← choose_wad (i32 cur.1) it; Ret (r, s))
        | None => retM (if 0 <? i32 cur.1 then i32 cur.1 else -1)
        end);;
  i <~ (if i <? 0 then n <~ SendMessage wad_hwnd CB_GETCOUNT 0 (LInt 0);; retM (if 0 <? n.1 then 0 else i) else retM i);;
  when (0 <=? i)
    (SendMessage wad_hwnd CB_SETCURSEL i (LInt 0);;
     call_proc lpDialogFunc hwnd WM_COMMAND (Z.lor 0x3f4 (Z.shiftl 1 16)) (LInt wad_hwnd);; retM tt);;
  user32_call_wndproc call_proc (usize (hInstance + 0x8c30)) hwnd 0 0 (LInt 0);;
  n <~ (match map with Some _ => SendMessage map_hwnd CB_GETCOUNT 0 (LInt 0) | None => retM (1, []) end);;
  when (n.1 <=? 0)
    (SendMessage map_hwnd CB_ADDSTRING 0 (LText local_buffer (lit "E1M1"));;
     SendMessage map_hwnd CB_SETITEMDATA 0 (LInt 0);; retM tt);;
  when (negb (map_hwnd =? 0))
    (n <~ SendMessage map_hwnd CB_GETCOUNT 0 (LInt 0);; when (0 <? n.1) (SendMessage map_hwnd CB_SETCURSEL 0 (LInt 0);; retM tt));;
  controls (user32_dialog_set_item_text hwnd 0x436 (Some (lit "0")));; retM tt.

Definition user32_dialog_try_doom95_autostart (hInstance hwnd lpTemplateName lpDialogFunc : Z) : M H unit :=
  if negb (lpTemplateName =? 0x72) || (hwnd =? 0) || (lpDialogFunc =? 0) then retM tt
  else
    provider <~ find_item hwnd 0x3ed false;;
    match provider with
    | None => retM tt
    | Some p =>
        it <~ item_now p;;
        idx <~ (fun s => r ← user32_dialog_find_item_data_index it 1; Ret (r, s));;
        if idx <? 0 then retM tt
        else
          wad <~ find_item hwnd 0x3f4 true;;
          map <~ find_item hwnd 0x406 true;;
          wad_hwnd <~ item_handle wad;;
          map_hwnd <~ controls (user32_dialog_get_item_handle hwnd 0x406);;
          start_hwnd <~ controls (user32_dialog_get_item_handle hwnd 0x3f1);;
          SendMessage (di_handle it) CB_SETCURSEL idx (LInt 0);;
          call_proc lpDialogFunc hwnd WM_COMMAND (Z.lor 0x3ed (Z.shiftl 9 16)) (LInt (di_handle it));;
          when (negb (wad_hwnd =? 0)) (autostart_wad hInstance hwnd lpDialogFunc wad_hwnd map_hwnd wad map);;
          call_proc lpDialogFunc hwnd WM_COMMAND 0x3f1 (LInt start_hwnd);;
          Destroy hwnd;; retM tt
    end.

(** *** user32_dialog_create.c *)

Definition template_query (lpTemplateName : Z) : query :=
  let n := usize lpTemplateName in if n <? 2 ^ 16 then Q_id n else Q_str (guest_string n).
Definition find_template (hInstance : Z) (name : query) : M H Z := fun s =>
  let d := u_dialogs s in
  '(h, _, r) ← wine_resource_find (im_malloc im) hInstance (Q_id 5) name
                 (mkRsrc (im_base im) (im_modules im) (im_bytes im) (u_table s) (ds_resources d));
  Ret (h, with_dialogs (mkDialogState (ds_controls d) (g_dialog_class_registered d) (g_dialog_modals d) (rs_objects r))
            (with_table (rs_handles r) s)).

(** The loader's part of the resource state, and images whose resource directories are
    well formed. *)
Definition images_rsrc (im : images) : rsrc := mkRsrc (im_base im) (im_modules im) (im_bytes im) [] ∅.
Definition images_ok (im : images) : Prop := forall hInstance,
  match wine_resource_get_root hInstance (images_rsrc im) with
  | Ret None => True
  | Ret (Some (base, nt, root, size)) => exists t, tree_at (im_bytes im base) root size t
  | _ => False
  end.

Definition CreateDialogParamA (hInstance lpTemplateName hWndParent lpDialogFunc dwInitParam : Z) : M H Z :=
  found <~ find_template hInstance (template_query lpTemplateName);;
  if found =? 0 then retM 0
  else
    user32_dialog_ensure_class;;
    hwnd <~ CreateWindowExA strict malloc create_struct_addr call_proc 0 (Some (lit "MY_WINE_DIALOG")) (Some (lit "Dialog"))
              (Z.lor WS_POPUP WS_CAPTION) 0 0 320 200 hWndParent 0 hInstance 0;;
    when (negb (hwnd =? 0)) (modalM (fun m => (tt, user32_dialog_set_modal_dlgproc hwnd lpDialogFunc m)));;
    when (negb (hwnd =? 0) && negb (lpDialogFunc =? 0))
      (call_proc lpDialogFunc hwnd WM_INITDIALOG 0 (LInt dwInitParam);;
       user32_dialog_try_doom95_autostart hInstance hwnd lpTemplateName lpDialogFunc);;
    retM hwnd.
Definition CreateDialogIndirectParamA (hInstance hWndParent lpDialogFunc dwInitParam : Z) : M H Z :=
  CreateDialogParamA hInstance 1 hWndParent lpDialogFunc dwInitParam.
Definition DialogBoxParamA (hInstance lpTemplateName hWndParent lpDialogFunc dwInitParam : Z) : M H Z :=
  hwnd <~ CreateDialogParamA hInstance lpTemplateName hWndParent lpDialogFunc dwInitParam;;
  user32_dialog_run_modal hwnd lpDialogFunc.

(** *** The calls of a guest *)

Inductive ucall :=
| CRegisterClass (wc : option WNDCLASSA)
| CCreateWindow (dwExStyle : Z) (cls name : option cstr) (dwStyle x y w h parent menu inst param : Z)
| CDestroyWindow (hwnd : Z)
| CSendMessage (hwnd msg wParam : Z) (lp : lparam)
| CDefWindowProc (hwnd msg wParam : Z) (lp : lparam)
| CDispatch (hwnd msg wParam : Z) (lp : lparam)
| CCallWindowProc (proc hwnd msg wParam : Z) (lp : lparam)
| CSetFocus (hwnd : Z)
| CGetFocus
| CGetActive
| CShowWindow (hwnd cmd : Z)
| CSetWindowPos (hwnd x y cx cy flags : Z)
| CMoveWindow (hwnd x y w h : Z)
| CSetText (hwnd : Z) (text : option cstr)
| CGetLong (hwnd index : Z)
| CSetLong (hwnd index v : Z)
| CIsWindow (hwnd : Z)
| CLoadCursor (name : Z)
| CSetCursor (cur : Z)
| CCreateDialog (inst template parent proc init : Z)
| CDialogBox (inst template parent proc init : Z)
| CEndDialog (hwnd result : Z)
| CIsDialogMessage (hwnd : Z) (m : option (Z * Z * Z * lparam))
| CGetDlgItem (hwnd id : Z)
| CCheckDlgButton (hwnd id v : Z)
| CIsDlgButtonChecked (hwnd id : Z)
| CSetDlgItemText (hwnd id : Z) (text : option cstr)
| CGetDlgItemText (hwnd id buffer max : Z)
| CGetDlgItemInt (hwnd id : Z)
| CSetDlgItemInt (hwnd id v : Z) (signed : bool)
| CSendDlgItem (hwnd id msg wParam : Z) (lp : lparam)
| CGetWindowText (hwnd buffer max : Z)
| CFindWindow (cls name : option cstr)
| CSetForeground (hwnd : Z)
| CIsWindowVisible (hwnd : Z)
| CGetLastActivePopup (hwnd : Z)
| CGetParent (hwnd : Z).

Definition int_result (m : M H Z) : M H (Z * bytes) := r <~ m;; retM (r, []).
Definition bool_result (m : M H bool) : M H (Z * bytes) := r <~ m;; retM ((if (r : bool) then 1 else 0) : Z, []).

Definition do_call (c : ucall) : M H (Z * bytes) :=
  match c with
  | CRegisterClass wc =>
      int_result (register_class wc)
  | CCreateWindow ex cls name st x y w h pa me inst par => int_result (CreateWindowExA strict malloc create_struct_addr call_proc ex cls name st x y w h pa me inst par)
  | CDestroyWindow hwnd => bool_result (Destroy hwnd)
  | CSendMessage hwnd msg wp lp => SendMessage hwnd msg wp lp
  | CDefWindowProc hwnd msg wp lp => int_result (DefWindowProcA strict call_proc hwnd msg wp lp)
  | CDispatch hwnd msg wp lp => int_result (DispatchMessageA strict guest_string call_proc hwnd msg wp lp)
  | CCallWindowProc proc hwnd msg wp lp => int_result (CallWindowProcA call_proc proc hwnd msg wp lp)
  | CSetFocus hwnd => int_result (SetFocus call_proc hwnd)
  | CGetFocus => int_result GetFocus
  | CGetActive => int_result GetActiveWindow
  | CShowWindow hwnd cmd => bool_result (ShowWindow call_proc hwnd cmd)
  | CSetWindowPos hwnd x y cx cy fl => bool_result (SetWindowPos call_proc hwnd x y cx cy fl)
  | CMoveWindow hwnd x y w h => bool_result (MoveWindow hwnd x y w h)
  | CSetText hwnd t => bool_result (SetWindowTextA hwnd t)
  | CGetLong hwnd i => int_result (GetWindowLongPtrA hwnd i)
  | CSetLong hwnd i v => int_result (SetWindowLongPtrA hwnd i v)
  | CIsWindow hwnd => bool_result (IsWindow hwnd)
  | CLoadCursor n => int_result (LoadCursorA n)
  | CSetCursor c => int_result (SetCursor c)
  | CCreateDialog inst t pa proc init => int_result (CreateDialogParamA inst t pa proc init)
  | CDialogBox inst t pa proc init => int_result (DialogBoxParamA inst t pa proc init)
  | CEndDialog hwnd r => bool_result (EndDialog hwnd r)
  | CIsDialogMessage hwnd m => bool_result (IsDialogMessageA hwnd m)
  | CGetDlgItem hwnd id => int_result (controls (GetDlgItem hwnd id))
  | CCheckDlgButton hwnd id v => bool_result (controls (CheckDlgButton hwnd id v))
  | CIsDlgButtonChecked hwnd id => int_result (controls (fun d => r ← IsDlgButtonChecked hwnd id d; Ret (r, d)))
  | CSetDlgItemText hwnd id t => bool_result (controls (SetDlgItemTextA hwnd id t))
  | CGetDlgItemText hwnd id buf max => GetDlgItemTextA hwnd id buf max
  | CGetDlgItemInt hwnd id => r <~ GetDlgItemInt hwnd id;; retM (r.1, [bool_z r.2])
  | CSetDlgItemInt hwnd id v signed => bool_result (SetDlgItemInt hwnd id v signed)
  | CSendDlgItem hwnd id msg wp lp => SendDlgItemMessageA hwnd id msg wp lp
  | CGetWindowText hwnd buf max => GetWindowTextA hwnd buf max
  | CFindWindow cls name => int_result (FindWindowA cls name)
  | CSetForeground hwnd => bool_result (SetForegroundWindow hwnd)
  | CIsWindowVisible hwnd => bool_result (IsWindowVisible hwnd)
  | CGetLastActivePopup hwnd => int_result (GetLastActivePopup hwnd)
  | CGetParent hwnd => int_result (GetParent hwnd)
  end.

(** A guest program: it returns, or makes a call and goes on with the result. *)
Inductive prog := Done (r : Z) | Call (c : ucall) (k : Z * bytes -> prog).

Fixpoint run_prog (p : prog) : M H Z :=
  match p with
  | Done r => retM r
  | Call c k => r <~ do_call c;; run_prog (k r)
  end.
End code.

(** Window procedures are guest programs, by address.  [fuel] bounds how deeply they
    nest; beyond it the run stops. *)
Fixpoint call_guest {A : Arch} {H : Type} `{Backend H} (strict : bool) (malloc : gmap nat wine_window_entry -> option nat)
    (user32_alloc : Z -> bool) (guest_string : Z -> cstr) (addr : Z) (local_buffer def_window_proc : Z) (im : images)
    (procs : Z -> Z -> Z -> Z -> lparam -> prog) (fuel : nat)
    (proc hwnd msg wParam : Z) (lp : lparam) : M H Z :=
  match fuel with
  | O => fun _ => Fail
  | S fuel =>
      run_prog strict malloc user32_alloc guest_string addr local_buffer def_window_proc im
        (call_guest strict malloc user32_alloc guest_string addr local_buffer def_window_proc im procs fuel) (procs proc hwnd msg wParam lp)
  end.
Definition run_guest {A : Arch} {H : Type} `{Backend H} (strict : bool) (malloc : gmap nat wine_window_entry -> option nat)
    (user32_alloc : Z -> bool) (guest_string : Z -> cstr) (addr : Z) (local_buffer def_window_proc : Z) (im : images)
    (procs : Z -> Z -> Z -> Z -> lparam -> prog) (fuel : nat) (main : prog) : M H Z :=
  run_prog strict malloc user32_alloc guest_string addr local_buffer def_window_proc im
    (call_guest strict malloc user32_alloc guest_string addr local_buffer def_window_proc im procs fuel) main.
