(* ===== verification/WindowsSafe.v ===== *)
(** * Windows survive the guest (user32_window_lifecycle.c, user32_focus.c,
      user32_message_dispatch.c)

    Window procedures run in the middle of user32's functions and may create, destroy
    and focus windows there.  The invariant of the window table is kept by every call,
    however deeply calls nest, as long as no window is freed while a C function on the
    stack holds its entry; the last section shows what happens then. *)
From S2P Require Import Prelude Bytes CStr PePriv HandleTable ModuleList MessageQueue BackendState WndClass Resource Dialog Windows DialogRun.

(** ** Assertions on programs *)

Section safe.
(** What a run that stops early shows: [True] for safety alone, [False] where every
    run is to return. *)
Variable F : Prop.

Definition wp {H X} (m : M H X) (Q : X -> user32 H -> Prop) (s : user32 H) : Prop :=
  match m s with Ret (x, s') => Q x s' | Fail => F | Fault => False end.

Lemma wp_bind {H X Y} (m : M H X) (f : X -> M H Y) Q s : wp m (fun x s' => wp (f x) Q s') s -> wp (bindM m f) Q s.
Proof. unfold wp, bindM. destruct (m s) as [[x s']| |]; done. Qed.
Lemma wp_mono {H X} (m : M H X) (Q Q' : X -> user32 H -> Prop) s :
  wp m Q s -> (forall x s', Q x s' -> Q' x s') -> wp m Q' s.
Proof. unfold wp. destruct (m s) as [[x s']| |]; auto. Qed.
Lemma wp_ret {H X} (x : X) (Q : X -> user32 H -> Prop) s : Q x s -> wp (retM x) Q s.
Proof. done. Qed.
Lemma wp_get {H X} (f : user32 H -> X) (Q : X -> user32 H -> Prop) s : Q (f s) s -> wp (getM f) Q s.
Proof. done. Qed.
Lemma wp_mod {H} (f : user32 H -> user32 H) (Q : unit -> user32 H -> Prop) s : Q tt (f s) -> wp (modM f) Q s.
Proof. done. Qed.
Lemma wp_hold {H X} l (m : M H X) (Q : X -> user32 H -> Prop) s :
  wp m (fun x s' => Q x (with_held (drop (length l) (u_held s')) s')) (with_held (l ++ u_held s) s) -> wp (hold l m) Q s.
Proof. unfold wp, hold. destruct (m _) as [[x s']| |]; done. Qed.
Lemma wp_entry {H} p e (Q : wine_window_entry -> user32 H -> Prop) s : u_heap s !! p = Some e -> Q e s -> wp (entry p) Q s.
Proof. unfold wp, entry. by intros ->. Qed.
Lemma wp_update {H} p f e (Q : unit -> user32 H -> Prop) s :
  u_heap s !! p = Some e -> Q tt (with_heap (<[p := f e]> (u_heap s)) s) -> wp (update p f) Q s.
Proof. unfold wp, update. by intros ->. Qed.

(** ** The invariant *)

(** Handle [k] stands for the window entry at [p]. *)
Definition win_at (t : table) (k p : nat) : Prop := t !! k ≫= entry_of = Some (mkEntry HANDLE_TYPE_HWIN (OWindow p) 1).

Context {A : Arch} {H : Type} `{BL : BackendLaws H}.

(** [U] is an allocated entry without a handle, [d] how far the count of windows lags
    behind the heap. *)
Record winv (U : option nat) (d : Z) (st : store) (s : user32 H) : Prop := {
  wi_rep : represents (u_table s) st;
  wi_backend : backend_ok st (u_host s);
  wi_win : forall k e, st !! k = Some e -> e_type e = HANDLE_TYPE_HWIN ->
    exists p, e = mkEntry HANDLE_TYPE_HWIN (OWindow p) 1 /\ is_Some (u_heap s !! p) /\ (3 <= k < 512)%nat /\ U <> Some p;
  wi_inj : forall k k' p, st !! k = Some (mkEntry HANDLE_TYPE_HWIN (OWindow p) 1) ->
    st !! k' = Some (mkEntry HANDLE_TYPE_HWIN (OWindow p) 1) -> k = k';
  wi_reach : forall p, is_Some (u_heap s !! p) -> U = Some p \/ exists k, st !! k = Some (mkEntry HANDLE_TYPE_HWIN (OWindow p) 1);
  wi_unlinked : forall p, U = Some p -> is_Some (u_heap s !! p);
  wi_live : g_user32_live_windows s + d = Z.of_nat (size (u_heap s));
  wi_held : forall p, p ∈ u_held s -> is_Some (u_heap s !! p);
  wi_classes : reg_ok (u_classes s);
  wi_dialogs : dialogs_ok (ds_controls (u_dialogs s)) }.
Definition inv (U : option nat) (d : Z) (s : user32 H) : Prop := exists st, winv U d st s.

(** What a call leaves as it was: the stack of held entries, the entries on it and
    their handles. *)
Record keeps (s s' : user32 H) : Prop := {
  k_held : u_held s' = u_held s;
  k_heap : forall p e, p ∈ u_held s -> u_heap s !! p = Some e ->
    exists e', u_heap s' !! p = Some e' /\ (destroy_in_progress e = true -> destroy_in_progress e' = true);
  k_handle : forall k p, p ∈ u_held s -> win_at (u_table s) k p -> win_at (u_table s') k p }.

(** What a call that runs no guest code leaves as it was. *)
Record calm (s s' : user32 H) : Prop := {
  c_held : u_held s' = u_held s;
  c_heap : u_heap s' = u_heap s;
  c_handle : forall k p, win_at (u_table s) k p -> win_at (u_table s') k p }.

Lemma keeps_refl s : keeps s s.
Proof. split; [done| |done]. eauto. Qed.
Lemma keeps_trans s1 s2 s3 : keeps s1 s2 -> keeps s2 s3 -> keeps s1 s3.
Proof.
  intros [H1 H2 H3] [G1 G2 G3]. split; [congruence| |].
  - intros p e Hp He. destruct (H2 p e Hp He) as (e' & He' & Hd). rewrite H1 in G2.
    destruct (G2 p e' Hp He') as (e'' & ? & ?). eauto.
  - intros k p Hp Hw. rewrite H1 in G3. eauto.
Qed.
Lemma calm_refl s : calm s s.
Proof. by split. Qed.
Lemma calm_trans s1 s2 s3 : calm s1 s2 -> calm s2 s3 -> calm s1 s3.
Proof. intros [H1 H2 H3] [G1 G2 G3]. split; [congruence|congruence|eauto]. Qed.
Lemma calm_keeps s s' : calm s s' -> keeps s s'.
Proof. intros [H1 H2 H3]. split; [done| |eauto]. rewrite H2. eauto. Qed.
Hint Resolve keeps_refl calm_refl calm_keeps : core.

Definition post {X} (s : user32 H) (x : X) (s' : user32 H) : Prop := inv None 0 s' /\ keeps s s'.
Lemma wp_after {X} (m : M H X) s s1 : keeps s s1 -> wp m (post s1) s1 -> wp m (post s) s1.
Proof. intros Hk Hm. eapply wp_mono; [exact Hm|]. intros x s' [Hi Hk']. split; [done|]. by eapply keeps_trans. Qed.

(** *** Primitive steps *)

Lemma inv_held U d s l : inv U d s -> (forall p, p ∈ l -> is_Some (u_heap s !! p)) -> inv U d (with_held l s).
Proof. intros [st [H1 H2 H3 H4 H5 H6 H7 H8 H9 H10]] Hl. exists st. by split. Qed.
Lemma inv_active U d s h : inv U d s -> inv U d (with_active h s).
Proof. intros [st [H1 H2 H3 H4 H5 H6 H7 H8 H9 H10]]. exists st. by split. Qed.
Lemma inv_focus U d s h : inv U d s -> inv U d (with_focus h s).
Proof. intros [st [H1 H2 H3 H4 H5 H6 H7 H8 H9 H10]]. exists st. by split. Qed.
Lemma inv_cursor U d s h : inv U d s -> inv U d (with_cursor h s).
Proof. intros [st [H1 H2 H3 H4 H5 H6 H7 H8 H9 H10]]. exists st. by split. Qed.
Lemma inv_live U d d' n s : inv U d s -> n + d' = g_user32_live_windows s + d -> inv U d' (with_live n s).
Proof. intros [st [H1 H2 H3 H4 H5 H6 H7 H8 H9 H10]] Hn. exists st. split; simpl; try done. lia. Qed.

(** An entry's fields change. *)
Lemma inv_update U d s p e e' : inv U d s -> u_heap s !! p = Some e -> inv U d (with_heap (<[p := e']> (u_heap s)) s).
Proof.
  intros [st [H1 H2 H3 H4 H5 H6 H7 H8 H9 H10]] He. exists st.
  assert (Hs : forall q, is_Some (<[p := e']> (u_heap s) !! q) <-> is_Some (u_heap s !! q)).
  { intros q. destruct (decide (q = p)) as [->|]; [rewrite lookup_insert_eq, He; split; eauto|by rewrite lookup_insert_ne]. }
  split; simpl; try done.
  - intros k x Hx Ht. destruct (H3 k x Hx Ht) as (q & ? & ? & ?). exists q. by rewrite Hs.
  - intros q Hq. apply H5. by rewrite <- Hs.
  - intros q Hq. rewrite Hs. auto.
  - rewrite map_size_insert_Some by done. done.
  - intros q Hq. rewrite Hs. auto.
Qed.
Lemma keeps_update s p e e' :
  u_heap s !! p = Some e -> (destroy_in_progress e = true -> destroy_in_progress e' = true) ->
  keeps s (with_heap (<[p := e']> (u_heap s)) s).
Proof.
  intros He Hd. split; [done| |done]. intros q x Hq Hx. simpl. destruct (decide (q = p)) as [->|].
  - rewrite lookup_insert_eq. simplify_eq. eauto.
  - rewrite lookup_insert_ne by done. eauto.
Qed.

Lemma win_at_store t st k p :
  represents t st -> win_at t k p <-> st !! k = Some (mkEntry HANDLE_TYPE_HWIN (OWindow p) 1).
Proof. intros (_ & _ & E). unfold win_at. by rewrite E. Qed.

Lemma wp_table U d s {X} (f : table -> outcome X) (Q : X -> user32 H -> Prop) x :
  inv U d s -> f (u_table s) = Ret x -> Q x s -> wp (tableM f) Q s.
Proof. intros _ E Hq. unfold wp, tableM. by rewrite E. Qed.

(** Reading the type and the object of any handle. *)
Lemma table_get st t h :
  represents t st ->
  wine_handle_get (u32 h) t = Ret (from_option e_object ONull (st !! Z.to_nat (u32 h))) /\
  wine_handle_get_type (u32 h) t = Ret (from_option e_type 0 (st !! Z.to_nat (u32 h))).
Proof.
  intros R. assert (Hu : in_u 32 (u32 h)) by (apply wrap_range; lia).
  destruct (handle_step_refines (HGet (u32 h)) t st R Hu) as (t1 & E1 & _).
  destruct (handle_step_refines (HGetType (u32 h)) t st R Hu) as (t2 & E2 & _).
  cbn [handle_step store_step snd] in E1, E2. apply bind_Ret in E1 as (x1 & -> & [= _ ->]).
  apply bind_Ret in E2 as (x2 & -> & [= _ ->]). done.
Qed.

Lemma wp_get_window_entry U d s h (Q : option nat -> user32 H -> Prop) :
  inv U d s -> Q None s ->
  (forall p e, win_at (u_table s) (Z.to_nat (u32 h)) p -> u_heap s !! p = Some e -> Q (Some p) s) ->
  wp (get_window_entry h) Q s.
Proof.
  intros [st Hi] Hn Hq. destruct (table_get st (u_table s) h (wi_rep _ _ _ _ Hi)) as [E1 E2].
  unfold wp, get_window_entry, bindM, tableM. rewrite E1. cbn [mbind outcome_bind]. rewrite E2. cbn [mbind outcome_bind].
  destruct (st !! Z.to_nat (u32 h)) as [e|] eqn:Es; cbn [from_option]; [|done].
  destruct (Z.eqb_spec (e_type e) HANDLE_TYPE_HWIN) as [Et|]; [|by rewrite orb_true_r].
  destruct (wi_win _ _ _ _ Hi _ e Es Et) as (p & -> & [x Hx] & Hk & Hu). cbn. apply (Hq p x); [|done].
  by rewrite (win_at_store _ st) by apply (wi_rep _ _ _ _ Hi).
Qed.

Lemma wp_window U d s h (Q : option nat -> user32 H -> Prop) :
  inv U d s -> (forall e, (forall p, e = Some p -> is_Some (u_heap s !! p)) -> Q e s) -> wp (get_window_entry h) Q s.
Proof.
  intros Hi Hq. apply (wp_get_window_entry U d); [done|by apply Hq|]. intros p e _ He. apply Hq. intros q [= <-]. eauto.
Qed.
Lemma wp_is_window U d s h (Q : bool -> user32 H -> Prop) :
  inv U d s -> (forall b, Q b s) -> wp (is_window h) Q s.
Proof.
  intros Hi Hq. apply wp_bind. apply (wp_get_window_entry U d); [done| |intros p e _ _]; apply wp_ret; apply Hq.
Qed.
Lemma wp_get_active U d s (Q : Z -> user32 H -> Prop) : inv U d s -> (forall h, Q h s) -> wp user32_get_active_window Q s.
Proof. intros Hi Hq. apply wp_bind, wp_get, wp_bind. apply (wp_is_window U d); [done|]. intros b. apply wp_ret, Hq. Qed.
Lemma wp_get_focus U d s (Q : Z -> user32 H -> Prop) : inv U d s -> (forall h, Q h s) -> wp user32_get_focus_window Q s.
Proof. intros Hi Hq. apply wp_bind, wp_get, wp_bind. apply (wp_is_window U d); [done|]. intros b. apply wp_ret, Hq. Qed.

(** A table whose window handles are the same. *)
Lemma inv_table U d s st st' t h :
  winv U d st s -> represents t st' -> backend_ok st' h ->
  same_entries (fun ty => ty =? HANDLE_TYPE_HWIN) st st' ->
  inv U d (with_backend t h s) /\ calm s (with_backend t h s).
Proof.
  intros [H1 H2 H3 H4 H5 H6 H7 H8 H9 H10] R Hb Hs.
  assert (Hw : forall k e, e_type e = HANDLE_TYPE_HWIN -> st !! k = Some e <-> st' !! k = Some e).
  { intros k e He. apply Hs. by rewrite He. }
  split.
  - exists st'. split; simpl; try done.
    + intros k e Hk He. apply (H3 k e); [by apply Hw|done].
    + intros k k' p Hk Hk'. apply (H4 k k' p); by apply Hw.
    + intros p Hp. destruct (H5 p Hp) as [?|[k Hk]]; [by left|right]. exists k. by apply Hw.
  - split; simpl; [done|done|]. intros k p. rewrite (win_at_store _ st), (win_at_store _ st') by done. by apply Hw.
Qed.

Lemma wp_rb U d s q (Q : Z -> user32 H -> Prop) :
  inv U d s -> (forall r s', inv U d s' -> calm s s' -> Q r s') -> wp (rb q) Q s.
Proof.
  intros [st Hi] Hq. destruct (backend_call_ok q (u_table s) st (u_host s) (wi_rep _ _ _ _ Hi) (wi_backend _ _ _ _ Hi))
    as (t' & st' & h' & r & E & R & Hb & Hs).
  unfold wp, rb. rewrite E. cbn [mbind outcome_bind].
  destruct (inv_table U d s st st' t' h' Hi R Hb) as [Hi' Hc]; [|by apply Hq].
  intros k e He. apply Z.eqb_eq in He. apply Hs. by rewrite He.
Qed.

Lemma rb_type_win ty : ty = HANDLE_TYPE_HWIN \/ ty = HANDLE_TYPE_HCURSOR -> rb_type ty = false.
Proof. by intros [->| ->]. Qed.

(** A new handle of another type. *)
Lemma alloc_other U d s ty o : inv U d s -> (ty =? HANDLE_TYPE_HWIN) = false -> rb_type ty = false ->
  exists t' h, wine_handle_alloc ty o (u_table s) = Ret (t', h) /\ inv U d (with_table t' s) /\ calm s (with_table t' s).
Proof.
  intros [st Hi] Hty Hrb.
  destruct (alloc_cases ty o (u_table s) st (wi_rep _ _ _ _ Hi)) as [->|(k & t' & Hk & Hn & -> & R)].
  - exists (u_table s), 0. split; [done|]. split; [|done]. destruct Hi as [H1 H2 H3 H4 H5 H6 H7 H8 H9 H10]. exists st. by split.
  - exists t', (Z.of_nat k). split; [done|].
    assert (Hsame : forall p, p ty = false -> same_entries p st (<[k := mkEntry ty o 1]> st)).
    { intros p Hp j e He. destruct (decide (j = k)) as [->|]; [|by rewrite lookup_insert_ne].
      rewrite lookup_insert_eq, Hn. split; [done|]. intros [= <-]. simpl in He. congruence. }
    apply (inv_table U d s st _ t' (u_host s) Hi R); [|by apply Hsame].
    apply (backend_frame st); [|apply (wi_backend _ _ _ _ Hi)]. by apply Hsame.
Qed.
Lemma wp_alloc_cursor U d s o (Q : Z -> user32 H -> Prop) :
  inv U d s -> (forall r s', inv U d s' -> calm s s' -> Q r s') ->
  wp (fun s => '(t, h) ← wine_handle_alloc HANDLE_TYPE_HCURSOR o (u_table s); Ret (h, with_table t s)) Q s.
Proof.
  intros Hi Hq. unfold wp. destruct (alloc_other U d s HANDLE_TYPE_HCURSOR o Hi) as (t' & h & -> & Hi' & Hc); [done..|]. by apply Hq.
Qed.

(** A call on the controls, and one on the modal dialogs. *)
Lemma inv_dialogs U d s c : inv U d s -> dialogs_ok (ds_controls c) -> inv U d (with_dialogs c s).
Proof. intros [st [H1 H2 H3 H4 H5 H6 H7 H8 H9 H10]] Hc. exists st. by split. Qed.
Lemma wp_controls {X} U d s (f : dialogs -> outcome (X * dialogs)) (Q : X -> user32 H -> Prop) :
  inv U d s -> (forall c, dialogs_ok c -> exists x c', f c = Ret (x, c') /\ dialogs_ok c') ->
  (forall x s', inv U d s' -> calm s s' -> Q x s') -> wp (controls f) Q s.
Proof.
  intros Hi Hf Hq. unfold wp, controls. destruct (Hf (ds_controls (u_dialogs s))) as (x & c' & -> & Hc).
  { destruct Hi as [st Hi]. apply (wi_dialogs _ _ _ _ Hi). }
  cbn [mbind outcome_bind]. apply Hq; [by apply inv_dialogs|by split].
Qed.
Lemma wp_modal {X} U d s (f : modals -> X * modals) (Q : X -> user32 H -> Prop) :
  inv U d s -> (forall x s', inv U d s' -> calm s s' -> Q x s') -> wp (modalM f) Q s.
Proof.
  intros Hi Hq. unfold wp, modalM. destruct (f _) as [x m]. cbn iota. pose proof Hi as [st Hw].
  apply Hq; [|by split]. apply inv_dialogs; [done|]. apply (wi_dialogs _ _ _ _ Hw).
Qed.
(** A read of the controls. *)
Lemma wp_read_controls {X} U d s (f : dialogs -> outcome X) (Q : X -> user32 H -> Prop) :
  inv U d s -> (forall c, dialogs_ok c -> exists x, f c = Ret x) ->
  (forall x s', inv U d s' -> calm s s' -> Q x s') -> wp (controls (fun c => x ← f c; Ret (x, c))) Q s.
Proof. intros Hi Hf Hq. apply (wp_controls U d); [done| |done]. intros c Hc. destruct (Hf c Hc) as [x ->]. by exists x, c. Qed.

(** The handle of a new window. *)
Lemma wp_alloc_window d s p (Q : Z -> user32 H -> Prop) :
  inv (Some p) d s -> Q 0 s ->
  (forall k t', (3 <= k < 512)%nat -> win_at t' k p -> inv None d (with_table t' s) ->
     (forall j q, win_at (u_table s) j q -> win_at t' j q) -> Q (Z.of_nat k) (with_table t' s)) ->
  wp (fun s => '(t, h) ← wine_handle_alloc HANDLE_TYPE_HWIN (OWindow p) (u_table s); Ret (h, with_table t s)) Q s.
Proof.
  intros [st Hi] Hz Hq. unfold wp.
  destruct (alloc_cases HANDLE_TYPE_HWIN (OWindow p) (u_table s) st (wi_rep _ _ _ _ Hi)) as [->|(k & t' & Hk & Hn & -> & R)];
    cbn [mbind outcome_bind].
  { destruct s. exact Hz. }
  set (e := mkEntry HANDLE_TYPE_HWIN (OWindow p) 1) in *. destruct Hi as [H1 H2 H3 H4 H5 H6 H7 H8 H9 H10].
  assert (Hold : forall j x, st !! j = Some x -> <[k := e]> st !! j = Some x).
  { intros j x Hj. rewrite lookup_insert_ne; [done|]. intros <-. congruence. }
  assert (Hnp : forall j, st !! j = Some e -> False).
  { intros j Hj. destruct (H3 j e Hj eq_refl) as (q & [= <-] & _ & _ & Hu). by apply Hu. }
  apply Hq; [done|by rewrite (win_at_store _ _ _ _ R), lookup_insert_eq| |].
  - exists (<[k := e]> st). split; simpl; try done.
    + apply (backend_frame st); [|done]. intros j x Hx. destruct (decide (j = k)) as [->|]; [|by rewrite lookup_insert_ne].
      rewrite lookup_insert_eq, Hn. split; [done|]. intros [= <-]. done.
    + intros j x Hj Ht. destruct (decide (j = k)) as [->|].
      * rewrite lookup_insert_eq in Hj. injection Hj as <-. exists p. split_and!; [done|by apply H6|lia|lia|done].
      * rewrite lookup_insert_ne in Hj by done. destruct (H3 j x Hj Ht) as (q & ? & ? & ? & _). by exists q.
    + intros j j' q Hj Hj'. destruct (decide (q = p)) as [->|].
      * fold e in Hj, Hj'. destruct (decide (j = k)) as [->|]; [|rewrite lookup_insert_ne in Hj by done; by destruct (Hnp j)].
        destruct (decide (j' = k)) as [->|]; [done|]. rewrite lookup_insert_ne in Hj' by done. by destruct (Hnp j').
      * assert (j <> k /\ j' <> k) as [??] by (split; intros ->; rewrite lookup_insert_eq in *; unfold e in *; congruence).
        rewrite lookup_insert_ne in Hj, Hj' by done. eauto.
    + intros q Hs. right. destruct (H5 q Hs) as [[= ->]|[j Hj]]; [exists k; apply lookup_insert_eq|]. exists j. by apply Hold.
  - intros j q. rewrite (win_at_store _ st), (win_at_store _ _ _ _ R) by done. apply Hold.
Qed.

(** Freeing a held entry stops the run. *)
Lemma stop_held (s : user32 H) p : F \/ u_held s = [] -> p ∈ u_held s -> F.
Proof. intros [?| ->]; [done|]. by intros ?%not_elem_of_nil. Qed.
Lemma stop_keeps s s' : keeps s s' -> F \/ u_held s = [] -> F \/ u_held s' = [].
Proof. intros Hk. by rewrite (k_held _ _ Hk). Qed.

(** Freeing a window's handle and then its entry. *)
Lemma wp_release d s h p (Q : unit -> user32 H -> Prop) :
  inv None d s -> F \/ u_held s = [] -> win_at (u_table s) (Z.to_nat (u32 h)) p ->
  (forall s', inv None (d - 1) s' -> keeps s s' -> g_user32_live_windows s' = g_user32_live_windows s -> Q tt s') ->
  wp (free_handle h) (fun _ s1 => wp (user32_heap_free true p) Q s1) s.
Proof.
  intros [st Hi] HF Hw Hq. pose proof (wi_rep _ _ _ _ Hi) as R. rewrite (win_at_store _ st _ _ R) in Hw.
  destruct (wi_win _ _ _ _ Hi _ _ Hw eq_refl) as (p' & [= <-] & [x Hx] & Hk & _).
  assert (Hu : in_u 32 (u32 h)) by (apply wrap_range; lia).
  destruct (handle_step_refines (HFree (u32 h)) (u_table s) st R Hu) as (t' & E & R').
  cbn [handle_step store_step] in E, R'. replace (u32 h <=? 2) with false in * by lia. rewrite Hw in E, R'. cbn in E, R'.
  apply bind_Ret in E as (t1 & E & [= ->]). unfold wp, free_handle. rewrite E. cbn [mbind outcome_bind].
  unfold user32_heap_free. cbn [andb]. case_bool_decide as Hh; [by apply (stop_held s p)|]. cbn [u_heap with_table]. rewrite Hx. cbn [deref mbind outcome_bind].
  set (k := Z.to_nat (u32 h)) in *. destruct Hi as [H1 H2 H3 H4 H5 H6 H7 H8 H9 H10]. apply Hq; [| |done].
  - exists (delete k st). split; simpl; try done.
    + apply (backend_frame st); [|done]. intros j e He. destruct (decide (j = k)) as [->|]; [|by rewrite lookup_delete_ne].
      rewrite lookup_delete_eq, Hw. split; [|done]. intros [= <-]. done.
    + intros j e Hj Ht. apply lookup_delete_Some in Hj as [Hne Hj]. destruct (H3 j e Hj Ht) as (q & -> & Hs & ? & ?).
      exists q. split_and!; try done; try lia. rewrite lookup_delete_ne; [done|]. intros <-. apply Hne. by apply (H4 k j p).
    + intros j j' q Hj Hj'. apply lookup_delete_Some in Hj as [_ Hj]. apply lookup_delete_Some in Hj' as [_ Hj']. eauto.
    + intros q [y Hy]. apply lookup_delete_Some in Hy as [Hne Hy]. destruct (H5 q ltac:(eauto)) as [?|[j Hj]]; [done|].
      right. exists j. rewrite lookup_delete_ne; [done|]. intros <-. rewrite Hw in Hj. congruence.
    + rewrite map_size_delete_Some by eauto. pose proof (map_size_ne_0_lookup_2 (u_heap s) p ltac:(eauto)). lia.
    + intros q Hq'. rewrite lookup_delete_ne; [auto|]. intros <-. done.
  - split; simpl; [done| |].
    + intros q y Hq' Hy. rewrite lookup_delete_ne by (intros <-; done). eauto.
    + intros j q Hq' Hj. rewrite (win_at_store _ _ _ _ R'). rewrite (win_at_store _ st _ _ R) in Hj.
      rewrite lookup_delete_ne; [done|]. intros <-. rewrite Hw in Hj. by injection Hj as <-.
Qed.

(** Freeing an entry that has no handle. *)
Lemma wp_heap_free d s p (Q : unit -> user32 H -> Prop) :
  inv (Some p) d s -> F \/ u_held s = [] ->
  (forall s', inv None (d - 1) s' -> keeps s s' -> Q tt s') -> wp (user32_heap_free true p) Q s.
Proof.
  intros [st [H1 H2 H3 H4 H5 H6 H7 H8 H9 H10]] HF Hq. unfold wp, user32_heap_free. cbn [andb].
  case_bool_decide as Hh; [by apply (stop_held s p)|].
  destruct (H6 p eq_refl) as [x Hx]. rewrite Hx. cbn [deref mbind outcome_bind]. apply Hq.
  - exists st. split; simpl; try done.
    + intros j e Hj Ht. destruct (H3 j e Hj Ht) as (q & -> & Hs & ? & Hu). exists q. split_and!; try done; try lia.
      rewrite lookup_delete_ne; [done|]. congruence.
    + intros q [y Hy]. apply lookup_delete_Some in Hy as [Hne Hy]. destruct (H5 q ltac:(eauto)) as [[= ->]|?]; [done|by right].
    + rewrite map_size_delete_Some by eauto. pose proof (map_size_ne_0_lookup_2 (u_heap s) p ltac:(eauto)). lia.
    + intros q Hq'. rewrite lookup_delete_ne; [auto|]. intros <-. done.
  - split; simpl; [done| |done]. intros q y Hq' Hy. rewrite lookup_delete_ne by (intros <-; done). eauto.
Qed.

(** A new entry. *)
Lemma inv_new d s p e :
  inv None d s -> u_heap s !! p = None -> inv (Some p) (d + 1) (with_heap (<[p := e]> (u_heap s)) s) /\
    keeps s (with_heap (<[p := e]> (u_heap s)) s).
Proof.
  intros [st [H1 H2 H3 H4 H5 H6 H7 H8 H9 H10]] Hn.
  assert (Hne : forall q, is_Some (u_heap s !! q) -> q <> p) by (intros q [? ?]; congruence).
  assert (Hs : forall q, is_Some (u_heap s !! q) -> is_Some (<[p := e]> (u_heap s) !! q)).
  { intros q Hq. by rewrite lookup_insert_ne by (apply not_eq_sym; auto). }
  split.
  - exists st. split; simpl; try done.
    + intros k x Hx Ht. destruct (H3 k x Hx Ht) as (q & ? & Hq & ? & _). exists q. split_and!; auto; try lia.
      intros [= <-]. by apply (Hne p).
    + intros q Hq. destruct (decide (q = p)) as [->|]; [by left|]. rewrite lookup_insert_ne in Hq by done.
      right. by destruct (H5 q Hq).
    + intros q [= <-]. rewrite lookup_insert_eq. eauto.
    + rewrite map_size_insert_None by done. lia.
    + auto.
  - split; simpl; [done| |done]. intros q x Hq Hx. rewrite lookup_insert_ne by (apply not_eq_sym, Hne; eauto). eauto.
Qed.

(** *** Functions that run no guest code *)

Lemma wp_set_focus U d s h (Q : unit -> user32 H -> Prop) :
  inv U d s -> (forall s', inv U d s' -> calm s s' -> Q tt s') -> wp (user32_set_focus_window h) Q s.
Proof.
  intros Hi Hq. apply wp_bind. apply (wp_is_window U d); [done|]. intros b. apply wp_mod, Hq; [by apply inv_focus|by split].
Qed.
Lemma wp_set_active U d s h (Q : unit -> user32 H -> Prop) :
  inv U d s -> (forall s', inv U d s' -> calm s s' -> Q tt s') -> wp (user32_set_active_window h) Q s.
Proof.
  intros Hi Hq. apply wp_bind. apply (wp_is_window U d); [done|]. intros b. apply wp_mod, Hq; [by apply inv_active|by split].
Qed.

Lemma table_get_small st t h :
  represents t st -> 0 <= h < 512 -> exists o ty, wine_handle_get h t = Ret o /\ wine_handle_get_type h t = Ret ty.
Proof. intros R Hh. pose proof (table_get st t h R) as Hg. rewrite wrap_small in Hg by lia. destruct Hg. eauto. Qed.

Lemma wp_replacement U d s x todo : forall h (Q : Z -> user32 H -> Prop),
  inv U d s -> 0 <= h -> h + Z.of_nat todo = 512 -> (forall r, Q r s) -> wp (replacement_loop todo h x) Q s.
Proof.
  induction todo as [|todo IH]; intros h Q Hi Hh Ht Hq; cbn [replacement_loop]; [apply wp_ret, Hq|].
  destruct (h =? x); [apply IH; [done|lia|lia|done]|]. destruct Hi as [st Hi].
  destruct (table_get_small st (u_table s) h (wi_rep _ _ _ _ Hi) ltac:(lia)) as (o & ty & E1 & E2).
  apply wp_bind. apply (wp_table U d _ _ _ ty); [by exists st|done|]. apply wp_bind. apply (wp_table U d _ _ _ o); [by exists st|done|].
  destruct (_ && _); [apply wp_ret, Hq|]. apply IH; [by exists st|lia|lia|done].
Qed.

Lemma wp_ownership U d s h (Q : unit -> user32 H -> Prop) :
  inv U d s -> (forall s', inv U d s' -> calm s s' -> Q tt s') -> wp (user32_update_window_ownership_after_destroy h) Q s.
Proof.
  intros Hi Hq. apply wp_bind. apply (wp_replacement U d); [done|done|done|]. intros r. apply wp_bind, wp_get, wp_bind.
  assert (Hstep : forall (f : Z -> user32 H -> user32 H) b s (Q : unit -> user32 H -> Prop),
    (forall s, inv U d s -> inv U d (f r s) /\ calm s (f r s)) -> inv U d s ->
    (forall s', inv U d s' -> calm s s' -> Q tt s') -> wp (if b : bool then modM (f r) else retM tt) Q s).
  { intros f b s0 Q0 Hf Hi0 Hq0. destruct b; [apply wp_mod, Hq0; by apply Hf|by apply wp_ret, Hq0]. }
  apply Hstep; [intros s0 Hs0; split; [by apply inv_active|by split]|done|]. intros s1 Hi1 Hc1. apply wp_bind, wp_get, wp_bind.
  apply Hstep; [intros s0 Hs0; split; [by apply inv_focus|by split]|done|]. intros s2 Hi2 Hc2. apply wp_bind.
  apply (wp_get_active U d); [done|]. intros a. apply wp_bind. apply (wp_rb U d); [done|]. intros r' s3 Hi3 Hc3.
  apply wp_ret, Hq; [done|]. by eapply calm_trans; [exact Hc1|eapply calm_trans].
Qed.

Lemma wp_load_cursor U d s n (Q : Z -> user32 H -> Prop) :
  inv U d s -> (forall r s', inv U d s' -> calm s s' -> Q r s') -> wp (LoadCursorA n) Q s.
Proof.
  intros Hi Hq. unfold LoadCursorA. destruct (n =? 0); [apply wp_ret; auto|]. apply wp_bind. apply (wp_rb U d); [done|].
  intros cur s1 Hi1 Hc1. destruct (cur =? 0); [apply wp_ret; auto|]. apply wp_bind. apply (wp_alloc_cursor U d); [done|].
  intros h s2 Hi2 Hc2. pose proof (calm_trans _ _ _ Hc1 Hc2) as Hc. destruct (h =? 0); [|apply wp_ret; auto].
  apply wp_bind. apply (wp_rb U d); [done|]. intros r s3 Hi3 Hc3. apply wp_ret, Hq; [done|]. by eapply calm_trans.
Qed.

Lemma wp_set_cursor U d s c (Q : Z -> user32 H -> Prop) :
  inv U d s -> (forall r s', inv U d s' -> calm s s' -> Q r s') -> wp (SetCursor c) Q s.
Proof.
  intros Hi Hq. destruct Hi as [st Hi]. pose proof (ex_intro (fun st => winv U d st s) st Hi) as Hi'.
  destruct (table_get st (u_table s) c (wi_rep _ _ _ _ Hi)) as [E1 E2]. apply wp_bind, wp_get, wp_bind.
  apply (wp_table U d s _ _ _ Hi' E2). apply wp_bind. apply (wp_table U d s _ _ _ Hi' E1).
  destruct (_ && _); [apply wp_ret; auto|]. apply wp_bind. apply (wp_get_active U d); [done|]. intros h. apply wp_bind.
  assert (Hend : forall s', inv U d s' -> calm s s' ->
    wp (bindM (modM (with_cursor c)) (fun _ => retM (g_user32_current_cursor s))) Q s').
  { intros s' Hs' Hc'. apply wp_bind, wp_mod, wp_ret, Hq; [by apply inv_cursor|]. eapply calm_trans; [exact Hc'|by split]. }
  apply (wp_get_window_entry U d); [done|apply wp_bind, wp_ret; by apply Hend|].
  intros p e _ He. apply wp_bind, wp_bind. apply (wp_entry p e); [done|].
  destruct (_ && _); [|apply wp_ret; by apply Hend]. apply wp_bind. apply (wp_rb U d); [done|]. intros r s1 Hi1 Hc1.
  apply wp_ret. by apply Hend.
Qed.

(** *** Functions that run guest code *)

Section calls.
Variable malloc : gmap nat wine_window_entry -> option nat.
Hypothesis malloc_fresh : forall m p, malloc m = Some p -> m !! p = None.
Variable user32_alloc : Z -> bool.
Variable guest_string : Z -> cstr.
Variable create_struct_addr : Z.
Variable local_buffer def_window_proc : Z.
Variable im : images.
Variable call_proc : Z -> Z -> Z -> Z -> lparam -> M H Z.
Hypothesis call_proc_safe : forall proc hwnd msg wParam lp s, inv None 0 s -> wp (call_proc proc hwnd msg wParam lp) (post s) s.

Lemma wndproc_safe proc hwnd msg wParam lp s :
  inv None 0 s -> wp (user32_call_wndproc call_proc proc hwnd msg wParam lp) (post s) s.
Proof. intros Hi. unfold user32_call_wndproc. destruct (proc =? 0); [by split|]. by apply call_proc_safe. Qed.

(** A program that goes on after a call keeps what the call kept. *)
Lemma wp_call {X Y} (m : M H X) (f : X -> M H Y) s0 s :
  keeps s0 s -> wp m (post s) s -> (forall x s', inv None 0 s' -> keeps s0 s' -> wp (f x) (post s0) s') -> wp (bindM m f) (post s0) s.
Proof.
  intros Hk Hm Hf. apply wp_bind. eapply wp_mono; [exact Hm|]. intros x s' [Hi' Hk']. apply Hf; [done|]. by eapply keeps_trans.
Qed.

Lemma held_alive s s' p : keeps s s' -> p ∈ u_held s -> inv None 0 s' -> exists e, u_heap s' !! p = Some e.
Proof.
  intros Hk Hp [st Hi]. rewrite <- (k_held _ _ Hk) in Hp. destruct (wi_held _ _ _ _ Hi p Hp) as [e He]. eauto.
Qed.

Lemma notify_focus_safe e hwnd wa msg other s :
  inv None 0 s -> (forall p, e = Some p -> p ∈ u_held s) -> wp (notify_focus call_proc e hwnd wa msg other) (post s) s.
Proof.
  intros Hi He. destruct e as [p|]; cbn [notify_focus]; [|by split]. specialize (He p eq_refl).
  destruct (held_alive s s p (keeps_refl s) He Hi) as [x Hx]. apply wp_bind. apply (wp_entry p x); [done|].
  destruct (wnd_proc x =? 0); [by split|]. apply (wp_call _ _ s s); [done|by apply wndproc_safe|]. intros _ s1 Hi1 Hk1.
  destruct (held_alive s s1 p Hk1 He Hi1) as [x1 Hx1]. apply wp_bind. apply (wp_entry p x1); [done|].
  apply (wp_call _ _ s s1); [done|by apply wndproc_safe|]. intros _ s2 Hi2 Hk2. by apply wp_ret.
Qed.

(** Running a program with more entries held. *)
Lemma wp_hold_post {X} l (m : M H X) s :
  inv None 0 s -> (forall p, p ∈ l -> is_Some (u_heap s !! p)) ->
  (forall s1, inv None 0 s1 -> u_held s1 = l ++ u_held s -> u_heap s1 = u_heap s -> u_table s1 = u_table s -> wp m (post s1) s1) ->
  wp (hold l m) (fun x s' => post s x s' /\ (forall p, p ∈ l -> is_Some (u_heap s' !! p)) /\
      forall k p, p ∈ l -> win_at (u_table s) k p -> win_at (u_table s') k p) s.
Proof.
  intros Hi Hl Hm. apply wp_hold. set (s1 := with_held (l ++ u_held s) s).
  assert (Hi1 : inv None 0 s1).
  { apply inv_held; [done|]. intros p [Hp|Hp]%elem_of_app; [auto|]. destruct Hi as [st Hi]. by apply (wi_held _ _ _ _ Hi). }
  eapply wp_mono; [apply (Hm s1 Hi1); done|]. intros x s' [Hi' [K1 K2 K3]]. cbn [u_held s1 with_held] in *.
  assert (Hd : drop (length l) (u_held s') = u_held s) by (by rewrite K1, drop_app_length). rewrite Hd.
  assert (Hin : forall p, p ∈ l ++ u_held s -> is_Some (u_heap s' !! p)).
  { intros p Hp. destruct Hi' as [st Hi']. apply (wi_held _ _ _ _ Hi'). by rewrite K1. }
  split; [split|split].
  - apply inv_held; [done|]. intros p Hp. apply Hin, elem_of_app. by right.
  - split; simpl; [done| |].
    + intros p e Hp He. apply (K2 p e); [apply elem_of_app; by right|done].
    + intros k p Hp Hw. apply (K3 k p); [apply elem_of_app; by right|done].
  - intros p Hp. apply Hin, elem_of_app. by left.
  - intros k p Hp Hw. apply (K3 k p); [apply elem_of_app; by left|done].
Qed.

Lemma option_list_elem (o : option nat) p : p ∈ option_list o -> o = Some p.
Proof. destruct o; simpl; [|by intros ?%not_elem_of_nil]. by intros ->%list_elem_of_singleton. Qed.

Lemma focus_transition_safe previous target s :
  inv None 0 s -> wp (user32_send_focus_transition call_proc previous target) (post s) s.
Proof.
  intros Hi. unfold user32_send_focus_transition. apply wp_bind.
  assert (Hrest : forall pe te, (forall p, pe = Some p -> is_Some (u_heap s !! p)) -> (forall p, te = Some p -> is_Some (u_heap s !! p)) ->
    wp (if previous =? target then retM tt
        else hold (option_list pe ++ option_list te)
               (bindM (notify_focus call_proc pe previous WA_INACTIVE WM_KILLFOCUS target)
                  (fun _ => notify_focus call_proc te target WA_ACTIVE WM_SETFOCUS previous))) (post s) s).
  { intros pe te Hp Ht. destruct (previous =? target); [by split|]. eapply wp_mono; [apply wp_hold_post; [done| |]|by intros ? ? [? _]].
    - intros p [Hin|Hin]%elem_of_app; [apply Hp|apply Ht]; by apply option_list_elem.
    - intros s1 Hi1 Hh _ _. apply (wp_call _ _ s1 s1); [done| |].
      + apply notify_focus_safe; [done|]. intros p ->. rewrite Hh. apply elem_of_app. left. apply elem_of_app. left. by left.
      + intros _ s2 Hi2 Hk2. apply (wp_after _ _ _ Hk2). apply notify_focus_safe; [done|]. intros p ->.
        rewrite (k_held _ _ Hk2), Hh. apply elem_of_app. left. apply elem_of_app. right. by left. }
  apply (wp_get_window_entry None 0); [done| |intros p e _ He]; apply wp_bind;
    (apply (wp_get_window_entry None 0); [done| |intros p' e' _ He']); apply Hrest; intros q [=]; subst; eauto.
Qed.

Lemma foreground_focus_safe target send s :
  inv None 0 s -> wp (user32_set_foreground_focus call_proc target send) (post s) s.
Proof.
  intros Hi. apply wp_bind. apply (wp_get_focus None 0); [done|]. intros pf. apply wp_bind. apply (wp_get_active None 0); [done|].
  intros pa. apply wp_bind. apply (wp_set_focus None 0); [done|]. intros s1 Hi1 Hc1. apply wp_bind.
  apply (wp_set_active None 0); [done|]. intros s2 Hi2 Hc2. apply wp_bind. apply (wp_rb None 0); [done|]. intros r s3 Hi3 Hc3.
  assert (Hk : keeps s s3) by (apply calm_keeps; eapply calm_trans; [exact Hc1|by eapply calm_trans]).
  destruct send; [|by split]. apply (wp_after _ _ _ Hk). by apply focus_transition_safe.
Qed.

Lemma wp_decrement U d s (Q : unit -> user32 H -> Prop) :
  inv U d s -> 0 < g_user32_live_windows s -> (forall s', inv U (d + 1) s' -> calm s s' -> Q tt s') -> wp decrement_live Q s.
Proof.
  intros Hi Hl Hq. apply wp_mod. replace (0 <? g_user32_live_windows s) with true by lia. apply Hq; [|by split].
  apply (inv_live _ d); [done|lia].
Qed.

Lemma live_positive s p e : inv None 0 s -> u_heap s !! p = Some e -> 0 < g_user32_live_windows s.
Proof.
  intros [st Hi] He. pose proof (wi_live _ _ _ _ Hi). pose proof (map_size_ne_0_lookup_2 (u_heap s) p ltac:(eauto)). lia.
Qed.

(** Cleaning up after a window that has no handle yet. *)
Lemma cleanup_unlinked_safe p w s s0 :
  inv (Some p) 1 s -> keeps s0 s -> F \/ u_held s0 = [] ->
  wp (bindM (user32_cleanup_failed_create true p w 0 false) (fun _ => retM (None : option Z)))
    (fun r s' => inv None 0 s' /\ keeps s0 s' /\ r = None) s.
Proof.
  intros Hi Hk HF. apply wp_bind. unfold user32_cleanup_failed_create. apply wp_bind, wp_ret, wp_bind.
  assert (Hfree : forall s1, inv (Some p) 1 s1 -> keeps s0 s1 ->
    wp (bindM (if negb (0 =? 0) then free_handle 0 else retM tt) (fun _ => user32_heap_free true p))
      (fun _ s' => wp (retM (None : option Z)) (fun r s' => inv None 0 s' /\ keeps s0 s' /\ r = None) s') s1).
  { intros s1 Hi1 Hk1. apply wp_bind, wp_ret. apply (wp_heap_free 1); [done|by eapply stop_keeps|]. intros s2 Hi2 Hk2. apply wp_ret.
    split_and!; [done|by eapply keeps_trans|done]. }
  destruct (negb (w =? 0)); [|apply wp_ret; by apply Hfree]. apply wp_bind. apply (wp_rb (Some p) 1); [done|].
  intros r s1 Hi1 Hc1. apply wp_ret. apply Hfree; [done|]. eapply keeps_trans; [exact Hk|by apply calm_keeps].
Qed.

(** Cleaning up after a window with a handle. *)
Lemma cleanup_linked_safe p w k s s0 :
  inv None 0 s -> keeps s0 s -> F \/ u_held s0 = [] -> (3 <= k < 512)%nat -> win_at (u_table s) k p ->
  wp (bindM (user32_cleanup_failed_create true p w (Z.of_nat k) true) (fun _ => retM (None : option Z)))
    (fun r s' => inv None 0 s' /\ keeps s0 s' /\ r = None) s.
Proof.
  intros Hi Hk HF Hkr Hw. apply wp_bind. unfold user32_cleanup_failed_create. apply wp_bind.
  assert (He : exists e, u_heap s !! p = Some e).
  { destruct Hi as [st Hi]. rewrite (win_at_store _ st _ _ (wi_rep _ _ _ _ Hi)) in Hw.
    destruct (wi_win _ _ _ _ Hi _ _ Hw eq_refl) as (q & [= <-] & [e He] & _). eauto. }
  destruct He as [e He]. apply (wp_decrement None 0); [done|by eapply live_positive|]. intros s1 Hi1 Hc1. apply wp_bind.
  assert (Hfree : forall s2, inv None 1 s2 -> calm s s2 ->
    wp (bindM (if negb (Z.of_nat k =? 0) then free_handle (Z.of_nat k) else retM tt) (fun _ => user32_heap_free true p))
      (fun _ s' => wp (retM (None : option Z)) (fun r s' => inv None 0 s' /\ keeps s0 s' /\ r = None) s') s2).
  { intros s2 Hi2 Hc2. apply wp_bind. replace (Z.of_nat k =? 0) with false by lia. cbn [negb].
    apply (wp_release 1); [done|rewrite (c_held _ _ Hc2); by eapply stop_keeps| |].
    - rewrite wrap_small, Nat2Z.id by lia. by apply (c_handle _ _ Hc2).
    - intros s3 Hi3 Hk3 _. apply wp_ret. split_and!; [done| |done].
      eapply keeps_trans; [exact Hk|]. eapply keeps_trans; [by apply calm_keeps|done]. }
  destruct (negb (w =? 0)); [|apply wp_ret; by apply Hfree]. apply wp_bind. apply (wp_rb None 1); [done|].
  intros r s2 Hi2 Hc2. apply wp_ret. apply Hfree; [done|]. by eapply calm_trans.
Qed.

(** The messages of a new window. *)
Lemma create_messages_safe p k cs s :
  inv None 0 s -> p ∈ u_held s ->
  wp (bindM (entry p) (fun e =>
      bindM (if wnd_proc e =? 0 then retM 1
             else user32_call_wndproc call_proc (wnd_proc e) k WM_NCCREATE 0 (LCreate create_struct_addr cs)) (fun r =>
      if r =? 0 then retM false
      else bindM (entry p) (fun e =>
           bindM (if wnd_proc e =? 0 then retM 0
                  else user32_call_wndproc call_proc (wnd_proc e) k WM_CREATE 0 (LCreate create_struct_addr cs)) (fun r =>
           retM (negb (r =? -1))))))) (post s) s.
Proof.
  intros Hi Hp. destruct (held_alive s s p (keeps_refl s) Hp Hi) as [e He]. apply wp_bind. apply (wp_entry p e); [done|].
  assert (Hmsg : forall (e : wine_window_entry) s1 z m lp, inv None 0 s1 ->
    wp (if wnd_proc e =? 0 then retM z else user32_call_wndproc call_proc (wnd_proc e) k m 0 lp) (post s1) s1).
  { intros e0 s1 z m lp Hi1. destruct (_ =? 0); [by split|]. by apply wndproc_safe. }
  apply (wp_call _ _ s s); [done|by apply Hmsg|]. intros r s1 Hi1 Hk1. destruct (r =? 0); [by split|].
  destruct (held_alive s s1 p Hk1 Hp Hi1) as [e1 He1]. apply wp_bind. apply (wp_entry p e1); [done|].
  apply (wp_call _ _ s s1); [done|by apply Hmsg|]. intros r' s2 Hi2 Hk2. by apply wp_ret.
Qed.

Lemma finish_create_safe p cs st px py pw ph s s0 :
  inv (Some p) 1 s -> keeps s0 s -> F \/ u_held s0 = [] ->
  wp (user32_finish_window_create true create_struct_addr call_proc p cs st px py pw ph) (post s0) s.
Proof.
  intros Hi Hk HF. destruct Hi as [sto Hi]. destruct (wi_unlinked _ _ _ _ Hi p eq_refl) as [e He].
  assert (Hi' : inv (Some p) 1 s) by (by exists sto). clear Hi sto.
  apply wp_bind. apply (wp_entry p e); [done|]. apply wp_bind. apply (wp_rb (Some p) 1); [done|]. intros w s1 Hi1 Hc1.
  assert (Hk1 : keeps s0 s1) by (eapply keeps_trans; [exact Hk|by apply calm_keeps]).
  destruct (w =? 0). { eapply wp_mono; [by apply cleanup_unlinked_safe|]. intros x s' (? & ? & _). by split. }
  rewrite <- (c_heap _ _ Hc1) in He. apply wp_bind. apply (wp_update p _ e); [done|].
  set (s2 := with_heap _ s1). assert (Hi2 : inv (Some p) 1 s2) by (by apply (inv_update _ _ _ p e)).
  assert (Hk2 : keeps s0 s2) by (eapply keeps_trans; [exact Hk1|by apply (keeps_update _ p e)]). clearbody s2.
  apply wp_bind. apply (wp_alloc_window 1); [done| |].
  { change (0 =? 0) with true. cbn iota. eapply wp_mono; [by apply cleanup_unlinked_safe|]. intros x s' (? & ? & _). by split. }
  intros k t' Hkr Hwk Hi3 Hold. replace (Z.of_nat k =? 0) with false by lia. apply wp_bind, wp_mod.
  set (s3 := with_live _ _). assert (Hi4 : inv None 0 s3) by (apply (inv_live _ 1); [exact Hi3|simpl; lia]).
  assert (Hk3 : keeps s0 s3) by (eapply keeps_trans; [exact Hk2|]; split; simpl; eauto).
  assert (Hw3 : win_at (u_table s3) k p) by exact Hwk. clearbody s3.
  apply wp_bind. apply (wp_rb None 0); [done|]. intros at' s4 Hi5 Hc4.
  assert (Hk4 : keeps s0 s4) by (eapply keeps_trans; [exact Hk3|by apply calm_keeps]).
  assert (Hw4 : win_at (u_table s4) k p) by (by apply (c_handle _ _ Hc4)).
  destruct (negb (at' =? 0)). { eapply wp_mono; [by apply cleanup_linked_safe|]. intros x s' (? & ? & _). by split. }
  apply wp_bind. eapply wp_mono.
  - apply (wp_hold_post [p]); [done| |].
    + intros q ->%list_elem_of_singleton. destruct Hi5 as [sto Hi5]. rewrite (win_at_store _ sto _ _ (wi_rep _ _ _ _ Hi5)) in Hw4.
      by destruct (wi_win _ _ _ _ Hi5 _ _ Hw4 eq_refl) as (q & [= <-] & ? & _).
    + intros s5 Hi6 Hh _ _. apply create_messages_safe; [done|]. rewrite Hh. by left.
  - intros ok s5 ((Hi6 & Hk5) & _ & Hw5). pose proof (keeps_trans _ _ _ Hk4 Hk5) as Hk6.
    destruct ok; cbn [negb]; [by split|].
    eapply wp_mono; [apply cleanup_linked_safe; [done|done|done|done|apply Hw5; [by left|done]]|]. intros x s' (? & ? & _). by split.
Qed.

Lemma finish_destroy_safe hwnd e s :
  inv None 0 s -> F \/ u_held s = [] -> (forall p, e = Some p -> win_at (u_table s) (Z.to_nat (u32 hwnd)) p) ->
  wp (user32_finish_window_destroy true call_proc hwnd e) (post s) s.
Proof.
  intros Hi HF Hp. destruct e as [p|]; cbn [user32_finish_window_destroy]; [|by split]. specialize (Hp p eq_refl).
  assert (He : exists e, u_heap s !! p = Some e).
  { destruct Hi as [st Hi]. rewrite (win_at_store _ st _ _ (wi_rep _ _ _ _ Hi)) in Hp.
    destruct (wi_win _ _ _ _ Hi _ _ Hp eq_refl) as (q & [= <-] & [e He] & _). eauto. }
  destruct He as [e He]. apply wp_bind. apply (wp_entry p e); [done|]. destruct (destroy_in_progress e); [by split|].
  apply wp_bind. apply (wp_update p _ e); [done|]. set (s1 := with_heap _ s).
  assert (Hi1 : inv None 0 s1) by (by apply (inv_update _ _ _ p e)).
  assert (Hk1 : keeps s s1) by (by apply (keeps_update _ p e)).
  assert (Hp1 : win_at (u_table s1) (Z.to_nat (u32 hwnd)) p) by exact Hp.
  assert (He1 : is_Some (u_heap s1 !! p)) by (unfold s1; simpl; rewrite lookup_insert_eq; eauto). clearbody s1.
  apply wp_bind. eapply wp_mono.
  - apply (wp_hold_post [p]); [done|by intros q ->%list_elem_of_singleton|]. intros s2 Hi2 Hh Hhe _.
    assert (Hin : p ∈ u_held s2) by (rewrite Hh; by left). destruct He1 as [e1 He1]. apply wp_bind.
    apply (wp_entry p e1); [by rewrite Hhe|]. destruct (wnd_proc e1 =? 0); [by split|].
    apply (wp_call _ _ s2 s2); [done|by apply wndproc_safe|]. intros _ s3 Hi3 Hk3.
    destruct (held_alive s2 s3 p Hk3 Hin Hi3) as [e3 He3]. apply wp_bind. apply (wp_entry p e3); [done|].
    apply (wp_call _ _ s2 s3); [done|by apply wndproc_safe|]. intros _ s4 Hi4 Hk4. by apply wp_ret.
  - intros _ s2 ((Hi2 & Hk2) & Hal & Hw2). pose proof (keeps_trans _ _ _ Hk1 Hk2) as Hk. destruct (Hal p ltac:(by left)) as [e2 He2].
    apply wp_bind. apply (wp_entry p e2); [done|]. apply wp_bind. apply (wp_rb None 0); [done|]. intros r s3 Hi3 Hc3. apply wp_bind.
    assert (Hl : 0 < g_user32_live_windows s3) by (apply (live_positive s3 p e2); [done|by rewrite (c_heap _ _ Hc3)]).
    eapply wp_mono with (Q := fun _ s4 => wp (user32_heap_free true p) (fun _ s5 => inv None (-1) s5 /\ keeps s3 s5 /\ 0 < g_user32_live_windows s5) s4).
    + apply (wp_release 0); [done|rewrite (c_held _ _ Hc3); by apply (stop_keeps s s2)|apply (c_handle _ _ Hc3), Hw2; [by left|done]|]. intros s5 Hi5 Hk5 Hl5. split_and!; [done|done|lia].
    + intros _ s4 Hs4. apply wp_bind. eapply wp_mono; [exact Hs4|]. intros _ s5 (Hi5 & Hk5 & Hl5). apply wp_bind.
      apply (wp_decrement None (-1)); [done|done|]. intros s6 Hi6 Hc6. apply wp_bind. apply (wp_ownership None 0); [done|].
      intros s7 Hi7 Hc7. apply wp_ret. split; [done|].
      eapply keeps_trans; [exact Hk|]. eapply keeps_trans; [by apply calm_keeps|]. eapply keeps_trans; [exact Hk5|].
      eapply keeps_trans; by apply calm_keeps.
Qed.

Lemma destroy_safe hwnd s : inv None 0 s -> F \/ u_held s = [] -> wp (DestroyWindow true call_proc hwnd) (post s) s.
Proof.
  intros Hi HF. apply wp_bind. apply (wp_get_window_entry None 0); [done| |intros p e Hw He]; apply finish_destroy_safe; try done.
  by intros q [= <-].
Qed.

Lemma ensure_backend_wp s (Q : bool -> user32 H -> Prop) :
  inv None 0 s -> (forall b s', inv None 0 s' -> calm s s' -> Q b s') -> wp user32_ensure_backend Q s.
Proof.
  intros Hi Hq. apply wp_bind, wp_get, wp_bind. destruct (g_user32_backend_inited s); [by apply wp_ret, wp_get, Hq|].
  apply wp_bind. apply (wp_rb None 0); [done|]. intros r s1 Hi1 Hc1. apply wp_mod, wp_get, Hq.
  - destruct Hi1 as [st [H1 H2 H3 H4 H5 H6 H7 H8 H9 H10]]. exists st. by split.
  - eapply calm_trans; [exact Hc1|by split].
Qed.

Lemma create_safe ex cls name st x y w h pa me inst par s :
  inv None 0 s -> F \/ u_held s = [] ->
  wp (CreateWindowExA true malloc create_struct_addr call_proc ex cls name st x y w h pa me inst par) (post s) s.
Proof.
  intros Hi HF. apply wp_bind, wp_mod. set (s1 := with_attempted s).
  assert (Hi1 : inv None 0 s1) by (destruct Hi as [sto [H1 H2 H3 H4 H5 H6 H7 H8 H9 H10]]; exists sto; by split).
  assert (Hk1 : keeps s s1) by (split; simpl; eauto). clearbody s1. apply wp_bind. apply ensure_backend_wp; [done|].
  intros av s2 Hi2 Hc2. assert (Hk2 : keeps s s2) by (eapply keeps_trans; [exact Hk1|by apply calm_keeps]).
  destruct (negb av); [by split|]. apply wp_bind.
  destruct (find_registered_class_safe (u_classes s2) cls) as [c Ec]; [destruct Hi2 as [sto Hi2]; apply (wi_classes _ _ _ _ Hi2)|].
  unfold wp at 1. rewrite Ec. cbn [mbind outcome_bind]. destruct c as [[wc atom]|]; [|by split]. apply wp_bind.
  unfold wp at 1, user32_heap_alloc. destruct (malloc (u_heap s2)) as [p|] eqn:Em; [|by split].
  destruct (inv_new 0 s2 p (user32_init_window_entry wc atom ex st pa me inst name) Hi2 (malloc_fresh _ _ Em)) as [Hi3 Hk3].
  set (e := user32_init_window_entry _ _ _ _ _ _ _ _) in *. set (s3 := with_heap _ s2) in *.
  assert (He : u_heap s3 !! p = Some e) by (unfold s3; simpl; apply lookup_insert_eq).
  pose proof (keeps_trans _ _ _ Hk2 Hk3) as Hk4. clearbody s3. apply wp_bind. apply (wp_entry p e); [done|]. apply wp_bind.
  assert (Hrest : forall s4, inv (Some p) 1 s4 -> keeps s s4 -> forall cs dx dy dw dh,
    wp (bindM (user32_finish_window_create true create_struct_addr call_proc p cs st dx dy dw dh) (fun r =>
        match r with None => retM 0 | Some k => bindM (user32_set_foreground_focus call_proc k true) (fun _ => retM k) end)) (post s) s4).
  { intros s4 Hi4 Hk5 cs dx dy dw dh. apply wp_bind. eapply wp_mono; [by apply finish_create_safe|].
    intros r s5 [Hi5 Hk6]. destruct r as [k|]; [|by split]. apply (wp_call _ _ s s5); [done|by apply foreground_focus_safe|].
    intros _ s6 Hi6 Hk7. by apply wp_ret. }
  destruct (class_cursor e =? 0); [|apply wp_ret; by apply Hrest]. apply wp_bind. apply (wp_load_cursor (Some p) 1); [done|].
  intros cur s4 Hi4 Hc4. rewrite <- (c_heap _ _ Hc4) in He. apply (wp_update p _ e); [done|]. apply Hrest.
  - by apply (inv_update _ _ _ p e).
  - eapply keeps_trans; [exact Hk4|]. eapply keeps_trans; [by apply calm_keeps|]. by apply (keeps_update _ p e).
Qed.

(** *** Operations on a window *)

Lemma rb_post q s : inv None 0 s -> wp (rb q) (post s) s.
Proof. intros Hi. apply (wp_rb None 0); [done|]. intros r s' Hi' Hc. split; auto. Qed.

Lemma with_window_safe hwnd f s :
  inv None 0 s -> (forall p e, u_heap s !! p = Some e -> wp (f p e) (post s) s) -> wp (with_window hwnd f) (post s) s.
Proof.
  intros Hi Hf. apply wp_bind. apply (wp_get_window_entry None 0); [done|by split|]. intros p e _ He. apply wp_bind.
  apply (wp_entry p e); [done|]. apply (wp_call _ _ s s); [done|by apply Hf|]. intros _ s' Hi' Hk'. by apply wp_ret.
Qed.

Lemma rb_then_safe q s0 s (m : M H unit) :
  inv None 0 s -> keeps s0 s -> (forall s', inv None 0 s' -> wp m (post s') s') -> wp (bindM (rb q) (fun _ => m)) (post s0) s.
Proof. intros Hi Hk Hm. apply (wp_call _ _ s0 s); [done|by apply rb_post|]. intros _ s' Hi' Hk'. apply (wp_after _ _ _ Hk'). by apply Hm. Qed.
Lemma ret_safe {X} (x : X) s : inv None 0 s -> wp (retM x) (post s) s.
Proof. by split. Qed.

Lemma show_safe hwnd cmd s : inv None 0 s -> wp (ShowWindow call_proc hwnd cmd) (post s) s.
Proof.
  intros Hi. apply with_window_safe; [done|]. intros p e He.
  repeat (match goal with |- context [if ?b then _ else _] => destruct b end);
    (apply rb_then_safe; [done|done|]; intros s' Hi'; first [by apply ret_safe | by apply foreground_focus_safe]).
Qed.

Lemma when_safe b (m : M H unit) s : inv None 0 s -> (inv None 0 s -> wp m (post s) s) -> wp (when b m) (post s) s.
Proof. intros Hi Hm. destruct b; [by apply Hm|by apply ret_safe]. Qed.
Lemma seq_safe (m1 m2 : M H unit) s :
  inv None 0 s -> wp m1 (post s) s -> (forall s', inv None 0 s' -> wp m2 (post s') s') -> wp (bindM m1 (fun _ => m2)) (post s) s.
Proof. intros Hi H1 H2. apply (wp_call _ _ s s); [done|done|]. intros _ s' Hi' Hk. apply (wp_after _ _ _ Hk). by apply H2. Qed.

Lemma set_window_pos_safe hwnd x y cx cy fl s : inv None 0 s -> wp (SetWindowPos call_proc hwnd x y cx cy fl) (post s) s.
Proof.
  intros Hi. apply with_window_safe; [done|]. intros p e He.
  assert (Hrb : forall b q s, inv None 0 s -> wp (when b (bindM (rb q) (fun _ => retM tt))) (post s) s).
  { intros b q s0 Hs0. apply when_safe; [done|]. intros _. apply rb_then_safe; [done|done|]. intros s' Hs'. by apply ret_safe. }
  clear He. do 4 (apply seq_safe; [done|by apply Hrb|]; clear s Hi; intros s Hi).
  apply when_safe; [done|]. by apply foreground_focus_safe.
Qed.

Lemma move_window_safe hwnd x y w h s : inv None 0 s -> wp (MoveWindow hwnd x y w h) (post s) s.
Proof.
  intros Hi. apply with_window_safe; [done|]. intros p e He. apply rb_then_safe; [done|done|]. intros s' Hi'.
  apply rb_then_safe; [done|done|]. intros s2 Hi2. by apply ret_safe.
Qed.

(** Changing the title of a window and telling the backend. *)
Lemma set_title_safe {X} p e t (x : X) s :
  inv None 0 s -> u_heap s !! p = Some e ->
  wp (bindM (update p (set_title t)) (fun _ => bindM (entry p) (fun e => bindM (rb (RbSetTitle (sdl_window e) (title e))) (fun _ => retM x))))
    (post s) s.
Proof.
  intros Hi He. apply wp_bind. apply (wp_update p _ e); [done|]. apply wp_bind.
  apply (wp_entry p (set_title t e)); [simpl; by rewrite lookup_insert_eq|]. apply wp_bind.
  apply (wp_rb None 0); [by apply (inv_update _ _ _ p e)|]. intros r s' Hi' Hc. apply wp_ret. split; [done|].
  eapply keeps_trans; [by apply (keeps_update s p e (set_title t e))|by apply calm_keeps].
Qed.

Lemma set_text_safe hwnd t s : inv None 0 s -> wp (SetWindowTextA hwnd t) (post s) s.
Proof. intros Hi. apply with_window_safe; [done|]. intros p e He. by apply (set_title_safe p e). Qed.

Lemma get_long_safe hwnd i s : inv None 0 s -> wp (GetWindowLongPtrA hwnd i) (post s) s.
Proof.
  intros Hi. apply wp_bind. apply (wp_get_window_entry None 0); [done| |].
  - apply (wp_read_controls None 0); [done|intros c _; apply dialog_long_ok|]. intros r s' Hi' Hc. split; auto.
  - intros p e _ He. apply wp_bind. by apply (wp_entry p e).
Qed.
Lemma set_long_safe hwnd i v s : inv None 0 s -> wp (SetWindowLongPtrA hwnd i v) (post s) s.
Proof.
  intros Hi. apply wp_bind. apply (wp_get_window_entry None 0); [done|by split|]. intros p e _ He. apply wp_bind.
  apply (wp_entry p e); [done|]. apply wp_bind. apply (wp_update p _ e); [done|]. apply wp_ret.
  split; [by apply (inv_update _ _ _ p e)|by apply (keeps_update _ p e)].
Qed.

(** *** Dispatching *)

Lemma set_cursor_safe c s : inv None 0 s -> wp (SetCursor c) (post s) s.
Proof. intros Hi. apply (wp_set_cursor None 0); [done|]. intros r s' Hi' Hc. split; auto. Qed.

Lemma def_proc_safe hwnd msg wParam lp s : inv None 0 s -> F \/ u_held s = [] -> wp (DefWindowProcA true call_proc hwnd msg wParam lp) (post s) s.
Proof.
  intros Hi HF. unfold DefWindowProcA. destruct (msg =? WM_NCCREATE); [by split|]. destruct (msg =? WM_SETCURSOR).
  - apply wp_bind. apply (wp_get_window_entry None 0); [done|by split|]. intros p e _ He. apply wp_bind.
    apply (wp_entry p e); [done|]. destruct (negb _); [|by split]. apply (wp_call _ _ s s); [done|by apply set_cursor_safe|].
    intros _ s' Hi' Hk. by apply wp_ret.
  - assert (Hd : forall m w, wp (default_close true call_proc hwnd m w) (post s) s).
    { intros m w. unfold default_close. destruct (_ || _); [|by split]. apply (wp_call _ _ s s); [done|by apply destroy_safe|].
      intros _ s' Hi' Hk. by apply wp_ret. }
    destruct (_ && _ && _); apply Hd.
Qed.

Lemma proc_or_default_safe hwnd msg wParam lp (x : wine_window_entry) s :
  inv None 0 s -> F \/ u_held s = [] ->
  wp (if negb (wnd_proc x =? 0) then user32_call_wndproc call_proc (wnd_proc x) hwnd msg wParam lp
      else DefWindowProcA true call_proc hwnd msg wParam lp) (post s) s.
Proof. intros Hi HF. destruct (negb _); [by apply wndproc_safe|by apply def_proc_safe]. Qed.

Lemma send_message_safe hwnd msg wParam lp s :
  inv None 0 s -> F \/ u_held s = [] -> wp (SendMessageA true guest_string call_proc hwnd msg wParam lp) (post s) s.
Proof.
  intros Hi HF. apply wp_bind.
  assert (Hret : forall (m : M H Z) s, wp m (post s) s -> wp (bindM m (fun r => retM (r, [] : cstr))) (post s) s).
  { intros m s1 Hm. apply (wp_call _ _ s1 s1); [done|done|]. intros r s' Hi' Hk. by apply wp_ret. }
  apply (wp_window None 0); [done|]. intros e He. apply wp_bind.
  apply (wp_controls None 0); [done|apply control_message_ok|]. intros r s1 Hi1 Hc1.
  apply (wp_after _ _ _ (calm_keeps _ _ Hc1)). rewrite <- (c_heap _ _ Hc1) in He. rewrite <- (c_held _ _ Hc1) in HF.
  destruct (negb _); [by split|].
  destruct (msg =? WM_GETTEXT); [|destruct (msg =? WM_SETTEXT); [|destruct (msg =? WM_GETMINMAXINFO); [by split|]]];
    (destruct e as [p|]; [destruct (He p eq_refl) as [x Hx]|]); try by split.
  - destruct (_ || _); [by split|]. apply wp_bind. by apply (wp_entry p x).
  - by apply (set_title_safe p x).
  - apply wp_bind. apply (wp_entry p x); [done|]. by apply Hret, proc_or_default_safe.
  - by apply Hret, def_proc_safe.
Qed.

Lemma dispatch_safe hwnd msg wParam lp s :
  inv None 0 s -> F \/ u_held s = [] -> wp (DispatchMessageA true guest_string call_proc hwnd msg wParam lp) (post s) s.
Proof.
  intros Hi HF. apply (wp_call _ _ s s); [done| |].
  - destruct (bool_decide _); [|by split]. apply (wp_call _ _ s s); [done|by apply send_message_safe|]. intros _ s' Hi' Hk. by apply wp_ret.
  - intros _ s' Hi' Hk. apply (wp_after _ _ _ Hk). pose proof (stop_keeps _ _ Hk HF) as HF'. apply wp_bind.
    apply (wp_get_window_entry None 0); [done|by apply def_proc_safe|]. intros p e _ He. apply wp_bind.
    apply (wp_entry p e); [done|]. by apply proc_or_default_safe.
Qed.

(** *** Dialogs *)

(** The resource directories of the images are well formed. *)
Hypothesis im_ok : images_ok im.

Lemma register_safe wc s (Q : Z -> user32 H -> Prop) :
  inv None 0 s -> (forall a s', inv None 0 s' -> calm s s' -> Q a s') -> wp (register_class user32_alloc wc) Q s.
Proof.
  intros [st Hi] Hq. destruct (RegisterClassA_safe user32_alloc wc (u_classes s) (wi_classes _ _ _ _ Hi)) as (a & r & E & Hr).
  unfold wp, register_class. rewrite E. cbn [mbind outcome_bind]. destruct Hi as [H1 H2 H3 H4 H5 H6 H7 H8 H9 H10].
  apply Hq; [exists st; by split|by split].
Qed.

Lemma find_template_wp q hInst s (Q : Z -> user32 H -> Prop) :
  inv None 0 s -> query_ok q -> (forall r s', inv None 0 s' -> calm s s' -> Q r s') -> wp (find_template im hInst q) Q s.
Proof.
  intros Hi Hk Hq. pose proof Hi as [st Hw]. pose proof (wi_dialogs _ _ _ _ Hw) as Hd.
  assert (Hsame : forall t r, t = u_table s -> Q r (with_dialogs (mkDialogState (ds_controls (u_dialogs s)) (g_dialog_class_registered (u_dialogs s))
      (g_dialog_modals (u_dialogs s)) (ds_resources (u_dialogs s))) (with_table t s))).
  { intros t r ->. apply Hq; [apply inv_dialogs; [by destruct s|done]|by split]. }
  unfold wp, find_template, wine_resource_find. pose proof (im_ok hInst) as Ho.
  change (wine_resource_get_root hInst (mkRsrc (im_base im) (im_modules im) (im_bytes im) (u_table s) (ds_resources (u_dialogs s))))
    with (wine_resource_get_root hInst (images_rsrc im)).
  destruct (wine_resource_get_root hInst (images_rsrc im)) as [[[[[base nt] root] size]|]| |]; [|by apply Hsame|done..].
  destruct Ho as [t Ht]. cbn [mbind outcome_bind rs_image]. change (type_query (Q_id 5)) with (Q_id 5).
  rewrite (find_data_spec _ _ _ (Q_id 5) q t) by (done || simpl; lia). cbn [mbind outcome_bind].
  destruct (match tree_lookup (Q_id 5) q t with Some leaf => _ | None => _ end) as [[rva sz]|]; [|by apply Hsame].
  cbn [rs_objects rs_handles]. destruct (im_malloc im _) as [p|]; [|by apply Hsame].
  destruct (pe_rva_to_ptr base nt rva sz) as [data|]; [|by apply Hsame].
  destruct (alloc_other None 0 s HANDLE_TYPE_HRSRC (OResource p) Hi) as (t' & h & -> & Hi' & Hc); [done..|]. cbn [mbind outcome_bind].
  apply Hq; [by apply inv_dialogs|]. eapply calm_trans; [exact Hc|by split].
Qed.

Lemma ensure_class_wp s (Q : unit -> user32 H -> Prop) :
  inv None 0 s -> (forall s', inv None 0 s' -> calm s s' -> Q tt s') -> wp (user32_dialog_ensure_class user32_alloc def_window_proc) Q s.
Proof.
  intros Hi Hq. unfold user32_dialog_ensure_class. apply wp_bind, wp_get. destruct (g_dialog_class_registered _); [by apply wp_ret, Hq|].
  apply wp_bind, register_safe; [done|]. intros a s1 Hi1 Hc1. unfold when. destruct (negb _); [|by apply wp_ret, Hq].
  apply wp_mod, Hq; [|eapply calm_trans; [exact Hc1|by split]]. apply inv_dialogs; [done|]. destruct Hi1 as [st Hw]. apply (wi_dialogs _ _ _ _ Hw).
Qed.

Lemma modal_post {X} (f : modals -> X * modals) s : inv None 0 s -> wp (modalM f) (post s) s.
Proof. intros Hi. apply (wp_modal None 0); [done|]. intros x s' Hi' Hc. split; auto. Qed.
Lemma controls_post {X} (f : dialogs -> outcome (X * dialogs)) s :
  inv None 0 s -> (forall c, dialogs_ok c -> exists x c', f c = Ret (x, c') /\ dialogs_ok c') -> wp (controls f) (post s) s.
Proof. intros Hi Hf. apply (wp_controls None 0); [done|done|]. intros x s' Hi' Hc. split; auto. Qed.
Lemma get_post {X} (f : user32 H -> X) s : inv None 0 s -> wp (getM f) (post s) s.
Proof. intros Hi. by apply wp_get. Qed.
(** A call whose result is dropped. *)
Lemma drop_post {X} (m : M H X) s : wp m (post s) s -> wp (bindM m (fun _ => retM tt)) (post s) s.
Proof. intros Hm. apply (wp_call _ _ s s); [done|done|]. intros _ s' Hi' Hk. by apply wp_ret. Qed.

(** One call after the other. *)
Lemma then_post {X Y} (m : M H X) (f : X -> M H Y) s :
  F \/ u_held s = [] -> wp m (post s) s ->
  (forall x s', inv None 0 s' -> F \/ u_held s' = [] -> wp (f x) (post s') s') -> wp (bindM m f) (post s) s.
Proof.
  intros HF Hm Hf. apply (wp_call _ _ s s); [done|done|]. intros x s' Hi' Hk. apply (wp_after _ _ _ Hk), Hf; [done|by eapply stop_keeps].
Qed.
Lemma proc_post proc hwnd msg wParam lp s : inv None 0 s -> wp (call_proc proc hwnd msg wParam lp) (post s) s.
Proof. by apply call_proc_safe. Qed.

Lemma end_safe hDlg r s : inv None 0 s -> F \/ u_held s = [] -> wp (user32_dialog_end true call_proc hDlg r) (post s) s.
Proof.
  intros Hi HF. apply then_post; [done|by apply modal_post|]. intros _ s1 Hi1 HF1. apply when_safe; [done|]. intros _. by apply drop_post, destroy_safe.
Qed.

Lemma lifecycle_safe hwnd func s :
  inv None 0 s -> F \/ u_held s = [] -> wp (user32_dialog_run_modal_lifecycle call_proc hwnd func) (post s) s.
Proof.
  intros Hi HF. apply then_post; [done|by apply modal_post|]. intros m s1 Hi1 HF1. destruct (hwnd =? 0); [by split|].
  apply then_post; [done|destruct m; [by split|by apply modal_post]|]. intros m' s2 Hi2 HF2. destruct m' as [i|]; [|by split].
  apply then_post; [done|by apply get_post|]. intros m1 s3 Hi3 HF3.
  apply then_post; [done|apply when_safe; [done|intros _; by apply drop_post, proc_post]|]. intros _ s4 Hi4 HF4.
  apply then_post; [done|by apply get_post|]. intros m2 s5 Hi5 HF5.
  apply then_post; [done|apply when_safe; [done|intros _; by apply drop_post, proc_post]|]. intros _ s6 Hi6 HF6.
  apply then_post; [done|by apply get_post|]. by split.
Qed.

Lemma run_modal_safe hwnd func s : inv None 0 s -> F \/ u_held s = [] -> wp (user32_dialog_run_modal true call_proc hwnd func) (post s) s.
Proof.
  intros Hi HF. apply then_post; [done|by apply lifecycle_safe|]. intros r s1 Hi1 HF1. destruct r as [[r e]|]; [|by split].
  apply then_post; [done|destruct (negb e); [by apply end_safe|by apply modal_post]|]. intros _ s2 Hi2 HF2.
  apply then_post; [done|by apply modal_post|]. by split.
Qed.

Lemma dialog_message_safe hDlg m s : inv None 0 s -> F \/ u_held s = [] -> wp (IsDialogMessageA call_proc hDlg m) (post s) s.
Proof.
  intros Hi HF. unfold IsDialogMessageA, user32_dialog_dispatch_message. destruct m as [[[[hwnd msg] wp0] lp]|]; [|by split].
  destruct (hDlg =? 0); [by split|]. apply then_post; [done|by apply modal_post|]. intros proc s1 Hi1 HF1. destruct (proc =? 0); [by split|].
  apply then_post; [done| |].
  - destruct (hwnd =? hDlg); [by split|]. apply controls_post; [done|]. intros c Hc.
    destruct (user32_dialog_find_item_by_handle hwnd c) as [i|] eqn:E; [|by eexists _, _].
    destruct (first_item_at _ _ _ E) as (it & -> & _). by eexists _, _.
  - intros mine s2 Hi2 HF2. destruct (negb mine); [by split|]. apply then_post; [done|by apply proc_post|]. by split.
Qed.

Lemma dlg_text_safe hDlg id buf max s : inv None 0 s -> F \/ u_held s = [] -> wp (GetDlgItemTextA true guest_string call_proc hDlg id buf max) (post s) s.
Proof.
  intros Hi HF. apply then_post; [done|apply controls_post; [done|apply get_item_handle_ok]|]. intros item s1 Hi1 HF1. destruct (_ || _); [by split|].
  apply then_post; [done|by apply send_message_safe|]. by split.
Qed.

(** What WM_GETTEXT writes, when it writes something, ends with a terminator. *)
Lemma get_text_wp hwnd b s : inv None 0 s ->
  wp (SendMessageA true guest_string call_proc hwnd WM_GETTEXT 64 (LInt b)) (fun r s' => post s r s' /\ (r.1 <= 0 \/ 0 ∈ r.2)) s.
Proof.
  intros Hi. apply wp_bind. apply (wp_window None 0); [done|]. intros e He. apply wp_bind.
  pose proof Hi as [st Hw]. destruct (control_message_ok (lparam_string guest_string (LInt b)) hwnd WM_GETTEXT 64 (lparam_value (LInt b))
    (ds_controls (u_dialogs s)) (wi_dialogs _ _ _ _ Hw)) as ([r out] & c & E & Hc).
  unfold wp at 1, controls. rewrite E. cbn [mbind outcome_bind]. apply control_text_terminated in E.
  pose proof (inv_dialogs _ _ s (mkDialogState c (g_dialog_class_registered (u_dialogs s)) (g_dialog_modals (u_dialogs s)) (ds_resources (u_dialogs s))) Hi Hc) as Hi1.
  set (s1 := with_dialogs _ s) in *. assert (Hp : forall x : Z * bytes, post s x s1) by (intros x; split; [done|apply calm_keeps; by split]).
  cbn [fst]. destruct (Z.eqb_spec r NOT_A_CONTROL) as [->|Hne]; cbn [negb].
  2: { apply wp_ret. split; [apply Hp|]. cbn [fst snd]. destruct E as [?|[->|?]]; [done|by left|by right]. }
  change (WM_GETTEXT =? WM_GETTEXT) with true. cbn iota. change (i32 64) with 64.
  destruct e as [p|]; [|apply wp_ret; split; [apply Hp|by left]]. destruct (He p eq_refl) as [x Hx].
  destruct (_ || _); [apply wp_ret; split; [apply Hp|by left]|]. apply wp_bind. apply (wp_entry p x); [done|]. apply wp_ret.
  split; [apply Hp|]. right. cbn [snd]. apply elem_of_app. right. apply elem_of_replicate. split; [done|].
  unfold user32_strncpy. rewrite length_take. change (Z.to_nat 64) with 64%nat. lia.
Qed.
Lemma cstr_from_some b : 0 ∈ b -> exists t, cstr_from b = Some t.
Proof.
  induction b as [|c b IH]; [by intros ?%not_elem_of_nil|]. intros Hin. cbn [cstr_from]. destruct (Z.eqb_spec c 0); [eauto|].
  apply elem_of_cons in Hin as [?|Hin]; [done|]. destruct (IH Hin) as [t ->]. by eexists.
Qed.

Lemma dlg_int_safe hDlg id s :
  inv None 0 s -> F \/ u_held s = [] -> wp (GetDlgItemInt true guest_string local_buffer call_proc hDlg id) (post s) s.
Proof.
  intros Hi HF. apply then_post; [done|apply controls_post; [done|apply get_item_handle_ok]|]. intros item s1 Hi1 HF1. destruct (item =? 0); [by split|].
  apply wp_bind. eapply wp_mono; [by apply get_text_wp|]. intros r s2 [[Hi2 Hk2] Hr]. apply (wp_after _ _ _ Hk2).
  destruct (Z.leb_spec r.1 0); [by split|]. destruct Hr as [?|Hr]; [lia|]. destruct (cstr_from_some r.2 Hr) as [t Et].
  unfold wp, bindM. rewrite Et. cbn [deref mbind outcome_bind]. destruct (strtol t) as [[v [|? ?]]|]; [|by split..]. destruct (v <? 0); by split.
Qed.

Lemma set_dlg_int_safe hDlg id v sg s :
  inv None 0 s -> F \/ u_held s = [] -> wp (SetDlgItemInt true guest_string local_buffer call_proc hDlg id v sg) (post s) s.
Proof.
  intros Hi HF. apply then_post; [done|apply controls_post; [done|apply get_item_handle_ok]|]. intros item s1 Hi1 HF1. destruct (item =? 0); [by split|].
  apply then_post; [done|by apply send_message_safe|]. by split.
Qed.

Lemma find_window_wp todo : forall h cls name s, inv None 0 s -> 0 <= h -> h + Z.of_nat todo = 512 -> wp (find_window_loop todo h cls name) (post s) s.
Proof.
  induction todo as [|todo IH]; intros h cls name s Hi Hh Ht; cbn [find_window_loop]; [by split|].
  assert (Hnext : wp (find_window_loop todo (h + 1) cls name) (post s) s) by (apply IH; [done|lia..]).
  pose proof Hi as [st Hw]. pose proof (table_get st (u_table s) h (wi_rep _ _ _ _ Hw)) as Hg. rewrite wrap_small in Hg by lia. destruct Hg as [E1 E2].
  apply wp_bind. apply (wp_table None 0 _ _ _ _ Hi E2). destruct (negb _) eqn:Et; [done|]. apply wp_bind. apply (wp_table None 0 _ _ _ _ Hi E1).
  destruct (st !! Z.to_nat h) as [e|] eqn:Ee; [|done]. apply negb_false_iff, Z.eqb_eq in Et.
  destruct (wi_win _ _ _ _ Hw _ _ Ee Et) as (p & -> & [x Hx] & _). cbn. apply wp_bind. apply (wp_entry p x); [done|].
  repeat (destruct (_ && _); [done|]). by split.
Qed.

Lemma foreground_safe hwnd s : inv None 0 s -> wp (SetForegroundWindow hwnd) (post s) s.
Proof.
  intros Hi. apply wp_bind. apply (wp_window None 0); [done|]. intros e He. destruct e as [p|]; [|by split].
  apply wp_bind. apply (wp_set_active None 0); [done|]. intros s1 Hi1 Hc1. apply wp_bind. apply (wp_set_focus None 0); [done|].
  intros s2 Hi2 Hc2. split; [done|]. apply calm_keeps. by eapply calm_trans.
Qed.

Lemma send_post hwnd msg w lp s : inv None 0 s -> F \/ u_held s = [] -> wp (SendMessageA true guest_string call_proc hwnd msg w lp) (post s) s.
Proof. by apply send_message_safe. Qed.
Lemma sent_post b hwnd msg w lp s : inv None 0 s -> F \/ u_held s = [] ->
  wp (when b (bindM (SendMessageA true guest_string call_proc hwnd msg w lp) (fun _ => retM tt))) (post s) s.
Proof. intros Hi HF. apply when_safe; [done|]. intros _. by apply drop_post, send_post. Qed.

Lemma item_now_wp i s (Q : dialog_item_state -> user32 H -> Prop) :
  inv None 0 s -> (i < 64)%nat -> (forall it s', item_fit it -> inv None 0 s' -> keeps s s' -> Q it s') -> wp (item_now i) Q s.
Proof.
  intros Hi Hlt Hq. pose proof Hi as [st Hw]. pose proof (wi_dialogs _ _ _ _ Hw) as Hd.
  destruct (item_in i _ Hd Hlt) as (it & E & Hf). unfold wp, item_now, controls. rewrite E. cbn [mbind outcome_bind].
  apply Hq; [done|by apply inv_dialogs|]. apply calm_keeps. by split.
Qed.
Lemma find_item_wp hwnd id create s (Q : option nat -> user32 H -> Prop) :
  inv None 0 s -> (forall o s', (forall i, o = Some i -> (i < 64)%nat) -> inv None 0 s' -> keeps s s' -> Q o s') -> wp (find_item hwnd id create) Q s.
Proof.
  intros Hi Hq. pose proof Hi as [st Hw]. pose proof (wi_dialogs _ _ _ _ Hw) as Hd. unfold wp, find_item, controls. cbn [mbind outcome_bind].
  pose proof (find_item_ok hwnd id create _ Hd) as [Hd' _]. pose proof (fun i => find_item_lt hwnd id create (ds_controls (u_dialogs s)) i Hd) as Hlt.
  destruct (user32_dialog_find_item _ _ _ _) as [o c]. cbn [fst snd] in *. apply Hq; [done|by apply inv_dialogs|]. apply calm_keeps. by split.
Qed.
Lemma item_handle_post o s : inv None 0 s -> (forall i, o = Some i -> (i < 64)%nat) -> wp (item_handle o) (post s) s.
Proof. intros Hi Ho. destruct o as [i|]; [|by split]. apply wp_bind. apply (item_now_wp i); [done|by apply Ho|]. intros it s1 _ Hi1 Hk1. by split. Qed.

(** A loop over the strings of an item. *)
Lemma first_wad_total it i todo : item_fit it -> (i + todo <= 32)%nat -> exists r, first_wad it i todo = Ret r.
Proof.
  intros [H1 H2 H3 H4]. revert i. induction todo as [|todo IH]; intros i Hi; cbn [first_wad]; [by eexists|].
  destruct (lookup_lt_is_Some_2 (items it) i) as [s ->]; [lia|]. destruct (lookup_lt_is_Some_2 (item_data it) i) as [v ->]; [lia|].
  cbn [deref mbind outcome_bind]. destruct (_ && _); [by eexists|]. apply IH. lia.
Qed.
Lemma data_index_total l n i todo : (i + todo <= length l)%nat -> exists r, data_index_loop l n i todo = Ret r.
Proof.
  revert i. induction todo as [|todo IH]; intros i Hi; cbn [data_index_loop]; [by eexists|].
  destruct (lookup_lt_is_Some_2 l i) as [v ->]; [lia|]. cbn [deref mbind outcome_bind]. destruct (v =? n); [by eexists|]. apply IH. lia.
Qed.
Lemma choose_wad_total cur it : item_fit it -> exists r, choose_wad cur it = Ret r.
Proof.
  intros Hf. pose proof Hf as [H1 H2 H3 H4]. unfold choose_wad. cbv zeta.
  assert (Hnamed : forall t i, exists r, (if i <? 0 then user32_dialog_find_string it 0 (Some (lit t)) true else Ret i) = Ret r).
  { intros t i. destruct (i <? 0); [|by eexists]. destruct (find_string_total it 0 (Some (lit t)) true Hf ltac:(lia)) as (r & -> & _). by eexists. }
  assert (exists first, (if 0 <? cur then Ret cur
     else if (cur =? 0) && (item_count it =? 1)
     then s ← deref (items it !! 0%nat); Ret (if user32_strcmp (Some s) (Some (lit "(NONE)")) =? 0 then -1 else cur)
     else Ret (-1)) = Ret first) as [f ->].
  { destruct (0 <? cur); [by eexists|]. destruct (_ && _); [|by eexists]. destruct (lookup_lt_is_Some_2 (items it) 0) as [s ->]; [lia|]. by eexists. }
  cbn [mbind outcome_bind]. destruct (Hnamed "DOOM1.WAD"%string f) as [i ->]. cbn [mbind outcome_bind].
  destruct (Hnamed "DOOM1"%string i) as [j ->]. cbn [mbind outcome_bind]. destruct (j <? 0); [|by eexists]. apply first_wad_total; [done|lia].
Qed.

Lemma autostart_wad_safe inst hwnd func wad_hwnd map_hwnd wad map s :
  inv None 0 s -> F \/ u_held s = [] -> (forall i, wad = Some i -> (i < 64)%nat) ->
  wp (autostart_wad true guest_string local_buffer call_proc inst hwnd func wad_hwnd map_hwnd wad map) (post s) s.
Proof.
  intros Hi HF Hwad. apply then_post; [done|by apply send_post|]. intros n s1 Hi1 HF1.
  apply then_post; [done|by apply sent_post|]. intros _ s2 Hi2 HF2. apply then_post; [done|by apply send_post|]. intros _ s3 Hi3 HF3.
  apply then_post; [done|by apply send_post|]. intros cur s4 Hi4 HF4. apply then_post; [done| |].
  { destruct wad as [w|]; [|by split]. apply wp_bind. apply (item_now_wp w); [done|by apply Hwad|]. intros it s5 Hf Hi5 Hk5.
    destruct (choose_wad_total (i32 cur.1) it Hf) as [r E]. unfold wp. rewrite E. by split. }
  intros i s5 Hi5 HF5. apply then_post; [done| |].
  { destruct (i <? 0); [|by split]. apply then_post; [done|by apply send_post|]. by split. }
  intros j s6 Hi6 HF6. apply then_post; [done|apply when_safe; [done|]|].
  { intros _. apply then_post; [done|by apply send_post|]. intros _ s7 Hi7 HF7. by apply drop_post, proc_post. }
  intros _ s7 Hi7 HF7. apply then_post; [done|by apply wndproc_safe|]. intros _ s8 Hi8 HF8.
  apply then_post; [done|destruct map; [by apply send_post|by split]|]. intros m s9 Hi9 HF9. apply then_post; [done|apply when_safe; [done|]|].
  { intros _. apply then_post; [done|by apply send_post|]. intros _ s10 Hi10 HF10. by apply drop_post, send_post. }
  intros _ s10 Hi10 HF10. apply then_post; [done|apply when_safe; [done|]|].
  { intros _. apply then_post; [done|by apply send_post|]. intros k s11 Hi11 HF11. by apply sent_post. }
  intros _ s11 Hi11 HF11. apply drop_post, controls_post; [done|]. intros c Hc. by apply set_item_text_ok.
Qed.

Lemma autostart_safe inst hwnd t func s :
  inv None 0 s -> F \/ u_held s = [] ->
  wp (user32_dialog_try_doom95_autostart true guest_string local_buffer call_proc inst hwnd t func) (post s) s.
Proof.
  intros Hi HF. unfold user32_dialog_try_doom95_autostart. destruct (_ || _); [by split|]. apply wp_bind. apply find_item_wp; [done|].
  intros o s1 Ho Hi1 Hk1. apply (wp_after _ _ _ Hk1). pose proof (stop_keeps _ _ Hk1 HF) as HF1. destruct o as [p|]; [|by split].
  apply wp_bind. apply (item_now_wp p); [done|by apply Ho|]. intros it s2 Hf Hi2 Hk2. apply (wp_after _ _ _ Hk2). pose proof (stop_keeps _ _ Hk2 HF1) as HF2.
  pose proof Hf as [H1 H2 H3 H4]. destruct (data_index_total (item_data it) 1 0 (Z.to_nat (item_count it))) as [idx E]; [lia|].
  apply wp_bind. unfold wp at 1, user32_dialog_find_item_data_index. rewrite E. cbn [mbind outcome_bind]. destruct (idx <? 0); [by split|].
  apply wp_bind. apply find_item_wp; [done|]. intros wad s3 Hw Hi3 Hk3. apply (wp_after _ _ _ Hk3). pose proof (stop_keeps _ _ Hk3 HF2) as HF3.
  apply wp_bind. apply find_item_wp; [done|]. intros map s4 _ Hi4 Hk4. apply (wp_after _ _ _ Hk4). pose proof (stop_keeps _ _ Hk4 HF3) as HF4.
  apply then_post; [done|by apply item_handle_post|]. intros wh s5 Hi5 HF5.
  apply then_post; [done|apply controls_post; [done|apply get_item_handle_ok]|]. intros mh s6 Hi6 HF6.
  apply then_post; [done|apply controls_post; [done|apply get_item_handle_ok]|]. intros sh s7 Hi7 HF7.
  apply then_post; [done|by apply send_post|]. intros _ s8 Hi8 HF8. apply then_post; [done|by apply proc_post|]. intros _ s9 Hi9 HF9.
  apply then_post; [done|apply when_safe; [done|intros _; by apply autostart_wad_safe]|]. intros _ s10 Hi10 HF10.
  apply then_post; [done|by apply proc_post|]. intros _ s11 Hi11 HF11. by apply drop_post, destroy_safe.
Qed.

Lemma template_query_ok n : query_ok (template_query guest_string n).
Proof.
  unfold template_query. pose proof (wrap_range ptr_bits n ltac:(unfold ptr_bits; case_goal; lia)) as Hr. fold (usize n) in Hr.
  destruct (Z.ltb_spec (usize n) (2 ^ 16)); simpl; [lia|done].
Qed.

Lemma create_dialog_safe inst t pa func init s :
  inv None 0 s -> F \/ u_held s = [] ->
  wp (CreateDialogParamA true malloc user32_alloc guest_string create_struct_addr local_buffer def_window_proc im call_proc inst t pa func init) (post s) s.
Proof.
  intros Hi HF. apply wp_bind. apply find_template_wp; [done|apply template_query_ok|]. intros r s1 Hi1 Hc1.
  apply (wp_after _ _ _ (calm_keeps _ _ Hc1)). rewrite <- (c_held _ _ Hc1) in HF. destruct (r =? 0); [by split|].
  apply wp_bind. apply ensure_class_wp; [done|]. intros s2 Hi2 Hc2. apply (wp_after _ _ _ (calm_keeps _ _ Hc2)). rewrite <- (c_held _ _ Hc2) in HF.
  apply then_post; [done|by apply create_safe|]. intros hwnd s3 Hi3 HF3.
  apply then_post; [done|apply when_safe; [done|intros _; by apply modal_post]|]. intros _ s4 Hi4 HF4.
  apply then_post; [done|apply when_safe; [done|]|by split].
  intros _. apply then_post; [done|by apply proc_post|]. intros _ s5 Hi5 HF5. by apply autostart_safe.
Qed.

Lemma do_call_safe c s :
  inv None 0 s -> F \/ u_held s = [] ->
  wp (do_call true malloc user32_alloc guest_string create_struct_addr local_buffer def_window_proc im call_proc c) (post s) s.
Proof.
  intros Hi HF.
  assert (Hint : forall (m : M H Z), wp m (post s) s -> wp (int_result m) (post s) s).
  { intros m Hm. apply (wp_call _ _ s s); [done|done|]. intros r s' Hi' Hk. by apply wp_ret. }
  assert (Hbool : forall (m : M H bool), wp m (post s) s -> wp (bool_result m) (post s) s).
  { intros m Hm. apply (wp_call _ _ s s); [done|done|]. intros r s' Hi' Hk. by apply wp_ret. }
  destruct c; cbn [do_call]; try apply Hint; try apply Hbool.
  - apply register_safe; [done|]. intros a s' Hi' Hc. split; auto.
  - by apply create_safe.
  - by apply destroy_safe.
  - by apply send_message_safe.
  - by apply def_proc_safe.
  - by apply dispatch_safe.
  - by apply wndproc_safe.
  - apply wp_bind. apply (wp_get_focus None 0); [done|]. intros pv. apply wp_bind. apply (wp_is_window None 0); [done|]. intros b.
    apply (wp_call _ _ s s); [done|by apply foreground_focus_safe|]. intros _ s' Hi' Hk. by apply wp_ret.
  - apply (wp_get_focus None 0); [done|]. by split.
  - apply (wp_get_active None 0); [done|]. by split.
  - by apply show_safe.
  - by apply set_window_pos_safe.
  - by apply move_window_safe.
  - by apply set_text_safe.
  - by apply get_long_safe.
  - by apply set_long_safe.
  - unfold IsWindow. destruct (_ =? 0); [by split|]. destruct Hi as [st Hi].
    destruct (table_get st (u_table s) hwnd (wi_rep _ _ _ _ Hi)) as [_ E]. apply wp_bind.
    apply (wp_table None 0 s _ _ _ (ex_intro _ st Hi) E). split; [by exists st|done].
  - apply (wp_load_cursor None 0); [done|]. intros r s' Hi' Hc. split; auto.
  - by apply set_cursor_safe.
  - by apply create_dialog_safe.
  - apply then_post; [done|by apply create_dialog_safe|]. intros h s1 Hi1 HF1. by apply run_modal_safe.
  - apply then_post; [done|by apply end_safe|]. by split.
  - by apply dialog_message_safe.
  - apply controls_post; [done|apply get_item_handle_ok].
  - apply controls_post; [done|]. intros d Hd. by apply check_button_ok.
  - apply (wp_read_controls None 0); [done|apply button_checked_ok|]. intros r s' Hi' Hc. split; auto.
  - apply controls_post; [done|]. intros d Hd. by apply set_item_text_ok.
  - by apply dlg_text_safe.
  - apply then_post; [done|by apply dlg_int_safe|]. by split.
  - by apply set_dlg_int_safe.
  - apply then_post; [done|apply controls_post; [done|apply get_item_handle_ok]|]. intros item s1 Hi1 HF1. by apply send_post.
  - unfold GetWindowTextA. destruct (_ || _); [by split|]. apply then_post; [done|by apply send_post|]. by split.
  - by apply find_window_wp.
  - by apply foreground_safe.
  - apply (wp_is_window None 0); [done|]. by split.
  - apply wp_bind. apply (wp_is_window None 0); [done|]. intros b. destruct b; [by split|]. apply (wp_get_active None 0); [done|]. by split.
  - apply wp_bind. apply (wp_window None 0); [done|]. intros e He. destruct e as [p|]; [|by split]. destruct (He p eq_refl) as [x Hx].
    apply wp_bind. by apply (wp_entry p x).
Qed.

Lemma run_prog_safe p : forall s,
  inv None 0 s -> F \/ u_held s = [] ->
  wp (run_prog true malloc user32_alloc guest_string create_struct_addr local_buffer def_window_proc im call_proc p) (post s) s.
Proof.
  induction p as [r|c k IH]; intros s Hi HF; cbn [run_prog]; [by split|].
  apply (wp_call _ _ s s); [done|by apply do_call_safe|]. intros r s' Hi' Hk. apply (wp_after _ _ _ Hk). apply IH; [done|]. by eapply stop_keeps.
Qed.
End calls.
End safe.

(** ** Stopping early changes nothing else *)

(** What [m] returns, [m'] returns too. *)
Definition agree {H X} (m m' : M H X) : Prop := forall s r, m s = Ret r -> m' s = Ret r.

Lemma agree_refl {H X} (m : M H X) : agree m m.
Proof. by intros s r. Qed.
Lemma agree_bind {H X Y} (m m' : M H X) (f f' : X -> M H Y) :
  agree m m' -> (forall x, agree (f x) (f' x)) -> agree (bindM m f) (bindM m' f').
Proof.
  intros Hm Hf s r. unfold bindM. destruct (m s) as [[x s']| |] eqn:E; [|done..]. rewrite (Hm _ _ E). cbn [mbind outcome_bind]. apply Hf.
Qed.
Lemma agree_hold {H X} l (m m' : M H X) : agree m m' -> agree (hold l m) (hold l m').
Proof.
  intros Hm s r. unfold hold. destruct (m _) as [[x s']| |] eqn:E; [|done..]. by rewrite (Hm _ _ E).
Qed.
Lemma agree_free {H} p : agree (@user32_heap_free H true p) (user32_heap_free false p).
Proof. intros s r. unfold user32_heap_free. cbn [andb]. by case_bool_decide. Qed.

(** Go through two programs that differ only in calls related by a lemma. *)
Ltac agree_step :=
  match goal with
  | |- agree (bindM _ _) _ => apply agree_bind; [|intros ?]
  | |- agree (hold _ _) _ => apply agree_hold
  | |- agree (user32_heap_free _ _) _ => apply agree_free
  | |- agree ?m ?m => apply agree_refl
  | |- agree (match ?o with _ => _ end) _ => destruct o
  end.

Section agreement.
Context {A : Arch} {H : Type} `{Backend H}.
Variable malloc : gmap nat wine_window_entry -> option nat.
Variable user32_alloc : Z -> bool.
Variable guest_string : Z -> cstr.
Variable addr : Z.
Variable local_buffer def_window_proc : Z.
Variable im : images.
Variable call call' : Z -> Z -> Z -> Z -> lparam -> M H Z.
Hypothesis call_agree : forall proc hwnd msg wParam lp, agree (call proc hwnd msg wParam lp) (call' proc hwnd msg wParam lp).

Lemma wndproc_agree proc hwnd msg wParam lp :
  agree (user32_call_wndproc call proc hwnd msg wParam lp) (user32_call_wndproc call' proc hwnd msg wParam lp).
Proof. unfold user32_call_wndproc. destruct (proc =? 0); [apply agree_refl|apply call_agree]. Qed.

Lemma notify_agree e hwnd wa msg other :
  agree (notify_focus call e hwnd wa msg other) (notify_focus call' e hwnd wa msg other).
Proof. unfold notify_focus. repeat (apply wndproc_agree || agree_step).
Qed.
Lemma foreground_agree target send :
  agree (user32_set_foreground_focus call target send) (user32_set_foreground_focus call' target send).
Proof. unfold user32_set_foreground_focus, user32_send_focus_transition. repeat (apply notify_agree || agree_step).
Qed.
Lemma cleanup_agree p w k d : agree (user32_cleanup_failed_create true p w k d) (@user32_cleanup_failed_create H _ false p w k d).
Proof. unfold user32_cleanup_failed_create. repeat agree_step. Qed.
Lemma destroy_agree hwnd : agree (DestroyWindow true call hwnd) (DestroyWindow false call' hwnd).
Proof. unfold DestroyWindow, user32_finish_window_destroy. repeat (apply wndproc_agree || agree_step). Qed.
Lemma create_agree ex cls name st x y w h pa me inst par :
  agree (CreateWindowExA true malloc addr call ex cls name st x y w h pa me inst par)
    (CreateWindowExA false malloc addr call' ex cls name st x y w h pa me inst par).
Proof.
  unfold CreateWindowExA, user32_finish_window_create. cbv zeta.
  repeat (apply wndproc_agree || apply cleanup_agree || apply foreground_agree || agree_step).
Qed.
Lemma def_proc_agree hwnd msg wParam lp :
  agree (DefWindowProcA true call hwnd msg wParam lp) (DefWindowProcA false call' hwnd msg wParam lp).
Proof. unfold DefWindowProcA, default_close. repeat (apply destroy_agree || agree_step). Qed.
Lemma send_agree hwnd msg wParam lp :
  agree (SendMessageA true guest_string call hwnd msg wParam lp)
    (SendMessageA false guest_string call' hwnd msg wParam lp).
Proof.
  unfold SendMessageA. repeat (apply def_proc_agree || apply wndproc_agree || agree_step).
Qed.
Lemma dispatch_agree hwnd msg wParam lp :
  agree (DispatchMessageA true guest_string call hwnd msg wParam lp)
    (DispatchMessageA false guest_string call' hwnd msg wParam lp).
Proof.
  unfold DispatchMessageA. repeat (apply send_agree || apply def_proc_agree || apply wndproc_agree || agree_step).
Qed.
Lemma when_agree b (m m' : M H unit) : agree m m' -> agree (when b m) (when b m').
Proof. intros Hm. destruct b; [exact Hm|apply agree_refl]. Qed.
Ltac dialog_agree := repeat (apply send_agree || apply destroy_agree || apply create_agree || apply wndproc_agree || apply call_agree
  || apply when_agree || agree_step).

Lemma end_agree hDlg r : agree (user32_dialog_end true call hDlg r) (user32_dialog_end false call' hDlg r).
Proof. unfold user32_dialog_end. dialog_agree. Qed.
Lemma lifecycle_agree hwnd func : agree (user32_dialog_run_modal_lifecycle call hwnd func) (user32_dialog_run_modal_lifecycle call' hwnd func).
Proof. unfold user32_dialog_run_modal_lifecycle. dialog_agree. Qed.
Lemma run_modal_agree hwnd func : agree (user32_dialog_run_modal true call hwnd func) (user32_dialog_run_modal false call' hwnd func).
Proof. unfold user32_dialog_run_modal. repeat (apply lifecycle_agree || apply end_agree || agree_step). Qed.
Lemma dialog_message_agree hDlg m : agree (IsDialogMessageA call hDlg m) (IsDialogMessageA call' hDlg m).
Proof. unfold IsDialogMessageA, user32_dialog_dispatch_message. cbv zeta. dialog_agree. Qed.
Lemma autostart_wad_agree inst hwnd func wh mh wad map :
  agree (autostart_wad true guest_string local_buffer call inst hwnd func wh mh wad map)
    (autostart_wad false guest_string local_buffer call' inst hwnd func wh mh wad map).
Proof. unfold autostart_wad. cbv zeta. dialog_agree. Qed.
Lemma autostart_agree inst hwnd t func :
  agree (user32_dialog_try_doom95_autostart true guest_string local_buffer call inst hwnd t func)
    (user32_dialog_try_doom95_autostart false guest_string local_buffer call' inst hwnd t func).
Proof. unfold user32_dialog_try_doom95_autostart. repeat ((apply autostart_wad_agree) || (progress dialog_agree)). Qed.
Lemma create_dialog_agree inst t pa func init :
  agree (CreateDialogParamA true malloc user32_alloc guest_string addr local_buffer def_window_proc im call inst t pa func init)
    (CreateDialogParamA false malloc user32_alloc guest_string addr local_buffer def_window_proc im call' inst t pa func init).
Proof. unfold CreateDialogParamA. repeat ((apply autostart_agree) || (progress dialog_agree)). Qed.

Lemma do_call_agree c :
  agree (do_call true malloc user32_alloc guest_string addr local_buffer def_window_proc im call c)
    (do_call false malloc user32_alloc guest_string addr local_buffer def_window_proc im call' c).
Proof.
  destruct c; cbn [do_call]; unfold int_result, bool_result, SetFocus, ShowWindow, SetWindowPos, with_window, CallWindowProcA,
      DialogBoxParamA, EndDialog, GetDlgItemTextA, GetDlgItemInt, SetDlgItemInt, SendDlgItemMessageA, GetWindowTextA;
    repeat (apply create_agree || apply destroy_agree || apply send_agree || apply def_proc_agree || apply create_dialog_agree
            || apply run_modal_agree || apply end_agree || apply dialog_message_agree || apply when_agree
            || apply dispatch_agree || apply wndproc_agree || apply foreground_agree || agree_step).
Qed.
Lemma run_prog_agree p :
  agree (run_prog true malloc user32_alloc guest_string addr local_buffer def_window_proc im call p)
    (run_prog false malloc user32_alloc guest_string addr local_buffer def_window_proc im call' p).
Proof. induction p as [r|c k IH]; cbn [run_prog]; [apply agree_refl|]. apply agree_bind; [apply do_call_agree|done]. Qed.
End agreement.

(** ** Any guest *)

Definition user32_init {H} (h : H) : user32 H :=
  mkUser32 wine_handle_manager_runtime_init ∅ h false false false 0 0 0 0 empty_registry dialog_init [].

Section guests.
Context {A : Arch} {H : Type} `{BL : BackendLaws H}.
Variable malloc : gmap nat wine_window_entry -> option nat.
Hypothesis malloc_fresh : forall m p, malloc m = Some p -> m !! p = None.
Variable user32_alloc : Z -> bool.
Variable guest_string : Z -> cstr.
Variable addr : Z.
Variable local_buffer def_window_proc : Z.
Variable im : images.
Hypothesis im_ok : images_ok im.
Variable procs : Z -> Z -> Z -> Z -> lparam -> prog.
Local Abbreviation run strict fuel main :=
  (run_guest strict malloc user32_alloc guest_string addr local_buffer def_window_proc im procs fuel main).
Local Abbreviation call strict fuel :=
  (call_guest strict malloc user32_alloc guest_string addr local_buffer def_window_proc im procs fuel).

Lemma init_inv h : backend_ok store_init h -> inv None 0 (user32_init h).
Proof.
  intros Hb. exists store_init. assert (Hno : forall k e, store_init !! k = Some e -> e_type e = HANDLE_TYPE_FILE).
  { intros k e. unfold store_init. rewrite !lookup_insert_Some, lookup_singleton_Some. by intros [[_ <-]|[_ [[_ <-]|[_ [_ <-]]]]]. }
  split; simpl; try done.
  - apply handle_init_represents.
  - intros k e Hk He. rewrite (Hno k e Hk) in He. done.
  - intros k k' p Hk. apply Hno in Hk. done.
  - intros p [x Hx]. by rewrite lookup_empty in Hx.
  - intros p Hp. by apply not_elem_of_nil in Hp.
  - intros i Hi. simpl in Hi. lia.
  - apply no_dialogs_ok.
Qed.

Lemma call_guest_safe fuel : forall proc hwnd msg wParam lp s,
  inv None 0 s -> wp True (call true fuel proc hwnd msg wParam lp) (post s) s.
Proof.
  induction fuel as [|fuel IH]; intros proc hwnd msg wParam lp s Hi; cbn [call_guest]; [done|].
  apply run_prog_safe; [done|done|done|done|by left].
Qed.

Lemma call_guest_agree fuel : forall proc hwnd msg wParam lp,
  agree (call true fuel proc hwnd msg wParam lp) (call false fuel proc hwnd msg wParam lp).
Proof.
  induction fuel as [|fuel IH]; intros proc hwnd msg wParam lp; cbn [call_guest]; [done|]. by apply run_prog_agree.
Qed.

(** The checked run never faults, and the code agrees with it where it is not stopped. *)
Lemma guest_run_cases fuel main h :
  backend_ok store_init h ->
  match run true fuel main (user32_init h) with
  | Ret (r, s) => run false fuel main (user32_init h) = Ret (r, s) /\ inv None 0 s
  | Fail => True
  | Fault => False
  end.
Proof.
  intros Hb. pose proof (run_prog_safe True malloc malloc_fresh user32_alloc guest_string addr local_buffer def_window_proc im
    (call true fuel) (call_guest_safe fuel) im_ok main (user32_init h) (init_inv h Hb) ltac:(by left)) as Hs.
  unfold wp in Hs. unfold run_guest at 1. destruct (run_prog true _ _ _ _ _ _ _ _ main (user32_init h)) as [[r s]| |] eqn:E; [|done..].
  split; [|apply Hs].
  exact (run_prog_agree malloc user32_alloc guest_string addr local_buffer def_window_proc im _ _ (call_guest_agree fuel) main _ _ E).
Qed.

(** Whatever windows a guest creates, destroys, focuses and sends messages to, from its
    main program and from its window procedures nested to any depth, user32 never
    touches a freed window entry unless one is freed that a function on the stack still
    holds.  Without such a free the code behaves as the checked run does: afterwards
    every entry in the heap belongs to exactly one live window handle, every window
    handle to an entry, and the count of windows is exact. *)
Theorem windows_survive_reentrancy fuel main h :
  backend_ok store_init h ->
  match run true fuel main (user32_init h) with
  | Ret (r, s) =>
      run false fuel main (user32_init h) = Ret (r, s) /\
      g_user32_live_windows s = Z.of_nat (size (u_heap s)) /\
      (forall p, is_Some (u_heap s !! p) -> exists k, win_at (u_table s) k p /\ forall k', win_at (u_table s) k' p -> k' = k) /\
      (forall k p, win_at (u_table s) k p -> is_Some (u_heap s !! p))
  | Fail => True
  | Fault => False
  end.
Proof.
  intros Hb. pose proof (guest_run_cases fuel main h Hb) as Hs.
  destruct (run true fuel main (user32_init h)) as [[r s]| |]; [|done..].
  destruct Hs as [Hf [st Hi]]. pose proof (wi_rep _ _ _ _ Hi) as R. split_and!; [done|..].
  - pose proof (wi_live _ _ _ _ Hi). lia.
  - intros p Hp. destruct (wi_reach _ _ _ _ Hi p Hp) as [?|[k Hk]]; [done|]. exists k. split; [by rewrite (win_at_store _ st)|].
    intros k' Hk'. rewrite (win_at_store _ st _ _ R) in Hk'. by apply (wi_inj _ _ _ _ Hi k' k p).
  - intros k p Hk. rewrite (win_at_store _ st _ _ R) in Hk. by destruct (wi_win _ _ _ _ Hi k _ Hk eq_refl) as (q & [= <-] & ? & _).
Qed.

(** C20: When the window procedures only return a result, every run returns: nothing
    faults, nothing has to be stopped, and the window table is exact afterwards. *)
Theorem passive_guest_runs fuel main h :
  backend_ok store_init h -> (forall proc hwnd msg wParam lp, exists r, procs proc hwnd msg wParam lp = Done r) ->
  exists r s, run false (S fuel) main (user32_init h) = Ret (r, s) /\ inv None 0 s /\ u_held s = [].
Proof.
  intros Hb Hp.
  assert (Hcall : forall proc hwnd msg wParam lp s, inv None 0 s -> wp False (call true (S fuel) proc hwnd msg wParam lp) (post s) s).
  { intros proc hwnd msg wParam lp s Hi. cbn [call_guest]. destruct (Hp proc hwnd msg wParam lp) as [r ->]. split; [done|apply keeps_refl]. }
  pose proof (run_prog_safe False malloc malloc_fresh user32_alloc guest_string addr local_buffer def_window_proc im
    (call true (S fuel)) Hcall im_ok main (user32_init h) (init_inv h Hb) ltac:(by right)) as Hs.
  unfold wp in Hs. destruct (run_prog true _ _ _ _ _ _ _ _ main (user32_init h)) as [[r s]| |] eqn:E; [|done..].
  destruct Hs as [Hi Hk]. exists r, s. split_and!; [|done|apply (k_held _ _ Hk)].
  exact (run_prog_agree malloc user32_alloc guest_string addr local_buffer def_window_proc im _ _ (call_guest_agree (S fuel)) main _ _ E).
Qed.
End guests.

(** ** Properties read back *)

Section properties.
Context {A : Arch} {H : Type} `{BL : BackendLaws H}.

(** The window behind a handle is found. *)
Lemma get_window_entry_live s hwnd p :
  inv None 0 s -> win_at (u_table s) (Z.to_nat (u32 hwnd)) p ->
  exists e, u_heap s !! p = Some e /\ get_window_entry hwnd s = Ret (Some p, s).
Proof.
  intros [st Hi] Hw. rewrite (win_at_store _ st _ _ (wi_rep _ _ _ _ Hi)) in Hw.
  destruct (wi_win _ _ _ _ Hi _ _ Hw eq_refl) as (q & [= <-] & [e He] & _). exists e. split; [done|].
  destruct (table_get st (u_table s) hwnd (wi_rep _ _ _ _ Hi)) as [E1 E2].
  unfold get_window_entry, bindM, tableM. rewrite E1. cbn [mbind outcome_bind]. rewrite E2. cbn [mbind outcome_bind].
  by rewrite Hw.
Qed.

Definition pointer_indices : list Z := [GWL_WNDPROC; GWL_HINSTANCE; GWL_HWNDPARENT; GWL_USERDATA; GWL_ID].

Lemma long_ptr_roundtrip v : - 2 ^ (ptr_bits - 1) <= v < 2 ^ (ptr_bits - 1) -> long_ptr (usize v) = v.
Proof. intros Hv. unfold long_ptr. width_lia. Qed.

Lemma get_set_long e i j v :
  user32_get_window_long_ptr (set_window_long e i v) j =
    if (i =? j) && bool_decide (j ∈ pointer_indices) then long_ptr (usize v)
    else if (i =? j) && ((j =? GWL_STYLE) || (j =? GWL_EXSTYLE)) then long_ptr (u32 v)
    else user32_get_window_long_ptr e j.
Proof.
  assert (Hin : bool_decide (j ∈ pointer_indices)
    = ((j =? GWL_WNDPROC) || (j =? GWL_HINSTANCE) || (j =? GWL_HWNDPARENT) || (j =? GWL_USERDATA) || (j =? GWL_ID))).
  { apply Bool.eq_iff_eq_true. rewrite bool_decide_eq_true. unfold pointer_indices. rewrite !elem_of_cons, elem_of_nil. lia. }
  rewrite Hin. clear Hin. unfold user32_get_window_long_ptr, set_window_long. cbn [wnd_proc style ex_style hinstance parent user_data menu].
  destruct (Z.eqb_spec i j) as [->|Hij]; cbn [andb].
  - repeat (match goal with |- context [?a =? ?b] => destruct (Z.eqb_spec a b) as [->|] end; cbn; try done).
  - repeat (match goal with |- context [j =? ?b] => destruct (Z.eqb_spec j b) as [->|] end; cbn;
      try (match goal with |- context [i =? ?b] => replace (i =? b) with false by lia end; done)); done.
Qed.

(** A window property that is set is read back, whichever it is, and setting it
    leaves the other ones as they were. *)
Theorem window_long_roundtrip s hwnd p i v :
  inv None 0 s -> win_at (u_table s) (Z.to_nat (u32 hwnd)) p -> i ∈ pointer_indices ->
  - 2 ^ (ptr_bits - 1) <= v < 2 ^ (ptr_bits - 1) ->
  exists old s', GetWindowLongPtrA hwnd i s = Ret (old, s) /\ SetWindowLongPtrA hwnd i v s = Ret (old, s') /\
    GetWindowLongPtrA hwnd i s' = Ret (v, s') /\ inv None 0 s' /\
    forall j x, j <> i -> GetWindowLongPtrA hwnd j s = Ret (x, s) -> GetWindowLongPtrA hwnd j s' = Ret (x, s').
Proof.
  intros Hi Hw Hin Hv. destruct (get_window_entry_live s hwnd p Hi Hw) as (e & He & Eg).
  set (s' := with_heap (<[p := set_window_long e i v]> (u_heap s)) s).
  assert (Hi' : inv None 0 s') by (by apply (inv_update _ _ _ p e)).
  destruct (get_window_entry_live s' hwnd p Hi' Hw) as (e' & He' & Eg').
  assert (e' = set_window_long e i v) as -> by (unfold s' in He'; simpl in He'; rewrite lookup_insert_eq in He'; congruence).
  assert (Hget : forall j, GetWindowLongPtrA hwnd j s = Ret (user32_get_window_long_ptr e j, s)).
  { intros j. unfold GetWindowLongPtrA, bindM, entry. rewrite Eg. cbn [mbind outcome_bind]. by rewrite He. }
  assert (Hget' : forall j, GetWindowLongPtrA hwnd j s' = Ret (user32_get_window_long_ptr (set_window_long e i v) j, s')).
  { intros j. unfold GetWindowLongPtrA, bindM, entry. rewrite Eg'. cbn [mbind outcome_bind]. by rewrite He'. }
  exists (user32_get_window_long_ptr e i), s'. split_and!; [apply Hget| | |done|].
  - unfold SetWindowLongPtrA, user32_set_window_long_ptr, bindM, entry, update. rewrite Eg. cbn [mbind outcome_bind].
    rewrite He. cbn [deref mbind outcome_bind]. by rewrite He.
  - rewrite Hget', get_set_long, Z.eqb_refl, bool_decide_true by done. cbn [andb]. by rewrite long_ptr_roundtrip.
  - intros j x Hj. rewrite Hget, Hget', get_set_long. replace (i =? j) with false by lia. cbn [andb]. by intros [= ->].
Qed.

(** A message to a window that is no control leaves the controls alone. *)
Lemma controls_not hwnd gs msg w l (s : user32 H) :
  user32_dialog_find_item_by_handle hwnd (ds_controls (u_dialogs s)) = None ->
  controls (user32_dialog_send_control_message gs hwnd msg w l) s = Ret ((NOT_A_CONTROL, []), s).
Proof.
  intros Hn. unfold controls, user32_dialog_send_control_message. rewrite Hn. cbn [mbind outcome_bind]. do 2 f_equal.
  by destruct s as [? ? ? ? ? ? ? ? ? ? ? [] ?].
Qed.
Lemma rb_dialogs q (s s' : user32 H) r : rb q s = Ret (r, s') -> u_dialogs s' = u_dialogs s.
Proof. unfold rb. intros E. apply bind_Ret in E as ([[t h] r'] & _ & [= _ <-]). done. Qed.

(** The text of a window comes back from WM_GETTEXT, cut to the 127 characters of the
    title and to the caller's buffer. *)
Theorem window_text_roundtrip guest_string (call_proc : Z -> Z -> Z -> Z -> lparam -> M H Z) s hwnd p t n buf :
  inv None 0 s -> win_at (u_table s) (Z.to_nat (u32 hwnd)) p -> user32_dialog_find_item_by_handle hwnd (ds_controls (u_dialogs s)) = None ->
  0 < n < 2 ^ 31 -> buf <> 0 ->
  exists s', SetWindowTextA hwnd (Some t) s = Ret (true, s') /\
    let text := take (Z.to_nat (Z.min 127 (n - 1))) t in
    SendMessageA false guest_string call_proc hwnd WM_GETTEXT n (LInt buf) s'
      = Ret ((blen text, text ++ replicate (Z.to_nat n - length text) 0), s').
Proof.
  intros Hi Hw Hd Hn Hb. destruct (get_window_entry_live s hwnd p Hi Hw) as (e & He & Eg).
  set (s1 := with_heap (<[p := set_title (user32_strncpy 127 (Some t)) e]> (u_heap s)) s).
  assert (Hi1 : inv None 0 s1) by (by apply (inv_update _ _ _ p e)).
  assert (He1 : u_heap s1 !! p = Some (set_title (user32_strncpy 127 (Some t)) e)) by (unfold s1; simpl; apply lookup_insert_eq).
  assert (Hw1 : win_at (u_table s1) (Z.to_nat (u32 hwnd)) p) by exact Hw.
  pose proof (wp_rb False None 0 s1 (RbSetTitle (sdl_window e) (user32_strncpy 127 (Some t)))
    (fun _ s' => inv None 0 s' /\ calm s1 s') Hi1 (fun _ _ Ha Hb => conj Ha Hb)) as Hr. unfold wp in Hr.
  destruct (rb _ s1) as [[r s']| |] eqn:Er; [|done..]. destruct Hr as [Hi' Hc].
  exists s'. split.
  - unfold SetWindowTextA, with_window, bindM, entry, update. rewrite Eg. cbn [mbind outcome_bind]. rewrite He. cbn [deref mbind outcome_bind].
    rewrite He. cbn [deref mbind outcome_bind]. fold s1. rewrite He1. cbn [deref mbind outcome_bind sdl_window title set_title]. by rewrite Er.
  - destruct (get_window_entry_live s' hwnd p Hi' (c_handle _ _ Hc _ _ Hw1)) as (e' & He' & Eg').
    rewrite (c_heap _ _ Hc), He1 in He'. injection He' as <-.
    unfold SendMessageA, bindM at 1. rewrite Eg'. cbn [mbind outcome_bind]. unfold bindM at 1.
    rewrite controls_not by (by rewrite (rb_dialogs _ _ _ _ Er)). cbn [mbind outcome_bind fst]. change (negb (NOT_A_CONTROL =? NOT_A_CONTROL)) with false.
    change (WM_GETTEXT =? WM_GETTEXT) with true. cbn iota. rewrite swrap_small by lia. cbn [lparam_value]. replace (n <=? 0) with false by lia. replace (buf =? 0) with false by lia. cbn [orb].
    unfold bindM, entry, retM. rewrite (c_heap _ _ Hc), He1. cbn [deref mbind outcome_bind title set_title].
    unfold user32_strncpy, default. cbn [from_option id]. rewrite take_take. replace (Z.to_nat n - 1)%nat with (Z.to_nat (n - 1)) by lia.
    by replace (Z.to_nat (n - 1) `min` 127)%nat with (Z.to_nat (Z.min 127 (n - 1))) by lia.
Qed.
End properties.

(** *** Concrete guests *)

(** A process without resources. *)
Lemma no_images_ok {A : Arch} : images_ok no_images.
Proof.
  intros h. unfold wine_resource_get_root. cbn [rs_image_base rs_reg images_rsrc no_images im_base im_modules].
  destruct (h =? 0); [done|]. change (find_module_by_addr h (ModuleList.mkRegistry [] 0 ∅)) with (@Ret (option nat) None). cbn [mbind outcome_bind].
  by destruct (h =? 0).
Qed.

(** A backend that has no handles of its own. *)
Definition null_backend : Backend unit := fun q t h =>
  Ret (t, h, match q with RbCreate _ _ _ _ _ _ => 1000 | RbCursorCreate _ => 1001 | _ => 0 end).
Definition null_laws : @BackendLaws unit null_backend.
Proof.
  refine {| backend_ok := fun _ _ => True |}; [|done]. intros q t s h R _. unfold rb_call, null_backend.
  do 4 eexists. split; [reflexivity|]. by split_and!.
Defined.

Definition next_entry (m : gmap nat wine_window_entry) : option nat := Some (fresh (dom m : gset nat)).
Lemma next_entry_fresh m p : next_entry m = Some p -> m !! p = None.
Proof. intros [= <-]. apply not_elem_of_dom, is_fresh. Qed.

Definition demo_window_class : WNDCLASSA := mkClass 0 0x401000 0 0 0 0 7 0 None (Some (lit "W")).
Definition create_window (k : Z -> prog) : prog :=
  Call (CCreateWindow 0 (Some (lit "W")) None 0 0 0 10 10 0 0 0 0) (fun r => k r.1).
(** Register the class, create two windows and destroy the first. *)
Definition demo_main : prog :=
  Call (CRegisterClass (Some demo_window_class)) (fun _ =>
  create_window (fun a => create_window (fun b => Call (CDestroyWindow a) (fun r => Done r.1)))).

(** A procedure that passes messages on to DefWindowProcA. *)
Definition default_procs (proc hwnd msg wParam : Z) (lp : lparam) : prog :=
  Call (CDefWindowProc hwnd msg wParam lp) (fun r => Done r.1).
Definition run_demo (strict : bool) (procs : Z -> Z -> Z -> Z -> lparam -> prog) (main : prog) : outcome (Z * user32 unit) :=
  run_guest (A := arch64) (H0 := null_backend) strict next_entry (fun _ => true) (fun _ => []) 0 1 2 no_images
    procs 8 main (user32_init tt).

Lemma windows_survive_reentrancy_witness :
  exists r s, run_demo false default_procs demo_main = Ret (r, s) /\ g_user32_live_windows s = 1.
Proof.
  pose proof (windows_survive_reentrancy (A := arch64) (BL := null_laws) next_entry next_entry_fresh (fun _ => true) (fun _ => []) 0
    1 2 no_images no_images_ok default_procs 8 demo_main tt I) as Hw.
  destruct (run_guest true _ _ _ _ _ _ _ _ _ _ _) as [[r s]| |] eqn:E; [|vm_compute in E; discriminate E..].
  destruct Hw as (Hf & Hl & _). exists r, s. split; [exact Hf|]. rewrite Hl. vm_compute in E. injection E as <- <-. reflexivity.
Defined.

Lemma passive_guest_runs_witness :
  exists r s, run_demo false (fun _ _ _ _ _ => Done 1) demo_main = Ret (r, s) /\ u_held s = [].
Proof.
  destruct (passive_guest_runs (A := arch64) (BL := null_laws) next_entry next_entry_fresh (fun _ => true) (fun _ => []) 0
    1 2 no_images no_images_ok (fun _ _ _ _ _ => Done 1) 7 demo_main tt I) as (r & s & E & _ & Hh);
    [by eexists|exists r, s; split; [exact E|exact Hh]].
Defined.

(** The state in which one window exists. *)
Definition one_window : prog := Call (CRegisterClass (Some demo_window_class)) (fun _ => create_window Done).
Definition demo_window_state : user32 unit :=
  match run_demo true (fun _ _ _ _ _ => Done 1) one_window with Ret (_, s) => s | _ => user32_init tt end.
Lemma demo_window_state_ok : inv (BL := null_laws) None 0 demo_window_state.
Proof.
  pose proof (run_prog_safe False (A := arch64) (BL := null_laws) next_entry next_entry_fresh (fun _ => true) (fun _ => []) 0
    1 2 no_images
    (call_guest (A := arch64) (H0 := null_backend) true next_entry (fun _ => true) (fun _ => []) 0 1 2 no_images
       (fun _ _ _ _ _ => Done 1) 8)
    (fun _ _ _ _ _ s Hs => conj Hs (keeps_refl s)) no_images_ok one_window (user32_init tt) (init_inv (BL := null_laws) tt I)
    (or_intror eq_refl)) as Hs.
  unfold wp in Hs. unfold demo_window_state, run_demo, run_guest.
  destruct (run_prog true _ _ _ _ _ _ _ _ one_window (user32_init tt)) as [[r s]| |]; [apply Hs|done..].
Qed.
Lemma demo_window_at : win_at (u_table demo_window_state) 3 0.
Proof. vm_compute. reflexivity. Qed.

Lemma window_long_roundtrip_witness :
  exists s, SetWindowLongPtrA (A := arch64) 3 GWL_USERDATA (-5) demo_window_state = Ret (0, s) /\
    GetWindowLongPtrA (A := arch64) 3 GWL_USERDATA s = Ret (-5, s).
Proof.
  destruct (window_long_roundtrip (A := arch64) (BL := null_laws) demo_window_state 3 0 GWL_USERDATA (-5))
    as (old & s & _ & E1 & E2 & _); [exact demo_window_state_ok|exact demo_window_at| |vm_compute; split; congruence|].
  { do 3 right. by left. }
  exists s. split; [|exact E2]. rewrite E1. vm_compute in E1. by injection E1 as <- _.
Defined.

Lemma window_text_roundtrip_witness :
  exists s, SetWindowTextA (H0 := null_backend) 3 (Some (lit "hello")) demo_window_state = Ret (true, s) /\
    SendMessageA (A := arch64) (H0 := null_backend) false (fun _ => []) (fun _ _ _ _ _ => retM 0) 3 WM_GETTEXT 4
      (LInt 1) s = Ret ((3, lit "hel" ++ [0]), s).
Proof.
  destruct (window_text_roundtrip (A := arch64) (BL := null_laws) (fun _ => []) (fun _ _ _ _ _ => retM 0)
    demo_window_state 3 0 (lit "hello") 4 1) as (s & E1 & E2);
    [exact demo_window_state_ok|exact demo_window_at|done|lia|done|exists s; split; [exact E1|exact E2]].
Defined.

(** A class without a cursor: every window that is created takes a handle for the
    arrow, which destroying the window does not give back. *)
Definition plain_class : WNDCLASSA := mkClass 0 0x401000 0 0 0 0 0 0 None (Some (lit "W")).
Example cursor_handle_leaks :
  exists s, run_demo false (fun _ _ _ _ _ => Done 1)
    (Call (CRegisterClass (Some plain_class)) (fun _ => create_window (fun a => Call (CDestroyWindow a) (fun r => Done r.1)))) = Ret (1, s) /\
    u_heap s = ∅ /\ h_type <$> u_table s !! 3%nat = Some HANDLE_TYPE_HCURSOR.
Proof. eexists. split; [vm_compute; reflexivity|]. by vm_compute. Qed.

(** A window that destroys itself on WM_CREATE and refuses to be created: its entry is
    freed a second time. *)
Definition destroy_on_create (proc hwnd msg wParam : Z) (lp : lparam) : prog :=
  if msg =? WM_CREATE then Call (CDestroyWindow hwnd) (fun _ => Done (-1)) else Done 1.
Example destroy_in_create_double_free : run_demo false destroy_on_create demo_main = Fault.
Proof. vm_compute. reflexivity. Qed.

(** A window that closes itself when it loses the focus: its entry is read after it was
    freed, for WM_KILLFOCUS. *)
Definition destroy_on_deactivate (proc hwnd msg wParam : Z) (lp : lparam) : prog :=
  if (msg =? WM_ACTIVATE) && (wParam =? WA_INACTIVE) then Call (CDestroyWindow hwnd) (fun _ => Done 0) else Done 1.
Example destroy_in_focus_change_use_after_free : run_demo false destroy_on_deactivate demo_main = Fault.
Proof. vm_compute. reflexivity. Qed.
