(* ===== verification/DialogProps.v ===== *)
(** * Properties of dialogs

    Numbers in dialog items, and runs of guests that show where dialogs do not do what
    they mean to. *)
From S2P Require Import Prelude Bytes CStr HandleTable ModuleList MessageQueue BackendState WndClass Resource Dialog Windows DialogRun WindowsSafe.

(** ** Decimal numbers *)

Lemma digit_prefix_app a b : Forall (fun c => 48 <= c <= 57) a -> digit_prefix b = b -> digit_prefix (a ++ b) = a ++ b.
Proof.
  intros Ha Hb. induction Ha as [|c a Hc _ IH]; [done|]. cbn [app digit_prefix].
  rewrite (proj2 (Z.leb_le 48 c)), (proj2 (Z.leb_le c 57)) by lia. cbn [andb]. by rewrite IH.
Qed.
Lemma digits_digits n : forall x, 0 <= x -> Forall (fun c => 48 <= c <= 57) (digits n x).
Proof.
  induction n as [|n IH]; intros x Hx; cbn [digits]; [constructor|]. destruct (Z.ltb_spec x 10).
  - constructor; [lia|constructor].
  - apply Forall_app. split; [apply IH; Z.to_euclidean_division_equations; lia|]. constructor; [|constructor].
    pose proof (Z.mod_pos_bound x 10). lia.
Qed.
Lemma dec_from_snoc n a c : dec_from n (a ++ [c]) = dec_from n a * 10 + (c - 48).
Proof. unfold dec_from. by rewrite fold_left_app. Qed.
Lemma digits_value n : forall x, 0 <= x < 10 ^ Z.of_nat n -> dec_from 0 (digits n x) = x.
Proof.
  induction n as [|n IH]; intros x Hx; cbn [digits]; [change (10 ^ Z.of_nat 0) with 1 in Hx; unfold dec_from; simpl; lia|]. destruct (Z.ltb_spec x 10).
  - unfold dec_from. cbn. lia.
  - rewrite dec_from_snoc. rewrite Nat2Z.inj_succ, Z.pow_succ_r in Hx by lia. rewrite IH.
    + pose proof (Z.div_mod x 10 ltac:(lia)). lia.
    + split; [apply Z.div_pos; lia|apply Z.div_lt_upper_bound; lia].
Qed.
Lemma digits_nonempty n x : digits (S n) x <> [].
Proof. cbn [digits]. destruct (x <? 10); [done|]. by destruct (digits n (x / 10)). Qed.

(** A number that is printed is read back. *)
Lemma strtol_print {A : Arch} x : 0 <= x < 2 ^ (ptr_bits - 1) -> strtol (print_dec x) = Some (x, []).
Proof.
  intros Hx. assert (Hb : x < 10 ^ 20) by (unfold ptr_bits in Hx; destruct is_my_wine32; lia).
  unfold print_dec. rewrite (proj2 (Z.ltb_ge x 0)) by lia. pose proof (digits_digits 20 x ltac:(lia)) as Hd.
  pose proof (digits_value 20 x ltac:(simpl; lia)) as Hv. pose proof (digits_nonempty 19 x) as Hne.
  destruct (digits 20 x) as [|c s] eqn:E; [done|]. pose proof (Forall_inv Hd) as Hc. simpl in Hc.
  unfold strtol. cbn [skip_spaces]. replace ((c =? 32) || ((9 <=? c) && (c <=? 13))) with false by lia.
  assert (Hs : (match c :: s with 45 :: s' => (true, s') | 43 :: s' => (false, s') | _ => (false, c :: s) end) = (false, c :: s)).
  { destruct (Z.eqb_spec c 45) as [->|]; [lia|]. destruct (Z.eqb_spec c 43) as [->|]; [lia|].
    destruct c as [|p|p]; [done| |done]. do 6 (try (destruct p as [p|p|]; try done)). }
  rewrite Hs. pose proof (digit_prefix_app (c :: s) [] Hd eq_refl) as Hp. rewrite app_nil_r in Hp. rewrite Hp, Hv, drop_all.
  do 2 f_equal. lia.
Qed.

Lemma digits_from_buffer s : Forall (fun c => 48 <= c <= 57) s -> cstr_from (s ++ [0]) = Some s.
Proof. induction 1 as [|c s Hc _ IH]; [done|]. cbn [app cstr_from]. replace (c =? 0) with false by lia. by rewrite IH. Qed.

(** ** Numbers in items *)

Lemma t_find_update dlg id i f t : t_find dlg id (t_update i f t) = t_find dlg id t.
Proof.
  unfold t_find, t_update. revert i. induction t as [|[[dl id'] c] t IH]; intros i; [done|]. destruct i as [|i]; simpl.
  { destruct (list_find _ t) as [[]|]; repeat destruct (decide _); simpl in *; congruence. }
  destruct (decide _); [done|]. specialize (IH i).
  assert (Hs : forall o : option (nat * (Z * Z * control)), fst <$> (prod_map S Datatypes.id <$> o) = S <$> (fst <$> o)) by (by intros [[]|]).
  rewrite !Hs. exact (f_equal (fmap S) IH).
Qed.
Lemma t_get_again dlg id t i : (t_get dlg id t).1 = Some i -> t_find dlg id (t_get dlg id t).2 = Some i.
Proof.
  unfold t_get. destruct (t_find dlg id t) as [j|] eqn:F; [by intros [= <-]|]. destruct (length t <? 64)%nat; [|done]. intros [= <-].
  cbn [snd]. unfold t_find in *. induction t as [|e t IH]; simpl in *; [destruct (decide _) as [|n]; [done|by destruct n]|].
  destruct (decide (e.1 = (dlg, id))); [done|]. destruct (list_find _ t) as [[]|]; [done|]. specialize (IH eq_refl).
  destruct (list_find _ (t ++ _)) as [[]|]; simpl in *; congruence.
Qed.
Lemma of_handle_of i t : (i < length t)%nat -> of_handle (handle_of i) t = Some i.
Proof.
  intros Hi. unfold of_handle, handle_of. replace (Z.to_nat (0x40000000 + Z.of_nat i - 0x40000000)) with i by lia.
  by rewrite (proj2 (Z.leb_le _ _)), (proj2 (Nat.ltb_lt _ _)) by lia.
Qed.

Section numbers.
Context {A : Arch} {H : Type} `{BL : BackendLaws H}.
Variable strict : bool.
Variable guest_string : Z -> cstr.
Variable call_proc : Z -> Z -> Z -> Z -> lparam -> M H Z.
Hypothesis guest_string_wf : forall a, wf_cstr (guest_string a).

Definition in_controls (c : dialogs) (s : user32 H) : user32 H :=
  let d := u_dialogs s in with_dialogs (mkDialogState c (g_dialog_class_registered d) (g_dialog_modals d) (ds_resources d)) s.

(** The state of the controls is the table [t]. *)
Definition has_controls (t : ctable) (s : user32 H) : Prop := inv None 0 s /\ dialogs_rep (ds_controls (u_dialogs s)) t.

Lemma has_in_controls t s c : inv None 0 s -> dialogs_ok c -> dialogs_rep c t -> has_controls t (in_controls c s).
Proof. intros Hi Hc R. split; [by apply inv_dialogs|done]. Qed.
Lemma has_ok t s : has_controls t s -> dialogs_ok (ds_controls (u_dialogs s)).
Proof. intros [[st Hi] _]. apply (wi_dialogs _ _ _ _ Hi). Qed.

Lemma control_not_window s i : inv None 0 s -> (i < 64)%nat -> get_window_entry (handle_of i) s = Ret (None, s).
Proof.
  intros [st Hi] Hlt. pose proof (wi_rep _ _ _ _ Hi) as R. destruct (table_get st (u_table s) (handle_of i) R) as [E1 E2].
  assert (Hn : st !! Z.to_nat (u32 (handle_of i)) = None).
  { destruct R as (Hl & _ & E). rewrite E. rewrite wrap_small by (unfold handle_of; lia).
    rewrite lookup_ge_None_2; [done|]. rewrite Hl. unfold handle_of. lia. }
  unfold get_window_entry, bindM, tableM. rewrite E1. cbn [mbind outcome_bind]. rewrite E2. by rewrite Hn.
Qed.

Lemma get_dlg_item hDlg id t s : has_controls t s -> hDlg <> 0 ->
  exists s', controls (GetDlgItem hDlg id) s = Ret (from_option handle_of 0 (t_get hDlg (u32 id) t).1, s') /\ has_controls (t_get hDlg (u32 id) t).2 s'.
Proof.
  intros Hs Hd0. pose proof (has_ok t s Hs) as Ho. destruct Hs as [Hi R].
  destruct (dstep_refines guest_string guest_string_wf (DGetItem hDlg id) _ t R Hd0) as (c & E & R').
  cbn [dstep spec_step] in E, R'. destruct (get_item_handle_ok hDlg id _ Ho) as (r & c' & E' & Hc). change (user32_dialog_get_item_handle hDlg id) with (GetDlgItem hDlg id) in E'.
  rewrite E' in E. cbn [mbind outcome_bind] in E. unfold controls. rewrite E'. destruct (t_get hDlg (u32 id) t) as [o t']. cbn [fst snd] in *.
  injection E as -> ->. eexists. split; [done|]. by apply has_in_controls.
Qed.

Lemma send_to_control i msg w lp t s : has_controls t s -> (i < length t)%nat -> 0 <= w -> (forall a, wf_cstr (lparam_string guest_string lp a)) ->
  let '(r, out, t') := spec_step (lparam_string guest_string lp) (DSend (handle_of i) msg w (lparam_value lp)) t in
  r <> NOT_A_CONTROL ->
  exists s', SendMessageA strict guest_string call_proc (handle_of i) msg w lp s = Ret ((r, out), s') /\ has_controls t' s'.
Proof.
  intros Hs Hlt Hw Hwf. pose proof (has_ok t s Hs) as Ho. destruct Hs as [Hi R]. pose proof (dr_size _ _ R).
  destruct (dstep_refines (lparam_string guest_string lp) Hwf (DSend (handle_of i) msg w (lparam_value lp)) _ t R) as (c & E & R').
  { split; [unfold handle_of; lia|done]. }
  cbn [dstep] in E. destruct (control_message_ok (lparam_string guest_string lp) (handle_of i) msg w (lparam_value lp) _ Ho) as (r0 & c0 & E0 & Hc).
  rewrite E in E0. injection E0 as <- <-. destruct (spec_step _ _ t) as [[r out] t']. cbn [fst snd] in *. intros Hr.
  exists (in_controls c s). split; [|by apply has_in_controls]. unfold SendMessageA, bindM at 1.
  rewrite control_not_window by (done || lia). cbn [mbind outcome_bind]. unfold bindM at 1, controls. rewrite E. cbn [mbind outcome_bind fst].
  by rewrite (proj2 (Z.eqb_neq r NOT_A_CONTROL) Hr).
Qed.

(** C37: A number that is stored in an item of a dialog is read back: SetDlgItemInt and
    GetDlgItemInt agree on the numbers that a long holds. *)
Theorem dialog_int_roundtrip local_buffer hDlg id v t s :
  has_controls t s -> hDlg <> 0 -> is_Some (t_get hDlg (u32 id) t).1 -> local_buffer <> 0 -> 0 <= v < 2 ^ Z.min 32 (ptr_bits - 1) ->
  exists s' s'', SetDlgItemInt strict guest_string local_buffer call_proc hDlg id v false s = Ret (true, s') /\
    GetDlgItemInt strict guest_string local_buffer call_proc hDlg id s' = Ret ((v, true), s'') /\ inv None 0 s''.
Proof.
  intros Hs Hd [i Ei] Hb Hv. assert (0 <= v < 2 ^ 32 /\ 0 <= v < 2 ^ (ptr_bits - 1)) as [Hv32 Hvp].
  { unfold ptr_bits in *. destruct is_my_wine32; [change (Z.min 32 (32 - 1)) with 31 in Hv|change (Z.min 32 (64 - 1)) with 32 in Hv]; lia. }
  destruct (get_dlg_item hDlg id t s Hs Hd) as (s1 & E1 & H1). rewrite Ei in E1. cbn [from_option] in E1.
  destruct (t_get_in hDlg (u32 id) t i Ei) as [c Hc]. pose proof (t_get_again hDlg (u32 id) t i Ei) as Hf.
  set (t1 := (t_get hDlg (u32 id) t).2) in *. pose proof (lookup_lt_Some _ _ _ Hc) as Hlt.
  set (text := print_dec v). assert (Ht : Forall (fun c => 48 <= c <= 57) text).
  { unfold text, print_dec. rewrite (proj2 (Z.ltb_ge v 0)) by lia. apply digits_digits. lia. }
  assert (Hlen : (0 < length text <= 21)%nat).
  { pose proof (print_dec_length v) as Hl. fold text in Hl. pose proof (strtol_print v Hvp) as Es. fold text in Es. destruct text; [done|]. simpl in *. lia. }
  pose proof (send_to_control i WM_SETTEXT 0 (LText local_buffer text) t1 s1 H1 Hlt ltac:(lia)) as H2. cbn [spec_step lparam_string lparam_value] in H2.
  rewrite of_handle_of in H2 by done. cbn [mbind option_bind] in H2. rewrite Hc in H2.
  replace (Z.to_nat (handle_of i - 0x40000000)) with i in H2 by (unfold handle_of; lia).
  change (spec_message (fun _ => text) WM_SETTEXT 0 local_buffer c) with (1, @nil Z, c_set_text (text_arg (fun _ => text) local_buffer) c) in H2.
  change (WM_SETTEXT =? UDM_SETPOS) with false in H2. cbn iota in H2.
  assert (Etext : text_arg (fun _ => text) local_buffer = text).
  { unfold text_arg, string_arg. rewrite (proj2 (Z.eqb_neq local_buffer 0) Hb). apply take_ge. simpl. lia. }
  rewrite Etext in H2. destruct H2 as (s2 & E2 & H2); [|done|].
  { intros _. eapply Forall_impl; [exact Ht|]. simpl. lia. }
  set (t2 := t_update i (fun _ => c_set_text text c) t1) in *.
  assert (Hg : t_get hDlg (u32 id) t2 = (Some i, t2)) by (unfold t_get, t2; by rewrite t_find_update, Hf).
  destruct (get_dlg_item hDlg id t2 s2 H2 Hd) as (s3 & E3 & H3). rewrite Hg in E3, H3. cbn [from_option fst snd] in E3, H3.
  assert (Hc2 : t2 !! i = Some (hDlg, u32 id, c_set_text text c)) by (unfold t2, t_update; rewrite list_lookup_alter_eq, Hc; done).
  pose proof (send_to_control i WM_GETTEXT 64 (LInt local_buffer) t2 s3 H3 (lookup_lt_Some _ _ _ Hc2) ltac:(lia) guest_string_wf) as H4.
  cbn [spec_step lparam_string lparam_value] in H4. rewrite of_handle_of in H4 by (by eapply lookup_lt_Some). cbn [mbind option_bind] in H4. rewrite Hc2 in H4.
  unfold spec_message in H4. rewrite bool_decide_true in H4 by (by left). rewrite (proj2 (Z.eqb_neq local_buffer 0) Hb) in H4.
  change (64 =? 0) with false in H4. cbn [orb] in H4. change (Z.to_nat (64 - 1)) with 63%nat in H4. cbn [c_text c_set_text c_with] in H4.
  rewrite take_ge in H4 by lia. destruct H4 as (s4 & E4 & H4); [unfold blen, NOT_A_CONTROL; lia|].
  exists s2, s4. split_and!; [| |apply H4].
  - unfold SetDlgItemInt, bindM. rewrite E1. cbn [mbind outcome_bind]. rewrite (proj2 (Z.eqb_neq (handle_of i) 0)) by (unfold handle_of; lia).
    rewrite (wrap_small 32 v) by done. fold text. by rewrite E2.
  - unfold GetDlgItemInt, bindM. rewrite E3. cbn [mbind outcome_bind]. rewrite (proj2 (Z.eqb_neq (handle_of i) 0)) by (unfold handle_of; lia).
    rewrite E4. cbn [mbind outcome_bind fst snd]. rewrite (proj2 (Z.leb_gt (blen text) 0)) by (unfold blen; lia).
    rewrite (digits_from_buffer text Ht). cbn [deref mbind outcome_bind]. unfold text. rewrite (strtol_print v Hvp).
    rewrite (proj2 (Z.ltb_ge v 0)) by lia. by rewrite (wrap_small 32 v) by done.
Qed.
End numbers.

Lemma dialog_int_roundtrip_witness :
  exists s' s'', SetDlgItemInt (A := arch32) (H0 := null_backend) false (fun _ => []) 1 (fun _ _ _ _ _ => retM 0) 5 7 42 false (user32_init tt) = Ret (true, s') /\
    GetDlgItemInt (A := arch32) (H0 := null_backend) false (fun _ => []) 1 (fun _ _ _ _ _ => retM 0) 5 7 s' = Ret ((42, true), s'').
Proof.
  destruct (dialog_int_roundtrip (A := arch32) (BL := null_laws) false (fun _ => []) (fun _ _ _ _ _ => retM 0) (fun _ => Forall_nil_2 _)
    1 5 7 42 [] (user32_init tt)) as (s' & s'' & E1 & E2 & _); [|done|by eexists|done|vm_compute; split; congruence|by exists s', s''].
  split; [by apply init_inv|apply no_dialogs_rep].
Defined.

(** ** Runs of dialogs

    An image with two dialog templates, 1 and 0x72, at 0x10000. *)
Definition dialog_image : bytes :=
  replicate 16 0 ++ demo_dir 5 (HIGH + 24) ++
  (replicate 12 0 ++ le16 0 ++ le16 2 ++ le32 1 ++ le32 (HIGH + 56) ++ le32 0x72 ++ le32 (HIGH + 80)) ++
  demo_dir 1033 104 ++ demo_dir 1033 104 ++ le32 136 ++ le32 4 ++ le32 0 ++ le32 0 ++ replicate 4 0.
Definition dialog_images : images := mkImages 0x10000 (rs_reg demo_rsrc) (fun _ => dialog_image) demo_malloc.

(** The run of a guest; 0x9000 is the address of DefWindowProcA. *)
Definition dialog_procs (user : Z -> Z -> Z -> Z -> prog) (proc hwnd msg wParam : Z) (lp : lparam) : prog :=
  if proc =? 0x9000 then Call (CDefWindowProc hwnd msg wParam lp) (fun r => Done r.1) else user proc hwnd msg wParam.
Definition run_dialogs {A : Arch} (user : Z -> Z -> Z -> Z -> prog) (main : prog) : outcome Z :=
  (fun r => fst <$> r) (run_guest (H0 := null_backend) false next_entry (fun _ => true) demo_memory 0 0x7000 0x9000 dialog_images
    (dialog_procs user) 8 main (user32_init tt)).

(** A dialog procedure that ends its dialog with 33 when OK is chosen. *)
Definition ok_proc (proc hwnd msg wParam : Z) : prog :=
  if (msg =? WM_COMMAND) && (wParam =? IDOK) then Call (CEndDialog hwnd 33) (fun _ => Done 1) else Done 0.
Example modal_dialog_returns : run_dialogs (A := arch32) ok_proc (Call (CDialogBox 0 1 0 0x5000 0) (fun r => Done r.1)) = Ret 33.
Proof. vm_compute. reflexivity. Qed.

(** A dialog [a] is created after two windows, then the windows are closed, and [close]
    closes the dialog. *)
Definition reuse_dialog (close : Z -> (unit -> prog) -> prog) (k : Z -> prog) : prog :=
  Call (CRegisterClass (Some (mkClass 0 0x6000 0 0 0 0 7 0 None (Some (lit "W"))))) (fun _ =>
  create_window (fun v => create_window (fun w =>
  Call (CCreateDialog 0 1 0 0x5000 0) (fun a =>
  Call (CDestroyWindow v) (fun _ => Call (CDestroyWindow w) (fun _ => close a.1 (fun _ => k a.1))))))).
Definition quiet_procs (proc hwnd msg wParam : Z) : prog := if proc =? 0x6000 then Done 1 else Done 0.

(** A dialog that is created after another one was closed may get its window handle,
    and with it the text of its items. *)
Example items_outlive_dialog :
  run_dialogs (A := arch32) quiet_procs
    (reuse_dialog (fun a k => Call (CSetDlgItemInt a 9 77 false) (fun _ => Call (CDestroyWindow a) (fun _ => k tt))) (fun _ =>
     Call (CCreateDialog 0 1 0 0x5000 0) (fun b =>
     Call (CGetDlgItemInt b.1 9) (fun r => Done r.1)))) = Ret 77.
Proof. vm_compute. reflexivity. Qed.

(** A modeless dialog that ended leaves its result to the next modal dialog with its
    handle, which returns it at once: its procedure never sees OK, and its window
    stays. *)
Example modal_result_outlives_dialog :
  run_dialogs (A := arch32) (fun proc => if proc =? 0x6000 then quiet_procs proc else ok_proc proc)
    (reuse_dialog (fun a k => Call (CEndDialog a 7) (fun _ => k tt)) (fun a =>
     Call (CDialogBox 0 1 0 0x5000 0) (fun r =>
     Call (CIsWindow a) (fun w => Done (100 * w.1 + r.1))))) = Ret 107.
Proof. vm_compute. reflexivity. Qed.

(** GetDlgItemInt does not read a negative number, signed or not. *)
Example negative_number_not_read :
  run_dialogs (A := arch32) (fun _ _ _ _ => Done 0)
    (Call (CSetDlgItemInt 5 9 (u32 (-3)) true) (fun _ => Call (CGetDlgItemInt 5 9) (fun r => Done (100 * r.1 + hd 9 r.2)))) = Ret 0.
Proof. vm_compute. reflexivity. Qed.

(** In the 32-bit build a number from 2^31 on is read as 2^31 - 1, as if translated. *)
Example large_number_saturates :
  run_dialogs (A := arch32) (fun _ _ _ _ => Done 0)
    (Call (CSetDlgItemInt 5 9 3000000000 false) (fun _ => Call (CGetDlgItemInt 5 9) (fun r => Done (10 * r.1 + hd 9 r.2)))) = Ret (10 * (2 ^ 31 - 1) + 1).
Proof. vm_compute. reflexivity. Qed.

(** The data of an item that is the number reserved for windows that are no controls is
    taken for it: the message goes on to DefWindowProcA, which answers 0. *)
Example item_data_taken_for_sentinel :
  run_dialogs (A := arch32) (fun _ _ _ _ => Done 0)
    (Call (CGetDlgItem 5 9) (fun h =>
     Call (CSendMessage h.1 CB_ADDSTRING 0 (LInt 1)) (fun _ =>
     Call (CSendMessage h.1 CB_SETITEMDATA 0 (LInt NOT_A_CONTROL)) (fun _ =>
     Call (CSendMessage h.1 CB_GETITEMDATA 0 (LInt 0)) (fun r => Done r.1))))) = Ret 0.
Proof. vm_compute. reflexivity. Qed.

(** The launcher's dialog: its procedure fills the list of providers, and on Start closes
    the dialog and opens the window of the game, whose procedure is 0x6000. *)
Definition launcher_proc (proc hwnd msg wParam : Z) : prog :=
  if proc =? 0x6000 then Done 1
  else if msg =? WM_INITDIALOG then
    Call (CGetDlgItem hwnd 0x3ed) (fun h =>
    Call (CSendMessage h.1 CB_ADDSTRING 0 (LInt 1)) (fun _ =>
    Call (CSendMessage h.1 CB_SETITEMDATA 0 (LInt 1)) (fun _ => Done 1)))
  else if (msg =? WM_COMMAND) && (wParam =? 0x3f1) then
    Call (CEndDialog hwnd 1) (fun _ =>
    Call (CCreateWindow 0 (Some (lit "game")) None 0 0 0 10 10 0 0 0 0) (fun _ => Done 1))
  else Done 0.
(** The code then destroys the window with the dialog's handle, which is now the game's:
    no window is left. *)
Example launcher_destroys_game_window :
  run_dialogs (A := arch32) launcher_proc
    (Call (CRegisterClass (Some (mkClass 0 0x6000 0 0 0 0 7 0 None (Some (lit "game"))))) (fun _ =>
     Call (CCreateDialog 0x10000 0x72 0 0x5000 0) (fun d =>
     Call (CFindWindow None None) (fun w => Done (1000 * d.1 + w.1))))) = Ret 5000.
Proof. vm_compute. reflexivity. Qed.
