(* ===== verification/RbSurface.v ===== *)
(** * Surfaces and palettes of the SDL backend (src/backend/sdl2/rb_surface.c,
      rb_surface_present.c, rb_palette.c)

    The structures behind the backend's handles live in heaps indexed by pointers; an
    access to a freed one is a fault.  SDL and the host's allocators are parameters:
    what an SDL surface holds is what it was created from, and the bytes of the pixels
    are not represented. *)
From S2P Require Import Prelude Bytes CStr HandleTable MessageQueue BackendState WndClass Windows WindowsSafe.

(** The fields of rb_window that the event code reads are BackendState's record. *)
Record rb_win := mkRbWin { rw_window : Z; rw_fields : rb_window; guest_hwnd : Z; primary_surface : Z; backbuffer : Z }.

Record rb_surface := mkRbSurface {
  sf_surface : nat; own_buf : nat; own_buf_low32 : bool; sf_palette : Z; sf_dirty : bool; sf_window : Z; sf_pitch : Z; sf_flags : Z }.
(** What the backend uses of an SDL_Surface; the palette is that of an rb_palette. *)
Record sdl_surface := mkSdlSurface {
  ss_pixels : nat; ss_w : Z; ss_h : Z; ss_pitch : Z; ss_bits : Z; ss_palette : option nat }.
Definition ss_bytes_per_pixel (s : sdl_surface) : Z := (ss_bits s + 7) / 8.
(** A block of pixels, from mmap with MAP_32BIT or from malloc. *)
Record buffer := mkBuffer { buf_size : Z; buf_low32 : bool }.

Record SDL_Color := mkColor { c_r : Z; c_g : Z; c_b : Z; c_a : Z }.
Record rb_palette := mkPalette { num_colors : Z; pal_colors : list SDL_Color }.

Record rb_host := mkRbHost {
  rb_heap : gmap nat rb_win;
  surface_heap : gmap nat rb_surface;
  sdl_surfaces : gmap nat sdl_surface;
  buffers : gmap nat buffer;
  palette_heap : gmap nat rb_palette;
  cursor_heap : gmap nat Z;
  (** The pixels each SDL window was last updated from. *)
  h_screen : gmap Z nat;
  flip_count : Z;
  h_events : rb_state }.

Definition with_rb_heap (m : gmap nat rb_win) (h : rb_host) : rb_host :=
  mkRbHost m (surface_heap h) (sdl_surfaces h) (buffers h) (palette_heap h) (cursor_heap h) (h_screen h) (flip_count h) (h_events h).
Definition with_surfaces (m : gmap nat rb_surface) (l : gmap nat sdl_surface) (b : gmap nat buffer) (h : rb_host) : rb_host :=
  mkRbHost (rb_heap h) m l b (palette_heap h) (cursor_heap h) (h_screen h) (flip_count h) (h_events h).
Definition with_palettes (m : gmap nat rb_palette) (h : rb_host) : rb_host :=
  mkRbHost (rb_heap h) (surface_heap h) (sdl_surfaces h) (buffers h) m (cursor_heap h) (h_screen h) (flip_count h) (h_events h).
Definition with_cursors (m : gmap nat Z) (h : rb_host) : rb_host :=
  mkRbHost (rb_heap h) (surface_heap h) (sdl_surfaces h) (buffers h) (palette_heap h) m (h_screen h) (flip_count h) (h_events h).
Definition with_screen (m : gmap Z nat) (n : Z) (h : rb_host) : rb_host :=
  mkRbHost (rb_heap h) (surface_heap h) (sdl_surfaces h) (buffers h) (palette_heap h) (cursor_heap h) m n (h_events h).
Definition with_events (e : rb_state) (h : rb_host) : rb_host :=
  mkRbHost (rb_heap h) (surface_heap h) (sdl_surfaces h) (buffers h) (palette_heap h) (cursor_heap h) (h_screen h) (flip_count h) e.

Definition set_chain (primary back : Z) (w : rb_win) : rb_win :=
  mkRbWin (rw_window w) (rw_fields w) (guest_hwnd w) primary back.
Definition set_role (win flags : Z) (s : rb_surface) : rb_surface :=
  mkRbSurface (sf_surface s) (own_buf s) (own_buf_low32 s) (sf_palette s) (sf_dirty s) win (sf_pitch s) flags.
Definition set_dirty (d : bool) (s : rb_surface) : rb_surface :=
  mkRbSurface (sf_surface s) (own_buf s) (own_buf_low32 s) (sf_palette s) d (sf_window s) (sf_pitch s) (sf_flags s).
Definition set_palette (pal : Z) (s : rb_surface) : rb_surface :=
  mkRbSurface (sf_surface s) (own_buf s) (own_buf_low32 s) pal (sf_dirty s) (sf_window s) (sf_pitch s) (sf_flags s).
Definition set_buf (b : nat) (s : rb_surface) : rb_surface :=
  mkRbSurface (sf_surface s) b (own_buf_low32 s) (sf_palette s) (sf_dirty s) (sf_window s) (sf_pitch s) (sf_flags s).
Definition ss_set_palette (p : option nat) (s : sdl_surface) : sdl_surface :=
  mkSdlSurface (ss_pixels s) (ss_w s) (ss_h s) (ss_pitch s) (ss_bits s) p.
Definition ss_set_pixels (b : nat) (s : sdl_surface) : sdl_surface :=
  mkSdlSurface b (ss_w s) (ss_h s) (ss_pitch s) (ss_bits s) (ss_palette s).

Definition RB_OK : Z := 0.
Definition RB_FAIL : Z := -1.

(** *** Handles *)

(** The object behind a handle, when the handle has the given type. *)
Definition get_typed (ty : Z) (ptr : object -> option nat) (h : Z) (t : table) : outcome (option nat) :=
  ty' ← wine_handle_get_type (u32 h) t;
  if negb (ty' =? ty) then Ret None
  else o ← wine_handle_get (u32 h) t;
       match o with ONull => Ret None | _ => p ← deref (ptr o); Ret (Some p) end.
Definition get_window : Z -> table -> outcome (option nat) :=
  get_typed HANDLE_TYPE_RB_WINDOW (fun o => match o with ORbWindow p => Some p | _ => None end).
Definition get_surface : Z -> table -> outcome (option nat) :=
  get_typed HANDLE_TYPE_RB_SURFACE (fun o => match o with ORbSurface p => Some p | _ => None end).
Definition get_palette : Z -> table -> outcome (option nat) :=
  get_typed HANDLE_TYPE_RB_PALETTE (fun o => match o with ORbPalette p => Some p | _ => None end).
Definition get_cursor : Z -> table -> outcome (option nat) :=
  get_typed HANDLE_TYPE_RB_CURSOR (fun o => match o with ORbCursor p => Some p | _ => None end).

Definition update_window (p : nat) (f : rb_win -> rb_win) (g : rb_host) : outcome rb_host :=
  w ← deref (rb_heap g !! p); Ret (with_rb_heap (<[p := f w]> (rb_heap g)) g).
Definition update_surface (p : nat) (f : rb_surface -> rb_surface) (g : rb_host) : outcome rb_host :=
  s ← deref (surface_heap g !! p); Ret (with_surfaces (<[p := f s]> (surface_heap g)) (sdl_surfaces g) (buffers g) g).
Definition update_sdl (p : nat) (f : sdl_surface -> sdl_surface) (g : rb_host) : outcome rb_host :=
  s ← deref (sdl_surfaces g !! p); Ret (with_surfaces (surface_heap g) (<[p := f s]> (sdl_surfaces g)) (buffers g) g).

Section backend.
Context {A : Arch}.
(** The host's allocators. *)
Variable malloc_surface : gmap nat rb_surface -> option nat.
Variable malloc_palette : gmap nat rb_palette -> option nat.
Variable malloc_colors : Z -> bool.
Variable rb_surface_alloc_buf : Z -> gmap nat buffer -> option (nat * bool).
(** SDL_AllocPalette, SDL_SetPaletteColors, SDL_PixelFormatEnumToMasks for the 15-bit
    format, SDL_CreateRGBSurfaceFrom, SDL_SetSurfacePalette, SDL_FillRect, SDL_BlitScaled
    and SDL_BlitSurface, and SDL_GetWindowSurface. *)
Variable sdl_alloc_palette : Z -> option (list SDL_Color).
Variable sdl_set_palette_colors : list SDL_Color -> list SDL_Color -> Z -> list SDL_Color * Z.
Variable sdl_masks15 : option Z.
Variable sdl_create_surface_from : Z -> Z -> Z -> Z -> gmap nat sdl_surface -> option nat.
Variable sdl_set_surface_palette : sdl_surface -> bool.
Variable sdl_fill_rect : sdl_surface -> Z * Z * Z * Z -> Z -> Z.
Variable sdl_blit : bool -> sdl_surface -> Z * Z * Z * Z -> sdl_surface -> Z * Z * Z * Z -> Z.
Variable sdl_window_surface : Z -> bool.
(** rb_event_maybe_pump_host, on the part of the event state held here. *)
Variable pump : rb_state -> rb_state.

(** *** Palettes *)

Definition rb_palette_create (n : Z) (t : table) (g : rb_host) : outcome (table * rb_host * Z) :=
  if n <=? 0 then Ret (t, g, 0)
  else
    match sdl_alloc_palette n with
    | None => Ret (t, g, 0)
    | Some colors =>
        match malloc_palette (palette_heap g) with
        | None => Ret (t, g, 0)
        | Some p =>
            '(t, k) ← wine_handle_alloc HANDLE_TYPE_RB_PALETTE (ORbPalette p) t;
            Ret (t, with_palettes (<[p := mkPalette n colors]> (palette_heap g)) g, k)
        end
    end.

Definition rb_palette_destroy (pal : Z) (t : table) (g : rb_host) : outcome (table * rb_host * Z) :=
  pp ← get_palette pal t;
  match (pp : option nat) with
  | None => Ret (t, g, RB_FAIL)
  | Some p =>
      _ ← deref (palette_heap g !! p);
      t ← wine_handle_free (u32 pal) t; Ret (t, with_palettes (delete p (palette_heap g)) g, RB_OK)
  end.

(** The number of colours that a request of [count] at [start] touches, None when it is
    refused; the sum is one of 32-bit numbers. *)
Definition color_count (start count n : Z) : option Z :=
  if n <=? start then None else Some (if n <? u32 (start + count) then n - start else count).

Definition SDL_ALPHA_OPAQUE : Z := 255.
(** 0x00BBGGRR *)
Definition color_of (c : Z) : SDL_Color :=
  mkColor (Z.land c 0xFF) (Z.land (Z.shiftr c 8) 0xFF) (Z.land (Z.shiftr c 16) 0xFF) SDL_ALPHA_OPAQUE.
Definition color_ref (c : SDL_Color) : Z := Z.lor (Z.lor (Z.shiftl (c_b c) 16) (Z.shiftl (c_g c) 8)) (c_r c).

(** The first [todo] elements from [i], a fault outside the list. *)
Fixpoint read_from {X} (l : list X) (i todo : nat) : outcome (list X) :=
  match todo with
  | O => Ret []
  | S todo => x ← deref (l !! i); r ← read_from l (S i) todo; Ret (x :: r)
  end.
(** The array [l] with [xs] written from [i]. *)
Fixpoint write_from {X} (l : list X) (i : nat) (xs : list X) : outcome (list X) :=
  match xs with
  | [] => Ret l
  | x :: xs => _ ← deref (l !! i); write_from (<[i := x]> l) (S i) xs
  end.

Definition rb_palette_set_colors (pal start count : Z) (colors : option (list Z)) (t : table) (g : rb_host) : outcome (rb_host * Z) :=
  pp ← get_palette pal t;
  match (pp : option nat), colors with
  | Some p, Some colors =>
      pl ← deref (palette_heap g !! p);
      match color_count start count (num_colors pl) with
      | None => Ret (g, RB_FAIL)
      | Some count =>
          if count =? 0 then Ret (g, RB_OK)
          else if malloc_colors (usize (4 * count)) then
            arr ← read_from colors 0 (Z.to_nat count);
            let '(l, ret) := sdl_set_palette_colors (pal_colors pl) (color_of <$> arr) start in
            Ret (with_palettes (<[p := mkPalette (num_colors pl) l]> (palette_heap g)) g, if ret =? 0 then RB_OK else RB_FAIL)
          else Ret (g, RB_FAIL)
      end
  | _, _ => Ret (g, RB_FAIL)
  end.

(** The array after the call, and the result. *)
Definition rb_palette_get_colors (pal start count : Z) (colors : option (list Z)) (t : table) (g : rb_host)
  : outcome (option (list Z) * Z) :=
  pp ← get_palette pal t;
  match (pp : option nat), colors with
  | Some p, Some out =>
      pl ← deref (palette_heap g !! p);
      match color_count start count (num_colors pl) with
      | None => Ret (colors, RB_FAIL)
      | Some count =>
          if count =? 0 then Ret (colors, RB_OK)
          else cs ← read_from (pal_colors pl) (Z.to_nat start) (Z.to_nat count);
               out ← write_from out 0 (color_ref <$> cs); Ret (Some out, RB_OK)
      end
  | _, _ => Ret (colors, RB_FAIL)
  end.

(** *** Surfaces *)

Definition RB_FORMAT_8BIT : Z := 8.
Definition RB_FORMAT_15BIT : Z := 15.
Definition RB_FORMAT_16BIT : Z := 16.
Definition RB_FORMAT_32BIT : Z := 32.
Definition rb_format_to_bpp (format : Z) : Z :=
  if format =? RB_FORMAT_8BIT then 8 else if format =? RB_FORMAT_15BIT then 15
  else if format =? RB_FORMAT_16BIT then 16 else if format =? RB_FORMAT_32BIT then 32 else 0.
Definition rb_surface_pitch_for_bpp (width bpp : Z) : Z :=
  if bpp =? 8 then width else if bpp <=? 16 then i32 (width * 2) else i32 (width * 4).

(** SDL_SetSurfacePalette on the surface with the palette behind a handle. *)
Definition apply_palette (ss : nat) (pal : Z) (t : table) (g : rb_host) : outcome rb_host :=
  if pal =? 0 then Ret g
  else
    pp ← get_palette pal t;
    match (pp : option nat) with
    | None => Ret g
    | Some p =>
        _ ← deref (palette_heap g !! p);
        s ← deref (sdl_surfaces g !! ss);
        if sdl_set_surface_palette s then update_sdl ss (ss_set_palette (Some p)) g else Ret g
    end.
Definition rb_surface_apply_palette (p : nat) (t : table) (g : rb_host) : outcome rb_host :=
  s ← deref (surface_heap g !! p); apply_palette (sf_surface s) (sf_palette s) t g.

(** The colour masks are SDL's business; the depth is what SDL says for 15 bits. *)
Definition rb_surface_create (w h format palette flags : Z) (t : table) (g : rb_host) : outcome (table * rb_host * Z) :=
  if (w <=? 0) || (h <=? 0) then Ret (t, g, 0)
  else
    let bpp := rb_format_to_bpp format in
    if bpp =? 0 then Ret (t, g, 0)
    else
      let pitch := rb_surface_pitch_for_bpp w bpp in
      let size := usize (i32 (pitch * h)) in
      match rb_surface_alloc_buf size (buffers g) with
      | None => Ret (t, g, 0)
      | Some (buf, low32) =>
          match (if bpp =? 15 then sdl_masks15 else Some bpp) with
          | None => Ret (t, g, 0)
          | Some depth =>
              match sdl_create_surface_from w h depth pitch (sdl_surfaces g) with
              | None => Ret (t, g, 0)
              | Some ss =>
                  let g0 := g in
                  let g := with_surfaces (surface_heap g) (<[ss := mkSdlSurface buf w h pitch depth None]> (sdl_surfaces g))
                             (<[buf := mkBuffer size low32]> (buffers g)) g in
                  g ← apply_palette ss palette t g;
                  match malloc_surface (surface_heap g) with
                  | None => Ret (t, g0, 0)
                  | Some p =>
                      let g := with_surfaces (<[p := mkRbSurface ss buf low32 palette false 0 pitch flags]> (surface_heap g))
                                 (sdl_surfaces g) (buffers g) g in
                      '(t, k) ← wine_handle_alloc HANDLE_TYPE_RB_SURFACE (ORbSurface p) t; Ret (t, g, k)
                  end
              end
          end
      end.

Definition RB_SURFACE_FLIP : Z := 1.
Definition RB_SURFACE_PRIMARY : Z := 4.
Definition RB_SURFACE_BACK : Z := 8.
Definition no_role (flags : Z) : Z := Z.ldiff flags (Z.lor RB_SURFACE_PRIMARY (Z.lor RB_SURFACE_FLIP RB_SURFACE_BACK)).

(** A surface that leaves its window. *)
Definition release_role (surf : Z) (t : table) (g : rb_host) : outcome rb_host :=
  s ← get_surface surf t;
  match (s : option nat) with
  | None => Ret g
  | Some p => update_surface p (fun s => set_role 0 (no_role (sf_flags s)) s) g
  end.

(** The window of a surface, when it still exists. *)
Definition surface_window (s : rb_surface) (t : table) : outcome (option nat) :=
  if negb (sf_window s =? 0) then get_window (sf_window s) t else Ret None.

(** munmap for a block of mmap, free for one of malloc. *)
Definition rb_surface_free_buf (buf : nat) (low32 : bool) (g : rb_host) : outcome rb_host :=
  b ← deref (buffers g !! buf);
  if bool_decide (buf_low32 b = low32) then Ret (with_surfaces (surface_heap g) (sdl_surfaces g) (delete buf (buffers g)) g)
  else Fault.

(** The end of rb_surface_destroy: SDL_FreeSurface, then the buffer, whose size is
    computed from the SDL surface. *)
Definition free_surface (surf : Z) (p : nat) (t : table) (g : rb_host) : outcome (table * rb_host * Z) :=
  s ← deref (surface_heap g !! p);
  _ ← deref (sdl_surfaces g !! sf_surface s);
  let g := with_surfaces (surface_heap g) (delete (sf_surface s) (sdl_surfaces g)) (buffers g) g in
  _ ← deref (sdl_surfaces g !! sf_surface s);
  g ← rb_surface_free_buf (own_buf s) (own_buf_low32 s) g;
  let g := with_surfaces (delete p (surface_heap g)) (sdl_surfaces g) (buffers g) g in
  t ← wine_handle_free (u32 surf) t; Ret (t, g, RB_OK).

(** The backbuffer is destroyed first; its window is cleared, so it nests once. *)
Fixpoint rb_surface_destroy (fuel : nat) (surf : Z) (t : table) (g : rb_host) : outcome (table * rb_host * Z) :=
  match fuel with
  | O => Fail
  | S fuel =>
      sp ← get_surface surf t;
      match (sp : option nat) with
      | None => Ret (t, g, RB_FAIL)
      | Some p =>
          s ← deref (surface_heap g !! p);
          wp ← surface_window s t;
          match (wp : option nat) with
          | None => free_surface surf p t g
          | Some q =>
              w ← deref (rb_heap g !! q);
              if primary_surface w =? surf then
                let back := backbuffer w in
                g ← update_window q (set_chain 0 0) g;
                '(t, g) ← (if negb (back =? 0) && negb (back =? surf) then
                             g ← release_role back t g;
                             '(t, g, _) ← rb_surface_destroy fuel back t g; Ret (t, g)
                           else Ret (t, g));
                free_surface surf p t g
              else if backbuffer w =? surf then
                g ← update_window q (set_chain (primary_surface w) 0) g; free_surface surf p t g
              else free_surface surf p t g
          end
      end
  end.

(** The role of a new surface of a chain. *)
Definition take_role (surf win add remove : Z) (t : table) (g : rb_host) : outcome rb_host :=
  s ← get_surface surf t;
  match (s : option nat) with
  | None => Ret g
  | Some p => update_surface p (fun s => set_role win (Z.ldiff (Z.lor (sf_flags s) add) remove) s) g
  end.

Definition rb_surface_create_flip_chain (win w h format palette backbuffer_count : Z) (t : table) (g : rb_host)
  : outcome (table * rb_host * Z) :=
  let chain := Z.lor RB_SURFACE_PRIMARY RB_SURFACE_FLIP in
  '(t, g, primary) ← rb_surface_create w h format palette chain t g;
  if primary =? 0 then Ret (t, g, 0)
  else
    g ← take_role primary win chain RB_SURFACE_BACK t g;
    wp ← get_window win t;
    match (wp : option nat) with
    | None => Ret (t, g, primary)
    | Some q =>
        wnd ← deref (rb_heap g !! q);
        g ← (if negb (primary_surface wnd =? 0) && negb (primary_surface wnd =? primary) then
               g ← release_role (primary_surface wnd) t g; update_window q (set_chain 0 (backbuffer wnd)) g
             else Ret g);
        '(t, g) ← (if negb (backbuffer wnd =? 0) then
                     g ← release_role (backbuffer wnd) t g;
                     '(t, g, _) ← rb_surface_destroy 2 (backbuffer wnd) t g;
                     g ← update_window q (fun w => set_chain (primary_surface w) 0 w) g; Ret (t, g)
                   else Ret (t, g));
        g ← update_window q (fun w => set_chain primary (backbuffer w) w) g;
        if 0 <? backbuffer_count then
          '(t, g, back) ← rb_surface_create w h format palette RB_SURFACE_BACK t g;
          if back =? 0 then Ret (t, g, primary)
          else
            g ← take_role back win RB_SURFACE_BACK chain t g;
            g ← update_window q (fun w => set_chain (primary_surface w) back w) g; Ret (t, g, primary)
        else Ret (t, g, primary)
    end.

(** An operation on the SDL surface behind a handle. *)
Definition on_surface {X} (surf : Z) (t : table) (g : rb_host) (fail : X) (f : nat -> rb_surface -> sdl_surface -> outcome X) : outcome X :=
  sp ← get_surface surf t;
  match (sp : option nat) with
  | None => Ret fail
  | Some p => s ← deref (surface_heap g !! p); ss ← deref (sdl_surfaces g !! sf_surface s); f p s ss
  end.

(** The offset of the first pixel in the buffer, and the pitch. *)
Definition rb_surface_lock (surf : Z) (rect : option (Z * Z)) (t : table) (g : rb_host) : outcome (option (Z * Z)) :=
  on_surface surf t g None (fun _ _ ss =>
    Ret (match rect with
         | None => Some (0, ss_pitch ss)
         | Some (x, y) =>
             if (x <? 0) || (y <? 0) || (ss_w ss <? x) || (ss_h ss <? y) then None
             else Some (if negb (x =? 0) || negb (y =? 0) then y * ss_pitch ss + x * ss_bytes_per_pixel ss else 0, ss_pitch ss)
         end)).

Definition rb_surface_unlock (surf : Z) (t : table) (g : rb_host) : outcome (rb_host * Z) :=
  sp ← get_surface surf t;
  match (sp : option nat) with
  | None => Ret (g, RB_FAIL)
  | Some p => g ← update_surface p (set_dirty true) g; Ret (g, RB_OK)
  end.

Definition RB_BLT_SRCCOPY : Z := 1.
Definition RB_BLT_COLORFILL : Z := 2.
Definition whole (r : option (Z * Z * Z * Z)) (ss : sdl_surface) : Z * Z * Z * Z := default (0, 0, ss_w ss, ss_h ss) r.

Definition rb_surface_blt (dst : Z) (dst_rect : option (Z * Z * Z * Z)) (src : Z) (src_rect : option (Z * Z * Z * Z))
    (color flags : Z) (t : table) (g : rb_host) : outcome (rb_host * Z) :=
  on_surface dst t g (g, RB_FAIL) (fun p _ ds =>
    let finish (ret : Z) := if ret <? 0 then Ret (g, RB_FAIL) else g ← update_surface p (set_dirty true) g; Ret (g, RB_OK) in
    if has_flag flags RB_BLT_COLORFILL then finish (sdl_fill_rect ds (whole dst_rect ds) color)
    else if has_flag flags RB_BLT_SRCCOPY then
      on_surface src t g (g, RB_FAIL) (fun _ _ ss =>
        let '(sx, sy, sw, sh) := whole src_rect ss in
        let '(dx, dy, dw, dh) := whole dst_rect ds in
        finish (sdl_blit (negb (sw =? dw) || negb (sh =? dh)) ss (sx, sy, sw, sh) ds (dx, dy, dw, dh)))
    else Ret (g, RB_FAIL)).

Definition rb_surface_get_desc (surf : Z) (t : table) (g : rb_host) : outcome (option (Z * Z * Z * Z)) :=
  on_surface surf t g None (fun _ _ ss =>
    let bpp := ss_bits ss in
    let format := if bpp =? 8 then RB_FORMAT_8BIT else if bpp =? 15 then RB_FORMAT_15BIT
                  else if bpp =? 16 then RB_FORMAT_16BIT else if bpp =? 32 then RB_FORMAT_32BIT else RB_FORMAT_8BIT in
    Ret (Some (ss_w ss, ss_h ss, format, ss_pitch ss))).

Definition rb_surface_set_palette (surf pal : Z) (t : table) (g : rb_host) : outcome (rb_host * Z) :=
  on_surface surf t g (g, RB_FAIL) (fun p s ss =>
    pp ← get_palette pal t;
    match (pp : option nat) with
    | None => Ret (g, RB_FAIL)
    | Some q =>
        _ ← deref (palette_heap g !! q);
        if sdl_set_surface_palette ss then
          g ← update_sdl (sf_surface s) (ss_set_palette (Some q)) g;
          g ← update_surface p (set_palette pal) g; Ret (g, RB_OK)
        else Ret (g, RB_FAIL)
    end).

(** *** Presenting *)

Definition rb_sdl_update_window_surface (window : Z) (ss : sdl_surface) (g : rb_host) : rb_host :=
  if sdl_window_surface window then with_screen (<[window := ss_pixels ss]> (h_screen g)) (flip_count g) g else g.

(** The backbuffer is shown and then exchanged with the primary surface: the pixels,
    the buffers and the palettes change places. *)
Definition rb_surface_present_window (w : rb_win) (p : nat) (back : option nat) (t : table) (g : rb_host) : outcome rb_host :=
  primary ← deref (surface_heap g !! p);
  ps ← deref (sdl_surfaces g !! sf_surface primary);
  match back with
  | None => Ret (rb_sdl_update_window_surface (rw_window w) ps g)
  | Some b =>
      bk ← deref (surface_heap g !! b);
      bs ← deref (sdl_surfaces g !! sf_surface bk);
      let g := rb_sdl_update_window_surface (rw_window w) bs g in
      g ← update_sdl (sf_surface primary) (ss_set_pixels (ss_pixels bs)) g;
      g ← update_sdl (sf_surface bk) (ss_set_pixels (ss_pixels ps)) g;
      g ← update_surface p (set_buf (own_buf bk)) g;
      g ← update_surface b (set_buf (own_buf primary)) g;
      g ← update_surface p (set_palette (sf_palette bk)) g;
      g ← update_surface b (set_palette (sf_palette primary)) g;
      g ← rb_surface_apply_palette p t g;
      g ← rb_surface_apply_palette b t g;
      update_surface b (set_dirty false) g
  end.

Definition rb_surface_flip (surf : Z) (t : table) (g : rb_host) : outcome (rb_host * Z) :=
  on_surface surf t g (g, RB_FAIL) (fun p s _ =>
    let g := with_events (pump (h_events g)) g in
    wp ← surface_window s t;
    match (wp : option nat) with
    | None => g ← update_surface p (set_dirty false) g; Ret (g, RB_OK)
    | Some q =>
        w ← deref (rb_heap g !! q);
        if rw_window w =? 0 then g ← update_surface p (set_dirty false) g; Ret (g, RB_OK) else
        pr ← get_surface (primary_surface w) t;
        match (pr : option nat) with
        | None => Ret (g, RB_FAIL)
        | Some pr =>
            if negb (primary_surface w =? surf) then Ret (g, RB_FAIL)
            else
              bk ← get_surface (backbuffer w) t;
              let g := with_screen (h_screen g) (u32 (flip_count g + 1)) g in
              g ← rb_surface_present_window w pr bk t g;
              g ← update_surface pr (set_dirty false) g; Ret (g, RB_OK)
        end
    end).
End backend.

(** ** Objects behind handles *)

(** Every handle of type [ty] holds the only reference to an object of the heap, no two
    handles share one, and each object satisfies [P]. *)
Record owned {X} (ty : Z) (C : nat -> object) (P : X -> Prop) (s : store) (m : gmap nat X) : Prop := {
  ow_live : forall k e, s !! k = Some e -> e_type e = ty ->
    exists p x, e = mkEntry ty (C p) 1 /\ (3 <= k)%nat /\ m !! p = Some x /\ P x;
  ow_inj : forall k k' p, s !! k = Some (mkEntry ty (C p) 1) -> s !! k' = Some (mkEntry ty (C p) 1) -> k = k' }.

Section owned.
Context {X : Type} (ty : Z) (C : nat -> object) (P : X -> Prop).
Implicit Types (s : store) (m : gmap nat X).

Lemma owned_frame s s' m : (forall k e, e_type e = ty -> s !! k = Some e <-> s' !! k = Some e) -> owned ty C P s m -> owned ty C P s' m.
Proof.
  intros Hs [H1 H2]. split.
  - intros k e Hk He. apply (H1 k e); [by apply Hs|done].
  - intros k k' p Hk Hk'. by apply (H2 k k' p); apply Hs.
Qed.

(** A new object that no handle refers to yet. *)
Lemma owned_fresh s m p x : m !! p = None -> owned ty C P s m -> owned ty C P s (<[p := x]> m).
Proof.
  intros Hp [H1 H2]. split; [|done]. intros k e Hk He. destruct (H1 k e Hk He) as (q & y & ? & ? & Hq & ?).
  exists q, y. split_and!; [done..| |done]. rewrite lookup_insert_ne; [done|]. intros <-. congruence.
Qed.

Lemma owned_alloc s m k p x :
  (forall p q, C p = C q -> p = q) -> m !! p = None -> s !! k = None -> (3 <= k)%nat -> P x -> owned ty C P s m ->
  owned ty C P (<[k := mkEntry ty (C p) 1]> s) (<[p := x]> m).
Proof.
  intros C_inj Hp Hk Hk3 Hx Ho. destruct (owned_fresh s m p x Hp Ho) as [H1 H2].
  assert (Hnew : forall j, s !! j = Some (mkEntry ty (C p) 1) -> False).
  { intros j Hj. destruct (ow_live _ _ _ _ _ Ho j _ Hj eq_refl) as (q & y & [= Hq] & _ & Hm & _). apply C_inj in Hq as <-. congruence. }
  split.
  - intros j e. destruct (decide (j = k)) as [->|]; [|rewrite lookup_insert_ne by done; apply H1].
    rewrite lookup_insert_eq. intros [= <-] _. exists p, x. by rewrite lookup_insert_eq.
  - intros j j' q. destruct (decide (j = k)) as [->|], (decide (j' = k)) as [->|]; [done|..].
    + rewrite lookup_insert_eq, lookup_insert_ne by done. intros [= Hq] Hj. apply C_inj in Hq as <-. by destruct (Hnew j').
    + rewrite lookup_insert_eq, lookup_insert_ne by done. intros Hj [= Hq]. apply C_inj in Hq as <-. by destruct (Hnew j).
    + rewrite !lookup_insert_ne by done. apply H2.
Qed.

Lemma owned_update s m p x y : m !! p = Some x -> P y -> owned ty C P s m -> owned ty C P s (<[p := y]> m).
Proof.
  intros Hp Hy [H1 H2]. split; [|done]. intros k e Hk He. destruct (H1 k e Hk He) as (q & z & ? & ? & Hq & ?).
  destruct (decide (q = p)) as [->|]; [exists p, y|exists q, z].
  - by rewrite lookup_insert_eq.
  - by rewrite lookup_insert_ne.
Qed.

Lemma owned_free s m k p : s !! k = Some (mkEntry ty (C p) 1) -> owned ty C P s m -> owned ty C P (delete k s) (delete p m).
Proof.
  intros Hk [H1 H2]. split.
  - intros j e Hj He. apply lookup_delete_Some in Hj as [Hne Hj]. destruct (H1 j e Hj He) as (q & x & -> & ? & ? & ?).
    exists q, x. split_and!; [done..| |done]. rewrite lookup_delete_ne; [done|]. intros <-. by apply Hne, (H2 k j p).
  - intros j j' q Hj Hj'. apply lookup_delete_Some in Hj as [_ Hj]. apply lookup_delete_Some in Hj' as [_ Hj']. eauto.
Qed.

(** What a handle of any value is taken for. *)
Lemma get_typed_cases ptr s m t h :
  ty <> 0 -> (forall p, ptr (C p) = Some p) -> (forall p, C p <> ONull) -> represents t s -> owned ty C P s m ->
  get_typed ty ptr h t = Ret None \/
  exists p x, get_typed ty ptr h t = Ret (Some p) /\ s !! Z.to_nat (u32 h) = Some (mkEntry ty (C p) 1) /\ m !! p = Some x /\ P x.
Proof.
  intros Hty Hptr Hnull R Ho. destruct (table_get s t h R) as [E1 E2]. unfold get_typed. rewrite E2. cbn [mbind outcome_bind].
  destruct (s !! Z.to_nat (u32 h)) as [e|] eqn:Es; cbn [from_option].
  - destruct (Z.eqb_spec (e_type e) ty) as [He|]; [right|by left].
    destruct (ow_live _ _ _ _ _ Ho _ e Es He) as (p & x & -> & _ & Hm & Hx). exists p, x. split_and!; [|done..].
    cbn [negb]. rewrite E1. cbn. specialize (Hptr p). specialize (Hnull p). destruct (C p); [done|rewrite Hptr; done..].
  - left. rewrite (proj2 (Z.eqb_neq 0 ty)) by congruence. done.
Qed.

Lemma free_owned s m t h p :
  represents t s -> owned ty C P s m -> s !! Z.to_nat (u32 h) = Some (mkEntry ty (C p) 1) ->
  exists t', wine_handle_free (u32 h) t = Ret t' /\ represents t' (delete (Z.to_nat (u32 h)) s).
Proof.
  intros R Ho Hs. destruct (handle_step_refines (HFree (u32 h)) t s R) as (t' & E & R'); [apply wrap_range; lia|].
  destruct (ow_live _ _ _ _ _ Ho _ _ Hs eq_refl) as (_ & _ & _ & H3 & _).
  cbn [handle_step store_step] in E, R'. rewrite (proj2 (Z.leb_gt _ _)), Hs in E, R' by lia. cbn in E, R'.
  apply bind_Ret in E as (t1 & -> & [= ->]). by exists t'.
Qed.
End owned.

(** ** Palettes read back *)

Lemma color_roundtrip c : 0 <= c -> color_ref (color_of c) = Z.land c 0xFFFFFF.
Proof.
  intros Hc. unfold color_ref, color_of. cbn [c_r c_g c_b]. apply Z.bits_inj'. intros n Hn.
  rewrite !Z.lor_spec, !Z.shiftl_spec by done. change 0xFF with (Z.ones 8). change 0xFFFFFF with (Z.ones 24).
  destruct (Z_lt_le_dec n 24), (Z_lt_le_dec n 16), (Z_lt_le_dec n 8); try lia;
    repeat match goal with
    | |- context [Z.testbit (Z.land _ _) ?k] => destruct (Z_lt_le_dec k 0);
        [rewrite (Z.testbit_neg_r _ k) by lia|rewrite Z.land_spec, ?Z.shiftr_spec by lia; rewrite Z.testbit_ones_nonneg by lia]
    end;
    repeat match goal with |- context [?a <? ?b] => destruct (Z.ltb_spec a b); try lia end;
    rewrite ?andb_true_r, ?andb_false_r, ?orb_false_r; simpl; f_equal; lia.
Qed.

Lemma read_from_ok {X} (l : list X) n : forall i, (i + n <= length l)%nat -> read_from l i n = Ret (take n (drop i l)).
Proof.
  induction n as [|n IH]; intros i Hi; cbn [read_from]; [done|].
  destruct (lookup_lt_is_Some_2 l i) as [x Hx]; [lia|]. rewrite Hx. cbn [deref mbind outcome_bind].
  rewrite IH by lia. cbn [mbind outcome_bind]. by rewrite (drop_S l x i Hx).
Qed.

Lemma write_from_ok {X} (xs l : list X) : forall i, (i + length xs <= length l)%nat ->
  write_from l i xs = Ret (take i l ++ xs ++ drop (i + length xs) l).
Proof.
  revert l. induction xs as [|x xs IH]; intros l i Hi; cbn [write_from length] in *.
  { by rewrite Nat.add_0_r, app_nil_l, take_drop. }
  destruct (lookup_lt_is_Some_2 l i) as [y Hy]; [lia|]. rewrite Hy. cbn [deref mbind outcome_bind].
  rewrite IH by (rewrite length_insert; lia). f_equal. rewrite (take_S_r _ _ x) by (apply list_lookup_insert_eq; lia).
  rewrite take_insert_ge, drop_insert_lt by lia. by rewrite <- app_assoc, Nat.add_succ_r.
Qed.

Lemma color_count_inside start count n : 0 <= start -> 0 < count -> start + count <= n -> n < 2 ^ 31 -> color_count start count n = Some count.
Proof.
  intros. unfold color_count. rewrite (proj2 (Z.leb_gt _ _)), wrap_small by lia. by rewrite (proj2 (Z.ltb_ge _ _)) by lia.
Qed.

Section palettes.
Context {A : Arch}.
Variable malloc_colors : Z -> bool.
Variable sdl_set_palette_colors : list SDL_Color -> list SDL_Color -> Z -> list SDL_Color * Z.
(** SDL_SetPaletteColors stores the colours when they fit. *)
Hypothesis set_palette_colors_stores : forall l cs start, 0 <= start -> start + Z.of_nat (length cs) <= Z.of_nat (length l) ->
  sdl_set_palette_colors l cs start = (take (Z.to_nat start) l ++ cs ++ drop (Z.to_nat start + length cs) l, 0).

(** The colours that are set in a range of a palette are the colours that are read from
    it, less the byte that a COLORREF does not use; the caller's array beyond the range
    is left alone. *)
Theorem palette_colors_roundtrip pal p pl start colors out t g :
  get_palette pal t = Ret (Some p) -> palette_heap g !! p = Some pl ->
  num_colors pl = Z.of_nat (length (pal_colors pl)) -> num_colors pl < 2 ^ 31 ->
  0 <= start -> colors <> [] -> start + Z.of_nat (length colors) <= num_colors pl -> Forall (in_u 32) colors ->
  (length colors <= length out)%nat -> malloc_colors (usize (4 * Z.of_nat (length colors))) = true ->
  exists g', rb_palette_set_colors malloc_colors sdl_set_palette_colors pal start (Z.of_nat (length colors)) (Some colors) t g = Ret (g', RB_OK) /\
    rb_palette_get_colors pal start (Z.of_nat (length colors)) (Some out) t g' =
      Ret (Some (((fun c => Z.land c 0xFFFFFF) <$> colors) ++ drop (length colors) out), RB_OK).
Proof.
  intros Hp Hpl Hn Hlim Hs Hc Hfit Hu Hout Hm. assert (0 < Z.of_nat (length colors)) by (destruct colors; [done|simpl; lia]).
  unfold rb_palette_set_colors. rewrite Hp. cbn [mbind outcome_bind]. rewrite Hpl. cbn [deref mbind outcome_bind].
  rewrite color_count_inside by lia. rewrite (proj2 (Z.eqb_neq _ 0)), Hm by lia.
  rewrite read_from_ok by lia. cbn [mbind outcome_bind]. rewrite drop_0, Nat2Z.id, firstn_all.
  rewrite set_palette_colors_stores by (rewrite ?length_fmap; lia). eexists. split; [reflexivity|].
  unfold rb_palette_get_colors. rewrite Hp. cbn [mbind outcome_bind with_palettes palette_heap]. rewrite lookup_insert_eq.
  cbn [deref mbind outcome_bind num_colors pal_colors]. rewrite color_count_inside by lia. rewrite (proj2 (Z.eqb_neq _ 0)) by lia.
  rewrite Nat2Z.id. rewrite read_from_ok by (rewrite !length_app, length_take, length_fmap, length_drop; lia).
  cbn [mbind outcome_bind]. rewrite drop_app_length' by (rewrite length_take; lia).
  rewrite take_app_length' by (by rewrite length_fmap).
  rewrite write_from_ok by (rewrite !length_fmap; lia). cbn [mbind outcome_bind]. rewrite take_0, !length_fmap, <- list_fmap_compose.
  rewrite app_nil_l. do 4 f_equal. apply list_fmap_ext. intros i c Hi. simpl. apply color_roundtrip. apply (Forall_lookup_1 _ _ _ _ Hu Hi).
Qed.
End palettes.

(** ** Flipping *)

(** The states agree on everything but the palettes of the SDL surfaces. *)
Record same_but_palettes (g g' : rb_host) : Prop := {
  sp_surfaces : surface_heap g' = surface_heap g;
  sp_palettes : palette_heap g' = palette_heap g;
  sp_screen : h_screen g' = h_screen g;
  sp_buffers : buffers g' = buffers g;
  sp_sdl : forall k, ss_set_palette None <$> sdl_surfaces g' !! k = ss_set_palette None <$> sdl_surfaces g !! k }.
Lemma sp_pixels g g' k : same_but_palettes g g' -> ss_pixels <$> sdl_surfaces g' !! k = ss_pixels <$> sdl_surfaces g !! k.
Proof.
  intros Hs. pose proof (sp_sdl _ _ Hs k) as Hk.
  destruct (sdl_surfaces g' !! k) as [[]|], (sdl_surfaces g !! k) as [[]|]; cbn in *; unfold ss_set_palette in Hk; cbn in Hk; congruence.
Qed.
Abbreviation palettes_ok st g := (owned HANDLE_TYPE_RB_PALETTE ORbPalette (fun _ => True) st (palette_heap g)).

Lemma apply_palette_ok f ss pal t st g :
  represents t st -> palettes_ok st g -> is_Some (sdl_surfaces g !! ss) ->
  exists g', apply_palette f ss pal t g = Ret g' /\ same_but_palettes g g'.
Proof.
  intros R Ho [x Hx]. unfold apply_palette. destruct (pal =? 0); [by exists g|].
  destruct (get_typed_cases HANDLE_TYPE_RB_PALETTE ORbPalette (fun _ => True)
    (fun o => match o with ORbPalette p => Some p | _ => None end) st (palette_heap g) t pal) as [E|(p & y & E & _ & Hp & _)];
    [done..| |]; fold get_palette in E; rewrite E; cbn [mbind outcome_bind]; [by exists g|].
  rewrite Hp. cbn [deref mbind outcome_bind]. rewrite Hx. cbn [deref mbind outcome_bind]. destruct (f x); [|by exists g].
  unfold update_sdl. rewrite Hx. eexists. split; [reflexivity|]. split; try done. intros k. cbn.
  destruct (decide (k = ss)) as [->|]; [by rewrite lookup_insert_eq, Hx|by rewrite lookup_insert_ne].
Qed.

Lemma surface_apply_palette_ok f p s t st g :
  represents t st -> palettes_ok st g -> surface_heap g !! p = Some s -> is_Some (ss_pixels <$> sdl_surfaces g !! sf_surface s) ->
  exists g', rb_surface_apply_palette f p t g = Ret g' /\ same_but_palettes g g'.
Proof.
  intros R Ho Hp Hs. unfold rb_surface_apply_palette. rewrite Hp. cbn [deref mbind outcome_bind].
  apply (apply_palette_ok f _ _ t st); [done|done|]. by apply fmap_is_Some in Hs.
Qed.

Lemma update_sdl_some p f g x :
  sdl_surfaces g !! p = Some x -> update_sdl p f g = Ret (with_surfaces (surface_heap g) (<[p := f x]> (sdl_surfaces g)) (buffers g) g).
Proof. intros E. unfold update_sdl. by rewrite E. Qed.
Lemma update_surface_some p f g x :
  surface_heap g !! p = Some x ->
  update_surface p f g = Ret (with_surfaces (<[p := f x]> (surface_heap g)) (sdl_surfaces g) (buffers g) g).
Proof. intros E. unfold update_surface. by rewrite E. Qed.

(** A surface with the buffer and the palette of another. *)
Definition takes (s from : rb_surface) : rb_surface := set_palette (sf_palette from) (set_buf (own_buf from) s).

Lemma present_swaps f shown w p s ps b bk bs t st g :
  represents t st -> palettes_ok st g -> p <> b -> sf_surface s <> sf_surface bk ->
  surface_heap g !! p = Some s -> sdl_surfaces g !! sf_surface s = Some ps ->
  surface_heap g !! b = Some bk -> sdl_surfaces g !! sf_surface bk = Some bs -> shown (rw_window w) = true ->
  exists g', rb_surface_present_window f shown w p (Some b) t g = Ret g' /\
    surface_heap g' = <[b := set_dirty false (takes bk s)]> (<[p := takes s bk]> (surface_heap g)) /\
    h_screen g' !! rw_window w = Some (ss_pixels bs) /\
    ss_pixels <$> sdl_surfaces g' !! sf_surface s = Some (ss_pixels bs) /\
    ss_pixels <$> sdl_surfaces g' !! sf_surface bk = Some (ss_pixels ps).
Proof.
  intros R Ho Hne Hne' Hp Hps Hb Hbs Hsh. unfold rb_surface_present_window, rb_sdl_update_window_surface.
  rewrite Hp. cbn [deref mbind outcome_bind]. rewrite Hps. cbn [deref mbind outcome_bind]. rewrite Hb. cbn [deref mbind outcome_bind].
  rewrite Hbs. cbn [deref mbind outcome_bind]. rewrite Hsh.
  erewrite update_sdl_some by exact Hps. cbn [mbind outcome_bind].
  erewrite (update_sdl_some (sf_surface bk)) by (cbn; rewrite lookup_insert_ne by done; exact Hbs). cbn [mbind outcome_bind].
  erewrite (update_surface_some p) by exact Hp. cbn [mbind outcome_bind].
  erewrite (update_surface_some b) by (cbn; rewrite lookup_insert_ne by done; exact Hb). cbn [mbind outcome_bind].
  erewrite (update_surface_some p) by (cbn; rewrite lookup_insert_ne, lookup_insert_eq by done; reflexivity). cbn [mbind outcome_bind].
  erewrite (update_surface_some b) by (cbn; rewrite lookup_insert_ne, lookup_insert_eq by done; reflexivity). cbn [mbind outcome_bind].
  match goal with |- context [rb_surface_apply_palette _ p t ?g] => set (g1 := g) end.
  assert (Hm1 : surface_heap g1 = <[b := takes bk s]> (<[p := takes s bk]> (surface_heap g))).
  { cbn. apply map_eq. intros i. rewrite !lookup_insert. repeat case_decide; congruence || done. }
  assert (Hx1 : sdl_surfaces g1 !! sf_surface s = Some (ss_set_pixels (ss_pixels bs) ps)).
  { cbn. by rewrite lookup_insert_ne, lookup_insert_eq. }
  assert (Hy1 : sdl_surfaces g1 !! sf_surface bk = Some (ss_set_pixels (ss_pixels ps) bs)) by (cbn; apply lookup_insert_eq).
  destruct (surface_apply_palette_ok f p (takes s bk) t st g1 R Ho) as (g2 & -> & S2);
    [by rewrite Hm1, lookup_insert_ne, lookup_insert_eq|change (sf_surface (takes s bk)) with (sf_surface s); by rewrite Hx1|]. cbn [mbind outcome_bind].
  destruct (surface_apply_palette_ok f b (takes bk s) t st g2 R) as (g3 & -> & S3);
    [by rewrite (sp_palettes _ _ S2)|by rewrite (sp_surfaces _ _ S2), Hm1, lookup_insert_eq|change (sf_surface (takes bk s)) with (sf_surface bk); by rewrite (sp_pixels _ _ _ S2), Hy1|].
  cbn [mbind outcome_bind].
  erewrite update_surface_some by (rewrite (sp_surfaces _ _ S3), (sp_surfaces _ _ S2), Hm1, lookup_insert_eq; reflexivity).
  eexists. split; [reflexivity|]. cbn [with_surfaces surface_heap sdl_surfaces h_screen].
  rewrite (sp_surfaces _ _ S3), (sp_surfaces _ _ S2), Hm1, insert_insert_eq, (sp_screen _ _ S3), (sp_screen _ _ S2).
  rewrite !(sp_pixels _ _ _ S3), !(sp_pixels _ _ _ S2), Hx1, Hy1. split_and!; try done. cbn. apply lookup_insert_eq.
Qed.

(** C36: Flipping the primary surface of a window shows the pixels of its backbuffer, which
    become those of the primary surface: what the guest draws next goes into the pixels
    that are no longer shown.  Buffer and palette move with the pixels, and neither
    surface is left dirty. *)
Theorem flip_exchanges_buffers f shown pump surf p s ps q w b bk bs t st g :
  represents t st -> palettes_ok st g ->
  get_surface surf t = Ret (Some p) -> surface_heap g !! p = Some s -> sdl_surfaces g !! sf_surface s = Some ps ->
  sf_window s <> 0 -> get_window (sf_window s) t = Ret (Some q) -> rb_heap g !! q = Some w -> rw_window w <> 0 ->
  primary_surface w = surf -> get_surface (backbuffer w) t = Ret (Some b) ->
  surface_heap g !! b = Some bk -> sdl_surfaces g !! sf_surface bk = Some bs ->
  p <> b -> sf_surface s <> sf_surface bk -> shown (rw_window w) = true ->
  exists g' s' bk', rb_surface_flip f shown pump surf t g = Ret (g', RB_OK) /\
    surface_heap g' !! p = Some s' /\ surface_heap g' !! b = Some bk' /\
    own_buf s' = own_buf bk /\ own_buf bk' = own_buf s /\ sf_palette s' = sf_palette bk /\ sf_palette bk' = sf_palette s /\
    sf_dirty s' = false /\ sf_dirty bk' = false /\
    h_screen g' !! rw_window w = Some (ss_pixels bs) /\
    ss_pixels <$> sdl_surfaces g' !! sf_surface s' = Some (ss_pixels bs) /\
    ss_pixels <$> sdl_surfaces g' !! sf_surface bk' = Some (ss_pixels ps).
Proof.
  intros R Ho Hsurf Hp Hps Hw0 Hwin Hq Hw Hprim Hback Hb Hbs Hne Hne' Hsh.
  unfold rb_surface_flip, on_surface. rewrite Hsurf. cbn [mbind outcome_bind]. rewrite Hp. cbn [deref mbind outcome_bind].
  rewrite Hps. cbn [deref mbind outcome_bind]. unfold surface_window. rewrite (proj2 (Z.eqb_neq _ 0) Hw0), Hwin.
  cbn [negb mbind outcome_bind with_events rb_heap]. rewrite Hq. cbn [deref mbind outcome_bind].
  rewrite (proj2 (Z.eqb_neq _ 0) Hw), Hprim, Hsurf. cbn [mbind outcome_bind]. rewrite Z.eqb_refl, Hback. cbn [negb mbind outcome_bind].
  match goal with |- context [rb_surface_present_window _ _ _ _ _ _ ?g] => set (g1 := g) end.
  destruct (present_swaps f shown w p s ps b bk bs t st g1) as (g2 & -> & Hm & H1 & H2 & H3); [done..|].
  cbn [mbind outcome_bind]. erewrite (update_surface_some p) by (rewrite Hm, lookup_insert_ne, lookup_insert_eq by done; reflexivity).
  do 3 eexists. split; [reflexivity|]. cbn [with_surfaces surface_heap sdl_surfaces h_screen].
  rewrite lookup_insert_eq, lookup_insert_ne, Hm, lookup_insert_eq by done. split; [reflexivity|]. split; [reflexivity|].
  by split_and!.
Qed.

(** ** Locking *)

(** A surface whose buffer holds its rows. *)
Definition buffer_fits (ss : sdl_surface) (b : buffer) : Prop :=
  0 < ss_w ss /\ 0 < ss_h ss /\ 0 < ss_bytes_per_pixel ss /\ ss_w ss * ss_bytes_per_pixel ss <= ss_pitch ss /\
  ss_pitch ss * ss_h ss <= buf_size b.

(** Locking a surface at a pixel inside it returns the place of that pixel in its
    buffer. *)
Lemma locked_pixel_in_buffer surf x y p s ss b t g :
  get_surface surf t = Ret (Some p) -> surface_heap g !! p = Some s -> sdl_surfaces g !! sf_surface s = Some ss ->
  buffers g !! ss_pixels ss = Some b -> buffer_fits ss b -> 0 <= x < ss_w ss -> 0 <= y < ss_h ss ->
  exists off, rb_surface_lock surf (Some (x, y)) t g = Ret (Some (off, ss_pitch ss)) /\
    off = y * ss_pitch ss + x * ss_bytes_per_pixel ss /\ 0 <= off /\ off + ss_bytes_per_pixel ss <= buf_size b.
Proof.
  intros Hs Hp Hss Hb (Hw & Hh & Hbpp & Hrow & Hsz) Hx Hy. unfold rb_surface_lock, on_surface. rewrite Hs. cbn [mbind outcome_bind].
  rewrite Hp. cbn [deref mbind outcome_bind]. rewrite Hss. cbn [deref mbind outcome_bind].
  rewrite !(proj2 (Z.ltb_ge _ _)) by lia. cbn [orb].
  exists (y * ss_pitch ss + x * ss_bytes_per_pixel ss). split_and!; [|done|nia|nia].
  destruct (Z.eqb_spec x 0) as [->|], (Z.eqb_spec y 0) as [->|]; cbn [negb orb]; done.
Qed.

Section creation.
Context {A : Arch}.
Variable malloc_surface : gmap nat rb_surface -> option nat.
Variable alloc_buf : Z -> gmap nat buffer -> option (nat * bool).
Variable sdl_masks15 : option Z.
Variable sdl_create_surface_from : Z -> Z -> Z -> Z -> gmap nat sdl_surface -> option nat.
Variable sdl_set_surface_palette : sdl_surface -> bool.
(** SDL gives 15 or 16 bits for the 15-bit format. *)
Hypothesis masks15 : forall d, sdl_masks15 = Some d -> d = 15 \/ d = 16.
Local Abbreviation create :=
  (rb_surface_create malloc_surface alloc_buf sdl_masks15 sdl_create_surface_from sdl_set_surface_palette).

Lemma depth_fits w format d :
  rb_format_to_bpp format <> 0 -> (if rb_format_to_bpp format =? 15 then sdl_masks15 else Some (rb_format_to_bpp format)) = Some d ->
  0 < w -> 4 * w < 2 ^ 31 ->
  let pitch := rb_surface_pitch_for_bpp w (rb_format_to_bpp format) in
  0 < (d + 7) / 8 /\ w * ((d + 7) / 8) = pitch /\ w <= pitch <= 4 * w.
Proof.
  intros Hf Hd Hw Hlim. unfold rb_format_to_bpp in *.
  repeat match type of Hf with context [if ?b then _ else _] => destruct b end; try done; cbn in Hd;
    cbv [rb_surface_pitch_for_bpp Z.eqb Pos.eqb Z.leb Z.compare Pos.compare Pos.compare_cont]; rewrite ?swrap_small by lia;
    [injection Hd as <-|destruct (masks15 d Hd) as [-> | ->]|injection Hd as <-|injection Hd as <-];
    [change ((8 + 7) / 8) with 1|change ((15 + 7) / 8) with 2|change ((16 + 7) / 8) with 2|change ((16 + 7) / 8) with 2|
     change ((32 + 7) / 8) with 4]; lia.
Qed.

(** The surface behind the handle that rb_surface_create returns has a buffer of its own
    that holds its rows. *)
Lemma created_surface_fits w h format palette flags t g t' g' k st :
  represents t st -> palettes_ok st g -> 4 * w * h < 2 ^ 31 ->
  create w h format palette flags t g = Ret (t', g', k) -> k <> 0 ->
  exists p s ss b, get_surface k t' = Ret (Some p) /\ surface_heap g' !! p = Some s /\ sdl_surfaces g' !! sf_surface s = Some ss /\
    ss_w ss = w /\ ss_h ss = h /\ buffers g' !! ss_pixels ss = Some b /\ buffer_fits ss b.
Proof.
  intros R Ho Hlim E Hk. unfold rb_surface_create in E.
  destruct (Z.leb_spec w 0), (Z.leb_spec h 0); cbn [orb] in E; try (injection E as <- <- <-; done).
  destruct (Z.eqb_spec (rb_format_to_bpp format) 0) as [|Hf]; [by injection E as <- <- <-|].
  destruct (alloc_buf _ _) as [[buf low32]|]; [|by injection E as <- <- <-].
  destruct (if _ =? 15 then _ else _) as [d|] eqn:Ed; [|by injection E as <- <- <-].
  destruct (sdl_create_surface_from _ _ _ _ _) as [ss|]; [|by injection E as <- <- <-].
  destruct (depth_fits w format d Hf Ed) as (Hd & Hrow & Hpitch); [lia|nia|].
  set (pitch := rb_surface_pitch_for_bpp w (rb_format_to_bpp format)) in *.
  match type of E with context [apply_palette _ ss _ _ ?g] => set (g1 := g) in E end.
  assert (Hss : sdl_surfaces g1 !! ss = Some (mkSdlSurface buf w h pitch d None)) by apply lookup_insert_eq.
  destruct (apply_palette_ok sdl_set_surface_palette ss palette t st g1 R Ho) as (g2 & E2 & S2); [by rewrite Hss|].
  rewrite E2 in E. cbn [mbind outcome_bind] in E. destruct (malloc_surface _) as [p|]; [|by injection E as <- <- <-].
  destruct (alloc_cases HANDLE_TYPE_RB_SURFACE (ORbSurface p) t st R) as [Ea|(j & t1 & Hj & Hn & Ea & R1)];
    rewrite Ea in E; cbn [mbind outcome_bind] in E; injection E as <- <- <-; [done|].
  pose proof (sp_sdl _ _ S2 ss) as Hss2. rewrite Hss in Hss2. destruct (sdl_surfaces g2 !! ss) as [y|] eqn:Ey; [|done].
  cbn in Hss2. unfold ss_set_palette in Hss2. cbn in Hss2. injection Hss2 as Y1 Y2 Y3 Y4 Y5.
  exists p. eexists _, y, _. split_and!.
  - destruct (table_get _ t1 (Z.of_nat j) R1) as [G1 G2]. rewrite wrap_small, Nat2Z.id, lookup_insert_eq in G1, G2 by lia.
    unfold get_surface, get_typed. rewrite wrap_small by lia. rewrite G2. cbn. rewrite G1. done.
  - cbn. apply lookup_insert_eq.
  - exact Ey.
  - done.
  - done.
  - cbn. rewrite (sp_buffers _ _ S2), Y1. apply lookup_insert_eq.
  - unfold buffer_fits, ss_bytes_per_pixel. rewrite Y2, Y3, Y4, Y5. cbn. rewrite swrap_small by nia. rewrite usize_u32 by nia. split_and!; lia || nia.
Qed.

(** A new surface can be locked at each of its pixels, and the place that is returned
    lies within its buffer. *)
Theorem created_surface_lockable w h format palette flags t g t' g' k st x y :
  represents t st -> palettes_ok st g -> 4 * w * h < 2 ^ 31 ->
  create w h format palette flags t g = Ret (t', g', k) -> k <> 0 -> 0 <= x < w -> 0 <= y < h ->
  exists p s ss b off, get_surface k t' = Ret (Some p) /\ surface_heap g' !! p = Some s /\
    sdl_surfaces g' !! sf_surface s = Some ss /\ buffers g' !! ss_pixels ss = Some b /\
    rb_surface_lock k (Some (x, y)) t' g' = Ret (Some (off, ss_pitch ss)) /\
    0 <= off /\ off + ss_bytes_per_pixel ss <= buf_size b.
Proof.
  intros R Ho Hlim E Hk Hx Hy. destruct (created_surface_fits w h format palette flags t g t' g' k st R Ho Hlim E Hk)
    as (p & s & ss & b & H1 & H2 & H3 & <- & <- & H4 & H5).
  destruct (locked_pixel_in_buffer k x y p s ss b t' g' H1 H2 H3 H4 H5 Hx Hy) as (off & E1 & _ & E2 & E3).
  exists p, s, ss, b, off. done.
Qed.
End creation.

(** ** Concrete hosts *)

Definition next_free {X} (m : gmap nat X) : option nat := Some (fresh (dom m : gset nat)).
Lemma next_free_fresh {X} (m : gmap nat X) p : next_free m = Some p -> m !! p = None.
Proof. intros [= <-]. apply not_elem_of_dom, is_fresh. Qed.
Definition host_init (e : rb_state) : rb_host := mkRbHost ∅ ∅ ∅ ∅ ∅ ∅ ∅ 0 e.
Definition no_events : rb_state := mkRb 0 [] [] 0 [] 0 0 false false false 0 ∅.

Lemma no_handles {X} ty C (P : X -> Prop) (s : store) m : map_Forall (fun _ e => e_type e <> ty) s -> owned ty C P s m.
Proof. intros Hn. split; [intros k e Hk He; by destruct (Hn k e Hk)|intros k k' p Hk; by apply Hn in Hk]. Qed.

(** Blocks of mmap, except where [low] says otherwise. *)
Definition demo_buf (low : nat -> bool) (n : Z) (m : gmap nat buffer) : option (nat * bool) :=
  let p := fresh (dom m : gset nat) in Some (p, low p).
Definition demo_sdl (w h d pitch : Z) (m : gmap nat sdl_surface) : option nat := next_free m.
Definition demo_create (low : nat -> bool) :=
  rb_surface_create (A := arch64) next_free (demo_buf low) (Some 15) demo_sdl (fun _ => true).
Definition demo_chain (low : nat -> bool) :=
  rb_surface_create_flip_chain (A := arch64) next_free (demo_buf low) (Some 15) demo_sdl (fun _ => true).
Definition fresh_surface (w h format : Z) : outcome (table * rb_host * Z) :=
  demo_create (fun _ => true) w h format 0 0 wine_handle_manager_runtime_init (host_init no_events).

Lemma created_surface_lockable_witness :
  exists t g, fresh_surface 640 480 RB_FORMAT_16BIT = Ret (t, g, 3) /\
    exists off, rb_surface_lock 3 (Some (639, 479)) t g = Ret (Some (off, 1280)) /\ off + 2 <= 640 * 480 * 2.
Proof.
  destruct (fresh_surface 640 480 RB_FORMAT_16BIT) as [[[t g] k]| |] eqn:E; [|vm_compute in E; discriminate E..].
  destruct (created_surface_lockable (A := arch64) next_free (demo_buf (fun _ => true)) (Some 15) demo_sdl (fun _ => true)
    ltac:(intros d [= <-]; by left) 640 480 RB_FORMAT_16BIT 0 0 wine_handle_manager_runtime_init (host_init no_events) t g k store_init
    639 479) as (p & s & ss & b & off & H1 & H2 & H3 & H4 & H5 & H6 & H7); [apply handle_init_represents|..|lia|lia|].
  { apply no_handles. apply (bool_decide_eq_true_1 _). vm_compute. reflexivity. }
  { done. }
  { exact E. }
  { vm_compute in E. injection E as <- <- <-. done. }
  clear - E H1 H2 H3 H4 H5 H7. vm_compute in E. injection E as <- <- <-. do 2 eexists. split; [reflexivity|]. vm_compute in H1. injection H1 as <-.
  vm_compute in H2. injection H2 as <-. vm_compute in H3. injection H3 as <-. vm_compute in H4. injection H4 as <-.
  exists off. split; [exact H5|exact H7].
Defined.

Definition demo_set_colors (l cs : list SDL_Color) (start : Z) : list SDL_Color * Z :=
  (take (Z.to_nat start) l ++ cs ++ drop (Z.to_nat start + length cs) l, 0).
(** A palette of [n] white colours behind handle 3. *)
Definition demo_palette (n : Z) : outcome (table * rb_host * Z) :=
  rb_palette_create next_free (fun n => Some (replicate (Z.to_nat n) (mkColor 255 255 255 255))) n wine_handle_manager_runtime_init
    (host_init no_events).
Definition palette_table : table := match demo_palette 16 with Ret (t, _, _) => t | _ => [] end.
Definition palette_host : rb_host := match demo_palette 16 with Ret (_, g, _) => g | _ => host_init no_events end.

Lemma palette_colors_roundtrip_witness :
  exists g, rb_palette_set_colors (A := arch64) (fun _ => true) demo_set_colors 3 4 2 (Some [0x123456; 0xFF0000AB]) palette_table palette_host = Ret (g, RB_OK) /\
    rb_palette_get_colors 3 4 2 (Some [7; 8; 9]) palette_table g = Ret (Some [0x123456; 0xAB; 9], RB_OK).
Proof.
  destruct (palette_colors_roundtrip (A := arch64) (fun _ => true) demo_set_colors (fun _ _ _ _ _ => eq_refl) 3 0
    (mkPalette 16 (replicate 16 (mkColor 255 255 255 255))) 4 [0x123456; 0xFF0000AB] [7; 8; 9] palette_table palette_host)
    as (g & E1 & E2).
  - vm_compute. reflexivity.
  - vm_compute. reflexivity.
  - reflexivity.
  - reflexivity.
  - lia.
  - congruence.
  - simpl. lia.
  - repeat constructor; unfold in_u; lia.
  - simpl. lia.
  - reflexivity.
  - exists g. split; [exact E1|exact E2].
Defined.

(** A window behind handle 3 with a flip chain of two 8-bit surfaces behind handles 4
    and 5, whose second buffer comes from malloc. *)
Definition window_host : rb_host := with_rb_heap {[0%nat := mkRbWin 1 (mkRbWindow 1 0 true false false) 0 0 0]} (host_init no_events).
Definition chain_ops : list hop :=
  [HAlloc HANDLE_TYPE_RB_WINDOW (ORbWindow 0); HAlloc HANDLE_TYPE_RB_SURFACE (ORbSurface 0); HAlloc HANDLE_TYPE_RB_SURFACE (ORbSurface 1)].
Definition demo_flip_chain : outcome (table * rb_host * Z) :=
  '(t, _) ← wine_handle_alloc HANDLE_TYPE_RB_WINDOW (ORbWindow 0) wine_handle_manager_runtime_init;
  demo_chain (fun p => bool_decide (p = 0%nat)) 3 4 4 RB_FORMAT_8BIT 0 1 t window_host.
Definition chain_table : table := match demo_flip_chain with Ret (t, _, _) => t | _ => [] end.
Definition chain_host : rb_host := match demo_flip_chain with Ret (_, g, _) => g | _ => window_host end.
Definition chain_store : store := fst (store_run chain_ops store_init).
Lemma chain_represents : represents chain_table chain_store.
Proof.
  destruct (handle_run_represents chain_ops wine_handle_manager_runtime_init store_init handle_init_represents) as (t' & E & R);
    [repeat constructor|].
  replace chain_table with t'; [done|]. vm_compute in E. injection E as <-. vm_compute. reflexivity.
Qed.
Definition demo_flip := rb_surface_flip (fun _ => true) (fun _ => true) id.

Lemma flip_exchanges_buffers_witness :
  exists g s b, demo_flip 4 chain_table chain_host = Ret (g, RB_OK) /\
    surface_heap g !! 0%nat = Some s /\ surface_heap g !! 1%nat = Some b /\ own_buf s = 1%nat /\ own_buf b = 0%nat /\ h_screen g !! 1 = Some 1%nat.
Proof.
  destruct (flip_exchanges_buffers (fun _ => true) (fun _ => true) id 4 0 (mkRbSurface 0 0 true 0 false 3 4 5)
    (mkSdlSurface 0 4 4 4 8 None) 0 (mkRbWin 1 (mkRbWindow 1 0 true false false) 0 4 5) 1 (mkRbSurface 1 1 false 0 false 3 4 8)
    (mkSdlSurface 1 4 4 4 8 None) chain_table chain_store chain_host) as (g & s & b & E1 & E2 & E3 & E4 & E5 & _ & _ & _ & _ & E6 & _ & _).
  - apply chain_represents.
  - apply no_handles. apply (bool_decide_eq_true_1 _). vm_compute. reflexivity.
  - vm_compute. reflexivity.
  - vm_compute. reflexivity.
  - vm_compute. reflexivity.
  - done.
  - vm_compute. reflexivity.
  - vm_compute. reflexivity.
  - done.
  - reflexivity.
  - vm_compute. reflexivity.
  - vm_compute. reflexivity.
  - vm_compute. reflexivity.
  - done.
  - done.
  - reflexivity.
  - exists g, s, b. split; [exact E1|]. split; [exact E2|]. split; [exact E3|]. split; [exact E4|]. split; [exact E5|exact E6].
Defined.

(** ** Defects *)

(** Destroying a surface reads its SDL surface after SDL_FreeSurface. *)
Lemma destroy_reads_freed_surface n surf p s t g :
  get_surface surf t = Ret (Some p) -> surface_heap g !! p = Some s -> sf_window s = 0 -> rb_surface_destroy (S n) surf t g = Fault.
Proof.
  intros Hs Hp Hw. cbn [rb_surface_destroy]. rewrite Hs. cbn [mbind outcome_bind]. rewrite Hp. cbn [deref mbind outcome_bind].
  unfold surface_window. rewrite Hw. cbn [Z.eqb negb mbind outcome_bind]. unfold free_surface. rewrite Hp. cbn [deref mbind outcome_bind].
  destruct (sdl_surfaces g !! sf_surface s); [|done]. cbn [deref mbind outcome_bind with_surfaces sdl_surfaces]. by rewrite lookup_delete_eq.
Qed.

(** The flag that tells how a buffer was allocated does not move with the buffer. *)
Example flip_leaves_low32_flag :
  exists g s b, demo_flip 4 chain_table chain_host = Ret (g, RB_OK) /\ surface_heap g !! 0%nat = Some s /\
    buffers g !! own_buf s = Some b /\ own_buf_low32 s = true /\ buf_low32 b = false.
Proof. do 3 eexists. split; [vm_compute; reflexivity|]. by vm_compute. Qed.

(** The row and the column just outside a surface can be locked: the place is the end
    of the buffer. *)
Example lock_past_the_end :
  match fresh_surface 4 4 RB_FORMAT_8BIT with
  | Ret (t, g, k) => rb_surface_lock k (Some (0, 4)) t g = Ret (Some (16, 4)) /\ buf_size <$> buffers g !! 0%nat = Some 16
  | _ => False
  end.
Proof. vm_compute. done. Qed.

(** The size of the buffer overflows: a surface of 65537 rows of 65537 bytes has one of
    131073 bytes. *)
Example surface_size_overflows :
  match fresh_surface 65537 65537 RB_FORMAT_8BIT with
  | Ret (t, g, k) => k = 3 /\ buf_size <$> buffers g !! 0%nat = Some 131073
  | _ => False
  end.
Proof. vm_compute. done. Qed.

Lemma read_from_past {X} (l : list X) n : forall i, (length l < i + n)%nat -> (0 < n)%nat -> read_from l i n = Fault.
Proof.
  induction n as [|n IH]; intros i Hi Hn; [lia|]. cbn [read_from]. destruct (l !! i) as [x|] eqn:Ex; [|done].
  apply lookup_lt_Some in Ex. cbn [deref mbind outcome_bind]. by rewrite IH by lia.
Qed.
(** The end of the range wraps around: a count of 0xFFFFFFFF at colour 1 is taken as it
    is, and the caller's array is read past its end. *)
Example palette_range_wraps :
  rb_palette_set_colors (A := arch64) (fun _ => true) demo_set_colors 3 1 0xFFFFFFFF (Some [1; 2; 3]) palette_table palette_host = Fault.
Proof.
  unfold rb_palette_set_colors. replace (get_palette 3 palette_table) with (Ret (Some 0%nat)) by (vm_compute; reflexivity).
  cbn [mbind outcome_bind]. replace (palette_heap palette_host !! 0%nat) with (Some (mkPalette 16 (replicate 16 (mkColor 255 255 255 255))))
    by (vm_compute; reflexivity).
  cbn [deref mbind outcome_bind num_colors].
  replace (color_count 1 4294967295 16) with (Some 4294967295) by (vm_compute; reflexivity).
  change (4294967295 =? 0) with false. cbn iota. rewrite read_from_past; [done| |]; cbn [length]; lia.
Qed.
