(* ===== verification/RbWindow.v ===== *)
(** * Windows and cursors of the SDL backend (src/backend/sdl2/rb_window.c,
      rb_window_state.c, rb_input.c)

    The windows and cursors that user32 asks the backend for.  The second part shows
    that this backend keeps what user32 relies on, and with it the safety of the whole
    window manager over the real backend. *)
From S2P Require Import Prelude Bytes CStr HandleTable MessageQueue BackendState WndClass Windows DialogRun WindowsSafe RbSurface.

Definition set_window_flags (visible minimized maximized : bool) (w : rb_win) : rb_win :=
  mkRbWin (rw_window w)
    (mkRbWindow (w_sdl_window_id (rw_fields w)) (w_native_window_id (rw_fields w)) visible minimized maximized)
    (guest_hwnd w) (primary_surface w) (backbuffer w).
Definition set_guest (hwnd : Z) (w : rb_win) : rb_win :=
  mkRbWin (rw_window w) (rw_fields w) hwnd (primary_surface w) (backbuffer w).

Inductive SDL_SystemCursor := CURSOR_ARROW | CURSOR_IBEAM | CURSOR_WAIT | CURSOR_CROSSHAIR | CURSOR_SIZENWSE | CURSOR_SIZENESW
  | CURSOR_SIZEWE | CURSOR_SIZENS | CURSOR_SIZEALL | CURSOR_NO | CURSOR_HAND.
(** The IDC_* numbers of user32. *)
Definition system_cursor (idc : Z) : SDL_SystemCursor :=
  if idc =? 32512 then CURSOR_ARROW else if idc =? 32513 then CURSOR_IBEAM
  else if idc =? 32514 then CURSOR_WAIT else if idc =? 32515 then CURSOR_CROSSHAIR
  else if idc =? 32516 then CURSOR_ARROW else if idc =? 32640 then CURSOR_SIZEALL
  else if idc =? 32641 then CURSOR_HAND else if idc =? 32642 then CURSOR_SIZENWSE
  else if idc =? 32643 then CURSOR_SIZENS else if idc =? 32644 then CURSOR_SIZENESW
  else if idc =? 32645 then CURSOR_SIZEWE else if idc =? 32646 then CURSOR_SIZEALL
  else if idc =? 32648 then CURSOR_NO else if idc =? 32649 then CURSOR_HAND
  else CURSOR_ARROW.

(** The live handles of type RB_WINDOW with the fields of their windows. *)
Definition window_of_slot (m : gmap nat rb_win) (x : wine_handle_t) : option rb_window :=
  if negb (h_ref_count x =? 0) && (h_type x =? HANDLE_TYPE_RB_WINDOW) then
    match h_object x with ORbWindow p => rw_fields <$> m !! p | _ => None end
  else None.
Definition windows_of (t : table) (m : gmap nat rb_win) : gmap Z rb_window :=
  list_to_map (omap (fun i => x ← t !! i; w ← window_of_slot m x; Some (Z.of_nat i, w)) (seq 0 512)).

Section backend.
Context {A : Arch}.
Variable rb_init : bool.
(** rb_window_host_create (SDL_CreateWindow), given the windows that exist; the id and
    the native id of a window; the host's allocators; SDL_CreateSystemCursor. *)
Variable sdl_create : cstr -> Z -> Z -> Z -> Z -> Z -> gmap nat rb_win -> option Z.
Variable sdl_ids : Z -> Z * Z.
Variable malloc_window : gmap nat rb_win -> option nat.
Variable malloc_cursor : gmap nat Z -> option nat.
Variable sdl_cursor : SDL_SystemCursor -> Z.
Variable realloc : Z -> bool.

(** *** Windows *)

Definition rb_window_detach_surfaces (q : nat) (t : table) (g : rb_host) : outcome (table * rb_host) :=
  w ← deref (rb_heap g !! q);
  g ← (if negb (primary_surface w =? 0) then
         ps ← get_surface (primary_surface w) t;
         g ← (match (ps : option nat) with None => Ret g | Some p => update_surface p (fun s => set_role 0 (sf_flags s) s) g end);
         update_window q (set_chain 0 (backbuffer w)) g
       else Ret g);
  if negb (backbuffer w =? 0) then
    bs ← get_surface (backbuffer w) t;
    g ← (match (bs : option nat) with None => Ret g | Some p => update_surface p (fun s => set_role 0 (sf_flags s) s) g end);
    '(t, g, _) ← rb_surface_destroy 2 (backbuffer w) t g;
    g ← update_window q (set_chain 0 0) g; Ret (t, g)
  else Ret (t, g).

Definition RB_HINT_AUTO : Z := -1.
Definition SDL_WINDOWPOS_CENTERED : Z := 0x2FFF0000.
Definition RB_WINDOW_FULLSCREEN : Z := 1.
Definition SDL_WINDOW_FULLSCREEN_DESKTOP : Z := 0x1001.
Definition SDL_WINDOW_SHOWN : Z := 0x4.
Definition SDL_WINDOW_HIDDEN : Z := 0x8.
Definition SDL_WINDOW_RESIZABLE : Z := 0x20.

Definition rb_window_create (title : cstr) (x y w h flags : Z) (t : table) (g : rb_host) : outcome (table * rb_host * Z) :=
  let sdl_flags := Z.lor (Z.lor (if has_flag flags RB_WINDOW_FULLSCREEN then SDL_WINDOW_FULLSCREEN_DESKTOP else 0)
                            (if has_flag flags RB_WINDOW_RESIZABLE then SDL_WINDOW_RESIZABLE else 0))
                     (if has_flag flags RB_WINDOW_SHOWN then SDL_WINDOW_SHOWN else SDL_WINDOW_HIDDEN) in
  let xpos := if x =? RB_HINT_AUTO then SDL_WINDOWPOS_CENTERED else x in
  let ypos := if y =? RB_HINT_AUTO then SDL_WINDOWPOS_CENTERED else y in
  match sdl_create title xpos ypos w h sdl_flags (rb_heap g) with
  | None => Ret (t, g, 0)
  | Some sdl =>
      match malloc_window (rb_heap g) with
      | None => Ret (t, g, 0)
      | Some p =>
          let '(id, native) := sdl_ids sdl in
          if id =? 0 then Ret (t, g, 0)
          else
            let win := mkRbWin sdl (mkRbWindow id native (has_flag flags RB_WINDOW_SHOWN) false false) 0 0 0 in
            '(t, k) ← wine_handle_alloc HANDLE_TYPE_RB_WINDOW (ORbWindow p) t;
            Ret (t, with_rb_heap (<[p := win]> (rb_heap g)) g, k)
      end
  end.

Definition rb_window_destroy (win : Z) (t : table) (g : rb_host) : outcome (table * rb_host * Z) :=
  wp ← get_window win t;
  match (wp : option nat) with
  | None => Ret (t, g, RB_FAIL)
  | Some p =>
      '(t, g) ← rb_window_detach_surfaces p t g;
      w ← deref (rb_heap g !! p);
      let g := if negb (guest_hwnd w =? 0) then with_events (rb_event_unbind_window (guest_hwnd w) (h_events g)) g else g in
      let g := with_rb_heap (delete p (rb_heap g)) g in
      t ← wine_handle_free (u32 win) t; Ret (t, g, RB_OK)
  end.

(** An operation on the window behind a handle. *)
Definition on_window (win : Z) (f : rb_win -> rb_win) (t : table) (g : rb_host) : outcome (table * rb_host * Z) :=
  wp ← get_window win t;
  match (wp : option nat) with
  | None => Ret (t, g, RB_FAIL)
  | Some p => g ← update_window p f g; Ret (t, g, RB_OK)
  end.
Definition rb_window_show (win : Z) (show : bool) : table -> rb_host -> outcome (table * rb_host * Z) :=
  on_window win (fun w =>
    if show then set_window_flags true (w_is_minimized (rw_fields w)) (w_is_maximized (rw_fields w)) w
    else set_window_flags false false false w).
Definition rb_window_minimize (win : Z) := on_window win (set_window_flags true true false).
Definition rb_window_maximize (win : Z) := on_window win (set_window_flags true false true).
Definition rb_window_restore (win : Z) := on_window win (set_window_flags true false false).
(** SDL moves, resizes or titles the window; its structure does not change. *)
Definition rb_window_host_call (win : Z) := on_window win id.

Definition rb_window_attach_guest_hwnd (win hwnd : Z) (t : table) (g : rb_host) : outcome (table * rb_host * Z) :=
  wp ← get_window win t;
  match (wp : option nat) with
  | None => Ret (t, g, RB_FAIL)
  | Some p =>
      g ← update_window p (set_guest hwnd) g;
      let '(ok, e) := rb_event_bind_window realloc hwnd win (set_windows (windows_of t (rb_heap g)) (h_events g)) in
      Ret (t, with_events e g, if (ok : bool) then RB_OK else RB_FAIL)
  end.

(** *** Cursors *)

Definition rb_cursor_create (idc : Z) (t : table) (g : rb_host) : outcome (table * rb_host * Z) :=
  match malloc_cursor (cursor_heap g) with
  | None => Ret (t, g, 0)
  | Some p =>
      '(t, k) ← wine_handle_alloc HANDLE_TYPE_RB_CURSOR (ORbCursor p) t;
      Ret (t, with_cursors (<[p := sdl_cursor (system_cursor idc)]> (cursor_heap g)) g, k)
  end.

Definition rb_cursor_destroy (cur : Z) (t : table) (g : rb_host) : outcome (table * rb_host * Z) :=
  cp ← get_cursor cur t;
  match (cp : option nat) with
  | None => Ret (t, g, RB_FAIL)
  | Some p =>
      _ ← deref (cursor_heap g !! p);
      t ← wine_handle_free (u32 cur) t; Ret (t, with_cursors (delete p (cursor_heap g)) g, RB_OK)
  end.

Definition rb_window_set_cursor (win cur : Z) (t : table) (g : rb_host) : outcome (table * rb_host * Z) :=
  wp ← get_window win t;
  match (wp : option nat) with
  | None => Ret (t, g, RB_FAIL)
  | Some _ =>
      cp ← get_cursor cur t;
      match (cp : option nat) with
      | None => ty ← wine_handle_get_type (u32 cur) t; Ret (t, g, if ty =? HANDLE_TYPE_RB_CURSOR then RB_OK else RB_FAIL)
      | Some p => _ ← deref (cursor_heap g !! p); Ret (t, g, RB_OK)
      end
  end.

(** The requests of user32. *)
Definition sdl_backend : Backend rb_host := fun q t g =>
  match q with
  | RbInit => Ret (t, g, if rb_init then RB_OK else RB_FAIL)
  | RbCreate title x y w h flags => rb_window_create title x y w h flags t g
  | RbDestroy win => rb_window_destroy win t g
  | RbAttach win hwnd => rb_window_attach_guest_hwnd win hwnd t g
  | RbShow win show => rb_window_show win show t g
  | RbMinimize win => rb_window_minimize win t g
  | RbMaximize win => rb_window_maximize win t g
  | RbRestore win => rb_window_restore win t g
  | RbSetPosition win _ _ | RbSetSize win _ _ | RbSetTitle win _ => rb_window_host_call win t g
  | RbSetActive hwnd => Ret (t, with_events (rb_event_set_active_window hwnd (h_events g)) g, 0)
  | RbCursorCreate idc => rb_cursor_create idc t g
  | RbCursorDestroy cur => rb_cursor_destroy cur t g
  | RbSetCursor win cur => rb_window_set_cursor win cur t g
  end.
End backend.

(** ** The backend under user32 *)

Definition no_surfaces (w : rb_win) : Prop := primary_surface w = 0 /\ backbuffer w = 0.
(** The handles of the backend's windows and cursors are consistent with its heaps, and
    no window has a flip chain. *)
Record sdl_ok (s : store) (g : rb_host) : Prop := {
  so_windows : owned HANDLE_TYPE_RB_WINDOW ORbWindow no_surfaces s (rb_heap g);
  so_cursors : owned HANDLE_TYPE_RB_CURSOR ORbCursor (fun _ => True) s (cursor_heap g) }.

(** Every object of a heap has a handle. *)
Definition covered {X} (ty : Z) (C : nat -> object) (s : store) (m : gmap nat X) : Prop :=
  forall p, is_Some (m !! p) -> exists k, s !! k = Some (mkEntry ty (C p) 1).
Definition matched (s : store) (g : rb_host) : Prop :=
  covered HANDLE_TYPE_RB_WINDOW ORbWindow s (rb_heap g) /\ covered HANDLE_TYPE_RB_CURSOR ORbCursor s (cursor_heap g).
(** No slot is free. *)
Definition table_full (t : table) : bool := forallb (fun x => negb (h_ref_count x =? 0)) (drop 3 t).

Lemma not_full t s : represents t s -> table_full t = false -> exists k, (3 <= k < 512)%nat /\ s !! k = None.
Proof.
  intros (Hl & _ & Hs) Hf. unfold table_full in Hf. destruct (decide (Exists (fun x => h_ref_count x = 0) (drop 3 t))) as [He|He].
  - apply Exists_exists in He as (x & Hx & H0). apply list_elem_of_lookup in Hx as [i Hi]. exists (3 + i)%nat.
    rewrite lookup_drop in Hi. pose proof (lookup_lt_Some _ _ _ Hi). split; [lia|]. rewrite Hs, Hi. cbn. unfold entry_of. by rewrite H0.
  - exfalso. apply Bool.not_true_iff_false in Hf. apply Hf, forallb_forall. intros x Hx. destruct (Z.eqb_spec (h_ref_count x) 0) as [H0|]; [|done].
    destruct He. apply Exists_exists. exists x. split; [by apply list_elem_of_In|done].
Qed.

Section covered.
Context {X : Type} (ty : Z) (C : nat -> object).
Implicit Types (s : store) (m : gmap nat X).
Lemma covered_same q s s' m : same_entries q s s' -> q ty = true -> covered ty C s m -> covered ty C s' m.
Proof. intros Hs Hq Hc p Hp. destruct (Hc p Hp) as [k Hk]. exists k. by apply Hs. Qed.
Lemma covered_alloc s m k p x : s !! k = None -> covered ty C s m -> covered ty C (<[k := mkEntry ty (C p) 1]> s) (<[p := x]> m).
Proof.
  intros Hk Hc q. destruct (decide (q = p)) as [->|]; [intros _; exists k; by rewrite lookup_insert_eq|].
  rewrite lookup_insert_ne by done. intros Hq. destruct (Hc q Hq) as [j Hj]. exists j. rewrite lookup_insert_ne; [done|congruence].
Qed.
Lemma covered_update s m p x y : m !! p = Some x -> covered ty C s m -> covered ty C s (<[p := y]> m).
Proof. intros Hp Hc q [z Hq]. apply Hc. apply lookup_insert_Some in Hq as [[<- _]|[_ ?]]; eauto. Qed.
Lemma covered_free s m k p :
  (forall p q, C p = C q -> p = q) -> s !! k = Some (mkEntry ty (C p) 1) -> covered ty C s m -> covered ty C (delete k s) (delete p m).
Proof.
  intros C_inj Hk Hc q [x Hq]. apply lookup_delete_Some in Hq as [Hne Hq]. destruct (Hc q ltac:(eauto)) as [j Hj].
  exists j. rewrite lookup_delete_ne; [done|]. intros <-. rewrite Hk in Hj. injection Hj as Hj%C_inj. done.
Qed.
End covered.

(** A store that differs at one entry. *)
Lemma same_insert q (s : store) k e : q (e_type e) = false -> s !! k = None -> same_entries q s (<[k := e]> s).
Proof.
  intros Hq Hk j x Hx. destruct (decide (j = k)) as [->|]; [|by rewrite lookup_insert_ne].
  rewrite lookup_insert_eq, Hk. split; [done|]. intros [= <-]. congruence.
Qed.
Lemma same_delete q (s : store) k e : s !! k = Some e -> q (e_type e) = false -> same_entries q s (delete k s).
Proof.
  intros Hk Hq j x Hx. destruct (decide (j = k)) as [->|]; [|by rewrite lookup_delete_ne].
  rewrite lookup_delete_eq, Hk. split; [|done]. intros [= ->]. congruence.
Qed.
Lemma owned_same {X} ty C (P : X -> Prop) s s' m q :
  same_entries q s s' -> q ty = true -> owned ty C P s m -> owned ty C P s' m.
Proof. intros Hs Hq. apply owned_frame. intros k e <-. by apply Hs. Qed.

Section laws.
Context {A : Arch}.
Variable rb_init : bool.
Variable sdl_create : cstr -> Z -> Z -> Z -> Z -> Z -> gmap nat rb_win -> option Z.
Variable sdl_ids : Z -> Z * Z.
Variable malloc_window : gmap nat rb_win -> option nat.
Variable malloc_cursor : gmap nat Z -> option nat.
Variable sdl_cursor : SDL_SystemCursor -> Z.
Variable realloc : Z -> bool.
Hypothesis malloc_window_fresh : forall m p, malloc_window m = Some p -> m !! p = None.
Hypothesis malloc_cursor_fresh : forall m p, malloc_cursor m = Some p -> m !! p = None.

(** A request that returns, keeps the backend consistent and leaves the other handles;
    it leaves no object without a handle, unless the table was full. *)
Definition served (t : table) (s : store) (g : rb_host) (o : outcome (table * rb_host * Z)) : Prop :=
  exists t' s' g' r, o = Ret (t', g', r) /\ represents t' s' /\ sdl_ok s' g' /\ same_entries (fun ty => negb (rb_type ty)) s s' /\
    (table_full t = false -> matched s g -> matched s' g').
Definition serves (f : table -> rb_host -> outcome (table * rb_host * Z)) : Prop :=
  forall t s g, represents t s -> sdl_ok s g -> served t s g (f t g).

Lemma serves_unchanged t s (g g' : rb_host) r :
  represents t s -> sdl_ok s g -> rb_heap g' = rb_heap g -> cursor_heap g' = cursor_heap g -> served t s g (Ret (t, g', r)).
Proof.
  intros R [H1 H2] E1 E2. exists t, s, g', r. split_and!; [done|done| |done|]; [split; [by rewrite E1|by rewrite E2]|].
  intros _. unfold matched. by rewrite E1, E2.
Qed.
Lemma served_intro t s (g : rb_host) t' s' g' r :
  represents t' s' -> sdl_ok s' g' -> same_entries (fun ty => negb (rb_type ty)) s s' ->
  (table_full t = false -> matched s g -> matched s' g') -> served t s g (Ret (t', g', r)).
Proof. intros. by exists t', s', g', r. Qed.
Lemma alloc_refused t s ty ob : represents t s -> wine_handle_alloc ty ob t = Ret (t, 0) -> table_full t = true.
Proof.
  intros R E. destruct (table_full t) eqn:Hf; [done|]. destruct (not_full t s R Hf) as (k & Hk & Hn).
  destruct (alloc_succeeds ty ob t s k R Hk Hn) as (k' & t' & Hk' & _ & E' & _). rewrite E in E'. injection E' as _ E'. lia.
Qed.

Lemma get_window_cases s g t h :
  represents t s -> sdl_ok s g ->
  get_window h t = Ret None \/
  exists p w, get_window h t = Ret (Some p) /\ s !! Z.to_nat (u32 h) = Some (mkEntry HANDLE_TYPE_RB_WINDOW (ORbWindow p) 1) /\
    rb_heap g !! p = Some w /\ no_surfaces w.
Proof. intros R Hg. by apply (get_typed_cases HANDLE_TYPE_RB_WINDOW ORbWindow no_surfaces); [..|exact R|apply Hg]. Qed.
Lemma get_cursor_cases s g t h :
  represents t s -> sdl_ok s g ->
  get_cursor h t = Ret None \/
  exists p c, get_cursor h t = Ret (Some p) /\ s !! Z.to_nat (u32 h) = Some (mkEntry HANDLE_TYPE_RB_CURSOR (ORbCursor p) 1) /\
    cursor_heap g !! p = Some c.
Proof.
  intros R Hg. destruct (get_typed_cases HANDLE_TYPE_RB_CURSOR ORbCursor (fun _ => True) (fun o => match o with ORbCursor p => Some p | _ => None end) s
    (cursor_heap g) t h) as [E|(p & c & E & Hs & Hc & _)]; [done..|apply Hg|by left|right; by exists p, c].
Qed.

Lemma serves_on_window win f : (forall w, no_surfaces w -> no_surfaces (f w)) -> serves (on_window win f).
Proof.
  intros Hf t s g R Hg. unfold on_window. destruct (get_window_cases s g t win R Hg) as [->|(p & w & -> & Hs & Hp & Hw)];
    cbn [mbind outcome_bind]; [by apply (serves_unchanged t s g)|].
  unfold update_window. rewrite Hp. cbn. eapply served_intro; [exact R| |done|].
  - destruct Hg as [H1 H2]. split; cbn; [|done]. apply (owned_update _ _ _ _ _ p w); [done|by apply Hf|done].
  - intros _ [M1 M2]. split; cbn; [|done]. by apply (covered_update _ _ _ _ _ w).
Qed.

Lemma serves_create title x y w h flags : serves (rb_window_create sdl_create sdl_ids malloc_window title x y w h flags).
Proof.
  intros t s g R Hg. unfold rb_window_create. destruct (sdl_create _ _ _ _ _ _ _) as [sdl|]; [|by apply (serves_unchanged t s g)].
  destruct (malloc_window (rb_heap g)) as [p|] eqn:Em; [|by apply (serves_unchanged t s g)]. apply malloc_window_fresh in Em.
  destruct (sdl_ids sdl) as [id native]. destruct (id =? 0); [by apply (serves_unchanged t s g)|]. destruct Hg as [H1 H2].
  destruct (alloc_cases HANDLE_TYPE_RB_WINDOW (ORbWindow p) t s R) as [E|(k & t' & Hk & Hn & -> & R')].
  - rewrite (E : wine_handle_alloc _ _ t = _). cbn. eapply served_intro; [exact R| |done|].
    + split; cbn; [by apply owned_fresh|done].
    + by rewrite (alloc_refused t s _ _ R E).
  - cbn. eapply (served_intro _ _ _ _ _ _ _ R'); [|by apply same_insert|].
    + split; cbn; [apply owned_alloc; [by intros ?? [=]|done|done|lia|by split|done]|].
      apply (owned_same _ _ _ s _ _ (fun ty => ty =? HANDLE_TYPE_RB_CURSOR)); [by apply same_insert|done|done].
    + intros _ [M1 M2]. split; cbn; [by apply covered_alloc|].
      apply (covered_same _ _ (fun ty => ty =? HANDLE_TYPE_RB_CURSOR) s); [by apply same_insert|done|done].
Qed.

Lemma serves_destroy win : serves (rb_window_destroy win).
Proof.
  intros t s g R Hg. unfold rb_window_destroy. destruct (get_window_cases s g t win R Hg) as [->|(p & w & -> & Hs & Hp & Hw1 & Hw2)];
    cbn [mbind outcome_bind]; [by apply (serves_unchanged t s g)|].
  unfold rb_window_detach_surfaces. rewrite Hp. cbn [deref mbind outcome_bind]. rewrite Hw1, Hw2. cbn [negb Z.eqb mbind outcome_bind].
  rewrite Hp. cbn [deref mbind outcome_bind]. destruct Hg as [H1 H2].
  destruct (free_owned _ _ _ s (rb_heap g) t win p R H1 Hs) as (t' & -> & R'). cbn [mbind outcome_bind].
  eapply (served_intro _ _ _ _ _ _ _ R'); [|by apply (same_delete _ s _ _ Hs)|].
  - split; [destruct (negb _); cbn; (apply owned_free; [exact Hs|exact H1])|].
    apply (owned_same _ _ _ s _ _ (fun ty => ty =? HANDLE_TYPE_RB_CURSOR)); [by apply (same_delete _ s _ _ Hs)|done|].
    by destruct (negb _).
  - intros _ [M1 M2]. split; [destruct (negb _); cbn; (apply covered_free; [by intros ?? [=]|exact Hs|exact M1])|].
    apply (covered_same _ _ (fun ty => ty =? HANDLE_TYPE_RB_CURSOR) s); [by apply (same_delete _ s _ _ Hs)|done|].
    by destruct (negb _).
Qed.

Lemma serves_attach win hwnd : serves (rb_window_attach_guest_hwnd realloc win hwnd).
Proof.
  intros t s g R Hg. unfold rb_window_attach_guest_hwnd. destruct (get_window_cases s g t win R Hg) as [->|(p & w & -> & Hs & Hp & Hw)];
    cbn [mbind outcome_bind]; [by apply (serves_unchanged t s g)|].
  unfold update_window. rewrite Hp. cbn [deref mbind outcome_bind]. destruct (rb_event_bind_window _ _ _ _) as [ok e].
  eapply served_intro; [exact R| |done|].
  - destruct Hg as [H1 H2]. split; cbn; [|done]. by apply (owned_update _ _ _ _ _ p w).
  - intros _ [M1 M2]. split; cbn; [|done]. by apply (covered_update _ _ _ _ _ w).
Qed.

Lemma serves_cursor_create idc : serves (rb_cursor_create malloc_cursor sdl_cursor idc).
Proof.
  intros t s g R Hg. unfold rb_cursor_create.
  destruct (malloc_cursor (cursor_heap g)) as [p|] eqn:Em; [|by apply (serves_unchanged t s g)]. apply malloc_cursor_fresh in Em.
  destruct Hg as [H1 H2].
  destruct (alloc_cases HANDLE_TYPE_RB_CURSOR (ORbCursor p) t s R) as [E|(k & t' & Hk & Hn & -> & R')].
  - rewrite E. cbn. eapply served_intro; [exact R| |done|by rewrite (alloc_refused t s _ _ R E)].
    split; cbn; [done|by apply owned_fresh].
  - cbn. eapply (served_intro _ _ _ _ _ _ _ R'); [|by apply same_insert|].
    + split; cbn; [|apply owned_alloc; [by intros ?? [=]|done|done|lia|done|done]].
      apply (owned_same _ _ _ s _ _ (fun ty => ty =? HANDLE_TYPE_RB_WINDOW)); [by apply same_insert|done|done].
    + intros _ [M1 M2]. split; cbn; [|by apply covered_alloc].
      apply (covered_same _ _ (fun ty => ty =? HANDLE_TYPE_RB_WINDOW) s); [by apply same_insert|done|done].
Qed.

Lemma serves_cursor_destroy cur : serves (rb_cursor_destroy cur).
Proof.
  intros t s g R Hg. unfold rb_cursor_destroy. destruct (get_cursor_cases s g t cur R Hg) as [->|(p & c & -> & Hs & Hp)];
    cbn [mbind outcome_bind]; [by apply (serves_unchanged t s g)|].
  rewrite Hp. cbn [deref mbind outcome_bind]. destruct Hg as [H1 H2].
  destruct (free_owned _ _ _ s (cursor_heap g) t cur p R H2 Hs) as (t' & -> & R'). cbn [mbind outcome_bind].
  eapply (served_intro _ _ _ _ _ _ _ R'); [|by apply (same_delete _ s _ _ Hs)|].
  - split; cbn; [|by apply owned_free].
    apply (owned_same _ _ _ s _ _ (fun ty => ty =? HANDLE_TYPE_RB_WINDOW)); [by apply (same_delete _ s _ _ Hs)|done|done].
  - intros _ [M1 M2]. split; cbn; [|apply covered_free; [by intros ?? [=]|done|done]].
    apply (covered_same _ _ (fun ty => ty =? HANDLE_TYPE_RB_WINDOW) s); [by apply (same_delete _ s _ _ Hs)|done|done].
Qed.

Lemma serves_set_cursor win cur : serves (rb_window_set_cursor win cur).
Proof.
  intros t s g R Hg. unfold rb_window_set_cursor. destruct (get_window_cases s g t win R Hg) as [->|(p & w & -> & _)];
    cbn [mbind outcome_bind]; [by apply (serves_unchanged t s g)|].
  destruct (get_cursor_cases s g t cur R Hg) as [->|(q & c & -> & _ & Hc)]; cbn [mbind outcome_bind].
  - destruct (table_get s t cur R) as [_ ->]. by apply (serves_unchanged t s g).
  - rewrite Hc. by apply (serves_unchanged t s g).
Qed.

Abbreviation sdl := (sdl_backend rb_init sdl_create sdl_ids malloc_window malloc_cursor sdl_cursor realloc).
Lemma sdl_serves q : serves (sdl q).
Proof.
  destruct q; unfold sdl_backend, rb_window_show, rb_window_minimize, rb_window_maximize, rb_window_restore, rb_window_host_call;
    auto using serves_create, serves_destroy, serves_attach, serves_cursor_create, serves_cursor_destroy, serves_set_cursor;
    try (apply serves_on_window; intros w' Hw; first [exact Hw|destruct show; exact Hw]);
    intros t s g R Hg; by apply (serves_unchanged t s g).
Qed.

(** The backend, and whether the table was ever full when a request was made. *)
Definition watched : Backend (rb_host * bool) := fun q t h =>
  '(t', g, r) ← sdl q t h.1; Ret (t', (g, h.2 || table_full t), r).

#[refine] Instance watched_laws : @BackendLaws (rb_host * bool) watched :=
  {| backend_ok := fun s h => sdl_ok s h.1 /\ (h.2 = false -> matched s h.1) |}.
Proof.
  - intros q t s [g b] R [Hg Hm]. unfold rb_call, watched. cbn [fst snd].
    destruct (sdl_serves q t s g R Hg) as (t' & s' & g' & r & -> & R' & Hg' & Hs & Hk). cbn [mbind outcome_bind].
    exists t', s', (g', b || table_full t), r. split_and!; [done..| |done]. intros Hb%orb_false_iff. destruct Hb as [Hb Hf]. auto.
  - intros s s' [g b] Hs [[H1 H2] Hm]. cbn [fst snd] in *. split.
    + split; by apply (owned_same _ _ _ s _ _ rb_type).
    + intros Hb. destruct (Hm Hb) as [M1 M2]. split; by apply (covered_same _ _ rb_type s).
Defined.
End laws.

(** ** The window manager over this backend *)

Lemma host_init_ok e : sdl_ok store_init (host_init e).
Proof.
  assert (Hf : forall k x, store_init !! k = Some x -> e_type x = HANDLE_TYPE_FILE).
  { intros k x. unfold store_init. rewrite !lookup_insert_Some, lookup_singleton_Some. naive_solver. }
  split; split; [intros k x Hk Ht; by rewrite (Hf k x Hk) in Ht|intros k k' p Hk; by apply Hf in Hk|
    intros k x Hk Ht; by rewrite (Hf k x Hk) in Ht|intros k k' p Hk; by apply Hf in Hk].
Qed.

Lemma host_init_matched e : matched store_init (host_init e).
Proof. split; intros p Hp; cbn in Hp; rewrite lookup_empty in Hp; by destruct Hp. Qed.

(** Every handle of the type belongs to an object that exists, and to no other handle's;
    every object has a handle. *)
Definition sound {X} (ty : Z) (C : nat -> object) (t : table) (m : gmap nat X) : Prop :=
  forall k e, t !! k ≫= entry_of = Some e -> e_type e = ty ->
    exists p, e = mkEntry ty (C p) 1 /\ is_Some (m !! p) /\ forall k', t !! k' ≫= entry_of = Some e -> k' = k.
Definition complete {X} (ty : Z) (C : nat -> object) (t : table) (m : gmap nat X) : Prop :=
  forall p, is_Some (m !! p) -> exists k, t !! k ≫= entry_of = Some (mkEntry ty (C p) 1).

Lemma owned_sound {X} ty C (P : X -> Prop) t s m : represents t s -> owned ty C P s m -> sound ty C t m.
Proof.
  intros (_ & _ & Hs) Ho k e Hk He. rewrite <- Hs in Hk. destruct (ow_live _ _ _ _ _ Ho k e Hk He) as (p & x & -> & _ & Hx & _).
  exists p. split_and!; [done|eauto|]. intros k' Hk'. rewrite <- Hs in Hk'. by apply (ow_inj _ _ _ _ _ Ho k' k p).
Qed.
Lemma covered_complete {X} ty C t s (m : gmap nat X) : represents t s -> covered ty C s m -> complete ty C t m.
Proof. intros (_ & _ & Hs) Hc p Hp. destruct (Hc p Hp) as [k Hk]. exists k. by rewrite <- Hs. Qed.

Section composition.
Context {A : Arch}.
Variable rb_init : bool.
Variable sdl_create : cstr -> Z -> Z -> Z -> Z -> Z -> gmap nat rb_win -> option Z.
Variable sdl_ids : Z -> Z * Z.
Variable malloc_window : gmap nat rb_win -> option nat.
Variable malloc_cursor : gmap nat Z -> option nat.
Variable sdl_cursor : SDL_SystemCursor -> Z.
Variable realloc : Z -> bool.
Variable malloc : gmap nat wine_window_entry -> option nat.
Hypothesis malloc_fresh : forall m p, malloc m = Some p -> m !! p = None.
Hypothesis malloc_window_fresh : forall m p, malloc_window m = Some p -> m !! p = None.
Hypothesis malloc_cursor_fresh : forall m p, malloc_cursor m = Some p -> m !! p = None.
Variable user32_alloc : Z -> bool.
Variable guest_string : Z -> cstr.
Variable addr : Z.
Variable local_buffer def_window_proc : Z.
Variable im : images.
Hypothesis im_ok : images_ok im.
Variable procs : Z -> Z -> Z -> Z -> lparam -> prog.
Local Abbreviation sdl := (watched rb_init sdl_create sdl_ids malloc_window malloc_cursor sdl_cursor realloc).
Local Abbreviation run strict fuel main :=
  (run_guest (H0 := sdl) strict malloc user32_alloc guest_string addr local_buffer def_window_proc im procs fuel main).

(** C17: user32 and the SDL backend together, sharing one handle table: whatever a guest does
    with windows and cursors, from its main program and from nested window procedures,
    no freed window entry, backend window or backend cursor is touched, unless an entry
    is freed that a function on the stack still holds.  Without such a free the code
    behaves as the checked run does.  Afterwards window entries and window handles
    match one to one, and the count of windows is exact; every handle of a backend
    window or cursor belongs to a structure that exists and to no other handle's; and
    every such structure has a handle, provided the handle table was not full when
    user32 called the backend.  (The host carries a flag that records such a call;
    nothing reads it.) *)
Theorem sdl_windows_survive_reentrancy fuel main e :
  match run true fuel main (user32_init (host_init e, false)) with
  | Ret (r, s) =>
      let '(g, was_full) := u_host s in
      run false fuel main (user32_init (host_init e, false)) = Ret (r, s) /\
      sound HANDLE_TYPE_HWIN OWindow (u_table s) (u_heap s) /\ complete HANDLE_TYPE_HWIN OWindow (u_table s) (u_heap s) /\
      g_user32_live_windows s = Z.of_nat (size (u_heap s)) /\
      sound HANDLE_TYPE_RB_WINDOW ORbWindow (u_table s) (rb_heap g) /\
      sound HANDLE_TYPE_RB_CURSOR ORbCursor (u_table s) (cursor_heap g) /\
      (was_full = false ->
         complete HANDLE_TYPE_RB_WINDOW ORbWindow (u_table s) (rb_heap g) /\
         complete HANDLE_TYPE_RB_CURSOR ORbCursor (u_table s) (cursor_heap g))
  | Fail => True
  | Fault => False
  end.
Proof.
  pose proof (guest_run_cases (BL := watched_laws rb_init sdl_create sdl_ids malloc_window malloc_cursor sdl_cursor realloc
    malloc_window_fresh malloc_cursor_fresh) malloc malloc_fresh user32_alloc guest_string addr local_buffer def_window_proc im im_ok procs
    fuel main (host_init e, false)) as Hs.
  specialize (Hs (conj (host_init_ok e) (fun _ => host_init_matched e))).
  destruct (run true fuel main _) as [[r s]| |]; [|done..]. destruct Hs as [Hf [st Hi]].
  pose proof (wi_rep _ _ _ _ Hi) as R. destruct (wi_backend _ _ _ _ Hi) as [[Hw Hc] Hm]. destruct (u_host s) as [g was_full].
  cbn [fst snd] in *. split_and!; [done| | | |by eapply owned_sound|by eapply owned_sound|].
  - intros k x Hk Hx. pose proof R as (_ & _ & Hst). rewrite <- Hst in Hk. destruct (wi_win _ _ _ _ Hi k x Hk Hx) as (p & -> & Hp & _).
    exists p. split_and!; [done..|]. intros k' Hk'. rewrite <- Hst in Hk'. by apply (wi_inj _ _ _ _ Hi k' k p).
  - apply (covered_complete _ _ _ st); [done|]. intros p Hp. by destruct (wi_reach _ _ _ _ Hi p Hp).
  - pose proof (wi_live _ _ _ _ Hi). lia.
  - intros Hb. destruct (Hm Hb) as [M1 M2]. split; by eapply covered_complete.
Qed.
End composition.

(** A host on which every allocation succeeds. *)
Definition demo_backend : Backend (rb_host * bool) :=
  watched (A := arch64) true (fun _ _ _ _ _ _ m => Some (1 + Z.of_nat (size m))) (fun w => (w, 0x400000 + w)) next_free next_free
    (fun _ => 1) (fun _ => true).
Definition run_sdl (strict : bool) (main : prog) : outcome (Z * user32 (rb_host * bool)) :=
  run_guest (A := arch64) (H0 := demo_backend) strict next_entry (fun _ => true) (fun _ => []) 0 1 2 no_images
    default_procs 8 main (user32_init (host_init no_events, false)).

Lemma sdl_windows_survive_reentrancy_witness :
  exists r s, run_sdl false demo_main = Ret (r, s) /\ size (rb_heap (u_host s).1) = 1%nat /\ g_user32_live_windows s = 1 /\
    complete HANDLE_TYPE_RB_WINDOW ORbWindow (u_table s) (rb_heap (u_host s).1).
Proof.
  pose proof (sdl_windows_survive_reentrancy (A := arch64) true (fun _ _ _ _ _ _ m => Some (1 + Z.of_nat (size m)))
    (fun w => (w, 0x400000 + w)) next_free next_free (fun _ => 1) (fun _ => true) next_entry next_entry_fresh next_free_fresh
    next_free_fresh (fun _ => true) (fun _ => []) 0 1 2 no_images no_images_ok default_procs 8 demo_main no_events) as Hw.
  destruct (run_guest true _ _ _ _ _ _ _ _ _ _ _) as [[r s]| |] eqn:E; [|vm_compute in E; discriminate E..].
  destruct (u_host s) as [g b] eqn:Eh. destruct Hw as (Hf & _ & _ & Hl & _ & _ & Hc). exists r, s. split; [exact Hf|].
  rewrite Eh. cbn [fst]. vm_compute in E. injection E as <- <-. injection Eh as <- <-.
  split; [reflexivity|]. split; [reflexivity|]. by apply Hc.
Defined.

(** Without a free slot rb_window_create returns no handle, but leaves its structure behind. *)
Definition full_table : table := replicate 512 (mkHandle 0 HANDLE_TYPE_EVENT 1 (OEvent 0)).
Example window_leaks_without_handle :
  (fun x => match x with Ret (_, g, r) => Some (size (rb_heap g), r) | _ => None end)
    (rb_window_create (fun _ _ _ _ _ _ _ => Some 1) (fun w => (w, 1)) next_free [] 0 0 640 480 0 full_table (host_init no_events))
  = Some (1%nat, 0).
Proof. vm_compute. reflexivity. Qed.
