(* ===== verification/Registry.v ===== *)
(** * The registry (src/msvcrt/advapi32_registry.c)

    Keys are handles of type HKEY whose object holds a path; the values live in an
    array of 64 records.  The abstract registry is two finite maps, from key handles to
    paths and from a path and a name to a typed value; every program of registry calls
    on its own keys refines it. *)
From S2P Require Import Prelude Bytes CStr HandleTable WindowsSafe RbSurface.

Definition HKEY_CURRENT_USER_WINE : Z := 0x80000001.
Definition REG_SZ : Z := 1.

(** The strings are the contents of path[256] and name[128]; data has 512 bytes. *)
Record wine_reg_value := mkReg {
  v_path : cstr; v_name : cstr; v_type : Z; v_data : bytes; v_size : Z; v_used : bool }.
Definition zero_value : wine_reg_value := mkReg [] [] 0 (replicate 512 0) 0 false.

(** The array of values, and the wine_hkey structures by address. *)
Record registry := mkRegistry { g_reg_values : list wine_reg_value; key_heap : gmap nat cstr }.
Definition with_values (l : list wine_reg_value) (r : registry) : registry := mkRegistry l (key_heap r).
Definition with_keys (m : gmap nat cstr) (r : registry) : registry := mkRegistry (g_reg_values r) m.
Definition registry_init : registry := mkRegistry (replicate 64 zero_value) ∅.

(** What reg_copy_cstr leaves in a buffer of [dst_size] bytes. *)
Definition reg_copy_cstr (dst_size : nat) (src : option cstr) : cstr := take (dst_size - 1) (default [] src).

(** The text that reg_join_path writes to [out_size] bytes: the prefix, a backslash and
    the subkey, each as far as there is room. *)
Definition join (out_size : nat) (prefix : cstr) (subkey : option cstr) : cstr :=
  let out := take (out_size - 1) prefix in
  let sub := default [] subkey in
  let out := if negb (bool_decide (sub = [])) && bool_decide (length out + 1 < out_size)%nat then out ++ [92] else out in
  out ++ take (out_size - 1 - length out) sub.

(** The path of the key that an object of the handle table is. *)
Definition key_path (o : object) (r : registry) : outcome (option cstr) :=
  match o with
  | ONull => Ret None
  | OKey p => path ← deref (key_heap r !! p); Ret (Some path)
  | _ => Fault
  end.

Definition reg_join_path (root : Z) (subkey : option cstr) (out_size : nat) (t : table) (r : registry) : outcome cstr :=
  ty ← wine_handle_get_type (u32 root) t;
  prefix ← (if negb (root =? HKEY_CURRENT_USER_WINE) && (ty =? HANDLE_TYPE_HKEY) then
              o ← wine_handle_get (u32 root) t; path ← key_path o r; Ret (default (lit "HKCU") path)
            else Ret (lit "HKCU"));
  Ret (join out_size prefix subkey).

(** Whether a value has this path and name: strcmp returns 0 on equal strings. *)
Definition same_value (path : cstr) (name : option cstr) (v : wine_reg_value) : bool :=
  bool_decide (v_path v = path) && bool_decide (v_name v = default [] name).

Fixpoint find_value_loop (path : cstr) (name : option cstr) (i : nat) (l : list wine_reg_value) : option nat :=
  match l with
  | [] => None
  | v :: l =>
      if negb (v_used v) then find_value_loop path name (S i) l
      else if same_value path name v then Some i
      else find_value_loop path name (S i) l
  end.
Definition reg_find_value (path : cstr) (name : option cstr) (r : registry) : option nat :=
  find_value_loop path name 0 (g_reg_values r).

Fixpoint free_value_loop (i : nat) (l : list wine_reg_value) : option nat :=
  match l with
  | [] => None
  | v :: l => if negb (v_used v) then Some i else free_value_loop (S i) l
  end.
Definition reg_ensure_value (path : cstr) (name : option cstr) (r : registry) : option nat * registry :=
  match reg_find_value path name r with
  | Some i => (Some i, r)
  | None =>
      match free_value_loop 0 (g_reg_values r) with
      | Some i =>
          (Some i, with_values (<[i := mkReg (reg_copy_cstr 256 (Some path)) (reg_copy_cstr 128 name) 0 (replicate 512 0) 0 true]>
                                  (g_reg_values r)) r)
      | None => (None, r)
      end
  end.

Section code.
Variable malloc_key : gmap nat cstr -> option nat.

(** The status, and the handle written through phkResult. *)
Definition RegCreateKeyA (hKey : Z) (lpSubKey : option cstr) (phkResult : bool) (t : table) (r : registry)
  : outcome (table * registry * (Z * option Z)) :=
  path ← reg_join_path hKey lpSubKey 256 t r;
  match malloc_key (key_heap r) with
  | None => Ret (t, r, (8, None))
  | Some p =>
      let r := with_keys (<[p := reg_copy_cstr 256 (Some path)]> (key_heap r)) r in
      if phkResult then '(t, k) ← wine_handle_alloc HANDLE_TYPE_HKEY (OKey p) t; Ret (t, r, (0, Some k))
      else Ret (t, r, (0, None))
  end.
Definition RegOpenKeyA := RegCreateKeyA.

Definition RegCloseKey (hKey : Z) (t : table) (r : registry) : outcome (table * registry * Z) :=
  let handle := u32 hKey in
  ty ← wine_handle_get_type handle t;
  if negb (handle =? 0) && negb (hKey =? HKEY_CURRENT_USER_WINE) && (ty =? HANDLE_TYPE_HKEY) then
    o ← wine_handle_get handle t;
    r ← match o with
        | OKey p => _ ← deref (key_heap r !! p); Ret (with_keys (delete p (key_heap r)) r)
        | ONull => Ret r
        | _ => Fault
        end;
    t ← wine_handle_free handle t; Ret (t, r, 0)
  else Ret (t, r, 0).

Definition ERROR_FILE_NOT_FOUND : Z := 2.
Definition ERROR_MORE_DATA : Z := 234.

(** The status, the type that is stored, and the caller's buffer and length afterwards. *)
Definition RegQueryValueExA (hKey : Z) (name : option cstr) (lpData : option bytes) (lpcbData : option Z) (t : table) (r : registry)
  : outcome (Z * option Z * option bytes * option Z) :=
  if hKey =? HKEY_CURRENT_USER_WINE then Ret (ERROR_FILE_NOT_FOUND, None, lpData, lpcbData)
  else
    o ← wine_handle_get (u32 hKey) t;
    key ← key_path o r;
    match (key : option cstr) with
    | None => Ret (ERROR_FILE_NOT_FOUND, None, lpData, lpcbData)
    | Some path =>
        match reg_find_value path name r with
        | None => Ret (ERROR_FILE_NOT_FOUND, None, lpData, lpcbData)
        | Some i =>
            v ← deref (g_reg_values r !! i);
            match lpcbData with
            | None => Ret (0, Some (v_type v), lpData, None)
            | Some cb =>
                match lpData with
                | None => Ret (ERROR_MORE_DATA, Some (v_type v), None, Some (v_size v))
                | Some buf =>
                    if cb <? v_size v then Ret (ERROR_MORE_DATA, Some (v_type v), lpData, Some (v_size v))
                    else buf ← syscall_safe_memcpy 0 (take (Z.to_nat (v_size v)) (v_data v)) buf;
                         Ret (0, Some (v_type v), Some buf, Some (v_size v))
                end
            end
        end
    end.

Definition RegSetValueExA (hKey : Z) (name : option cstr) (dwType : Z) (lpData : option bytes) (cbData : Z) (t : table) (r : registry)
  : outcome (registry * Z) :=
  o ← wine_handle_get (u32 hKey) t;
  key ← key_path o r;
  match (key : option cstr) with
  | None => Ret (r, ERROR_FILE_NOT_FOUND)
  | Some path =>
      match reg_ensure_value path name r with
      | (None, r) => Ret (r, 8)
      | (Some i, r) =>
          v ← deref (g_reg_values r !! i);
          let cb := if 512 <? cbData then 512 else cbData in
          data ← (match lpData with
                  | Some d => if 0 <? cb then
                                src ← (if Z.of_nat (length d) <? cb then Fault else Ret (take (Z.to_nat cb) d));
                                syscall_safe_memcpy 0 src (v_data v)
                              else Ret (v_data v)
                  | None => Ret (v_data v)
                  end);
          let v := mkReg (v_path v) (v_name v) (if dwType =? 0 then REG_SZ else dwType) data cb (v_used v) in
          Ret (with_values (<[i := v]> (g_reg_values r)) r, 0)
      end
  end.

Definition RegDeleteKeyA (hKey : Z) (lpSubKey : option cstr) (t : table) (r : registry) : outcome (registry * Z) :=
  path ← reg_join_path hKey lpSubKey 256 t r;
  Ret (with_values ((fun v => if negb (v_used v) then v else if negb (bool_decide (v_path v = path)) then v else zero_value)
                      <$> g_reg_values r) r, 0).

(** *** Programs of registry calls *)

Inductive reg_op :=
| OpCreate (hKey : Z) (sub : option cstr)
| OpClose (hKey : Z)
| OpQuery (hKey : Z) (name : option cstr) (buf : bytes)
| OpSet (hKey : Z) (name : option cstr) (type : Z) (data : bytes)
| OpDelete (hKey : Z) (sub : option cstr).
Inductive reg_res :=
| RKey (status : Z) (h : option Z)
| RStatus (status : Z)
| RValue (status : Z) (type : option Z) (buf : option bytes) (size : option Z).

Definition reg_step (o : reg_op) (t : table) (r : registry) : outcome (table * registry * reg_res) :=
  match o with
  | OpCreate h sub => '(t, r, (st, k)) ← RegCreateKeyA h sub true t r; Ret (t, r, RKey st k)
  | OpClose h => '(t, r, st) ← RegCloseKey h t r; Ret (t, r, RStatus st)
  | OpQuery h name buf =>
      '(st, ty, b, n) ← RegQueryValueExA h name (Some buf) (Some (Z.of_nat (length buf))) t r; Ret (t, r, RValue st ty b n)
  | OpSet h name ty data => '(r, st) ← RegSetValueExA h name ty (Some data) (Z.of_nat (length data)) t r; Ret (t, r, RStatus st)
  | OpDelete h sub => '(r, st) ← RegDeleteKeyA h sub t r; Ret (t, r, RStatus st)
  end.
End code.

(** Each call runs with or without memory for a new key; [address] is where malloc
    puts one. *)
Definition malloc_key (address : gmap nat cstr -> nat) (memory : bool) (m : gmap nat cstr) : option nat :=
  if memory then Some (address m) else None.
Fixpoint reg_run (address : gmap nat cstr -> nat) (ops : list (bool * reg_op)) (t : table) (r : registry) : outcome (list reg_res) :=
  match ops with
  | [] => Ret []
  | (memory, o) :: ops =>
      '(t, r, x) ← reg_step (malloc_key address memory) o t r; xs ← reg_run address ops t r; Ret (x :: xs)
  end.

(** ** The abstract registry *)

Record areg := mkAreg { a_keys : gmap nat cstr; a_vals : gmap (cstr * cstr) (Z * bytes) }.
Definition areg_init : areg := mkAreg ∅ ∅.

Definition a_path (h : Z) (sub : option cstr) (a : areg) : cstr :=
  join 256 (if h =? HKEY_CURRENT_USER_WINE then lit "HKCU" else default (lit "HKCU") (a_keys a !! Z.to_nat (u32 h))) sub.

Definition areg_step (memory : bool) (o : reg_op) (a : areg) : areg * reg_res :=
  match o with
  | OpCreate h sub =>
      if negb memory then (a, RKey 8 None) else
      match list_find (fun i => a_keys a !! i = None) allocatable with
      | Some (_, k) => (mkAreg (<[k := a_path h sub a]> (a_keys a)) (a_vals a), RKey 0 (Some (Z.of_nat k)))
      | None => (a, RKey 0 (Some 0))
      end
  | OpClose h => (mkAreg (delete (Z.to_nat (u32 h)) (a_keys a)) (a_vals a), RStatus 0)
  | OpQuery h name buf =>
      match path ← a_keys a !! Z.to_nat (u32 h); a_vals a !! (path, default [] name) with
      | None => (a, RValue ERROR_FILE_NOT_FOUND None (Some buf) (Some (Z.of_nat (length buf))))
      | Some (ty, data) =>
          (a, if (length buf <? length data)%nat then RValue ERROR_MORE_DATA (Some ty) (Some buf) (Some (Z.of_nat (length data)))
              else RValue 0 (Some ty) (Some (data ++ drop (length data) buf)) (Some (Z.of_nat (length data))))
      end
  | OpSet h name ty data =>
      match a_keys a !! Z.to_nat (u32 h) with
      | None => (a, RStatus ERROR_FILE_NOT_FOUND)
      | Some path =>
          let k := (path, default [] name) in
          if bool_decide (is_Some (a_vals a !! k) \/ (size (a_vals a) < 64)%nat) then
            (mkAreg (a_keys a) (<[k := (if ty =? 0 then REG_SZ else ty, take 512 data)]> (a_vals a)), RStatus 0)
          else (a, RStatus 8)
      end
  | OpDelete h sub => (mkAreg (a_keys a) (filter (fun kv => kv.1.1 <> a_path h sub a) (a_vals a)), RStatus 0)
  end.
Fixpoint areg_run (ops : list (bool * reg_op)) (a : areg) : list reg_res :=
  match ops with [] => [] | (memory, o) :: ops => let '(a, x) := areg_step memory o a in x :: areg_run ops a end.

(** ** Refinement *)

Lemma list_find_agree {X} (P Q : X -> Prop) `{!forall x, Decision (P x), !forall x, Decision (Q x)} (l : list X) :
  Forall (fun x => P x <-> Q x) l -> list_find P l = list_find Q l.
Proof.
  induction 1 as [|x l Hx _ IH]; [done|]. cbn. rewrite IH. destruct (decide (P x)), (decide (Q x)); tauto || done.
Qed.

(** *** Values *)

Definition value_of (v : wine_reg_value) : option (cstr * cstr * (Z * bytes)) :=
  if v_used v then Some (v_path v, v_name v, (v_type v, take (Z.to_nat (v_size v)) (v_data v))) else None.
Definition entries (l : list wine_reg_value) : list (cstr * cstr * (Z * bytes)) := omap value_of l.

Definition value_wf (v : wine_reg_value) : Prop := length (v_data v) = 512%nat /\ 0 <= v_size v <= 512.
Record values_rep (l : list wine_reg_value) (m : gmap (cstr * cstr) (Z * bytes)) : Prop := {
  vr_length : length l = 64%nat;
  vr_wf : Forall value_wf l;
  vr_nodup : NoDup (entries l).*1;
  vr_map : m = list_to_map (entries l) }.

Lemma entries_app l1 l2 : entries (l1 ++ l2) = entries l1 ++ entries l2.
Proof. apply omap_app. Qed.
Lemma entries_cons v l : entries (v :: l) = option_list (value_of v) ++ entries l.
Proof. unfold entries. cbn. by destruct (value_of v). Qed.

(** The loops over the array. *)
Lemma find_value_loop_spec path name l : forall i,
  match find_value_loop path name i l with
  | Some j => exists k v, j = (i + k)%nat /\ l !! k = Some v /\ v_used v = true /\ v_path v = path /\ v_name v = default [] name
  | None => (path, default [] name) ∉ (entries l).*1
  end.
Proof.
  induction l as [|v l IH]; intros i; cbn [find_value_loop]; [apply not_elem_of_nil|].
  rewrite entries_cons. unfold value_of. destruct (v_used v) eqn:Eu; cbn [negb option_list app].
  - unfold same_value. destruct (bool_decide_reflect (v_path v = path)) as [<-|Hp]; cbn [andb].
    + destruct (bool_decide_reflect (v_name v = default [] name)) as [Hn|Hn]; cbn [andb].
      { exists 0%nat, v. split_and!; [lia|done..]. }
      specialize (IH (S i)). destruct (find_value_loop _ _ _ l) as [j|].
      * destruct IH as (k & w & -> & ?). exists (S k), w. split; [lia|done].
      * cbn. intros [[= ?]|]%elem_of_cons; done.
    + specialize (IH (S i)). destruct (find_value_loop _ _ _ l) as [j|].
      * destruct IH as (k & w & -> & ?). exists (S k), w. split; [lia|done].
      * cbn. intros [[= ?]|]%elem_of_cons; congruence || done.
  - specialize (IH (S i)). destruct (find_value_loop _ _ _ l) as [j|]; [|done].
    destruct IH as (k & w & -> & ?). exists (S k), w. split; [lia|done].
Qed.
Lemma free_value_loop_spec l : forall i,
  match free_value_loop i l with
  | Some j => exists k v, j = (i + k)%nat /\ l !! k = Some v /\ v_used v = false
  | None => length (entries l) = length l
  end.
Proof.
  induction l as [|v l IH]; intros i; cbn [free_value_loop]; [done|].
  destruct (v_used v) eqn:Eu; cbn [negb].
  - specialize (IH (S i)). destruct (free_value_loop _ l) as [j|].
    + destruct IH as (k & w & -> & ?). exists (S k), w. split; [lia|done].
    + rewrite entries_cons. unfold value_of. rewrite Eu. cbn. by rewrite IH.
  - exists 0%nat, v. split_and!; [lia|done..].
Qed.
Lemma entries_bound l : (length (entries l) <= length l)%nat.
Proof. induction l as [|v l IH]; [done|]. rewrite entries_cons. destruct (value_of v); cbn; lia. Qed.

(** The entries around an index. *)
Lemma entries_insert l i v w :
  l !! i = Some v ->
  exists e1 e2, entries l = e1 ++ option_list (value_of v) ++ e2 /\ entries (<[i := w]> l) = e1 ++ option_list (value_of w) ++ e2.
Proof.
  intros Hi. exists (entries (take i l)), (entries (drop (S i) l)).
  pose proof (lookup_lt_Some _ _ _ Hi) as Hl. split.
  - rewrite <- (take_drop_middle l i v Hi) at 1. by rewrite entries_app, entries_cons.
  - rewrite insert_take_drop by done. by rewrite entries_app, entries_cons.
Qed.

Lemma list_to_map_mid {V} (e1 e2 : list (cstr * cstr * V)) k x :
  NoDup (e1 ++ (k, x) :: e2).*1 ->
  list_to_map (M := gmap (cstr * cstr) V) (e1 ++ (k, x) :: e2) = <[k := x]> (list_to_map (e1 ++ e2)).
Proof.
  intros Hd. rewrite <- list_to_map_cons. symmetry. apply list_to_map_proper.
  - rewrite fmap_cons. rewrite fmap_app, fmap_cons in Hd. rewrite fmap_app. by rewrite Permutation_middle.
  - by rewrite Permutation_middle.
Qed.

(** Writing a slot that holds the key already, or a free one when no slot holds it. *)
Lemma values_write l m i v w k x :
  values_rep l m -> l !! i = Some v -> value_wf w -> value_of w = Some (k, x) ->
  (fst <$> value_of v = Some k \/ (value_of v = None /\ k ∉ (entries l).*1)) ->
  values_rep (<[i := w]> l) (<[k := x]> m).
Proof.
  intros [H1 H2 H3 H4] Hi Hw Ew Hv. destruct (entries_insert l i v w Hi) as (e1 & e2 & E1 & E2).
  rewrite Ew in E2. cbn in E2. assert (Hd : NoDup (e1 ++ (k, x) :: e2).*1).
  { rewrite fmap_app, fmap_cons. cbn. rewrite E1 in H3. destruct Hv as [Hv|[Hv Hk]].
    - destruct (value_of v) as [[k' x']|]; [|done]. cbn in Hv. injection Hv as ->. cbn in H3. by rewrite fmap_app, fmap_cons in H3.
    - rewrite E1, Hv in Hk. rewrite Hv in H3. cbn in H3, Hk. rewrite fmap_app in H3, Hk.
      rewrite <- Permutation_middle. by constructor. }
  split.
  - by rewrite length_insert.
  - by apply Forall_insert.
  - by rewrite E2.
  - rewrite E2, list_to_map_mid by done. subst m. rewrite E1. destruct Hv as [Hv|[Hv Hk]].
    + destruct (value_of v) as [[k' x']|]; [|done]. cbn in Hv. injection Hv as ->. cbn in E1 |- *. rewrite E1 in H3. cbn in H3.
      rewrite list_to_map_mid by done. by rewrite insert_insert_eq.
    + by rewrite Hv.
Qed.

Lemma values_lookup l m i v :
  values_rep l m -> l !! i = Some v -> v_used v = true -> m !! (v_path v, v_name v) = Some (v_type v, take (Z.to_nat (v_size v)) (v_data v)).
Proof.
  intros [H1 H2 H3 H4] Hi Hu. subst m. apply elem_of_list_to_map; [done|]. apply list_elem_of_omap. exists v.
  split; [by eapply list_elem_of_lookup_2|]. unfold value_of. by rewrite Hu.
Qed.
Lemma values_absent l m k : values_rep l m -> k ∉ (entries l).*1 -> m !! k = None.
Proof. intros [H1 H2 H3 ->] Hk. by apply not_elem_of_list_to_map. Qed.
Lemma values_size l m : values_rep l m -> size m = length (entries l).
Proof. intros [H1 H2 H3 ->]. rewrite map_size_list_to_map by done. done. Qed.

Lemma values_delete l m path :
  values_rep l m ->
  values_rep ((fun v => if negb (v_used v) then v else if negb (bool_decide (v_path v = path)) then v else zero_value) <$> l)
    (filter (fun kv => kv.1.1 <> path) m).
Proof.
  intros [H1 H2 H3 H4].
  assert (He : entries ((fun v => if negb (v_used v) then v else if negb (bool_decide (v_path v = path)) then v else zero_value) <$> l)
    = filter (fun e => e.1.1 <> path) (entries l)).
  { clear. induction l as [|v l IH]; [done|]. rewrite fmap_cons, !entries_cons, IH, filter_app. f_equal. unfold value_of.
    destruct (v_used v) eqn:Eu; cbn [negb]; [|by rewrite Eu].
    destruct (bool_decide_reflect (v_path v = path)) as [Hp|Hp]; cbn [negb].
    - match goal with |- context [option_list (Some ?x)] => change (option_list (Some x)) with [x] end.
      rewrite filter_cons. case_decide; [by cbn in *|done].
    - rewrite Eu. match goal with |- context [option_list (Some ?x)] => change (option_list (Some x)) with [x] end.
      rewrite filter_cons. case_decide; done. }
  assert (Hd : NoDup (filter (fun e : cstr * cstr * (Z * bytes) => e.1.1 <> path) (entries l)).*1).
  { revert H3. generalize (entries l). intros es. induction es as [|e es IH]; [done|]. rewrite fmap_cons. intros [Hn Hd]%NoDup_cons.
    rewrite filter_cons. case_decide; [|by apply IH]. rewrite fmap_cons. constructor; [|by apply IH].
    intros (x & Hx & [_ Hin]%list_elem_of_filter)%list_elem_of_fmap. apply Hn. rewrite Hx. by apply list_elem_of_fmap_2. }
  split; [by rewrite length_fmap| |by rewrite He|].
  - apply Forall_fmap. eapply Forall_impl; [exact H2|]. intros v Hv. cbn. destruct (negb (v_used v)), (bool_decide (v_path v = path)); try done.
  - rewrite He. subst m. apply map_eq. intros k. apply option_eq. intros x. rewrite map_lookup_filter_Some.
    rewrite <- !elem_of_list_to_map by done. rewrite list_elem_of_filter. cbn. tauto.
Qed.

(** *** Keys *)

Definition key_of (m : gmap nat cstr) (e : entry) : option cstr := match e_object e with OKey p => m !! p | _ => None end.

(** The table holds the standard handles and the open keys. *)
Record keys_rep (t : table) (m ks : gmap nat cstr) (s : store) : Prop := {
  kr_rep : represents t s;
  kr_own : owned HANDLE_TYPE_HKEY OKey (fun path : cstr => (length path <= 255)%nat) s m;
  kr_keys : forall k, ks !! k = s !! k ≫= key_of m;
  kr_std : forall k, (k < 3)%nat -> s !! k = store_init !! k;
  kr_rest : forall k e, (3 <= k)%nat -> s !! k = Some e -> e_type e = HANDLE_TYPE_HKEY }.

Lemma std_not_key k e m : store_init !! k = Some e -> e_type e <> HANDLE_TYPE_HKEY /\ key_of m e = None.
Proof. unfold store_init. rewrite !lookup_insert_Some, lookup_singleton_Some. naive_solver. Qed.

(** What a handle of any value is taken for: a key, or a handle of another type. *)
Lemma key_cases t m ks s h :
  keys_rep t m ks s ->
  (exists p path, s !! Z.to_nat (u32 h) = Some (mkEntry HANDLE_TYPE_HKEY (OKey p) 1) /\ m !! p = Some path /\ (length path <= 255)%nat /\
     ks !! Z.to_nat (u32 h) = Some path /\ wine_handle_get (u32 h) t = Ret (OKey p) /\ wine_handle_get_type (u32 h) t = Ret HANDLE_TYPE_HKEY /\
     3 <= u32 h < 512) \/
  (exists o ty, ks !! Z.to_nat (u32 h) = None /\ wine_handle_get (u32 h) t = Ret o /\ wine_handle_get_type (u32 h) t = Ret ty /\
     ty <> HANDLE_TYPE_HKEY /\ (u32 h <> 1 -> u32 h <> 2 -> o = ONull)).
Proof.
  intros [R Ho Hk Hstd Hrest]. destruct (table_get s t h R) as [E1 E2]. set (n := Z.to_nat (u32 h)) in *.
  assert (Hu : 0 <= u32 h) by (assert (in_u 32 (u32 h)) as [??] by (apply wrap_range; lia); done).
  rewrite (Hk n). destruct (s !! n) as [e|] eqn:Es; [|right; exists ONull, 0; by split_and!].
  destruct (decide (n < 3)%nat) as [Hn|Hn].
  - right. rewrite Hstd in Es by done. destruct (std_not_key n e m Es) as [Ht Hko]. cbn. exists (e_object e), (e_type e).
    split_and!; [done..|]. intros N1 N2. assert (n = 0%nat) as H0 by lia. rewrite H0 in Es. vm_compute in Es. by injection Es as <-.
  - left. destruct (ow_live _ _ _ _ _ Ho n e Es) as (p & path & -> & _ & Hp & Hl); [by apply (Hrest n); [lia|]|].
    exists p, path. assert (Hlt : (n < 512)%nat).
    { destruct R as (L & _ & E). rewrite E in Es. apply bind_Some in Es as (x & Hx & _). apply lookup_lt_Some in Hx. lia. }
    split_and!; [done..|lia|lia].
Qed.

Lemma key_lookup t m ks s h r :
  keys_rep t m ks s -> u32 h <> 1 -> u32 h <> 2 -> key_heap r = m ->
  exists o, wine_handle_get (u32 h) t = Ret o /\ key_path o r = Ret (ks !! Z.to_nat (u32 h)).
Proof.
  intros Hk N1 N2 Er. destruct (key_cases t m ks s h Hk) as [(p & path & _ & Hm & _ & -> & -> & _)|(o & ty & -> & -> & _ & _ & Hnull)].
  - eexists. split; [done|]. cbn. rewrite Er, Hm. done.
  - exists o. split; [done|]. by rewrite (Hnull N1 N2).
Qed.

Lemma length_join prefix sub : (length (join 256 prefix sub) <= 255)%nat.
Proof.
  unfold join. change (256 - 1)%nat with 255%nat. set (out := take 255 prefix). cbv zeta.
  assert (length out <= 255)%nat by (unfold out; rewrite length_take; lia).
  destruct (_ && _) eqn:E; [apply andb_true_iff in E as [_ E%bool_decide_eq_true_1]|];
    rewrite ?length_app, length_take, ?length_app; cbn [length]; lia.
Qed.

Lemma join_path_ok t r ks s h sub vs :
  keys_rep t (key_heap r) ks s -> reg_join_path h sub 256 t r = Ret (a_path h sub (mkAreg ks vs)).
Proof.
  intros Hk. unfold reg_join_path, a_path. cbn [a_keys].
  destruct (key_cases t (key_heap r) ks s h Hk) as [(p & path & _ & Hm & _ & Hks & E1 & E2 & Hlt)|(o & ty & -> & _ & -> & Ht & _)];
    [rewrite E2|]; cbn [mbind outcome_bind].
  - destruct (Z.eqb_spec h HKEY_CURRENT_USER_WINE) as [->|]; [by vm_compute in Hlt; destruct Hlt|]. rewrite Z.eqb_refl. cbn [negb andb].
    rewrite E1. cbn. rewrite Hm. cbn. by rewrite Hks.
  - rewrite (proj2 (Z.eqb_neq _ _) Ht), andb_false_r. cbn. by destruct (h =? _).
Qed.

(** A new key that no handle refers to. *)
Lemma key_of_fresh m p path s k e :
  owned HANDLE_TYPE_HKEY OKey (fun path : cstr => (length path <= 255)%nat) s m -> s !! k = Some e ->
  (e_type e = HANDLE_TYPE_HKEY \/ key_of m e = None /\ key_of (<[p := path]> m) e = None) ->
  m !! p = None -> key_of (<[p := path]> m) e = key_of m e.
Proof.
  intros Ho Hk [Ht|[-> ->]] Hp; [|done]. destruct (ow_live _ _ _ _ _ Ho k e Hk Ht) as (q & x & -> & _ & Hq & _).
  unfold key_of. cbn. rewrite lookup_insert_ne; [done|]. intros <-. congruence.
Qed.

Lemma keys_fresh t m ks s p path :
  keys_rep t m ks s -> m !! p = None -> keys_rep t (<[p := path]> m) ks s.
Proof.
  intros [R Ho Hk Hstd Hrest] Hp. split; try done; [by apply owned_fresh|]. intros k. rewrite Hk.
  destruct (s !! k) as [e|] eqn:Es; [|done]. cbn. symmetry. apply (key_of_fresh m p path s k); [done|done| |done].
  destruct (decide (k < 3)%nat) as [Hlt|]; [right|left; apply (Hrest k); [lia|done]].
  rewrite Hstd in Es by done. split; by eapply std_not_key.
Qed.

Lemma keys_alloc t m ks s p path :
  keys_rep t m ks s -> m !! p = None -> (length path <= 255)%nat ->
  exists t' s', 
    match list_find (fun i => ks !! i = None) allocatable with
    | Some (_, k) => wine_handle_alloc HANDLE_TYPE_HKEY (OKey p) t = Ret (t', Z.of_nat k) /\
        keys_rep t' (<[p := path]> m) (<[k := path]> ks) s'
    | None => wine_handle_alloc HANDLE_TYPE_HKEY (OKey p) t = Ret (t', 0) /\ keys_rep t' (<[p := path]> m) ks s'
    end.
Proof.
  intros Hkr Hp Hl. pose proof (keys_fresh t m ks s p path Hkr Hp) as [_ _ Hk _ _]. destruct Hkr as [R Ho Hk0 Hstd Hrest].
  destruct (handle_step_refines (HAlloc HANDLE_TYPE_HKEY (OKey p)) t s R I) as (t' & E & R'). cbn [handle_step store_step] in E, R'.
  rewrite (list_find_agree (fun i => ks !! i = None) (fun i => s !! i = None)).
  2:{ apply Forall_forall. intros k Hin. rewrite Hk0. destruct (s !! k) as [e|] eqn:Es; [|done]. cbn. split; [|done]. intros Hn.
      apply elem_of_seq in Hin. destruct (ow_live _ _ _ _ _ Ho k e Es) as (q & x & -> & _ & Hq & _); [by apply (Hrest k); [lia|]|].
      unfold key_of in Hn. cbn in Hn. congruence. }
  exists t'. destruct (list_find _ allocatable) as [[i k]|] eqn:El; cbn [fst snd] in E, R'.
  - apply list_find_Some in El as (Hin & Hn & _). apply list_elem_of_lookup_2, elem_of_seq in Hin.
    apply bind_Ret in E as ([t1 k1] & -> & [= -> ->]). eexists. split; [done|]. split.
    + exact R'.
    + apply owned_alloc; [by intros ?? [=]|done|done|lia|done|done].
    + intros j. destruct (decide (j = k)) as [->|].
      * rewrite !lookup_insert_eq. cbn. unfold key_of. cbn. by rewrite lookup_insert_eq.
      * rewrite !lookup_insert_ne by done. apply Hk.
    + intros j Hj. rewrite lookup_insert_ne by lia. by apply Hstd.
    + intros j e Hj. destruct (decide (j = k)) as [->|]; [rewrite lookup_insert_eq; by intros [= <-]|].
      rewrite lookup_insert_ne by done. by apply Hrest.
  - apply bind_Ret in E as ([t1 k1] & -> & [= -> ->]). exists s. split; [done|]. split; [done|by apply owned_fresh|done|done|done].
Qed.

Lemma keys_close t m ks s h p :
  keys_rep t m ks s -> s !! Z.to_nat (u32 h) = Some (mkEntry HANDLE_TYPE_HKEY (OKey p) 1) -> 3 <= u32 h ->
  exists t', wine_handle_free (u32 h) t = Ret t' /\ keys_rep t' (delete p m) (delete (Z.to_nat (u32 h)) ks) (delete (Z.to_nat (u32 h)) s).
Proof.
  intros [R Ho Hk Hstd Hrest] Hs Hge. destruct (free_owned _ _ _ s m t h p R Ho Hs) as (t' & E & R'). exists t'. split; [done|].
  split; [done|by apply owned_free| | |].
  - intros j. destruct (decide (j = Z.to_nat (u32 h))) as [->|]; [by rewrite !lookup_delete_eq|]. rewrite !lookup_delete_ne by done.
    rewrite Hk. destruct (s !! j) as [e|] eqn:Es; [|done]. cbn. unfold key_of. destruct (e_object e) eqn:Eo; try done.
    rewrite lookup_delete_ne; [done|]. intros <-. destruct (decide (j < 3)%nat).
    + rewrite Hstd in Es by done. destruct (std_not_key j e {[p := []]} Es) as [_ Hn]. unfold key_of in Hn. rewrite Eo in Hn. by simplify_map_eq.
    + destruct (ow_live _ _ _ _ _ Ho j e Es) as (q & x & -> & _); [by apply (Hrest j); [lia|]|]. cbn in Eo. injection Eo as ->.
      pose proof (ow_inj _ _ _ _ _ Ho j _ p Es Hs). congruence.
  - intros j Hj. rewrite lookup_delete_ne by lia. by apply Hstd.
  - intros j e Hj He. apply lookup_delete_Some in He as [_ He]. by apply (Hrest j).
Qed.

(** *** Simulation *)

Record sim (t : table) (r : registry) (a : areg) : Prop := {
  sim_keys : exists s, keys_rep t (key_heap r) (a_keys a) s;
  sim_vals : values_rep (g_reg_values r) (a_vals a) }.

(** The calls are made on keys or on handles that are not open, and a value that is set
    has a name that fits in its record. *)
Definition op_wf (o : reg_op) : Prop :=
  match o with
  | OpQuery h _ _ => u32 h <> 1 /\ u32 h <> 2
  | OpSet h name _ _ => u32 h <> 1 /\ u32 h <> 2 /\ (length (default [] name) <= 127)%nat
  | _ => True
  end.

Lemma memcpy_prefix src b : (length src <= length b)%nat -> syscall_safe_memcpy 0 src b = Ret (src ++ drop (length src) b).
Proof.
  intros Hl. unfold syscall_safe_memcpy, store_bytes, splice. replace (in_range 0 (blen src) (blen b)) with true; [done|].
  symmetry. unfold in_range, blen. lia.
Qed.

Lemma sim_set_value r a path name ty data s t :
  keys_rep t (key_heap r) (a_keys a) s -> values_rep (g_reg_values r) (a_vals a) ->
  (length path <= 255)%nat -> (length (default [] name) <= 127)%nat ->
  let k := (path, default [] name) in
  let cb := if 512 <? Z.of_nat (length data) then 512 else Z.of_nat (length data) in
  match reg_ensure_value path name r with
  | (None, r') => r' = r /\ ~ (is_Some (a_vals a !! k) \/ (size (a_vals a) < 64)%nat)
  | (Some i, r') => (is_Some (a_vals a !! k) \/ (size (a_vals a) < 64)%nat) /\ key_heap r' = key_heap r /\
      exists v d, g_reg_values r' !! i = Some v /\ v_used v = true /\ length (v_data v) = 512%nat /\
        d = take 512 data ++ drop (length (take 512 data)) (v_data v) /\
        values_rep (<[i := mkReg (v_path v) (v_name v) (if ty =? 0 then REG_SZ else ty) d cb true]> (g_reg_values r'))
          (<[k := (if ty =? 0 then REG_SZ else ty, take 512 data)]> (a_vals a))
  end.
Proof.
  intros Hk Hv Hp Hn k cb. assert (Hcb : Z.to_nat cb = length (take 512 data) /\ 0 <= cb <= 512).
  { unfold cb. rewrite length_take. destruct (Z.ltb_spec 512 (Z.of_nat (length data))); lia. }
  destruct Hcb as [Hcb Hcb'].
  unfold reg_ensure_value, reg_find_value. pose proof (find_value_loop_spec path name (g_reg_values r) 0) as Hf.
  assert (Hwrite : forall v, length (v_data v) = 512%nat -> v_path v = path -> v_name v = default [] name ->
    let w := mkReg (v_path v) (v_name v) (if ty =? 0 then REG_SZ else ty) (take 512 data ++ drop (length (take 512 data)) (v_data v)) cb true in
    value_wf w /\ value_of w = Some (k, (if ty =? 0 then REG_SZ else ty, take 512 data))).
  { intros v Hlen E1 E2. split.
    - split; [|done]. cbn. rewrite length_app, length_drop, !length_take. lia.
    - unfold value_of. cbn. rewrite Hcb, take_app_length. by rewrite E1, E2. }
  destruct (find_value_loop _ _ _ _) as [i|].
  - destruct Hf as (j & v & -> & Hj & Hu & E1 & E2). assert (Hwf : value_wf v) by (apply (Forall_lookup_1 _ _ _ _ (vr_wf _ _ Hv) Hj)).
    split; [left; unfold k; rewrite <- E1, <- E2; by rewrite (values_lookup _ _ _ _ Hv Hj Hu)|]. split; [done|].
    eexists v, _. split_and!; [done|done|apply Hwf|reflexivity|]. destruct (Hwrite v) as [W1 W2]; [apply Hwf|done|done|].
    apply (values_write _ _ _ v _ k _ Hv Hj W1 W2). left. unfold value_of. rewrite Hu. cbn. unfold k. by rewrite E1, E2.
  - pose proof (free_value_loop_spec (g_reg_values r) 0) as Hfr. destruct (free_value_loop _ _) as [i|].
    + destruct Hfr as (j & v & -> & Hj & Hu). cbn [Nat.add] in *. split.
      { right. rewrite (values_size _ _ Hv). destruct (entries_insert _ j v v Hj) as (e1 & e2 & E1 & _).
        pose proof (vr_length _ _ Hv) as Hl. rewrite <- (take_drop_middle _ _ _ Hj) in Hl |- *. rewrite entries_app, entries_cons.
        unfold value_of. rewrite Hu. cbn. rewrite !length_app in *. cbn [length] in Hl.
        pose proof (entries_bound (take j (g_reg_values r))). pose proof (entries_bound (drop (S j) (g_reg_values r))). lia. }
      split; [done|]. set (v0 := mkReg _ _ 0 _ 0 true). assert (Hj' : (j < length (g_reg_values r))%nat) by (by eapply lookup_lt_Some).
      exists v0. eexists. split_and!; [by apply list_lookup_insert_eq|done|done|reflexivity|]. cbn [with_values g_reg_values].
      rewrite list_insert_insert_eq. destruct (Hwrite v0) as [W1 W2]; [done|cbn; unfold reg_copy_cstr; by rewrite take_ge by (cbn; lia)|
        cbn; unfold reg_copy_cstr; by rewrite take_ge by lia|].
      apply (values_write _ _ _ v _ k _ Hv Hj W1 W2). right. split; [unfold value_of; by rewrite Hu|done].
    + split; [done|]. unfold k. rewrite (values_absent _ _ _ Hv Hf), (values_size _ _ Hv), Hfr, (vr_length _ _ Hv). intros [[? ?]|]; [done|lia].
Qed.

Section refinement.
Variable address : gmap nat cstr -> nat.
(** malloc returns memory that is not in use. *)
Hypothesis address_unused : forall m, m !! address m = None.
Local Abbreviation step_ok memory o t r a :=
  (exists t' r', reg_step (malloc_key address memory) o t r = Ret (t', r', (areg_step memory o a).2) /\
    sim t' r' (areg_step memory o a).1).

Lemma sim_create memory h sub t r a : sim t r a -> step_ok memory (OpCreate h sub) t r a.
Proof.
  intros [[s Hk] Hv]. cbn [reg_step]. unfold RegCreateKeyA. rewrite (join_path_ok t r (a_keys a) s h sub (a_vals a) Hk).
  cbn [mbind outcome_bind areg_step]. destruct memory; cbn [malloc_key negb]; [|do 2 eexists; split; [reflexivity|]; split; eauto].
  pose proof (address_unused (key_heap r)) as Hp. set (p := address (key_heap r)) in *. set (path := a_path h sub _).
  assert (Hl : (length path <= 255)%nat) by apply length_join.
  replace (reg_copy_cstr 256 (Some path)) with path by (unfold reg_copy_cstr; by rewrite take_ge by (cbn; lia)).
  destruct (keys_alloc t (key_heap r) (a_keys a) s p path Hk Hp Hl) as (t' & s' & Ha).
  destruct a as [ks vs]. cbn [a_keys a_vals] in *. destruct (list_find _ allocatable) as [[i k]|]; destruct Ha as [-> Ha];
    cbn [mbind outcome_bind]; do 2 eexists; (split; [reflexivity|]); split; cbn; eauto.
Qed.

Lemma sim_close memory h t r a : sim t r a -> step_ok memory (OpClose h) t r a.
Proof.
  intros [[s Hk] Hv]. cbn [reg_step]. unfold RegCloseKey.
  destruct (key_cases t (key_heap r) (a_keys a) s h Hk) as [(p & path & Hs & Hm & _ & _ & E1 & -> & Hlt)|(o & ty & Hn & _ & -> & Ht & _)];
    cbn [mbind outcome_bind].
  - destruct (Z.eqb_spec (u32 h) 0); [lia|]. destruct (Z.eqb_spec h HKEY_CURRENT_USER_WINE) as [->|]; [by vm_compute in Hlt; destruct Hlt|].
    rewrite Z.eqb_refl, E1. cbn [negb andb mbind outcome_bind]. rewrite Hm. cbn [deref mbind outcome_bind].
    destruct (keys_close t _ _ s h p Hk Hs) as (t' & -> & Hk'); [lia|]. cbn [mbind outcome_bind].
    do 2 eexists. split; [reflexivity|]. split; cbn; eauto.
  - rewrite (proj2 (Z.eqb_neq _ _) Ht), andb_false_r. cbn. do 2 eexists. split; [reflexivity|].
    destruct a as [ks vs]. cbn in *. rewrite delete_id by done. split; cbn; eauto.
Qed.

Lemma sim_query memory h name buf t r a : u32 h <> 1 -> u32 h <> 2 -> sim t r a -> step_ok memory (OpQuery h name buf) t r a.
Proof.
  intros N1 N2 [[s Hk] Hv]. cbn [reg_step areg_step]. unfold RegQueryValueExA.
  destruct (Z.eqb_spec h HKEY_CURRENT_USER_WINE) as [->|].
  { destruct (key_cases t _ _ s HKEY_CURRENT_USER_WINE Hk) as [(p & path & _ & _ & _ & _ & _ & _ & Hlt)|(o & ty & -> & _)];
      [by vm_compute in Hlt; destruct Hlt|]. exists t, r. split; [done|]. split; eauto. }
  destruct (key_lookup t _ _ s h r Hk N1 N2 eq_refl) as (o & -> & E). cbn [mbind outcome_bind]. rewrite E. cbn [mbind outcome_bind].
  destruct (a_keys a !! Z.to_nat (u32 h)) as [path|]; [|exists t, r; split; [done|split; eauto]].
  unfold reg_find_value. pose proof (find_value_loop_spec path name (g_reg_values r) 0) as Hf. cbn [mbind option_bind].
  destruct (find_value_loop _ _ _ _) as [i|]; [|rewrite (values_absent _ _ _ Hv Hf); exists t, r; split; [done|split; eauto]].
  destruct Hf as (j & v & -> & Hj & Hu & <- & <-). cbn [Nat.add] in *. rewrite Hj. cbn [deref mbind outcome_bind].
  rewrite (values_lookup _ _ _ _ Hv Hj Hu). destruct (Forall_lookup_1 _ _ _ _ (vr_wf _ _ Hv) Hj) as [Hlen Hsz].
  assert (Htk : length (take (Z.to_nat (v_size v)) (v_data v)) = Z.to_nat (v_size v)) by (rewrite length_take; lia).
  rewrite Htk. destruct (Z.ltb_spec (Z.of_nat (length buf)) (v_size v)), (Nat.ltb_spec (length buf) (Z.to_nat (v_size v))); try lia.
  - rewrite Z2Nat.id by lia. exists t, r. split; [done|]. split; eauto.
  - rewrite memcpy_prefix by lia. rewrite Htk, Z2Nat.id by lia. exists t, r. split; [done|]. split; eauto.
Qed.

Lemma sim_set memory h name ty data t r a :
  u32 h <> 1 -> u32 h <> 2 -> (length (default [] name) <= 127)%nat -> sim t r a -> step_ok memory (OpSet h name ty data) t r a.
Proof.
  intros N1 N2 Hn [[s Hk] Hv]. cbn [reg_step areg_step]. unfold RegSetValueExA.
  assert (Hpath : forall path, a_keys a !! Z.to_nat (u32 h) = Some path -> (length path <= 255)%nat).
  { intros path E. by destruct (key_cases t _ _ s h Hk) as [(p & path' & _ & _ & ? & Hks & _)|(o & ty' & ? & _)]; simplify_eq. }
  destruct (key_lookup t _ _ s h r Hk N1 N2 eq_refl) as (o & -> & E). cbn [mbind outcome_bind]. rewrite E. cbn [mbind outcome_bind].
  destruct (a_keys a !! Z.to_nat (u32 h)) as [path|]; [|exists t, r; split; [done|split; eauto]].
  pose proof (sim_set_value r a path name ty data s t Hk Hv (Hpath path eq_refl) Hn) as Hs. cbn zeta in Hs.
  destruct (reg_ensure_value path name r) as [[i|] r'].
  - destruct Hs as (Hc & Ek & v & d & Hi & Hu & Hl & -> & Hv'). rewrite Hi. cbn [deref mbind outcome_bind].
    rewrite bool_decide_eq_true_2 by done. set (cb := if 512 <? Z.of_nat (length data) then 512 else Z.of_nat (length data)) in *.
    assert (Hcb : Z.to_nat cb = length (take 512 data) /\ cb <= Z.of_nat (length data)).
    { unfold cb. rewrite length_take. destruct (Z.ltb_spec 512 (Z.of_nat (length data))); lia. }
    destruct Hcb as [Hcb Hle]. rewrite Hu.
    assert (Htk : take (Z.to_nat cb) data = take 512 data) by (rewrite Hcb, length_take; destruct (Nat.min_spec 512 (length data)) as [[? ->]|[? ->]];
      [done|rewrite !take_ge by lia; done]).
    assert (Hd : (if 0 <? cb then src ← (if Z.of_nat (length data) <? cb then Fault else Ret (take (Z.to_nat cb) data));
                   syscall_safe_memcpy 0 src (v_data v) else Ret (v_data v)) = Ret (take 512 data ++ drop (length (take 512 data)) (v_data v))).
    { destruct (Z.ltb_spec 0 cb).
      - rewrite (proj2 (Z.ltb_ge _ _)) by lia. cbn [mbind outcome_bind]. rewrite Htk. apply memcpy_prefix. rewrite length_take. lia.
      - assert (length (take 512 data) = 0%nat) as H0 by lia. rewrite H0. apply nil_length_inv in H0. by rewrite H0. }
    rewrite Hd. cbn [mbind outcome_bind]. exists t. eexists. split; [reflexivity|]. split; cbn; [rewrite Ek; eauto|done].
  - destruct Hs as [-> Hc]. rewrite bool_decide_eq_false_2 by done. exists t, r. split; [done|]. split; eauto.
Qed.

Lemma sim_step memory o t r a : sim t r a -> op_wf o -> step_ok memory o t r a.
Proof.
  intros Hs Ho. destruct o as [h sub|h|h name buf|h name ty data|h sub]; cbn in Ho.
  - by apply sim_create.
  - by apply sim_close.
  - destruct Ho. by apply sim_query.
  - destruct Ho as (? & ? & ?). by apply sim_set.
  - destruct Hs as [[s Hk] Hv]. cbn [reg_step]. unfold RegDeleteKeyA. rewrite (join_path_ok t r (a_keys a) s h sub (a_vals a) Hk).
    cbn. do 2 eexists. split; [reflexivity|]. destruct a as [ks vs]. split; cbn in *; [eauto|by apply values_delete].
Qed.

Lemma sim_init : sim wine_handle_manager_runtime_init registry_init areg_init.
Proof.
  split.
  - exists store_init. split; cbn.
    + apply handle_init_represents.
    + apply no_handles. intros k e He. by apply (std_not_key k e ∅).
    + intros k. rewrite lookup_empty. destruct (store_init !! k) as [e|] eqn:E; [|done]. cbn. symmetry. by eapply std_not_key.
    + done.
    + intros k e Hk. unfold store_init. rewrite !lookup_insert_ne, lookup_singleton_ne by lia. done.
  - split; [done| |apply NoDup_nil_2|reflexivity]. apply Forall_replicate. split; [done|simpl; lia].
Qed.

(** C32: Every program of registry calls, with values whose names have at most 127
    characters, from an empty registry, runs without a fault and returns what the
    abstract registry returns: a key opened under a name and a subkey stands for the
    joined path, a call without memory for its key answers 8 and changes nothing, a
    value is found under its path and name until its key is deleted, and the 64 records
    hold 64 values.  The calls are on keys, or on handles that are no file. *)
Theorem registry_refines ops :
  Forall (fun o => op_wf o.2) ops ->
  reg_run address ops wine_handle_manager_runtime_init registry_init = Ret (areg_run ops areg_init).
Proof.
  intros Hw. pose proof sim_init as Hs. revert Hs. generalize wine_handle_manager_runtime_init registry_init areg_init.
  induction Hw as [|[memory o] ops Ho _ IH]; intros t r a Hs; [done|].
  destruct (sim_step memory o t r a Hs Ho) as (t' & r' & E & Hs').
  cbn [reg_run areg_run]. rewrite E. destruct (areg_step memory o a) as [a' x]. cbn [mbind outcome_bind fst snd] in *. by rewrite (IH t' r' a' Hs').
Qed.
End refinement.

(** ** Concrete registries *)

Definition next_address (m : gmap nat cstr) : nat := default 0%nat (next_free m).
Lemma next_address_unused m : m !! next_address m = None.
Proof. by apply next_free_fresh. Qed.

(** Open HKCU\Id as handle 3, after an attempt without memory; set, query and delete a
    value. *)
Definition demo_ops : list (bool * reg_op) :=
  (false, OpCreate HKEY_CURRENT_USER_WINE (Some (lit "Id"))) ::
  map (pair true)
   [OpCreate HKEY_CURRENT_USER_WINE (Some (lit "Id")); OpSet 3 (Some (lit "v")) 0 [1; 2; 3]; OpQuery 3 (Some (lit "v")) [9; 9; 9; 9];
    OpQuery 3 (Some (lit "v")) [9]; OpDelete HKEY_CURRENT_USER_WINE (Some (lit "Id")); OpQuery 3 (Some (lit "v")) [9]; OpClose 3].
Lemma registry_refines_witness :
  reg_run next_address demo_ops wine_handle_manager_runtime_init registry_init =
    Ret [RKey 8 None; RKey 0 (Some 3); RStatus 0; RValue 0 (Some REG_SZ) (Some [1; 2; 3; 9]) (Some 3);
         RValue ERROR_MORE_DATA (Some REG_SZ) (Some [9]) (Some 3);
         RStatus 0; RValue ERROR_FILE_NOT_FOUND None (Some [9]) (Some 1); RStatus 0].
Proof.
  rewrite (registry_refines next_address next_address_unused demo_ops).
  - vm_compute. reflexivity.
  - repeat (apply Forall_cons; split; [vm_compute; repeat split; congruence || lia|]). apply Forall_nil. done.
Defined.

(** ** Defects *)

(** A value whose name has 128 characters is stored under its first 127 and not found
    again. *)
Example long_name_is_lost :
  reg_run next_address (map (pair true) [OpCreate HKEY_CURRENT_USER_WINE None; OpSet 3 (Some (replicate 128 97)) 1 [5];
     OpQuery 3 (Some (replicate 128 97)) [0]])
    wine_handle_manager_runtime_init registry_init =
  Ret [RKey 0 (Some 3); RStatus 0; RValue ERROR_FILE_NOT_FOUND None (Some [0]) (Some 1)].
Proof. vm_compute. reflexivity. Qed.

(** The type of a key handle is not checked: a file's object is used as a key. *)
Example file_handle_is_used_as_key :
  RegQueryValueExA 1 (Some (lit "v")) None None wine_handle_manager_runtime_init registry_init = Fault.
Proof. vm_compute. reflexivity. Qed.
