(* ===== verification/DDrawDesc.v ===== *)
(** * Surface descriptors of DirectDraw (src/msvcrt/ddraw_surface_desc.c)

    The descriptors that guest programs pass to CreateSurface, Lock, GetSurfaceDesc and
    GetDisplayMode, as the bytes of the guest's block: an access outside the block is a
    fault.  Two layouts are told apart by the size in the first word. *)
From S2P Require Import Prelude Bytes.

Definition DDSD_CAPS : Z := 0x1.
Definition DDSD_HEIGHT : Z := 0x2.
Definition DDSD_WIDTH : Z := 0x4.
Definition DDSD_PITCH : Z := 0x8.
Definition DDSD_LPSURFACE : Z := 0x800.

(** ddraw_guest_desc_t: the layout of DDSURFACEDESC2. *)
Definition OFF_ddSize : Z := 0x00.
Definition OFF_ddFlags : Z := 0x04.
Definition OFF_dwHeight : Z := 0x08.
Definition OFF_dwWidth : Z := 0x0C.
Definition OFF_lPitch : Z := 0x10.
Definition OFF_dwBackBufferCount : Z := 0x14.
Definition OFF_lpSurface : Z := 0x24.
Definition OFF_dwCaps : Z := 0x68.
Definition sizeof_desc : Z := 0x6C.

(** ddraw_guest_desc1_t: lPitch and lWidth are one union, and lWidth2 and lHeight are
    another. *)
Definition OFF1_ddCaps : Z := 0x08.
Definition OFF1_lPitch : Z := 0x14.
Definition OFF1_lWidth : Z := 0x14.
Definition OFF1_dwBackBufferCount : Z := 0x18.
Definition OFF1_lWidth2 : Z := 0x1C.
Definition OFF1_lHeight : Z := 0x1C.
Definition OFF1_lpSurface : Z := 0x20.
Definition sizeof_desc1 : Z := 0x24.

Record ddraw_surface_desc_data_t := mkDescData {
  sd_caps : Z; sd_pitch : Z; sd_width : Z; sd_height : Z; sd_backbuffer_count : Z; sd_lp_surface : Z; sd_dd_flags : Z }.

Definition put32 (off v : Z) (m : outcome bytes) : outcome bytes := b ← m; store 4 off v b.
Definition memset0 (n : Z) (b : bytes) : outcome bytes := store_bytes 0 (replicate (Z.to_nat n) 0) b.

Definition ddraw_write_desc_v1 (data : ddraw_surface_desc_data_t) (desc1 : bytes) : outcome bytes :=
  put32 OFF1_lpSurface (sd_lp_surface data)
    (put32 OFF1_lHeight (sd_height data)
      (put32 OFF1_lWidth2 (sd_width data)
        (put32 OFF1_dwBackBufferCount (sd_backbuffer_count data)
          (put32 OFF1_lPitch (sd_pitch data)
            (put32 OFF1_ddCaps (sd_caps data)
              (put32 OFF_ddFlags (sd_dd_flags data)
                (put32 OFF_ddSize sizeof_desc1
                  (memset0 sizeof_desc1 desc1)))))))).

(** The number of bytes that ddraw_write_desc_v2 clears. *)
Definition write_size (size : Z) : Z :=
  if size <? 0x20 then 0x20 else if sizeof_desc <? size then sizeof_desc else size.

Definition ddraw_write_desc_v2 (data : ddraw_surface_desc_data_t) (desc : bytes) : outcome bytes :=
  size ← load 4 OFF_ddSize desc;
  let n := write_size size in
  let b := memset0 n desc in
  let b := if 4 <=? n then put32 OFF_ddSize n b else b in
  let b := put32 OFF_ddFlags (sd_dd_flags data) b in
  let b := if 0x68 <=? n then put32 OFF_dwCaps (sd_caps data) b else b in
  put32 OFF_lpSurface (sd_lp_surface data)
    (put32 OFF_dwHeight (sd_height data)
      (put32 OFF_dwWidth (sd_width data)
        (put32 OFF_dwBackBufferCount (sd_backbuffer_count data)
          (put32 OFF_lPitch (sd_pitch data) b)))).

(** The part of ddraw_fill_surface_desc that writes the guest's block. *)
Definition write_surface_desc (data : ddraw_surface_desc_data_t) (desc : bytes) : outcome bytes :=
  size ← load 4 OFF_ddSize desc;
  if size =? sizeof_desc1 then ddraw_write_desc_v1 data desc else ddraw_write_desc_v2 data desc.

Definition ddraw_init_display_mode_desc (width height caps : Z) (desc : bytes) : outcome bytes :=
  put32 OFF_dwHeight height
    (put32 OFF_dwWidth width
      (put32 OFF_dwCaps caps
        (put32 OFF_ddFlags (Z.lor DDSD_WIDTH DDSD_HEIGHT)
          (put32 OFF_ddSize sizeof_desc
            (memset0 sizeof_desc desc))))).

(** What ddraw_parse_surface_desc reads. *)
Record desc_args := mkDescArgs { da_caps : Z; da_width : Z; da_height : Z; da_backbuffers : Z }.

Definition ddraw_parse_surface_desc (desc : bytes) : outcome desc_args :=
  size ← load 4 OFF_ddSize desc;
  if size =? sizeof_desc1 then
    caps ← load 4 OFF1_ddCaps desc;
    width ← load 4 OFF1_lWidth desc;
    height ← load 4 OFF1_lHeight desc;
    backbuffers ← load 4 OFF1_dwBackBufferCount desc;
    Ret (mkDescArgs caps width height backbuffers)
  else
    caps ← load 4 OFF_dwCaps desc;
    width ← load 4 OFF_dwWidth desc;
    height ← load 4 OFF_dwHeight desc;
    backbuffers ← load 4 OFF_dwBackBufferCount desc;
    Ret (mkDescArgs caps width height backbuffers).

(** ** Writes *)

(** A computation that gives a block of [n] bytes. *)
Definition gives (n : Z) (m : outcome bytes) : Prop := exists b, m = Ret b /\ blen b = n.
(** The word at an offset of the block that a computation gives. *)
Definition word_of (m : outcome bytes) (off : Z) : outcome Z := b ← m; load 4 off b.

Lemma memset0_gives k n b : 0 <= k <= n -> blen b = n -> gives n (memset0 k b).
Proof.
  intros Hk Hb. unfold gives, memset0, store_bytes, blen at 1. rewrite length_replicate.
  assert (Hr : in_range 0 (Z.of_nat (Z.to_nat k)) (blen b) = true) by (apply in_range_spec; lia).
  rewrite Hr. eexists. split; [reflexivity|]. unfold blen in *. rewrite length_splice; [done|].
  unfold blen. rewrite length_replicate. by rewrite Hb in *.
Qed.
Lemma put32_gives off v m n : gives n m -> 0 <= off -> off + 4 <= n -> gives n (put32 off v m).
Proof.
  intros (b & -> & Hb) H1 H2. unfold put32. simpl. assert (Hr : in_range off (Z.of_nat 4) (blen b) = true) by (apply in_range_spec; lia).
  pose proof (store_ok 4 off v b Hr) as Hs. exists (splice off (le_split 4 v) b). split; [done|].
  unfold blen in *. by rewrite (store_length _ _ _ _ _ Hs).
Qed.
Lemma put32_inv off v m n : gives n (put32 off v m) -> gives n m /\ off + 4 <= n.
Proof.
  intros (b' & H & <-). apply bind_Ret in H as (b & -> & H). pose proof (store_length _ _ _ _ _ H) as Hl.
  apply store_inv in H as [Hr _]. apply in_range_spec in Hr. unfold blen in *. rewrite Hl. split; [|lia]. by exists b.
Qed.
Lemma put32_same off v m n : gives n (put32 off v m) -> word_of (put32 off v m) off = Ret (u32 v).
Proof. intros (b' & H & _). unfold word_of. rewrite H. apply bind_Ret in H as (b & _ & H). by apply load_store_same in H. Qed.
Lemma put32_other off v m n o :
  gives n (put32 off v m) -> 0 <= o -> o + 4 <= off \/ off + 4 <= o -> word_of (put32 off v m) o = word_of m o.
Proof.
  intros (b' & H & _) Ho Hd. unfold word_of. rewrite H. apply bind_Ret in H as (b & -> & H). simpl.
  by apply (load_store_disjoint 4 4 off v o b b').
Qed.

Ltac gives_tac := repeat first
  [assumption | apply put32_gives | apply memset0_gives | solve [unfold sizeof_desc, sizeof_desc1 in *; lia]].
(** The word at an offset after a chain of writes. *)
Ltac words n := repeat first
  [rewrite (put32_same _ _ _ n) by gives_tac | rewrite (put32_other _ _ _ n) by (gives_tac || lia)].

Section write.
Variable data : ddraw_surface_desc_data_t.

Lemma write_v1_gives b : 0x24 <= blen b -> gives (blen b) (ddraw_write_desc_v1 data b).
Proof.
  intros Hb. unfold ddraw_write_desc_v1, OFF1_lpSurface, OFF1_lHeight, OFF1_lWidth2, OFF1_dwBackBufferCount, OFF1_lPitch,
    OFF1_ddCaps, OFF_ddFlags, OFF_ddSize. gives_tac.
Qed.

Lemma write_v2_gives b size :
  load 4 OFF_ddSize b = Ret size -> blen b = size -> (gives size (ddraw_write_desc_v2 data b) <-> 0x28 <= size < 0x68 \/ 0x6C <= size).
Proof.
  intros Hs Hb. unfold ddraw_write_desc_v2. rewrite Hs. cbn [mbind outcome_bind]. cbv zeta.
  unfold OFF_dwCaps, OFF_lpSurface, OFF_dwHeight, OFF_dwWidth, OFF_dwBackBufferCount, OFF_lPitch, OFF_ddFlags, OFF_ddSize.
  assert (Hw : 0x20 <= write_size size /\ (0x20 <= size -> write_size size <= size) /\ (0x6C <= size -> write_size size = 0x6C)
    /\ (0x20 <= size < 0x6C -> write_size size = size)).
  { unfold write_size, sizeof_desc. repeat case_match; lia. }
  destruct Hw as (Hw1 & Hw2 & Hw3 & Hw4). replace (4 <=? write_size size) with true by lia. split.
  - intros Hg. repeat (match type of Hg with gives _ (put32 _ _ _) => apply put32_inv in Hg as [Hg ?] end).
    destruct (0x68 <=? write_size size) eqn:E; [|lia]. apply put32_inv in Hg as [_ ?]. lia.
  - intros Hsz. destruct (0x68 <=? write_size size) eqn:E; gives_tac.
Qed.
End write.

(** A block of 108 bytes is enough for everything that is read and written. *)
Lemma parse_full_block b : 0x6C <= blen b -> exists a, ddraw_parse_surface_desc b = Ret a.
Proof.
  intros Hb. assert (Hl : forall off, 0 <= off -> off + 4 <= 0x6C -> exists v, load 4 off b = Ret v).
  { intros off H1 H2. eexists. apply load_ok, in_range_spec. lia. }
  unfold ddraw_parse_surface_desc, OFF_ddSize, OFF1_ddCaps, OFF1_lWidth, OFF1_lHeight, OFF1_dwBackBufferCount, OFF_dwCaps, OFF_dwWidth,
    OFF_dwHeight, OFF_dwBackBufferCount.
  destruct (Hl 0) as [v ->]; [lia..|]. cbn [mbind outcome_bind].
  destruct (Hl 0x68) as [v1 ->]; [lia..|]. destruct (Hl 0xC) as [v2 ->]; [lia..|]. destruct (Hl 0x8) as [v3 ->]; [lia..|].
  destruct (Hl 0x14) as [v4 ->]; [lia..|]. destruct (Hl 0x18) as [v5 ->]; [lia..|]. destruct (Hl 0x1C) as [v6 ->]; [lia..|].
  destruct (v =? sizeof_desc1); simpl; eauto.
Qed.
Lemma write_full_block data b : 0x6C <= blen b -> exists b', write_surface_desc data b = Ret b'.
Proof.
  intros Hb. unfold write_surface_desc, ddraw_write_desc_v2. rewrite (load_ok 4 OFF_ddSize b) by (apply in_range_spec; unfold OFF_ddSize; lia).
  cbn [mbind outcome_bind]. cbv zeta. destruct (_ =? sizeof_desc1).
  - destruct (write_v1_gives data b) as (b' & E & _); [lia|]. eauto.
  - set (n := write_size _). assert (Hn : 0x20 <= n <= 0x6C) by (subst n; unfold write_size, sizeof_desc; repeat case_match; lia).
    cut (gives (blen b) (let b0 := memset0 n b in let b1 := if 4 <=? n then put32 OFF_ddSize n b0 else b0 in
      let b2 := put32 OFF_ddFlags (sd_dd_flags data) b1 in let b3 := if 0x68 <=? n then put32 OFF_dwCaps (sd_caps data) b2 else b2 in
      put32 OFF_lpSurface (sd_lp_surface data) (put32 OFF_dwHeight (sd_height data) (put32 OFF_dwWidth (sd_width data)
        (put32 OFF_dwBackBufferCount (sd_backbuffer_count data) (put32 OFF_lPitch (sd_pitch data) b3)))))).
    { cbv zeta. intros (b' & E & _). eauto. }
    cbv zeta. unfold OFF_dwCaps, OFF_lpSurface, OFF_dwHeight, OFF_dwWidth, OFF_dwBackBufferCount, OFF_lPitch, OFF_ddFlags, OFF_ddSize.
    destruct (4 <=? n), (0x68 <=? n); gives_tac.
Qed.
Lemma display_mode_full_block w h c b : 0x6C <= blen b -> exists b', ddraw_init_display_mode_desc w h c b = Ret b'.
Proof.
  intros Hb. cut (gives (blen b) (ddraw_init_display_mode_desc w h c b)); [intros (b' & E & _); eauto|].
  unfold ddraw_init_display_mode_desc, OFF_dwCaps, OFF_dwHeight, OFF_dwWidth, OFF_ddFlags, OFF_ddSize. gives_tac.
Qed.

(** C39: A descriptor is written inside the block of the size it declares exactly when that
    size is 36 bytes (the first layout), or reaches past lpSurface without ending in the
    middle of the capabilities: the sizes below 40 bytes other than 36, and those from
    104 to 107, make the code write past the block. *)
Theorem surface_desc_fits_block data b :
  load 4 OFF_ddSize b = Ret (blen b) ->
  ((exists b', write_surface_desc data b = Ret b' /\ blen b' = blen b)
   <-> blen b = 0x24 \/ 0x28 <= blen b < 0x68 \/ 0x6C <= blen b).
Proof.
  intros Hs. unfold write_surface_desc. rewrite Hs. cbn [mbind outcome_bind]. destruct (blen b =? sizeof_desc1) eqn:E; unfold sizeof_desc1 in E.
  - split; [lia|]. intros _. apply (write_v1_gives data b). lia.
  - rewrite (write_v2_gives data b (blen b) Hs eq_refl). lia.
Qed.

(** What DirectDraw writes into a descriptor of the full size is what it reads back from
    it: the capabilities, the size of the surface and the number of back buffers. *)
Theorem surface_desc_roundtrip data b size :
  load 4 OFF_ddSize b = Ret size -> 0x6C <= size -> 0x6C <= blen b ->
  in_u 32 (sd_caps data) -> in_u 32 (sd_width data) -> in_u 32 (sd_height data) -> in_u 32 (sd_backbuffer_count data) ->
  exists b', write_surface_desc data b = Ret b' /\
    ddraw_parse_surface_desc b' = Ret (mkDescArgs (sd_caps data) (sd_width data) (sd_height data) (sd_backbuffer_count data)).
Proof.
  intros Hs Hsz Hb H1 H2 H3 H4. unfold write_surface_desc, ddraw_write_desc_v2. rewrite Hs. cbn [mbind outcome_bind]. cbv zeta.
  replace (size =? sizeof_desc1) with false by (unfold sizeof_desc1; lia).
  replace (write_size size) with sizeof_desc by (unfold write_size, sizeof_desc; repeat case_match; lia).
  change (4 <=? sizeof_desc) with true. change (0x68 <=? sizeof_desc) with true. cbn iota.
  match goal with |- exists b', ?m = Ret b' /\ _ => set (mm := m) end.
  assert (Hg : gives (blen b) mm).
  { subst mm. unfold OFF_dwCaps, OFF_lpSurface, OFF_dwHeight, OFF_dwWidth, OFF_dwBackBufferCount, OFF_lPitch, OFF_ddFlags, OFF_ddSize.
    gives_tac. }
  assert (Hw : word_of mm OFF_ddSize = Ret (u32 sizeof_desc) /\ word_of mm OFF_dwCaps = Ret (u32 (sd_caps data)) /\
    word_of mm OFF_dwWidth = Ret (u32 (sd_width data)) /\ word_of mm OFF_dwHeight = Ret (u32 (sd_height data)) /\
    word_of mm OFF_dwBackBufferCount = Ret (u32 (sd_backbuffer_count data))).
  { subst mm. unfold OFF_dwCaps, OFF_lpSurface, OFF_dwHeight, OFF_dwWidth, OFF_dwBackBufferCount, OFF_lPitch, OFF_ddFlags, OFF_ddSize in *.
    split_and!; words (blen b); done. }
  clearbody mm. destruct Hg as (b' & -> & Hl). exists b'. split; [done|]. unfold word_of in Hw. cbn [mbind outcome_bind] in Hw.
  destruct Hw as (E0 & E1 & E2 & E3 & E4). unfold ddraw_parse_surface_desc. rewrite E0. cbn [mbind outcome_bind].
  change (u32 sizeof_desc =? sizeof_desc1) with false. cbn iota. rewrite E1, E2, E3, E4. cbn [mbind outcome_bind].
  by rewrite !wrap_small.
Qed.

(** ** Concrete inputs *)

Definition demo_data : ddraw_surface_desc_data_t := mkDescData 0x218 640 640 480 1 0x1000 0x80F.
Definition guest_block (size : Z) : bytes := le_split 4 size ++ replicate (Z.to_nat (size - 4)) 0xAA.

Lemma surface_desc_fits_block_witness : exists b', write_surface_desc demo_data (guest_block 0x6C) = Ret b' /\ blen b' = 0x6C.
Proof. apply (surface_desc_fits_block demo_data (guest_block 0x6C)); [vm_compute; reflexivity|]. right. right. vm_compute. discriminate. Defined.

Lemma surface_desc_roundtrip_witness :
  exists b', write_surface_desc demo_data (guest_block 0x6C) = Ret b' /\ ddraw_parse_surface_desc b' = Ret (mkDescArgs 0x218 640 480 1).
Proof.
  apply (surface_desc_roundtrip demo_data (guest_block 0x6C) 0x6C); [vm_compute; reflexivity|done|vm_compute; discriminate|..]; done.
Defined.

(** In the first layout the height is written over the width, and the width that is read
    back is the pitch. *)
Example first_layout_width_lost :
  (b ← write_surface_desc (mkDescData 0x40 2560 640 480 0 0 0xF) (guest_block 0x24); ddraw_parse_surface_desc b)
  = Ret (mkDescArgs 0x40 2560 480 0).
Proof. vm_compute. reflexivity. Qed.

(** A block of 32 bytes, the smallest size that the writer knows, is written past its
    end, and so is one of 104 bytes. *)
Example small_block_overrun :
  write_surface_desc demo_data (guest_block 0x20) = Fault /\ write_surface_desc demo_data (guest_block 0x68) = Fault.
Proof. split; vm_compute; reflexivity. Qed.
