(* ===== verification/DDraw.v ===== *)
(** * DirectDraw (src/msvcrt/ddraw_core.c, ddraw_interface.c, ddraw_mode.c, ddraw_backend.c,
      ddraw_surface.c, ddraw_surface_create.c, ddraw_surface_ops.c, ddraw_palette.c,
      ddraw_clipper.c)

    The four COM objects of DirectDraw.  Objects live in heaps that the guest's pointers
    index, and an access to a freed one is a fault.  The render backend and user32's
    windows are reached through the class [DdBackend], the requests that DirectDraw makes;
    the backend is linked in, so the tests of its weak symbols succeed.  malloc is a
    parameter.  The traces of ddraw_debug_counter are not represented. *)
From S2P Require Import Prelude Bytes DDrawDesc.

Inductive ddresult :=
| DD_OK | DDERR_OUTOFMEMORY | DDERR_UNSUPPORTED | DDERR_INVALIDPARAMS | DDERR_SURFACEBUSY | DDERR_UNSUPPORTEDMODE | DDERR_NOLOCKING
| DDERR_NOFLIP | DDERR_NOTLOCKED | DDERR_NOTFOUND | DDERR_NOCOOPERATIVELEVELSET | DDERR_SURFACEALREADYATTACHED
| DDERR_NOCLIPPERATTACHED | DDERR_NOAGGREGATION.
#[export] Instance ddresult_eq_dec : EqDecision ddresult.
Proof. solve_decision. Defined.

Definition DDSCAPS_BACKBUFFER : Z := 0x4.
Definition DDSCAPS_FLIP : Z := 0x10.
Definition DDSCAPS_OFFSCREENPLAIN : Z := 0x40.
Definition DDSCAPS_PRIMARYSURFACE : Z := 0x200.
Definition DDSCL_NORMAL : Z := 0.
Definition DDSCL_EXCLUSIVE : Z := 1.
Definition DDSCL_FULLSCREEN : Z := 2.
Definition DDBLT_COLORFILL : Z := 0x400.
Definition DDPCAPS_4BIT : Z := 0x1.
Definition DDPCAPS_1BIT : Z := 0x100.
Definition DDPCAPS_2BIT : Z := 0x200.
Definition flag (x bits : Z) : bool := negb (Z.land x bits =? 0).

(** ** The backend *)

Record rb_rect_t := mkRect { r_x : Z; r_y : Z; r_w : Z; r_h : Z }.

(** What DirectDraw asks of the backend and of user32, with the type of the answer. *)
Inductive dd_req : Type -> Type :=
| Rb_init : dd_req Z
(** The backend's window of a guest's window. *)
| Entry_window (hwnd : Z) : dd_req (option Z)
| Window_create (w h : Z) : dd_req Z
| Window_set_fullscreen (win : Z) (fullscreen : bool) (w h bpp : Z) : dd_req Z
| Window_destroy (win : Z) : dd_req Z
(** The backbuffer field of the structure behind a handle of a window. *)
| Window_backbuffer (win : Z) : dd_req (option Z)
| Window_set_backbuffer (win surf : Z) : dd_req unit
| Surface_create (w h format palette flags : Z) : dd_req Z
| Surface_create_flip_chain (win w h format palette backbuffer_count : Z) : dd_req Z
| Surface_destroy (surf : Z) : dd_req Z
(** The result, the pointer and the pitch. *)
| Surface_lock (surf : Z) (rect : option rb_rect_t) : dd_req (Z * Z * Z)
| Surface_unlock (surf : Z) : dd_req Z
| Surface_blt (dst : Z) (dst_rect : option rb_rect_t) (src : Z) (src_rect : option rb_rect_t) (color flags : Z) : dd_req Z
| Surface_flip (surf : Z) : dd_req Z
| Surface_set_palette (surf pal : Z) : dd_req Z
(** The width, the height and the pitch, None for a failure. *)
| Surface_get_desc (surf : Z) : dd_req (option (Z * Z * Z))
| Palette_create (num_colors : Z) : dd_req Z
| Palette_destroy (pal : Z) : dd_req Z
| Palette_set_colors (pal start count : Z) (colors : list Z) : dd_req Z
(** The result and the caller's array after the call. *)
| Palette_get_colors (pal start count : Z) (colors : list Z) : dd_req (Z * list Z).

Class DdBackend (H : Type) := dd_call : forall {R}, dd_req R -> H -> outcome (R * H).

Definition RB_OK : Z := 0.
Definition RB_FORMAT_8BIT : Z := 8.
Definition RB_FORMAT_15BIT : Z := 15.
Definition RB_FORMAT_16BIT : Z := 16.
Definition RB_FORMAT_32BIT : Z := 32.
Definition RB_SURFACE_OFFSCREEN : Z := 2.
Definition RB_SURFACE_PRIMARY : Z := 4.
Definition RB_SURFACE_BACK : Z := 8.
Definition RB_BLT_SRCCOPY : Z := 1.
Definition RB_BLT_COLORFILL : Z := 2.

(** ** The objects *)

Record my_dd_t := mkDd {
  dd_ref_count : Z; dd_rb_window : Z; owns_window : bool; cooperative_hwnd : Z; cooperative_level : Z; is_exclusive : bool;
  current_mode_w : Z; current_mode_h : Z; current_mode_bpp : Z; primary_surface : Z;
  (** surface_list with the owner_list_next links *)
  surface_list : list Z }.

Record my_surface_t := mkSurface {
  su_ref_count : Z; su_rb_surface : Z; su_caps : Z; su_width : Z; su_height : Z; su_pitch : Z; su_locked : bool; su_dd_owner : Z;
  su_next : Z; su_palette : Z; su_clipper : Z }.

Record my_palette_t := mkPal { pl_ref_count : Z; pl_rb_palette : Z; pl_num_colors : Z; pl_caps : Z }.
Record my_clipper_t := mkClipper { cl_ref_count : Z; cl_hWnd : Z }.

Definition dd_set_ref (n : Z) (d : my_dd_t) : my_dd_t :=
  mkDd n (dd_rb_window d) (owns_window d) (cooperative_hwnd d) (cooperative_level d) (is_exclusive d) (current_mode_w d)
    (current_mode_h d) (current_mode_bpp d) (primary_surface d) (surface_list d).
Definition dd_set_window (w : Z) (owns : bool) (d : my_dd_t) : my_dd_t :=
  mkDd (dd_ref_count d) w owns (cooperative_hwnd d) (cooperative_level d) (is_exclusive d) (current_mode_w d)
    (current_mode_h d) (current_mode_bpp d) (primary_surface d) (surface_list d).
Definition dd_set_level (hwnd level : Z) (exclusive : bool) (d : my_dd_t) : my_dd_t :=
  mkDd (dd_ref_count d) (dd_rb_window d) (owns_window d) hwnd level exclusive (current_mode_w d)
    (current_mode_h d) (current_mode_bpp d) (primary_surface d) (surface_list d).
Definition dd_set_mode (w h bpp : Z) (d : my_dd_t) : my_dd_t :=
  mkDd (dd_ref_count d) (dd_rb_window d) (owns_window d) (cooperative_hwnd d) (cooperative_level d) (is_exclusive d) w h bpp
    (primary_surface d) (surface_list d).
Definition dd_set_primary (p : Z) (d : my_dd_t) : my_dd_t :=
  mkDd (dd_ref_count d) (dd_rb_window d) (owns_window d) (cooperative_hwnd d) (cooperative_level d) (is_exclusive d)
    (current_mode_w d) (current_mode_h d) (current_mode_bpp d) p (surface_list d).
Definition dd_set_list (l : list Z) (d : my_dd_t) : my_dd_t :=
  mkDd (dd_ref_count d) (dd_rb_window d) (owns_window d) (cooperative_hwnd d) (cooperative_level d) (is_exclusive d)
    (current_mode_w d) (current_mode_h d) (current_mode_bpp d) (primary_surface d) l.

Definition su_set_ref (n : Z) (x : my_surface_t) : my_surface_t :=
  mkSurface n (su_rb_surface x) (su_caps x) (su_width x) (su_height x) (su_pitch x) (su_locked x) (su_dd_owner x) (su_next x)
    (su_palette x) (su_clipper x).
Definition su_set_size (w h pitch : Z) (x : my_surface_t) : my_surface_t :=
  mkSurface (su_ref_count x) (su_rb_surface x) (su_caps x) w h pitch (su_locked x) (su_dd_owner x) (su_next x)
    (su_palette x) (su_clipper x).
Definition su_set_lock (locked : bool) (pitch : Z) (x : my_surface_t) : my_surface_t :=
  mkSurface (su_ref_count x) (su_rb_surface x) (su_caps x) (su_width x) (su_height x) pitch locked (su_dd_owner x) (su_next x)
    (su_palette x) (su_clipper x).
Definition su_set_owner (p : Z) (x : my_surface_t) : my_surface_t :=
  mkSurface (su_ref_count x) (su_rb_surface x) (su_caps x) (su_width x) (su_height x) (su_pitch x) (su_locked x) p (su_next x)
    (su_palette x) (su_clipper x).
Definition su_set_next (p : Z) (x : my_surface_t) : my_surface_t :=
  mkSurface (su_ref_count x) (su_rb_surface x) (su_caps x) (su_width x) (su_height x) (su_pitch x) (su_locked x) (su_dd_owner x) p
    (su_palette x) (su_clipper x).
Definition su_set_palette (p : Z) (x : my_surface_t) : my_surface_t :=
  mkSurface (su_ref_count x) (su_rb_surface x) (su_caps x) (su_width x) (su_height x) (su_pitch x) (su_locked x) (su_dd_owner x)
    (su_next x) p (su_clipper x).
Definition su_set_clipper (p : Z) (x : my_surface_t) : my_surface_t :=
  mkSurface (su_ref_count x) (su_rb_surface x) (su_caps x) (su_width x) (su_height x) (su_pitch x) (su_locked x) (su_dd_owner x)
    (su_next x) (su_palette x) p.

Definition pl_set_ref (n : Z) (x : my_palette_t) : my_palette_t := mkPal n (pl_rb_palette x) (pl_num_colors x) (pl_caps x).
Definition pl_set_caps (c : Z) (x : my_palette_t) : my_palette_t := mkPal (pl_ref_count x) (pl_rb_palette x) (pl_num_colors x) c.
Definition cl_set_ref (n : Z) (x : my_clipper_t) : my_clipper_t := mkClipper n (cl_hWnd x).
Definition cl_set_hwnd (h : Z) (x : my_clipper_t) : my_clipper_t := mkClipper (cl_ref_count x) h.

(** The heaps, the globals and the backend's state. *)
Record ddraw (H : Type) := mkDdraw {
  g_dd : gmap Z my_dd_t; g_surf : gmap Z my_surface_t; g_pal : gmap Z my_palette_t; g_clip : gmap Z my_clipper_t;
  g_ddraw_instance : Z; g_ddraw_backend_inited : bool; g_ddraw_backend_available : bool;
  fake_scanline : Z; poll_count : Z; fake_in_vblank : Z;
  g_host : H }.
Arguments mkDdraw {_} _ _ _ _ _ _ _ _ _ _ _.
Arguments g_dd {_} _. Arguments g_surf {_} _. Arguments g_pal {_} _. Arguments g_clip {_} _.
Arguments g_ddraw_instance {_} _. Arguments g_ddraw_backend_inited {_} _. Arguments g_ddraw_backend_available {_} _.
Arguments fake_scanline {_} _. Arguments poll_count {_} _. Arguments fake_in_vblank {_} _. Arguments g_host {_} _.

Section state.
Context {H : Type}.
Definition with_dd (m : gmap Z my_dd_t) (s : ddraw H) : ddraw H :=
  mkDdraw m (g_surf s) (g_pal s) (g_clip s) (g_ddraw_instance s) (g_ddraw_backend_inited s) (g_ddraw_backend_available s)
    (fake_scanline s) (poll_count s) (fake_in_vblank s) (g_host s).
Definition with_surf (m : gmap Z my_surface_t) (s : ddraw H) : ddraw H :=
  mkDdraw (g_dd s) m (g_pal s) (g_clip s) (g_ddraw_instance s) (g_ddraw_backend_inited s) (g_ddraw_backend_available s)
    (fake_scanline s) (poll_count s) (fake_in_vblank s) (g_host s).
Definition with_pal (m : gmap Z my_palette_t) (s : ddraw H) : ddraw H :=
  mkDdraw (g_dd s) (g_surf s) m (g_clip s) (g_ddraw_instance s) (g_ddraw_backend_inited s) (g_ddraw_backend_available s)
    (fake_scanline s) (poll_count s) (fake_in_vblank s) (g_host s).
Definition with_clip (m : gmap Z my_clipper_t) (s : ddraw H) : ddraw H :=
  mkDdraw (g_dd s) (g_surf s) (g_pal s) m (g_ddraw_instance s) (g_ddraw_backend_inited s) (g_ddraw_backend_available s)
    (fake_scanline s) (poll_count s) (fake_in_vblank s) (g_host s).
Definition with_instance (p : Z) (s : ddraw H) : ddraw H :=
  mkDdraw (g_dd s) (g_surf s) (g_pal s) (g_clip s) p (g_ddraw_backend_inited s) (g_ddraw_backend_available s)
    (fake_scanline s) (poll_count s) (fake_in_vblank s) (g_host s).
Definition with_backend (inited available : bool) (s : ddraw H) : ddraw H :=
  mkDdraw (g_dd s) (g_surf s) (g_pal s) (g_clip s) (g_ddraw_instance s) inited available
    (fake_scanline s) (poll_count s) (fake_in_vblank s) (g_host s).
Definition with_blank (scanline polls vblank : Z) (s : ddraw H) : ddraw H :=
  mkDdraw (g_dd s) (g_surf s) (g_pal s) (g_clip s) (g_ddraw_instance s) (g_ddraw_backend_inited s) (g_ddraw_backend_available s)
    scanline polls vblank (g_host s).
Definition with_host (g : H) (s : ddraw H) : ddraw H :=
  mkDdraw (g_dd s) (g_surf s) (g_pal s) (g_clip s) (g_ddraw_instance s) (g_ddraw_backend_inited s) (g_ddraw_backend_available s)
    (fake_scanline s) (poll_count s) (fake_in_vblank s) g.
End state.

(** ** Computations *)

Definition D (H A : Type) : Type := ddraw H -> outcome (A * ddraw H).
#[export] Instance D_ret H : MRet (D H) := fun _ a s => Ret (a, s).
#[export] Instance D_bind H : MBind (D H) := fun _ _ f m s => '(a, s) ← m s; f a s.

Section computations.
Context {H : Type}.
Definition get_state : D H (ddraw H) := fun s => Ret (s, s).
Definition modify (f : ddraw H -> ddraw H) : D H unit := fun s => Ret (tt, f s).
(** A value that an access may not find. *)
Definition lift {A} (m : outcome A) : D H A := fun s => a ← m; Ret (a, s).
Definition call `{DdBackend H} {R} (q : dd_req R) : D H R := fun s => '(r, g) ← dd_call q (g_host s); Ret (r, with_host g s).

(** The object that a pointer points to. *)
Definition dd_at (p : Z) : D H my_dd_t := s ← get_state; lift (deref (g_dd s !! p)).
Definition surf_at (p : Z) : D H my_surface_t := s ← get_state; lift (deref (g_surf s !! p)).
Definition pal_at (p : Z) : D H my_palette_t := s ← get_state; lift (deref (g_pal s !! p)).
Definition clip_at (p : Z) : D H my_clipper_t := s ← get_state; lift (deref (g_clip s !! p)).
(** An assignment to fields of the object. *)
Definition on_dd (p : Z) (f : my_dd_t -> my_dd_t) : D H unit := x ← dd_at p; modify (fun s => with_dd (<[p := f x]> (g_dd s)) s).
Definition on_surf (p : Z) (f : my_surface_t -> my_surface_t) : D H unit :=
  x ← surf_at p; modify (fun s => with_surf (<[p := f x]> (g_surf s)) s).
Definition on_pal (p : Z) (f : my_palette_t -> my_palette_t) : D H unit :=
  x ← pal_at p; modify (fun s => with_pal (<[p := f x]> (g_pal s)) s).
Definition on_clip (p : Z) (f : my_clipper_t -> my_clipper_t) : D H unit :=
  x ← clip_at p; modify (fun s => with_clip (<[p := f x]> (g_clip s)) s).
(** ddraw_free: the block must be allocated. *)
Definition free_dd (p : Z) : D H unit := _ ← dd_at p; modify (fun s => with_dd (delete p (g_dd s)) s).
Definition free_surf (p : Z) : D H unit := _ ← surf_at p; modify (fun s => with_surf (delete p (g_surf s)) s).
Definition free_pal (p : Z) : D H unit := _ ← pal_at p; modify (fun s => with_pal (delete p (g_pal s)) s).
Definition free_clip (p : Z) : D H unit := _ ← clip_at p; modify (fun s => with_clip (delete p (g_clip s)) s).

(** ref_count++ and if (ref_count > 0) ref_count--. *)
Definition inc (n : Z) : Z := u32 (n + 1).
Definition dec (n : Z) : Z := if 0 <? n then n - 1 else n.
Definition when (b : bool) (m : D H unit) : D H unit := if b then m else mret tt.
End computations.

Definition ddraw_guest_ptr_valid (ptr : Z) : bool := 0x10000 <? ptr.

Definition ddraw_bpp_to_format (bpp : Z) : Z :=
  if bpp =? 8 then RB_FORMAT_8BIT else if bpp =? 15 then RB_FORMAT_15BIT else if bpp =? 16 then RB_FORMAT_16BIT
  else if bpp =? 32 then RB_FORMAT_32BIT else RB_FORMAT_8BIT.

Definition ddraw_palette_color_count (flags : Z) : Z :=
  if flag flags DDPCAPS_1BIT then 2 else if flag flags DDPCAPS_2BIT then 4 else if flag flags DDPCAPS_4BIT then 16 else 256.

Record DDPALETTEENTRY := mkPalEntry { peRed : Z; peGreen : Z; peBlue : Z; peFlags : Z }.
Definition pack_color (e : DDPALETTEENTRY) : Z :=
  Z.lor (Z.lor (Z.shiftl (peBlue e) 16) (Z.shiftl (peGreen e) 8)) (peRed e).
Definition unpack_color (c : Z) : DDPALETTEENTRY :=
  mkPalEntry (Z.land c 0xFF) (Z.land (Z.shiftr c 8) 0xFF) (Z.land (Z.shiftr c 16) 0xFF) 0.

(** The first [count] elements of an array, a fault past its end. *)
Definition read_array {X} (count : Z) (l : list X) : outcome (list X) :=
  if count <=? Z.of_nat (length l) then Ret (take (Z.to_nat count) l) else Fault.
Definition ddraw_palette_pack_colors (entries : list DDPALETTEENTRY) (count : Z) : outcome (list Z) :=
  l ← read_array count entries; Ret (fmap (M := list) pack_color l).

Record DDRECT := mkDDRect { d_left : Z; d_top : Z; d_right : Z; d_bottom : Z }.
Definition ddraw_rect_to_rb (r : DDRECT) : rb_rect_t :=
  mkRect (i32 (d_left r)) (i32 (d_top r)) (i32 (u32 (d_right r - d_left r))) (i32 (u32 (d_bottom r - d_top r))).

Section ddraw.
Context {H : Type} {B : DdBackend H}.
(** malloc, for surfaces and for the other objects. *)
Variable malloc_surface : ddraw H -> option Z.
Variable malloc : ddraw H -> option Z.
(** What the stack holds where palette_GetEntries puts its array of 256 colours. *)
Variable junk : list Z.

(** *** Clippers *)

Definition ddraw_clipper_create (dd : Z) (out : bool) : D H (ddresult * Z) :=
  if (dd =? 0) || negb out then mret (DDERR_INVALIDPARAMS, 0)
  else
    s ← get_state;
    match malloc s with
    | None => mret (DDERR_OUTOFMEMORY, 0)
    | Some p => _ ← modify (fun s => with_clip (<[p := mkClipper 1 0]> (g_clip s)) s); mret (DD_OK, p)
    end.

Definition ddraw_clipper_add_ref (p : Z) : D H Z :=
  if p =? 0 then mret 0
  else _ ← on_clip p (fun x => cl_set_ref (inc (cl_ref_count x)) x); x ← clip_at p; mret (cl_ref_count x).

Definition ddraw_clipper_release (p : Z) : D H Z :=
  if p =? 0 then mret 0
  else
    _ ← on_clip p (fun x => cl_set_ref (dec (cl_ref_count x)) x);
    x ← clip_at p;
    _ ← when (cl_ref_count x =? 0) (free_clip p);
    mret (cl_ref_count x).

Definition clipper_QueryInterface (p : Z) (known : bool) : D H (ddresult * Z) :=
  if p =? 0 then mret (DDERR_INVALIDPARAMS, 0)
  else if known then _ ← on_clip p (fun x => cl_set_ref (inc (cl_ref_count x)) x); mret (DD_OK, p)
  else mret (DDERR_UNSUPPORTED, 0).
Definition clipper_SetHWnd (p hWnd : Z) : D H ddresult :=
  if p =? 0 then mret DDERR_INVALIDPARAMS else _ ← on_clip p (cl_set_hwnd hWnd); mret DD_OK.
Definition clipper_GetHWnd (p : Z) (out : bool) : D H (ddresult * Z) :=
  if (p =? 0) || negb out then mret (DDERR_INVALIDPARAMS, 0) else x ← clip_at p; mret (DD_OK, cl_hWnd x).

Definition ddraw_surface_clear_clipper (p : Z) : D H unit :=
  if p =? 0 then mret tt
  else
    x ← surf_at p;
    if su_clipper x =? 0 then mret tt
    else _ ← ddraw_clipper_release (su_clipper x); on_surf p (su_set_clipper 0).

Definition ddraw_surface_set_clipper (p clipper : Z) : D H ddresult :=
  if p =? 0 then mret DDERR_INVALIDPARAMS
  else
    x ← surf_at p;
    if clipper =? su_clipper x then mret DD_OK
    else
      _ ← ddraw_surface_clear_clipper p;
      _ ← on_surf p (su_set_clipper clipper);
      _ ← when (negb (clipper =? 0)) (_ ← ddraw_clipper_add_ref clipper; mret tt);
      mret DD_OK.

Definition ddraw_surface_get_clipper (p : Z) (out : bool) : D H (ddresult * Z) :=
  if (p =? 0) || negb out then mret (DDERR_INVALIDPARAMS, 0)
  else
    x ← surf_at p;
    if su_clipper x =? 0 then mret (DDERR_NOCLIPPERATTACHED, 0)
    else _ ← ddraw_clipper_add_ref (su_clipper x); mret (DD_OK, su_clipper x).

(** *** Palettes *)

Definition ddraw_destroy_palette (p : Z) : D H unit :=
  x ← pal_at p;
  _ ← when (negb (pl_rb_palette x =? 0)) (_ ← call (Palette_destroy (pl_rb_palette x)); mret tt);
  free_pal p.

Definition ddraw_palette_create (dd flags : Z) (entries : option (list DDPALETTEENTRY)) (out : bool) : D H (ddresult * Z) :=
  if (dd =? 0) || negb out then mret (DDERR_INVALIDPARAMS, 0)
  else
    let count := ddraw_palette_color_count flags in
    rb_pal ← call (Palette_create count);
    if rb_pal =? 0 then mret (DDERR_OUTOFMEMORY, 0)
    else
      s ← get_state;
      match malloc s with
      | None => _ ← call (Palette_destroy rb_pal); mret (DDERR_OUTOFMEMORY, 0)
      | Some p =>
          _ ← modify (fun s => with_pal (<[p := mkPal 1 rb_pal count flags]> (g_pal s)) s);
          _ ← match entries with
              | None => mret tt
              | Some entries =>
                  colors ← lift (ddraw_palette_pack_colors entries count);
                  _ ← call (Palette_set_colors rb_pal 0 count colors); mret tt
              end;
          mret (DD_OK, p)
      end.

Definition ddraw_palette_add_ref (p : Z) : D H Z :=
  if p =? 0 then mret 0
  else _ ← on_pal p (fun x => pl_set_ref (inc (pl_ref_count x)) x); x ← pal_at p; mret (pl_ref_count x).

Definition ddraw_palette_release (p : Z) : D H Z :=
  if p =? 0 then mret 0
  else
    _ ← on_pal p (fun x => pl_set_ref (dec (pl_ref_count x)) x);
    x ← pal_at p;
    if negb (pl_ref_count x =? 0) then mret (pl_ref_count x)
    else _ ← ddraw_destroy_palette p; mret 0.

Definition palette_QueryInterface (p : Z) (known : bool) : D H (ddresult * Z) :=
  if p =? 0 then mret (DDERR_INVALIDPARAMS, 0)
  else if known then _ ← on_pal p (fun x => pl_set_ref (inc (pl_ref_count x)) x); mret (DD_OK, p)
  else mret (DDERR_UNSUPPORTED, 0).
Definition palette_GetCaps (p : Z) (out : bool) : D H (ddresult * Z) :=
  if (p =? 0) || negb out then mret (DDERR_INVALIDPARAMS, 0) else x ← pal_at p; mret (DD_OK, pl_caps x).
Definition palette_Initialize (p dwFlags : Z) : D H ddresult :=
  if p =? 0 then mret DDERR_INVALIDPARAMS else _ ← on_pal p (pl_set_caps dwFlags); mret DD_OK.

(** dwCount limited to the size of the palette. *)
Definition entry_count (count : Z) (x : my_palette_t) : Z := if pl_num_colors x <? count then pl_num_colors x else count.

(** The entries that the guest gets. *)
Definition palette_GetEntries (p dwStart dwCount : Z) (out : bool) : D H (ddresult * list DDPALETTEENTRY) :=
  if (p =? 0) || negb out then mret (DDERR_INVALIDPARAMS, [])
  else
    x ← pal_at p;
    let count := entry_count dwCount x in
    '(ret, colors) ← call (Palette_get_colors (pl_rb_palette x) dwStart count junk);
    if negb (ret =? RB_OK) then mret (DDERR_INVALIDPARAMS, [])
    else l ← lift (read_array count colors); mret (DD_OK, fmap (M := list) unpack_color l).

Definition palette_SetEntries (p dwStart dwCount : Z) (entries : option (list DDPALETTEENTRY)) : D H ddresult :=
  match entries with
  | None => mret DDERR_INVALIDPARAMS
  | Some entries =>
      if p =? 0 then mret DDERR_INVALIDPARAMS
      else
        x ← pal_at p;
        let count := entry_count dwCount x in
        colors ← lift (ddraw_palette_pack_colors entries count);
        ret ← call (Palette_set_colors (pl_rb_palette x) dwStart count colors);
        mret (if ret =? RB_OK then DD_OK else DDERR_INVALIDPARAMS)
  end.

(** *** Lifetime of surfaces *)

(** The walk along the list to the surface: the nodes before it are read. *)
Fixpoint unlink_walk (surf : Z) (l : list Z) (m : gmap Z my_surface_t) : outcome (list Z) :=
  match l with
  | [] => Ret []
  | q :: l => if q =? surf then Ret l else _ ← deref (m !! q); r ← unlink_walk surf l m; Ret (q :: r)
  end.
Definition ddraw_unlink_surface_from_owner (p : Z) : D H unit :=
  if p =? 0 then mret tt
  else
    x ← surf_at p;
    if su_dd_owner x =? 0 then mret tt
    else
      d ← dd_at (su_dd_owner x);
      s ← get_state;
      l ← lift (unlink_walk p (surface_list d) (g_surf s));
      _ ← on_dd (su_dd_owner x) (dd_set_list l);
      on_surf p (su_set_owner 0).

(** [release] is ddraw_surface_release. *)
Definition ddraw_destroy_surface (release : Z -> D H Z) (p : Z) : D H unit :=
  if p =? 0 then mret tt
  else
    x ← surf_at p;
    _ ← when (negb (su_next x =? 0)) (_ ← on_surf p (su_set_next 0); _ ← release (su_next x); mret tt);
    x ← surf_at p;
    _ ← when (negb (su_palette x =? 0)) (_ ← on_surf p (su_set_palette 0); _ ← ddraw_palette_release (su_palette x); mret tt);
    _ ← ddraw_surface_clear_clipper p;
    _ ← ddraw_unlink_surface_from_owner p;
    x ← surf_at p;
    _ ← when (negb (su_rb_surface x =? 0)) (_ ← call (Surface_destroy (su_rb_surface x)); mret tt);
    free_surf p.

Definition ddraw_surface_alloc (dd rb caps : Z) : D H Z :=
  s ← get_state;
  match malloc_surface s with
  | None => mret 0
  | Some p =>
      _ ← modify (fun s => with_surf (<[p := mkSurface 1 rb caps 0 0 0 false dd 0 0 0]> (g_surf s)) s);
      _ ← when (negb (dd =? 0)) (on_dd dd (fun d => dd_set_list (p :: surface_list d) d));
      mret p
  end.

Definition ddraw_surface_add_ref (p : Z) : D H Z :=
  if p =? 0 then mret 0
  else _ ← on_surf p (fun x => su_set_ref (inc (su_ref_count x)) x); x ← surf_at p; mret (su_ref_count x).

(** The depth of the recursion along the attached surfaces is bounded by [fuel]; the stack
    overflows beyond it. *)
Fixpoint surface_release (fuel : nat) (p : Z) : D H Z :=
  match fuel with
  | O => lift Fault
  | S fuel =>
      if p =? 0 then mret 0
      else
        _ ← on_surf p (fun x => su_set_ref (dec (su_ref_count x)) x);
        x ← surf_at p;
        if negb (su_ref_count x =? 0) then mret (su_ref_count x)
        else
          _ ← when (negb (su_dd_owner x =? 0))
                (d ← dd_at (su_dd_owner x); when (primary_surface d =? p) (on_dd (su_dd_owner x) (dd_set_primary 0)));
          _ ← ddraw_destroy_surface (surface_release fuel) p;
          mret 0
  end.
Definition ddraw_surface_release (p : Z) : D H Z := s ← get_state; surface_release (S (size (g_surf s))) p.

(** *** The DirectDraw object *)

Definition ddraw_create_instance : D H Z :=
  s ← get_state;
  match malloc s with
  | None => mret 0
  | Some p =>
      _ ← modify (fun s => with_instance p (with_dd (<[p := mkDd 1 0 false 0 DDSCL_NORMAL false 320 200 8 0 []]> (g_dd s)) s));
      mret p
  end.

Definition DirectDrawCreate (out outer_null : bool) : D H (ddresult * Z) :=
  if negb out then mret (DDERR_INVALIDPARAMS, 0)
  else if negb outer_null then mret (DDERR_NOAGGREGATION, 0)
  else dd ← ddraw_create_instance; mret (if dd =? 0 then DDERR_OUTOFMEMORY else DD_OK, dd).

Definition ddraw_query_interface (p : Z) (known : bool) : D H (ddresult * Z) :=
  if p =? 0 then mret (DDERR_INVALIDPARAMS, 0)
  else if known then _ ← on_dd p (fun d => dd_set_ref (inc (dd_ref_count d)) d); mret (DD_OK, p)
  else mret (DDERR_UNSUPPORTED, 0).

Definition ddraw_add_ref (p : Z) : D H Z :=
  if p =? 0 then mret 0
  else _ ← on_dd p (fun d => dd_set_ref (inc (dd_ref_count d)) d); d ← dd_at p; mret (dd_ref_count d).

Fixpoint disown (l : list Z) : D H unit :=
  match l with
  | [] => mret tt
  | q :: l => _ ← on_surf q (su_set_owner 0); disown l
  end.

Definition ddraw_release (p : Z) : D H Z :=
  if p =? 0 then mret 0
  else
    _ ← on_dd p (fun d => dd_set_ref (dec (dd_ref_count d)) d);
    d ← dd_at p;
    if negb (dd_ref_count d =? 0) then mret (dd_ref_count d)
    else
      _ ← disown (surface_list d);
      _ ← on_dd p (dd_set_list []);
      d ← dd_at p;
      _ ← when (negb (primary_surface d =? 0))
            (_ ← on_dd p (dd_set_primary 0); _ ← ddraw_surface_release (primary_surface d); mret tt);
      d ← dd_at p;
      _ ← when (owns_window d && negb (dd_rb_window d =? 0)) (_ ← call (Window_destroy (dd_rb_window d)); mret tt);
      s ← get_state;
      _ ← when (g_ddraw_instance s =? p) (modify (with_instance 0));
      _ ← free_dd p;
      mret 0.

Definition ddraw_ensure_backend : D H bool :=
  s ← get_state;
  _ ← when (negb (g_ddraw_backend_inited s)) (r ← call Rb_init; modify (with_backend true (r =? 0)));
  s ← get_state;
  mret (g_ddraw_backend_available s).

Definition ddraw_SetCooperativeLevel (p hwnd flags : Z) : D H ddresult :=
  if p =? 0 then mret DDERR_INVALIDPARAMS
  else
    _ ← on_dd p (dd_set_level hwnd flags (flag flags (Z.lor DDSCL_FULLSCREEN DDSCL_EXCLUSIVE)));
    entry ← call (Entry_window hwnd);
    _ ← match (entry : option Z) with
        | None => mret tt
        | Some w => on_dd p (fun d => dd_set_window w (owns_window d) d)
        end;
    mret DD_OK.

Definition ddraw_SetDisplayMode (p width height bpp : Z) : D H ddresult :=
  if p =? 0 then mret DDERR_INVALIDPARAMS
  else if (width =? 0) || (height =? 0) || (8192 <? width) || (8192 <? height) || (32 <? bpp) then mret DDERR_UNSUPPORTEDMODE
  else
    d ← dd_at p;
    _ ← when (cooperative_hwnd d =? 0) (on_dd p (fun d => dd_set_level (cooperative_hwnd d) DDSCL_NORMAL (is_exclusive d) d));
    ok ← ddraw_ensure_backend;
    if negb ok then mret DDERR_UNSUPPORTED
    else
      _ ← on_dd p (dd_set_mode width height bpp);
      d ← dd_at p;
      _ ← when (dd_rb_window d =? 0)
            (w ← call (Window_create (i32 width) (i32 height));
             on_dd p (fun d => dd_set_window w (if negb (w =? 0) then true else owns_window d) d));
      d ← dd_at p;
      _ ← when (negb (dd_rb_window d =? 0))
            (_ ← call (Window_set_fullscreen (dd_rb_window d) (is_exclusive d) (i32 width) (i32 height) (i32 bpp)); mret tt);
      mret DD_OK.

Definition ddraw_CreatePalette (p flags : Z) (entries : option (list DDPALETTEENTRY)) (out : bool) : D H (ddresult * Z) :=
  if (p =? 0) || negb out then mret (DDERR_INVALIDPARAMS, 0)
  else ok ← ddraw_ensure_backend; if negb (ok : bool) then mret (DDERR_UNSUPPORTED, 0) else ddraw_palette_create p flags entries out.

Definition ddraw_get_gdi_surface (p lpSurface : Z) : D H (ddresult * Z) :=
  if (p =? 0) || negb (ddraw_guest_ptr_valid lpSurface) then mret (DDERR_INVALIDPARAMS, 0)
  else
    d ← dd_at p;
    if primary_surface d =? 0 then mret (DDERR_NOTFOUND, 0)
    else _ ← ddraw_surface_add_ref (primary_surface d); mret (DD_OK, primary_surface d).

Definition ddraw_get_display_mode (p ptr : Z) (ddsd : bytes) : D H (ddresult * bytes) :=
  if (p =? 0) || negb (ddraw_guest_ptr_valid ptr) then mret (DDERR_INVALIDPARAMS, ddsd)
  else
    d ← dd_at p;
    b ← lift (ddraw_init_display_mode_desc (current_mode_w d) (current_mode_h d) DDSCAPS_PRIMARYSURFACE ddsd);
    mret (DD_OK, b).

Definition ddraw_get_scan_line (out : bool) : D H (ddresult * Z) :=
  if negb out then mret (DD_OK, 0)
  else
    s ← get_state;
    _ ← modify (fun s => with_blank (u32 (fake_scanline s + 1)) (poll_count s) (fake_in_vblank s) s);
    mret (DD_OK, fake_scanline s mod 449).

(** The value, and whether the call sleeps. *)
Definition ddraw_get_vertical_blank_status : D H (ddresult * Z * bool) :=
  _ ← modify (fun s => with_blank (fake_scanline s) (u32 (poll_count s + 1)) (Z.lxor (fake_in_vblank s) 1) s);
  s ← get_state;
  mret (DD_OK, fake_in_vblank s, Z.land (poll_count s) 63 =? 0).

(** *** Creating surfaces *)

Definition ddraw_create_flip_chain_surface (dd width height backbuffers caps : Z) : D H (ddresult * Z * Z) :=
  d ← dd_at dd;
  let fmt := ddraw_bpp_to_format (current_mode_bpp d) in
  rb_primary ← call (Surface_create_flip_chain (dd_rb_window d) (i32 width) (i32 height) fmt 0 (i32 backbuffers));
  if rb_primary =? 0 then mret (DDERR_OUTOFMEMORY, 0, 0)
  else
    primary ← ddraw_surface_alloc dd rb_primary caps;
    if primary =? 0 then mret (DDERR_OUTOFMEMORY, 0, 0)
    else
      wnd ← call (Window_backbuffer (dd_rb_window d));
      rb_backbuffer ←
        match (wnd : option Z) with
        | None => mret 0
        | Some b =>
            if negb (b =? 0) then mret b
            else
              rb ← call (Surface_create (i32 width) (i32 height) fmt 0 RB_SURFACE_BACK);
              _ ← when (negb (rb =? 0)) (call (Window_set_backbuffer (dd_rb_window d) rb));
              mret rb
        end;
      backbuffer ← (if rb_backbuffer =? 0 then mret (Some 0)
                    else
                      b ← ddraw_surface_alloc dd rb_backbuffer (Z.lor DDSCAPS_BACKBUFFER DDSCAPS_FLIP);
                      if b =? 0 then
                        _ ← free_surf primary;
                        _ ← call (Surface_destroy rb_primary);
                        mret None
                      else _ ← on_surf primary (su_set_next b); mret (Some b));
      match (backbuffer : option Z) with
      | None => mret (DDERR_OUTOFMEMORY, 0, 0)
      | Some b =>
          _ ← on_dd dd (dd_set_primary primary);
          _ ← on_surf primary (fun x => su_set_ref (inc (su_ref_count x)) x);
          mret (DD_OK, primary, b)
      end.

Definition ddraw_create_regular_surface (dd width height caps : Z) : D H (ddresult * Z) :=
  let rb_flags := Z.lor (if flag caps DDSCAPS_PRIMARYSURFACE then RB_SURFACE_PRIMARY else 0)
                    (if flag caps DDSCAPS_OFFSCREENPLAIN then RB_SURFACE_OFFSCREEN else 0) in
  d ← dd_at dd;
  rb_primary ← call (Surface_create (i32 width) (i32 height) (ddraw_bpp_to_format (current_mode_bpp d)) 0 rb_flags);
  if rb_primary =? 0 then mret (DDERR_OUTOFMEMORY, 0)
  else
    primary ← ddraw_surface_alloc dd rb_primary caps;
    if primary =? 0 then _ ← call (Surface_destroy rb_primary); mret (DDERR_OUTOFMEMORY, 0)
    else
      _ ← when (flag caps DDSCAPS_PRIMARYSURFACE)
            (_ ← on_dd dd (dd_set_primary primary); on_surf primary (fun x => su_set_ref (inc (su_ref_count x)) x));
      mret (DD_OK, primary).

Definition ddraw_init_surface_geometry (p width height : Z) : D H unit :=
  if p =? 0 then mret tt else on_surf p (su_set_size width height (i32 width)).

Definition ddraw_create_surface_from_desc (dd : Z) (ddsd : option bytes) (out : bool) : D H (ddresult * Z) :=
  match ddsd with
  | None => mret (DDERR_INVALIDPARAMS, 0)
  | Some ddsd =>
      if (dd =? 0) || negb out then mret (DDERR_INVALIDPARAMS, 0)
      else
        ok ← ddraw_ensure_backend;
        if negb (ok : bool) then mret (DDERR_UNSUPPORTED, 0)
        else
          a ← lift (ddraw_parse_surface_desc ddsd);
          d ← dd_at dd;
          let caps := da_caps a in
          let width := if da_width a =? 0 then current_mode_w d else da_width a in
          let height := if da_height a =? 0 then current_mode_h d else da_height a in
          if flag caps DDSCAPS_PRIMARYSURFACE && (dd_rb_window d =? 0) then mret (DDERR_NOCOOPERATIVELEVELSET, 0)
          else if flag caps DDSCAPS_PRIMARYSURFACE && flag caps DDSCAPS_FLIP then
            '(hr, primary, backbuffer) ← ddraw_create_flip_chain_surface dd width height (da_backbuffers a) caps;
            if negb (bool_decide (hr = DD_OK)) then mret (hr, 0)
            else
              _ ← ddraw_init_surface_geometry primary width height;
              _ ← ddraw_init_surface_geometry backbuffer width height;
              mret (DD_OK, primary)
          else
            '(hr, primary) ← ddraw_create_regular_surface dd width height caps;
            if negb (bool_decide (hr = DD_OK)) then mret (hr, 0)
            else _ ← ddraw_init_surface_geometry primary width height; mret (DD_OK, primary)
  end.

(** *** Operations on surfaces *)

Definition surface_QueryInterface (p : Z) (known : bool) : D H (ddresult * Z) :=
  if p =? 0 then mret (DDERR_INVALIDPARAMS, 0)
  else if known then _ ← ddraw_surface_add_ref p; mret (DD_OK, p)
  else mret (DDERR_UNSUPPORTED, 0).

Definition surface_AddAttachedSurface (p attached : Z) : D H ddresult :=
  if (p =? 0) || (attached =? 0) then mret DDERR_INVALIDPARAMS
  else
    x ← surf_at p;
    if negb (su_next x =? 0) then mret DDERR_SURFACEALREADYATTACHED
    else
      _ ← ddraw_surface_add_ref attached;
      _ ← on_surf p (su_set_next attached);
      mret DD_OK.

Definition surface_DeleteAttachedSurface (p attached : Z) : D H ddresult :=
  if (p =? 0) || (attached =? 0) then mret DDERR_INVALIDPARAMS
  else
    x ← surf_at p;
    if negb (su_next x =? attached) then mret DDERR_INVALIDPARAMS
    else
      _ ← on_surf p (su_set_next 0);
      _ ← ddraw_surface_release attached;
      mret DD_OK.

(** *lpDDSCaps is [caps]. *)
Definition surface_GetAttachedSurface (p caps : Z) (out : bool) : D H (ddresult * Z) :=
  if (p =? 0) || negb out then mret (DDERR_INVALIDPARAMS, 0)
  else
    x ← surf_at p;
    if flag caps DDSCAPS_BACKBUFFER && negb (su_next x =? 0) then
      _ ← ddraw_surface_add_ref (su_next x); mret (DD_OK, su_next x)
    else mret (DDERR_NOTFOUND, 0).

(** [fx] is lpDDBltFX->pDDDestRGB. *)
Definition surface_Blt (dst : Z) (dest_rect : option DDRECT) (src : Z) (src_rect : option DDRECT) (dwFlags : Z) (fx : option Z)
  : D H ddresult :=
  if dst =? 0 then mret DDERR_INVALIDPARAMS
  else
    let fill := flag dwFlags DDBLT_COLORFILL in
    let color := if fill then default 0 fx else 0 in
    x ← surf_at dst;
    rb_src ← (if src =? 0 then mret 0 else y ← surf_at src; mret (su_rb_surface y));
    r ← call (Surface_blt (su_rb_surface x) (fmap (M := option) ddraw_rect_to_rb dest_rect) rb_src
                (fmap (M := option) ddraw_rect_to_rb src_rect) color (if fill then RB_BLT_COLORFILL else RB_BLT_SRCCOPY));
    mret (if negb (r =? RB_OK) then DDERR_UNSUPPORTED else DD_OK).

Definition surface_BltFast (p dwX dwY src : Z) (src_rect : option DDRECT) : D H ddresult :=
  if src =? 0 then mret DDERR_INVALIDPARAMS
  else
    src_rect ← match src_rect with
               | Some r => mret r
               | None => y ← surf_at src; mret (mkDDRect 0 0 (su_width y) (su_height y))
               end;
    let dst_rect := mkDDRect dwX dwY (u32 (dwX + u32 (d_right src_rect - d_left src_rect)))
                      (u32 (dwY + u32 (d_bottom src_rect - d_top src_rect))) in
    surface_Blt p (Some dst_rect) src (Some src_rect) 0 None.

Definition surface_Flip (p : Z) : D H ddresult :=
  if p =? 0 then mret DDERR_INVALIDPARAMS
  else x ← surf_at p; r ← call (Surface_flip (su_rb_surface x)); mret (if r =? RB_OK then DD_OK else DDERR_NOFLIP).

Definition surface_GetCaps (p : Z) (out : bool) : D H (ddresult * Z) :=
  if (p =? 0) || negb out then mret (DDERR_INVALIDPARAMS, 0) else x ← surf_at p; mret (DD_OK, su_caps x).

Definition surface_GetPalette (p : Z) (out : bool) : D H (ddresult * Z) :=
  if (p =? 0) || negb out then mret (DDERR_INVALIDPARAMS, 0)
  else
    x ← surf_at p;
    if su_palette x =? 0 then mret (DDERR_NOTFOUND, 0)
    else _ ← ddraw_palette_add_ref (su_palette x); mret (DD_OK, su_palette x).

Definition surface_SetPalette (p pal : Z) : D H ddresult :=
  if p =? 0 then mret DDERR_INVALIDPARAMS
  else
    x ← surf_at p;
    _ ← when (negb (su_palette x =? 0) && negb (su_palette x =? pal)) (_ ← ddraw_palette_release (su_palette x); mret tt);
    _ ← on_surf p (su_set_palette pal);
    if pal =? 0 then mret DD_OK
    else
      _ ← ddraw_palette_add_ref pal;
      x ← surf_at p;
      y ← pal_at pal;
      r ← call (Surface_set_palette (su_rb_surface x) (pl_rb_palette y));
      if negb (r =? RB_OK) then mret DDERR_UNSUPPORTED
      else
        _ ← when (negb (su_next x =? 0))
              (z ← surf_at (su_next x); _ ← call (Surface_set_palette (su_rb_surface z) (pl_rb_palette y)); mret tt);
        mret DD_OK.

Definition ddraw_normalize_surface_data (p surface_ptr : Z) : D H ddraw_surface_desc_data_t :=
  x ← surf_at p;
  r ← call (Surface_get_desc (su_rb_surface x));
  _ ← match (r : option (Z * Z * Z)) with
      | None => mret tt
      | Some (w, h, pitch) => on_surf p (su_set_size (u32 w) (u32 h) pitch)
      end;
  x ← surf_at p;
  mret (mkDescData (su_caps x) (su_pitch x) (su_width x) (su_height x) (if su_next x =? 0 then 0 else 1) (u32 surface_ptr)
          (Z.lor (Z.lor (Z.lor (Z.lor DDSD_CAPS DDSD_WIDTH) DDSD_HEIGHT) DDSD_PITCH) (if surface_ptr =? 0 then 0 else DDSD_LPSURFACE))).

Definition ddraw_fill_surface_desc (p surface_ptr : Z) (desc : option bytes) : D H (option bytes) :=
  match desc with
  | None => mret None
  | Some b =>
      if p =? 0 then mret desc
      else data ← ddraw_normalize_surface_data p surface_ptr; b ← lift (write_surface_desc data b); mret (Some b)
  end.

Definition surface_GetSurfaceDesc (p : Z) (desc : option bytes) : D H (ddresult * option bytes) :=
  match desc with
  | None => mret (DDERR_INVALIDPARAMS, None)
  | Some _ => if p =? 0 then mret (DDERR_INVALIDPARAMS, desc) else b ← ddraw_fill_surface_desc p 0 desc; mret (DD_OK, b)
  end.

Definition surface_Lock (p : Z) (rect : option DDRECT) (desc : option bytes) : D H (ddresult * option bytes) :=
  if p =? 0 then mret (DDERR_INVALIDPARAMS, desc)
  else
    x ← surf_at p;
    if su_locked x then mret (DDERR_SURFACEBUSY, desc)
    else
      '(ret, data, pitch) ← call (Surface_lock (su_rb_surface x) (fmap (M := option) ddraw_rect_to_rb rect));
      if negb (ret =? RB_OK) || (data =? 0) then mret (DDERR_NOLOCKING, desc)
      else
        _ ← on_surf p (su_set_lock true pitch);
        desc ← ddraw_fill_surface_desc p data desc;
        mret (DD_OK, desc).

Definition surface_Unlock (p : Z) : D H ddresult :=
  if p =? 0 then mret DDERR_INVALIDPARAMS
  else
    x ← surf_at p;
    if negb (su_locked x) then mret DDERR_NOTLOCKED
    else
      _ ← on_surf p (fun x => su_set_lock false (su_pitch x) x);
      r ← call (Surface_unlock (su_rb_surface x));
      mret (if r =? RB_OK then DD_OK else DDERR_NOTLOCKED).
End ddraw.
