(* ===== verification/DDrawSafe.v ===== *)
(** * Lifetime of the objects of DirectDraw

    Reference counts against the references that exist: those that a guest program holds,
    the links between objects, and the primary surface of a DirectDraw object.  A
    computation is specified by a postcondition ([wp]): it does not fault, and it fails
    only where the backend may. *)
From S2P Require Import Prelude Bytes DDrawDesc DDraw.

(** ** Specifications of computations *)

(** The backend does not fault; it may fail if [crash] holds. *)
Class DdServes (H : Type) {B : DdBackend H} (crash : Prop) : Prop := {
  dd_serves : forall R (q : dd_req R) (g : H), match dd_call q g with Ret _ => True | Fail => crash | Fault => False end;
  (** The colours are written into the caller's array. *)
  dd_colors : forall pal start count l r l' (g g' : H),
    dd_call (Palette_get_colors pal start count l) g = Ret ((r, l'), g') -> length l' = length l }.

Section wp.
Context {H : Type} {B : DdBackend H} {crash : Prop} {serves : DdServes H crash}.

Definition wp {A} (m : D H A) (s : ddraw H) (Q : A -> ddraw H -> Prop) : Prop :=
  match m s with Ret (a, s') => Q a s' | Fail => crash | Fault => False end.

Lemma dwp_ret {A} (a : A) s (Q : A -> ddraw H -> Prop) : Q a s -> wp (mret a) s Q.
Proof. done. Qed.
Lemma dwp_bind {A C} (m : D H A) (f : A -> D H C) s Q : wp m s (fun a s' => wp (f a) s' Q) -> wp (m ≫= f) s Q.
Proof. unfold wp, mbind, D_bind. simpl. by destruct (m s) as [[a s']| |]. Qed.
Lemma dwp_mono {A} (m : D H A) s (Q R : A -> ddraw H -> Prop) : wp m s Q -> (forall a s', Q a s' -> R a s') -> wp m s R.
Proof. unfold wp. destruct (m s) as [[a s']| |]; eauto. Qed.
Lemma dwp_state s (Q : ddraw H -> ddraw H -> Prop) : Q s s -> wp get_state s Q.
Proof. done. Qed.
Lemma dwp_modify f s (Q : unit -> ddraw H -> Prop) : Q tt (f s) -> wp (modify f) s Q.
Proof. done. Qed.
Lemma dwp_lift {A} (m : outcome A) a s (Q : A -> ddraw H -> Prop) : m = Ret a -> Q a s -> wp (lift m) s Q.
Proof. by intros ->. Qed.
Lemma dwp_call {R} (q : dd_req R) s (Q : R -> ddraw H -> Prop) : (forall r g, Q r (with_host g s)) -> wp (call q) s Q.
Proof.
  intros HQ. unfold wp, call. pose proof (dd_serves R q (g_host s)) as Hs. destruct (dd_call q (g_host s)) as [[r g]| |]; [apply HQ|done..].
Qed.
Lemma dwp_when (b : bool) m s (Q : unit -> ddraw H -> Prop) : (b = true -> wp m s Q) -> (b = false -> Q tt s) -> wp (when b m) s Q.
Proof. destruct b; simpl; intros H1 H2; [by apply H1|]. by apply dwp_ret, H2. Qed.

Lemma dwp_dd_at p x s (Q : my_dd_t -> ddraw H -> Prop) : g_dd s !! p = Some x -> Q x s -> wp (dd_at p) s Q.
Proof. intros E HQ. apply dwp_bind, dwp_state. by eapply dwp_lift; [by rewrite E|]. Qed.
Lemma dwp_surf_at p x s (Q : my_surface_t -> ddraw H -> Prop) : g_surf s !! p = Some x -> Q x s -> wp (surf_at p) s Q.
Proof. intros E HQ. apply dwp_bind, dwp_state. by eapply dwp_lift; [by rewrite E|]. Qed.
Lemma dwp_pal_at p x s (Q : my_palette_t -> ddraw H -> Prop) : g_pal s !! p = Some x -> Q x s -> wp (pal_at p) s Q.
Proof. intros E HQ. apply dwp_bind, dwp_state. by eapply dwp_lift; [by rewrite E|]. Qed.
Lemma dwp_clip_at p x s (Q : my_clipper_t -> ddraw H -> Prop) : g_clip s !! p = Some x -> Q x s -> wp (clip_at p) s Q.
Proof. intros E HQ. apply dwp_bind, dwp_state. by eapply dwp_lift; [by rewrite E|]. Qed.
Lemma dwp_on_dd p f x s (Q : unit -> ddraw H -> Prop) :
  g_dd s !! p = Some x -> Q tt (with_dd (<[p := f x]> (g_dd s)) s) -> wp (on_dd p f) s Q.
Proof. intros E HQ. by apply dwp_bind, (dwp_dd_at p x). Qed.
Lemma dwp_on_surf p f x s (Q : unit -> ddraw H -> Prop) :
  g_surf s !! p = Some x -> Q tt (with_surf (<[p := f x]> (g_surf s)) s) -> wp (on_surf p f) s Q.
Proof. intros E HQ. by apply dwp_bind, (dwp_surf_at p x). Qed.
Lemma dwp_on_pal p f x s (Q : unit -> ddraw H -> Prop) :
  g_pal s !! p = Some x -> Q tt (with_pal (<[p := f x]> (g_pal s)) s) -> wp (on_pal p f) s Q.
Proof. intros E HQ. by apply dwp_bind, (dwp_pal_at p x). Qed.
Lemma dwp_on_clip p f x s (Q : unit -> ddraw H -> Prop) :
  g_clip s !! p = Some x -> Q tt (with_clip (<[p := f x]> (g_clip s)) s) -> wp (on_clip p f) s Q.
Proof. intros E HQ. by apply dwp_bind, (dwp_clip_at p x). Qed.
End wp.

(** One step of a computation; the objects it reads are in the context. *)
Ltac wp_step :=
  lazymatch goal with
  | |- wp (mret _) _ _ => apply dwp_ret
  | |- wp (_ ≫= _) _ _ => apply dwp_bind
  | |- wp get_state _ _ => apply dwp_state
  | |- wp (modify _) _ _ => apply dwp_modify
  | |- wp (call _) _ _ => apply dwp_call; intros ? ?
  | |- wp (dd_at _) _ _ => eapply dwp_dd_at; [first [eassumption | apply lookup_insert_eq]|]
  | |- wp (surf_at _) _ _ => eapply dwp_surf_at; [first [eassumption | apply lookup_insert_eq]|]
  | |- wp (pal_at _) _ _ => eapply dwp_pal_at; [first [eassumption | apply lookup_insert_eq]|]
  | |- wp (clip_at _) _ _ => eapply dwp_clip_at; [first [eassumption | apply lookup_insert_eq]|]
  | |- wp (on_dd _ _) _ _ => eapply dwp_on_dd; [first [eassumption | apply lookup_insert_eq]|]
  | |- wp (on_surf _ _) _ _ => eapply dwp_on_surf; [first [eassumption | apply lookup_insert_eq]|]
  | |- wp (on_pal _ _) _ _ => eapply dwp_on_pal; [first [eassumption | apply lookup_insert_eq]|]
  | |- wp (on_clip _ _) _ _ => eapply dwp_on_clip; [first [eassumption | apply lookup_insert_eq]|]
  end; cbv beta.
Ltac wp_go := repeat wp_step.
Ltac wp_all := repeat first [wp_step | lazymatch goal with |- wp (when _ _) _ _ => apply dwp_when; intros ?; cbv beta end].

(** ** Counting references *)

(** The number of objects whose field [f] is [p]. *)
Definition refs {X} (f : X -> Z) (m : gmap Z X) (p : Z) : Z := Z.of_nat (size (filter (fun kv => f kv.2 = p) m)).
(** The count of the object at [p], 0 when there is none. *)
Definition rc {X} (ref : X -> Z) (m : gmap Z X) (p : Z) : Z := from_option ref 0 (m !! p).
Definition one (P : Prop) `{Decision P} : Z := if decide P then 1 else 0.
Definition hits {X} (f : X -> Z) (p : Z) (o : option X) : Z := from_option (fun x => one (f x = p)) 0 o.

Section counting.
Context {X : Type}.
Implicit Types (f : X -> Z) (m : gmap Z X) (p q : Z).

Lemma refs_fresh f m k y p : m !! k = None -> refs f (<[k := y]> m) p = refs f m p + one (f y = p).
Proof.
  intros Hk. unfold refs, one. destruct (decide (f y = p)) as [Hy|Hy].
  - rewrite (map_filter_insert_True (fun kv => f kv.2 = p) m k y Hy), map_size_insert_None; [lia|].
    apply map_lookup_filter_None. by left.
  - rewrite (map_filter_insert_False (fun kv => f kv.2 = p) m k y Hy), delete_id by done. lia.
Qed.
Lemma refs_delete f m k p : refs f (delete k m) p = refs f m p - hits f p (m !! k).
Proof.
  destruct (m !! k) as [x|] eqn:E; simpl; [|rewrite delete_id by done; lia].
  rewrite <- (insert_delete_id m k x E) at 2. rewrite refs_fresh by apply lookup_delete_eq. lia.
Qed.
Lemma refs_insert f m k y p : refs f (<[k := y]> m) p = refs f m p - hits f p (m !! k) + one (f y = p).
Proof. rewrite <- insert_delete_eq, refs_fresh, refs_delete by apply lookup_delete_eq. lia. Qed.
Lemma refs_nonneg f m p : 0 <= refs f m p.
Proof. unfold refs. lia. Qed.
Lemma refs_pos f m k x : m !! k = Some x -> 0 < refs f m (f x).
Proof.
  intros E. pose proof (refs_delete f m k (f x)) as Hd. rewrite E in Hd. simpl in Hd. unfold one in Hd. rewrite decide_True in Hd by done.
  pose proof (refs_nonneg f (delete k m) (f x)). lia.
Qed.
Lemma rc_insert ref m k y p : rc ref (<[k := y]> m) p = if decide (p = k) then ref y else rc ref m p.
Proof. unfold rc. destruct (decide (p = k)) as [->|]; [by rewrite lookup_insert_eq|by rewrite lookup_insert_ne]. Qed.
Lemma rc_delete ref m k p : rc ref (delete k m) p = if decide (p = k) then 0 else rc ref m p.
Proof. unfold rc. destruct (decide (p = k)) as [->|]; [by rewrite lookup_delete_eq|by rewrite lookup_delete_ne]. Qed.
Lemma rc_some ref m p x : m !! p = Some x -> rc ref m p = ref x.
Proof. unfold rc. by intros ->. Qed.
Lemma rc_alive ref m p : 0 < rc ref m p -> exists x, m !! p = Some x /\ ref x = rc ref m p.
Proof. unfold rc. destruct (m !! p) as [x|]; simpl; [eauto|lia]. Qed.
End counting.
Lemma refs_ext {X} (f : X -> Z) (m m' : gmap Z X) p : f <$> m = f <$> m' -> refs f m p = refs f m' p.
Proof.
  assert (Hg : forall m0, refs f m0 p = refs id (f <$> m0) p).
  { intros m0. induction m0 as [|k y m0 Hk IH] using map_ind; [by rewrite fmap_empty|].
    rewrite fmap_insert, refs_fresh by done. rewrite refs_fresh by (by rewrite lookup_fmap, Hk). by rewrite IH. }
  intros Hm. by rewrite !Hg, Hm.
Qed.

(** ** The invariant *)

Inductive obj := ODd (p : Z) | OSurf (p : Z) | OPal (p : Z) | OClip (p : Z).
#[export] Instance obj_eq_dec : EqDecision obj.
Proof. solve_decision. Defined.
(** The references that the guest program holds. *)
Definition held : Type := obj -> Z.
Definition hold (o : obj) (d : Z) (h : held) : held := fun o' => if decide (o' = o) then h o' + d else h o'.
Definition nonneg (h : held) : Prop := forall o, 0 <= h o.

(** The references to an object that exist: [tidy] programs make none that the code
    forgets, so that the count is exact. *)
Definition fits (tidy : bool) (total count : Z) : Prop := if tidy then total = count else total <= count.

Definition heaps : Type := gmap Z my_dd_t * gmap Z my_surface_t * gmap Z my_palette_t * gmap Z my_clipper_t.
Definition heaps_of {H} (s : ddraw H) : heaps := (g_dd s, g_surf s, g_pal s, g_clip s).

Record counts_bounded {X} (ref : X -> Z) (n : Z) (m : gmap Z X) : Prop := {
  cb_null : m !! 0 = None;
  cb_bound : forall p x, m !! p = Some x -> ref x <= n }.

Record inv (tidy : bool) (n : Z) (hp : heaps) (h : held) : Prop := {
  iv_dd : forall p, p <> 0 -> fits tidy (h (ODd p)) (rc dd_ref_count hp.1.1.1 p);
  iv_surf : forall p, p <> 0 ->
    fits tidy (h (OSurf p) + refs su_next hp.1.1.2 p + refs primary_surface hp.1.1.1 p) (rc su_ref_count hp.1.1.2 p);
  iv_pal : forall p, p <> 0 -> fits tidy (h (OPal p) + refs su_palette hp.1.1.2 p) (rc pl_ref_count hp.1.2 p);
  iv_clip : forall p, p <> 0 -> fits tidy (h (OClip p) + refs su_clipper hp.1.1.2 p) (rc cl_ref_count hp.2 p);
  iv_dd_bound : counts_bounded dd_ref_count n hp.1.1.1;
  iv_surf_bound : counts_bounded su_ref_count n hp.1.1.2;
  iv_pal_bound : counts_bounded pl_ref_count n hp.1.2;
  iv_clip_bound : counts_bounded cl_ref_count n hp.2;
  iv_pal_pos : forall p x, hp.1.2 !! p = Some x -> 0 < pl_ref_count x /\ pl_num_colors x <= 256;
  iv_clip_pos : forall p x, hp.2 !! p = Some x -> 0 < cl_ref_count x;
  (** A surface is in the list of its owner, and the list holds the owner's surfaces. *)
  iv_owner : forall p x, hp.1.1.2 !! p = Some x -> su_dd_owner x <> 0 ->
    exists d, hp.1.1.1 !! su_dd_owner x = Some d /\ p ∈ surface_list d;
  iv_list : forall q d, hp.1.1.1 !! q = Some d ->
    NoDup (surface_list d) /\ forall p, p ∈ surface_list d -> exists x, hp.1.1.2 !! p = Some x /\ su_dd_owner x = q }.

Lemma hold_same o d h : hold o d h o = h o + d.
Proof. unfold hold. by rewrite decide_True. Qed.
Lemma hold_ne o o' d h : o' <> o -> hold o d h o' = h o'.
Proof. intros. unfold hold. by rewrite decide_False. Qed.
Lemma fits_le tidy a b : fits tidy a b -> a <= b.
Proof. unfold fits. destruct tidy; lia. Qed.
Lemma fits_shift tidy a b a' b' : fits tidy a b -> b' - a' = b - a -> fits tidy a' b'.
Proof. unfold fits. destruct tidy; lia. Qed.
Lemma inv_ext tidy n hp h h' : (forall o, h o = h' o) -> inv tidy n hp h -> inv tidy n hp h'.
Proof. intros He []. split; try done; intros p Hp; rewrite <- He; auto. Qed.
Lemma hold_cancel o d d' h o' : d + d' = 0 -> hold o d (hold o d' h) o' = h o'.
Proof. intros. unfold hold. case_decide; lia. Qed.
Lemma bounded_weaken {X} (ref : X -> Z) n n' m : counts_bounded ref n m -> n <= n' -> counts_bounded ref n' m.
Proof. intros [H0 Hb] Hn. split; [done|]. intros p x Hx. specialize (Hb p x Hx). lia. Qed.
Lemma dinv_weaken tidy n n' hp h : inv tidy n hp h -> n <= n' -> inv tidy n' hp h.
Proof. intros [] Hn. split; eauto using bounded_weaken. Qed.

Lemma bounded_insert {X} (ref : X -> Z) n m p y :
  counts_bounded ref n m -> p <> 0 -> ref y <= n -> counts_bounded ref n (<[p := y]> m).
Proof.
  intros [H0 Hb] Hp Hy. split; [by rewrite lookup_insert_ne|]. intros q x. destruct (decide (q = p)) as [->|].
  - rewrite lookup_insert_eq. by intros [= <-].
  - rewrite lookup_insert_ne by done. apply Hb.
Qed.
Lemma bounded_delete {X} (ref : X -> Z) n m p : counts_bounded ref n m -> counts_bounded ref n (delete p m).
Proof.
  intros [H0 Hb]. split; [|intros q x [_ Hx]%lookup_delete_Some; by apply (Hb q)]. destruct (decide (0 = p)) as [<-|];
    [apply lookup_delete_eq|by rewrite lookup_delete_ne].
Qed.
Lemma bounded_nonzero {X} (ref : X -> Z) n m p x : counts_bounded ref n m -> m !! p = Some x -> p <> 0.
Proof. intros [H0 _] Hx ->. congruence. Qed.

(** Counting after an update: the goal says that a difference has not changed. *)
Ltac count := rewrite ?refs_insert, ?refs_delete, ?rc_insert, ?rc_delete; unfold hold, one;
  repeat match goal with E : ?m !! ?k = _ |- context [?m !! ?k] => rewrite E; cbn [hits from_option] end; unfold one;
  repeat case_decide; simplify_eq; try lia.

(** An object that is not referenced: no link leads to it. *)
Lemma unreferenced_surf tidy n hp h p :
  inv tidy n hp h -> nonneg h -> p <> 0 -> rc su_ref_count hp.1.1.2 p = 0 ->
  h (OSurf p) = 0 /\ refs su_next hp.1.1.2 p = 0 /\ refs primary_surface hp.1.1.1 p = 0.
Proof.
  intros Hi Hh Hp Hz. pose proof (iv_surf _ _ _ _ Hi p Hp) as Hf. apply fits_le in Hf. rewrite Hz in Hf.
  pose proof (Hh (OSurf p)). pose proof (refs_nonneg su_next hp.1.1.2 p). pose proof (refs_nonneg primary_surface hp.1.1.1 p). lia.
Qed.

(** ** Updates *)

(** References move from a holder to another: the sums do not change. *)
Ltac moved := intros; unfold hold, one; cbn; repeat case_decide; simplify_eq; try lia.

Section updates.
Variables (tidy : bool) (n : Z) (dds : gmap Z my_dd_t) (surfs : gmap Z my_surface_t) (pals : gmap Z my_palette_t) (clips : gmap Z my_clipper_t).
Variables (h h' : held).
Hypothesis Hi : inv tidy n (dds, surfs, pals, clips) h.

Lemma inv_surf_update p x y :
  surfs !! p = Some x -> su_dd_owner y = su_dd_owner x -> su_ref_count y <= n ->
  (forall q, q <> 0 -> (if decide (q = p) then su_ref_count y - su_ref_count x else 0) =
     h' (OSurf q) - h (OSurf q) + one (su_next y = q) - one (su_next x = q)) ->
  (forall q, q <> 0 -> h' (OPal q) + one (su_palette y = q) = h (OPal q) + one (su_palette x = q)) ->
  (forall q, q <> 0 -> h' (OClip q) + one (su_clipper y = q) = h (OClip q) + one (su_clipper x = q)) ->
  (forall q, h' (ODd q) = h (ODd q)) -> inv tidy n (dds, <[p := y]> surfs, pals, clips) h'.
Proof.
  intros Hx Ho Hn Hs Hp Hc Hd. destruct Hi as [A1 A2 A3 A4 A5 A6 A7 A8 A9 A10 A11 A12].
  pose proof (bounded_nonzero _ _ _ _ _ A6 Hx) as Hp0. simpl in *.
  split; simpl; try done.
  - intros q Hq. rewrite Hd. by apply A1.
  - intros q Hq. apply (fits_shift _ _ _ _ _ (A2 q Hq)). specialize (Hs q Hq). rewrite refs_insert, rc_insert, Hx. cbn [hits from_option].
    destruct (decide (q = p)) as [->|]; [rewrite (rc_some _ _ _ _ Hx)|]; lia.
  - intros q Hq. apply (fits_shift _ _ _ _ _ (A3 q Hq)). specialize (Hp q Hq). rewrite refs_insert, Hx. cbn [hits from_option]. lia.
  - intros q Hq. apply (fits_shift _ _ _ _ _ (A4 q Hq)). specialize (Hc q Hq). rewrite refs_insert, Hx. cbn [hits from_option]. lia.
  - by apply bounded_insert.
  - intros q z. destruct (decide (q = p)) as [->|].
    + rewrite lookup_insert_eq. intros [= <-]. rewrite Ho. by apply A11.
    + rewrite lookup_insert_ne by done. apply A11.
  - intros q d Hq. destruct (A12 q d Hq) as [Hnd Hl]. split; [done|]. intros k Hk. destruct (Hl k Hk) as (z & Hz & Hzo).
    destruct (decide (k = p)) as [->|]; [|rewrite lookup_insert_ne by done; eauto].
    rewrite lookup_insert_eq. exists y. split; [done|]. rewrite Ho. congruence.
Qed.

Lemma inv_dd_update p d y :
  dds !! p = Some d -> surface_list y = surface_list d -> dd_ref_count y <= n ->
  (forall q, q <> 0 -> (if decide (q = p) then dd_ref_count y - dd_ref_count d else 0) = h' (ODd q) - h (ODd q)) ->
  (forall q, q <> 0 -> h' (OSurf q) + one (primary_surface y = q) = h (OSurf q) + one (primary_surface d = q)) ->
  (forall q, h' (OPal q) = h (OPal q)) -> (forall q, h' (OClip q) = h (OClip q)) ->
  inv tidy n (<[p := y]> dds, surfs, pals, clips) h'.
Proof.
  intros Hx Ho Hn Hd Hs Hp Hc. destruct Hi as [A1 A2 A3 A4 A5 A6 A7 A8 A9 A10 A11 A12].
  pose proof (bounded_nonzero _ _ _ _ _ A5 Hx) as Hp0. simpl in *.
  split; simpl; try done.
  - intros q Hq. apply (fits_shift _ _ _ _ _ (A1 q Hq)). specialize (Hd q Hq). rewrite rc_insert.
    destruct (decide (q = p)) as [->|]; [rewrite (rc_some _ _ _ _ Hx)|]; lia.
  - intros q Hq. apply (fits_shift _ _ _ _ _ (A2 q Hq)). specialize (Hs q Hq). rewrite refs_insert, Hx. cbn [hits from_option]. lia.
  - intros q Hq. rewrite Hp. by apply A3.
  - intros q Hq. rewrite Hc. by apply A4.
  - by apply bounded_insert.
  - intros q z Hz Hzo. destruct (A11 q z Hz Hzo) as (d' & Hd' & Hin). destruct (decide (su_dd_owner z = p)) as [E|].
    + rewrite E, lookup_insert_eq. exists y. split; [done|]. rewrite Ho. rewrite E, Hx in Hd'. by injection Hd' as ->.
    + rewrite lookup_insert_ne by done. eauto.
  - intros q z. destruct (decide (q = p)) as [->|]; [rewrite lookup_insert_eq; intros [= <-]; rewrite Ho|rewrite lookup_insert_ne by done]; apply A12; done.
Qed.

Lemma inv_pal_update p y :
  p <> 0 -> 0 < pl_ref_count y <= n -> pl_num_colors y <= 256 ->
  (forall q, q <> 0 -> h' (OPal q) - h (OPal q) = if decide (q = p) then pl_ref_count y - rc pl_ref_count pals p else 0) ->
  (forall o, match o with OPal _ => True | _ => h' o = h o end) -> inv tidy n (dds, surfs, <[p := y]> pals, clips) h'.
Proof.
  intros Hp [Hy Hn] Hc Hs Ho. destruct Hi as [A1 A2 A3 A4 A5 A6 A7 A8 A9 A10 A11 A12]. simpl in *. split; simpl; try done.
  - intros q Hq. rewrite (Ho (ODd q)). by apply A1.
  - intros q Hq. rewrite (Ho (OSurf q)). by apply A2.
  - intros q Hq. apply (fits_shift _ _ _ _ _ (A3 q Hq)). specialize (Hs q Hq). rewrite rc_insert. destruct (decide (q = p)) as [->|]; lia.
  - intros q Hq. rewrite (Ho (OClip q)). by apply A4.
  - by apply bounded_insert.
  - intros q x. destruct (decide (q = p)) as [->|]; [rewrite lookup_insert_eq; by intros [= <-]|rewrite lookup_insert_ne by done; apply A9].
Qed.
Lemma inv_pal_delete p :
  (forall q, q <> 0 -> h' (OPal q) - h (OPal q) = if decide (q = p) then - rc pl_ref_count pals p else 0) ->
  (forall o, match o with OPal _ => True | _ => h' o = h o end) -> inv tidy n (dds, surfs, delete p pals, clips) h'.
Proof.
  intros Hs Ho. destruct Hi as [A1 A2 A3 A4 A5 A6 A7 A8 A9 A10 A11 A12]. simpl in *. split; simpl; try done.
  - intros q Hq. rewrite (Ho (ODd q)). by apply A1.
  - intros q Hq. rewrite (Ho (OSurf q)). by apply A2.
  - intros q Hq. apply (fits_shift _ _ _ _ _ (A3 q Hq)). specialize (Hs q Hq). rewrite rc_delete. destruct (decide (q = p)) as [->|]; lia.
  - intros q Hq. rewrite (Ho (OClip q)). by apply A4.
  - by apply bounded_delete.
  - intros q x [_ Hx]%lookup_delete_Some. by apply (A9 q).
Qed.

Lemma inv_clip_update p y :
  p <> 0 -> 0 < cl_ref_count y <= n ->
  (forall q, q <> 0 -> h' (OClip q) - h (OClip q) = if decide (q = p) then cl_ref_count y - rc cl_ref_count clips p else 0) ->
  (forall o, match o with OClip _ => True | _ => h' o = h o end) -> inv tidy n (dds, surfs, pals, <[p := y]> clips) h'.
Proof.
  intros Hp [Hy Hn] Hs Ho. destruct Hi as [A1 A2 A3 A4 A5 A6 A7 A8 A9 A10 A11 A12]. simpl in *. split; simpl; try done.
  - intros q Hq. rewrite (Ho (ODd q)). by apply A1.
  - intros q Hq. rewrite (Ho (OSurf q)). by apply A2.
  - intros q Hq. rewrite (Ho (OPal q)). by apply A3.
  - intros q Hq. apply (fits_shift _ _ _ _ _ (A4 q Hq)). specialize (Hs q Hq). rewrite rc_insert. destruct (decide (q = p)) as [->|]; lia.
  - by apply bounded_insert.
  - intros q x. destruct (decide (q = p)) as [->|]; [rewrite lookup_insert_eq; by intros [= <-]|rewrite lookup_insert_ne by done; apply A10].
Qed.
Lemma inv_clip_delete p :
  (forall q, q <> 0 -> h' (OClip q) - h (OClip q) = if decide (q = p) then - rc cl_ref_count clips p else 0) ->
  (forall o, match o with OClip _ => True | _ => h' o = h o end) -> inv tidy n (dds, surfs, pals, delete p clips) h'.
Proof.
  intros Hs Ho. destruct Hi as [A1 A2 A3 A4 A5 A6 A7 A8 A9 A10 A11 A12]. simpl in *. split; simpl; try done.
  - intros q Hq. rewrite (Ho (ODd q)). by apply A1.
  - intros q Hq. rewrite (Ho (OSurf q)). by apply A2.
  - intros q Hq. rewrite (Ho (OPal q)). by apply A3.
  - intros q Hq. apply (fits_shift _ _ _ _ _ (A4 q Hq)). specialize (Hs q Hq). rewrite rc_delete. destruct (decide (q = p)) as [->|]; lia.
  - by apply bounded_delete.
  - intros q x [_ Hx]%lookup_delete_Some. by apply (A10 q).
Qed.

(** A surface with no links goes. *)
Lemma inv_surf_delete p x :
  surfs !! p = Some x -> su_ref_count x = 0 -> su_next x = 0 -> su_palette x = 0 -> su_clipper x = 0 -> su_dd_owner x = 0 ->
  inv tidy n (dds, delete p surfs, pals, clips) h.
Proof.
  intros Hx Hr Hnx Hpl Hcl How. destruct Hi as [A1 A2 A3 A4 A5 A6 A7 A8 A9 A10 A11 A12]. simpl in *.
  split; simpl; try done; try (by apply bounded_delete).
  - intros q Hq. apply (fits_shift _ _ _ _ _ (A2 q Hq)). rewrite refs_delete, rc_delete, Hx. cbn [hits from_option]. unfold one.
    rewrite (decide_False (P := su_next x = q)) by congruence. destruct (decide (q = p)) as [->|]; [rewrite (rc_some _ _ _ _ Hx)|]; lia.
  - intros q Hq. apply (fits_shift _ _ _ _ _ (A3 q Hq)). rewrite refs_delete, Hx. cbn [hits from_option]. unfold one.
    rewrite (decide_False (P := su_palette x = q)) by congruence. lia.
  - intros q Hq. apply (fits_shift _ _ _ _ _ (A4 q Hq)). rewrite refs_delete, Hx. cbn [hits from_option]. unfold one.
    rewrite (decide_False (P := su_clipper x = q)) by congruence. lia.
  - intros q z [_ Hz]%lookup_delete_Some. by apply A11.
  - intros q d Hq. destruct (A12 q d Hq) as [Hnd Hl]. split; [done|]. intros k Hk. destruct (Hl k Hk) as (z & Hz & Hzo).
    exists z. rewrite lookup_delete_ne; [done|]. intros <-. pose proof (bounded_nonzero _ _ _ _ _ A5 Hq). congruence.
Qed.

(** A surface leaves the list of its owner. *)
Lemma inv_unlink p x d l :
  surfs !! p = Some x -> su_dd_owner x <> 0 -> dds !! su_dd_owner x = Some d -> (forall k, k ∈ l <-> k ∈ surface_list d /\ k <> p) -> NoDup l ->
  inv tidy n (<[su_dd_owner x := dd_set_list l d]> dds, <[p := su_set_owner 0 x]> surfs, pals, clips) h.
Proof.
  intros Hx Ho Hd Hl Hnd. destruct Hi as [A1 A2 A3 A4 A5 A6 A7 A8 A9 A10 A11 A12]. simpl in *.
  assert (Hr : forall f, f (su_set_owner 0 x) = f x -> forall q, refs f (<[p := su_set_owner 0 x]> surfs) q = refs f surfs q).
  { intros f Hf q. rewrite refs_insert, Hx, Hf. cbn [hits from_option]. lia. }
  split; simpl.
  - intros q Hq. rewrite rc_insert. destruct (decide _) as [->|]; [|by apply A1]. simpl. rewrite <- (rc_some dd_ref_count _ _ _ Hd). by apply A1.
  - intros q Hq. rewrite Hr, refs_insert, rc_insert, Hd by done. cbn [hits from_option dd_set_list primary_surface].
    apply (fits_shift _ _ _ _ _ (A2 q Hq)). destruct (decide (q = p)) as [->|]; [rewrite (rc_some _ _ _ _ Hx)|]; simpl; lia.
  - intros q Hq. rewrite Hr by done. by apply A3.
  - intros q Hq. rewrite Hr by done. by apply A4.
  - by apply bounded_insert, (cb_bound _ _ _ A5 _ _ Hd).
  - apply bounded_insert; [done|by apply (bounded_nonzero _ _ _ _ _ A6 Hx)|apply (cb_bound _ _ _ A6 _ _ Hx)].
  - done.
  - done.
  - done.
  - done.
  - intros q z. destruct (decide (q = p)) as [->|]; [rewrite lookup_insert_eq; by intros [= <-]|].
    rewrite lookup_insert_ne by done. intros Hz Hzo. destruct (A11 q z Hz Hzo) as (d' & Hd' & Hin).
    destruct (decide (su_dd_owner z = su_dd_owner x)) as [E|]; [|rewrite lookup_insert_ne by done; eauto].
    rewrite E, lookup_insert_eq. eexists. split; [done|]. simpl. apply Hl. rewrite E, Hd in Hd'. by injection Hd' as ->.
  - intros q z. destruct (decide (q = su_dd_owner x)) as [->|Hne].
    + rewrite lookup_insert_eq. intros [= <-]. simpl. split; [done|]. intros k [Hk Hkp]%Hl.
      destruct (A12 _ d Hd) as [_ Hl']. rewrite lookup_insert_ne by done. auto.
    + rewrite lookup_insert_ne by done. intros Hz. destruct (A12 q z Hz) as [Hnd' Hl']. split; [done|]. intros k Hk.
      destruct (Hl' k Hk) as (w & Hw & Hwo). exists w. rewrite lookup_insert_ne; [done|]. intros <-. congruence.
Qed.
End updates.

Section lifetime.
Context {H : Type} {B : DdBackend H} {crash : Prop} {serves : DdServes H crash}.
Variable tidy : bool.
Implicit Types (s : ddraw H) (h : held).
Abbreviation Inv n s h := (inv tidy n (heaps_of s) h).
Abbreviation wp := (wp (crash := crash)).

Lemma dec_pos r : 0 < r -> dec r = r - 1.
Proof. unfold dec. intros. by replace (0 <? r) with true by lia. Qed.
Lemma inc_small r n : 0 <= r <= n -> n + 1 < 2 ^ 32 -> inc r = r + 1.
Proof. intros. unfold inc. by apply wrap_small; lia. Qed.

Lemma with_host_id s : with_host (g_host s) s = s.
Proof. by destruct s. Qed.

(** *** Palettes and clippers *)

Lemma pal_release_spec n p s h (Q : Z -> ddraw H -> Prop) :
  Inv n s h -> p <> 0 -> 0 < rc pl_ref_count (g_pal s) p ->
  (forall r m g, inv tidy n (g_dd s, g_surf s, m, g_clip s) (hold (OPal p) (-1) h) -> Q r (with_host g (with_pal m s))) ->
  wp (ddraw_palette_release p) s Q.
Proof.
  intros Hi Hp Hr HQ. destruct (rc_alive _ _ _ Hr) as (x & Hx & Hrx). pose proof (cb_bound _ _ _ (iv_pal_bound _ _ _ _ Hi) _ _ Hx) as Hb.
  unfold ddraw_palette_release. replace (p =? 0) with false by lia.
  wp_go. cbn [pl_ref_count pl_set_ref]. rewrite dec_pos by lia. destruct (pl_ref_count x - 1 =? 0) eqn:E; cbn [negb].
  - unfold ddraw_destroy_palette. wp_all.
    + eapply dwp_bind, dwp_pal_at; [apply lookup_insert_eq|]. apply dwp_modify. cbn. rewrite delete_insert_eq.
      refine (HQ 0 (delete p (g_pal s)) g _). apply (inv_pal_delete _ _ _ _ _ _ h); [exact Hi|moved|by intros []].
    + eapply dwp_bind, dwp_pal_at; [apply lookup_insert_eq|]. apply dwp_modify. cbn. rewrite delete_insert_eq.
      refine (HQ 0 (delete p (g_pal s)) (g_host s) _). apply (inv_pal_delete _ _ _ _ _ _ h); [exact Hi|moved|by intros []].
  - apply dwp_ret. refine (HQ _ _ (g_host s) _). apply (inv_pal_update _ _ _ _ _ _ h); [exact Hi|done|simpl in *; lia|apply (iv_pal_pos _ _ _ _ Hi p x Hx)|moved|by intros []].
Qed.

Lemma pal_add_ref_spec n p s h (Q : Z -> ddraw H -> Prop) :
  Inv n s h -> p <> 0 -> 0 < rc pl_ref_count (g_pal s) p -> n + 1 < 2 ^ 32 ->
  (forall r m, inv tidy (n + 1) (g_dd s, g_surf s, m, g_clip s) (hold (OPal p) 1 h) -> is_Some (m !! p) -> Q r (with_pal m s)) ->
  wp (ddraw_palette_add_ref p) s Q.
Proof.
  intros Hi Hp Hr Hn HQ. destruct (rc_alive _ _ _ Hr) as (x & Hx & Hrx). pose proof (cb_bound _ _ _ (iv_pal_bound _ _ _ _ Hi) _ _ Hx) as Hb.
  unfold ddraw_palette_add_ref. replace (p =? 0) with false by lia. wp_go. rewrite (inc_small _ n) by lia.
  apply HQ; [|rewrite lookup_insert_eq; eauto].
  apply (inv_pal_update _ _ _ _ _ _ h); [by apply (dinv_weaken _ n); [|lia]|done|simpl in *; lia|apply (iv_pal_pos _ _ _ _ Hi p x Hx)|moved|by intros []].
Qed.

Lemma clip_release_spec n p s h (Q : Z -> ddraw H -> Prop) :
  Inv n s h -> p <> 0 -> 0 < rc cl_ref_count (g_clip s) p ->
  (forall r m, inv tidy n (g_dd s, g_surf s, g_pal s, m) (hold (OClip p) (-1) h) -> Q r (with_clip m s)) ->
  wp (ddraw_clipper_release p) s Q.
Proof.
  intros Hi Hp Hr HQ. destruct (rc_alive _ _ _ Hr) as (x & Hx & Hrx). pose proof (cb_bound _ _ _ (iv_clip_bound _ _ _ _ Hi) _ _ Hx) as Hb.
  unfold ddraw_clipper_release. replace (p =? 0) with false by lia.
  wp_all; cbn [cl_ref_count cl_set_ref] in *; rewrite dec_pos in * by lia.
  - eapply dwp_bind, dwp_clip_at; [apply lookup_insert_eq|]. apply dwp_modify. apply dwp_ret. cbn. rewrite delete_insert_eq.
    refine (HQ _ (delete p (g_clip s)) _). apply (inv_clip_delete _ _ _ _ _ _ h); [exact Hi|moved|by intros []].
  - apply HQ. apply (inv_clip_update _ _ _ _ _ _ h); [exact Hi|done|simpl in *; lia|moved|by intros []].
Qed.

Lemma clip_add_ref_spec n p s h (Q : Z -> ddraw H -> Prop) :
  Inv n s h -> p <> 0 -> 0 < rc cl_ref_count (g_clip s) p -> n + 1 < 2 ^ 32 ->
  (forall r m, inv tidy (n + 1) (g_dd s, g_surf s, g_pal s, m) (hold (OClip p) 1 h) -> Q r (with_clip m s)) ->
  wp (ddraw_clipper_add_ref p) s Q.
Proof.
  intros Hi Hp Hr Hn HQ. destruct (rc_alive _ _ _ Hr) as (x & Hx & Hrx). pose proof (cb_bound _ _ _ (iv_clip_bound _ _ _ _ Hi) _ _ Hx) as Hb.
  unfold ddraw_clipper_add_ref. replace (p =? 0) with false by lia. wp_go. rewrite (inc_small _ n) by lia. apply HQ.
  apply (inv_clip_update _ _ _ _ _ _ h); [by apply (dinv_weaken _ n); [|lia]|done|simpl in *; lia|moved|by intros []].
Qed.

(** *** Releasing surfaces *)

(** What the release of a surface leaves alone: the surfaces whose count is 0 already, and
    of the DirectDraw objects all but the list of surfaces and the primary surface, which
    can only go. *)
Definition dd_shrunk (o o' : option my_dd_t) : Prop :=
  match o, o' with
  | Some d, Some d' => dd_ref_count d' = dd_ref_count d /\ surface_list d' ⊆ surface_list d /\
      (primary_surface d' = primary_surface d \/ primary_surface d' = 0)
  | None, None => True
  | _, _ => False
  end.
Record kept (except : option Z) s s' : Prop := {
  kp_zero : forall k x, Some k <> except -> su_ref_count x = 0 -> g_surf s !! k = Some x <-> g_surf s' !! k = Some x;
  kp_dd : forall q, dd_shrunk (g_dd s !! q) (g_dd s' !! q) }.

Lemma dd_shrunk_refl o : dd_shrunk o o.
Proof. destruct o; simpl; auto. Qed.
Lemma kept_refl e s s' : g_surf s' = g_surf s -> g_dd s' = g_dd s -> kept e s s'.
Proof. intros Es Ed. split; intros; [by rewrite Es|rewrite Ed; apply dd_shrunk_refl]. Qed.
Lemma kept_trans e e' s s1 s2 : kept e' s s1 -> kept e s1 s2 -> (e' = None \/ e' = e) -> kept e s s2.
Proof.
  intros [Z1 D1] [Z2 D2] He. split.
  - intros k x Hk Hx. rewrite (Z1 k x), (Z2 k x); [done..| |done]. destruct He as [->| ->]; done.
  - intros q. specialize (D1 q). specialize (D2 q). destruct (g_dd s !! q), (g_dd s1 !! q), (g_dd s2 !! q); simpl in *; try done.
    destruct D1 as (E1 & S1 & P1), D2 as (E2 & S2 & P2). split_and!; [congruence|by etrans|].
    destruct P2 as [->| ->]; [done|by right].
Qed.
Lemma kept_surf_update p y s : kept (Some p) s (with_surf (<[p := y]> (g_surf s)) s).
Proof. split; simpl; [|intros; apply dd_shrunk_refl]. intros k x Hk _. rewrite lookup_insert_ne by congruence. done. Qed.
(** The surface that was excepted has a count in neither state. *)
Lemma kept_all p s s' :
  kept (Some p) s s' -> (forall x, g_surf s !! p = Some x -> su_ref_count x <> 0) -> (forall x, g_surf s' !! p = Some x -> su_ref_count x <> 0) ->
  kept None s s'.
Proof.
  intros [Hz Hd] H1 H2. split; [|done]. intros k x _ Hx. destruct (decide (k = p)) as [->|]; [|apply Hz; congruence].
  split; intros E; [by destruct (H1 x E)|by destruct (H2 x E)].
Qed.

(** The number of surfaces with an attached surface. *)
Definition pending s : Z := Z.of_nat (size (g_surf s)) - refs su_next (g_surf s) 0.
Lemma pending_update p x y s : g_surf s !! p = Some x ->
  pending (with_surf (<[p := y]> (g_surf s)) s) = pending s + one (su_next x = 0) - one (su_next y = 0).
Proof. intros Hx. unfold pending. simpl. rewrite map_size_insert_Some by eauto. rewrite refs_insert, Hx. simpl. lia. Qed.

Record dying (n : Z) (p : Z) (h : held) s0 x s : Prop := {
  dy_inv : Inv n s h;
  dy_at : g_surf s !! p = Some x;
  dy_ref : su_ref_count x = 0;
  dy_kept : kept (Some p) s0 s }.

Section destroy.
Variables (n fuel : Z) (release : Z -> D H Z) (p : Z) (h : held) (s0 : ddraw H).
Hypothesis Hh : nonneg h.
Hypothesis Hrelease : forall q s h, Inv n s h -> nonneg h -> 0 < h (OSurf q) -> q <> 0 -> pending s < fuel ->
  wp (release q) s (fun _ s' => Inv n s' (hold (OSurf q) (-1) h) /\ kept None s s').
Abbreviation Dying := (dying n p h s0).

Lemma dying_nonzero x s : Dying x s -> p <> 0.
Proof. intros [Hi Hx _ _]. by apply (bounded_nonzero _ _ _ _ _ (iv_surf_bound _ _ _ _ Hi) Hx). Qed.
Lemma nonneg_hold o h' : nonneg h' -> nonneg (hold o 1 h').
Proof. intros Hn o'. specialize (Hn o'). unfold hold. case_decide; lia. Qed.
Lemma nonneg_drop o h' : nonneg h' -> 0 < h' o -> nonneg (hold o (-1) h').
Proof. intros Hn Ho o'. specialize (Hn o'). unfold hold. case_decide; subst; lia. Qed.

(** The surface gives up a link: the reference is held until it is released. *)
Lemma dying_update x s y :
  Dying x s -> su_ref_count y = 0 -> kept (Some p) s0 (with_surf (<[p := y]> (g_surf s)) s).
Proof. intros [_ _ _ Hk] _. eapply kept_trans; [exact Hk|apply kept_surf_update|by right]. Qed.

Lemma destroy_next x s (Q : unit -> ddraw H -> Prop) :
  Dying x s -> (su_next x <> 0 -> pending s <= fuel) -> (forall s', Dying (su_set_next 0 x) s' -> Q tt s') ->
  wp (when (negb (su_next x =? 0)) (_ ← on_surf p (su_set_next 0); _ ← release (su_next x); mret tt)) s Q.
Proof.
  intros Hd Hp HQ. destruct Hd as [Hi Hx Hr Hk]. pose proof (cb_bound _ _ _ (iv_surf_bound _ _ _ _ Hi) _ _ Hx) as Hb.
  apply dwp_when; intros E.
  - wp_go. assert (Hn0 : su_next x <> 0) by lia.
    eapply dwp_mono; [apply (Hrelease _ _ (hold (OSurf (su_next x)) 1 h))|].
    + apply (inv_surf_update _ _ _ _ _ _ h _ Hi p x); [done..|moved|moved|moved|moved].
    + by apply nonneg_hold.
    + rewrite hold_same. specialize (Hh (OSurf (su_next x))). lia.
    + done.
    + rewrite (pending_update p x) by done. unfold one. rewrite (decide_False (P := su_next x = 0)), decide_True by done. specialize (Hp Hn0). lia.
    + intros r s' [Hi' Hk']. apply dwp_ret, HQ. split.
      * eapply inv_ext; [|exact Hi']. intros o. by apply hold_cancel.
      * apply (kp_zero _ _ _ Hk'); [done|done|]. simpl. apply lookup_insert_eq.
      * done.
      * eapply kept_trans; [exact Hk| |by right]. eapply kept_trans; [apply kept_surf_update| |by right]. by split; [intros; apply Hk'|apply Hk'].
  - apply HQ. assert (E0 : su_next x = 0) by lia. replace (su_set_next 0 x) with x; [by split|]. destruct x. simpl in E0. by subst.
Qed.

Lemma destroy_palette x s (Q : unit -> ddraw H -> Prop) :
  Dying x s -> (forall s', Dying (su_set_palette 0 x) s' -> Q tt s') ->
  wp (when (negb (su_palette x =? 0)) (_ ← on_surf p (su_set_palette 0); _ ← ddraw_palette_release (su_palette x); mret tt)) s Q.
Proof.
  intros Hd HQ. destruct Hd as [Hi Hx Hr Hk]. pose proof (cb_bound _ _ _ (iv_surf_bound _ _ _ _ Hi) _ _ Hx) as Hb.
  apply dwp_when; intros E.
  - assert (Hn0 : su_palette x <> 0) by lia. wp_go.
    assert (Hi1 : Inv n (with_surf (<[p := su_set_palette 0 x]> (g_surf s)) s) (hold (OPal (su_palette x)) 1 h)).
    { apply (inv_surf_update _ _ _ _ _ _ h _ Hi p x); [done..|moved|moved|moved|moved]. }
    apply (pal_release_spec n _ _ _ _ Hi1 Hn0).
    + pose proof (iv_pal _ _ _ _ Hi _ Hn0) as Hf. apply fits_le in Hf. simpl in Hf. specialize (Hh (OPal (su_palette x))).
      pose proof (refs_pos su_palette (g_surf s) p x Hx). simpl. lia.
    + intros r m g Hi2. apply dwp_ret, HQ. split; simpl.
      * eapply inv_ext; [|exact Hi2]. intros o. by apply hold_cancel.
      * apply lookup_insert_eq.
      * done.
      * eapply kept_trans; [exact Hk| |by right]. eapply kept_trans; [apply kept_surf_update|by apply kept_refl|by right].
  - apply HQ. assert (E0 : su_palette x = 0) by lia. replace (su_set_palette 0 x) with x; [by split|]. destruct x. simpl in E0. by subst.
Qed.

Lemma destroy_clipper x s (Q : unit -> ddraw H -> Prop) :
  Dying x s -> (forall s', Dying (su_set_clipper 0 x) s' -> Q tt s') -> wp (ddraw_surface_clear_clipper p) s Q.
Proof.
  intros Hd HQ. pose proof (dying_nonzero _ _ Hd). destruct Hd as [Hi Hx Hr Hk].
  pose proof (cb_bound _ _ _ (iv_surf_bound _ _ _ _ Hi) _ _ Hx) as Hb.
  unfold ddraw_surface_clear_clipper. replace (p =? 0) with false by lia. wp_go. destruct (su_clipper x =? 0) eqn:E.
  - apply dwp_ret, HQ. assert (E0 : su_clipper x = 0) by lia. replace (su_set_clipper 0 x) with x; [by split|]. destruct x. simpl in E0. by subst.
  - assert (Hn0 : su_clipper x <> 0) by lia. wp_go. apply (clip_release_spec n _ _ _ _ Hi Hn0).
    + pose proof (iv_clip _ _ _ _ Hi _ Hn0) as Hf. apply fits_le in Hf. simpl in Hf. specialize (Hh (OClip (su_clipper x))).
      pose proof (refs_pos su_clipper (g_surf s) p x Hx). simpl. lia.
    + intros r m Hi1. eapply dwp_on_surf; [exact Hx|]. apply HQ. split; simpl.
      * apply (inv_surf_update _ _ _ _ _ _ _ _ Hi1 p x); [done..|moved|moved|moved|moved].
      * apply lookup_insert_eq.
      * done.
      * eapply kept_trans; [exact Hk| |by right]. apply (kept_trans _ None s (with_clip m s)); [by apply kept_refl| |by left].
        apply (kept_surf_update p _ (with_clip m s)).
Qed.

Lemma unlink_walk_ok q l (m : gmap Z my_surface_t) :
  (forall k, k ∈ l -> is_Some (m !! k)) -> NoDup l -> exists l', unlink_walk q l m = Ret l' /\ NoDup l' /\ forall k, k ∈ l' <-> k ∈ l /\ k <> q.
Proof.
  induction l as [|a l IH]; intros Hm Hnd; simpl.
  - exists []. split_and!; [done|constructor|set_solver].
  - apply NoDup_cons in Hnd as [Ha Hnd]. destruct (a =? q) eqn:E.
    + exists l. assert (a = q) as -> by lia. split_and!; [done|done|]. intros k. rewrite elem_of_cons. naive_solver.
    + destruct (Hm a) as [y ->]; [by left|]. destruct IH as (l' & -> & Hnd' & Hl'); [intros; apply Hm; by right|done|].
      simpl. exists (a :: l'). split_and!; [done|apply NoDup_cons; split; [rewrite Hl'; naive_solver|done]|].
      intros k. rewrite !elem_of_cons, Hl'. split; [intros [->|[]]; split; auto; lia|naive_solver].
Qed.

Lemma destroy_unlink x s (Q : unit -> ddraw H -> Prop) :
  Dying x s -> (forall s', Dying (su_set_owner 0 x) s' -> Q tt s') -> wp (ddraw_unlink_surface_from_owner p) s Q.
Proof.
  intros Hd HQ. pose proof (dying_nonzero _ _ Hd). destruct Hd as [Hi Hx Hr Hk].
  unfold ddraw_unlink_surface_from_owner. replace (p =? 0) with false by lia. wp_go. destruct (su_dd_owner x =? 0) eqn:E.
  - apply dwp_ret, HQ. assert (E0 : su_dd_owner x = 0) by lia. replace (su_set_owner 0 x) with x; [by split|]. destruct x. simpl in E0. by subst.
  - assert (Ho : su_dd_owner x <> 0) by lia. destruct (iv_owner _ _ _ _ Hi p x Hx Ho) as (d & Hdd & Hin). simpl in Hdd.
    destruct (iv_list _ _ _ _ Hi _ d Hdd) as [Hnd Hl].
    destruct (unlink_walk_ok p (surface_list d) (g_surf s)) as (l' & El & Hnd' & Hl'); [|done|].
    { intros k Hkin. destruct (Hl k Hkin) as (y & Hy & _). eauto. }
    wp_go. eapply dwp_lift; [exact El|]. wp_go. apply HQ. split; simpl.
    + by apply (inv_unlink _ _ _ _ _ _ h Hi p x d l').
    + apply lookup_insert_eq.
    + done.
    + eapply kept_trans; [exact Hk| |by right]. split; simpl.
      * intros k y Hky _. rewrite lookup_insert_ne by congruence. done.
      * intros q. destruct (decide (q = su_dd_owner x)) as [->|]; [|rewrite lookup_insert_ne by done; apply dd_shrunk_refl].
        rewrite lookup_insert_eq, Hdd. simpl. split_and!; [done| |by left]. intros k. rewrite Hl'. naive_solver.
Qed.

Lemma destroy_spec x s :
  Dying x s -> (su_next x <> 0 -> pending s <= fuel) ->
  wp (ddraw_destroy_surface release p) s (fun _ s' => Inv n s' h /\ g_surf s' !! p = None /\ kept (Some p) s0 s').
Proof.
  intros Hd Hp. pose proof (dying_nonzero _ _ Hd) as Hp0. pose proof (dy_at _ _ _ _ _ _ Hd) as Hx.
  unfold ddraw_destroy_surface. replace (p =? 0) with false by lia. wp_go.
  apply (destroy_next x s _ Hd Hp). intros s1 Hd1. pose proof (dy_at _ _ _ _ _ _ Hd1) as Hx1. wp_go.
  apply (destroy_palette _ _ _ Hd1). intros s2 Hd2. wp_go.
  apply (destroy_clipper _ _ _ Hd2). intros s3 Hd3. wp_go.
  apply (destroy_unlink _ _ _ Hd3). intros s4 [Hi4 Hx4 Hr4 Hk4].
  assert (Hfree : forall g, wp (free_surf p) (with_host g s4) (fun _ s' => Inv n s' h /\ g_surf s' !! p = None /\ kept (Some p) s0 s')).
  { intros g. eapply dwp_bind, dwp_surf_at; [exact Hx4|]. apply dwp_modify. split_and!; simpl.
    - by apply (inv_surf_delete _ _ _ _ _ _ _ Hi4 p _ Hx4).
    - apply lookup_delete_eq.
    - eapply kept_trans; [exact Hk4| |by right]. split; simpl; [|intros; apply dd_shrunk_refl].
      intros k y Hky _. rewrite lookup_delete_ne by congruence. done. }
  pose proof (Hfree (g_host s4)) as Hsame. rewrite with_host_id in Hsame. wp_all; [apply Hfree|exact Hsame].
Qed.
End destroy.

Lemma surface_release_spec n fuel : forall p s h,
  Inv n s h -> nonneg h -> 0 < h (OSurf p) -> p <> 0 -> pending s < Z.of_nat fuel ->
  wp (surface_release fuel p) s (fun _ s' => Inv n s' (hold (OSurf p) (-1) h) /\ kept None s s').
Proof.
  induction fuel as [|fuel IH]; intros p s h Hi Hh Hp Hp0 Hpend.
  { unfold pending in Hpend. exfalso. unfold refs in Hpend.
    pose proof (map_size_filter (fun kv => su_next kv.2 = 0) (g_surf s)). lia. }
  pose proof (iv_surf _ _ _ _ Hi p Hp0) as Hf. apply fits_le in Hf. cbn [fst snd heaps_of] in Hf.
  pose proof (refs_nonneg su_next (g_surf s) p) as Hr1. pose proof (refs_nonneg primary_surface (g_dd s) p) as Hr2.
  destruct (rc_alive su_ref_count (g_surf s) p ltac:(lia)) as (x & Hx & Hrx).
  pose proof (cb_bound _ _ _ (iv_surf_bound _ _ _ _ Hi) _ _ Hx) as Hb.
  cbn [surface_release]. replace (p =? 0) with false by lia. wp_go. cbn [su_ref_count su_set_ref su_dd_owner]. rewrite dec_pos by lia.
  set (y := su_set_ref (su_ref_count x - 1) x). set (s1 := with_surf (<[p := y]> (g_surf s)) s).
  assert (Hi1 : Inv n s1 (hold (OSurf p) (-1) h)).
  { apply (inv_surf_update _ _ _ _ _ _ h _ Hi p x); [done|done|simpl; lia|moved; simpl in *; lia|moved|moved|moved]. }
  assert (Hx1 : g_surf s1 !! p = Some y) by apply lookup_insert_eq.
  destruct (su_ref_count x - 1 =? 0) eqn:E; cbn [negb].
  2:{ apply dwp_ret. split; [done|]. apply (kept_all p); [apply kept_surf_update|intros z Hz|intros z Hz]; simplify_eq/=; lia. }
  assert (Hh1 : nonneg (hold (OSurf p) (-1) h)) by (by apply nonneg_drop).
  assert (Hdestroy : wp (_ ← ddraw_destroy_surface (surface_release fuel) p; mret 0) s1
    (fun _ s' => Inv n s' (hold (OSurf p) (-1) h) /\ kept None s s')).
  { wp_go. eapply dwp_mono; [apply (destroy_spec n (Z.of_nat fuel) _ p (hold (OSurf p) (-1) h) s1 Hh1 IH y s1)|].
    - split; [done|done|subst y; simpl; lia|by apply kept_refl].
    - intros _. subst s1. rewrite (pending_update p x) by done. subst y. simpl. lia.
    - intros [] s' (Hi' & Hn & Hk). apply dwp_ret. split; [done|]. apply (kept_all p).
      + eapply kept_trans; [apply kept_surf_update|exact Hk|by right].
      + intros z Hz. simplify_eq. lia.
      + intros z Hz. congruence. }
  apply dwp_bind, dwp_when; intros Ho; [|done]. assert (Ho' : su_dd_owner x <> 0) by (subst y; simpl in Ho; lia).
  destruct (iv_owner _ _ _ _ Hi1 p y Hx1 Ho') as (d & Hd & _). apply dwp_bind. eapply dwp_dd_at; [exact Hd|].
  apply dwp_when; intros Hpr; [|done].
  destruct (unreferenced_surf _ _ _ _ p Hi1 Hh1 Hp0) as (_ & _ & Hz); [rewrite (rc_some _ _ _ _ Hx1); subst y; simpl; lia|].
  pose proof (refs_pos primary_surface _ _ _ Hd) as Hpos. replace (primary_surface d) with p in Hpos by lia. simpl in *. lia.
Qed.

(** *** Between the calls of a program *)

(** No object with a count of 0 is left. *)
Record ginv (n : Z) (hp : heaps) (h : held) : Prop := {
  gi_inv : inv tidy n hp h;
  gi_held : nonneg h;
  gi_surf : forall p x, hp.1.1.2 !! p = Some x -> 0 < su_ref_count x;
  gi_dd : forall p d, hp.1.1.1 !! p = Some d -> 0 < dd_ref_count d }.
Abbreviation Ginv n s h := (ginv n (heaps_of s) h).

Lemma ginv_ext n hp h h' : (forall o, h o = h' o) -> ginv n hp h -> ginv n hp h'.
Proof. intros He [Hi Hh]. split; try done; [by eapply inv_ext|intros o; by rewrite <- He]. Qed.
Lemma ginv_weaken n n' hp h : ginv n hp h -> n <= n' -> ginv n' hp h.
Proof. intros [Hi ? ? ?] Hn. split; try done. by apply (dinv_weaken _ n). Qed.

Lemma surf_ref_nonneg n hp h p x : inv tidy n hp h -> nonneg h -> hp.1.1.2 !! p = Some x -> 0 <= su_ref_count x.
Proof.
  intros Hi Hh Hx. pose proof (iv_surf _ _ _ _ Hi p (bounded_nonzero _ _ _ _ _ (iv_surf_bound _ _ _ _ Hi) Hx)) as Hf.
  apply fits_le in Hf. rewrite (rc_some _ _ _ _ Hx) in Hf. specialize (Hh (OSurf p)).
  pose proof (refs_nonneg su_next hp.1.1.2 p). pose proof (refs_nonneg primary_surface hp.1.1.1 p). lia.
Qed.
Lemma kept_surf_pos n s s' h :
  inv tidy n (heaps_of s') h -> nonneg h -> kept None s s' -> (forall p x, g_surf s !! p = Some x -> 0 < su_ref_count x) ->
  forall p x, g_surf s' !! p = Some x -> 0 < su_ref_count x.
Proof.
  intros Hi Hh Hk Hs p x Hx. pose proof (surf_ref_nonneg _ _ _ p x Hi Hh Hx). destruct (decide (su_ref_count x = 0)) as [E|]; [|lia].
  apply (kp_zero _ _ _ Hk) in Hx; [|done..]. specialize (Hs p x Hx). lia.
Qed.

Lemma surf_release_inv n p s h :
  Inv n s h -> nonneg h -> 0 < h (OSurf p) -> p <> 0 ->
  wp (ddraw_surface_release p) s (fun _ s' => Inv n s' (hold (OSurf p) (-1) h) /\ kept None s s').
Proof.
  intros Hi Hh Hp Hp0. unfold ddraw_surface_release. wp_go. apply surface_release_spec; try done.
  unfold pending. pose proof (refs_nonneg su_next (g_surf s) 0). lia.
Qed.
Lemma surf_release_ginv n p s h (Q : Z -> ddraw H -> Prop) :
  Ginv n s h -> 0 < h (OSurf p) -> p <> 0 -> (forall r s', Ginv n s' (hold (OSurf p) (-1) h) -> Q r s') -> wp (ddraw_surface_release p) s Q.
Proof.
  intros [Hi Hh Hs Hd] Hp Hp0 HQ. eapply dwp_mono; [by apply (surf_release_inv n p s h)|]. intros r s' [Hi' Hk]. apply HQ.
  assert (Hh' : nonneg (hold (OSurf p) (-1) h)) by (by apply nonneg_drop). split; [done|done|by apply (kept_surf_pos n s s' _ Hi' Hh' Hk)|].
  intros q d Hq. pose proof (kp_dd _ _ _ Hk q) as Hshr. cbn in Hq. rewrite Hq in Hshr. destruct (g_dd s !! q) as [d0|] eqn:E; [|done].
  destruct Hshr as (-> & _). by apply (Hd q).
Qed.

(** *** Releasing a DirectDraw object *)

Definition disowned (l : list Z) (m m' : gmap Z my_surface_t) : Prop :=
  forall k, m' !! k = if decide (k ∈ l) then su_set_owner 0 <$> m !! k else m !! k.

Lemma disown_spec l : forall s (Q : unit -> ddraw H -> Prop),
  (forall k, k ∈ l -> is_Some (g_surf s !! k)) -> (forall m, disowned l (g_surf s) m -> Q tt (with_surf m s)) -> wp (disown l) s Q.
Proof.
  induction l as [|a l IH]; intros s Q Hl HQ; cbn [disown].
  - apply dwp_ret. replace s with (with_surf (g_surf s) s) by (by destruct s). apply HQ. intros k. by rewrite decide_False by set_solver.
  - destruct (Hl a) as [x Hx]; [by left|]. wp_go. apply IH; simpl.
    + intros k Hk. destruct (decide (k = a)) as [->|]; [rewrite lookup_insert_eq; eauto|rewrite lookup_insert_ne by done; apply Hl; by right].
    + intros m Hm. apply HQ. intros k. rewrite Hm. destruct (decide (k = a)) as [->|Hne].
      * rewrite lookup_insert_eq, (decide_True (P := a ∈ a :: l)), Hx by (by left). by destruct (decide _).
      * rewrite lookup_insert_ne by done. destruct (decide (k ∈ l)); [by rewrite decide_True by (by right)|by rewrite decide_False by set_solver].
Qed.

Lemma disowned_fields {X} (f : my_surface_t -> X) l m m' : disowned l m m' -> (forall x, f (su_set_owner 0 x) = f x) -> f <$> m' = f <$> m.
Proof.
  intros Hm Hf. apply map_eq. intros k. rewrite !lookup_fmap, Hm. destruct (decide _); [|done].
  destruct (m !! k); simpl; [by rewrite Hf|done].
Qed.
Lemma rc_fmap {X} (ref : X -> Z) (m m' : gmap Z X) p : ref <$> m = ref <$> m' -> rc ref m p = rc ref m' p.
Proof.
  intros E. unfold rc. assert (E' : (ref <$> m) !! p = (ref <$> m') !! p) by (by rewrite E). rewrite !lookup_fmap in E'.
  by destruct (m !! p), (m' !! p); simplify_eq/=.
Qed.

Lemma inv_disown n dds surfs pals clips h p d m :
  inv tidy n (dds, surfs, pals, clips) h -> dds !! p = Some d -> disowned (surface_list d) surfs m ->
  inv tidy n (<[p := dd_set_list [] d]> dds, m, pals, clips) h.
Proof.
  intros [A1 A2 A3 A4 A5 A6 A7 A8 A9 A10 A11 A12] Hd Hm. simpl in *.
  pose proof (fun f Hf => disowned_fields (X := Z) f _ _ _ Hm Hf) as Hfield.
  assert (Hrefs : forall f q, (forall x, f (su_set_owner 0 x) = f x) -> refs f m q = refs f surfs q) by (intros; by apply refs_ext, Hfield).
  split; simpl; try done.
  - intros q Hq. rewrite rc_insert. destruct (decide _) as [->|]; [|by apply A1]. simpl. rewrite <- (rc_some dd_ref_count _ _ _ Hd). by apply A1.
  - intros q Hq. rewrite (Hrefs su_next), refs_insert, Hd, (rc_fmap su_ref_count m surfs) by (done || by apply Hfield).
    apply (fits_shift _ _ _ _ _ (A2 q Hq)). cbn. lia.
  - intros q Hq. rewrite Hrefs by done. by apply A3.
  - intros q Hq. rewrite Hrefs by done. by apply A4.
  - apply bounded_insert; [done|by apply (bounded_nonzero _ _ _ _ _ A5 Hd)|apply (cb_bound _ _ _ A5 _ _ Hd)].
  - split; [rewrite Hm; destruct (decide _); by rewrite (cb_null _ _ _ A6)|]. intros k z. rewrite Hm. destruct (decide _).
    + intros (x & Hx & ->)%fmap_Some. simpl. apply (cb_bound _ _ _ A6 _ _ Hx).
    + apply (cb_bound _ _ _ A6).
  - intros k z. rewrite Hm. destruct (decide _) as [Hin|Hin]; [by intros (x & _ & ->)%fmap_Some|]. intros Hz Hzo.
    destruct (A11 k z Hz Hzo) as (d' & Hd' & Hk). exists d'. split; [|done]. rewrite lookup_insert_ne; [done|]. intros E. rewrite <- E in Hd'. congruence.
  - intros q z. destruct (decide (q = p)) as [->|Hne].
    + rewrite lookup_insert_eq. intros [= <-]. simpl. split; [constructor|]. intros k Hk. by apply not_elem_of_nil in Hk.
    + rewrite lookup_insert_ne by done. intros Hz. destruct (A12 q z Hz) as [Hnd Hl]. split; [done|]. intros k Hk.
      destruct (Hl k Hk) as (w & Hw & Hwo). exists w. rewrite Hm, decide_False; [done|]. intros Hin.
      destruct (A12 p d Hd) as [_ Hl']. destruct (Hl' k Hin) as (w' & Hw' & Hwo'). congruence.
Qed.

Lemma inv_dd_delete n dds surfs pals clips h p d :
  inv tidy n (dds, surfs, pals, clips) h -> dds !! p = Some d -> dd_ref_count d = 0 -> surface_list d = [] -> primary_surface d = 0 ->
  inv tidy n (delete p dds, surfs, pals, clips) h.
Proof.
  intros [A1 A2 A3 A4 A5 A6 A7 A8 A9 A10 A11 A12] Hd Hr Hl Hp. simpl in *. split; simpl; try done.
  - intros q Hq. rewrite rc_delete. destruct (decide _) as [->|]; [|by apply A1]. specialize (A1 p Hq).
    by rewrite (rc_some dd_ref_count _ _ _ Hd), Hr in A1.
  - intros q Hq. rewrite refs_delete, Hd. cbn [hits from_option]. unfold one. rewrite (decide_False (P := primary_surface d = q)) by congruence.
    apply (fits_shift _ _ _ _ _ (A2 q Hq)). lia.
  - by apply bounded_delete.
  - intros k z Hz Hzo. destruct (A11 k z Hz Hzo) as (d' & Hd' & Hk). exists d'. split; [|done]. rewrite lookup_delete_ne; [done|].
    intros E. rewrite <- E, Hd in Hd'. injection Hd' as <-. rewrite Hl in Hk. by apply not_elem_of_nil in Hk.
  - intros q z [_ Hz]%lookup_delete_Some. by apply A12.
Qed.

(** The last part of ddraw_release. *)
Lemma dd_free_spec n p s h d (Q : Z -> ddraw H -> Prop) :
  Inv n s h -> nonneg h -> (forall p x, g_surf s !! p = Some x -> 0 < su_ref_count x) ->
  (forall q d, q <> p -> g_dd s !! q = Some d -> 0 < dd_ref_count d) ->
  g_dd s !! p = Some d -> dd_ref_count d = 0 -> surface_list d = [] -> primary_surface d = 0 -> (forall s', Ginv n s' h -> Q 0 s') ->
  wp (d ← dd_at p;
      _ ← when (owns_window d && negb (dd_rb_window d =? 0)) (_ ← call (Window_destroy (dd_rb_window d)); mret tt);
      s ← get_state;
      _ ← when (g_ddraw_instance s =? p) (modify (with_instance 0));
      _ ← free_dd p;
      mret 0) s Q.
Proof.
  intros Hi Hh Hs Hds Hd Hr Hl Hp HQ.
  assert (Hg : ginv n (delete p (g_dd s), g_surf s, g_pal s, g_clip s) h).
  { split; [by apply (inv_dd_delete _ _ _ _ _ _ p d)|done|done|]. simpl. intros q z [Hne Hz]%lookup_delete_Some. by apply (Hds q). }
  wp_all; (eapply dwp_bind, dwp_dd_at; [exact Hd|]; apply dwp_modify, dwp_ret, HQ; exact Hg).
Qed.

Lemma dd_ref_nonneg n hp h p d : inv tidy n hp h -> p <> 0 -> 0 < h (ODd p) -> hp.1.1.1 !! p = Some d -> 0 < dd_ref_count d <= n.
Proof.
  intros Hi Hp Hh Hd. pose proof (iv_dd _ _ _ _ Hi p Hp) as Hf. apply fits_le in Hf. rewrite (rc_some _ _ _ _ Hd) in Hf.
  pose proof (cb_bound _ _ _ (iv_dd_bound _ _ _ _ Hi) _ _ Hd). lia.
Qed.
Lemma held_dd n hp h p : inv tidy n hp h -> p <> 0 -> 0 < h (ODd p) -> exists d, hp.1.1.1 !! p = Some d.
Proof.
  intros Hi Hp Hh. pose proof (iv_dd _ _ _ _ Hi p Hp) as Hf. apply fits_le in Hf.
  destruct (rc_alive dd_ref_count hp.1.1.1 p ltac:(lia)) as (d & Hd & _). eauto.
Qed.

Lemma ginv_insert_dd n hp h p d y :
  inv tidy n (<[p := y]> hp.1.1.1, hp.1.1.2, hp.1.2, hp.2) h -> nonneg h -> ginv n hp d -> 0 < dd_ref_count y ->
  ginv n (<[p := y]> hp.1.1.1, hp.1.1.2, hp.1.2, hp.2) h.
Proof.
  intros Hi Hh [_ _ Hs Hd] Hy. split; [done|done|exact Hs|]. simpl. intros q z.
  destruct (decide (q = p)) as [->|]; [rewrite lookup_insert_eq; by intros [= <-]|rewrite lookup_insert_ne by done; apply Hd].
Qed.

Lemma dd_release_ginv n p s h (Q : Z -> ddraw H -> Prop) :
  Ginv n s h -> 0 < h (ODd p) -> p <> 0 -> (forall r s', Ginv n s' (hold (ODd p) (-1) h) -> Q r s') -> wp (ddraw_release p) s Q.
Proof.
  intros Hg Hp Hp0 HQ. pose proof Hg as [Hi Hh Hs Hds]. destruct (held_dd _ _ _ _ Hi Hp0 Hp) as (d & Hd).
  pose proof (dd_ref_nonneg _ _ _ _ _ Hi Hp0 Hp Hd) as Hr. cbn in Hd.
  assert (Hh1 : nonneg (hold (ODd p) (-1) h)) by (by apply nonneg_drop). set (h1 := hold (ODd p) (-1) h) in *.
  unfold ddraw_release. replace (p =? 0) with false by lia. wp_go. cbn [dd_ref_count dd_set_ref surface_list]. rewrite dec_pos by lia.
  set (d1 := dd_set_ref (dd_ref_count d - 1) d). set (s1 := with_dd (<[p := d1]> (g_dd s)) s).
  assert (Hi1 : Inv n s1 h1).
  { apply (inv_dd_update _ _ _ _ _ _ h _ Hi p d); [done|done|simpl; lia|subst h1; moved; simpl; lia|subst h1; moved..]. }
  destruct (dd_ref_count d - 1 =? 0) eqn:E; cbn [negb].
  2:{ apply dwp_ret, HQ. apply (ginv_insert_dd n (heaps_of s) h1 p h d1); [done|done|done|simpl; lia]. }
  wp_go. apply disown_spec.
  { intros k Hk. destruct (iv_list _ _ _ _ Hi p d Hd) as [_ Hl]. destruct (Hl k Hk) as (y & Hy & _). cbn in Hy |- *. eauto. }
  intros m Hm. cbn in Hm. wp_go. cbn [primary_surface dd_set_list dd_set_ref].
  set (s2 := with_dd (<[p := dd_set_list [] d1]> (g_dd (with_surf m s1))) (with_surf m s1)).
  assert (Hi2 : Inv n s2 h1) by (apply (inv_disown n _ _ _ _ h1 p d1 m Hi1); [apply lookup_insert_eq|exact Hm]).
  assert (Hs2 : forall k x, g_surf s2 !! k = Some x -> 0 < su_ref_count x).
  { intros k x. cbn. rewrite Hm. destruct (decide _); [intros (y & Hy & ->)%fmap_Some; apply (Hs k y Hy)|apply Hs]. }
  assert (Hds2 : forall q z, q <> p -> g_dd s2 !! q = Some z -> 0 < dd_ref_count z).
  { intros q z Hq. cbn. rewrite !lookup_insert_ne by done. apply Hds. }
  assert (Hd2 : g_dd s2 !! p = Some (dd_set_list [] d1)) by apply lookup_insert_eq.
  change (primary_surface d1) with (primary_surface d). apply dwp_when; intros Ep.
  2:{ apply (dd_free_spec n p s2 h1 (dd_set_list [] d1)); try done; [simpl; lia|simpl; lia|by intros; apply HQ]. }
  set (pr := primary_surface d) in *. assert (Hpr : pr <> 0) by lia. apply dwp_bind. eapply dwp_on_dd; [exact Hd2|]. cbv beta.
  set (d3 := dd_set_primary 0 (dd_set_list [] d1)). set (s3 := with_dd (<[p := d3]> (g_dd s2)) s2).
  assert (Hi3 : Inv n s3 (hold (OSurf pr) 1 h1)).
  { apply (inv_dd_update _ _ _ _ _ _ h1 _ Hi2 p _ d3 Hd2); [done|simpl; lia|moved..]. }
  apply dwp_bind. eapply dwp_mono; [apply (surf_release_inv n pr s3 _ Hi3)|].
  - by apply nonneg_hold.
  - rewrite hold_same. specialize (Hh1 (OSurf pr)). lia.
  - done.
  - intros r s' [Hi' Hk]. apply dwp_ret.
    assert (Hi'' : Inv n s' h1) by (eapply inv_ext; [|exact Hi']; intros o; by apply hold_cancel).
    pose proof (kp_dd _ _ _ Hk p) as Hshr. replace (g_dd s3 !! p) with (Some d3) in Hshr by (symmetry; apply lookup_insert_eq).
    destruct (g_dd s' !! p) as [d'|] eqn:Ed'; [|done]. destruct Hshr as (Er & El & Epr).
    apply (dd_free_spec n p s' h1 d'); try done.
    + by apply (kept_surf_pos n s3 s' h1).
    + intros q z Hq Hz. pose proof (kp_dd _ _ _ Hk q) as Hq'. rewrite Hz in Hq'. destruct (g_dd s3 !! q) as [z0|] eqn:Ez; [|done].
      destruct Hq' as (-> & _). cbn in Ez. rewrite lookup_insert_ne in Ez by done. by apply (Hds2 q).
    + rewrite Er. simpl. lia.
    + simpl in El. destruct (surface_list d') as [|a l]; [done|]. exfalso. specialize (El a). set_solver.
    + by destruct Epr as [->| ->].
    + intros s4 Hs4. by apply HQ.
Qed.
End lifetime.
