(* ===== verification/DDrawRun.v ===== *)
(** * Programs that use DirectDraw

    A guest program is a list of calls on the interfaces of DirectDraw, made through
    references that it holds.  Whatever the calls, no method touches a freed object. *)
From S2P Require Import Prelude Bytes DDrawDesc DDraw DDrawSafe.

Inductive dd_op :=
| GCreate
| GAddRef (p : Z) | GRelease (p : Z) | GQueryInterface (p : Z) (known : bool)
| GSetCooperativeLevel (p hwnd flags : Z) | GSetDisplayMode (p w h bpp : Z)
| GCreateSurface (p : Z) (desc : bytes) | GCreatePalette (p flags : Z) (entries : option (list DDPALETTEENTRY)) | GCreateClipper (p : Z)
| GGetGDISurface (p ptr : Z) | GGetDisplayMode (p ptr : Z) (desc : bytes) | GGetScanLine (out : bool) | GGetVerticalBlankStatus
| SAddRef (p : Z) | SRelease (p : Z) | SQueryInterface (p : Z) (known : bool)
| SAddAttachedSurface (p q : Z) | SDeleteAttachedSurface (p q : Z) | SGetAttachedSurface (p caps : Z)
| SBlt (p : Z) (r : option DDRECT) (q : Z) (rq : option DDRECT) (flags : Z) (fx : option Z)
| SBltFast (p x y q : Z) (rq : option DDRECT) | SFlip (p : Z)
| SGetCaps (p : Z) | SGetPalette (p : Z) | SSetPalette (p pal : Z) | SSetClipper (p c : Z) | SGetClipper (p : Z)
| SGetSurfaceDesc (p : Z) (desc : bytes) | SLock (p : Z) (r : option DDRECT) (desc : option bytes) | SUnlock (p : Z)
| PAddRef (p : Z) | PRelease (p : Z) | PQueryInterface (p : Z) (known : bool)
| PGetCaps (p : Z) | PInitialize (p flags : Z) | PGetEntries (p start count : Z)
| PSetEntries (p start count : Z) (entries : list DDPALETTEENTRY)
| CAddRef (p : Z) | CRelease (p : Z) | CQueryInterface (p : Z) (known : bool) | CSetHWnd (p hwnd : Z) | CGetHWnd (p : Z).

(** A call is made through references that the program holds; the other surfaces,
    palettes and clippers that it names are held or NULL. *)
Definition has (h : held) (o : Z -> obj) (p : Z) : bool := negb (p =? 0) && (0 <? h (o p)).
Definition has_or_null (h : held) (o : Z -> obj) (p : Z) : bool := (p =? 0) || has h o p.
Definition allowed (o : dd_op) (h : held) : bool :=
  match o with
  | GCreate | GGetScanLine _ | GGetVerticalBlankStatus => true
  | GAddRef p | GRelease p | GQueryInterface p _ | GSetCooperativeLevel p _ _ | GSetDisplayMode p _ _ _ | GCreateSurface p _
  | GCreatePalette p _ _ | GCreateClipper p | GGetGDISurface p _ | GGetDisplayMode p _ _ => has h ODd p
  | SAddRef p | SRelease p | SQueryInterface p _ | SGetAttachedSurface p _ | SFlip p | SGetCaps p | SGetPalette p | SGetClipper p
  | SGetSurfaceDesc p _ | SLock p _ _ | SUnlock p => has h OSurf p
  | SAddAttachedSurface p q | SDeleteAttachedSurface p q | SBlt p _ q _ _ _ | SBltFast p _ _ q _ => has h OSurf p && has_or_null h OSurf q
  | SSetPalette p q => has h OSurf p && has_or_null h OPal q
  | SSetClipper p q => has h OSurf p && has_or_null h OClip q
  | PAddRef p | PRelease p | PQueryInterface p _ | PGetCaps p | PInitialize p _ | PGetEntries p _ _ | PSetEntries p _ _ _ => has h OPal p
  | CAddRef p | CRelease p | CQueryInterface p _ | CSetHWnd p _ | CGetHWnd p => has h OClip p
  end.
(** The guest's blocks are large enough for what the call reads and writes. *)
Definition op_ok (o : dd_op) : Prop :=
  match o with
  | GCreateSurface _ b | GGetDisplayMode _ _ b | SGetSurfaceDesc _ b | SLock _ _ (Some b) => 0x6C <= blen b
  | GCreatePalette _ flags (Some l) => ddraw_palette_color_count flags <= Z.of_nat (length l)
  | PSetEntries _ _ count l => count <= Z.of_nat (length l)
  | _ => True
  end.
(** The two calls that make the code forget a reference: a palette set on a surface that
    has it already, and a surface created while the object has a primary surface. *)
Definition tidy_op {H} (o : dd_op) (s : ddraw H) : bool :=
  match o with
  | SSetPalette p pal => match g_surf s !! p with Some x => (pal =? 0) || negb (su_palette x =? pal) | None => true end
  | GCreateSurface p _ => match g_dd s !! p with Some d => primary_surface d =? 0 | None => true end
  | _ => true
  end.

(** The list of a DirectDraw object holds a surface that has been freed. *)
Definition dangles {H} (p : Z) (s : ddraw H) : bool :=
  match g_dd s !! p with
  | Some d => existsb (fun q => bool_decide (g_surf s !! q = None)) (surface_list d)
  | None => false
  end.
Definition left_dangling {H} (o : dd_op) (s : ddraw H) : bool :=
  match o with GCreateSurface p _ => dangles p s | _ => false end.

Section run.
Context {H : Type} {B : DdBackend H}.
Variable malloc_surface : ddraw H -> option Z.
Variable malloc : ddraw H -> option Z.
Variable junk : list Z.

(** The result of a call that gives a reference when it succeeds. *)
Definition gains (o : Z -> obj) (h : held) (m : D H (ddresult * Z)) : D H held :=
  '(hr, p) ← m; mret (if bool_decide (hr = DD_OK) then hold (o p) 1 h else h).
Definition keeps {A} (h : held) (m : D H A) : D H held := _ ← m; mret h.

Definition guest_step (o : dd_op) (h : held) : D H held :=
  match o with
  | GCreate => gains ODd h (DirectDrawCreate malloc true true)
  | GAddRef p => keeps (hold (ODd p) 1 h) (ddraw_add_ref p)
  | GRelease p => keeps (hold (ODd p) (-1) h) (ddraw_release p)
  | GQueryInterface p known => gains ODd h (ddraw_query_interface p known)
  | GSetCooperativeLevel p hwnd flags => keeps h (ddraw_SetCooperativeLevel p hwnd flags)
  | GSetDisplayMode p w ht bpp => keeps h (ddraw_SetDisplayMode p w ht bpp)
  | GCreateSurface p desc => gains OSurf h (ddraw_create_surface_from_desc malloc_surface p (Some desc) true)
  | GCreatePalette p flags entries => gains OPal h (ddraw_CreatePalette malloc p flags entries true)
  | GCreateClipper p => gains OClip h (ddraw_clipper_create malloc p true)
  | GGetGDISurface p ptr => gains OSurf h (ddraw_get_gdi_surface p ptr)
  | GGetDisplayMode p ptr desc => keeps h (ddraw_get_display_mode p ptr desc)
  | GGetScanLine out => keeps h (ddraw_get_scan_line out)
  | GGetVerticalBlankStatus => keeps h ddraw_get_vertical_blank_status
  | SAddRef p => keeps (hold (OSurf p) 1 h) (ddraw_surface_add_ref p)
  | SRelease p => keeps (hold (OSurf p) (-1) h) (ddraw_surface_release p)
  | SQueryInterface p known => gains OSurf h (surface_QueryInterface p known)
  | SAddAttachedSurface p q => keeps h (surface_AddAttachedSurface p q)
  | SDeleteAttachedSurface p q => keeps h (surface_DeleteAttachedSurface p q)
  | SGetAttachedSurface p caps => gains OSurf h (surface_GetAttachedSurface p caps true)
  | SBlt p r q rq flags fx => keeps h (surface_Blt p r q rq flags fx)
  | SBltFast p x y q rq => keeps h (surface_BltFast p x y q rq)
  | SFlip p => keeps h (surface_Flip p)
  | SGetCaps p => keeps h (surface_GetCaps p true)
  | SGetPalette p => gains OPal h (surface_GetPalette p true)
  | SSetPalette p pal => keeps h (surface_SetPalette p pal)
  | SSetClipper p c => keeps h (ddraw_surface_set_clipper p c)
  | SGetClipper p => gains OClip h (ddraw_surface_get_clipper p true)
  | SGetSurfaceDesc p desc => keeps h (surface_GetSurfaceDesc p (Some desc))
  | SLock p r desc => keeps h (surface_Lock p r desc)
  | SUnlock p => keeps h (surface_Unlock p)
  | PAddRef p => keeps (hold (OPal p) 1 h) (ddraw_palette_add_ref p)
  | PRelease p => keeps (hold (OPal p) (-1) h) (ddraw_palette_release p)
  | PQueryInterface p known => gains OPal h (palette_QueryInterface p known)
  | PGetCaps p => keeps h (palette_GetCaps p true)
  | PInitialize p flags => keeps h (palette_Initialize p flags)
  | PGetEntries p start count => keeps h (palette_GetEntries junk p start count true)
  | PSetEntries p start count entries => keeps h (palette_SetEntries p start count (Some entries))
  | CAddRef p => keeps (hold (OClip p) 1 h) (ddraw_clipper_add_ref p)
  | CRelease p => keeps (hold (OClip p) (-1) h) (ddraw_clipper_release p)
  | CQueryInterface p known => gains OClip h (clipper_QueryInterface p known)
  | CSetHWnd p hwnd => keeps h (clipper_SetHWnd p hwnd)
  | CGetHWnd p => keeps h (clipper_GetHWnd p true)
  end.

(** A program ends at the first call that it may not make, and after a creation that
    leaves a freed surface in a list, which is then part of the result. *)
Fixpoint guest_run (tidy : bool) (ops : list dd_op) (h : held) : D H (held * option dd_op) :=
  match ops with
  | [] => mret (h, None)
  | o :: ops =>
      s ← get_state;
      if allowed o h && (negb tidy || tidy_op o s) then
        h ← guest_step o h;
        s ← get_state;
        if left_dangling o s then mret (h, Some o) else guest_run tidy ops h
      else mret (h, None)
  end.
End run.

(** ** Single calls *)

Section calls.
Context {H : Type} {B : DdBackend H} {crash : Prop} {serves : DdServes H crash}.
Variable tidy : bool.
Variables (n : Z) (s : ddraw H) (h : held).
Implicit Types (p q : Z).
Abbreviation Ginv n s h := (ginv tidy n (heaps_of s) h).
Abbreviation wp := (wp (crash := crash)).

Lemma ginv_same n' n0 hp hp' h0 h' :
  inv tidy n' hp' h' -> nonneg h' -> hp'.1.1 = hp.1.1 -> ginv tidy n0 hp h0 -> ginv tidy n' hp' h'.
Proof. intros Hi Hh E [_ _ Hs Hd]. split; [done|done|by rewrite E..]. Qed.
Lemma ginv_intro_surf n' dds surfs pals clips h' p y :
  inv tidy n' (dds, <[p := y]> surfs, pals, clips) h' -> nonneg h' -> 0 < su_ref_count y ->
  (forall q x, surfs !! q = Some x -> 0 < su_ref_count x) -> (forall q d, dds !! q = Some d -> 0 < dd_ref_count d) ->
  ginv tidy n' (dds, <[p := y]> surfs, pals, clips) h'.
Proof.
  intros Hi Hh Hy Hs Hd. split; [done|done| |done]. simpl. intros q z.
  destruct (decide (q = p)) as [->|]; [rewrite lookup_insert_eq; by intros [= <-]|rewrite lookup_insert_ne by done; apply Hs].
Qed.
Lemma ginv_insert_surf n' n0 hp h0 h' p y :
  inv tidy n' (hp.1.1.1, <[p := y]> hp.1.1.2, hp.1.2, hp.2) h' -> nonneg h' -> 0 < su_ref_count y -> ginv tidy n0 hp h0 ->
  ginv tidy n' (hp.1.1.1, <[p := y]> hp.1.1.2, hp.1.2, hp.2) h'.
Proof. intros Hi Hh Hy [_ _ Hs Hd]. by apply ginv_intro_surf. Qed.

Hypothesis Hg : Ginv n s h.
Hypothesis Hn : n + 2 < 2 ^ 32.

Lemma has_spec o p : has h o p = true -> p <> 0 /\ 0 < h (o p).
Proof. unfold has. intros [? ?]%andb_prop. split; lia. Qed.
Lemma held_surf p : has h OSurf p = true -> exists x, g_surf s !! p = Some x.
Proof.
  intros [Hp Hh]%has_spec. destruct Hg as [Hi Hnn _ _]. pose proof (iv_surf _ _ _ _ Hi p Hp) as Hf. apply fits_le in Hf. cbn in Hf.
  pose proof (refs_nonneg su_next (g_surf s) p). pose proof (refs_nonneg primary_surface (g_dd s) p).
  destruct (rc_alive su_ref_count (g_surf s) p ltac:(lia)) as (x & Hx & _). eauto.
Qed.
Lemma held_ddraw p : has h ODd p = true -> exists d, g_dd s !! p = Some d.
Proof. intros [Hp Hh]%has_spec. destruct Hg as [Hi _ _ _]. by apply (held_dd tidy n (heaps_of s) h p Hi). Qed.
Lemma held_pal_rc p : has h OPal p = true -> 0 < rc pl_ref_count (g_pal s) p.
Proof.
  intros [Hp Hh]%has_spec. destruct Hg as [Hi _ _ _]. pose proof (iv_pal _ _ _ _ Hi p Hp) as Hf. apply fits_le in Hf. cbn in Hf.
  pose proof (refs_nonneg su_palette (g_surf s) p). lia.
Qed.
Lemma held_clip_rc p : has h OClip p = true -> 0 < rc cl_ref_count (g_clip s) p.
Proof.
  intros [Hp Hh]%has_spec. destruct Hg as [Hi _ _ _]. pose proof (iv_clip _ _ _ _ Hi p Hp) as Hf. apply fits_le in Hf. cbn in Hf.
  pose proof (refs_nonneg su_clipper (g_surf s) p). lia.
Qed.
Lemma held_pal p : has h OPal p = true -> exists x, g_pal s !! p = Some x.
Proof. intros Hp. destruct (rc_alive _ _ _ (held_pal_rc p Hp)) as (x & Hx & _). eauto. Qed.
Lemma held_clip p : has h OClip p = true -> exists x, g_clip s !! p = Some x.
Proof. intros Hp. destruct (rc_alive _ _ _ (held_clip_rc p Hp)) as (x & Hx & _). eauto. Qed.
(** The links of live objects. *)
Lemma linked_pal_rc p x : g_surf s !! p = Some x -> su_palette x <> 0 -> 0 < rc pl_ref_count (g_pal s) (su_palette x).
Proof.
  intros Hx Hp. destruct Hg as [Hi Hh _ _]. pose proof (iv_pal _ _ _ _ Hi _ Hp) as Hf. apply fits_le in Hf. cbn in Hf.
  pose proof (refs_pos su_palette (g_surf s) p x Hx). specialize (Hh (OPal (su_palette x))). lia.
Qed.
Lemma linked_clip_rc p x : g_surf s !! p = Some x -> su_clipper x <> 0 -> 0 < rc cl_ref_count (g_clip s) (su_clipper x).
Proof.
  intros Hx Hp. destruct Hg as [Hi Hh _ _]. pose proof (iv_clip _ _ _ _ Hi _ Hp) as Hf. apply fits_le in Hf. cbn in Hf.
  pose proof (refs_pos su_clipper (g_surf s) p x Hx). specialize (Hh (OClip (su_clipper x))). lia.
Qed.
Lemma referenced_surf q : q <> 0 -> 0 < refs su_next (g_surf s) q + refs primary_surface (g_dd s) q -> exists y, g_surf s !! q = Some y.
Proof.
  intros Hq Hr. destruct Hg as [Hi Hh _ _]. pose proof (iv_surf _ _ _ _ Hi _ Hq) as Hf. apply fits_le in Hf. cbn in Hf.
  specialize (Hh (OSurf q)). destruct (rc_alive su_ref_count (g_surf s) q ltac:(lia)) as (y & Hy & _). eauto.
Qed.
Lemma linked_surf p x : g_surf s !! p = Some x -> su_next x <> 0 -> exists y, g_surf s !! su_next x = Some y.
Proof. intros Hx Hp. apply referenced_surf; [done|]. pose proof (refs_pos su_next _ _ _ Hx). pose proof (refs_nonneg primary_surface (g_dd s) (su_next x)). lia. Qed.
Lemma linked_primary p d : g_dd s !! p = Some d -> primary_surface d <> 0 -> exists y, g_surf s !! primary_surface d = Some y.
Proof.
  intros Hd Hp. apply referenced_surf; [done|]. pose proof (refs_pos primary_surface _ _ _ Hd).
  pose proof (refs_nonneg su_next (g_surf s) (primary_surface d)). lia.
Qed.

Lemma up : Ginv (n + 2) s h.
Proof. by apply (ginv_weaken tidy n); [|lia]. Qed.

(** A change of a surface that keeps its links and its count. *)
Definition same_links (x y : my_surface_t) : Prop :=
  su_ref_count y = su_ref_count x /\ su_dd_owner y = su_dd_owner x /\ su_next y = su_next x /\ su_palette y = su_palette x /\
  su_clipper y = su_clipper x.
Lemma ginv_surf_quiet p x y : g_surf s !! p = Some x -> same_links x y -> Ginv n (with_surf (<[p := y]> (g_surf s)) s) h.
Proof.
  intros Hx (E1 & E2 & E3 & E4 & E5). pose proof Hg as [Hi Hh Hs _]. pose proof (cb_bound _ _ _ (iv_surf_bound _ _ _ _ Hi) _ _ Hx) as Hb.
  apply (ginv_insert_surf n n (heaps_of s) h); [|done| |done]; [|rewrite E1; by apply (Hs p)].
  apply (inv_surf_update _ _ _ _ _ _ h _ Hi p x); [done|done|by rewrite E1|..]; rewrite ?E1, ?E3, ?E4, ?E5; moved.
Qed.
Definition same_dd (d y : my_dd_t) : Prop :=
  dd_ref_count y = dd_ref_count d /\ surface_list y = surface_list d /\ primary_surface y = primary_surface d.
Lemma ginv_dd_quiet p d y : g_dd s !! p = Some d -> same_dd d y -> Ginv n (with_dd (<[p := y]> (g_dd s)) s) h.
Proof.
  intros Hx (E1 & E2 & E3). pose proof Hg as [Hi Hh _ Hs]. pose proof (cb_bound _ _ _ (iv_dd_bound _ _ _ _ Hi) _ _ Hx) as Hb.
  apply (ginv_insert_dd tidy n (heaps_of s) h p h); [|done|done|rewrite E1; by apply (Hs p)].
  apply (inv_dd_update _ _ _ _ _ _ h _ Hi p d); [done|done|by rewrite E1|..]; rewrite ?E1, ?E3; moved.
Qed.

(** *** References *)

Lemma hold_nonneg o : nonneg (hold o 1 h).
Proof. apply nonneg_hold, (gi_held _ _ _ _ Hg). Qed.
Lemma surf_inc p x : g_surf s !! p = Some x ->
  Ginv (n + 2) (with_surf (<[p := su_set_ref (inc (su_ref_count x)) x]> (g_surf s)) s) (hold (OSurf p) 1 h).
Proof.
  intros Hx. pose proof Hg as [Hi Hh Hs _]. pose proof (cb_bound _ _ _ (iv_surf_bound _ _ _ _ Hi) _ _ Hx) as Hb. specialize (Hs p x Hx).
  rewrite (inc_small _ n) by lia. apply (ginv_insert_surf (n + 2) n (heaps_of s) h); [|apply hold_nonneg|simpl; lia|done].
  apply (inv_surf_update _ _ _ _ _ _ h _ (dinv_weaken _ _ _ _ _ Hi (ltac:(lia) : n <= n + 2)) p x); [done|done|simpl; lia|moved; simpl; lia|moved..].
Qed.
Lemma surf_add_ref p x (Q : Z -> ddraw H -> Prop) : g_surf s !! p = Some x ->
  (forall r, Q r (with_surf (<[p := su_set_ref (inc (su_ref_count x)) x]> (g_surf s)) s)) -> wp (ddraw_surface_add_ref p) s Q.
Proof.
  intros Hx HQ. pose proof Hg as [Hi _ _ _]. pose proof (bounded_nonzero _ _ _ _ _ (iv_surf_bound _ _ _ _ Hi) Hx).
  unfold ddraw_surface_add_ref. replace (p =? 0) with false by lia. wp_go. apply HQ.
Qed.
Lemma dd_inc p d : g_dd s !! p = Some d ->
  Ginv (n + 2) (with_dd (<[p := dd_set_ref (inc (dd_ref_count d)) d]> (g_dd s)) s) (hold (ODd p) 1 h).
Proof.
  intros Hx. pose proof Hg as [Hi Hh _ Hs]. pose proof (cb_bound _ _ _ (iv_dd_bound _ _ _ _ Hi) _ _ Hx) as Hb. specialize (Hs p d Hx).
  rewrite (inc_small _ n) by lia. apply (ginv_insert_dd tidy (n + 2) (heaps_of s) _ p h); [|apply hold_nonneg|apply up|simpl; lia].
  apply (inv_dd_update _ _ _ _ _ _ h _ (dinv_weaken _ _ _ _ _ Hi (ltac:(lia) : n <= n + 2)) p d); [done|done|simpl; lia|moved; simpl; lia|moved..].
Qed.
Lemma pal_add p (Q : Z -> ddraw H -> Prop) : p <> 0 -> 0 < rc pl_ref_count (g_pal s) p ->
  (forall r s', Ginv (n + 2) s' (hold (OPal p) 1 h) -> Q r s') -> wp (ddraw_palette_add_ref p) s Q.
Proof.
  intros Hp Hr HQ. apply (pal_add_ref_spec tidy n p s h); [apply Hg|done|done|lia|]. intros r m Hi _. apply HQ.
  apply (ginv_same (n + 2) n (heaps_of s) _ h); [by apply (dinv_weaken _ (n + 1)); [|lia]|apply hold_nonneg|done|done].
Qed.
Lemma clip_add p (Q : Z -> ddraw H -> Prop) : p <> 0 -> 0 < rc cl_ref_count (g_clip s) p ->
  (forall r s', Ginv (n + 2) s' (hold (OClip p) 1 h) -> Q r s') -> wp (ddraw_clipper_add_ref p) s Q.
Proof.
  intros Hp Hr HQ. apply (clip_add_ref_spec tidy n p s h); [apply Hg|done|done|lia|]. intros r m Hi. apply HQ.
  apply (ginv_same (n + 2) n (heaps_of s) _ h); [by apply (dinv_weaken _ (n + 1)); [|lia]|apply hold_nonneg|done|done].
Qed.
Lemma pal_drop p (Q : Z -> ddraw H -> Prop) : has h OPal p = true ->
  (forall r s', Ginv n s' (hold (OPal p) (-1) h) -> Q r s') -> wp (ddraw_palette_release p) s Q.
Proof.
  intros Hp HQ. destruct (has_spec _ _ Hp) as [Hp0 Hph]. apply (pal_release_spec tidy n p s h); [apply Hg|done|by apply held_pal_rc|].
  intros r m g Hi. apply HQ. apply (ginv_same n n (heaps_of s) _ h); [done|apply nonneg_drop; [apply Hg|done]|done|done].
Qed.
Lemma clip_drop p (Q : Z -> ddraw H -> Prop) : has h OClip p = true ->
  (forall r s', Ginv n s' (hold (OClip p) (-1) h) -> Q r s') -> wp (ddraw_clipper_release p) s Q.
Proof.
  intros Hp HQ. destruct (has_spec _ _ Hp) as [Hp0 Hph]. apply (clip_release_spec tidy n p s h); [apply Hg|done|by apply held_clip_rc|].
  intros r m Hi. apply HQ. apply (ginv_same n n (heaps_of s) _ h); [done|apply nonneg_drop; [apply Hg|done]|done|done].
Qed.

(** *** Links *)

Lemma ginv_surf_links h' p x y :
  g_surf s !! p = Some x -> su_ref_count y = su_ref_count x -> su_dd_owner y = su_dd_owner x -> nonneg h' ->
  (forall q, q <> 0 -> h' (OSurf q) + one (su_next y = q) = h (OSurf q) + one (su_next x = q)) ->
  (forall q, q <> 0 -> h' (OPal q) + one (su_palette y = q) = h (OPal q) + one (su_palette x = q)) ->
  (forall q, q <> 0 -> h' (OClip q) + one (su_clipper y = q) = h (OClip q) + one (su_clipper x = q)) ->
  (forall q, h' (ODd q) = h (ODd q)) -> Ginv n (with_surf (<[p := y]> (g_surf s)) s) h'.
Proof.
  intros Hx Er Eo Hh' H1 H2 H3 H4. pose proof Hg as [Hi Hh Hs _]. pose proof (cb_bound _ _ _ (iv_surf_bound _ _ _ _ Hi) _ _ Hx) as Hb.
  apply (ginv_insert_surf n n (heaps_of s) h); [|done|rewrite Er; by apply (Hs p)|done].
  apply (inv_surf_update _ _ _ _ _ _ h _ Hi p x); [done|done|by rewrite Er| |done|done|done].
  intros q Hq. specialize (H1 q Hq). rewrite Er. destruct (decide _); lia.
Qed.
Lemma ginv_primary h' p d k :
  g_dd s !! p = Some d -> nonneg h' ->
  (forall q, q <> 0 -> h' (OSurf q) + one (k = q) = h (OSurf q) + one (primary_surface d = q)) ->
  (forall o, match o with OSurf _ => True | _ => h' o = h o end) -> Ginv n (with_dd (<[p := dd_set_primary k d]> (g_dd s)) s) h'.
Proof.
  intros Hx Hh' H1 H2. pose proof Hg as [Hi Hh _ Hs]. pose proof (cb_bound _ _ _ (iv_dd_bound _ _ _ _ Hi) _ _ Hx) as Hb.
  apply (ginv_insert_dd tidy n (heaps_of s) h' p h); [|done|done|apply (Hs p d Hx)].
  apply (inv_dd_update _ _ _ _ _ _ h _ Hi p d); [done|done|done| |done|..].
  - intros q Hq. rewrite (H2 (ODd q)). simpl. destruct (decide _); lia.
  - intros q. apply (H2 (OPal q)).
  - intros q. apply (H2 (OClip q)).
Qed.
(** A reference that is forgotten. *)
Lemma ginv_forget h' : tidy = false -> (forall o, h' o <= h o) -> nonneg h' -> Ginv n s h'.
Proof.
  intros Ht Hle Hh'. destruct Hg as [Hi Hh Hs Hd]. split; [|done..]. destruct Hi. unfold fits in *. rewrite Ht in *.
  split; try done; unfold fits; intros p Hp.
  - specialize (Hle (ODd p)). specialize (iv_dd p Hp). lia.
  - specialize (Hle (OSurf p)). specialize (iv_surf p Hp). lia.
  - specialize (Hle (OPal p)). specialize (iv_pal p Hp). lia.
  - specialize (Hle (OClip p)). specialize (iv_clip p Hp). lia.
Qed.

Lemma clear_clipper_spec p x (Q : unit -> ddraw H -> Prop) :
  g_surf s !! p = Some x ->
  (forall s' x', Ginv n s' h -> g_surf s' !! p = Some x' -> su_clipper x' = 0 -> same_links x (su_set_clipper (su_clipper x) x') -> Q tt s') ->
  wp (ddraw_surface_clear_clipper p) s Q.
Proof.
  intros Hx HQ. pose proof Hg as [Hi Hh Hs Hd]. pose proof (bounded_nonzero _ _ _ _ _ (iv_surf_bound _ _ _ _ Hi) Hx) as Hp0.
  pose proof (cb_bound _ _ _ (iv_surf_bound _ _ _ _ Hi) _ _ Hx) as Hb.
  unfold ddraw_surface_clear_clipper. replace (p =? 0) with false by lia. wp_go. destruct (su_clipper x =? 0) eqn:E.
  - apply dwp_ret. apply (HQ s x Hg Hx); [lia|]. by destruct x.
  - assert (Hc : su_clipper x <> 0) by lia. apply dwp_bind. apply (clip_release_spec tidy n _ s h _ Hi Hc).
    + by apply (linked_clip_rc p x).
    + intros r m Hi1. eapply dwp_on_surf; [exact Hx|]. apply (HQ _ (su_set_clipper 0 x)); [|apply lookup_insert_eq|done|by destruct x].
      apply ginv_intro_surf; [|done|apply (Hs p x Hx)|exact Hs|exact Hd].
      apply (inv_surf_update _ _ _ _ _ _ _ _ Hi1 p x); [done..|moved|moved|moved|moved].
Qed.
End calls.

(** ** Calls that change links *)

Section links.
Context {H : Type} {B : DdBackend H} {crash : Prop} {serves : DdServes H crash}.
Variable tidy : bool.
Implicit Types (n p q : Z) (s : ddraw H) (h : held).
Abbreviation Ginv n s h := (ginv tidy n (heaps_of s) h).
Abbreviation wp := (wp (crash := crash)).

(** The post of a call: the program's references and the invariant with a larger bound. *)
Definition post {A} n h (_ : A) s' : Prop := Ginv (n + 2) s' h.

Lemma attach_spec n s h p q :
  Ginv n s h -> n + 2 < 2 ^ 32 -> has h OSurf p = true -> has_or_null h OSurf q = true ->
  wp (surface_AddAttachedSurface p q) s (post n h).
Proof.
  intros Hg Hn Hp Hq. destruct (held_surf tidy n s h Hg p Hp) as (x & Hx). destruct (has_spec _ _ _ Hp) as [Hp0 _].
  unfold surface_AddAttachedSurface. replace (p =? 0) with false by lia. cbn [orb]. destruct (q =? 0) eqn:Eq; [by apply dwp_ret, up|].
  unfold has_or_null in Hq. rewrite Eq in Hq. cbn [orb] in Hq. destruct (held_surf tidy n s h Hg q Hq) as (y & Hy). destruct (has_spec _ _ _ Hq) as [Hq0 Hqh].
  wp_go. destruct (su_next x =? 0) eqn:En; cbn [negb]; [|by apply dwp_ret, up].
  apply dwp_bind. apply (surf_add_ref tidy n s h Hg q y _ Hy). intros r.
  pose proof (surf_inc tidy n s h Hg Hn q y Hy) as Hg1. set (s1 := with_surf _ s) in *.
  assert (Hx1 : exists x1, g_surf s1 !! p = Some x1 /\ su_next x1 = 0).
  { cbn. destruct (decide (p = q)) as [->|]; [rewrite lookup_insert_eq|rewrite lookup_insert_ne by done]; eexists; (split; [done|]); simplify_eq; simpl; lia. }
  destruct Hx1 as (x1 & Hx1 & Hnx). wp_go.
  apply (ginv_surf_links tidy _ s1 _ Hg1 h p x1); [done|done|done|apply Hg|moved|moved|moved|moved].
Qed.

Lemma detach_spec n s h p q :
  Ginv n s h -> has h OSurf p = true -> wp (surface_DeleteAttachedSurface p q) s (post n h).
Proof.
  intros Hg Hp. destruct (held_surf tidy n s h Hg p Hp) as (x & Hx). destruct (has_spec _ _ _ Hp) as [Hp0 _].
  unfold surface_DeleteAttachedSurface. replace (p =? 0) with false by lia. cbn [orb]. destruct (q =? 0) eqn:Eq; [by apply dwp_ret, up|].
  wp_go. destruct (su_next x =? q) eqn:En; cbn [negb]; [|by apply dwp_ret, up]. apply Z.eqb_eq in En. subst q. wp_go.
  set (q := su_next x) in *.
  assert (Hg1 : Ginv n (with_surf (<[p := su_set_next 0 x]> (g_surf s)) s) (hold (OSurf q) 1 h)).
  { apply (ginv_surf_links tidy n s h Hg _ p x); [done|done|done|by apply (hold_nonneg tidy n s h)|moved|moved|moved|moved]. }
  apply (surf_release_ginv tidy n q _ _ _ Hg1).
  - rewrite hold_same. pose proof (gi_held _ _ _ _ Hg (OSurf q)). lia.
  - lia.
  - intros r s' Hg'. apply dwp_ret. apply up. eapply ginv_ext; [|exact Hg']. intros o. by apply hold_cancel.
Qed.

Lemma set_clipper_spec n s h p c :
  Ginv n s h -> n + 2 < 2 ^ 32 -> has h OSurf p = true -> has_or_null h OClip c = true ->
  wp (ddraw_surface_set_clipper p c) s (post n h).
Proof.
  intros Hg Hn Hp Hc. destruct (held_surf tidy n s h Hg p Hp) as (x & Hx). destruct (has_spec _ _ _ Hp) as [Hp0 _].
  unfold ddraw_surface_set_clipper. replace (p =? 0) with false by lia. wp_go.
  destruct (c =? su_clipper x) eqn:Ec; [by apply dwp_ret, up|].
  apply dwp_bind, (clear_clipper_spec tidy n s h Hg p x _ Hx). intros s1 x1 Hg1 Hx1 Hz Hsame. wp_go.
  pose proof (gi_held _ _ _ _ Hg) as Hh. destruct (c =? 0) eqn:E0; cbn [negb when].
  { wp_go. apply up. assert (c = 0) as -> by lia.
    apply (ginv_surf_links tidy n s1 h Hg1 _ p x1); [done|done|done|done|moved|moved|moved|moved]. }
  unfold has_or_null in Hc. rewrite E0 in Hc. cbn [orb] in Hc. destruct (has_spec _ _ _ Hc) as [Hc0 Hch].
  set (s2 := with_surf (<[p := su_set_clipper c x1]> (g_surf s1)) s1).
  assert (Hg2 : Ginv n s2 (hold (OClip c) (-1) h)).
  { apply (ginv_surf_links tidy n s1 h Hg1 _ p x1); [done|done|done|by apply nonneg_drop|moved|moved|moved|moved]. }
  wp_go. assert (Hx2 : g_surf s2 !! p = Some (su_set_clipper c x1)) by apply lookup_insert_eq.
  apply (clip_add tidy n s2 _ Hg2 Hn c); [done|by apply (linked_clip_rc tidy n s2 _ Hg2 p _ Hx2)|].
  intros r s3 Hg3. wp_go. unfold post. eapply ginv_ext; [|exact Hg3]. intros o. by apply hold_cancel.
Qed.

(** The palette that a surface had is released, unless it is the one that is set. *)
Lemma set_palette_moves n s h p pal x (Q : unit -> ddraw H -> Prop) :
  Ginv n s h -> g_surf s !! p = Some x -> has_or_null h OPal pal = true ->
  (tidy = true -> pal = 0 \/ su_palette x <> pal) ->
  (forall s', Ginv n s' (if pal =? 0 then h else hold (OPal pal) (-1) h) -> g_surf s' !! p = Some (su_set_palette pal x) -> Q tt s') ->
  wp (when (negb (su_palette x =? 0) && negb (su_palette x =? pal)) (_ ← ddraw_palette_release (su_palette x); mret tt)) s
    (fun _ s' => wp (on_surf p (su_set_palette pal)) s' Q).
Proof.
  intros Hg Hx Hpal Htidy HQ. pose proof Hg as [Hi Hh Hs Hd]. pose proof (cb_bound _ _ _ (iv_surf_bound _ _ _ _ Hi) _ _ Hx) as Hb.
  assert (Hh' : nonneg (if pal =? 0 then h else hold (OPal pal) (-1) h)).
  { unfold has_or_null in Hpal. destruct (pal =? 0); [done|]. cbn [orb] in Hpal. apply nonneg_drop; [done|]. by destruct (has_spec _ _ _ Hpal). }
  apply dwp_when; intros E.
  - assert (Hp0 : su_palette x <> 0) by lia. wp_go. apply (pal_release_spec tidy n _ s h _ Hi Hp0).
    + by apply (linked_pal_rc tidy n s h Hg p x).
    + intros r m g Hi1. apply dwp_ret. eapply dwp_on_surf; [exact Hx|]. apply HQ; [|apply lookup_insert_eq].
      apply ginv_intro_surf; [|done|apply (Hs p x Hx)|exact Hs|exact Hd].
      destruct (pal =? 0) eqn:E0; (apply (inv_surf_update _ _ _ _ _ _ _ _ Hi1 p x); [done..|moved|moved|moved|moved]).
  - eapply dwp_on_surf; [exact Hx|]. apply HQ; [|apply lookup_insert_eq].
    destruct (decide (su_palette x = pal)) as [Esame|Hne].
    + assert (Hg1 : Ginv n (with_surf (<[p := su_set_palette pal x]> (g_surf s)) s) h).
      { apply (ginv_surf_quiet tidy n s h Hg p x _ Hx). by destruct x; simpl in Esame; subst. }
      destruct (pal =? 0) eqn:E0; [done|]. apply (ginv_forget tidy n _ h Hg1); [|unfold hold; intros; case_decide; lia|done].
      destruct tidy; [|done]. destruct (Htidy eq_refl) as [->|]; done.
    + destruct (pal =? 0) eqn:E0; (apply (ginv_surf_links tidy n s h Hg _ p x); [done|done|done|done|moved|moved|moved|moved]).
Qed.

Lemma set_palette_spec n s h p pal :
  Ginv n s h -> n + 2 < 2 ^ 32 -> has h OSurf p = true -> has_or_null h OPal pal = true ->
  (tidy = true -> tidy_op (SSetPalette p pal) s = true) -> wp (surface_SetPalette p pal) s (post n h).
Proof.
  intros Hg Hn Hp Hpal Ht. destruct (held_surf tidy n s h Hg p Hp) as (x & Hx). destruct (has_spec _ _ _ Hp) as [Hp0 _].
  unfold surface_SetPalette. replace (p =? 0) with false by lia. apply dwp_bind. eapply dwp_surf_at; [exact Hx|].
  apply dwp_bind. eapply dwp_mono.
  { apply (set_palette_moves n s h p pal x
      (fun _ s' => Ginv n s' (if pal =? 0 then h else hold (OPal pal) (-1) h) /\ g_surf s' !! p = Some (su_set_palette pal x)) Hg Hx Hpal); [|by intros].
    intros E. specialize (Ht E). unfold tidy_op in Ht. rewrite Hx in Ht. lia. }
  intros [] s1 Hs1. apply dwp_bind. eapply dwp_mono; [exact Hs1|]. intros [] s2 [Hg2 Hx2]. clear Hs1.
  destruct (pal =? 0) eqn:E0; [by apply dwp_ret, up|].
  apply dwp_bind. apply (pal_add tidy n s2 _ Hg2 Hn pal); [lia|apply (linked_pal_rc tidy n s2 _ Hg2 p _ Hx2); simpl; lia|].
  intros r s3 Hg3. assert (Hg4 : Ginv (n + 2) s3 h) by (eapply ginv_ext; [|exact Hg3]; intros o; by apply hold_cancel).
  unfold has_or_null in Hpal. rewrite E0 in Hpal. cbn [orb] in Hpal.
  destruct (held_surf tidy _ s3 h Hg4 p Hp) as (x3 & Hx3). destruct (held_pal tidy _ s3 h Hg4 pal Hpal) as (y3 & Hy3).
  wp_go. destruct (negb (_ =? RB_OK)); [by apply dwp_ret|]. apply dwp_bind, dwp_when; intros E.
  - destruct (linked_surf tidy _ s3 h Hg4 p x3 Hx3) as (z & Hz); [lia|]. wp_go. exact Hg4.
  - wp_go. exact Hg4.
Qed.

(** ** Creating objects *)

Lemma inv_surf_alloc n dds surfs pals clips h p dd d rb caps :
  inv tidy n (dds, surfs, pals, clips) h -> 1 <= n -> p <> 0 -> surfs !! p = None -> dds !! dd = Some d ->
  inv tidy n (<[dd := dd_set_list (p :: surface_list d) d]> dds, <[p := mkSurface 1 rb caps 0 0 0 false dd 0 0 0]> surfs, pals, clips)
    (hold (OSurf p) 1 h).
Proof.
  intros [A1 A2 A3 A4 A5 A6 A7 A8 A9 A10 A11 A12] Hn Hp Hf Hd. simpl in *.
  assert (Hrefs : forall f, f (mkSurface 1 rb caps 0 0 0 false dd 0 0 0) = 0 -> forall q, q <> 0 ->
    refs f (<[p := mkSurface 1 rb caps 0 0 0 false dd 0 0 0]> surfs) q = refs f surfs q).
  { intros f Ef q Hq. rewrite refs_fresh, Ef by done. unfold one. rewrite decide_False by congruence. lia. }
  assert (Hnew : forall q z, dds !! q = Some z -> p ∉ surface_list z).
  { intros q z Hz Hin. destruct (A12 q z Hz) as [_ Hl]. destruct (Hl p Hin) as (w & Hw & _). congruence. }
  split; simpl; try done.
  - intros q Hq. rewrite hold_ne, rc_insert by done. destruct (decide _) as [->|]; [|by apply A1]. simpl.
    rewrite <- (rc_some dd_ref_count _ _ _ Hd). by apply A1.
  - intros q Hq. rewrite Hrefs, refs_insert, Hd, rc_insert by done. cbn [hits from_option dd_set_list primary_surface].
    apply (fits_shift _ _ _ _ _ (A2 q Hq)). unfold hold. destruct (decide (q = p)) as [->|].
    + rewrite decide_True by done. unfold rc. rewrite Hf. simpl. lia.
    + rewrite decide_False by congruence. lia.
  - intros q Hq. rewrite hold_ne, Hrefs by done. by apply A3.
  - intros q Hq. rewrite hold_ne, Hrefs by done. by apply A4.
  - apply bounded_insert; [done|by apply (bounded_nonzero _ _ _ _ _ A5 Hd)|apply (cb_bound _ _ _ A5 _ _ Hd)].
  - by apply bounded_insert.
  - intros q z. destruct (decide (q = p)) as [->|].
    + rewrite lookup_insert_eq. intros [= <-] _. simpl. rewrite lookup_insert_eq. eexists. split; [done|]. by left.
    + rewrite lookup_insert_ne by done. intros Hz Hzo. destruct (A11 q z Hz Hzo) as (d' & Hd' & Hin).
      destruct (decide (su_dd_owner z = dd)) as [E|]; [|rewrite lookup_insert_ne by done; eauto].
      rewrite E, lookup_insert_eq. eexists. split; [done|]. simpl. rewrite E, Hd in Hd'. injection Hd' as <-. by right.
  - intros q z. destruct (decide (q = dd)) as [->|].
    + rewrite lookup_insert_eq. intros [= <-]. simpl. destruct (A12 dd d Hd) as [Hnd Hl]. split; [apply NoDup_cons; eauto|].
      intros k [->|Hk]%elem_of_cons; [rewrite lookup_insert_eq; eauto|]. destruct (Hl k Hk) as (w & Hw & Hwo).
      rewrite lookup_insert_ne; [eauto|]. intros <-. congruence.
    + rewrite lookup_insert_ne by done. intros Hz. destruct (A12 q z Hz) as [Hnd Hl]. split; [done|]. intros k Hk.
      destruct (Hl k Hk) as (w & Hw & Hwo). rewrite lookup_insert_ne; [eauto|]. intros <-. congruence.
Qed.

Lemma inv_dd_alloc n dds surfs pals clips h p :
  inv tidy n (dds, surfs, pals, clips) h -> 1 <= n -> p <> 0 -> dds !! p = None ->
  inv tidy n (<[p := mkDd 1 0 false 0 DDSCL_NORMAL false 320 200 8 0 []]> dds, surfs, pals, clips) (hold (ODd p) 1 h).
Proof.
  intros [A1 A2 A3 A4 A5 A6 A7 A8 A9 A10 A11 A12] Hn Hp Hf. simpl in *. split; simpl; try done.
  - intros q Hq. specialize (A1 q Hq). apply (fits_shift _ _ _ _ _ A1). rewrite rc_insert. unfold hold. destruct (decide (q = p)) as [->|].
    + rewrite decide_True by done. unfold rc. rewrite Hf. simpl. lia.
    + rewrite decide_False by congruence. lia.
  - intros q Hq. rewrite hold_ne, refs_fresh by done. simpl. unfold one. rewrite (decide_False (P := 0 = q)) by congruence.
    apply (fits_shift _ _ _ _ _ (A2 q Hq)). lia.
  - by apply bounded_insert.
  - intros q z Hz Hzo. destruct (A11 q z Hz Hzo) as (d' & Hd' & Hin). exists d'. split; [|done]. rewrite lookup_insert_ne; [done|]. congruence.
  - intros q z. destruct (decide (q = p)) as [->|]; [|rewrite lookup_insert_ne by done; apply A12].
    rewrite lookup_insert_eq. intros [= <-]. simpl. split; [constructor|]. intros k Hk. by apply not_elem_of_nil in Hk.
Qed.

Section create.
Variable malloc_surface : ddraw H -> option Z.
Variable malloc : ddraw H -> option Z.
Hypothesis surface_fresh : forall s p, malloc_surface s = Some p -> p <> 0 /\ g_surf s !! p = None.
Hypothesis malloc_fresh : forall s p, malloc s = Some p -> p <> 0 /\ g_dd s !! p = None /\ g_pal s !! p = None /\ g_clip s !! p = None.

(** malloc refuses a surface while the surface [q] exists, which is then freed but stays
    in the list of the object [dd]. *)
Definition refused (dd : Z) s : Prop :=
  exists q s1 d, malloc_surface s1 = None /\ is_Some (g_surf s1 !! q) /\
    g_surf s !! q = None /\ g_dd s !! dd = Some d /\ q ∈ surface_list d.

Lemma alloc_spec n s h dd d rb caps (Q : Z -> ddraw H -> Prop) :
  Ginv n s h -> 1 <= n -> g_dd s !! dd = Some d -> (malloc_surface s = None -> Q 0 s) ->
  (forall p s', p <> 0 -> g_surf s !! p = None -> Ginv n s' (hold (OSurf p) 1 h) ->
     g_surf s' !! p = Some (mkSurface 1 rb caps 0 0 0 false dd 0 0 0) -> (forall q y, g_surf s !! q = Some y -> g_surf s' !! q = Some y) ->
     g_dd s' !! dd = Some (dd_set_list (p :: surface_list d) d) -> Q p s') ->
  wp (ddraw_surface_alloc malloc_surface dd rb caps) s Q.
Proof.
  intros [Hi Hh Hs Hds] Hn Hd H0 HQ. unfold ddraw_surface_alloc. wp_go. destruct (malloc_surface s) as [p|] eqn:Em; [|by apply dwp_ret, H0].
  destruct (surface_fresh s p Em) as [Hp Hf].
  pose proof (bounded_nonzero _ _ _ _ _ (iv_dd_bound _ _ _ _ Hi) Hd) as Hdd. wp_go. apply dwp_when; intros E; [|lia].
  eapply dwp_on_dd; [exact Hd|]. apply dwp_ret. apply HQ; cbn; [done|done| |apply lookup_insert_eq| |apply lookup_insert_eq].
  - split; cbn.
    + by apply inv_surf_alloc.
    + by apply nonneg_hold.
    + intros q z. destruct (decide (q = p)) as [->|]; [rewrite lookup_insert_eq; by intros [= <-]|rewrite lookup_insert_ne by done; apply Hs].
    + intros q z. destruct (decide (q = dd)) as [->|]; [rewrite lookup_insert_eq; intros [= <-]; by apply (Hds dd d)|].
      rewrite lookup_insert_ne by done. apply Hds.
  - intros q y Hy. rewrite lookup_insert_ne; [done|]. congruence.
Qed.

(** The DirectDraw object takes over a reference to its new primary surface. *)
Lemma take_primary n s h dd d P :
  Ginv n s (hold (OSurf P) 1 h) -> g_dd s !! dd = Some d -> nonneg h -> P <> 0 -> (tidy = true -> primary_surface d = 0) ->
  Ginv n (with_dd (<[dd := dd_set_primary P d]> (g_dd s)) s) h.
Proof.
  intros Hg Hd Hh HP Ht. destruct (decide (primary_surface d = 0)) as [E|E].
  - apply (ginv_primary tidy n s _ Hg h dd d P Hd Hh); [moved|by intros []].
  - assert (Hg1 : Ginv n (with_dd (<[dd := dd_set_primary P d]> (g_dd s)) s) (hold (OSurf (primary_surface d)) 1 h)).
    { apply (ginv_primary tidy n s _ Hg _ dd d P Hd); [by apply nonneg_hold|moved|by intros []]. }
    apply (ginv_forget tidy n _ _ Hg1); [destruct tidy; [by specialize (Ht eq_refl)|done]| |done].
    intros o. unfold hold. case_decide; lia.
Qed.

Lemma flip_chain_spec n s h dd d w ht k caps (Q : ddresult * Z * Z -> ddraw H -> Prop) :
  Ginv n s h -> 1 <= n -> n + 2 < 2 ^ 32 -> g_dd s !! dd = Some d -> (tidy = true -> primary_surface d = 0) ->
  (forall r s', r.1.1 <> DD_OK -> Ginv n s' h \/ refused dd s' -> Q r s') ->
  (forall P b s' x, Ginv (n + 2) s' (hold (OSurf P) 1 h) -> g_surf s' !! P = Some x -> su_next x = b -> Q (DD_OK, P, b) s') ->
  wp (ddraw_create_flip_chain_surface malloc_surface dd w ht k caps) s Q.
Proof.
  intros Hg Hn Hn2 Hd Ht Hfail HQ. pose proof (gi_held _ _ _ _ Hg) as Hh. unfold ddraw_create_flip_chain_surface.
  apply dwp_bind. eapply dwp_dd_at; [exact Hd|]. cbv zeta.
  apply dwp_bind, dwp_call. intros rbp g1. destruct (rbp =? 0); [by apply dwp_ret, Hfail; [|left]|]. apply dwp_bind.
  apply (alloc_spec n (with_host g1 s) h dd d); [exact Hg|done|exact Hd|intros _; by apply dwp_ret, Hfail; [|left]|].
  intros P s1 HP _ Hg1 HxP _ Hd1.
  replace (P =? 0) with false by lia. apply dwp_bind, dwp_call. intros wnd g2. apply dwp_bind.
  (* The back buffer: a surface that the primary surface refers to, or none. *)
  assert (Hend : forall rb s2 x2 d2, Ginv n s2 (hold (OSurf P) 1 h) -> g_surf s2 !! P = Some x2 -> su_next x2 = rb -> g_dd s2 !! dd = Some d2 ->
    primary_surface d2 = primary_surface d ->
    wp (_ ← on_dd dd (dd_set_primary P); _ ← on_surf P (fun x => su_set_ref (inc (su_ref_count x)) x); mret (DD_OK, P, rb)) s2 Q).
  { intros rb s2 x2 d2 Hg2 Hx2 Hnx Hd2 Epr. wp_go. eapply HQ; [|apply lookup_insert_eq|exact Hnx]. rewrite <- Epr in Ht.
    apply (surf_inc tidy n _ h (take_primary n s2 h dd d2 P Hg2 Hd2 Hh HP Ht) Hn2 P x2 Hx2). }
  assert (Hmid : forall rb g, wp
    (backbuffer ← (if rb =? 0 then mret (Some 0) else
        b ← ddraw_surface_alloc malloc_surface dd rb (Z.lor DDSCAPS_BACKBUFFER DDSCAPS_FLIP);
        if b =? 0 then _ ← free_surf P; _ ← call (Surface_destroy rbp); mret None else _ ← on_surf P (su_set_next b); mret (Some b));
     match (backbuffer : option Z) with
     | None => mret (DDERR_OUTOFMEMORY, 0, 0)
     | Some b => _ ← on_dd dd (dd_set_primary P); _ ← on_surf P (fun x => su_set_ref (inc (su_ref_count x)) x); mret (DD_OK, P, b)
     end) (with_host g s1) Q).
  { intros rb g. apply dwp_bind. destruct (rb =? 0).
    - apply dwp_ret. by eapply (Hend 0 (with_host g s1)).
    - apply dwp_bind. apply (alloc_spec n (with_host g s1) (hold (OSurf P) 1 h) dd _ _ _ _ Hg1 Hn Hd1).
      { intros Em. change (0 =? 0) with true. cbn iota. apply dwp_bind. unfold free_surf. apply dwp_bind.
        eapply dwp_surf_at; [exact HxP|]. apply dwp_modify, dwp_bind, dwp_call. intros r' g'. apply dwp_ret, dwp_ret, Hfail; [done|right]. eexists P, _, _. split_and!; [exact Em|by eexists|apply lookup_delete_eq|exact Hd1|by left]. }
      intros b s3 Hb Hnew Hg3 Hx3 Hold Hd3. replace (b =? 0) with false by lia. specialize (Hold P _ HxP).
      apply dwp_bind. eapply dwp_on_surf; [exact Hold|]. apply dwp_ret.
      eapply (Hend b); [|apply lookup_insert_eq|done|exact Hd3|done].
      apply (ginv_surf_links tidy n s3 _ Hg3 _ P _ _ Hold); [done|done|by apply nonneg_hold|moved|moved|moved|moved]. }
  destruct wnd as [b0|]; [|apply dwp_ret; exact (Hmid 0 g2)]. destruct (negb (b0 =? 0)); [apply dwp_ret; exact (Hmid b0 g2)|].
  apply dwp_bind, dwp_call. intros rb g3. apply dwp_bind, dwp_when; intros Erb.
  - apply dwp_call. intros [] g4. apply dwp_ret. exact (Hmid rb g4).
  - apply dwp_ret. exact (Hmid rb g3).
Qed.

Lemma regular_spec n s h dd d w ht caps (Q : ddresult * Z -> ddraw H -> Prop) :
  Ginv n s h -> 1 <= n -> n + 2 < 2 ^ 32 -> g_dd s !! dd = Some d -> (tidy = true -> primary_surface d = 0) ->
  (forall r s', r.1 <> DD_OK -> Ginv n s' h -> Q r s') ->
  (forall P s' x, Ginv (n + 2) s' (hold (OSurf P) 1 h) -> g_surf s' !! P = Some x -> Q (DD_OK, P) s') ->
  wp (ddraw_create_regular_surface malloc_surface dd w ht caps) s Q.
Proof.
  intros Hg Hn Hn2 Hd Ht Hfail HQ. pose proof (gi_held _ _ _ _ Hg) as Hh. unfold ddraw_create_regular_surface. cbv zeta.
  apply dwp_bind. eapply dwp_dd_at; [exact Hd|].
  apply dwp_bind, dwp_call. intros rbp g1. destruct (rbp =? 0); [by apply dwp_ret, Hfail|]. apply dwp_bind.
  apply (alloc_spec n (with_host g1 s) h dd d); [exact Hg|done|exact Hd| |].
  { intros _. change (0 =? 0) with true. cbn iota. apply dwp_bind, dwp_call. intros r' g'. by apply dwp_ret, Hfail. }
  intros P s1 HP _ Hg1 HxP _ Hd1.
  replace (P =? 0) with false by lia. apply dwp_bind, dwp_when; intros E.
  - wp_go. eapply HQ; [|apply lookup_insert_eq].
    apply (surf_inc tidy n _ h (take_primary n s1 h dd _ P Hg1 Hd1 Hh HP Ht) Hn2 P _ HxP).
  - wp_go. eapply HQ; [|exact HxP]. by apply up.
Qed.

Lemma ensure_backend_spec n s h (Q : bool -> ddraw H -> Prop) :
  Ginv n s h -> (forall b s', heaps_of s' = heaps_of s -> Q b s') -> wp ddraw_ensure_backend s Q.
Proof. intros Hg HQ. unfold ddraw_ensure_backend. wp_all; by apply HQ. Qed.

Lemma geometry_spec n s h p x w ht (Q : unit -> ddraw H -> Prop) :
  Ginv n s h -> g_surf s !! p = Some x ->
  (forall s', Ginv n s' h -> g_surf s' !! p = Some (su_set_size w ht (i32 w) x) -> Q tt s') -> wp (ddraw_init_surface_geometry p w ht) s Q.
Proof.
  intros Hg Hx HQ. unfold ddraw_init_surface_geometry.
  pose proof (bounded_nonzero _ _ _ _ _ (iv_surf_bound _ _ _ _ (gi_inv _ _ _ _ Hg)) Hx) as Hp. replace (p =? 0) with false by lia. wp_go.
  apply HQ; [|apply lookup_insert_eq]. by apply (ginv_surf_quiet tidy n s h Hg p x).
Qed.

(** What a call that returns an object leaves. *)
Definition gained (o : Z -> obj) n h (r : ddresult * Z) s' : Prop := Ginv (n + 2) s' (if bool_decide (r.1 = DD_OK) then hold (o r.2) 1 h else h).
Lemma gained_fail o n h hr p s' : hr <> DD_OK -> Ginv n s' h -> gained o n h (hr, p) s'.
Proof. intros Hr Hg. unfold gained. simpl. rewrite bool_decide_eq_false_2 by done. by apply up. Qed.
Lemma gained_ok o n h p s' : Ginv (n + 2) s' (hold (o p) 1 h) -> gained o n h (DD_OK, p) s'.
Proof. done. Qed.

Lemma create_surface_spec n s h p desc :
  Ginv n s h -> 1 <= n -> n + 2 < 2 ^ 32 -> has h ODd p = true -> 0x6C <= blen desc ->
  (tidy = true -> tidy_op (GCreateSurface p desc) s = true) ->
  wp (ddraw_create_surface_from_desc malloc_surface p (Some desc) true) s
    (fun r s' => gained OSurf n h r s' \/ (r.1 <> DD_OK /\ refused p s')).
Proof.
  intros Hg Hn Hn2 Hp Hb Ht. destruct (held_ddraw tidy n s h Hg p Hp) as (d & Hd). destruct (has_spec _ _ _ Hp) as [Hp0 _].
  unfold ddraw_create_surface_from_desc. replace (p =? 0) with false by lia. cbn [orb negb].
  apply dwp_bind, (ensure_backend_spec n s h); [done|]. intros ok s1 E1. assert (Hg1 : Ginv n s1 h) by (by rewrite E1).
  assert (Hd1 : g_dd s1 !! p = Some d) by (by injection E1 as ->). destruct ok; cbn [negb]; [|by apply dwp_ret; left; apply gained_fail].
  destruct (parse_full_block desc Hb) as (a & Ea). apply dwp_bind. eapply dwp_lift; [exact Ea|]. apply dwp_bind. eapply dwp_dd_at; [exact Hd1|]. cbv zeta.
  assert (Ht' : tidy = true -> primary_surface d = 0).
  { intros E. specialize (Ht E). unfold tidy_op in Ht. rewrite Hd in Ht. lia. }
  destruct (flag _ _ && (_ =? 0)); [by apply dwp_ret; left; apply gained_fail|].
  set (w := if da_width a =? 0 then _ else _). set (ht := if da_height a =? 0 then _ else _).
  destruct (flag _ _ && flag _ _).
  - apply dwp_bind, (flip_chain_spec n s1 h p d); try done.
    + intros [[hr P] b] s2 Hr [Hg2|Hr2]; simpl in Hr; rewrite bool_decide_eq_false_2 by done; apply dwp_ret; [left; by apply gained_fail|by right].
    + intros P b s2 x Hg2 Hx Hnx. rewrite bool_decide_eq_true_2 by done. cbn [negb].
      apply dwp_bind, (geometry_spec _ _ _ P x w ht _ Hg2 Hx). intros s3 Hg3 Hx3. apply dwp_bind.
      destruct (decide (b = 0)) as [Eb|Eb].
      * unfold ddraw_init_surface_geometry. replace (b =? 0) with true by lia. apply dwp_ret, dwp_ret. by left; apply gained_ok.
      * destruct (linked_surf tidy _ s3 _ Hg3 P _ Hx3) as (y & Hy); simpl in *; [congruence|]. rewrite Hnx in Hy.
        apply (geometry_spec _ _ _ b y w ht _ Hg3 Hy). intros s4 Hg4 _. apply dwp_ret. by left; apply gained_ok.
  - apply dwp_bind, (regular_spec n s1 h p d); try done.
    + intros [hr P] s2 Hr Hg2. simpl in Hr. rewrite bool_decide_eq_false_2 by done. apply dwp_ret. left. by apply gained_fail.
    + intros P s2 x Hg2 Hx. rewrite bool_decide_eq_true_2 by done. cbn [negb].
      apply dwp_bind, (geometry_spec _ _ _ P x w ht _ Hg2 Hx). intros s3 Hg3 _. apply dwp_ret. by left; apply gained_ok.
Qed.

Lemma palette_count flags : ddraw_palette_color_count flags <= 256.
Proof. unfold ddraw_palette_color_count. repeat case_match; lia. Qed.

Lemma fresh_pal n s h p y :
  Ginv n s h -> 1 <= n -> p <> 0 -> g_pal s !! p = None -> pl_ref_count y = 1 -> pl_num_colors y <= 256 ->
  ginv tidy n (g_dd s, g_surf s, <[p := y]> (g_pal s), g_clip s) (hold (OPal p) 1 h).
Proof.
  intros Hg Hn Hp Hf Hy Hc. apply (ginv_same tidy n n (heaps_of s) _ h); [|by apply (hold_nonneg tidy n s h)|done|done].
  apply (inv_pal_update _ _ _ _ _ _ h); [apply Hg|done|lia|done| |by intros []]. intros q Hq. unfold rc. rewrite Hf. moved.
Qed.

Lemma create_palette_spec n s h p flags entries :
  Ginv n s h -> 1 <= n -> has h ODd p = true -> op_ok (GCreatePalette p flags entries) ->
  wp (ddraw_CreatePalette malloc p flags entries true) s (gained OPal n h).
Proof.
  intros Hg Hn Hp Hop. destruct (has_spec _ _ _ Hp) as [Hp0 _]. unfold ddraw_CreatePalette. replace (p =? 0) with false by lia. cbn [orb negb].
  apply dwp_bind, (ensure_backend_spec n s h); [done|]. intros ok s1 E1. assert (Hg1 : Ginv n s1 h) by (by rewrite E1). clear E1.
  destruct ok; cbn [negb]; [|by apply dwp_ret, gained_fail].
  unfold ddraw_palette_create. replace (p =? 0) with false by lia. cbn [orb negb]. apply dwp_bind, dwp_call. intros rb g1.
  destruct (rb =? 0); [by apply dwp_ret, gained_fail|]. apply dwp_bind, dwp_state. destruct (malloc (with_host g1 s1)) as [q|] eqn:Em.
  2:{ wp_go. by apply gained_fail. }
  destruct (malloc_fresh _ _ Em) as (Hq & _ & Hf & _).
  pose proof (fresh_pal n (with_host g1 s1) h q (mkPal 1 rb (ddraw_palette_color_count flags) flags) Hg1 Hn Hq Hf eq_refl (palette_count flags)) as Hg2.
  apply dwp_bind, dwp_modify. destruct entries as [l|]; [|wp_go; by apply gained_ok, up].
  assert (El : exists c, ddraw_palette_pack_colors l (ddraw_palette_color_count flags) = Ret c).
  { unfold ddraw_palette_pack_colors, read_array. simpl in Hop. replace (_ <=? _) with true by lia. simpl. eauto. }
  destruct El as (c & Ec). apply dwp_bind, dwp_bind. eapply dwp_lift; [exact Ec|]. wp_go. by apply gained_ok, up.
Qed.

Lemma create_clipper_spec n s h p :
  Ginv n s h -> 1 <= n -> has h ODd p = true -> wp (ddraw_clipper_create malloc p true) s (gained OClip n h).
Proof.
  intros Hg Hn Hp. destruct (has_spec _ _ _ Hp) as [Hp0 _]. unfold ddraw_clipper_create. replace (p =? 0) with false by lia. cbn [orb negb].
  apply dwp_bind, dwp_state. destruct (malloc s) as [q|] eqn:Em; [|by apply dwp_ret, gained_fail].
  destruct (malloc_fresh _ _ Em) as (Hq & _ & _ & Hf). wp_go. apply gained_ok, up.
  apply (ginv_same tidy n n (heaps_of s) _ h); [|by apply (hold_nonneg tidy n s h)|done|done].
  apply (inv_clip_update _ _ _ _ _ _ h); [apply Hg|done|simpl; lia| |by intros []]. intros k Hk. unfold rc. rewrite Hf. moved.
Qed.

Lemma create_dd_spec n s h : Ginv n s h -> 1 <= n -> wp (DirectDrawCreate malloc true true) s (gained ODd n h).
Proof.
  intros Hg Hn. unfold DirectDrawCreate, ddraw_create_instance. cbn [negb]. apply dwp_bind, dwp_bind, dwp_state.
  destruct (malloc s) as [q|] eqn:Em; [|by apply dwp_ret, dwp_ret, gained_fail].
  destruct (malloc_fresh _ _ Em) as (Hq & Hf & _). wp_go. replace (q =? 0) with false by lia. apply gained_ok, up.
  apply (ginv_insert_dd tidy n (heaps_of s) _ q h); [|by apply (hold_nonneg tidy n s h)|done|done]. by apply inv_dd_alloc; [apply Hg|..].
Qed.
End create.

(** ** Calls that read and draw *)

Lemma fill_desc_spec n s h p ptr b :
  Ginv n s h -> has h OSurf p = true -> match b with Some b => 0x6C <= blen b | None => True end ->
  wp (ddraw_fill_surface_desc p ptr b) s (fun _ s' => Ginv n s' h).
Proof.
  intros Hg Hp Hb. destruct (held_surf tidy n s h Hg p Hp) as (x & Hx). destruct (has_spec _ _ _ Hp) as [Hp0 _].
  unfold ddraw_fill_surface_desc. destruct b as [b|]; [|by apply dwp_ret]. replace (p =? 0) with false by lia. apply dwp_bind.
  assert (Hend : forall data s', Ginv n s' h -> wp (b ← lift (write_surface_desc data b); mret (Some b)) s' (fun _ s' => Ginv n s' h)).
  { intros data s' Hg'. destruct (write_full_block data b Hb) as (b' & E). apply dwp_bind. eapply dwp_lift; [exact E|]. by apply dwp_ret. }
  unfold ddraw_normalize_surface_data. apply dwp_bind. eapply dwp_surf_at; [exact Hx|]. apply dwp_bind, dwp_call. intros r g.
  apply dwp_bind. destruct r as [[[w ht] pitch]|].
  - eapply dwp_on_surf; [exact Hx|]. eapply dwp_bind, dwp_surf_at; [apply lookup_insert_eq|]. apply dwp_ret, Hend. by apply (ginv_surf_quiet tidy n (with_host g s) h Hg p x).
  - apply dwp_ret. eapply dwp_bind, dwp_surf_at; [exact Hx|]. apply dwp_ret. by apply Hend.
Qed.

Lemma lock_spec n s h p r b :
  Ginv n s h -> has h OSurf p = true -> op_ok (SLock p r b) -> wp (surface_Lock p r b) s (post n h).
Proof.
  intros Hg Hp Hb. destruct (held_surf tidy n s h Hg p Hp) as (x & Hx). destruct (has_spec _ _ _ Hp) as [Hp0 _].
  unfold surface_Lock. replace (p =? 0) with false by lia. apply dwp_bind. eapply dwp_surf_at; [exact Hx|].
  destruct (su_locked x); [by apply dwp_ret, up|]. apply dwp_bind, dwp_call. intros [[ret data] pitch] g.
  destruct (negb _ || _); [by apply dwp_ret, up|]. apply dwp_bind. eapply dwp_on_surf; [exact Hx|]. apply dwp_bind.
  eapply dwp_mono; [apply (fill_desc_spec n)|].
  - by apply (ginv_surf_quiet tidy n (with_host g s) h Hg p x).
  - done.
  - by destruct b.
  - intros a s' Hg'. by apply dwp_ret, up.
Qed.

Lemma blt_spec n s h p r q rq flags fx :
  Ginv n s h -> has h OSurf p = true -> has_or_null h OSurf q = true -> wp (surface_Blt p r q rq flags fx) s (post n h).
Proof.
  intros Hg Hp Hq. destruct (held_surf tidy n s h Hg p Hp) as (x & Hx). destruct (has_spec _ _ _ Hp) as [Hp0 _].
  unfold surface_Blt. replace (p =? 0) with false by lia. cbv zeta. apply dwp_bind. eapply dwp_surf_at; [exact Hx|]. apply dwp_bind.
  unfold has_or_null in Hq. destruct (q =? 0) eqn:E.
  - wp_go. by apply up.
  - cbn [orb] in Hq. destruct (held_surf tidy n s h Hg q Hq) as (y & Hy). wp_go. by apply up.
Qed.
End links.

(** ** Any call *)

Section safety.
Context {H : Type} {B : DdBackend H} {crash : Prop} {serves : DdServes H crash}.
Variable tidy : bool.
Variable malloc_surface : ddraw H -> option Z.
Variable malloc : ddraw H -> option Z.
Variable junk : list Z.
Implicit Types (n p q : Z) (s : ddraw H) (h : held).
Abbreviation Ginv n s h := (ginv tidy n (heaps_of s) h).
Abbreviation wp := (wp (crash := crash)).

Lemma held_dd_at n s h p (Q : my_dd_t -> ddraw H -> Prop) :
  Ginv n s h -> has h ODd p = true -> (forall d, g_dd s !! p = Some d -> Q d s) -> wp (dd_at p) s Q.
Proof. intros Hg Hp HQ. destruct (held_ddraw tidy n s h Hg p Hp) as (d & Hd). eapply dwp_dd_at; [exact Hd|auto]. Qed.
Lemma on_dd_quiet n s h p f (Q : unit -> ddraw H -> Prop) :
  Ginv n s h -> has h ODd p = true -> (forall d, same_dd d (f d)) -> (forall s', Ginv n s' h -> Q tt s') -> wp (on_dd p f) s Q.
Proof.
  intros Hg Hp Hf HQ. destruct (held_ddraw tidy n s h Hg p Hp) as (d & Hd). eapply dwp_on_dd; [exact Hd|].
  by apply HQ, (ginv_dd_quiet tidy n s h Hg p d).
Qed.
Lemma keeps_spec {A} n s h (m : D H A) : wp m s (post tidy n h) -> wp (keeps h m) s (fun h' s' => Ginv (n + 2) s' h').
Proof. intros Hm. unfold keeps. apply dwp_bind. eapply dwp_mono; [exact Hm|]. intros a s' Hg. by apply dwp_ret. Qed.
Lemma gains_spec o n s h (m : D H (ddresult * Z)) : wp m s (gained tidy o n h) -> wp (gains o h m) s (fun h' s' => Ginv (n + 2) s' h').
Proof. intros Hm. unfold gains. apply dwp_bind. eapply dwp_mono; [exact Hm|]. intros [hr p] s' Hg. apply dwp_ret. exact Hg. Qed.

Lemma coop_spec n s h p hwnd flags : Ginv n s h -> has h ODd p = true -> wp (ddraw_SetCooperativeLevel p hwnd flags) s (post tidy n h).
Proof.
  intros Hg Hp. destruct (has_spec _ _ _ Hp) as [Hp0 _]. unfold ddraw_SetCooperativeLevel. replace (p =? 0) with false by lia.
  apply dwp_bind, (on_dd_quiet n s h p); [done..|]. intros s1 Hg1. apply dwp_bind, dwp_call. intros [w|] g; apply dwp_bind.
  - apply (on_dd_quiet n (with_host g s1) h p); [done..|]. intros s2 Hg2. by apply dwp_ret, up.
  - apply dwp_ret, dwp_ret, up. exact Hg1.
Qed.

Lemma mode_spec n s h p w ht bpp : Ginv n s h -> has h ODd p = true -> wp (ddraw_SetDisplayMode p w ht bpp) s (post tidy n h).
Proof.
  intros Hg Hp. destruct (has_spec _ _ _ Hp) as [Hp0 _]. unfold ddraw_SetDisplayMode. replace (p =? 0) with false by lia.
  destruct (_ || _); [by apply dwp_ret, up|]. apply dwp_bind, (held_dd_at n s h p); [done..|]. intros d _. apply dwp_bind.
  assert (Hend : forall s, Ginv n s h -> wp (d ← dd_at p; _ ← when (negb (dd_rb_window d =? 0))
      (_ ← call (Window_set_fullscreen (dd_rb_window d) (is_exclusive d) (i32 w) (i32 ht) (i32 bpp)); mret tt); mret DD_OK) s (post tidy n h)).
  { intros s' Hg'. apply dwp_bind, (held_dd_at n s' h p); [done..|]. intros d' _. wp_all; by apply up. }
  assert (Hmid : forall s, Ginv n s h -> wp (ok ← ddraw_ensure_backend;
    if negb ok then mret DDERR_UNSUPPORTED
    else _ ← on_dd p (dd_set_mode w ht bpp); d ← dd_at p;
      _ ← when (dd_rb_window d =? 0) (k ← call (Window_create (i32 w) (i32 ht));
             on_dd p (fun d => dd_set_window k (if negb (k =? 0) then true else owns_window d) d));
      d ← dd_at p;
      _ ← when (negb (dd_rb_window d =? 0))
            (_ ← call (Window_set_fullscreen (dd_rb_window d) (is_exclusive d) (i32 w) (i32 ht) (i32 bpp)); mret tt);
      mret DD_OK) s (post tidy n h)).
  { intros s' Hg'. apply dwp_bind, (ensure_backend_spec tidy n s' h); [done|]. intros ok s1 E1. assert (Hg1 : Ginv n s1 h) by (by rewrite E1).
    destruct ok; cbn [negb]; [|by apply dwp_ret, up]. apply dwp_bind, (on_dd_quiet n s1 h p); [done..|]. intros s2 Hg2.
    apply dwp_bind, (held_dd_at n s2 h p); [done..|]. intros d2 _. apply dwp_bind, dwp_when; intros _; [|by apply Hend].
    apply dwp_bind, dwp_call. intros k g. apply (on_dd_quiet n (with_host g s2) h p); [done..|]. exact Hend. }
  apply dwp_when; intros _; [|by apply Hmid]. apply (on_dd_quiet n s h p); [done..|]. exact Hmid.
Qed.

Lemma entries_spec n s h p start count :
  Ginv n s h -> has h OPal p = true -> length junk = 256%nat -> wp (palette_GetEntries junk p start count true) s (post tidy n h).
Proof.
  intros Hg Hp Hj. destruct (held_pal tidy n s h Hg p Hp) as (x & Hx). destruct (has_spec _ _ _ Hp) as [Hp0 _].
  destruct (iv_pal_pos _ _ _ _ (gi_inv _ _ _ _ Hg) p x Hx) as [_ Hc].
  unfold palette_GetEntries. replace (p =? 0) with false by lia. cbn [orb negb]. apply dwp_bind. eapply dwp_pal_at; [exact Hx|]. cbv zeta.
  apply dwp_bind. unfold DDrawSafe.wp, call. pose proof (dd_serves _ (Palette_get_colors (pl_rb_palette x) start (entry_count count x) junk) (g_host s)) as Hs.
  destruct (dd_call _ _) as [[[r l] g]| |] eqn:Ec; [|done|done]. apply dd_colors in Ec. cbn [mbind outcome_bind].
  destruct (negb _); [by apply up|].
  assert (Er : exists l', read_array (entry_count count x) l = Ret l').
  { assert (Hl : Z.of_nat (length l) = 256) by (rewrite Ec, Hj; reflexivity). unfold read_array, entry_count. rewrite Hl. replace (_ <=? 256) with true by (repeat case_match; lia). eauto. }
  destruct Er as (l' & Er). change (wp (l0 ← lift (read_array (entry_count count x) l); mret (DD_OK, fmap (M := list) unpack_color l0)) (with_host g s) (post tidy n h)).
  apply dwp_bind. eapply dwp_lift; [exact Er|]. by apply dwp_ret, up.
Qed.

Lemma set_entries_spec n s h p start count l :
  Ginv n s h -> has h OPal p = true -> count <= Z.of_nat (length l) -> wp (palette_SetEntries p start count (Some l)) s (post tidy n h).
Proof.
  intros Hg Hp Hl. destruct (held_pal tidy n s h Hg p Hp) as (x & Hx). destruct (has_spec _ _ _ Hp) as [Hp0 _].
  unfold palette_SetEntries. replace (p =? 0) with false by lia. apply dwp_bind. eapply dwp_pal_at; [exact Hx|]. cbv zeta.
  assert (El : exists c, ddraw_palette_pack_colors l (entry_count count x) = Ret c).
  { unfold ddraw_palette_pack_colors, read_array, entry_count. replace (_ <=? _) with true by (repeat case_match; lia). simpl. eauto. }
  destruct El as (c & Ec). apply dwp_bind. eapply dwp_lift; [exact Ec|]. wp_go. by apply up.
Qed.

Hypothesis surface_fresh : forall s p, malloc_surface s = Some p -> p <> 0 /\ g_surf s !! p = None.
Hypothesis malloc_fresh : forall s p, malloc s = Some p -> p <> 0 /\ g_dd s !! p = None /\ g_pal s !! p = None /\ g_clip s !! p = None.
Hypothesis junk_size : length junk = 256%nat.

(** The reads of an object that the program holds. *)
Ltac held_tac Hg Ha :=
  destruct (has_spec _ _ _ Ha) as [Hp0 Hph];
  lazymatch type of Ha with
  | has _ ODd ?p = true => destruct (held_ddraw tidy _ _ _ Hg p Ha) as (x & Hx)
  | has _ OSurf ?p = true => destruct (held_surf tidy _ _ _ Hg p Ha) as (x & Hx)
  | has _ OPal ?p = true => destruct (held_pal tidy _ _ _ Hg p Ha) as (x & Hx)
  | has _ OClip ?p = true => destruct (held_clip tidy _ _ _ Hg p Ha) as (x & Hx)
  end;
  lazymatch type of Ha with has _ _ ?p = true => try replace (p =? 0) with false by lia end; cbn [orb negb].

Lemma pal_inc n s h p x : Ginv n s h -> n + 2 < 2 ^ 32 -> has h OPal p = true -> g_pal s !! p = Some x ->
  Ginv (n + 2) (with_pal (<[p := pl_set_ref (inc (pl_ref_count x)) x]> (g_pal s)) s) (hold (OPal p) 1 h).
Proof.
  intros Hg Hn Hp Hx. destruct (has_spec _ _ _ Hp) as [Hp0 _]. pose proof (gi_inv _ _ _ _ Hg) as Hi.
  destruct (iv_pal_pos _ _ _ _ Hi p x Hx) as [Hr Hc]. pose proof (cb_bound _ _ _ (iv_pal_bound _ _ _ _ Hi) _ _ Hx) as Hb.
  rewrite (inc_small _ n) by lia. apply (ginv_same tidy (n + 2) n (heaps_of s) _ h); [|by apply (hold_nonneg tidy n s h)|done|done].
  apply (inv_pal_update _ _ _ _ _ _ h); [by apply (dinv_weaken _ n); [|lia]|done|simpl; lia|done| |by intros []].
  intros q Hq. rewrite (rc_some _ _ _ _ Hx). moved.
Qed.
Lemma clip_inc n s h p x : Ginv n s h -> n + 2 < 2 ^ 32 -> has h OClip p = true -> g_clip s !! p = Some x ->
  Ginv (n + 2) (with_clip (<[p := cl_set_ref (inc (cl_ref_count x)) x]> (g_clip s)) s) (hold (OClip p) 1 h).
Proof.
  intros Hg Hn Hp Hx. destruct (has_spec _ _ _ Hp) as [Hp0 _]. pose proof (gi_inv _ _ _ _ Hg) as Hi.
  pose proof (iv_clip_pos _ _ _ _ Hi p x Hx) as Hr. pose proof (cb_bound _ _ _ (iv_clip_bound _ _ _ _ Hi) _ _ Hx) as Hb. cbn in Hr, Hb.
  rewrite (inc_small _ n) by lia. apply (ginv_same tidy (n + 2) n (heaps_of s) _ h); [|by apply (hold_nonneg tidy n s h)|done|done].
  apply (inv_clip_update _ _ _ _ _ _ h); [by apply (dinv_weaken _ n); [|lia]|done|simpl; lia| |by intros []].
  intros q Hq. rewrite (rc_some _ _ _ _ Hx). moved.
Qed.
(** A palette or a clipper changes in something else than its count. *)
Lemma pal_quiet n s h p x y : Ginv n s h -> g_pal s !! p = Some x -> pl_ref_count y = pl_ref_count x -> pl_num_colors y = pl_num_colors x ->
  Ginv n (with_pal (<[p := y]> (g_pal s)) s) h.
Proof.
  intros Hg Hx Er Ec. pose proof (gi_inv _ _ _ _ Hg) as Hi. destruct (iv_pal_pos _ _ _ _ Hi p x Hx) as [Hr Hc].
  pose proof (cb_bound _ _ _ (iv_pal_bound _ _ _ _ Hi) _ _ Hx) as Hb.
  apply (ginv_same tidy n n (heaps_of s) _ h); [|apply Hg|done|done].
  apply (inv_pal_update _ _ _ _ _ _ h); [done|by apply (bounded_nonzero _ _ _ _ _ (iv_pal_bound _ _ _ _ Hi) Hx)|lia|lia| |by intros []].
  intros q Hq. rewrite (rc_some _ _ _ _ Hx), Er. moved.
Qed.
Lemma clip_quiet n s h p x y : Ginv n s h -> g_clip s !! p = Some x -> cl_ref_count y = cl_ref_count x ->
  Ginv n (with_clip (<[p := y]> (g_clip s)) s) h.
Proof.
  intros Hg Hx Er. pose proof (gi_inv _ _ _ _ Hg) as Hi. pose proof (iv_clip_pos _ _ _ _ Hi p x Hx) as Hr.
  pose proof (cb_bound _ _ _ (iv_clip_bound _ _ _ _ Hi) _ _ Hx) as Hb.
  apply (ginv_same tidy n n (heaps_of s) _ h); [|apply Hg|done|done].
  apply (inv_clip_update _ _ _ _ _ _ h); [done|by apply (bounded_nonzero _ _ _ _ _ (iv_clip_bound _ _ _ _ Hi) Hx)|cbn in Hr, Hb; lia| |by intros []].
  intros q Hq. rewrite (rc_some _ _ _ _ Hx), Er. moved.
Qed.

Lemma surf_known n s h p x (Q : Z -> ddraw H -> Prop) : Ginv n s h -> n + 2 < 2 ^ 32 -> g_surf s !! p = Some x ->
  (forall r s', Ginv (n + 2) s' (hold (OSurf p) 1 h) -> Q r s') -> wp (ddraw_surface_add_ref p) s Q.
Proof. intros Hg Hn Hx HQ. apply (surf_add_ref tidy n s h Hg p x _ Hx). intros r. by apply HQ, (surf_inc tidy n s h). Qed.

Lemma create_step_spec n s h p desc :
  Ginv n s h -> 1 <= n -> n + 2 < 2 ^ 32 -> 0x6C <= blen desc -> has h ODd p = true ->
  (tidy = true -> tidy_op (GCreateSurface p desc) s = true) ->
  wp (guest_step malloc_surface malloc junk (GCreateSurface p desc) h) s (fun h' s' => Ginv (n + 2) s' h' \/ refused malloc_surface p s').
Proof.
  intros Hg Hn Hn2 Hb Ha Ht. cbn [guest_step]. unfold gains. apply dwp_bind.
  eapply dwp_mono; [by apply (create_surface_spec tidy malloc_surface surface_fresh n s h p desc)|].
  intros [hr q] s' [Hg'|[Hr Hd]]; apply dwp_ret; [by left|by right].
Qed.

Lemma guest_step_spec n s h o :
  Ginv n s h -> 1 <= n -> n + 2 < 2 ^ 32 -> op_ok o -> allowed o h = true -> (forall p desc, o <> GCreateSurface p desc) ->
  (tidy = true -> tidy_op o s = true) ->
  wp (guest_step malloc_surface malloc junk o h) s (fun h' s' => Ginv (n + 2) s' h').
Proof.
  intros Hg Hn Hn2 Ho Ha Hc Ht. destruct o; cbn [allowed] in Ha; cbn [guest_step];
    try (match type of Ha with _ && _ = true => apply andb_prop in Ha as [Ha Hq] end); try apply gains_spec; try (match goal with |- wp (keeps h _) _ _ => apply keeps_spec end).
  - by apply create_dd_spec.
  - unfold keeps, ddraw_add_ref. held_tac Hg Ha. wp_go. by apply (dd_inc tidy n s h).
  - unfold keeps. apply dwp_bind. destruct (has_spec _ _ _ Ha) as [Hp0 Hph]. apply (dd_release_ginv tidy n p s h _ Hg Hph Hp0).
    intros r s' Hg'. by apply dwp_ret, up.
  - unfold ddraw_query_interface. held_tac Hg Ha. destruct known; [|by apply dwp_ret, gained_fail]. wp_go. by apply gained_ok, (dd_inc tidy n s h).
  - by apply coop_spec.
  - by apply mode_spec.
  - by destruct (Hc p desc).
  - by apply create_palette_spec.
  - by apply create_clipper_spec.
  - unfold ddraw_get_gdi_surface. destruct (_ || _); [by apply dwp_ret, gained_fail|]. held_tac Hg Ha. wp_go.
    destruct (primary_surface x =? 0) eqn:E; [by apply dwp_ret, gained_fail|].
    destruct (linked_primary tidy n s h Hg p x Hx) as (y & Hy); [lia|]. apply dwp_bind, (surf_known n s h _ y _ Hg Hn2 Hy).
    intros r s' Hg'. apply dwp_ret. by apply gained_ok.
  - unfold ddraw_get_display_mode. destruct (_ || _); [by apply dwp_ret, up|]. held_tac Hg Ha. wp_go.
    destruct (display_mode_full_block (current_mode_w x) (current_mode_h x) DDSCAPS_PRIMARYSURFACE desc Ho) as (b & Eb).
    eapply dwp_lift; [exact Eb|]. by apply dwp_ret, up.
  - unfold ddraw_get_scan_line. destruct out; cbn [negb]; wp_go; by apply up.
  - unfold ddraw_get_vertical_blank_status. wp_go. by apply up.
  - unfold keeps. held_tac Hg Ha. apply dwp_bind, (surf_known n s h p x _ Hg Hn2 Hx). intros r s' Hg'. by apply dwp_ret.
  - unfold keeps. apply dwp_bind. destruct (has_spec _ _ _ Ha) as [Hp0 Hph]. apply (surf_release_ginv tidy n p s h _ Hg Hph Hp0).
    intros r s' Hg'. by apply dwp_ret, up.
  - unfold surface_QueryInterface. held_tac Hg Ha. destruct known; [|by apply dwp_ret, gained_fail].
    apply dwp_bind, (surf_known n s h p x _ Hg Hn2 Hx). intros r s' Hg'. apply dwp_ret. by apply gained_ok.
  - by apply attach_spec.
  - by apply detach_spec.
  - unfold surface_GetAttachedSurface. held_tac Hg Ha. wp_go. destruct (_ && _) eqn:E; [|by apply dwp_ret, gained_fail].
    destruct (linked_surf tidy n s h Hg p x Hx) as (y & Hy); [lia|]. apply dwp_bind, (surf_known n s h _ y _ Hg Hn2 Hy).
    intros r s' Hg'. apply dwp_ret. by apply gained_ok.
  - by apply blt_spec.
  - unfold surface_BltFast. destruct (q =? 0) eqn:E; [by apply dwp_ret, up|]. apply dwp_bind. destruct rq as [r|]; [apply dwp_ret; by apply blt_spec|].
    assert (Hq' := Hq). unfold has_or_null in Hq'. rewrite E in Hq'. cbn [orb] in Hq'. destruct (held_surf tidy n s h Hg q Hq') as (z & Hz).
    apply dwp_bind. eapply dwp_surf_at; [exact Hz|]. apply dwp_ret. by apply blt_spec.
  - unfold surface_Flip. held_tac Hg Ha. wp_go. by apply up.
  - unfold surface_GetCaps. held_tac Hg Ha. wp_go. by apply up.
  - unfold surface_GetPalette. held_tac Hg Ha. wp_go. destruct (su_palette x =? 0) eqn:E; [by apply dwp_ret, gained_fail|].
    apply dwp_bind, (pal_add tidy n s h Hg Hn2); [lia|apply (linked_pal_rc tidy n s h Hg p x Hx); lia|]. intros r s' Hg'. apply dwp_ret. by apply gained_ok.
  - by apply set_palette_spec.
  - by apply set_clipper_spec.
  - unfold ddraw_surface_get_clipper. held_tac Hg Ha. wp_go. destruct (su_clipper x =? 0) eqn:E; [by apply dwp_ret, gained_fail|].
    apply dwp_bind, (clip_add tidy n s h Hg Hn2); [lia|apply (linked_clip_rc tidy n s h Hg p x Hx); lia|]. intros r s' Hg'. apply dwp_ret. by apply gained_ok.
  - unfold surface_GetSurfaceDesc. held_tac Hg Ha. apply dwp_bind. eapply dwp_mono; [by apply (fill_desc_spec tidy n s h)|].
    intros b s' Hg'. by apply dwp_ret, up.
  - by apply lock_spec.
  - unfold surface_Unlock. held_tac Hg Ha. wp_go. destruct (su_locked x); cbn [negb]; [|by apply dwp_ret, up]. wp_go.
    apply up. by apply (ginv_surf_quiet tidy n s h Hg p x).
  - unfold keeps. destruct (has_spec _ _ _ Ha) as [Hp0 _]. apply dwp_bind, (pal_add tidy n s h Hg Hn2); [done|by apply (held_pal_rc tidy n s h)|].
    intros r s' Hg'. by apply dwp_ret.
  - unfold keeps. apply dwp_bind, (pal_drop tidy n s h Hg); [done|]. intros r s' Hg'. by apply dwp_ret, up.
  - unfold palette_QueryInterface. held_tac Hg Ha. destruct known; [|by apply dwp_ret, gained_fail]. wp_go. by apply gained_ok, pal_inc.
  - unfold palette_GetCaps. held_tac Hg Ha. wp_go. by apply up.
  - unfold palette_Initialize. held_tac Hg Ha. wp_go. by apply up, (pal_quiet n s h p x).
  - by apply entries_spec.
  - by apply set_entries_spec.
  - unfold keeps. destruct (has_spec _ _ _ Ha) as [Hp0 _]. apply dwp_bind, (clip_add tidy n s h Hg Hn2); [done|by apply (held_clip_rc tidy n s h)|].
    intros r s' Hg'. by apply dwp_ret.
  - unfold keeps. apply dwp_bind, (clip_drop tidy n s h Hg); [done|]. intros r s' Hg'. by apply dwp_ret, up.
  - unfold clipper_QueryInterface. held_tac Hg Ha. destruct known; [|by apply dwp_ret, gained_fail]. wp_go. by apply gained_ok, clip_inc.
  - unfold clipper_SetHWnd. held_tac Hg Ha. wp_go. by apply up, (clip_quiet n s h p x).
  - unfold clipper_GetHWnd. held_tac Hg Ha. wp_go. by apply up.
Qed.

(** The lists of a state that satisfies the invariant hold live surfaces. *)
Lemma ginv_listed n s h p : Ginv n s h -> dangles p s = false.
Proof.
  intros Hg. unfold dangles. destruct (g_dd s !! p) as [d|] eqn:Hd; [|done]. apply Bool.not_true_iff_false. intros (q & Hq & Hn)%existsb_exists.
  apply bool_decide_eq_true in Hn. apply list_elem_of_In in Hq.
  destruct (iv_list _ _ _ _ (gi_inv _ _ _ _ Hg) p d Hd) as [_ Hl]. destruct (Hl q Hq) as (x & Hx & _). cbn in Hx. congruence.
Qed.
Lemma refused_dangles p s : refused malloc_surface p s -> dangles p s = true.
Proof.
  intros (q & s1 & d & _ & _ & Hq & Hd & Hin). unfold dangles. rewrite Hd. apply existsb_exists. exists q. split; [by apply list_elem_of_In|].
  by apply bool_decide_eq_true.
Qed.

(** What is known when a run ends. *)
Definition run_post (r : held * option dd_op) s : Prop :=
  match r.2 with
  | None => exists m, Ginv m s r.1
  | Some o => exists p desc, o = GCreateSurface p desc /\ refused malloc_surface p s
  end.

Lemma guest_run_spec ops : forall n s h,
  Ginv n s h -> 1 <= n -> n + 2 * Z.of_nat (length ops) < 2 ^ 32 -> Forall op_ok ops ->
  wp (guest_run malloc_surface malloc junk tidy ops h) s run_post.
Proof.
  induction ops as [|o ops IH]; intros n s h Hg Hn Hlen Ho; cbn [guest_run]; [by apply dwp_ret; exists n|].
  inversion Ho as [|? ? Ho1 Ho2]; subst. simpl in Hlen. apply dwp_bind, dwp_state.
  destruct (allowed o h && _) eqn:Ea; [|by apply dwp_ret; exists n]. apply andb_prop in Ea as [Ea Et].
  assert (Ht : tidy = true -> tidy_op o s = true) by (intros E; rewrite E in Et; by simpl in Et).
  assert (Hnext : forall h' s', Ginv (n + 2) s' h' -> wp (s ← get_state; if left_dangling o s then mret (h', Some o)
    else guest_run malloc_surface malloc junk tidy ops h') s' run_post).
  { intros h' s' Hg'. apply dwp_bind, dwp_state. replace (left_dangling o s') with false; [apply (IH (n + 2)); [done|lia|lia|done]|].
    destruct o; try done. symmetry. by apply (ginv_listed (n + 2) s' h'). }
  apply dwp_bind. assert (Hcase : (exists p desc, o = GCreateSurface p desc) \/ forall p desc, o <> GCreateSurface p desc) by (destruct o; eauto).
  destruct Hcase as [(p & desc & ->)|Hno].
  - eapply dwp_mono; [by apply (create_step_spec n s h p desc); [..|lia| | |]|]. intros h' s' [Hg'|Hr]; [by apply Hnext|].
    apply dwp_bind, dwp_state. cbn [left_dangling]. rewrite (refused_dangles p s' Hr). apply dwp_ret. by exists p, desc.
  - eapply dwp_mono; [apply (guest_step_spec n s h o Hg Hn ltac:(lia) Ho1 Ea)|exact Hnext]; done.
Qed.
End safety.

(** ** The references of a program *)

(** The objects that a program holds references to are alive, and so are those that live
    objects refer to; when [tidy], the counts are the numbers of references, and nothing
    is alive without one. *)
Record references_sound {H} (tidy : bool) (s : ddraw H) (h : held) : Prop := {
  rs_held_dd : forall p, has h ODd p = true -> is_Some (g_dd s !! p);
  rs_held_surf : forall p, has h OSurf p = true -> is_Some (g_surf s !! p);
  rs_held_pal : forall p, has h OPal p = true -> is_Some (g_pal s !! p);
  rs_held_clip : forall p, has h OClip p = true -> is_Some (g_clip s !! p);
  rs_primary : forall p d, g_dd s !! p = Some d -> primary_surface d <> 0 -> is_Some (g_surf s !! primary_surface d);
  rs_next : forall p x, g_surf s !! p = Some x -> su_next x <> 0 -> is_Some (g_surf s !! su_next x);
  rs_palette : forall p x, g_surf s !! p = Some x -> su_palette x <> 0 -> is_Some (g_pal s !! su_palette x);
  rs_clipper : forall p x, g_surf s !! p = Some x -> su_clipper x <> 0 -> is_Some (g_clip s !! su_clipper x);
  rs_owner : forall p x, g_surf s !! p = Some x -> su_dd_owner x <> 0 -> is_Some (g_dd s !! su_dd_owner x);
  rs_dd_count : tidy = true -> forall p d, g_dd s !! p = Some d -> 0 < dd_ref_count d /\ dd_ref_count d = h (ODd p);
  rs_surf_count : tidy = true -> forall p x, g_surf s !! p = Some x ->
    0 < su_ref_count x /\ su_ref_count x = h (OSurf p) + refs su_next (g_surf s) p + refs primary_surface (g_dd s) p;
  rs_pal_count : tidy = true -> forall p x, g_pal s !! p = Some x ->
    0 < pl_ref_count x /\ pl_ref_count x = h (OPal p) + refs su_palette (g_surf s) p;
  rs_clip_count : tidy = true -> forall p x, g_clip s !! p = Some x ->
    0 < cl_ref_count x /\ cl_ref_count x = h (OClip p) + refs su_clipper (g_surf s) p }.

Lemma ginv_sound {H} tidy n (s : ddraw H) h : ginv tidy n (heaps_of s) h -> references_sound tidy s h.
Proof.
  intros Hg. pose proof Hg as [Hi Hh Hs Hd].
  assert (Heq : forall b c, tidy = true -> fits tidy b c -> c = b) by (intros b c ->; unfold fits; lia).
  split.
  - intros p Hp. by apply (held_ddraw tidy n s h).
  - intros p Hp. by apply (held_surf tidy n s h).
  - intros p Hp. by apply (held_pal tidy n s h).
  - intros p Hp. by apply (held_clip tidy n s h).
  - intros p d Hx Hp. by apply (linked_primary tidy n s h Hg p d).
  - intros p x Hx Hp. by apply (linked_surf tidy n s h Hg p x).
  - intros p x Hx Hp. destruct (rc_alive _ _ _ (linked_pal_rc tidy n s h Hg p x Hx Hp)) as (y & Hy & _). eauto.
  - intros p x Hx Hp. destruct (rc_alive _ _ _ (linked_clip_rc tidy n s h Hg p x Hx Hp)) as (y & Hy & _). eauto.
  - intros p x Hx Hp. destruct (iv_owner _ _ _ _ Hi p x Hx Hp) as (d & Hd' & _). cbn in Hd'. eauto.
  - intros Ht p d Hx. split; [by apply (Hd p)|].
    pose proof (iv_dd _ _ _ _ Hi p (bounded_nonzero _ _ _ _ _ (iv_dd_bound _ _ _ _ Hi) Hx)) as Hf. apply (Heq _ _ Ht) in Hf. cbn in Hf.
    by rewrite (rc_some dd_ref_count _ _ _ Hx) in Hf.
  - intros Ht p x Hx. split; [by apply (Hs p)|].
    pose proof (iv_surf _ _ _ _ Hi p (bounded_nonzero _ _ _ _ _ (iv_surf_bound _ _ _ _ Hi) Hx)) as Hf. apply (Heq _ _ Ht) in Hf. cbn in Hf.
    by rewrite (rc_some su_ref_count _ _ _ Hx) in Hf.
  - intros Ht p x Hx. split; [by apply (iv_pal_pos _ _ _ _ Hi p x)|].
    pose proof (iv_pal _ _ _ _ Hi p (bounded_nonzero _ _ _ _ _ (iv_pal_bound _ _ _ _ Hi) Hx)) as Hf. apply (Heq _ _ Ht) in Hf. cbn in Hf.
    by rewrite (rc_some pl_ref_count _ _ _ Hx) in Hf.
  - intros Ht p x Hx. split; [by apply (iv_clip_pos _ _ _ _ Hi p x)|].
    pose proof (iv_clip _ _ _ _ Hi p (bounded_nonzero _ _ _ _ _ (iv_clip_bound _ _ _ _ Hi) Hx)) as Hf. apply (Heq _ _ Ht) in Hf. cbn in Hf.
    by rewrite (rc_some cl_ref_count _ _ _ Hx) in Hf.
Qed.

Definition no_refs : held := fun _ => 0.
Definition empty_ddraw {H} (g : H) : ddraw H := mkDdraw ∅ ∅ ∅ ∅ 0 false false 0 0 0 g.
Lemma empty_ginv {H} tidy (g : H) : ginv tidy 1 (heaps_of (empty_ddraw g)) no_refs.
Proof.
  assert (Hz : forall {X} (f : X -> Z) p, refs f (∅ : gmap Z X) p = 0) by (intros; unfold refs; by rewrite map_filter_empty, map_size_empty).
  split; [|by intros o|done|done]. split; cbn; try done; intros p Hp; unfold no_refs; rewrite ?Hz; unfold rc; rewrite lookup_empty; by destruct tidy.
Qed.

(** C22: Whatever a program does with DirectDraw through references that it holds -
    creating, attaching, sharing and releasing surfaces, palettes, clippers and whole
    DirectDraw objects in any order, with memory that may run out at any allocation -
    no method touches a freed object, objects are alive as long as something refers to
    them, and the recursion of Release along attached surfaces ends.  Only the backend
    can stop such a program, and one event: the creation of a flip chain is refused the
    memory for its back buffer when the primary surface exists already, and leaves that
    surface freed in the object's list.  For programs that do not set a palette twice nor
    create a second primary surface, the counts are exact: nothing outlives its last
    reference. *)
Theorem ddraw_references_sound {H} {B : DdBackend H} (crash : Prop) {serves : DdServes H crash} malloc_surface malloc junk tidy ops (g : H) :
  (forall s p, malloc_surface s = Some p -> p <> 0 /\ g_surf s !! p = None) ->
  (forall s p, malloc s = Some p -> p <> 0 /\ g_dd s !! p = None /\ g_pal s !! p = None /\ g_clip s !! p = None) ->
  length junk = 256%nat -> Forall op_ok ops -> 2 * Z.of_nat (length ops) + 1 < 2 ^ 32 ->
  match guest_run malloc_surface malloc junk tidy ops no_refs (empty_ddraw g) with
  | Ret ((h, None), s) => references_sound tidy s h
  | Ret ((h, Some o), s) => exists p desc, o = GCreateSurface p desc /\ refused malloc_surface p s
  | Fail => crash
  | Fault => False
  end.
Proof.
  intros Hsurf Hmal Hj Ho Hlen.
  pose proof (guest_run_spec (crash := crash) tidy malloc_surface malloc junk Hsurf Hmal Hj ops 1 (empty_ddraw g) no_refs
    (empty_ginv tidy g) ltac:(lia) ltac:(lia) Ho) as Hrun.
  unfold wp in Hrun. destruct (guest_run _ _ _ _ _ _ _) as [[[h [o|]] s]| |]; [done| |done|done]. destruct Hrun as (m & Hg). by apply (ginv_sound tidy m).
Qed.

(** ** Concrete programs *)

(** A backend with one window, whose calls succeed. *)
#[local] Instance demo_dd : DdBackend unit := fun R q g =>
  match q in dd_req R return outcome (R * unit) with
  | Rb_init => Ret (0, g)
  | Entry_window hwnd => Ret (if hwnd =? 0 then None else Some 3, g)
  | Window_create _ _ => Ret (4, g)
  | Window_set_fullscreen _ _ _ _ _ | Window_destroy _ => Ret (0, g)
  | Window_backbuffer _ => Ret (Some 0, g)
  | Window_set_backbuffer _ _ => Ret (tt, g)
  | Surface_create _ _ _ _ _ => Ret (6, g)
  | Surface_create_flip_chain _ _ _ _ _ _ => Ret (5, g)
  | Surface_destroy _ => Ret (0, g)
  | Surface_lock _ _ => Ret (0, 0x1000, 640, g)
  | Surface_unlock _ | Surface_blt _ _ _ _ _ _ | Surface_flip _ | Surface_set_palette _ _ => Ret (0, g)
  | Surface_get_desc _ => Ret (Some (640, 480, 640), g)
  | Palette_create _ => Ret (7, g)
  | Palette_destroy _ | Palette_set_colors _ _ _ _ => Ret (0, g)
  | Palette_get_colors _ _ _ l => Ret (0, l, g)
  end.
#[local] Instance demo_dd_serves : DdServes unit False.
Proof. split; [by destruct q|]. intros pal start count l r l' g g'. cbn. by intros [= <- <- <-]. Qed.

Definition next_dd {H} (s : ddraw H) : option Z :=
  Some (fresh ({[0]} ∪ dom (g_dd s) ∪ dom (g_surf s) ∪ dom (g_pal s) ∪ dom (g_clip s) : gset Z)).
Lemma next_dd_fresh {H} (s : ddraw H) p : next_dd s = Some p ->
  p <> 0 /\ g_dd s !! p = None /\ g_surf s !! p = None /\ g_pal s !! p = None /\ g_clip s !! p = None.
Proof.
  intros [= <-]. pose proof (is_fresh ({[0]} ∪ dom (g_dd s) ∪ dom (g_surf s) ∪ dom (g_pal s) ∪ dom (g_clip s) : gset Z)) as Hf.
  split_and!; [set_solver|apply not_elem_of_dom; set_solver..].
Qed.

(** A primary surface with a back buffer, a palette shared by the program and the surface. *)
Definition desc_of (caps : Z) : bytes := le_split 4 0x6C ++ replicate 100 0 ++ le_split 4 caps.
Definition chain_desc : bytes := desc_of 0x218.
Definition demo_session : list dd_op :=
  [GCreate; GSetCooperativeLevel 1 77 3; GSetDisplayMode 1 640 480 8; GCreateSurface 1 chain_desc; SGetAttachedSurface 2 4;
   GCreatePalette 1 4 None; SSetPalette 2 4; SLock 3 None (Some (guest_block 0x6C)); SUnlock 3; SFlip 2; PRelease 4; GRelease 1;
   SRelease 2; SRelease 3].
Lemma demo_session_ok : Forall op_ok demo_session.
Proof. repeat (apply Forall_cons; split; [cbn; try exact I; vm_compute; discriminate|]). apply Forall_nil, I. Qed.

Lemma ddraw_references_sound_witness :
  exists h s, guest_run (B := demo_dd) next_dd next_dd (replicate 256 0) true demo_session no_refs (empty_ddraw tt) = Ret ((h, None), s) /\
    references_sound true s h.
Proof.
  pose proof (ddraw_references_sound (B := demo_dd) False next_dd next_dd (replicate 256 0) true demo_session tt) as Hw.
  assert (Hs : match guest_run (B := demo_dd) next_dd next_dd (replicate 256 0) true demo_session no_refs (empty_ddraw tt) with
    | Ret ((_, None), _) => True | _ => False end) by (vm_compute; exact I).
  destruct (guest_run _ _ _ _ _ _ _) as [[[h [o|]] s]| |]; [done| |done..]. exists h, s. split; [reflexivity|]. apply Hw.
  - intros s0 p E. apply next_dd_fresh in E as (? & ? & ? & ? & ?). auto.
  - intros s0 p E. apply next_dd_fresh in E as (? & ? & ? & ? & ?). auto.
  - reflexivity.
  - exact demo_session_ok.
  - vm_compute. reflexivity.
Defined.

(** The session runs to its end and nothing is left. *)
Example demo_session_ends :
  match guest_run (B := demo_dd) next_dd next_dd (replicate 256 0) true demo_session no_refs (empty_ddraw tt) with
  | Ret (h, s) => size (g_dd s) = 0%nat /\ size (g_surf s) = 0%nat /\ size (g_pal s) = 0%nat
  | _ => False
  end.
Proof. vm_compute. done. Qed.

(** ** Defects *)

Definition objects_left (ops : list dd_op) : option (nat * nat * nat) :=
  match guest_run (B := demo_dd) next_dd next_dd (replicate 256 0) false ops no_refs (empty_ddraw tt) with
  | Ret (_, s) => Some (size (g_dd s), size (g_surf s), size (g_pal s))
  | _ => None
  end.

(** A palette that is set twice on a surface is never freed. *)
Example palette_set_twice_leaks :
  objects_left [GCreate; GSetCooperativeLevel 1 77 0; GCreateSurface 1 chain_desc; GCreatePalette 1 4 None; SSetPalette 2 4;
    SSetPalette 2 4; PRelease 4; SRelease 2; GRelease 1] = Some (0, 0, 1)%nat.
Proof. vm_compute. reflexivity. Qed.

(** A second primary surface: the object forgets its reference to the first, which is
    never freed, and neither is the back buffer attached to it. *)
Example second_primary_leaks :
  objects_left [GCreate; GSetCooperativeLevel 1 77 0; GCreateSurface 1 chain_desc; GCreateSurface 1 chain_desc; SRelease 2; SRelease 4; GRelease 1]
  = Some (0, 2, 0)%nat.
Proof. vm_compute. reflexivity. Qed.

(** Two surfaces attached to each other are never freed. *)
Example attachment_cycle_leaks :
  objects_left [GCreate; GCreateSurface 1 (desc_of 0x40); GCreateSurface 1 (desc_of 0x40); SAddAttachedSurface 2 3; SAddAttachedSurface 3 2;
    SRelease 2; SRelease 3; GRelease 1] = Some (0, 2, 0)%nat.
Proof. vm_compute. reflexivity. Qed.

(** When the memory for the back buffer's object is refused, the primary surface is freed
    but stays in the list of the DirectDraw object: the next Release reads it. *)
Definition one_surface {H} (s : ddraw H) : option Z := if (size (g_surf s) =? 0)%nat then next_dd s else None.
Example failed_chain_dangles :
  (_ ← DirectDrawCreate next_dd true true;
   _ ← ddraw_SetCooperativeLevel 1 77 0;
   '(hr, _) ← ddraw_create_surface_from_desc one_surface 1 (Some chain_desc) true;
   mret hr) (empty_ddraw tt) = Ret (DDERR_OUTOFMEMORY, mkDdraw {[1 := mkDd 1 3 false 77 0 false 320 200 8 0 [2]]} ∅ ∅ ∅ 1 true true 0 0 0 tt) /\
  ddraw_release 1 (mkDdraw {[1 := mkDd 1 3 false 77 0 false 320 200 8 0 [2]]} ∅ ∅ ∅ 1 true true 0 0 0 tt) = Fault.
Proof. split; vm_compute; reflexivity. Qed.
