(* ===== verification/DDrawSdl.v ===== *)
(** * DirectDraw over the SDL backend

    The requests of DirectDraw answered by the models of the backend's windows, surfaces
    and palettes and of user32's windows: an instance of [DdBackend].  A fault inside the
    backend stops the program ([Fail]), so that a fault that is left is one of
    DirectDraw's own. *)
From S2P Require Import Prelude Bytes CStr HandleTable BackendState WndClass Windows RbSurface RbWindow DDrawDesc DDraw DDrawSafe DDrawRun.

Definition shield {X} (m : outcome X) : outcome X := match m with Fault => Fail | m => m end.

(** ** Entries of palettes *)

Lemma lor_low a r k : 0 <= r < 2 ^ k -> 0 <= k -> Z.lor (Z.shiftl a k) r = a * 2 ^ k + r.
Proof.
  intros Hr Hk. rewrite <- Z.lxor_lor, <- Z.add_nocarry_lxor, Z.shiftl_mul_pow2; [done|done|..];
    (apply Z.bits_inj'; intros i Hi; rewrite Z.land_spec, Z.bits_0;
     destruct (Z_lt_le_dec i k); [rewrite Z.shiftl_spec_low by lia; done|];
     rewrite (Z.testbit_eqb r i) by lia; rewrite Z.div_small; [by rewrite andb_false_r|]; split; [lia|];
     apply (Z.lt_le_trans _ (2 ^ k)); [lia|]; apply Z.pow_le_mono_r; lia).
Qed.
(** The value of a computation, step by step. *)
Lemma bind_run {H X Y} (m : D H X) (f : X -> D H Y) s x s1 r : m s = Ret (x, s1) -> f x s1 = r -> (m ≫= f) s = r.
Proof. unfold mbind, D_bind. by intros ->. Qed.
Lemma pal_at_run {H} p x (s : ddraw H) : g_pal s !! p = Some x -> pal_at p s = Ret (x, s).
Proof. intros E. unfold pal_at. apply (bind_run _ _ _ s s); [done|]. unfold lift. by rewrite E. Qed.
Lemma lift_run {H X} (m : outcome X) x (s : ddraw H) : m = Ret x -> lift m s = Ret (x, s).
Proof. by intros ->. Qed.
Lemma call_run {H} `{DdBackend H} {R} (q : dd_req R) r g (s : ddraw H) : dd_call q (g_host s) = Ret (r, g) -> call q s = Ret (r, with_host g s).
Proof. unfold call. by intros ->. Qed.

Definition entry_ok (e : DDPALETTEENTRY) : Prop := in_u 8 (peRed e) /\ in_u 8 (peGreen e) /\ in_u 8 (peBlue e).
Lemma pack_value e : entry_ok e -> pack_color e = (peBlue e * 256 + peGreen e) * 256 + peRed e.
Proof.
  intros (Hr & Hg & Hb). unfold pack_color, in_u in *.
  replace (Z.shiftl (peBlue e) 16) with (Z.shiftl (Z.shiftl (peBlue e) 8) 8) by (by rewrite Z.shiftl_shiftl).
  rewrite <- Z.shiftl_lor, lor_low, lor_low by lia. done.
Qed.
Lemma unpack_pack e : entry_ok e -> unpack_color (Z.land (pack_color e) 0xFFFFFF) = mkPalEntry (peRed e) (peGreen e) (peBlue e) 0.
Proof.
  intros He. pose proof He as (Hr & Hg & Hb). unfold in_u in *. unfold unpack_color. rewrite (pack_value e He).
  change 0xFFFFFF with (Z.ones 24). change 0xFF with (Z.ones 8). rewrite !Z.land_ones, !Z.shiftr_div_pow2 by lia.
  rewrite (Z.mod_small _ (2 ^ 24)) by lia. change (2 ^ 8) with 256. change (2 ^ 16) with 65536.
  f_equal; [rewrite Z.add_comm, Z.mod_add by lia; apply Z.mod_small; lia| |].
  - rewrite Z.div_add_l, (Z.div_small (peRed e)) by lia. rewrite Z.add_0_r, Z.add_comm, Z.mod_add by lia. apply Z.mod_small; lia.
  - change 65536 with (256 * 256). rewrite <- Z.div_div, Z.div_add_l, (Z.div_small (peRed e)), Z.add_0_r, Z.div_add_l, (Z.div_small (peGreen e)), Z.add_0_r by lia.
    apply Z.mod_small; lia.
Qed.

Section sdl.
Context {A : Arch}.
(** The backend's parameters (RbSurface.v, RbWindow.v). *)
Variable rb_init : bool.
Variable malloc_surface : gmap nat rb_surface -> option nat.
Variable malloc_palette : gmap nat rb_palette -> option nat.
Variable malloc_colors : Z -> bool.
Variable alloc_buf : Z -> gmap nat buffer -> option (nat * bool).
Variable sdl_alloc_palette : Z -> option (list SDL_Color).
Variable sdl_set_palette_colors : list SDL_Color -> list SDL_Color -> Z -> list SDL_Color * Z.
Variable sdl_masks15 : option Z.
Variable sdl_create_surface_from : Z -> Z -> Z -> Z -> gmap nat sdl_surface -> option nat.
Variable sdl_set_surface_palette : sdl_surface -> bool.
Variable sdl_fill_rect : sdl_surface -> Z * Z * Z * Z -> Z -> Z.
Variable sdl_blit : bool -> sdl_surface -> Z * Z * Z * Z -> sdl_surface -> Z * Z * Z * Z -> Z.
Variable sdl_window_surface : Z -> bool.
Variable pump : rb_state -> rb_state.
Variable sdl_create : cstr -> Z -> Z -> Z -> Z -> Z -> gmap nat rb_win -> option Z.
Variable sdl_ids : Z -> Z * Z.
Variable malloc_window : gmap nat rb_win -> option nat.
(** Where a buffer of pixels is; rb_window_set_fullscreen, which replaces the SDL window
    and activates the guest's window through user32. *)
Variable pixel_address : nat -> Z.
Variable set_fullscreen : Z -> bool -> Z -> Z -> user32 rb_host -> outcome (Z * user32 rb_host).
Variable direct_draw_title : cstr.

(** rb_surface_lock with the address of the pixel. *)
Definition lock_address (surf : Z) (rect : option rb_rect_t) (t : table) (g : rb_host) : outcome (Z * Z * Z) :=
  r ← rb_surface_lock surf (fmap (M := option) (fun r => (r_x r, r_y r)) rect) t g;
  match (r : option (Z * Z)) with
  | None => Ret (RB_FAIL, 0, 0)
  | Some (off, pitch) =>
      sp ← get_surface surf t; p ← deref sp; s ← deref (surface_heap g !! p); ss ← deref (sdl_surfaces g !! sf_surface s);
      Ret (RbSurface.RB_OK, pixel_address (ss_pixels ss) + off, pitch)
  end.
Definition quad (r : rb_rect_t) : Z * Z * Z * Z := (r_x r, r_y r, r_w r, r_h r).

Definition create_surface := rb_surface_create malloc_surface alloc_buf sdl_masks15 sdl_create_surface_from sdl_set_surface_palette.
Definition create_chain := rb_surface_create_flip_chain malloc_surface alloc_buf sdl_masks15 sdl_create_surface_from sdl_set_surface_palette.

(** A call that changes the backend, and one that also changes the handle table. *)
Definition on_host (m : outcome (rb_host * Z)) (u : user32 rb_host) : outcome (Z * user32 rb_host) :=
  '(g, r) ← m; Ret (r, Windows.with_backend (u_table u) g u).
Definition on_table (m : outcome (table * rb_host * Z)) (u : user32 rb_host) : outcome (Z * user32 rb_host) :=
  '(t, g, r) ← m; Ret (r, Windows.with_backend t g u).

Definition sdl_answer {R} (q : dd_req R) (u : user32 rb_host) : outcome (R * user32 rb_host) :=
  let t := u_table u in
  let g := u_host u in
  match q in dd_req R return outcome (R * user32 rb_host) with
  | Rb_init => Ret (if rb_init then 0 else RB_FAIL, u)
  | Entry_window hwnd =>
      '(e, u) ← get_window_entry hwnd u;
      match e with
      | None => Ret (None, u)
      | Some p => x ← deref (u_heap u !! p); Ret (Some (sdl_window x), u)
      end
  | Window_create w h => on_table (rb_window_create sdl_create sdl_ids malloc_window direct_draw_title (-1) (-1) w h 0 t g) u
  | Window_set_fullscreen win full w h _ => set_fullscreen win full w h u
  | Window_destroy win => on_table (rb_window_destroy win t g) u
  | Window_backbuffer win =>
      if win =? 0 then Ret (None, u)
      else
        wp ← get_window win t;
        match (wp : option nat) with None => Ret (None, u) | Some p => w ← deref (rb_heap g !! p); Ret (Some (backbuffer w), u) end
  | Window_set_backbuffer win surf =>
      wp ← get_window win t;
      p ← deref wp;
      g ← update_window p (fun w => set_chain (RbSurface.primary_surface w) surf w) g;
      Ret (tt, Windows.with_backend t g u)
  | Surface_create w h format palette flags => on_table (create_surface w h format palette flags t g) u
  | Surface_create_flip_chain win w h format palette n => on_table (create_chain win w h format palette n t g) u
  | Surface_destroy surf => on_table (rb_surface_destroy 2 surf t g) u
  | Surface_lock surf rect => r ← lock_address surf rect t g; Ret (r, u)
  | Surface_unlock surf => on_host (rb_surface_unlock surf t g) u
  | Surface_blt dst dst_rect src src_rect color flags =>
      on_host (rb_surface_blt sdl_fill_rect sdl_blit dst (fmap (M := option) quad dst_rect) src (fmap (M := option) quad src_rect) color flags t g) u
  | Surface_flip surf => on_host (rb_surface_flip sdl_set_surface_palette sdl_window_surface pump surf t g) u
  | Surface_set_palette surf pal => on_host (rb_surface_set_palette sdl_set_surface_palette surf pal t g) u
  | Surface_get_desc surf =>
      r ← rb_surface_get_desc surf t g;
      Ret (match (r : option (Z * Z * Z * Z)) with None => None | Some (w, h, _, pitch) => Some (w, h, pitch) end, u)
  | Palette_create n => on_table (rb_palette_create malloc_palette sdl_alloc_palette n t g) u
  | Palette_destroy pal => on_table (rb_palette_destroy pal t g) u
  | Palette_set_colors pal start count colors =>
      on_host (rb_palette_set_colors malloc_colors sdl_set_palette_colors pal start count (Some colors) t g) u
  | Palette_get_colors pal start count colors =>
      '(l, r) ← rb_palette_get_colors pal start count (Some colors) t g; Ret (r, default colors l, u)
  end.

#[export] Instance sdl_dd : DdBackend (user32 rb_host) := fun R q u => shield (sdl_answer q u).

(** ** Palettes *)

Hypothesis set_palette_colors_stores : forall l cs start, 0 <= start -> start + Z.of_nat (length cs) <= Z.of_nat (length l) ->
  sdl_set_palette_colors l cs start = (take (Z.to_nat start) l ++ cs ++ drop (Z.to_nat start + length cs) l, 0).

(** The entries that a program sets in a palette of DirectDraw are the entries that it
    gets back, less their flags: through DirectDraw's packing, the backend's handle and
    the SDL palette, and whatever was on the stack. *)
Theorem palette_entries_roundtrip p x pp pl start entries junk (s : ddraw (user32 rb_host)) :
  p <> 0 -> g_pal s !! p = Some x -> get_palette (pl_rb_palette x) (u_table (g_host s)) = Ret (Some pp) ->
  palette_heap (u_host (g_host s)) !! pp = Some pl -> num_colors pl = Z.of_nat (length (pal_colors pl)) ->
  pl_num_colors x = num_colors pl -> num_colors pl <= 256 -> length junk = 256%nat ->
  0 <= start -> entries <> [] -> start + Z.of_nat (length entries) <= num_colors pl -> Forall entry_ok entries ->
  malloc_colors (usize (4 * Z.of_nat (length entries))) = true ->
  exists s', palette_SetEntries p start (Z.of_nat (length entries)) (Some entries) s = Ret (DD_OK, s') /\
    palette_GetEntries junk p start (Z.of_nat (length entries)) true s' =
      Ret (DD_OK, (fun e => mkPalEntry (peRed e) (peGreen e) (peBlue e) 0) <$> entries, s').
Proof.
  intros Hp Hx Hpp Hpl Hlen Hnum H256 Hj Hs Hne Hfit Hok Hm.
  assert (Hcount : entry_count (Z.of_nat (length entries)) x = Z.of_nat (length entries)).
  { unfold entry_count. replace (_ <? _) with false by lia. done. }
  assert (Hpack : ddraw_palette_pack_colors entries (Z.of_nat (length entries)) = Ret (pack_color <$> entries)).
  { unfold ddraw_palette_pack_colors, read_array. replace (_ <=? _) with true by lia. cbn [mbind outcome_bind].
    by rewrite Nat2Z.id, firstn_all. }
  assert (Hu32 : Forall (in_u 32) (pack_color <$> entries)).
  { apply Forall_fmap. eapply Forall_impl; [exact Hok|]. intros e He. pose proof He as (? & ? & ?). unfold in_u in *. cbn. rewrite (pack_value e He). lia. }
  destruct (palette_colors_roundtrip malloc_colors sdl_set_palette_colors set_palette_colors_stores (pl_rb_palette x) pp pl start
    (pack_color <$> entries) junk (u_table (g_host s)) (u_host (g_host s))) as (g' & Eset & Eget);
    rewrite ?length_fmap; try done; try lia; [by destruct entries|].
  rewrite length_fmap in Eset, Eget.
  set (u' := Windows.with_backend (u_table (g_host s)) g' (g_host s)). exists (with_host u' s). split.
  - unfold palette_SetEntries. replace (p =? 0) with false by lia. eapply bind_run; [apply (pal_at_run p x), Hx|]. cbv zeta. rewrite Hcount.
    eapply bind_run; [apply lift_run, Hpack|]. apply (bind_run _ _ _ RbSurface.RB_OK (with_host u' s)); [|reflexivity]. apply call_run. unfold dd_call, sdl_dd. cbn [sdl_answer].
    unfold on_host. by rewrite Eset.
  - unfold palette_GetEntries. replace (p =? 0) with false by lia. cbn [orb negb]. eapply bind_run; [apply (pal_at_run p x), Hx|]. cbv zeta.
    rewrite Hcount. eapply bind_run.
    { apply (call_run _ (RbSurface.RB_OK, ((fun c => Z.land c 0xFFFFFF) <$> (pack_color <$> entries)) ++ drop (length entries) junk) u').
      unfold dd_call, sdl_dd. cbn [sdl_answer with_host g_host u_table u_host u' Windows.with_backend]. by rewrite Eget. }
    cbv beta iota. change (negb (RbSurface.RB_OK =? DDraw.RB_OK)) with false. cbv iota. eapply bind_run.
    { apply lift_run. unfold read_array. rewrite length_app, !length_fmap. rewrite (proj2 (Z.leb_le _ _)) by lia. reflexivity. }
    rewrite Nat2Z.id, take_app_length' by (by rewrite !length_fmap). cbn -[fmap]. unfold mret, D_ret. do 3 f_equal.
    rewrite <- !list_fmap_compose. apply list_fmap_ext. intros i e He. cbn. apply unpack_pack. by apply (Forall_lookup_1 _ _ _ _ Hok He).
Qed.
End sdl.

(** ** The instance *)

Lemma shield_no_fault {X} (m : outcome X) : shield m <> Fault.
Proof. by destruct m. Qed.
Lemma shield_Ret {X} (m : outcome X) x : shield m = Ret x -> m = Ret x.
Proof. by destruct m. Qed.
Lemma write_from_length {X} (xs : list X) : forall l i l', write_from l i xs = Ret l' -> length l' = length l.
Proof.
  induction xs as [|x xs IH]; intros l i l'; cbn [write_from]; [by intros [= ->]|]. intros E. apply bind_Ret in E as (y & _ & E).
  apply IH in E. by rewrite length_insert in E.
Qed.
Lemma get_colors_length pal start count l t g l' r :
  rb_palette_get_colors pal start count (Some l) t g = Ret (l', r) -> length (default l l') = length l.
Proof.
  unfold rb_palette_get_colors. intros E. apply bind_Ret in E as ([p|] & _ & E); [|by injection E as <- <-].
  apply bind_Ret in E as (pl & _ & E). destruct (color_count _ _ _) as [c|]; [|by injection E as <- <-].
  destruct (c =? 0); [by injection E as <- <-|]. apply bind_Ret in E as (cs & _ & E). apply bind_Ret in E as (out & Ew & E).
  injection E as <- <-. simpl. by apply write_from_length in Ew.
Qed.

#[export] Instance sdl_dd_serves {A : Arch} rb_init malloc_surface malloc_palette malloc_colors alloc_buf sdl_alloc_palette sdl_set_palette_colors
  sdl_masks15 sdl_create_surface_from sdl_set_surface_palette sdl_fill_rect sdl_blit sdl_window_surface pump sdl_create sdl_ids malloc_window
  pixel_address set_fullscreen direct_draw_title :
  DdServes (B := sdl_dd rb_init malloc_surface malloc_palette malloc_colors alloc_buf sdl_alloc_palette sdl_set_palette_colors
    sdl_masks15 sdl_create_surface_from sdl_set_surface_palette sdl_fill_rect sdl_blit sdl_window_surface pump sdl_create sdl_ids malloc_window
    pixel_address set_fullscreen direct_draw_title) (user32 rb_host) True.
Proof.
  split.
  - intros R q u. unfold dd_call, sdl_dd.
    match goal with |- context [shield ?m] => pose proof (shield_no_fault m); by destruct (shield m) end.
  - intros pal start count l r l' u u' E. apply shield_Ret in E. cbn in E. apply bind_Ret in E as ([o r'] & E & E').
    injection E' as <- <- <-. by apply get_colors_length in E.
Qed.



(** ** Concrete hosts *)

Definition demo_sdl_dd : DdBackend (user32 rb_host) :=
  sdl_dd (A := arch64) true next_free next_free (fun _ => true) (demo_buf (fun _ => true))
    (fun n => Some (replicate (Z.to_nat n) (mkColor 255 255 255 255))) demo_set_colors (Some 15) demo_sdl (fun _ => true) (fun _ _ _ => 0)
    (fun _ _ _ _ _ => 0) (fun _ => true) id (fun _ _ _ _ _ _ m => Some (1 + Z.of_nat (size m))) (fun w => (w, 0x400000 + w)) next_free
    (fun b => 0x10000 * (1 + Z.of_nat b)) (fun _ _ _ _ u => Ret (0, u)) [].
Definition host_user32 (t : table) (g : rb_host) : user32 rb_host := mkUser32 t ∅ g false false false 0 0 0 0 empty_registry dialog_init [].

(** A DirectDraw palette of 16 colours over the SDL palette behind handle 3. *)
Definition palette_state : ddraw (user32 rb_host) :=
  mkDdraw ∅ ∅ {[9 := mkPal 1 3 16 1]} ∅ 0 true true 0 0 0 (host_user32 palette_table palette_host).

Lemma palette_entries_roundtrip_witness :
  exists s', palette_SetEntries (B := demo_sdl_dd) 9 14 2 (Some [mkPalEntry 1 2 3 4; mkPalEntry 255 0 128 0]) palette_state = Ret (DD_OK, s') /\
    palette_GetEntries (B := demo_sdl_dd) (replicate 256 7) 9 14 2 true s' = Ret (DD_OK, [mkPalEntry 1 2 3 0; mkPalEntry 255 0 128 0], s').
Proof.
  apply (palette_entries_roundtrip (A := arch64) true next_free next_free (fun _ => true) (demo_buf (fun _ => true))
    (fun n => Some (replicate (Z.to_nat n) (mkColor 255 255 255 255))) demo_set_colors (Some 15) demo_sdl (fun _ => true) (fun _ _ _ => 0)
    (fun _ _ _ _ _ => 0) (fun _ => true) id (fun _ _ _ _ _ _ m => Some (1 + Z.of_nat (size m))) (fun w => (w, 0x400000 + w)) next_free
    (fun b => 0x10000 * (1 + Z.of_nat b)) (fun _ _ _ _ u => Ret (0, u)) [] (fun _ _ _ _ _ => eq_refl)
    9 (mkPal 1 3 16 1) 0%nat (mkPalette 16 (replicate 16 (mkColor 255 255 255 255))) 14 [mkPalEntry 1 2 3 4; mkPalEntry 255 0 128 0]
    (replicate 256 7) palette_state).
  - lia.
  - reflexivity.
  - vm_compute. reflexivity.
  - vm_compute. reflexivity.
  - reflexivity.
  - reflexivity.
  - simpl. lia.
  - reflexivity.
  - lia.
  - congruence.
  - simpl. lia.
  - repeat constructor; simpl; lia.
  - reflexivity.
Defined.

(** A session of a game: a mode, a flip chain, a frame drawn into the locked back buffer
    and shown. *)
Definition frame : list dd_op :=
  [GCreate; GSetDisplayMode 1 4 4 8; GCreateSurface 1 chain_desc; SGetAttachedSurface 2 4; SLock 3 None (Some (guest_block 0x6C)); SUnlock 3; SFlip 2].
Example frame_is_shown :
  match guest_run (B := demo_sdl_dd) next_dd next_dd (replicate 256 0) true frame no_refs
          (empty_ddraw (host_user32 wine_handle_manager_runtime_init (host_init no_events))) with
  | Ret (_, s) => h_screen (u_host (g_host s)) !! 1 = Some 1%nat /\ flip_count (u_host (g_host s)) = 1
  | _ => False
  end.
Proof. vm_compute. done. Qed.

(** ** Defects *)

(** A range that runs past the end of a palette: the entries past the end are what the
    stack held. *)
Example entries_past_the_end :
  exists s, palette_GetEntries (B := demo_sdl_dd) (replicate 256 0x070809) 9 15 2 true palette_state =
    Ret (DD_OK, [mkPalEntry 255 255 255 0; mkPalEntry 9 8 7 0], s).
Proof. eexists. vm_compute. reflexivity. Qed.

(** The last reference to a surface: the backend crashes in rb_surface_destroy. *)
Example last_surface_release_crashes :
  match guest_run (B := demo_sdl_dd) next_dd next_dd (replicate 256 0) true (frame ++ [SRelease 3; GRelease 1; SRelease 2]) no_refs
          (empty_ddraw (host_user32 wine_handle_manager_runtime_init (host_init no_events))) with
  | Fail => True
  | _ => False
  end.
Proof. vm_compute. done. Qed.
