(* ===== verification/WineHeap.v ===== *)
(** * The heap functions (src/heap/wine_heap.c)

    HeapCreate, HeapAlloc, HeapFree, HeapReAlloc, HeapSize and HeapDestroy over the
    interface of heap_backend.h, and what they promise to the guest.  The theorems
    hold for every backend that keeps the interface's laws; MmapHeap proves them for
    the backend of the 32-bit program.  The guest runs one thread, so that a heap's
    mutex is always free. *)
From S2P Require Import Prelude Bytes.

(** ** The interface (heap_backend.h)

    [hb_view] gives the blocks of the allocator: the address of each and its bytes.
    [hb_store] is a write into a block, by memset or by the guest. *)
Class HeapBackend (M : Type) := {
  heap_backend_malloc : Z -> M -> outcome (Z * M);
  heap_backend_free : Z -> M -> outcome M;
  heap_backend_realloc : Z -> Z -> M -> outcome (Z * M);
  heap_backend_usable_size : Z -> M -> outcome Z;
  hb_store : Z -> Z -> bytes -> M -> outcome M;
  hb_view : M -> gmap Z bytes;
  hb_limit : Z;
  hb_inv : M -> Prop }.

(** The laws, for requests of at most [hb_limit] bytes. *)
Class HeapBackendLaws M `{HeapBackend M} := {
  malloc_law n s : hb_inv s -> 0 <= n <= hb_limit ->
    exists p s', heap_backend_malloc n s = Ret (p, s') /\ hb_inv s' /\
      (p = 0 /\ hb_view s' = hb_view s \/
       p <> 0 /\ hb_view s !! p = None /\ exists b, n <= blen b /\ hb_view s' = <[p := b]> (hb_view s));
  free_law p b s : hb_inv s -> hb_view s !! p = Some b ->
    exists s', heap_backend_free p s = Ret s' /\ hb_inv s' /\ hb_view s' = delete p (hb_view s);
  realloc_law p b n s : hb_inv s -> hb_view s !! p = Some b -> 0 <= n <= hb_limit ->
    exists q s', heap_backend_realloc p n s = Ret (q, s') /\ hb_inv s' /\
      (n = 0 /\ q = 0 /\ hb_view s' = delete p (hb_view s) \/
       n <> 0 /\ q = 0 /\ hb_view s' = hb_view s \/
       q <> 0 /\ (q = p \/ hb_view s !! q = None) /\
         exists b', n <= blen b' /\ slice 0 (Z.min n (blen b)) b' = slice 0 (Z.min n (blen b)) b
           /\ hb_view s' = <[q := b']> (delete p (hb_view s)));
  usable_law p b s : hb_inv s -> hb_view s !! p = Some b -> heap_backend_usable_size p s = Ret (blen b);
  store_law p b off src s : hb_inv s -> hb_view s !! p = Some b -> 0 <= off -> off + blen src <= blen b ->
    exists s', hb_store p off src s = Ret s' /\ hb_inv s' /\ hb_view s' = <[p := splice off src b]> (hb_view s) }.

(** ** The functions *)

Definition HEAP_ZERO_MEMORY : Z := 0x00000008.
Definition MAX_HEAP_HANDLES : nat := 64.

(** [hs_structs]: the is_valid field of each wine_heap_t that is mapped. *)
Record heap_state (M : Type) := mkHeapState {
  g_heap_handles : list Z; hs_structs : gmap Z Z; g_process_heap : Z; hs_mem : M }.
Arguments mkHeapState {_} _ _ _ _.
Arguments g_heap_handles {_} _.
Arguments hs_structs {_} _.
Arguments g_process_heap {_} _.
Arguments hs_mem {_} _.

Definition with_mem {M} (m : M) (s : heap_state M) : heap_state M :=
  mkHeapState (g_heap_handles s) (hs_structs s) (g_process_heap s) m.

(** The loop of heap_handle_find from index [i]. *)
Fixpoint heap_find_loop (hHeap : Z) (l : list Z) (i : Z) : Z :=
  match l with [] => -1 | h :: l => if h =? hHeap then i else heap_find_loop hHeap l (i + 1) end.
Definition heap_handle_find (hHeap : Z) (l : list Z) : Z := heap_find_loop hHeap l 0.

(** The first empty slot. *)
Fixpoint heap_handle_add (hHeap : Z) (l : list Z) : option (list Z) :=
  match l with
  | [] => None
  | h :: l => if h =? 0 then Some (hHeap :: l) else cons h <$> heap_handle_add hHeap l
  end.

Definition heap_handle_remove (hHeap : Z) (l : list Z) : list Z :=
  let idx := heap_handle_find hHeap l in if 0 <=? idx then <[Z.to_nat idx := 0]> l else l.

Section api.
Context {A : Arch} {M : Type} `{HeapBackend M}.
(** mmap for a wine_heap_t: what the kernel returns. *)
Variable mmap_struct : heap_state M -> Z.

(** [!hHeap || heap_handle_find(hHeap) < 0 || !heap->is_valid] *)
Definition heap_invalid (hHeap : Z) (s : heap_state M) : outcome bool :=
  if (hHeap =? 0) || (heap_handle_find hHeap (g_heap_handles s) <? 0) then Ret true
  else v ← deref (hs_structs s !! hHeap); Ret (v =? 0).

Definition HeapCreate (s : heap_state M) : outcome (Z * heap_state M) :=
  let mem := INLINE_SYSCALL_MMAP (mmap_struct s) in
  if (mem =? MAP_FAILED) || (mem =? 0) then Ret (0, s)
  else if is_errno mem then Fault
  else
    let structs := <[mem := 1]> (hs_structs s) in
    match heap_handle_add mem (g_heap_handles s) with
    | None => Ret (0, mkHeapState (g_heap_handles s) (delete mem structs) (g_process_heap s) (hs_mem s))
    | Some l => Ret (mem, mkHeapState l structs (g_process_heap s) (hs_mem s))
    end.

Definition memset_zero (p off n : Z) (m : M) : outcome M := hb_store p off (replicate (Z.to_nat n) 0) m.

Definition HeapAlloc (hHeap dwFlags dwBytes : Z) (s : heap_state M) : outcome (Z * heap_state M) :=
  bad ← heap_invalid hHeap s;
  if (bad : bool) || (dwBytes =? 0) then Ret (0, s)
  else
    '(ptr, m) ← heap_backend_malloc dwBytes (hs_mem s);
    m ← (if negb (ptr =? 0) && negb (Z.land dwFlags HEAP_ZERO_MEMORY =? 0) then memset_zero ptr 0 dwBytes m else Ret m);
    Ret (ptr, with_mem m s).

Definition HeapFree (hHeap dwFlags lpMem : Z) (s : heap_state M) : outcome (Z * heap_state M) :=
  bad ← heap_invalid hHeap s;
  if (bad : bool) then Ret (0, s)
  else if lpMem =? 0 then Ret (1, s)
  else m ← heap_backend_free lpMem (hs_mem s); Ret (1, with_mem m s).

Definition HeapReAlloc (hHeap dwFlags lpMem dwBytes : Z) (s : heap_state M) : outcome (Z * heap_state M) :=
  bad ← heap_invalid hHeap s;
  if (bad : bool) then Ret (0, s)
  else
    '(old_size, ptr, m) ←
      (if negb (lpMem =? 0) then
         old_size ← heap_backend_usable_size lpMem (hs_mem s);
         '(ptr, m) ← heap_backend_realloc lpMem dwBytes (hs_mem s);
         Ret (old_size, ptr, m)
       else '(ptr, m) ← heap_backend_malloc dwBytes (hs_mem s); Ret (0, ptr, m));
    m ← (if negb (ptr =? 0) && negb (Z.land dwFlags HEAP_ZERO_MEMORY =? 0) then
           if old_size <? dwBytes then memset_zero ptr old_size (dwBytes - old_size) m
           else if lpMem =? 0 then memset_zero ptr 0 dwBytes m
           else Ret m
         else Ret m);
    Ret (ptr, with_mem m s).

Definition HeapDestroy (hHeap : Z) (s : heap_state M) : outcome (Z * heap_state M) :=
  bad ← heap_invalid hHeap s;
  if (bad : bool) then Ret (0, s)
  else
    let l := heap_handle_remove hHeap (g_heap_handles s) in
    let ph := if hHeap =? g_process_heap s then 0 else g_process_heap s in
    Ret (1, mkHeapState l (delete hHeap (hs_structs s)) ph (hs_mem s)).

Definition GetProcessHeap (s : heap_state M) : Z := g_process_heap s.

(** The size of the block, or -1 as an unsigned number. *)
Definition HeapSize (hHeap dwFlags lpMem : Z) (s : heap_state M) : outcome Z :=
  bad ← heap_invalid hHeap s;
  if (bad : bool) || (lpMem =? 0) then Ret (usize (-1))
  else heap_backend_usable_size lpMem (hs_mem s).

Definition init_process_heap (s : heap_state M) : outcome (Z * heap_state M) :=
  if negb (g_process_heap s =? 0) then Ret (g_process_heap s, s)
  else
    '(h, s) ← HeapCreate s;
    Ret (h, mkHeapState (g_heap_handles s) (hs_structs s) h (hs_mem s)).

(** The functions of kernel32_memory.c over the process heap; the flags are not
    used. *)
Definition LocalAlloc (uFlags uBytes : Z) (s : heap_state M) : outcome (Z * heap_state M) :=
  HeapAlloc (GetProcessHeap s) 0 uBytes s.
Definition GlobalAlloc (uFlags uBytes : Z) (s : heap_state M) : outcome (Z * heap_state M) :=
  HeapAlloc (GetProcessHeap s) 0 uBytes s.
Definition LocalFree (hMem : Z) (s : heap_state M) : outcome (Z * heap_state M) :=
  if hMem =? 0 then Ret (0, s)
  else '(ok, s) ← HeapFree (GetProcessHeap s) 0 hMem s; Ret (if ok =? 0 then hMem else 0, s).

(** ** What the guest does *)

Inductive heap_op :=
| Op_Create | Op_Alloc (h fl n : Z) | Op_Free (h p : Z) | Op_ReAlloc (h fl p n : Z) | Op_Destroy (h : Z) | Op_Size (h p : Z)
| Op_Write (p off : Z) (src : bytes).

Definition heap_step (o : heap_op) (s : heap_state M) : outcome (Z * heap_state M) :=
  match o with
  | Op_Create => HeapCreate s
  | Op_Alloc h fl n => HeapAlloc h fl n s
  | Op_Free h p => HeapFree h 0 p s
  | Op_ReAlloc h fl p n => HeapReAlloc h fl p n s
  | Op_Destroy h => HeapDestroy h s
  | Op_Size h p => n ← HeapSize h 0 p s; Ret (n, s)
  | Op_Write p off src => m ← hb_store p off src (hs_mem s); Ret (0, with_mem m s)
  end.

End api.

(** ** The specification

    The heaps that exist and the blocks with their bytes.  An operation may answer in
    several ways; a block belongs to no heap in particular. *)
Record aheap := mkAheap { a_heaps : gset Z; a_blocks : gmap Z bytes }.

Definition zero_flag (fl : Z) : bool := negb (Z.land fl HEAP_ZERO_MEMORY =? 0).

(** A new block of at least [n] bytes; the first [n] are zero when asked for. *)
Definition fresh_block (a : aheap) (fl n p : Z) (a' : aheap) : Prop :=
  p <> 0 /\ a_blocks a !! p = None /\ exists b,
    n <= blen b /\ (zero_flag fl = true -> slice 0 n b = replicate (Z.to_nat n) 0)
    /\ a' = mkAheap (a_heaps a) (<[p := b]> (a_blocks a)).

(** The block [p] of bytes [b] moves to [q] and keeps its bytes up to [n]; those past
    its end are zero when asked for. *)
Definition moved_block (a : aheap) (fl p : Z) (b : bytes) (n q : Z) (a' : aheap) : Prop :=
  q <> 0 /\ (q = p \/ a_blocks a !! q = None) /\ exists b',
    n <= blen b' /\ slice 0 (Z.min n (blen b)) b' = slice 0 (Z.min n (blen b)) b
    /\ (zero_flag fl = true -> blen b < n -> slice (blen b) (n - blen b) b' = replicate (Z.to_nat (n - blen b)) 0)
    /\ a' = mkAheap (a_heaps a) (<[q := b']> (delete p (a_blocks a))).

(** [oom]: there is no memory, or no slot, for what the operation asks. *)
Definition heap_spec {A : Arch} (oom : Prop) (o : heap_op) (a : aheap) (r : Z) (a' : aheap) : Prop :=
  match o with
  | Op_Create =>
      (oom /\ r = 0 /\ a' = a) \/ (r <> 0 /\ (r ∉ a_heaps a) /\ a' = mkAheap ({[r]} ∪ a_heaps a) (a_blocks a))
  | Op_Alloc h fl n =>
      (((h ∉ a_heaps a) \/ n = 0 \/ oom) /\ r = 0 /\ a' = a) \/ (h ∈ a_heaps a /\ 0 < n /\ fresh_block a fl n r a')
  | Op_Free h p =>
      ((h ∉ a_heaps a) /\ r = 0 /\ a' = a) \/
      (h ∈ a_heaps a /\ r = 1 /\ a' = mkAheap (a_heaps a) (delete p (a_blocks a)))
  | Op_ReAlloc h fl p n =>
      (((h ∉ a_heaps a) \/ ((n = 0 -> p = 0) /\ oom)) /\ r = 0 /\ a' = a) \/
      (h ∈ a_heaps a /\
       match a_blocks a !! p with
       | None => fresh_block a fl n r a'
       | Some b => (n = 0 /\ r = 0 /\ a' = mkAheap (a_heaps a) (delete p (a_blocks a))) \/ moved_block a fl p b n r a'
       end)
  | Op_Destroy h =>
      ((h ∉ a_heaps a) /\ r = 0 /\ a' = a) \/
      (h ∈ a_heaps a /\ r = 1 /\ a' = mkAheap (a_heaps a ∖ {[h]}) (a_blocks a))
  | Op_Size h p =>
      a' = a /\
      r = match a_blocks a !! p with
          | Some b => if bool_decide (h ∈ a_heaps a) then blen b else usize (-1)
          | None => usize (-1)
          end
  | Op_Write p off src =>
      exists b, a_blocks a !! p = Some b /\ a' = mkAheap (a_heaps a) (<[p := splice off src b]> (a_blocks a))
  end.

(** The reason for a failure may be replaced by a weaker one. *)
Lemma heap_spec_mono {A : Arch} (P Q : Prop) o a r a' : (P -> Q) -> heap_spec P o a r a' -> heap_spec Q o a r a'.
Proof. intros HPQ. destruct o; simpl; tauto. Qed.

(** What the guest may ask for: pointers are null or to blocks, sizes are small
    enough for the backend, and a write stays within its block. *)
Definition op_allowed (limit : Z) (a : aheap) (o : heap_op) : Prop :=
  match o with
  | Op_Create | Op_Destroy _ => True
  | Op_Alloc _ _ n => 0 <= n <= limit
  | Op_Free _ p | Op_Size _ p => p = 0 \/ is_Some (a_blocks a !! p)
  | Op_ReAlloc _ _ p n => (p = 0 \/ is_Some (a_blocks a !! p)) /\ 0 <= n <= limit
  | Op_Write p off src => exists b, a_blocks a !! p = Some b /\ 0 <= off /\ off + blen src <= blen b
  end.

(** ** Refinement *)

Section refine.
Context {A : Arch} {M : Type} `{HL : HeapBackendLaws M}.
Variable mmap_struct : heap_state M -> Z.
Abbreviation new_struct s := (INLINE_SYSCALL_MMAP (mmap_struct s)).
(** mmap answers an address where no wine_heap_t is, or fails in a way that the caller
    notices. *)
Hypothesis mmap_fresh : forall s, new_struct s <> MAP_FAILED -> new_struct s <> 0 ->
  is_errno (new_struct s) = false /\ hs_structs s !! new_struct s = None.

(** Why an operation fails although the guest asks for something sensible. *)
Definition no_memory (o : heap_op) (s : heap_state M) : Prop :=
  match o with
  | Op_Create => (new_struct s = MAP_FAILED \/ new_struct s = 0) \/ 0 ∉ g_heap_handles s
  | Op_Alloc _ _ n => exists m, heap_backend_malloc n (hs_mem s) = Ret (0, m)
  | Op_ReAlloc _ _ p n =>
      if p =? 0 then exists m, heap_backend_malloc n (hs_mem s) = Ret (0, m)
      else exists m, heap_backend_realloc p n (hs_mem s) = Ret (0, m)
  | _ => False
  end.

(** The handles in the table are those of the mapped structures, all of them valid. *)
Record heap_inv (s : heap_state M) : Prop := {
  hi_len : length (g_heap_handles s) = MAX_HEAP_HANDLES;
  hi_handles : forall h, h <> 0 -> (h ∈ g_heap_handles s <-> is_Some (hs_structs s !! h));
  hi_once : forall i j h, h <> 0 -> g_heap_handles s !! i = Some h -> g_heap_handles s !! j = Some h -> i = j;
  hi_valid : forall h v, hs_structs s !! h = Some v -> v = 1 /\ h <> 0;
  hi_null : hb_view (hs_mem s) !! 0 = None;
  hi_mem : hb_inv (hs_mem s) }.

Definition abstracts (s : heap_state M) (a : aheap) : Prop :=
  a_heaps a = dom (hs_structs s) /\ a_blocks a = hb_view (hs_mem s).
Definition view_of (s : heap_state M) : aheap := mkAheap (dom (hs_structs s)) (hb_view (hs_mem s)).

Lemma heap_find_loop_spec h l i :
  0 <= i -> match list_find (eq h) l with Some (j, _) => heap_find_loop h l i = i + Z.of_nat j | None => heap_find_loop h l i = -1 end.
Proof.
  revert i. induction l as [|x l IH]; intros i Hi; simpl; [done|].
  destruct (decide (h = x)) as [->|Hne]; [rewrite Z.eqb_refl; simpl; lia|].
  rewrite (proj2 (Z.eqb_neq x h)) by congruence. specialize (IH (i + 1) ltac:(lia)).
  destruct (list_find (eq h) l) as [[j y]|]; simpl; [lia | done].
Qed.

Lemma heap_handle_find_Some h l :
  h ∈ l -> exists i, heap_handle_find h l = Z.of_nat i /\ l !! i = Some h.
Proof.
  intros Hin. pose proof (heap_find_loop_spec h l 0 ltac:(lia)) as Hf. unfold heap_handle_find.
  destruct (list_find (eq h) l) as [[i x]|] eqn:E.
  - apply list_find_Some in E as (El & -> & _). exists i. split; [lia | done].
  - apply list_find_None in E. rewrite Forall_forall in E. by destruct (E h Hin).
Qed.

Lemma heap_handle_find_None h l : h ∉ l -> heap_handle_find h l = -1.
Proof.
  intros Hin. pose proof (heap_find_loop_spec h l 0 ltac:(lia)) as Hf. unfold heap_handle_find.
  destruct (list_find (eq h) l) as [[i x]|] eqn:E; [|done].
  apply list_find_Some in E as (El & -> & _). apply list_elem_of_lookup_2 in El. done.
Qed.

Lemma heap_invalid_spec h s :
  heap_inv s -> heap_invalid h s = Ret (negb (bool_decide (h ∈ dom (hs_structs s)))).
Proof.
  intros Hi. unfold heap_invalid. destruct (Z.eqb_spec h 0) as [->|Hz]; simpl.
  - rewrite bool_decide_false; [done|]. intros [v Hv]%elem_of_dom. by destruct (hi_valid s Hi _ _ Hv).
  - destruct (decide (h ∈ g_heap_handles s)) as [Hin|Hin].
    + destruct (heap_handle_find_Some h _ Hin) as (i & -> & _). rewrite (proj2 (Z.ltb_ge _ 0)) by lia.
      apply (hi_handles s Hi h Hz) in Hin as [v Hv]. rewrite Hv. simpl. destruct (hi_valid s Hi h v Hv) as [-> _].
      by rewrite bool_decide_true by (apply elem_of_dom; eauto).
    + rewrite (heap_handle_find_None h) by done. simpl. rewrite bool_decide_false; [done|].
      rewrite elem_of_dom. by rewrite <- (hi_handles s Hi h Hz).
Qed.

(** A change of the blocks alone. *)
Lemma heap_inv_mem s m : heap_inv s -> hb_inv m -> hb_view m !! 0 = None -> heap_inv (with_mem m s).
Proof. intros [] ? ?. by split. Qed.

Lemma view_with_mem s m : view_of (with_mem m s) = mkAheap (dom (hs_structs s)) (hb_view m).
Proof. done. Qed.

Lemma blen_zeros n : 0 <= n -> blen (replicate (Z.to_nat n) 0) = n.
Proof. intros. unfold blen. rewrite length_replicate. lia. Qed.

Lemma zeros_fit off n b : 0 <= off -> 0 <= n -> off + n <= blen b -> in_range off (blen (replicate (Z.to_nat n) 0)) (blen b) = true.
Proof. intros. rewrite blen_zeros by done. apply in_range_spec. lia. Qed.

Lemma slice_zeros off n b :
  0 <= off -> 0 <= n -> off + n <= blen b -> slice off n (splice off (replicate (Z.to_nat n) 0) b) = replicate (Z.to_nat n) 0.
Proof.
  intros Ho Hn Hb. pose proof (slice_splice_same off (replicate (Z.to_nat n) 0) b (zeros_fit off n b Ho Hn Hb)) as E.
  by rewrite blen_zeros in E.
Qed.

Lemma blen_splice off src b : in_range off (blen src) (blen b) = true -> blen (splice off src b) = blen b.
Proof. intros Hr. unfold blen. by rewrite length_splice. Qed.

(** Clearing part of a block when the flag asks for it. *)
Lemma zero_fill_ok (on : bool) p b off n m :
  hb_inv m -> hb_view m !! p = Some b -> 0 <= off -> 0 <= n -> off + n <= blen b ->
  exists m' b', (if on then memset_zero p off n m else Ret m) = Ret m' /\ hb_inv m' /\ hb_view m' = <[p := b']> (hb_view m)
    /\ blen b' = blen b /\ (on = true -> slice off n b' = replicate (Z.to_nat n) 0) /\ slice 0 off b' = slice 0 off b.
Proof.
  intros Hi Hp Ho Hn Hb. pose proof (zeros_fit off n b Ho Hn Hb) as Hr. destruct on.
  - destruct (store_law p b off (replicate (Z.to_nat n) 0) m Hi Hp Ho) as (m' & E & Hi' & V); [by rewrite blen_zeros|].
    exists m', (splice off (replicate (Z.to_nat n) 0) b). split_and!; try done.
    + by apply blen_splice.
    + intros _. by apply slice_zeros.
    + apply slice_splice_disjoint; [done | lia | lia].
  - exists m, b. rewrite insert_id by done. by split_and!.
Qed.

Lemma view_null (v : gmap Z bytes) p b : v !! 0 = None -> p <> 0 -> <[p := b]> v !! 0 = None.
Proof. intros Hv Hp. by rewrite lookup_insert_ne. Qed.

(** A fresh block from the backend, cleared when the flag asks for it. *)
Lemma fresh_ok fl n s p m b (clear : bool) :
  heap_inv s -> hb_inv m -> p <> 0 -> hb_view (hs_mem s) !! p = None -> n <= blen b -> 0 <= n ->
  hb_view m = <[p := b]> (hb_view (hs_mem s)) -> (zero_flag fl = true -> clear = true) ->
  exists m', (if clear then memset_zero p 0 n m else Ret m) = Ret m' /\ heap_inv (with_mem m' s)
    /\ fresh_block (view_of s) fl n p (view_of (with_mem m' s)).
Proof.
  intros Hs Hi Hp Hf Hb Hn V Hc.
  destruct (zero_fill_ok clear p b 0 n m Hi) as (m' & b' & E & Hi' & V' & L & Z & _); [by rewrite V, lookup_insert_eq | lia..|].
  rewrite V, insert_insert_eq in V'. exists m'. split; [done|]. split.
  - apply heap_inv_mem; [done | done |]. rewrite V'. by apply view_null; [apply Hs|].
  - split; [done|]. split; [done|]. exists b'. split_and!; [lia | auto |]. rewrite view_with_mem. simpl. by rewrite V'.
Qed.

Lemma alloc_refines h fl n s :
  heap_inv s -> 0 <= n <= hb_limit ->
  exists r s', HeapAlloc h fl n s = Ret (r, s') /\ heap_inv s'
    /\ heap_spec (no_memory (Op_Alloc h fl n) s) (Op_Alloc h fl n) (view_of s) r (view_of s').
Proof.
  intros Hs Hn. unfold HeapAlloc. rewrite heap_invalid_spec by done. cbn [mbind outcome_bind].
  destruct (bool_decide_reflect (h ∈ dom (hs_structs s))) as [Hh|Hh]; simpl negb; cbn [orb];
    [|exists 0, s; split_and!; try done; left; by split_and!; [left|..]].
  destruct (Z.eqb_spec n 0) as [->|Hz]; [exists 0, s; split_and!; try done; left; by split_and!; [right; left|..]|].
  destruct (malloc_law n (hs_mem s) (hi_mem s Hs) Hn) as (p & m & E & Hi & Hm). rewrite E. cbn [mbind outcome_bind].
  destruct Hm as [[-> V] | (Hp & Hf & b & Hb & V)].
  - simpl. exists 0, (with_mem m s). split_and!; [done | apply heap_inv_mem; [done..|rewrite V; apply Hs] |].
    left. split_and!; [right; right; by exists m | done | unfold view_of; simpl; by rewrite V].
  - rewrite (proj2 (Z.eqb_neq p 0) Hp). cbn [negb andb].
    destruct (fresh_ok fl n s p m b (negb (Z.land fl HEAP_ZERO_MEMORY =? 0)) Hs Hi Hp Hf Hb) as (m' & -> & Hs' & Hfr); try done; [lia|].
    exists p, (with_mem m' s). split_and!; [done | done |]. right. split_and!; [done | lia | done].
Qed.

Lemma free_refines h p s :
  heap_inv s -> (p = 0 \/ is_Some (hb_view (hs_mem s) !! p)) ->
  exists r s', HeapFree h 0 p s = Ret (r, s') /\ heap_inv s' /\ heap_spec False (Op_Free h p) (view_of s) r (view_of s').
Proof.
  intros Hs Hp. unfold HeapFree. rewrite heap_invalid_spec by done. cbn [mbind outcome_bind].
  destruct (bool_decide_reflect (h ∈ dom (hs_structs s))) as [Hh|Hh]; simpl negb; cbv iota;
    [|exists 0, s; split_and!; try done; by left].
  destruct (Z.eqb_spec p 0) as [->|Hz].
  - exists 1, s. split_and!; try done. right. split_and!; [done | done |]. unfold view_of. simpl.
    by rewrite delete_id by apply Hs.
  - destruct Hp as [? | [b Hb]]; [done|]. destruct (free_law p b (hs_mem s) (hi_mem s Hs) Hb) as (m & E & Hi & V).
    rewrite E. exists 1, (with_mem m s). split_and!; [done | |].
    + apply heap_inv_mem; [done | done |]. rewrite V, lookup_delete_ne by done. apply Hs.
    + right. split_and!; [done | done |]. by rewrite view_with_mem, V.
Qed.

(** The block that realloc returns, with the part past the old end cleared. *)
Lemma moved_ok fl p b n q b' s m :
  heap_inv s -> hb_inv m -> hb_view (hs_mem s) !! p = Some b -> q <> 0 -> (q = p \/ hb_view (hs_mem s) !! q = None) ->
  0 <= n -> n <= blen b' -> slice 0 (Z.min n (blen b)) b' = slice 0 (Z.min n (blen b)) b ->
  hb_view m = <[q := b']> (delete p (hb_view (hs_mem s))) ->
  exists m', (if zero_flag fl && (blen b <? n) then memset_zero q (blen b) (n - blen b) m else Ret m) = Ret m'
    /\ heap_inv (with_mem m' s) /\ moved_block (view_of s) fl p b n q (view_of (with_mem m' s)).
Proof.
  intros Hs Hi Hp Hq Hqp Hn Hb Hk V.
  assert (Hnull : delete p (hb_view (hs_mem s)) !! 0 = None) by (rewrite lookup_delete; case_decide; [done | apply Hs]).
  pose proof (Zle_0_nat (length b)) as Hbl. change (Z.of_nat (length b)) with (blen b) in Hbl.
  destruct (Z.ltb_spec (blen b) n) as [Hlt|Hge].
  - rewrite andb_true_r. rewrite Z.min_r in Hk by lia.
    destruct (zero_fill_ok (zero_flag fl) q b' (blen b) (n - blen b) m Hi) as (m' & c & E & Hi' & V' & L & Zr & K);
      [by rewrite V, lookup_insert_eq | lia..|].
    rewrite V, insert_insert_eq in V'. exists m'. split; [done|]. split.
    + apply heap_inv_mem; [done | done |]. rewrite V'. by apply view_null.
    + split; [done|]. split; [done|]. exists c. rewrite Z.min_r by lia. split_and!; [lia | congruence | auto |].
      rewrite view_with_mem, V'. done.
  - rewrite andb_false_r. exists m. split; [done|]. split.
    + apply heap_inv_mem; [done | done |]. rewrite V. by apply view_null.
    + split; [done|]. split; [done|]. exists b'. split_and!; [lia | done | lia |]. by rewrite view_with_mem, V.
Qed.

Lemma realloc_refines h fl p n s :
  heap_inv s -> (p = 0 \/ is_Some (hb_view (hs_mem s) !! p)) -> 0 <= n <= hb_limit ->
  exists r s', HeapReAlloc h fl p n s = Ret (r, s') /\ heap_inv s'
    /\ heap_spec (no_memory (Op_ReAlloc h fl p n) s) (Op_ReAlloc h fl p n) (view_of s) r (view_of s').
Proof.
  intros Hs Hp Hn. unfold HeapReAlloc. rewrite heap_invalid_spec by done. cbn [mbind outcome_bind].
  destruct (bool_decide_reflect (h ∈ dom (hs_structs s))) as [Hh|Hh]; simpl negb; cbv iota;
    [|exists 0, s; split_and!; try done; left; by split_and!; [left|..]].
  destruct (Z.eqb_spec p 0) as [->|Hz]; cbn [negb].
  - destruct (malloc_law n (hs_mem s) (hi_mem s Hs) Hn) as (q & m & E & Hi & Hm). rewrite E. cbn [mbind outcome_bind].
    destruct Hm as [[-> V] | (Hq & Hf & b & Hb & V)].
    + simpl. exists 0, (with_mem m s). split_and!; [done | apply heap_inv_mem; [done..|rewrite V; apply Hs] |].
      left. split_and!; [right; split; [done|by exists m] | done | unfold view_of; simpl; by rewrite V].
    + rewrite (proj2 (Z.eqb_neq q 0) Hq). cbn [negb andb].
      destruct (fresh_ok fl n s q m b (zero_flag fl) Hs Hi Hq Hf Hb ltac:(lia) V ltac:(done)) as (m' & Em & Hs' & Hfr).
      exists q, (with_mem m' s). unfold zero_flag in Em. rewrite Z.sub_0_r.
      assert (Ez : (if 0 <? n then memset_zero q 0 n m else memset_zero q 0 n m) = memset_zero q 0 n m) by (by destruct (0 <? n)).
      simpl (0 =? 0). cbv iota. rewrite Ez, Em. split_and!; [done | done |].
      right. split; [done|]. simpl. by rewrite (hi_null s Hs).
  - destruct Hp as [? | [b Hb]]; [done|]. rewrite (usable_law p b) by (done || apply Hs). cbn [mbind outcome_bind].
    destruct (realloc_law p b n (hs_mem s) (hi_mem s Hs) Hb Hn) as (q & m & E & Hi & Hm). rewrite E. cbn [mbind outcome_bind].
    destruct Hm as [(-> & -> & V) | [(Hn0 & -> & V) | (Hq & Hqp & b' & Hb' & Hk & V)]].
    + simpl. exists 0, (with_mem m s). split_and!; [done | |].
      * apply heap_inv_mem; [done | done |]. rewrite V, lookup_delete_ne by done. apply Hs.
      * right. split; [done|]. simpl. rewrite Hb. left. split_and!; [done | done |]. by rewrite view_with_mem, V.
    + simpl. exists 0, (with_mem m s). split_and!; [done | apply heap_inv_mem; [done..|rewrite V; apply Hs] |].
      left. split_and!; [right; split; [done|] | done | unfold view_of; simpl; by rewrite V].
      simpl. rewrite (proj2 (Z.eqb_neq p 0) Hz). by exists m.
    + rewrite (proj2 (Z.eqb_neq q 0) Hq). cbn [negb andb].
      destruct (moved_ok fl p b n q b' s m Hs Hi Hb Hq Hqp ltac:(lia) Hb' Hk V) as (m' & Em & Hs' & Hmv).
      exists q, (with_mem m' s). unfold zero_flag in Em.
      assert (Ez : (if negb (Z.land fl HEAP_ZERO_MEMORY =? 0) then if blen b <? n then memset_zero q (blen b) (n - blen b) m else Ret m
                    else Ret m) = Ret m') by (rewrite <- Em; by destruct (negb _), (blen b <? n)).
      rewrite Ez. split_and!; [done | done |]. right. split; [done|]. simpl. rewrite Hb. by right.
Qed.

(** *** The handle table *)

Lemma heap_add_spec h l l' :
  heap_handle_add h l = Some l' -> exists i, l !! i = Some 0 /\ l' = <[i := h]> l.
Proof.
  revert l'. induction l as [|x l IH]; intros l' E; simpl in E; [done|]. destruct (Z.eqb_spec x 0) as [->|].
  - injection E as <-. by exists 0%nat.
  - destruct (heap_handle_add h l) as [l1|]; [|done]. injection E as <-. destruct (IH l1 eq_refl) as (i & Hi & ->). by exists (S i).
Qed.

Lemma heap_add_None h l : heap_handle_add h l = None -> 0 ∉ l.
Proof.
  induction l as [|x l IH]; simpl; [set_solver|]. destruct (Z.eqb_spec x 0) as [->|]; [done|].
  destruct (heap_handle_add h l); [done|]. set_solver.
Qed.

Lemma create_refines s :
  heap_inv s ->
  exists r s', HeapCreate mmap_struct s = Ret (r, s') /\ heap_inv s'
    /\ heap_spec (no_memory Op_Create s) Op_Create (view_of s) r (view_of s').
Proof.
  intros Hs. unfold HeapCreate. destruct (Z.eqb_spec (new_struct s) MAP_FAILED) as [Hmf|Hmf].
  { exists 0, s. split_and!; try done. left. split_and!; try done. left. by left. }
  destruct (Z.eqb_spec (new_struct s) 0) as [Hz|Hz].
  { exists 0, s. split_and!; try done. left. split_and!; try done. left. by right. }
  destruct (mmap_fresh s Hmf Hz) as [-> Hf]. cbn [orb]. set (h := new_struct s) in *.
  assert (Hnew : h ∉ g_heap_handles s) by (intros Hin; apply (hi_handles s Hs h Hz) in Hin as [? ?]; congruence).
  destruct (heap_handle_add h (g_heap_handles s)) as [l|] eqn:E.
  - destruct (heap_add_spec _ _ _ E) as (i & Hi & ->). eexists _, _. split; [done|]. split.
    + destruct Hs as [Hl Hh Ho Hv Hn Hm]. pose proof (lookup_lt_Some _ _ _ Hi) as Hlt. split; simpl; try done.
      * by rewrite length_insert.
      * intros x Hx. destruct (decide (x = h)) as [->|Hne].
        -- rewrite lookup_insert_eq. split; [eauto|]. intros _. by apply (list_elem_of_insert _ i).
        -- rewrite lookup_insert_ne by done. rewrite <- (Hh x Hx), !list_elem_of_lookup. split; intros [j Hj].
           ++ destruct (decide (i = j)) as [->|]; [rewrite list_lookup_insert_eq in Hj by done; congruence|].
              rewrite list_lookup_insert_ne in Hj by done. eauto.
           ++ exists j. rewrite list_lookup_insert_ne; [done|]. intros ->. congruence.
      * intros j k x Hx Hj Hk. apply list_lookup_insert_Some in Hj as [(<- & <- & _) | [Hij Hj]];
          apply list_lookup_insert_Some in Hk as [(<- & ? & _) | [Hik Hk]]; try done.
        -- apply list_elem_of_lookup_2 in Hk. done.
        -- subst x. apply list_elem_of_lookup_2 in Hj. done.
        -- by apply (Ho j k x).
      * intros x v Hx. apply lookup_insert_Some in Hx as [[<- <-] | [_ Hx]]; [done | by apply Hv].
    + right. split; [done|]. split; [simpl; by rewrite elem_of_dom, Hf; intros []|].
      unfold view_of. simpl. by rewrite dom_insert_L.
  - eexists _, _. split; [done|]. rewrite delete_insert_id by done. destruct s as [hl st ph m]. split; [exact Hs|].
    left. split_and!; try done. right. by apply (heap_add_None h).
Qed.

Lemma destroy_refines h s :
  heap_inv s ->
  exists r s', HeapDestroy h s = Ret (r, s') /\ heap_inv s' /\ heap_spec False (Op_Destroy h) (view_of s) r (view_of s').
Proof.
  intros Hs. unfold HeapDestroy. rewrite heap_invalid_spec by done. cbn [mbind outcome_bind].
  destruct (bool_decide_reflect (h ∈ dom (hs_structs s))) as [Hh|Hh]; simpl negb; cbv iota;
    [|exists 0, s; split_and!; try done; by left].
  eexists _, _. split; [done|]. apply elem_of_dom in Hh as Hv. destruct Hv as [v Hv].
  destruct (hi_valid s Hs h v Hv) as [_ Hz]. assert (Hin : h ∈ g_heap_handles s) by (apply (hi_handles s Hs h Hz); eauto).
  split; [|right; split_and!; [done | done | unfold view_of; simpl; by rewrite dom_delete_L]].
  unfold heap_handle_remove. destruct (heap_handle_find_Some h _ Hin) as (i & -> & Hi).
  rewrite (proj2 (Z.leb_le 0 _)), Nat2Z.id by lia. destruct Hs as [Hl Hn Ho Hva Hnu Hm].
  pose proof (lookup_lt_Some _ _ _ Hi) as Hlt. split; simpl; try done.
  - by rewrite length_insert.
  - intros x Hx. rewrite list_elem_of_lookup. destruct (decide (x = h)) as [->|Hne].
    + rewrite lookup_delete_eq. split; [|by intros []]. intros [j Hj]. exfalso.
      apply list_lookup_insert_Some in Hj as [(_ & ? & _) | [Hij Hj]]; [congruence|]. by destruct (Ho i j h Hx Hi Hj).
    + rewrite lookup_delete_ne by done. rewrite <- (Hn x Hx), list_elem_of_lookup. split; intros [j Hj]; exists j.
      * apply list_lookup_insert_Some in Hj as [(_ & ? & _) | [_ Hj]]; [congruence | done].
      * rewrite list_lookup_insert_ne; [done|]. intros ->. congruence.
  - intros j k x Hx Hj Hk. apply list_lookup_insert_Some in Hj as [(_ & ? & _) | [_ Hj]]; [congruence|].
    apply list_lookup_insert_Some in Hk as [(_ & ? & _) | [_ Hk]]; [congruence|]. by apply (Ho j k x).
  - intros x w Hx. apply lookup_delete_Some in Hx as [_ Hx]. by apply Hva.
Qed.

(** Every function does what the specification allows. *)
Lemma heap_step_refines o s :
  heap_inv s -> op_allowed hb_limit (view_of s) o ->
  exists r s', heap_step mmap_struct o s = Ret (r, s') /\ heap_inv s' /\ heap_spec (no_memory o s) o (view_of s) r (view_of s').
Proof.
  intros Hs Ho. destruct o as [|h fl n|h p|h fl p n|h|h p|p off src]; simpl in Ho; unfold heap_step.
  - by apply create_refines.
  - by apply alloc_refines.
  - by apply free_refines.
  - destruct Ho. by apply realloc_refines.
  - by apply destroy_refines.
  - unfold HeapSize. rewrite heap_invalid_spec by done. cbn [mbind outcome_bind]. simpl.
    destruct (bool_decide_reflect (h ∈ dom (hs_structs s))) as [Hh|Hh]; simpl.
    + destruct (Z.eqb_spec p 0) as [->|Hz]; simpl.
      * eexists _, s. split_and!; try done. by rewrite (hi_null s Hs).
      * destruct Ho as [? | [b Hb]]; [done|]. rewrite (usable_law p b) by (done || apply Hs). simpl.
        eexists _, s. split_and!; try done. by rewrite Hb.
    + eexists _, s. split_and!; try done. by case_goal.
  - destruct Ho as (b & Hb & Hoff & Hlen). destruct (store_law p b off src (hs_mem s) (hi_mem s Hs) Hb Hoff Hlen) as (m & E & Hi & V).
    rewrite E. eexists _, _. split_and!; [done | |].
    + apply heap_inv_mem; [done | done |]. rewrite V. apply view_null; [apply Hs|]. intros ->. simpl in Hb.
      by rewrite (hi_null s Hs) in Hb.
    + exists b. split; [done|]. by rewrite view_with_mem, V.
Qed.

(** The states that a guest can bring about that uses blocks it has been given. *)
Inductive heap_reach (s0 : heap_state M) : heap_state M -> Prop :=
| reach_start : heap_reach s0 s0
| reach_op s o r s' :
    heap_reach s0 s -> op_allowed hb_limit (view_of s) o -> heap_step mmap_struct o s = Ret (r, s') -> heap_reach s0 s'.

Lemma heap_reach_inv s0 s : heap_inv s0 -> heap_reach s0 s -> heap_inv s.
Proof.
  intros H0. induction 1 as [|s o r s' _ IH Ho E]; [done|]. destruct (heap_step_refines o s IH Ho) as (? & ? & E' & Hs & _).
  rewrite E in E'. by injection E' as <- <-.
Qed.

Lemma heap_reach_refines s0 s o :
  heap_inv s0 -> heap_reach s0 s -> op_allowed hb_limit (view_of s) o ->
  exists r s', heap_step mmap_struct o s = Ret (r, s') /\ heap_spec (no_memory o s) o (view_of s) r (view_of s').
Proof.
  intros H0 Hr Ho. destruct (heap_step_refines o s (heap_reach_inv s0 s H0 Hr) Ho) as (r & s' & E & _ & Hsp). by exists r, s'.
Qed.

End refine.
