(* ===== verification/MmapHeap.v ===== *)
(** * The heap backend of the 32-bit program (src/heap/pe32_mmap_heap_backend.c)

    Every block is a mapping of its own, with its size in front of it.  The backend
    keeps the laws of heap_backend.h (class [HeapBackendLaws] of WineHeap) for every
    request that the size computation does not overflow on, when mmap's only error is
    the one that MAP_FAILED stands for; what other errors do is compared with that. *)
From S2P Require Import Prelude Bytes WineHeap.

(** The mappings: base address and bytes, whole pages. *)
Abbreviation mappings := (gmap Z bytes).

Definition page_up (len : Z) : Z := (len + 4095) / 4096 * 4096.

(** The mmap system call is a parameter: what the kernel returns. *)
Class Mmap := { mmap_addr : Z -> mappings -> Z }.
(** It maps where nothing is mapped, or fails with any error number. *)
Class MmapLaws `{Mmap} := {
  mmap_addr_fresh len m : is_errno (A := arch32) (mmap_addr len m) = false ->
    0 < mmap_addr len m < 2 ^ 32 - 4095 /\ m !! mmap_addr len m = None }.
(** The only error is the one that MAP_FAILED stands for; the backend does not notice
    the others. *)
Class MmapQuiet `{Mmap} := {
  mmap_quiet len m : is_errno (A := arch32) (mmap_addr len m) = true -> mmap_addr len m = 2 ^ 32 - 1 }.

Section backend.
Context `{Mmap}.

Definition mmap (len : Z) (m : mappings) : Z * mappings :=
  let base := mmap_addr len m in
  (base, if is_errno (A := arch32) base then m else <[base := replicate (Z.to_nat (page_up len)) 0]> m).

(** Unmapping less or more than the whole mapping does not happen. *)
Definition munmap (base len : Z) (m : mappings) : outcome mappings :=
  r ← deref (m !! base);
  if blen r =? page_up len then Ret (delete base m) else Fault.

Definition MIN_ALLOC : Z := 4096.

(** The memory at what mmap has answered: no program has any at an error number. *)
Definition mapped (mem : Z) (m : mappings) : outcome bytes := if is_errno (A := arch32) mem then Fault else deref (m !! mem).

Definition pe32_malloc (size : Z) (m : mappings) : outcome (Z * mappings) :=
  if size =? 0 then Ret (0, m)
  else
    let alloc := Z.land (u32 (size + 7)) (u32 (Z.lnot 7)) in
    let alloc := if alloc <? MIN_ALLOC then MIN_ALLOC else alloc in
    let '(mem, m) := mmap (u32 (alloc + 4)) m in
    if (mem =? MAP_FAILED (A := arch32)) || (mem =? 0) then Ret (0, m)
    else
      r ← mapped mem m;
      r ← store 4 0 alloc r;
      Ret (mem + 4, <[mem := r]> m).

(** The size word in front of a block. *)
Definition block_header (ptr : Z) (m : mappings) : outcome Z :=
  r ← deref (m !! (ptr - 4)); load 4 0 r.

Definition pe32_free (ptr : Z) (m : mappings) : outcome mappings :=
  if ptr =? 0 then Ret m
  else
    size ← block_header ptr m;
    munmap (ptr - 4) (u32 (size + 4)) m.

Definition pe32_usable_size (ptr : Z) (m : mappings) : outcome Z :=
  if ptr =? 0 then Ret 0 else block_header ptr m.

(** Access to [len] bytes of a block. *)
Definition block_load (ptr off len : Z) (m : mappings) : outcome bytes :=
  r ← deref (m !! (ptr - 4)); load_bytes (4 + off) len r.
Definition block_store (ptr off : Z) (src : bytes) (m : mappings) : outcome mappings :=
  r ← deref (m !! (ptr - 4)); r ← store_bytes (4 + off) src r; Ret (<[ptr - 4 := r]> m).

Definition pe32_realloc (ptr new_size : Z) (m : mappings) : outcome (Z * mappings) :=
  if ptr =? 0 then pe32_malloc new_size m
  else if new_size =? 0 then m ← pe32_free ptr m; Ret (0, m)
  else
    old_alloc ← block_header ptr m;
    if new_size <=? old_alloc then Ret (ptr, m)
    else
      '(new, m) ← pe32_malloc new_size m;
      if new =? 0 then Ret (0, m)
      else
        b ← block_load ptr 0 old_alloc m;
        m ← block_store new 0 b m;
        m ← pe32_free ptr m;
        Ret (new, m).

Definition pe32_calloc (n s : Z) (m : mappings) : outcome (Z * mappings) :=
  let total := u32 (n * s) in
  if negb (s =? 0) && negb (total / s =? n) then Ret (0, m)
  else
    '(p, m) ← pe32_malloc total m;
    m ← (if p =? 0 then Ret m else block_store p 0 (replicate (Z.to_nat total) 0) m);
    Ret (p, m).

Definition pe32_aligned_alloc (align len : Z) (m : mappings) : outcome (Z * mappings) := pe32_malloc len m.

(** ** The blocks *)

Definition header (r : bytes) : Z := le_combine (slice 0 4 r).
Definition block_of (r : bytes) : bytes := slice 4 (header r) r.
Definition blocks (m : mappings) : gmap Z bytes := kmap (fun base => base + 4) (block_of <$> m).

Definition mapping_ok (base : Z) (r : bytes) : Prop :=
  0 < base /\ blen r = page_up (header r + 4) /\ MIN_ALLOC <= header r <= 2 ^ 32 - 8.
Definition mappings_ok (m : mappings) : Prop := map_Forall mapping_ok m.

#[export] Instance pe32_backend : HeapBackend mappings := {|
  heap_backend_malloc := pe32_malloc; heap_backend_free := pe32_free; heap_backend_realloc := pe32_realloc;
  heap_backend_usable_size := pe32_usable_size; hb_store := block_store; hb_view := blocks;
  hb_limit := 2 ^ 32 - 8; hb_inv := mappings_ok |}.

#[local] Instance add4_inj : Inj (=) (=) (fun base : Z => base + 4).
Proof. intros a b. lia. Qed.

Lemma blocks_lookup m p : blocks m !! p = block_of <$> m !! (p - 4).
Proof.
  unfold blocks. replace p with ((p - 4) + 4) at 1 by lia. rewrite (lookup_kmap (fun base => base + 4)). apply lookup_fmap.
Qed.

Lemma blocks_insert m base r : blocks (<[base := r]> m) = <[base + 4 := block_of r]> (blocks m).
Proof. unfold blocks. rewrite fmap_insert. apply (kmap_insert (fun base => base + 4)). Qed.

Lemma blocks_delete m base : blocks (delete base m) = delete (base + 4) (blocks m).
Proof. unfold blocks. rewrite fmap_delete. apply (kmap_delete (fun base => base + 4)). Qed.

Lemma page_up_le n : 0 <= n -> n <= page_up n.
Proof. unfold page_up. intros. Z.to_euclidean_division_equations. lia. Qed.

(** A block and its mapping. *)
Lemma block_cases m p b :
  mappings_ok m -> blocks m !! p = Some b ->
  exists r, m !! (p - 4) = Some r /\ b = block_of r /\ mapping_ok (p - 4) r /\ blen b = header r
    /\ header r + 4 <= blen r /\ p <> 0.
Proof.
  intros Hm Hb. rewrite blocks_lookup in Hb. destruct (m !! (p - 4)) as [r|] eqn:E; [|done]. injection Hb as <-.
  pose proof (Hm _ _ E) as Hr. exists r. destruct Hr as (Hb & Hl & Hh). unfold MIN_ALLOC in Hh.
  pose proof (page_up_le (header r + 4) ltac:(lia)). split_and!; try done; try lia.
  unfold block_of, blen at 1. rewrite length_slice by (apply in_range_spec; lia). lia.
Qed.

Lemma block_header_ok m p r : m !! (p - 4) = Some r -> 4 <= blen r -> block_header p m = Ret (header r).
Proof. intros E Hl. unfold block_header. rewrite E. simpl. rewrite load_ok by (apply in_range_spec; lia). done. Qed.

(** The size that is mapped for a request. *)
Definition alloc_size (size : Z) : Z :=
  let alloc := Z.land (u32 (size + 7)) (u32 (Z.lnot 7)) in if alloc <? MIN_ALLOC then MIN_ALLOC else alloc.

Lemma round8 n : 0 <= n < 2 ^ 32 -> Z.land n (u32 (Z.lnot 7)) = n - n mod 8.
Proof.
  intros Hn. change (u32 (Z.lnot 7)) with (Z.ldiff (Z.ones 32) (Z.ones 3)).
  rewrite Z.ldiff_land, Z.land_assoc, Z.land_ones, Z.mod_small, <- Z.ldiff_land, Z.ldiff_ones_r by lia.
  rewrite Z.shiftl_mul_pow2, Z.shiftr_div_pow2 by lia. change (2 ^ 3) with 8. width_lia.
Qed.

Lemma alloc_size_spec n : 0 <= n <= 2 ^ 32 - 8 -> n <= alloc_size n /\ MIN_ALLOC <= alloc_size n <= 2 ^ 32 - 8.
Proof.
  intros Hn. unfold alloc_size, MIN_ALLOC. rewrite round8 by (apply (wrap_range 32); lia).
  rewrite wrap_small by lia. destruct (Z.ltb_spec (n + 7 - (n + 7) mod 8) 4096); Z.to_euclidean_division_equations; lia.
Qed.

Context `{ML : !MmapLaws, MQ : !MmapQuiet}.

(** The header that has been written, and the block behind it. *)
Lemma header_store alloc r r' : 0 <= alloc < 2 ^ 32 -> store 4 0 alloc r = Ret r' -> header r' = alloc /\ blen r' = blen r.
Proof.
  intros Ha E. split.
  - assert (L : load 4 0 r' = Ret (wrap 32 alloc)) by (by apply (load_store_same 4 0 alloc r r')).
    apply load_eq in L. unfold header. change (Z.of_nat 4) with 4 in L. rewrite <- L. by apply wrap_small.
  - unfold blen. by rewrite (store_length _ _ _ _ _ E).
Qed.

Lemma pe32_malloc_spec n m :
  mappings_ok m -> 0 <= n <= 2 ^ 32 - 8 ->
  exists p m', pe32_malloc n m = Ret (p, m') /\ mappings_ok m' /\
    (p = 0 /\ m' = m \/
     p <> 0 /\ blocks m !! p = None /\ exists r, header r = alloc_size n /\ m' = <[p - 4 := r]> m /\ mapping_ok (p - 4) r).
Proof.
  intros Hm Hn. unfold pe32_malloc. destruct (Z.eqb_spec n 0) as [->|Hz]; [exists 0, m; auto|].
  fold (alloc_size n). destruct (alloc_size_spec n Hn) as [Hle Ha]. set (alloc := alloc_size n) in *. unfold MIN_ALLOC in Ha.
  unfold mmap. rewrite (wrap_small 32 (alloc + 4)) by lia. set (base := mmap_addr (alloc + 4) m).
  change (MAP_FAILED (A := arch32)) with (2 ^ 32 - 1). change (is_errno (A := arch32) base) with (2 ^ 32 - 4095 <=? base).
  destruct (Z.eqb_spec base (2 ^ 32 - 1)) as [->|Hb]; [exists 0, m; auto|].
  assert (Hne : is_errno (A := arch32) base = false) by (apply Bool.not_true_iff_false; intros He%mmap_quiet; done).
  destruct (mmap_addr_fresh (alloc + 4) m Hne) as [Hpos Hf]. fold base in Hpos, Hf. unfold mapped. rewrite Hne.
  rewrite (proj2 (Z.eqb_neq base 0)), (proj2 (Z.leb_gt _ _)), lookup_insert_eq by lia. cbn [orb deref mbind outcome_bind].
  set (zs := replicate (Z.to_nat (page_up (alloc + 4))) 0).
  pose proof (page_up_le (alloc + 4) ltac:(lia)) as Hp.
  assert (Hzs : blen zs = page_up (alloc + 4)) by (apply blen_zeros; lia).
  destruct (store 4 0 alloc zs) as [r| |] eqn:E; [|rewrite store_ok in E by (apply in_range_spec; lia); done..].
  destruct (header_store alloc zs r ltac:(lia) E) as [Hh Hl].
  assert (Hok : mapping_ok base r) by (unfold mapping_ok, MIN_ALLOC; rewrite Hh, Hl; split_and!; done || lia).
  cbn [mbind outcome_bind]. rewrite insert_insert_eq. exists (base + 4), (<[base := r]> m). split; [done|]. split.
  - by apply map_Forall_insert_2.
  - right. replace (base + 4 - 4) with base by lia. split_and!; [lia | | by exists r].
    rewrite blocks_lookup. replace (base + 4 - 4) with base by lia. by rewrite Hf.
Qed.

Lemma pe32_free_spec p b m :
  mappings_ok m -> blocks m !! p = Some b -> pe32_free p m = Ret (delete (p - 4) m).
Proof.
  intros Hm Hb. destruct (block_cases m p b Hm Hb) as (r & E & -> & (Hpos & Hl & Hh) & Hlen & Hle & Hz). unfold MIN_ALLOC in Hh.
  unfold pe32_free. rewrite (proj2 (Z.eqb_neq p 0) Hz), (block_header_ok m p r E) by lia. cbn [mbind outcome_bind].
  unfold munmap. rewrite E. cbn [deref mbind outcome_bind]. rewrite wrap_small, Hl, Z.eqb_refl by lia. done.
Qed.

(** The block behind a header after a write into it. *)
Lemma block_of_splice r off src :
  4 + header r <= blen r -> 0 <= off -> off + blen src <= header r ->
  header (splice (4 + off) src r) = header r /\ block_of (splice (4 + off) src r) = splice off src (block_of r).
Proof.
  intros Hl Ho Hs. pose proof (Zle_0_nat (length src)) as Hsrc. change (Z.of_nat (length src)) with (blen src) in Hsrc.
  assert (Hr : in_range (4 + off) (blen src) (blen r) = true) by (apply in_range_spec; lia).
  assert (Hh : header (splice (4 + off) src r) = header r) by (unfold header; by rewrite slice_splice_disjoint by (done || lia)).
  split; [done|]. unfold block_of. rewrite Hh. apply list_eq. intros i.
  assert (Hb : blen (slice 4 (header r) r) = header r).
  { unfold blen at 1. rewrite length_slice by (apply in_range_spec; lia). lia. }
  assert (Hr' : in_range off (blen src) (blen (slice 4 (header r) r)) = true) by (apply in_range_spec; lia).
  unfold slice at 1. destruct (decide (i < Z.to_nat (header r))%nat) as [Hi|Hi].
  - rewrite lookup_take_lt, lookup_drop by done.
    destruct (decide (Z.to_nat off <= i < Z.to_nat off + length src)%nat) as [Hin|Hout].
    + replace (Z.to_nat 4 + i)%nat with (Z.to_nat (4 + off) + (i - Z.to_nat off))%nat by lia.
      rewrite lookup_splice_in by (done || lia). replace i with (Z.to_nat off + (i - Z.to_nat off))%nat at 2 by lia.
      rewrite lookup_splice_in by (done || lia). done.
    + rewrite lookup_splice_out by (done || (unfold blen in *; lia)). rewrite lookup_splice_out by (done || lia).
      unfold slice. by rewrite lookup_take_lt, lookup_drop by done.
  - rewrite lookup_take_ge by lia. symmetry. apply lookup_ge_None_2. rewrite length_splice by done. unfold blen in Hb. lia.
Qed.

Lemma block_store_spec p b off src m :
  mappings_ok m -> blocks m !! p = Some b -> 0 <= off -> off + blen src <= blen b ->
  exists m', block_store p off src m = Ret m' /\ mappings_ok m' /\ blocks m' = <[p := splice off src b]> (blocks m).
Proof.
  intros Hm Hb Ho Hs. destruct (block_cases m p b Hm Hb) as (r & E & -> & (Hpos & Hl & Hh) & Hlen & Hle & Hz).
  pose proof (Zle_0_nat (length src)) as Hsrc. change (Z.of_nat (length src)) with (blen src) in Hsrc.
  assert (Hr : in_range (4 + off) (blen src) (blen r) = true) by (apply in_range_spec; lia).
  unfold block_store, store_bytes. rewrite E. cbn [deref mbind outcome_bind]. rewrite Hr. cbn [access mbind outcome_bind].
  eexists. split; [done|]. destruct (block_of_splice r off src ltac:(lia) Ho ltac:(lia)) as [Hh' Hb'].
  split.
  - apply map_Forall_insert_2; [|done]. unfold mapping_ok. rewrite Hh', blen_splice by done. done.
  - rewrite blocks_insert, Hb'. f_equal. lia.
Qed.

Lemma block_load_spec p b m :
  mappings_ok m -> blocks m !! p = Some b -> block_load p 0 (blen b) m = Ret b.
Proof.
  intros Hm Hb. destruct (block_cases m p b Hm Hb) as (r & E & -> & _ & Hlen & Hle & Hz).
  unfold block_load. rewrite E. cbn [deref mbind outcome_bind]. pose proof (Zle_0_nat (length (block_of r))).
  rewrite load_bytes_ok by (apply in_range_spec; unfold blen in *; lia). by rewrite Hlen.
Qed.

(** The blocks after a successful pe32_malloc. *)
Lemma new_block p r m n :
  mapping_ok (p - 4) r -> header r = alloc_size n -> 0 <= n <= 2 ^ 32 - 8 ->
  blocks (<[p - 4 := r]> m) = <[p := block_of r]> (blocks m) /\ n <= blen (block_of r) /\ blen (block_of r) = header r.
Proof.
  intros (Hpos & Hl & Hh) Ha Hn. destruct (alloc_size_spec n Hn). unfold MIN_ALLOC in Hh.
  pose proof (page_up_le (header r + 4) ltac:(lia)). split; [rewrite blocks_insert; f_equal; lia|].
  assert (E : blen (block_of r) = header r).
  { unfold block_of, blen at 1. rewrite length_slice by (apply in_range_spec; lia). lia. }
  split; [lia | done].
Qed.

Lemma pe32_realloc_spec p b n m :
  mappings_ok m -> blocks m !! p = Some b -> 0 <= n <= 2 ^ 32 - 8 ->
  exists q m', pe32_realloc p n m = Ret (q, m') /\ mappings_ok m' /\
    (n = 0 /\ q = 0 /\ blocks m' = delete p (blocks m) \/
     n <> 0 /\ q = 0 /\ blocks m' = blocks m \/
     q <> 0 /\ (q = p \/ blocks m !! q = None) /\
       exists b', n <= blen b' /\ slice 0 (Z.min n (blen b)) b' = slice 0 (Z.min n (blen b)) b
         /\ blocks m' = <[q := b']> (delete p (blocks m))).
Proof.
  intros Hm Hb Hn. destruct (block_cases m p b Hm Hb) as (r & E & Hbr & (Hpos & Hl & Hh) & Hlen & Hle & Hz). unfold MIN_ALLOC in Hh.
  unfold pe32_realloc. rewrite (proj2 (Z.eqb_neq p 0) Hz). destruct (Z.eqb_spec n 0) as [->|Hn0].
  { rewrite (pe32_free_spec p b m Hm Hb). cbn [mbind outcome_bind]. exists 0, (delete (p - 4) m).
    split_and!; [done | by apply map_Forall_delete |]. left. split_and!; try done. rewrite blocks_delete. f_equal. lia. }
  rewrite (block_header_ok m p r E) by lia. cbn [mbind outcome_bind]. rewrite <- Hlen.
  destruct (Z.leb_spec n (blen b)) as [Hsm|Hgr].
  { exists p, m. split_and!; try done. right; right. split; [done|]. split; [by left|]. exists b.
    split_and!; try done. by rewrite insert_delete_eq, insert_id. }
  destruct (pe32_malloc_spec n m Hm Hn) as (q & m1 & E1 & Hm1 & Hc). rewrite E1. cbn [mbind outcome_bind].
  destruct Hc as [[-> ->] | (Hq & Hf & rq & Hhq & Em1 & Hok)]; [exists 0, m; split_and!; try done; right; by left|].
  rewrite (proj2 (Z.eqb_neq q 0) Hq). assert (Hqp : q <> p) by (intros ->; congruence).
  destruct (new_block q rq m n Hok Hhq Hn) as (V1 & Hl1 & Hlq). rewrite <- Em1 in V1.
  assert (Hb1 : blocks m1 !! p = Some b) by (by rewrite V1, lookup_insert_ne).
  rewrite (block_load_spec p b m1 Hm1 Hb1). cbn [mbind outcome_bind].
  destruct (block_store_spec q (block_of rq) 0 b m1 Hm1) as (m2 & E2 & Hm2 & V2); [by rewrite V1, lookup_insert_eq | lia | lia |].
  rewrite E2. cbn [mbind outcome_bind]. rewrite V1, insert_insert_eq in V2.
  assert (Hb2 : blocks m2 !! p = Some b) by (by rewrite V2, lookup_insert_ne).
  rewrite (pe32_free_spec p b m2 Hm2 Hb2). cbn [mbind outcome_bind]. exists q, (delete (p - 4) m2).
  assert (Hr : in_range 0 (blen b) (blen (block_of rq)) = true) by (apply in_range_spec; unfold blen in *; lia).
  split_and!; [done | by apply map_Forall_delete |]. right; right. split; [done|]. split; [by right|].
  exists (splice 0 b (block_of rq)). rewrite blen_splice, Z.min_r by (done || lia). split_and!; [lia | |].
  - rewrite slice_splice_same by done. unfold slice, blen. by rewrite Nat2Z.id, drop_0, firstn_all.
  - rewrite blocks_delete, V2. replace (p - 4 + 4) with p by lia. by rewrite delete_insert_ne.
Qed.

(** The backend keeps the laws of the interface. *)
#[export] Instance pe32_backend_laws : HeapBackendLaws mappings.
Proof.
  split; cbn [heap_backend_malloc heap_backend_free heap_backend_realloc heap_backend_usable_size hb_store hb_view hb_limit hb_inv pe32_backend].
  - intros n m Hm Hn. destruct (pe32_malloc_spec n m Hm Hn) as (p & m' & E & Hm' & Hc). exists p, m'. split; [done|]. split; [done|].
    destruct Hc as [[-> ->] | (Hp & Hf & r & Hh & -> & Hok)]; [by left | right].
    destruct (new_block p r m n Hok Hh Hn) as (V & Hl & _). split_and!; [done | done |]. by exists (block_of r).
  - intros p b m Hm Hb. exists (delete (p - 4) m). split_and!; [by eapply pe32_free_spec | by apply map_Forall_delete |].
    rewrite blocks_delete. f_equal. lia.
  - intros p b n m Hm Hb Hn. by apply pe32_realloc_spec.
  - intros p b m Hm Hb. destruct (block_cases m p b Hm Hb) as (r & E & -> & (_ & _ & Hh) & Hlen & Hle & Hz).
    unfold pe32_usable_size, MIN_ALLOC in *. rewrite (proj2 (Z.eqb_neq p 0) Hz), (block_header_ok m p r E) by lia. by rewrite Hlen.
  - intros. by eapply block_store_spec.
Qed.

(** *** calloc *)

(** A product that does not fit in 32 bits is refused. *)
Lemma calloc_rejects_overflow n s m :
  0 <= n -> 0 < s -> 2 ^ 32 <= n * s -> pe32_calloc n s m = Ret (0, m).
Proof.
  intros Hn Hs Ho. unfold pe32_calloc. rewrite (proj2 (Z.eqb_neq s 0)) by lia.
  assert (E : u32 (n * s) / s <> n).
  { intros E. pose proof (wrap_range 32 (n * s) ltac:(lia)) as Hr.
    assert (n <= u32 (n * s) / s) by lia. assert (u32 (n * s) / s * s <= u32 (n * s)) by (rewrite Z.mul_comm; apply Z.mul_div_le; lia). nia. }
  by rewrite (proj2 (Z.eqb_neq _ _) E).
Qed.

(** A block from calloc is zero. *)
Lemma calloc_zeroed n s m :
  mappings_ok m -> 0 <= n -> 0 <= s -> n * s <= 2 ^ 32 - 8 ->
  exists p m', pe32_calloc n s m = Ret (p, m') /\
    (p = 0 \/ exists b, blocks m' !! p = Some b /\ slice 0 (n * s) b = replicate (Z.to_nat (n * s)) 0).
Proof.
  intros Hm Hn Hs Hb. assert (Hns : 0 <= n * s) by nia. unfold pe32_calloc. rewrite wrap_small by lia.
  assert (Hc : negb (s =? 0) && negb (n * s / s =? n) = false).
  { destruct (Z.eqb_spec s 0); [done|]. by rewrite Z.div_mul, Z.eqb_refl by done. }
  rewrite Hc. destruct (pe32_malloc_spec (n * s) m Hm ltac:(lia)) as (p & m1 & E & Hm1 & Hcs). rewrite E. cbn [mbind outcome_bind].
  destruct Hcs as [[-> ->] | (Hp & Hf & r & Hh & Em1 & Hok)]; [exists 0, m; auto|].
  rewrite (proj2 (Z.eqb_neq p 0) Hp). destruct (new_block p r m (n * s) Hok Hh ltac:(lia)) as (V & Hl & _). rewrite <- Em1 in V.
  destruct (block_store_spec p (block_of r) 0 (replicate (Z.to_nat (n * s)) 0) m1 Hm1) as (m2 & E2 & _ & V2);
    [by rewrite V, lookup_insert_eq | lia | rewrite blen_zeros by lia; lia |].
  rewrite E2. cbn [mbind outcome_bind]. exists p, m2. split; [done|]. right.
  exists (splice 0 (replicate (Z.to_nat (n * s)) 0) (block_of r)). rewrite V2, lookup_insert_eq. split; [done|].
  apply slice_zeros; lia.
Qed.

End backend.

(** ** The heap of the 32-bit program *)

Definition heap_start : heap_state mappings := mkHeapState (replicate MAX_HEAP_HANDLES 0) ∅ 0 ∅.

(** *** Errors that the code does not notice *)

(** The error numbers all turned into MAP_FAILED. *)
Definition quiet_result (mem : Z) : Z := if is_errno (A := arch32) mem then 2 ^ 32 - 1 else mem.
Definition quiet (M : Mmap) : Mmap := {| mmap_addr len m := quiet_result (mmap_addr len m) |}.
Lemma quiet_laws M : @MmapLaws M -> @MmapLaws (quiet M).
Proof.
  intros [HM]. split. intros len m. cbn. unfold quiet_result. destruct (is_errno (A := arch32) (mmap_addr len m)) eqn:E; [done|].
  intros _. by apply HM.
Qed.
Lemma quiet_quiet M : @MmapQuiet (quiet M).
Proof. split. intros len m. cbn. unfold quiet_result. destruct (is_errno (A := arch32) (mmap_addr len m)) eqn:E; [done|congruence]. Qed.

(** mmap has answered an error that the code takes for an address. *)
Definition unnoticed (mem : Z) : Prop := is_errno (A := arch32) mem = true /\ mem <> MAP_FAILED (A := arch32).

(** [m] does what [m'] does, or faults because of [P]. *)
Definition or_fault {X} (P : Prop) (m m' : outcome X) : Prop := m = m' \/ (m = Fault /\ P).
Lemma or_fault_refl {X} P (m : outcome X) : or_fault P m m.
Proof. by left. Qed.
Lemma or_fault_bind {X Y} P (m m' : outcome X) (f f' : X -> outcome Y) :
  or_fault P m m' -> (forall x, or_fault P (f x) (f' x)) -> or_fault P (m ≫= f) (m' ≫= f').
Proof. intros [->|[-> HP]] Hf; [|by right]. destruct m'; [apply Hf|by left..]. Qed.
Ltac or_fault_step :=
  lazymatch goal with
  | |- or_fault _ ?m ?m => apply or_fault_refl
  | |- or_fault _ (_ ≫= _) _ => apply or_fault_bind; [|intros ?]
  | |- or_fault _ (match ?x with _ => _ end) _ => destruct x
  end.

Lemma alloc_size_range n : 0 <= alloc_size n <= 2 ^ 32 - 8.
Proof.
  unfold alloc_size, MIN_ALLOC. rewrite round8 by (apply (wrap_range 32); lia). pose proof (wrap_range 32 (n + 7) ltac:(lia)) as Hw.
  set (x := u32 (n + 7)) in *. change (2 ^ 32) with (8 * 2 ^ 29) in *. destruct (Z.ltb_spec (x - x mod 8) 4096); Z.to_euclidean_division_equations; lia.
Qed.

Lemma malloc_or_fault (M : Mmap) n m :
  or_fault (unnoticed (mmap_addr (alloc_size n + 4) m)) (pe32_malloc (H := M) n m) (pe32_malloc (H := quiet M) n m).
Proof.
  unfold pe32_malloc. destruct (n =? 0); [apply or_fault_refl|]. cbv zeta. fold (alloc_size n).
  pose proof (alloc_size_range n) as Ha.
  rewrite (wrap_small 32 (alloc_size n + 4)) by lia. unfold mmap. cbn [mmap_addr quiet]. set (a := mmap_addr _ m). unfold quiet_result.
  destruct (is_errno (A := arch32) a) eqn:E; [|rewrite E; apply or_fault_refl].
  destruct (Z.eqb_spec a (MAP_FAILED (A := arch32))) as [->|Hne]; [by left|]. cbn [orb].
  destruct (Z.eqb_spec a 0) as [->|_]; [by vm_compute in E|]. right. unfold mapped. by rewrite E.
Qed.
Lemma realloc_or_fault (M : Mmap) p n m :
  or_fault (unnoticed (mmap_addr (alloc_size n + 4) m)) (pe32_realloc (H := M) p n m) (pe32_realloc (H := quiet M) p n m).
Proof. unfold pe32_realloc. repeat (apply malloc_or_fault || or_fault_step). Qed.

Section program.
Context `{ML : MmapLaws}.
Variable mmap_struct : heap_state mappings -> Z.
Hypothesis mmap_struct_fresh : forall s, is_errno (A := arch32) (mmap_struct s) = false -> hs_structs s !! mmap_struct s = None.

Definition quiet_struct (s : heap_state mappings) : Z := quiet_result (mmap_struct s).
Local Abbreviation step := (heap_step (A := arch32) (H := pe32_backend (H := H)) mmap_struct).
Local Abbreviation quiet_step := (heap_step (A := arch32) (H := pe32_backend (H := quiet H)) quiet_struct).
Local Abbreviation reach := (heap_reach (A := arch32) (H := pe32_backend (H := H)) mmap_struct heap_start).
Local Abbreviation quiet_reach := (heap_reach (A := arch32) (H := pe32_backend (H := quiet H)) quiet_struct heap_start).

Lemma quiet_struct_fresh s : quiet_struct s <> 2 ^ 32 - 1 -> quiet_struct s <> 0 ->
  is_errno (A := arch32) (quiet_struct s) = false /\ hs_structs s !! quiet_struct s = None.
Proof. unfold quiet_struct, quiet_result. destruct (is_errno (A := arch32) (mmap_struct s)) eqn:E; [done|]. auto. Qed.

(** The mmap that an operation makes has failed, or there is no slot for a heap. *)
Definition out_of_memory (o : heap_op) (s : heap_state mappings) : Prop :=
  match o with
  | Op_Create => is_errno (A := arch32) (mmap_struct s) = true \/ mmap_struct s = 0 \/ 0 ∉ g_heap_handles s
  | Op_Alloc _ _ n | Op_ReAlloc _ _ _ n => n = 0 \/ is_errno (A := arch32) (mmap_addr (alloc_size n + 4) (hs_mem s)) = true
  | _ => False
  end.
(** It has failed with an error that the code takes for an address. *)
Definition unnoticed_error (o : heap_op) (s : heap_state mappings) : Prop :=
  match o with
  | Op_Create => unnoticed (mmap_struct s)
  | Op_Alloc _ _ n | Op_ReAlloc _ _ _ n => unnoticed (mmap_addr (alloc_size n + 4) (hs_mem s))
  | _ => False
  end.

Lemma step_or_fault o s : or_fault (unnoticed_error o s) (step o s) (quiet_step o s).
Proof.
  destruct o as [|h fl n|h p|h fl p n|h|h p|p off src]; try apply or_fault_refl; unfold heap_step.
  - unfold HeapCreate, quiet_struct, quiet_result, INLINE_SYSCALL_MMAP. cbn [is_my_wine32 arch32].
    destruct (is_errno (A := arch32) (mmap_struct s)) eqn:E; [|cbv zeta; rewrite E; apply or_fault_refl]. cbv zeta.
    destruct (Z.eqb_spec (mmap_struct s) (MAP_FAILED (A := arch32))) as [->|Hne]; [by left|]. cbn [orb].
    destruct (Z.eqb_spec (mmap_struct s) 0) as [E0|_]; [rewrite E0 in E; by vm_compute in E|]. by right.
  - unfold HeapAlloc. repeat (apply malloc_or_fault || apply or_fault_refl || or_fault_step).
  - unfold HeapReAlloc. repeat (apply malloc_or_fault || apply realloc_or_fault || apply or_fault_refl || or_fault_step).
Qed.

Lemma reach_quiet s : reach s -> quiet_reach s.
Proof.
  induction 1 as [|s o r s' Hr IH Ho E]; [apply reach_start|]. apply (reach_op _ _ s o r s'); [done|exact Ho|].
  destruct (step_or_fault o s) as [<-|[E' _]]; [exact E|]. by rewrite E in E'.
Qed.

Lemma heap_start_inv (B : HeapBackend mappings) : hb_view (HeapBackend := B) ∅ = ∅ -> hb_inv (HeapBackend := B) ∅ ->
  heap_inv (H := B) heap_start.
Proof.
  intros Hv Hm. assert (Hz : forall i h, g_heap_handles heap_start !! i = Some h -> h = 0) by (intros i h Hi; by apply lookup_replicate in Hi as [-> _]).
  split; try done.
  - intros h Hh. split; [|by intros []]. intros Hin%list_elem_of_lookup. destruct Hin as [i Hi]. by apply Hz in Hi.
  - intros i j h Hh Hi _. by apply Hz in Hi.
  - cbn. by rewrite Hv.
Qed.

Lemma quiet_malloc_null n m m' : pe32_malloc (H := quiet H) n m = Ret (0, m') ->
  n = 0 \/ is_errno (A := arch32) (mmap_addr (alloc_size n + 4) m) = true.
Proof.
  unfold pe32_malloc. destruct (Z.eqb_spec n 0) as [->|]; [by left|]. cbv zeta. fold (alloc_size n). intros E. right.
  rewrite (wrap_small 32 (alloc_size n + 4)) in E by (pose proof (alloc_size_range n); lia).
  unfold mmap in E. cbn [mmap_addr quiet] in E. set (a := mmap_addr _ m) in *. unfold quiet_result in E.
  destruct (is_errno (A := arch32) a) eqn:Ea; [done|]. rewrite Ea in E. exfalso. destruct (mmap_addr_fresh _ _ Ea) as [Hp _]. fold a in Hp.
  unfold mapped in E. rewrite Ea in E. destruct (_ || _) eqn:Eo.
  { change (MAP_FAILED (A := arch32)) with (2 ^ 32 - 1) in Eo. lia. }
  apply bind_Ret in E as (r & _ & E). apply bind_Ret in E as (r' & _ & E). injection E as E _. lia.
Qed.

Lemma quiet_no_memory o s : no_memory (A := arch32) (H := pe32_backend (H := quiet H)) quiet_struct o s -> out_of_memory o s.
Proof.
  destruct o as [|h fl n|h p|h fl p n|h|h p|p off src]; cbn [no_memory out_of_memory]; try done.
  - unfold quiet_struct, quiet_result, INLINE_SYSCALL_MMAP. cbn [is_my_wine32 arch32].
    change (MAP_FAILED (A := arch32)) with (2 ^ 32 - 1). destruct (is_errno (A := arch32) (mmap_struct s)) eqn:E; [by left|].
    intros [[E1|E1]|E1]; [|by right; left|by right; right]. rewrite E1 in E. by vm_compute in E.
  - intros [m' E]. by apply (quiet_malloc_null _ _ m').
  - destruct (Z.eqb_spec p 0) as [->|Hp]; intros [m' E]; [by apply (quiet_malloc_null _ _ m')|].
    destruct (Z.eqb_spec n 0) as [->|Hn]; [by left|]. cbn [heap_backend_realloc pe32_backend] in E. unfold pe32_realloc in E.
    rewrite (proj2 (Z.eqb_neq p 0) Hp), (proj2 (Z.eqb_neq n 0) Hn) in E. apply bind_Ret in E as (old & _ & E).
    destruct (n <=? old); [by injection E as E _|]. apply bind_Ret in E as ([new m1] & E1 & E).
    destruct (Z.eqb_spec new 0) as [->|Hnew]; [by apply (quiet_malloc_null _ _ m1)|]. apply bind_Ret in E as (b & _ & E).
    apply bind_Ret in E as (m2 & _ & E). apply bind_Ret in E as (m3 & _ & E). by injection E as E _.
Qed.

(** C25: Whatever the guest of the 32-bit program does with its heaps, as long as it uses
    blocks that it has been given and asks for at most 2^32 - 8 bytes at a time, and
    whatever mmap answers - an address where nothing is mapped, or any error number:
    each function does what the specification of the heap says, touching no memory
    outside of a block and no heap structure that does not exist; the one exception is a
    call whose mmap fails with an error other than the one MAP_FAILED stands for, which
    the code takes for an address and writes to.  A new block overlaps no other, and its first bytes are
    zero when that was asked for; a reallocated block keeps its bytes; no operation
    changes another block; and a function fails only for a handle that is not a heap's,
    for a request of no bytes, when its mmap fails, or when there is no slot for a heap. *)
Theorem heap_functions_refine s o :
  reach s -> op_allowed (2 ^ 32 - 8) (view_of (H := pe32_backend (H := H)) s) o ->
  (exists r s', step o s = Ret (r, s') /\
     heap_spec (A := arch32) (out_of_memory o s) o (view_of (H := pe32_backend (H := H)) s) r (view_of (H := pe32_backend (H := H)) s')) \/
  (step o s = Fault /\ unnoticed_error o s).
Proof.
  intros Hr Ho. destruct (step_or_fault o s) as [->|[-> He]]; [left|by right].
  pose proof (quiet_laws H ML) as ML'. pose proof (quiet_quiet H) as MQ'.
  destruct (heap_reach_refines (A := arch32) (HL := pe32_backend_laws (H := quiet H)) quiet_struct quiet_struct_fresh heap_start s o) as (r & s' & E & Hsp);
    [by apply heap_start_inv|by apply reach_quiet|exact Ho|].
  exists r, s'. split; [exact E|]. eapply heap_spec_mono; [|exact Hsp]. intros Hno. apply (quiet_no_memory o s Hno).
Qed.
End program.

(** A machine with room for one block and one heap. *)
Definition demo_mmap : Mmap := {| mmap_addr _ m := if bool_decide (is_Some (m !! 4096)) then 2 ^ 32 - 1 else 4096 |}.
Lemma demo_mmap_laws : @MmapLaws demo_mmap.
Proof. split. intros len m. simpl. case_bool_decide as E; [done|]. intros _. by rewrite eq_None_not_Some. Qed.
Definition demo_struct (s : heap_state mappings) : Z := if bool_decide (is_Some (hs_structs s !! 8192)) then 2 ^ 32 - 1 else 8192.
Lemma demo_struct_fresh s : is_errno (A := arch32) (demo_struct s) = false -> hs_structs s !! demo_struct s = None.
Proof. unfold demo_struct. case_bool_decide as E; [done|]. intros _. by rewrite eq_None_not_Some. Qed.

Definition demo_step (o : heap_op) (s : heap_state mappings) : outcome (Z * heap_state mappings) :=
  @heap_step arch32 mappings (@pe32_backend demo_mmap) demo_struct o s.

Lemma heap_functions_refine_witness :
  exists s r s', demo_step Op_Create heap_start = Ret (8192, s) /\ demo_step (Op_Alloc 8192 8 100) s = Ret (r, s')
    /\ heap_spec (A := arch32) (@out_of_memory demo_mmap demo_struct (Op_Alloc 8192 8 100) s) (Op_Alloc 8192 8 100)
          (@view_of _ (@pe32_backend demo_mmap) s) r (@view_of _ (@pe32_backend demo_mmap) s').
Proof.
  destruct (demo_step Op_Create heap_start) as [[r0 s]| |] eqn:E; [|vm_compute in E; done..].
  assert (Er : r0 = 8192) by (vm_compute in E; by injection E as <- _). subst r0.
  destruct (@heap_functions_refine demo_mmap demo_mmap_laws demo_struct demo_struct_fresh s (Op_Alloc 8192 8 100)) as [(r & s' & E' & Hsp)|[_ [Hbad Hne]]].
  - eapply reach_op; [apply reach_start | | exact E]. exact I.
  - vm_compute. done.
  - exists s, r, s'. split; [done|]. split; [exact E' | exact Hsp].
  - exfalso. vm_compute in E. injection E as <-. vm_compute in Hbad. discriminate Hbad.
Defined.

(** ** Defects *)

Definition after {X} (m : outcome (X * mappings)) (f : X -> mappings -> outcome Z) : outcome Z := '(x, m) ← m; f x m.

(** When there is no memory (error 12), the size is written at the address -12. *)
Example failed_mmap_is_used : pe32_malloc (H := {| mmap_addr _ _ := 2 ^ 32 - 12 |}) 100 ∅ = Fault.
Proof. vm_compute. done. Qed.

(** A request of 2^32 - 4 bytes: the rounding wraps around and a block of 4096 bytes
    is returned. *)
Example malloc_size_overflows :
  after (@pe32_malloc demo_mmap (2 ^ 32 - 4) ∅) (fun p m => pe32_usable_size p m) = Ret 4096.
Proof. vm_compute. done. Qed.

(** Growing a block with HEAP_ZERO_MEMORY: the bytes between the size asked for and
    the page that the block occupies are not cleared.  A block of 16 bytes is filled,
    shrunk to 4 bytes and grown to 16 again: the old bytes are back. *)
Definition shrink_and_grow : outcome bytes :=
  '(h, s) ← demo_step Op_Create heap_start;
  '(p, s) ← demo_step (Op_Alloc h 8 16) s;
  '(_, s) ← demo_step (Op_Write p 0 (replicate 16 65)) s;
  '(p, s) ← demo_step (Op_ReAlloc h 0 p 4) s;
  '(p, s) ← demo_step (Op_ReAlloc h 8 p 16) s;
  block_load p 0 16 (hs_mem s).
Example realloc_does_not_clear : shrink_and_grow = Ret (replicate 16 65).
Proof. vm_compute. done. Qed.

(** Destroying a heap frees none of its blocks. *)
Definition destroy_keeps_blocks : outcome bytes :=
  '(h, s) ← demo_step Op_Create heap_start;
  '(p, s) ← demo_step (Op_Alloc h 8 16) s;
  '(_, s) ← demo_step (Op_Destroy h) s;
  block_load p 0 16 (hs_mem s).
Example destroyed_heap_keeps_blocks : destroy_keeps_blocks = Ret (replicate 16 0).
Proof. vm_compute. done. Qed.
