(* ===== verification/MidiStream.v ===== *)
(** * MIDI streams (src/msvcrt/winmm_doom95.c, winmm_doom95_priv.h,
      winmm_doom95_midi_backend.c)

    The stream's shared state, the FluidSynth backend and the functions the guest
    calls.  A function of the guest thread is a program over the atomic accesses it
    makes to the state it shares with the worker thread, so that the same definition
    can be run alone or interleaved with the worker (file MidiConc). *)
From S2P Require Import Prelude Bytes CStr HandleTable.

(** ** Data *)

Inductive midi_event_type_t := MIDI_EVENT_SHORT | MIDI_EVENT_TEMPO | MIDI_EVENT_SYSEX.

(** [ev_sysex] holds the sysex_len bytes behind the sysex pointer; empty for NULL. *)
Record midi_event_t := mkEvent {
  ev_next : Z; ev_delta_ticks : Z; ev_type : midi_event_type_t; ev_short_msg : Z; ev_tempo : Z; ev_sysex : bytes }.

#[export] Instance midi_event_type_eq_dec : EqDecision midi_event_type_t.
Proof. solve_decision. Defined.
#[export] Instance midi_event_eq_dec : EqDecision midi_event_t.
Proof. solve_decision. Defined.

Definition ev_set_next (p : Z) (e : midi_event_t) : midi_event_t :=
  mkEvent p (ev_delta_ticks e) (ev_type e) (ev_short_msg e) (ev_tempo e) (ev_sysex e).
Definition ev_set_sysex (b : bytes) (e : midi_event_t) : midi_event_t :=
  mkEvent (ev_next e) (ev_delta_ticks e) (ev_type e) (ev_short_msg e) (ev_tempo e) b.

(** Pointers into FluidSynth: 0 is NULL. *)
Record midi_fluidsynth_backend_t := mkBackend {
  fb_settings : Z; fb_synth : Z; fb_driver : Z; fb_soundfont_path : bytes; fb_soundfont_id : Z; fb_ready : bool }.
Definition zero_backend : midi_fluidsynth_backend_t := mkBackend 0 0 0 [] 0 false.

Record midi_stream_state_t := mkStream {
  stream_handle : Z; time_div : Z; tempo_us_per_qn : Z; volume : Z; app_active : Z; playing : Z; worker_active : Z;
  stop_worker : Z; generation : Z; lock : Z; head : Z; tail : Z; backend : midi_fluidsynth_backend_t }.

Definition g_midi_stream : midi_stream_state_t := mkStream 0 96 500000 0xffffffff 1 0 0 0 1 0 0 0 zero_backend.

(** The scalar fields that the threads load and store one at a time. *)
Inductive field :=
| F_stream_handle | F_time_div | F_tempo | F_volume | F_app_active | F_playing | F_worker_active | F_stop_worker
| F_generation.

Definition get_field (f : field) (s : midi_stream_state_t) : Z :=
  match f with
  | F_stream_handle => stream_handle s | F_time_div => time_div s | F_tempo => tempo_us_per_qn s | F_volume => volume s
  | F_app_active => app_active s | F_playing => playing s | F_worker_active => worker_active s
  | F_stop_worker => stop_worker s | F_generation => generation s
  end.

Definition set_field (f : field) (v : Z) (s : midi_stream_state_t) : midi_stream_state_t :=
  let p g old := match f, g with
    | F_stream_handle, F_stream_handle | F_time_div, F_time_div | F_tempo, F_tempo | F_volume, F_volume
    | F_app_active, F_app_active | F_playing, F_playing | F_worker_active, F_worker_active
    | F_stop_worker, F_stop_worker | F_generation, F_generation => v
    | _, _ => old end in
  mkStream (p F_stream_handle (stream_handle s)) (p F_time_div (time_div s)) (p F_tempo (tempo_us_per_qn s))
    (p F_volume (volume s)) (p F_app_active (app_active s)) (p F_playing (playing s))
    (p F_worker_active (worker_active s)) (p F_stop_worker (stop_worker s)) (p F_generation (generation s))
    (lock s) (head s) (tail s) (backend s).

Definition set_lock (v : Z) (s : midi_stream_state_t) : midi_stream_state_t :=
  mkStream (stream_handle s) (time_div s) (tempo_us_per_qn s) (volume s) (app_active s) (playing s) (worker_active s)
    (stop_worker s) (generation s) v (head s) (tail s) (backend s).
Definition set_queue (h t : Z) (s : midi_stream_state_t) : midi_stream_state_t :=
  mkStream (stream_handle s) (time_div s) (tempo_us_per_qn s) (volume s) (app_active s) (playing s) (worker_active s)
    (stop_worker s) (generation s) (lock s) h t (backend s).
Definition set_backend (b : midi_fluidsynth_backend_t) (s : midi_stream_state_t) : midi_stream_state_t :=
  mkStream (stream_handle s) (time_div s) (tempo_us_per_qn s) (volume s) (app_active s) (playing s) (worker_active s)
    (stop_worker s) (generation s) (lock s) (head s) (tail s) b.

(** ** FluidSynth

    The library is a parameter: its constructors may fail.  [fluid] records which of
    its objects exist and the calls each synthesizer has received; a call on an
    object that does not exist is a fault. *)
Inductive synth_call :=
| S_noteoff (chan key : Z) | S_noteon (chan key vel : Z) | S_key_pressure (chan key v : Z) | S_cc (chan num v : Z)
| S_program_change (chan p : Z) | S_channel_pressure (chan v : Z) | S_pitch_bend (chan v : Z) | S_sysex (data : bytes)
| S_gain (num : Z) | S_system_reset.

Record fluid := mkFluid { fl_settings : gset Z; fl_synths : gset Z; fl_drivers : gset Z; fl_calls : list (Z * synth_call) }.

Definition synth_do (p : Z) (c : synth_call) (w : fluid) : outcome fluid :=
  if bool_decide (p ∈ fl_synths w)
  then Ret (mkFluid (fl_settings w) (fl_synths w) (fl_drivers w) (fl_calls w ++ [(p, c)])) else Fault.

Definition delete_fluid_settings (p : Z) (w : fluid) : outcome fluid :=
  if bool_decide (p ∈ fl_settings w)
  then Ret (mkFluid (fl_settings w ∖ {[p]}) (fl_synths w) (fl_drivers w) (fl_calls w)) else Fault.
Definition delete_fluid_synth (p : Z) (w : fluid) : outcome fluid :=
  if bool_decide (p ∈ fl_synths w)
  then Ret (mkFluid (fl_settings w) (fl_synths w ∖ {[p]}) (fl_drivers w) (fl_calls w)) else Fault.
Definition delete_fluid_audio_driver (p : Z) (w : fluid) : outcome fluid :=
  if bool_decide (p ∈ fl_drivers w)
  then Ret (mkFluid (fl_settings w) (fl_synths w) (fl_drivers w ∖ {[p]}) (fl_calls w)) else Fault.

(** What the library and the environment answer.  The audio driver is opened for the
    name set in the settings, [None] for the library's default. *)
Class FluidSynth := {
  new_fluid_settings : fluid -> option Z;
  new_fluid_synth : Z -> fluid -> option Z;
  fluid_synth_sfload : Z -> bytes -> fluid -> Z;
  new_fluid_audio_driver : option bytes -> Z -> Z -> fluid -> option Z;
  getenv_soundfont : option bytes;
  getenv_driver : option bytes;
  access_R_OK : bytes -> bool }.

(** A constructor returns a new object. *)
Class FluidLaws `{FluidSynth} := {
  new_settings_fresh w p : new_fluid_settings w = Some p -> p <> 0 /\ p ∉ fl_settings w;
  new_synth_fresh s w p : new_fluid_synth s w = Some p -> p <> 0 /\ p ∉ fl_synths w;
  new_driver_fresh n s y w p : new_fluid_audio_driver n s y w = Some p -> p <> 0 /\ p ∉ fl_drivers w }.

Section fluid_backend.
Context `{FluidSynth}.

(** The gain as its numerator: gain = [left + right] / (2 * 65535). *)
Definition midi_stream_gain_from_volume (dwVolume : Z) : Z :=
  Z.land dwVolume 0xFFFF + Z.land (Z.shiftr dwVolume 16) 0xFFFF.

(** The two paths under /usr/share/soundfonts, and the driver names. *)
Definition soundfont_fallbacks : list bytes :=
  [lit "/usr/share/soundfonts/FluidR3_GM.sf2"; lit "/usr/share/soundfonts/FluidR3_GS.sf2"].
Definition driver_candidates : list bytes := lit <$> ["pipewire"%string; "pulseaudio"%string; "alsa"%string].

(** [snprintf(out_path, out_size, "%s", path)]. *)
Definition midi_find_soundfont (out_size : Z) : option bytes :=
  if out_size =? 0 then None
  else
    let put p := Some (take (Z.to_nat (out_size - 1)) p) in
    let fallback :=
      match List.find access_R_OK soundfont_fallbacks with Some p => put p | None => None end in
    match getenv_soundfont with
    | Some p => if negb (bool_decide (p = [])) && access_R_OK p then put p else fallback
    | None => fallback
    end.

Definition winmm_doom95_midi_backend_has_device : bool := bool_decide (is_Some (midi_find_soundfont 256)).

Definition override : bool := match getenv_driver with Some n => negb (bool_decide (n = [])) | None => false end.

(** The name set for attempt [i]. *)
Definition driver_name (i : nat) : option bytes := if override then getenv_driver else driver_candidates !! i.

(** The loop over the audio drivers; [None] when [fuel] attempts are not enough. *)
Fixpoint open_loop (fuel i : nat) (path : bytes) (w : fluid) : outcome (option (option midi_fluidsynth_backend_t * fluid)) :=
  match fuel with
  | O => Ret None
  | S fuel =>
      match new_fluid_settings w with
      | None => Ret (Some (None, w))
      | Some st =>
          let w := mkFluid ({[st]} ∪ fl_settings w) (fl_synths w) (fl_drivers w) (fl_calls w) in
          match new_fluid_synth st w with
          | None => w ← delete_fluid_settings st w; Ret (Some (None, w))
          | Some sy =>
              let w := mkFluid (fl_settings w) ({[sy]} ∪ fl_synths w) (fl_drivers w) (fl_calls w) in
              let id := fluid_synth_sfload sy path w in
              let next w :=
                w ← delete_fluid_synth sy w;
                w ← delete_fluid_settings st w;
                if override then Ret (Some (None, w)) else open_loop fuel (S i) path w in
              if id <? 0 then next w
              else
                match new_fluid_audio_driver (driver_name i) st sy w with
                | Some d =>
                    Ret (Some (Some (mkBackend st sy d path id true),
                               mkFluid (fl_settings w) (fl_synths w) ({[d]} ∪ fl_drivers w) (fl_calls w)))
                | None => next w
                end
          end
      end
  end.

(** [fuel] bounds the number of attempts.  The soundfont path is written to the
    backend even when the attempts fail. *)
Definition winmm_doom95_midi_backend_open (fuel : nat) (b : midi_fluidsynth_backend_t) (w : fluid)
  : outcome (option (Z * midi_fluidsynth_backend_t * fluid)) :=
  if fb_ready b then Ret (Some (1, b, w))
  else
    match midi_find_soundfont 256 with
    | None => Ret (Some (0, b, w))
    | Some path =>
        r ← open_loop fuel 0 path w;
        match r with
        | None => Ret None
        | Some (Some b', w) => Ret (Some (1, b', w))
        | Some (None, w) =>
            Ret (Some (0, mkBackend (fb_settings b) (fb_synth b) (fb_driver b) path (fb_soundfont_id b) (fb_ready b), w))
        end
    end.

Definition winmm_doom95_midi_backend_close (b : midi_fluidsynth_backend_t) (w : fluid)
  : outcome (midi_fluidsynth_backend_t * fluid) :=
  w ← (if fb_driver b =? 0 then Ret w else delete_fluid_audio_driver (fb_driver b) w);
  w ← (if fb_synth b =? 0 then Ret w else delete_fluid_synth (fb_synth b) w);
  w ← (if fb_settings b =? 0 then Ret w else delete_fluid_settings (fb_settings b) w);
  Ret (zero_backend, w).

Definition backend_usable (b : midi_fluidsynth_backend_t) : bool := fb_ready b && negb (fb_synth b =? 0).

Definition winmm_doom95_midi_backend_reset (b : midi_fluidsynth_backend_t) (w : fluid) : outcome fluid :=
  if backend_usable b then synth_do (fb_synth b) S_system_reset w else Ret w.

(** The gain set for a volume that has been loaded from the state. *)
Definition winmm_doom95_midi_backend_apply_volume (b : midi_fluidsynth_backend_t) (vol : Z) (w : fluid) : outcome fluid :=
  if backend_usable b then synth_do (fb_synth b) (S_gain (midi_stream_gain_from_volume vol)) w else Ret w.

(** The library call for a packed channel message. *)
Definition short_call (packed_msg : Z) : option synth_call :=
  let status := Z.land packed_msg 0xFF in
  let data1 := Z.land (Z.shiftr packed_msg 8) 0x7F in
  let data2 := Z.land (Z.shiftr packed_msg 16) 0x7F in
  let channel := Z.land status 0x0F in
  let command := Z.land status 0xF0 in
  if command =? 0x80 then Some (S_noteoff channel data1)
  else if command =? 0x90 then
    if data2 =? 0 then Some (S_noteoff channel data1) else Some (S_noteon channel data1 data2)
  else if command =? 0xA0 then Some (S_key_pressure channel data1 data2)
  else if command =? 0xB0 then Some (S_cc channel data1 data2)
  else if command =? 0xC0 then Some (S_program_change channel data1)
  else if command =? 0xD0 then Some (S_channel_pressure channel data1)
  else if command =? 0xE0 then Some (S_pitch_bend channel (Z.lor data1 (Z.shiftl data2 7)))
  else None.

Definition winmm_doom95_midi_backend_send_short (b : midi_fluidsynth_backend_t) (packed_msg : Z) (w : fluid) : outcome fluid :=
  if negb (backend_usable b) then Ret w
  else match short_call packed_msg with Some c => synth_do (fb_synth b) c w | None => Ret w end.

Definition winmm_doom95_midi_backend_send_sysex (b : midi_fluidsynth_backend_t) (data : bytes) (w : fluid) : outcome fluid :=
  if negb (backend_usable b) || bool_decide (data = []) then Ret w
  else synth_do (fb_synth b) (S_sysex data) w.

End fluid_backend.

(** ** Programs of the guest thread *)

(** One access to the shared state.  [CNew] is midi_event_new with the stores to the
    event that no other thread can see yet, [CSysex] rb_host_malloc and memcpy of the
    system exclusive data, [CFreeAll] the loop that frees a list of events. *)
Inductive cmd :=
| CLoad (f : field) | CStore (f : field) (v : Z) | CBump
| CNew (e : midi_event_t) | CSysex (e : Z) (data : bytes) | CFree (e : Z)
| CLock | CUnlock | CPush (e : Z) | CTakeAll | CFreeAll (e : Z)
| CSynth | CGain (synth num : Z)
| CSpawn | CJoin
| CHandleAlloc | CHandleFree (h : Z).

(** A program returns, makes an access and goes on with its result, or touches guest
    memory that does not exist. *)
Inductive prog (R : Type) :=
| Done (r : R)
| Act (c : cmd) (k : Z -> prog R)
| Crash.
Arguments Done {_} _.
Arguments Act {_} _ _.
Arguments Crash {_}.

Fixpoint prog_bind_def {R S} (f : R -> prog S) (p : prog R) : prog S :=
  match p with Done r => f r | Act c k => Act c (fun z => prog_bind_def f (k z)) | Crash => Crash end.
#[export] Instance prog_bind : MBind prog := fun R S f p => prog_bind_def f p.
Definition act (c : cmd) : prog Z := Act c (fun z => Done z).
Definition guest {R} (m : outcome R) : prog R := match m with Ret r => Done r | _ => Crash end.

Definition midi_queue_clear_local : prog unit :=
  _ ← act CLock;
  event ← act CTakeAll;
  _ ← act CUnlock;
  _ ← act (CFreeAll event);
  Done tt.

(** [pthread_create] answers 0 on success. *)
Definition midi_stream_start_worker_host_call : prog Z :=
  active ← act (CLoad F_worker_active);
  if negb (active =? 0) then Done active
  else
    _ ← act (CStore F_stop_worker 0);
    r ← act CSpawn;
    if negb (r =? 0) then Done 0
    else _ ← act (CStore F_worker_active 1); Done 1.

Definition midi_stream_stop_worker_host_call : prog Z :=
  active ← act (CLoad F_worker_active);
  _ ← (if negb (active =? 0)
       then _ ← act (CStore F_stop_worker 1); _ ← act CJoin; _ ← act (CStore F_worker_active 0); Done tt
       else Done tt);
  _ ← midi_queue_clear_local;
  Done 0.

Definition midi_backend_apply_volume_host_call : prog Z :=
  synth ← act CSynth;
  if synth =? 0 then Done 0
  else
    vol ← act (CLoad F_volume);
    _ ← act (CGain synth (midi_stream_gain_from_volume vol));
    Done 0.

Definition midi_stream_reset_state : prog unit :=
  _ ← act CBump;
  _ ← act (CStore F_playing 0);
  _ ← act (CStore F_app_active 1);
  _ ← act (CStore F_tempo 500000);
  _ ← act (CStore F_time_div 96);
  _ ← act (CStore F_volume 0xffffffff);
  midi_queue_clear_local.

Definition winmm_doom95_set_application_active (active : Z) : prog unit :=
  if active =? 0 then Done tt else _ ← act (CStore F_app_active 1); Done tt.

Definition winmm_doom95_shutdown : prog unit :=
  _ ← midi_stream_stop_worker_host_call;
  midi_stream_reset_state.

(** *** Queueing events *)

Definition midi_queue_push_event (event : Z) : prog Z :=
  if event =? 0 then Done 0
  else
    _ ← act CLock;
    _ ← act (CPush event);
    _ ← act CUnlock;
    Done 1.

Definition midi_queue_short_message (delta_ticks packed_msg : Z) : prog Z :=
  event ← act (CNew (mkEvent 0 delta_ticks MIDI_EVENT_SHORT packed_msg 0 []));
  if event =? 0 then Done 0 else midi_queue_push_event event.

Definition midi_queue_tempo (delta_ticks tempo : Z) : prog Z :=
  event ← act (CNew (mkEvent 0 delta_ticks MIDI_EVENT_TEMPO 0 (if tempo =? 0 then 500000 else tempo) []));
  if event =? 0 then Done 0 else midi_queue_push_event event.

Definition midi_queue_sysex (delta_ticks : Z) (data : bytes) : prog Z :=
  event ← act (CNew (mkEvent 0 delta_ticks MIDI_EVENT_SYSEX 0 0 []));
  if event =? 0 then Done 0
  else if blen data =? 0 then midi_queue_push_event event
  else
    sysex ← act (CSysex event data);
    if sysex =? 0 then _ ← act (CFree event); Done 0
    else midi_queue_push_event event.

(** *** The event buffer *)

Record MIDIHDR_WINE := mkMidiHdr { lpData : option bytes; dwBufferLength : Z; dwBytesRecorded : Z; hdr_dwFlags : Z }.
Definition hdr_set_flags (f : Z) (h : MIDIHDR_WINE) : MIDIHDR_WINE :=
  mkMidiHdr (lpData h) (dwBufferLength h) (dwBytesRecorded h) f.

Definition MHDR_DONE_WINE : Z := 0x00000001.
Definition MHDR_PREPARED_WINE : Z := 0x00000002.
Definition MIDIPROP_SET_WINE : Z := 0x80000000.
Definition MIDIPROP_TIMEDIV_WINE : Z := 0x00000001.
Definition MIDIPROP_TEMPO_WINE : Z := 0x00000002.
Definition MEVT_F_CALLBACK_WINE : Z := 0x40000000.
Definition MEVT_F_LONG_WINE : Z := 0x80000000.
Definition MEVT_EVENTTYPE_WINE (x : Z) : Z := Z.land (Z.shiftr x 24) 0xFF.
Definition MEVT_EVENTPARM_WINE (x : Z) : Z := Z.land x 0x00FFFFFF.
Definition MEVT_NOP_WINE : Z := 0x02.
Definition MEVT_SHORTMSG_WINE : Z := 0x00.
Definition MEVT_TEMPO_WINE : Z := 0x01.
Definition MEVT_LONGMSG_WINE : Z := 0x80.
Definition MEVT_COMMENT_WINE : Z := 0x82.
Definition MEVT_VERSION_WINE : Z := 0x84.

(** The loop of midi_stream_append_buffer; every iteration consumes 12 bytes, so that
    [fuel] = S remaining is enough. *)
Fixpoint append_loop (fuel : nat) (data : bytes) (ptr remaining pending_delta : Z) : prog Z :=
  match fuel with
  | O => Crash
  | S fuel =>
      if negb (12 <=? remaining) then Done 1
      else
        delta ← guest (load 4 ptr data);
        event ← guest (load 4 (ptr + 8) data);
        let event_type := MEVT_EVENTTYPE_WINE event in
        let parm := MEVT_EVENTPARM_WINE event in
        let ptr := ptr + 12 in
        let remaining := remaining - 12 in
        let pending_delta := u32 (pending_delta + delta) in
        if negb (Z.land event MEVT_F_CALLBACK_WINE =? 0) then append_loop fuel data ptr remaining pending_delta
        else if negb (Z.land event MEVT_F_LONG_WINE =? 0) then
          let long_len := parm in
          let chunk_len := Z.land (u32 (long_len + 3)) (u32 (Z.lnot 3)) in
          if remaining <? chunk_len then Done 1
          else
            queued ← (if event_type =? MEVT_LONGMSG_WINE
                      then d ← guest (load_bytes ptr long_len data); midi_queue_sysex pending_delta d
                      else Done 1);
            if queued =? 0 then Done 0
            else append_loop fuel data (ptr + chunk_len) (remaining - chunk_len) 0
        else if event_type =? MEVT_SHORTMSG_WINE then
          queued ← midi_queue_short_message pending_delta parm;
          if queued =? 0 then Done 0 else append_loop fuel data ptr remaining 0
        else if event_type =? MEVT_TEMPO_WINE then
          queued ← midi_queue_tempo pending_delta parm;
          if queued =? 0 then Done 0 else append_loop fuel data ptr remaining 0
        else append_loop fuel data ptr remaining pending_delta
  end.

Definition midi_stream_append_buffer (hdr : MIDIHDR_WINE) : prog Z :=
  match lpData hdr with
  | None => Done 0
  | Some data =>
      let remaining := if dwBytesRecorded hdr =? 0 then dwBufferLength hdr else dwBytesRecorded hdr in
      append_loop (S (Z.to_nat remaining)) data 0 remaining 0
  end.

(** *** Functions of winmm.dll; a header is [None] for NULL *)

Definition midiOutGetNumDevs `{FluidSynth} : Z := if winmm_doom95_midi_backend_has_device then 1 else 0.

Definition midiOutPrepareHeader (hdr : option MIDIHDR_WINE) : Z * option MIDIHDR_WINE :=
  (0, (fun h => hdr_set_flags (Z.lor (hdr_dwFlags h) MHDR_PREPARED_WINE) h) <$> hdr).

Definition midiOutUnprepareHeader (hdr : option MIDIHDR_WINE) : Z * option MIDIHDR_WINE :=
  (0, (fun h => hdr_set_flags (Z.land (hdr_dwFlags h) (u32 (Z.lnot MHDR_PREPARED_WINE))) h) <$> hdr).

Definition midiOutReset : prog Z :=
  _ ← act CBump;
  _ ← act (CStore F_playing 0);
  _ ← midi_queue_clear_local;
  _ ← midi_backend_apply_volume_host_call;
  Done 0.

Definition midiOutSetVolume (dwVolume : Z) : prog Z :=
  _ ← act (CStore F_volume dwVolume);
  _ ← midi_backend_apply_volume_host_call;
  Done 0.

(** The handle is what is stored through [phms]. *)
Definition midiStreamOpen : prog Z :=
  _ ← winmm_doom95_shutdown;
  _ ← midi_stream_reset_state;
  handle ← act CHandleAlloc;
  _ ← act (CStore F_stream_handle handle);
  Done handle.

Definition midiStreamClose (hms : Z) : prog Z :=
  _ ← midi_stream_stop_worker_host_call;
  _ ← midi_stream_reset_state;
  _ ← (if u32 hms =? 0 then Done 0 else act (CHandleFree (u32 hms)));
  Done 0.

Definition midiStreamOut (hdr : option MIDIHDR_WINE) : prog (option MIDIHDR_WINE) :=
  match hdr with
  | None => Done None
  | Some hdr =>
      let hdr := hdr_set_flags (Z.land (hdr_dwFlags hdr) (u32 (Z.lnot MHDR_DONE_WINE))) hdr in
      _ ← midi_stream_append_buffer hdr;
      Done (Some (hdr_set_flags (Z.lor (hdr_dwFlags hdr) MHDR_DONE_WINE) hdr))
  end.

Definition midiStreamPause : prog Z := _ ← act (CStore F_playing 0); Done 0.

(** [prop]: cbStruct and the value that follows it, in either structure. *)
Definition midiStreamProperty (prop : option (Z * Z)) (dwProperty : Z) : prog Z :=
  match prop with
  | Some (cbStruct, value) =>
      let valid := (8 <=? cbStruct) && negb (value =? 0) in
      let has m := negb (Z.land dwProperty m =? 0) in
      if has MIDIPROP_SET_WINE then
        _ ← (if has MIDIPROP_TIMEDIV_WINE && valid then act (CStore F_time_div value) else Done 0);
        _ ← (if has MIDIPROP_TEMPO_WINE && valid then act (CStore F_tempo value) else Done 0);
        Done 0
      else Done 0
  | None => Done 0
  end.

Definition midiStreamRestart : prog Z :=
  active ← act (CLoad F_worker_active);
  started ← (if active =? 0 then midi_stream_start_worker_host_call else Done 1);
  if started =? 0 then Done 0
  else _ ← act (CStore F_playing 1); Done 0.

Inductive call :=
| Call_OutReset | Call_OutSetVolume (v : Z) | Call_Open | Call_Close (hms : Z) | Call_Out (hdr : option MIDIHDR_WINE)
| Call_Pause | Call_Property (prop : option (Z * Z)) (dwProperty : Z) | Call_Restart | Call_SetActive (active : Z)
| Call_Shutdown.

Definition call_prog (c : call) : prog unit :=
  match c with
  | Call_OutReset => _ ← midiOutReset; Done tt
  | Call_OutSetVolume v => _ ← midiOutSetVolume v; Done tt
  | Call_Open => _ ← midiStreamOpen; Done tt
  | Call_Close h => _ ← midiStreamClose h; Done tt
  | Call_Out hdr => _ ← midiStreamOut hdr; Done tt
  | Call_Pause => _ ← midiStreamPause; Done tt
  | Call_Property p d => _ ← midiStreamProperty p d; Done tt
  | Call_Restart => _ ← midiStreamRestart; Done tt
  | Call_SetActive a => winmm_doom95_set_application_active a
  | Call_Shutdown => winmm_doom95_shutdown
  end.
