(* ===== verification/MidiParse.v ===== *)
(** * The event buffers of midiStreamOut (midi_stream_append_buffer of winmm_doom95.c)

    A stream of events with its encoding in guest memory, and the events that the
    parser queues for it. *)
From S2P Require Import Prelude Bytes CStr HandleTable MidiStream.

(** ** Equivalence of programs

    The same accesses with the same continuations. *)
Fixpoint peq {R} (p q : prog R) : Prop :=
  match p, q with
  | Done a, Done b => a = b
  | Act c k, Act d l => c = d /\ forall z, peq (k z) (l z)
  | Crash, Crash => True
  | _, _ => False
  end.

#[export] Instance peq_equiv {R} : Equivalence (@peq R).
Proof.
  split.
  - intros p. induction p; simpl; auto.
  - intros p. induction p as [|c k IH|]; intros [] ; simpl; naive_solver.
  - intros p. induction p as [|c k IH|]; intros [] [] ; simpl; naive_solver.
Qed.

Lemma peq_refl {R} (p : prog R) : peq p p.
Proof. reflexivity. Qed.

#[export] Instance bind_peq {R S} :
  Proper (pointwise_relation R (@peq S) ==> peq ==> peq) (@mbind prog _ R S).
Proof.
  intros f g Hfg p. induction p as [a|c k IH|]; intros [] E; simpl in *; try done.
  - subst. apply Hfg.
  - destruct E as [-> E]. split; [done|]. intros z. by apply IH.
Qed.

Lemma bind_peq_r {R S} (p : prog R) (f g : R -> prog S) :
  (forall r, peq (f r) (g r)) -> peq (p ≫= f) (p ≫= g).
Proof. intros E. by apply bind_peq. Qed.

(** ** Streams *)

(** [B_skip word]: an event that makes no sound and has no data of its own. *)
Inductive mevt_body := B_short (msg : Z) | B_tempo (t : Z) | B_sysex (data : bytes) | B_skip (word : Z).
Record mevt := mkMevt { me_delta : Z; me_stream : Z; me_body : mevt_body }.

Definition mevt_word (b : mevt_body) : Z :=
  match b with
  | B_short m => m | B_tempo t => Z.lor (Z.shiftl 1 24) t | B_sysex d => Z.lor MEVT_F_LONG_WINE (blen d) | B_skip w => w
  end.

(** Data is padded to whole 32-bit words. *)
Definition padded (d : bytes) : bytes := d ++ replicate (Z.to_nat (- blen d mod 4)) 0.
Definition mevt_data (b : mevt_body) : bytes := match b with B_sysex d => padded d | _ => [] end.

Definition encode (e : mevt) : bytes :=
  le_split 4 (me_delta e) ++ le_split 4 (me_stream e) ++ le_split 4 (mevt_word (me_body e)) ++ mevt_data (me_body e).
Definition encode_all (l : list mevt) : bytes := concat (encode <$> l).

Definition skippable (w : Z) : bool :=
  negb (Z.testbit w 31)
  && (Z.testbit w 30 || negb (MEVT_EVENTTYPE_WINE w =? MEVT_SHORTMSG_WINE) && negb (MEVT_EVENTTYPE_WINE w =? MEVT_TEMPO_WINE)).

Definition mevt_wf (e : mevt) : Prop :=
  in_u 32 (me_delta e) /\
  match me_body e with
  | B_short m => in_u 24 m | B_tempo t => in_u 24 t | B_sysex d => blen d < 2 ^ 24
  | B_skip w => in_u 32 w /\ skippable w = true
  end.

(** What an event asks the synthesizer for, apart from its time. *)
Definition mevt_event (delta : Z) (b : mevt_body) : option midi_event_t :=
  match b with
  | B_short m => Some (mkEvent 0 delta MIDI_EVENT_SHORT m 0 [])
  | B_tempo t => Some (mkEvent 0 delta MIDI_EVENT_TEMPO 0 (if t =? 0 then 500000 else t) [])
  | B_sysex d => Some (mkEvent 0 delta MIDI_EVENT_SYSEX 0 0 d)
  | B_skip _ => None
  end.

(** The events of a stream with their tick since its beginning, modulo 2^32. *)
Fixpoint timeline (t : Z) (l : list mevt) : list (Z * midi_event_t) :=
  match l with
  | [] => []
  | e :: l =>
      let t := u32 (t + me_delta e) in
      match mevt_event 0 (me_body e) with Some x => (t, x) :: timeline t l | None => timeline t l end
  end.

(** The same of a queue. *)
Definition untimed (e : midi_event_t) : midi_event_t := mkEvent 0 0 (ev_type e) (ev_short_msg e) (ev_tempo e) (ev_sysex e).
Fixpoint queue_timeline (t : Z) (l : list midi_event_t) : list (Z * midi_event_t) :=
  match l with
  | [] => []
  | e :: l => let t := u32 (t + ev_delta_ticks e) in (t, untimed e) :: queue_timeline t l
  end.

(** Queue a list of events, until memory runs out. *)
Definition queue_event (e : midi_event_t) : prog Z :=
  match ev_type e with
  | MIDI_EVENT_SHORT => midi_queue_short_message (ev_delta_ticks e) (ev_short_msg e)
  | MIDI_EVENT_TEMPO => midi_queue_tempo (ev_delta_ticks e) (ev_tempo e)
  | MIDI_EVENT_SYSEX => midi_queue_sysex (ev_delta_ticks e) (ev_sysex e)
  end.
Fixpoint queue_events (l : list midi_event_t) : prog Z :=
  match l with
  | [] => Done 1
  | e :: l => queued ← queue_event e; if queued =? 0 then Done 0 else queue_events l
  end.

(** ** One event *)

Lemma blen_padded d : blen (padded d) = blen d + - blen d mod 4.
Proof. unfold padded. rewrite blen_app. unfold blen at 2. rewrite length_replicate. width_lia. Qed.

Lemma blen_nonneg b : 0 <= blen b.
Proof. unfold blen. lia. Qed.

(** The chunk length that the code computes. *)
Lemma chunk_len_padded d :
  blen d < 2 ^ 24 -> Z.land (u32 (blen d + 3)) (u32 (Z.lnot 3)) = blen (padded d).
Proof.
  intros H. pose proof (blen_nonneg d). rewrite blen_padded.
  rewrite (wrap_small 32 (blen d + 3)) by lia.
  change (u32 (Z.lnot 3)) with (Z.ldiff (Z.ones 32) (Z.ones 2)).
  rewrite Z.ldiff_land, Z.land_assoc, Z.land_ones, Z.mod_small, <- Z.ldiff_land, Z.ldiff_ones_r by lia.
  rewrite Z.shiftl_mul_pow2, Z.shiftr_div_pow2 by lia. change (2 ^ 2) with 4. width_lia.
Qed.

Lemma load_app n pre v post :
  load n (blen pre) (pre ++ le_split n v ++ post) = Ret (wrap (8 * Z.of_nat n) v).
Proof.
  unfold load, load_bytes. rewrite access_true; cycle 1.
  { apply in_range_spec. rewrite !blen_app, blen_le_split. pose proof (blen_nonneg pre). pose proof (blen_nonneg post). lia. }
  simpl. unfold slice, blen. rewrite !Nat2Z.id, drop_app_length, take_app_length' by (by rewrite length_le_split).
  by rewrite le_combine_split.
Qed.

Lemma load_bytes_app pre d post :
  load_bytes (blen pre) (blen d) (pre ++ d ++ post) = Ret d.
Proof.
  unfold load_bytes. rewrite access_true; cycle 1.
  { apply in_range_spec. rewrite !blen_app. pose proof (blen_nonneg pre). pose proof (blen_nonneg post).
    pose proof (blen_nonneg d). lia. }
  simpl. unfold slice, blen. by rewrite !Nat2Z.id, drop_app_length, take_app_length.
Qed.

(** The bit tests of the event word. *)
Lemma land_flag w n : 0 <= n -> negb (Z.land w (2 ^ n) =? 0) = Z.testbit w n.
Proof.
  intros Hn. destruct (Z.testbit w n) eqn:E.
  - apply negb_true_iff, Z.eqb_neq. intros H0. apply (f_equal (fun z => Z.testbit z n)) in H0.
    rewrite Z.land_spec, E, Z.pow2_bits_true, Z.bits_0 in H0 by lia. done.
  - apply negb_false_iff, Z.eqb_eq. apply Z.bits_inj'. intros m Hm. rewrite Z.land_spec, Z.bits_0, Z.pow2_bits_eqb by lia.
    destruct (Z.eqb_spec n m); [subst; by rewrite E | apply andb_false_r].
Qed.

Lemma testbit_high w n k : in_u n w -> n <= k -> 0 <= n -> Z.testbit w k = false.
Proof.
  intros Hw Hk Hn. destruct (Z.eq_dec w 0) as [->|]; [apply Z.bits_0|].
  apply Z.bits_above_log2; [unfold in_u in Hw; lia|]. apply Z.log2_lt_pow2; [unfold in_u in Hw; lia|].
  unfold in_u in Hw. eapply Z.lt_le_trans; [apply Hw | apply Z.pow_le_mono_r; lia].
Qed.

Lemma eventtype_of f p : in_u 24 p -> in_u 8 f -> MEVT_EVENTTYPE_WINE (Z.lor (Z.shiftl f 24) p) = f.
Proof.
  intros Hp Hf. unfold MEVT_EVENTTYPE_WINE. rewrite Z.shiftr_lor, Z.shiftr_shiftl_l by lia.
  rewrite (Z.shiftr_div_pow2 p), Z.div_small by (unfold in_u in Hp; lia). rewrite Z.lor_0_r. rewrite Z.sub_diag, Z.shiftl_0_r.
  change 0xFF with (Z.ones 8). rewrite Z.land_ones, Z.mod_small by (unfold in_u in Hf; lia). done.
Qed.

Lemma eventparm_of f p : in_u 24 p -> 0 <= f -> MEVT_EVENTPARM_WINE (Z.lor (Z.shiftl f 24) p) = p.
Proof.
  intros Hp Hf. unfold MEVT_EVENTPARM_WINE. change 0x00FFFFFF with (Z.ones 24). rewrite Z.land_lor_distr_l.
  rewrite !Z.land_ones, Z.shiftl_mul_pow2, Z.mod_mul, Z.mod_small by (unfold in_u in Hp; lia). done.
Qed.

Lemma word_flag f p n :
  in_u 24 p -> 24 <= n -> Z.testbit (Z.lor (Z.shiftl f 24) p) n = Z.testbit f (n - 24).
Proof. intros Hp Hn. rewrite Z.lor_spec, Z.shiftl_spec, (testbit_high p 24 n) by (auto; lia). apply orb_false_r. Qed.

Lemma word_range f p : in_u 24 p -> in_u 8 f -> in_u 32 (Z.lor (Z.shiftl f 24) p).
Proof.
  intros Hp Hf. unfold in_u in *. split; [apply Z.lor_nonneg; rewrite Z.shiftl_nonneg; lia|].
  rewrite Z.shiftl_mul_pow2 by lia. destruct (Z.eq_dec (Z.lor (f * 2 ^ 24) p) 0) as [->|N]; [lia|].
  apply Z.log2_lt_pow2; [assert (0 <= Z.lor (f * 2 ^ 24) p) by (apply Z.lor_nonneg; lia); lia|].
  rewrite Z.log2_lor by lia. apply Z.max_lub_lt.
  - destruct (Z.eq_dec f 0) as [->|]; [simpl; lia|]. apply Z.log2_lt_pow2; lia.
  - destruct (Z.eq_dec p 0) as [->|]; [simpl; lia|]. apply Z.log2_lt_pow2; lia.
Qed.

(** ** The loop *)

Definition tag (b : mevt_body) : Z := match b with B_short _ => 0 | B_tempo _ => 1 | B_sysex _ => 0x80 | B_skip _ => 2 end.
Definition parm (b : mevt_body) : Z :=
  match b with B_short m => m | B_tempo t => t | B_sysex d => blen d | B_skip _ => 0 end.

Lemma mevt_word_shape e :
  mevt_wf e -> (forall w, me_body e <> B_skip w) ->
  mevt_word (me_body e) = Z.lor (Z.shiftl (tag (me_body e)) 24) (parm (me_body e))
  /\ in_u 24 (parm (me_body e)) /\ in_u 8 (tag (me_body e)).
Proof.
  intros [_ Hb] Hns. destruct (me_body e) as [m|t|d|w]; simpl in *; unfold in_u in *; try (repeat split; lia).
  - pose proof (blen_nonneg d). repeat split; lia.
  - by destruct (Hns w).
Qed.

Lemma mevt_word_range e : mevt_wf e -> in_u 32 (mevt_word (me_body e)).
Proof.
  intros Hwf. destruct (me_body e) as [m|t|d|w] eqn:B.
  4: { destruct Hwf as [_ Hb]. rewrite B in Hb. apply Hb. }
  all: destruct (mevt_word_shape e Hwf) as (E & Hp & Ht); [by rewrite B|]; rewrite B in *; rewrite E; by apply word_range.
Qed.

(** What the loop loads at the beginning of an event. *)
Lemma loads_of_event pre e post :
  mevt_wf e ->
  load 4 (blen pre) (pre ++ encode e ++ post) = Ret (me_delta e)
  /\ load 4 (blen pre + 8) (pre ++ encode e ++ post) = Ret (mevt_word (me_body e)).
Proof.
  intros Hwf. pose proof (mevt_word_range e Hwf) as Hw. unfold encode. rewrite <- !app_assoc. split.
  - rewrite load_app. f_equal. apply wrap_small. apply Hwf.
  - rewrite (app_assoc (le_split 4 _)), (app_assoc pre).
    replace (blen pre + 8) with (blen (pre ++ le_split 4 (me_delta e) ++ le_split 4 (me_stream e)))
      by (rewrite !blen_app, !blen_le_split; lia).
    rewrite load_app. f_equal. by apply wrap_small.
Qed.

Lemma blen_encode e : blen (encode e) = 12 + blen (mevt_data (me_body e)).
Proof. unfold encode. rewrite !blen_app, !blen_le_split. lia. Qed.

(** The event that follows [pending] ticks after the last one, and what the loop
    does after it. *)
Definition after (pending : Z) (e : mevt) : Z :=
  match me_body e with B_skip _ => u32 (pending + me_delta e) | _ => 0 end.

Lemma ticks_assoc t p d : u32 (t + u32 (p + d)) = u32 (u32 (t + p) + d).
Proof. rewrite wrap_add_r, wrap_add_l. f_equal. lia. Qed.

Lemma queue_tempo_default d t : midi_queue_tempo d (if t =? 0 then 500000 else t) = midi_queue_tempo d t.
Proof. unfold midi_queue_tempo. destruct (Z.eqb_spec t 0); [done|]. by rewrite (proj2 (Z.eqb_neq t 0)). Qed.

Lemma sysex_loaded pre e post d :
  me_body e = B_sysex d -> load_bytes (blen pre + 12) (blen d) (pre ++ encode e ++ post) = Ret d.
Proof.
  intros B. unfold encode. rewrite B. simpl mevt_data. unfold padded.
  set (a := le_split 4 (me_delta e)). set (b := le_split 4 (me_stream e)). set (c := le_split 4 (mevt_word (B_sysex d))).
  replace (pre ++ (a ++ b ++ c ++ d ++ replicate (Z.to_nat (- blen d mod 4)) 0) ++ post)
    with ((pre ++ a ++ b ++ c) ++ d ++ (replicate (Z.to_nat (- blen d mod 4)) 0 ++ post)) by (by rewrite <- !app_assoc).
  replace (blen pre + 12) with (blen (pre ++ a ++ b ++ c)) by (unfold a, b, c; rewrite !blen_app, !blen_le_split; lia).
  apply load_bytes_app.
Qed.

Lemma append_loop_event fuel pre e post remaining pending :
  mevt_wf e -> blen (encode e) <= remaining ->
  peq (append_loop (S fuel) (pre ++ encode e ++ post) (blen pre) remaining pending)
    (let rest := append_loop fuel (pre ++ encode e ++ post) (blen pre + blen (encode e)) (remaining - blen (encode e))
                   (after pending e) in
     match mevt_event (u32 (pending + me_delta e)) (me_body e) with
     | Some x => queued ← queue_event x; if queued =? 0 then Done 0 else rest
     | None => rest
     end).
Proof.
  intros Hwf Hrem. destruct (loads_of_event pre e post Hwf) as [L1 L2].
  pose proof (blen_nonneg (mevt_data (me_body e))). rewrite blen_encode in *.
  cbn [append_loop]. rewrite (proj2 (Z.leb_le 12 remaining)) by lia. cbn [negb]. rewrite L1, L2. cbn [guest mbind prog_bind prog_bind_def].
  unfold after. change MEVT_F_CALLBACK_WINE with (2 ^ 30). change MEVT_F_LONG_WINE with (2 ^ 31). rewrite !land_flag by lia.
  destruct (me_body e) as [m|t|d|w] eqn:B.
  4: { destruct Hwf as [_ Hb]. rewrite B in Hb. destruct Hb as [Hw Hs]. unfold skippable in Hs. simpl mevt_word. simpl mevt_event.
       apply andb_true_iff in Hs as [H31 Hs]. apply negb_true_iff in H31. rewrite H31.
       replace (blen pre + (12 + blen (mevt_data (B_skip w)))) with (blen pre + 12) by (unfold blen; simpl; lia).
       replace (remaining - (12 + blen (mevt_data (B_skip w)))) with (remaining - 12) by (unfold blen; simpl; lia).
       destruct (Z.testbit w 30); [apply peq_refl|]. rewrite orb_false_l in Hs. apply andb_true_iff in Hs as [S1 S2].
       apply negb_true_iff in S1, S2. rewrite S1, S2. apply peq_refl. }
  all: destruct (mevt_word_shape e Hwf) as (E & Hp & Ht); [by rewrite B|]; rewrite B in *; rewrite E.
  all: rewrite !word_flag, !eventtype_of, !eventparm_of by (auto; simpl; lia).
  all: cbn [tag parm mevt_event mevt_data].
  - change (blen []) with 0. rewrite !Z.add_0_r. apply peq_refl.
  - change (blen []) with 0. rewrite !Z.add_0_r. unfold queue_event. cbn [ev_type ev_delta_ticks ev_tempo].
    rewrite queue_tempo_default. apply peq_refl.
  - change (Z.testbit 128 (30 - 24)) with false. change (Z.testbit 128 (31 - 24)) with true. cbv beta iota.
    destruct Hwf as [_ Hb]. rewrite B in Hb. cbn [mevt_data] in *. rewrite chunk_len_padded by done.
    rewrite (proj2 (Z.ltb_ge _ _)) by lia. change (128 =? MEVT_LONGMSG_WINE) with true. cbv beta iota.
    rewrite sysex_loaded by done. rewrite !Z.sub_add_distr, !Z.add_assoc. apply peq_refl.
Qed.

(** The whole buffer, with [t] the tick of the last event queued before it. *)
Lemma append_loop_all evs : Forall mevt_wf evs -> forall fuel pre pending t,
  (length evs < fuel)%nat -> in_u 32 t ->
  exists l, peq (append_loop fuel (pre ++ encode_all evs) (blen pre) (blen (encode_all evs)) pending) (queue_events l)
    /\ queue_timeline t l = timeline (u32 (t + pending)) evs.
Proof.
  induction 1 as [|e evs He Hevs IH]; intros fuel pre pending t Hf Ht; (destruct fuel as [|fuel]; [simpl in Hf; lia|]).
  { by exists []. }
  assert (Hn : encode_all (e :: evs) = encode e ++ encode_all evs) by done. rewrite Hn.
  pose proof (append_loop_event fuel pre e (encode_all evs) (blen (encode e ++ encode_all evs)) pending He) as Hstep.
  rewrite (blen_app (encode e)) in Hstep. specialize (Hstep ltac:(pose proof (blen_nonneg (encode_all evs)); lia)).
  rewrite Z.add_simpl_l, <- (blen_app pre), app_assoc in Hstep. rewrite (blen_app (encode e)), app_assoc.
  set (t' := match mevt_event 0 (me_body e) with Some _ => u32 (t + u32 (pending + me_delta e)) | None => t end).
  assert (Ht' : in_u 32 t') by (unfold t'; case_goal; [apply (wrap_range 32); lia | done]).
  destruct (IH fuel (pre ++ encode e) (after pending e) t' ltac:(simpl in Hf; lia) Ht') as (l & Hl & Htl).
  unfold after, t' in *. cbv zeta in Hstep. cbn [timeline].
  destruct (me_body e) as [m|tt|d|w]; cbn [mevt_event] in *.
  4: { exists l. split; [by rewrite Hstep | by rewrite Htl, ticks_assoc]. }
  all: rewrite Z.add_0_r, wrap_wrap in Htl.
  all: match type of Hstep with peq _ (queue_event ?x ≫= _) => exists (x :: l) end.
  all: split; [rewrite Hstep; apply bind_peq_r; intros r; by destruct (r =? 0) | ].
  all: cbn [queue_timeline ev_delta_ticks]; rewrite Htl; rewrite !ticks_assoc; reflexivity.
Qed.

(** A stream in guest memory, as the guest passes it to midiStreamOut: the length is
    in dwBytesRecorded, or in dwBufferLength when that is 0. *)
Definition stream_header (evs : list mevt) (recorded : bool) (flags : Z) : MIDIHDR_WINE :=
  mkMidiHdr (Some (encode_all evs)) (blen (encode_all evs)) (if recorded then blen (encode_all evs) else 0) flags.

Lemma length_encode_all evs : (length evs <= length (encode_all evs))%nat.
Proof.
  induction evs as [|e evs IH]; [simpl; lia|]. change (encode_all (e :: evs)) with (encode e ++ encode_all evs).
  rewrite length_app. pose proof (blen_encode e). pose proof (blen_nonneg (mevt_data (me_body e))). unfold blen in *. simpl. lia.
Qed.

(** C27: midi_stream_append_buffer queues the events of a buffer of short messages, tempo
    changes, system-exclusive messages and other events without data one by one, and
    each keeps its place in the stream: the tick of an event in the queue, the sum of
    the deltas up to it, is the sum of the deltas of all events of the buffer up to it,
    those that are skipped included.  (Long events of another kind, and long events with
    the callback flag, are not of this form: they lose time, as the examples show.) *)
Theorem midi_buffer_parsed evs recorded flags :
  Forall mevt_wf evs -> blen (encode_all evs) < 2 ^ 32 ->
  exists l, peq (midi_stream_append_buffer (stream_header evs recorded flags)) (queue_events l)
    /\ queue_timeline 0 l = timeline 0 evs.
Proof.
  intros Hwf Hlen. pose proof (blen_nonneg (encode_all evs)). pose proof (length_encode_all evs).
  unfold midi_stream_append_buffer, stream_header. cbn [lpData dwBytesRecorded dwBufferLength].
  replace (if (if recorded then blen (encode_all evs) else 0) =? 0 then blen (encode_all evs)
           else if recorded then blen (encode_all evs) else 0) with (blen (encode_all evs))
    by (destruct recorded; simpl; [case_goal; lia | done]).
  apply (append_loop_all evs Hwf _ [] 0 0); [unfold blen; lia | by unfold in_u].
Qed.

Definition sample_stream : list mevt :=
  [mkMevt 10 0 (B_short 0x7F3C90); mkMevt 5 0 (B_skip 0x02000000); mkMevt 7 0 (B_sysex [0xF0; 1; 2; 3; 0xF7]);
   mkMevt 1 0 (B_skip 0x40000000); mkMevt 2 0 (B_tempo 600000); mkMevt 3 0 (B_short 0x003C90)].

Lemma midi_buffer_parsed_witness :
  exists l, peq (midi_stream_append_buffer (stream_header sample_stream true 2)) (queue_events l)
    /\ queue_timeline 0 l = timeline 0 sample_stream.
Proof.
  apply (midi_buffer_parsed sample_stream true 2).
  - unfold sample_stream, mevt_wf, in_u, blen. repeat constructor; simpl; lia.
  - vm_compute. done.
Defined.

(** The ticks of the sample: the skipped events count. *)
Example sample_timeline : fst <$> timeline 0 sample_stream = [10; 22; 25; 28].
Proof. reflexivity. Qed.

(** ** Streams that the parser does not keep in time *)

Definition raw_event (delta word : Z) (data : bytes) : bytes :=
  le_split 4 delta ++ le_split 4 0 ++ le_split 4 word ++ data.
Definition raw_header (b : bytes) : MIDIHDR_WINE := mkMidiHdr (Some b) (blen b) 0 0.
Definition note (delta : Z) : midi_event_t := mkEvent 0 delta MIDI_EVENT_SHORT 0x7F3C90 0 [].

(** A MEVT_COMMENT event, which has the long flag: its 100 ticks are dropped, and the
    note after it is played 100 ticks early. *)
Example comment_delta_lost :
  midi_stream_append_buffer (raw_header (raw_event 100 0x82000004 [65; 66; 67; 0] ++ raw_event 5 0x7F3C90 []))
  = queue_events [note 5].
Proof. vm_compute. reflexivity. Qed.

(** A long event with the callback flag: its data is taken for the next event, here a
    note that the stream does not contain. *)
Example callback_data_parsed :
  midi_stream_append_buffer (raw_header (raw_event 0 0xC000000C (raw_event 7 0x7F3C90 [])))
  = queue_events [note 7].
Proof. vm_compute. reflexivity. Qed.

(** The ticks of events skipped at the end of a buffer do not reach the next buffer:
    the stream [nop; note] in one buffer and in two. *)
Example delta_lost_between_buffers :
  let nop := raw_event 100 0x02000000 [] in let n := raw_event 5 0x7F3C90 [] in
  midi_stream_append_buffer (raw_header (nop ++ n)) = queue_events [note 105]
  /\ midi_stream_append_buffer (raw_header nop) = queue_events []
  /\ midi_stream_append_buffer (raw_header n) = queue_events [note 5].
Proof. vm_compute. done. Qed.

(** ** Bounds

    Whatever its bytes, a buffer that is as long as its header says is parsed within
    its bounds, by a loop that ends, and what is queued is well formed. *)
Definition event_wf (e : midi_event_t) : Prop :=
  ev_next e = 0 /\ in_u 32 (ev_delta_ticks e) /\
  match ev_type e with
  | MIDI_EVENT_SHORT => in_u 24 (ev_short_msg e)
  | MIDI_EVENT_TEMPO => 0 < ev_tempo e < 2 ^ 24
  | MIDI_EVENT_SYSEX => wf_bytes (ev_sysex e) /\ blen (ev_sysex e) < 2 ^ 24
  end.

Definition hdr_wf (h : MIDIHDR_WINE) : Prop :=
  match lpData h with
  | None => True
  | Some data =>
      wf_bytes data /\ in_u 32 (dwBufferLength h) /\ in_u 32 (dwBytesRecorded h)
      /\ dwBytesRecorded h <= blen data /\ (dwBytesRecorded h = 0 -> dwBufferLength h <= blen data)
  end.

Lemma chunk_len_bound p : in_u 24 p -> p <= Z.land (u32 (p + 3)) (u32 (Z.lnot 3)).
Proof.
  intros Hp. unfold in_u in Hp. pose proof (chunk_len_padded (replicate (Z.to_nat p) 0)) as E.
  unfold blen in E at 1 2. rewrite length_replicate, Z2Nat.id in E by lia.
  specialize (E ltac:(lia)). rewrite E, blen_padded. unfold blen. rewrite length_replicate. width_lia.
Qed.

Lemma eventparm_range w : in_u 24 (MEVT_EVENTPARM_WINE w).
Proof. unfold MEVT_EVENTPARM_WINE. change 0x00FFFFFF with (Z.ones 24). rewrite Z.land_ones by lia. apply (wrap_range 24). lia. Qed.

Lemma queue_cons e l rest p :
  peq p (queued ← queue_event e; if queued =? 0 then Done 0 else rest) -> peq rest (queue_events l) ->
  peq p (queue_events (e :: l)).
Proof. intros -> E. simpl. apply bind_peq_r. intros r. by destruct (r =? 0). Qed.

Lemma append_loop_queues fuel data ptr remaining pending :
  wf_bytes data -> 0 <= ptr -> 0 <= remaining -> ptr + remaining <= blen data -> (Z.to_nat remaining < fuel)%nat ->
  exists l, Forall event_wf l /\ peq (append_loop fuel data ptr remaining pending) (queue_events l).
Proof.
  intros Hd. revert ptr remaining pending. induction fuel as [|fuel IH]; intros ptr remaining pending Hp Hr Hl Hf; [lia|].
  cbn [append_loop]. destruct (Z.leb_spec 12 remaining) as [H12|]; [|by exists []]. cbn [negb].
  rewrite !load_ok by (apply in_range_spec; lia). cbn [guest mbind prog_bind prog_bind_def].
  set (delta := le_combine (slice ptr _ _)). set (w := le_combine (slice (ptr + 8) _ _)).
  pose proof (eventparm_range w) as Hparm. assert (Hpd : in_u 32 (u32 (pending + delta))) by (apply (wrap_range 32); lia).
  assert (IHs : forall pd, exists l, Forall event_wf l /\ peq (append_loop fuel data (ptr + 12) (remaining - 12) pd) (queue_events l))
    by (intros pd; apply IH; lia).
  destruct (negb (Z.land w MEVT_F_CALLBACK_WINE =? 0)); [apply IHs|].
  destruct (negb (Z.land w MEVT_F_LONG_WINE =? 0)).
  - pose proof (chunk_len_bound _ Hparm) as Hc. set (chunk := Z.land _ (u32 (Z.lnot 3))) in *.
    destruct (Z.ltb_spec (remaining - 12) chunk); [by exists []|]. unfold in_u in Hparm.
    destruct (IH (ptr + 12 + chunk) (remaining - 12 - chunk) 0 ltac:(lia) ltac:(lia) ltac:(lia) ltac:(lia)) as (l & Hwf & E).
    destruct (MEVT_EVENTTYPE_WINE w =? MEVT_LONGMSG_WINE); [|by exists l].
    rewrite load_bytes_ok by (apply in_range_spec; lia). cbn [guest mbind prog_bind prog_bind_def].
    set (d := slice _ _ _). exists (mkEvent 0 (u32 (pending + delta)) MIDI_EVENT_SYSEX 0 0 d :: l). split.
    + constructor; [|done]. split; [done|]. split; [done|]. split; [by apply wf_slice|].
      cbn [ev_sysex]. unfold d, blen. rewrite length_slice by (apply in_range_spec; lia). lia.
    + by eapply queue_cons; [apply peq_refl|].
  - destruct (IHs 0) as (l & Hwf & E). destruct (MEVT_EVENTTYPE_WINE w =? MEVT_SHORTMSG_WINE).
    + exists (mkEvent 0 (u32 (pending + delta)) MIDI_EVENT_SHORT (MEVT_EVENTPARM_WINE w) 0 [] :: l).
      split; [by constructor|]. by eapply queue_cons; [apply peq_refl|].
    + destruct (MEVT_EVENTTYPE_WINE w =? MEVT_TEMPO_WINE); [|apply IHs].
      set (t := MEVT_EVENTPARM_WINE w) in *.
      exists (mkEvent 0 (u32 (pending + delta)) MIDI_EVENT_TEMPO 0 (if t =? 0 then 500000 else t) [] :: l). split.
      * constructor; [|done]. split; [done|]. split; [done|]. simpl. unfold in_u in Hparm. case_goal; lia.
      * eapply queue_cons; [|done]. unfold queue_event. cbn [ev_type ev_delta_ticks ev_tempo].
        rewrite queue_tempo_default. apply peq_refl.
Qed.

Lemma append_buffer_queues h :
  hdr_wf h -> peq (midi_stream_append_buffer h) (Done 0)
              \/ exists l, Forall event_wf l /\ peq (midi_stream_append_buffer h) (queue_events l).
Proof.
  unfold hdr_wf, midi_stream_append_buffer. destruct (lpData h) as [data|]; [|by left]. intros (Hd & Hb & Hr & H1 & H2).
  right. unfold in_u in *. apply append_loop_queues; auto; try case_goal; lia.
Qed.
