(* ===== verification/MidiConc.v ===== *)
(** * The MIDI worker thread (midi_stream_worker_thread of winmm_doom95.c)

    The worker as a state machine with one state per access to the shared stream, the
    accesses of the guest thread (the programs of MidiStream), and their interleaving.
    The guest has one thread: CreateThread does not start any. *)
From S2P Require Import Prelude Bytes HandleTable MidiStream MidiParse.

(** The stream, the heap of events, FluidSynth and the handle table.  The two
    histories record the events put in the queue and those handed to the
    synthesizer; no thread reads them. *)
Record world := mkWorld {
  w_s : midi_stream_state_t; w_heap : gmap Z midi_event_t; w_fluid : fluid; w_handles : table;
  w_queued : list midi_event_t; w_performed : list midi_event_t }.

Definition with_s (s : midi_stream_state_t) (w : world) : world :=
  mkWorld s (w_heap w) (w_fluid w) (w_handles w) (w_queued w) (w_performed w).
Definition with_heap (h : gmap Z midi_event_t) (w : world) : world :=
  mkWorld (w_s w) h (w_fluid w) (w_handles w) (w_queued w) (w_performed w).
Definition with_fluid (f : fluid) (w : world) : world :=
  mkWorld (w_s w) (w_heap w) f (w_handles w) (w_queued w) (w_performed w).
Definition with_handles (t : table) (w : world) : world :=
  mkWorld (w_s w) (w_heap w) (w_fluid w) t (w_queued w) (w_performed w).
Definition log_queued (e : midi_event_t) (w : world) : world :=
  mkWorld (w_s w) (w_heap w) (w_fluid w) (w_handles w) (w_queued w ++ [e]) (w_performed w).
Definition log_performed (e : midi_event_t) (w : world) : world :=
  mkWorld (w_s w) (w_heap w) (w_fluid w) (w_handles w) (w_queued w) (w_performed w ++ [e]).

(** An event without its link. *)
Definition payload (e : midi_event_t) : midi_event_t := ev_set_next 0 e.

Definition midi_event_free_local (e : Z) (w : world) : outcome world :=
  if e =? 0 then Ret w
  else _ ← deref (w_heap w !! e); Ret (with_heap (delete e (w_heap w)) w).

(** [ticks * tempo * 1000] in 64 bits. *)
Definition midi_ticks_to_ns (ticks tempo_us_per_qn time_div : Z) : Z :=
  if (ticks =? 0) || (tempo_us_per_qn =? 0) || (time_div =? 0) then 0
  else u64 (ticks * tempo_us_per_qn * 1000) / time_div.

(** The delay is exact as long as the product fits; a longer one wraps around. *)
Lemma midi_ticks_exact ticks tempo div :
  0 <= ticks -> 0 < tempo -> 0 < div -> ticks * tempo * 1000 < 2 ^ 64 -> midi_ticks_to_ns ticks tempo div = ticks * tempo * 1000 / div.
Proof.
  intros Ht Hp Hd Hb. unfold midi_ticks_to_ns. rewrite (proj2 (Z.eqb_neq tempo 0)), (proj2 (Z.eqb_neq div 0)) by lia.
  destruct (Z.eqb_spec ticks 0) as [->|]; [done|]. cbn [orb]. by rewrite wrap_small by nia.
Qed.
Example midi_ticks_wrap : midi_ticks_to_ns (2 ^ 31) 16777215 1 < 2 ^ 31 * 16777215 * 1000.
Proof. vm_compute. done. Qed.

(** ** The worker *)

(** Where the worker is; [e] is the event taken from the queue, [gen] the generation
    at that time, [rem] the nanoseconds left before it is due. *)
Inductive wpc :=
| W_none                                        (* no thread *)
| W_top | W_active | W_playing | W_ready | W_apply | W_lock | W_take
| W_unlock (e tempo div gen : Z)
| W_wait (e gen rem : Z) | W_wait_gen (e gen rem : Z) | W_wait_active (e gen rem : Z) | W_wait_playing (e gen rem : Z)
| W_sleep (e gen rem : Z)
| W_stopped (e gen : Z) | W_current (e gen : Z) | W_perform (e : Z) | W_free (e : Z)
| W_reset | W_close
| W_done.                                       (* returned, not joined *)

Section threads.
Context `{FluidSynth}.

(** Take the first event, under the lock. *)
Definition worker_take (w : world) : outcome (world * wpc) :=
  let s := w_s w in
  let next e := W_unlock e (tempo_us_per_qn s) (time_div s) (generation s) in
  if head s =? 0 then Ret (w, next 0)
  else
    ev ← deref (w_heap w !! head s);
    Ret (with_s (set_queue (ev_next ev) (if ev_next ev =? 0 then 0 else tail s) s) w, next (head s)).

(** The switch on the event's type. *)
Definition worker_perform (e : Z) (w : world) : outcome world :=
  ev ← deref (w_heap w !! e);
  let w := log_performed (payload ev) w in
  match ev_type ev with
  | MIDI_EVENT_SHORT =>
      f ← winmm_doom95_midi_backend_send_short (backend (w_s w)) (ev_short_msg ev) (w_fluid w); Ret (with_fluid f w)
  | MIDI_EVENT_TEMPO => Ret (with_s (set_field F_tempo (ev_tempo ev) (w_s w)) w)
  | MIDI_EVENT_SYSEX =>
      f ← winmm_doom95_midi_backend_send_sysex (backend (w_s w)) (ev_sysex ev) (w_fluid w); Ret (with_fluid f w)
  end.

(** One step of the worker; [None] while it spins on the lock or is still trying to
    open the synthesizer.  [choice] is what the environment decides: the nanoseconds
    that a sleep takes, or the number of attempts at opening the synthesizer.  The
    short sleeps between two polls do not show. *)
Definition worker_step (choice : Z) (pc : wpc) (w : world) : outcome (option (world * wpc)) :=
  let s := w_s w in
  let go pc := Ret (Some (w, pc)) in
  match pc with
  | W_none | W_done => Ret None
  | W_top => if negb (stop_worker s =? 0) then go W_reset else go W_active
  | W_active => if app_active s =? 0 then go W_top else go W_playing
  | W_playing => if playing s =? 0 then go W_top else go W_ready
  | W_ready =>
      if fb_ready (backend s) then go W_lock
      else
        r ← winmm_doom95_midi_backend_open (Z.to_nat choice) (backend s) (w_fluid w);
        match r with
        | None => Ret None
        | Some (ok, b, f) => Ret (Some (with_fluid f (with_s (set_backend b s) w), if ok =? 0 then W_top else W_apply))
        end
  | W_apply =>
      f ← winmm_doom95_midi_backend_apply_volume (backend s) (volume s) (w_fluid w); Ret (Some (with_fluid f w, W_lock))
  | W_lock => if negb (lock s =? 0) then Ret None else Ret (Some (with_s (set_lock 1 s) w, W_take))
  | W_take => r ← worker_take w; Ret (Some r)
  | W_unlock e tempo div gen =>
      let w := with_s (set_lock 0 s) w in
      if e =? 0 then Ret (Some (w, W_top))
      else ev ← deref (w_heap w !! e); Ret (Some (w, W_wait e gen (midi_ticks_to_ns (ev_delta_ticks ev) tempo div)))
  | W_wait e gen rem =>
      if negb (rem =? 0) && (stop_worker s =? 0) then go (W_wait_gen e gen rem) else go (W_stopped e gen)
  | W_wait_gen e gen rem => if negb (generation s =? gen) then go (W_stopped e gen) else go (W_wait_active e gen rem)
  | W_wait_active e gen rem => if app_active s =? 0 then go (W_wait e gen rem) else go (W_wait_playing e gen rem)
  | W_wait_playing e gen rem => if playing s =? 0 then go (W_wait e gen rem) else go (W_sleep e gen rem)
  | W_sleep e gen rem =>
      let elapsed := choice in
      go (W_wait e gen (if 0 <? elapsed then if rem <=? elapsed then 0 else rem - elapsed else rem))
  | W_stopped e gen =>
      if negb (stop_worker s =? 0) then w ← midi_event_free_local e w; Ret (Some (w, W_reset)) else go (W_current e gen)
  | W_current e gen =>
      if negb (generation s =? gen) then w ← midi_event_free_local e w; Ret (Some (w, W_top)) else go (W_perform e)
  | W_perform e => w ← worker_perform e w; Ret (Some (w, W_free e))
  | W_free e => w ← midi_event_free_local e w; Ret (Some (w, W_top))
  | W_reset => f ← winmm_doom95_midi_backend_reset (backend s) (w_fluid w); Ret (Some (with_fluid f w, W_close))
  | W_close =>
      '(b, f) ← winmm_doom95_midi_backend_close (backend s) (w_fluid w);
      Ret (Some (with_fluid f (with_s (set_backend b s) w), W_done))
  end.

(** ** The guest's accesses *)

(** The access is not possible yet, it answers, or it goes on with another access. *)
Inductive reply := Wait | Reply (w : world) (pc : wpc) (r : Z) | Again (w : world) (c : cmd).

(** [choice] is the address of a new event (0 when there is no memory), whether
    rb_host_malloc succeeds, or what pthread_create answers.  A second worker would
    be outside of this model. *)
Definition exec (c : cmd) (choice : Z) (w : world) (pc : wpc) : outcome reply :=
  let s := w_s w in
  match c with
  | CLoad f => Ret (Reply w pc (get_field f s))
  | CStore f v => Ret (Reply (with_s (set_field f v s) w) pc 0)
  | CBump => let g := u32 (generation s + 1) in Ret (Reply (with_s (set_field F_generation g s) w) pc g)
  | CNew ev =>
      if (choice =? 0) || bool_decide (is_Some (w_heap w !! choice)) then Ret (Reply w pc 0)
      else Ret (Reply (with_heap (<[choice := ev]> (w_heap w)) w) pc choice)
  | CSysex e data =>
      if choice =? 0 then Ret (Reply w pc 0)
      else ev ← deref (w_heap w !! e); Ret (Reply (with_heap (<[e := ev_set_sysex data ev]> (w_heap w)) w) pc 1)
  | CFree e => w ← midi_event_free_local e w; Ret (Reply w pc 0)
  | CLock => if negb (lock s =? 0) then Ret Wait else Ret (Reply (with_s (set_lock 1 s) w) pc 0)
  | CUnlock => Ret (Reply (with_s (set_lock 0 s) w) pc 0)
  | CPush e =>
      ev ← deref (w_heap w !! e);
      let h := <[e := payload ev]> (w_heap w) in
      if negb (tail s =? 0) then
        t ← deref (h !! tail s);
        Ret (Reply (log_queued (payload ev)
          (with_heap (<[tail s := ev_set_next e t]> h) (with_s (set_queue (head s) e s) w))) pc 0)
      else Ret (Reply (log_queued (payload ev) (with_heap h (with_s (set_queue e e s) w))) pc 0)
  | CTakeAll => Ret (Reply (with_s (set_queue 0 0 s) w) pc (head s))
  | CFreeAll e =>
      if e =? 0 then Ret (Reply w pc 0)
      else ev ← deref (w_heap w !! e); w ← midi_event_free_local e w; Ret (Again w (CFreeAll (ev_next ev)))
  | CSynth => Ret (Reply w pc (if backend_usable (backend s) then fb_synth (backend s) else 0))
  | CGain synth num => f ← synth_do synth (S_gain num) (w_fluid w); Ret (Reply (with_fluid f w) pc 0)
  | CSpawn =>
      if negb (choice =? 0) then Ret (Reply w pc choice)
      else match pc with W_none => Ret (Reply w W_top 0) | _ => Fault end
  | CJoin => match pc with W_done => Ret (Reply w W_none 0) | _ => Ret Wait end
  | CHandleAlloc => '(t, h) ← wine_handle_alloc HANDLE_TYPE_HMIDI_STREAM ONull (w_handles w); Ret (Reply (with_handles t w) pc h)
  | CHandleFree h => t ← wine_handle_free h (w_handles w); Ret (Reply (with_handles t w) pc 0)
  end.

(** ** Interleaving *)

Record config := mkConfig { c_w : world; c_pc : wpc; c_g : prog unit; c_calls : list call }.

(** Who moves, with the environment's choice. *)
Inductive move := MWorker (choice : Z) | MGuest (choice : Z) | MCall.

(** [None]: the thread cannot move. *)
Definition config_step (m : move) (c : config) : outcome (option config) :=
  match m with
  | MWorker choice =>
      r ← worker_step choice (c_pc c) (c_w c);
      Ret (match r with Some (w, pc) => Some (mkConfig w pc (c_g c) (c_calls c)) | None => None end)
  | MGuest choice =>
      match c_g c with
      | Act a k =>
          r ← exec a choice (c_w c) (c_pc c);
          Ret (match r with
               | Wait => None
               | Reply w pc z => Some (mkConfig w pc (k z) (c_calls c))
               | Again w a => Some (mkConfig w (c_pc c) (Act a k) (c_calls c))
               end)
      | Crash => Fault
      | Done _ => Ret None
      end
  | MCall =>
      Ret (match c_g c, c_calls c with
           | Done _, f :: fs => Some (mkConfig (c_w c) (c_pc c) (call_prog f) fs)
           | _, _ => None
           end)
  end.

Definition init_world : world :=
  mkWorld g_midi_stream ∅ (mkFluid ∅ ∅ ∅ []) wine_handle_manager_runtime_init [] [].
Definition init (calls : list call) : config := mkConfig init_world W_none (Done tt) calls.

Inductive reachable (calls : list call) : config -> Prop :=
| reach_init : reachable calls (init calls)
| reach_step c m c' : reachable calls c -> config_step m c = Ret (Some c') -> reachable calls c'.

(** A schedule, for concrete executions. *)
Fixpoint run_moves (ms : list move) (c : config) : outcome (option config) :=
  match ms with
  | [] => Ret (Some c)
  | m :: ms => r ← config_step m c; match r with Some c => run_moves ms c | None => Ret None end
  end.

(** Any schedule: a thread that cannot move lets its turn pass. *)
Fixpoint run_schedule (ms : list move) (c : config) : outcome config :=
  match ms with
  | [] => Ret c
  | m :: ms => r ← config_step m c; run_schedule ms (default c r)
  end.
End threads.
