(* ===== verification/MidiSafe.v ===== *)
(** * Invariants of the MIDI threads

    What each thread owns while it runs: the queue is a linked list of live events
    that only the thread with the lock changes, every other event belongs to exactly
    one thread, and FluidSynth's objects are those of the backend. *)
From S2P Require Import Prelude Bytes HandleTable MidiStream MidiParse MidiConc.

(** ** The linked queue *)

(** The nodes [l] are linked from [p], ending in NULL. *)
Fixpoint chain (h : gmap Z midi_event_t) (p : Z) (l : list Z) : Prop :=
  match l with
  | [] => p = 0
  | x :: l => p = x /\ exists ev, h !! x = Some ev /\ chain h (ev_next ev) l
  end.

(** The events behind a list of nodes. *)
Fixpoint contents (h : gmap Z midi_event_t) (l : list Z) : list midi_event_t :=
  match l with
  | [] => []
  | x :: l => match h !! x with Some e => payload e :: contents h l | None => contents h l end
  end.

Lemma chain_agree h h' p l : (forall x, x ∈ l -> h' !! x = h !! x) -> chain h p l -> chain h' p l.
Proof.
  revert p. induction l as [|x l IH]; intros p Ha; simpl; [done|]. intros [-> (ev & E & C)]. split; [done|].
  exists ev. rewrite Ha by set_solver. split; [done|]. apply IH; [|done]. intros y Hy. apply Ha. set_solver.
Qed.

Lemma contents_agree h h' l : (forall x, x ∈ l -> payload <$> h' !! x = payload <$> h !! x) -> contents h' l = contents h l.
Proof.
  intros Ha. induction l as [|x l IH]; [done|]. simpl. rewrite IH by set_solver.
  assert (Ex : payload <$> h' !! x = payload <$> h !! x) by (apply Ha; set_solver).
  destruct (h !! x), (h' !! x); simpl in Ex; congruence.
Qed.

Lemma contents_app h a b : contents h (a ++ b) = contents h a ++ contents h b.
Proof. induction a as [|x a IH]; simpl; [done|]. rewrite IH. by destruct (h !! x). Qed.

Lemma chain_nonempty h p l : chain h p l -> 0 ∉ l -> (p = 0 <-> l = []).
Proof. destruct l; simpl; [done|]. intros [-> _] Hz. split; [intros ->; set_solver | done]. Qed.

(** Hang a node [e] behind the last one. *)
Lemma chain_snoc h p l e ev t :
  NoDup (l ++ [e]) -> chain h p l -> h !! e = Some ev -> ev_next ev = 0 -> last l = Some t ->
  exists tv, h !! t = Some tv /\ chain (<[t := ev_set_next e tv]> h) p (l ++ [e]).
Proof.
  revert p. induction l as [|x l IH]; intros p Hnd C He Hn Hl; [done|]. destruct C as [-> (xv & Ex & C)].
  destruct l as [|y l].
  - simpl in Hl. injection Hl as <-. exists xv. split; [done|]. simpl. split; [done|].
    exists (ev_set_next e xv). rewrite lookup_insert_eq. split; [done|]. simpl. split; [done|].
    exists ev. rewrite lookup_insert_ne; [by rewrite Hn|]. intros ->. apply NoDup_cons in Hnd. set_solver.
  - rewrite last_cons_cons in Hl. apply NoDup_cons in Hnd as [Hx Hnd].
    destruct (IH (ev_next xv) Hnd C He Hn Hl) as (tv & Et & C'). exists tv. split; [done|].
    change ((x :: y :: l) ++ [e]) with (x :: ((y :: l) ++ [e])). split; [done|]. exists xv.
    rewrite lookup_insert_ne; [done|]. intros ->. apply Hx. apply last_Some_elem_of in Hl. set_solver.
Qed.

(** ** Ownership of the guest thread *)

Inductive gown :=
| O_none | O_locked                              (* nothing, with or without the lock *)
| O_new (e : Z) | O_new_locked (e : Z)           (* an event that is not in the queue yet *)
| O_chain (e : Z) | O_chain_locked (e : Z)       (* the list taken off the queue *)
| O_synth (p : Z).                               (* a synthesizer it has read from the backend *)

(** What the guest knows of the worker. *)
Inductive phase := P_any | P_on | P_off | P_ready | P_spawned | P_stop | P_joined.
Definition steady (p : phase) : bool := match p with P_any | P_on | P_off => true | _ => false end.

Definition state := (gown * phase)%type.

(** The accesses allowed in a state, and the state after one that answers [r].
    With [rs] false the accesses that discard events are not allowed. *)
Definition proto (rs : bool) (st : state) (c : cmd) (r : Z) : option state :=
  let '(o, ph) := st in
  match c, o with
  | CLoad F_worker_active, O_none => if steady ph then Some (O_none, if r =? 0 then P_off else P_on) else None
  | CLoad F_volume, _ => Some st
  | CStore F_stop_worker v, O_none =>
      match ph with
      | P_off => if v =? 0 then Some (O_none, P_ready) else None
      | P_on => if (v =? 1) && rs then Some (O_none, P_stop) else None
      | _ => None
      end
  | CStore F_worker_active v, O_none =>
      match ph with
      | P_spawned => if v =? 1 then Some (O_none, P_any) else None
      | P_joined => if v =? 0 then Some (O_none, P_any) else None
      | _ => None
      end
  | CStore F_generation _, _ => None
  | CStore _ _, O_none => Some st
  | CBump, O_none => if rs then Some st else None
  | CNew _, O_none => Some (if r =? 0 then O_none else O_new r, ph)
  | CSysex e _, O_new e' => if e =? e' then Some st else None
  | CFree e, O_new e' => if e =? e' then Some (O_none, ph) else None
  | CLock, O_none => Some (O_locked, ph)
  | CLock, O_new e => Some (O_new_locked e, ph)
  | CPush e, O_new_locked e' => if e =? e' then Some (O_locked, ph) else None
  | CUnlock, O_locked => Some (O_none, ph)
  | CUnlock, O_chain_locked e => Some (O_chain e, ph)
  | CTakeAll, O_locked => if rs then Some (O_chain_locked r, ph) else None
  | CFreeAll e, O_chain e' => if e =? e' then Some (O_none, ph) else None
  | CSynth, O_none => if steady ph then Some (if r =? 0 then O_none else O_synth r, ph) else None
  | CGain p _, O_synth p' => if p =? p' then Some (O_none, ph) else None
  | CSpawn, O_none => match ph with P_ready => Some (O_none, if r =? 0 then P_spawned else P_off) | _ => None end
  | CJoin, O_none => match ph with P_stop => Some (O_none, P_joined) | _ => None end
  | CHandleAlloc, O_none => Some st
  | CHandleFree h, O_none => if (0 <=? h) && (h <? 2 ^ 32) then Some st else None
  | _, _ => None
  end.

(** The program makes only allowed accesses, whatever they answer, and ends in [Q]. *)
Fixpoint gok {R} (rs : bool) (Q : R -> state -> Prop) (st : state) (p : prog R) : Prop :=
  match p with
  | Done r => Q r st
  | Act c k => forall r, match proto rs st c r with Some st' => gok rs Q st' (k r) | None => False end
  | Crash => False
  end.

Definition idle {R} (_ : R) (st : state) : Prop := fst st = O_none /\ steady (snd st) = true.

Lemma gok_bind {R S} rs (Q1 : R -> state -> Prop) (Q2 : S -> state -> Prop) st p f :
  gok rs Q1 st p -> (forall r st', Q1 r st' -> gok rs Q2 st' (f r)) -> gok rs Q2 st (p ≫= f).
Proof.
  intros Hp Hf. revert st Hp. induction p as [r|c k IH|]; intros st Hp; [by apply Hf | | done].
  intros z. specialize (Hp z). cbn [gok] in Hp. destruct (proto rs st c z); [by apply (IH z) | done].
Qed.

Lemma gok_mono {R} rs (Q1 Q2 : R -> state -> Prop) st p :
  gok rs Q1 st p -> (forall r st', Q1 r st' -> Q2 r st') -> gok rs Q2 st p.
Proof.
  intros Hp HQ. revert st Hp. induction p as [r|c k IH|]; intros st Hp; [by apply HQ | | done].
  intros z. specialize (Hp z). cbn [gok] in Hp. destruct (proto rs st c z); [by apply (IH z) | done].
Qed.

Lemma gok_peq {R} rs (Q : R -> state -> Prop) st p q : peq p q -> gok rs Q st q -> gok rs Q st p.
Proof.
  revert st q. induction p as [r|c k IH|]; intros st q E Hq; destruct q as [r'|c' k'|]; simpl in *; try done; [by subst|].
  destruct E as [-> E]. intros z. specialize (Hq z). destruct (proto rs st c' z); [exact (IH z _ _ (E z) Hq) | done].
Qed.

(** ** Every function of the guest follows the protocol *)

Definition stays {R} (ph : phase) (_ : R) (st : state) : Prop := st = (O_none, ph).

Ltac run_prog :=
  repeat first
    [ progress cbn [mbind prog_bind prog_bind_def act gok proto steady andb negb]
    | rewrite Z.eqb_refl
    | match goal with
      | H : (?a =? ?b) = ?c |- context [?a =? ?b] => rewrite H
      | |- forall _, _ => intros ?
      | |- context [if ?b then _ else _] => let E := fresh "E" in destruct b eqn:E
      end ].

Lemma queue_clear_ok ph : gok true (stays ph) (O_none, ph) midi_queue_clear_local.
Proof. unfold midi_queue_clear_local. run_prog. done. Qed.

Lemma start_worker_ok rs ph : steady ph = true -> gok rs idle (O_none, ph) midi_stream_start_worker_host_call.
Proof.
  intros Hs. unfold midi_stream_start_worker_host_call. run_prog; try done.
  all: rewrite ?E0, ?E1 in *; try done.
Qed.

Lemma stop_worker_ok ph : steady ph = true -> gok true idle (O_none, ph) midi_stream_stop_worker_host_call.
Proof. intros Hs. unfold midi_stream_stop_worker_host_call, midi_queue_clear_local. run_prog; done. Qed.

Lemma apply_volume_ok rs ph :
  steady ph = true -> gok rs (stays ph) (O_none, ph) midi_backend_apply_volume_host_call.
Proof. intros Hs. unfold midi_backend_apply_volume_host_call. run_prog; done. Qed.

Lemma reset_state_ok ph : gok true (stays ph) (O_none, ph) midi_stream_reset_state.
Proof. unfold midi_stream_reset_state, midi_queue_clear_local. run_prog; done. Qed.

Lemma shutdown_ok ph : steady ph = true -> gok true idle (O_none, ph) winmm_doom95_shutdown.
Proof.
  intros Hs. eapply gok_bind; [by apply stop_worker_ok|]. intros r [o ph'] [Ho Hp]. simpl in Ho, Hp. subst.
  eapply gok_mono; [apply reset_state_ok|]. by intros ? ? ->.
Qed.

Lemma queue_event_ok rs ph e : gok rs (stays ph) (O_none, ph) (queue_event e).
Proof.
  unfold queue_event. destruct (ev_type e).
  all: unfold midi_queue_short_message, midi_queue_tempo, midi_queue_sysex, midi_queue_push_event; run_prog; done.
Qed.

Lemma queue_events_ok rs ph l : gok rs (stays ph) (O_none, ph) (queue_events l).
Proof.
  induction l as [|e l IH]; [done|]. eapply gok_bind; [apply queue_event_ok|]. intros r ? ->. by destruct (r =? 0).
Qed.

Definition call_wf (f : call) : Prop := match f with Call_Out (Some h) => hdr_wf h | _ => True end.

(** The functions that do not discard events. *)
Definition keeps_events (f : call) : bool :=
  match f with Call_OutReset | Call_Open | Call_Close _ | Call_Shutdown => false | _ => true end.

Lemma append_ok rs ph h : hdr_wf h -> gok rs (stays ph) (O_none, ph) (midi_stream_append_buffer h).
Proof.
  intros Hh. destruct (append_buffer_queues h Hh) as [E | (l & _ & E)]; (eapply gok_peq; [exact E|]); [done|].
  apply queue_events_ok.
Qed.

Lemma call_ok rs f : call_wf f -> rs = true \/ keeps_events f = true -> gok rs idle (O_none, P_any) (call_prog f).
Proof.
  intros Hwf Hk. destruct f as [|v| |h|hdr| |p d| |a|]; simpl in Hk; try (destruct Hk as [-> | ?]; [|done]);
    unfold call_prog.
  - eapply gok_bind with (Q1 := stays P_any); [|by intros ? ? ->]. unfold midiOutReset, midi_queue_clear_local,
      midi_backend_apply_volume_host_call. run_prog; done.
  - unfold midiOutSetVolume, midi_backend_apply_volume_host_call. run_prog; done.
  - unfold midiStreamOpen. eapply gok_bind; [|by intros ? ? H; apply H].
    eapply gok_bind; [by apply shutdown_ok|]. intros ? [o ph] [Ho Hp]. simpl in Ho, Hp. subst o.
    eapply gok_bind; [apply reset_state_ok|]. intros ? ? ->. run_prog. done.
  - unfold midiStreamClose. eapply gok_bind; [|by intros ? ? H; apply H].
    eapply gok_bind; [by apply stop_worker_ok|]. intros ? [o ph] [Ho Hp]. simpl in Ho, Hp. subst o.
    eapply gok_bind; [apply reset_state_ok|]. intros ? ? ->. pose proof (wrap_range 32 h ltac:(lia)).
    destruct (u32 h =? 0); [done|]. run_prog; [done|]. lia.
  - destruct hdr as [hdr|]; [|done]. unfold midiStreamOut. eapply gok_bind; [|by intros ? ? H; apply H].
    eapply gok_bind; [apply append_ok; exact Hwf|]. by intros ? ? ->.
  - done.
  - unfold midiStreamProperty. destruct p as [[cb v]|]; [|done]. run_prog; done.
  - unfold midiStreamRestart. eapply gok_bind; [|by intros ? ? H; apply H].
    change (act (CLoad F_worker_active)) with (Act (CLoad F_worker_active) (fun z => Done z)).
    intros active. cbn [proto steady]. destruct (active =? 0) eqn:E; cbn [mbind prog_bind prog_bind_def]; rewrite E.
    + eapply gok_bind; [by apply start_worker_ok|]. intros r [o ph] [Ho Hp]. simpl in Ho, Hp. subst o.
      destruct (r =? 0); [done|]. run_prog. done.
    + run_prog; done.
  - unfold winmm_doom95_set_application_active. run_prog; done.
  - by apply shutdown_ok.
Qed.

(** ** The invariant *)

(** The event the worker owns, and the one it has not performed yet. *)
Definition owned (pc : wpc) : list Z :=
  match pc with
  | W_unlock e _ _ _ => if e =? 0 then [] else [e]
  | W_wait e _ _ | W_wait_gen e _ _ | W_wait_active e _ _ | W_wait_playing e _ _ | W_sleep e _ _ | W_stopped e _
  | W_current e _ | W_perform e | W_free e => [e]
  | _ => []
  end.
Definition pending (pc : wpc) : list Z := match pc with W_free _ => [] | _ => owned pc end.

Definition exiting (pc : wpc) : bool := match pc with W_reset | W_close | W_done => true | _ => false end.
Definition worker_locks (pc : wpc) : bool := match pc with W_take | W_unlock _ _ _ _ => true | _ => false end.
Definition guest_locks (o : gown) : bool :=
  match o with O_locked | O_new_locked _ | O_chain_locked _ => true | _ => false end.
Definition pc_generation (pc : wpc) : option Z :=
  match pc with
  | W_unlock _ _ _ g | W_wait _ g _ | W_wait_gen _ g _ | W_wait_active _ g _ | W_wait_playing _ g _ | W_sleep _ g _
  | W_stopped _ g | W_current _ g => Some g
  | _ => None
  end.

Definition guest_nodes (h : gmap Z midi_event_t) (o : gown) (gl : list Z) : Prop :=
  match o with
  | O_new e | O_new_locked e => gl = [e]
  | O_chain e | O_chain_locked e => chain h e gl
  | _ => gl = []
  end.

(** The heap is the queue, the worker's event and the guest's events. *)
Record mem (h : gmap Z midi_event_t) (hd tl : Z) (qs wl : list Z) (o : gown) (gl : list Z) : Prop := {
  mem_queue : chain h hd qs;
  mem_tail : tl = default 0 (last qs);
  mem_nodup : NoDup (qs ++ wl ++ gl);
  mem_live : forall x, is_Some (h !! x) <-> x ∈ qs ++ wl ++ gl;
  mem_null : h !! 0 = None;
  mem_guest : guest_nodes h o gl }.

(** In the order of the queue; with nothing discarded, without a gap. *)
Definition in_order (rs : bool) (a b : list midi_event_t) : Prop := if rs then a `sublist_of` b else a = b.

Definition steady_ok (wa st : Z) (pc : wpc) : Prop :=
  (wa <> 0 <-> pc <> W_none) /\ (pc <> W_none -> st = 0 /\ exiting pc = false).
Definition phase_ok (ph : phase) (wa st : Z) (pc : wpc) : Prop :=
  match ph with
  | P_any => steady_ok wa st pc
  | P_on => steady_ok wa st pc /\ wa <> 0
  | P_off => steady_ok wa st pc /\ wa = 0
  | P_ready => wa = 0 /\ pc = W_none /\ st = 0
  | P_spawned => wa = 0 /\ pc <> W_none /\ st = 0 /\ exiting pc = false
  | P_stop => wa <> 0 /\ pc <> W_none /\ st <> 0
  | P_joined => pc = W_none
  end.

Definition backend_ok (b : midi_fluidsynth_backend_t) (f : fluid) : Prop :=
  if fb_ready b
  then fb_settings b <> 0 /\ fb_synth b <> 0 /\ fb_driver b <> 0
       /\ fl_settings f = {[fb_settings b]} /\ fl_synths f = {[fb_synth b]} /\ fl_drivers f = {[fb_driver b]}
  else fb_settings b = 0 /\ fb_synth b = 0 /\ fb_driver b = 0 /\ fl_settings f = ∅ /\ fl_synths f = ∅ /\ fl_drivers f = ∅.

Record winv (rs : bool) (w : world) (pc : wpc) (o : gown) (ph : phase) : Prop := {
  wi_mem : exists qs gl, mem (w_heap w) (head (w_s w)) (tail (w_s w)) qs (owned pc) o gl
    /\ in_order rs (w_performed w ++ contents (w_heap w) (pending pc) ++ contents (w_heap w) qs) (w_queued w);
  wi_lock : lock (w_s w) = Z.b2z (guest_locks o || worker_locks pc) /\ guest_locks o && worker_locks pc = false;
  wi_phase : phase_ok ph (worker_active (w_s w)) (stop_worker (w_s w)) pc;
  wi_backend : backend_ok (backend (w_s w)) (w_fluid w)
    /\ (pc = W_none \/ pc = W_done -> fb_ready (backend (w_s w)) = false);
  wi_synth : forall p, o = O_synth p -> steady ph = true /\ backend_usable (backend (w_s w)) = true /\ fb_synth (backend (w_s w)) = p;
  wi_handles : exists st, represents (w_handles w) st;
  wi_keep : rs = false -> stop_worker (w_s w) = 0 /\ generation (w_s w) = 1 /\ forall g, pc_generation pc = Some g -> g = 1 }.

(** *** Memory *)

Lemma mem_empty h hd tl qs wl o gl : mem h hd tl qs wl o gl -> (hd = 0 <-> qs = []).
Proof.
  intros M. apply (chain_nonempty h); [apply M|]. intros Hz.
  assert (is_Some (h !! 0)) as [? E] by (apply M; set_solver). rewrite (mem_null _ _ _ _ _ _ _ M) in E. done.
Qed.

Lemma mem_take_first h hd tl qs o gl :
  mem h hd tl qs [] o gl -> hd <> 0 ->
  exists ev qs', h !! hd = Some ev /\ qs = hd :: qs'
    /\ mem h (ev_next ev) (if ev_next ev =? 0 then 0 else tl) qs' [hd] o gl.
Proof.
  intros M Hne. destruct qs as [|x qs]; [by destruct Hne; apply (mem_empty _ _ _ _ _ _ _ M)|].
  destruct M as [C T N L Z G]. destruct C as [-> (ev & E & C)]. exists ev, qs. split; [done|]. split; [done|].
  assert (P : (x :: qs) ++ [] ++ gl ≡ₚ qs ++ [x] ++ gl) by solve_Permutation.
  assert (Hz : ev_next ev = 0 <-> qs = []).
  { apply (chain_nonempty h); [done|]. intros Hq. assert (is_Some (h !! 0)) as [? ?] by (apply L; set_solver). congruence. }
  split; auto.
  - destruct (Z.eqb_spec (ev_next ev) 0) as [En|En]; [apply Hz in En as ->; done|].
    destruct qs as [|y qs]; [by destruct En; apply Hz|]. by rewrite T, last_cons_cons.
  - by rewrite <- P.
  - intros y. by rewrite L, P.
Qed.

(** Free an event that is not in the queue. *)
Lemma mem_remove h hd tl qs wl o gl e wl' o' gl' :
  mem h hd tl qs wl o gl -> wl ++ gl ≡ₚ e :: (wl' ++ gl') -> guest_nodes (delete e h) o' gl' ->
  is_Some (h !! e) /\ e <> 0 /\ mem (delete e h) hd tl qs wl' o' gl'
  /\ (forall l, e ∉ l -> contents (delete e h) l = contents h l) /\ e ∉ qs.
Proof.
  intros [C T N L Z G] P Hg.
  assert (P' : qs ++ wl ++ gl ≡ₚ e :: (qs ++ wl' ++ gl')) by (rewrite P; solve_Permutation).
  rewrite P' in N. apply NoDup_cons in N as [Ne N].
  assert (Hle : is_Some (h !! e)) by (apply L; rewrite P'; set_solver).
  split; [done|]. split; [intros ->; destruct Hle; congruence|]. split; [|split; [|set_solver]].
  - split; auto.
    + eapply chain_agree; [|exact C]. intros x Hx. apply lookup_delete_ne. set_solver.
    + intros x. destruct (decide (x = e)) as [->|Hx].
      * rewrite lookup_delete_eq. split; [by intros [] | done].
      * rewrite lookup_delete_ne, L, P' by done. set_solver.
    + destruct (decide (e = 0)) as [->|]; [apply lookup_delete_eq | by rewrite lookup_delete_ne].
  - intros l Hl. apply contents_agree. intros x Hx. rewrite lookup_delete_ne; [done|]. intros ->. done.
Qed.

Lemma mem_new h hd tl qs wl e ev :
  mem h hd tl qs wl O_none [] -> h !! e = None -> e <> 0 ->
  mem (<[e := ev]> h) hd tl qs wl (O_new e) [e]
  /\ forall l, (forall x, x ∈ l -> is_Some (h !! x)) -> contents (<[e := ev]> h) l = contents h l.
Proof.
  intros [C T N L Z G] He Hz. split; [split; auto|].
  - eapply chain_agree; [|exact C]. intros x Hx. apply lookup_insert_ne. intros ->.
    assert (is_Some (h !! x)) as [? ?] by (apply L; set_solver). congruence.
  - rewrite app_nil_r in *. rewrite app_assoc. apply NoDup_app. split; [done|]. split; [|apply NoDup_singleton].
    intros x Hx ->%list_elem_of_singleton. apply L in Hx as [? ?]. congruence.
  - intros x. destruct (decide (x = e)) as [->|Hx].
    + rewrite lookup_insert_eq. split; [set_solver | done].
    + rewrite lookup_insert_ne, L by done. set_solver.
  - by rewrite lookup_insert_ne.
  - done.
  - intros l Hl. apply contents_agree. intros x Hx. rewrite lookup_insert_ne; [done|]. intros ->.
    apply Hl in Hx as [? ?]. congruence.
Qed.

(** Rewriting links changes no event. *)
Lemma contents_relink h e ev p :
  h !! e = Some ev -> forall l, contents (<[e := ev_set_next p ev]> h) l = contents h l.
Proof.
  intros E l. apply contents_agree. intros x _. destruct (decide (x = e)) as [->|].
  - by rewrite lookup_insert_eq, E.
  - by rewrite lookup_insert_ne.
Qed.

Lemma heap_live_insert (h : gmap Z midi_event_t) e ev x : is_Some (h !! e) -> (is_Some (<[e := ev]> h !! x) <-> is_Some (h !! x)).
Proof.
  intros E. destruct (decide (x = e)) as [->|]; [rewrite lookup_insert_eq; naive_solver | by rewrite lookup_insert_ne].
Qed.

(** Put the guest's event at the end of the queue. *)
Lemma mem_push h hd tl qs wl e :
  mem h hd tl qs wl (O_new_locked e) [e] ->
  exists ev, h !! e = Some ev /\
    if tl =? 0 then mem (<[e := payload ev]> h) e e (qs ++ [e]) wl O_locked []
    else exists t, <[e := payload ev]> h !! tl = Some t
         /\ mem (<[tl := ev_set_next e t]> (<[e := payload ev]> h)) hd e (qs ++ [e]) wl O_locked [].
Proof.
  intros M. assert (is_Some (h !! e)) as [ev E] by (apply M; set_solver). exists ev. split; [done|].
  pose proof (mem_empty _ _ _ _ _ _ _ M) as Hem. destruct M as [C T N L Z G]. set (h' := <[e := payload ev]> h).
  assert (He : h' !! e = Some (payload ev)) by apply lookup_insert_eq.
  assert (P : qs ++ wl ++ [e] ≡ₚ (qs ++ [e]) ++ wl ++ []) by solve_Permutation.
  assert (Hq : NoDup (qs ++ [e])) by (rewrite P in N; apply NoDup_app in N; apply N).
  assert (Hne : e <> 0) by congruence.
  assert (C' : chain h' hd qs).
  { eapply chain_agree; [|exact C]. intros x Hx. apply lookup_insert_ne. intros ->. apply NoDup_app in Hq. set_solver. }
  assert (L' : forall x, is_Some (h' !! x) <-> x ∈ (qs ++ [e]) ++ wl ++ []).
  { intros x. unfold h'. rewrite heap_live_insert by done. by rewrite L, P. }
  assert (Z' : h' !! 0 = None) by (unfold h'; by rewrite lookup_insert_ne).
  rewrite P in N. destruct (last qs) as [t|] eqn:El.
  - assert (Ht : t ∈ qs) by (by apply last_Some_elem_of). simpl in T. subst tl.
    assert (t <> 0) by (intros ->; assert (is_Some (h !! 0)) as [? ?] by (apply L; set_solver); congruence).
    rewrite (proj2 (Z.eqb_neq t 0)) by done.
    destruct (chain_snoc h' hd qs e (payload ev) t Hq C' He eq_refl El) as (tv & Et & C''). exists tv. split; [done|].
    split; auto.
    + by rewrite last_snoc.
    + intros x. by rewrite heap_live_insert.
    + by rewrite lookup_insert_ne.
    + done.
  - apply last_None in El as ->. simpl in T. subst tl. simpl. split; auto; [|done].
    simpl. split; [done|]. by exists (payload ev).
Qed.

(** Take the whole queue. *)
Lemma mem_take_all h hd tl qs wl : mem h hd tl qs wl O_locked [] -> mem h 0 0 [] wl (O_chain_locked hd) qs.
Proof.
  intros [C T N L Z G]. assert (P : qs ++ wl ++ [] ≡ₚ [] ++ wl ++ qs) by solve_Permutation.
  split; auto; [done | by rewrite <- P | intros x; by rewrite L, P].
Qed.

Lemma mem_own h hd tl qs wl o gl o' :
  mem h hd tl qs wl o gl -> guest_nodes h o' gl -> mem h hd tl qs wl o' gl.
Proof. intros [] ?. by split. Qed.

(** *** FluidSynth *)

Section threads.
Context `{FL : FluidLaws}.

Definition no_objects (f : fluid) : Prop := fl_settings f = ∅ /\ fl_synths f = ∅ /\ fl_drivers f = ∅.

Lemma open_loop_spec path fuel : forall i f, no_objects f ->
  match open_loop fuel i path f with
  | Ret None => True
  | Ret (Some (None, f')) => no_objects f'
  | Ret (Some (Some b, f')) => fb_ready b = true /\ backend_ok b f'
  | _ => False
  end.
Proof.
  induction fuel as [|fuel IH]; intros i f (H1 & H2 & H3); simpl; [done|].
  destruct (new_fluid_settings f) as [st|] eqn:Es; [|done]. apply new_settings_fresh in Es as [Hst _].
  set (f1 := mkFluid _ _ _ _). destruct (new_fluid_synth st f1) as [sy|] eqn:Ey.
  2: { unfold delete_fluid_settings. rewrite bool_decide_true by set_solver. simpl. rewrite H1. repeat split; set_solver. }
  apply new_synth_fresh in Ey as [Hsy _]. set (f2 := mkFluid _ _ _ _).
  assert (Hnext : match (w ← delete_fluid_synth sy f2; w ← delete_fluid_settings st w;
                         if override then Ret (Some (None, w)) else open_loop fuel (S i) path w) with
    | Ret None => True | Ret (Some (None, f')) => no_objects f'
    | Ret (Some (Some b, f')) => fb_ready b = true /\ backend_ok b f' | _ => False end).
  { unfold delete_fluid_synth, delete_fluid_settings. rewrite bool_decide_true by set_solver. simpl.
    rewrite bool_decide_true by set_solver. simpl.
    destruct override; [repeat split; set_solver|]. apply IH. repeat split; simpl; set_solver. }
  destruct (fluid_synth_sfload sy path f2 <? 0); [exact Hnext|].
  destruct (new_fluid_audio_driver (driver_name i) st sy f2) as [d|] eqn:Ed; [|exact Hnext].
  apply new_driver_fresh in Ed as [Hd _]. split; [done|]. unfold backend_ok. simpl. rewrite H1, H2, H3.
  repeat split; try done; set_solver.
Qed.

Lemma open_spec fuel b f :
  backend_ok b f -> fb_ready b = false ->
  match winmm_doom95_midi_backend_open fuel b f with
  | Ret None => True
  | Ret (Some (ok, b', f')) => backend_ok b' f' /\ (fb_ready b' = false <-> ok = 0)
  | _ => False
  end.
Proof.
  unfold winmm_doom95_midi_backend_open. intros Hb Hr. rewrite Hr. unfold backend_ok in Hb. rewrite Hr in Hb.
  destruct Hb as (B1 & B2 & B3 & Hn). destruct (midi_find_soundfont 256) as [path|]; [|by unfold backend_ok; rewrite Hr].
  pose proof (open_loop_spec path fuel 0 f Hn) as Hs. destruct (open_loop fuel 0 path f) as [[[[b'|] f']|]| |]; try done; simpl.
  destruct Hs as [-> Hs]. by split.
Qed.

Lemma synth_do_ok b f c :
  backend_ok b f -> fb_ready b = true ->
  exists f', synth_do (fb_synth b) c f = Ret f' /\ backend_ok b f'.
Proof.
  unfold backend_ok, synth_do. intros Hb Hr. rewrite Hr in *. destruct Hb as (? & ? & ? & ? & Hs & ?).
  rewrite bool_decide_true by set_solver. eexists. split; [done|]. simpl. naive_solver.
Qed.

(** A call on the synthesizer of a backend that is in use. *)
Lemma usable_call b f (m : outcome fluid) :
  backend_ok b f ->
  (m = Ret f \/ backend_usable b = true /\ exists c, m = synth_do (fb_synth b) c f) ->
  exists f', m = Ret f' /\ backend_ok b f'.
Proof.
  intros Hb [-> | [Hu (c & ->)]]; [by exists f|]. apply synth_do_ok; [done|]. unfold backend_usable in Hu. by destruct (fb_ready b).
Qed.

Lemma send_short_ok b f m :
  backend_ok b f -> exists f', winmm_doom95_midi_backend_send_short b m f = Ret f' /\ backend_ok b f'.
Proof.
  intros Hb. apply (usable_call b f); [done|]. unfold winmm_doom95_midi_backend_send_short.
  destruct (backend_usable b); simpl; [|by left]. destruct (short_call m); [right; eauto | by left].
Qed.

Lemma send_sysex_ok b f d :
  backend_ok b f -> exists f', winmm_doom95_midi_backend_send_sysex b d f = Ret f' /\ backend_ok b f'.
Proof.
  intros Hb. apply (usable_call b f); [done|]. unfold winmm_doom95_midi_backend_send_sysex.
  destruct (backend_usable b); simpl; [|by left]. case_goal; [by left | right; eauto].
Qed.

Lemma apply_volume_call_ok b f v :
  backend_ok b f -> exists f', winmm_doom95_midi_backend_apply_volume b v f = Ret f' /\ backend_ok b f'.
Proof.
  intros Hb. apply (usable_call b f); [done|]. unfold winmm_doom95_midi_backend_apply_volume. destruct (backend_usable b); eauto.
Qed.

Lemma reset_ok b f : backend_ok b f -> exists f', winmm_doom95_midi_backend_reset b f = Ret f' /\ backend_ok b f'.
Proof.
  intros Hb. apply (usable_call b f); [done|]. unfold winmm_doom95_midi_backend_reset. destruct (backend_usable b); eauto.
Qed.

Lemma fluid_close_ok b f :
  backend_ok b f -> exists f', winmm_doom95_midi_backend_close b f = Ret (zero_backend, f') /\ backend_ok zero_backend f'.
Proof.
  unfold backend_ok, winmm_doom95_midi_backend_close. destruct (fb_ready b).
  - intros (S1 & S2 & S3 & L1 & L2 & L3). rewrite !(proj2 (Z.eqb_neq _ 0)) by done.
    unfold delete_fluid_audio_driver, delete_fluid_synth, delete_fluid_settings.
    rewrite bool_decide_true by set_solver. simpl. rewrite bool_decide_true by set_solver. simpl.
    rewrite bool_decide_true by set_solver. eexists. split; [done|]. simpl. rewrite L1, L2, L3. repeat split; set_solver.
  - intros (-> & -> & -> & Hn). eexists. split; [done|]. simpl. naive_solver.
Qed.

End threads.
