(* ===== verification/MidiRun.v ===== *)
(** * Executions of the MIDI threads

    The invariant of MidiSafe holds in every interleaving; what follows for memory
    safety, for the order of the events and for the end of the worker. *)
From S2P Require Import Prelude Bytes HandleTable MidiStream MidiParse MidiConc MidiSafe.

Section threads.
Context `{FL : FluidLaws}.

(** ** The worker keeps the invariant *)

Lemma phase_move ph wa st pc pc' :
  phase_ok ph wa st pc -> pc <> W_none -> pc' <> W_none -> (exiting pc' = true -> st <> 0) -> phase_ok ph wa st pc'.
Proof.
  intros Hp Hn Hn' He. assert (Hx : st = 0 -> exiting pc' = false) by (destruct (exiting pc'); intros; [by destruct He | done]).
  destruct ph; simpl in *; unfold steady_ok in *; naive_solver.
Qed.

(** Only a worker that has been told to stop leaves its loop. *)
Lemma phase_exiting ph wa st pc : phase_ok ph wa st pc -> exiting pc = true -> ph = P_stop /\ st <> 0.
Proof.
  intros Hp Hx. assert (Hn : pc <> W_none) by (by intros ->).
  assert (Hs : ~ steady_ok wa st pc) by (intros [_ Hs]; destruct (Hs Hn); congruence).
  destruct ph; simpl in Hp; try tauto. destruct Hp as (_ & _ & _ & ?). congruence.
Qed.

Lemma phase_steady ph wa st pc : phase_ok ph wa st pc -> steady ph = true -> steady_ok wa st pc.
Proof. destruct ph; simpl; try done; tauto. Qed.

(** A step that changes nothing but the place of the worker. *)
Lemma winv_goto rs w pc o ph pc' :
  winv rs w pc o ph -> pc <> W_none -> pc' <> W_none -> pc' <> W_done -> owned pc' = owned pc -> pending pc' = pending pc ->
  worker_locks pc' = worker_locks pc -> (exiting pc' = true -> stop_worker (w_s w) <> 0) ->
  (forall g, pc_generation pc' = Some g -> pc_generation pc = Some g) ->
  winv rs w pc' o ph.
Proof.
  intros [M L P [B1 B2] S Hh K] Hn Hn' Hd Eo Ep El He Hg. split; auto.
  - by rewrite Eo, Ep.
  - by rewrite El.
  - by eapply phase_move.
  - split; [done|]. by intros [-> | ->].
  - intros Hrs. destruct (K Hrs) as (? & ? & ?). naive_solver.
Qed.

(** A call of the worker on the synthesizer, or the opening of the backend. *)
Lemma winv_fluid rs w pc o ph pc' f :
  winv rs w pc o ph -> backend_ok (backend (w_s w)) f -> pc <> W_none -> pc' <> W_none -> pc' <> W_done ->
  owned pc' = owned pc -> pending pc' = pending pc ->
  worker_locks pc' = worker_locks pc -> (exiting pc' = true -> stop_worker (w_s w) <> 0) ->
  (forall g, pc_generation pc' = Some g -> pc_generation pc = Some g) ->
  winv rs (with_fluid f w) pc' o ph.
Proof.
  intros W Hb Hn Hn' Hd Eo Ep El He Hg. destruct (winv_goto _ _ _ _ _ pc' W Hn Hn' Hd Eo Ep El He Hg) as [M L P [B1 B2] S Hh K].
  by split.
Qed.

(** Free the worker's event. *)
Lemma winv_free rs w pc o ph pc' e :
  winv rs w pc o ph -> owned pc = [e] -> pc <> W_none -> pc' <> W_none -> pc' <> W_done -> owned pc' = [] ->
  (pending pc = [] \/ rs = true) -> worker_locks pc' = false -> worker_locks pc = false ->
  (exiting pc' = true -> stop_worker (w_s w) <> 0) -> pc_generation pc' = None ->
  exists w', midi_event_free_local e w = Ret w' /\ winv rs w' pc' o ph.
Proof.
  intros [(qs & gl & M & O) L P [B1 B2] S Hh K] Eo Hn Hn' Hd Eo' Ep El El0 He Hg. rewrite Eo in M.
  assert (Hg' : guest_nodes (delete e (w_heap w)) o gl).
  { pose proof (mem_guest _ _ _ _ _ _ _ M) as G. destruct o; simpl in *; try done.
    all: eapply chain_agree; [|exact G]; intros x Hx; apply lookup_delete_ne; intros ->.
    all: pose proof (mem_nodup _ _ _ _ _ _ _ M) as N; apply NoDup_app in N as (_ & _ & N); apply NoDup_cons in N; set_solver. }
  destruct (mem_remove _ _ _ _ _ _ _ e [] o gl M ltac:(done) Hg') as ([ev E] & Hz & M' & C & Hq).
  unfold midi_event_free_local. rewrite (proj2 (Z.eqb_neq e 0)), E by done. simpl. eexists. split; [done|].
  assert (Ep' : pending pc' = []) by (destruct pc'; simpl in *; done).
  split; simpl; auto.
  - exists qs, gl. rewrite Eo', Ep', !C by (done || set_solver). split; [done|]. simpl. destruct Ep as [Ep | ->].
    + rewrite Ep in O. exact O.
    + simpl in *. etrans; [|exact O]. apply sublist_app; [done|]. by apply sublist_inserts_l.
  - rewrite El. by rewrite El0 in L.
  - by eapply phase_move.
  - split; [done|]. by intros [-> | ->].
  - intros Hrs. destruct (K Hrs) as (? & ? & ?). repeat split; try done. by rewrite Hg.
Qed.

(** The worker's step succeeds, unless it has to wait, and keeps the invariant. *)
Definition worker_good (rs : bool) (o : gown) (ph : phase) (r : outcome (option (world * wpc))) : Prop :=
  match r with Ret None => True | Ret (Some (w', pc')) => winv rs w' pc' o ph | _ => False end.

Lemma worker_take_ok rs w o ph :
  winv rs w W_take o ph -> exists w' pc', worker_take w = Ret (w', pc') /\ winv rs w' pc' o ph.
Proof.
  intros [(qs & gl & M & O) L P [B1 B2] S Hh K]. unfold worker_take.
  destruct (Z.eqb_spec (head (w_s w)) 0) as [Hz|Hz].
  - eexists _, _. split; [done|]. split; simpl; auto.
    + by exists qs, gl.
    + by eapply phase_move.
    + split; [done|]. by intros [? | ?].
    + intros Hrs. destruct (K Hrs) as (? & ? & ?). repeat split; congruence.
  - destruct (mem_take_first _ _ _ _ _ _ M Hz) as (ev & qs' & E & -> & M'). rewrite E. simpl. eexists _, _. split; [done|].
    split; simpl; rewrite ?(proj2 (Z.eqb_neq _ 0) Hz); auto.
    + exists qs', gl. split; [done|]. simpl in O |- *. by rewrite E in O |- *.
    + by eapply phase_move.
    + split; [done|]. by intros [? | ?].
    + intros Hrs. destruct (K Hrs) as (? & ? & ?). repeat split; congruence.
Qed.

Lemma worker_perform_ok rs w o ph e :
  winv rs w (W_perform e) o ph -> exists w', worker_perform e w = Ret w' /\ winv rs w' (W_free e) o ph.
Proof.
  intros [(qs & gl & M & O) L P [B1 B2] S Hh K]. unfold worker_perform.
  assert (is_Some (w_heap w !! e)) as [ev E] by (apply M; set_solver). rewrite E. cbn [deref mbind outcome_bind].
  set (w1 := log_performed (payload ev) w).
  assert (W1 : winv rs w1 (W_free e) o ph).
  { split; simpl; auto.
    - exists qs, gl. split; [done|]. simpl in O. rewrite E in O. simpl. by rewrite <- app_assoc.
    - by eapply phase_move.
    - split; [done|]. by intros [? | ?]. }
  destruct (ev_type ev).
  - destruct (send_short_ok (backend (w_s w)) (w_fluid w) (ev_short_msg ev) B1) as (f & Ef & Hf). simpl. rewrite Ef.
    eexists. split; [done|]. by apply (winv_fluid rs w1 (W_free e)).
  - eexists. split; [done|]. destruct W1. by split.
  - destruct (send_sysex_ok (backend (w_s w)) (w_fluid w) (ev_sysex ev) B1) as (f & Ef & Hf). simpl. rewrite Ef.
    eexists. split; [done|]. by apply (winv_fluid rs w1 (W_free e)).
Qed.

(** The parts of the invariant that a step at [W_lock], [W_unlock], [W_ready] or
    [W_close] changes. *)
Lemma winv_lock rs w o ph : winv rs w W_lock o ph -> lock (w_s w) = 0 -> winv rs (with_s (set_lock 1 (w_s w)) w) W_take o ph.
Proof.
  intros [M [L1 L2] P [B1 B2] S Hh K] Hl. rewrite L1 in Hl. assert (Hg : guest_locks o = false) by (by destruct (guest_locks o)).
  split; simpl; auto; [by rewrite Hg | by eapply phase_move | split; [done|]; by intros [? | ?]].
Qed.

Lemma winv_unlock rs w o ph e tempo div gen pc' :
  winv rs w (W_unlock e tempo div gen) o ph ->
  (e = 0 /\ pc' = W_top \/ e <> 0 /\ exists rem, pc' = W_wait e gen rem) ->
  winv rs (with_s (set_lock 0 (w_s w)) w) pc' o ph.
Proof.
  intros [M [L1 L2] P [B1 B2] S Hh K] Hpc.
  assert (Hg : guest_locks o = false) by (by destruct (guest_locks o)).
  assert (Hs : owned pc' = owned (W_unlock e tempo div gen) /\ pending pc' = pending (W_unlock e tempo div gen)
               /\ worker_locks pc' = false /\ exiting pc' = false /\ pc' <> W_none /\ pc' <> W_done
               /\ (pc_generation pc' = None \/ pc_generation pc' = Some gen)).
  { destruct Hpc as [[-> ->] | [Hz [rem ->]]]; simpl; [repeat split; auto; done|]. rewrite (proj2 (Z.eqb_neq e 0) Hz). naive_solver. }
  destruct Hs as (Eo & Ep & El & Ex & N1 & N2 & Eg). split; simpl; auto.
  - by rewrite Eo, Ep.
  - by rewrite Hg, El.
  - eapply phase_move; try done. by rewrite Ex.
  - split; [done|]. by intros [-> | ->].
  - intros Hrs. destruct (K Hrs) as (? & ? & ?). repeat split; try done. intros g Eg'. destruct Eg; naive_solver.
Qed.

Lemma winv_backend rs w pc o ph pc' b f :
  winv rs w pc o ph -> backend_ok b f -> pc <> W_none -> pc' <> W_none ->
  (fb_ready (backend (w_s w)) = false \/ exiting pc = true) -> (pc' = W_done -> fb_ready b = false) ->
  owned pc = [] -> owned pc' = [] -> worker_locks pc = false -> worker_locks pc' = false ->
  (exiting pc' = true -> stop_worker (w_s w) <> 0) -> pc_generation pc' = None ->
  winv rs (with_fluid f (with_s (set_backend b (w_s w)) w)) pc' o ph.
Proof.
  intros [M L P [B1 B2] S Hh K] Hb Hn Hn' Hr Hd Eo Eo' El El' He Hg.
  assert (Ep : pending pc = [] /\ pending pc' = []) by (destruct pc, pc'; simpl in *; done). destruct Ep as [Ep Ep'].
  split; simpl; auto.
  - rewrite Eo', Ep'. by rewrite Eo, Ep in M.
  - rewrite El'. by rewrite El in L.
  - by eapply phase_move.
  - split; [done|]. intros [-> | ->]; auto. done.
  - intros p Ho. destruct (S p Ho) as (Hs & Hu & _). exfalso. destruct Hr as [Hr | Hx].
    + unfold backend_usable in Hu. by rewrite Hr in Hu.
    + by destruct (phase_exiting _ _ _ _ P Hx) as [-> _].
  - intros Hrs. destruct (K Hrs) as (? & ? & ?). repeat split; try done. by rewrite Hg.
Qed.

Lemma worker_step_ok rs choice pc w o ph : winv rs w pc o ph -> worker_good rs o ph (worker_step choice pc w).
Proof.
  intros W. pose proof W as [_ _ _ [B1 B2] _ _ K].
  destruct pc; unfold worker_step; try done.
  - case_goal; apply (winv_goto _ _ W_top); try done. intros _. apply negb_true_iff in E. lia.
  - case_goal; by apply (winv_goto _ _ W_active).
  - case_goal; by apply (winv_goto _ _ W_playing).
  - case_goal; [by apply (winv_goto _ _ W_ready)|].
    pose proof (open_spec (Z.to_nat choice) _ _ B1 E) as Ho.
    destruct (winmm_doom95_midi_backend_open _ _ _) as [[[[ok b] f]|]| |]; try done. destruct Ho as [Hb Hk].
    simpl. apply (winv_backend _ _ W_ready); try done; auto; destruct (ok =? 0); done.
  - destruct (apply_volume_call_ok _ _ (volume (w_s w)) B1) as (f & -> & Hf). by apply (winv_fluid _ _ W_apply).
  - case_goal; [done|]. apply winv_lock; [done|]. lia.
  - destruct (worker_take_ok _ _ _ _ W) as (w' & pc' & -> & W'). exact W'.
  - destruct (Z.eqb_spec e 0) as [->|He]; [eapply winv_unlock; eauto|].
    destruct W as [(qs & gl & M & O) L P Bk S Hh Kk]. 
    assert (is_Some (w_heap w !! e)) as [ev Ev].
    { apply M. simpl. rewrite (proj2 (Z.eqb_neq e 0) He). set_solver. }
    simpl. rewrite Ev. simpl. eapply winv_unlock; [by split; eauto|]. eauto.
  - case_goal; by apply (winv_goto _ _ (W_wait e gen rem)).
  - case_goal; by apply (winv_goto _ _ (W_wait_gen e gen rem)).
  - case_goal; by apply (winv_goto _ _ (W_wait_active e gen rem)).
  - case_goal; by apply (winv_goto _ _ (W_wait_playing e gen rem)).
  - by apply (winv_goto _ _ (W_sleep e gen rem)).
  - case_goal; [|by apply (winv_goto _ _ (W_stopped e gen))].
    assert (Hs : stop_worker (w_s w) <> 0) by (apply negb_true_iff in E; lia).
    destruct (winv_free _ _ _ _ _ W_reset e W) as (w' & -> & W'); try done. right. destruct rs; [done|]. by destruct (K eq_refl).
  - case_goal; [|by apply (winv_goto _ _ (W_current e gen))].
    assert (Hs : generation (w_s w) <> gen) by (apply negb_true_iff in E; lia).
    destruct (winv_free _ _ _ _ _ W_top e W) as (w' & -> & W'); try done. right. destruct rs; [done|].
    destruct (K eq_refl) as (_ & G1 & G2). by rewrite (G2 gen), G1 in Hs.
  - destruct (worker_perform_ok _ _ _ _ _ W) as (w' & -> & W'). exact W'.
  - destruct (winv_free _ _ _ _ _ W_top e W) as (w' & -> & W'); try done. by left.
  - destruct (reset_ok _ _ B1) as (f & -> & Hf). simpl. apply (winv_fluid _ _ W_reset); try done.
    intros _. destruct W as [_ _ P _ _ _ _]. by apply (phase_exiting _ _ _ _ P).
  - destruct (fluid_close_ok _ _ B1) as (f & -> & Hf). simpl. apply (winv_backend _ _ W_close); try done; auto.
    intros _. destruct W as [_ _ P _ _ _ _]. by apply (phase_exiting _ _ _ _ P).
Qed.

(** ** The guest keeps the invariant *)

(** An access that answers, or goes on, in a state that the protocol allows. *)
Definition guest_good (rs : bool) (o : gown) (ph : phase) (c : cmd) (pc : wpc) (r : outcome reply) : Prop :=
  match r with
  | Ret Wait => True
  | Ret (Reply w' pc' z) => exists o' ph', proto rs (o, ph) c z = Some (o', ph') /\ winv rs w' pc' o' ph'
  | Ret (Again w' c') =>
      exists o', (forall z, proto rs (o', ph) c' z = proto rs (o, ph) c z) /\ winv rs w' pc o' ph
  | _ => False
  end.

(** A step of the guest that touches neither memory nor the backend. *)
Lemma winv_fields rs w pc o ph s' pc' o' ph' :
  winv rs w pc o ph ->
  head s' = head (w_s w) -> tail s' = tail (w_s w) -> backend s' = backend (w_s w) ->
  owned pc' = owned pc -> pending pc' = pending pc -> (pc' = W_none \/ pc' = W_done -> pc = W_none \/ pc = W_done) ->
  (forall gl, guest_nodes (w_heap w) o gl -> guest_nodes (w_heap w) o' gl) -> (forall p, o' <> O_synth p) ->
  (lock s' = Z.b2z (guest_locks o' || worker_locks pc') /\ guest_locks o' && worker_locks pc' = false) ->
  phase_ok ph' (worker_active s') (stop_worker s') pc' ->
  (rs = false -> stop_worker s' = 0 /\ generation s' = 1 /\ forall g, pc_generation pc' = Some g -> g = 1) ->
  winv rs (with_s s' w) pc' o' ph'.
Proof.
  intros [(qs & gl & M & O) L P [B1 B2] S Hh K] Eh Et Eb Eo Ep Hd Hg Hs Hl Hp Hk. split; simpl; auto.
  - exists qs, gl. rewrite Eh, Et, Eo, Ep. split; [|done]. eapply mem_own; [exact M|]. apply Hg, M.
  - rewrite Eb. auto.
  - by intros p Hp'%Hs.
Qed.

(** The same without a change of the stream. *)
Lemma winv_own rs w pc o ph o' ph' :
  winv rs w pc o ph -> (forall gl, guest_nodes (w_heap w) o gl -> guest_nodes (w_heap w) o' gl) -> (forall p, o' <> O_synth p) ->
  guest_locks o' = guest_locks o -> phase_ok ph' (worker_active (w_s w)) (stop_worker (w_s w)) pc -> winv rs w pc o' ph'.
Proof.
  intros W Hg Hs El Hp. destruct w as [s h f t q p]. apply (winv_fields rs (mkWorld s h f t q p) pc o ph s pc o' ph'); try done; auto.
  - rewrite El. apply W.
  - apply W.
Qed.

Lemma exec_load_ok rs f choice w pc o ph :
  winv rs w pc o ph -> (forall z, proto rs (o, ph) (CLoad f) z <> None) -> guest_good rs o ph (CLoad f) pc (exec (CLoad f) choice w pc).
Proof.
  intros W Ha. specialize (Ha (get_field f (w_s w))). simpl in *. destruct f, o; try done; try (by eexists _, _).
  destruct (steady ph) eqn:Hs; [|done]. eexists _, _. split; [done|].
  pose proof (phase_steady _ _ _ _ (wi_phase _ _ _ _ _ W) Hs) as Hok.
  change (get_field F_worker_active (w_s w)) with (worker_active (w_s w)).
  eapply winv_own; try done. by destruct (Z.eqb_spec (worker_active (w_s w)) 0).
Qed.

Lemma exec_store_ok rs f v choice w pc o ph :
  winv rs w pc o ph -> (forall z, proto rs (o, ph) (CStore f v) z <> None) ->
  guest_good rs o ph (CStore f v) pc (exec (CStore f v) choice w pc).
Proof.
  intros W Ha. specialize (Ha 0). pose proof W as [_ L P _ _ _ K]. unfold exec, guest_good.
  destruct o; [|by destruct f..]. unfold proto in *. destruct f; try done.
  all: try (eexists _, _; split; [done|]; by eapply winv_fields).
  - destruct ph; try done.
    + destruct (Z.eqb_spec v 1) as [->|]; [|done]. eexists _, _. split; [done|]. eapply winv_fields; try done.
      destruct P as (P1 & P2 & P3 & P4). by repeat split.
    + destruct (Z.eqb_spec v 0) as [->|]; [|done]. eexists _, _. split; [done|]. eapply winv_fields; try done.
  - destruct ph; try done.
    + destruct (Z.eqb_spec v 1) as [->|]; [|done]. destruct rs; [|done]. eexists _, _. split; [done|].
      eapply winv_fields; try done. destruct P as [[P1 P2] P3]. repeat split; [done | by apply P1 | done].
    + destruct (Z.eqb_spec v 0) as [->|]; [|done]. eexists _, _. split; [done|].
      eapply winv_fields; try done; [|intros Hrs; by destruct (K Hrs) as (_ & ? & ?)].
      destruct P as [[P1 P2] P3]. repeat split; try done. destruct pc; try done; by destruct (proj2 P1).
Qed.

(** The worker's event is live, so that a change elsewhere does not show in it. *)
Lemma pending_owned pc x : x ∈ pending pc -> x ∈ owned pc.
Proof. destruct pc; simpl; set_solver. Qed.

(** An access that changes only the guest's part of the heap. *)
Lemma winv_heap rs w pc o ph h' o' gl gl' :
  winv rs w pc o ph ->
  (forall qs, mem (w_heap w) (head (w_s w)) (tail (w_s w)) qs (owned pc) o gl ->
     mem h' (head (w_s w)) (tail (w_s w)) qs (owned pc) o' gl'
     /\ contents h' (pending pc) = contents (w_heap w) (pending pc) /\ contents h' qs = contents (w_heap w) qs) ->
  (forall gl0, guest_nodes (w_heap w) o gl0 -> gl0 = gl) -> guest_locks o' = guest_locks o -> (forall p, o' <> O_synth p) ->
  winv rs (with_heap h' w) pc o' ph.
Proof.
  intros [(qs & gl0 & M & O) L P [B1 B2] S Hh K] Hm Hg El Hs. split; simpl; auto.
  - rewrite (Hg gl0 (mem_guest _ _ _ _ _ _ _ M)) in M. destruct (Hm qs M) as (M' & C1 & C2). exists qs, gl'. by rewrite C1, C2.
  - by rewrite El.
  - by intros p ?%Hs.
Qed.

Lemma exec_new_ok rs ev choice w pc ph :
  winv rs w pc O_none ph -> guest_good rs O_none ph (CNew ev) pc (exec (CNew ev) choice w pc).
Proof.
  intros W. unfold exec. case_goal; [by eexists _, _|]. apply orb_false_iff in E as [Hz Hf].
  apply Z.eqb_neq in Hz. apply bool_decide_eq_false, eq_None_not_Some in Hf.
  simpl. rewrite (proj2 (Z.eqb_neq _ _) Hz). eexists _, _. split; [done|].
  eapply (winv_heap _ _ _ _ _ _ _ [] [choice]); try done. intros qs M. destruct (mem_new _ _ _ _ _ _ ev M Hf Hz) as [M' C].
  split; [done|]. split; apply C; intros x Hx; apply M; [apply pending_owned in Hx|]; set_solver.
Qed.

Lemma guest_removed rs w pc ph e o gl o' gl' :
  winv rs w pc o ph -> guest_nodes (w_heap w) o gl -> (forall gl0, guest_nodes (w_heap w) o gl0 -> gl0 = gl) ->
  gl = e :: gl' -> guest_nodes (delete e (w_heap w)) o' gl' -> guest_locks o' = guest_locks o -> (forall p, o' <> O_synth p) ->
  is_Some (w_heap w !! e) /\ midi_event_free_local e w = Ret (with_heap (delete e (w_heap w)) w)
  /\ winv rs (with_heap (delete e (w_heap w)) w) pc o' ph.
Proof.
  intros W G Hu -> G' El Hs.
  assert (Hm : forall qs, mem (w_heap w) (head (w_s w)) (tail (w_s w)) qs (owned pc) o (e :: gl') ->
    is_Some (w_heap w !! e) /\ e <> 0 /\ mem (delete e (w_heap w)) (head (w_s w)) (tail (w_s w)) qs (owned pc) o' gl'
     /\ contents (delete e (w_heap w)) (pending pc) = contents (w_heap w) (pending pc)
     /\ contents (delete e (w_heap w)) qs = contents (w_heap w) qs).
  { intros qs M. destruct (mem_remove _ _ _ _ _ _ _ e (owned pc) o' gl' M) as (Hl & Hz & M' & C & Hq); [solve_Permutation | done |].
    split_and!; auto. apply C. intros Hx%pending_owned.
    pose proof (mem_nodup _ _ _ _ _ _ _ M) as N. apply NoDup_app in N as (_ & _ & N). apply NoDup_app in N as (_ & N & _).
    by apply (N e Hx); left. }
  pose proof W as [(qs & gl0 & M & O) _ _ _ _ _ _]. rewrite (Hu gl0 (mem_guest _ _ _ _ _ _ _ M)) in M.
  destruct (Hm qs M) as ([ev E] & Hz & _). split; [by eexists|]. split.
  - unfold midi_event_free_local. by rewrite (proj2 (Z.eqb_neq e 0) Hz), E.
  - eapply (winv_heap _ _ _ _ _ _ _ (e :: gl') gl'); try done. intros q Hq. by destruct (Hm q Hq) as (_ & _ & ? & ? & ?).
Qed.

Lemma exec_free_ok rs e w pc choice ph :
  winv rs w pc (O_new e) ph -> guest_good rs (O_new e) ph (CFree e) pc (exec (CFree e) choice w pc).
Proof.
  intros W. destruct (guest_removed _ _ _ _ e (O_new e) [e] O_none [] W) as (_ & Ef & W'); try done.
  unfold exec. rewrite Ef. simpl. rewrite Z.eqb_refl. by eexists _, _.
Qed.

Lemma chain_unique h p l l' : h !! 0 = None -> chain h p l -> chain h p l' -> l' = l.
Proof.
  intros Hz. revert p l'. induction l as [|x l IH]; intros p [|x' l'] C C'; simpl in *; try done.
  - destruct C' as [-> (ev & E & _)]. subst. congruence.
  - destruct C as [-> (ev & E & _)]. subst. congruence.
  - destruct C as [-> (ev & E & C)], C' as [-> (ev' & E' & C')]. rewrite E in E'. injection E' as <-. f_equal. eauto.
Qed.

Lemma exec_free_all_ok rs e w pc choice ph :
  winv rs w pc (O_chain e) ph -> guest_good rs (O_chain e) ph (CFreeAll e) pc (exec (CFreeAll e) choice w pc).
Proof.
  intros W. pose proof W as [(qs & gl & M & O) _ _ _ _ _ _]. pose proof (mem_null _ _ _ _ _ _ _ M) as Hz.
  pose proof (mem_guest _ _ _ _ _ _ _ M) as G. pose proof (mem_nodup _ _ _ _ _ _ _ M) as N. simpl in G. unfold exec.
  destruct (Z.eqb_spec e 0) as [->|He].
  - simpl. eexists _, _. split; [done|]. eapply winv_own; [exact W | | done | done | apply W].
    intros gl0 C. by apply (chain_unique (w_heap w) 0 []).
  - destruct gl as [|x gl]; [done|]. destruct G as [-> (ev & E & C)].
    assert (C' : chain (delete x (w_heap w)) (ev_next ev) gl).
    { eapply chain_agree; [|exact C]. intros y Hy. apply lookup_delete_ne. intros ->.
      apply NoDup_app in N as (_ & _ & N). apply NoDup_app in N as (_ & _ & N). apply NoDup_cons in N as [N _]. done. }
    destruct (guest_removed _ _ _ _ x (O_chain x) (x :: gl) (O_chain (ev_next ev)) gl W) as (_ & Ef & W'); try done.
    + split; [done|]. by exists ev.
    + intros gl0 C0. apply (chain_unique (w_heap w) x); try done. split; [done|]. by exists ev.
    + rewrite E. simpl. rewrite Ef. simpl. exists (O_chain (ev_next ev)). split; [|done]. intros z. by rewrite !Z.eqb_refl.
Qed.

Lemma exec_sysex_ok rs e data w pc choice ph :
  winv rs w pc (O_new e) ph -> guest_good rs (O_new e) ph (CSysex e data) pc (exec (CSysex e data) choice w pc).
Proof.
  intros W. pose proof W as [(qs & gl & M & O) _ _ _ _ _ _]. rewrite (mem_guest _ _ _ _ _ _ _ M) in M.
  assert (is_Some (w_heap w !! e)) as [ev E] by (apply M; set_solver).
  unfold exec. case_goal; simpl; rewrite ?E; simpl; rewrite ?Z.eqb_refl; (eexists _, _; split; [done|]); [done|].
  eapply (winv_heap _ _ _ _ _ _ _ [e] [e]); try done. clear M qs O. intros qs [C T N L Z G].
  assert (Ho : forall x, x ∈ qs ++ owned pc -> <[e := ev_set_sysex data ev]> (w_heap w) !! x = w_heap w !! x).
  { intros x Hx. apply lookup_insert_ne. intros ->. rewrite app_assoc in N. apply NoDup_app in N as (_ & N & _).
    apply (N x Hx). set_solver. }
  split; [split; auto|].
  - eapply chain_agree; [|exact C]. intros x Hx. apply Ho. set_solver.
  - intros x. rewrite heap_live_insert by done. apply L.
  - rewrite lookup_insert_ne; [done|]. congruence.
  - split; apply contents_agree; intros x Hx; rewrite Ho; try done; [apply pending_owned in Hx|]; set_solver.
Qed.

Lemma exec_lock_ok rs w pc choice o ph :
  winv rs w pc o ph -> (forall z, proto rs (o, ph) CLock z <> None) -> guest_good rs o ph CLock pc (exec CLock choice w pc).
Proof.
  intros W Ha. specialize (Ha 0). unfold exec. case_goal; [done|]. assert (Hl : lock (w_s w) = 0) by lia.
  pose proof W as [_ [L1 L2] P _ _ _ K].
  assert (Hw : worker_locks pc = false) by (rewrite L1 in Hl; by destruct (worker_locks pc), (guest_locks o)).
  destruct o; try done; simpl; (eexists _, _; split; [done|]); eapply winv_fields; try done; by rewrite Hw.
Qed.

Lemma exec_unlock_ok rs w pc choice o ph :
  winv rs w pc o ph -> (forall z, proto rs (o, ph) CUnlock z <> None) -> guest_good rs o ph CUnlock pc (exec CUnlock choice w pc).
Proof.
  intros W Ha. specialize (Ha 0). pose proof W as [_ [L1 L2] P _ _ _ K].
  destruct o; try done; simpl in *; (eexists _, _; split; [done|]); eapply winv_fields; try done; by rewrite L2.
Qed.

Lemma exec_push_ok rs w pc choice e ph :
  winv rs w pc (O_new_locked e) ph -> guest_good rs (O_new_locked e) ph (CPush e) pc (exec (CPush e) choice w pc).
Proof.
  intros [(qs & gl & M & O) L P [B1 B2] S Hh K]. rewrite (mem_guest _ _ _ _ _ _ _ M) in M.
  destruct (mem_push _ _ _ _ _ _ M) as (ev & E & Hm).
  assert (Hc : forall h', (forall l, contents h' l = contents (w_heap w) l) ->
    in_order rs (w_performed w ++ contents h' (pending pc) ++ contents h' (qs ++ [e])) (w_queued w ++ [payload ev])).
  { intros h' Hc. rewrite !Hc, contents_app. simpl. rewrite E, !app_assoc.
    destruct rs; simpl in *; [apply sublist_app; [by rewrite <- app_assoc | done] | rewrite <- O; by rewrite !app_assoc]. }
  unfold exec. rewrite E. cbn [deref mbind outcome_bind]. destruct (Z.eqb_spec (tail (w_s w)) 0) as [Hz|Hz]; cbn [negb].
  - simpl. rewrite Z.eqb_refl. eexists _, _. split; [done|]. split; simpl; auto; [|done].
    exists (qs ++ [e]), []. split; [done|]. apply Hc. by apply contents_relink.
  - destruct Hm as (t & Et & Hm). rewrite Et. simpl. rewrite Z.eqb_refl. eexists _, _. split; [done|]. split; simpl; auto; [|done].
    exists (qs ++ [e]), []. split; [done|]. apply Hc. intros l. rewrite contents_relink by done. by apply contents_relink.
Qed.

Lemma exec_take_all_ok w pc choice ph :
  winv true w pc O_locked ph -> guest_good true O_locked ph CTakeAll pc (exec CTakeAll choice w pc).
Proof.
  intros [(qs & gl & M & O) L P [B1 B2] S Hh K]. rewrite (mem_guest _ _ _ _ _ _ _ M) in M.
  simpl. eexists _, _. split; [done|]. split; simpl; auto; [|done].
  exists [], qs. split; [by apply (mem_take_all _ _ (tail (w_s w)))|]. simpl in *. rewrite app_nil_r.
  etrans; [|exact O]. rewrite app_assoc. by apply sublist_inserts_r.
Qed.

Lemma exec_handle_ok rs c w pc choice ph :
  c = CHandleAlloc \/ (exists h, c = CHandleFree h /\ in_u 32 h) ->
  winv rs w pc O_none ph -> guest_good rs O_none ph c pc (exec c choice w pc).
Proof.
  intros Hc [M L P B S [st Hst] K].
  assert (W' : forall t, (exists st, represents t st) -> winv rs (with_handles t w) pc O_none ph) by (intros t Ht; by split).
  destruct Hc as [-> | (h & -> & Hh)].
  - destruct (handle_step_refines (HAlloc HANDLE_TYPE_HMIDI_STREAM ONull) _ _ Hst I) as (t & Et & Ht).
    unfold exec. cbn [handle_step] in Et. destruct (wine_handle_alloc _ _ _) as [[t' h]| |] eqn:Ea; try discriminate Et. cbn [mbind outcome_bind] in Et.
    injection Et as -> _. eexists _, _. split; [done|]. apply W'. eauto.
  - destruct (handle_step_refines (HFree h) _ _ Hst Hh) as (t & Et & Ht).
    unfold exec. cbn [handle_step] in Et. destruct (wine_handle_free _ _) as [t'| |] eqn:Ea; try discriminate Et. cbn [mbind outcome_bind] in Et.
    injection Et as -> _. simpl. unfold in_u in Hh. rewrite (proj2 (Z.leb_le 0 h)), (proj2 (Z.ltb_lt h _)) by lia.
    eexists _, _. split; [done|]. apply W'. eauto.
Qed.

Lemma exec_ok rs c choice w pc o ph :
  winv rs w pc o ph -> (forall z, proto rs (o, ph) c z <> None) -> guest_good rs o ph c pc (exec c choice w pc).
Proof.
  intros W Ha. pose proof (Ha 0) as Ha0. pose proof W as [_ L P [B1 B2] S _ K].
  destruct c; [by apply exec_load_ok | by apply exec_store_ok | ..].
  - destruct o; try done. simpl in Ha0. destruct rs; [|done]. simpl. eexists _, _. split; [done|]. by eapply winv_fields.
  - destruct o; try done. by apply exec_new_ok.
  - destruct o; try done. simpl in Ha0. destruct (Z.eqb_spec e e0) as [->|]; [|done]. by apply exec_sysex_ok.
  - destruct o; try done. simpl in Ha0. destruct (Z.eqb_spec e e0) as [->|]; [|done]. by apply exec_free_ok.
  - by apply exec_lock_ok.
  - by apply exec_unlock_ok.
  - destruct o; try done. simpl in Ha0. destruct (Z.eqb_spec e e0) as [->|]; [|done]. by apply exec_push_ok.
  - destruct o; try done. simpl in Ha0. destruct rs; [|done]. by apply exec_take_all_ok.
  - destruct o; try done. simpl in Ha0. destruct (Z.eqb_spec e e0) as [->|]; [|done]. by apply exec_free_all_ok.
  - destruct o; try done. simpl in *. destruct (steady ph) eqn:Hs; [|done]. eexists _, _. split; [done|].
    case_goal; [done|]. destruct W as [(qs & gl & M & O) L' P' B' S' Hh K']. split; auto.
    + exists qs, gl. split; [|done]. eapply mem_own; [exact M | apply M].
    + intros p [= <-]. destruct (backend_usable (backend (w_s w))) eqn:Hu; [|done]. auto.
  - destruct o; try done. simpl in Ha0. destruct (Z.eqb_spec synth p) as [->|]; [|done].
    destruct (S p eq_refl) as (Hs & Hu & <-). unfold backend_usable in Hu. apply andb_true_iff in Hu as [Hu _].
    destruct (synth_do_ok _ _ (S_gain num) B1 Hu) as (f & Ef & Hf). unfold exec. rewrite Ef. simpl. rewrite Z.eqb_refl.
    eexists _, _. split; [done|]. destruct W as [(qs & gl & M & O) L' P' [B1' B2'] S' Hh K']. split; simpl; auto; [|done].
    exists qs, gl. split; [|done]. eapply mem_own; [exact M | apply M].
  - destruct o, ph; try done. unfold exec. destruct (Z.eqb_spec choice 0) as [->|Hc]; cbn [negb].
    + destruct P as (Hw & -> & Hst). simpl. eexists _, _. split; [done|].
      destruct W as [M L' P' B' S' Hh K']. split; auto. by repeat split.
    + simpl. rewrite (proj2 (Z.eqb_neq choice 0)) by done. eexists _, _. split; [done|].
      eapply winv_own; try done. destruct P as (Hw & -> & Hst). simpl. unfold steady_ok. naive_solver.
  - destruct o, ph; try done. unfold exec. destruct pc; try done. simpl. eexists _, _. split; [done|].
    destruct W as [M L' P' B' S' Hh K']. by split; auto.
  - destruct o; try done. apply exec_handle_ok; auto.
  - destruct o; try done. simpl in Ha0. destruct ((0 <=? h) && (h <? 2 ^ 32)) eqn:Hr; [|done].
    apply exec_handle_ok; [|done]. right. exists h. unfold in_u. split; [done|]. lia.
Qed.

(** ** Every reachable state *)

Definition call_fits (rs : bool) (f : call) : Prop := call_wf f /\ (rs = true \/ keeps_events f = true).

Definition inv (rs : bool) (c : config) : Prop :=
  exists o ph, winv rs (c_w c) (c_pc c) o ph /\ gok rs idle (o, ph) (c_g c) /\ Forall (call_fits rs) (c_calls c).

Lemma inv_init rs calls : Forall (call_fits rs) calls -> inv rs (init calls).
Proof.
  intros Hc. exists O_none, P_any. split; [|done]. split; simpl; try done.
  - exists [], []. split; [|by destruct rs]. split; simpl; try done; [constructor|]. intros x. rewrite lookup_empty.
    split; [by intros [] | set_solver].
  - exists store_init. apply handle_init_represents.
Qed.

(** No move faults, and a move that is made keeps the invariant. *)
Lemma midi_inv_step rs m c :
  inv rs c -> match config_step m c with Ret None => True | Ret (Some c') => inv rs c' | _ => False end.
Proof.
  intros (o & ph & W & G & Hc). destruct m as [choice|choice|]; unfold config_step.
  - pose proof (worker_step_ok rs choice _ _ _ _ W) as Hw. unfold worker_good in Hw.
    destruct (worker_step choice (c_pc c) (c_w c)) as [[[w' pc']|]| |]; try done. by exists o, ph.
  - destruct (c_g c) as [r|a k|]; [done | | done]. cbn [gok] in G.
    assert (Ha : forall z, proto rs (o, ph) a z <> None) by (intros z E; specialize (G z); by rewrite E in G).
    pose proof (exec_ok rs a choice _ _ _ _ W Ha) as Hg. unfold guest_good in Hg.
    destruct (exec a choice (c_w c) (c_pc c)) as [[|w' pc' z|w' a']| |]; try done; simpl.
    + destruct Hg as (o' & ph' & Ep & W'). specialize (G z). rewrite Ep in G. by exists o', ph'.
    + destruct Hg as (o' & Ep & W'). exists o', ph. split; [done|]. split; [|done]. intros z. rewrite Ep. apply G.
  - simpl. destruct (c_g c) as [r|a k|]; [|done..]. destruct (c_calls c) as [|f fs]; [done|].
    apply Forall_cons in Hc as [[Hf Hk] Hc]. destruct G as [Ho Hp]. simpl in Ho, Hp. subst o. exists O_none, P_any.
    split; [|split; [by apply call_ok | done]]. eapply winv_own; try done. eapply phase_steady; [apply W | done].
Qed.

Lemma reachable_inv rs calls c : Forall (call_fits rs) calls -> reachable calls c -> inv rs c.
Proof.
  intros Hc. induction 1 as [|c m c' _ IH E]; [by apply inv_init|]. pose proof (midi_inv_step rs m c IH) as Hs. by rewrite E in Hs.
Qed.

(** C23: Whatever the guest calls, and however its calls and the worker interleave: no
    access touches an event that has been freed or a synthesizer that has been
    deleted, and nothing leaks.  Between two calls the heap holds the events of the
    queue, which is linked from head to tail, and the one event the worker has taken
    from it; when the worker has been joined no object of FluidSynth is left. *)
Theorem midi_threads_safe calls c :
  Forall call_wf calls -> reachable calls c ->
  (forall m, no_fault (config_step m c)) /\
  (c_g c = Done tt ->
   (exists qs, chain (w_heap (c_w c)) (head (w_s (c_w c))) qs /\ tail (w_s (c_w c)) = default 0 (last qs)
      /\ NoDup (qs ++ owned (c_pc c)) /\ forall x, is_Some (w_heap (c_w c) !! x) <-> x ∈ qs ++ owned (c_pc c))
   /\ (c_pc c = W_none -> no_objects (w_fluid (c_w c)))).
Proof.
  intros Hc Hr. assert (Hi : inv true c).
  { eapply reachable_inv; [|exact Hr]. eapply Forall_impl; [exact Hc|]. intros f Hf. split; auto. }
  split.
  - intros m. pose proof (midi_inv_step true m c Hi) as Hs. by destruct (config_step m c).
  - intros Eg. destruct Hi as (o & ph & [(qs & gl & [C T N L Z G] & _) _ _ [B1 B2] _ _ _] & Hg & _). rewrite Eg in Hg.
    destruct Hg as [Ho _]. simpl in Ho. subst o. simpl in G. subst gl. rewrite app_nil_r in *. split; [by exists qs|].
    intros Hn. specialize (B2 (or_introl Hn)). unfold backend_ok in B1. rewrite B2 in B1. unfold no_objects. tauto.
Qed.

(** C24: The synthesizer is given the events in the order in which the guest has put them
    in the queue, each at most once; and as long as the guest calls nothing that
    discards events, no event is left out: those that have been put in the queue are
    those performed, the one the worker holds, and those still in the queue. *)
Theorem midi_events_in_order calls c :
  Forall call_wf calls -> reachable calls c ->
  w_performed (c_w c) `sublist_of` w_queued (c_w c) /\
  (Forall (fun f => keeps_events f = true) calls ->
   exists qs, chain (w_heap (c_w c)) (head (w_s (c_w c))) qs
     /\ w_queued (c_w c) = w_performed (c_w c) ++ contents (w_heap (c_w c)) (pending (c_pc c)) ++ contents (w_heap (c_w c)) qs).
Proof.
  intros Hc Hr. split.
  - destruct (reachable_inv true calls c) as (o & ph & W & _); [|done|].
    { eapply Forall_impl; [exact Hc|]. intros f Hf. split; auto. }
    destruct W as [(qs & gl & _ & O) _ _ _ _ _ _]. etrans; [|exact O]. by apply sublist_inserts_r.
  - intros Hk. destruct (reachable_inv false calls c) as (o & ph & W & _); [|done|].
    { apply Forall_forall. intros f Hf. rewrite Forall_forall in Hc, Hk. split; auto. }
    destruct W as [(qs & gl & M & O) _ _ _ _ _ _]. exists qs. split; [apply M | done].
Qed.

(** ** The worker ends *)

(** A bound on the steps of a worker that has been told to stop. *)
Definition rank (pc : wpc) : nat :=
  match pc with
  | W_none | W_done => 0 | W_close => 1 | W_reset => 2 | W_top | W_stopped _ _ => 3
  | W_free _ | W_wait _ _ _ => 4 | W_perform _ | W_sleep _ _ _ | W_unlock _ _ _ _ => 5
  | W_current _ _ | W_wait_playing _ _ _ | W_take => 6 | W_lock | W_wait_active _ _ _ => 7
  | W_apply | W_wait_gen _ _ _ => 8 | W_ready => 9 | W_playing => 10 | W_active => 11
  end.

Lemma take_rank w w' pc' : worker_take w = Ret (w', pc') -> rank pc' = 5%nat.
Proof. unfold worker_take. case_goal; intros E'; inv_ret; simplify_eq; done. Qed.

Lemma worker_rank choice pc w w' pc' :
  stop_worker (w_s w) <> 0 -> worker_step choice pc w = Ret (Some (w', pc')) -> (rank pc' < rank pc)%nat.
Proof.
  intros Hs E. assert (Hb : (stop_worker (w_s w) =? 0) = false) by lia.
  destruct pc; unfold worker_step in E; rewrite ?Hb, ?andb_false_r in E; try done; cbn [negb] in E.
  all: repeat (inv_ret; simplify_eq; try case_hyp E); simplify_eq; simpl; try lia.
  - case_goal; simpl; lia.
  - match goal with H : worker_take _ = _ |- _ => apply take_rank in H end. lia.
Qed.

(** The synthesizer can be opened, or fails to open, within [choice] attempts. *)
Definition open_answers (choice : Z) : Prop :=
  forall b f, no_objects f -> winmm_doom95_midi_backend_open (Z.to_nat choice) b f <> Ret None.

Lemma worker_progress rs choice pc w :
  winv rs w pc O_none P_stop -> pc <> W_done -> open_answers choice -> worker_step choice pc w <> Ret None.
Proof.
  intros [_ [L _] P [B _] _ _ _] Hd Ho. destruct pc; unfold worker_step; try done.
  all: try (intros E; repeat (inv_ret; simplify_eq; try case_hyp E); done).
  - by destruct P as (_ & ? & _).
  - case_goal; [done|]. specialize (Ho (backend (w_s w)) (w_fluid w)).
    unfold backend_ok in B. rewrite E in B. specialize (Ho ltac:(unfold no_objects; tauto)).
    destruct (winmm_doom95_midi_backend_open _ _ _) as [[[[ok b] f]|]| |]; done.
  - simpl in L. by rewrite L.
Qed.

(** The guest in pthread_join can only wait, until the worker has ended. *)
Lemma join_step m w pc k calls :
  (forall ch, m <> MWorker ch) -> (pc = W_done -> m = MCall) ->
  config_step m (mkConfig w pc (Act CJoin k) calls) = Ret None.
Proof. intros Hw Hd. destruct m as [ch|ch|]; [by destruct (Hw ch)| |done]. simpl. destruct pc; try done. by specialize (Hd eq_refl). Qed.

(** A step of a worker that has been told to stop. *)
Lemma stop_step rs choice w pc :
  winv rs w pc O_none P_stop ->
  (worker_step choice pc w = Ret None /\ (open_answers choice -> pc = W_done)) \/
  exists w' pc', worker_step choice pc w = Ret (Some (w', pc')) /\ winv rs w' pc' O_none P_stop /\ (rank pc' < rank pc)%nat.
Proof.
  intros W. pose proof (worker_step_ok rs choice pc w _ _ W) as Hw. unfold worker_good in Hw.
  destruct (worker_step choice pc w) as [[[w' pc']|]| |] eqn:E; try done; [right|left].
  - exists w', pc'. split; [done|]. split; [done|]. eapply worker_rank; [|exact E]. by destruct (wi_phase _ _ _ _ _ W) as (_ & _ & ?).
  - split; [done|]. intros Ho. destruct (decide (rank pc = 0%nat)) as [Hz|Hz].
    + destruct pc; try done. by destruct (wi_phase _ _ _ _ _ W) as (_ & ? & _).
    + destruct (worker_progress rs choice pc w W); [|done..]. intros ->. by apply Hz.
Qed.

Lemma stop_runs rs k calls choice : forall first chs w pc,
  winv rs w pc O_none P_stop -> (rank pc <= length chs)%nat -> Forall open_answers chs -> (MWorker <$> chs) `sublist_of` first ->
  exists n w', run_schedule (take n (first ++ [MGuest choice])) (mkConfig w pc (Act CJoin k) calls) = Ret (mkConfig w' W_none (k 0) calls).
Proof.
  induction first as [|m first IH]; intros chs w pc W Hr Ho Hs.
  { apply sublist_nil_r, fmap_nil_inv in Hs as ->. exists 1%nat, w. simpl in Hr.
    destruct pc; simpl in Hr; try lia; [|done]. by destruct (wi_phase _ _ _ _ _ W) as (_ & ? & _). }
  assert ((pc = W_done /\ exists ch, m = MGuest ch) \/ ~ (pc = W_done /\ exists ch, m = MGuest ch)) as [[-> [ch ->]]|Hn].
  { destruct m as [|ch|], pc; try (by left; eauto); by right; intros (? & ? & ?). }
  { by exists 1%nat, w. }
  assert (Hstep : exists w' pc' chs', winv rs w' pc' O_none P_stop /\ (rank pc' <= length chs')%nat /\ Forall open_answers chs' /\
    (MWorker <$> chs') `sublist_of` first /\
    default (mkConfig w pc (Act CJoin k) calls) <$> config_step m (mkConfig w pc (Act CJoin k) calls) = Ret (mkConfig w' pc' (Act CJoin k) calls)).
  { apply sublist_cons_r in Hs as [Hs|(l & El & Hs)].
    - destruct m as [ch|ch|].
      + destruct (stop_step rs ch w pc W) as [[E _]|(w' & pc' & E & W' & Hlt)].
        * exists w, pc, chs. simpl. by rewrite E.
        * exists w', pc', chs. simpl. rewrite E. split_and!; [done|lia|done..].
      + exists w, pc, chs. rewrite join_step by (done || (intros ->; destruct Hn; eauto)). done.
      + exists w, pc, chs. done.
    - destruct chs as [|ch chs]; simplify_eq/=. apply Forall_cons in Ho as [Hch Ho].
      destruct (stop_step rs ch w pc W) as [[E Hd]|(w' & pc' & E & W' & Hlt)]; rewrite E.
      + exists w, pc, chs. rewrite (Hd Hch). rewrite (Hd Hch) in W. by split_and!; [|simpl; lia|..].
      + exists w', pc', chs. split_and!; [done|lia|done..]. }
  destruct Hstep as (w' & pc' & chs' & W' & Hr' & Ho' & Hs' & E). destruct (IH chs' w' pc' W' Hr' Ho' Hs') as (n & w2 & E2).
  exists (S n), w2. cbn [app take run_schedule]. destruct (config_step _ _) as [r| |]; try done. cbn in E |- *.
  injection E as ->. exact E2.
Qed.

(** C40: pthread_join returns: when the guest waits for the worker to end, in
    midiStreamClose or midiStreamOpen, then in every schedule that gives the worker
    eleven turns in which opening the synthesizer does not keep it, and the guest a
    turn afterwards, the worker has ended and the guest goes on, with the worker
    joined and nothing else of the guest done.  The schedule may hold any other turns
    before and in between. *)
Theorem midi_stop_joins calls c k first chs choice :
  Forall call_wf calls -> reachable calls c -> c_g c = Act CJoin k ->
  Forall open_answers chs -> length chs = 11%nat -> (MWorker <$> chs) `sublist_of` first ->
  exists n w', run_schedule (take n (first ++ [MGuest choice])) c = Ret (mkConfig w' W_none (k 0) (c_calls c)).
Proof.
  intros Hc Hr Eg Ho Hl Hs. destruct (reachable_inv true calls c) as (o & ph & W & G & _); [|done|].
  { eapply Forall_impl; [exact Hc|]. intros f Hf. split; auto. }
  rewrite Eg in G. specialize (G 0). destruct o; try done. destruct ph; try done. destruct c as [w pc g cs]. simpl in *. subst g.
  apply (stop_runs true k cs choice first chs w pc W); [|done..]. rewrite Hl. destruct pc; simpl; lia.
Qed.
End threads.

(** ** Concrete executions *)

Lemma run_moves_reachable `{FluidSynth} calls ms c c' :
  reachable calls c -> run_moves ms c = Ret (Some c') -> reachable calls c'.
Proof.
  revert c. induction ms as [|m ms IH]; intros c Hr E; simpl in E; [by injection E as <-|].
  destruct (config_step m c) as [[c1|]| |] eqn:Em; try done. eapply IH; [|exact E]. by eapply reach_step.
Qed.

(** A library with one object of each kind that opens the driver at once. *)
Definition fresh_one (l : gset Z) : option Z := if bool_decide (1 ∈ l) then None else Some 1.
Definition demo_fluid : FluidSynth := {|
  new_fluid_settings w := fresh_one (fl_settings w); new_fluid_synth _ w := fresh_one (fl_synths w);
  fluid_synth_sfload _ _ _ := 0; new_fluid_audio_driver _ _ _ w := fresh_one (fl_drivers w);
  getenv_soundfont := None; getenv_driver := None; access_R_OK _ := true |}.

Lemma fresh_one_spec l p : fresh_one l = Some p -> p <> 0 /\ p ∉ l.
Proof. unfold fresh_one. case_bool_decide; naive_solver. Qed.

Lemma demo_laws : @FluidLaws demo_fluid.
Proof. split; intros; by apply fresh_one_spec. Qed.

(** One note in a buffer, the worker started, and the worker playing it. *)
Definition demo_hdr : MIDIHDR_WINE := raw_header (raw_event 0 0x7F3C90 []).
Definition demo_calls : list call := [Call_Out (Some demo_hdr); Call_Restart].
Definition guest_out : list move := MCall :: MGuest 100 :: replicate 3 (MGuest 0).
Definition guest_restart : list move := MCall :: replicate 6 (MGuest 0).
Definition demo_moves : list move := guest_out ++ guest_restart ++ replicate 13 (MWorker 1).

Definition holds_after `{FluidSynth} (ms : list move) (calls : list call) (P : config -> Prop) : Prop :=
  match run_moves ms (init calls) with Ret (Some c) => P c | _ => False end.

Lemma demo_calls_wf : Forall call_wf demo_calls.
Proof. repeat constructor; vm_compute; try done; repeat constructor; vm_compute; done. Qed.

Example demo_note_played :
  @holds_after demo_fluid demo_moves demo_calls (fun c =>
    w_performed (c_w c) = [note 0] /\ fl_calls (w_fluid (c_w c)) = [(1, S_gain 131070); (1, S_noteon 0 60 127)]
    /\ w_heap (c_w c) = ∅).
Proof. vm_compute. done. Qed.

Lemma midi_threads_safe_witness :
  @holds_after demo_fluid demo_moves demo_calls (fun c => forall m, no_fault (@config_step demo_fluid m c)).
Proof.
  unfold holds_after. destruct (@run_moves demo_fluid demo_moves (init demo_calls)) as [[c|]| |] eqn:E;
    [|revert E; vm_compute; done..].
  apply (@midi_threads_safe demo_fluid demo_laws demo_calls c demo_calls_wf).
  eapply run_moves_reachable; [apply reach_init | exact E].
Defined.

Lemma midi_events_in_order_witness :
  @holds_after demo_fluid demo_moves demo_calls (fun c => w_performed (c_w c) `sublist_of` w_queued (c_w c)).
Proof.
  unfold holds_after. destruct (@run_moves demo_fluid demo_moves (init demo_calls)) as [[c|]| |] eqn:E;
    [|revert E; vm_compute; done..].
  apply (@midi_events_in_order demo_fluid demo_laws demo_calls c demo_calls_wf).
  eapply run_moves_reachable; [apply reach_init | exact E].
Defined.

(** midiStreamClose while the worker is about to take the note. *)
Definition stop_calls : list call := [Call_Out (Some demo_hdr); Call_Restart; Call_Close 0].
Definition stop_moves : list move := guest_out ++ guest_restart ++ replicate 6 (MWorker 1) ++ [MCall; MGuest 0; MGuest 0].

Lemma demo_open_answers : @open_answers demo_fluid 1.
Proof.
  intros b f (H1 & H2 & H3). unfold winmm_doom95_midi_backend_open. destruct (fb_ready b); [done|].
  destruct (midi_find_soundfont 256) as [path|]; [|done]. change (Z.to_nat 1) with 1%nat.
  unfold open_loop, new_fluid_settings, new_fluid_synth, new_fluid_audio_driver, fluid_synth_sfload, demo_fluid.
  cbn [fl_settings fl_synths fl_drivers]. rewrite H1, H2, H3. done.
Qed.

(** The guest is in pthread_join, in its last call. *)
Definition joining (c : config) : Prop := match c_g c with Act CJoin _ => c_calls c = [] | _ => False end.

Example stop_moves_join : @holds_after demo_fluid stop_moves stop_calls joining.
Proof. vm_compute. done. Qed.

Lemma stop_calls_wf : Forall call_wf stop_calls.
Proof. pose proof demo_calls_wf as D. inversion D as [|? ? D1 D2]. by repeat constructor. Qed.

(** The guest polls in between. *)
Definition polled (n : nat) : list move := concat (replicate n [MWorker 1; MGuest 0; MWorker 0]).
Lemma polled_sublist n : (MWorker <$> replicate n 1) `sublist_of` polled n.
Proof.
  induction n as [|n IH]; [done|]. unfold polled. cbn [replicate concat fmap list_fmap]. cbn [app].
  apply sublist_skip, sublist_cons, sublist_cons. exact IH.
Qed.

Lemma midi_stop_joins_witness :
  @holds_after demo_fluid stop_moves stop_calls (fun c =>
    exists n w' k, @run_schedule demo_fluid (take n (polled 11 ++ [MGuest 0])) c = Ret (mkConfig w' W_none (k 0) [])).
Proof.
  pose proof stop_moves_join as J. unfold holds_after in *.
  destruct (@run_moves demo_fluid stop_moves (init stop_calls)) as [[c|]| |] eqn:E; [|destruct J..].
  unfold joining in J. destruct (c_g c) as [r|[] k|] eqn:Eg; try contradiction.
  assert (Hr : @reachable demo_fluid stop_calls c) by (eapply run_moves_reachable; [apply reach_init | exact E]).
  destruct (@midi_stop_joins demo_fluid demo_laws stop_calls c k (polled 11) (replicate 11 1) 0 stop_calls_wf Hr Eg)
    as (n & w' & En); [by apply Forall_replicate, demo_open_answers|done|apply polled_sublist|].
  exists n, w', k. rewrite J in En. exact En.
Defined.

(** ** Defects *)

(** midiOutReset invalidates the worker's event before it empties the queue: an event
    that the worker takes in between carries the new generation and is played after
    the reset has returned. *)
Definition reset_calls : list call := [Call_Out (Some demo_hdr); Call_Restart; Call_OutReset].
Definition reset_moves : list move :=
  guest_out ++ guest_restart ++ replicate 5 (MWorker 1)        (* the worker is about to lock the queue *)
  ++ [MCall; MGuest 0; MGuest 0]                                (* generation, playing *)
  ++ replicate 3 (MWorker 1)                                    (* the worker takes the note *)
  ++ replicate 7 (MGuest 0).                                    (* the queue is emptied, the reset returns *)

Example note_played_after_reset :
  @holds_after demo_fluid reset_moves reset_calls (fun c =>
    c_g c = Done tt /\ c_calls c = [] /\ playing (w_s (c_w c)) = 0 /\ head (w_s (c_w c)) = 0 /\ w_performed (c_w c) = []
    /\ match @run_moves demo_fluid (replicate 4 (MWorker 1)) c with
       | Ret (Some c') => w_performed (c_w c') = [note 0] /\ c_g c' = Done tt
       | _ => False
       end).
Proof. vm_compute. done. Qed.

(** The loop over the audio drivers has no end of its own: when the soundfont does not
    load, or no driver opens, and no driver is named in the environment, it never
    returns. *)
Lemma open_loop_diverges `{FluidSynth} :
  (forall w, is_Some (new_fluid_settings w)) -> (forall st w, is_Some (new_fluid_synth st w)) -> override = false ->
  (forall sy path w, fluid_synth_sfload sy path w < 0 \/ forall n st, new_fluid_audio_driver n st sy w = None) ->
  forall fuel i path f, open_loop fuel i path f = Ret None.
Proof.
  intros H1 H2 H3 H4 fuel. induction fuel as [|fuel IH]; intros i path f; [done|]. cbn [open_loop].
  destruct (H1 f) as [st ->]. set (f1 := mkFluid _ _ _ _). destruct (H2 st f1) as [sy ->]. set (f2 := mkFluid _ _ _ _).
  unfold delete_fluid_synth, delete_fluid_settings. rewrite bool_decide_true by set_solver. simpl.
  rewrite bool_decide_true by set_solver. simpl. rewrite H3, IH.
  destruct (H4 sy path f2) as [Hs | Hs]; [by rewrite (proj2 (Z.ltb_lt _ 0)) | rewrite Hs; by destruct (_ <? 0)].
Qed.

Definition silent_fluid : FluidSynth := {|
  new_fluid_settings w := Some 1; new_fluid_synth _ w := Some 1;
  fluid_synth_sfload _ _ _ := 0; new_fluid_audio_driver _ _ _ _ := None;
  getenv_soundfont := None; getenv_driver := None; access_R_OK _ := true |}.

(** On a machine without an audio driver midiStreamClose never returns: the guest
    waits for a worker that is still looking for a driver. *)
Example close_hangs_without_audio :
  @holds_after silent_fluid (MCall :: replicate 6 (MGuest 0) ++ replicate 3 (MWorker 0) ++ [MCall; MGuest 0; MGuest 0])
    [Call_Restart; Call_Close 0] (fun c => joining c /\ forall m, @config_step silent_fluid m c = Ret None).
Proof.
  unfold holds_after.
  set (r := run_moves _ _). vm_compute in r. subst r. split; [done|]. intros [choice|choice|]; [|reflexivity..].
  unfold config_step. cbn [c_pc c_w c_g c_calls]. unfold worker_step. cbn [w_s backend fb_ready w_fluid].
  unfold winmm_doom95_midi_backend_open. cbn [fb_ready].
  destruct (midi_find_soundfont 256) as [path|] eqn:Ep; [|vm_compute in Ep; done].
  rewrite (@open_loop_diverges silent_fluid); try done; eauto.
Qed.

(** Nothing clears app_active: a lost focus does not pause the music. *)
Lemma focus_loss_ignored : winmm_doom95_set_application_active 0 = Done tt.
Proof. reflexivity. Qed.
