(* ===== verification/Joystick.v ===== *)
(** * Joysticks (src/backend/sdl2/rb_input.c, src/msvcrt/winmm_doom95.c)

    joyGetNumDevs, joyGetDevCapsA and joyGetPosEx over the backend's joystick
    functions.  SDL's joysticks are a parameter; the state is the list of joysticks
    that are open. *)
From S2P Require Import Prelude Bytes CStr.

(** What SDL reports for a joystick: an axis reads as a signed 16-bit value. *)
Record SDL_Joystick := mkJoy { joy_name : option cstr; joy_axes : list Z; joy_buttons : list Z }.

Record JOYCAPSA_WINE := mkCaps {
  szPname : list (option Z);         (* [None]: a byte that was never written *)
  wXmin : Z; wXmax : Z; wYmin : Z; wYmax : Z; wZmin : Z; wZmax : Z;
  caps_wNumButtons : Z; wMaxAxes : Z; wNumAxes : Z; wMaxButtons : Z }.

Record JOYINFOEX_WINE := mkJoyInfo {
  ji_dwSize : Z; dwXpos : Z; dwYpos : Z; dwZpos : Z; dwRpos : Z; dwUpos : Z; dwVpos : Z;
  dwButtons : Z; dwButtonNumber : Z; dwPOV : Z }.

Definition JOYERR_PARMS : Z := 165.
Definition JOYERR_UNPLUGGED : Z := 167.
Definition SIZEOF_JOYCAPSA : Z := 404.
Definition SIZEOF_JOYINFOEX : Z := 52.

(** The joystick that [SDL_JoystickOpen] finds at an index. *)
Class SdlJoysticks := { SDL_NumJoysticks : Z; sdl_joystick : Z -> option SDL_Joystick }.

Section joystick.
Context `{SdlJoysticks}.

Definition open_joys := list Z.

Definition rb_sdl_joystick_open_call (idx : Z) (o : open_joys) : option SDL_Joystick * open_joys :=
  match sdl_joystick idx with Some j => (Some j, idx :: o) | None => (None, o) end.
(** Closing a joystick that is not open would be an error. *)
Definition rb_sdl_joystick_close_call (idx : Z) (o : open_joys) : outcome open_joys :=
  match o with i :: o => if i =? idx then Ret o else Fault | [] => Fault end.

Definition SDL_JoystickGetAxis (j : SDL_Joystick) (i : nat) : Z := default 0 (joy_axes j !! i).
Definition SDL_JoystickGetButton (j : SDL_Joystick) (i : nat) : Z := default 0 (joy_buttons j !! i).

Definition rb_joy_count : Z := SDL_NumJoysticks.

(** [strncpy(name, n, len - 1); name[len - 1] = 0], or nothing without a name. *)
Definition joystick_name (len : nat) (n : option cstr) : list (option Z) :=
  match n with
  | Some n => Some <$> (let n := take (len - 1) n in n ++ replicate (len - length n) 0)
  | None => replicate len None
  end.

(** Name, axes, buttons, minimum and maximum. *)
Definition rb_joy_get_caps (idx : Z) (name_len : nat) (o : open_joys)
  : outcome (option (list (option Z) * Z * Z * Z * Z) * open_joys) :=
  if (idx <? 0) || (rb_joy_count <=? idx) then Ret (None, o)
  else
    match rb_sdl_joystick_open_call idx o with
    | (None, o) => Ret (None, o)
    | (Some j, o) =>
        let caps := (joystick_name name_len (joy_name j), Z.of_nat (length (joy_axes j)), Z.of_nat (length (joy_buttons j)), 0, 65535) in
        o ← rb_sdl_joystick_close_call idx o;
        Ret (Some caps, o)
    end.

(** The loops of rb_sdl_joystick_state_call. *)
Definition joystick_axes (j : SDL_Joystick) (n : nat) : list Z := (fun i => u16 (SDL_JoystickGetAxis j i + 32768)) <$> seq 0 n.
Definition joystick_buttons (j : SDL_Joystick) (n : nat) : list Z := (fun i => SDL_JoystickGetButton j i) <$> seq 0 n.

Definition rb_joy_get_state (idx : Z) (n_axes n_buttons : nat) (o : open_joys)
  : outcome (option (list Z * list Z) * open_joys) :=
  if (idx <? 0) || (rb_joy_count <=? idx) then Ret (None, o)
  else
    match rb_sdl_joystick_open_call idx o with
    | (None, o) => Ret (None, o)
    | (Some j, o) =>
        let st := (joystick_axes j n_axes, joystick_buttons j n_buttons) in
        o ← rb_sdl_joystick_close_call idx o;
        Ret (Some st, o)
    end.

Definition joyGetNumDevs : Z := u32 (if rb_joy_count <? 0 then 0 else rb_joy_count).

(** The structure is cleared before the joystick is looked for. *)
Definition zero_caps : JOYCAPSA_WINE := mkCaps (replicate 32 (Some 0)) 0 0 0 0 0 0 0 0 0 0.
Definition joyGetDevCapsA (uJoyID : Z) (caps : option JOYCAPSA_WINE) (cbjc : Z) (o : open_joys)
  : outcome (Z * option JOYCAPSA_WINE * open_joys) :=
  match caps with
  | None => Ret (JOYERR_PARMS, None, o)
  | Some old =>
      if cbjc <? SIZEOF_JOYCAPSA then Ret (JOYERR_PARMS, Some old, o)
      else
        '(r, o) ← rb_joy_get_caps (i32 uJoyID) 32 o;
        match r with
        | None => Ret (JOYERR_UNPLUGGED, Some zero_caps, o)
        | Some (name, axes, buttons, mn, mx) =>
            Ret (0, Some (mkCaps name mn mx mn mx mn mx buttons axes axes buttons), o)
        end
  end.

(** The loop over the buttons: bit i is set when buttons[i] is. *)
Fixpoint button_mask (i : Z) (buttons : list Z) (mask : Z) : Z :=
  match buttons with
  | [] => mask
  | b :: buttons => button_mask (i + 1) buttons (if b =? 0 then mask else Z.lor mask (u32 (Z.shiftl 1 i)))
  end.

Definition joyGetPosEx (uJoyID : Z) (info : option JOYINFOEX_WINE) (o : open_joys)
  : outcome (Z * option JOYINFOEX_WINE * open_joys) :=
  match info with
  | None => Ret (JOYERR_PARMS, None, o)
  | Some old =>
      if ji_dwSize old <? SIZEOF_JOYINFOEX then Ret (JOYERR_PARMS, Some old, o)
      else
        '(r, o) ← rb_joy_get_state (i32 uJoyID) 6 32 o;
        match r with
        | None => Ret (JOYERR_UNPLUGGED, Some old, o)
        | Some (axes, buttons) =>
            let ax i := default 0 (axes !! i) in
            Ret (0, Some (mkJoyInfo (ji_dwSize old) (ax 0%nat) (ax 1%nat) (ax 2%nat) (ax 3%nat) (ax 4%nat) (ax 5%nat)
                            (button_mask 0 buttons 0) 0 0xffffffff), o)
        end
  end.

(** ** Correctness *)

Lemma button_mask_bits buttons i mask k :
  0 <= i -> 0 <= k < 32 -> i + Z.of_nat (length buttons) <= 32 ->
  Z.testbit (button_mask i buttons mask) k
  = Z.testbit mask k || ((i <=? k) && negb (default 0 (buttons !! Z.to_nat (k - i)) =? 0)).
Proof.
  intros Hi Hk. revert i mask Hi. induction buttons as [|b buttons IH]; intros i mask Hi Hl; simpl.
  - by rewrite andb_false_r, orb_false_r.
  - simpl in Hl. rewrite IH by lia.
    assert (Hm : Z.testbit (if b =? 0 then mask else Z.lor mask (u32 (Z.shiftl 1 i))) k
                 = Z.testbit mask k || ((i =? k) && negb (b =? 0))).
    { destruct (b =? 0); [by rewrite andb_false_r, orb_false_r|]. rewrite Z.lor_spec. f_equal.
      rewrite Z.shiftl_mul_pow2, Z.mul_1_l by lia.
      rewrite wrap_small by (split; [lia | apply Z.pow_lt_mono_r; lia]). rewrite Z.pow2_bits_eqb by lia. by rewrite andb_true_r. }
    rewrite Hm, <- orb_assoc. f_equal. destruct (Z.eqb_spec i k) as [->|].
    + rewrite Z.sub_diag, (proj2 (Z.leb_gt (k + 1) k)), Z.leb_refl by lia. simpl. by rewrite orb_false_r.
    + simpl. destruct (Z.leb_spec i k).
      * rewrite (proj2 (Z.leb_le (i + 1) k)) by lia. replace (Z.to_nat (k - i)) with (S (Z.to_nat (k - (i + 1)))) by lia. done.
      * by rewrite (proj2 (Z.leb_gt (i + 1) k)) by lia.
Qed.

(** joyGetPosEx reports the position and the buttons of the joystick, and leaves it
    closed: each of the six axes is shifted to the unsigned range, and bit [k] of
    dwButtons is set exactly when button [k] is pressed. *)
Theorem joyGetPosEx_correct uJoyID old o j :
  0 <= uJoyID < Z.min SDL_NumJoysticks (2 ^ 31) -> sdl_joystick uJoyID = Some j ->
  SIZEOF_JOYINFOEX <= ji_dwSize old -> Forall (fun a => - 2 ^ 15 <= a < 2 ^ 15) (joy_axes j) ->
  exists info, joyGetPosEx uJoyID (Some old) o = Ret (0, Some info, o)
    /\ [dwXpos info; dwYpos info; dwZpos info; dwRpos info; dwUpos info; dwVpos info]
       = (fun i => SDL_JoystickGetAxis j i + 32768) <$> seq 0 6
    /\ forall k, (k < 32)%nat -> Z.testbit (dwButtons info) (Z.of_nat k) = negb (SDL_JoystickGetButton j k =? 0).
Proof.
  intros Hid Hj Hs Hax. unfold joyGetPosEx, rb_joy_get_state, rb_joy_count, rb_sdl_joystick_open_call, rb_sdl_joystick_close_call.
  rewrite (proj2 (Z.ltb_ge _ _) Hs), swrap_small by lia.
  rewrite (proj2 (Z.ltb_ge uJoyID 0)), (proj2 (Z.leb_gt SDL_NumJoysticks uJoyID)), Hj by lia. cbn [orb mbind outcome_bind].
  rewrite Z.eqb_refl. cbn [mbind outcome_bind]. eexists. split; [reflexivity|].
  assert (Ha : forall i, u16 (SDL_JoystickGetAxis j i + 32768) = SDL_JoystickGetAxis j i + 32768).
  { intros i. apply wrap_small. unfold SDL_JoystickGetAxis. destruct (joy_axes j !! i) as [a|] eqn:E; simpl; [|lia].
    apply (Forall_lookup_1 _ _ _ _ Hax) in E. lia. }
  split; [simpl; by rewrite !Ha|]. intros k Hk. cbn [dwButtons].
  rewrite button_mask_bits by (try lia; unfold joystick_buttons; rewrite length_fmap, length_seq; lia).
  rewrite Z.bits_0, Z.sub_0_r, Nat2Z.id, (proj2 (Z.leb_le 0 _)) by lia. cbn [orb andb].
  unfold joystick_buttons. rewrite list_lookup_fmap, lookup_seq_lt by lia. done.
Qed.

(** A joystick whose name SDL does not know: the guest receives 32 bytes of the
    stack that were never written. *)
Lemma unnamed_joystick_leaks_stack uJoyID old o j :
  0 <= uJoyID < Z.min SDL_NumJoysticks (2 ^ 31) -> sdl_joystick uJoyID = Some j -> joy_name j = None ->
  exists caps, joyGetDevCapsA uJoyID (Some old) SIZEOF_JOYCAPSA o = Ret (0, Some caps, o) /\ szPname caps = replicate 32 None.
Proof.
  intros Hid Hj Hn. unfold joyGetDevCapsA, rb_joy_get_caps, rb_joy_count, rb_sdl_joystick_open_call, rb_sdl_joystick_close_call.
  rewrite Z.ltb_irrefl, swrap_small by lia.
  rewrite (proj2 (Z.ltb_ge uJoyID 0)), (proj2 (Z.leb_gt SDL_NumJoysticks uJoyID)), Hj by lia. cbn [orb mbind outcome_bind].
  rewrite Z.eqb_refl, Hn. eexists. by split.
Qed.

End joystick.

Definition demo_joys : SdlJoysticks := {| SDL_NumJoysticks := 1;
  sdl_joystick i := if i =? 0 then Some (mkJoy (Some (lit "pad")) [-32768; 0; 32767] [1; 0; 1]) else None |}.

Lemma joyGetPosEx_correct_witness :
  exists info, @joyGetPosEx demo_joys 0 (Some (mkJoyInfo 52 0 0 0 0 0 0 0 0 0)) [] = Ret (0, Some info, []) /\ dwButtons info = 5.
Proof.
  destruct (@joyGetPosEx_correct demo_joys 0 (mkJoyInfo 52 0 0 0 0 0 0 0 0 0) []
    (mkJoy (Some (lit "pad")) [-32768; 0; 32767] [1; 0; 1])) as (info & E & _ & _).
  - vm_compute. done.
  - done.
  - vm_compute. done.
  - repeat constructor; simpl; lia.
  - exists info. split; [exact E|]. vm_compute in E. injection E as <-. done.
Defined.
